(* ===== verification/_CoqProject ===== *)
-Q . S2P
Prelude.v
Strings.v
CmdLine.v
HandleTable.v
Pmm.v
Pages.v
Sla.v
Mdl.v
Pte.v
PageMap.v
PageFree.v
Commit.v
RwLock.v
Pipe.v
Ob.v
RbTree.v
Heap.v
Vad.v
VadRange.v
Mappable.v
Fault.v
MappedFault.v
TearDown.v
Overlay.v
View.v
Ke.v
Timer.v
Sched.v
SchedSpec.v
Dispatch.v
DispatchSpec.v
DispatchRuns.v
DispatchThms.v
