(* ===== verification/Prelude.v ===== *)
(** * Boron: a model of the kernel of the Boron operating system

    This library models parts of the kernel whose sources are under
    [src/boron] (with the headers of [src/common/include]) and proves what makes
    them correct.  The configuration is the 64-bit one (amd64), built with
    DEBUG, so that an [ASSERT] that fails stops the kernel.

    ** How the model reads

    A C routine is a function of the state that it works on.  It returns an
    [outcome]: [Ok] with its results and the new state, [Crash] for a failed
    [ASSERT], a call of [KeCrash] or an access outside the objects of the code,
    and [OutOfFuel] when a loop is not done after as many rounds as its fuel
    says.  Loops have either a structural argument or such fuel; each theorem
    about a loop gives the fuel that suffices, and says that it returns.
    Machine integers are [Z], reduced by [wrap] ([u8] to [u64]) or [sext] where
    the C code can overflow.  A definition that models code has a comment that
    names the C function, the file and the lines.

    What runs at the same time is a machine: the state has all the threads, the
    critical sections of the code are its steps, and theorems are about every
    sequence of steps.

    ** The parts

    - [Prelude] (this file): outcomes, words, the status codes of
      [common/include/status.h], tactics, list lemmas.
    - [Strings]: [rtl/string.c] over a byte memory with pointers.
    - [CmdLine]: [rtl/cmdline.c], over [Strings] and an interface of the pool.
    - [HandleTable]: [ex/handtab.c], as the arrays of the code and as the map
      of handles that they stand for.
    - [Pmm]: the page frame database of [mm/pmm.c] and the page writer of
      [mm/mpw.c]; [Pages] states what its clients rely on as the classes
      [PageFrames] and [PageFrameLaws], and proves that [Pmm] is an instance.
    - [Sla]: sparse linear arrays and sections ([mm/sla.c], [mm/section.c]),
      and [Mdl]: memory descriptor lists ([mm/mdl.c]), both proved against the
      interface of [Pages] alone.
    - [Pte] and [PageMap]: the page table entries of [mm/amd64/pte.c] and the
      four levels of tables of [mm/amd64/pt.c] and [ptfree.c], in pages of the
      same interface; [PageFree]: which tables [ptfree.c] gives back.
    - [Commit], [Vad], [VadRange]: the address space of a process, over the page
      map and the heap of free ranges: the loops over page table entries, the
      descriptors and services of [mm/vad.c] and [mm/commit.c], and ranges that
      are taken away from whoever has them.
    - [Mappable], [Fault], [MappedFault], [Overlay]: what objects that can be
      mapped promise, the handler of page faults ([mm/fault.c]) on anonymous
      memory and on views, and the copy-on-write overlays of [mm/overlay.c].
    - [TearDown]: the end of an address space ([mm/teardown.c]).
    - [View]: mapping of views ([mm/view.c]) and the memory services of
      [mm/svcs.c].
    - [RwLock]: [ex/rwlock.c] as a machine of any number of threads.
    - [Pipe]: the ring buffer of [io/pipe.c] and its readers and writers.
    - [Ob]: the namespace of [ob/*.c]: objects and their reference counts,
      directories, symbolic links, the lookup of paths and creation by name.
    - [RbTree]: the ordered trees of [rtl/rbtree.c], by their specification,
      and [Heap]: the free address ranges of [mm/heap.c] kept in them.
    - [Ke], [Timer], [Sched], [Dispatch]: the state of the kernel ([ke/*.c]):
      objects, timers, DPCs, threads and processors; timer trees; ready
      queues, choice of threads and switching; waits and the objects to wait
      for.  [SchedSpec] has the queues as lists, [DispatchSpec] the abstract
      dispatcher, [DispatchRuns] the machine of all processors, and
      [DispatchThms] the theorems about all of it.

    ** What is shown

    - Functional correctness: each routine against what it means to do, on
      every branch, with the errors ([Strings], [CmdLine], [HandleTable],
      [Heap], [Pmm], [Sla], [Mdl], [Ob], the routines of [Dispatch]).
    - Equivalence with a reference: sparse arrays and pinned buffers are
      arrays, a handle table is a map, address ranges are a set of addresses.
    - Invariants over all runs: the lists and counters of the page frame
      database, the dispatcher (no thread is lost, none sleeps on an object
      that it could have), the reader-writer lock (who holds it), the pipe
      (what is read is what was written).
    - Refinement: the dispatcher implements an abstract one, in which a waiter
      is a line in a list.
    - Termination and bounds: with the fuel of each loop, and where the code
      does not terminate, that it does not.
    - Errors: where the code does not do what it means to, a theorem states
      what it does instead.  The manifest lists these findings.

    ** What the theorems assume

    Where the code goes wrong beyond repair, the theorems about everything else
    assume that it is not led there:

    - Page maps and address spaces: memory ends below 4 GiB ([po_low] of
      [pm_ok]), since [mm/amd64/pte.c] loses the upper bits of frame numbers.
    - Whatever frees unused tables (releasing, overriding, unmapping, the end of
      a process, giving a view back): no last-level table is completely filled
      ([no_full]), since [ptfree.c] frees such a table with its pages.  The end
      of a process moreover: no entry in use outside of the descriptors, as
      [MiCleanUpVad] can leave some ([cl_cleared] says which).
    - Reserving and mapping of views: not with [MEM_OVERRIDE] (what overriding
      itself does is shown in [VadRange]), and with memory for a node where
      [mm/heap.c] asserts that there is some.
    - The dispatcher machine: the timer of a wait expires only while its thread
      waits; later it would leave the dispatcher locked
      ([KepWaitTimerExpiry_keeps_lock]), and every routine would spin.
    - The page frame database: the count of free pages is exact until a standby
      page is brought back by a reference ([MmPageAddReference_standby]).
    - Names: no reference count overflows, and no object belongs to a driver
      that parses paths (their Parse methods are a parameter); objects come by creation and go by
      their last reference outside of the runs that are considered.
    - Views and overlays: the objects below stay in memory ([ResidentLaws]).

    ** Interfaces

    Code that is not under [src], and hardware, are parameters: the pool, the
    callbacks of handle tables, what probes of user memory
    answer.  Between components the interface is a class, so that the client's
    proofs do not see the implementation: [PageFrames] with its laws for the page
    frames; [Mappables] and [ResidentLaws] for objects that can be mapped, which
    sections implement, and overlays over whatever implements them.

    ** Not modelled

    Cloning of address spaces ([mm/clone.c]), the services that reach into other
    processes, what runs at the same time as an operation of an overlay (its
    mutex), page faults in the kernel half but for the
    definitions, the pool and slab allocators, handles of
    objects and the thread that deletes objects, the I/O manager except for
    pipes (and of these not the assertions on [MDL_FLAG_WRITE]), the check of
    waits for spin locks that are held, creation of processes and threads, APC
    delivery, terminals, loading of images, drivers and user programs;
    third-party code ([fbsdtree.h], [stb_sprintf], flanterm, Limine).  The
    counters of reader-writer locks and of page references are unbounded
    integers.  The order of lock-free memory accesses is sequential. *)
From stdpp Require Export base functions numbers option list gmap fin_maps sorting.
From Stdlib Require Export Lia.

#[global] Arguments Z.add : simpl never.
#[global] Arguments Z.sub : simpl never.
#[global] Arguments Z.mul : simpl never.
#[global] Arguments Z.opp : simpl never.
#[global] Arguments Z.eqb : simpl never.
#[global] Arguments Z.ltb : simpl never.
#[global] Arguments Z.leb : simpl never.
#[global] Arguments Z.of_nat : simpl never.
#[global] Arguments Z.to_nat : simpl never.
#[global] Arguments Z.pow : simpl never.
#[global] Arguments Z.modulo : simpl never.
#[global] Arguments Z.div : simpl never.

(** ** Outcomes *)

(** A C routine either returns, stops the kernel (a failed [ASSERT], a call to
    [KeCrash] or a load or store outside the objects the code owns), or is
    still inside a loop when the iteration budget given to it is used up. *)
Inductive outcome (A : Type) : Type :=
  | Ok (a : A)
  | Crash
  | OutOfFuel.
Arguments Ok {A} a.
Arguments Crash {A}.
Arguments OutOfFuel {A}.

#[export] Instance outcome_ret : MRet outcome := λ A a, Ok a.
#[export] Instance outcome_bind : MBind outcome := λ A B f m,
  match m with Ok a => f a | Crash => Crash | OutOfFuel => OutOfFuel end.

#[export] Instance outcome_eq_dec `{EqDecision A} : EqDecision (outcome A).
Proof. solve_decision. Defined.

(** [ASSERT] of a DEBUG build. *)
Definition check (b : bool) : outcome unit := if b then Ok tt else Crash.

(** A load or a lookup that has to find something. *)
Definition deref {A} (o : option A) : outcome A :=
  match o with Some a => Ok a | None => Crash end.

Lemma bind_Ok {A B} (m : outcome A) (f : A → outcome B) b :
  (m ≫= f) = Ok b ↔ ∃ a, m = Ok a ∧ f a = Ok b.
Proof.
  destruct m as [a| |]; cbn.
  - split; [by exists a|]. by intros (? & [= ->] & ?).
  - split; [done|]. by intros (? & ? & _).
  - split; [done|]. by intros (? & ? & _).
Qed.

Lemma bind_not_fuel {A B} (m : outcome A) (f : A → outcome B) :
  m ≠ OutOfFuel → (∀ a, m = Ok a → f a ≠ OutOfFuel) → (m ≫= f) ≠ OutOfFuel.
Proof. destruct m; cbn; auto. Qed.

Lemma check_Ok b u : check b = Ok u ↔ b = true.
Proof. by destruct b, u. Qed.

Lemma check_true b : b = true → check b = Ok tt.
Proof. by intros ->. Qed.

Lemma deref_Ok {A} (o : option A) a : deref o = Ok a ↔ o = Some a.
Proof. destruct o; cbn; split; congruence. Qed.

Lemma check_not_fuel b : check b ≠ OutOfFuel.
Proof. by destruct b. Qed.

Lemma deref_not_fuel {A} (o : option A) : deref o ≠ OutOfFuel.
Proof. by destruct o. Qed.

Create HintDb boron.
Create Rewrite HintDb boron.
#[export] Hint Resolve check_true check_not_fuel deref_not_fuel : boron.

(** Opens the binds of a hypothesis [_ = Ok _]. *)
Ltac inv_ok :=
  repeat match goal with
    | H : (_ ≫= _) = Ok _ |- _ => apply bind_Ok in H as (? & ? & ?)
    | H : check _ = Ok _ |- _ => apply check_Ok in H
    | H : deref _ = Ok _ |- _ => apply deref_Ok in H
    | H : mret _ = Ok _ |- _ => injection H as H
    | H : Ok _ = Ok _ |- _ => injection H as H
    | H : Crash = Ok _ |- _ => discriminate H
    | H : OutOfFuel = Ok _ |- _ => discriminate H
    end; simplify_eq/=.

(** Case analysis on the scrutinee of the first [match] or [if]. *)
Ltac case_in H :=
  match type of H with
  | context [match ?x with _ => _ end] => destruct x eqn:?; simplify_eq/=
  end.

Ltac bool_hyps :=
  repeat match goal with
    | H : (_ && _) = true |- _ => apply andb_true_iff in H as [? ?]
    | H : (_ || _) = false |- _ => apply orb_false_iff in H as [? ?]
    | H : negb _ = true |- _ => apply negb_true_iff in H
    | H : negb _ = false |- _ => apply negb_false_iff in H
    | H : (_ =? _)%Z = true |- _ => apply Z.eqb_eq in H
    | H : (_ =? _)%Z = false |- _ => apply Z.eqb_neq in H
    | H : (_ <? _)%Z = true |- _ => apply Z.ltb_lt in H
    | H : (_ <? _)%Z = false |- _ => apply Z.ltb_ge in H
    | H : (_ <=? _)%Z = true |- _ => apply Z.leb_le in H
    | H : (_ <=? _)%Z = false |- _ => apply Z.leb_gt in H
    | H : (_ =? _)%nat = true |- _ => apply Nat.eqb_eq in H
    | H : (_ =? _)%nat = false |- _ => apply Nat.eqb_neq in H
    | H : (_ <? _)%nat = true |- _ => apply Nat.ltb_lt in H
    | H : (_ <? _)%nat = false |- _ => apply Nat.ltb_ge in H
    | H : (_ <=? _)%nat = true |- _ => apply Nat.leb_le in H
    | H : (_ <=? _)%nat = false |- _ => apply Nat.leb_gt in H
    | H : bool_decide _ = true |- _ => apply bool_decide_eq_true in H
    | H : bool_decide _ = false |- _ => apply bool_decide_eq_false in H
    end.

(** ** Machine words *)

Declare Scope word_scope.
Delimit Scope word_scope with w.

(** Unsigned arithmetic at a width of [w] bits. *)
Definition wrap (w : Z) (x : Z) : Z := x `mod` 2 ^ w.
Abbreviation u8 := (wrap 8).
Abbreviation u16 := (wrap 16).
Abbreviation u32 := (wrap 32).
Abbreviation u64 := (wrap 64).

(** Two's complement reading of the low [w] bits. *)
Definition sext (w : Z) (x : Z) : Z :=
  let y := wrap w x in if (y <? 2 ^ (w - 1))%Z then y else (y - 2 ^ w)%Z.

Lemma wrap_small w x : (0 ≤ x < 2 ^ w)%Z → wrap w x = x.
Proof. apply Z.mod_small. Qed.

Lemma wrap_range w x : (0 ≤ w)%Z → (0 ≤ wrap w x < 2 ^ w)%Z.
Proof. intros. apply Z.mod_pos_bound. lia. Qed.

Lemma wrap_idemp w x : (0 ≤ w)%Z → wrap w (wrap w x) = wrap w x.
Proof. intros. apply wrap_small, wrap_range. done. Qed.

#[export] Hint Rewrite wrap_idemp using lia : boron.

(** ** Status codes *)

(** [BSTATUS] : common/include/status.h:19-106.
    The range of the statuses of waits is a constructor. *)
Inductive BSTATUS : Set :=
  | STATUS_SUCCESS
  | STATUS_INVALID_PARAMETER
  | STATUS_ACCESS_VIOLATION
  | STATUS_INSUFFICIENT_MEMORY
  | STATUS_UNIMPLEMENTED
  | STATUS_IPL_TOO_HIGH
  | STATUS_REFAULT
  | STATUS_REFAULT_SLEEP
  | STATUS_WAITING
  | STATUS_ALERTED
  | STATUS_TIMEOUT
  | STATUS_KILLED
  | STATUS_KERNEL_APC
  | STATUS_FAULT
  | STATUS_NO_REMAP
  | STATUS_NAME_INVALID
  | STATUS_NAME_COLLISION
  | STATUS_TYPE_MISMATCH
  | STATUS_OBJECT_UNOWNED
  | STATUS_NAME_NOT_FOUND
  | STATUS_UNSUPPORTED_FUNCTION
  | STATUS_PATH_INVALID
  | STATUS_DIRECTORY_DONE
  | STATUS_LOOP_TOO_DEEP
  | STATUS_UNASSIGNED_LINK
  | STATUS_PATH_TOO_DEEP
  | STATUS_NAME_TOO_LONG
  | STATUS_NOT_LINKED
  | STATUS_ALREADY_LINKED
  | STATUS_INVALID_HANDLE
  | STATUS_TABLE_NOT_EMPTY
  | STATUS_DELETE_CANCELED
  | STATUS_TOO_MANY_HANDLES
  | STATUS_PENDING
  | STATUS_INVALID_HEADER
  | STATUS_SAME_FRAME
  | STATUS_NO_MORE_FRAMES
  | STATUS_MORE_PROCESSING_REQUIRED
  | STATUS_INSUFFICIENT_SPACE
  | STATUS_NO_SUCH_DEVICES
  | STATUS_UNLOAD
  | STATUS_NOT_A_DIRECTORY
  | STATUS_IS_A_DIRECTORY
  | STATUS_HARDWARE_IO_ERROR
  | STATUS_UNALIGNED_OPERATION
  | STATUS_NOT_THIS_FILE_SYSTEM
  | STATUS_END_OF_FILE
  | STATUS_BLOCKING_OPERATION
  | STATUS_DIRECTORY_NOT_EMPTY
  | STATUS_OUT_OF_FILE_BOUNDS
  | STATUS_NOT_A_TERMINAL
  | STATUS_INSUFFICIENT_VA_SPACE
  | STATUS_VA_NOT_AT_BASE
  | STATUS_MEMORY_NOT_RESERVED
  | STATUS_MEMORY_COMMITTED
  | STATUS_CONFLICTING_ADDRESSES
  | STATUS_INVALID_EXECUTABLE
  | STATUS_INVALID_ARCHITECTURE
  | STATUS_IS_CHILD_PROCESS
  | STATUS_STILL_RUNNING
  | STATUS_RANGE_WAIT (i : nat)
  | STATUS_RANGE_ABANDONED_WAIT (i : nat).

#[export] Instance BSTATUS_eq_dec : EqDecision BSTATUS.
Proof. solve_decision. Defined.

(** [FAILED] : common/include/status.h:113-113. *)
Definition FAILED (s : BSTATUS) : bool := bool_decide (s ≠ STATUS_SUCCESS).

(** ** Lists *)

(** Index of the first element that satisfies [P]. *)
Fixpoint find_index {A} (P : A → bool) (l : list A) : option nat :=
  match l with
  | [] => None
  | x :: l' => if P x then Some 0 else S <$> find_index P l'
  end.

Lemma find_index_Some {A} (P : A → bool) l i :
  find_index P l = Some i ↔
  ∃ x, l !! i = Some x ∧ P x = true ∧
       ∀ j y, j < i → l !! j = Some y → P y = false.
Proof.
  revert i. induction l as [|x l IH]; intros i; cbn.
  { split; [done|]. intros (x & H & _). done. }
  destruct (P x) eqn:Hx.
  - split.
    + intros [= <-]. exists x. repeat split; try done. lia.
    + intros (y & Hy & HP & Hlt). destruct i as [|i]; [done|].
      specialize (Hlt 0 x ltac:(lia) eq_refl). congruence.
  - rewrite fmap_Some. split.
    + intros (k & Hk & ->). apply IH in Hk as (y & Hy & HP & Hlt).
      exists y. repeat split; try done.
      intros [|j] z Hj Hz; [by injection Hz as <-|]. apply (Hlt j z); [lia|done].
    + intros (y & Hy & HP & Hlt). destruct i as [|i]; cbn in Hy; [congruence|].
      exists i. split; [|done]. apply IH. exists y. repeat split; try done.
      intros j z Hj Hz. apply (Hlt (S j) z); [lia|done].
Qed.

Lemma find_index_None {A} (P : A → bool) l :
  find_index P l = None ↔ ∀ x, x ∈ l → P x = false.
Proof.
  induction l as [|x l IH]; cbn.
  { split; [|done]. intros _ x Hx. by apply not_elem_of_nil in Hx. }
  destruct (P x) eqn:Hx.
  - split; [done|]. intros H. rewrite H in Hx; [done|left].
  - rewrite fmap_None, IH. split.
    + intros H y [->|Hy]%elem_of_cons; [done|by apply H].
    + intros H y Hy. apply H. by right.
Qed.

Lemma find_index_fmap {A B} (f : A → B) (P : B → bool) l :
  find_index P (f <$> l) = find_index (P ∘ f) l.
Proof. induction l as [|x l IH]; cbn; [done|]. by rewrite IH. Qed.

Lemma filter_same {A} (P Q : A → Prop) `{∀ x, Decision (P x)} `{∀ x, Decision (Q x)} (l : list A) :
  (∀ x, x ∈ l → (P x ↔ Q x)) → filter P l = filter Q l.
Proof.
  induction l as [|x l IH]; intros Hpq; [done|].
  assert (filter P l = filter Q l) as Hl by (apply IH; intros y Hy; apply Hpq; by right).
  destruct (decide (P x)) as [Hx|Hx].
  - rewrite !filter_cons_True by (done || by apply Hpq; [left|]). by rewrite Hl.
  - rewrite !filter_cons_False; [done| |done]. intros Hq. by apply Hx, Hpq; [left|].
Qed.

Lemma filter_keep {A} (P : A → Prop) `{∀ x, Decision (P x)} (l : list A) :
  (∀ x, x ∈ l → P x) → filter P l = l.
Proof.
  induction l as [|x l IH]; intros Hp; [done|].
  rewrite filter_cons_True by (apply Hp; left). f_equal. apply IH. intros y Hy. apply Hp. by right.
Qed.

Lemma lookup_Z_lt {A} (l : list A) (i : nat) x :
  l !! i = Some x → (i < length l)%nat.
Proof. apply lookup_lt_Some. Qed.

#[export] Hint Resolve lookup_Z_lt : boron.

Lemma inserts_lookup (l w : list Z) (i j : nat) :
  i + length w ≤ length l →
  list_inserts i w l !! j = if decide (i ≤ j < i + length w)%nat then w !! (j - i)%nat else l !! j.
Proof.
  intros Hl. case_decide as Hj.
  - rewrite list_lookup_inserts by lia. done.
  - destruct (decide (j < i)%nat); [by rewrite list_lookup_inserts_lt|by rewrite list_lookup_inserts_ge by lia].
Qed.

(** *** The list of the values of a function *)

Definition zmap {A} (f : Z → A) (n : Z) : list A := (λ i, f (Z.of_nat i)) <$> seq 0 (Z.to_nat n).

Lemma length_zmap {A} (f : Z → A) n : length (zmap f n) = Z.to_nat n.
Proof. unfold zmap. by rewrite length_fmap, length_seq. Qed.

Lemma zmap_lookup {A} (f : Z → A) n i : i < Z.to_nat n → zmap f n !! i = Some (f (Z.of_nat i)).
Proof. intros Hi. unfold zmap. by rewrite list_lookup_fmap, lookup_seq_lt. Qed.

Lemma zmap_eq {A} (l : list A) f n :
  length l = Z.to_nat n → (∀ i, i < Z.to_nat n → l !! i = Some (f (Z.of_nat i))) → l = zmap f n.
Proof.
  intros Hl Hf. apply list_eq_same_length with (Z.to_nat n); [apply length_zmap|lia|].
  intros i x y Hi Hx Hy. rewrite Hf in Hx by done. rewrite zmap_lookup in Hy by done. congruence.
Qed.

Lemma zmap_ext {A} (f g : Z → A) n : (∀ i, (0 ≤ i < n)%Z → f i = g i) → zmap f n = zmap g n.
Proof.
  intros Hfg. apply zmap_eq; [apply length_zmap|]. intros i Hi. rewrite zmap_lookup by done. f_equal. apply Hfg. lia.
Qed.

Lemma zmap_app {A} (f : Z → A) m n : (0 ≤ m)%Z → (0 ≤ n)%Z → zmap f m ++ zmap (λ i, f (m + i)%Z) n = zmap f (m + n).
Proof.
  intros Hm Hn. apply zmap_eq; [rewrite length_app, !length_zmap; lia|]. intros i Hi.
  destruct (decide (i < Z.to_nat m)) as [Hlt|Hge].
  - by rewrite lookup_app_l, zmap_lookup by (rewrite ?length_zmap; lia).
  - rewrite lookup_app_r, length_zmap, zmap_lookup by (rewrite ?length_zmap; lia). do 2 f_equal. lia.
Qed.

Lemma zmap_take {A} (f : Z → A) m n : (0 ≤ m ≤ n)%Z → take (Z.to_nat m) (zmap f n) = zmap f m.
Proof.
  intros Hm. apply zmap_eq; [rewrite length_take, length_zmap; lia|]. intros i Hi.
  by rewrite lookup_take_lt, zmap_lookup by lia.
Qed.

Lemma zmap_drop {A} (f : Z → A) m n : (0 ≤ m ≤ n)%Z → drop (Z.to_nat m) (zmap f n) = zmap (λ i, f (m + i)%Z) (n - m).
Proof.
  intros Hm. apply zmap_eq; [rewrite length_drop, length_zmap; lia|]. intros i Hi.
  rewrite lookup_drop, zmap_lookup by lia. do 2 f_equal. lia.
Qed.

Lemma zmap_cons {A} (f : Z → A) n : (0 < n)%Z → zmap f n = f 0%Z :: zmap (λ i, f (1 + i)%Z) (n - 1).
Proof.
  intros Hn. symmetry. apply zmap_eq; [cbn; rewrite length_zmap; lia|]. intros [|i] Hi; [done|].
  rewrite lookup_cons_ne_0 by done. rewrite zmap_lookup by (cbn; lia). do 2 f_equal. cbn. lia.
Qed.

(** *** How often a number is in a list *)

Definition count (n : Z) (l : list Z) : Z := Z.of_nat (count_occ Z.eq_dec l n).

Lemma count_app n l l' : count n (l ++ l') = (count n l + count n l')%Z.
Proof. unfold count. rewrite count_occ_app. lia. Qed.

Lemma count_cons n m l : count n (m :: l) = ((if decide (m = n) then 1 else 0) + count n l)%Z.
Proof. unfold count. cbn. destruct (Z.eq_dec m n), (decide (m = n)); done || lia. Qed.

Lemma count_range n l : (0 ≤ count n l ≤ Z.of_nat (length l))%Z.
Proof. unfold count. pose proof (count_occ_bound Z.eq_dec n l). lia. Qed.
