(* ===== verification/Strings.v ===== *)
(** The C string and memory routines of [boron/source/rtl/string.c].

    Memory is a finite map from addresses to bytes; an access outside its
    domain is a [Crash].  Counted loops recurse on their counter.  A loop that
    scans for a terminator gets one more iteration than there are mapped
    bytes, which is enough: each iteration reads a different address. *)
From S2P Require Import Prelude.
Local Open Scope Z_scope.

Abbreviation memory := (gmap Z Z).

Definition ld (m : memory) (p : Z) : outcome Z := deref (m !! p).

Definition st (m : memory) (p v : Z) : outcome memory :=
  _ ← ld m p; Ok (<[p := v]> m).

(** Iterations a scan may need before it has left the mapped memory. *)
Definition scan_fuel (m : memory) : nat := S (size m).

(** ** Copying *)

(** [memcpy] : boron/source/rtl/string.c:20-33.
    The byte loop (the [rep movsb] variant is compiled out by the [#undef]). *)
Fixpoint memcpy (m : memory) (dstp srcp : Z) (n : nat) : outcome memory :=
  match n with
  | O => Ok m
  | S n => b ← ld m srcp; m ← st m dstp b; memcpy m (dstp + 1) (srcp + 1) n
  end.

(** [memmove] : boron/source/rtl/string.c:49-52.
    The descending loop of [memmove]. *)
Fixpoint memmove_down (m : memory) (dstchr srcchr : Z) (n : nat) : outcome memory :=
  match n with
  | O => Ok m
  | S n =>
      b ← ld m (srcchr - 1); m ← st m (dstchr - 1) b;
      memmove_down m (dstchr - 1) (srcchr - 1) n
  end.

(** [memmove] : boron/source/rtl/string.c:35-56. *)
Definition memmove (m : memory) (dst src : Z) (n : nat) : outcome memory :=
  if dst <=? src then memcpy m dst src n
  else memmove_down m (dst + Z.of_nat n) (src + Z.of_nat n) n.

Definition quad_offsets : list Z := [0; 1; 2; 3; 4; 5; 6; 7].

(** Stores the bytes of one 64-bit word. *)
Fixpoint st_bytes (m : memory) (p : Z) (bs : list Z) : outcome memory :=
  match bs with
  | [] => Ok m
  | b :: bs => m ← st m p b; st_bytes m (p + 1) bs
  end.

Fixpoint ld_bytes (m : memory) (p : Z) (n : nat) : outcome (list Z) :=
  match n with
  | O => Ok []
  | S n => b ← ld m p; bs ← ld_bytes m (p + 1) n; Ok (b :: bs)
  end.

(** [memquadcpy] : boron/source/rtl/string.c:58-71.
    Each iteration loads a whole 64-bit word before it stores it. *)
Fixpoint memquadcpy (m : memory) (dst src : Z) (n : nat) : outcome memory :=
  match n with
  | O => Ok m
  | S n =>
      q ← ld_bytes m src 8; m ← st_bytes m dst q;
      memquadcpy m (dst + 8) (src + 8) n
  end.

(** [memset] : boron/source/rtl/string.c:73-86.
    The [int] argument is cut to a byte by the store through [uint8_t*]. *)
Fixpoint memset (m : memory) (dst c : Z) (n : nat) : outcome memory :=
  match n with
  | O => Ok m
  | S n => m ← st m dst (u8 c); memset m (dst + 1) c n
  end.

(** ** Null-terminated strings *)

(** [strlen] : boron/source/rtl/string.c:95-97. *)
Fixpoint strlen_loop (fuel : nat) (m : memory) (s sz : Z) : outcome Z :=
  match fuel with
  | O => OutOfFuel
  | S fuel =>
      b ← ld m s;
      if b =? 0 then Ok sz else strlen_loop fuel m (s + 1) (sz + 1)
  end.

(** [strlen] : boron/source/rtl/string.c:88-98.
    Address 0 is never mapped, which is the KERNEL/DEBUG crash on NULL. *)
Definition strlen (m : memory) (s : Z) : outcome Z :=
  strlen_loop (scan_fuel m) m s 0.

(** [strcpy] : boron/source/rtl/string.c:100-103. *)
Definition strcpy (m : memory) (s d : Z) : outcome memory :=
  n ← strlen m d; memcpy m s d (Z.to_nat (n + 1)).

(** [strncpy] : boron/source/rtl/string.c:107-112. *)
Fixpoint strncpy_loop (m : memory) (dst src : Z) (n : nat) : outcome memory :=
  match n with
  | O => Ok m
  | S n =>
      b ← ld m src; m ← st m dst b;
      b' ← ld m src;
      strncpy_loop m (dst + 1) (if b' =? 0 then src else src + 1) n
  end.

(** [strncpy] : boron/source/rtl/string.c:105-115. *)
Definition strncpy (m : memory) (dst src : Z) (szBuf : nat) : outcome memory :=
  strncpy_loop m dst src szBuf.

(** [StringCopySafe] : boron/source/rtl/string.c:125-126.
    The copying loop of [StringCopySafe]: the memory and the index where it
    stops.  [n] counts [szBuf - i]. *)
Fixpoint StringCopySafe_loop (m : memory) (dst src : Z) (i n : nat)
  : outcome (memory * nat) :=
  match n with
  | O => Ok (m, i)
  | S n =>
      b ← ld m (src + Z.of_nat i);
      if b =? 0 then Ok (m, i)
      else
        m ← st m (dst + Z.of_nat i) b;
        StringCopySafe_loop m dst src (S i) n
  end.

(** [StringCopySafe] : boron/source/rtl/string.c:117-145.
    [None] is the NULL result.  The SECURE block is not part of any build. *)
Definition StringCopySafe (m : memory) (dst src : Z) (szBuf : nat)
  : outcome (memory * option Z) :=
  if (szBuf =? 0)%nat then Ok (m, None)
  else
    '(m, i) ← StringCopySafe_loop m dst src 0 szBuf;
    m ← (if (i =? szBuf)%nat then st m (dst + Z.of_nat szBuf - 1) 0
         else b ← ld m (src + Z.of_nat i); st m (dst + Z.of_nat i) b);
    Ok (m, Some dst).

(** [strcat] : boron/source/rtl/string.c:147-150. *)
Definition strcat (m : memory) (s src : Z) : outcome memory :=
  n ← strlen m s; strcpy m (s + n) src.

(** [memcmp] : boron/source/rtl/string.c:152-169. *)
Fixpoint memcmp (m : memory) (b1 b2 : Z) (n : nat) : outcome Z :=
  match n with
  | O => Ok 0
  | S n =>
      x ← ld m b1; y ← ld m b2;
      if x <? y then Ok (-1)
      else if y <? x then Ok 1
      else memcmp m (b1 + 1) (b2 + 1) n
  end.

Section char.
(** Whether [char] is signed: it is on amd64 and i386, it is not on ARM. *)
Context (signed_char : bool).

Definition char_of (b : Z) : Z := if signed_char then sext 8 b else b.

(** [strcmp] : boron/source/rtl/string.c:173-187. *)
Fixpoint strcmp_loop (fuel : nat) (m : memory) (s1 s2 : Z) : outcome Z :=
  match fuel with
  | O => OutOfFuel
  | S fuel =>
      x ← ld m s1; y ← ld m s2;
      if (x =? 0) && (y =? 0) then Ok 0
      else if char_of x <? char_of y then Ok (-1)
      else if char_of y <? char_of x then Ok 1
      else strcmp_loop fuel m (s1 + 1) (s2 + 1)
  end.

(** [strcmp] : boron/source/rtl/string.c:171-189. *)
Definition strcmp (m : memory) (s1 s2 : Z) : outcome Z :=
  strcmp_loop (scan_fuel m) m s1 s2.

(** [strncmp] : boron/source/rtl/string.c:191-203. *)
Fixpoint strncmp (m : memory) (str1 str2 : Z) (len : nat) : outcome Z :=
  match len with
  | O => Ok 0
  | S len =>
      x ← ld m str1; y ← ld m str2;
      if negb (char_of x =? char_of y)
      then Ok (if char_of x <? char_of y then -1 else 1)
      else if x =? 0 then Ok 0
      else strncmp m (str1 + 1) (str2 + 1) len
  end.

(** [strchr] : boron/source/rtl/string.c:207-215. *)
Fixpoint strchr_loop (fuel : nat) (m : memory) (str c : Z) : outcome (option Z) :=
  match fuel with
  | O => OutOfFuel
  | S fuel =>
      b ← ld m str;
      if b =? 0 then Ok None
      else if char_of b =? c then Ok (Some str)
      else strchr_loop fuel m (str + 1) c
  end.

(** [strchr] : boron/source/rtl/string.c:205-216. *)
Definition strchr (m : memory) (str c : Z) : outcome (option Z) :=
  strchr_loop (scan_fuel m) m str c.

(** [strstr] : boron/source/rtl/string.c:220-226. *)
Fixpoint strstr_loop (fuel : nat) (m : memory) (haystack needle : Z)
  : outcome (option Z) :=
  match fuel with
  | O => OutOfFuel
  | S fuel =>
      b ← ld m haystack;
      if b =? 0 then Ok None
      else
        n ← strlen m needle;
        c ← strncmp m haystack needle (Z.to_nat n);
        if c =? 0 then Ok (Some haystack)
        else strstr_loop fuel m (haystack + 1) needle
  end.

(** [strstr] : boron/source/rtl/string.c:218-227.
    The loop variable is kept as the pointer [haystack + i]. *)
Definition strstr (m : memory) (haystack needle : Z) : outcome (option Z) :=
  strstr_loop (scan_fuel m) m haystack needle.

(** [StringMatchesCaseInsensitive] : boron/source/rtl/string.c:236-237.
    The ASCII upper-casing of [StringMatchesCaseInsensitive]. *)
Definition upcase (ch : Z) : Z :=
  if (97 <=? ch) && (ch <=? 122) then ch - 97 + 65 else ch.

(** [StringMatchesCaseInsensitive] : boron/source/rtl/string.c:229-247. *)
Fixpoint StringMatchesCaseInsensitive (m : memory) (String1 String2 : Z)
    (Length : nat) : outcome bool :=
  match Length with
  | O => Ok true
  | S Length =>
      x ← ld m String1; y ← ld m String2;
      if negb (upcase (char_of x) =? upcase (char_of y)) then Ok false
      else StringMatchesCaseInsensitive m (String1 + 1) (String2 + 1) Length
  end.

(** [StringContainsCaseInsensitive] : boron/source/rtl/string.c:254-260.
    [n] counts the positions that are left. *)
Fixpoint StringContains_loop (m : memory) (Haystack Needle : Z)
    (NeedleLength n : nat) : outcome bool :=
  match n with
  | O => Ok false
  | S n =>
      b ← StringMatchesCaseInsensitive m Haystack Needle NeedleLength;
      if (b : bool) then Ok true
      else StringContains_loop m (Haystack + 1) Needle NeedleLength n
  end.

(** [StringContainsCaseInsensitive] : boron/source/rtl/string.c:249-261. *)
Definition StringContainsCaseInsensitive (m : memory) (Haystack Needle : Z)
  : outcome bool :=
  NeedleLength ← strlen m Needle;
  HaystackLength ← strlen m Haystack;
  StringContains_loop m Haystack Needle (Z.to_nat NeedleLength)
    (Z.to_nat (HaystackLength - NeedleLength + 1)).
End char.

#[global] Arguments scan_fuel : simpl never.
#[global] Arguments strlen : simpl never.

(** ** Specification vocabulary *)

(** [l] is stored at [p]. *)
Definition cells (m : memory) (p : Z) (l : list Z) : Prop :=
  ∀ (i : nat) x, l !! i = Some x → m !! (p + Z.of_nat i) = Some x.

(** The [n] bytes at [p] can be accessed. *)
Definition mapped (m : memory) (p : Z) (n : nat) : Prop :=
  ∀ i : nat, (i < n)%nat → is_Some (m !! (p + Z.of_nat i)).

(** [l] written over the memory at [p]. *)
Fixpoint wr (m : memory) (p : Z) (l : list Z) : memory :=
  match l with
  | [] => m
  | x :: l => <[p := x]> (wr m (p + 1) l)
  end.

(** The C string [s] (no zero among its bytes) is stored at [p]. *)
Definition cstr (m : memory) (p : Z) (s : list Z) : Prop :=
  Forall (λ b, b ≠ 0) s ∧ cells m p (s ++ [0]).

Lemma cells_nil m p : cells m p [].
Proof. intros i x H. by rewrite lookup_nil in H. Qed.

Lemma cells_cons m p x l :
  cells m p (x :: l) ↔ m !! p = Some x ∧ cells m (p + 1) l.
Proof.
  split.
  - intros H. split.
    + specialize (H O x eq_refl). by rewrite Z.add_0_r in H.
    + intros i y Hy. specialize (H (S i) y Hy).
      by replace (p + 1 + Z.of_nat i) with (p + Z.of_nat (S i)) by lia.
  - intros [Hx H] [|i] y Hy; cbn in Hy.
    + injection Hy as <-. by rewrite Z.add_0_r.
    + apply H in Hy. by replace (p + Z.of_nat (S i)) with (p + 1 + Z.of_nat i) by lia.
Qed.

Lemma cells_app m p l1 l2 :
  cells m p (l1 ++ l2) ↔ cells m p l1 ∧ cells m (p + Z.of_nat (length l1)) l2.
Proof.
  revert p. induction l1 as [|x l1 IH]; intros p; cbn.
  - rewrite Z.add_0_r. split; [|tauto]. intros H. split; [apply cells_nil|done].
  - rewrite !cells_cons, IH.
    replace (p + 1 + Z.of_nat (length l1)) with (p + Z.of_nat (S (length l1))) by lia.
    tauto.
Qed.

Lemma cells_mapped m p l : cells m p l → mapped m p (length l).
Proof.
  intros H i Hi. destruct (lookup_lt_is_Some_2 l i Hi) as [x Hx].
  exists x. by apply H.
Qed.

Lemma mapped_S m p n :
  mapped m p (S n) ↔ is_Some (m !! p) ∧ mapped m (p + 1) n.
Proof.
  split.
  - intros H. split.
    + specialize (H O ltac:(lia)). by rewrite Z.add_0_r in H.
    + intros i Hi. specialize (H (S i) ltac:(lia)).
      by replace (p + 1 + Z.of_nat i) with (p + Z.of_nat (S i)) by lia.
  - intros [Hp H] [|i] Hi.
    + by rewrite Z.add_0_r.
    + replace (p + Z.of_nat (S i)) with (p + 1 + Z.of_nat i) by lia. apply H. lia.
Qed.

Lemma wr_lookup m p l q :
  wr m p l !! q =
    if decide (p ≤ q < p + Z.of_nat (length l)) then l !! Z.to_nat (q - p) else m !! q.
Proof.
  revert p. induction l as [|x l IH]; intros p; cbn.
  { case_decide; [lia|done]. }
  destruct (decide (p = q)) as [->|Hne].
  - rewrite lookup_insert_eq. rewrite decide_True by lia.
    by replace (Z.to_nat (q - q)) with O by lia.
  - rewrite lookup_insert_ne, IH by done. repeat case_decide; try lia; [|done].
    replace (Z.to_nat (q - p)) with (S (Z.to_nat (q - (p + 1)))) by lia. done.
Qed.

Lemma wr_outside m p l q :
  q < p ∨ p + Z.of_nat (length l) ≤ q → wr m p l !! q = m !! q.
Proof. intros H. rewrite wr_lookup, decide_False by lia. done. Qed.

Lemma wr_cells m p l : cells (wr m p l) p l.
Proof.
  intros i x Hi. pose proof (lookup_lt_Some _ _ _ Hi). rewrite wr_lookup, decide_True by lia.
  by replace (Z.to_nat (p + Z.of_nat i - p)) with i by lia.
Qed.

(** Equality of two memories built from [wr] and [insert]. *)
Ltac mem_eq :=
  apply map_eq; intros ?q;
  repeat first
    [ rewrite wr_lookup | rewrite lookup_insert_eq
    | match goal with
      | |- context [<[?a := _]> _ !! ?b] =>
          destruct (decide (a = b));
          [subst; rewrite lookup_insert_eq | rewrite (lookup_insert_ne _ a b) by done]
      end ];
  repeat case_decide; cbn [length app] in *; rewrite ?length_app, ?length_take in *;
  cbn [length] in *; try lia; try done.

Lemma wr_insert_below m p q x l :
  q < p → wr (<[q := x]> m) p l = <[q := x]> (wr m p l).
Proof. intros H. mem_eq. Qed.

Lemma wr_snoc m p l x :
  wr m p (l ++ [x]) = wr (<[p + Z.of_nat (length l) := x]> m) p l.
Proof.
  mem_eq.
  - rewrite lookup_app_r by lia.
    by replace (Z.to_nat (p + Z.of_nat (length l) - p) - length l)%nat with O by lia.
  - by rewrite lookup_app_l by lia.
Qed.

Lemma cells_insert_outside m p l q x :
  q < p ∨ p + Z.of_nat (length l) ≤ q → cells m p l → cells (<[q := x]> m) p l.
Proof.
  intros Hq H i y Hi. pose proof (lookup_lt_Some _ _ _ Hi).
  rewrite lookup_insert_ne by lia. by apply H.
Qed.

Lemma mapped_insert m p n q x : mapped m p n → mapped (<[q := x]> m) p n.
Proof. intros H i Hi. apply lookup_insert_is_Some'. right. by apply H. Qed.

Lemma ld_cells m p x : m !! p = Some x → ld m p = Ok x.
Proof. unfold ld. by intros ->. Qed.

Lemma st_mapped m p v : is_Some (m !! p) → st m p v = Ok (<[p := v]> m).
Proof. unfold st, ld. by intros [x ->]. Qed.

#[export] Hint Resolve cells_mapped mapped_insert cells_nil : boron.

(** ** Copies *)

Lemma memcpy_wr m dst src l :
  cells m src l → mapped m dst (length l) →
  dst ≤ src ∨ src + Z.of_nat (length l) ≤ dst →
  memcpy m dst src (length l) = Ok (wr m dst l).
Proof.
  revert m dst src. induction l as [|x l IH]; intros m dst src Hs Hd Hov; [done|].
  apply cells_cons in Hs as [Hx Hs]. cbn [length] in Hd. apply mapped_S in Hd as [Hp Hd].
  cbn. rewrite (ld_cells _ _ _ Hx). cbn.
  rewrite (st_mapped _ _ _ Hp). cbn. cbn [length] in Hov.
  rewrite IH; [by rewrite wr_insert_below by lia| | |lia].
  - apply cells_insert_outside; [lia|done].
  - by apply mapped_insert.
Qed.

Lemma memmove_down_wr m dst src l :
  cells m src l → mapped m dst (length l) → src < dst →
  memmove_down m (dst + Z.of_nat (length l)) (src + Z.of_nat (length l)) (length l)
  = Ok (wr m dst l).
Proof.
  revert m. induction l as [|x l IH] using rev_ind; intros m Hs Hd Hlt; [done|].
  rewrite length_app, Nat.add_1_r in *.
  apply cells_app in Hs as [Hs Hx]. apply cells_cons in Hx as [Hx _].
  cbn.
  replace (src + Z.of_nat (S (length l)) - 1) with (src + Z.of_nat (length l)) by lia.
  replace (dst + Z.of_nat (S (length l)) - 1) with (dst + Z.of_nat (length l)) by lia.
  rewrite (ld_cells _ _ _ Hx). cbn.
  rewrite st_mapped by (apply Hd; lia). cbn.
  rewrite IH, wr_snoc; [done| | |done].
  - apply cells_insert_outside; [lia|done].
  - apply mapped_insert. intros i Hi. apply Hd. lia.
Qed.

Lemma memmove_wr m dst src l :
  cells m src l → mapped m dst (length l) →
  memmove m dst src (length l) = Ok (wr m dst l).
Proof.
  intros Hs Hd. unfold memmove. destruct (Z.leb_spec dst src).
  - apply memcpy_wr; auto.
  - by apply memmove_down_wr.
Qed.

Lemma memset_wr m dst c n :
  mapped m dst n → memset m dst c n = Ok (wr m dst (replicate n (u8 c))).
Proof.
  revert m dst. induction n as [|n IH]; intros m dst H; [done|].
  apply mapped_S in H as [Hp H]. cbn.
  rewrite (st_mapped _ _ _ Hp). cbn. rewrite IH by by apply mapped_insert.
  by rewrite wr_insert_below by lia.
Qed.

(** ** Scans end *)

Lemma mapped_size m p n : mapped m p n → (n ≤ size m)%nat.
Proof.
  revert m p. induction n as [|n IH]; intros m p H; [lia|].
  apply mapped_S in H as [[x Hx] H].
  assert (mapped (delete p m) (p + 1) n) as Hd%IH.
  { intros i Hi. rewrite lookup_delete_ne by lia. by apply H. }
  rewrite (map_size_delete_Some p m) in Hd by done.
  pose proof (map_size_ne_0_lookup_2 m p (mk_is_Some _ _ Hx)). lia.
Qed.

Lemma cells_size m p l : cells m p l → (length l ≤ size m)%nat.
Proof. intros H%cells_mapped. by eapply mapped_size. Qed.

Lemma strlen_loop_run fuel m p s sz :
  cstr m p s → (length s < fuel)%nat →
  strlen_loop fuel m p sz = Ok (sz + Z.of_nat (length s)).
Proof.
  revert p s sz. induction fuel as [|fuel IH]; intros p s sz [Hnz Hc] Hf; [lia|].
  cbn. destruct s as [|x s]; cbn [app length] in *.
  - apply cells_cons in Hc as [Hx _]. rewrite (ld_cells _ _ _ Hx). cbn. f_equal. lia.
  - apply cells_cons in Hc as [Hx Hc]. apply Forall_cons in Hnz as [Hnx Hnz].
    rewrite (ld_cells _ _ _ Hx). cbn.
    destruct (Z.eqb_spec x 0); [done|].
    rewrite (IH (p + 1) s); [f_equal; lia|done|lia].
Qed.

Lemma strlen_loop_sound fuel m p sz n :
  strlen_loop fuel m p sz = Ok n →
  ∃ s, cstr m p s ∧ n = sz + Z.of_nat (length s).
Proof.
  revert p sz. induction fuel as [|fuel IH]; intros p sz H; [done|].
  cbn in H. inv_ok. unfold ld in *. inv_ok.
  destruct (Z.eqb_spec x 0) as [->|Hx]; inv_ok.
  - exists []. repeat split; [by constructor| |cbn; lia].
    apply cells_cons. split; [done|apply cells_nil].
  - destruct (IH _ _ H0) as (s & [Hnz Hs] & ->). exists (x :: s).
    repeat split; [by constructor|by apply cells_cons|cbn; lia].
Qed.

Lemma strlen_loop_fuel fuel m p sz :
  strlen_loop fuel m p sz = OutOfFuel → mapped m p fuel.
Proof.
  revert p sz. induction fuel as [|fuel IH]; intros p sz H.
  { intros i Hi. lia. }
  cbn in H. unfold ld in H. destruct (m !! p) as [x|] eqn:Hx; [|done].
  cbn in H. destruct (x =? 0); [done|]. apply mapped_S. eauto.
Qed.

Lemma strlen_run m p s : cstr m p s → strlen m p = Ok (Z.of_nat (length s)).
Proof.
  intros H. unfold strlen. rewrite (strlen_loop_run _ _ _ s); [f_equal; lia|done|].
  destruct H as [_ H%cells_size]. rewrite length_app in H. unfold scan_fuel.
  cbn in *. lia.
Qed.

Lemma cstr_cons m p x s : cstr m p (x :: s) → x ≠ 0 ∧ m !! p = Some x ∧ cstr m (p + 1) s.
Proof.
  intros [Hnz Hc]. apply Forall_cons in Hnz as [Hx Hnz]. cbn in Hc.
  apply cells_cons in Hc as [Hp Hc]. by repeat split.
Qed.

Lemma cstr_nil m p : cstr m p [] → m !! p = Some 0.
Proof. intros [_ H%cells_cons]. tauto. Qed.

Lemma cstr_drop m p s i :
  cstr m p s → (i ≤ length s)%nat → cstr m (p + Z.of_nat i) (drop i s).
Proof.
  intros [Hnz Hc] Hi. rewrite <-(take_drop i s) in Hnz, Hc.
  apply Forall_app in Hnz as [_ Hnz]. rewrite <-app_assoc in Hc.
  apply cells_app in Hc as [_ Hc]. rewrite length_take in Hc.
  replace (i `min` length s)%nat with i in Hc by lia. done.
Qed.

(** [s ++ [0]] read at an offset. *)
Lemma cstr_lookup m p s i :
  cstr m p s → (i ≤ length s)%nat →
  m !! (p + Z.of_nat i) = Some (default 0 (s !! i)).
Proof.
  intros H Hi. apply (cstr_drop _ _ _ i) in H; [|done].
  destruct (s !! i) as [x|] eqn:Hx; cbn.
  - rewrite (drop_S _ _ _ Hx) in H. by apply cstr_cons in H as (_ & ? & _).
  - apply lookup_ge_None in Hx. rewrite drop_ge in H by done. by apply cstr_nil.
Qed.

(** ** Bounded copy *)

Lemma StringCopySafe_loop_run m dst src s i n :
  cstr m src s → mapped m dst (i + n) →
  src + Z.of_nat (length s) < dst ∨ dst + Z.of_nat (i + n) ≤ src →
  (i ≤ length s)%nat →
  StringCopySafe_loop (wr m dst (take i s)) dst src i n =
    Ok (wr m dst (take (i + n) s), (i + n) `min` length s)%nat.
Proof.
  intros Hs. revert i. induction n as [|n IH]; intros i Hd Hov Hi.
  { rewrite Nat.add_0_r. cbn. by rewrite Nat.min_l. }
  cbn -[take].
  assert (wr m dst (take i s) !! (src + Z.of_nat i) = Some (default 0 (s !! i))) as Hld.
  { rewrite wr_outside; [by apply cstr_lookup|]. rewrite length_take. lia. }
  rewrite (ld_cells _ _ _ Hld). cbn -[take].
  destruct (s !! i) as [x|] eqn:Hx; cbn -[take].
  - assert (x ≠ 0). { destruct Hs as [Hnz _]. rewrite Forall_lookup in Hnz. eauto. }
    destruct (Z.eqb_spec x 0); [done|]. pose proof (lookup_lt_Some _ _ _ Hx).
    rewrite st_mapped.
    2:{ rewrite wr_outside by (rewrite length_take; lia). apply Hd. lia. }
    cbn -[take]. rewrite Nat.add_succ_r, <-Nat.add_succ_l.
    rewrite <-IH; [|by replace (S i + n)%nat with (i + S n)%nat by lia|lia|lia].
    f_equal. rewrite (take_S_r _ _ _ Hx), wr_snoc, length_take, Nat.min_l by lia.
    mem_eq.
  - apply lookup_ge_None in Hx. rewrite !take_ge by lia. f_equal. f_equal. lia.
Qed.

Lemma StringCopySafe_wr m dst src s szBuf :
  cstr m src s → mapped m dst szBuf → (0 < szBuf)%nat →
  src + Z.of_nat (length s) < dst ∨ dst + Z.of_nat szBuf ≤ src →
  StringCopySafe m dst src szBuf =
    Ok (wr m dst (take (szBuf - 1) s ++ [0]), Some dst).
Proof.
  intros Hs Hd Hpos Hov. unfold StringCopySafe.
  destruct (Nat.eqb_spec szBuf 0); [lia|].
  pose proof (StringCopySafe_loop_run m dst src s 0 szBuf Hs Hd Hov ltac:(lia)) as Hl.
  change (wr m dst (take 0 s)) with m in Hl. rewrite Hl. cbn -[take].
  destruct (Nat.eqb_spec (szBuf `min` length s) szBuf) as [He|Hne].
  - rewrite st_mapped.
    2:{ replace (dst + Z.of_nat szBuf - 1) with (dst + Z.of_nat (szBuf - 1)) by lia.
        rewrite wr_lookup, length_take. case_decide; [|apply Hd; lia].
        apply lookup_lt_is_Some_2. rewrite length_take. lia. }
    cbn -[take]. f_equal. f_equal.
    rewrite wr_snoc, length_take, Nat.min_l by lia.
    destruct (lookup_lt_is_Some_2 s (szBuf - 1)) as [x Hx]; [lia|].
    assert (take szBuf s = take (szBuf - 1) s ++ [x]) as ->.
    { rewrite <-(take_S_r _ _ _ Hx). f_equal. lia. }
    replace (dst + Z.of_nat szBuf - 1) with (dst + Z.of_nat (szBuf - 1)) by lia.
    rewrite !wr_snoc, length_take, Nat.min_l by lia. mem_eq.
  - rewrite Nat.min_r by lia. rewrite !take_ge by lia.
    rewrite (ld_cells _ _ 0).
    2:{ rewrite wr_outside by lia. rewrite (cstr_lookup _ _ s) by (done || lia).
        by rewrite lookup_ge_None_2. }
    cbn. rewrite st_mapped.
    2:{ rewrite wr_outside by lia. apply Hd. lia. }
    cbn. f_equal. f_equal. rewrite wr_snoc. mem_eq.
Qed.

(** ** Comparisons *)

(** Every byte of the memory is one. *)
Definition bytes (m : memory) : Prop := map_Forall (λ _ b, 0 ≤ b < 256) m.

Lemma bytes_lookup m p x : bytes m → m !! p = Some x → 0 ≤ x < 256.
Proof. intros H Hx. exact (H p x Hx). Qed.

Section compare.
Context (signed_char : bool).
Notation char_of := (char_of signed_char).

Lemma char_of_inj x y :
  0 ≤ x < 256 → 0 ≤ y < 256 → char_of x = char_of y → x = y.
Proof.
  unfold Strings.char_of, sext, wrap. destruct signed_char; [|done].
  intros Hx Hy. change (2 ^ 8) with 256. change (2 ^ (8 - 1)) with 128.
  rewrite !Z.mod_small by done. repeat case_match; bool_hyps; lia.
Qed.

Lemma char_of_eqb x y :
  0 ≤ x < 256 → 0 ≤ y < 256 → (char_of x =? char_of y) = (x =? y).
Proof.
  intros Hx Hy. destruct (Z.eqb_spec x y) as [->|Hne]; [apply Z.eqb_refl|].
  apply Z.eqb_neq. intros ?%char_of_inj; done.
Qed.

(** The sign [strcmp] gives to the first difference. *)
Definition char_order (x y : Z) : Z := if char_of x <? char_of y then -1 else 1.

Lemma char_order_nonzero x y : char_order x y ≠ 0.
Proof. unfold char_order. by case_match. Qed.

(** [c] is the comparison of two lists by their first difference. *)
Definition first_difference (l1 l2 : list Z) (c : Z) : Prop :=
  ∃ (i : nat) x y, take i l1 = take i l2 ∧ l1 !! i = Some x ∧ l2 !! i = Some y ∧
    x ≠ y ∧ c = char_order x y.

Lemma first_difference_cons x l1 l2 c :
  first_difference l1 l2 c → first_difference (x :: l1) (x :: l2) c.
Proof.
  intros (i & y & z & Ht & Hy & Hz & Hne & ->). exists (S i), y, z.
  cbn. by rewrite Ht.
Qed.

Lemma first_difference_head x y l1 l2 :
  x ≠ y → first_difference (x :: l1) (y :: l2) (char_order x y).
Proof. intros. by exists O, x, y. Qed.

Lemma strcmp_loop_step fuel m p1 p2 x y :
  bytes m → m !! p1 = Some x → m !! p2 = Some y →
  strcmp_loop signed_char (S fuel) m p1 p2 =
    if negb (x =? y) then Ok (char_order x y)
    else if x =? 0 then Ok 0 else strcmp_loop signed_char fuel m (p1 + 1) (p2 + 1).
Proof.
  intros Hb Hx Hy. cbn. rewrite (ld_cells _ _ _ Hx), (ld_cells _ _ _ Hy).
  cbn. pose proof (bytes_lookup _ _ _ Hb Hx).
  pose proof (bytes_lookup _ _ _ Hb Hy). unfold char_order.
  destruct (Z.eqb_spec x y) as [->|Hne]; cbn.
  - rewrite Z.ltb_irrefl. by destruct (y =? 0).
  - assert (char_of x ≠ char_of y) by (intros ?%char_of_inj; done).
    destruct (Z.eqb_spec x 0), (Z.eqb_spec y 0); cbn [andb]; try lia;
      destruct (Z.ltb_spec (char_of x) (char_of y)); try done;
      destruct (Z.ltb_spec (char_of y) (char_of x)); (done || lia).
Qed.

Lemma strcmp_loop_run fuel m p1 p2 s1 s2 :
  bytes m → cstr m p1 s1 → cstr m p2 s2 → (length s1 < fuel)%nat →
  ∃ c, strcmp_loop signed_char fuel m p1 p2 = Ok c ∧
    (c = 0 ∧ s1 = s2 ∨ first_difference (s1 ++ [0]) (s2 ++ [0]) c).
Proof.
  intros Hb. revert p1 p2 s1 s2. induction fuel as [|fuel IH];
    intros p1 p2 s1 s2 H1 H2 Hf; [lia|].
  destruct s1 as [|x s1], s2 as [|y s2].
  - apply cstr_nil in H1, H2. rewrite (strcmp_loop_step _ _ _ _ 0 0) by done.
    exists 0. auto.
  - apply cstr_nil in H1. apply cstr_cons in H2 as (Hy & H2 & _).
    rewrite (strcmp_loop_step _ _ _ _ 0 y) by done.
    destruct (Z.eqb_spec 0 y); [done|]. eexists. split; [done|]. right.
    by apply first_difference_head.
  - apply cstr_nil in H2. apply cstr_cons in H1 as (Hx & H1 & _).
    rewrite (strcmp_loop_step _ _ _ _ x 0) by done.
    destruct (Z.eqb_spec x 0); [done|]. eexists. split; [done|]. right.
    by apply first_difference_head.
  - apply cstr_cons in H1 as (Hx & Hp1 & H1). apply cstr_cons in H2 as (Hy & Hp2 & H2).
    rewrite (strcmp_loop_step _ _ _ _ x y) by done.
    destruct (Z.eqb_spec x y) as [<-|Hne]; cbn [negb].
    2:{ eexists. split; [done|]. right. by apply first_difference_head. }
    destruct (Z.eqb_spec x 0); [done|]. cbn in Hf.
    destruct (IH _ _ _ _ H1 H2 ltac:(lia)) as (c & -> & Hc). exists c.
    split; [done|]. destruct Hc as [[-> ->]|Hc]; [by left|right].
    by apply first_difference_cons.
Qed.

Lemma cstr_fuel m p s : cstr m p s → (length s < scan_fuel m)%nat.
Proof.
  intros [_ H%cells_size]. rewrite length_app in H. unfold scan_fuel. cbn in H. lia.
Qed.

Lemma strncmp_prefix m p1 p2 s n :
  bytes m → cstr m p1 s → cells m p2 n → Forall (λ b, b ≠ 0) n →
  ∃ c, strncmp signed_char m p1 p2 (length n) = Ok c ∧
    (c =? 0) = bool_decide (take (length n) s = n).
Proof.
  intros Hb. revert p1 p2 s. induction n as [|y n IH]; intros p1 p2 s Hs Hn Hnz.
  { exists 0. rewrite bool_decide_eq_true_2; done. }
  apply cells_cons in Hn as [Hy Hn]. apply Forall_cons in Hnz as [Hny Hnz].
  pose proof (cstr_lookup _ _ _ 0 Hs ltac:(lia)) as Hx. rewrite Z.add_0_r in Hx.
  cbn -[take]. rewrite (ld_cells _ _ _ Hx), (ld_cells _ _ _ Hy).
  cbn -[take]. rewrite char_of_eqb by eauto using bytes_lookup.
  destruct s as [|x s]; cbn -[take].
  - destruct (Z.eqb_spec 0 y); [done|]. eexists. split; [done|].
    rewrite bool_decide_eq_false_2 by done. by case_match.
  - apply cstr_cons in Hs as (Hnx & _ & Hs).
    destruct (Z.eqb_spec x y) as [<-|Hne]; cbn -[take].
    + destruct (Z.eqb_spec x 0); [done|].
      destruct (IH _ _ _ Hs Hn Hnz) as (c & -> & Hc). exists c. split; [done|].
      rewrite Hc. apply bool_decide_ext. cbn. split; [by intros ->|]. intros [= ?]. done.
    + eexists. split; [done|]. rewrite bool_decide_eq_false_2 by (cbn; congruence).
      by case_match.
Qed.

(** [needle] occurs in [hay] at offset [i]. *)
Definition occurs_at (needle hay : list Z) (i : nat) : bool :=
  bool_decide (take (length needle) (drop i hay) = needle).

Lemma strstr_loop_run fuel m hay needle h n :
  bytes m → cstr m hay h → cstr m needle n → (length h < fuel)%nat →
  strstr_loop signed_char fuel m hay needle =
    Ok ((λ i, hay + Z.of_nat i) <$> find_index (occurs_at n h) (seq 0 (length h))).
Proof.
  intros Hb. revert hay h. induction fuel as [|fuel IH]; intros hay h Hh Hn Hf; [lia|].
  destruct h as [|x h]; cbn -[occurs_at].
  { apply cstr_nil in Hh. by rewrite (ld_cells _ _ _ Hh). }
  pose proof Hh as (Hx & Hp & Hh')%cstr_cons. rewrite (ld_cells _ _ _ Hp).
  cbn -[occurs_at]. destruct (Z.eqb_spec x 0); [done|].
  rewrite (strlen_run _ _ _ Hn). cbn -[occurs_at]. rewrite Nat2Z.id.
  destruct Hn as [Hnz Hn]. pose proof Hn as [Hn' _]%cells_app.
  destruct (strncmp_prefix _ _ _ _ _ Hb Hh Hn' Hnz) as (c & -> & Hc).
  cbn -[occurs_at]. rewrite Hc. unfold occurs_at at 1. cbn [drop].
  destruct (bool_decide _); [cbn; f_equal; f_equal; lia|].
  cbn in Hf. rewrite (IH _ h) by (done || lia). f_equal.
  rewrite <-(fmap_S_seq 0 (length h)), find_index_fmap.
  change (occurs_at n (x :: h) ∘ S) with (occurs_at n h).
  destruct (find_index _ _); cbn; [f_equal; lia|done].
Qed.
End compare.

(** ** Properties *)

(** C13: [memmove] is right for every overlap.  Whatever the relative position
    of the two regions, it ends, the destination holds what the source held
    before the call, and no byte outside the destination changes; [memcpy]
    gives the same memory when the destination does not start inside the
    source. *)
Theorem memmove_correct (m : memory) (dst src : Z) (l : list Z) :
  cells m src l → mapped m dst (length l) →
  ∃ m', memmove m dst src (length l) = Ok m' ∧ cells m' dst l ∧
    (∀ q, q < dst ∨ dst + Z.of_nat (length l) ≤ q → m' !! q = m !! q) ∧
    (dst ≤ src ∨ src + Z.of_nat (length l) ≤ dst →
     memcpy m dst src (length l) = Ok m').
Proof.
  intros Hs Hd. exists (wr m dst l). repeat split.
  - by apply memmove_wr.
  - apply wr_cells.
  - apply wr_outside.
  - intros. by apply memcpy_wr.
Qed.

(** Five bytes at 100..104, moved up by two. *)
Definition demo : memory := list_to_map (zip (seqZ 100 7) [72; 101; 108; 108; 111; 0; 33]).

Lemma memmove_correct_witness :
  cells demo 100 [72; 101; 108] ∧
  ∃ m', memmove demo 102 100 3 = Ok m' ∧ m' !! 104 = Some 108.
Proof.
  assert (cells demo 100 [72; 101; 108]) as Hc
    by (repeat (apply cells_cons; split; [reflexivity|]); apply cells_nil).
  assert (mapped demo 102 3) as Hm
    by (repeat (apply mapped_S; split; [by eexists|]); intros i Hi; lia).
  split; [done|].
  destruct (memmove_correct demo 102 100 [72; 101; 108] Hc Hm) as (m' & H & Hc' & _).
  exists m'. split; [done|]. exact (Hc' 2%nat 108 eq_refl).
Defined.

(** [strlen] ends in every memory (it reads at most one byte more than
    there are mapped bytes), and it returns [n] exactly when a string of
    length [n] is stored at its argument. *)
Theorem strlen_correct (m : memory) (p : Z) :
  strlen m p ≠ OutOfFuel ∧
  ∀ n, strlen m p = Ok n ↔ ∃ s, cstr m p s ∧ n = Z.of_nat (length s).
Proof.
  split.
  - intros H%strlen_loop_fuel%mapped_size. unfold scan_fuel in H. lia.
  - intros n. split.
    + intros (s & Hs & ->)%strlen_loop_sound. exists s. split; [done|lia].
    + intros (s & Hs & ->). by apply strlen_run.
Qed.

(** [StringCopySafe] writes the longest prefix of the source that fits in
    [szBuf - 1] bytes followed by a terminator, so the result is always a
    terminated string, and touches nothing outside the buffer. *)
Theorem StringCopySafe_correct (m : memory) (dst src : Z) (s : list Z) (szBuf : nat) :
  cstr m src s → mapped m dst szBuf → (0 < szBuf)%nat →
  src + Z.of_nat (length s) < dst ∨ dst + Z.of_nat szBuf ≤ src →
  ∃ m', StringCopySafe m dst src szBuf = Ok (m', Some dst) ∧
    cstr m' dst (take (szBuf - 1) s) ∧
    ∀ q, q < dst ∨ dst + Z.of_nat szBuf ≤ q → m' !! q = m !! q.
Proof.
  intros Hs Hd Hpos Hov. eexists. split; [by apply StringCopySafe_wr|]. split.
  - split; [|apply wr_cells]. destruct Hs as [Hnz _]. by apply Forall_take.
  - intros q Hq. apply wr_outside. rewrite length_app, length_take. cbn. lia.
Qed.

(** Copying a five byte string into a four byte buffer. *)
Definition demo2 : memory :=
  list_to_map (zip (seqZ 200 4) [9; 9; 9; 9]) ∪ demo.

Lemma StringCopySafe_correct_witness :
  ∃ m', StringCopySafe demo2 200 100 4 = Ok (m', Some 200) ∧
        cstr m' 200 [72; 101; 108].
Proof.
  assert (cstr demo2 100 [72; 101; 108; 108; 111]) as Hc.
  { split; [repeat (constructor; [done|]); by constructor|].
    repeat (apply cells_cons; split; [reflexivity|]); apply cells_nil. }
  assert (mapped demo2 200 4) as Hm
    by (repeat (apply mapped_S; split; [by eexists|]); intros i Hi; lia).
  destruct (StringCopySafe_correct demo2 200 100 _ 4 Hc Hm ltac:(lia) ltac:(cbn; lia))
    as (m' & H & Hc' & _).
  by exists m'.
Defined.

(** [strcmp] ends on two strings and decides equality; otherwise it returns
    the sign of the comparison, as [char], of the bytes at the first position
    where the terminated strings differ. *)
Theorem strcmp_correct (signed_char : bool) (m : memory) (p1 p2 : Z) (s1 s2 : list Z) :
  bytes m → cstr m p1 s1 → cstr m p2 s2 →
  ∃ c, strcmp signed_char m p1 p2 = Ok c ∧ (c = 0 ↔ s1 = s2) ∧
    (c ≠ 0 → first_difference signed_char (s1 ++ [0]) (s2 ++ [0]) c).
Proof.
  intros Hb H1 H2.
  destruct (strcmp_loop_run signed_char (scan_fuel m) m p1 p2 s1 s2 Hb H1 H2)
    as (c & Hr & Hc); [by eapply cstr_fuel|].
  exists c. split; [done|]. destruct Hc as [[-> ->]|Hc]; [done|].
  pose proof Hc as (i & x & y & Ht & Hx & Hy & Hne & ->).
  pose proof (char_order_nonzero signed_char x y). split; [|done].
  split; [done|]. intros ->. congruence.
Qed.

Lemma strcmp_correct_witness :
  ∃ c, strcmp true demo 103 102 = Ok c ∧ c ≠ 0.
Proof.
  destruct (strcmp_correct true demo 103 102 [108; 111] [108; 108; 111]) as (c & H & Hc & _).
  - by apply map_Forall_to_list; repeat (constructor; [cbn; lia|]); constructor.
  - split; [repeat (constructor; [done|]); by constructor|].
    repeat (apply cells_cons; split; [reflexivity|]); apply cells_nil.
  - split; [repeat (constructor; [done|]); by constructor|].
    repeat (apply cells_cons; split; [reflexivity|]); apply cells_nil.
  - exists c. split; [done|]. intros Hz%Hc. discriminate Hz.
Defined.

(** [strstr] ends and returns the address of the first occurrence of the
    needle among the non-terminator positions of the haystack, NULL when
    there is none.  In particular an empty haystack never matches. *)
Theorem strstr_correct (signed_char : bool) (m : memory) (hay needle : Z) (h n : list Z) :
  bytes m → cstr m hay h → cstr m needle n →
  ∃ r, strstr signed_char m hay needle = Ok r ∧
    match r with
    | Some p => ∃ i : nat, p = hay + Z.of_nat i ∧ (i < length h)%nat ∧
        occurs_at n h i = true ∧ ∀ j : nat, (j < i)%nat → occurs_at n h j = false
    | None => ∀ j : nat, (j < length h)%nat → occurs_at n h j = false
    end.
Proof.
  intros Hb Hh Hn. unfold strstr.
  rewrite (strstr_loop_run signed_char _ m hay needle h n) by eauto using cstr_fuel.
  eexists. split; [done|].
  destruct (find_index (occurs_at n h) (seq 0 (length h))) as [i|] eqn:Hi; cbn.
  - apply find_index_Some in Hi as (x & Hx & Ho & Hlt).
    apply lookup_seq in Hx as [-> Hil]. exists i. repeat split; [done|done|].
    intros j Hj. apply (Hlt j j Hj). apply lookup_seq. lia.
  - intros j Hj. rewrite find_index_None in Hi. apply Hi. apply elem_of_seq. lia.
Qed.

Lemma strstr_correct_witness : strstr true demo 100 103 = Ok (Some 103).
Proof.
  assert (bytes demo) by
    by (apply map_Forall_to_list; repeat (constructor; [cbn; lia|]); constructor).
  destruct (strstr_correct true demo 100 103 [72; 101; 108; 108; 111] [108; 111])
    as (r & H1 & H2).
  - done.
  - split; [repeat (constructor; [done|]); by constructor|].
    repeat (apply cells_cons; split; [reflexivity|]); apply cells_nil.
  - split; [repeat (constructor; [done|]); by constructor|].
    repeat (apply cells_cons; split; [reflexivity|]); apply cells_nil.
  - rewrite H1. destruct r as [p|].
    + destruct H2 as (i & -> & Hi & Ho & _). cbn in Hi.
      do 5 (destruct i as [|i]; [try done|]). lia.
    + specialize (H2 3%nat ltac:(cbn; lia)). done.
Defined.
