(* ===== verification/CmdLine.v ===== *)
(** The command line and environment routines of
    [boron/source/rtl/cmdline.c], over the memory of [Strings]. *)
From S2P Require Import Prelude Strings.
Local Open Scope Z_scope.

(** What the parser needs from the pool: [pool_alloc m n] extends [m] with a
    fresh block of [n] bytes and returns its address, or fails; [pool_free]
    takes a block back. *)
Class Pool := {
  pool_alloc : memory → nat → option (Z * memory);
  pool_free : memory → Z → nat → memory;
}.

Class PoolLaws `{Pool} : Prop := {
  pool_alloc_mapped m n p m' : pool_alloc m n = Some (p, m') → mapped m' p n;
  pool_alloc_keeps m n p m' q x :
    pool_alloc m n = Some (p, m') → m !! q = Some x → m' !! q = Some x;
  pool_alloc_fresh m n p m' q :
    pool_alloc m n = Some (p, m') → p ≤ q < p + Z.of_nat n → m !! q = None;
}.

(** [RtlEnvironmentLength] : boron/source/rtl/cmdline.c:41-46.
    A description ends with two zero bytes. *)
Fixpoint RtlEnvironmentLength_loop (fuel : nat) (m : memory) (Description Length : Z)
  : outcome Z :=
  match fuel with
  | O => OutOfFuel
  | S fuel =>
      a ← ld m Description;
      b ← (if a =? 0 then ld m (Description + 1) else Ok 1);
      if (a =? 0) && (b =? 0) then Ok Length
      else RtlEnvironmentLength_loop fuel m (Description + 1) (Length + 1)
  end.

(** [RtlEnvironmentLength] : boron/source/rtl/cmdline.c:38-47. *)
Definition RtlEnvironmentLength (m : memory) (Description : Z) : outcome Z :=
  RtlEnvironmentLength_loop (scan_fuel m) m Description 2.

(** [RtlEnvironmentCount] : boron/source/rtl/cmdline.c:57-58.
    The inner loop: skips the bytes of one entry. *)
Fixpoint skip_entry (fuel : nat) (m : memory) (Description : Z) : outcome Z :=
  match fuel with
  | O => OutOfFuel
  | S fuel =>
      a ← ld m Description;
      if a =? 0 then Ok Description else skip_entry fuel m (Description + 1)
  end.

(** [RtlEnvironmentCount] : boron/source/rtl/cmdline.c:53-67. *)
Fixpoint RtlEnvironmentCount_loop (fuel : nat) (m : memory) (Description EntryCount : Z)
  : outcome Z :=
  match fuel with
  | O => OutOfFuel
  | S fuel =>
      a ← ld m Description;
      if a =? 0 then Ok EntryCount
      else
        Description ← skip_entry (scan_fuel m) m Description;
        RtlEnvironmentCount_loop fuel m (Description + 1) (EntryCount + 1)
  end.

(** [RtlEnvironmentCount] : boron/source/rtl/cmdline.c:50-68. *)
Definition RtlEnvironmentCount (m : memory) (Description : Z) : outcome Z :=
  RtlEnvironmentCount_loop (scan_fuel m) m Description 0.

Definition OB_PATH_SEPARATOR : Z := 47.

(** [RtlGetFileNameFromPath] : boron/source/rtl/cmdline.c:78-88. *)
Fixpoint RtlGetFileName_loop (fuel : nat) (m : memory) (Path FileName : Z) : outcome Z :=
  match fuel with
  | O => OutOfFuel
  | S fuel =>
      a ← ld m Path;
      if a =? 0 then Ok FileName
      else
        FileName ←
          (if a =? OB_PATH_SEPARATOR
           then b ← ld m (Path + 1);
                Ok (if negb (b =? 0) then Path + 1 else FileName)
           else Ok FileName);
        RtlGetFileName_loop fuel m (Path + 1) FileName
  end.

(** [RtlGetFileNameFromPath] : boron/source/rtl/cmdline.c:74-89. *)
Definition RtlGetFileNameFromPath (m : memory) (Path : Z) : outcome Z :=
  RtlGetFileName_loop (scan_fuel m) m Path Path.

Section parser.
(** The buffer being filled and [StringLength], fixed during the parse. *)
Context (Description : Z) (StringLength : Z).

(** [ASSERT_IN_BOUNDS] : boron/source/rtl/cmdline.c:172-173.
    [Description[Index++] = c; ASSERT_IN_BOUNDS] *)
Definition put (m : memory) (Index c : Z) : outcome (memory * Z) :=
  m ← st m (Description + Index) c;
  _ ← check (Index + 1 <? StringLength + 2);
  Ok (m, Index + 1).

(** [RtlCommandLineStringToDescription] : boron/source/rtl/cmdline.c:153-158.
    The copying loop inside quotes: stops at the end of the string or at
    the closing mark. *)
Fixpoint quote_loop (fuel : nat) (m : memory) (String Index BeginningQuoteMark : Z)
  : outcome (memory * Z * Z) :=
  match fuel with
  | O => OutOfFuel
  | S fuel =>
      c ← ld m String;
      if (c =? 0) || (c =? BeginningQuoteMark) then Ok (m, String, Index)
      else
        '(m, Index) ← put m Index c;
        quote_loop fuel m (String + 1) Index BeginningQuoteMark
  end.

(** [RtlCommandLineStringToDescription] : boron/source/rtl/cmdline.c:122-175.
    The main loop: [Some Index] when the string was consumed, [None] for a
    stray backslash or an unterminated quotation. *)
Fixpoint parse_loop (fuel : nat) (m : memory) (String Index : Z)
  : outcome (memory * option Z) :=
  match fuel with
  | O => OutOfFuel
  | S fuel =>
      c ← ld m String;
      if c =? 0 then Ok (m, Some Index)
      else if c =? 32 then
        '(m, Index) ← put m Index 0;
        parse_loop fuel m (String + 1) Index
      else if c =? 92 then
        c' ← ld m (String + 1);
        if c' =? 0 then Ok (m, None)
        else
          '(m, Index) ← put m Index c';
          parse_loop fuel m (String + 1 + 1) Index
      else if (c =? 34) || (c =? 39) then
        '(m, String, Index) ← quote_loop (scan_fuel m) m (String + 1) Index c;
        e ← ld m String;
        if e =? 0 then Ok (m, None)
        else parse_loop fuel m (String + 1) Index
      else
        '(m, Index) ← put m Index c;
        parse_loop fuel m (String + 1) Index
  end.
End parser.

(** [RtlCommandLineStringToDescription] : boron/source/rtl/cmdline.c:109-185.
    The status, the memory, and the value stored in [*OutDescription]. *)
Definition RtlCommandLineStringToDescription `{Pool} (m : memory) (String : Z)
  : outcome (memory * BSTATUS * option Z) :=
  StringLength ← strlen m String;
  match pool_alloc m (Z.to_nat (StringLength + 2)) with
  | None => Ok (m, STATUS_INSUFFICIENT_MEMORY, None)
  | Some (Description, m) =>
      '(m, r) ← parse_loop Description StringLength (scan_fuel m) m String 0;
      match r with
      | None =>
          Ok (pool_free m Description (Z.to_nat (StringLength + 2)),
              STATUS_INVALID_PARAMETER, None)
      | Some Index =>
          '(m, Index) ← put Description StringLength m Index 0;
          m ← st m (Description + Index) 0;
          _ ← check (Index <? StringLength + 2);
          Ok (m, STATUS_SUCCESS, Some Description)
      end
  end.

(** ** The language of command lines *)

(** What a command line denotes: the description without its two final
    zeros.  [q] is the quotation mark that is open. *)
Fixpoint parse (q : option Z) (s : list Z) : option (list Z) :=
  match s with
  | [] => match q with None => Some [] | Some _ => None end
  | c :: s =>
      match q with
      | Some b => if c =? b then parse None s else (c ::.) <$> parse q s
      | None =>
          if c =? 32 then (0 ::.) <$> parse None s
          else if c =? 92 then
            match s with [] => None | c' :: s => (c' ::.) <$> parse None s end
          else if (c =? 34) || (c =? 39) then parse (Some c) s
          else (c ::.) <$> parse None s
      end
  end.

Lemma parse_length q s o : parse q s = Some o → (length o ≤ length s)%nat.
Proof.
  revert q o. induction s as [s IH] using (induction_ltof1 _ (@length Z)).
  unfold ltof in IH. intros q o H. destruct s as [|c s]; cbn in H.
  { destruct q; by simplify_eq. }
  assert (∀ t q o, (length t ≤ length s)%nat → parse q t = Some o →
    (length o ≤ length t)%nat) as IH' by (intros; eapply IH; [cbn; lia|done]).
  repeat case_match; simplify_option_eq; cbn in *;
    repeat match goal with
    | H : parse _ _ = Some _ |- _ => apply IH' in H; [|cbn; lia]
    end; cbn in *; lia.
Qed.

(** Bytes up to the closing mark. *)
Fixpoint before_mark (b : Z) (s : list Z) : list Z :=
  match s with
  | [] => []
  | c :: s => if c =? b then [] else c :: before_mark b s
  end.

Fixpoint from_mark (b : Z) (s : list Z) : list Z :=
  match s with
  | [] => []
  | c :: s' => if c =? b then s else from_mark b s'
  end.

Lemma mark_split b s : before_mark b s ++ from_mark b s = s.
Proof. induction s as [|c s IH]; cbn; [done|]. case_match; cbn; [done|by rewrite IH]. Qed.

Lemma parse_quoted b s :
  parse (Some b) s =
    match from_mark b s with
    | [] => None
    | _ :: s' => (before_mark b s ++.) <$> parse None s'
    end.
Proof.
  induction s as [|c s IH]; cbn; [done|]. destruct (c =? b); cbn.
  - by destruct (parse None s).
  - rewrite IH. destruct (from_mark b s); [done|]. by destruct (parse None _).
Qed.

Lemma from_mark_head b s c s' : from_mark b s = c :: s' → c = b.
Proof.
  induction s as [|d s IH]; cbn; [done|]. destruct (Z.eqb_spec d b); [|done].
  by intros [= <- <-].
Qed.

Lemma before_mark_not b s : Forall (λ c, c ≠ b) (before_mark b s).
Proof.
  induction s as [|c s IH]; cbn; [by constructor|].
  destruct (Z.eqb_spec c b); by constructor.
Qed.

Section parser_correct.
Context (m0 : memory) (D SL : Z).
Hypothesis Hbuf : mapped m0 D (Z.to_nat (SL + 2)).

(** A string that the buffer does not overlap. *)
Definition apart (p : Z) (s : list Z) : Prop :=
  cstr m0 p s ∧ (p + Z.of_nat (length s) < D ∨ D + (SL + 2) ≤ p).

Lemma apart_cons p c s :
  apart p (c :: s) → c ≠ 0 ∧ m0 !! p = Some c ∧ apart (p + 1) s.
Proof.
  intros [H Hd].
  apply cstr_cons in H as (? & ? & ?). cbn in Hd. do 3 (split; [done|]). lia.
Qed.

Lemma apart_drop p s1 s2 :
  apart p (s1 ++ s2) → apart (p + Z.of_nat (length s1)) s2.
Proof.
  intros [H Hd]. apply (cstr_drop _ _ _ (length s1)) in H; [|rewrite length_app; lia].
  rewrite drop_app_length in H. split; [done|]. rewrite length_app in Hd. lia.
Qed.

(** A read of the string while the buffer is being filled. *)
Lemma apart_ld p s i out :
  apart p s → (i ≤ length s)%nat → Z.of_nat (length out) ≤ SL + 2 →
  ld (wr m0 D out) (p + Z.of_nat i) = Ok (default 0 (s !! i)).
Proof.
  intros [H Hd] Hi Ho. apply ld_cells. rewrite wr_outside by lia.
  by apply cstr_lookup.
Qed.

Lemma apart_ld0 p s out :
  apart p s → Z.of_nat (length out) ≤ SL + 2 →
  ld (wr m0 D out) p = Ok (default 0 (head s)).
Proof.
  intros H Ho. pose proof (apart_ld p s 0 out H ltac:(lia) Ho) as Hl.
  change (Z.of_nat 0) with 0 in Hl. rewrite Z.add_0_r in Hl. rewrite Hl. by destruct s.
Qed.

Lemma apart_fuel p s out :
  apart p s → Z.of_nat (length out) ≤ SL + 2 →
  (length s < scan_fuel (wr m0 D out))%nat.
Proof.
  intros H Ho. assert (cells (wr m0 D out) p (s ++ [0])) as Hc%cells_size.
  { intros i x Hx. pose proof (lookup_lt_Some _ _ _ Hx) as Hi.
    rewrite length_app in Hi. cbn in Hi.
    pose proof (apart_ld p s i out H ltac:(lia) Ho) as Hl.
    unfold ld in Hl. apply deref_Ok in Hl. rewrite Hl. f_equal.
    destruct (s !! i) as [y|] eqn:Hy; cbn.
    - rewrite (lookup_app_l_Some _ _ _ _ Hy) in Hx. congruence.
    - apply lookup_ge_None in Hy. rewrite lookup_app_r in Hx by done.
      replace (i - length s)%nat with O in Hx by lia. cbn in Hx. congruence. }
  rewrite length_app in Hc. unfold scan_fuel. cbn in Hc. lia.
Qed.

Lemma put_run out c :
  Z.of_nat (length out) ≤ SL →
  put D SL (wr m0 D out) (Z.of_nat (length out)) c =
    Ok (wr m0 D (out ++ [c]), Z.of_nat (length (out ++ [c]))).
Proof.
  intros Ho. unfold put. rewrite st_mapped.
  2:{ rewrite wr_outside by lia. apply Hbuf. lia. }
  cbn. rewrite check_true by (apply Z.ltb_lt; lia). cbn.
  rewrite wr_snoc, length_app. cbn. f_equal. f_equal; [|lia]. mem_eq.
Qed.

Lemma quote_loop_run fuel b p s out :
  apart p s → (length s < fuel)%nat →
  Z.of_nat (length out + length s) ≤ SL →
  quote_loop D SL fuel (wr m0 D out) p (Z.of_nat (length out)) b =
    Ok (wr m0 D (out ++ before_mark b s), p + Z.of_nat (length (before_mark b s)),
        Z.of_nat (length (out ++ before_mark b s))).
Proof.
  revert p s out. induction fuel as [|fuel IH]; intros p s out Hs Hf Ho; [lia|].
  cbn. rewrite (apart_ld0 p s) by (done || lia). cbn.
  destruct s as [|c s]; cbn.
  { by rewrite app_nil_r, Z.add_0_r. }
  apply apart_cons in Hs as (Hc & _ & Hs). cbn in Hf, Ho.
  destruct (Z.eqb_spec c 0); [done|]. cbn. destruct (c =? b); cbn.
  { by rewrite app_nil_r, Z.add_0_r. }
  rewrite put_run by lia. cbn. rewrite (IH _ s); [|done|lia|rewrite length_app; cbn; lia].
  rewrite <-app_assoc. cbn. f_equal. f_equal. f_equal. lia.
Qed.

(** What a run of the main loop from the string [s], with [out] already
    produced, has to give. *)
Definition parsed (s out : list Z) (r : outcome (memory * option Z)) : Prop :=
  match parse None s with
  | Some o =>
      r = Ok (wr m0 D (out ++ o), Some (Z.of_nat (length (out ++ o)))) ∧
      (length o ≤ length s)%nat
  | None => ∃ out', r = Ok (wr m0 D out', None) ∧ Z.of_nat (length out') ≤ SL
  end.

Lemma parsed_emit s s' c out r :
  parse None s' = (c ::.) <$> parse None s → (S (length s) ≤ length s')%nat →
  parsed s (out ++ [c]) r → parsed s' out r.
Proof.
  intros He Hl. unfold parsed. rewrite He. destruct (parse None s) as [o|]; cbn.
  - rewrite <-app_assoc. cbn. intros [-> ?]. split; [done|lia].
  - done.
Qed.

Lemma parse_loop_run fuel p s out :
  apart p s → (length s < fuel)%nat →
  Z.of_nat (length out + length s) ≤ SL →
  parsed s out (parse_loop D SL fuel (wr m0 D out) p (Z.of_nat (length out))).
Proof.
  revert p s out. induction fuel as [|fuel IH]; intros p s out Hs Hf Ho; [lia|].
  cbn. rewrite (apart_ld0 p s) by (done || lia). cbn.
  destruct s as [|c s]; cbn.
  { unfold parsed. cbn. by rewrite app_nil_r. }
  pose proof Hs as (Hc & _ & Hs')%apart_cons. cbn in Hf, Ho.
  destruct (Z.eqb_spec c 0); [done|].
  assert (∀ d t q, apart q t → (length t ≤ length s)%nat →
    parse None (c :: s) = (d ::.) <$> parse None t →
    parsed (c :: s) out
      ('(m, Index) ← put D SL (wr m0 D out) (Z.of_nat (length out)) d;
       parse_loop D SL fuel m q Index)) as Hemit.
  { intros d t q Ht Hlt He. rewrite put_run by lia. cbn.
    eapply parsed_emit; [exact He|cbn; lia|].
    apply IH; [done|lia|rewrite length_app; cbn; lia]. }
  destruct (Z.eqb_spec c 32) as [->|].
  { apply (Hemit 0 s); [done|lia|done]. }
  destruct (Z.eqb_spec c 92) as [->|].
  { rewrite (apart_ld0 (p + 1) s) by (done || lia). cbn.
    destruct s as [|d s]; cbn in *.
    - exists out. split; [done|lia].
    - apply apart_cons in Hs' as (Hd & _ & Hs'). destruct (Z.eqb_spec d 0); [done|].
      apply (Hemit d s); [done|lia|done]. }
  destruct ((c =? 34) || (c =? 39)) eqn:Hq.
  2:{ apply (Hemit c s); [done|lia|]. cbn.
      destruct (Z.eqb_spec c 32); [done|]. destruct (Z.eqb_spec c 92); [done|].
      by rewrite Hq. }
  rewrite (quote_loop_run _ c (p + 1) s); [|done|apply (apart_fuel (p + 1)); [done|lia]|lia].
  cbn. pose proof (mark_split c s) as Hsplit. rewrite <-Hsplit in Hs'.
  apply apart_drop in Hs'.
  assert (length (before_mark c s) + length (from_mark c s) = length s)%nat as Hlen.
  { rewrite <-length_app. by rewrite Hsplit. }
  rewrite (apart_ld0 _ (from_mark c s)) by (done || (rewrite length_app; lia)). cbn.
  unfold parsed. cbn. destruct (Z.eqb_spec c 32); [done|].
  destruct (Z.eqb_spec c 92); [done|]. rewrite Hq, parse_quoted.
  destruct (from_mark c s) as [|d t] eqn:Hfm; cbn in Hlen |- *.
  { exists (out ++ before_mark c s). split; [done|]. rewrite length_app. lia. }
  apply apart_cons in Hs' as (Hd & _ & Hs'). destruct (Z.eqb_spec d 0); [done|].
  pose proof (IH _ t (out ++ before_mark c s) Hs' ltac:(lia)) as Hrun.
  rewrite length_app in Hrun. specialize (Hrun ltac:(lia)).
  unfold parsed in Hrun. rewrite <-length_app in Hrun.
  destruct (parse None t) as [o|]; cbn; [|done].
  destruct Hrun as [-> Ho']. rewrite <-!app_assoc. split; [done|]. rewrite length_app. lia.
Qed.
End parser_correct.

(** ** Descriptions *)

(** The entries of a description, each with its terminator. *)
Definition entries (args : list (list Z)) : list Z := concat ((λ a, a ++ [0]) <$> args).

Lemma entries_cons a args : entries (a :: args) = a ++ 0 :: entries args.
Proof. unfold entries. cbn. by rewrite <-app_assoc. Qed.

Lemma entries_app args1 args2 : entries (args1 ++ args2) = entries args1 ++ entries args2.
Proof. unfold entries. by rewrite fmap_app, concat_app. Qed.

#[global] Arguments entries : simpl never.

(** An argument that an entry can hold. *)
Definition argument (a : list Z) : Prop := a ≠ [] ∧ Forall (λ c, c ≠ 0) a.

Lemma skip_entry_run fuel m p s :
  cstr m p s → (length s < fuel)%nat → skip_entry fuel m p = Ok (p + Z.of_nat (length s)).
Proof.
  revert p s. induction fuel as [|fuel IH]; intros p s Hs Hf; [lia|]. cbn.
  destruct s as [|x s].
  - rewrite (ld_cells _ _ _ (cstr_nil _ _ Hs)). cbn. f_equal. lia.
  - apply cstr_cons in Hs as (Hx & Hp & Hs). rewrite (ld_cells _ _ _ Hp). cbn.
    destruct (Z.eqb_spec x 0); [done|]. cbn in Hf. rewrite (IH _ s) by (done || lia).
    f_equal. lia.
Qed.

Lemma count_loop_run fuel m p args rest n :
  cells m p (entries args ++ 0 :: rest) → Forall argument args →
  (length args < fuel)%nat →
  RtlEnvironmentCount_loop fuel m p n = Ok (n + Z.of_nat (length args)).
Proof.
  revert p args n. induction fuel as [|fuel IH]; intros p args n Hc Ha Hf; [lia|].
  cbn. destruct args as [|a args].
  - apply cells_cons in Hc as [Hp _]. rewrite (ld_cells _ _ _ Hp). cbn. f_equal. lia.
  - apply Forall_cons in Ha as [[Hne Hnz] Ha]. unfold entries in Hc. cbn in Hc.
    rewrite <-!app_assoc in Hc. cbn in Hc.
    apply cells_app in Hc as [Hca Hc]. apply cells_cons in Hc as [Hc0 Hc].
    assert (cstr m p a) as Hs.
    { split; [done|]. apply cells_app. split; [done|]. apply cells_cons.
      split; [done|apply cells_nil]. }
    destruct a as [|x a]; [done|]. pose proof Hs as (Hx & Hp & _)%cstr_cons.
    rewrite (ld_cells _ _ _ Hp). cbn. destruct (Z.eqb_spec x 0); [done|].
    rewrite (skip_entry_run _ _ _ _ Hs) by by eapply cstr_fuel. cbn in Hf |- *.
    rewrite (IH _ args); [f_equal; lia|done|done|lia].
Qed.

Lemma length_entries args : (length args ≤ length (entries args))%nat.
Proof.
  induction args as [|a args IH]; [done|].
  rewrite entries_cons, length_app. cbn. lia.
Qed.

Lemma RtlEnvironmentCount_run m p args rest :
  cells m p (entries args ++ 0 :: rest) → Forall argument args →
  RtlEnvironmentCount m p = Ok (Z.of_nat (length args)).
Proof.
  intros Hc Ha. unfold RtlEnvironmentCount. rewrite (count_loop_run _ _ _ args rest 0).
  - done.
  - done.
  - done.
  - apply cells_size in Hc. rewrite length_app in Hc. pose proof (length_entries args).
    cbn in Hc. unfold scan_fuel. lia.
Qed.

Lemma env_length_skip fuel m p a L :
  cells m p a → Forall (λ c, c ≠ 0) a →
  RtlEnvironmentLength_loop (length a + fuel) m p L =
    RtlEnvironmentLength_loop fuel m (p + Z.of_nat (length a)) (L + Z.of_nat (length a)).
Proof.
  revert p L. induction a as [|x a IH]; intros p L Hc Ha; cbn.
  { by rewrite !Z.add_0_r. }
  apply cells_cons in Hc as [Hx Hc]. apply Forall_cons in Ha as [Hnz Ha].
  rewrite (ld_cells _ _ _ Hx). cbn. destruct (Z.eqb_spec x 0); [done|]. cbn.
  rewrite IH by done. f_equal; lia.
Qed.

Lemma env_length_run fuel m p a args L :
  cells m p (entries (a :: args) ++ [0]) → Forall argument (a :: args) →
  RtlEnvironmentLength_loop (length (entries (a :: args)) + fuel) m p L =
    Ok (L + Z.of_nat (length (entries (a :: args))) - 1).
Proof.
  revert p a L. induction args as [|b args IH]; intros p a L Hc Ha;
    rewrite entries_cons in Hc |- *; rewrite <-app_assoc, <-app_comm_cons in Hc;
    apply cells_app in Hc as [Hca Hc]; apply cells_cons in Hc as [H1 H2];
    apply Forall_cons in Ha as [[_ Ha] Ha2];
    rewrite length_app, <-Nat.add_assoc, env_length_skip by done; cbn;
    rewrite (ld_cells _ _ _ H1); cbn; rewrite Z.eqb_refl; cbn.
  - apply cells_cons in H2 as [H2 _].
    rewrite (ld_cells _ _ _ H2). cbn. rewrite Z.eqb_refl. change (length (entries [])) with O. f_equal. lia.
  - pose proof Ha2 as [[Hb Hb'] _]%Forall_cons.
    destruct b as [|y b]; [done|]. apply Forall_cons in Hb' as [Hy _].
    specialize (IH _ (y :: b) (L + Z.of_nat (length a) + 1) H2 Ha2).
    rewrite entries_cons, <-app_assoc in H2. apply cells_cons in H2 as [Hp _].
    rewrite (ld_cells _ _ _ Hp). cbn. destruct (Z.eqb_spec y 0); [done|]. cbn.
    rewrite IH. f_equal. lia.
Qed.

Lemma RtlEnvironmentLength_run m p args :
  args ≠ [] → cells m p (entries args ++ [0]) → Forall argument args →
  RtlEnvironmentLength m p = Ok (Z.of_nat (length (entries args ++ [0]))).
Proof.
  intros Hne Hc Ha. destruct args as [|a args]; [done|]. unfold RtlEnvironmentLength.
  pose proof (cells_size _ _ _ Hc) as Hsz. rewrite length_app in *. cbn [length] in *.
  replace (scan_fuel m) with
    (length (entries (a :: args)) + (scan_fuel m - length (entries (a :: args))))%nat
    by (unfold scan_fuel; lia).
  rewrite env_length_run by done. f_equal. lia.
Qed.

(** ** Writing a command line *)

(** Every byte of an argument escaped. *)
Definition escape (a : list Z) : list Z := concat ((λ c, [92; c]) <$> a).

Fixpoint command_line (args : list (list Z)) : list Z :=
  match args with
  | [] => []
  | [a] => escape a
  | a :: args => escape a ++ 32 :: command_line args
  end.

Lemma parse_escape a s : parse None (escape a ++ s) = (a ++.) <$> parse None s.
Proof.
  induction a as [|c a IH]; cbn.
  - by destruct (parse None s).
  - fold (escape a). rewrite IH. by destruct (parse None s).
Qed.

Lemma parse_space s : parse None (32 :: s) = (0 ::.) <$> parse None s.
Proof. done. Qed.

Lemma command_line_cons a b args :
  command_line (a :: b :: args) = escape a ++ 32 :: command_line (b :: args).
Proof. done. Qed.

Lemma parse_command_line args :
  args ≠ [] → ∃ o, parse None (command_line args) = Some o ∧ o ++ [0] = entries args.
Proof.
  induction args as [|a args IH]; intros Hne; [done|]. rewrite entries_cons.
  destruct args as [|b args].
  - exists a. cbn. rewrite <-(app_nil_r (escape a)), parse_escape. cbn. by rewrite !app_nil_r.
  - destruct IH as (o & Ho & He); [done|]. exists (a ++ 0 :: o).
    rewrite command_line_cons, parse_escape, parse_space, Ho. split; [done|].
    by rewrite <-app_assoc, <-app_comm_cons, He.
Qed.

(** ** The whole routine *)

Lemma RtlCommandLine_run `{PoolLaws} m p s :
  cstr m p s →
  match pool_alloc m (length s + 2) with
  | None => RtlCommandLineStringToDescription m p = Ok (m, STATUS_INSUFFICIENT_MEMORY, None)
  | Some (D, m1) =>
      match parse None s with
      | Some o => RtlCommandLineStringToDescription m p =
                    Ok (wr m1 D (o ++ [0; 0]), STATUS_SUCCESS, Some D)
      | None => ∃ out, RtlCommandLineStringToDescription m p =
                  Ok (pool_free (wr m1 D out) D (length s + 2),
                      STATUS_INVALID_PARAMETER, None) ∧ (length out ≤ length s)%nat
      end
  end.
Proof.
  intros Hs. unfold RtlCommandLineStringToDescription.
  rewrite (strlen_run _ _ _ Hs). cbn.
  replace (Z.to_nat (Z.of_nat (length s) + 2)) with (length s + 2)%nat by lia.
  destruct (pool_alloc m (length s + 2)) as [[D m1]|] eqn:Hal; [|done].
  set (SL := Z.of_nat (length s)).
  assert (mapped m1 D (Z.to_nat (SL + 2))) as Hbuf.
  { replace (Z.to_nat (SL + 2)) with (length s + 2)%nat by lia.
    by eapply pool_alloc_mapped. }
  assert (apart m1 D SL p s) as Hap.
  { split.
    - destruct Hs as [Hnz Hc]. split; [done|]. intros i x Hx.
      eapply pool_alloc_keeps; [done|]. by apply Hc.
    - destruct (decide (p + SL < D)) as [|H1]; [by left|]. right.
      destruct (decide (D + (SL + 2) ≤ p)) as [|H2]; [done|]. exfalso.
      pose proof (pool_alloc_fresh _ _ _ _ (Z.max p D) Hal ltac:(lia)) as Hn.
      pose proof (cstr_lookup _ _ _ (Z.to_nat (Z.max p D - p)) Hs ltac:(lia)) as Hl.
      replace (p + Z.of_nat (Z.to_nat (Z.max p D - p))) with (Z.max p D) in Hl by lia.
      congruence. }
  pose proof (parse_loop_run m1 D SL Hbuf (scan_fuel m1) p s [] Hap
                (apart_fuel m1 D SL p s [] Hap ltac:(cbn; lia)) ltac:(cbn; lia)) as Hr.
  unfold parsed in Hr. cbn [wr] in Hr. change (Z.of_nat (length [])) with 0 in Hr.
  destruct (parse None s) as [o|].
  - destruct Hr as [-> Ho]. cbn [mbind outcome_bind app].
    rewrite (put_run m1 D SL Hbuf o) by lia. cbn [mbind outcome_bind].
    rewrite st_mapped.
    2:{ rewrite wr_outside by lia. apply Hbuf. rewrite length_app. cbn. lia. }
    cbn. rewrite check_true by (apply Z.ltb_lt; rewrite length_app; cbn; lia). cbn.
    replace (o ++ [0; 0]) with ((o ++ [0]) ++ [0]) by by rewrite <-app_assoc.
    rewrite (wr_snoc _ _ (o ++ [0])). do 3 f_equal. mem_eq.
  - destruct Hr as (out & -> & Ho). exists out. split; [|lia]. done.
Qed.

(** ** File names *)

(** Offset of the name in a path whose remaining bytes are [s], at offset
    [i], when [f] is the best offset so far. *)
Fixpoint name_offset (s : list Z) (i f : nat) : nat :=
  match s with
  | [] => f
  | c :: s =>
      name_offset s (S i)
        (if (c =? OB_PATH_SEPARATOR) && negb (length s =? 0)%nat then S i else f)
  end.

Lemma file_name_run fuel m p s i f :
  cstr m (p + Z.of_nat i) s → (length s < fuel)%nat →
  RtlGetFileName_loop fuel m (p + Z.of_nat i) (p + Z.of_nat f) =
    Ok (p + Z.of_nat (name_offset s i f)).
Proof.
  revert s i f. induction fuel as [|fuel IH]; intros s i f Hs Hf; [lia|]. cbn.
  destruct s as [|x s].
  { by rewrite (ld_cells _ _ _ (cstr_nil _ _ Hs)). }
  apply cstr_cons in Hs as (Hx & Hp & Hs). rewrite (ld_cells _ _ _ Hp). cbn.
  destruct (Z.eqb_spec x 0); [done|]. cbn in Hf.
  pose proof (cstr_lookup _ _ _ O Hs ltac:(lia)) as Hn. rewrite Z.add_0_r in Hn.
  replace (p + Z.of_nat i + 1) with (p + Z.of_nat (S i)) in * by lia.
  specialize (IH s (S i)).
  destruct (x =? OB_PATH_SEPARATOR); cbn; [|by apply IH; [|lia]].
  rewrite (ld_cells _ _ _ Hn). cbn. destruct s as [|y s]; cbn.
  - apply IH; [done|lia].
  - pose proof Hs as (Hy & _ & _)%cstr_cons. destruct (Z.eqb_spec y 0); [done|].
    apply (IH (S i)); [done|lia].
Qed.

(** Every separator from position [k] on is the last byte. *)
Definition no_name_after (s : list Z) (k : nat) : Prop :=
  ∀ j, (k ≤ j)%nat → s !! j = Some OB_PATH_SEPARATOR → S j = length s.

Lemma no_name_after_cons c s k : no_name_after s k → no_name_after (c :: s) (S k).
Proof. intros H [|j] Hj Hs; [lia|]. cbn in *. f_equal. apply H; [lia|done]. Qed.

Lemma name_offset_spec s i f :
  (name_offset s i f = f ∧ no_name_after s 0) ∨
  ∃ k, name_offset s i f = (i + S k)%nat ∧ (S k < length s)%nat ∧
       s !! k = Some OB_PATH_SEPARATOR ∧ no_name_after s (S k).
Proof.
  revert i f. induction s as [|c s IH]; intros i f; cbn.
  { left. split; [done|]. intros j _ H. done. }
  set (g := if _ : bool then S i else f). specialize (IH (S i) g).
  destruct IH as [[-> Hn]|(k & -> & Hk & Hs & Hn)].
  - subst g. destruct (Z.eqb_spec c OB_PATH_SEPARATOR) as [->|Hne]; cbn.
    + destruct (Nat.eqb_spec (length s) 0); cbn.
      * left. split; [done|]. intros [|j] _ Hs; cbn in *; [lia|]. f_equal. by apply Hn; [lia|].
      * right. exists O. split; [lia|]. split; [lia|]. split; [done|].
        by apply no_name_after_cons.
    + left. split; [done|]. intros [|j] _ Hs; cbn in *; [congruence|].
      f_equal. by apply Hn; [lia|].
  - right. exists (S k). split; [lia|]. split; [lia|]. split; [done|].
    by apply no_name_after_cons.
Qed.

(** ** A pool for the examples *)

Definition top_address (m : memory) : Z := map_fold (λ k _ a, Z.max k a) 0 m.

Lemma top_address_spec m q : is_Some (m !! q) → q ≤ top_address m.
Proof.
  unfold top_address. revert q.
  apply (map_fold_weak_ind (λ a m, ∀ q, is_Some (m !! q) → q ≤ a)).
  - intros q [x Hx]. by rewrite lookup_empty in Hx.
  - intros i x m' a _ IH q Hq. destruct (decide (q = i)) as [->|]; [lia|].
    rewrite lookup_insert_ne in Hq by done. specialize (IH q Hq). lia.
Qed.

(** Blocks above everything that is mapped. *)
#[export] Instance bump_pool : Pool := {
  pool_alloc m n := Some (top_address m + 1, wr m (top_address m + 1) (replicate n 170));
  pool_free m _ _ := m;
}.

#[export] Instance bump_pool_laws : PoolLaws.
Proof.
  split; cbn; intros.
  - simplify_eq. pose proof (cells_mapped _ _ _ (wr_cells m (top_address m + 1) (replicate n 170))) as Hm.
    by rewrite length_replicate in Hm.
  - simplify_eq. rewrite wr_outside; [done|]. left.
    pose proof (top_address_spec m q (mk_is_Some _ _ H0)). lia.
  - simplify_eq. destruct (m !! q) as [x|] eqn:Hx; [|done].
    pose proof (top_address_spec m q (mk_is_Some _ _ Hx)). lia.
Qed.

(** A string stored at [p], for the examples. *)
Definition store_string (p : Z) (s : list Z) : memory :=
  list_to_map (zip (seqZ p (Z.of_nat (length s) + 1)) (s ++ [0])).

Ltac solve_cstr :=
  split; [repeat (constructor; [done|]); by constructor|];
  repeat (apply cells_cons; split; [reflexivity|]); apply cells_nil.

(** ** Properties *)

(** The parser implements the quoting language [parse] on every string:
    it never leaves the buffer of [strlen + 2] bytes (none of its assertions
    fails), it succeeds with the parsed description and its two zeros in the
    buffer and no other byte changed, or it reports a stray backslash or an
    unterminated quotation, or that the pool is exhausted. *)
Theorem RtlCommandLineStringToDescription_correct `{PoolLaws} (m : memory) (p : Z) (s : list Z) :
  cstr m p s →
  match pool_alloc m (length s + 2), parse None s with
  | None, _ =>
      RtlCommandLineStringToDescription m p = Ok (m, STATUS_INSUFFICIENT_MEMORY, None)
  | Some (D, m1), Some o => ∃ m',
      RtlCommandLineStringToDescription m p = Ok (m', STATUS_SUCCESS, Some D) ∧
      cells m' D (o ++ [0; 0]) ∧ (length o ≤ length s)%nat ∧
      ∀ q, q < D ∨ D + Z.of_nat (length s + 2) ≤ q → m' !! q = m1 !! q
  | Some (D, m1), None => ∃ m',
      RtlCommandLineStringToDescription m p = Ok (m', STATUS_INVALID_PARAMETER, None)
  end.
Proof.
  intros Hs. pose proof (RtlCommandLine_run m p s Hs) as Hr.
  destruct (pool_alloc m (length s + 2)) as [[D m1]|]; [|done].
  destruct (parse None s) as [o|] eqn:Ho.
  - assert (length o ≤ length s)%nat as Hlen by by apply (parse_length None).
    eexists. split; [exact Hr|]. split; [apply wr_cells|]. split; [done|].
    intros q Hq. apply wr_outside. rewrite length_app. cbn. lia.
  - destruct Hr as (out & Hr & _). by eexists.
Qed.

(** The command line [a "b c" \] is rejected, [a "b c"] is accepted. *)
Lemma RtlCommandLineStringToDescription_correct_witness :
  ∃ m', RtlCommandLineStringToDescription
          (store_string 100 [97; 32; 34; 98; 32; 99; 34]) 100
        = Ok (m', STATUS_SUCCESS, Some 108) ∧ cells m' 108 [97; 0; 98; 32; 99; 0; 0].
Proof.
  assert (cstr (store_string 100 [97; 32; 34; 98; 32; 99; 34]) 100
            [97; 32; 34; 98; 32; 99; 34]) as Hs by solve_cstr.
  destruct (RtlCommandLineStringToDescription_correct _ _ _ Hs) as (m' & H1 & H2 & _).
  exists m'. exact (conj H1 H2).
Defined.

(** C14: Every list of arguments can be written as a command line: parsing
    [command_line args] gives the description of exactly these arguments, on
    which [RtlEnvironmentCount] is their number and [RtlEnvironmentLength]
    the size of the description. *)
Theorem command_line_roundtrip `{PoolLaws} (m m1 : memory) (p D : Z) (args : list (list Z)) :
  args ≠ [] → Forall argument args → cstr m p (command_line args) →
  pool_alloc m (length (command_line args) + 2) = Some (D, m1) →
  ∃ m', RtlCommandLineStringToDescription m p = Ok (m', STATUS_SUCCESS, Some D) ∧
    cells m' D (entries args ++ [0]) ∧
    RtlEnvironmentCount m' D = Ok (Z.of_nat (length args)) ∧
    RtlEnvironmentLength m' D = Ok (Z.of_nat (length (entries args ++ [0]))).
Proof.
  intros Hne Ha Hs Hal. pose proof (RtlCommandLine_run m p _ Hs) as Hr. rewrite Hal in Hr.
  destruct (parse_command_line args Hne) as (o & Ho & He). rewrite Ho in Hr.
  assert (cells (wr m1 D (o ++ [0; 0])) D (entries args ++ [0])) as Hc.
  { rewrite <-He, <-app_assoc. apply wr_cells. }
  eexists. split; [exact Hr|]. split; [done|]. split.
  - by eapply RtlEnvironmentCount_run.
  - by apply RtlEnvironmentLength_run.
Qed.

Lemma command_line_roundtrip_witness :
  ∃ m' D, RtlCommandLineStringToDescription
          (store_string 100 (command_line [[108; 115]; [47; 32]])) 100
        = Ok (m', STATUS_SUCCESS, Some D) ∧ RtlEnvironmentCount m' D = Ok 2.
Proof.
  set (M := store_string 100 (command_line [[108; 115]; [47; 32]])).
  destruct (command_line_roundtrip M (wr M 110 (replicate 11 170)) 100 110
    [[108; 115]; [47; 32]]) as (m' & H1 & _ & H2 & _).
  - done.
  - repeat (constructor; [split; [done|repeat (constructor; [done|]); by constructor]|]).
    by constructor.
  - solve_cstr.
  - reflexivity.
  - exists m', 110. exact (conj H1 H2).
Defined.

(** An empty argument hides what follows it: on the description of
    [args ++ [] :: rest], which two consecutive spaces produce,
    [RtlEnvironmentCount] only sees [args]. *)
Theorem RtlEnvironmentCount_stops (m : memory) (p : Z) (args rest : list (list Z)) :
  Forall argument args →
  cells m p (entries (args ++ [] :: rest) ++ [0]) →
  RtlEnvironmentCount m p = Ok (Z.of_nat (length args)).
Proof.
  intros Ha Hc. eapply RtlEnvironmentCount_run; [|done].
  replace (entries (args ++ [] :: rest) ++ [0])
    with (entries args ++ 0 :: (entries rest ++ [0])) in Hc; [exact Hc|].
  rewrite entries_app, entries_cons. by rewrite <-app_assoc.
Qed.

(** The description of the command line [a  b], with two spaces. *)
Lemma RtlEnvironmentCount_stops_witness :
  parse None [97; 32; 32; 98] = Some [97; 0; 0; 98] ∧
  RtlEnvironmentCount (store_string 100 [97; 0; 0; 98; 0]) 100 = Ok 1.
Proof.
  split; [reflexivity|]. apply (RtlEnvironmentCount_stops _ 100 [[97]] [[98]]).
  - repeat constructor; done.
  - repeat (apply cells_cons; split; [reflexivity|]); apply cells_nil.
Defined.

(** [RtlGetFileNameFromPath] returns the position after the last separator
    that has a byte after it, or the whole path when there is none; a
    trailing separator never makes the name empty. *)
Theorem RtlGetFileNameFromPath_correct (m : memory) (p : Z) (s : list Z) :
  cstr m p s →
  ∃ i : nat, RtlGetFileNameFromPath m p = Ok (p + Z.of_nat i) ∧
    (i = O ∨ (i < length s)%nat ∧ s !! (i - 1)%nat = Some OB_PATH_SEPARATOR) ∧
    ∀ j, (i ≤ j)%nat → s !! j = Some OB_PATH_SEPARATOR → S j = length s.
Proof.
  intros Hs. unfold RtlGetFileNameFromPath.
  pose proof (file_name_run (scan_fuel m) m p s 0 0) as Hr.
  change (Z.of_nat 0) with 0 in Hr. rewrite !Z.add_0_r in Hr.
  rewrite Hr by (done || by eapply cstr_fuel).
  exists (name_offset s 0 0). split; [done|].
  destruct (name_offset_spec s 0 0) as [[-> Hn]|(k & -> & Hk & Hs' & Hn)].
  - split; [by left|done].
  - split; [right; split; [done|]|done]. by replace (0 + S k - 1)%nat with k by lia.
Qed.

(** On [/bin/ls/] the name is [ls/]. *)
Lemma RtlGetFileNameFromPath_correct_witness :
  RtlGetFileNameFromPath (store_string 100 [47; 98; 47; 108; 115; 47]) 100 = Ok 103.
Proof.
  destruct (RtlGetFileNameFromPath_correct
    (store_string 100 [47; 98; 47; 108; 115; 47]) 100 [47; 98; 47; 108; 115; 47])
    as (i & H1 & H2 & H3).
  - solve_cstr.
  - rewrite H1. destruct i as [|[|[|[|i]]]]; cbn in H2 |- *.
    + by specialize (H3 O ltac:(lia) eq_refl).
    + by specialize (H3 2%nat ltac:(lia) eq_refl).
    + by specialize (H3 2%nat ltac:(lia) eq_refl).
    + done.
    + destruct H2 as [?|[Hl H2]]; [lia|]. do 3 (destruct i as [|i]; [try done; cbn in *; lia|]).
      cbn in Hl. lia.
Defined.
