(* ===== verification/HandleTable.v ===== *)
(** The handle tables of [boron/source/ex/handtab.c].

    A table is the C structure, with the item array as a list ([None] is the
    NULL array) and pointers as numbers (0 is NULL).  The kernel mutex of the
    table is recursive; [Locks] is how often the running thread holds it.
    Pool allocations appear as booleans that say whether they succeed, and the
    caller's kill, duplicate and filter routines as functions over a context
    that they may change. *)
From S2P Require Import Prelude.
Local Open Scope Z_scope.

(** [EHANDLE_TABLE] : boron/include/ex/handtab.h:25-37. *)
Record EHANDLE_TABLE := mkTable {
  Locks : Z;
  Capacity : Z;
  GrowBy : Z;
  InitialSize : Z;
  MaxIndex : Z;
  Limit : Z;
  HandleMap : option (list Z);
}.

#[export] Instance table_eq_dec : EqDecision EHANDLE_TABLE.
Proof. solve_decision. Defined.

Definition set_Locks (n : Z) (t : EHANDLE_TABLE) : EHANDLE_TABLE :=
  mkTable n (Capacity t) (GrowBy t) (InitialSize t) (MaxIndex t) (Limit t) (HandleMap t).
Definition set_MaxIndex (i : Z) (t : EHANDLE_TABLE) : EHANDLE_TABLE :=
  mkTable (Locks t) (Capacity t) (GrowBy t) (InitialSize t) i (Limit t) (HandleMap t).
Definition set_Map (c : Z) (l : list Z) (t : EHANDLE_TABLE) : EHANDLE_TABLE :=
  mkTable (Locks t) c (GrowBy t) (InitialSize t) (MaxIndex t) (Limit t) (Some l).

(** [HandleMap[i].Pointer], read. *)
Definition item (t : EHANDLE_TABLE) (i : Z) : outcome Z :=
  l ← deref (HandleMap t);
  if i <? 0 then Crash else deref (l !! Z.to_nat i).

(** [HandleMap[i].Pointer = p]. *)
Definition set_item (t : EHANDLE_TABLE) (i p : Z) : outcome EHANDLE_TABLE :=
  _ ← item t i;
  l ← deref (HandleMap t);
  Ok (set_Map (Capacity t) (<[Z.to_nat i := p]> l) t).

Definition HANDLE_NONE : Z := 0.

(** [INDEX_TO_HANDLE] : boron/source/ex/handtab.c:24-24. *)
Definition INDEX_TO_HANDLE (Index : Z) : Z := u64 (Z.shiftl (u64 (Index + 1)) 2).

(** [HANDLE_TO_INDEX] : boron/source/ex/handtab.c:25-25. *)
Definition HANDLE_TO_INDEX (Handle : Z) : Z := u64 (Z.shiftr Handle 2 - 1).

(** [ExLockHandleTable] : boron/source/ex/handtab.c:27-35. *)
Definition ExLockHandleTable (t : EHANDLE_TABLE) : EHANDLE_TABLE :=
  set_Locks (Locks t + 1) t.

(** [ExUnlockHandleTable] : boron/source/ex/handtab.c:37-41.
    Releasing a mutex that is not held crashes (ke/mutex.c). *)
Definition ExUnlockHandleTable (t : EHANDLE_TABLE) : outcome EHANDLE_TABLE :=
  _ ← check (0 <? Locks t); Ok (set_Locks (Locks t - 1) t).

(** [ExCreateHandleTable] : boron/source/ex/handtab.c:43-84.
    [table_ok] and [map_ok] are the two allocations; the pool zeroes what it
    returns, so [MaxIndex] starts at 0. *)
Definition ExCreateHandleTable (Initial GrowBySize Lim : Z) (table_ok map_ok : bool)
  : BSTATUS * option EHANDLE_TABLE :=
  if negb table_ok then (STATUS_INSUFFICIENT_MEMORY, None)
  else
    let '(Lim, GrowBySize) :=
      if Lim <? Initial then (Initial, 0) else (Lim, GrowBySize) in
    if Initial =? 0 then
      (STATUS_SUCCESS, Some (mkTable 0 Initial GrowBySize Initial 0 Lim None))
    else if negb map_ok then (STATUS_INSUFFICIENT_MEMORY, None)
    else
      (STATUS_SUCCESS,
       Some (mkTable 0 Initial GrowBySize Initial 0 Lim
               (Some (replicate (Z.to_nat Initial) 0)))).

(** [ExpDeleteHandleTable] : boron/source/ex/handtab.c:86-96.
    The table is gone afterwards. *)
Definition ExpDeleteHandleTable (t : EHANDLE_TABLE) : option EHANDLE_TABLE := None.

(** [ExpCheckHandleCorrectness] : boron/source/ex/handtab.c:98-104. *)
Definition ExpCheckHandleCorrectness (Handle : Z) : bool :=
  negb (Handle =? HANDLE_NONE) && (Z.land Handle 3 =? 0).

(** [ExIsEmptyHandleTable] : boron/source/ex/handtab.c:110-116. *)
Fixpoint ExIsEmpty_loop (t : EHANDLE_TABLE) (i : Z) (n : nat) : outcome bool :=
  match n with
  | O => Ok true
  | S n =>
      p ← item t i;
      if negb (p =? 0) then Ok false else ExIsEmpty_loop t (i + 1) n
  end.

(** [ExIsEmptyHandleTable] : boron/source/ex/handtab.c:106-117. *)
Definition ExIsEmptyHandleTable (t : EHANDLE_TABLE) : outcome bool :=
  ExIsEmpty_loop t 0 (Z.to_nat (Capacity t)).

(** [ExDeleteHandleTable] : boron/source/ex/handtab.c:119-132. *)
Definition ExDeleteHandleTable (t : EHANDLE_TABLE)
  : outcome (BSTATUS * option EHANDLE_TABLE) :=
  let t := ExLockHandleTable t in
  e ← ExIsEmptyHandleTable t;
  if (e : bool) then
    t ← ExUnlockHandleTable t; Ok (STATUS_TABLE_NOT_EMPTY, Some t)
  else
    t ← ExUnlockHandleTable t; Ok (STATUS_SUCCESS, ExpDeleteHandleTable t).

Section routines.
(** The context the caller's routines work on. *)
Context {W : Type}.
Context (KillHandleRoutine : W → Z → bool * W).
Context (DuplicateMethod : W → Z → Z * W).
Context (Filter : W → Z → bool * W).

(** [ExKillHandleTable] : boron/source/ex/handtab.c:140-151. *)
Fixpoint ExKill_loop (t : EHANDLE_TABLE) (w : W) (i : Z) (n : nat)
  : outcome (bool * EHANDLE_TABLE * W) :=
  match n with
  | O => Ok (true, t, w)
  | S n =>
      p ← item t i;
      if negb (p =? 0) then
        let '(ok, w) := KillHandleRoutine w p in
        if negb ok then Ok (false, t, w)
        else t ← set_item t i 0; ExKill_loop t w (i + 1) n
      else ExKill_loop t w (i + 1) n
  end.

(** [ExKillHandleTable] : boron/source/ex/handtab.c:134-157. *)
Definition ExKillHandleTable (t : EHANDLE_TABLE) (w : W)
  : outcome (BSTATUS * option EHANDLE_TABLE * W) :=
  let t := ExLockHandleTable t in
  '(ok, t, w) ← ExKill_loop t w 0 (Z.to_nat (Capacity t));
  if (ok : bool) then
    t ← ExUnlockHandleTable t; Ok (STATUS_SUCCESS, ExpDeleteHandleTable t, w)
  else Ok (STATUS_DELETE_CANCELED, Some t, w).

(** [ExpResizeHandleTable] : boron/source/ex/handtab.c:187-210.
    The [memcpy] and [memset] of the old items into an array of [NewSize]. *)
Definition resized (t : EHANDLE_TABLE) (NewSize : Z) : list Z :=
  match HandleMap t with
  | Some l => take (Z.to_nat NewSize) l ++ replicate (Z.to_nat (NewSize - Capacity t)) 0
  | None => replicate (Z.to_nat NewSize) 0
  end.

(** [ExpResizeHandleTable] : boron/source/ex/handtab.c:159-220. *)
Definition ExpResizeHandleTable (t : EHANDLE_TABLE) (NewSize : Z) (alloc_ok : bool)
  : outcome (BSTATUS * EHANDLE_TABLE) :=
  if NewSize =? Capacity t then Ok (STATUS_SUCCESS, t)
  else
    let too_big := (Limit t <? NewSize) && (0 <? Limit t) in
    let NewSize := if too_big then Limit t else NewSize in
    _ ← check (negb too_big || (Capacity t <=? NewSize));
    if too_big && (NewSize <=? Capacity t) then Ok (STATUS_TOO_MANY_HANDLES, t)
    else if negb alloc_ok then Ok (STATUS_INSUFFICIENT_MEMORY, t)
    else Ok (STATUS_SUCCESS, set_Map NewSize (resized t NewSize) t).

(** [ExpCreateHandle] : boron/source/ex/handtab.c:228-241.
    The search for a free item: its index, or [None] after [Capacity]. *)
Fixpoint find_free (t : EHANDLE_TABLE) (i : Z) (n : nat) : outcome (option Z) :=
  match n with
  | O => Ok None
  | S n => p ← item t i; if p =? 0 then Ok (Some i) else find_free t (i + 1) n
  end.

Definition raise_MaxIndex (i : Z) (t : EHANDLE_TABLE) : EHANDLE_TABLE :=
  if MaxIndex t <? i then set_MaxIndex i t else t.

(** [ExpCreateHandle] : boron/source/ex/handtab.c:222-267.
    The handle is [None] when [*OutHandle] is not written. *)
Definition ExpCreateHandle (t : EHANDLE_TABLE) (Pointer : Z) (alloc_ok : bool)
  : outcome (BSTATUS * option Z * EHANDLE_TABLE) :=
  f ← find_free t 0 (Z.to_nat (Capacity t));
  match f with
  | Some i =>
      t ← set_item t i Pointer;
      Ok (STATUS_SUCCESS, Some (INDEX_TO_HANDLE i), raise_MaxIndex i t)
  | None =>
      if GrowBy t =? 0 then Ok (STATUS_TOO_MANY_HANDLES, None, t)
      else
        let NewIndex := Capacity t in
        '(Status, t) ← ExpResizeHandleTable t (u64 (Capacity t + GrowBy t)) alloc_ok;
        if FAILED Status then Ok (Status, None, t)
        else
          t ← set_item t NewIndex Pointer;
          Ok (STATUS_SUCCESS, Some (INDEX_TO_HANDLE NewIndex), raise_MaxIndex NewIndex t)
  end.

(** [ExCreateHandle] : boron/source/ex/handtab.c:269-283. *)
Definition ExCreateHandle (t : EHANDLE_TABLE) (Pointer : Z) (alloc_ok : bool)
  : outcome (BSTATUS * option Z * EHANDLE_TABLE) :=
  if Pointer =? 0 then Ok (STATUS_INVALID_PARAMETER, None, t)
  else
    let t := ExLockHandleTable t in
    '(Status, h, t) ← ExpCreateHandle t Pointer alloc_ok;
    t ← ExUnlockHandleTable t;
    Ok (Status, h, t).

(** [ExGetPointerFromHandle] : boron/source/ex/handtab.c:285-313.
    The last component is what is stored in [*OutObject]. *)
Definition ExGetPointerFromHandle (t : EHANDLE_TABLE) (Handle : Z)
  : outcome (BSTATUS * EHANDLE_TABLE * option Z) :=
  if negb (ExpCheckHandleCorrectness Handle) then Ok (STATUS_INVALID_HANDLE, t, None)
  else
    let t := ExLockHandleTable t in
    let Handle := HANDLE_TO_INDEX Handle in
    if Capacity t <=? Handle then
      t ← ExUnlockHandleTable t; Ok (STATUS_INVALID_HANDLE, t, None)
    else
      Object ← item t Handle;
      if Object =? 0 then
        t ← ExUnlockHandleTable t; Ok (STATUS_INVALID_HANDLE, t, Some Object)
      else Ok (STATUS_SUCCESS, t, Some Object).

(** [ExpDeleteHandle] : boron/source/ex/handtab.c:324-324.
    [for (; MaxIndex > 0 && HandleMap[MaxIndex] == NULL; MaxIndex--)] *)
Fixpoint lower_MaxIndex (t : EHANDLE_TABLE) (n : nat) : outcome Z :=
  match n with
  | O => Ok 0
  | S n' =>
      p ← item t (Z.of_nat n);
      if p =? 0 then lower_MaxIndex t n' else Ok (Z.of_nat n)
  end.

(** The DEBUG loop that asserts that all items from [i] on are NULL. *)
Fixpoint assert_null_from (t : EHANDLE_TABLE) (i : Z) (n : nat) : outcome unit :=
  match n with
  | O => Ok tt
  | S n => p ← item t i; _ ← check (p =? 0); assert_null_from t (i + 1) n
  end.

(** [ExpDeleteHandle] : boron/source/ex/handtab.c:329-332. *)
Definition assert_null_above (t : EHANDLE_TABLE) : outcome unit :=
  assert_null_from t (MaxIndex t + 1) (Z.to_nat (Capacity t - (MaxIndex t + 1))).

(** [ExpDeleteHandle] : boron/source/ex/handtab.c:336-345.
    The loop that bites [GrowBy] entries off the capacity. *)
Fixpoint shrink_loop (fuel : nat) (t : EHANDLE_TABLE) (NewCapacity : Z) : outcome Z :=
  match fuel with
  | O => OutOfFuel
  | S fuel =>
      if (u64 (MaxIndex t + 1 + GrowBy t) <=? NewCapacity) &&
         (u64 (InitialSize t + GrowBy t) <=? NewCapacity) &&
         (GrowBy t <? NewCapacity)
      then shrink_loop fuel t (NewCapacity - GrowBy t)
      else Ok NewCapacity
  end.

(** [ExpDeleteHandle] : boron/source/ex/handtab.c:315-355.
    [fuel] bounds the shrinking loop. *)
Definition ExpDeleteHandle (fuel : nat) (t : EHANDLE_TABLE) (Index : Z) (alloc_ok : bool)
  : outcome EHANDLE_TABLE :=
  t ← set_item t Index 0;
  if MaxIndex t =? Index then
    i ← lower_MaxIndex t (Z.to_nat (MaxIndex t));
    let t := set_MaxIndex i t in
    _ ← assert_null_above t;
    NewCapacity ← shrink_loop fuel t (Capacity t);
    if negb (NewCapacity =? Capacity t) then
      '(_, t) ← ExpResizeHandleTable t NewCapacity alloc_ok; Ok t
    else Ok t
  else Ok t.

(** [ExCheckHandle] : boron/source/ex/handtab.c:357-383. *)
Definition ExCheckHandle (t : EHANDLE_TABLE) (Handle : Z)
  : outcome (BSTATUS * EHANDLE_TABLE) :=
  if negb (ExpCheckHandleCorrectness Handle) then Ok (STATUS_INVALID_HANDLE, t)
  else
    let Handle := HANDLE_TO_INDEX Handle in
    let t := ExLockHandleTable t in
    if Capacity t <=? Handle then
      t ← ExUnlockHandleTable t; Ok (STATUS_INVALID_HANDLE, t)
    else
      p ← item t Handle;
      if p =? 0 then t ← ExUnlockHandleTable t; Ok (STATUS_INVALID_HANDLE, t)
      else t ← ExUnlockHandleTable t; Ok (STATUS_SUCCESS, t).

(** [ExDeleteHandle] : boron/source/ex/handtab.c:385-421. *)
Definition ExDeleteHandle (fuel : nat) (t : EHANDLE_TABLE) (w : W) (Handle : Z)
    (alloc_ok : bool) : outcome (BSTATUS * EHANDLE_TABLE * W) :=
  if negb (ExpCheckHandleCorrectness Handle) then Ok (STATUS_INVALID_HANDLE, t, w)
  else
    let Handle := HANDLE_TO_INDEX Handle in
    let t := ExLockHandleTable t in
    if Capacity t <=? Handle then
      t ← ExUnlockHandleTable t; Ok (STATUS_INVALID_HANDLE, t, w)
    else
      p ← item t Handle;
      if p =? 0 then t ← ExUnlockHandleTable t; Ok (STATUS_INVALID_HANDLE, t, w)
      else
        let '(ok, w) := KillHandleRoutine w p in
        if negb ok then
          t ← ExUnlockHandleTable t; Ok (STATUS_DELETE_CANCELED, t, w)
        else
          t ← ExpDeleteHandle fuel t Handle alloc_ok;
          t ← ExUnlockHandleTable t;
          Ok (STATUS_SUCCESS, t, w).

(** [ExCreateHandleTableInherit] : boron/source/ex/handtab.c:423-438. *)
Definition ExCreateHandleTableInherit (t : EHANDLE_TABLE) (table_ok map_ok : bool)
  : outcome (BSTATUS * option EHANDLE_TABLE * EHANDLE_TABLE) :=
  let t := ExLockHandleTable t in
  let '(Status, n) :=
    ExCreateHandleTable (InitialSize t) (GrowBy t) (Limit t) table_ok map_ok in
  t ← ExUnlockHandleTable t;
  Ok (Status, n, t).

(** [ExDuplicateHandleToHandle] : boron/source/ex/handtab.c:440-498. *)
Definition ExDuplicateHandleToHandle (t : EHANDLE_TABLE) (w : W) (Handle NewHandle : Z)
  : outcome (BSTATUS * EHANDLE_TABLE * W) :=
  if negb (ExpCheckHandleCorrectness Handle) || negb (ExpCheckHandleCorrectness NewHandle)
  then Ok (STATUS_INVALID_HANDLE, t, w)
  else
    let Handle := HANDLE_TO_INDEX Handle in
    let NewHandle := HANDLE_TO_INDEX NewHandle in
    let t := ExLockHandleTable t in
    if (Capacity t <=? Handle) || (Capacity t <=? NewHandle) then
      t ← ExUnlockHandleTable t; Ok (STATUS_INVALID_HANDLE, t, w)
    else
      old ← item t NewHandle;
      let '(Result, w) :=
        if negb (old =? 0) then KillHandleRoutine w old else (true, w) in
      if negb Result then
        t ← ExUnlockHandleTable t; Ok (STATUS_DELETE_CANCELED, t, w)
      else
        p ← item t Handle;
        let '(NewPointer, w) := DuplicateMethod w p in
        if NewPointer =? 0 then
          t ← ExUnlockHandleTable t; Ok (STATUS_UNSUPPORTED_FUNCTION, t, w)
        else
          t ← set_item t NewHandle NewPointer;
          let t := raise_MaxIndex NewHandle t in
          t ← ExUnlockHandleTable t;
          Ok (STATUS_SUCCESS, t, w).

(** [ExDuplicateHandle] : boron/source/ex/handtab.c:500-549.
    The third component is what is stored in [*OutHandle]. *)
Definition ExDuplicateHandle (fuel : nat) (t : EHANDLE_TABLE) (w : W) (Handle : Z)
    (grow_ok shrink_ok : bool) : outcome (BSTATUS * EHANDLE_TABLE * option Z * W) :=
  if negb (ExpCheckHandleCorrectness Handle) then Ok (STATUS_INVALID_HANDLE, t, None, w)
  else
    let Handle := HANDLE_TO_INDEX Handle in
    let t := ExLockHandleTable t in
    if Capacity t <=? Handle then
      t ← ExUnlockHandleTable t; Ok (STATUS_INVALID_HANDLE, t, None, w)
    else
      '(Status, h, t) ← ExpCreateHandle t 1 grow_ok;
      let Hndl := default HANDLE_NONE h in
      if FAILED Status then
        t ← ExUnlockHandleTable t; Ok (Status, t, None, w)
      else
        p ← item t Handle;
        let '(NewPointer, w) := DuplicateMethod w p in
        if NewPointer =? 0 then
          t ← ExpDeleteHandle fuel t (HANDLE_TO_INDEX Hndl) shrink_ok;
          t ← ExUnlockHandleTable t;
          Ok (STATUS_UNSUPPORTED_FUNCTION, t, None, w)
        else
          t ← set_item t (HANDLE_TO_INDEX Hndl) NewPointer;
          t ← ExUnlockHandleTable t;
          Ok (STATUS_SUCCESS, t, Some Hndl, w).

(** [ExDuplicateHandleTable] : boron/source/ex/handtab.c:575-585.
    The cloning loop: items [i .. i + n - 1]. *)
Fixpoint clone_loop (old new : EHANDLE_TABLE) (w : W) (i : Z) (n : nat)
  : outcome (EHANDLE_TABLE * W) :=
  match n with
  | O => Ok (new, w)
  | S n =>
      p ← item old i;
      if negb (p =? 0) then
        let '(Object, w) := DuplicateMethod w p in
        new ← set_item new i Object;
        let new := if negb (Object =? 0) then set_MaxIndex i new else new in
        clone_loop old new w (i + 1) n
      else clone_loop old new w (i + 1) n
  end.

(** [ExDuplicateHandleTable] : boron/source/ex/handtab.c:555-602.
    The status, the old table, and the new one ([None]: never created or
    deleted again). *)
Definition ExDuplicateHandleTable (t : EHANDLE_TABLE) (w : W)
    (table_ok map_ok resize_ok : bool)
  : outcome (BSTATUS * EHANDLE_TABLE * option EHANDLE_TABLE * W) :=
  '(Status, n, t) ← ExCreateHandleTableInherit t table_ok map_ok;
  if FAILED Status then Ok (Status, t, None, w)
  else
    let t := ExLockHandleTable t in
    NewTable ← deref n;
    '(Status, NewTable) ← ExpResizeHandleTable NewTable (Capacity t) resize_ok;
    if FAILED Status then
      t ← ExUnlockHandleTable t;
      '(_, n) ← ExDeleteHandleTable NewTable;
      Ok (Status, t, n, w)
    else
      _ ← check (Capacity NewTable =? Capacity t);
      '(NewTable, w) ← clone_loop t NewTable w 0 (Z.to_nat (MaxIndex t + 1));
      _ ← assert_null_above t;
      t ← ExUnlockHandleTable t;
      Ok (STATUS_SUCCESS, t, Some NewTable, w).

(** [ExFilterHandleTable] : boron/source/ex/handtab.c:616-623.
    The filtering loop, of at most [n] iterations; [MaxIndex] is read again
    at every iteration. *)
Fixpoint filter_loop (fuel n : nat) (t : EHANDLE_TABLE) (w : W) (i : Z) (alloc_ok : bool)
  : outcome (EHANDLE_TABLE * W) :=
  match n with
  | O => OutOfFuel
  | S n =>
      if MaxIndex t <? i then Ok (t, w)
      else
        p ← item t i;
        if p =? 0 then filter_loop fuel n t w (i + 1) alloc_ok
        else
          let '(yes, w) := Filter w p in
          if (yes : bool) then
            '(_, t, w) ← ExDeleteHandle fuel t w (INDEX_TO_HANDLE i) alloc_ok;
            filter_loop fuel n t w (i + 1) alloc_ok
          else filter_loop fuel n t w (i + 1) alloc_ok
  end.

(** [ExFilterHandleTable] : boron/source/ex/handtab.c:605-626.
    One iteration per index up to the initial [MaxIndex], which only
    shrinks, and one to leave the loop. *)
Definition ExFilterHandleTable (fuel : nat) (t : EHANDLE_TABLE) (w : W) (alloc_ok : bool)
  : outcome (EHANDLE_TABLE * W) :=
  let t := ExLockHandleTable t in
  '(t, w) ← filter_loop fuel (Z.to_nat (MaxIndex t) + 2) t w 0 alloc_ok;
  t ← ExUnlockHandleTable t;
  Ok (t, w).
End routines.

(** ** Handles and indices *)

Lemma HANDLE_TO_INDEX_TO_HANDLE i :
  0 ≤ i < 2 ^ 60 → HANDLE_TO_INDEX (INDEX_TO_HANDLE i) = i.
Proof.
  intros Hi. unfold HANDLE_TO_INDEX, INDEX_TO_HANDLE.
  rewrite (wrap_small 64 (i + 1)) by lia.
  rewrite Z.shiftl_mul_pow2, Z.shiftr_div_pow2 by lia.
  change (2 ^ 2) with 4. rewrite (wrap_small 64 ((i + 1) * 4)) by lia.
  rewrite Z.div_mul by lia. rewrite wrap_small; lia.
Qed.

Lemma INDEX_TO_HANDLE_correct i :
  0 ≤ i < 2 ^ 60 → ExpCheckHandleCorrectness (INDEX_TO_HANDLE i) = true.
Proof.
  intros Hi. unfold ExpCheckHandleCorrectness, INDEX_TO_HANDLE, HANDLE_NONE.
  rewrite (wrap_small 64 (i + 1)) by lia.
  rewrite Z.shiftl_mul_pow2 by lia. change (2 ^ 2) with 4.
  rewrite (wrap_small 64 ((i + 1) * 4)) by lia.
  destruct (Z.eqb_spec ((i + 1) * 4) 0); [lia|]. cbn. apply Z.eqb_eq.
  change 3 with (Z.ones 2). rewrite Z.land_ones by lia. change (2 ^ 2) with 4.
  by rewrite Z.mod_mul.
Qed.

Lemma INDEX_TO_HANDLE_TO_INDEX h :
  0 ≤ h < 2 ^ 64 → ExpCheckHandleCorrectness h = true →
  INDEX_TO_HANDLE (HANDLE_TO_INDEX h) = h ∧ 0 ≤ HANDLE_TO_INDEX h.
Proof.
  intros Hh Hc. unfold ExpCheckHandleCorrectness, HANDLE_NONE in Hc. bool_hyps.
  change 3 with (Z.ones 2) in *. rewrite Z.land_ones in * by lia.
  change (2 ^ 2) with 4 in *. unfold INDEX_TO_HANDLE, HANDLE_TO_INDEX.
  rewrite Z.shiftr_div_pow2 by lia. change (2 ^ 2) with 4.
  assert (h = 4 * (h / 4)) as Hd by (rewrite (Z.div_mod h 4) at 1; lia).
  assert (1 ≤ h / 4 < 2 ^ 62) by lia.
  rewrite (wrap_small 64 (h / 4 - 1)) by lia.
  replace (h / 4 - 1 + 1) with (h / 4) by lia. rewrite (wrap_small 64 (h / 4)) by lia.
  rewrite Z.shiftl_mul_pow2 by lia. change (2 ^ 2) with 4. rewrite wrap_small; lia.
Qed.

(** ** Well-formed tables *)

Definition items (t : EHANDLE_TABLE) : list Z := default [] (HandleMap t).

(** What the table maps an index to. *)
Definition slot (t : EHANDLE_TABLE) (i : nat) : option Z :=
  p ← items t !! i; if p =? 0 then None else Some p.

Record wf (t : EHANDLE_TABLE) : Prop := {
  wf_capacity : Capacity t = Z.of_nat (length (items t));
  wf_above : ∀ i, MaxIndex t < Z.of_nat i → slot t i = None;
  wf_max : 0 ≤ MaxIndex t ∧ (MaxIndex t < Capacity t ∨ MaxIndex t = 0);
  wf_sizes : 0 ≤ InitialSize t ≤ Limit t ∧ Capacity t ≤ Limit t < 2 ^ 60 ∧
             0 < Limit t ∧ 0 ≤ GrowBy t < 2 ^ 60;
  wf_locks : 0 ≤ Locks t;
}.

Lemma item_items t (i : nat) : wf t → item t (Z.of_nat i) = deref (items t !! i).
Proof.
  intros [Hc _ _ _ _]. unfold item, items in *. destruct (HandleMap t); cbn; [|done].
  destruct (Z.ltb_spec (Z.of_nat i) 0); [lia|]. by rewrite Nat2Z.id.
Qed.

Lemma item_slot t (i : nat) :
  wf t → Z.of_nat i < Capacity t → item t (Z.of_nat i) = Ok (default 0 (slot t i)).
Proof.
  intros Hwf Hi. rewrite item_items by done. unfold slot.
  rewrite (wf_capacity _ Hwf) in Hi.
  destruct (lookup_lt_is_Some_2 (items t) i ltac:(lia)) as [p Hp]. rewrite Hp. cbn.
  destruct (Z.eqb_spec p 0); by subst.
Qed.

Definition put_item (t : EHANDLE_TABLE) (i : nat) (p : Z) : EHANDLE_TABLE :=
  set_Map (Capacity t) (<[i := p]> (items t)) t.

Lemma set_item_put t (i : nat) p :
  wf t → Z.of_nat i < Capacity t → set_item t (Z.of_nat i) p = Ok (put_item t i p).
Proof.
  intros Hwf Hi. unfold set_item. rewrite item_slot by done. cbn.
  pose proof (wf_capacity _ Hwf) as Hc. unfold put_item, items in *.
  destruct (HandleMap t); cbn in *; [|lia]. by rewrite Nat2Z.id.
Qed.

Lemma slot_put t i p j :
  (i < length (items t))%nat →
  slot (put_item t i p) j =
    if decide (j = i) then (if p =? 0 then None else Some p) else slot t j.
Proof.
  intros Hi. unfold slot, put_item, items. cbn. fold (items t). case_decide as Hd.
  - subst. by rewrite list_lookup_insert_eq.
  - by rewrite list_lookup_insert_ne.
Qed.

Lemma slot_resized t n (i : nat) :
  wf t → (Z.to_nat n < length (items t) → ∀ j, Z.to_nat n ≤ j → slot t j = None)%nat →
  (p ← resized t n !! i; if p =? 0 then None else Some p) = slot t i.
Proof.
  intros Hwf Hn. pose proof (wf_capacity _ Hwf) as Hc. unfold resized, slot, items in *.
  destruct (HandleMap t) as [l|]; cbn in *.
  - destruct (decide (Z.to_nat n < length l)%nat) as [Hlt|Hge].
    + replace (Z.to_nat (n - Capacity t)) with O by lia. rewrite app_nil_r.
      destruct (decide (i < Z.to_nat n)%nat).
      * by rewrite lookup_take_lt.
      * rewrite lookup_take_ge by lia. cbn. symmetry. by apply Hn; [|lia].
    + rewrite take_ge by lia. destruct (decide (i < length l)%nat).
      * by rewrite lookup_app_l.
      * rewrite lookup_app_r, (lookup_ge_None_2 l i) by lia. cbn.
        destruct (replicate _ _ !! _) eqn:Hr; [|done].
        apply lookup_replicate in Hr as [-> _]. done.
  - destruct (replicate _ _ !! _) eqn:Hr; [|done].
    apply lookup_replicate in Hr as [-> _]. done.
Qed.

Lemma length_resized t n :
  wf t → 0 ≤ n → Z.of_nat (length (resized t n)) = n.
Proof.
  intros Hwf Hn. pose proof (wf_capacity _ Hwf) as Hc. unfold resized, items in *.
  destruct (HandleMap t) as [l|]; cbn in *; rewrite ?length_app, ?length_take, length_replicate; lia.
Qed.

(** The fields an operation on the items keeps. *)
Definition same_setup (t t' : EHANDLE_TABLE) : Prop :=
  Locks t' = Locks t ∧ GrowBy t' = GrowBy t ∧ InitialSize t' = InitialSize t ∧
  Limit t' = Limit t.

Lemma slot_raise i t j : slot (raise_MaxIndex i t) j = slot t j.
Proof. unfold raise_MaxIndex. by case_match. Qed.

Lemma wf_put_raise t (i : nat) p :
  wf t → Z.of_nat i < Capacity t → wf (raise_MaxIndex (Z.of_nat i) (put_item t i p)).
Proof.
  intros Hwf Hi. pose proof Hwf as [Hc Ha Hm Hs Hl].
  assert (items (raise_MaxIndex (Z.of_nat i) (put_item t i p)) = <[i := p]> (items t)) as Hit
    by by unfold raise_MaxIndex; case_match.
  split.
  - rewrite Hit, length_insert. unfold raise_MaxIndex. by case_match.
  - intros j Hj. rewrite slot_raise, slot_put by lia. unfold raise_MaxIndex in Hj.
    cbn in Hj. case_match; cbn in Hj; bool_hyps; (case_decide; [lia|]); apply Ha; lia.
  - unfold raise_MaxIndex. case_match; cbn in *; bool_hyps; lia.
  - unfold raise_MaxIndex. by case_match.
  - unfold raise_MaxIndex. by case_match.
Qed.

Lemma wf_put_zero t (i : nat) : wf t → Z.of_nat i < Capacity t → wf (put_item t i 0).
Proof.
  intros Hwf Hi. pose proof Hwf as [Hc Ha Hm Hs Hl]. split; try done.
  - unfold put_item, items. cbn. by rewrite length_insert.
  - intros j Hj. rewrite slot_put by lia. case_decide; [done|]. by apply Ha.
Qed.

Lemma wf_locks_irrel t n : wf t → 0 ≤ n → wf (set_Locks n t).
Proof. by intros [? ? ? ? ?] Hn; split. Qed.

Lemma slot_ge t (i : nat) : wf t → Capacity t ≤ Z.of_nat i → slot t i = None.
Proof.
  intros Hwf Hi. rewrite (wf_capacity _ Hwf) in Hi. unfold slot.
  by rewrite lookup_ge_None_2 by lia.
Qed.

Lemma find_free_spec t (i n : nat) :
  wf t → Z.of_nat (i + n) = Capacity t →
  ∃ f, find_free t (Z.of_nat i) n = Ok f ∧
    match f with
    | Some z => ∃ k : nat, z = Z.of_nat k ∧ (i ≤ k < i + n)%nat ∧ slot t k = None ∧
                  ∀ j, (i ≤ j < k)%nat → is_Some (slot t j)
    | None => ∀ j, (i ≤ j < i + n)%nat → is_Some (slot t j)
    end.
Proof.
  intros Hwf. revert i. induction n as [|n IH]; intros i Hi.
  { exists None. split; [done|]. intros j Hj. lia. }
  cbn. rewrite item_slot by (done || lia). cbn.
  destruct (slot t i) as [p|] eqn:Hp; cbn.
  - assert (p ≠ 0) as Hnz.
    { unfold slot in Hp. destruct (items t !! i); [|done]. cbn in Hp.
      destruct (Z.eqb_spec z 0); by simplify_eq. }
    destruct (Z.eqb_spec p 0); [done|].
    replace (Z.of_nat i + 1) with (Z.of_nat (S i)) by lia.
    destruct (IH (S i) ltac:(lia)) as (f & -> & Hf). exists f. split; [done|].
    destruct f as [z|].
    + destruct Hf as (k & -> & Hk & Hs & Hlt). exists k. repeat split; [lia..|done|].
      intros j Hj. destruct (decide (j = i)) as [->|]; [by rewrite Hp|]. apply Hlt. lia.
    + intros j Hj. destruct (decide (j = i)) as [->|]; [by rewrite Hp|]. apply Hf. lia.
  - exists (Some (Z.of_nat i)). split; [done|]. exists i. repeat split; [lia..|done|].
    intros j Hj. lia.
Qed.

Lemma ExpResizeHandleTable_spec t n ok :
  wf t → 0 ≤ n →
  (n < Capacity t → MaxIndex t < n) →
  ∃ s t', ExpResizeHandleTable t n ok = Ok (s, t') ∧ wf t' ∧ same_setup t t' ∧
    MaxIndex t' = MaxIndex t ∧ (∀ j, slot t' j = slot t j) ∧
    (s = STATUS_SUCCESS ∧ Capacity t' = Z.min n (Limit t) ∧
       (Capacity t < n → Capacity t < Capacity t')
     ∨ s ≠ STATUS_SUCCESS ∧ t' = t).
Proof.
  intros Hwf Hn Hmax. pose proof Hwf as [Hc Ha Hm Hs Hl]. unfold ExpResizeHandleTable.
  assert (∀ k, 0 ≤ k ≤ Limit t → (k < Capacity t → MaxIndex t < k) →
    wf (set_Map k (resized t k) t) ∧ ∀ j, slot (set_Map k (resized t k) t) j = slot t j) as Hset.
  { intros k Hk Hkm.
    assert (∀ j, slot (set_Map k (resized t k) t) j = slot t j) as Hsl.
    { intros j. unfold slot at 1, items. cbn. apply slot_resized; [done|].
      intros Hlt j' Hj'. apply Ha. lia. }
    split; [|done]. split; cbn.
    - unfold items. cbn. by rewrite length_resized by (done || lia).
    - intros j Hj. rewrite Hsl. by apply Ha.
    - lia.
    - lia.
    - done. }
  destruct (Z.eqb_spec n (Capacity t)) as [->|Hne].
  { exists STATUS_SUCCESS, t. split; [done|]. split; [done|]. split; [done|].
    split; [done|]. split; [done|]. left. split; [done|]. lia. }
  destruct (Z.ltb_spec (Limit t) n) as [Hbig|Hsmall]; cbn.
  - destruct (Z.ltb_spec 0 (Limit t)); [|lia]. cbn.
    rewrite check_true by (apply Z.leb_le; lia). cbn.
    destruct (Z.leb_spec (Limit t) (Capacity t)).
    { exists STATUS_TOO_MANY_HANDLES, t. split; [done|]. split; [done|].
      split; [done|]. split; [done|]. split; [done|]. by right. }
    destruct ok; cbn.
    + destruct (Hset (Limit t) ltac:(lia) ltac:(lia)) as [Hw Hsl].
      eexists _, _. split; [done|]. split; [done|]. split; [done|]. split; [done|].
      split; [done|]. left. cbn. split; [done|]. lia.
    + exists STATUS_INSUFFICIENT_MEMORY, t. split; [done|]. split; [done|].
      split; [done|]. split; [done|]. split; [done|]. by right.
  - destruct ok; cbn.
    + destruct (Hset n ltac:(lia) ltac:(lia)) as [Hw Hsl].
      eexists _, _. split; [done|]. split; [done|]. split; [done|]. split; [done|].
      split; [done|]. left. cbn. split; [done|]. lia.
    + exists STATUS_INSUFFICIENT_MEMORY, t. split; [done|]. split; [done|].
      split; [done|]. split; [done|]. split; [done|]. by right.
Qed.

Lemma ExpCreateHandle_spec t p ok :
  wf t → p ≠ 0 →
  ∃ s h t', ExpCreateHandle t p ok = Ok (s, h, t') ∧ wf t' ∧ same_setup t t' ∧
    (s = STATUS_SUCCESS ∧ (∃ i : nat, h = Some (INDEX_TO_HANDLE (Z.of_nat i)) ∧
       Z.of_nat i < Capacity t' ∧ slot t i = None ∧
       (∀ j, (j < i)%nat → is_Some (slot t j)) ∧
       ∀ j, slot t' j = if decide (j = i) then Some p else slot t j)
     ∨ s ≠ STATUS_SUCCESS ∧ h = None ∧ t' = t ∧
       ∀ j, Z.of_nat j < Capacity t → is_Some (slot t j)).
Proof.
  intros Hwf Hp. pose proof Hwf as [Hc Ha Hm Hs Hl]. unfold ExpCreateHandle.
  destruct (find_free_spec t 0 (Z.to_nat (Capacity t)) Hwf ltac:(lia)) as (f & Hf & HF).
  change (Z.of_nat 0) with 0 in Hf. rewrite Hf. cbn.
  assert (∀ t1 (i : nat), wf t1 → Z.of_nat i < Capacity t1 → slot t i = None →
    same_setup t t1 → (∀ j, slot t1 j = slot t j) → (∀ j, (j < i)%nat → is_Some (slot t j)) →
    ∃ s h t', (t ← set_item t1 (Z.of_nat i) p;
       Ok (STATUS_SUCCESS, Some (INDEX_TO_HANDLE (Z.of_nat i)),
           raise_MaxIndex (Z.of_nat i) t)) = Ok (s, h, t') ∧
      wf t' ∧ same_setup t t' ∧
    (s = STATUS_SUCCESS ∧ (∃ i : nat, h = Some (INDEX_TO_HANDLE (Z.of_nat i)) ∧
       Z.of_nat i < Capacity t' ∧ slot t i = None ∧
       (∀ j, (j < i)%nat → is_Some (slot t j)) ∧
       ∀ j, slot t' j = if decide (j = i) then Some p else slot t j)
     ∨ s ≠ STATUS_SUCCESS ∧ h = None ∧ t' = t ∧
       ∀ j, Z.of_nat j < Capacity t → is_Some (slot t j))) as Hdone.
  { intros t1 i Hwf1 Hi Hsi Hss Hsl Hlt. rewrite set_item_put by done. cbn.
    eexists _, _, _. split; [done|]. split; [by apply wf_put_raise|].
    split. { unfold raise_MaxIndex. destruct (_ <? _); exact Hss. }
    left. split; [done|]. exists i. split; [done|]. split.
    { unfold raise_MaxIndex. by destruct (_ <? _). }
    split; [done|]. split; [done|]. intros j. rewrite wf_capacity in Hi by done.
    rewrite slot_raise, slot_put by lia. rewrite Hsl. destruct (Z.eqb_spec p 0); done. }
  destruct f as [z|].
  - destruct HF as (k & -> & Hk & Hsk & Hlt).
    apply (Hdone t k); [done|lia|done|done|done|]. intros j Hj. apply Hlt. lia.
  - assert (∀ j, Z.of_nat j < Capacity t → is_Some (slot t j)) as Hfull.
    { intros j Hj. apply HF. lia. }
    destruct (Z.eqb_spec (GrowBy t) 0) as [Hg|Hg].
    { exists STATUS_TOO_MANY_HANDLES, None, t. split; [done|]. split; [done|].
      split; [done|]. by right. }
    rewrite wrap_small by lia.
    destruct (ExpResizeHandleTable_spec t (Capacity t + GrowBy t) ok Hwf ltac:(lia) ltac:(lia))
      as (s & t1 & -> & Hwf1 & Hss & _ & Hsl & Hcase). cbn.
    destruct Hcase as [(-> & Hcap & Hgrow)|[Hs1 ->]].
    + change (FAILED STATUS_SUCCESS) with false. cbn.
      assert (Z.of_nat (Z.to_nat (Capacity t)) = Capacity t) as HcE by lia.
      pose proof (Hdone t1 (Z.to_nat (Capacity t))) as Hd. rewrite HcE in Hd.
      apply Hd; [done|lia| |done|done|].
      * apply slot_ge; [done|lia].
      * intros j Hj. apply Hfull. lia.
    + replace (FAILED s) with true by (symmetry; by apply bool_decide_eq_true).
      exists s, None, t. split; [done|]. split; [done|]. split; [done|]. by right.
Qed.

(** ** Deletion *)

Lemma slot_None_item t (i : nat) :
  wf t → Z.of_nat i < Capacity t → slot t i = None → item t (Z.of_nat i) = Ok 0.
Proof. intros Hwf Hi Hs. by rewrite item_slot, Hs. Qed.

Lemma slot_nonzero t i p : slot t i = Some p → p ≠ 0.
Proof.
  unfold slot. destruct (items t !! i) as [q|]; [|done]. cbn.
  destruct (Z.eqb_spec q 0); congruence.
Qed.

Lemma lower_MaxIndex_spec t (n : nat) :
  wf t → Z.of_nat n < Capacity t → (∀ j, (n < j)%nat → slot t j = None) →
  ∃ m : nat, lower_MaxIndex t n = Ok (Z.of_nat m) ∧ (m ≤ n)%nat ∧
    (∀ j, (m < j)%nat → slot t j = None).
Proof.
  intros Hwf. induction n as [|n IH]; intros Hn Ha.
  { exists O. split; [done|]. split; [lia|]. done. }
  cbn. rewrite item_slot by (done || lia). cbn.
  destruct (slot t (S n)) as [p|] eqn:Hp; cbn.
  - destruct (Z.eqb_spec p 0); [by apply slot_nonzero in Hp|].
    exists (S n). split; [done|]. split; [lia|done].
  - destruct IH as (m & Hm & Hle & Hab); [lia| |].
    + intros j Hj. destruct (decide (j = S n)) as [->|]; [done|]. apply Ha. lia.
    + exists m. split; [done|]. split; [lia|done].
Qed.

Lemma assert_null_from_ok t (i n : nat) :
  wf t → Z.of_nat (i + n) ≤ Capacity t → (∀ j, (i ≤ j)%nat → slot t j = None) →
  assert_null_from t (Z.of_nat i) n = Ok tt.
Proof.
  intros Hwf. revert i. induction n as [|n IH]; intros i Hi Ha; [done|].
  cbn. rewrite slot_None_item by (done || lia || apply Ha; lia). cbn.
  replace (Z.of_nat i + 1) with (Z.of_nat (S i)) by lia.
  apply IH; [lia|]. intros j Hj. apply Ha. lia.
Qed.

Lemma assert_null_above_ok t : wf t → assert_null_above t = Ok tt.
Proof.
  intros Hwf. pose proof Hwf as [Hc Ha Hm Hs Hl]. unfold assert_null_above.
  destruct (decide (MaxIndex t + 1 ≤ Capacity t)).
  - replace (MaxIndex t + 1) with (Z.of_nat (Z.to_nat (MaxIndex t + 1))) by lia.
    apply assert_null_from_ok; [done|lia|]. intros j Hj. apply Ha. lia.
  - by replace (Z.to_nat (Capacity t - (MaxIndex t + 1))) with O by lia.
Qed.

(** The shrinking loop ends, and what it leaves has room for [MaxIndex]. *)
Lemma shrink_loop_spec t fuel c :
  wf t → 0 < GrowBy t → 0 ≤ c < 2 ^ 60 → MaxIndex t < 2 ^ 60 → c < Z.of_nat fuel →
  ∃ c', shrink_loop fuel t c = Ok c' ∧ 0 ≤ c' ≤ c ∧ (c' = c ∨ MaxIndex t < c' ∧ InitialSize t ≤ c').
Proof.
  intros Hwf Hg. pose proof Hwf as [Hc Ha Hm Hs Hl].
  revert c. induction fuel as [|fuel IH]; intros c Hcc Hmx Hf; [lia|]. cbn.
  rewrite !wrap_small by lia.
  destruct (Z.leb_spec (MaxIndex t + 1 + GrowBy t) c); cbn; [|exists c; split; [done|]; lia].
  destruct (Z.leb_spec (InitialSize t + GrowBy t) c); cbn; [|exists c; split; [done|]; lia].
  destruct (Z.ltb_spec (GrowBy t) c); cbn; [|exists c; split; [done|]; lia].
  destruct (IH (c - GrowBy t)) as (c' & -> & Hle & Hor); [lia..|].
  exists c'. split; [done|]. lia.
Qed.

Lemma shrink_loop_stuck t c fuel :
  GrowBy t = 0 → 0 ≤ MaxIndex t < c → 0 ≤ InitialSize t ≤ c → c < 2 ^ 60 →
  shrink_loop fuel t c = OutOfFuel.
Proof.
  intros Hg Hm Hi Hc. induction fuel as [|fuel IH]; [done|]. cbn. rewrite Hg.
  rewrite !wrap_small by lia.
  rewrite !(proj2 (Z.leb_le _ _)), (proj2 (Z.ltb_lt _ _)) by lia. cbn.
  by rewrite Z.sub_0_r.
Qed.

Lemma ExpDeleteHandle_spec t (i : nat) fuel ok :
  wf t → Z.of_nat i < Capacity t → 0 < GrowBy t ∨ MaxIndex t ≠ Z.of_nat i →
  Capacity t < Z.of_nat fuel →
  ∃ t', ExpDeleteHandle fuel t (Z.of_nat i) ok = Ok t' ∧ wf t' ∧ same_setup t t' ∧
    MaxIndex t' ≤ MaxIndex t ∧ MaxIndex t' < Capacity t' ≤ Capacity t ∧
    ∀ j, slot t' j = if decide (j = i) then None else slot t j.
Proof.
  intros Hwf Hi Hg Hf. unfold ExpDeleteHandle. rewrite set_item_put by done. cbn.
  pose proof (wf_put_zero t i Hwf Hi) as Hw1. pose proof (wf_capacity _ Hwf) as Hc.
  assert (∀ j, slot (put_item t i 0) j = if decide (j = i) then None else slot t j) as Hs1.
  { intros j. rewrite slot_put by lia. done. }
  destruct (Z.eqb_spec (MaxIndex t) (Z.of_nat i)) as [Hmi|Hmi]; cbn.
  2: { exists (put_item t i 0). split; [done|]. split; [done|]. split; [done|].
       split; [cbn; lia|]. split; [pose proof (wf_max _ Hwf); cbn; lia|done]. }
  destruct Hg as [Hg|]; [|done].
  destruct (lower_MaxIndex_spec (put_item t i 0) i Hw1 ltac:(cbn; lia)) as (m & Hm & Hmle & Hma).
  { intros j Hj. apply (wf_above _ Hw1). cbn. lia. }
  rewrite Hmi, Nat2Z.id, Hm. cbn.
  set (t2 := set_MaxIndex (Z.of_nat m) (put_item t i 0)).
  assert (wf t2) as Hw2.
  { destruct Hw1 as [? ? ? ? ?]. split; try done.
    - intros j Hj. apply (Hma j). cbn in Hj. lia.
    - cbn in *. lia. }
  rewrite assert_null_above_ok by done. cbn.
  destruct (shrink_loop_spec t2 fuel (Capacity t)) as (c' & Hsh & Hle & Hor);
    [done|done|pose proof (wf_sizes _ Hwf); lia|pose proof (wf_sizes _ Hwf); cbn; lia|lia|].
  rewrite Hsh. cbn.
  destruct (Z.eqb_spec c' (Capacity t)) as [->|Hne]; cbn.
  { exists t2. split; [done|]. split; [done|]. split; [done|]. split; [cbn; lia|]. split; [pose proof (wf_max _ Hwf); cbn; lia|done]. }
  destruct (ExpResizeHandleTable_spec t2 c' ok Hw2 ltac:(lia)) as
    (s & t3 & -> & Hw3 & Hss & HM & Hsl & Hcase); [cbn in *; lia|].
  exists t3. split; [done|]. split; [done|].
  split. { destruct Hss as (? & ? & ? & ?). by repeat split. }
  split; [rewrite HM; cbn; lia|].
  split. { rewrite HM. pose proof (wf_sizes _ Hw2). destruct Hcase as [(? & -> & _)|[_ ->]]; cbn in *; lia. }
  intros j. rewrite Hsl. apply Hs1.
Qed.

(** ** What a handle stands for *)

(** The object a handle of the table resolves to. *)
Definition resolve (t : EHANDLE_TABLE) (h : Z) : option Z :=
  if ExpCheckHandleCorrectness h then slot t (Z.to_nat (HANDLE_TO_INDEX h)) else None.

Definition is_handle (h : Z) : Prop := 0 ≤ h < 2 ^ 64.

Lemma slot_locks n t j : slot (set_Locks n t) j = slot t j.
Proof. done. Qed.

Lemma wf_lock t : wf t → wf (ExLockHandleTable t).
Proof. intros H. apply wf_locks_irrel; [done|]. pose proof (wf_locks _ H). lia. Qed.

Lemma unlock_ok t :
  wf t → 0 < Locks t →
  ExUnlockHandleTable t = Ok (set_Locks (Locks t - 1) t) ∧ wf (set_Locks (Locks t - 1) t).
Proof.
  intros Hwf Hl. unfold ExUnlockHandleTable.
  rewrite check_true by (apply Z.ltb_lt; lia). split; [done|].
  apply wf_locks_irrel; [done|lia].
Qed.

Lemma set_Locks_undo t : set_Locks (Locks (ExLockHandleTable t) - 1) (ExLockHandleTable t) = t.
Proof. destruct t. unfold ExLockHandleTable, set_Locks. cbn. f_equal. lia. Qed.

Lemma unlock_lock t : 0 ≤ Locks t → ExUnlockHandleTable (ExLockHandleTable t) = Ok t.
Proof.
  intros Hl. unfold ExUnlockHandleTable.
  rewrite check_true by (cbn; apply Z.ltb_lt; lia). cbn [mbind outcome_bind].
  by rewrite set_Locks_undo.
Qed.

Lemma resolve_index t (i : nat) :
  Z.of_nat i < 2 ^ 60 → resolve t (INDEX_TO_HANDLE (Z.of_nat i)) = slot t i.
Proof.
  intros Hi. unfold resolve. rewrite INDEX_TO_HANDLE_correct by lia.
  by rewrite HANDLE_TO_INDEX_TO_HANDLE, Nat2Z.id by lia.
Qed.

(** A change of one slot seen through handles. *)
Lemma resolve_update t t' (i : nat) v :
  Z.of_nat i < 2 ^ 60 → (∀ j, slot t' j = if decide (j = i) then v else slot t j) →
  ∀ h, is_handle h →
    resolve t' h = if decide (h = INDEX_TO_HANDLE (Z.of_nat i)) then v else resolve t h.
Proof.
  intros Hi Hs h Hh. case_decide as Hd.
  - subst. rewrite resolve_index by done. rewrite Hs. by rewrite decide_True.
  - unfold resolve. destruct (ExpCheckHandleCorrectness h) eqn:Hc; [|done].
    rewrite Hs, decide_False; [done|]. intros Heq. apply Hd.
    destruct (INDEX_TO_HANDLE_TO_INDEX h Hh Hc) as [Hrt Hge].
    rewrite <-Hrt. f_equal. lia.
Qed.

Lemma resolve_ext t t' : (∀ j, slot t' j = slot t j) → ∀ h, resolve t' h = resolve t h.
Proof. intros Hs h. unfold resolve. by rewrite Hs. Qed.

Lemma handle_index h t :
  is_handle h → ExpCheckHandleCorrectness h = true →
  ∃ i : nat, HANDLE_TO_INDEX h = Z.of_nat i ∧ h = INDEX_TO_HANDLE (Z.of_nat i) ∧
    resolve t h = slot t i.
Proof.
  intros Hh Hc. destruct (INDEX_TO_HANDLE_TO_INDEX h Hh Hc) as [Hrt Hge].
  exists (Z.to_nat (HANDLE_TO_INDEX h)). rewrite Z2Nat.id by done.
  split; [done|]. split; [done|]. unfold resolve. by rewrite Hc.
Qed.

Lemma lock_capacity t : Capacity (ExLockHandleTable t) = Capacity t.
Proof. done. Qed.

Lemma item_lock t i : item (ExLockHandleTable t) i = item t i.
Proof. done. Qed.

Lemma unlock_after t t' :
  wf t → wf t' → same_setup (ExLockHandleTable t) t' →
  ∃ t'', ExUnlockHandleTable t' = Ok t'' ∧ wf t'' ∧ same_setup t t'' ∧
    Capacity t'' = Capacity t' ∧ MaxIndex t'' = MaxIndex t' ∧
    (∀ j, slot t'' j = slot t' j) ∧ (t' = ExLockHandleTable t → t'' = t).
Proof.
  intros Hwf Hwf' (Hl & Hg & Hi & Hlm). pose proof (wf_locks _ Hwf). cbn in Hl.
  destruct (unlock_ok t' Hwf' ltac:(lia)) as [-> Hw].
  eexists. split; [done|]. split; [done|]. split; [unfold same_setup; cbn in *; lia|].
  split; [done|]. split; [done|]. split; [done|]. intros ->. apply set_Locks_undo.
Qed.

Lemma item_handle t (i : nat) :
  wf t → Z.of_nat i < Capacity t →
  item t (Z.of_nat i) = Ok (default 0 (slot t i)) ∧
  (default 0 (slot t i) =? 0) = bool_decide (slot t i = None).
Proof.
  intros Hwf Hi. rewrite item_slot by done. split; [done|].
  destruct (slot t i) as [p|] eqn:Hp; cbn.
  - apply slot_nonzero in Hp. destruct (Z.eqb_spec p 0); [done|].
    by rewrite ?bool_decide_false by done.
  - by rewrite ?bool_decide_false by done.
Qed.

Section properties.
Context {W : Type} (kill : W → Z → bool * W) (dup : W → Z → Z * W)
  (filt : W → Z → bool * W).

(** [ExDeleteHandle] seen on slots, with what the filtering loop needs. *)
Lemma ExDeleteHandle_slots fuel t w h ok :
  wf t → is_handle h → 0 < GrowBy t ∨ HANDLE_TO_INDEX h ≠ MaxIndex t →
  Capacity t < Z.of_nat fuel →
  ∃ s t' w', ExDeleteHandle kill fuel t w h ok = Ok (s, t', w') ∧ wf t' ∧
    same_setup t t' ∧ MaxIndex t' ≤ MaxIndex t ∧ Capacity t' ≤ Capacity t ∧
    (MaxIndex t < Capacity t → MaxIndex t' < Capacity t') ∧
    match resolve t h with
    | None => s = STATUS_INVALID_HANDLE ∧ t' = t ∧ w' = w
    | Some p =>
        w' = (kill w p).2 ∧
        if (kill w p).1 then
          s = STATUS_SUCCESS ∧
          ∀ j, slot t' j = if decide (j = Z.to_nat (HANDLE_TO_INDEX h)) then None else slot t j
        else s = STATUS_DELETE_CANCELED ∧ t' = t
    end.
Proof.
  intros Hwf Hh Hg Hf. pose proof (wf_locks _ Hwf) as Hl. unfold ExDeleteHandle.
  assert (∀ s w', match resolve t h with
                  | None => s = STATUS_INVALID_HANDLE ∧ w' = w
                  | Some p => w' = (kill w p).2 ∧ (kill w p).1 = false ∧ s = STATUS_DELETE_CANCELED
                  end →
    ∃ s1 t' w1, Ok (s, t, w') = Ok (s1, t', w1) ∧ wf t' ∧
    same_setup t t' ∧ MaxIndex t' ≤ MaxIndex t ∧ Capacity t' ≤ Capacity t ∧
    (MaxIndex t < Capacity t → MaxIndex t' < Capacity t') ∧
    match resolve t h with
    | None => s1 = STATUS_INVALID_HANDLE ∧ t' = t ∧ w1 = w
    | Some p =>
        w1 = (kill w p).2 ∧
        if (kill w p).1 then
          s1 = STATUS_SUCCESS ∧
          ∀ j, slot t' j = if decide (j = Z.to_nat (HANDLE_TO_INDEX h)) then None else slot t j
        else s1 = STATUS_DELETE_CANCELED ∧ t' = t
    end) as Hkeep.
  { intros s w' Hm. exists s, t, w'. do 6 (split; [done|]).
    destruct (resolve t h); [|by destruct Hm as [-> ->]].
    by destruct Hm as (-> & -> & ->). }
  destruct (ExpCheckHandleCorrectness h) eqn:Hc; cbn [negb].
  2: { apply Hkeep. unfold resolve. by rewrite Hc. }
  destruct (handle_index h t Hh Hc) as (i & Hi & Hhi & Hr). rewrite Hi, Hr in *.
  rewrite lock_capacity. destruct (Z.leb_spec (Capacity t) (Z.of_nat i)) as [Hge|Hlt].
  { rewrite unlock_lock by done. apply Hkeep. by rewrite slot_ge. }
  rewrite item_lock. destruct (item_handle t i Hwf Hlt) as [-> He].
  cbn [mbind outcome_bind]. rewrite He.
  destruct (slot t i) as [p|] eqn:Hp; cbn.
  2: { rewrite unlock_lock by done. by apply Hkeep. }
  destruct (kill w p) as [[] w1] eqn:Hk; cbn.
  2: { rewrite unlock_lock by done. by apply Hkeep. }
  destruct (ExpDeleteHandle_spec (ExLockHandleTable t) i fuel ok (wf_lock _ Hwf))
    as (t1 & -> & Hw1 & Hss & HM & HC & Hsl); [done|cbn; lia|done|]. cbn.
  destruct (unlock_after t t1 Hwf Hw1 Hss) as (t' & -> & Hw' & Hss' & HC' & HM' & Hsl' & _).
  cbn in *. eexists _, _, _. split; [done|]. split; [done|]. split; [done|].
  split; [lia|]. split; [lia|]. split; [lia|]. split; [done|]. split; [done|].
  intros j. by rewrite Hsl', Hsl, Nat2Z.id.
Qed.

(** C15: [ExCreateHandle] puts a non-NULL pointer under the lowest handle that
    resolved to nothing, growing the table when there is none, and changes
    what no other handle resolves to; when it fails the table is as before
    and was full.  The lock count is restored and the table stays
    well-formed. *)
Theorem ExCreateHandle_correct t p ok :
  wf t → p ≠ 0 →
  ∃ s h t', ExCreateHandle t p ok = Ok (s, h, t') ∧ wf t' ∧ same_setup t t' ∧
    ((s = STATUS_SUCCESS ∧ ∃ i : nat, h = Some (INDEX_TO_HANDLE (Z.of_nat i)) ∧
        resolve t (INDEX_TO_HANDLE (Z.of_nat i)) = None ∧
        (∀ j, (j < i)%nat → is_Some (resolve t (INDEX_TO_HANDLE (Z.of_nat j)))) ∧
        ∀ h', is_handle h' →
          resolve t' h' = if decide (h' = INDEX_TO_HANDLE (Z.of_nat i)) then Some p
                          else resolve t h')
     ∨ (s ≠ STATUS_SUCCESS ∧ h = None ∧ t' = t ∧
        ∀ j : nat, Z.of_nat j < Capacity t →
          is_Some (resolve t (INDEX_TO_HANDLE (Z.of_nat j))))).
Proof.
  intros Hwf Hp. unfold ExCreateHandle. destruct (Z.eqb_spec p 0); [done|].
  destruct (ExpCreateHandle_spec (ExLockHandleTable t) p ok (wf_lock _ Hwf) Hp)
    as (s & h & t1 & -> & Hw1 & Hss & Hcase). cbn.
  destruct (unlock_after t t1 Hwf Hw1 Hss) as (t' & -> & Hw' & Hss' & Hcap & _ & Hsl & Hsame).
  cbn. exists s, h, t'. split; [done|]. split; [done|]. split; [done|].
  pose proof (wf_sizes _ Hw') as (_ & Hlim & _). pose proof (wf_sizes _ Hwf) as (_ & Hlim0 & _).
  destruct Hcase as [(-> & i & -> & Hi & Hn & Hlt & Hs)|(Hs & -> & -> & Hfull)].
  - left. split; [done|]. exists i. split; [done|].
    rewrite resolve_index by lia. split; [done|]. split.
    + intros j Hj. rewrite resolve_index by lia. by apply Hlt.
    + apply resolve_update; [lia|]. intros j. by rewrite Hsl, Hs.
  - right. split; [done|]. split; [done|]. split; [by apply Hsame|].
    intros j Hj. rewrite resolve_index by lia. by apply Hfull.
Qed.

(** [ExDeleteHandle] on any handle value: an invalid or unused handle is
    refused and nothing changes; a used one is offered to the kill routine,
    whose refusal leaves the table alone; otherwise this handle, and no
    other, resolves to nothing.  It terminates with the lock count restored,
    provided the table may grow or the handle is not the topmost one. *)
Theorem ExDeleteHandle_correct fuel t w h ok :
  wf t → is_handle h → 0 < GrowBy t ∨ HANDLE_TO_INDEX h ≠ MaxIndex t →
  Capacity t < Z.of_nat fuel →
  ∃ s t' w', ExDeleteHandle kill fuel t w h ok = Ok (s, t', w') ∧ wf t' ∧
    same_setup t t' ∧
    match resolve t h with
    | None => s = STATUS_INVALID_HANDLE ∧ t' = t ∧ w' = w
    | Some p =>
        w' = (kill w p).2 ∧
        if (kill w p).1 then
          s = STATUS_SUCCESS ∧
          ∀ h', is_handle h' →
            resolve t' h' = if decide (h' = h) then None else resolve t h'
        else s = STATUS_DELETE_CANCELED ∧ t' = t
    end.
Proof.
  intros Hwf Hh Hg Hf.
  destruct (ExDeleteHandle_slots fuel t w h ok Hwf Hh Hg Hf)
    as (s & t' & w' & -> & Hw' & Hss & _ & _ & _ & Hres).
  exists s, t', w'. split; [done|]. split; [done|]. split; [done|].
  destruct (resolve t h) as [p|] eqn:Hr; [|done].
  destruct Hres as [-> Hres]. split; [done|]. destruct (kill w p) as [[] w1]; [|done].
  destruct Hres as [-> Hsl]. split; [done|].
  destruct (ExpCheckHandleCorrectness h) eqn:Hc; [|by unfold resolve in Hr; rewrite Hc in Hr].
  destruct (handle_index h t Hh Hc) as (i & Hi & Hhi & Hri).
  rewrite Hi, Nat2Z.id in Hsl. rewrite Hhi. apply resolve_update; [|done].
  rewrite Hri in Hr. pose proof (wf_sizes _ Hwf). destruct (Z_lt_dec (Z.of_nat i) (Capacity t)); [lia|].
  rewrite slot_ge in Hr by (done || lia). done.
Qed.

(** A handle table made with a fixed size (growth increment 0) that fits
    its limit loops forever when the topmost handle is deleted: the loop that
    gives capacity back subtracts 0.  This holds for every iteration budget. *)
Theorem ExDeleteHandle_fixed_size_hangs fuel t w h p ok :
  wf t → is_handle h → GrowBy t = 0 → InitialSize t ≤ Capacity t →
  resolve t h = Some p → HANDLE_TO_INDEX h = MaxIndex t → (kill w p).1 = true →
  ExDeleteHandle kill fuel t w h ok = OutOfFuel.
Proof.
  intros Hwf Hh Hg His Hr Hm Hk. pose proof (wf_sizes _ Hwf) as (? & ? & ? & ?).
  unfold ExDeleteHandle.
  destruct (ExpCheckHandleCorrectness h) eqn:Hc; [|by unfold resolve in Hr; rewrite Hc in Hr].
  destruct (handle_index h t Hh Hc) as (i & Hi & Hhi & Hri). cbn [negb].
  rewrite Hri in Hr. rewrite Hi in *.
  rewrite lock_capacity. destruct (Z.leb_spec (Capacity t) (Z.of_nat i)) as [Hge|Hlt].
  { by rewrite slot_ge in Hr. }
  rewrite item_lock. destruct (item_handle t i Hwf Hlt) as [-> He].
  cbn [mbind outcome_bind]. rewrite He, Hr. cbn.
  destruct (kill w p) as [b w1]. cbn in Hk. subst b. cbn.
  pose proof (wf_lock _ Hwf) as Hwl. unfold ExpDeleteHandle.
  rewrite set_item_put by done. cbn [mbind outcome_bind].
  destruct (Z.eqb_spec (MaxIndex (put_item (ExLockHandleTable t) i 0)) (Z.of_nat i)) as [Hmi|];
    [|cbn in *; lia].
  pose proof (wf_put_zero _ i Hwl Hlt) as Hw1.
  destruct (lower_MaxIndex_spec (put_item (ExLockHandleTable t) i 0) i Hw1 Hlt)
    as (m & Hlow & Hle & Hab).
  { intros j Hj. apply (wf_above _ Hw1). rewrite Hmi. lia. }
  rewrite Hmi, Nat2Z.id, Hlow. cbn [mbind outcome_bind].
  rewrite assert_null_above_ok; cbn [mbind outcome_bind].
  2: { destruct Hw1 as [? ? ? ? ?]. split; try done.
       - intros j Hj. apply (Hab j). cbn in Hj. lia.
       - cbn in *. lia. }
  rewrite shrink_loop_stuck; cbn; try done; lia.
Qed.

(** Looking a handle up returns exactly what the handle resolves to, with
    the table's lock kept for the caller, or refuses the handle and leaves
    the lock as it was. *)
Theorem ExGetPointerFromHandle_correct t h :
  wf t → is_handle h →
  match resolve t h with
  | Some p => ExGetPointerFromHandle t h = Ok (STATUS_SUCCESS, ExLockHandleTable t, Some p)
  | None => ∃ o, ExGetPointerFromHandle t h = Ok (STATUS_INVALID_HANDLE, t, o)
  end ∧
  ExCheckHandle t h =
    Ok (if bool_decide (resolve t h = None) then STATUS_INVALID_HANDLE else STATUS_SUCCESS, t).
Proof.
  intros Hwf Hh. pose proof (wf_locks _ Hwf) as Hl.
  unfold ExGetPointerFromHandle, ExCheckHandle.
  destruct (ExpCheckHandleCorrectness h) eqn:Hc; cbn [negb].
  2: { assert (resolve t h = None) as -> by (unfold resolve; by rewrite Hc). eauto. }
  destruct (handle_index h t Hh Hc) as (i & Hi & Hhi & ->). rewrite Hi in *.
  rewrite lock_capacity. destruct (Z.leb_spec (Capacity t) (Z.of_nat i)) as [Hge|Hlt].
  { rewrite unlock_lock, slot_ge by done. cbn. eauto. }
  rewrite item_lock. destruct (item_handle t i Hwf Hlt) as [-> He].
  cbn [mbind outcome_bind]. rewrite He.
  destruct (slot t i) as [p|] eqn:Hp; cbn; rewrite unlock_lock by done; eauto.
Qed.

Lemma filter_loop_spec P K fuel n t w (i : nat) ok :
  (∀ w p, (filt w p).1 = P p) → (∀ w p, (kill w p).1 = K p) →
  wf t → MaxIndex t < Capacity t < Z.of_nat fuel → 0 < GrowBy t →
  (0 < n)%nat → MaxIndex t + 1 < Z.of_nat (i + n) →
  ∃ t' w', filter_loop kill filt fuel n t w (Z.of_nat i) ok = Ok (t', w') ∧ wf t' ∧
    same_setup t t' ∧
    ∀ j, slot t' j = if decide (j < i)%nat then slot t j
                     else p ← slot t j; if P p && K p then None else Some p.
Proof.
  intros HP HK. revert t w i. induction n as [|n IH]; intros t w i Hwf Hm Hg H0 Hn; cbn; [lia|].
  destruct (Z.ltb_spec (MaxIndex t) (Z.of_nat i)) as [Hlt|Hle].
  { exists t, w. split; [done|]. split; [done|]. split; [done|]. intros j.
    case_decide; [done|]. by rewrite (wf_above _ Hwf j) by lia. }
  destruct (item_handle t i Hwf ltac:(lia)) as [-> He]. cbn. rewrite He.
  replace (Z.of_nat i + 1) with (Z.of_nat (S i)) by lia.
  assert (∀ t1 w1, wf t1 → same_setup t t1 → MaxIndex t1 ≤ MaxIndex t →
    MaxIndex t1 < Capacity t1 ≤ Capacity t →
    (∀ j, slot t1 j = if decide (j = i) then (p ← slot t i; if P p && K p then None else Some p)
                      else slot t j) →
    ∃ t' w', filter_loop kill filt fuel n t1 w1 (Z.of_nat (S i)) ok = Ok (t', w') ∧ wf t' ∧
    same_setup t t' ∧
    ∀ j, slot t' j = if decide (j < i)%nat then slot t j
                     else p ← slot t j; if P p && K p then None else Some p) as Hgo.
  { intros t1 w1 Hw1 (E1 & E2 & E3 & E4) HM HC Hs1.
    destruct (IH t1 w1 (S i) Hw1) as (t' & w' & -> & Hw' & (F1 & F2 & F3 & F4) & Hsl);
      [lia|lia|lia|lia|].
    exists t', w'. split; [done|]. split; [done|]. split; [by repeat split; congruence|].
    intros j. rewrite Hsl, !Hs1. repeat case_decide; try lia; subst; try done. }
  destruct (slot t i) as [p|] eqn:Hp; cbn.
  2: { apply Hgo; [done|done|done|lia|]. intros j. case_decide; by subst. }
  specialize (HP w p). destruct (filt w p) as [b w1]. cbn in HP. subst b.
  destruct (P p) eqn:EP; cbn in *.
  2: { apply Hgo; [done|done|done|lia|]. intros j. case_decide; subst; [by rewrite ?Hp; cbn; rewrite ?EP|done]. }
  pose proof (wf_sizes _ Hwf) as (_ & ? & _).
  assert (is_handle (INDEX_TO_HANDLE (Z.of_nat i))) as Hh.
  { apply wrap_range. lia. }
  destruct (ExDeleteHandle_slots fuel t w1 (INDEX_TO_HANDLE (Z.of_nat i)) ok Hwf Hh)
    as (s & t1 & w2 & -> & Hw1 & Hss & HM & HC & HMC & Hres); [by left|lia|].
  cbn. rewrite resolve_index, Hp, HK in Hres by lia.
  rewrite HANDLE_TO_INDEX_TO_HANDLE, Nat2Z.id in Hres by lia.
  destruct Hres as [_ Hres]. apply Hgo; [done|done|done|lia|]. intros j.
  rewrite EP. destruct (K p); [by destruct Hres as [_ ->]|]. destruct Hres as [_ ->].
  case_decide; by subst.
Qed.

(** [ExFilterHandleTable] closes exactly the handles whose object the
    filter selects and the kill routine lets go, and terminates, on a table
    that has room for at least one handle and may grow. *)
Theorem ExFilterHandleTable_correct P K fuel t w ok :
  (∀ w p, (filt w p).1 = P p) → (∀ w p, (kill w p).1 = K p) →
  wf t → 0 < Capacity t < Z.of_nat fuel → 0 < GrowBy t →
  ∃ t' w', ExFilterHandleTable kill filt fuel t w ok = Ok (t', w') ∧ wf t' ∧
    same_setup t t' ∧
    ∀ h, resolve t' h = p ← resolve t h; if P p && K p then None else Some p.
Proof.
  intros HP HK Hwf Hc Hg. unfold ExFilterHandleTable.
  pose proof (wf_max _ Hwf) as Hm.
  destruct (filter_loop_spec P K fuel (Z.to_nat (MaxIndex (ExLockHandleTable t)) + 2)
    (ExLockHandleTable t) w 0 ok HP HK (wf_lock _ Hwf)) as (t1 & w1 & Hfl & Hw1 & Hss & Hsl);
    [cbn; lia|done|lia|cbn; lia|].
  change (Z.of_nat 0) with 0 in Hfl. rewrite Hfl. cbn.
  destruct (unlock_after t t1 Hwf Hw1 Hss) as (t' & -> & Hw' & Hss' & _ & _ & Hsl' & _).
  cbn. exists t', w1. split; [done|]. split; [done|]. split; [done|]. intros h.
  unfold resolve. destruct (ExpCheckHandleCorrectness h); [|done].
  rewrite Hsl', Hsl. by case_decide; [lia|].
Qed.

Lemma wf_set_item_max t (i : nat) v :
  wf t → Z.of_nat i < Capacity t → v ≠ 0 → (∀ j, (i < j)%nat → slot t j = None) →
  wf (set_MaxIndex (Z.of_nat i) (put_item t i v)).
Proof.
  intros Hwf Hi Hv Ha. pose proof (wf_put_raise t i v Hwf Hi) as [Hc _ _ _ _].
  pose proof (wf_capacity _ Hwf) as Hc0. destruct Hwf as [? ? ? ? ?].
  split; try done; cbn in *.
  - unfold items at 1, put_item. cbn. by rewrite length_insert.
  - intros j Hj. change (slot (put_item t i v) j = None).
    rewrite slot_put by lia. case_decide; [lia|]. apply Ha. lia.
  - lia.
Qed.

Lemma clone_loop_spec D old n new w (i : nat) :
  (∀ w p, (dup w p).1 = D p) → wf old → wf new → Capacity new = Capacity old →
  Z.of_nat (i + n) ≤ Capacity old → (∀ j, (i ≤ j)%nat → slot new j = None) →
  ∃ new' w', clone_loop dup old new w (Z.of_nat i) n = Ok (new', w') ∧ wf new' ∧
    same_setup new new' ∧ Capacity new' = Capacity new ∧
    ∀ j, slot new' j =
      if decide (i ≤ j < i + n)%nat
      then p ← slot old j; if D p =? 0 then None else Some (D p)
      else slot new j.
Proof.
  intros HD Hwo. revert new w i. induction n as [|n IH]; intros new w i Hwn Hc Hn Ha; cbn.
  { exists new, w. do 4 (split; [done|]). intros j. by case_decide; [lia|]. }
  destruct (item_handle old i Hwo ltac:(lia)) as [-> He]. cbn. rewrite He.
  replace (Z.of_nat i + 1) with (Z.of_nat (S i)) by lia.
  assert (∀ new1 w1, wf new1 → same_setup new new1 → Capacity new1 = Capacity new →
    (∀ j, slot new1 j = if decide (j = i)
            then (p ← slot old i; if D p =? 0 then None else Some (D p)) else slot new j) →
    ∃ new' w', clone_loop dup old new1 w1 (Z.of_nat (S i)) n = Ok (new', w') ∧ wf new' ∧
    same_setup new new' ∧ Capacity new' = Capacity new ∧
    ∀ j, slot new' j =
      if decide (i ≤ j < i + S n)%nat
      then p ← slot old j; if D p =? 0 then None else Some (D p)
      else slot new j) as Hgo.
  { intros new1 w1 Hw1 (E1 & E2 & E3 & E4) HC Hs1.
    destruct (IH new1 w1 (S i) Hw1) as (new' & w' & -> & Hw' & (F1 & F2 & F3 & F4) & HC' & Hsl);
      [lia|lia| |].
    { intros j Hj. rewrite Hs1, decide_False by lia. apply Ha. lia. }
    exists new', w'. split; [done|]. split; [done|]. split; [by repeat split; congruence|].
    split; [lia|]. intros j. rewrite Hsl, !Hs1. repeat case_decide; try lia; by subst. }
  destruct (slot old i) as [p|] eqn:Hp; cbn.
  2: { apply Hgo; try done. intros j. case_decide; subst; [|done]. apply Ha. lia. }
  specialize (HD w p). destruct (dup w p) as [q w1]. cbn in HD. subst q.
  rewrite set_item_put by (done || lia). cbn. pose proof (wf_capacity _ Hwn) as Hcn.
  destruct (Z.eqb_spec (D p) 0) as [Hz|Hz]; cbn.
  - rewrite Hz. apply Hgo; [by apply wf_put_zero; [|lia]|done|done|].
    intros j. rewrite slot_put by lia. case_decide; [|done]. cbn. by rewrite Hz.
  - apply Hgo; [|done|done|].
    + apply wf_set_item_max; try done; [lia|]. intros j Hj. apply Ha. lia.
    + intros j. change (slot (put_item new i (D p)) j = if decide (j = i)
        then (p ← Some p; if D p =? 0 then None else Some (D p)) else slot new j).
      rewrite slot_put by lia. done.
Qed.

Lemma new_table_wf ini grow lim :
  0 ≤ ini ≤ lim → 0 < lim < 2 ^ 60 → 0 ≤ grow < 2 ^ 60 →
  ∃ t, ExCreateHandleTable ini grow lim true true = (STATUS_SUCCESS, Some t) ∧ wf t ∧
    Locks t = 0 ∧ MaxIndex t = 0 ∧ Capacity t = ini ∧ InitialSize t = ini ∧
    GrowBy t = grow ∧ Limit t = lim ∧ ∀ j, slot t j = None.
Proof.
  intros Hi Hl Hg. unfold ExCreateHandleTable. cbn [negb].
  destruct (Z.ltb_spec lim ini); [lia|].
  destruct (Z.eqb_spec ini 0) as [->|Hne]; (eexists; split; [done|]).
  - split; [|done]. split; cbn; try done; lia.
  - assert (∀ j, slot (mkTable 0 ini grow ini 0 lim (Some (replicate (Z.to_nat ini) 0))) j = None)
      as Hs.
    { intros j. unfold slot, items. cbn. destruct (replicate _ _ !! _) eqn:Hr; [|done].
      by apply lookup_replicate in Hr as [-> _]. }
    split; [|done]. split; cbn; try done; try lia.
    unfold items. cbn. rewrite length_replicate. lia.
Qed.

(** When memory suffices, [ExDuplicateHandleTable] leaves the source table
    as it was and makes a well-formed table of the same capacity in which
    every handle resolves to the duplicate of the object it stood for, or to
    nothing where the duplicate method gave NULL. *)
Theorem ExDuplicateHandleTable_correct D t w :
  (∀ w p, (dup w p).1 = D p) → wf t → 0 < Capacity t →
  ∃ n w', ExDuplicateHandleTable dup t w true true true = Ok (STATUS_SUCCESS, t, Some n, w') ∧
    wf n ∧ Locks n = 0 ∧ Capacity n = Capacity t ∧
    ∀ h, resolve n h = p ← resolve t h; if D p =? 0 then None else Some (D p).
Proof.
  intros HD Hwf Hc. pose proof (wf_sizes _ Hwf) as (Hs1 & Hs2 & Hs3 & Hs4).
  pose proof (wf_locks _ Hwf) as Hl. pose proof (wf_max _ Hwf) as Hm.
  unfold ExDuplicateHandleTable, ExCreateHandleTableInherit.
  change (InitialSize (ExLockHandleTable t)) with (InitialSize t).
  change (GrowBy (ExLockHandleTable t)) with (GrowBy t).
  change (Limit (ExLockHandleTable t)) with (Limit t).
  destruct (new_table_wf (InitialSize t) (GrowBy t) (Limit t))
    as (n0 & -> & Hw0 & E1 & E2 & E3 & E4 & E5 & E6 & Hs0); [lia..|].
  rewrite unlock_lock by done. cbn. change (FAILED STATUS_SUCCESS) with false. cbn.
  destruct (ExpResizeHandleTable_spec n0 (Capacity t) true Hw0)
    as (s & n1 & Hrz & Hw1 & (F1 & F2 & F3 & F4) & F5 & Hs & Hcase); [lia|lia|].
  destruct Hcase as [(-> & HC & _)|[Hf ->]].
  2: { exfalso. apply Hf. revert Hrz. unfold ExpResizeHandleTable. rewrite E6.
       destruct (Z.eqb_spec (Capacity t) (Capacity n0)); [by intros [= <-]|].
       destruct (Z.ltb_spec (Limit t) (Capacity t)); [lia|]. cbn. by intros [= <-]. }
  rewrite Hrz. cbn. change (FAILED STATUS_SUCCESS) with false. cbn.
  rewrite E6, Z.min_l in HC by lia. rewrite HC, Z.eqb_refl. cbn.
  destruct (clone_loop_spec D (ExLockHandleTable t) (Z.to_nat (MaxIndex t + 1)) n1 w 0 HD
    (wf_lock _ Hwf) Hw1 HC) as (n2 & w2 & Hcl & Hw2 & (G1 & G2 & G3 & G4) & HC2 & Hsl);
    [cbn; lia|intros j _; by rewrite Hs|].
  change (Z.of_nat 0) with 0 in Hcl. change (MaxIndex (ExLockHandleTable t)) with (MaxIndex t).
  rewrite Hcl. cbn. rewrite assert_null_above_ok by by apply wf_lock. cbn.
  rewrite unlock_lock by done. cbn. exists n2, w2. split; [done|]. split; [done|].
  split; [lia|]. split; [lia|]. intros h. unfold resolve.
  destruct (ExpCheckHandleCorrectness h); [|done]. rewrite Hsl.
  case_decide; [done|]. rewrite Hs, Hs0. change (slot (ExLockHandleTable t)) with (slot t).
  by rewrite (wf_above _ Hwf) by lia.
Qed.

Lemma ExIsEmpty_loop_spec t (i n : nat) :
  wf t → Z.of_nat (i + n) ≤ Capacity t →
  ∃ b, ExIsEmpty_loop t (Z.of_nat i) n = Ok b ∧
    (b = true ↔ ∀ j, (i ≤ j < i + n)%nat → slot t j = None).
Proof.
  intros Hwf. revert i. induction n as [|n IH]; intros i Hi; cbn.
  { exists true. split; [done|]. split; [|done]. intros _ j Hj. lia. }
  destruct (item_handle t i Hwf ltac:(lia)) as [-> He]. cbn. rewrite He.
  replace (Z.of_nat i + 1) with (Z.of_nat (S i)) by lia.
  destruct (slot t i) eqn:Hp; cbn.
  - exists false. split; [done|]. split; [done|]. intros H.
    rewrite (H i ltac:(lia)) in Hp. done.
  - destruct (IH (S i) ltac:(lia)) as (b & -> & Hb). exists b. split; [done|].
    rewrite Hb. split; intros H j Hj.
    + destruct (decide (j = i)) as [->|]; [done|]. apply H. lia.
    + apply H. lia.
Qed.

(** [ExDeleteHandleTable] does the opposite of its documentation: a table
    with no handles is kept and reported as STATUS_TABLE_NOT_EMPTY, and a
    table that still has handles is freed with STATUS_SUCCESS. *)
Theorem ExDeleteHandleTable_inverted t :
  wf t →
  ((∀ h, is_handle h → resolve t h = None) →
     ExDeleteHandleTable t = Ok (STATUS_TABLE_NOT_EMPTY, Some t)) ∧
  (∀ h p, is_handle h → resolve t h = Some p → ExDeleteHandleTable t = Ok (STATUS_SUCCESS, None)).
Proof.
  intros Hwf. unfold ExDeleteHandleTable, ExIsEmptyHandleTable.
  pose proof (wf_locks _ Hwf). pose proof (wf_sizes _ Hwf) as (_ & Hlim & _).
  pose proof (wf_capacity _ Hwf) as Hcap.
  destruct (ExIsEmpty_loop_spec (ExLockHandleTable t) 0 (Z.to_nat (Capacity t))
    (wf_lock _ Hwf)) as (b & Hb & Hbs); [cbn; lia|].
  change (Z.of_nat 0) with 0 in Hb. rewrite lock_capacity, Hb. cbn.
  rewrite unlock_lock by done. split.
  - intros Hno. destruct b; [done|]. cut (false = true); [done|]. apply Hbs.
    intros j Hj. change (slot t j = None). rewrite <-resolve_index by lia.
    apply Hno, wrap_range. lia.
  - intros h p Hh Hr. destruct b; [|done]. exfalso. revert Hr. unfold resolve.
    destruct (ExpCheckHandleCorrectness h) eqn:Hc; [|done].
    destruct (decide (Z.of_nat (Z.to_nat (HANDLE_TO_INDEX h)) < Capacity t)).
    + change (slot t) with (slot (ExLockHandleTable t)).
      rewrite (proj1 Hbs eq_refl) by lia. done.
    + by rewrite slot_ge by (done || lia).
Qed.
End properties.

(** ** Concrete tables *)

Definition wfb (t : EHANDLE_TABLE) : bool :=
  (Capacity t =? Z.of_nat (length (items t))) &&
  forallb (λ i, (Z.of_nat i <=? MaxIndex t) || bool_decide (slot t i = None))
    (seq 0 (length (items t))) &&
  (0 <=? MaxIndex t) && ((MaxIndex t <? Capacity t) || (MaxIndex t =? 0)) &&
  (0 <=? InitialSize t) && (InitialSize t <=? Limit t) && (Capacity t <=? Limit t) &&
  (Limit t <? 2 ^ 60) && (0 <? Limit t) && (0 <=? GrowBy t) && (GrowBy t <? 2 ^ 60) &&
  (0 <=? Locks t).

Lemma wfb_wf t : wfb t = true → wf t.
Proof.
  unfold wfb. intros H. bool_hyps.
  match goal with H : forallb _ _ = true |- _ => rewrite forallb_forall in H; rename H into Hall end.
  match goal with H : (_ || _) = true |- _ => rename H into Hor end.
  apply orb_true_iff in Hor. split; [done| |split; [done|]|lia|done].
  - intros i Hi. destruct (decide (i < length (items t))%nat) as [Hlt|Hge].
    + specialize (Hall i). rewrite in_seq in Hall. specialize (Hall ltac:(lia)).
      apply orb_true_iff in Hall as [Hle|Hn]; [apply Z.leb_le in Hle; lia|].
      by apply bool_decide_eq_true in Hn.
    + unfold slot. by rewrite lookup_ge_None_2 by lia.
  - destruct Hor as [Hlt|Heq]; [left; by apply Z.ltb_lt|right; by apply Z.eqb_eq].
Qed.

(** Objects 100 and 300 under handles 4 and 12; room for eight handles. *)
Definition two_handles : EHANDLE_TABLE := mkTable 0 4 4 4 2 8 (Some [100; 0; 300; 0]).

(** A table of the fixed size 3, full. *)
Definition fixed_table : EHANDLE_TABLE := mkTable 0 3 0 3 2 3 (Some [100; 200; 300]).

Lemma two_handles_wf : wf two_handles.
Proof. apply wfb_wf. reflexivity. Qed.

Lemma fixed_table_wf : wf fixed_table.
Proof. apply wfb_wf. reflexivity. Qed.

(** A kill routine that counts what it is given and lets everything go, a
    duplicate method and a filter for object 300. *)
Definition kill_all (n : nat) (p : Z) : bool * nat := (true, S n).
Definition dup_next (n : nat) (p : Z) : Z * nat := (p + 1, S n).
Definition filter_300 (n : nat) (p : Z) : bool * nat := (p =? 300, n).

Lemma ExCreateHandle_correct_witness :
  wf two_handles ∧ (700 ≠ 0) ∧
  ∃ s h t', ExCreateHandle two_handles 700 true = Ok (s, h, t') ∧ wf t' ∧
    same_setup two_handles t' ∧
      ((s = STATUS_SUCCESS ∧ ∃ i : nat, h = Some (INDEX_TO_HANDLE (Z.of_nat i)) ∧
          resolve two_handles (INDEX_TO_HANDLE (Z.of_nat i)) = None ∧
          (∀ j, (j < i)%nat → is_Some (resolve two_handles (INDEX_TO_HANDLE (Z.of_nat j)))) ∧
          ∀ h', is_handle h' →
            resolve t' h' = if decide (h' = INDEX_TO_HANDLE (Z.of_nat i)) then Some 700
                            else resolve two_handles h')
       ∨ (s ≠ STATUS_SUCCESS ∧ h = None ∧ t' = two_handles ∧
          ∀ j : nat, Z.of_nat j < Capacity two_handles →
            is_Some (resolve two_handles (INDEX_TO_HANDLE (Z.of_nat j))))).
Proof.
  split; [apply two_handles_wf|]. split; [lia|].
  exact (ExCreateHandle_correct two_handles 700 true two_handles_wf ltac:(lia)).
Defined.

Lemma ExDeleteHandle_correct_witness :
  ∃ s t' w', ExDeleteHandle kill_all 10 two_handles 0%nat 12 true = Ok (s, t', w') ∧ wf t' ∧
    same_setup two_handles t' ∧ w' = 1%nat ∧ s = STATUS_SUCCESS ∧
    ∀ h', is_handle h' →
      resolve t' h' = if decide (h' = 12) then None else resolve two_handles h'.
Proof.
  destruct (ExDeleteHandle_correct kill_all 10 two_handles 0%nat 12 true two_handles_wf)
    as (s & t' & w' & H); [split; lia|left; reflexivity|reflexivity|].
  exists s, t', w'. exact H.
Defined.

Lemma ExDeleteHandle_fixed_size_hangs_witness :
  ExDeleteHandle kill_all 1000 fixed_table 0%nat 12 true = OutOfFuel.
Proof.
  apply (ExDeleteHandle_fixed_size_hangs kill_all 1000 fixed_table 0%nat 12 300 true fixed_table_wf);
    try reflexivity. split; lia.
Defined.

Lemma ExGetPointerFromHandle_correct_witness :
  ExGetPointerFromHandle two_handles 12 =
    Ok (STATUS_SUCCESS, ExLockHandleTable two_handles, Some 300) ∧
  ExCheckHandle two_handles 12 = Ok (STATUS_SUCCESS, two_handles).
Proof.
  apply (ExGetPointerFromHandle_correct two_handles 12 two_handles_wf). split; lia.
Defined.

Lemma ExFilterHandleTable_correct_witness :
  ∃ t' w', ExFilterHandleTable kill_all filter_300 10 two_handles 0%nat true = Ok (t', w') ∧
    wf t' ∧ same_setup two_handles t' ∧
    ∀ h, resolve t' h = p ← resolve two_handles h; if (p =? 300) && true then None else Some p.
Proof.
  apply (ExFilterHandleTable_correct kill_all filter_300 (λ p, p =? 300) (λ _, true) 10
    two_handles 0%nat true); [done|done|apply two_handles_wf|cbn; lia|reflexivity].
Defined.

Lemma ExDuplicateHandleTable_correct_witness :
  ∃ n w', ExDuplicateHandleTable dup_next two_handles 0%nat true true true =
      Ok (STATUS_SUCCESS, two_handles, Some n, w') ∧ wf n ∧ Locks n = 0 ∧ Capacity n = 4 ∧
    ∀ h, resolve n h = p ← resolve two_handles h; if p + 1 =? 0 then None else Some (p + 1).
Proof.
  apply (ExDuplicateHandleTable_correct dup_next (λ p, p + 1) two_handles 0%nat);
    [done|apply two_handles_wf|reflexivity].
Defined.

Lemma ExDeleteHandleTable_inverted_witness :
  ExDeleteHandleTable two_handles = Ok (STATUS_SUCCESS, None) ∧
  ExDeleteHandleTable (mkTable 0 4 4 4 0 8 (Some [0; 0; 0; 0])) =
    Ok (STATUS_TABLE_NOT_EMPTY, Some (mkTable 0 4 4 4 0 8 (Some [0; 0; 0; 0]))).
Proof.
  split.
  - apply (proj2 (ExDeleteHandleTable_inverted two_handles two_handles_wf) 12 300);
      [split; lia|reflexivity].
  - apply ExDeleteHandleTable_inverted; [by apply wfb_wf|].
    intros h _. unfold resolve. destruct (ExpCheckHandleCorrectness h); [|done].
    unfold slot, items. cbn.
    destruct (Z.to_nat _) as [|[|[|[|?]]]]; done.
Defined.
