(* ===== verification/Pmm.v ===== *)
(** The physical memory manager of [boron/source/mm/pmm.c], 64-bit, DEBUG build.

    The PFN database is a finite map from page frame numbers to entries (an
    access outside it faults).  The four lists keep their first and last frame
    in [Ends].  [Mem] is the content of the physical pages and [Slots] the
    page-cache entries that prototype PTE pointers point to.  A routine holds
    the PFN spin lock for its whole body, except [MmZeroOutFirstPFN], which is
    two critical sections. *)
From S2P Require Import Prelude.
Local Open Scope Z_scope.

Definition PAGE_SIZE : Z := 4096.

(** [PFN_INVALID] : boron/include/mm/pfn.h:130-130. *)
Definition PFN_INVALID : Z := 2 ^ 32 - 1.

(** [MM_PFN_OUTOFMEMORY] : boron/include/mm/pfn.h:133-133. *)
Definition MM_PFN_OUTOFMEMORY : Z := 2 ^ 32 - 2.

(** [MM_SLA_NO_DATA] : boron/include/mm/sla.h:59-59. *)
Definition MM_SLA_NO_DATA : Z := 2 ^ 64 - 1.

(** [PF_TYPE_FREE] : boron/include/mm/pfn.h:118-126. *)
Inductive PF_TYPE : Set :=
  | PF_TYPE_FREE
  | PF_TYPE_ZEROED
  | PF_TYPE_USED
  | PF_TYPE_RECLAIM
  | PF_TYPE_TRANSITION
  | PF_TYPE_MMIO.

#[export] Instance PF_TYPE_eq_dec : EqDecision PF_TYPE.
Proof. solve_decision. Defined.

(** [MMPFDBE] : boron/include/mm/pfn.h:33-101. *)
Record MMPFDBE := mkPfdbe {
  Type_ : PF_TYPE;
  Modified : bool;
  IsInModifiedPageList : bool;
  IsFileCache : bool;
  OffsetUpper : Z;
  NextFrame : Z;
  PrevFrame : Z;
  RefCount : Z;
  PrototypePte : Z;
  Fcb : Z;
  OffsetLower : Z;
}.

#[export] Instance MMPFDBE_eq_dec : EqDecision MMPFDBE.
Proof. solve_decision. Defined.

Definition set_Type t e := mkPfdbe t (Modified e) (IsInModifiedPageList e) (IsFileCache e)
  (OffsetUpper e) (NextFrame e) (PrevFrame e) (RefCount e) (PrototypePte e) (Fcb e) (OffsetLower e).
Definition set_Modified m e := mkPfdbe (Type_ e) m (IsInModifiedPageList e) (IsFileCache e)
  (OffsetUpper e) (NextFrame e) (PrevFrame e) (RefCount e) (PrototypePte e) (Fcb e) (OffsetLower e).
Definition set_InModified m e := mkPfdbe (Type_ e) (Modified e) m (IsFileCache e)
  (OffsetUpper e) (NextFrame e) (PrevFrame e) (RefCount e) (PrototypePte e) (Fcb e) (OffsetLower e).
Definition set_Next n e := mkPfdbe (Type_ e) (Modified e) (IsInModifiedPageList e) (IsFileCache e)
  (OffsetUpper e) n (PrevFrame e) (RefCount e) (PrototypePte e) (Fcb e) (OffsetLower e).
Definition set_Prev p e := mkPfdbe (Type_ e) (Modified e) (IsInModifiedPageList e) (IsFileCache e)
  (OffsetUpper e) (NextFrame e) p (RefCount e) (PrototypePte e) (Fcb e) (OffsetLower e).
Definition set_RefCount r e := mkPfdbe (Type_ e) (Modified e) (IsInModifiedPageList e) (IsFileCache e)
  (OffsetUpper e) (NextFrame e) (PrevFrame e) r (PrototypePte e) (Fcb e) (OffsetLower e).
Definition set_Proto p e := mkPfdbe (Type_ e) (Modified e) (IsInModifiedPageList e) (IsFileCache e)
  (OffsetUpper e) (NextFrame e) (PrevFrame e) (RefCount e) p (Fcb e) (OffsetLower e).
Definition set_Cache fcb off e := mkPfdbe (Type_ e) false (IsInModifiedPageList e) true
  (u16 (Z.shiftr off 32)) (NextFrame e) (PrevFrame e) (RefCount e) (PrototypePte e)
  (wrap 48 fcb) (u32 off).

(** [PFDBE_PrototypePte] : boron/include/mm/pfn.h:105-105. *)
Definition PFDBE_PrototypePte (e : MMPFDBE) : Z :=
  Z.lor 0xFFFF000000000000 (PrototypePte e).

(** [PFDBE_Offset] : boron/include/mm/pfn.h:115-115. *)
Definition PFDBE_Offset (e : MMPFDBE) : Z :=
  Z.lor (OffsetLower e) (u64 (Z.shiftl (OffsetUpper e) 16)).

(** The four lists of page frames. *)
Inductive plist : Set := LZero | LFree | LStandby | LModified.

#[export] Instance plist_eq_dec : EqDecision plist.
Proof. solve_decision. Defined.

(** [MiFirstZeroPFN ... MiLastModifiedPFN] : boron/source/mm/pmm.c:376-379.
    With the database and the counter of boron/source/mm/pmm.c:58-59. *)
Record pmm := mkPmm {
  Pfdb : gmap Z MMPFDBE;
  Ends : plist → Z * Z;
  MmTotalFreePages : Z;
  Mem : gmap Z (list Z);
  Slots : gmap Z Z;
}.

Definition First (l : plist) (s : pmm) : Z := (Ends s l).1.
Definition Last (l : plist) (s : pmm) : Z := (Ends s l).2.
Definition set_Pfdb d s := mkPmm d (Ends s) (MmTotalFreePages s) (Mem s) (Slots s).
Definition set_First (l : plist) (f : Z) (s : pmm) : pmm :=
  mkPmm (Pfdb s) (<[l := (f, Last l s)]> (Ends s)) (MmTotalFreePages s) (Mem s) (Slots s).
Definition set_Last (l : plist) (f : Z) (s : pmm) : pmm :=
  mkPmm (Pfdb s) (<[l := (First l s, f)]> (Ends s)) (MmTotalFreePages s) (Mem s) (Slots s).
Definition add_TotalFree (d : Z) (s : pmm) : pmm :=
  mkPmm (Pfdb s) (Ends s) (u64 (MmTotalFreePages s + d)) (Mem s) (Slots s).
Definition set_Slots m s := mkPmm (Pfdb s) (Ends s) (MmTotalFreePages s) (Mem s) m.
Definition set_Mem m s := mkPmm (Pfdb s) (Ends s) (MmTotalFreePages s) m (Slots s).

(** [MmGetPageFrameFromPFN] : boron/source/mm/pmm.c:348-353. *)
Definition MmGetPageFrameFromPFN (s : pmm) (Pfn : Z) : outcome MMPFDBE :=
  deref (Pfdb s !! Pfn).

(** A store to the entry of [Pfn]. *)
Definition upd (Pfn : Z) (f : MMPFDBE → MMPFDBE) (s : pmm) : outcome pmm :=
  e ← MmGetPageFrameFromPFN s Pfn;
  Ok (set_Pfdb (<[Pfn := f e]> (Pfdb s)) s).

(** [MmPhysPageToPFN] : boron/source/mm/pmm.c:338-341. *)
Definition MmPhysPageToPFN (PhysAddr : Z) : Z := u32 (PhysAddr / PAGE_SIZE).

(** [MmPFNToPhysPage] : boron/source/mm/pmm.c:343-346. *)
Definition MmPFNToPhysPage (Pfn : Z) : Z := u64 (Pfn * PAGE_SIZE).

(** ** The memory map of the boot loader *)

(** [LOADER_MEMORY_TYPE] : boron/include/ke/lpb.h:65-73. *)
Inductive LOADER_MEM : Set :=
  | LOADER_MEM_FREE
  | LOADER_MEM_BAD
  | LOADER_MEM_RESERVED
  | LOADER_MEM_ACPI_RECLAIMABLE
  | LOADER_MEM_LOADER_RECLAIMABLE
  | LOADER_MEM_LOADED_PROGRAM.

(** [LOADER_MEMORY_REGION] : boron/include/ke/lpb.h:81-87. *)
Record MEMORY_REGION := mkRegion { RType : LOADER_MEM; Base : Z; Size : Z }.

(** [MiInitPMM] : boron/source/mm/pmm.c:479-479. *)
Definition region_is_free (r : MEMORY_REGION) : bool :=
  match RType r with LOADER_MEM_FREE => true | _ => false end.

(** [MiAllocatePageFromMemMap] : boron/source/mm/pmm.c:181-212.
    The address and the regions as they are left. *)
Fixpoint MiAllocatePageFromMemMap (rs : list MEMORY_REGION)
  : outcome (Z * list MEMORY_REGION) :=
  match rs with
  | [] => Crash
  | r :: rs =>
      if negb (region_is_free r) || (Size r =? 0) then
        '(a, rs) ← MiAllocatePageFromMemMap rs; Ok (a, r :: rs)
      else
        Ok (Base r, mkRegion (RType r) (u64 (Base r + PAGE_SIZE)) (u64 (Size r - PAGE_SIZE)) :: rs)
  end.

(** [MiAllocateMemoryFromMemMap] : boron/source/mm/pmm.c:223-245. *)
Fixpoint memmap_loop (Sz : Z) (rs : list MEMORY_REGION) : outcome (Z * list MEMORY_REGION) :=
  match rs with
  | [] => Crash
  | r :: rs =>
      if negb (region_is_free r) || (Size r <? Sz) then
        '(a, rs) ← memmap_loop Sz rs; Ok (a, r :: rs)
      else
        Ok (Base r, mkRegion (RType r) (u64 (Base r + Sz)) (u64 (Size r - Sz)) :: rs)
  end.

(** [MiAllocateMemoryFromMemMap] : boron/source/mm/pmm.c:214-246. *)
Definition MiAllocateMemoryFromMemMap (SizeInPages : Z) (rs : list MEMORY_REGION)
  : outcome (Z * list MEMORY_REGION) :=
  memmap_loop (u64 (SizeInPages * PAGE_SIZE)) rs.

(** [MiAllocatePfnFromMemMap] : boron/source/mm/pmm.c:248-256. *)
Definition MiAllocatePfnFromMemMap (rs : list MEMORY_REGION)
  : outcome (Z * list MEMORY_REGION) :=
  '(Page, rs) ← MiAllocatePageFromMemMap rs;
  if Page =? 0 then Ok (PFN_INVALID, rs) else Ok (MmPhysPageToPFN Page, rs).

(** ** Lists of page frames *)

(** [MmpUnlinkPfn] : boron/source/mm/pmm.c:604-612. *)
Definition MmpUnlinkPfn (Current : Z) (s : pmm) : outcome pmm :=
  e ← MmGetPageFrameFromPFN s Current;
  s ← (if NextFrame e =? PFN_INVALID then Ok s
       else upd (NextFrame e) (set_Prev (PrevFrame e)) s);
  e ← MmGetPageFrameFromPFN s Current;
  if PrevFrame e =? PFN_INVALID then Ok s
  else upd (PrevFrame e) (set_Next (NextFrame e)) s.

(** [MmpEnsurePfnIsntEndsOfList] : boron/source/mm/pmm.c:614-635. *)
Definition MmpEnsurePfnIsntEndsOfList (l : plist) (Current : Z) (s : pmm) : outcome pmm :=
  e ← MmGetPageFrameFromPFN s Current;
  let s :=
    if First l s =? Current then
      let s := set_First l (NextFrame e) s in
      if First l s =? PFN_INVALID then set_Last l PFN_INVALID s else s
    else s in
  Ok (if Last l s =? Current then
        let s := set_Last l (PrevFrame e) s in
        if Last l s =? PFN_INVALID then set_First l PFN_INVALID s else s
      else s).

(** [MmpRemovePfnFromList] : boron/source/mm/pmm.c:637-642. *)
Definition MmpRemovePfnFromList (l : plist) (Current : Z) (s : pmm) : outcome pmm :=
  s ← MmpUnlinkPfn Current s;
  MmpEnsurePfnIsntEndsOfList l Current s.

(** [MiDetransitionPfn] : boron/source/mm/pmm.c:644-661. *)
Definition MiDetransitionPfn (Pfn : Z) (s : pmm) : outcome pmm :=
  _ ← check (negb (Pfn =? PFN_INVALID));
  e ← MmGetPageFrameFromPFN s Pfn;
  _ ← check (negb (PrototypePte e =? 0));
  s ← MmpUnlinkPfn Pfn s;
  s ← MmpEnsurePfnIsntEndsOfList LStandby Pfn s;
  s ← MmpEnsurePfnIsntEndsOfList LModified Pfn s;
  upd Pfn (λ e, set_Type PF_TYPE_USED (set_Prev 0 (set_Next 0 (set_RefCount 1 e)))) s.

(** [MmpAddPfnToList] : boron/source/mm/pmm.c:663-684. *)
Definition MmpAddPfnToList (l : plist) (Current : Z) (s : pmm) : outcome pmm :=
  _ ← check (negb (Current =? PFN_INVALID));
  if First l s =? PFN_INVALID then
    let s := set_First l Current (set_Last l Current s) in
    upd Current (λ e, set_Prev PFN_INVALID (set_Next PFN_INVALID e)) s
  else
    s ← upd (Last l s) (set_Next Current) s;
    s ← upd Current (λ e, set_Next PFN_INVALID (set_Prev (Last l s) e)) s;
    Ok (set_Last l Current s).

(** [MmpInitializePfn] : boron/source/mm/pmm.c:686-743.
    The atomic store faults when the prototype PTE pointer is not mapped. *)
Definition MmpInitializePfn (Pfn : Z) (s : pmm) : outcome pmm :=
  e ← MmGetPageFrameFromPFN s Pfn;
  if bool_decide (Type_ e = PF_TYPE_USED) then Ok s
  else
    s ← (if bool_decide (Type_ e = PF_TYPE_TRANSITION) then
           _ ← check (negb (PrototypePte e =? 0));
           let Ptr := PFDBE_PrototypePte e in
           _ ← deref (Slots s !! Ptr);
           Ok (set_Slots (<[Ptr := MM_SLA_NO_DATA]> (Slots s)) s)
         else Ok s);
    s ← upd Pfn (λ e, set_Proto 0 (set_Prev 0 (set_Next 0 (set_RefCount 1
                       (set_Type PF_TYPE_USED e))))) s;
    Ok (add_TotalFree (-1) s).

(** [MmpAllocateFromFreeList] : boron/source/mm/pmm.c:745-758. *)
Definition MmpAllocateFromFreeList (l : plist) (s : pmm) : outcome (Z * pmm) :=
  if First l s =? PFN_INVALID then Ok (PFN_INVALID, s)
  else
    let currPFN := First l s in
    _ ← MmGetPageFrameFromPFN s currPFN;
    s ← MmpRemovePfnFromList l currPFN s;
    s ← MmpInitializePfn currPFN s;
    _ ← check (negb (currPFN =? PFN_INVALID) && negb (currPFN =? MM_PFN_OUTOFMEMORY));
    Ok (currPFN, s).

(** [MiAllocatePhysicalPageWithPfdbLocked] : boron/source/mm/pmm.c:760-773. *)
Definition MiAllocatePhysicalPageWithPfdbLocked (s : pmm) : outcome (Z * bool * pmm) :=
  '(currPFN, s) ← MmpAllocateFromFreeList LZero s;
  if currPFN =? PFN_INVALID then
    '(currPFN, s) ← MmpAllocateFromFreeList LFree s;
    if currPFN =? PFN_INVALID then
      '(currPFN, s) ← MmpAllocateFromFreeList LStandby s;
      Ok (currPFN, false, s)
    else Ok (currPFN, false, s)
  else Ok (currPFN, true, s).

(** [MmZeroOutFirstPFN] : boron/source/mm/pmm.c:1033-1036.
    [memset(MmGetHHDMOffsetAddr(MmPFNToPhysPage(Pfn)), 0, PAGE_SIZE)] *)
Definition zero_page (Pfn : Z) (s : pmm) : outcome pmm :=
  _ ← deref (Mem s !! Pfn);
  Ok (set_Mem (<[Pfn := replicate (Z.to_nat PAGE_SIZE) 0]> (Mem s)) s).

(** [MmAllocatePhysicalPage] : boron/source/mm/pmm.c:775-795. *)
Definition MmAllocatePhysicalPage (s : pmm) : outcome (Z * pmm) :=
  '(currPFN, FromZero, s) ← MiAllocatePhysicalPageWithPfdbLocked s;
  if negb FromZero && negb (currPFN =? PFN_INVALID) then
    s ← zero_page currPFN s; Ok (currPFN, s)
  else Ok (currPFN, s).

(** [MiRemoveOneModifiedPfn] : boron/source/mm/pmm.c:797-813. *)
Definition MiRemoveOneModifiedPfn (s : pmm) : outcome (Z * pmm) :=
  '(Pfn, s) ← MmpAllocateFromFreeList LModified s;
  if Pfn =? PFN_INVALID then Ok (Pfn, s)
  else s ← upd Pfn (set_InModified false) s; Ok (Pfn, s).

(** [MmSetPrototypePtePfn] : boron/source/mm/pmm.c:815-827. *)
Definition MmSetPrototypePtePfn (Pfn Pte : Z) (s : pmm) : outcome pmm :=
  _ ← check (negb (Pfn =? PFN_INVALID));
  upd Pfn (set_Proto (wrap 48 Pte)) s.

(** [MmSetCacheDetailsPfn] : boron/source/mm/pmm.c:829-847. *)
Definition MmSetCacheDetailsPfn (Pfn fcb Offset : Z) (s : pmm) : outcome pmm :=
  _ ← check (negb (Pfn =? PFN_INVALID));
  let Offset := Offset / PAGE_SIZE in
  upd Pfn (set_Cache fcb Offset) s.

(** [MmSetModifiedPfn] : boron/source/mm/pmm.c:849-864. *)
Definition MmSetModifiedPfn (Pfn : Z) (s : pmm) : outcome pmm :=
  _ ← check (negb (Pfn =? PFN_INVALID));
  e ← MmGetPageFrameFromPFN s Pfn;
  _ ← check (bool_decide (Type_ e = PF_TYPE_USED));
  upd Pfn (set_Modified true) s.

(** [MmFreePhysicalPage] : boron/source/mm/pmm.c:866-940. *)
Definition MmFreePhysicalPage (pfn : Z) (s : pmm) : outcome pmm :=
  _ ← check (negb (pfn =? PFN_INVALID));
  e ← MmGetPageFrameFromPFN s pfn;
  _ ← check (bool_decide (Type_ e = PF_TYPE_USED) || bool_decide (Type_ e = PF_TYPE_RECLAIM) ||
             bool_decide (Type_ e = PF_TYPE_MMIO));
  s ← upd pfn (set_RefCount (RefCount e - 1)) s;
  _ ← check (0 <=? RefCount e - 1);
  if RefCount e - 1 <=? 0 then
    _ ← check (negb (bool_decide (Type_ e = PF_TYPE_MMIO)));
    s ← upd pfn (set_InModified false) s;
    if negb (PrototypePte e =? 0) then
      if Modified e then
        s ← MmpAddPfnToList LModified pfn s;
        upd pfn (set_InModified true) s
      else
        s ← MmpAddPfnToList LStandby pfn s;
        s ← upd pfn (set_Type PF_TYPE_TRANSITION) s;
        Ok (add_TotalFree 1 s)
    else
      s ← MmpAddPfnToList LFree pfn s;
      s ← upd pfn (set_Type PF_TYPE_FREE) s;
      Ok (add_TotalFree 1 s)
  else Ok s.

(** [MiTransformPageToStandbyPfn] : boron/source/mm/pmm.c:942-981. *)
Definition MiTransformPageToStandbyPfn (Pfn : Z) (s : pmm) : outcome pmm :=
  _ ← check (negb (Pfn =? PFN_INVALID));
  e ← MmGetPageFrameFromPFN s Pfn;
  if (0 <? RefCount e) || negb (bool_decide (Type_ e = PF_TYPE_USED)) then Ok s
  else if IsInModifiedPageList e then Ok s
  else
    s ← MmpAddPfnToList LStandby Pfn s;
    s ← upd Pfn (λ e, set_Modified false (set_Type PF_TYPE_TRANSITION e)) s;
    Ok (add_TotalFree 1 s).

(** [MiReinsertIntoModifiedList] : boron/source/mm/pmm.c:983-999. *)
Definition MiReinsertIntoModifiedList (Pfn : Z) (s : pmm) : outcome pmm :=
  _ ← check (negb (Pfn =? PFN_INVALID));
  e ← MmGetPageFrameFromPFN s Pfn;
  if (0 <? RefCount e) || negb (bool_decide (Type_ e = PF_TYPE_USED)) then Ok s
  else if negb (IsInModifiedPageList e) then
    s ← MmpAddPfnToList LModified Pfn s;
    upd Pfn (λ e, set_Modified true (set_InModified true e)) s
  else Ok s.

(** [MmModifiedPageWriterWorker] : boron/source/mm/mpw.c:62-90.
    What one turn of the page writer's inner loop does before it unlocks the
    database. *)
Inductive mpw_turn : Set :=
  | MpwEmpty
  | MpwSkipped
  | MpwFlush (Pfn : Z).

(** [MmModifiedPageWriterWorker] : boron/source/mm/mpw.c:62-90.
    From locking the database to unlocking it for the write. *)
Definition mpw_take (s : pmm) : outcome (mpw_turn * pmm) :=
  '(Pfn, s) ← MiRemoveOneModifiedPfn s;
  if Pfn =? PFN_INVALID then Ok (MpwEmpty, s)
  else
    e ← MmGetPageFrameFromPFN s Pfn;
    if negb (Modified e) then
      s ← MiTransformPageToStandbyPfn Pfn s; Ok (MpwSkipped, s)
    else
      s ← upd Pfn (λ e, set_Modified false (set_RefCount (RefCount e + 1) e)) s;
      Ok (MpwFlush Pfn, s).

(** [MmModifiedPageWriterWorker] : boron/source/mm/mpw.c:109-137.
    After the write, which succeeded or not. *)
Definition mpw_done (Pfn : Z) (flushed : bool) (s : pmm) : outcome pmm :=
  s ← upd Pfn (λ e, set_RefCount (RefCount e - 1) e) s;
  if flushed then MiTransformPageToStandbyPfn Pfn s
  else MiReinsertIntoModifiedList Pfn s.

(** [MmZeroOutFirstPFN] : boron/source/mm/pmm.c:1006-1030.
    The first critical section of [MmZeroOutFirstPFN]: the frame taken off the
    free list, if there is one to zero. *)
Definition zero_out_take (s : pmm) : outcome (option Z * pmm) :=
  if First LFree s =? PFN_INVALID then Ok (None, s)
  else
    let pfn := First LFree s in
    e ← MmGetPageFrameFromPFN s pfn;
    if bool_decide (Type_ e = PF_TYPE_ZEROED) then Ok (None, s)
    else
      _ ← check (bool_decide (Type_ e = PF_TYPE_FREE));
      s ← upd pfn (set_Type PF_TYPE_ZEROED) s;
      s ← MmpRemovePfnFromList LFree pfn s;
      Ok (Some pfn, s).

(** [MmZeroOutFirstPFN] : boron/source/mm/pmm.c:1038-1041.
    Its second critical section. *)
Definition zero_out_put (pfn : Z) (s : pmm) : outcome pmm :=
  MmpAddPfnToList LZero pfn s.

(** [MmZeroOutFirstPFN] : boron/source/mm/pmm.c:1003-1042.
    Without interference between its two critical sections. *)
Definition MmZeroOutFirstPFN (s : pmm) : outcome pmm :=
  '(o, s) ← zero_out_take s;
  match o with
  | None => Ok s
  | Some pfn => s ← zero_page pfn s; zero_out_put pfn s
  end.

(** [MiPageAddReferenceWithPfdbLocked] : boron/source/mm/pmm.c:1075-1091. *)
Definition MiPageAddReferenceWithPfdbLocked (Pfn : Z) (s : pmm) : outcome pmm :=
  _ ← check (negb (Pfn =? PFN_INVALID));
  e ← MmGetPageFrameFromPFN s Pfn;
  s ← upd Pfn (set_RefCount (RefCount e + 1)) s;
  if RefCount e + 1 <=? 1 then
    _ ← check (RefCount e + 1 =? 1);
    MiDetransitionPfn Pfn s
  else Ok s.

(** [MiSetModifiedPageWithPfdbLocked] : boron/source/mm/pmm.c:1093-1100. *)
Definition MiSetModifiedPageWithPfdbLocked (Pfn : Z) (s : pmm) : outcome pmm :=
  _ ← check (negb (Pfn =? PFN_INVALID));
  upd Pfn (set_Modified true) s.

(** [MmSetModifiedPage] : boron/source/mm/pmm.c:1102-1111. *)
Definition MmSetModifiedPage (Pfn : Z) (s : pmm) : outcome pmm :=
  _ ← check (negb (Pfn =? PFN_INVALID));
  MiSetModifiedPageWithPfdbLocked Pfn s.

(** [MmPageAddReference] : boron/source/mm/pmm.c:1113-1126. *)
Definition MmPageAddReference (Pfn : Z) (s : pmm) : outcome pmm :=
  _ ← check (negb (Pfn =? PFN_INVALID));
  MiPageAddReferenceWithPfdbLocked Pfn s.

(** [MiGetReferenceCountPfn] : boron/source/mm/pmm.c:1128-1138. *)
Definition MiGetReferenceCountPfn (Pfn : Z) (s : pmm) : outcome Z :=
  _ ← check (negb (Pfn =? PFN_INVALID));
  e ← MmGetPageFrameFromPFN s Pfn;
  if bool_decide (Type_ e = PF_TYPE_USED) then Ok (RefCount e) else Ok 0.

(** [MmpIsFree] : boron/source/mm/pmm.c:1140-1144. *)
Definition MmpIsFree (Pfn : Z) (s : pmm) : outcome bool :=
  e ← MmGetPageFrameFromPFN s Pfn; Ok (bool_decide (Type_ e = PF_TYPE_FREE)).

(** [MmpRemovePfnFromItsList] : boron/source/mm/pmm.c:1146-1180. *)
Definition MmpRemovePfnFromItsList (Pfn : Z) (s : pmm) : outcome pmm :=
  e ← MmGetPageFrameFromPFN s Pfn;
  _ ← check (bool_decide (Type_ e = PF_TYPE_FREE));
  if negb (NextFrame e =? PFN_INVALID) && negb (PrevFrame e =? PFN_INVALID) then
    MmpUnlinkPfn Pfn s
  else
    let found :=
      if NextFrame e =? PFN_INVALID then
        if Last LFree s =? Pfn then Some LFree
        else if Last LZero s =? Pfn then Some LZero
        else if Last LStandby s =? Pfn then Some LStandby
        else None
      else
        if First LFree s =? Pfn then Some LFree
        else if First LZero s =? Pfn then Some LZero
        else if First LStandby s =? Pfn then Some LStandby
        else None in
    l ← deref found;
    MmpRemovePfnFromList l Pfn s.

(** [MmpTryAllocateContiguousRegion] : boron/source/mm/pmm.c:1191-1194.
    [for (i = 1; i < PageCount; i++) if (!MmpIsFree(Pfn + i)) return false;] *)
Fixpoint all_free (Pfn : Z) (n : nat) (s : pmm) : outcome bool :=
  match n with
  | O => Ok true
  | S n =>
      b ← MmpIsFree Pfn s;
      if (b : bool) then all_free (u32 (Pfn + 1)) n s else Ok false
  end.

(** [MmpTryAllocateContiguousRegion] : boron/source/mm/pmm.c:1196-1200. *)
Fixpoint take_region (Pfn : Z) (n : nat) (s : pmm) : outcome pmm :=
  match n with
  | O => Ok s
  | S n =>
      s ← MmpRemovePfnFromItsList Pfn s;
      s ← MmpInitializePfn Pfn s;
      take_region (u32 (Pfn + 1)) n s
  end.

(** [MmpTryAllocateContiguousRegion] : boron/source/mm/pmm.c:1182-1203. *)
Definition MmpTryAllocateContiguousRegion (Pfn PageCount Alignment : Z) (s : pmm)
  : outcome (bool * pmm) :=
  if negb (Z.land (MmPFNToPhysPage Pfn) Alignment =? 0) then Ok (false, s)
  else
    f ← MmpIsFree Pfn s;
    _ ← check f;
    b ← all_free (u32 (Pfn + 1)) (Z.to_nat (PageCount - 1)) s;
    if (b : bool) then
      s ← take_region Pfn (Z.to_nat PageCount) s; Ok (true, s)
    else Ok (false, s).

(** [MmAllocatePhysicalContiguousRegion] : boron/source/mm/pmm.c:1211-1215.
    One of the three loops over a list: [Some Pfn] when a region was taken. *)
Fixpoint contiguous_loop (fuel : nat) (l : plist) (Pfn PageCount Alignment : Z) (s : pmm)
  : outcome (option Z * pmm) :=
  match fuel with
  | O => OutOfFuel
  | S fuel =>
      if Pfn =? Last l s then Ok (None, s)
      else
        '(b, s) ← MmpTryAllocateContiguousRegion Pfn PageCount Alignment s;
        if (b : bool) then Ok (Some Pfn, s)
        else
          e ← MmGetPageFrameFromPFN s Pfn;
          contiguous_loop fuel l (NextFrame e) PageCount Alignment s
  end.

(** [MmAllocatePhysicalContiguousRegion] : boron/source/mm/pmm.c:1205-1232.
    [Pfn] is the loop variable: after the last loop it is the last frame of the
    standby list.  [fuel] bounds each loop by the number of frames. *)
Definition MmAllocatePhysicalContiguousRegion (PageCount Alignment : Z) (s : pmm)
  : outcome (Z * pmm) :=
  let fuel := S (size (Pfdb s)) in
  '(o, s) ← contiguous_loop fuel LFree (First LFree s) PageCount Alignment s;
  match o with
  | Some Pfn => Ok (Pfn, s)
  | None =>
      '(o, s) ← contiguous_loop fuel LZero (First LZero s) PageCount Alignment s;
      match o with
      | Some Pfn => Ok (Pfn, s)
      | None =>
          '(o, s) ← contiguous_loop fuel LStandby (First LStandby s) PageCount Alignment s;
          match o with
          | Some Pfn => Ok (Pfn, s)
          | None => Ok (Last LStandby s, s)
          end
      end
  end.

(** [MmFreePhysicalContiguousRegion] : boron/source/mm/pmm.c:1236-1237. *)
Fixpoint free_region (Pfn : Z) (n : nat) (s : pmm) : outcome pmm :=
  match n with
  | O => Ok s
  | S n => s ← MmFreePhysicalPage Pfn s; free_region (u32 (Pfn + 1)) n s
  end.

(** [MmFreePhysicalContiguousRegion] : boron/source/mm/pmm.c:1234-1238. *)
Definition MmFreePhysicalContiguousRegion (PfnStart PageCount : Z) (s : pmm) : outcome pmm :=
  free_region PfnStart (Z.to_nat PageCount) s.

(** ** Initialization *)

(** A cleared entry. *)
Definition blank : MMPFDBE := mkPfdbe PF_TYPE_FREE false false false 0 0 0 0 0 0 0.

(** [MiInitPMM] : boron/source/mm/pmm.c:479-535.
    The body of the loop over the pages of a usable region, on the state, the
    last free frame so far and the number of free frames. *)
Definition init_page (r : MEMORY_REGION) (j : Z) (st : pmm * Z * Z) : outcome (pmm * Z * Z) :=
  let '(s, lastPfn, FreePageCount) := st in
  let currPFN := MmPhysPageToPFN (u64 (Base r + j)) in
  if negb (region_is_free r) then
    s ← upd currPFN (λ _, set_RefCount 1 (set_Type PF_TYPE_RECLAIM blank)) s;
    Ok (s, lastPfn, FreePageCount)
  else
    let s := if First LFree s =? PFN_INVALID then set_First LFree currPFN s else s in
    s ← upd currPFN (λ _, blank) s;
    s ← (if j =? 0 then
           s ← upd currPFN (set_Prev lastPfn) s;
           if negb (lastPfn =? PFN_INVALID) then upd lastPfn (set_Next currPFN) s else Ok s
         else upd currPFN (set_Prev (u32 (currPFN - 1))) s);
    s ← (if Size r <=? j + PAGE_SIZE then upd currPFN (set_Next PFN_INVALID) s
         else upd currPFN (set_Next (u32 (currPFN + 1))) s);
    Ok (s, currPFN, FreePageCount + 1).

(** [MiInitPMM] : boron/source/mm/pmm.c:477-536. *)
Fixpoint init_pages (fuel : nat) (r : MEMORY_REGION) (j : Z) (st : pmm * Z * Z)
  : outcome (pmm * Z * Z) :=
  match fuel with
  | O => OutOfFuel
  | S fuel =>
      if j <? Size r then st ← init_page r j st; init_pages fuel r (j + PAGE_SIZE) st
      else Ok st
  end.

(** [MiInitPMM] : boron/source/mm/pmm.c:472-475. *)
Definition region_is_usable (r : MEMORY_REGION) : bool :=
  match RType r with
  | LOADER_MEM_FREE | LOADER_MEM_LOADER_RECLAIMABLE | LOADER_MEM_LOADED_PROGRAM => true
  | _ => false
  end.

(** [MiInitPMM] : boron/source/mm/pmm.c:468-537. *)
Fixpoint init_regions (rs : list MEMORY_REGION) (st : pmm * Z * Z) : outcome (pmm * Z * Z) :=
  match rs with
  | [] => Ok st
  | r :: rs =>
      if region_is_usable r then
        st ← init_pages (S (S (Z.to_nat (Size r / PAGE_SIZE)))) r 0 st; init_regions rs st
      else init_regions rs st
  end.

(** [MiInitPMM] : boron/source/mm/pmm.c:541-543. *)
Fixpoint zero_out_some (n : nat) (s : pmm) : outcome pmm :=
  match n with O => Ok s | S n => s ← MmZeroOutFirstPFN s; zero_out_some n s end.

(** [MiInitPMM] : boron/source/mm/pmm.c:453-554.
    The second pass, which fills the database that the first pass mapped, and
    the clearing of up to 200 pages. *)
Definition MiInitPMM (rs : list MEMORY_REGION) (s : pmm) : outcome pmm :=
  '(s, lastPfnOfPrevBlock, FreePageCount) ← init_regions rs (s, PFN_INVALID, 0);
  let s := set_Last LFree lastPfnOfPrevBlock s in
  s ← zero_out_some 200 s;
  Ok (mkPmm (Pfdb s) (Ends s) (u64 FreePageCount) (Mem s) (Slots s)).

(** ** Segments of a doubly linked list *)

Definition hd_or (q : Z) (ns : list Z) : Z := default q (head ns).
Definition last_or (p : Z) (ns : list Z) : Z := default p (last ns).

(** The links of a frame. *)
Definition links (d : gmap Z MMPFDBE) (n : Z) : option (Z * Z) :=
  (λ e, (PrevFrame e, NextFrame e)) <$> d !! n.

(** The frames [ns] in this order, between [p] and [q]. *)
Fixpoint seg (d : gmap Z MMPFDBE) (p : Z) (ns : list Z) (q : Z) : Prop :=
  match ns with
  | [] => True
  | n :: ns' => links d n = Some (p, hd_or q ns') ∧ seg d n ns' q
  end.

Lemma last_or_cons p n ns : last_or p (n :: ns) = last_or n ns.
Proof. unfold last_or. rewrite last_cons. by destruct (last ns). Qed.

Lemma last_or_snoc p ns n : last_or p (ns ++ [n]) = n.
Proof. unfold last_or. by rewrite last_snoc. Qed.

Lemma hd_or_app q a b : hd_or q (a ++ b) = hd_or (hd_or q b) a.
Proof. by destruct a. Qed.

Lemma last_or_app p a b : last_or p (a ++ b) = last_or (last_or p a) b.
Proof.
  revert p. induction a as [|n a IH]; intros p; [done|].
  cbn [app]. by rewrite !last_or_cons, IH.
Qed.

Lemma seg_app d p a b q :
  seg d p (a ++ b) q ↔ seg d p a (hd_or q b) ∧ seg d (last_or p a) b q.
Proof.
  revert p. induction a as [|n a IH]; intros p; cbn; [by split; [|intros [_ ?]]|].
  rewrite IH, hd_or_app, last_or_cons. tauto.
Qed.

Lemma seg_links_frame d d' p ns q :
  (∀ n, n ∈ ns → links d' n = links d n) → seg d p ns q → seg d' p ns q.
Proof.
  revert p. induction ns as [|n ns IH]; intros p Hf; cbn; [done|].
  intros [Hl Hs]. split; [rewrite Hf; [done|left]|].
  apply IH; [|done]. intros m Hm. apply Hf. by right.
Qed.

Lemma seg_frame d d' p ns q :
  (∀ n, n ∈ ns → d' !! n = d !! n) → seg d p ns q → seg d' p ns q.
Proof. intros Hf. apply seg_links_frame. intros n Hn. unfold links. by rewrite Hf. Qed.

Lemma seg_lookup d p ns q n : seg d p ns q → n ∈ ns → is_Some (d !! n).
Proof.
  revert p. induction ns as [|m ns IH]; intros p; cbn.
  - intros _ Hn. by apply not_elem_of_nil in Hn.
  - intros [Hl Hs] [->|Hn]%elem_of_cons; [|by eapply IH].
    unfold links in Hl. apply fmap_Some in Hl as (e & -> & _). done.
Qed.

Lemma links_insert d n e m :
  links (<[n := e]> d) m = if decide (m = n) then Some (PrevFrame e, NextFrame e) else links d m.
Proof.
  unfold links. case_decide; [by subst; rewrite lookup_insert_eq|].
  by rewrite lookup_insert_ne.
Qed.

(** Everything in an entry but its links. *)
Definition body (e : MMPFDBE) : MMPFDBE := set_Prev 0 (set_Next 0 e).

Lemma body_insert (d : gmap Z MMPFDBE) n e f m :
  d !! n = Some e → body (f e) = body e → body <$> <[n := f e]> d !! m = body <$> d !! m.
Proof.
  intros Hn Hf. destruct (decide (m = n)) as [->|].
  - by rewrite lookup_insert_eq, Hn; cbn; rewrite Hf.
  - by rewrite lookup_insert_ne.
Qed.

(** Redirecting the end of a segment. *)
Lemma seg_set_next d p ns n q q' e :
  seg d p (ns ++ [n]) q → NoDup (ns ++ [n]) → d !! n = Some e →
  seg (<[n := set_Next q' e]> d) p (ns ++ [n]) q'.
Proof.
  rewrite !seg_app. cbn. intros [Hns [Hl _]] Hnd He. split.
  - eapply seg_links_frame; [|done]. intros m Hm. rewrite links_insert.
    case_decide as Hd; [|done]. subst. apply NoDup_app in Hnd as (_ & Hnd & _).
    exfalso. apply (Hnd n Hm). by apply list_elem_of_singleton.
  - split; [|done]. rewrite links_insert, decide_True by done. cbn.
    unfold links in Hl. rewrite He in Hl. cbn in Hl. by injection Hl as -> _.
Qed.

(** Redirecting its start. *)
Lemma seg_set_prev d p p' n ns q e :
  seg d p (n :: ns) q → NoDup (n :: ns) → d !! n = Some e →
  seg (<[n := set_Prev p' e]> d) p' (n :: ns) q.
Proof.
  cbn. intros [Hl Hs] Hnd He. apply NoDup_cons in Hnd as [Hn _]. split.
  - rewrite links_insert, decide_True by done. cbn.
    unfold links in Hl. rewrite He in Hl. cbn in Hl. by injection Hl as _ ->.
  - eapply seg_links_frame; [|done]. intros m Hm. rewrite links_insert.
    case_decide; [by subst|done].
Qed.

(** [s'] is [s] with list [l] changed from [ns] to [ns'], which relinks some of
    the frames [t]. *)
Record relinked (l : plist) (ns' t : list Z) (s s' : pmm) : Prop := {
  rl_ends : ∀ l', Ends s' l' = if decide (l' = l)
                    then (hd_or PFN_INVALID ns', last_or PFN_INVALID ns') else Ends s l';
  rl_total : MmTotalFreePages s' = MmTotalFreePages s;
  rl_mem : Mem s' = Mem s;
  rl_slots : Slots s' = Slots s;
  rl_seg : seg (Pfdb s') PFN_INVALID ns' PFN_INVALID;
  rl_frame : ∀ m, m ∉ t → Pfdb s' !! m = Pfdb s !! m;
  rl_body : ∀ m, body <$> Pfdb s' !! m = body <$> Pfdb s !! m;
}.

(** A frame number that a list can hold. *)
Definition frame (n : Z) : Prop := 0 ≤ n < MM_PFN_OUTOFMEMORY.

Lemma frame_valid n : frame n → (n =? PFN_INVALID) = false.
Proof. intros [? ?]. unfold PFN_INVALID, MM_PFN_OUTOFMEMORY in *. apply Z.eqb_neq. lia. Qed.

Lemma frame_ok n : frame n → (n =? MM_PFN_OUTOFMEMORY) = false.
Proof. intros [? ?]. apply Z.eqb_neq. lia. Qed.

Lemma hd_or_eqb ns :
  (∀ n, n ∈ ns → frame n) →
  (hd_or PFN_INVALID ns =? PFN_INVALID) = match ns with [] => true | _ => false end.
Proof.
  intros Hf. destruct ns as [|n ns]; [done|]. cbn. apply frame_valid, Hf. left.
Qed.

Lemma upd_Ok n f s e :
  Pfdb s !! n = Some e → upd n f s = Ok (set_Pfdb (<[n := f e]> (Pfdb s)) s).
Proof. unfold upd, MmGetPageFrameFromPFN. by intros ->. Qed.

Lemma upd_entry n f s s' :
  upd n f s = Ok s' → ∃ e, Pfdb s !! n = Some e ∧ Pfdb s' !! n = Some (f e).
Proof.
  unfold upd, MmGetPageFrameFromPFN. intros H. inv_ok. eexists. split; [done|].
  cbn. by rewrite lookup_insert_eq.
Qed.

Lemma links_entry d n p q e :
  links d n = Some (p, q) → d !! n = Some e → PrevFrame e = p ∧ NextFrame e = q.
Proof. unfold links. intros Hl He. rewrite He in Hl. cbn in Hl. by injection Hl as -> ->. Qed.

(** [MmpUnlinkPfn] on a frame in the middle of [a ++ n :: b]. *)
Lemma MmpUnlinkPfn_spec s a n b :
  seg (Pfdb s) PFN_INVALID (a ++ n :: b) PFN_INVALID → NoDup (a ++ n :: b) →
  (∀ m, m ∈ a ++ n :: b → frame m) →
  ∃ d, MmpUnlinkPfn n s = Ok (set_Pfdb d s) ∧ seg d PFN_INVALID (a ++ b) PFN_INVALID ∧
    d !! n = Pfdb s !! n ∧
    (∀ m, m ∉ a ++ b → d !! m = Pfdb s !! m) ∧
    (∀ m, body <$> d !! m = body <$> Pfdb s !! m).
Proof.
  intros Hseg Hnd Hfr. set (d0 := Pfdb s) in *.
  destruct (seg_lookup d0 _ _ _ n Hseg) as [en Hen]; [set_solver|].
  pose proof Hseg as Hseg'. apply seg_app in Hseg' as [Ha Hb]. cbn in Hb. destruct Hb as [Hl Hb].
  destruct (links_entry _ _ _ _ _ Hl Hen) as [Hp Hq].
  apply NoDup_app in Hnd as (Hna & Hdisj & Hnb). apply NoDup_cons in Hnb as [Hnb Hndb].
  (* the successor *)
  assert (∃ d1, (if NextFrame en =? PFN_INVALID then Ok s
                 else upd (NextFrame en) (set_Prev (PrevFrame en)) s) = Ok (set_Pfdb d1 s) ∧
    seg d1 (last_or PFN_INVALID a) b PFN_INVALID ∧
    (∀ m, m ∉ b → d1 !! m = d0 !! m) ∧ (∀ m, body <$> d1 !! m = body <$> d0 !! m))
    as (d1 & E1 & S1 & F1 & B1).
  { rewrite Hp, Hq, hd_or_eqb by (intros; apply Hfr; set_solver). destruct b as [|x b].
    { exists d0. by destruct s. }
    destruct (seg_lookup d0 n (x :: b) PFN_INVALID x Hb) as [ex Hex]; [left|].
    cbn [hd_or head default from_option].
    exists (<[x := set_Prev (last_or PFN_INVALID a) ex]> d0). split; [by apply upd_Ok|].
    split; [by eapply seg_set_prev|]. split.
    - intros m Hm. rewrite lookup_insert_ne; [done|]. set_solver.
    - intros m. by apply body_insert. }
  assert (d1 !! n = Some en) as Hen1 by (by rewrite F1).
  unfold MmpUnlinkPfn, MmGetPageFrameFromPFN. fold d0. rewrite Hen. cbn [deref mbind outcome_bind].
  rewrite E1. cbn. rewrite Hen1. cbn. rewrite Hp, Hq.
  assert (seg d1 PFN_INVALID a n) as Ha1.
  { eapply seg_frame; [|done]. intros m Hm. apply F1. set_solver. }
  destruct a as [|y a _] using rev_ind.
  { exists d1. split; [done|]. split; [done|]. split; [congruence|]. split; [|done].
    intros m Hm. apply F1. done. }
  rewrite last_or_snoc in *. rewrite frame_valid by (apply Hfr; set_solver).
  destruct (seg_lookup d1 _ _ _ y Ha1) as [ey Hey]; [set_solver|].
  exists (<[y := set_Next (hd_or PFN_INVALID b) ey]> d1).
  rewrite (upd_Ok _ _ _ ey) by done. split; [done|]. split.
  { rewrite seg_app. rewrite last_or_snoc. split; [by eapply seg_set_next|].
    eapply seg_frame; [|done]. intros m Hm. rewrite lookup_insert_ne; [done|].
    intros <-. apply (Hdisj y); set_solver. }
  split; [rewrite lookup_insert_ne; [congruence|]; intros <-; apply (Hdisj y); set_solver|].
  split.
  - intros m Hm. rewrite lookup_insert_ne by set_solver. apply F1. set_solver.
  - intros m. rewrite <-B1. by apply body_insert.
Qed.

Lemma fn_lookup_insert_if (f : plist → Z * Z) l v l' :
  <[l := v]> f l' = if decide (l' = l) then v else f l'.
Proof.
  case_decide; [subst; by rewrite fn_lookup_insert|by rewrite fn_lookup_insert_ne].
Qed.

Create Rewrite HintDb ends.
Lemma First_set_First l f s : First l (set_First l f s) = f.
Proof. unfold First. cbn. by rewrite fn_lookup_insert. Qed.
Lemma First_set_Last l f s : First l (set_Last l f s) = First l s.
Proof. unfold First at 1. cbn. by rewrite fn_lookup_insert. Qed.
Lemma Last_set_Last l f s : Last l (set_Last l f s) = f.
Proof. unfold Last. cbn. by rewrite fn_lookup_insert. Qed.
Lemma Last_set_First l f s : Last l (set_First l f s) = Last l s.
Proof. unfold Last at 1. cbn. by rewrite fn_lookup_insert. Qed.

#[export] Hint Rewrite First_set_First First_set_Last Last_set_Last Last_set_First : ends.

(** [MmpEnsurePfnIsntEndsOfList] after the unlinking. *)
Lemma ensure_spec l s d a n b :
  Ends s l = (hd_or PFN_INVALID (a ++ n :: b), last_or PFN_INVALID (a ++ n :: b)) →
  NoDup (a ++ n :: b) → (∀ m, m ∈ a ++ n :: b → frame m) →
  links d n = Some (last_or PFN_INVALID a, hd_or PFN_INVALID b) →
  ∃ s', MmpEnsurePfnIsntEndsOfList l n (set_Pfdb d s) = Ok s' ∧
    Pfdb s' = d ∧ MmTotalFreePages s' = MmTotalFreePages s ∧ Mem s' = Mem s ∧
    Slots s' = Slots s ∧
    ∀ l', Ends s' l' = if decide (l' = l)
      then (hd_or PFN_INVALID (a ++ b), last_or PFN_INVALID (a ++ b)) else Ends s l'.
Proof.
  intros He Hnd Hfr Hl. unfold MmpEnsurePfnIsntEndsOfList, MmGetPageFrameFromPFN.
  cbn [Pfdb set_Pfdb].
  unfold links in Hl. apply fmap_Some in Hl as (e & -> & Hpq). cbn [deref mbind outcome_bind].
  injection Hpq as Hp Hq. rewrite <-Hp, <-Hq. clear Hp Hq.
  assert (hd_or PFN_INVALID (a ++ n :: b) = n ↔ a = []) as Hh.
  { destruct a as [|x a]; [done|]. split; [|done]. cbn. intros ->.
    apply NoDup_cons in Hnd as [Hn _]. exfalso. apply Hn. set_solver. }
  assert (last_or PFN_INVALID (a ++ n :: b) = n ↔ b = []) as Ht.
  { rewrite last_or_app, last_or_cons. destruct b as [|x b _] using rev_ind; [done|].
    rewrite last_or_snoc. split; [|by destruct b]. intros ->.
    apply NoDup_app in Hnd as (_ & _ & Hnd). apply NoDup_cons in Hnd as [Hn _].
    exfalso. apply Hn. set_solver. }
  assert (First l (set_Pfdb d s) = hd_or PFN_INVALID (a ++ n :: b)) as HF by (unfold First; cbn; by rewrite He).
  assert (Last l (set_Pfdb d s) = last_or PFN_INVALID (a ++ n :: b)) as HL by (unfold Last; cbn; by rewrite He).
  assert ((PFN_INVALID =? n) = false) as Hinv.
  { rewrite Z.eqb_sym. apply frame_valid, Hfr. set_solver. }
  rewrite HF.
  destruct (Z.eqb_spec (hd_or PFN_INVALID (a ++ n :: b)) n) as [E|E].
  - apply Hh in E as ->. cbn [app] in *. autorewrite with ends.
    rewrite hd_or_eqb by (intros; apply Hfr; set_solver). destruct b as [|x b].
    + autorewrite with ends. rewrite Hinv. eexists. split; [done|].
      repeat split; try done. intros l'. cbn. rewrite !fn_lookup_insert_if.
      case_decide; [|done]. by autorewrite with ends.
    + autorewrite with ends. rewrite HL.
      destruct (Z.eqb_spec (last_or PFN_INVALID (n :: x :: b)) n) as [E'|E'].
      { by apply Ht in E'. }
      eexists. split; [done|]. repeat split; try done. intros l'. cbn.
      rewrite !fn_lookup_insert_if. case_decide; [|done]. rewrite HL. by rewrite !last_or_cons.
  - rewrite HL. destruct (Z.eqb_spec (last_or PFN_INVALID (a ++ n :: b)) n) as [E'|E'].
    + apply Ht in E' as ->. destruct a as [|x a _] using rev_ind; [by destruct E; apply Hh|].
      autorewrite with ends. rewrite last_or_snoc, app_nil_r.
      rewrite frame_valid by (apply Hfr; set_solver).
      eexists. split; [done|]. repeat split; try done. intros l'. cbn.
      rewrite !fn_lookup_insert_if.
      case_decide; [|done]. rewrite HF, last_or_snoc. by destruct a.
    + eexists. split; [done|].
      repeat split; try done. intros l'. cbn. case_decide; [|done]. subst. rewrite He.
      assert (a ≠ []) as Ha by (intros ?; by apply E, Hh).
      assert (b ≠ []) as Hb by (intros ?; by apply E', Ht).
      destruct a as [|x a]; [done|]. destruct b as [|y b]; [done|].
      rewrite !last_or_app, !last_or_cons. done.
Qed.

(** A list with its ends. *)
Definition is_list (s : pmm) (l : plist) (ns : list Z) : Prop :=
  seg (Pfdb s) PFN_INVALID ns PFN_INVALID ∧ NoDup ns ∧ (∀ m, m ∈ ns → frame m) ∧
  Ends s l = (hd_or PFN_INVALID ns, last_or PFN_INVALID ns).

Lemma unlink_and_ensure s l a n b :
  is_list s l (a ++ n :: b) →
  ∃ d s', MmpUnlinkPfn n s = Ok (set_Pfdb d s) ∧ d !! n = Pfdb s !! n ∧
    MmpEnsurePfnIsntEndsOfList l n (set_Pfdb d s) = Ok s' ∧
    relinked l (a ++ b) (a ++ b) s s' ∧ Pfdb s' !! n = Pfdb s !! n.
Proof.
  intros (Hseg & Hnd & Hfr & He).
  destruct (MmpUnlinkPfn_spec s a n b Hseg Hnd Hfr) as (d & HU & Hs & Hn & Hf & Hb).
  destruct (ensure_spec l s d a n b He Hnd Hfr) as (s' & HE & Ed & Et & Em & Es & Ee).
  { apply seg_app in Hseg as [_ Hseg]. cbn in Hseg. destruct Hseg as [Hl _].
    unfold links in *. by rewrite Hn. }
  exists d, s'. split; [done|]. split; [done|]. split; [done|]. rewrite <-Hn, <-Ed.
  split; [|done]. split; try done; by rewrite Ed.
Qed.

Lemma MmpRemovePfnFromList_spec l s a n b :
  is_list s l (a ++ n :: b) →
  ∃ s', MmpRemovePfnFromList l n s = Ok s' ∧ relinked l (a ++ b) (a ++ b) s s' ∧
    Pfdb s' !! n = Pfdb s !! n.
Proof.
  intros Hl. destruct (unlink_and_ensure s l a n b Hl) as (d & s' & HU & _ & HE & Hrl & Hn).
  exists s'. unfold MmpRemovePfnFromList. by rewrite HU.
Qed.

(** An interior frame needs no change of the ends. *)
Lemma MmpUnlinkPfn_interior l s a n b :
  is_list s l (a ++ n :: b) → a ≠ [] → b ≠ [] →
  ∃ s', MmpUnlinkPfn n s = Ok s' ∧ relinked l (a ++ b) (a ++ b) s s' ∧
    Pfdb s' !! n = Pfdb s !! n.
Proof.
  intros (Hseg & Hnd & Hfr & He) Ha Hb.
  destruct (MmpUnlinkPfn_spec s a n b Hseg Hnd Hfr) as (d & -> & Hs & Hn & Hf & Hbd).
  eexists. split; [done|]. split; [|done]. split; try done. intros l'. cbn.
  case_decide; [|done]. subst. rewrite He.
  destruct a as [|x a]; [done|]. destruct b as [|y b]; [done|].
  by rewrite !last_or_app, !last_or_cons.
Qed.

Lemma MmpAddPfnToList_spec l s ns n e :
  is_list s l ns → n ∉ ns → frame n → Pfdb s !! n = Some e →
  ∃ s', MmpAddPfnToList l n s = Ok s' ∧ relinked l (ns ++ [n]) (ns ++ [n]) s s'.
Proof.
  intros (Hseg & Hnd & Hfr & He) Hn Hfn Hen. unfold MmpAddPfnToList.
  rewrite (frame_valid n) by done. cbn.
  assert (First l s = hd_or PFN_INVALID ns) as HF by (unfold First; by rewrite He).
  assert (Last l s = last_or PFN_INVALID ns) as HL by (unfold Last; by rewrite He).
  rewrite HF, HL, hd_or_eqb by done. destruct ns as [|y ns _] using rev_ind.
  - rewrite (upd_Ok _ _ _ e) by done. eexists. split; [done|]. split; try done; cbn.
    + intros l'. rewrite !fn_lookup_insert_if. case_decide; [|done]. by autorewrite with ends.
    + by rewrite links_insert, decide_True.
    + intros m Hm. rewrite lookup_insert_ne; [done|]. set_solver.
    + intros m.
      by apply (body_insert _ _ e (λ e, set_Prev PFN_INVALID (set_Next PFN_INVALID e))).
  - assert (match ns ++ [y] with [] => true | _ => false end = false) as -> by by destruct ns.
    rewrite last_or_snoc.
    destruct (seg_lookup _ _ _ _ y Hseg) as [ey Hey]; [set_solver|].
    rewrite (upd_Ok _ _ _ ey) by done. cbn.
    assert (n ≠ y) as Hny by set_solver.
    rewrite (upd_Ok _ _ _ e) by (cbn; by rewrite lookup_insert_ne). cbn.
    assert (Last l (set_Pfdb (<[y := set_Next n ey]> (Pfdb s)) s) = y) as HL'.
    { unfold Last in *. cbn. by rewrite HL, last_or_snoc. }
    rewrite HL'. eexists. split; [done|]. split; try done; cbn.
    + intros l'. rewrite !fn_lookup_insert_if. case_decide; [|done]. subst.
      unfold First in *. cbn. rewrite HF, last_or_snoc. f_equal. by destruct ns.
    + rewrite seg_app, last_or_snoc. cbn. split; [|by rewrite links_insert, decide_True].
      eapply seg_frame; [|by eapply seg_set_next].
      intros m Hm. rewrite lookup_insert_ne; [done|]. set_solver.
    + intros m Hm. rewrite !lookup_insert_ne; [done| |]; set_solver.
    + intros m. etrans; [|by apply (body_insert _ y ey (set_Next n))].
      apply (body_insert _ n e (λ e, set_Next PFN_INVALID (set_Prev y e))); [|done].
      by rewrite lookup_insert_ne.
Qed.

(** ** The invariant of the database *)

Definition zeros : list Z := replicate (Z.to_nat PAGE_SIZE) 0.

(** What holds of the entry of frame [n] when the lists are [L] and the frames
    [B] are being zeroed. *)
Record page_ok (s : pmm) (L : plist → list Z) (B : list Z) (n : Z) (e : MMPFDBE) : Prop := {
  po_frame : frame n;
  po_mem : is_Some (Mem s !! n);
  po_ref : 0 ≤ RefCount e;
  po_free : n ∈ L LFree ↔ Type_ e = PF_TYPE_FREE;
  po_standby : n ∈ L LStandby ↔ Type_ e = PF_TYPE_TRANSITION;
  po_zero : (n ∈ L LZero ∨ n ∈ B) ↔ Type_ e = PF_TYPE_ZEROED;
  po_modified : n ∈ L LModified ↔
    Type_ e = PF_TYPE_USED ∧ RefCount e = 0 ∧ IsInModifiedPageList e = true;
  po_cached : n ∈ L LStandby ∨ n ∈ L LModified → PrototypePte e ≠ 0 ∧ RefCount e = 0;
  po_slot : PrototypePte e ≠ 0 → is_Some (Slots s !! PFDBE_PrototypePte e);
  po_zeroed : n ∈ L LZero → Mem s !! n = Some zeros;
}.

Record pm_inv (s : pmm) (L : plist → list Z) (B : list Z) : Prop := {
  inv_lists : ∀ l, is_list s l (L l);
  inv_zeroing : NoDup (L LZero ++ B);
  inv_zeroing_dom : ∀ n, n ∈ B → is_Some (Pfdb s !! n);
  inv_page : ∀ n e, Pfdb s !! n = Some e → page_ok s L B n e;
}.

(** The free page counter counts the pages that can be handed out. *)
Definition counted (s : pmm) (L : plist → list Z) (B : list Z) : Prop :=
  MmTotalFreePages s =
    Z.of_nat (length (L LZero) + length (L LFree) + length (L LStandby) + length B).

Lemma page_ok_frame s s' L L' B B' n e e' :
  page_ok s L B n e → body e' = body e →
  (∀ l, n ∈ L' l ↔ n ∈ L l) → (n ∈ B' ↔ n ∈ B) → Mem s' !! n = Mem s !! n →
  (∀ p, is_Some (Slots s !! p) → is_Some (Slots s' !! p)) →
  page_ok s' L' B' n e'.
Proof.
  intros [] Hb HL HB HM HS.
  assert (Type_ e' = Type_ e ∧ RefCount e' = RefCount e ∧
    IsInModifiedPageList e' = IsInModifiedPageList e ∧ PrototypePte e' = PrototypePte e)
    as (E1 & E2 & E3 & E4) by (destruct e, e'; cbn in *; by injection Hb as <- <- <- <- <- <- <- <-).
  split; unfold PFDBE_PrototypePte in *;
    rewrite ?HL, ?HB, ?HM, ?E1, ?E2, ?E3, ?E4; auto.
Qed.

Lemma pm_inv_ext s s' L B :
  Pfdb s' = Pfdb s → Ends s' = Ends s → Mem s' = Mem s → Slots s' = Slots s →
  pm_inv s L B → pm_inv s' L B.
Proof.
  intros Hp He Hm Hs [H1 H2 H3 H4]. split; [|done|by rewrite Hp|].
  - intros l. unfold is_list. rewrite Hp, He. apply H1.
  - intros n e. rewrite Hp. intros Hn. eapply page_ok_frame; [by apply H4|done|done|done| |].
    + by rewrite Hm.
    + by rewrite Hs.
Qed.

Lemma pm_inv_lists_ext s L L' B : (∀ l, L' l = L l) → pm_inv s L B → pm_inv s L' B.
Proof.
  intros HL [H1 H2 H3 H4]. split; [|by rewrite HL|done|].
  - intros l. by rewrite HL.
  - intros n e Hn. eapply page_ok_frame; [by apply H4|done| |done|done|done]. intros l. by rewrite HL.
Qed.

Lemma pm_inv_in s L B l n : pm_inv s L B → n ∈ L l → ∃ e, Pfdb s !! n = Some e ∧ page_ok s L B n e.
Proof.
  intros Hinv Hn. destruct (inv_lists _ _ _ Hinv l) as (Hseg & _).
  destruct (seg_lookup _ _ _ _ n Hseg Hn) as [e He]. exists e. split; [done|].
  by eapply inv_page.
Qed.

Lemma pm_inv_disjoint s L B l l' n : pm_inv s L B → n ∈ L l → n ∈ L l' → l = l'.
Proof.
  intros Hinv Hn Hn'. destruct (pm_inv_in _ _ _ _ _ Hinv Hn) as (e & _ & []).
  destruct l, l'; try done; exfalso; intuition congruence.
Qed.

(** A step that changes the lists only at [n]. *)
Lemma pm_inv_step s L B s2 L2 B2 n e2 :
  pm_inv s L B →
  Pfdb s2 !! n = Some e2 →
  (∀ m, m ≠ n → body <$> Pfdb s2 !! m = body <$> Pfdb s !! m) →
  (∀ l, is_list s2 l (L2 l)) →
  (∀ l m, m ≠ n → (m ∈ L2 l ↔ m ∈ L l)) →
  (∀ m, m ≠ n → (m ∈ B2 ↔ m ∈ B)) → NoDup (L2 LZero ++ B2) →
  (∀ m, m ≠ n → Mem s2 !! m = Mem s !! m) →
  (∀ p, is_Some (Slots s !! p) → is_Some (Slots s2 !! p)) →
  page_ok s2 L2 B2 n e2 →
  pm_inv s2 L2 B2.
Proof.
  intros Hinv He2 Hbody Hl HL HB Hnd HM HS Hok. split; [done|done| |].
  - intros m Hm. destruct (decide (m = n)) as [->|Hne]; [by rewrite He2|].
    apply HB in Hm; [|done]. apply (inv_zeroing_dom _ _ _ Hinv) in Hm as [e He].
    specialize (Hbody m Hne). rewrite He in Hbody. cbn in Hbody.
    by apply fmap_Some in Hbody as (e' & -> & _).
  - intros m e He. destruct (decide (m = n)) as [->|Hne]; [congruence|].
    specialize (Hbody m Hne). rewrite He in Hbody. cbn in Hbody. symmetry in Hbody.
    apply fmap_Some in Hbody as (e' & He' & Hb).
    eapply page_ok_frame; [by eapply inv_page|done|auto..].
Qed.

(** [s'] differs from [s] in the entry of [n] only. *)
Definition agree_but (n : Z) (s s' : pmm) : Prop :=
  (∀ m, m ≠ n → Pfdb s' !! m = Pfdb s !! m) ∧ Ends s' = Ends s ∧
  MmTotalFreePages s' = MmTotalFreePages s ∧ Mem s' = Mem s ∧ Slots s' = Slots s.

Lemma agree_but_refl (n : Z) s : agree_but n s s.
Proof. done. Qed.

Lemma agree_but_insert (n : Z) e s : agree_but n s (set_Pfdb (<[n := e]> (Pfdb s)) s).
Proof. split; [|done]. intros m Hm. cbn. by rewrite lookup_insert_ne. Qed.

Lemma agree_but_trans n s1 s2 s3 : agree_but n s1 s2 → agree_but n s2 s3 → agree_but n s1 s3.
Proof.
  intros (A1 & A2 & A3 & A4 & A5) (B1 & B2 & B3 & B4 & B5).
  split; [|by repeat split; etrans]. intros m Hm. by rewrite B1, A1.
Qed.

Lemma is_list_agree s s' l ns :
  (∀ m, m ∈ ns → Pfdb s' !! m = Pfdb s !! m) → Ends s' l = Ends s l →
  is_list s l ns → is_list s' l ns.
Proof.
  intros Hd He (Hseg & Hnd & Hfr & Hends). split; [by eapply seg_frame|].
  split; [done|]. split; [done|]. by rewrite He.
Qed.

Lemma lookup_insert_lists (L : plist → list Z) l v l' :
  <[l := v]> L l' = if decide (l' = l) then v else L l'.
Proof.
  case_decide; [subst; by rewrite fn_lookup_insert|by rewrite fn_lookup_insert_ne].
Qed.

(** Frame [n] leaves list [l]; what the caller then does to its entry has to
    make [page_ok] hold again. *)
Lemma leave_list s L B l a n b e s0 s1 s2 e2 B2 :
  pm_inv s L B → L l = a ++ n :: b → Pfdb s !! n = Some e →
  agree_but n s s0 → relinked l (a ++ b) (a ++ b) s0 s1 → agree_but n s1 s2 ∨
    (∃ d m, s2 = set_Slots m (add_TotalFree d (set_Pfdb (Pfdb s2) s1)) ∧
       (∀ k, k ≠ n → Pfdb s2 !! k = Pfdb s1 !! k) ∧
       (∀ p, is_Some (Slots s !! p) → is_Some (m !! p))) →
  Pfdb s2 !! n = Some e2 →
  (∀ m, m ≠ n → (m ∈ B2 ↔ m ∈ B)) → NoDup (<[l := a ++ b]> L LZero ++ B2) →
  page_ok s2 (<[l := a ++ b]> L) B2 n e2 →
  pm_inv s2 (<[l := a ++ b]> L) B2.
Proof.
  intros Hinv HL He (G1 & G2 & G3 & G4 & G5) [Re Rt Rm Rs Rseg Rf Rb] Hs2 He2 HB HndB Hok.
  assert ((∀ k, k ≠ n → Pfdb s2 !! k = Pfdb s1 !! k) ∧ Ends s2 = Ends s1 ∧ Mem s2 = Mem s1 ∧
          (∀ p, is_Some (Slots s !! p) → is_Some (Slots s2 !! p))) as (A1 & A2 & A3 & A4).
  { destruct Hs2 as [(A1 & A2 & A3 & A4 & A5)|(d & m & Hs2 & A1 & A5)].
    - repeat split; try done. intros p. by rewrite A5, Rs, G5.
    - rewrite Hs2 in *. done. }
  destruct (inv_lists _ _ _ Hinv l) as (Hseg & Hnd & Hfr & Hends). rewrite HL in *.
  assert (n ∉ a ++ b) as Hn by (apply NoDup_app in Hnd as (? & Hd & Hnd);
    apply NoDup_cons in Hnd as [? ?]; intros [Hna|Hnb]%elem_of_app; [|done];
    apply (Hd n Hna); left).
  assert (NoDup (a ++ b)) as Hnd'.
  { apply NoDup_app in Hnd as (Hna & Hd & Hnb). apply NoDup_cons in Hnb as [_ Hnb].
    apply NoDup_app. split; [done|]. split; [|done]. intros x Hx Hx'.
    apply (Hd x Hx). by right. }
  eapply (pm_inv_step s L B s2 _ B2 n e2); try done.
  - intros m Hm. rewrite A1, Rb, G1; done.
  - intros l'. rewrite lookup_insert_lists. case_decide as Hl.
    + subst. split; [|split; [done|split]].
      * eapply seg_frame; [|exact Rseg]. intros m Hm. apply A1. set_solver.
      * intros m Hm. apply Hfr. set_solver.
      * rewrite A2, Re, decide_True by done. done.
    + eapply (is_list_agree s); [|by rewrite A2, Re, decide_False, G2|by apply (inv_lists _ _ _ Hinv)].
      intros m Hm.
      assert (m ∉ a ++ n :: b) as Hm'.
      { intros Hm'. apply Hl. eapply pm_inv_disjoint; [done|done|by rewrite HL]. }
      assert (m ≠ n) by set_solver. rewrite A1, Rf, G1; set_solver.
  - intros l' m Hm. rewrite lookup_insert_lists. case_decide; [|done]. subst. rewrite HL.
    set_solver.
  - intros m Hm. by rewrite A3, Rm, G4.
Qed.

(** Frame [n], on no list, is appended to list [l] after the caller changed its
    entry to [e0]; it may change it again, but not its links. *)
Lemma enter_list s L B l n e s0 e0 :
  pm_inv s L B → Pfdb s !! n = Some e → (∀ l', n ∉ L l') →
  agree_but n s s0 → Pfdb s0 !! n = Some e0 →
  ∃ s1 e1, MmpAddPfnToList l n s0 = Ok s1 ∧ Pfdb s1 !! n = Some e1 ∧ body e1 = body e0 ∧
    MmTotalFreePages s1 = MmTotalFreePages s ∧ Mem s1 = Mem s ∧ Slots s1 = Slots s ∧
    ∀ s2 e2 B2, Ends s2 = Ends s1 → (∀ k, k ≠ n → Pfdb s2 !! k = Pfdb s1 !! k) →
      Mem s2 = Mem s1 → Slots s2 = Slots s1 → Pfdb s2 !! n = Some e2 →
      PrevFrame e2 = PrevFrame e1 → NextFrame e2 = NextFrame e1 →
      (∀ m, m ≠ n → (m ∈ B2 ↔ m ∈ B)) → NoDup (<[l := L l ++ [n]]> L LZero ++ B2) →
      page_ok s2 (<[l := L l ++ [n]]> L) B2 n e2 →
      pm_inv s2 (<[l := L l ++ [n]]> L) B2.
Proof.
  intros Hinv He Hn (A1 & A2 & A3 & A4 & A5) He0.
  pose proof (inv_lists _ _ _ Hinv l) as Hl.
  assert (is_list s0 l (L l)) as Hl0.
  { eapply (is_list_agree s); [|by rewrite A2|done]. intros m Hm. apply A1.
    intros ->. by apply (Hn l). }
  pose proof (po_frame _ _ _ _ _ (inv_page _ _ _ Hinv n e He)) as Hf.
  destruct (MmpAddPfnToList_spec l s0 (L l) n e0 Hl0 (Hn l) Hf He0) as (s1 & HA & [Re Rt Rm Rs Rseg Rf Rb]).
  pose proof (Rb n) as Hb. rewrite He0 in Hb. cbn in Hb.
  apply fmap_Some in Hb as (e1 & He1 & Hb).
  exists s1, e1. split; [done|]. split; [done|]. split; [done|].
  split; [congruence|]. split; [congruence|]. split; [congruence|].
  intros s2 e2 B2 E1 E2 E3 E4 He2 Hp Hq HB HndB Hok.
  destruct Hl as (Hseg & Hnd & Hfr & Hends).
  eapply (pm_inv_step s L B s2 _ B2 n e2); try done.
  - intros m Hm. rewrite E2, Rb, A1 by done. done.
  - intros l'. rewrite lookup_insert_lists. case_decide as Hl'.
    + subst. split; [|split; [|split]].
      * eapply seg_links_frame; [|exact Rseg]. intros m Hm. unfold links.
        destruct (decide (m = n)) as [->|]; [|by rewrite E2].
        rewrite He1, He2. cbn. by rewrite Hp, Hq.
      * apply NoDup_app. split; [done|]. split; [|apply NoDup_singleton].
        intros x Hx ->%list_elem_of_singleton. by apply (Hn l).
      * intros m [Hm| ->%list_elem_of_singleton]%elem_of_app; [by apply Hfr|done].
      * by rewrite E1, Re, decide_True.
    + eapply (is_list_agree s);
        [|by rewrite E1, Re, decide_False, A2|by apply (inv_lists _ _ _ Hinv)].
      intros m Hm. assert (m ≠ n) by (intros ->; by apply (Hn l')).
      rewrite E2, Rf, A1; try done. intros [Hm'| ->%list_elem_of_singleton]%elem_of_app; [|done].
      apply Hl'. by eapply pm_inv_disjoint.
  - intros l' m Hm. rewrite lookup_insert_lists. case_decide; [|done]. subst. set_solver.
  - intros m Hm. by rewrite E3, Rm, A4.
  - intros p. by rewrite E4, Rs, A5.
Qed.

(** ** Allocation *)

(** A frame in use: on no list. *)
Lemma page_ok_used s L B n e :
  frame n → is_Some (Mem s !! n) → (∀ l, n ∉ L l) → n ∉ B →
  Type_ e = PF_TYPE_USED → 0 ≤ RefCount e →
  (RefCount e = 0 → IsInModifiedPageList e = false) →
  (PrototypePte e ≠ 0 → is_Some (Slots s !! PFDBE_PrototypePte e)) →
  page_ok s L B n e.
Proof.
  intros Hf Hm Hl HB Ht Hr Hi Hs. split; try done.
  - split; [by intros ?%Hl|congruence].
  - split; [by intros ?%Hl|congruence].
  - split; [by intros [?%Hl|?]|congruence].
  - split; [by intros ?%Hl|]. intros (_ & H0 & H1). apply Hi in H0. congruence.
  - by intros [?%Hl|?%Hl].
  - by intros ?%Hl.
Qed.

(** A frame taken off the list it was on is on no other. *)
Lemma left_all_lists s L B l a n b :
  pm_inv s L B → L l = a ++ n :: b → l ≠ LModified →
  (∀ l', n ∉ <[l := a ++ b]> L l') ∧ n ∉ B.
Proof.
  intros Hinv HL Hlm. assert (n ∈ L l) as Hn by (rewrite HL; set_solver).
  pose proof (inv_lists _ _ _ Hinv l) as (_ & Hnd & _). rewrite HL in Hnd.
  split.
  - intros l'. rewrite lookup_insert_lists. case_decide.
    + subst. apply NoDup_app in Hnd as (_ & Hd & Hnd). apply NoDup_cons in Hnd as [Hnb _].
      intros [Hna|?]%elem_of_app; [|done]. apply (Hd n Hna). left.
    + intros Hn'. by eapply pm_inv_disjoint in Hn'; [|done|exact Hn].
  - destruct (decide (l = LZero)) as [->|Hz].
    + pose proof (inv_zeroing _ _ _ Hinv) as Hz. apply NoDup_app in Hz as (_ & Hz & _). auto.
    + intros HB. destruct (pm_inv_in _ _ _ _ _ Hinv Hn) as (e & _ & []).
      assert (Type_ e = PF_TYPE_ZEROED) by (apply po_zero0; by right).
      destruct l; intuition congruence.
Qed.

Lemma zeroing_shrinks s L B l a n b :
  pm_inv s L B → L l = a ++ n :: b → NoDup (<[l := a ++ b]> L LZero ++ B).
Proof.
  intros Hinv HL. pose proof (inv_zeroing _ _ _ Hinv) as Hz.
  rewrite lookup_insert_lists. case_decide as Hd; [|done]. subst. rewrite HL in Hz.
  eapply sublist_NoDup; [exact Hz|]. apply sublist_app; [|done].
  apply sublist_app; [done|]. by apply sublist_cons.
Qed.

(** [MmpInitializePfn] on the frame that just left list [l]. *)
Lemma MmpInitializePfn_spec s L B l a n b e s1 :
  pm_inv s L B → l ≠ LModified → L l = a ++ n :: b → Pfdb s !! n = Some e →
  relinked l (a ++ b) (a ++ b) s s1 → Pfdb s1 !! n = Some e →
  ∃ s' e', MmpInitializePfn n s1 = Ok s' ∧ pm_inv s' (<[l := a ++ b]> L) B ∧
    Pfdb s' !! n = Some e' ∧ Type_ e' = PF_TYPE_USED ∧ RefCount e' = 1 ∧ PrototypePte e' = 0 ∧
    MmTotalFreePages s' = u64 (MmTotalFreePages s - 1) ∧ Mem s' = Mem s ∧
    Slots s' = (if decide (l = LStandby)
                then <[PFDBE_PrototypePte e := MM_SLA_NO_DATA]> (Slots s) else Slots s) ∧
    (∀ m, m ≠ n → body <$> Pfdb s' !! m = body <$> Pfdb s !! m).
Proof.
  intros Hinv Hlm HL He Hrl He1. assert (n ∈ L l) as Hn by (rewrite HL; set_solver).
  pose proof (inv_page _ _ _ Hinv n e He) as Hok.
  destruct (left_all_lists _ _ _ _ _ _ _ Hinv HL Hlm) as [Hno HnB].
  unfold MmpInitializePfn, MmGetPageFrameFromPFN. rewrite He1. cbn [deref mbind outcome_bind].
  assert (Type_ e ≠ PF_TYPE_USED) as Hu.
  { destruct Hok. destruct l; try done; intuition congruence. }
  rewrite bool_decide_false by done.
  set (e' := set_Proto 0 (set_Prev 0 (set_Next 0 (set_RefCount 1 (set_Type PF_TYPE_USED e))))).
  assert (bool_decide (Type_ e = PF_TYPE_TRANSITION) = bool_decide (l = LStandby)) as ->.
  { apply bool_decide_ext. destruct Hok. destruct l; try done; split; intuition congruence. }
  assert (∀ m, (∀ p, is_Some (Slots s !! p) → is_Some (m !! p)) →
    pm_inv (add_TotalFree (-1) (set_Pfdb (<[n := e']> (Pfdb s1)) (set_Slots m s1)))
      (<[l := a ++ b]> L) B) as Hgo.
  { intros m Hm.
    eapply (leave_list s L B l a n b e s s1 _ e' B Hinv HL He (agree_but_refl n s) Hrl);
      [|cbn; by rewrite lookup_insert_eq|done|by eapply zeroing_shrinks|].
    - right. exists (-1), m. split; [done|]. split; [|done].
      intros k Hk. cbn. by rewrite lookup_insert_ne.
    - apply page_ok_used; try done; [by destruct Hok|].
      cbn. rewrite (rl_mem _ _ _ _ _ Hrl). by destruct Hok. }
  case_bool_decide as Hst.
  - subst l. destruct Hok. destruct po_cached0 as [Hp Hr]; [by left|].
    destruct (Z.eqb_spec (PrototypePte e) 0); [done|]. cbn.
    rewrite (rl_slots _ _ _ _ _ Hrl). destruct (po_slot0 Hp) as [v Hv]. rewrite Hv. cbn.
    rewrite (upd_Ok _ _ _ e) by done. cbn.
    eexists _, e'. split; [reflexivity|]. split.
    { apply Hgo. intros p [w Hw]. destruct (decide (p = PFDBE_PrototypePte e)) as [->|].
      - by rewrite lookup_insert_eq.
      - by rewrite lookup_insert_ne. }
    cbn. rewrite lookup_insert_eq. split; [done|]. split; [done|]. split; [done|].
    split; [done|]. split; [by rewrite (rl_total _ _ _ _ _ Hrl)|].
    split; [by rewrite (rl_mem _ _ _ _ _ Hrl)|]. split; [done|].
    intros m Hm. rewrite lookup_insert_ne by done. apply (rl_body _ _ _ _ _ Hrl).
  - cbn. rewrite (upd_Ok _ _ _ e) by done. cbn.
    specialize (Hgo (Slots s1)). replace (set_Slots (Slots s1) s1) with s1 in Hgo by by destruct s1.
    eexists _, e'. split; [reflexivity|]. split.
    { apply Hgo. intros p. by rewrite (rl_slots _ _ _ _ _ Hrl). }
    cbn. rewrite lookup_insert_eq. split; [done|]. split; [done|]. split; [done|].
    split; [done|]. split; [by rewrite (rl_total _ _ _ _ _ Hrl)|].
    split; [by rewrite (rl_mem _ _ _ _ _ Hrl)|]. rewrite decide_False by done.
    split; [by rewrite (rl_slots _ _ _ _ _ Hrl)|].
    intros m Hm. rewrite lookup_insert_ne by done. apply (rl_body _ _ _ _ _ Hrl).
Qed.

Lemma MmpAllocateFromFreeList_empty l s :
  First l s = PFN_INVALID → MmpAllocateFromFreeList l s = Ok (PFN_INVALID, s).
Proof. intros H. unfold MmpAllocateFromFreeList. by rewrite H, Z.eqb_refl. Qed.

Lemma First_list s L B l : pm_inv s L B → First l s = hd_or PFN_INVALID (L l).
Proof. intros Hinv. destruct (inv_lists _ _ _ Hinv l) as (_ & _ & _ & He). unfold First. by rewrite He. Qed.

Lemma Last_list s L B l : pm_inv s L B → Last l s = last_or PFN_INVALID (L l).
Proof. intros Hinv. destruct (inv_lists _ _ _ Hinv l) as (_ & _ & _ & He). unfold Last. by rewrite He. Qed.

Lemma frame_in s L B l n : pm_inv s L B → n ∈ L l → frame n.
Proof. intros Hinv. by destruct (inv_lists _ _ _ Hinv l) as (_ & _ & Hf & _); apply Hf. Qed.

(** What allocation of the frame [n], whose entry was [e], does. *)
Definition allocated (n : Z) (e : MMPFDBE) (s s' : pmm) : Prop :=
  (∃ e', Pfdb s' !! n = Some e' ∧ Type_ e' = PF_TYPE_USED ∧ RefCount e' = 1 ∧ PrototypePte e' = 0) ∧
  MmTotalFreePages s' = u64 (MmTotalFreePages s - 1) ∧
  (∀ m, m ≠ n → Mem s' !! m = Mem s !! m) ∧
  Slots s' = (if decide (Type_ e = PF_TYPE_TRANSITION)
              then <[PFDBE_PrototypePte e := MM_SLA_NO_DATA]> (Slots s) else Slots s) ∧
  (∀ m, m ≠ n → body <$> Pfdb s' !! m = body <$> Pfdb s !! m).

Lemma MmpAllocateFromFreeList_spec l s L B n b e :
  pm_inv s L B → l ≠ LModified → L l = n :: b → Pfdb s !! n = Some e →
  ∃ s', MmpAllocateFromFreeList l s = Ok (n, s') ∧ pm_inv s' (<[l := b]> L) B ∧
    allocated n e s s' ∧ Mem s' = Mem s.
Proof.
  intros Hinv Hlm HL He.
  assert (frame n) as Hf by (eapply frame_in; [done|]; rewrite HL; left).
  pose proof (inv_page _ _ _ Hinv n e He) as Hok.
  unfold MmpAllocateFromFreeList. rewrite (First_list _ _ _ _ Hinv), HL.
  change (hd_or PFN_INVALID (n :: b)) with n.
  rewrite frame_valid by done. cbv zeta. unfold MmGetPageFrameFromPFN at 1. rewrite He.
  cbn [deref mbind outcome_bind].
  pose proof (inv_lists _ _ _ Hinv l) as Hl. rewrite HL in Hl.
  destruct (MmpRemovePfnFromList_spec l s [] n b Hl) as (s1 & -> & Hrl & He1). cbn.
  rewrite He in He1.
  destruct (MmpInitializePfn_spec s L B l [] n b e s1 Hinv Hlm HL He Hrl He1)
    as (s' & e' & -> & Hinv' & He' & Ht & Hr & Hp & Htot & Hmem & Hslots & Hbody). cbn.
  rewrite ?frame_valid, ?frame_ok by done. cbn. exists s'. split; [done|]. split; [done|].
  split; [|done]. split; [by exists e'|]. split; [done|]. split; [by rewrite Hmem|].
  split; [|done]. rewrite Hslots.
  assert (l = LStandby ↔ Type_ e = PF_TYPE_TRANSITION) as Hst.
  { assert (n ∈ L l) by (rewrite HL; left). destruct Hok.
    destruct l; try done; split; intuition congruence. }
  repeat case_decide; try done; tauto.
Qed.

Lemma MiAllocate_spec s L B :
  pm_inv s L B →
  match L LZero ++ L LFree ++ L LStandby with
  | [] => MiAllocatePhysicalPageWithPfdbLocked s = Ok (PFN_INVALID, false, s)
  | n :: rest => ∃ s' e L', MiAllocatePhysicalPageWithPfdbLocked s =
        Ok (n, bool_decide (L LZero ≠ []), s') ∧ pm_inv s' L' B ∧
      L' LZero ++ L' LFree ++ L' LStandby = rest ∧ L' LModified = L LModified ∧
      Pfdb s !! n = Some e ∧ allocated n e s s' ∧ Mem s' = Mem s
  end.
Proof.
  intros Hinv. unfold MiAllocatePhysicalPageWithPfdbLocked.
  assert (∀ l n b, L l = n :: b → ∃ e, Pfdb s !! n = Some e ∧ (n =? PFN_INVALID) = false) as Hent.
  { intros l n b HL. assert (n ∈ L l) as Hn by (rewrite HL; left).
    destruct (pm_inv_in _ _ _ _ _ Hinv Hn) as (e & He & Hok). exists e. split; [done|].
    apply frame_valid. by destruct Hok. }
  assert (∀ l, L l = [] → MmpAllocateFromFreeList l s = Ok (PFN_INVALID, s)) as Hno.
  { intros l HL. apply MmpAllocateFromFreeList_empty. by rewrite (First_list _ _ _ _ Hinv), HL. }
  destruct (L LZero) as [|n b] eqn:HZ.
  2: { destruct (Hent _ _ _ HZ) as (e & He & Hv).
       destruct (MmpAllocateFromFreeList_spec LZero s L B n b e Hinv ltac:(done) HZ He)
         as (s' & -> & Hinv' & Hal & HM). cbn. rewrite Hv. cbn.
       exists s', e, (<[LZero := b]> L). split; [done|]. split; [done|].
       rewrite !lookup_insert_lists. cbn. by rewrite ?HZ, ?HF. }
  rewrite (Hno _ HZ). cbn [app]. cbn [mbind outcome_bind]. rewrite Z.eqb_refl.
  destruct (L LFree) as [|n b] eqn:HF.
  2: { destruct (Hent _ _ _ HF) as (e & He & Hv).
       destruct (MmpAllocateFromFreeList_spec LFree s L B n b e Hinv ltac:(done) HF He)
         as (s' & -> & Hinv' & Hal & HM). cbn. rewrite Hv. cbn.
       exists s', e, (<[LFree := b]> L). split; [done|]. split; [done|].
       rewrite !lookup_insert_lists. cbn. by rewrite ?HZ, ?HF. }
  rewrite (Hno _ HF). cbn [app]. cbn [mbind outcome_bind]. rewrite Z.eqb_refl.
  destruct (L LStandby) as [|n b] eqn:HS.
  2: { destruct (Hent _ _ _ HS) as (e & He & Hv).
       destruct (MmpAllocateFromFreeList_spec LStandby s L B n b e Hinv ltac:(done) HS He)
         as (s' & -> & Hinv' & Hal & HM). cbn.
       exists s', e, (<[LStandby := b]> L). split; [done|]. split; [done|].
       rewrite !lookup_insert_lists. cbn. by rewrite ?HZ, ?HF. }
  by rewrite (Hno _ HS).
Qed.

(** Clearing a page keeps the invariant. *)
Lemma zero_page_spec s L B n e :
  pm_inv s L B → Pfdb s !! n = Some e →
  ∃ s', zero_page n s = Ok s' ∧ pm_inv s' L B ∧ Mem s' !! n = Some zeros ∧
    (∀ m, m ≠ n → Mem s' !! m = Mem s !! m) ∧ Pfdb s' = Pfdb s ∧ Ends s' = Ends s ∧
    MmTotalFreePages s' = MmTotalFreePages s ∧ Slots s' = Slots s.
Proof.
  intros Hinv He. pose proof (inv_page _ _ _ Hinv n e He) as Hok. unfold zero_page.
  destruct (po_mem _ _ _ _ _ Hok) as [v ->]. cbn. eexists. split; [done|].
  split; [|cbn; rewrite lookup_insert_eq; split; [done|]; split; [|done];
           intros m Hm; by rewrite lookup_insert_ne].
  eapply (pm_inv_step s L B _ L B n e); try done.
  - intros l. by eapply (is_list_agree s); [| |apply (inv_lists _ _ _ Hinv)].
  - by apply (inv_zeroing _ _ _ Hinv).
  - intros m Hm. cbn. by rewrite lookup_insert_ne.
  - destruct Hok. split; try done; cbn; by rewrite lookup_insert_eq.
Qed.

Lemma allocated_mem n e s s' m :
  allocated n e s s' → Pfdb m = Pfdb s' → MmTotalFreePages m = MmTotalFreePages s' →
  Slots m = Slots s' → (∀ k, k ≠ n → Mem m !! k = Mem s' !! k) → allocated n e s m.
Proof.
  intros (A1 & A2 & A3 & A4 & A5) Hp Ht Hs Hm. unfold allocated. rewrite Hp, Ht, Hs.
  split; [done|]. split; [done|]. split; [|done]. intros k Hk. by rewrite Hm, A3.
Qed.

Lemma MmAllocatePhysicalPage_spec s L B :
  pm_inv s L B →
  match L LZero ++ L LFree ++ L LStandby with
  | [] => MmAllocatePhysicalPage s = Ok (PFN_INVALID, s)
  | n :: rest => ∃ s' e L', MmAllocatePhysicalPage s = Ok (n, s') ∧ pm_inv s' L' B ∧
      L' LZero ++ L' LFree ++ L' LStandby = rest ∧ L' LModified = L LModified ∧
      Pfdb s !! n = Some e ∧ allocated n e s s' ∧ Mem s' !! n = Some zeros
  end.
Proof.
  intros Hinv. pose proof (MiAllocate_spec s L B Hinv) as HA. unfold MmAllocatePhysicalPage.
  assert (∀ l n b, L l = n :: b → Mem s !! n = Some zeros ∨ l ≠ LZero) as Hz.
  { intros l n b HL. assert (n ∈ L l) as Hn by (rewrite HL; left).
    destruct (pm_inv_in _ _ _ _ _ Hinv Hn) as (e & He & Hok).
    destruct (decide (l = LZero)) as [->|]; [left; by apply (po_zeroed _ _ _ _ _ Hok)|by right]. }
  destruct (L LZero ++ L LFree ++ L LStandby) as [|n rest] eqn:HL.
  { rewrite HA. cbn. by rewrite Z.eqb_refl. }
  destruct HA as (s' & e & L' & -> & Hinv' & HL' & HM' & He & Hal & Hmem).
  cbn [mbind outcome_bind].
  assert (frame n) as Hf.
  { apply (po_frame _ _ _ _ _ (inv_page _ _ _ Hinv n e He)). }
  rewrite frame_valid by done. case_bool_decide as HZ; cbn [negb andb].
  - exists s', e, L'. do 6 (split; [done|]). rewrite Hmem.
    destruct (L LZero) as [|z zs] eqn:E; [done|]. injection HL as -> _.
    by destruct (Hz _ _ _ E) as [?|?].
  - destruct Hal as ((e' & He' & Hal1) & Hal2).
    destruct (zero_page_spec s' L' B n e' Hinv' He') as (s2 & -> & Hinv2 & Hz2 & Hm2 & Hp2 & _ & Ht2 & Hs2).
    cbn. exists s2, e, L'. do 5 (split; [done|]). split; [|done].
    eapply allocated_mem; try done. split; [by exists e'|done].
Qed.

(** ** Freeing and the modified page writer *)

(** A frame in use with a reference, or one that only the page writer has. *)
Lemma not_listed s L B n e :
  pm_inv s L B → Pfdb s !! n = Some e →
  (Type_ e = PF_TYPE_USED ∧ (RefCount e ≠ 0 ∨ IsInModifiedPageList e = false)) ∨
  Type_ e = PF_TYPE_RECLAIM →
  (∀ l, n ∉ L l) ∧ n ∉ B.
Proof.
  intros Hinv He Ht. pose proof (inv_page _ _ _ Hinv n e He) as [].
  split; [intros l Hl; destruct l; intuition congruence|].
  intros HB. assert (Type_ e = PF_TYPE_ZEROED) by (apply po_zero0; by right). intuition congruence.
Qed.

Lemma links_body (e e' : MMPFDBE) :
  body e' = body e → e' = set_Prev (PrevFrame e') (set_Next (NextFrame e') e).
Proof. destruct e, e'; cbn. unfold body. cbn. by intros [= <- <- <- <- <- <- <- <- <-]. Qed.

(** The entry of a frame that is not freed yet may change as long as the frame
    stays in use and off the lists. *)
Lemma pm_inv_set_used s L B n e f :
  pm_inv s L B → Pfdb s !! n = Some e → (∀ l, n ∉ L l) → n ∉ B →
  page_ok (set_Pfdb (<[n := f e]> (Pfdb s)) s) L B n (f e) →
  pm_inv (set_Pfdb (<[n := f e]> (Pfdb s)) s) L B.
Proof.
  intros Hinv He Hno HB Hok.
  eapply (pm_inv_step s L B _ L B n (f e)); try done.
  - cbn. by rewrite lookup_insert_eq.
  - intros m Hm. cbn. by rewrite lookup_insert_ne.
  - intros l. eapply (is_list_agree s); [|done|apply (inv_lists _ _ _ Hinv)].
    intros m Hm. cbn. rewrite lookup_insert_ne; [done|]. intros ->. by apply (Hno l).
  - by apply (inv_zeroing _ _ _ Hinv).
Qed.

Lemma zeroing_kept s L B l n :
  pm_inv s L B → l ≠ LZero → NoDup (<[l := L l ++ [n]]> L LZero ++ B).
Proof.
  intros Hinv Hl. rewrite lookup_insert_lists, decide_False by done. by apply (inv_zeroing _ _ _ Hinv).
Qed.

(** The list a page goes to when its last reference is dropped. *)
Definition free_list_of (e : MMPFDBE) : plist :=
  if PrototypePte e =? 0 then LFree else if Modified e then LModified else LStandby.

(** What [page_ok] needs of a frame that was appended to list [l]. *)
Lemma page_ok_appended s s2 L B l n e e2 :
  page_ok s L B n e → (∀ l, n ∉ L l) → n ∉ B →
  Mem s2 = Mem s → Slots s2 = Slots s → RefCount e2 = 0 → PrototypePte e2 = PrototypePte e →
  match l with
  | LZero => False
  | LFree => Type_ e2 = PF_TYPE_FREE
  | LStandby => Type_ e2 = PF_TYPE_TRANSITION ∧ PrototypePte e ≠ 0
  | LModified => Type_ e2 = PF_TYPE_USED ∧ IsInModifiedPageList e2 = true ∧ PrototypePte e ≠ 0
  end →
  page_ok s2 (<[l := L l ++ [n]]> L) B n e2.
Proof.
  intros [] Hno HB HM HS Hr Hp Hl.
  assert (∀ l', n ∈ <[l := L l ++ [n]]> L l' ↔ l' = l) as Hin.
  { intros l'. rewrite lookup_insert_lists. case_decide; [subst; set_solver|].
    split; [by intros ?%Hno|done]. }
  split; rewrite ?HM, ?HS, ?Hr, ?Hp, ?Hin; try done;
    unfold PFDBE_PrototypePte in *; rewrite ?Hp; try done.
  all: destruct l; try done; intuition congruence.
Qed.

(** Appending frame [n] to list [l] and then storing [f] of its entry. *)
Lemma append_and_set s L B n e s1 e1 l f :
  pm_inv s L B → Pfdb s !! n = Some e → (∀ l, n ∉ L l) → n ∉ B →
  agree_but n s s1 → Pfdb s1 !! n = Some e1 →
  l ≠ LZero → (∀ e, PrevFrame (f e) = PrevFrame e ∧ NextFrame (f e) = NextFrame e) →
  (∀ e2, body e2 = body e1 → RefCount (f e2) = 0 ∧ PrototypePte (f e2) = PrototypePte e ∧
    match l with
    | LZero => False
    | LFree => Type_ (f e2) = PF_TYPE_FREE
    | LStandby => Type_ (f e2) = PF_TYPE_TRANSITION ∧ PrototypePte e ≠ 0
    | LModified => Type_ (f e2) = PF_TYPE_USED ∧ IsInModifiedPageList (f e2) = true ∧
                   PrototypePte e ≠ 0
    end) →
  ∃ s2, MmpAddPfnToList l n s1 = Ok s2 ∧ ∃ s3, upd n f s2 = Ok s3 ∧
    Mem s3 = Mem s ∧ Slots s3 = Slots s ∧ MmTotalFreePages s3 = MmTotalFreePages s ∧
    (∀ s4, Pfdb s4 = Pfdb s3 → Ends s4 = Ends s3 → Mem s4 = Mem s3 → Slots s4 = Slots s3 →
      pm_inv s4 (<[l := L l ++ [n]]> L) B).
Proof.
  intros Hinv He Hno HB Hag He1 Hl Hlinks Hf. pose proof (inv_page _ _ _ Hinv n e He) as Hok.
  destruct (enter_list s L B l n e s1 e1 Hinv He Hno Hag He1)
    as (s2 & e2 & HA & He2 & Hb2 & Ht2 & Hm2 & Hs2 & Hfin).
  exists s2. split; [done|]. eexists. split; [by apply upd_Ok|]. cbn.
  split; [done|]. split; [done|]. split; [done|]. intros s4 E1 E2 E3 E4.
  specialize (Hlinks e2). specialize (Hf e2 Hb2). destruct Hf as (Hf1 & Hf2 & Hf3).
  apply (Hfin s4 (f e2) B); try done.
  - intros k Hk. by rewrite E1, lookup_insert_ne.
  - by rewrite E1, lookup_insert_eq.
  - apply Hlinks.
  - apply Hlinks.
  - by eapply zeroing_kept.
  - eapply (page_ok_appended s s4 L B l n e (f e2)); try done; congruence.
Qed.

Lemma MmFreePhysicalPage_spec s L B n e :
  pm_inv s L B → Pfdb s !! n = Some e → 0 < RefCount e →
  Type_ e = PF_TYPE_USED ∨ Type_ e = PF_TYPE_RECLAIM ∧ PrototypePte e = 0 →
  ∃ s', MmFreePhysicalPage n s = Ok s' ∧ Mem s' = Mem s ∧ Slots s' = Slots s ∧
    if RefCount e =? 1 then
      pm_inv s' (<[free_list_of e := L (free_list_of e) ++ [n]]> L) B ∧
      MmTotalFreePages s' = (if decide (free_list_of e = LModified) then MmTotalFreePages s
                             else u64 (MmTotalFreePages s + 1))
    else pm_inv s' L B ∧ MmTotalFreePages s' = MmTotalFreePages s ∧
         Pfdb s' = <[n := set_RefCount (RefCount e - 1) e]> (Pfdb s).
Proof.
  intros Hinv He Hr Ht. pose proof (inv_page _ _ _ Hinv n e He) as Hok.
  destruct (not_listed s L B n e Hinv He) as [Hno HB]; [intuition lia|].
  unfold MmFreePhysicalPage. rewrite frame_valid by by destruct Hok.
  unfold MmGetPageFrameFromPFN. rewrite He. cbn [negb check deref mbind outcome_bind].
  rewrite (check_true (0 <=? RefCount e - 1)) by (apply Z.leb_le; lia).
  rewrite (check_true (_ || _)) by (destruct Ht as [->|[-> _]]; done).
  cbn. rewrite (upd_Ok _ _ _ e) by done. cbn.
  set (e0 := set_RefCount (RefCount e - 1) e). set (s0 := set_Pfdb (<[n := e0]> (Pfdb s)) s).
  destruct (Z.eqb_spec (RefCount e) 1) as [H1|H1].
  2: { rewrite (proj2 (Z.leb_gt _ _)) by lia. exists s0. split; [done|]. split; [done|]. split; [done|].
       split; [|done]. apply (pm_inv_set_used s L B n e (set_RefCount (RefCount e - 1))); try done.
       destruct Hok. split; try done; cbn; [lia| |].
       - split; [by intros ?%Hno|]. intros (_ & ? & _). lia.
       - by intros [?%Hno|?%Hno]. }
  rewrite (proj2 (Z.leb_le _ _)) by lia. rewrite bool_decide_false by (intuition congruence). cbn.
  assert (Pfdb s0 !! n = Some e0) as He0 by (cbn; by rewrite lookup_insert_eq).
  rewrite (upd_Ok _ _ _ e0) by done. cbn [mbind outcome_bind].
  set (e1 := set_InModified false e0).
  set (s1 := set_Pfdb (<[n := e1]> (Pfdb s0)) s0).
  assert (agree_but n s s1) as Hag.
  { eapply agree_but_trans; [apply agree_but_insert|]. apply (agree_but_insert n e1 s0). }
  assert (Pfdb s1 !! n = Some e1) as He1 by (cbn; by rewrite lookup_insert_eq).
  pose proof (λ l f, append_and_set s L B n e s1 e1 l f Hinv He Hno HB Hag He1) as Happ.
  unfold free_list_of.
  destruct (Z.eqb_spec (PrototypePte e) 0) as [Hp|Hp]; cbn.
  { destruct (Happ LFree (set_Type PF_TYPE_FREE)) as (s2 & -> & s3 & Hu & Hm & Hs & Htot & Hfin); [done|done| |].
    { intros e2 Hb. rewrite (links_body e1 e2 Hb). cbn. split; [lia|done]. }
    cbn. rewrite Hu. cbn. eexists. split; [done|]. split; [done|]. split; [done|].
    split; [by apply Hfin|]. cbn. by rewrite Htot. }
  destruct Ht as [Ht|[_ ?]]; [|done].
  destruct (Modified e) eqn:Hmod; cbn.
  - destruct (Happ LModified (set_InModified true)) as (s2 & -> & s3 & Hu & Hm & Hs & Htot & Hfin); [done|done| |].
    { intros e2 Hb. rewrite (links_body e1 e2 Hb). cbn. split; [lia|done]. }
    cbn. rewrite Hu. eexists. split; [done|]. split; [done|]. split; [done|].
    split; [by apply Hfin|done].
  - destruct (Happ LStandby (set_Type PF_TYPE_TRANSITION)) as (s2 & -> & s3 & Hu & Hm & Hs & Htot & Hfin); [done|done| |].
    { intros e2 Hb. rewrite (links_body e1 e2 Hb). cbn. split; [lia|done]. }
    cbn. rewrite Hu. cbn. eexists. split; [done|]. split; [done|]. split; [done|].
    split; [by apply Hfin|]. cbn. by rewrite Htot.
Qed.

(** A page that the page writer has flushed. *)
Lemma MiTransformPageToStandbyPfn_spec s L B n e :
  pm_inv s L B → Pfdb s !! n = Some e →
  (Type_ e = PF_TYPE_USED → PrototypePte e ≠ 0) →
  ∃ s', MiTransformPageToStandbyPfn n s = Ok s' ∧ Mem s' = Mem s ∧ Slots s' = Slots s ∧
    if decide (Type_ e = PF_TYPE_USED ∧ RefCount e = 0 ∧ IsInModifiedPageList e = false) then
      pm_inv s' (<[LStandby := L LStandby ++ [n]]> L) B ∧
      MmTotalFreePages s' = u64 (MmTotalFreePages s + 1) ∧
      (∃ e', Pfdb s' !! n = Some e' ∧ Modified e' = false)
    else s' = s.
Proof.
  intros Hinv He Hp. pose proof (inv_page _ _ _ Hinv n e He) as Hok.
  pose proof (po_ref _ _ _ _ _ Hok) as Hr.
  unfold MiTransformPageToStandbyPfn. rewrite frame_valid by by destruct Hok.
  unfold MmGetPageFrameFromPFN. rewrite He. cbn.
  case_decide as Hd.
  - destruct Hd as (Ht & H0 & Hi). rewrite H0, bool_decide_true, Hi by done. cbn.
    destruct (not_listed s L B n e Hinv He) as [Hno HB]; [by left; split; [|right]|].
    destruct (append_and_set s L B n e s e LStandby
      (λ e, set_Modified false (set_Type PF_TYPE_TRANSITION e)) Hinv He Hno HB (agree_but_refl n s) He)
      as (s2 & -> & s3 & Hu & Hm & Hs & Htot & Hfin); [done|done| |].
    { intros e2 Hb. rewrite (links_body e e2 Hb). cbn. auto. }
    cbn. rewrite Hu. cbn. eexists. split; [done|]. split; [done|]. split; [done|].
    split; [by apply Hfin|]. cbn. rewrite Htot. split; [done|].
    apply upd_entry in Hu as (e3 & _ & ->). eexists. done.
  - destruct (Z.ltb_spec 0 (RefCount e)); cbn; [by exists s|].
    case_bool_decide; cbn; [|by exists s].
    destruct (IsInModifiedPageList e); [by exists s|]. destruct Hd. repeat split; try done. lia.
Qed.

(** A page whose flush failed. *)
Lemma MiReinsertIntoModifiedList_spec s L B n e :
  pm_inv s L B → Pfdb s !! n = Some e →
  (Type_ e = PF_TYPE_USED → PrototypePte e ≠ 0) →
  ∃ s', MiReinsertIntoModifiedList n s = Ok s' ∧ Mem s' = Mem s ∧ Slots s' = Slots s ∧
    if decide (Type_ e = PF_TYPE_USED ∧ RefCount e = 0 ∧ IsInModifiedPageList e = false) then
      pm_inv s' (<[LModified := L LModified ++ [n]]> L) B ∧
      MmTotalFreePages s' = MmTotalFreePages s
    else s' = s.
Proof.
  intros Hinv He Hp. pose proof (inv_page _ _ _ Hinv n e He) as Hok.
  pose proof (po_ref _ _ _ _ _ Hok) as Hr.
  unfold MiReinsertIntoModifiedList. rewrite frame_valid by by destruct Hok.
  unfold MmGetPageFrameFromPFN. rewrite He. cbn.
  case_decide as Hd.
  - destruct Hd as (Ht & H0 & Hi). rewrite H0, bool_decide_true, Hi by done. cbn.
    destruct (not_listed s L B n e Hinv He) as [Hno HB]; [by left; split; [|right]|].
    destruct (append_and_set s L B n e s e LModified
      (λ e, set_Modified true (set_InModified true e)) Hinv He Hno HB (agree_but_refl n s) He)
      as (s2 & -> & s3 & Hu & Hm & Hs & Htot & Hfin); [done|done| |].
    { intros e2 Hb. rewrite (links_body e e2 Hb). cbn. split_and!; auto. }
    cbn. rewrite Hu. eexists. split; [done|]. split; [done|]. split; [done|].
    split; [by apply Hfin|done].
  - destruct (Z.ltb_spec 0 (RefCount e)); cbn; [by exists s|].
    case_bool_decide; cbn; [|by exists s].
    destruct (IsInModifiedPageList e); [by exists s|]. destruct Hd. repeat split; try done. lia.
Qed.

(** Following the links from the same first frame gives the same list. *)
Lemma seg_unique d p ns ns' :
  seg d p ns PFN_INVALID → seg d p ns' PFN_INVALID → hd_or PFN_INVALID ns = hd_or PFN_INVALID ns' →
  (∀ m, m ∈ ns → frame m) → (∀ m, m ∈ ns' → frame m) → ns = ns'.
Proof.
  revert p ns'. induction ns as [|n ns IH]; intros p ns' H1 H2 Hh F1 F2.
  - destruct ns' as [|n' ns']; [done|]. cbn in Hh.
    assert (frame n') as Hf by (apply F2; left). apply frame_valid, Z.eqb_neq in Hf. by subst.
  - destruct ns' as [|n' ns'].
    { cbn in Hh. assert (frame n) as Hf by (apply F1; left). apply frame_valid, Z.eqb_neq in Hf. by subst. }
    cbn in Hh. subst n'. f_equal. cbn in H1, H2. destruct H1 as [L1 H1], H2 as [L2 H2].
    rewrite L1 in L2. injection L2 as L2. apply (IH n); try done.
    + intros m Hm. apply F1. by right.
    + intros m Hm. apply F2. by right.
Qed.

(** A caller's change of the entry of a listed frame leaves the list linked. *)
Lemma is_list_touched s L B l a n b e s0 e0 :
  pm_inv s L B → L l = a ++ n :: b → Pfdb s !! n = Some e →
  agree_but n s s0 → Pfdb s0 !! n = Some e0 → PrevFrame e0 = PrevFrame e →
  NextFrame e0 = NextFrame e → is_list s0 l (a ++ n :: b).
Proof.
  intros Hinv HL He (G1 & G2 & G3 & G4 & G5) He0 Hp Hq.
  pose proof (inv_lists _ _ _ Hinv l) as (Hseg & Hnd & Hfr & Hends). rewrite HL in *.
  split; [|split; [done|split; [done|by rewrite G2]]].
  eapply seg_links_frame; [|exact Hseg]. intros m _. unfold links.
  destruct (decide (m = n)) as [->|]; [|by rewrite G1]. rewrite He, He0. cbn. by rewrite Hp, Hq.
Qed.

Lemma zero_out_take_spec s L B :
  pm_inv s L B →
  match L LFree with
  | [] => zero_out_take s = Ok (None, s)
  | n :: b => ∃ s' e, zero_out_take s = Ok (Some n, s') ∧ pm_inv s' (<[LFree := b]> L) (n :: B) ∧
      MmTotalFreePages s' = MmTotalFreePages s ∧ Mem s' = Mem s ∧ Slots s' = Slots s ∧
      Pfdb s' !! n = Some e
  end.
Proof.
  intros Hinv. unfold zero_out_take. rewrite (First_list _ _ _ _ Hinv).
  destruct (L LFree) as [|n b] eqn:HL; [done|]. change (hd_or PFN_INVALID (n :: b)) with n.
  assert (n ∈ L LFree) as Hn by (rewrite HL; left).
  destruct (pm_inv_in _ _ _ _ _ Hinv Hn) as (e & He & Hok).
  rewrite frame_valid by by destruct Hok. cbv zeta. unfold MmGetPageFrameFromPFN.
  rewrite He. cbn [deref mbind outcome_bind].
  assert (Type_ e = PF_TYPE_FREE) as Ht by (destruct Hok; intuition). rewrite Ht. cbn.
  rewrite (upd_Ok _ _ _ e) by done. cbn [mbind outcome_bind].
  set (s0 := set_Pfdb (<[n := set_Type PF_TYPE_ZEROED e]> (Pfdb s)) s).
  assert (Pfdb s0 !! n = Some (set_Type PF_TYPE_ZEROED e)) as He0 by (cbn; by rewrite lookup_insert_eq).
  destruct (MmpRemovePfnFromList_spec LFree s0 [] n b) as (s1 & -> & Hrl & He1).
  { eapply (is_list_touched s L B LFree [] n b e s0); try done. apply agree_but_insert. }
  rewrite He0 in He1. cbn. destruct (left_all_lists _ _ _ _ [] _ _ Hinv HL) as [Hno HB]; [done|].
  exists s1, (set_Type PF_TYPE_ZEROED e). split; [done|].
  split; [|destruct Hrl as [? -> -> -> ? ? ?]; done].
  apply (leave_list s L B LFree [] n b e s0 s1 s1 (set_Type PF_TYPE_ZEROED e) (n :: B) Hinv HL He);
    [apply agree_but_insert|done|by left|done|set_solver| |].
  - rewrite lookup_insert_lists, decide_False by done.
    pose proof (inv_zeroing _ _ _ Hinv) as Hz. apply NoDup_app in Hz as (H1 & H2 & H3).
    apply NoDup_app. split; [done|]. split; [|by apply NoDup_cons].
    intros x Hx [->|Hx']%elem_of_cons; [|by apply (H2 x)].
    apply (Hno LZero). by rewrite lookup_insert_lists, decide_False.
  - destruct Hrl as [_ _ Hm Hs _ _ _]. destruct Hok.
    assert (∀ l', n ∉ <[LFree:=b]> L l') as Hno' by exact Hno.
    split; rewrite ?Hm, ?Hs; try done; cbn.
    + split; [by intros ?%Hno'|done].
    + split; [by intros ?%Hno'|done].
    + split; [done|]. intros _. right. left.
    + split; [by intros ?%Hno'|]. by intros (? & _).
Qed.

(** The second critical section, once the page is cleared. *)
Lemma zero_out_put_spec s L B n :
  pm_inv s L (n :: B) → Mem s !! n = Some zeros →
  ∃ s', zero_out_put n s = Ok s' ∧ pm_inv s' (<[LZero := L LZero ++ [n]]> L) B ∧
    MmTotalFreePages s' = MmTotalFreePages s ∧ Mem s' = Mem s ∧ Slots s' = Slots s.
Proof.
  intros Hinv Hz. destruct (inv_zeroing_dom _ _ _ Hinv n) as [e He]; [left|].
  pose proof (inv_page _ _ _ Hinv n e He) as Hok. pose proof (inv_zeroing _ _ _ Hinv) as Hnd.
  assert (Type_ e = PF_TYPE_ZEROED) as Ht by (destruct Hok; apply po_zero0; right; left).
  assert (∀ l, n ∉ L l) as Hno.
  { intros l Hl. destruct l; try by (destruct Hok; intuition congruence).
    apply NoDup_app in Hnd as (_ & Hnd & _). apply (Hnd n Hl). left. }
  destruct (enter_list s L (n :: B) LZero n e s e Hinv He Hno (agree_but_refl n s) He)
    as (s1 & e1 & HA & He1 & Hb1 & Ht1 & Hm1 & Hs1 & Hfin).
  exists s1. split; [done|]. split; [|done].
  assert (n ∉ B) as HB.
  { apply NoDup_app in Hnd as (_ & _ & Hnd). by apply NoDup_cons in Hnd as [? _]. }
  apply (Hfin s1 e1 B); try done.
  - intros m Hm. set_solver.
  - rewrite lookup_insert_lists, decide_True by done. rewrite <-app_assoc. done.
  - rewrite (links_body e e1 Hb1).
    assert (∀ l', n ∈ <[LZero := L LZero ++ [n]]> L l' ↔ l' = LZero) as Hin.
    { intros l'. rewrite lookup_insert_lists. case_decide; [subst; set_solver|].
      split; [by intros ?%Hno|done]. }
    destruct Hok. split; rewrite ?Hm1, ?Hs1, ?Hin; try done; cbn; try (intuition congruence).
Qed.

(** ** References *)

Lemma hd_or_notin ns n : frame n → n ∉ ns → hd_or PFN_INVALID ns ≠ n.
Proof.
  intros Hf Hn Heq. destruct ns as [|m ns].
  - apply frame_valid in Hf. apply Z.eqb_neq in Hf. by apply Hf.
  - cbn in Heq. subst. apply Hn. left.
Qed.

Lemma last_or_notin ns n : frame n → n ∉ ns → last_or PFN_INVALID ns ≠ n.
Proof.
  intros Hf Hn Heq. destruct ns as [|m ns _] using rev_ind.
  - apply frame_valid in Hf. apply Z.eqb_neq in Hf. by apply Hf.
  - rewrite last_or_snoc in Heq. subst. set_solver.
Qed.

Lemma ensure_other l n s e :
  Pfdb s !! n = Some e → First l s ≠ n → Last l s ≠ n →
  MmpEnsurePfnIsntEndsOfList l n s = Ok s.
Proof.
  intros He HF HL. unfold MmpEnsurePfnIsntEndsOfList, MmGetPageFrameFromPFN. rewrite He. cbn.
  apply Z.eqb_neq in HF, HL. by rewrite HF, HL.
Qed.

(** Detransition of a frame on the standby or the modified list, whose entry is
    [e0] by now. *)
Lemma MiDetransitionPfn_spec s L B l a n b e s0 e0 :
  pm_inv s L B → l = LStandby ∨ l = LModified → L l = a ++ n :: b → Pfdb s !! n = Some e →
  agree_but n s s0 → Pfdb s0 !! n = Some e0 → body e0 = body (set_RefCount (RefCount e0) e) →
  PrevFrame e0 = PrevFrame e → NextFrame e0 = NextFrame e →
  ∃ s' e', MiDetransitionPfn n s0 = Ok s' ∧ pm_inv s' (<[l := a ++ b]> L) B ∧
    Pfdb s' !! n = Some e' ∧ Type_ e' = PF_TYPE_USED ∧ RefCount e' = 1 ∧
    PrototypePte e' = PrototypePte e ∧
    MmTotalFreePages s' = MmTotalFreePages s ∧ Mem s' = Mem s ∧ Slots s' = Slots s.
Proof.
  intros Hinv Hl HL He Hag He0 Hb0 Hp0 Hq0. pose proof (inv_page _ _ _ Hinv n e He) as Hok.
  assert (n ∈ L l) as Hn by (rewrite HL; set_solver).
  assert (frame n) as Hf by by destruct Hok.
  assert (∀ l', l' ≠ l → n ∉ L l') as Hoth.
  { intros l' Hne Hn'. apply Hne. by eapply pm_inv_disjoint. }
  assert (PrototypePte e0 = PrototypePte e ∧ e0 = set_RefCount (RefCount e0) e) as [Hpp He0e].
  { destruct e, e0; cbn in *. unfold body in Hb0. cbn in Hb0. injection Hb0 as <- <- <- <- <- <- <- <-.
    by subst. }
  destruct (po_cached _ _ _ _ _ Hok) as [Hp _]; [by destruct Hl as [->| ->]; auto|].
  pose proof Hag as (G1 & G2 & G3 & G4 & G5).
  destruct (unlink_and_ensure s0 l a n b) as (d & s1 & HU & Hdn & HE & Hrl & He1);
    [by eapply (is_list_touched s)|].
  assert (∀ st l', l' ≠ l → (∀ l', l' ≠ l → Ends st l' = Ends s l') → Pfdb st !! n = Some e0 →
    MmpEnsurePfnIsntEndsOfList l' n st = Ok st) as Hskip.
  { intros st l' Hne Hst Hen. eapply ensure_other; [done| |]; unfold First, Last; rewrite Hst by done;
      destruct (inv_lists _ _ _ Hinv l') as (_ & _ & _ & ->); cbn;
      [apply hd_or_notin|apply last_or_notin]; auto. }
  assert ((s ← MmpEnsurePfnIsntEndsOfList LStandby n (set_Pfdb d s0);
           MmpEnsurePfnIsntEndsOfList LModified n s) = Ok s1) as Hrm.
  { destruct Hl as [-> | ->].
    - rewrite HE. cbn. apply Hskip; [done| |by rewrite He1].
      intros l' Hne. by rewrite (rl_ends _ _ _ _ _ Hrl), decide_False, G2.
    - rewrite Hskip; [exact HE|done| |cbn; by rewrite Hdn].
      intros l' Hne. cbn. by rewrite G2. }
  unfold MiDetransitionPfn. rewrite frame_valid by done. cbn.
  unfold MmGetPageFrameFromPFN. rewrite He0. cbn. rewrite Hpp.
  destruct (Z.eqb_spec (PrototypePte e) 0); [done|]. cbn.
  rewrite HU. cbn. apply bind_Ok in Hrm as (sv & -> & Hrm). cbn.
  rewrite Hrm. cbn. rewrite (upd_Ok _ _ _ e0) by (by rewrite He1).
  set (e' := set_Type PF_TYPE_USED (set_Prev 0 (set_Next 0 (set_RefCount 1 e0)))).
  pose proof Hrl as [R1 R2 R3 R4 R5 R6 R7]. eexists _, e'. split; [done|]. split.
  2: { cbn. rewrite lookup_insert_eq. split_and!; try done; cbn; congruence. }
  assert (∀ l', n ∉ <[l := a ++ b]> L l') as Hno.
  { intros l'. rewrite lookup_insert_lists. case_decide; [|by apply Hoth]. subst.
    pose proof (inv_lists _ _ _ Hinv l) as (_ & Hnd & _). rewrite HL in Hnd.
    apply NoDup_app in Hnd as (_ & Hd & Hnd). apply NoDup_cons in Hnd as [Hnb _].
    intros [Hna|?]%elem_of_app; [|done]. apply (Hd n Hna). left. }
  assert (n ∉ B) as HB.
  { intros HB. assert (Type_ e = PF_TYPE_ZEROED) by (destruct Hok; apply po_zero0; by right).
    destruct Hok. destruct Hl as [-> | ->]; intuition congruence. }
  apply (leave_list s L B l a n b e s0 s1 _ e' B Hinv HL He);
    [done|done|left; apply agree_but_insert|cbn; by rewrite lookup_insert_eq|done
    |by eapply zeroing_shrinks|].
  apply page_ok_used; try done; cbn.
  - rewrite R3, G4. by destruct Hok.
  - intros _. rewrite R4, G5. unfold PFDBE_PrototypePte. cbn. rewrite Hpp. by apply (po_slot _ _ _ _ _ Hok).
Qed.

(** The page writer takes the first modified page; the page keeps its type and
    its count of 0. *)
Lemma MiRemoveOneModifiedPfn_spec s L B :
  pm_inv s L B →
  match L LModified with
  | [] => MiRemoveOneModifiedPfn s = Ok (PFN_INVALID, s)
  | n :: b => ∃ s' e e', MiRemoveOneModifiedPfn s = Ok (n, s') ∧
      pm_inv s' (<[LModified := b]> L) B ∧ Pfdb s !! n = Some e ∧ Pfdb s' !! n = Some e' ∧
      e' = set_InModified false e ∧
      MmTotalFreePages s' = MmTotalFreePages s ∧ Mem s' = Mem s ∧ Slots s' = Slots s
  end.
Proof.
  intros Hinv. unfold MiRemoveOneModifiedPfn, MmpAllocateFromFreeList.
  rewrite (First_list _ _ _ _ Hinv). destruct (L LModified) as [|n b] eqn:HL.
  { cbn. by rewrite Z.eqb_refl. }
  change (hd_or PFN_INVALID (n :: b)) with n.
  assert (n ∈ L LModified) as Hn by (rewrite HL; left).
  destruct (pm_inv_in _ _ _ _ _ Hinv Hn) as (e & He & Hok).
  assert (frame n) as Hf by by destruct Hok.
  assert (Type_ e = PF_TYPE_USED ∧ RefCount e = 0) as [Ht Hr] by (destruct Hok; intuition).
  rewrite frame_valid by done. cbv zeta. unfold MmGetPageFrameFromPFN at 1. rewrite He.
  cbn [deref mbind outcome_bind].
  pose proof (inv_lists _ _ _ Hinv LModified) as Hl. rewrite HL in Hl.
  destruct (MmpRemovePfnFromList_spec LModified s [] n b Hl) as (s1 & -> & Hrl & He1).
  rewrite He in He1. cbn. unfold MmpInitializePfn, MmGetPageFrameFromPFN. rewrite He1. cbn.
  rewrite bool_decide_true by done. cbn. rewrite ?frame_valid, ?frame_ok by done. cbn.
  rewrite frame_valid by done. rewrite (upd_Ok _ _ _ e) by done. cbn.
  pose proof Hrl as [R1 R2 R3 R4 R5 R6 R7].
  eexists _, e, (set_InModified false e). split; [done|].
  split; [|cbn; rewrite lookup_insert_eq; done].
  assert (∀ l', n ∉ <[LModified := b]> L l') as Hno.
  { intros l'. rewrite lookup_insert_lists. case_decide.
    - destruct Hl as (_ & Hnd & _). by apply NoDup_cons in Hnd as [? _].
    - intros Hn'. by eapply pm_inv_disjoint in Hn'; [|done|exact Hn]. }
  assert (n ∉ B) as HB.
  { intros HB. assert (Type_ e = PF_TYPE_ZEROED) by (destruct Hok; apply po_zero0; by right). congruence. }
  apply (leave_list s L B LModified [] n b e s s1 _ (set_InModified false e) B Hinv HL He
    (agree_but_refl n s) Hrl); [left; apply agree_but_insert|cbn; by rewrite lookup_insert_eq
    |done|by eapply (zeroing_shrinks s L B LModified [] n b)|].
  apply page_ok_used; try done; cbn; [rewrite R3; by destruct Hok|lia|].
  rewrite R4. apply (po_slot _ _ _ _ _ Hok).
Qed.

(** A reference to a page that is in use already, or that a list of cached
    pages holds. *)
Lemma MmPageAddReference_spec s L B n e :
  pm_inv s L B → Pfdb s !! n = Some e →
  (Type_ e = PF_TYPE_USED ∧ 0 < RefCount e) ∨ n ∈ L LStandby ∨ n ∈ L LModified →
  ∃ s' L', MmPageAddReference n s = Ok s' ∧ pm_inv s' L' B ∧
    (∃ e', Pfdb s' !! n = Some e' ∧ Type_ e' = PF_TYPE_USED ∧ RefCount e' = RefCount e + 1 ∧
           PrototypePte e' = PrototypePte e) ∧
    (∀ l, n ∉ L' l) ∧ (∀ l m, m ≠ n → (m ∈ L' l ↔ m ∈ L l)) ∧
    MmTotalFreePages s' = MmTotalFreePages s ∧ Mem s' = Mem s ∧ Slots s' = Slots s.
Proof.
  intros Hinv He Hcase. pose proof (inv_page _ _ _ Hinv n e He) as Hok.
  assert (frame n) as Hf by by destruct Hok.
  unfold MmPageAddReference, MiPageAddReferenceWithPfdbLocked, MmGetPageFrameFromPFN.
  rewrite !(frame_valid n) by done. cbn. rewrite He. cbn.
  rewrite (upd_Ok _ _ _ e) by done. cbn [mbind outcome_bind].
  set (e0 := set_RefCount (RefCount e + 1) e).
  set (s0 := set_Pfdb (<[n := e0]> (Pfdb s)) s).
  assert (Pfdb s0 !! n = Some e0) as He0 by (cbn; by rewrite lookup_insert_eq).
  assert (0 < RefCount e ∨ ∃ l, (l = LStandby ∨ l = LModified) ∧ n ∈ L l) as [Hr|(l & Hl & Hn)].
  { destruct Hcase as [[_ ?]|[?|?]]; eauto. }
  - destruct Hcase as [[Ht _]|Hc]; [|destruct Hok; destruct (po_cached0 Hc); lia].
    rewrite (proj2 (Z.leb_gt _ _)) by lia.
    destruct (not_listed s L B n e Hinv He) as [Hno HB]; [left; split; [done|left; lia]|].
    exists s0, L. split; [done|]. split.
    { apply (pm_inv_set_used s L B n e (set_RefCount (RefCount e + 1))); try done.
      apply page_ok_used; try done; cbn; [by destruct Hok|lia|lia|]. apply (po_slot _ _ _ _ _ Hok). }
    split; [by exists e0|]. done.
  - assert (RefCount e = 0) as Hr.
    { destruct Hok. destruct po_cached0 as [_ ?]; [|done]. destruct Hl; subst; auto. }
    rewrite (proj2 (Z.leb_le _ _)) by lia. rewrite check_true by (apply Z.eqb_eq; lia). cbn.
    apply list_elem_of_split in Hn as (a & b & HL).
    destruct (MiDetransitionPfn_spec s L B l a n b e s0 e0 Hinv Hl HL He)
      as (s' & e' & Hd & Hinv' & He' & Ht & Hr' & Hp & Htot & Hm & Hs); try done.
    { apply agree_but_insert. }
    exists s', (<[l := a ++ b]> L). split; [done|]. split; [done|].
    split; [exists e'; split_and!; try done; lia|]. split; [|split; [|done]].
    + destruct (not_listed _ _ _ _ _ Hinv' He') as [Hno _]; [left; split; [done|left; lia]|done].
    + intros l' m Hm'. rewrite lookup_insert_lists. case_decide; [|done]. subst. rewrite HL. set_solver.
Qed.

(** ** Runs of the memory manager *)

(** The number of pages that can be handed out. *)
Definition available (L : plist → list Z) (B : list Z) : Z :=
  Z.of_nat (length (L LZero ++ L LFree ++ L LStandby) + length B).

Lemma frames_length (l : list Z) : NoDup l → (∀ x, x ∈ l → frame x) → Z.of_nat (length l) ≤ 2 ^ 32.
Proof.
  intros Hnd Hf.
  assert (Z.to_nat <$> l ⊆+ seq 0 (Z.to_nat (2 ^ 32))) as Hs.
  { apply NoDup_submseteq.
    - apply NoDup_fmap_2_strong; [|done]. intros x y Hx Hy Heq.
      apply Hf in Hx as [? _]. apply Hf in Hy as [? _]. lia.
    - intros n Hn. apply list_elem_of_fmap in Hn as (x & -> & Hx). apply Hf in Hx as [? Hx].
      unfold MM_PFN_OUTOFMEMORY in Hx. apply elem_of_seq. lia. }
  apply submseteq_length in Hs. rewrite length_fmap, length_seq in Hs. lia.
Qed.

Lemma available_bound s L B : pm_inv s L B → 0 ≤ available L B < 2 ^ 64.
Proof.
  intros Hinv. unfold available. rewrite !length_app.
  assert (∀ l, Z.of_nat (length (L l)) ≤ 2 ^ 32) as Hl.
  { intros l. destruct (inv_lists _ _ _ Hinv l) as (_ & Hnd & Hf & _). by apply frames_length. }
  assert (Z.of_nat (length B) ≤ 2 ^ 32) as HB.
  { pose proof (inv_zeroing _ _ _ Hinv) as Hz. apply NoDup_app in Hz as (_ & _ & Hz).
    apply frames_length; [done|]. intros x Hx.
    destruct (inv_zeroing_dom _ _ _ Hinv x Hx) as [e He].
    by destruct (inv_page _ _ _ Hinv x e He). }
  pose proof (Hl LZero). pose proof (Hl LFree). pose proof (Hl LStandby). lia.
Qed.

Lemma pm_inv_perm s L B B' : B ≡ₚ B' → pm_inv s L B → pm_inv s L B'.
Proof.
  intros Hp [H1 H2 H3 H4]. split; [done| | |].
  - by rewrite <-Hp.
  - intros n Hn. apply H3. by rewrite Hp.
  - intros n e He. eapply page_ok_frame; [by apply H4|done|done| |done|done]. by rewrite Hp.
Qed.

(** What other parts of the kernel ask of this one.  The two critical sections
    of [MmZeroOutFirstPFN] are two operations, between which others run. *)
Inductive pmm_op : Set :=
  | OpAllocate
  | OpFree (n : Z)
  | OpReference (n : Z)
  | OpSetPrototype (n p : Z)
  | OpSetModified (n : Z)
  | OpWriterTake
  | OpWriterDone (n : Z) (flushed : bool)
  | OpZeroTake
  | OpZeroPut (n : Z).

(** The database and the frames that are being zeroed. *)
Definition pmm_run (o : pmm_op) (s : pmm) (B : list Z) : outcome (pmm * list Z) :=
  match o with
  | OpAllocate => '(_, s) ← MmAllocatePhysicalPage s; Ok (s, B)
  | OpFree n => s ← MmFreePhysicalPage n s; Ok (s, B)
  | OpReference n => s ← MmPageAddReference n s; Ok (s, B)
  | OpSetPrototype n p => s ← MmSetPrototypePtePfn n p s; Ok (s, B)
  | OpSetModified n => s ← MmSetModifiedPfn n s; Ok (s, B)
  | OpWriterTake => '(_, s) ← mpw_take s; Ok (s, B)
  | OpWriterDone n flushed => s ← mpw_done n flushed s; Ok (s, B)
  | OpZeroTake => '(o, s) ← zero_out_take s; Ok (s, option_list o ++ B)
  | OpZeroPut n => s ← zero_page n s; s ← zero_out_put n s; Ok (s, list_difference B [n])
  end.

(** The entry of a frame that the page writer took: the writer's own reference
    keeps it off all lists. *)
Definition writer_has (e : MMPFDBE) : Prop :=
  Type_ e = PF_TYPE_USED ∧ 0 < RefCount e ∧ PrototypePte e ≠ 0 ∧ IsInModifiedPageList e = false.

(** What the callers see to: only pages with references are freed or changed,
    only such pages and cached ones are referenced, prototype PTE pointers
    point to mapped entries. *)
Definition pmm_allowed (o : pmm_op) (s : pmm) (B : list Z) : Prop :=
  let in_use n := ∃ e, Pfdb s !! n = Some e ∧ Type_ e = PF_TYPE_USED ∧ 0 < RefCount e in
  match o with
  | OpAllocate | OpWriterTake | OpZeroTake => True
  | OpFree n | OpSetModified n => in_use n
  | OpReference n => in_use n ∨ ∃ e, Pfdb s !! n = Some e ∧
      (Type_ e = PF_TYPE_TRANSITION ∨
       Type_ e = PF_TYPE_USED ∧ RefCount e = 0 ∧ IsInModifiedPageList e = true)
  | OpSetPrototype n p => in_use n ∧
      (wrap 48 p ≠ 0 → is_Some (Slots s !! Z.lor 0xFFFF000000000000 (wrap 48 p)))
  | OpWriterDone n _ => ∃ e, Pfdb s !! n = Some e ∧ writer_has e
  | OpZeroPut n => n ∈ B
  end.

(** A reference to a standby page, the one operation after which the counter
    of free pages is off by one. *)
Definition resurrects (o : pmm_op) (s : pmm) : bool :=
  match o with
  | OpReference n => match Pfdb s !! n with
                     | Some e => bool_decide (Type_ e = PF_TYPE_TRANSITION)
                     | None => false
                     end
  | _ => false
  end.

Lemma available_append L B l n :
  available (<[l := L l ++ [n]]> L) B =
    available L B + (if decide (l = LModified) then 0 else 1).
Proof.
  unfold available. rewrite !lookup_insert_lists.
  destruct l; repeat case_decide; try done; rewrite !length_app; cbn; lia.
Qed.

Lemma available_cons L B n : available L (n :: B) = available L B + 1.
Proof. unfold available. cbn. lia. Qed.

(** *** The page writer *)

Lemma mpw_take_spec s L B :
  pm_inv s L B →
  match L LModified with
  | [] => mpw_take s = Ok (MpwEmpty, s)
  | n :: b => ∃ e t s', Pfdb s !! n = Some e ∧ mpw_take s = Ok (t, s') ∧
      Mem s' = Mem s ∧ Slots s' = Slots s ∧
      if Modified e then
        t = MpwFlush n ∧ pm_inv s' (<[LModified := b]> L) B ∧
        (∃ e', Pfdb s' !! n = Some e' ∧ writer_has e' ∧ RefCount e' = 1 ∧ Modified e' = false) ∧
        MmTotalFreePages s' = MmTotalFreePages s
      else
        t = MpwSkipped ∧ MmTotalFreePages s' = u64 (MmTotalFreePages s + 1) ∧
        pm_inv s' (<[LStandby := L LStandby ++ [n]]> (<[LModified := b]> L)) B
  end.
Proof.
  intros Hinv. pose proof (MiRemoveOneModifiedPfn_spec s L B Hinv) as HR. unfold mpw_take.
  destruct (L LModified) as [|n b] eqn:HL; [by rewrite HR|].
  destruct HR as (s1 & e & e1 & -> & Hinv1 & He & He1 & -> & Ht1 & Hm1 & Hs1).
  assert (n ∈ L LModified) as Hn by (rewrite HL; left).
  pose proof (inv_page _ _ _ Hinv n e He) as Hok.
  assert (frame n) as Hf by by destruct Hok.
  destruct (po_cached _ _ _ _ _ Hok) as [Hp Hr]; [by right|].
  assert (Type_ e = PF_TYPE_USED) as Ht by (destruct Hok; intuition).
  cbn [mbind outcome_bind]. rewrite frame_valid by done.
  unfold MmGetPageFrameFromPFN. rewrite He1. cbn [deref mbind outcome_bind].
  change (Modified (set_InModified false e)) with (Modified e).
  destruct (Modified e) eqn:Hmod; cbn [negb].
  - rewrite (upd_Ok _ _ _ _ He1). cbn [mbind outcome_bind].
    eexists e, _, _. split; [done|]. split; [done|]. split; [done|]. split; [done|]. rewrite Hmod.
    split; [done|].
    destruct (not_listed s1 _ B n _ Hinv1 He1) as [Hno HB]; [by left; split; [|right]|]. split.
    + apply (pm_inv_set_used s1 _ B n _ (λ e, set_Modified false (set_RefCount (RefCount e + 1) e)) Hinv1 He1 Hno HB).
      apply page_ok_used; try done; cbn; [rewrite Hm1; by destruct Hok|lia|].
      rewrite Hs1. intros _. apply (po_slot _ _ _ _ _ Hok Hp).
    + split; [|done]. eexists. cbn. rewrite lookup_insert_eq. split; [done|].
      unfold writer_has. cbn. rewrite Hr. split_and!; try done; lia.
  - destruct (MiTransformPageToStandbyPfn_spec s1 _ B n _ Hinv1 He1) as (s2 & -> & Hm2 & Hs2 & Hres);
      [done|].
    rewrite decide_True in Hres by done. destruct Hres as (Hinv2 & Ht2 & _).
    rewrite lookup_insert_lists, decide_False in Hinv2 by done.
    eexists e, _, s2. split; [done|]. split; [done|]. split; [congruence|]. split; [congruence|].
    rewrite Hmod. split; [done|]. split; [congruence|done].
Qed.

Lemma mpw_take_runs s L B :
  pm_inv s L B →
  ∃ s' L' B', ('(_, s) ← mpw_take s; Ok (s, B)) = Ok (s', B') ∧ pm_inv s' L' B' ∧
    (MmTotalFreePages s = available L B → MmTotalFreePages s' = available L' B' + 0).
Proof.
  intros Hinv. pose proof (mpw_take_spec s L B Hinv) as HM. destruct (L LModified) as [|n b] eqn:HL.
  { rewrite HM. exists s, L, B. split; [done|]. split; [done|]. lia. }
  assert (available (<[LModified := b]> L) B = available L B) as Ha.
  { unfold available. rewrite !lookup_insert_lists. by repeat case_decide. }
  destruct HM as (e & t & s' & _ & -> & _ & _ & Hres). cbn. destruct (Modified e).
  - destruct Hres as (_ & Hinv' & _ & Htot). eexists s', _, B. split; [done|]. split; [exact Hinv'|].
    intros Hc. rewrite Ha. lia.
  - destruct Hres as (_ & Htot & Hinv').
    rewrite <-(decide_False (P := LStandby = LModified) b (L LStandby)) in Hinv' by done.
    rewrite <-lookup_insert_lists in Hinv'.
    eexists s', _, B. split; [done|]. split; [exact Hinv'|]. intros Hc.
    pose proof (available_bound _ _ _ Hinv') as Hbd. rewrite available_append, Ha in *.
    rewrite Htot, Hc. rewrite decide_False in Hbd |- * by done. rewrite wrap_small; lia.
Qed.

Lemma mpw_done_spec s L B n flushed e :
  pm_inv s L B → Pfdb s !! n = Some e → writer_has e →
  ∃ s' L', mpw_done n flushed s = Ok s' ∧ pm_inv s' L' B ∧
    (MmTotalFreePages s = available L B → MmTotalFreePages s' = available L' B) ∧
    (RefCount e = 1 → flushed = true → ∃ e', Pfdb s' !! n = Some e' ∧ Modified e' = false) ∧
    Mem s' = Mem s ∧ Slots s' = Slots s ∧
    L' = (if RefCount e =? 1 then
            if flushed then <[LStandby := L LStandby ++ [n]]> L
            else <[LModified := L LModified ++ [n]]> L
          else L).
Proof.
  intros Hinv He (Ht & Hr & Hp & Hi). unfold mpw_done. rewrite (upd_Ok _ _ _ _ He). cbn [mbind outcome_bind].
  destruct (not_listed s L B n e Hinv He) as [Hno HB]; [by left; split; [|right]|].
  pose proof (inv_page _ _ _ Hinv n e He) as Hok.
  set (e1 := set_RefCount (RefCount e - 1) e). set (s1 := set_Pfdb (<[n := e1]> (Pfdb s)) s).
  assert (pm_inv s1 L B) as Hinv1.
  { apply (pm_inv_set_used s L B n e (λ e, set_RefCount (RefCount e - 1) e) Hinv He Hno HB).
    apply page_ok_used; try done; cbn; [by destruct Hok|by destruct Hok|lia|].
    apply (po_slot _ _ _ _ _ Hok). }
  assert (Pfdb s1 !! n = Some e1) as He1 by (cbn; by rewrite lookup_insert_eq).
  assert ((Type_ e1 = PF_TYPE_USED ∧ RefCount e1 = 0 ∧ IsInModifiedPageList e1 = false) ↔ RefCount e = 1) as Hcase.
  { cbn. split; [intros (_ & ? & _); lia|]. intros ->. done. }
  destruct flushed.
  - destruct (MiTransformPageToStandbyPfn_spec s1 L B n e1 Hinv1 He1) as (s2 & -> & Hm & Hs & Hres); [done|].
    destruct (Z.eqb_spec (RefCount e) 1) as [H1|H1].
    + rewrite decide_True in Hres by by apply Hcase. destruct Hres as (Hinv2 & Htot & Hmod).
      eexists s2, _. split; [done|]. split; [exact Hinv2|]. split; [|done]. intros Hc.
      pose proof (available_bound _ _ _ Hinv2) as Hbd. rewrite available_append in *.
      rewrite Htot. cbn. rewrite Hc, decide_False in * by done. rewrite wrap_small; lia.
    + rewrite decide_False in Hres by by rewrite Hcase. subst s2. by exists s1, L.
  - destruct (MiReinsertIntoModifiedList_spec s1 L B n e1 Hinv1 He1) as (s2 & -> & Hm & Hs & Hres); [done|].
    destruct (Z.eqb_spec (RefCount e) 1) as [H1|H1].
    + rewrite decide_True in Hres by by apply Hcase. destruct Hres as [Hinv2 Htot].
      eexists s2, _. split; [done|]. split; [exact Hinv2|]. split; [|done]. intros Hc.
      rewrite available_append, Htot. cbn. rewrite Hc, decide_True by done. lia.
    + rewrite decide_False in Hres by by rewrite Hcase. subst s2. by exists s1, L.
Qed.

(** One operation: it neither crashes nor breaks the invariant, and keeps the
    counter exact unless it revives a standby page. *)
Lemma pmm_run_spec o s L B :
  pm_inv s L B → pmm_allowed o s B →
  ∃ s' L' B', pmm_run o s B = Ok (s', B') ∧ pm_inv s' L' B' ∧
    (MmTotalFreePages s = available L B →
     MmTotalFreePages s' = available L' B' + (if resurrects o s then 1 else 0)).
Proof.
  intros Hinv. assert (∀ n e, Pfdb s !! n = Some e → Type_ e = PF_TYPE_USED → 0 < RefCount e →
    (∀ l, n ∉ L l) ∧ n ∉ B ∧ frame n ∧ page_ok s L B n e) as Huse.
  { intros n e He Ht Hr. destruct (not_listed s L B n e Hinv He) as [? ?].
    { left. split; [done|]. left. lia. }
    pose proof (inv_page _ _ _ Hinv n e He) as Hok. split_and!; try done. by destruct Hok. }
  destruct o as [|n|n|n p|n| |n f| |n]; cbn [pmm_run pmm_allowed resurrects].
  - intros _. pose proof (MmAllocatePhysicalPage_spec s L B Hinv) as HA.
    pose proof (available_bound s L B Hinv) as Hbd.
    destruct (L LZero ++ L LFree ++ L LStandby) as [|n rest] eqn:HL.
    { rewrite HA. exists s, L, B. split; [done|]. split; [done|]. lia. }
    destruct HA as (s' & e & L' & -> & Hinv' & HL' & _ & _ & (_ & Htot & _) & _).
    exists s', L', B. split; [done|]. split; [done|]. intros Hc. rewrite Htot, Hc.
    unfold available in *. rewrite HL, HL' in *. cbn in *. rewrite wrap_small; lia.
  - intros (e & He & Ht & Hr).
    destruct (MmFreePhysicalPage_spec s L B n e Hinv He Hr (or_introl Ht)) as (s' & -> & _ & _ & Hres).
    cbn. case_match.
    + destruct Hres as [Hinv' Htot]. exists s', (<[free_list_of e := L (free_list_of e) ++ [n]]> L), B. split; [done|]. split; [done|]. intros Hc.
      pose proof (available_bound _ _ _ Hinv') as Hbd. rewrite available_append in *.
      rewrite Htot, Hc. case_decide; [lia|]. rewrite wrap_small; lia.
    + destruct Hres as (Hinv' & Htot & _). exists s', L, B. split; [done|]. split; [done|]. lia.
  - intros Hal.
    assert (∃ e, Pfdb s !! n = Some e ∧ ((Type_ e = PF_TYPE_USED ∧ 0 < RefCount e) ∨
      n ∈ L LStandby ∨ n ∈ L LModified)) as (e & He & Hc).
    { destruct Hal as [(e & He & Ht & Hr)|(e & He & Hc)]; exists e; (split; [done|]); [by left|right].
      destruct (inv_page _ _ _ Hinv n e He). rewrite po_standby0, po_modified0. done. }
    destruct (MmPageAddReference_spec s L B n e Hinv He Hc)
      as (s' & L' & -> & Hinv' & _ & Hno & Hsame & Htot & _). rewrite He.
    exists s', L', B. split; [done|]. split; [done|]. rewrite Htot. intros ->.
    pose proof (inv_page _ _ _ Hinv n e He) as Hok.
    assert (∀ l, L l ≡ₚ (if decide (n ∈ L l) then [n] else []) ++ L' l) as Hperm.
    { intros l. destruct (inv_lists _ _ _ Hinv l) as (_ & Hnd & _).
      destruct (inv_lists _ _ _ Hinv' l) as (_ & Hnd' & _).
      apply NoDup_Permutation; [done| |].
      - case_decide; [|done]. apply NoDup_cons. by split; [apply Hno|].
      - intros m. specialize (Hno l). specialize (Hsame l m).
        destruct (decide (m = n)) as [->|Hne]; case_decide; set_solver. }
    assert (∀ l, length (L l) = (if decide (n ∈ L l) then 1 else 0) + length (L' l))%nat as Hlen.
    { intros l. rewrite (Hperm l) at 1. rewrite length_app. by case_decide. }
    unfold available. rewrite !length_app, (Hlen LZero), (Hlen LFree), (Hlen LStandby).
    assert (n ∉ L LZero ∧ n ∉ L LFree) as [Hz Hf].
    { destruct Hok. split; intros Hn; destruct Hc as [[Ht _]|[Hc|Hc]]; intuition congruence. }
    rewrite !(decide_False _ _ Hz), !(decide_False _ _ Hf).
    case_bool_decide as Hst.
    + rewrite decide_True by (by apply (po_standby _ _ _ _ _ Hok)). lia.
    + rewrite decide_False by (by intros ?%(po_standby _ _ _ _ _ Hok)). lia.
  - intros ((e & He & Ht & Hr) & Hp). destruct (Huse n e He Ht Hr) as (Hno & HB & Hf & Hok).
    unfold MmSetPrototypePtePfn. rewrite frame_valid by done. cbn.
    rewrite (upd_Ok _ _ _ e) by done. cbn.
    exists (set_Pfdb (<[n := set_Proto (wrap 48 p) e]> (Pfdb s)) s), L, B. split; [done|].
    split; [|intros Hc; cbn; lia]. apply (pm_inv_set_used s L B n e (set_Proto (wrap 48 p))); try done.
    apply page_ok_used; try done; cbn; [by destruct Hok|lia|lia].
  - intros (e & He & Ht & Hr). destruct (Huse n e He Ht Hr) as (Hno & HB & Hf & Hok).
    unfold MmSetModifiedPfn, MmGetPageFrameFromPFN. rewrite frame_valid, He by done. cbn.
    rewrite bool_decide_true by done. cbn. rewrite (upd_Ok _ _ _ e) by done. cbn.
    exists (set_Pfdb (<[n := set_Modified true e]> (Pfdb s)) s), L, B. split; [done|].
    split; [|intros Hc; cbn; lia]. apply (pm_inv_set_used s L B n e (set_Modified true)); try done.
    apply page_ok_used; try done; cbn; [by destruct Hok|lia|lia|]. apply (po_slot _ _ _ _ _ Hok).
  - intros _. by apply mpw_take_runs.
  - intros (e & He & Hw). destruct (mpw_done_spec s L B n f e Hinv He Hw)
      as (s' & L' & -> & Hinv' & Htot & _). exists s', L', B. split; [done|]. split; [done|].
    intros Hc. rewrite Htot by done. lia.
  - intros _. pose proof (zero_out_take_spec s L B Hinv) as HZ.
    destruct (L LFree) as [|n b] eqn:HL.
    { rewrite HZ. exists s, L, B. split; [done|]. split; [done|]. lia. }
    destruct HZ as (s' & e & -> & Hinv' & Htot & _).
    exists s', (<[LFree := b]> L), (n :: B). split; [done|]. split; [done|]. intros Hc.
    rewrite Htot, Hc. rewrite available_cons. unfold available. rewrite !lookup_insert_lists, HL.
    repeat case_decide; try done. rewrite !length_app. cbn. lia.
  - intros Hn. destruct (inv_zeroing_dom _ _ _ Hinv n Hn) as [e He].
    destruct (zero_page_spec s L B n e Hinv He) as (s1 & -> & Hinv1 & Hz & _ & _ & _ & Htot1 & _). cbn.
    pose proof (inv_zeroing _ _ _ Hinv) as Hnd. apply NoDup_app in Hnd as (_ & _ & Hnd).
    assert (B ≡ₚ n :: list_difference B [n]) as Hperm.
    { apply NoDup_Permutation; [done| |].
      - apply NoDup_cons. rewrite list_elem_of_difference.
        split; [set_solver|by apply NoDup_list_difference].
      - intros m. rewrite elem_of_cons, list_elem_of_difference, list_elem_of_singleton.
        destruct (decide (m = n)); set_solver. }
    destruct (zero_out_put_spec s1 L (list_difference B [n]) n) as (s' & -> & Hinv' & Htot & _);
      [by eapply pm_inv_perm|done|]. cbn.
    exists s', (<[LZero := L LZero ++ [n]]> L), (list_difference B [n]).
    split; [done|]. split; [done|]. intros Hc.
    rewrite available_append, Htot, Htot1, Hc. apply Permutation_length in Hperm. cbn in Hperm.
    unfold available. case_decide; [done|lia].
Qed.

(** [MmAllocatePhysicalPage] hands out the first page of the zero list, else
    of the free list, else of the standby list, else PFN_INVALID.  The page is
    then in use with one reference and all its bytes are 0, a standby page
    has its page cache entry reset to MM_SLA_NO_DATA, the other lists, pages
    and entries stay, and the database keeps its invariant. *)
Theorem MmAllocatePhysicalPage_correct s L B :
  pm_inv s L B →
  match L LZero ++ L LFree ++ L LStandby with
  | [] => MmAllocatePhysicalPage s = Ok (PFN_INVALID, s)
  | n :: rest => ∃ s' e L', MmAllocatePhysicalPage s = Ok (n, s') ∧ pm_inv s' L' B ∧
      L' LZero ++ L' LFree ++ L' LStandby = rest ∧ L' LModified = L LModified ∧
      Pfdb s !! n = Some e ∧ allocated n e s s' ∧ Mem s' !! n = Some zeros
  end.
Proof. apply MmAllocatePhysicalPage_spec. Qed.

(** ** Initialization *)

Lemma First_upd n f s s' l : upd n f s = Ok s' → First l s' = First l s.
Proof. unfold upd. intros H. by inv_ok. Qed.

(** Two stores to the links of the page that is being added. *)
Lemma init_page_free r j s fs q c :
  let cur := MmPhysPageToPFN (u64 (Base r + j)) in
  region_is_free r = true → frame cur → cur ∉ fs → is_Some (Pfdb s !! cur) →
  (∀ n, n ∈ fs → frame n) → NoDup fs → seg (Pfdb s) PFN_INVALID fs q →
  First LFree s = hd_or PFN_INVALID fs →
  (if j =? 0 then q = PFN_INVALID
   else q = cur ∧ last_or PFN_INVALID fs = u32 (cur - 1) ∧ fs ≠ []) →
  ∃ s', init_page r j (s, last_or PFN_INVALID fs, c) = Ok (s', cur, c + 1) ∧
    seg (Pfdb s') PFN_INVALID (fs ++ [cur])
      (if Size r <=? j + PAGE_SIZE then PFN_INVALID else u32 (cur + 1)) ∧
    First LFree s' = hd_or PFN_INVALID (fs ++ [cur]) ∧
    (∀ l, l ≠ LFree → Ends s' l = Ends s l) ∧ Mem s' = Mem s ∧ Slots s' = Slots s ∧
    (∀ m, m ≠ cur → body <$> Pfdb s' !! m = body <$> Pfdb s !! m) ∧
    body <$> Pfdb s' !! cur = Some (body blank).
Proof.
  intros cur Hfree Hf Hcur [e0 He0] Hfs Hnd Hseg HF Hq. unfold init_page. fold cur.
  rewrite Hfree. cbn [negb]. rewrite HF, hd_or_eqb by done.
  set (sA := if match fs with [] => true | _ => false end then set_First LFree cur s else s).
  assert (Pfdb sA = Pfdb s ∧ Mem sA = Mem s ∧ Slots sA = Slots s ∧
    First LFree sA = hd_or PFN_INVALID (fs ++ [cur]) ∧ ∀ l, l ≠ LFree → Ends sA l = Ends s l)
    as (A1 & A2 & A3 & A4 & A5).
  { unfold sA. destruct fs as [|x fs]; [|by repeat split].
    repeat split. intros l Hl. cbn. by rewrite fn_lookup_insert_ne. }
  clearbody sA. rewrite (upd_Ok _ _ _ e0) by (by rewrite A1). cbn [mbind outcome_bind].
  set (nxt := if Size r <=? j + PAGE_SIZE then PFN_INVALID else u32 (cur + 1)).
  (* the links of the new frame and of its predecessor *)
  assert (∃ s1, (if j =? 0 then
           s ← upd cur (set_Prev (last_or PFN_INVALID fs)) (set_Pfdb (<[cur := blank]> (Pfdb sA)) sA);
           if negb (last_or PFN_INVALID fs =? PFN_INVALID)
           then upd (last_or PFN_INVALID fs) (set_Next cur) s else Ok s
         else upd cur (set_Prev (u32 (cur - 1))) (set_Pfdb (<[cur := blank]> (Pfdb sA)) sA)) = Ok s1 ∧
    Pfdb s1 !! cur = Some (set_Prev (last_or PFN_INVALID fs) blank) ∧
    seg (Pfdb s1) PFN_INVALID fs cur ∧ Ends s1 = Ends sA ∧ Mem s1 = Mem sA ∧ Slots s1 = Slots sA ∧
    (∀ m, m ≠ cur → body <$> Pfdb s1 !! m = body <$> Pfdb s !! m)) as (s1 & -> & He1 & Hs1 & E1 & M1 & S1 & B1).
  { rewrite (upd_Ok _ _ _ blank) by (cbn; by rewrite lookup_insert_eq). cbn [mbind outcome_bind].
    assert (∀ m e, m ≠ cur → <[cur := e]> (<[cur := blank]> (Pfdb sA)) !! m = Pfdb s !! m) as Hout.
    { intros m e Hm. by rewrite !lookup_insert_ne, A1. }
    destruct (Z.eqb_spec j 0).
    2: { destruct Hq as (-> & Hl & _). eexists. split; [apply upd_Ok; cbn; by rewrite lookup_insert_eq|].
         cbn. rewrite lookup_insert_eq, Hl. split; [done|]. split.
         - eapply seg_frame; [|exact Hseg]. intros m Hm. apply Hout. by intros ->.
         - do 3 (split; [done|]). intros m Hm. by rewrite Hout. }
    subst q. destruct fs as [|y fs _] using rev_ind.
    { cbn. eexists. split; [done|]. cbn. rewrite lookup_insert_eq. split; [done|].
      do 4 (split; [done|]). intros m Hm. by rewrite Hout. }
    rewrite last_or_snoc in *. rewrite frame_valid by (apply Hfs; set_solver). cbn [negb].
    assert (y ≠ cur) as Hy by set_solver.
    destruct (seg_lookup _ _ _ _ y Hseg) as [ey Hey]; [set_solver|].
    eexists. split; [apply (upd_Ok _ _ _ ey); cbn; by rewrite Hout|]. cbn.
    split; [by rewrite lookup_insert_ne, lookup_insert_eq by done|]. split.
    { eapply seg_frame; [|eapply (seg_set_next _ _ _ _ _ cur); [exact Hseg|done|exact Hey]].
      intros m Hm. destruct (decide (m = y)) as [->|]; [by rewrite !lookup_insert_eq|].
      rewrite !(lookup_insert_ne _ y) by done. apply Hout. by intros ->. }
    do 3 (split; [done|]). intros m Hm. destruct (decide (m = y)) as [->|].
    - rewrite lookup_insert_eq, Hey. done.
    - by rewrite (lookup_insert_ne _ y), Hout. }
  cbn [mbind outcome_bind].
  set (eN := set_Next nxt (set_Prev (last_or PFN_INVALID fs) blank)).
  assert ((if Size r <=? j + PAGE_SIZE then upd cur (set_Next PFN_INVALID) s1
           else upd cur (set_Next (u32 (cur + 1))) s1) =
          Ok (set_Pfdb (<[cur := eN]> (Pfdb s1)) s1)) as ->.
  { unfold eN, nxt. by destruct (Size r <=? _); apply upd_Ok. }
  cbn. eexists. split; [done|]. cbn. split.
  { rewrite seg_app. split.
    - cbn. eapply seg_frame; [|exact Hs1]. intros m Hm. rewrite lookup_insert_ne; [done|]. by intros ->.
    - cbn. split; [|done]. by rewrite links_insert, decide_True. }
  split; [unfold First in *; cbn; by rewrite E1|].
  split; [intros l Hl; by rewrite E1, A5|]. split; [congruence|]. split; [congruence|].
  split; [|by rewrite lookup_insert_eq].
  intros m Hm. by rewrite lookup_insert_ne, B1.
Qed.

(** The frames of a region. *)
Definition region_frames (r : MEMORY_REGION) : list Z :=
  seqZ (Base r / PAGE_SIZE) (Size r / PAGE_SIZE).

(** The usable frames, and those of the free regions. *)
Definition usable_frames (rs : list MEMORY_REGION) : list Z :=
  concat (region_frames <$> filter (λ r, region_is_usable r = true) rs).
Definition free_frames (rs : list MEMORY_REGION) : list Z :=
  concat (region_frames <$> filter (λ r, region_is_free r = true) rs).

(** Page aligned, and below the frame numbers that are reserved. *)
Definition good_region (r : MEMORY_REGION) : Prop :=
  ∃ b k, Base r = b * PAGE_SIZE ∧ Size r = k * PAGE_SIZE ∧ 0 ≤ b ∧ 0 ≤ k ∧ b + k ≤ 2 ^ 31.

(** The database during initialization, from the state [s0]: the free frames
    [fs] are linked and lead to [q], the frames [ds] are done. *)
Record building (s0 s : pmm) (fs ds : list Z) (q : Z) : Prop := {
  bl_seg : seg (Pfdb s) PFN_INVALID fs q;
  bl_first : First LFree s = hd_or PFN_INVALID fs;
  bl_ends : ∀ l, l ≠ LFree → Ends s l = Ends s0 l;
  bl_mem : Mem s = Mem s0;
  bl_slots : Slots s = Slots s0;
  bl_free : ∀ n, n ∈ fs → body <$> Pfdb s !! n = Some (body blank);
  bl_sub : ∀ n, n ∈ fs → n ∈ ds;
  bl_used : ∀ n, n ∈ ds → n ∉ fs →
    body <$> Pfdb s !! n = Some (set_RefCount 1 (set_Type PF_TYPE_RECLAIM blank));
  bl_todo : ∀ n, n ∉ ds → body <$> Pfdb s !! n = body <$> Pfdb s0 !! n;
}.

Lemma frame_31 n : 0 ≤ n < 2 ^ 31 → frame n.
Proof. unfold frame, MM_PFN_OUTOFMEMORY. lia. Qed.

(** One page of a region. *)
Lemma init_page_spec s0 r i s fs ds q :
  good_region r → 0 ≤ i < Size r / PAGE_SIZE →
  let cur := Base r / PAGE_SIZE + i in
  cur ∉ ds → is_Some (Pfdb s0 !! cur) → (∀ n, n ∈ fs → frame n) → NoDup fs →
  building s0 s fs ds q →
  (if region_is_free r
   then if i =? 0 then q = PFN_INVALID else q = cur ∧ last_or PFN_INVALID fs = cur - 1 ∧ fs ≠ []
   else q = PFN_INVALID) →
  let fs' := if region_is_free r then fs ++ [cur] else fs in
  ∃ s', init_page r (i * PAGE_SIZE) (s, last_or PFN_INVALID fs, Z.of_nat (length fs)) =
      Ok (s', last_or PFN_INVALID fs', Z.of_nat (length fs')) ∧
    building s0 s' fs' (ds ++ [cur])
      (if region_is_free r then (if i + 1 =? Size r / PAGE_SIZE then PFN_INVALID else cur + 1)
       else PFN_INVALID).
Proof.
  intros (b & k & Hb & Hk & Hb0 & Hk0 & Hbk) Hi cur Hcur Hdom Hfs Hnd Hbl Hq fs'.
  assert (Base r / PAGE_SIZE = b) as Hbd by (rewrite Hb; by apply Z.div_mul).
  assert (Size r / PAGE_SIZE = k) as Hkd by (rewrite Hk; by apply Z.div_mul).
  rewrite Hkd in *. assert (cur = b + i) as Hci by (unfold cur; lia).
  assert (MmPhysPageToPFN (u64 (Base r + i * PAGE_SIZE)) = cur) as Hpfn.
  { unfold MmPhysPageToPFN. rewrite Hb, (wrap_small 64) by (unfold PAGE_SIZE; lia).
    rewrite <-Z.mul_add_distr_r, Z.div_mul by done. rewrite wrap_small; lia. }
  destruct Hbl as [H1 H2 H3 H4 H5 H6 H7 H8 H9].
  assert (cur ∉ fs) as Hcf by (intros ?%H7; done).
  assert (is_Some (Pfdb s !! cur)) as Hd.
  { destruct Hdom as [e He]. specialize (H9 cur Hcur). rewrite He in H9. cbn in H9.
    apply fmap_Some in H9 as (e' & -> & _). done. }
  assert (frame cur) as Hfc by (apply frame_31; lia).
  destruct (region_is_free r) eqn:Hfree.
  - destruct (init_page_free r (i * PAGE_SIZE) s fs q (Z.of_nat (length fs)))
      as (s' & HI & S1 & S2 & S3 & S4 & S5 & S6 & S7); rewrite ?Hpfn; try done.
    { destruct (Z.eqb_spec i 0) as [->|]; [done|].
      rewrite (proj2 (Z.eqb_neq _ 0)) by (unfold PAGE_SIZE; lia). destruct Hq as (? & ? & ?). rewrite wrap_small; [done|lia]. }
    rewrite Hpfn in *. exists s'. unfold fs'. rewrite last_or_snoc, length_app. split.
    { rewrite HI. do 3 f_equal. cbn. lia. }
    split; try congruence.
    + rewrite Hk in S1. destruct (Z.eqb_spec (i + 1) k).
      * by rewrite (proj2 (Z.leb_le _ _)) in S1 by (unfold PAGE_SIZE; lia).
      * rewrite (proj2 (Z.leb_gt _ _)) in S1 by (unfold PAGE_SIZE; lia).
        by rewrite wrap_small in S1 by lia.
    + intros l Hl. by rewrite S3, H3.
    + intros n [Hn| ->%list_elem_of_singleton]%elem_of_app; [|done].
      rewrite S6; [by apply H6|]. by intros ->.
    + set_solver.
    + intros n Hn Hn'. assert (n ≠ cur) by set_solver. rewrite S6 by done. apply H8; set_solver.
    + intros n Hn. assert (n ≠ cur) by set_solver. rewrite S6 by done. apply H9. set_solver.
  - subst q. destruct Hd as [e He]. unfold init_page. rewrite Hpfn, Hfree. cbn [negb].
    rewrite (upd_Ok _ _ _ e) by done. cbn. eexists. split; [done|]. unfold fs'.
    split; try done; cbn.
    + eapply seg_frame; [|exact H1]. intros m Hm. rewrite lookup_insert_ne; [done|]. by intros ->.
    + intros n Hn. rewrite lookup_insert_ne; [by apply H6|]. by intros ->.
    + set_solver.
    + intros n Hn Hn'. destruct (decide (n = cur)) as [->|]; [by rewrite lookup_insert_eq|].
      rewrite lookup_insert_ne by done. apply H8; set_solver.
    + intros n Hn. rewrite lookup_insert_ne by set_solver. apply H9. set_solver.
Qed.

Lemma seqZ_S a (n : nat) : seqZ a (Z.of_nat (S n)) = a :: seqZ (a + 1) (Z.of_nat n).
Proof. rewrite seqZ_cons by lia. f_equal. f_equal; lia. Qed.

Lemma init_pages_spec s0 r fuel n : ∀ i s fs ds q,
  good_region r → 0 ≤ i → i + Z.of_nat n = Size r / PAGE_SIZE → (n < fuel)%nat →
  let todo := seqZ (Base r / PAGE_SIZE + i) (Z.of_nat n) in
  NoDup (ds ++ todo) → (∀ m, m ∈ todo → is_Some (Pfdb s0 !! m)) →
  (∀ m, m ∈ fs → frame m) → NoDup fs → building s0 s fs ds q →
  (if region_is_free r && negb (n =? 0)%nat
   then if i =? 0 then q = PFN_INVALID
        else q = Base r / PAGE_SIZE + i ∧ last_or PFN_INVALID fs = q - 1 ∧ fs ≠ []
   else q = PFN_INVALID) →
  let fs' := if region_is_free r then fs ++ todo else fs in
  ∃ s', init_pages fuel r (i * PAGE_SIZE) (s, last_or PFN_INVALID fs, Z.of_nat (length fs)) =
      Ok (s', last_or PFN_INVALID fs', Z.of_nat (length fs')) ∧
    building s0 s' fs' (ds ++ todo) PFN_INVALID.
Proof.
  revert fuel. induction n as [|n IH]; intros fuel i s fs ds q Hr Hi Hn Hf todo Hnd Hdom Hfs Hndf Hbl Hq fs'.
  - destruct fuel as [|fuel]; [lia|]. cbn. unfold fs', todo. cbn.
    rewrite andb_false_r in Hq. subst q. rewrite !app_nil_r.
    destruct Hr as (b & k & Hb & Hk & _). rewrite Hk in *. rewrite Z.div_mul in Hn by done.
    rewrite (proj2 (Z.ltb_ge _ _)) by (unfold PAGE_SIZE; lia).
    assert ((if region_is_free r then fs else fs) = fs) as -> by by destruct (region_is_free r).
    by exists s.
  - destruct fuel as [|fuel]; [lia|]. cbn [init_pages]. unfold todo in *. rewrite seqZ_S in *.
    assert (i * PAGE_SIZE <? Size r = true) as ->.
    { destruct Hr as (b & k & Hb & Hk & _). rewrite Hk in *. rewrite Z.div_mul in Hn by done.
      apply Z.ltb_lt. unfold PAGE_SIZE. lia. }
    set (cur := Base r / PAGE_SIZE + i) in *. set (rest := seqZ (cur + 1) (Z.of_nat n)) in *.
    assert (cur ∉ ds) as Hcd.
    { apply NoDup_app in Hnd as (_ & Hd & _). intros Hc. apply (Hd cur Hc). left. }
    destruct (init_page_spec s0 r i s fs ds q) as (s1 & HI & Hbl1); try done;
      [lia|apply Hdom; left| |].
    { rewrite andb_true_r in Hq. destruct (region_is_free r); [|done].
      destruct (i =? 0); [done|]. destruct Hq as (-> & ? & ?). done. }
    fold cur in HI, Hbl1. rewrite HI. cbn [mbind outcome_bind].
    set (fs1 := if region_is_free r then fs ++ [cur] else fs) in *.
    assert (frame cur) as Hfc.
    { destruct Hr as (b & k & Hb & Hk & ? & ? & ?). apply frame_31. unfold cur.
      rewrite Hb, Hk in *. rewrite Z.div_mul in Hn by done. rewrite Z.div_mul by done. lia. }
    replace (i * PAGE_SIZE + PAGE_SIZE) with ((i + 1) * PAGE_SIZE) by (unfold PAGE_SIZE; lia).
    assert (Base r / PAGE_SIZE + (i + 1) = cur + 1) as Hc1 by (unfold cur; lia).
    destruct (IH fuel (i + 1) s1 fs1 (ds ++ [cur])
      (if region_is_free r then if i + 1 =? Size r / PAGE_SIZE then PFN_INVALID else cur + 1
       else PFN_INVALID)) as (s2 & HI2 & Hbl2); rewrite ?Hc1; fold rest; try done; try lia.
    + by rewrite <-app_assoc.
    + intros m Hm. apply Hdom. by right.
    + unfold fs1. destruct (region_is_free r); [|done]. intros m [?| ->%list_elem_of_singleton]%elem_of_app; auto.
    + unfold fs1. destruct (region_is_free r); [|done]. apply NoDup_app. split; [done|].
      split; [|apply NoDup_singleton]. intros x Hx ->%list_elem_of_singleton.
      by apply (bl_sub _ _ _ _ _ Hbl) in Hx.
    + unfold fs1. destruct (region_is_free r); [|done]. cbn.
      rewrite (proj2 (Z.eqb_neq (i + 1) 0)) by lia. destruct n as [|n]; cbn.
      * by rewrite (proj2 (Z.eqb_eq _ _)) by lia.
      * rewrite (proj2 (Z.eqb_neq _ _)) by lia. rewrite last_or_snoc. split; [done|]. split; [lia|].
        by destruct fs.
    + rewrite Hc1 in HI2, Hbl2. fold rest in HI2, Hbl2. exists s2.
      assert ((if region_is_free r then fs1 ++ rest else fs1) = fs') as Hfs'.
      { unfold fs', fs1. rewrite seqZ_S. fold rest. destruct (region_is_free r); [by rewrite <-app_assoc|done]. }
      rewrite Hfs' in *. split; [done|]. by rewrite <-app_assoc in Hbl2.
Qed.

Lemma usable_frames_cons r rs :
  usable_frames (r :: rs) =
    (if region_is_usable r then region_frames r else []) ++ usable_frames rs.
Proof.
  unfold usable_frames. destruct (region_is_usable r) eqn:Hr.
  - by rewrite filter_cons_True.
  - by rewrite filter_cons_False by (by rewrite Hr).
Qed.

Lemma free_frames_cons r rs :
  free_frames (r :: rs) = (if region_is_free r then region_frames r else []) ++ free_frames rs.
Proof.
  unfold free_frames. destruct (region_is_free r) eqn:Hr.
  - by rewrite filter_cons_True.
  - by rewrite filter_cons_False by (by rewrite Hr).
Qed.

Lemma init_regions_spec s0 rs : ∀ s fs ds,
  (∀ r, r ∈ rs → region_is_usable r = true → good_region r) →
  NoDup (ds ++ usable_frames rs) → (∀ m, m ∈ usable_frames rs → is_Some (Pfdb s0 !! m)) →
  (∀ m, m ∈ fs → frame m) → NoDup fs → building s0 s fs ds PFN_INVALID →
  ∃ s', init_regions rs (s, last_or PFN_INVALID fs, Z.of_nat (length fs)) =
      Ok (s', last_or PFN_INVALID (fs ++ free_frames rs), Z.of_nat (length (fs ++ free_frames rs))) ∧
    building s0 s' (fs ++ free_frames rs) (ds ++ usable_frames rs) PFN_INVALID ∧
    NoDup (fs ++ free_frames rs) ∧ (∀ m, m ∈ fs ++ free_frames rs → frame m).
Proof.
  induction rs as [|r rs IH]; intros s fs ds Hgood Hnd Hdom Hfs Hndf Hbl.
  { exists s. cbn. rewrite !app_nil_r. done. }
  rewrite !free_frames_cons, !usable_frames_cons in *. cbn [init_regions].
  destruct (region_is_usable r) eqn:Hu.
  2: { assert (region_is_free r = false) as ->
         by (unfold region_is_free, region_is_usable in *; by destruct (RType r)).
       cbn in *. apply IH; try done. intros r' Hr'. apply Hgood. by right. }
  assert (good_region r) as Hr by (apply Hgood; [left|done]).
  pose proof Hr as (b & k & Hb & Hk & Hb0 & Hk0 & Hbk).
  assert (Size r / PAGE_SIZE = Z.of_nat (Z.to_nat k)) as Hkd.
  { rewrite Hk, Z.div_mul by done. lia. }
  rewrite app_assoc in Hnd.
  assert (region_frames r = seqZ (Base r / PAGE_SIZE + 0) (Z.of_nat (Z.to_nat k))) as Hrf.
  { unfold region_frames. by rewrite Z.add_0_r, Hkd. }
  destruct (init_pages_spec s0 r (S (S (Z.to_nat (Size r / PAGE_SIZE)))) (Z.to_nat k) 0 s fs ds PFN_INVALID)
    as (s1 & HI & Hbl1); rewrite <-?Hrf; try done; try lia.
  { by apply NoDup_app in Hnd as (? & _). }
  { intros m Hm. apply Hdom. set_solver. }
  { by destruct (_ && _). }
  rewrite <-Hrf in HI, Hbl1. rewrite Z.mul_0_l in HI. rewrite HI. cbn [mbind outcome_bind].
  set (fs1 := if region_is_free r then fs ++ region_frames r else fs) in *.
  assert (NoDup fs1 ∧ ∀ m, m ∈ fs1 → frame m) as [Hn1 Hf1].
  { unfold fs1. destruct (region_is_free r); [|done]. split.
    - apply NoDup_app in Hnd as (Hnd & _). apply NoDup_app in Hnd as (_ & Hd & Hnr).
      apply NoDup_app. split; [done|]. split; [|done]. intros x Hx.
      apply Hd. by apply (bl_sub _ _ _ _ _ Hbl).
    - intros m [?|Hm]%elem_of_app; [by apply Hfs|]. unfold region_frames in Hm.
      apply elem_of_seqZ in Hm. apply frame_31. rewrite Hb, Hk, !Z.div_mul in Hm by done. lia. }
  destruct (IH s1 fs1 (ds ++ region_frames r)) as (s2 & HI2 & Hbl2 & Hn2 & Hf2); try done.
  { intros r' Hr'. apply Hgood. by right. }
  { intros m Hm. apply Hdom. set_solver. }
  exists s2. rewrite HI2, <-app_assoc in *.
  assert (fs1 ++ free_frames rs =
    fs ++ (if region_is_free r then region_frames r else []) ++ free_frames rs) as Heq.
  { unfold fs1. destruct (region_is_free r); [by rewrite <-app_assoc|done]. }
  rewrite Heq in *. done.
Qed.

Lemma MmZeroOutFirstPFN_spec s L B :
  pm_inv s L B →
  ∃ s' L', MmZeroOutFirstPFN s = Ok s' ∧ pm_inv s' L' B ∧
    L' LZero = L LZero ++ take 1 (L LFree) ∧ L' LFree = drop 1 (L LFree) ∧
    L' LStandby = L LStandby ∧ L' LModified = L LModified ∧
    MmTotalFreePages s' = MmTotalFreePages s.
Proof.
  intros Hinv. unfold MmZeroOutFirstPFN. pose proof (zero_out_take_spec s L B Hinv) as HT.
  destruct (L LFree) as [|n b] eqn:HL.
  { rewrite HT. exists s, L. rewrite app_nil_r. done. }
  destruct HT as (s1 & e & -> & Hinv1 & Ht1 & Hm1 & _ & He). cbn [mbind outcome_bind].
  destruct (zero_page_spec s1 _ _ n e Hinv1 He) as (s2 & -> & Hinv2 & Hz & _ & _ & _ & Ht2 & _).
  cbn [mbind outcome_bind].
  destruct (zero_out_put_spec s2 _ B n Hinv2 Hz) as (s3 & -> & Hinv3 & Ht3 & _).
  eexists s3, _. split; [done|]. split; [exact Hinv3|].
  rewrite !lookup_insert_lists. repeat case_decide; try done.
  split_and!; try done. congruence.
Qed.

Lemma zero_out_some_spec n : ∀ s L B,
  pm_inv s L B →
  ∃ s' L', zero_out_some n s = Ok s' ∧ pm_inv s' L' B ∧
    L' LZero = L LZero ++ take n (L LFree) ∧ L' LFree = drop n (L LFree) ∧
    L' LStandby = L LStandby ∧ L' LModified = L LModified.
Proof.
  induction n as [|n IH]; intros s L B Hinv; cbn.
  { exists s, L. by rewrite app_nil_r. }
  destruct (MmZeroOutFirstPFN_spec s L B Hinv)
    as (s1 & L1 & -> & Hinv1 & Z1 & F1 & S1 & M1 & _). cbn.
  destruct (IH s1 L1 B Hinv1) as (s2 & L2 & -> & Hinv2 & Z2 & F2 & S2 & M2).
  exists s2, L2. split; [done|]. split; [done|]. rewrite Z2, F2, S2, M2, Z1, F1, S1, M1.
  split_and!; try done.
  - rewrite <-app_assoc. f_equal. destruct (L LFree); cbn; [by rewrite take_nil|done].
  - by rewrite drop_drop.
Qed.

Lemma page_ok_free s L n e :
  frame n → is_Some (Mem s !! n) → body e = body blank →
  n ∈ L LFree → (∀ l, l ≠ LFree → n ∉ L l) → page_ok s L [] n e.
Proof.
  intros Hf Hm Hb Hn Hno. rewrite (links_body blank e Hb).
  split; cbn; try done; try lia.
  - split; [by intros ?%Hno|done].
  - split; [|done]. intros [?%Hno|?%not_elem_of_nil]; done.
  - split; [by intros ?%Hno|]. by intros (? & _).
  - by intros [?%Hno|?%Hno].
  - by intros ?%Hno.
Qed.

Lemma MiInitPMM_spec rs s0 :
  (∀ r, r ∈ rs → region_is_usable r = true → good_region r) →
  NoDup (usable_frames rs) →
  (∀ m, is_Some (Pfdb s0 !! m) ↔ m ∈ usable_frames rs) →
  (∀ m, m ∈ usable_frames rs → is_Some (Mem s0 !! m)) →
  (∀ l, Ends s0 l = (PFN_INVALID, PFN_INVALID)) →
  ∃ s' L, MiInitPMM rs s0 = Ok s' ∧ pm_inv s' L [] ∧ MmTotalFreePages s' = available L [] ∧
    L LZero = take 200 (free_frames rs) ∧ L LFree = drop 200 (free_frames rs) ∧
    L LStandby = [] ∧ L LModified = [].
Proof.
  intros Hgood Hnd Hdom Hmem Hends. unfold MiInitPMM.
  destruct (init_regions_spec s0 rs s0 [] []) as (s1 & HI & Hbl & Hnf & Hff); try done.
  { intros m Hm. by apply Hdom. }
  { intros m Hm. by apply not_elem_of_nil in Hm. }
  { apply NoDup_nil. done. }
  { split; try done; try (intros m Hm; by apply not_elem_of_nil in Hm).
    unfold First. by rewrite Hends. }
  cbn [app] in *. change (last_or PFN_INVALID []) with PFN_INVALID in HI.
  change (Z.of_nat (length (@nil Z))) with 0 in HI. rewrite HI. cbn [mbind outcome_bind].
  set (fs := free_frames rs) in *. set (s2 := set_Last LFree (last_or PFN_INVALID fs) s1).
  set (L := λ l, match l with LFree => fs | _ => [] end).
  destruct Hbl as [H1 H2 H3 H4 H5 H6 H7 H8 H9].
  assert (pm_inv s2 L []) as Hinv.
  { split.
    - intros l. destruct (decide (l = LFree)) as [->|Hl].
      + split; [done|]. split; [done|]. split; [done|]. cbn. rewrite fn_lookup_insert.
        by rewrite H2.
      + assert (L l = []) as -> by by destruct l.
        split; [done|]. split; [by apply NoDup_nil|]. split; [by intros m ?%not_elem_of_nil|].
        cbn. rewrite fn_lookup_insert_ne by done. by rewrite H3, Hends.
    - by apply NoDup_nil.
    - by intros n ?%not_elem_of_nil.
    - cbn. intros n e He.
      assert (n ∈ usable_frames rs) as Hn.
      { destruct (decide (n ∈ usable_frames rs)) as [|Hn]; [done|]. pose proof (H9 n Hn) as Hb.
        rewrite He in Hb. cbn in Hb. symmetry in Hb. apply fmap_Some in Hb as (e0 & He0 & _).
        exfalso. apply Hn, Hdom. by rewrite He0. }
      assert (frame n) as Hf.
      { unfold usable_frames in Hn. rewrite list_elem_of_In in Hn.
        apply List.in_concat in Hn as (l & Hl & Hnl). apply list_elem_of_In in Hl, Hnl.
        apply list_elem_of_fmap in Hl as (r & -> & Hr). apply list_elem_of_filter in Hr as [Hu Hr].
        destruct (Hgood r Hr Hu) as (b & k & Hb & Hk & ? & ? & ?). unfold region_frames in Hnl.
        apply elem_of_seqZ in Hnl. apply frame_31. rewrite Hb, Hk, !Z.div_mul in Hnl by done. lia. }
      assert (is_Some (Mem s2 !! n)) as Hm by (cbn; rewrite H4; by apply Hmem).
      destruct (decide (n ∈ fs)) as [Hnf'|Hnf'].
      + pose proof (H6 n Hnf') as Hb. rewrite He in Hb.
        apply (inj Some (body e) (body blank)) in Hb.
        apply page_ok_free; try done. intros l Hl. destruct l; try done; by apply not_elem_of_nil.
      + pose proof (H8 n Hn Hnf') as Hb. rewrite He in Hb.
        apply (inj Some (body e) (set_RefCount 1 (set_Type PF_TYPE_RECLAIM blank))) in Hb.
        assert (Type_ e = PF_TYPE_RECLAIM ∧ RefCount e = 1 ∧ PrototypePte e = 0) as (Ht & Hr & Hp).
        { destruct e. unfold body in Hb. cbn in Hb. clear He. by injection Hb as -> _ _ _ _ -> -> _ _. }
        assert (∀ l, n ∉ L l) as Hno by (intros l; destruct l; try done; by apply not_elem_of_nil).
        split; rewrite ?Ht, ?Hr, ?Hp; try done.
        all: try (split; [by intros ?%Hno|done]).
        all: try (split; [by intros [?%Hno|?%not_elem_of_nil]|done]).
        all: try (by intros [?%Hno|?%Hno]).
        all: try (by intros ?%Hno).
        split; [by intros ?%Hno|]. by intros (? & _). }
  destruct (zero_out_some_spec 200 s2 L [] Hinv) as (s3 & L3 & HZ & Hinv3 & Z3 & F3 & S3 & M3).
  rewrite HZ. cbn [mbind outcome_bind]. eexists _, L3. split; [done|].
  split; [by eapply pm_inv_ext; [..|exact Hinv3]|].
  split; [|split_and!; [by rewrite Z3|by rewrite F3|by rewrite S3|by rewrite M3]].
  cbn. assert (available L3 [] = Z.of_nat (length fs)) as Ha.
  { unfold available. rewrite Z3, F3, S3. cbn. rewrite app_nil_r, take_drop. lia. }
  rewrite <-Ha. apply wrap_small. by eapply available_bound.
Qed.

(** ** Contiguous regions *)

(** A free page leaves the free list, wherever it is in it. *)
Lemma MmpRemovePfnFromItsList_spec s L B a n b e :
  pm_inv s L B → L LFree = a ++ n :: b → Pfdb s !! n = Some e →
  ∃ s1, MmpRemovePfnFromItsList n s = Ok s1 ∧ relinked LFree (a ++ b) (a ++ b) s s1 ∧
    Pfdb s1 !! n = Some e.
Proof.
  intros Hinv HL He. pose proof (inv_page _ _ _ Hinv n e He) as Hok.
  assert (n ∈ L LFree) as Hn by (rewrite HL; set_solver).
  assert (Type_ e = PF_TYPE_FREE) as Ht by (destruct Hok; intuition).
  pose proof (inv_lists _ _ _ Hinv LFree) as Hl. rewrite HL in Hl.
  pose proof Hl as (Hseg & Hnd & Hfr & _).
  apply seg_app in Hseg as [_ Hseg]. cbn in Hseg. destruct Hseg as [Hlk _].
  destruct (links_entry _ _ _ _ _ Hlk He) as [Hp Hq].
  unfold MmpRemovePfnFromItsList, MmGetPageFrameFromPFN. rewrite He. cbn.
  rewrite bool_decide_true by done. cbn. rewrite Hp, Hq.
  rewrite hd_or_eqb by (intros m Hm; apply Hfr; set_solver).
  rewrite (First_list _ _ _ _ Hinv), (Last_list _ _ _ _ Hinv), HL.
  assert ((last_or PFN_INVALID a =? PFN_INVALID) = match a with [] => true | _ => false end) as ->.
  { destruct a as [|x a _] using rev_ind; [done|]. rewrite last_or_snoc, frame_valid; [by destruct a|].
    apply Hfr. set_solver. }
  destruct b as [|y b]; cbn [negb andb].
  { rewrite last_or_snoc, Z.eqb_refl. cbn. rewrite <-He. by apply MmpRemovePfnFromList_spec. }
  destruct a as [|x a]; cbn [negb andb].
  { cbn. rewrite Z.eqb_refl. cbn. rewrite <-He. by apply (MmpRemovePfnFromList_spec LFree s []). }
  rewrite <-He. by eapply MmpUnlinkPfn_interior.
Qed.

Definition in_region (Pfn : Z) (n : nat) (m : Z) : Prop := Pfn ≤ m < Pfn + Z.of_nat n.

#[export] Instance in_region_dec Pfn n m : Decision (in_region Pfn n m).
Proof. unfold in_region. apply _. Defined.

Lemma take_region_spec n : ∀ Pfn s L B,
  pm_inv s L B → (∀ m, in_region Pfn n m → m ∈ L LFree) →
  ∃ s', take_region Pfn n s = Ok s' ∧
    pm_inv s' (<[LFree := filter (λ m, ¬ in_region Pfn n m) (L LFree)]> L) B ∧
    (∀ m, in_region Pfn n m → ∃ e, Pfdb s' !! m = Some e ∧ Type_ e = PF_TYPE_USED ∧ RefCount e = 1) ∧
    (∀ m, ¬ in_region Pfn n m → body <$> Pfdb s' !! m = body <$> Pfdb s !! m) ∧
    Mem s' = Mem s ∧ Slots s' = Slots s.
Proof.
  induction n as [|n IH]; intros Pfn s L B Hinv Hreg; cbn.
  { exists s. split; [done|]. split; [|unfold in_region; split; [lia|done]].
    replace (filter (λ m, ¬ in_region Pfn 0 m) (L LFree)) with (L LFree).
    - eapply (pm_inv_lists_ext s L); [|done]. intros l. rewrite lookup_insert_lists.
      by case_decide; subst.
    - symmetry. apply filter_keep. unfold in_region. intros; lia. }
  assert (Pfn ∈ L LFree) as Hn by (apply Hreg; unfold in_region; lia).
  assert (frame Pfn) as Hf by by eapply frame_in.
  destruct (pm_inv_in _ _ _ _ _ Hinv Hn) as (e & He & Hok).
  pose proof (inv_lists _ _ _ Hinv LFree) as (_ & Hnd & _ & _).
  apply list_elem_of_split in Hn as (a & b & HL).
  destruct (MmpRemovePfnFromItsList_spec s L B a Pfn b e Hinv HL He) as (s1 & -> & Hrl & He1). cbn.
  destruct (MmpInitializePfn_spec s L B LFree a Pfn b e s1 Hinv ltac:(done) HL He Hrl He1)
    as (s2 & e2 & -> & Hinv2 & He2 & Ht2 & Hr2 & _ & _ & Hm2 & Hs2 & Hb2). cbn.
  rewrite wrap_small by (unfold frame, MM_PFN_OUTOFMEMORY in Hf; lia).
  set (L2 := <[LFree := a ++ b]> L) in *.
  assert (L2 LFree = a ++ b) as HL2 by (unfold L2; by rewrite lookup_insert_lists, decide_True).
  assert (Pfn ∉ a ++ b) as Hnab.
  { rewrite HL in Hnd. apply NoDup_app in Hnd as (_ & Hd & Hnd). apply NoDup_cons in Hnd as [Hnb _].
    intros [Hna|?]%elem_of_app; [|done]. apply (Hd Pfn Hna). left. }
  destruct (IH (Pfn + 1) s2 L2 B Hinv2) as (s' & -> & Hinv' & Hu & Hb & Hm & Hs).
  { intros m Hm. rewrite HL2. assert (m ∈ L LFree) as Hml by (apply Hreg; unfold in_region in *; lia).
    rewrite HL in Hml. unfold in_region in Hm. assert (m ≠ Pfn) by lia. set_solver. }
  exists s'. split; [done|]. split; [|split; [|split; [|split; [congruence|]]]].
  - eapply pm_inv_lists_ext; [|exact Hinv']. intros l. unfold L2. rewrite !lookup_insert_lists.
    destruct (decide (l = LFree)); [|done].
    rewrite decide_True by done. rewrite HL, !filter_app, filter_cons_False.
    + f_equal; apply filter_same; intros m Hin;
        (assert (m ≠ Pfn) by set_solver); unfold in_region; lia.
    + unfold in_region. intros Hx. apply Hx. lia.
  - intros m Hmr. destruct (decide (m = Pfn)) as [->|].
    + assert (body <$> Pfdb s' !! Pfn = Some (body e2)) as Hb'.
      { rewrite Hb, He2; [done|]. unfold in_region. lia. }
      apply fmap_Some in Hb' as (e' & He' & Hbe). exists e'. split; [done|].
      rewrite (links_body e2 e' (eq_sym Hbe)). done.
    + apply Hu. unfold in_region in *. lia.
  - intros m Hmr. unfold in_region in *. rewrite Hb, Hb2 by lia. done.
  - rewrite Hs, Hs2. done.
Qed.

Lemma all_free_spec n : ∀ Pfn s L B,
  pm_inv s L B → (∀ m, in_region Pfn n m → is_Some (Pfdb s !! m)) →
  ∃ b, all_free Pfn n s = Ok b ∧ (b = true ↔ ∀ m, in_region Pfn n m → m ∈ L LFree).
Proof.
  induction n as [|n IH]; intros Pfn s L B Hinv Hdom; cbn.
  { exists true. split; [done|]. split; [|done]. unfold in_region. intros _ m ?. lia. }
  destruct (Hdom Pfn) as [e He]; [unfold in_region; lia|].
  pose proof (inv_page _ _ _ Hinv Pfn e He) as Hok.
  unfold MmpIsFree, MmGetPageFrameFromPFN. rewrite He. cbn.
  case_bool_decide as Ht; cbn.
  - destruct (po_frame _ _ _ _ _ Hok) as [? Hf]. unfold MM_PFN_OUTOFMEMORY in Hf.
    rewrite wrap_small by lia.
    destruct (IH (Pfn + 1) s L B Hinv) as (b & -> & Hb).
    { intros m Hm. apply Hdom. unfold in_region in *. lia. }
    exists b. split; [done|]. rewrite Hb. split; intros H' m Hm.
    + destruct (decide (m = Pfn)) as [->|]; [by apply (po_free _ _ _ _ _ Hok)|].
      apply H'. unfold in_region in *. lia.
    + apply H'. unfold in_region in *. lia.
  - exists false. split; [done|]. split; [done|]. intros H'. exfalso. apply Ht.
    apply (po_free _ _ _ _ _ Hok), H'. unfold in_region. lia.
Qed.

(** Executions: operations that their callers may ask for, one after the other. *)
Inductive pmm_runs : list pmm_op → pmm → list Z → pmm → list Z → Prop :=
  | runs_nil s B : pmm_runs [] s B s B
  | runs_snoc os o s0 B0 s B s' B' :
      pmm_runs os s0 B0 s B → pmm_allowed o s B → pmm_run o s B = Ok (s', B') →
      resurrects o s = false → pmm_runs (os ++ [o]) s0 B0 s' B'.

Lemma pmm_runs_inv os s0 B0 s B :
  pmm_runs os s0 B0 s B → ∀ L0, pm_inv s0 L0 B0 → MmTotalFreePages s0 = available L0 B0 →
  ∃ L, pm_inv s L B ∧ MmTotalFreePages s = available L B.
Proof.
  induction 1 as [|os o s0 B0 s B s' B' _ IH Hal Hrun Hres]; intros L0 Hinv0 Hc0.
  { by exists L0. }
  destruct (IH L0 Hinv0 Hc0) as (L & Hinv & Hc).
  destruct (pmm_run_spec o s L B Hinv Hal) as (s2 & L2 & B2 & Hrun2 & Hinv2 & Hc2).
  rewrite Hrun in Hrun2. injection Hrun2 as <- <-. exists L2. split; [done|].
  rewrite Hc2 by done. rewrite Hres. lia.
Qed.

(** The lists are determined by the database. *)
Lemma pm_inv_unique s L L' B B' l : pm_inv s L B → pm_inv s L' B' → L l = L' l.
Proof.
  intros H1 H2. pose proof (inv_lists _ _ _ H1 l) as (S1 & N1 & F1 & E1).
  pose proof (inv_lists _ _ _ H2 l) as (S2 & N2 & F2 & E2).
  rewrite E1 in E2. injection E2 as Eh El. by eapply seg_unique.
Qed.

(** ** Deciding the invariant *)

Definition page_ok' (s : pmm) (L : plist → list Z) (B : list Z) (n : Z) (e : MMPFDBE) : Prop :=
  frame n ∧ is_Some (Mem s !! n) ∧ 0 ≤ RefCount e ∧
  (n ∈ L LFree ↔ Type_ e = PF_TYPE_FREE) ∧ (n ∈ L LStandby ↔ Type_ e = PF_TYPE_TRANSITION) ∧
  ((n ∈ L LZero ∨ n ∈ B) ↔ Type_ e = PF_TYPE_ZEROED) ∧
  (n ∈ L LModified ↔ Type_ e = PF_TYPE_USED ∧ RefCount e = 0 ∧ IsInModifiedPageList e = true) ∧
  (n ∈ L LStandby ∨ n ∈ L LModified → PrototypePte e ≠ 0 ∧ RefCount e = 0) ∧
  (PrototypePte e ≠ 0 → is_Some (Slots s !! PFDBE_PrototypePte e)) ∧
  (n ∈ L LZero → Mem s !! n = Some zeros).

#[export] Instance frame_dec n : Decision (frame n).
Proof. unfold frame. apply _. Defined.

#[export] Instance seg_dec d p ns q : Decision (seg d p ns q).
Proof. revert p. induction ns as [|n ns IH]; intros p; cbn; apply _. Defined.

Definition pm_inv' (s : pmm) (L : plist → list Z) (B : list Z) : Prop :=
  Forall (λ l, seg (Pfdb s) PFN_INVALID (L l) PFN_INVALID ∧ NoDup (L l) ∧ Forall frame (L l) ∧
               Ends s l = (hd_or PFN_INVALID (L l), last_or PFN_INVALID (L l)))
    [LZero; LFree; LStandby; LModified] ∧
  NoDup (L LZero ++ B) ∧ Forall (λ n, is_Some (Pfdb s !! n)) B ∧
  map_Forall (page_ok' s L B) (Pfdb s).

#[export] Instance page_ok'_dec s L B n e : Decision (page_ok' s L B n e).
Proof. unfold page_ok'. apply _. Defined.

#[export] Instance pm_inv'_dec s L B : Decision (pm_inv' s L B).
Proof. unfold pm_inv'. apply _. Defined.

Lemma pm_inv_check s L B : bool_decide (pm_inv' s L B) = true → pm_inv s L B.
Proof.
  intros H. apply bool_decide_eq_true in H as (Hl & Hz & HB & Hp). split.
  - intros l. rewrite Forall_forall in Hl. destruct (Hl l) as (H1 & H2 & H3 & H4);
      [destruct l; set_solver|]. split; [done|]. split; [done|]. split; [|done].
    by apply Forall_forall.
  - done.
  - intros n Hn. rewrite Forall_forall in HB. by apply HB.
  - intros n e He. destruct (Hp n e He) as (? & ? & ? & ? & ? & ? & ? & ? & ? & ?). by split.
Qed.

(** ** Properties *)

(** C17: [MiInitPMM] puts every frame of the free regions on the free list, in
    the order of the memory map, moves the first 200 of them, cleared, to the
    zero list, marks the frames of reclaimable regions as such, counts the free
    frames, and so establishes the invariant of the database. *)
Theorem MiInitPMM_correct rs s0 :
  (∀ r, r ∈ rs → region_is_usable r = true → good_region r) →
  NoDup (usable_frames rs) →
  (∀ m, is_Some (Pfdb s0 !! m) ↔ m ∈ usable_frames rs) →
  (∀ m, m ∈ usable_frames rs → is_Some (Mem s0 !! m)) →
  (∀ l, Ends s0 l = (PFN_INVALID, PFN_INVALID)) →
  ∃ s' L, MiInitPMM rs s0 = Ok s' ∧ pm_inv s' L [] ∧ MmTotalFreePages s' = available L [] ∧
    L LZero = take 200 (free_frames rs) ∧ L LFree = drop 200 (free_frames rs) ∧
    L LStandby = [] ∧ L LModified = [].
Proof. apply MiInitPMM_spec. Qed.

(** [MmFreePhysicalPage] drops one reference.  With the last one the page
    goes to the end of the free list, or if it belongs to the page cache, of
    the modified list (when it was written to) or of the standby list; the
    counter of free pages follows and nothing else changes. *)
Theorem MmFreePhysicalPage_correct s L B n e :
  pm_inv s L B → Pfdb s !! n = Some e → 0 < RefCount e →
  Type_ e = PF_TYPE_USED ∨ Type_ e = PF_TYPE_RECLAIM ∧ PrototypePte e = 0 →
  ∃ s', MmFreePhysicalPage n s = Ok s' ∧ Mem s' = Mem s ∧ Slots s' = Slots s ∧
    if RefCount e =? 1 then
      pm_inv s' (<[free_list_of e := L (free_list_of e) ++ [n]]> L) B ∧
      MmTotalFreePages s' = (if decide (free_list_of e = LModified) then MmTotalFreePages s
                             else u64 (MmTotalFreePages s + 1))
    else pm_inv s' L B ∧ MmTotalFreePages s' = MmTotalFreePages s ∧
         Pfdb s' = <[n := set_RefCount (RefCount e - 1) e]> (Pfdb s).
Proof. apply MmFreePhysicalPage_spec. Qed.

(** C16: any sequence of operations that their callers may ask for, with the two
    halves of page clearing and of page writing interleaved with everything
    else, in which no standby page is brought back by a reference
    ([MmPageAddReference_standby] is what such a reference does to the counter),
    keeps the invariant of the database and an exact count of free pages; and no
    operation that may come next, such a reference included, fails an assertion
    or faults. *)
Theorem pmm_runs_safe os s0 L0 B0 s B :
  pm_inv s0 L0 B0 → MmTotalFreePages s0 = available L0 B0 → pmm_runs os s0 B0 s B →
  (∃ L, pm_inv s L B ∧ MmTotalFreePages s = available L B) ∧
  ∀ o, pmm_allowed o s B → ∃ s' B', pmm_run o s B = Ok (s', B').
Proof.
  intros Hinv Hc Hruns. destruct (pmm_runs_inv _ _ _ _ _ Hruns L0 Hinv Hc) as (L & Hinv' & Hc').
  split; [by exists L|]. intros o Ho.
  destruct (pmm_run_spec o s L B Hinv' Ho) as (s' & L' & B' & Hr & _). by exists s', B'.
Qed.

(** Taking a reference to a standby page removes it from the standby list
    and leaves it in use with one reference, but the counter of free pages
    still counts it. *)
Theorem MmPageAddReference_standby s L B n e :
  pm_inv s L B → Pfdb s !! n = Some e → Type_ e = PF_TYPE_TRANSITION →
  MmTotalFreePages s = available L B →
  ∃ s' L' e', MmPageAddReference n s = Ok s' ∧ pm_inv s' L' B ∧ Pfdb s' !! n = Some e' ∧
    Type_ e' = PF_TYPE_USED ∧ RefCount e' = 1 ∧ (∀ l, n ∉ L' l) ∧
    MmTotalFreePages s' = available L' B + 1.
Proof.
  intros Hinv He Ht Hc. pose proof (inv_page _ _ _ Hinv n e He) as Hok.
  assert (n ∈ L LStandby) as Hn by by apply (po_standby _ _ _ _ _ Hok).
  destruct (MmPageAddReference_spec s L B n e Hinv He) as
    (s' & L' & Hr & Hinv' & (e' & He' & Ht' & Hr' & _) & Hno & Hsame & _); [by right; left|].
  destruct (po_cached _ _ _ _ _ Hok) as [_ H0]; [by left|].
  exists s', L', e'. split; [done|]. split; [done|]. split; [done|]. split; [done|].
  split; [lia|]. split; [done|].
  destruct (pmm_run_spec (OpReference n) s L B Hinv) as (s2 & L2 & B2 & Hrun & Hinv2 & Hc2).
  { right. exists e. auto. }
  cbn in Hrun. rewrite Hr in Hrun. injection Hrun as <- <-. cbn in Hc2. rewrite He in Hc2.
  rewrite bool_decide_true in Hc2 by done. rewrite Hc2 by done. f_equal.
  unfold available. by rewrite !(pm_inv_unique _ _ _ _ _ _ Hinv2 Hinv').
Qed.

(** A page that is written to while the modified page writer flushes it, and
    whose last user goes away before the flush ends, is made a clean standby
    page: the modification is not kept for another flush. *)
Theorem writer_loses_modification s L B n e :
  pm_inv s L B → Pfdb s !! n = Some e → writer_has e → RefCount e = 1 → Modified e = true →
  ∃ s' e', mpw_done n true s = Ok s' ∧ Pfdb s' !! n = Some e' ∧
    Type_ e' = PF_TYPE_TRANSITION ∧ Modified e' = false ∧ Mem s' !! n = Mem s !! n ∧
    pm_inv s' (<[LStandby := L LStandby ++ [n]]> L) B.
Proof.
  intros Hinv He Hw Hr _.
  destruct (mpw_done_spec s L B n true e Hinv He Hw)
    as (s' & L' & Hd & Hinv' & _ & Hmod & Hmem & _ & HL').
  destruct (Hmod Hr eq_refl) as (e' & He' & Hm'). rewrite Hr in HL'. cbn in HL'. subst L'.
  exists s', e'. split; [done|]. split; [done|]. rewrite Hmem. split_and!; try done.
  apply (po_standby _ _ _ _ _ (inv_page _ _ _ Hinv' n e' He')).
  rewrite lookup_insert_lists, decide_True by done. set_solver.
Qed.

(** Trying to take [PageCount] frames from a free frame on either changes
    nothing, or takes exactly these frames: all of them were free, they leave
    the free list whatever their places in it, and are in use with one
    reference. *)
Theorem MmpTryAllocateContiguousRegion_correct s L B Pfn PageCount Alignment :
  pm_inv s L B → Pfn ∈ L LFree → 1 ≤ PageCount →
  (∀ m, in_region Pfn (Z.to_nat PageCount) m → is_Some (Pfdb s !! m)) →
  ∃ taken s', MmpTryAllocateContiguousRegion Pfn PageCount Alignment s = Ok (taken, s') ∧
    (taken = true ↔ Z.land (MmPFNToPhysPage Pfn) Alignment = 0 ∧
                    ∀ m, in_region Pfn (Z.to_nat PageCount) m → m ∈ L LFree) ∧
    if taken then
      pm_inv s' (<[LFree := filter (λ m, ¬ in_region Pfn (Z.to_nat PageCount) m) (L LFree)]> L) B ∧
      (∀ m, in_region Pfn (Z.to_nat PageCount) m →
         ∃ e, Pfdb s' !! m = Some e ∧ Type_ e = PF_TYPE_USED ∧ RefCount e = 1) ∧
      (∀ m, ¬ in_region Pfn (Z.to_nat PageCount) m →
         body <$> Pfdb s' !! m = body <$> Pfdb s !! m)
    else s' = s.
Proof.
  intros Hinv Hn Hc Hdom. unfold MmpTryAllocateContiguousRegion.
  destruct (Z.eqb_spec (Z.land (MmPFNToPhysPage Pfn) Alignment) 0) as [Hal|Hal]; cbn.
  2: { exists false, s. split; [done|]. split; [|done]. split; [done|]. by intros [? _]. }
  destruct (pm_inv_in _ _ _ _ _ Hinv Hn) as (e & He & Hok).
  unfold MmpIsFree at 1, MmGetPageFrameFromPFN at 1. rewrite He. cbn.
  rewrite bool_decide_true by by apply (po_free _ _ _ _ _ Hok). cbn.
  destruct (po_frame _ _ _ _ _ Hok) as [H0 Hf]. unfold MM_PFN_OUTOFMEMORY in Hf.
  rewrite wrap_small by lia.
  destruct (all_free_spec (Z.to_nat (PageCount - 1)) (Pfn + 1) s L B Hinv) as (b & -> & Hb).
  { intros m Hm. apply Hdom. unfold in_region in *. lia. }
  assert (b = true ↔ ∀ m, in_region Pfn (Z.to_nat PageCount) m → m ∈ L LFree) as Hb'.
  { rewrite Hb. split; intros H m Hm.
    - destruct (decide (m = Pfn)) as [->|]; [done|]. apply H. unfold in_region in *. lia.
    - apply H. unfold in_region in *. lia. }
  cbn. destruct b.
  - destruct (take_region_spec (Z.to_nat PageCount) Pfn s L B Hinv) as
      (s' & -> & Hinv' & Hu & Ho & _); [by apply Hb'|]. cbn.
    exists true, s'. split; [done|]. split; [|done]. rewrite <-Hb'. tauto.
  - exists false, s. split; [done|]. split; [|done]. rewrite <-Hb'. tauto.
Qed.

(** [MmAllocatePhysicalContiguousRegion] never looks at the last frame of a
    list, and when it finds nothing it returns the last frame of the standby
    list without taking it: the caller gets a frame that is still listed as a
    cached page. *)
Theorem MmAllocatePhysicalContiguousRegion_unowned s L B n PageCount Alignment :
  pm_inv s L B → (length (L LFree) ≤ 1)%nat → (length (L LZero) ≤ 1)%nat → L LStandby = [n] →
  MmAllocatePhysicalContiguousRegion PageCount Alignment s = Ok (n, s) ∧
  ∃ e, Pfdb s !! n = Some e ∧ Type_ e = PF_TYPE_TRANSITION ∧ RefCount e = 0.
Proof.
  intros Hinv Hf Hz Hs.
  assert (∀ l fuel, (length (L l) ≤ 1)%nat →
    contiguous_loop (S fuel) l (First l s) PageCount Alignment s = Ok (None, s)) as Hloop.
  { intros l fuel Hl. cbn. rewrite (First_list _ _ _ _ Hinv), (Last_list _ _ _ _ Hinv).
    destruct (L l) as [|x [|]]; cbn in Hl; [|by rewrite Z.eqb_refl|lia]. by rewrite Z.eqb_refl. }
  unfold MmAllocatePhysicalContiguousRegion. rewrite Hloop by done. cbn [mbind outcome_bind].
  rewrite Hloop by done. cbn [mbind outcome_bind]. rewrite Hloop by (rewrite Hs; cbn; lia).
  cbn [mbind outcome_bind]. rewrite (Last_list _ _ _ _ Hinv), Hs. split; [done|].
  assert (n ∈ L LStandby) as Hn by (rewrite Hs; left).
  destruct (pm_inv_in _ _ _ _ _ Hinv Hn) as (e & He & Hok). exists e. split; [done|].
  split; [by apply (po_standby _ _ _ _ _ Hok)|]. apply (po_cached _ _ _ _ _ Hok). by left.
Qed.

(** ** A small machine *)

Lemma list_in_dom_map {A} (x : A) (ns : list Z) n :
  is_Some ((list_to_map ((λ n, (n, x)) <$> ns) : gmap Z A) !! n) ↔ n ∈ ns.
Proof.
  induction ns as [|m ns IH]; cbn.
  - rewrite lookup_empty, elem_of_nil. split; [by intros [? ?]|done].
  - rewrite elem_of_cons, <-IH. destruct (decide (n = m)) as [->|Hne].
    + rewrite lookup_insert_eq. split; [by left|by eexists].
    + rewrite lookup_insert_ne by done. tauto.
Qed.

(** Frames 1 to 3 are free memory, frame 5 holds a loaded program. *)
Definition small_map : list MEMORY_REGION :=
  [mkRegion LOADER_MEM_FREE 4096 12288; mkRegion LOADER_MEM_RESERVED 16384 4096;
   mkRegion LOADER_MEM_LOADED_PROGRAM 20480 4096].
Definition small_boot : pmm :=
  mkPmm (list_to_map ((λ n, (n, blank)) <$> [1; 2; 3; 5])) (λ _, (PFN_INVALID, PFN_INVALID)) 0
    (list_to_map ((λ n, (n, [7])) <$> [1; 2; 3; 5])) ∅.

Definition used_page (refs proto : Z) (modified : bool) : MMPFDBE :=
  mkPfdbe PF_TYPE_USED modified false (negb (proto =? 0)) 0 0 0 refs proto 0 0.

(** Frames 6 and 5 are free; 2 is in use by the page writer only, and was written
    to; 3 is a standby page, 4 is in use and part of the page cache. *)
Definition small_state : pmm :=
  mkPmm (list_to_map
    [(6, mkPfdbe PF_TYPE_FREE false false false 0 5 PFN_INVALID 0 0 0 0);
     (5, mkPfdbe PF_TYPE_FREE false false false 0 PFN_INVALID 6 0 0 0 0);
     (2, used_page 1 64 true);
     (3, mkPfdbe PF_TYPE_TRANSITION false false true 0 PFN_INVALID PFN_INVALID 0 72 0 0);
     (4, used_page 1 80 false)])
    (λ l, match l with
          | LFree => (6, 5) | LStandby => (3, 3) | _ => (PFN_INVALID, PFN_INVALID)
          end)
    3 (list_to_map ((λ n, (n, [7])) <$> [2; 3; 4; 5; 6]))
    (list_to_map ((λ a, (Z.lor 0xFFFF000000000000 a, 0)) <$> [64; 72; 80])).

Definition small_lists (l : plist) : list Z :=
  match l with LFree => [6; 5] | LStandby => [3] | _ => [] end.

Lemma small_inv : pm_inv small_state small_lists [].
Proof. apply pm_inv_check. vm_compute. reflexivity. Qed.

Lemma MmAllocatePhysicalPage_correct_witness :
  ∃ s' e L', MmAllocatePhysicalPage small_state = Ok (6, s') ∧ pm_inv s' L' [] ∧
    L' LZero ++ L' LFree ++ L' LStandby = [5; 3] ∧ L' LModified = [] ∧
    Pfdb small_state !! 6 = Some e ∧ allocated 6 e small_state s' ∧ Mem s' !! 6 = Some zeros.
Proof. exact (MmAllocatePhysicalPage_correct small_state small_lists [] small_inv). Defined.

Lemma MmFreePhysicalPage_correct_witness :
  ∃ s', MmFreePhysicalPage 4 small_state = Ok s' ∧ Mem s' = Mem small_state ∧
    Slots s' = Slots small_state ∧
    pm_inv s' (<[LStandby := [3] ++ [4]]> small_lists) [] ∧
    MmTotalFreePages s' = u64 (3 + 1).
Proof.
  exact (MmFreePhysicalPage_correct small_state small_lists [] 4 (used_page 1 80 false)
    small_inv eq_refl eq_refl (or_introl eq_refl)).
Defined.

Lemma pmm_runs_safe_witness :
  ∃ s' B', pmm_run OpAllocate small_state [] = Ok (s', B').
Proof.
  apply (pmm_runs_safe [] small_state small_lists [] small_state [] small_inv); [done| |done].
  constructor.
Defined.

Lemma MmPageAddReference_standby_witness :
  ∃ s' L' e', MmPageAddReference 3 small_state = Ok s' ∧ pm_inv s' L' [] ∧
    Pfdb s' !! 3 = Some e' ∧ Type_ e' = PF_TYPE_USED ∧ RefCount e' = 1 ∧ (∀ l, 3 ∉ L' l) ∧
    MmTotalFreePages s' = available L' [] + 1.
Proof.
  exact (MmPageAddReference_standby small_state small_lists [] 3 _ small_inv eq_refl eq_refl eq_refl).
Defined.

Lemma writer_loses_modification_witness :
  ∃ s' e', mpw_done 2 true small_state = Ok s' ∧ Pfdb s' !! 2 = Some e' ∧
    Type_ e' = PF_TYPE_TRANSITION ∧ Modified e' = false ∧ Mem s' !! 2 = Mem small_state !! 2 ∧
    pm_inv s' (<[LStandby := [3] ++ [2]]> small_lists) [].
Proof.
  apply (writer_loses_modification small_state small_lists [] 2 (used_page 1 64 true) small_inv);
    try reflexivity. split_and!; try done.
Defined.

Lemma MmpTryAllocateContiguousRegion_correct_witness :
  ∃ taken s', MmpTryAllocateContiguousRegion 5 2 0 small_state = Ok (taken, s') ∧
    (taken = true ↔ Z.land (MmPFNToPhysPage 5) 0 = 0 ∧ ∀ m, in_region 5 2 m → m ∈ [6; 5]) ∧
    if taken then
      pm_inv s' (<[LFree := filter (λ m, ¬ in_region 5 2 m) [6; 5]]> small_lists) [] ∧
      (∀ m, in_region 5 2 m → ∃ e, Pfdb s' !! m = Some e ∧ Type_ e = PF_TYPE_USED ∧ RefCount e = 1) ∧
      (∀ m, ¬ in_region 5 2 m → body <$> Pfdb s' !! m = body <$> Pfdb small_state !! m)
    else s' = small_state.
Proof.
  apply (MmpTryAllocateContiguousRegion_correct small_state small_lists [] 5 2 0 small_inv);
    [right; left|lia|].
  intros m [Hl Hu]. assert (m = 5 ∨ m = 6) as [->| ->] by (cbn in Hu; lia); by eexists.
Defined.

(** The machine with its free frames in use. *)
Definition tight_state : pmm :=
  mkPmm (<[6 := used_page 1 0 false]> (<[5 := used_page 1 0 false]> (Pfdb small_state)))
    (λ l, match l with LStandby => (3, 3) | _ => (PFN_INVALID, PFN_INVALID) end)
    1 (Mem small_state) (Slots small_state).
Definition tight_lists (l : plist) : list Z := match l with LStandby => [3] | _ => [] end.

Lemma tight_inv : pm_inv tight_state tight_lists [].
Proof. apply pm_inv_check. vm_compute. reflexivity. Qed.

Lemma MmAllocatePhysicalContiguousRegion_unowned_witness :
  MmAllocatePhysicalContiguousRegion 4 0 tight_state = Ok (3, tight_state) ∧
  ∃ e, Pfdb tight_state !! 3 = Some e ∧ Type_ e = PF_TYPE_TRANSITION ∧ RefCount e = 0.
Proof.
  apply (MmAllocatePhysicalContiguousRegion_unowned tight_state tight_lists [] 3 4 0 tight_inv);
    cbn; lia || done.
Defined.

Lemma small_map_good r : r ∈ small_map → region_is_usable r = true → good_region r.
Proof.
  intros Hr Hu. unfold small_map in Hr. rewrite !elem_of_cons in Hr.
  destruct Hr as [->|[->|[->|Hr]]]; [exists 1, 3|done|exists 5, 1|by apply not_elem_of_nil in Hr];
    unfold PAGE_SIZE; cbn; lia.
Qed.

Lemma MiInitPMM_correct_witness :
  ∃ s' L, MiInitPMM small_map small_boot = Ok s' ∧ pm_inv s' L [] ∧
    MmTotalFreePages s' = available L [] ∧
    L LZero = take 200 (free_frames small_map) ∧ L LFree = drop 200 (free_frames small_map) ∧
    L LStandby = [] ∧ L LModified = [].
Proof.
  assert (usable_frames small_map = [1; 2; 3; 5]) as Hu by (vm_compute; reflexivity).
  apply (MiInitPMM_correct small_map small_boot small_map_good).
  - rewrite Hu. apply (bool_decide_unpack _). vm_compute. exact I.
  - intros m. rewrite Hu. unfold small_boot. cbn [Pfdb]. apply list_in_dom_map.
  - intros m. rewrite Hu. unfold small_boot. cbn [Mem]. apply list_in_dom_map.
  - done.
Defined.
