(* ===== verification/Pages.v ===== *)
(** What the rest of the memory manager relies on when it takes pages for its
    own use: [PageFrames] is the interface, with the laws that a client's
    proofs use, and the physical memory manager of [Pmm] implements it.  Pages
    are read and written as bytes and as little-endian words. *)
From S2P Require Import Prelude Pmm.
Local Open Scope Z_scope.

(** ** The interface *)

Class PageFrames (S : Type) := {
  (** [MmAllocatePhysicalPage] *)
  pf_alloc : S → outcome (Z * S);
  (** [MmFreePhysicalPage] *)
  pf_free : Z → S → outcome S;
  (** [MmPageAddReference] *)
  pf_reference : Z → S → outcome S;
  (** What is in the pages, as seen through the higher half direct map. *)
  pf_mem : S → gmap Z (list Z);
  (** Stores a whole page. *)
  pf_store : Z → list Z → S → S;
}.

(** [pf_refs s n] is the number of references to the frame [n], where it is in
    use by a client of the interface. *)
Class PageFrameLaws (S : Type) `{PageFrames S} := {
  pf_ok : S → Prop;
  pf_refs : S → Z → option Z;
  pf_refs_frame s n r : pf_ok s → pf_refs s n = Some r → frame n ∧ 0 < r;
  pf_alloc_spec s : pf_ok s →
    pf_alloc s = Ok (PFN_INVALID, s) ∨
    ∃ n s', pf_alloc s = Ok (n, s') ∧ pf_ok s' ∧ frame n ∧
      pf_refs s n = None ∧ pf_refs s' n = Some 1 ∧ pf_mem s' !! n = Some zeros ∧
      ∀ m, m ≠ n → pf_refs s' m = pf_refs s m ∧ pf_mem s' !! m = pf_mem s !! m;
  pf_alloc_mem s n s' : pf_ok s → pf_alloc s = Ok (n, s') → n ≠ PFN_INVALID → is_Some (pf_mem s !! n);
  (** Every page in use has memory. *)
  pf_used_mem s n r : pf_ok s → pf_refs s n = Some r → is_Some (pf_mem s !! n);
  pf_free_spec s n r : pf_ok s → pf_refs s n = Some r →
    ∃ s', pf_free n s = Ok s' ∧ pf_ok s' ∧ pf_mem s' = pf_mem s ∧
      pf_refs s' n = (if r =? 1 then None else Some (r - 1)) ∧
      ∀ m, m ≠ n → pf_refs s' m = pf_refs s m;
  pf_reference_spec s n r : pf_ok s → pf_refs s n = Some r →
    ∃ s', pf_reference n s = Ok s' ∧ pf_ok s' ∧ pf_mem s' = pf_mem s ∧
      pf_refs s' n = Some (r + 1) ∧ ∀ m, m ≠ n → pf_refs s' m = pf_refs s m;
  pf_store_spec s n r v : pf_ok s → pf_refs s n = Some r → pf_ok (pf_store n v s);
  (** A page that was just freed can still be written to. *)
  pf_store_freed s n s' v : pf_ok s → pf_refs s n = Some 1 → pf_free n s = Ok s' → pf_ok (pf_store n v s');
  pf_store_mem s n v : pf_mem (pf_store n v s) = <[n := v]> (pf_mem s);
  pf_store_refs s n v m : pf_refs (pf_store n v s) m = pf_refs s m;
  (** Freeing no page at all stops the kernel, and freeing any page either
      stops it or leaves the contents of the pages alone. *)
  pf_free_invalid s : pf_free PFN_INVALID s = Crash;
  pf_free_total s n : pf_free n s ≠ OutOfFuel;
  pf_free_mem s n s' : pf_free n s = Ok s' → pf_mem s' = pf_mem s;
}.

(** ** Words in pages *)

Fixpoint little (l : list Z) : Z :=
  match l with [] => 0 | b :: l => b + 256 * little l end.

Fixpoint to_little (w : nat) (v : Z) : list Z :=
  match w with O => [] | S w => v mod 256 :: to_little w (v / 256) end.

(** The [i]-th word of [w] bytes of a page. *)
Definition word (w : nat) (b : list Z) (i : Z) : Z :=
  little (take w (drop (Z.to_nat i * w) b)).

Definition in_page (w : nat) (b : list Z) (i : Z) : bool :=
  (0 <=? i) && (Z.to_nat i * w + w <=? length b)%nat.

Definition ld_word (w : nat) (b : list Z) (i : Z) : outcome Z :=
  _ ← check (in_page w b i); Ok (word w b i).

Definition set_word (w : nat) (b : list Z) (i v : Z) : list Z :=
  list_inserts (Z.to_nat i * w) (to_little w v) b.

Definition st_word (w : nat) (b : list Z) (i v : Z) : outcome (list Z) :=
  _ ← check (in_page w b i); Ok (set_word w b i v).

#[global] Arguments word : simpl never.
#[global] Arguments set_word : simpl never.
#[global] Arguments ld_word : simpl never.
#[global] Arguments st_word : simpl never.

Lemma length_to_little w v : length (to_little w v) = w.
Proof. revert v. induction w as [|w IH]; intros v; cbn; [done|]. by rewrite IH. Qed.

Lemma little_to_little w v : 0 ≤ v < 256 ^ Z.of_nat w → little (to_little w v) = v.
Proof.
  revert v. induction w as [|w IH]; intros v Hv; cbn.
  { change (256 ^ Z.of_nat 0) with 1 in Hv. lia. }
  rewrite Nat2Z.inj_succ, Z.pow_succ_r in Hv by lia.
  rewrite IH; [pose proof (Z.div_mod v 256); lia|]. split; [apply Z.div_pos; lia|]. apply Z.div_lt_upper_bound; lia.
Qed.

Lemma little_ones w : little (replicate w 255) = 256 ^ Z.of_nat w - 1.
Proof.
  induction w as [|w IH]; [done|]. cbn. rewrite IH.
  rewrite Nat2Z.inj_succ, Z.pow_succ_r by lia. lia.
Qed.

Definition byte (x : Z) : Prop := 0 ≤ x < 256.

#[local] Instance byte_dec x : Decision (byte x).
Proof. unfold byte. apply _. Defined.

Lemma little_bound l : Forall byte l → 0 ≤ little l < 256 ^ Z.of_nat (length l).
Proof.
  induction 1 as [|x l [Hx Hx'] _ IH]; [cbn; lia|]. cbn [little length].
  rewrite Nat2Z.inj_succ, Z.pow_succ_r by lia. lia.
Qed.

Lemma length_set_word w b i v : length (set_word w b i v) = length b.
Proof. apply length_inserts. Qed.

Lemma in_page_set_word w w' b i i' v : in_page w (set_word w' b i' v) i = in_page w b i.
Proof. unfold in_page. by rewrite length_set_word. Qed.

Lemma take_drop_eq {A} (l l' : list A) n k m :
  (∀ j, (j < n)%nat → l !! (k + j)%nat = l' !! (m + j)%nat) → take n (drop k l) = take n (drop m l').
Proof.
  intros Hl. apply list_eq. intros j. destruct (decide (j < n)%nat) as [Hj|Hj].
  - by rewrite !lookup_take_lt, !lookup_drop by done; apply Hl.
  - by rewrite !lookup_take_ge by lia.
Qed.

Lemma word_set_same w b i v :
  in_page w b i = true → 0 ≤ v < 256 ^ Z.of_nat w → word w (set_word w b i v) i = v.
Proof.
  unfold in_page, word, set_word. rewrite andb_true_iff, Nat.leb_le. intros [_ Hl] Hv.
  transitivity (little (take w (drop 0 (to_little w v)))).
  - f_equal. apply take_drop_eq. intros j Hj.
    rewrite list_lookup_inserts by (rewrite ?length_to_little; lia). f_equal. lia.
  - rewrite drop_0, firstn_all2 by (by rewrite length_to_little). by apply little_to_little.
Qed.

Lemma word_set_other w b i j v :
  0 ≤ i → 0 ≤ j → i ≠ j → word w (set_word w b i v) j = word w b j.
Proof.
  intros Hi Hj Hij. unfold word, set_word. f_equal. apply take_drop_eq. intros k Hk.
  assert (Z.to_nat i ≠ Z.to_nat j) by lia.
  destruct (decide (Z.to_nat j < Z.to_nat i)%nat).
  - apply list_lookup_inserts_lt. nia.
  - apply list_lookup_inserts_ge. rewrite length_to_little. nia.
Qed.

Lemma word_ones w n i :
  in_page w (replicate n 255) i = true → word w (replicate n 255) i = 256 ^ Z.of_nat w - 1.
Proof.
  unfold in_page, word. rewrite andb_true_iff, Nat.leb_le, length_replicate. intros [_ Hl].
  rewrite drop_replicate, take_replicate, Nat.min_l by lia. apply little_ones.
Qed.

(** The contents of a page. *)
Definition page {S : Type} `{PageFrames S} (Pfn : Z) (s : S) : outcome (list Z) := deref (pf_mem s !! Pfn).

(** ** The physical memory manager implements it *)

(** The references to an entry that is neither free nor cached. *)
Definition entry_refs (e : MMPFDBE) : option Z :=
  if bool_decide (Type_ e = PF_TYPE_USED) && (0 <? RefCount e) && (PrototypePte e =? 0)
  then Some (RefCount e) else None.

#[export] Instance pmm_frames : PageFrames pmm := {
  pf_alloc := MmAllocatePhysicalPage;
  pf_free := MmFreePhysicalPage;
  pf_reference := MmPageAddReference;
  pf_mem := Mem;
  pf_store n v s := set_Mem (<[n := v]> (Mem s)) s;
}.

Definition pmm_refs (s : pmm) (n : Z) : option Z := Pfdb s !! n ≫= entry_refs.

Lemma entry_refs_Some e r :
  entry_refs e = Some r ↔ Type_ e = PF_TYPE_USED ∧ 0 < RefCount e ∧ PrototypePte e = 0 ∧ r = RefCount e.
Proof.
  unfold entry_refs. case_bool_decide; cbn; [|by split; [|intros (? & _)]].
  destruct (Z.ltb_spec 0 (RefCount e)); cbn; [|split; [done|lia]].
  destruct (Z.eqb_spec (PrototypePte e) 0); cbn; [|by split; [|intros (_ & _ & ? & _)]].
  split; [by intros [= <-]|]. by intros (_ & _ & _ & ->).
Qed.

Lemma entry_refs_body e e' : body e = body e' → entry_refs e = entry_refs e'.
Proof. intros Hb. by rewrite (links_body _ _ Hb). Qed.

Lemma pmm_refs_Some s n r :
  pmm_refs s n = Some r ↔ ∃ e, Pfdb s !! n = Some e ∧
    Type_ e = PF_TYPE_USED ∧ 0 < RefCount e ∧ PrototypePte e = 0 ∧ r = RefCount e.
Proof.
  unfold pmm_refs. rewrite bind_Some. split; intros (e & ? & ?); exists e; (split; [done|]); by apply entry_refs_Some.
Qed.

Lemma pmm_refs_body s s' m : body <$> Pfdb s' !! m = body <$> Pfdb s !! m → pmm_refs s' m = pmm_refs s m.
Proof.
  unfold pmm_refs. intros H. destruct (Pfdb s' !! m), (Pfdb s !! m); try done.
  apply (inj Some) in H. by apply entry_refs_body.
Qed.

Lemma upd_body n f s s' m :
  upd n f s = Ok s' → (∀ e, body (f e) = body e) ∨ m ≠ n → body <$> Pfdb s' !! m = body <$> Pfdb s !! m.
Proof.
  unfold upd, MmGetPageFrameFromPFN. destruct (Pfdb s !! n) as [e|] eqn:He; [|done]. cbn.
  intros [= <-] Hf. cbn. destruct (decide (m = n)) as [->|].
  - destruct Hf as [Hf|]; [|done]. by rewrite lookup_insert_eq, He; cbn; rewrite Hf.
  - by rewrite lookup_insert_ne.
Qed.

Lemma MmpAddPfnToList_body l n s s' m :
  MmpAddPfnToList l n s = Ok s' → body <$> Pfdb s' !! m = body <$> Pfdb s !! m.
Proof.
  unfold MmpAddPfnToList. intros ([] & _ & H)%bind_Ok. case_match.
  - apply (upd_body _ _ _ _ m) in H; [done|by left].
  - apply bind_Ok in H as (s1 & H1 & (s2 & H2 & [= <-])%bind_Ok).
    apply (upd_body _ _ _ _ m) in H1; [|by left]. apply (upd_body _ _ _ _ m) in H2; [|by left].
    cbn. by rewrite H2, H1.
Qed.

(** Freeing a frame touches the bodies of no other. *)
Lemma MmFreePhysicalPage_body n s s' m :
  MmFreePhysicalPage n s = Ok s' → m ≠ n → body <$> Pfdb s' !! m = body <$> Pfdb s !! m.
Proof.
  unfold MmFreePhysicalPage. intros H Hm.
  apply bind_Ok in H as (? & _ & (e & _ & (? & _ & (s1 & H1 & (? & _ & H)%bind_Ok)%bind_Ok)%bind_Ok)%bind_Ok).
  apply (upd_body _ _ _ _ m) in H1; [|by right]. rewrite <-H1. clear H1.
  case_match; [|by injection H as <-].
  apply bind_Ok in H as (? & _ & (s2 & H2 & H)%bind_Ok).
  apply (upd_body _ _ _ _ m) in H2; [|by right]. rewrite <-H2. clear H2.
  repeat case_match; apply bind_Ok in H as (s3 & H3 & H); apply (MmpAddPfnToList_body _ _ _ _ m) in H3;
    rewrite <-H3; clear H3.
  2,3: apply bind_Ok in H as (s4 & H & [= <-]).
  all: apply (upd_body _ _ _ _ m) in H; [done|by right].
Qed.

Lemma upd_total n f s : upd n f s ≠ OutOfFuel.
Proof. unfold upd, MmGetPageFrameFromPFN. by destruct (Pfdb s !! n). Qed.

Lemma check_total b : check b ≠ OutOfFuel.
Proof. by destruct b. Qed.

Lemma MmpAddPfnToList_total l n s : MmpAddPfnToList l n s ≠ OutOfFuel.
Proof.
  unfold MmpAddPfnToList. apply bind_not_fuel; [apply check_total|]. intros _ _.
  case_match; [apply upd_total|].
  apply bind_not_fuel; [apply upd_total|]. intros s1 _.
  apply bind_not_fuel; [apply upd_total|done].
Qed.

Lemma MmFreePhysicalPage_total n s : MmFreePhysicalPage n s ≠ OutOfFuel.
Proof.
  unfold MmFreePhysicalPage, MmGetPageFrameFromPFN.
  repeat first [apply check_total | apply upd_total | apply MmpAddPfnToList_total | done
               | apply bind_not_fuel; [|intros ? _] | case_match | by destruct (Pfdb s !! n)].
Qed.

Lemma upd_mem n f s s' : upd n f s = Ok s' → Mem s' = Mem s.
Proof. unfold upd, MmGetPageFrameFromPFN. by destruct (Pfdb s !! n); [intros [= <-]|]. Qed.

Lemma MmpAddPfnToList_mem l n s s' : MmpAddPfnToList l n s = Ok s' → Mem s' = Mem s.
Proof.
  unfold MmpAddPfnToList. intros ([] & _ & H)%bind_Ok. case_match; [by apply upd_mem in H|].
  apply bind_Ok in H as (s1 & H1%upd_mem & (s2 & H2%upd_mem & [= <-])%bind_Ok). cbn. congruence.
Qed.

Lemma MmFreePhysicalPage_mem n s s' : MmFreePhysicalPage n s = Ok s' → Mem s' = Mem s.
Proof.
  unfold MmFreePhysicalPage. intros H.
  apply bind_Ok in H as (? & _ & (e & _ & (? & _ & (s1 & H1%upd_mem & (? & _ & H)%bind_Ok)%bind_Ok)%bind_Ok)%bind_Ok).
  case_match; [|by injection H as <-].
  apply bind_Ok in H as (? & _ & (s2 & H2%upd_mem & H)%bind_Ok).
  repeat case_match; apply bind_Ok in H as (s3 & HA%MmpAddPfnToList_mem & H).
  2,3: apply bind_Ok in H as (s4 & H & [= <-]).
  all: apply upd_mem in H; cbn; congruence.
Qed.

Definition pmm_ok (s : pmm) : Prop := ∃ L B, pm_inv s L B.

Lemma pmm_refs_listed s L B n l : pm_inv s L B → n ∈ L l → pmm_refs s n = None.
Proof.
  intros Hinv Hn. destruct (pmm_refs s n) as [r|] eqn:Hr; [|done]. exfalso.
  apply pmm_refs_Some in Hr as (e & He & Ht & Hr & _ & _).
  destruct (not_listed s L B n e Hinv He) as [Hno _]; [left; split; [done|left; lia]|]. by apply (Hno l).
Qed.

Lemma pmm_alloc_spec s : pmm_ok s →
  MmAllocatePhysicalPage s = Ok (PFN_INVALID, s) ∨
  ∃ n s', MmAllocatePhysicalPage s = Ok (n, s') ∧ pmm_ok s' ∧ frame n ∧
    pmm_refs s n = None ∧ pmm_refs s' n = Some 1 ∧ Mem s' !! n = Some zeros ∧
    ∀ m, m ≠ n → pmm_refs s' m = pmm_refs s m ∧ Mem s' !! m = Mem s !! m.
Proof.
  intros (L & B & Hinv). pose proof (MmAllocatePhysicalPage_spec s L B Hinv) as HA.
  destruct (L LZero ++ L LFree ++ L LStandby) as [|n rest] eqn:HL; [by left|]. right.
  destruct HA as (s' & e & L' & HA & Hinv' & _ & _ & He & ((e' & He' & Ht & Hr & Hp) & _ & Hm & _ & Hb) & Hz).
  assert (∃ l, n ∈ L l) as [l Hl].
  { assert (n ∈ L LZero ++ L LFree ++ L LStandby) as Hin by (rewrite HL; left).
    rewrite !elem_of_app in Hin. destruct Hin as [|[|]]; eauto. }
  exists n, s'. split; [done|]. split; [by exists L', B|].
  split; [exact (frame_in _ _ _ _ _ Hinv Hl)|]. split; [exact (pmm_refs_listed _ _ _ _ _ Hinv Hl)|].
  split; [apply pmm_refs_Some; exists e'; rewrite Hr; split_and!; try done; lia|]. split; [done|].
  intros m Hne. split; [apply pmm_refs_body|]; auto.
Qed.

Lemma pmm_alloc_mem s n s' : pmm_ok s → MmAllocatePhysicalPage s = Ok (n, s') → n ≠ PFN_INVALID → is_Some (Mem s !! n).
Proof.
  intros (L & B & Hinv) HF Hn. pose proof (MmAllocatePhysicalPage_spec s L B Hinv) as HA.
  destruct (L LZero ++ L LFree ++ L LStandby) as [|m rest] eqn:HL; [congruence|].
  destruct HA as (s1 & _ & _ & HA & _). rewrite HF in HA. injection HA as -> ->.
  assert (m ∈ L LZero ++ L LFree ++ L LStandby) as Hin by (rewrite HL; left).
  assert (∃ l, m ∈ L l) as [l Hl] by (rewrite !elem_of_app in Hin; destruct Hin as [|[|]]; eauto).
  destruct (pm_inv_in _ _ _ _ _ Hinv Hl) as (e & _ & Hok). apply (po_mem _ _ _ _ _ Hok).
Qed.

Lemma pmm_used_mem s n r : pmm_ok s → pmm_refs s n = Some r → is_Some (Mem s !! n).
Proof. intros (L & B & Hinv) (e & He & _)%pmm_refs_Some. apply (po_mem _ _ _ _ _ (inv_page _ _ _ Hinv n e He)). Qed.

Lemma pmm_free_spec s n r : pmm_ok s → pmm_refs s n = Some r →
  ∃ s', MmFreePhysicalPage n s = Ok s' ∧ pmm_ok s' ∧ Mem s' = Mem s ∧
    pmm_refs s' n = (if r =? 1 then None else Some (r - 1)) ∧
    ∀ m, m ≠ n → pmm_refs s' m = pmm_refs s m.
Proof.
  intros (L & B & Hinv) (e & He & Ht & Hr & Hp & ->)%pmm_refs_Some.
  destruct (MmFreePhysicalPage_spec s L B n e Hinv He Hr (or_introl Ht)) as (s' & HF & HM & _ & H).
  exists s'. split; [done|].
  assert (∀ m, m ≠ n → pmm_refs s' m = pmm_refs s m) as Hf.
  { intros m Hm. by apply pmm_refs_body, (MmFreePhysicalPage_body n). }
  destruct (Z.eqb_spec (RefCount e) 1) as [H1|H1].
  - destruct H as [Hinv' _]. split; [by eexists _, _|]. split; [done|]. split; [|done].
    eapply (pmm_refs_listed _ _ _ _ (free_list_of e) Hinv'). rewrite lookup_insert_lists, decide_True by done.
    apply elem_of_app. right. by apply list_elem_of_singleton.
  - destruct H as (Hinv' & _ & Hd). split; [by exists L, B|]. split; [done|]. split; [|done].
    apply pmm_refs_Some. rewrite Hd, lookup_insert_eq. eexists. split; [done|]. cbn. split_and!; try done; lia.
Qed.

Lemma pmm_reference_spec s n r : pmm_ok s → pmm_refs s n = Some r →
  ∃ s', MmPageAddReference n s = Ok s' ∧ pmm_ok s' ∧ Mem s' = Mem s ∧
    pmm_refs s' n = Some (r + 1) ∧ ∀ m, m ≠ n → pmm_refs s' m = pmm_refs s m.
Proof.
  intros (L & B & Hinv) (e & He & Ht & Hr & Hp & ->)%pmm_refs_Some.
  destruct (MmPageAddReference_spec s L B n e Hinv He (or_introl (conj Ht Hr)))
    as (s' & L' & HA & Hinv' & (e' & He' & Ht' & Hr' & Hp') & _ & _ & _ & HM & _).
  exists s'. split; [done|]. split; [by exists L', B|]. split; [done|]. split.
  - apply pmm_refs_Some. exists e'. split_and!; try done; [lia|congruence].
  - intros m Hm. unfold MmPageAddReference, MiPageAddReferenceWithPfdbLocked, MmGetPageFrameFromPFN in HA.
    apply bind_Ok in HA as (? & _ & (? & _ & HA)%bind_Ok). rewrite He in HA. cbn in HA.
    rewrite (upd_Ok _ _ _ e) in HA by done. cbn in HA.
    rewrite (proj2 (Z.leb_gt _ _)) in HA by lia. injection HA as <-.
    apply pmm_refs_body. cbn. by rewrite lookup_insert_ne.
Qed.

(** What is in a page that is not among the zeroed ones does not matter. *)
Lemma store_unzeroed s L B n e v : pm_inv s L B → Pfdb s !! n = Some e → n ∉ L LZero →
  pm_inv (set_Mem (<[n := v]> (Mem s)) s) L B.
Proof.
  intros Hinv He Hn. eapply (pm_inv_step s L B _ L B n e); try done.
  - intros l. by eapply (is_list_agree s); [| |apply (inv_lists _ _ _ Hinv)].
  - by apply (inv_zeroing _ _ _ Hinv).
  - intros m Hm. cbn. by rewrite lookup_insert_ne.
  - destruct (inv_page _ _ _ Hinv n e He). split; try done; cbn; by rewrite lookup_insert_eq.
Qed.

Lemma pmm_store_ok s n r v : pmm_ok s → pmm_refs s n = Some r → pmm_ok (set_Mem (<[n := v]> (Mem s)) s).
Proof.
  intros (L & B & Hinv) Hr. exists L, B. pose proof (pmm_refs_listed s L B n LZero Hinv) as Hno.
  pose proof Hr as (e & He & _)%pmm_refs_Some. apply store_unzeroed with e; [done|done|]. intros Hn. specialize (Hno Hn). congruence.
Qed.

Lemma pmm_store_freed s n s' v : pmm_ok s → pmm_refs s n = Some 1 → MmFreePhysicalPage n s = Ok s' →
  pmm_ok (set_Mem (<[n := v]> (Mem s')) s').
Proof.
  intros (L & B & Hinv) (e & He & Ht & Hr & Hp & H1)%pmm_refs_Some HF.
  destruct (MmFreePhysicalPage_spec s L B n e Hinv He Hr (or_introl Ht)) as (s1 & HF1 & _ & _ & H).
  rewrite HF in HF1. injection HF1 as <-. rewrite <-H1 in H. cbn [Z.eqb Pos.eqb] in H. destruct H as [Hinv' _].
  set (L' := <[free_list_of e := L (free_list_of e) ++ [n]]> L) in *.
  assert (n ∈ L' (free_list_of e)) as Hin.
  { unfold L'. rewrite lookup_insert_lists, decide_True by done. apply elem_of_app. right. by apply list_elem_of_singleton. }
  destruct (pm_inv_in _ _ _ _ _ Hinv' Hin) as (e' & He' & _). exists L', B. apply store_unzeroed with e'; [done|done|].
  intros Hz. pose proof (pm_inv_disjoint _ _ _ _ _ _ Hinv' Hin Hz) as E. unfold free_list_of in E. by repeat case_match.
Qed.

Lemma pmm_refs_frame s n r : pmm_ok s → pmm_refs s n = Some r → frame n ∧ 0 < r.
Proof.
  intros (L & B & Hinv) (e & He & _ & Hr & _ & ->)%pmm_refs_Some.
  split; [|done]. by destruct (inv_page _ _ _ Hinv n e He).
Qed.

#[export] Instance pmm_frame_laws : PageFrameLaws pmm := {
  pf_ok := pmm_ok;
  pf_refs := pmm_refs;
  pf_refs_frame := pmm_refs_frame;
  pf_alloc_spec := pmm_alloc_spec;
  pf_used_mem := pmm_used_mem;
  pf_free_spec := pmm_free_spec;
  pf_reference_spec := pmm_reference_spec;
  pf_alloc_mem := pmm_alloc_mem;
  pf_store_spec := pmm_store_ok;
  pf_store_freed := pmm_store_freed;
  pf_store_mem s n v := eq_refl;
  pf_store_refs s n v m := eq_refl;
  pf_free_invalid s := eq_refl;
  pf_free_total s n := MmFreePhysicalPage_total n s;
  pf_free_mem s n s' := MmFreePhysicalPage_mem n s s';
}.
