(* ===== verification/Sla.v ===== *)
(** The sparse linear arrays of [boron/source/mm/sla.c] (64-bit), which map page
    offsets of a file, section or overlay to entries, and the section objects
    of [boron/source/mm/section.c] that keep their pages in one.

    The pages that an array takes for its levels of indirection come from the
    interface [PageFrames]; their contents are bytes, read and written as
    little-endian words of four bytes (page frame numbers) or eight (entries). *)
From S2P Require Import Prelude Pmm Pages.
Local Open Scope Z_scope.

(** ** The arrays *)

(** [MM_SLA_DIRECT_ENTRY_COUNT] : boron/include/mm/sla.h:56-56. *)
Definition MM_SLA_DIRECT_ENTRY_COUNT : Z := 64.
(** [MM_SLA_INDIRECT_LEVELS] : boron/include/mm/sla.h:57-57. *)
Definition MM_SLA_INDIRECT_LEVELS : nat := 4.
(** [MM_SLA_OUT_OF_MEMORY] : boron/include/mm/sla.h:60-60. *)
Definition MM_SLA_OUT_OF_MEMORY : Z := 2 ^ 64 - 2.
(** [SLA_ENTRIES_PER_PAGE] : boron/source/mm/sla.c:20-20. *)
Definition SLA_ENTRIES_PER_PAGE : Z := PAGE_SIZE / 8.
(** [PFN_ENTRIES_PER_PAGE] : boron/source/mm/sla.c:21-21. *)
Definition PFN_ENTRIES_PER_PAGE : Z := PAGE_SIZE / 4.

(** [MMSLA] : boron/include/mm/sla.h:64-69. *)
Record MMSLA := mkSla { Direct : list Z; Indirect : list Z }.

Definition set_Direct (i v : Z) (sla : MMSLA) : MMSLA :=
  mkSla (<[Z.to_nat i := v]> (Direct sla)) (Indirect sla).
Definition set_Indirect (i : nat) (v : Z) (sla : MMSLA) : MMSLA :=
  mkSla (Direct sla) (<[i := v]> (Indirect sla)).

(** [MmInitializeSla] : boron/source/mm/sla.c:23-30. *)
Definition MmInitializeSla : MMSLA :=
  mkSla (replicate (Z.to_nat MM_SLA_DIRECT_ENTRY_COUNT) MM_SLA_NO_DATA)
        (replicate MM_SLA_INDIRECT_LEVELS PFN_INVALID).

(** Where an entry is: a prototype PTE pointer. *)
Inductive entry_ptr :=
  | InDirect (Index : Z)
  | InPage (Pfn Index : Z).

(** Where the way down the levels ends. *)
Inductive reach :=
  | Reached (Pfn Index : Z)
  | NoData
  | NoMemory.

(** Where an entry belongs: directly, or in the page of a level at the end of a
    path of indices. *)
Inductive place :=
  | PDirect (i : Z)
  | PPage (L : nat) (path : list Z) (k : Z)
  | PNone.

#[export] Instance place_eq_dec : EqDecision place.
Proof. solve_decision. Defined.

Section sla.
Context {S : Type} `{PageFrames S}.

(** [MmpAllocatePhysicalPageSlaInitialized] : boron/source/mm/sla.c:94-105. *)
Definition MmpAllocatePhysicalPageSlaInitialized (s : S) : outcome (Z * S) :=
  '(Pfn, s) ← pf_alloc s;
  if Pfn =? PFN_INVALID then Ok (Pfn, s)
  else
    _ ← page Pfn s;
    Ok (Pfn, pf_store Pfn (replicate (Z.to_nat PAGE_SIZE) 255) s).

(** [MmpLookUpEntrySlaPlusModify] : boron/source/mm/sla.c:183-207.
    The loop down the chain, [n] levels above the last. *)
Fixpoint descend (Modify : bool) (n : nat) (CurrentPfn CurrentIndex : Z) (s : S) : outcome (reach * S) :=
  match n with
  | O => Ok (Reached CurrentPfn CurrentIndex, s)
  | Datatypes.S n =>
      let Index := CurrentIndex mod PFN_ENTRIES_PER_PAGE in
      Entries ← page CurrentPfn s;
      NextPfn ← ld_word 4 Entries Index;
      if negb (NextPfn =? PFN_INVALID) then
        descend Modify n NextPfn (CurrentIndex / PFN_ENTRIES_PER_PAGE) s
      else if negb Modify then Ok (NoData, s)
      else
        '(NextPfn, s) ← MmpAllocatePhysicalPageSlaInitialized s;
        if NextPfn =? PFN_INVALID then Ok (NoMemory, s)
        else
          Entries ← page CurrentPfn s;
          Entries ← st_word 4 Entries Index NextPfn;
          let s := pf_store CurrentPfn Entries s in
          descend Modify n NextPfn (CurrentIndex / PFN_ENTRIES_PER_PAGE) s
  end.

(** [MmpLookUpEntrySlaPlusModify] : boron/source/mm/sla.c:151-161.
    The level of an index past the direct entries and the index at that level:
    [n] levels remain, the first of them being [Level]. *)
Fixpoint find_level (n Level : nat) (CurrentIndex MaxOffset : Z) : option (nat * Z) :=
  match n with
  | O => None
  | Datatypes.S n =>
      if MaxOffset <=? CurrentIndex then
        find_level n (Datatypes.S Level) (u64 (CurrentIndex - MaxOffset)) (u64 (MaxOffset * PFN_ENTRIES_PER_PAGE))
      else Some (Level, CurrentIndex)
  end.

(** [MmpLookUpEntrySlaPlusModify] : boron/source/mm/sla.c:118-240.
    The result, the pointer stored in [*OutPrototypePtePointer], the array and
    the pages.  [NewValue] is [None] for a lookup ([Modify] is false). *)
Definition MmpLookUpEntrySlaPlusModify (Sla : MMSLA) (EntryIndex : Z) (NewValue : option Z)
    (EntryReferenceFunc : option (Z → S → outcome S)) (s : S) : outcome (Z * option entry_ptr * MMSLA * S) :=
  let Modify := bool_decide (is_Some NewValue) in
  let reference (Entry : Z) (s : S) :=
    match EntryReferenceFunc with Some f => f Entry s | None => Ok s end in
  if EntryIndex <? MM_SLA_DIRECT_ENTRY_COUNT then
    Entry ← deref (Direct Sla !! Z.to_nat EntryIndex);
    match NewValue with
    | Some v => Ok (v, Some (InDirect EntryIndex), set_Direct EntryIndex v Sla, s)
    | None => s ← reference Entry s; Ok (Entry, None, Sla, s)
    end
  else
    match find_level MM_SLA_INDIRECT_LEVELS 0 (u64 (EntryIndex - MM_SLA_DIRECT_ENTRY_COUNT)) SLA_ENTRIES_PER_PAGE with
    | None => Ok (MM_SLA_NO_DATA, None, Sla, s)
    | Some (Level, CurrentIndex) =>
        CurrentPfn ← deref (Indirect Sla !! Level);
        if (CurrentPfn =? PFN_INVALID) && negb Modify then Ok (MM_SLA_NO_DATA, None, Sla, s)
        else
          '(CurrentPfn, Sla, s) ←
            (if CurrentPfn =? PFN_INVALID then
               '(CurrentPfn, s) ← MmpAllocatePhysicalPageSlaInitialized s;
               Ok (CurrentPfn, if CurrentPfn =? PFN_INVALID then Sla else set_Indirect Level CurrentPfn Sla, s)
             else Ok (CurrentPfn, Sla, s));
          if CurrentPfn =? PFN_INVALID then Ok (MM_SLA_OUT_OF_MEMORY, None, Sla, s)
          else
            '(r, s) ← descend Modify Level CurrentPfn CurrentIndex s;
            match r with
            | NoData => Ok (MM_SLA_NO_DATA, None, Sla, s)
            | NoMemory => Ok (MM_SLA_OUT_OF_MEMORY, None, Sla, s)
            | Reached Pfn Index =>
                Entries ← page Pfn s;
                match NewValue with
                | Some v =>
                    Entries ← st_word 8 Entries Index v;
                    Ok (v, Some (InPage Pfn Index), Sla, pf_store Pfn Entries s)
                | None =>
                    Entry ← ld_word 8 Entries Index;
                    s ← reference Entry s;
                    Entries ← page Pfn s;
                    Entry ← ld_word 8 Entries Index;
                    Ok (Entry, None, Sla, s)
                end
            end
    end.

(** [MmLookUpEntrySlaEx] : boron/source/mm/sla.c:242-249. *)
Definition MmLookUpEntrySlaEx (Sla : MMSLA) (EntryIndex : Z)
    (EntryReferenceFunc : option (Z → S → outcome S)) (s : S) : outcome (Z * S) :=
  '(Entry, _, _, s) ← MmpLookUpEntrySlaPlusModify Sla EntryIndex None EntryReferenceFunc s;
  Ok (Entry, s).

(** [MmAssignEntrySlaEx] : boron/source/mm/sla.c:251-259. *)
Definition MmAssignEntrySlaEx (Sla : MMSLA) (EntryIndex NewValue : Z) (s : S)
  : outcome (Z * option entry_ptr * MMSLA * S) :=
  MmpLookUpEntrySlaPlusModify Sla EntryIndex (Some NewValue) None s.

(** [MmLookUpEntrySla] : boron/include/mm/sla.h:117-121. *)
Definition MmLookUpEntrySla (Sla : MMSLA) (EntryIndex : Z) (s : S) : outcome (Z * S) :=
  MmLookUpEntrySlaEx Sla EntryIndex None s.

(** [MmAssignEntrySla] : boron/include/mm/sla.h:125-133. *)
Definition MmAssignEntrySla (Sla : MMSLA) (EntryIndex NewValue : Z) (s : S) : outcome (Z * MMSLA * S) :=
  '(r, _, Sla, s) ← MmAssignEntrySlaEx Sla EntryIndex NewValue s; Ok (r, Sla, s).

(** ** Freeing *)

Section free.
Context (FreeEntryFunc : Z → S → outcome S).

(** [MmpFreeSlaFinalLevel] : boron/source/mm/sla.c:37-47.
    The entries from [i] on, [n] of them. *)
Fixpoint free_entries (n : nat) (Pfn i : Z) (s : S) : outcome S :=
  match n with
  | O => Ok s
  | Datatypes.S n =>
      Page ← page Pfn s;
      Entry ← ld_word 8 Page i;
      Page ← st_word 8 Page i MM_SLA_NO_DATA;
      s ← FreeEntryFunc Entry (pf_store Pfn Page s);
      free_entries n Pfn (i + 1) s
  end.

(** [MmpFreeSlaFinalLevel] : boron/source/mm/sla.c:32-48. *)
Definition MmpFreeSlaFinalLevel (Pfn : Z) (s : S) : outcome S :=
  free_entries (Z.to_nat SLA_ENTRIES_PER_PAGE) Pfn 0 s.

(** [MmpFreeSlaIntermediateLevel] : boron/source/mm/sla.c:63-78.
    The loop over the frame numbers from [i] on, [n] of them; [free_level]
    frees the level below. *)
Fixpoint free_frames (free_level : Z → S → outcome S) (n : nat) (Pfn i : Z) (s : S) : outcome S :=
  match n with
  | O => Ok s
  | Datatypes.S n =>
      Page ← page Pfn s;
      Entry ← ld_word 4 Page i;
      Page ← st_word 4 Page i PFN_INVALID;
      let s := pf_store Pfn Page s in
      s ← (if negb (Entry =? PFN_INVALID) then free_level Entry s else Ok s);
      s ← pf_free Entry s;
      free_frames free_level n Pfn (i + 1) s
  end.

(** [MmpFreeSlaIntermediateLevel] : boron/source/mm/sla.c:50-79. *)
Fixpoint MmpFreeSlaIntermediateLevel (LevelNumber : nat) (Pfn : Z) (s : S) : outcome S :=
  if Pfn =? PFN_INVALID then Ok s
  else
    match LevelNumber with
    | O => MmpFreeSlaFinalLevel Pfn s
    | Datatypes.S LevelNumber =>
        free_frames (MmpFreeSlaIntermediateLevel LevelNumber) (Z.to_nat PFN_ENTRIES_PER_PAGE) Pfn 0 s
    end.

(** [MmDeinitializeSla] : boron/source/mm/sla.c:83-86. *)
Fixpoint free_direct (es : list Z) (s : S) : outcome S :=
  match es with [] => Ok s | e :: es => s ← FreeEntryFunc e s; free_direct es s end.

(** [MmDeinitializeSla] : boron/source/mm/sla.c:88-91. *)
Fixpoint free_levels (i : nat) (ps : list Z) (s : S) : outcome S :=
  match ps with
  | [] => Ok s
  | p :: ps => s ← MmpFreeSlaIntermediateLevel i p s; free_levels (Datatypes.S i) ps s
  end.

(** [MmDeinitializeSla] : boron/source/mm/sla.c:81-92. *)
Definition MmDeinitializeSla (Sla : MMSLA) (s : S) : outcome S :=
  s ← free_direct (Direct Sla) s; free_levels 0 (Indirect Sla) s.
End free.

(** ** Sections *)

(** [MMSECTION] : boron/include/mm/section.h:18-25. *)
Record MMSECTION := mkSection { Sla : MMSLA; MaxSizePages : Z }.

(** [MmpInitializeSectionObject] : boron/source/mm/section.c:144-153.
    With [MmInitializeSectionObject]. *)
Definition MmpInitializeSectionObject (MaxSize : Z) : MMSECTION :=
  mkSection MmInitializeSla (u64 (MaxSize + PAGE_SIZE - 1) / PAGE_SIZE).

(** [MmpFreeEntrySectionObject] : boron/source/mm/section.c:33-41. *)
Definition MmpFreeEntrySectionObject (Entry : Z) (s : S) : outcome S :=
  let Pfn := u32 Entry in
  if negb (Pfn =? PFN_INVALID) then pf_free Pfn s else Ok s.

(** [MiAssignEntrySection] : boron/source/mm/section.c:43-56. *)
Definition MiAssignEntrySection (Section : MMSECTION) (SectionOffset Pfn : Z) (s : S)
  : outcome (BSTATUS * MMSECTION * S) :=
  '(NewEntry, sla, s) ← MmAssignEntrySla (Sla Section) SectionOffset (u32 Pfn) s;
  let Section := mkSection sla (MaxSizePages Section) in
  if NewEntry =? MM_SLA_OUT_OF_MEMORY then Ok (STATUS_INSUFFICIENT_MEMORY, Section, s)
  else s ← pf_reference Pfn s; Ok (STATUS_SUCCESS, Section, s).

(** [MmpGetPageSection] : boron/source/mm/section.c:58-96.
    The section's mutex is held throughout.  [Some Pfn] is the value stored in
    [*OutPfn]. *)
Definition MmpGetPageSection (Section : MMSECTION) (SectionOffset : Z) (s : S)
  : outcome (BSTATUS * option Z * MMSECTION * S) :=
  '(Entry, s) ← MmLookUpEntrySla (Sla Section) SectionOffset s;
  if Entry =? MM_SLA_NO_DATA then
    '(Pfn, s) ← pf_alloc s;
    if Pfn =? PFN_INVALID then Ok (STATUS_INSUFFICIENT_MEMORY, None, Section, s)
    else
      '(NewEntry, sla, s) ← MmAssignEntrySla (Sla Section) SectionOffset (u32 Pfn) s;
      let Section := mkSection sla (MaxSizePages Section) in
      if NewEntry =? MM_SLA_OUT_OF_MEMORY then
        s ← pf_free Pfn s; Ok (STATUS_INSUFFICIENT_MEMORY, None, Section, s)
      else
        _ ← check (NewEntry =? u32 Pfn);
        s ← pf_reference (u32 Pfn) s;
        Ok (STATUS_SUCCESS, Some (u32 Pfn), Section, s)
  else
    s ← pf_reference (u32 Entry) s;
    Ok (STATUS_SUCCESS, Some (u32 Entry), Section, s).

(** [MmDeleteSectionObject] : boron/source/mm/section.c:124-128. *)
Definition MmDeleteSectionObject (Section : MMSECTION) (s : S) : outcome S :=
  MmDeinitializeSla MmpFreeEntrySectionObject (Sla Section) s.

(** ** The tree of pages *)

Context `{!PageFrameLaws S}.

Definition digit (i : Z) : Prop := 0 ≤ i < PFN_ENTRIES_PER_PAGE.

(** The frame number that page [p] holds at [i]. *)
Definition child (s : S) (p i : Z) : Z :=
  match pf_mem s !! p with Some b => word 4 b i | None => PFN_INVALID end.

Definition down (s : S) (p i : Z) : Z := if p =? PFN_INVALID then PFN_INVALID else child s p i.

(** The page of level [L] at the end of a path. *)
Definition node (s : S) (sla : MMSLA) (L : nat) (path : list Z) : Z :=
  foldl (down s) (default PFN_INVALID (Indirect sla !! L)) path.

Definition in_tree (L : nat) (path : list Z) : Prop :=
  (L < MM_SLA_INDIRECT_LEVELS)%nat ∧ (length path ≤ L)%nat ∧ Forall digit path.

Definition good_page (s : S) (p : Z) : Prop :=
  pf_refs s p = Some 1 ∧ ∃ b, pf_mem s !! p = Some b ∧ length b = Z.to_nat PAGE_SIZE.

(** The array owns its pages, and none of them is at two places. *)
Record sla_ok (s : S) (sla : MMSLA) : Prop := {
  so_frames : pf_ok s;
  so_direct : length (Direct sla) = Z.to_nat MM_SLA_DIRECT_ENTRY_COUNT;
  so_indirect : length (Indirect sla) = MM_SLA_INDIRECT_LEVELS;
  so_pages L path : in_tree L path → node s sla L path ≠ PFN_INVALID → good_page s (node s sla L path);
  so_once L path L' path' : in_tree L path → in_tree L' path' →
    node s sla L path = node s sla L' path' → node s sla L path ≠ PFN_INVALID → L = L' ∧ path = path';
}.

(** A page in use that is not one of the array's. *)
Definition foreign (s : S) (sla : MMSLA) (m : Z) : Prop :=
  is_Some (pf_refs s m) ∧ ∀ L path, in_tree L path → node s sla L path ≠ m.

(** What the array's own operations leave alone. *)
Definition extends (s : S) (sla : MMSLA) (s' : S) (sla' : MMSLA) : Prop :=
  (∀ m r, pf_refs s m = Some r → pf_refs s' m = Some r) ∧
  (∀ m, foreign s sla m → foreign s' sla' m ∧ pf_mem s' !! m = pf_mem s !! m) ∧
  ∀ m, is_Some (pf_mem s' !! m) → is_Some (pf_mem s !! m).

Lemma extends_refl s sla : extends s sla s sla.
Proof. done. Qed.

Lemma extends_trans s sla s1 sla1 s2 sla2 :
  extends s sla s1 sla1 → extends s1 sla1 s2 sla2 → extends s sla s2 sla2.
Proof.
  intros (H1 & F1 & D1) (H2 & F2 & D2). split; [auto|]. split; [|auto]. intros m Hm. destruct (F1 m Hm) as [Hm1 E1].
  destruct (F2 m Hm1) as [Hm2 E2]. split; [done|congruence].
Qed.

(** ** Places of entries *)

Fixpoint digits (n : nat) (c : Z) : list Z :=
  match n with
  | O => []
  | Datatypes.S n => c mod PFN_ENTRIES_PER_PAGE :: digits n (c / PFN_ENTRIES_PER_PAGE)
  end.

Fixpoint rest (n : nat) (c : Z) : Z :=
  match n with O => c | Datatypes.S n => rest n (c / PFN_ENTRIES_PER_PAGE) end.

Definition place_of (i : Z) : place :=
  if i <? MM_SLA_DIRECT_ENTRY_COUNT then PDirect i
  else
    match find_level MM_SLA_INDIRECT_LEVELS 0 (u64 (i - MM_SLA_DIRECT_ENTRY_COUNT)) SLA_ENTRIES_PER_PAGE with
    | None => PNone
    | Some (L, c) => PPage L (digits L c) (rest L c)
    end.

(** The entry at a place. *)
Definition entry_at (s : S) (sla : MMSLA) (i : Z) : Z :=
  match place_of i with
  | PDirect i => default MM_SLA_NO_DATA (Direct sla !! Z.to_nat i)
  | PPage L path k =>
      let p := node s sla L path in
      if p =? PFN_INVALID then MM_SLA_NO_DATA
      else match pf_mem s !! p with Some b => word 8 b k | None => MM_SLA_NO_DATA end
  | PNone => MM_SLA_NO_DATA
  end.

Lemma PFN_ENTRIES : PFN_ENTRIES_PER_PAGE = 1024.
Proof. done. Qed.

Lemma length_digits n c : length (digits n c) = n.
Proof. revert c. induction n as [|n IH]; intros c; cbn; [done|]. by rewrite IH. Qed.

Lemma digits_digit n c : Forall digit (digits n c).
Proof.
  revert c. induction n as [|n IH]; intros c; cbn; constructor; [|apply IH].
  unfold digit. rewrite PFN_ENTRIES. apply Z.mod_pos_bound. lia.
Qed.

Lemma digits_inj n c c' : digits n c = digits n c' → rest n c = rest n c' → c = c'.
Proof.
  revert c c'. induction n as [|n IH]; intros c c'; cbn; [done|]. rewrite PFN_ENTRIES.
  intros [= Hm Hd] Hr. specialize (IH _ _ Hd Hr).
  rewrite (Z.div_mod c 1024), (Z.div_mod c' 1024) by lia. congruence.
Qed.

Lemma rest_bound n c : 0 ≤ c < SLA_ENTRIES_PER_PAGE * PFN_ENTRIES_PER_PAGE ^ Z.of_nat n → 0 ≤ rest n c < SLA_ENTRIES_PER_PAGE.
Proof.
  revert c. induction n as [|n IH]; intros c Hc; cbn.
  { change (PFN_ENTRIES_PER_PAGE ^ Z.of_nat 0) with 1 in Hc. lia. }
  rewrite Nat2Z.inj_succ, Z.pow_succ_r, PFN_ENTRIES in * by lia.
  apply IH. split; [apply Z.div_pos; lia|]. apply Z.div_lt_upper_bound; lia.
Qed.

(** The first index of each level, past the direct entries. *)
Definition level_start (L : nat) : Z :=
  match L with
  | 0%nat => 0
  | 1%nat => 512
  | 2%nat => 512 + 512 * 1024
  | _ => 512 + 512 * 1024 + 512 * 1024 ^ 2
  end.

Lemma find_level_spec c L c' :
  0 ≤ c < 2 ^ 64 → find_level MM_SLA_INDIRECT_LEVELS 0 c SLA_ENTRIES_PER_PAGE = Some (L, c') →
  (L < MM_SLA_INDIRECT_LEVELS)%nat ∧ c = level_start L + c' ∧
  0 ≤ c' < SLA_ENTRIES_PER_PAGE * PFN_ENTRIES_PER_PAGE ^ Z.of_nat L ∧
  ∀ L', (L' < L)%nat → level_start L' + SLA_ENTRIES_PER_PAGE * PFN_ENTRIES_PER_PAGE ^ Z.of_nat L' ≤ c.
Proof.
  intros Hc. unfold MM_SLA_INDIRECT_LEVELS. change SLA_ENTRIES_PER_PAGE with 512. rewrite PFN_ENTRIES.
  change (2 ^ 64) with 18446744073709551616 in Hc.
  do 4 (cbn [find_level]; rewrite ?PFN_ENTRIES;
    match goal with |- context [?a <=? ?b] => destruct (Z.leb_spec a b) end;
    [rewrite ?(wrap_small 64) by (change (2 ^ 64) with 18446744073709551616; lia)
    |intros [= <- <-]; split; [lia|split; [cbn; lia|split; [cbn; lia|]]]; intros [|[|[|]]]; cbn; lia]).
  done.
Qed.

Lemma find_level_None c :
  0 ≤ c < 2 ^ 64 → find_level MM_SLA_INDIRECT_LEVELS 0 c SLA_ENTRIES_PER_PAGE = None →
  512 * (1 + 1024 + 1024 ^ 2 + 1024 ^ 3) ≤ c.
Proof.
  intros Hc. unfold MM_SLA_INDIRECT_LEVELS. change SLA_ENTRIES_PER_PAGE with 512.
  change (2 ^ 64) with 18446744073709551616 in Hc.
  do 4 (cbn [find_level]; rewrite ?PFN_ENTRIES;
    match goal with |- context [?a <=? ?b] => destruct (Z.leb_spec a b) end;
    [rewrite ?(wrap_small 64) in * by (change (2 ^ 64) with 18446744073709551616; lia)|done]).
  lia.
Qed.

#[local] Arguments find_level : simpl never.

Definition off_tree (p : place) : Prop :=
  match p with
  | PPage L path k => in_tree L path ∧ length path = L ∧ 0 ≤ k < SLA_ENTRIES_PER_PAGE
  | PDirect i => 0 ≤ i < MM_SLA_DIRECT_ENTRY_COUNT
  | PNone => True
  end.

Lemma place_of_level i : 0 ≤ i < 2 ^ 64 → MM_SLA_DIRECT_ENTRY_COUNT ≤ i →
  u64 (i - MM_SLA_DIRECT_ENTRY_COUNT) = i - MM_SLA_DIRECT_ENTRY_COUNT ∧
  0 ≤ i - MM_SLA_DIRECT_ENTRY_COUNT < 2 ^ 64.
Proof. unfold MM_SLA_DIRECT_ENTRY_COUNT. intros. rewrite wrap_small; lia. Qed.

Lemma place_of_ok i : 0 ≤ i < 2 ^ 64 → off_tree (place_of i).
Proof.
  intros Hi. unfold place_of. destruct (Z.ltb_spec i MM_SLA_DIRECT_ENTRY_COUNT); cbn; [lia|].
  destruct (place_of_level i) as [-> Hc]; [done..|].
  destruct (find_level _ _ _ _) as [[L c]|] eqn:Hf; [|done].
  apply find_level_spec in Hf as (HL & _ & Hb & _); [|done]. cbn.
  split; [|split; [apply length_digits|by apply rest_bound]].
  split; [done|]. rewrite length_digits. split; [done|apply digits_digit].
Qed.

Lemma place_of_inj i j : 0 ≤ i < 2 ^ 64 → 0 ≤ j < 2 ^ 64 → place_of i = place_of j → place_of i ≠ PNone → i = j.
Proof.
  intros Hi Hj. unfold place_of.
  destruct (Z.ltb_spec i MM_SLA_DIRECT_ENTRY_COUNT), (Z.ltb_spec j MM_SLA_DIRECT_ENTRY_COUNT).
  - by intros [= ->].
  - repeat case_match; done.
  - repeat case_match; done.
  - destruct (place_of_level i) as [-> Hci]; [done..|]. destruct (place_of_level j) as [-> Hcj]; [done..|].
    destruct (find_level _ _ (i - _) _) as [[L c]|] eqn:Hf; [|done].
    destruct (find_level _ _ (j - _) _) as [[L' c']|] eqn:Hf'; [|done].
    intros [= <- Hd Hr] _.
    apply find_level_spec in Hf as (_ & E & _), Hf' as (_ & E' & _); [|done..].
    pose proof (digits_inj _ _ _ Hd Hr). lia.
Qed.

(** Two entries in the same page are different words of it. *)
Lemma in_tree_prefix L a b : in_tree L (a ++ b) → in_tree L a.
Proof.
  intros (? & Hl & Hf). rewrite length_app in Hl. apply Forall_app in Hf as [? _]. split_and!; [done|lia|done].
Qed.

Lemma in_tree_last L path i : in_tree L (path ++ [i]) → digit i.
Proof. intros (_ & _ & [_ Hf]%Forall_app). by apply Forall_inv in Hf. Qed.

Lemma node_nil s sla L : node s sla L [] = default PFN_INVALID (Indirect sla !! L).
Proof. done. Qed.

Lemma node_snoc s sla L path i : node s sla L (path ++ [i]) = down s (node s sla L path) i.
Proof. unfold node. by rewrite foldl_app. Qed.

Lemma down_valid s p i : p ≠ PFN_INVALID → down s p i = child s p i.
Proof. intros Hp. unfold down. by rewrite (proj2 (Z.eqb_neq _ _) Hp). Qed.

Lemma node_change s sla s' sla' L pos q :
  node s sla L pos = PFN_INVALID → node s' sla' L pos = q →
  (∀ L', (L', []) ≠ (L, pos) → node s' sla' L' [] = node s sla L' []) →
  (∀ i, digit i → down s' q i = PFN_INVALID) →
  (∀ L' path i, in_tree L' (path ++ [i]) → (L', path ++ [i]) ≠ (L, pos) → node s sla L' path ≠ PFN_INVALID →
     child s' (node s sla L' path) i = child s (node s sla L' path) i) →
  ∀ L' path, in_tree L' path →
    node s' sla' L' path = if decide ((L', path) = (L, pos)) then q else node s sla L' path.
Proof.
  intros Hold Hnew Hroot Hq Hchild L' path. induction path as [|i path IH] using rev_ind; intros Ht.
  { case_decide as E; [injection E as -> Hp; rewrite Hp; exact Hnew|by apply Hroot]. }
  destruct (decide ((L', path ++ [i]) = (L, pos))) as [E|E]; [injection E as -> Hp; rewrite Hp; exact Hnew|].
  rewrite !node_snoc, IH by (by eapply in_tree_prefix).
  pose proof (in_tree_last _ _ _ Ht) as Hi.
  destruct (decide ((L', path) = (L, pos))) as [E'|E']; [injection E' as -> ->; rewrite Hold; exact (Hq i Hi)|].
  destruct (decide (node s sla L' path = PFN_INVALID)) as [->|Hv]; [done|].
  rewrite !down_valid by done. by apply Hchild.
Qed.

Definition ones : list Z := replicate (Z.to_nat PAGE_SIZE) 255.

Definition same_entries (s : S) (sla : MMSLA) (s' : S) (sla' : MMSLA) : Prop :=
  ∀ j, 0 ≤ j < 2 ^ 64 → entry_at s' sla' j = entry_at s sla j.

Lemma in_page_ones w i : 0 ≤ i → (Z.to_nat i * w + w ≤ Z.to_nat PAGE_SIZE)%nat → in_page w ones i = true.
Proof.
  intros Hi Hl. unfold in_page, ones. rewrite length_replicate. apply andb_true_iff.
  split; [by apply Z.leb_le|by apply Nat.leb_le].
Qed.

Lemma in_page_digit b i : length b = Z.to_nat PAGE_SIZE → digit i → in_page 4 b i = true.
Proof.
  intros Hb [Hi Hl]. unfold in_page. rewrite Hb. rewrite PFN_ENTRIES in Hl.
  change (Z.to_nat PAGE_SIZE) with (Z.to_nat 4096).
  apply andb_true_iff. split; [by apply Z.leb_le|apply Nat.leb_le; lia].
Qed.

Lemma in_page_entry b k : length b = Z.to_nat PAGE_SIZE → 0 ≤ k < SLA_ENTRIES_PER_PAGE → in_page 8 b k = true.
Proof.
  intros Hb [Hi Hl]. unfold in_page. rewrite Hb. change SLA_ENTRIES_PER_PAGE with 512 in Hl.
  change (Z.to_nat PAGE_SIZE) with (Z.to_nat 4096).
  apply andb_true_iff. split; [by apply Z.leb_le|apply Nat.leb_le; lia].
Qed.

Lemma length_ones : length ones = Z.to_nat PAGE_SIZE.
Proof. apply length_replicate. Qed.

Lemma word_ones_frame i : digit i → word 4 ones i = PFN_INVALID.
Proof. intros Hi. unfold ones. rewrite word_ones; [done|]. by apply (in_page_digit ones); [apply length_ones|]. Qed.

Lemma word_ones_entry k : 0 ≤ k < SLA_ENTRIES_PER_PAGE → word 8 ones k = MM_SLA_NO_DATA.
Proof. intros Hi. unfold ones. rewrite word_ones; [done|]. by apply (in_page_entry ones); [apply length_ones|]. Qed.

Lemma frame_not_invalid n : frame n → n ≠ PFN_INVALID.
Proof. intros Hf%frame_valid. by apply Z.eqb_neq. Qed.

(** A page is reached through the pages above it only. *)
Lemma node_same s sla s' L path :
  (∀ a i c, path = a ++ i :: c → node s sla L a ≠ PFN_INVALID →
     pf_mem s' !! node s sla L a = pf_mem s !! node s sla L a) →
  node s' sla L path = node s sla L path.
Proof.
  induction path as [|i path IH] using rev_ind; intros Hm; [done|].
  rewrite !node_snoc, IH.
  - destruct (decide (node s sla L path = PFN_INVALID)) as [->|Hv]; [done|].
    rewrite !down_valid by done. unfold child. by rewrite (Hm path i []).
  - intros a j c E. apply (Hm a j (c ++ [i])). by rewrite E, <-app_assoc.
Qed.

(** The tree with one more page, [q], that holds nothing yet. *)
Lemma grow_ok s sla s' sla' L pos q :
  sla_ok s sla → in_tree L pos → node s sla L pos = PFN_INVALID → frame q →
  pf_refs s q = None → pf_ok s' → pf_refs s' q = Some 1 → pf_mem s' !! q = Some ones →
  (∀ m, m ≠ q → pf_refs s' m = pf_refs s m) →
  (∀ L' path, in_tree L' path →
     node s' sla' L' path = if decide ((L', path) = (L, pos)) then q else node s sla L' path) →
  Direct sla' = Direct sla → length (Indirect sla') = MM_SLA_INDIRECT_LEVELS →
  (∀ L' path b, in_tree L' path → node s sla L' path ≠ PFN_INVALID →
     pf_mem s !! node s sla L' path = Some b →
     ∃ b', pf_mem s' !! node s sla L' path = Some b' ∧ length b' = length b ∧ (length path = L' → b' = b)) →
  (∀ m, foreign s sla m → pf_mem s' !! m = pf_mem s !! m) → (∀ m, is_Some (pf_mem s' !! m) → is_Some (pf_mem s !! m)) →
  sla_ok s' sla' ∧ extends s sla s' sla' ∧ same_entries s sla s' sla'.
Proof.
  intros Hok Hpos Hno Hq Hfresh Hpf Hr Hm Hrefs Hnode HD HI Hpages Hforeign Hdom.
  pose proof (frame_not_invalid q Hq) as Hqv.
  assert (∀ L' path, in_tree L' path → node s sla L' path ≠ PFN_INVALID → node s sla L' path ≠ q) as Hne.
  { intros L' path Ht Hv E. destruct (so_pages _ _ Hok _ _ Ht Hv) as [Hg _]. congruence. }
  split; [split; [done|by rewrite HD; apply (so_direct _ _ Hok)|done| |]|split].
  - intros L' path Ht. rewrite Hnode by done. case_decide as E.
    { intros _. split; [done|]. exists ones. split; [done|apply length_ones]. }
    intros Hv. destruct (so_pages _ _ Hok _ _ Ht Hv) as [Hg (b & Hb & Hl)].
    destruct (Hpages _ _ _ Ht Hv Hb) as (b' & Hb' & Hl' & _).
    split; [rewrite Hrefs; [done|by apply Hne]|]. exists b'. split; [done|congruence].
  - intros L1 p1 L2 p2 H1 H2. rewrite !Hnode by done.
    case_decide as E1; case_decide as E2.
    + intros _ _. simplify_eq. done.
    + intros E Hv. exfalso. apply (Hne L2 p2); congruence.
    + intros E Hv. exfalso. by apply (Hne L1 p1).
    + intros E Hv. by apply (so_once _ _ Hok).
  - split.
    + intros m r Hmr. rewrite Hrefs; [done|]. congruence.
    + split; [|done]. intros m Hf. pose proof Hf as [[r Hmr] Hnm]. split; [|by apply Hforeign].
      split; [rewrite Hrefs; [by exists r|congruence]|].
      intros L' path Ht. rewrite Hnode by done. case_decide; [congruence|by apply Hnm].
  - intros j Hj. unfold entry_at. pose proof (place_of_ok j Hj) as Hp.
    destruct (place_of j) as [i|L' path k|]; cbn in Hp; [by rewrite HD| |done].
    destruct Hp as (Ht & Hlen & Hk). rewrite Hnode by done. case_decide as E.
    + injection E as -> ->. rewrite Hno, Z.eqb_refl, (frame_valid q Hq), Hm. by apply word_ones_entry.
    + cbv zeta. destruct (Z.eqb_spec (node s sla L' path) PFN_INVALID) as [|Hv]; [done|].
      destruct (so_pages _ _ Hok _ _ Ht Hv) as [_ (b & Hb & _)].
      destruct (Hpages _ _ _ Ht Hv Hb) as (b' & -> & _ & Hbb). by rewrite Hb, Hbb.
Qed.

(** A page for the array. *)
Lemma allocate_spec s : pf_ok s →
  MmpAllocatePhysicalPageSlaInitialized s = Ok (PFN_INVALID, s) ∨
  ∃ q s', MmpAllocatePhysicalPageSlaInitialized s = Ok (q, s') ∧ pf_ok s' ∧ frame q ∧
    pf_refs s q = None ∧ pf_refs s' q = Some 1 ∧ pf_mem s' !! q = Some ones ∧ is_Some (pf_mem s !! q) ∧
    ∀ m, m ≠ q → pf_refs s' m = pf_refs s m ∧ pf_mem s' !! m = pf_mem s !! m.
Proof.
  intros Hpf. unfold MmpAllocatePhysicalPageSlaInitialized.
  destruct (pf_alloc_spec s Hpf) as [->|(q & s1 & Ea & Hpf1 & Hf & Hr & Hr1 & Hm1 & Hoth)]; [by left|]. right.
  pose proof (pf_alloc_mem s q s1 Hpf Ea (frame_not_invalid q Hf)) as Hd. rewrite Ea.
  cbn. rewrite (frame_valid q Hf). unfold page. rewrite Hm1. cbn.
  exists q, (pf_store q ones s1). split; [done|]. split; [by eapply pf_store_spec|]. split; [done|].
  split; [done|]. rewrite pf_store_refs, pf_store_mem. split; [done|]. split; [by rewrite lookup_insert_eq|]. split; [done|].
  intros m Hm. rewrite pf_store_refs, lookup_insert_ne by done. by apply Hoth.
Qed.

(** The first page of a level. *)
Lemma root_ok s sla L q s' :
  sla_ok s sla → (L < MM_SLA_INDIRECT_LEVELS)%nat → Indirect sla !! L = Some PFN_INVALID → frame q →
  pf_refs s q = None → pf_ok s' → pf_refs s' q = Some 1 → pf_mem s' !! q = Some ones → is_Some (pf_mem s !! q) →
  (∀ m, m ≠ q → pf_refs s' m = pf_refs s m ∧ pf_mem s' !! m = pf_mem s !! m) →
  let sla' := set_Indirect L q sla in
  (sla_ok s' sla' ∧ extends s sla s' sla' ∧ same_entries s sla s' sla') ∧ node s' sla' L [] = q.
Proof.
  intros Hok HL HI Hq Hfresh Hpf Hr Hm Hd Hoth sla'.
  assert (node s' sla' L [] = q) as Hnew.
  { cbn. rewrite list_lookup_insert_eq; [done|]. by rewrite (so_indirect _ _ Hok). }
  split; [|done].
  assert (∀ L' path, in_tree L' path → node s sla L' path ≠ PFN_INVALID → node s sla L' path ≠ q) as Hne.
  { intros L' path Ht Hv E. destruct (so_pages _ _ Hok _ _ Ht Hv) as [Hg _]. congruence. }
  eapply (grow_ok s sla s' sla' L [] q); try done.
  - split; [done|]. cbn. split; [lia|done].
  - rewrite node_nil, HI. done.
  - intros m Hmq. by apply Hoth.
  - eapply node_change; [by rewrite node_nil, HI|done| | |].
    + intros L' E. cbn. rewrite list_lookup_insert_ne; [done|]. congruence.
    + intros i Hi. rewrite down_valid by (by apply frame_not_invalid). unfold child. rewrite Hm. by apply word_ones_frame.
    + intros L' path i Ht _ Hv. unfold child. apply in_tree_prefix in Ht.
      by rewrite (proj2 (Hoth _ (Hne _ _ Ht Hv))).
  - cbn. rewrite length_insert. apply (so_indirect _ _ Hok).
  - intros L' path b Ht Hv Hb. rewrite (proj2 (Hoth _ (Hne _ _ Ht Hv))). by exists b.
  - intros m [[r Hr'] _]. apply Hoth. congruence.
  - intros m. destruct (decide (m = q)) as [->|Hmq]; [done|]. by rewrite (proj2 (Hoth m Hmq)).
Qed.

(** A page linked into the page above it. *)
Lemma link_ok s sla L pre i q s1 b :
  sla_ok s sla → in_tree L (pre ++ [i]) → node s sla L pre ≠ PFN_INVALID →
  child s (node s sla L pre) i = PFN_INVALID → frame q →
  pf_refs s q = None → pf_ok s1 → pf_refs s1 q = Some 1 → pf_mem s1 !! q = Some ones → is_Some (pf_mem s !! q) →
  (∀ m, m ≠ q → pf_refs s1 m = pf_refs s m ∧ pf_mem s1 !! m = pf_mem s !! m) →
  pf_mem s !! node s sla L pre = Some b →
  let s' := pf_store (node s sla L pre) (set_word 4 b i q) s1 in
  (sla_ok s' sla ∧ extends s sla s' sla ∧ same_entries s sla s' sla) ∧ node s' sla L (pre ++ [i]) = q.
Proof.
  intros Hok Ht Hv Hc Hq Hfresh Hpf Hr Hm Hd Hoth Hb s'. set (p := node s sla L pre) in *.
  pose proof (in_tree_last _ _ _ Ht) as Hi. pose proof (in_tree_prefix _ _ _ Ht) as Hpre.
  destruct (so_pages _ _ Hok _ _ Hpre Hv) as [Hg (b0 & Hb0 & Hlen)].
  assert (b0 = b) as -> by (unfold p in Hb; congruence). fold p in Hg.
  assert (∀ L' path, in_tree L' path → node s sla L' path ≠ PFN_INVALID → node s sla L' path ≠ q) as Hne.
  { intros L' path Ht' Hv' E. destruct (so_pages _ _ Hok _ _ Ht' Hv') as [Hg' _]. congruence. }
  assert (p ≠ q) as Hpq by (by apply Hne).
  assert (pf_mem s' !! q = Some ones) as Hmq by (unfold s'; by rewrite pf_store_mem, lookup_insert_ne).
  assert (pf_mem s' !! p = Some (set_word 4 b i q)) as Hmp by (unfold s'; by rewrite pf_store_mem, lookup_insert_eq).
  assert (∀ m, m ≠ p → m ≠ q → pf_mem s' !! m = pf_mem s !! m) as Hmo.
  { intros m H1 H2. unfold s'. rewrite pf_store_mem, lookup_insert_ne by done. by apply Hoth. }
  assert (∀ L' path, in_tree L' path → node s' sla L' path =
     if decide ((L', path) = (L, pre ++ [i])) then q else node s sla L' path) as Hnode.
  { apply node_change.
    - rewrite node_snoc, down_valid by done. done.
    - rewrite node_snoc. assert (node s' sla L pre = p) as ->.
      { apply node_same. intros a j c E Hv'.
        assert (in_tree L a) as Hta by (rewrite E in Hpre; by eapply in_tree_prefix).
        apply Hmo; [|by apply Hne]. intros Ep. apply (so_once _ _ Hok) in Ep as [_ Ep]; [|done..].
        apply (f_equal length) in Ep. rewrite E, length_app in Ep. cbn in Ep. lia. }
      rewrite down_valid by done. unfold child. rewrite Hmp. apply word_set_same.
      + by apply in_page_digit.
      + destruct Hq. unfold MM_PFN_OUTOFMEMORY in *. change (256 ^ Z.of_nat 4) with (2 ^ 32). lia.
    - intros L' _. done.
    - intros j Hj. rewrite down_valid by (by apply frame_not_invalid). unfold child. rewrite Hmq. by apply word_ones_frame.
    - intros L' path j Ht' E Hv'. pose proof (in_tree_prefix _ _ _ Ht') as Htp. unfold child.
      destruct (decide (node s sla L' path = p)) as [Ep|Ep]; [|by rewrite Hmo by auto].
      rewrite Ep, Hmp, Hb. apply (so_once _ _ Hok) in Ep as [-> ->]; [|done..].
      apply word_set_other; [apply Hi|apply (in_tree_last _ _ _ Ht')|]. intros ->. by apply E. }
  split; [|rewrite Hnode by done; by rewrite decide_True].
  eapply (grow_ok s sla s' sla L (pre ++ [i]) q); try done.
  - by rewrite node_snoc, down_valid.
  - unfold s'. eapply pf_store_spec; [done|]. rewrite (proj1 (Hoth p Hpq)). done.
  - unfold s'. by rewrite pf_store_refs.
  - intros m Hm'. unfold s'. rewrite pf_store_refs. by apply Hoth.
  - apply (so_indirect _ _ Hok).
  - intros L' path b' Ht' Hv' Hb'. destruct (decide (node s sla L' path = p)) as [Ep|Ep].
    + rewrite Ep in *. exists (set_word 4 b i q). rewrite Hmp. split; [done|].
      assert (b' = b) as -> by congruence. split; [apply length_set_word|]. intros Hl. exfalso.
      destruct (so_once _ _ Hok L' path L pre) as [-> ->]; [done|done|exact Ep|by rewrite Ep|].
      destruct Ht as (_ & Hl' & _). rewrite length_app in Hl'. cbn in Hl'. lia.
    + rewrite Hmo by auto. by exists b'.
  - intros m [[r Hr'] Hnm]. apply Hmo; [intros ->; by apply (Hnm L pre)|congruence].
  - intros m Hm'. destruct (decide (m = q)) as [->|Hmq']; [done|]. destruct (decide (m = p)) as [->|Hmp']; [by rewrite Hb|]. by rewrite Hmo in Hm'.
Qed.

(** Writing an entry moves no page and changes no other entry. *)
Lemma write_ok s sla L path k v b :
  sla_ok s sla → in_tree L path → length path = L → 0 ≤ k < SLA_ENTRIES_PER_PAGE → 0 ≤ v < 2 ^ 64 →
  node s sla L path ≠ PFN_INVALID → pf_mem s !! node s sla L path = Some b →
  let s' := pf_store (node s sla L path) (set_word 8 b k v) s in
  sla_ok s' sla ∧ extends s sla s' sla ∧
  (∀ L' path', in_tree L' path' → node s' sla L' path' = node s sla L' path') ∧
  ∀ j, 0 ≤ j < 2 ^ 64 → entry_at s' sla j = if decide (place_of j = PPage L path k) then v else entry_at s sla j.
Proof.
  intros Hok Ht Hlen Hk Hval Hv Hb s'. set (p := node s sla L path) in *.
  destruct (so_pages _ _ Hok _ _ Ht Hv) as [Hg (b0 & Hb0 & Hl)]. fold p in Hg, Hb0.
  assert (b0 = b) as -> by congruence.
  assert (∀ m, pf_mem s' !! m = if decide (m = p) then Some (set_word 8 b k v) else pf_mem s !! m) as Hmem.
  { intros m. unfold s'. rewrite pf_store_mem. case_decide; [subst; by rewrite lookup_insert_eq|by rewrite lookup_insert_ne]. }
  assert (∀ L' path', in_tree L' path' → node s' sla L' path' = node s sla L' path') as Hnode.
  { intros L' path' Ht'. apply node_same. intros a i c E Hva. rewrite Hmem, decide_False; [done|].
    assert (in_tree L' a) as Hta by (rewrite E in Ht'; by eapply in_tree_prefix).
    intros Ep. destruct (so_once _ _ Hok L' a L path) as [-> ->]; [done..|].
    destruct Ht' as (_ & Hl' & _). rewrite E, length_app in Hl'. cbn in Hl'. lia. }
  assert (∀ m, pf_refs s' m = pf_refs s m) as Hrefs by (intros m; apply pf_store_refs).
  split; [|split; [|split; [done|]]].
  - split; [eapply pf_store_spec; [apply (so_frames _ _ Hok)|done]|apply (so_direct _ _ Hok)|apply (so_indirect _ _ Hok)| |].
    + intros L' path' Ht'. rewrite Hnode by done. intros Hv'. unfold good_page. rewrite Hrefs, Hmem.
      destruct (so_pages _ _ Hok _ _ Ht' Hv') as [Hg' (b' & Hb' & Hl')]. split; [done|].
      case_decide as E; [|by exists b']. eexists. split; [done|]. by rewrite length_set_word.
    + intros L1 p1 L2 p2 H1 H2. rewrite !Hnode by done. by apply (so_once _ _ Hok).
  - split; [intros m r; by rewrite Hrefs|]. split; [|intros m; rewrite Hmem; case_decide; [subst; by rewrite Hb|done]]. intros m [Hr Hnm]. split.
    + split; [by rewrite Hrefs|]. intros L' path' Ht'. rewrite Hnode by done. by apply Hnm.
    + rewrite Hmem, decide_False; [done|]. intros ->. by apply (Hnm L path).
  - intros j Hj. unfold entry_at. pose proof (place_of_ok j Hj) as Hp.
    destruct (place_of j) as [i|L' path' k'|]; cbn in Hp; [by rewrite decide_False| |by rewrite decide_False].
    destruct Hp as (Ht' & Hlen' & Hk'). rewrite Hnode by done. cbv zeta.
    destruct (Z.eqb_spec (node s sla L' path') PFN_INVALID) as [E|Hv'].
    { rewrite decide_False; [done|]. intros [= -> -> ->]. done. }
    rewrite Hmem. destruct (decide (node s sla L' path' = p)) as [E|E].
    + destruct (so_once _ _ Hok L' path' L path) as [-> ->]; [done..|].
      fold p. rewrite Hb. case_decide as Ek.
      * injection Ek as ->. apply word_set_same; [by apply in_page_entry|done].
      * apply word_set_other; [lia|lia|congruence].
    + rewrite decide_False; [done|]. intros [= -> -> ->]. done.
Qed.

Lemma direct_ok s sla i v :
  sla_ok s sla → 0 ≤ i < MM_SLA_DIRECT_ENTRY_COUNT →
  sla_ok s (set_Direct i v sla) ∧ extends s sla s (set_Direct i v sla) ∧
  ∀ j, 0 ≤ j < 2 ^ 64 → entry_at s (set_Direct i v sla) j = if decide (j = i) then v else entry_at s sla j.
Proof.
  intros [H1 H2 H3 H4 H5] Hi. split; [|split; [done|]].
  - split; [done|cbn; by rewrite length_insert|done|exact H4|exact H5].
  - intros j Hj. unfold entry_at, place_of. destruct (Z.ltb_spec j MM_SLA_DIRECT_ENTRY_COUNT).
    + cbn. case_decide as E; [subst; rewrite list_lookup_insert_eq by lia; done|].
      rewrite list_lookup_insert_ne by lia. done.
    + rewrite decide_False by lia. by destruct (find_level _ _ _ _) as [[??]|].
Qed.

Lemma node_beyond s sla L path rest : node s sla L path = PFN_INVALID → node s sla L (path ++ rest) = PFN_INVALID.
Proof.
  intros Hn. unfold node in *. rewrite foldl_app, Hn. clear. by induction rest.
Qed.

Lemma node_cons s sla L path i rest : node s sla L (path ++ i :: rest) = node s sla L ((path ++ [i]) ++ rest).
Proof. by rewrite <-app_assoc. Qed.

Lemma in_tree_snoc L path n c :
  in_tree L path → (length path + Datatypes.S n = L)%nat → in_tree L (path ++ [c mod PFN_ENTRIES_PER_PAGE]).
Proof.
  intros (HL & _ & Hf) Hn. split; [done|]. split; [rewrite length_app; cbn; lia|].
  apply Forall_app. split; [done|]. constructor; [|done]. unfold digit. rewrite PFN_ENTRIES. apply Z.mod_pos_bound. lia.
Qed.

Lemma good_child s sla L pre n c :
  sla_ok s sla → in_tree L pre → (length pre + Datatypes.S n = L)%nat → node s sla L pre ≠ PFN_INVALID →
  ∃ b, page (node s sla L pre) s = Ok b ∧ pf_mem s !! node s sla L pre = Some b ∧
    ld_word 4 b (c mod PFN_ENTRIES_PER_PAGE) = Ok (child s (node s sla L pre) (c mod PFN_ENTRIES_PER_PAGE)) ∧
    (∀ v, st_word 4 b (c mod PFN_ENTRIES_PER_PAGE) v = Ok (set_word 4 b (c mod PFN_ENTRIES_PER_PAGE) v)) ∧
    node s sla L (pre ++ [c mod PFN_ENTRIES_PER_PAGE]) = child s (node s sla L pre) (c mod PFN_ENTRIES_PER_PAGE).
Proof.
  intros Hok Ht Hn Hv. destruct (so_pages _ _ Hok _ _ Ht Hv) as [_ (b & Hb & Hl)].
  pose proof (in_tree_last _ _ _ (in_tree_snoc _ _ _ c Ht Hn)) as Hd.
  exists b. unfold page, ld_word, st_word, child. rewrite Hb, in_page_digit by done.
  split_and!; try done. rewrite node_snoc, down_valid by done. unfold child. by rewrite Hb.
Qed.

Lemma descend_lookup s sla L n : ∀ pre c, sla_ok s sla → in_tree L pre → (length pre + n = L)%nat →
  node s sla L pre ≠ PFN_INVALID →
  descend false n (node s sla L pre) c s =
    Ok (if node s sla L (pre ++ digits n c) =? PFN_INVALID then NoData
        else Reached (node s sla L (pre ++ digits n c)) (rest n c), s).
Proof.
  induction n as [|n IH]; intros pre c Hok Ht Hn Hv; cbn [descend digits rest].
  { rewrite app_nil_r. by rewrite (proj2 (Z.eqb_neq _ _) Hv). }
  destruct (good_child s sla L pre n c Hok Ht Hn Hv) as (b & -> & Hb & Hld & _ & Hnode).
  cbn [mbind outcome_bind]. rewrite Hld. cbn [mbind outcome_bind]. rewrite <-Hnode, (node_cons _ _ _ pre _ (digits n (c / PFN_ENTRIES_PER_PAGE))).
  destruct (Z.eqb_spec (node s sla L (pre ++ [c mod PFN_ENTRIES_PER_PAGE])) PFN_INVALID) as [E|E]; cbn [negb].
  - by rewrite (node_beyond _ _ _ _ (digits n (c / PFN_ENTRIES_PER_PAGE)) E).
  - apply IH; [done|by eapply in_tree_snoc|rewrite length_app; cbn; lia|done].
Qed.

Lemma descend_assign sla L n : ∀ s pre c, sla_ok s sla → in_tree L pre → (length pre + n = L)%nat →
  node s sla L pre ≠ PFN_INVALID →
  ∃ r s', descend true n (node s sla L pre) c s = Ok (r, s') ∧
    sla_ok s' sla ∧ extends s sla s' sla ∧ same_entries s sla s' sla ∧
    match r with
    | Reached p k => p = node s' sla L (pre ++ digits n c) ∧ p ≠ PFN_INVALID ∧ k = rest n c
    | NoData => False
    | NoMemory => True
    end.
Proof.
  induction n as [|n IH]; intros s pre c Hok Ht Hn Hv; cbn [descend digits rest].
  { eexists _, _. split; [done|]. rewrite app_nil_r. done. }
  destruct (good_child s sla L pre n c Hok Ht Hn Hv) as (b & Hpage & Hb & Hld & Hst & Hnode).
  rewrite Hpage. cbn [mbind outcome_bind]. rewrite Hld. cbn [mbind outcome_bind].
  pose proof (in_tree_snoc L pre n c Ht Hn) as Ht'.
  assert (length (pre ++ [(c mod PFN_ENTRIES_PER_PAGE)%Z]) + n = L)%nat as Hn' by (rewrite length_app; cbn; lia).
  destruct (Z.eqb_spec (child s (node s sla L pre) (c mod PFN_ENTRIES_PER_PAGE)) PFN_INVALID) as [E|E]; cbn [negb].
  2: { rewrite <-Hnode in E |- *.
       destruct (IH s _ (c / PFN_ENTRIES_PER_PAGE) Hok Ht' Hn' E) as (r & s' & Hd & H1 & H2 & H3 & H4).
       exists r, s'. split; [exact Hd|]. split; [done|]. split; [done|]. split; [done|].
       destruct r; try done. rewrite node_cons. done. }
  destruct (allocate_spec s (so_frames _ _ Hok)) as [->|(q & s1 & -> & Hpf1 & Hq & Hr & Hr1 & Hm1 & Hd1 & Hoth)]; cbn [mbind outcome_bind].
  { rewrite Z.eqb_refl. eexists _, _. by split. }
  rewrite (frame_valid q Hq).
  assert (node s sla L pre ≠ q) as Hne.
  { intros Ep. destruct (so_pages _ _ Hok _ _ Ht Hv) as [Hg _]. congruence. }
  unfold page. rewrite (proj2 (Hoth _ Hne)), Hb. cbn [deref mbind outcome_bind]. rewrite Hst. cbn [mbind outcome_bind].
  destruct (link_ok s sla L pre _ q s1 b Hok Ht' Hv E Hq Hr Hpf1 Hr1 Hm1 Hd1 Hoth Hb) as [(Hok2 & Hx2 & He2) Hn2].
  destruct (IH _ _ (c / PFN_ENTRIES_PER_PAGE) Hok2 Ht' Hn') as (r & s' & Hd & H1 & H2 & H3 & H4).
  { rewrite Hn2. by apply frame_not_invalid. }
  rewrite Hn2 in Hd. exists r, s'. split; [exact Hd|]. split; [done|]. split; [by eapply extends_trans|].
  split; [intros j Hj; by rewrite H3, He2|]. destruct r; try done. by rewrite node_cons.
Qed.

Lemma good_leaf s sla L path k :
  sla_ok s sla → in_tree L path → length path = L → 0 ≤ k < SLA_ENTRIES_PER_PAGE → node s sla L path ≠ PFN_INVALID →
  ∃ b, page (node s sla L path) s = Ok b ∧ pf_mem s !! node s sla L path = Some b ∧
    ld_word 8 b k = Ok (word 8 b k) ∧ ∀ v, st_word 8 b k v = Ok (set_word 8 b k v).
Proof.
  intros Hok Ht Hlen Hk Hv. destruct (so_pages _ _ Hok _ _ Ht Hv) as [_ (b & Hb & Hl)].
  exists b. unfold page, ld_word, st_word. by rewrite Hb, in_page_entry.
Qed.

Lemma lookup_spec sla i s :
  sla_ok s sla → 0 ≤ i < 2 ^ 64 →
  MmpLookUpEntrySlaPlusModify sla i None None s = Ok (entry_at s sla i, None, sla, s).
Proof.
  intros Hok Hi. unfold MmpLookUpEntrySlaPlusModify, entry_at. pose proof (place_of_ok i Hi) as Hp.
  unfold place_of in *. destruct (Z.ltb_spec i MM_SLA_DIRECT_ENTRY_COUNT).
  { destruct (Direct sla !! Z.to_nat i) as [e|] eqn:He; [done|]. exfalso. apply lookup_ge_None in He.
    rewrite (so_direct _ _ Hok) in He. lia. }
  destruct (find_level _ _ _ _) as [[L c]|]; [|done]. cbn in Hp. destruct Hp as (Ht & Hlen & Hk).
  destruct (Indirect sla !! L) as [p|] eqn:HI.
  2: { exfalso. apply lookup_ge_None in HI. rewrite (so_indirect _ _ Hok) in HI. destruct Ht as [? _]. lia. }
  cbn [deref mbind outcome_bind]. rewrite bool_decide_false by (by intros [? ?]). cbn [negb].
  assert (p = node s sla L []) as -> by (by rewrite node_nil, HI). rewrite andb_true_r.
  destruct (Z.eqb_spec (node s sla L []) PFN_INVALID) as [E|E].
  { pose proof (node_beyond _ _ _ _ (digits L c) E) as E'. cbn [app] in E'. rewrite E'. done. }
  cbn [mbind outcome_bind]. rewrite (proj2 (Z.eqb_neq _ _) E).
  rewrite (descend_lookup s sla L L []); [|done| |done|done].
  2: { split; [by destruct Ht|]. split; [cbn; lia|done]. }
  cbn [app mbind outcome_bind]. cbv zeta.
  destruct (Z.eqb_spec (node s sla L (digits L c)) PFN_INVALID) as [E'|E']; [done|].
  destruct (good_leaf s sla L (digits L c) (rest L c) Hok Ht Hlen Hk E') as (b & -> & Hb & Hld & _).
  cbn [mbind outcome_bind]. rewrite !Hld. cbn [mbind outcome_bind]. rewrite ?Hld. by rewrite Hb.
Qed.

(** The entry that a prototype PTE pointer points to. *)
Definition pointed (s : S) (sla : MMSLA) (ptr : entry_ptr) : option Z :=
  match ptr with
  | InDirect i => Direct sla !! Z.to_nat i
  | InPage p k => (λ b, word 8 b k) <$> pf_mem s !! p
  end.

(** What assigning [v] to entry [i] may do. *)
Definition assigned (s : S) (sla : MMSLA) (i v r : Z) (ptr : option entry_ptr) (sla' : MMSLA) (s' : S) : Prop :=
  sla_ok s' sla' ∧ extends s sla s' sla' ∧
  (r = v ∧ ptr ≫= pointed s' sla' = Some v ∧
    (∀ j, 0 ≤ j < 2 ^ 64 → entry_at s' sla' j = if decide (j = i) then v else entry_at s sla j) ∨
   r = MM_SLA_OUT_OF_MEMORY ∧ same_entries s sla s' sla').

Lemma assigned_after s sla s1 sla1 i v r ptr sla' s' :
  extends s sla s1 sla1 → same_entries s sla s1 sla1 →
  assigned s1 sla1 i v r ptr sla' s' → assigned s sla i v r ptr sla' s'.
Proof.
  intros Hx He (H1 & H2 & H3). split; [done|]. split; [by eapply extends_trans|].
  destruct H3 as [(-> & Hp & Hj)|[-> Hj]]; [left|right].
  - split; [done|]. split; [done|]. intros j Hj'. rewrite Hj by done. case_decide; [done|by apply He].
  - split; [done|]. intros j Hj'. by rewrite Hj, He.
Qed.

(** From the first page of a level on. *)
Lemma assign_leaf s sla i v L c :
  sla_ok s sla → 0 ≤ i < 2 ^ 64 → 0 ≤ v < 2 ^ 64 → place_of i = PPage L (digits L c) (rest L c) →
  node s sla L [] ≠ PFN_INVALID →
  ∃ r ptr s',
    ('(r, s) ← descend true L (node s sla L []) c s;
     match r with
     | NoData => Ok (MM_SLA_NO_DATA, None, sla, s)
     | NoMemory => Ok (MM_SLA_OUT_OF_MEMORY, None, sla, s)
     | Reached Pfn Index =>
         Entries ← page Pfn s; Entries ← st_word 8 Entries Index v;
         Ok (v, Some (InPage Pfn Index), sla, pf_store Pfn Entries s)
     end) = Ok (r, ptr, sla, s') ∧ assigned s sla i v r ptr sla s'.
Proof.
  intros Hok Hi Hval Hplace Hv. pose proof (place_of_ok i Hi) as Hp. rewrite Hplace in Hp. cbn in Hp.
  destruct Hp as (Ht & Hlen & Hk).
  assert (in_tree L []) as Ht0 by (split; [by destruct Ht|]; split; [cbn; lia|done]).
  destruct (descend_assign sla L L s [] c Hok Ht0 eq_refl Hv) as (r & s2 & -> & Hok2 & Hx2 & He2 & Hr).
  cbn [mbind outcome_bind app] in *. destruct r as [q k| |]; [|done|].
  2: { eexists _, _, _. split; [done|]. split; [done|]. split; [done|]. by right. }
  destruct Hr as (-> & Hv2 & ->).
  destruct (good_leaf s2 sla L _ _ Hok2 Ht Hlen Hk Hv2) as (b & -> & Hb & _ & Hst).
  cbn [mbind outcome_bind]. rewrite Hst. cbn [mbind outcome_bind].
  destruct (write_ok s2 sla L _ _ v b Hok2 Ht Hlen Hk Hval Hv2 Hb) as (H1 & H2 & _ & H4).
  eexists _, _, _. split; [done|]. split; [done|]. split; [by eapply extends_trans|].
  left. split; [done|]. split.
  - cbn. rewrite pf_store_mem, lookup_insert_eq. cbn. f_equal. apply word_set_same; [|done].
    destruct (so_pages _ _ Hok2 _ _ Ht Hv2) as [_ (b' & Hb' & Hl)]. apply in_page_entry; [|done]. congruence.
  - intros j Hj. rewrite H4 by done. destruct (decide (j = i)) as [->|Hji]; [by rewrite decide_True|].
    rewrite decide_False; [by rewrite He2|]. intros E. apply Hji. symmetry.
    apply place_of_inj; [done|done|congruence|by rewrite Hplace].
Qed.

Lemma assign_spec sla i v s :
  sla_ok s sla → 0 ≤ i < 2 ^ 64 → 0 ≤ v < 2 ^ 64 →
  ∃ r ptr sla' s', MmpLookUpEntrySlaPlusModify sla i (Some v) None s = Ok (r, ptr, sla', s') ∧
    match place_of i with
    | PNone => r = MM_SLA_NO_DATA ∧ sla' = sla ∧ s' = s
    | _ => assigned s sla i v r ptr sla' s'
    end.
Proof.
  intros Hok Hi Hval. unfold MmpLookUpEntrySlaPlusModify. pose proof (place_of_ok i Hi) as Hp.
  assert (place_of i = if i <? MM_SLA_DIRECT_ENTRY_COUNT then PDirect i else
    match find_level MM_SLA_INDIRECT_LEVELS 0 (u64 (i - MM_SLA_DIRECT_ENTRY_COUNT)) SLA_ENTRIES_PER_PAGE with
    | None => PNone | Some (L, c) => PPage L (digits L c) (rest L c) end) as Hplace by done.
  destruct (Z.ltb_spec i MM_SLA_DIRECT_ENTRY_COUNT); rewrite Hplace in Hp.
  { destruct (lookup_lt_is_Some_2 (Direct sla) (Z.to_nat i)) as [e He]; [rewrite (so_direct _ _ Hok); cbn in Hp; lia|].
    rewrite He, Hplace. cbn [deref mbind outcome_bind].
    destruct (direct_ok s sla i v Hok Hp) as (H1 & H2 & H3).
    eexists _, _, _, _. split; [done|]. split; [done|]. split; [done|]. left. split; [done|].
    split; [|done]. cbn. rewrite list_lookup_insert_eq; [done|]. by eapply lookup_lt_Some. }
  destruct (find_level _ _ _ _) as [[L c]|]; [|rewrite Hplace; by eexists _, _, _, _].
  cbn in Hp. destruct Hp as (Ht & Hlen & Hk).
  destruct (lookup_lt_is_Some_2 (Indirect sla) L) as [p HI]; [rewrite (so_indirect _ _ Hok); by destruct Ht|].
  pose proof Hplace as Hplace'. rewrite HI, Hplace'. cbn [deref mbind outcome_bind]. rewrite bool_decide_true by eauto. cbn [negb]. rewrite andb_false_r.
  assert (p = node s sla L []) as -> by (by rewrite node_nil, HI).
  destruct (Z.eqb_spec (node s sla L []) PFN_INVALID) as [E|E].
  - rewrite E in HI.
    destruct (allocate_spec s (so_frames _ _ Hok)) as [->|(q & s1 & -> & Hpf1 & Hq & Hr & Hr1 & Hm1 & Hd1 & Hoth)]; cbn [mbind outcome_bind].
    { rewrite Z.eqb_refl. eexists _, _, _, _. split; [done|]. split; [done|]. split; [done|]. by right. }
    rewrite (frame_valid q Hq).
    destruct (root_ok s sla L q s1 Hok (proj1 Ht) HI Hq Hr Hpf1 Hr1 Hm1 Hd1 Hoth) as [(Hok1 & Hx1 & He1) Hn1].
    destruct (assign_leaf s1 _ i v L c Hok1 Hi Hval Hplace) as (r & ptr & s' & Hd & Has); [rewrite Hn1; by apply frame_not_invalid|].
    rewrite Hn1 in Hd. eexists r, ptr, _, s'. split; [exact Hd|]. by eapply assigned_after.
  - cbn [mbind outcome_bind]. rewrite (proj2 (Z.eqb_neq _ _) E).
    destruct (assign_leaf s sla i v L c Hok Hi Hval Hplace E) as (r & ptr & s' & Hd & Has).
    exists r, ptr, sla, s'. by split.
Qed.

(** The number of entries. *)
Definition max_entries : Z := 64 + 512 * (1 + 1024 + 1024 ^ 2 + 1024 ^ 3).

Lemma place_of_some i : 0 ≤ i < max_entries → place_of i ≠ PNone.
Proof.
  unfold max_entries, place_of. intros Hi. destruct (Z.ltb_spec i MM_SLA_DIRECT_ENTRY_COUNT); [done|].
  destruct (place_of_level i) as [-> Hc]; [lia|done|].
  destruct (find_level _ _ _ _) as [[L c]|] eqn:Hf; [done|]. apply find_level_None in Hf; [|done].
  unfold MM_SLA_DIRECT_ENTRY_COUNT in *. lia.
Qed.

Lemma MmInitializeSla_ok s : pf_ok s →
  sla_ok s MmInitializeSla ∧ ∀ j, 0 ≤ j < 2 ^ 64 → entry_at s MmInitializeSla j = MM_SLA_NO_DATA.
Proof.
  intros Hpf. assert (∀ L path, node s MmInitializeSla L path = PFN_INVALID) as Hn.
  { intros L path. apply (node_beyond _ _ _ [] path). rewrite node_nil. unfold MmInitializeSla. cbn.
    destruct L as [|[|[|[|]]]]; done. }
  split; [split; [done|done|done| |]|].
  - intros L path _. by rewrite Hn.
  - intros L path L' path' _ _ _. by rewrite Hn.
  - intros j Hj. unfold entry_at. pose proof (place_of_ok j Hj) as Hp.
    destruct (place_of j) as [i|L path k|]; [|by rewrite Hn|done]. cbn in Hp.
    unfold MmInitializeSla. cbn [Direct]. rewrite lookup_replicate_2; [done|]. lia.
Qed.

(** ** Runs of an array *)

Inductive sla_op := Lookup (Index : Z) | Assign (Index Value : Z).

Definition sla_exec (o : sla_op) (sla : MMSLA) (s : S) : outcome (Z * MMSLA * S) :=
  match o with
  | Lookup i => '(e, s) ← MmLookUpEntrySla sla i s; Ok (e, sla, s)
  | Assign i v => MmAssignEntrySla sla i v s
  end.

Fixpoint sla_run (os : list sla_op) (sla : MMSLA) (s : S) : outcome (list Z * MMSLA * S) :=
  match os with
  | [] => Ok ([], sla, s)
  | o :: os => '(r, sla, s) ← sla_exec o sla s; '(rs, sla, s) ← sla_run os sla s; Ok (r :: rs, sla, s)
  end.

Definition op_allowed (o : sla_op) : Prop :=
  match o with Lookup i => 0 ≤ i < max_entries | Assign i v => 0 ≤ i < max_entries ∧ 0 ≤ v < 2 ^ 64 end.

(** What an array of [max_entries] words does. *)
Inductive array_step : (Z → Z) → sla_op → Z → (Z → Z) → Prop :=
  | array_lookup A i : array_step A (Lookup i) (A i) A
  | array_assign A i v A' :
      (∀ j, 0 ≤ j < max_entries → A' j = if decide (j = i) then v else A j) →
      array_step A (Assign i v) v A'
  | array_no_memory A i v A' :
      (∀ j, 0 ≤ j < max_entries → A' j = A j) → array_step A (Assign i v) MM_SLA_OUT_OF_MEMORY A'.

Inductive array_steps : (Z → Z) → list sla_op → list Z → (Z → Z) → Prop :=
  | array_done A : array_steps A [] [] A
  | array_next A o r A' os rs A'' :
      array_step A o r A' → array_steps A' os rs A'' → array_steps A (o :: os) (r :: rs) A''.

Lemma sla_exec_spec o sla s :
  sla_ok s sla → op_allowed o →
  ∃ r sla' s', sla_exec o sla s = Ok (r, sla', s') ∧ sla_ok s' sla' ∧ extends s sla s' sla' ∧
    array_step (entry_at s sla) o r (entry_at s' sla').
Proof.
  assert (max_entries < 2 ^ 64) as Hmax by done.
  destruct o as [i|i v]; intros Hok Ha; cbn in Ha.
  - cbn. unfold MmLookUpEntrySla, MmLookUpEntrySlaEx. rewrite lookup_spec by (done || lia). cbn.
    eexists _, _, _. split; [done|]. split; [done|]. split; [done|]. constructor.
  - destruct Ha as [Hi Hv]. cbn. unfold MmAssignEntrySla, MmAssignEntrySlaEx.
    destruct (assign_spec sla i v s Hok) as (r & ptr & sla' & s' & -> & Has); [lia|done|]. cbn.
    exists r, sla', s'. split; [done|].
    assert (assigned s sla i v r ptr sla' s') as (H1 & H2 & H3).
    { pose proof (place_of_some i Hi). destruct (place_of i); done. }
    split; [done|]. split; [done|].
    destruct H3 as [(-> & _ & Hj)|[-> Hj]]; [apply array_assign|apply array_no_memory]; intros j Hj'; apply Hj; lia.
Qed.

Lemma sla_run_spec os : ∀ sla s,
  sla_ok s sla → Forall op_allowed os →
  ∃ rs sla' s', sla_run os sla s = Ok (rs, sla', s') ∧ sla_ok s' sla' ∧ extends s sla s' sla' ∧
    array_steps (entry_at s sla) os rs (entry_at s' sla').
Proof.
  induction os as [|o os IH]; intros sla s Hok Hos; cbn.
  { eexists _, _, _. split; [done|]. split; [done|]. split; [done|]. constructor. }
  apply Forall_cons in Hos as [Ho Hos].
  destruct (sla_exec_spec o sla s Hok Ho) as (r & sla1 & s1 & -> & Hok1 & Hx1 & Hs1). cbn.
  destruct (IH sla1 s1 Hok1 Hos) as (rs & sla2 & s2 & -> & Hok2 & Hx2 & Hs2). cbn.
  eexists _, _, _. split; [done|]. split; [done|]. split; [by eapply extends_trans|]. by econstructor.
Qed.

(** ** Pages of others come and go *)

Definition tree_page (s : S) (sla : MMSLA) (m : Z) : Prop :=
  m ≠ PFN_INVALID ∧ ∃ L path, in_tree L path ∧ node s sla L path = m.

Lemma sla_ok_frame s s' sla :
  sla_ok s sla → pf_ok s' →
  (∀ m, tree_page s sla m → pf_refs s' m = pf_refs s m ∧ pf_mem s' !! m = pf_mem s !! m) →
  sla_ok s' sla ∧ same_entries s sla s' sla ∧ ∀ L path, in_tree L path → node s' sla L path = node s sla L path.
Proof.
  intros Hok Hpf Hm.
  assert (∀ L path, in_tree L path → node s' sla L path = node s sla L path) as Hnode.
  { intros L path Ht. apply node_same. intros a i c E Hv. apply Hm. split; [done|]. exists L, a. split; [|done].
    rewrite E in Ht. by eapply in_tree_prefix. }
  split; [|split; [|done]].
  - split; [done|apply (so_direct _ _ Hok)|apply (so_indirect _ _ Hok)| |].
    + intros L path Ht. rewrite Hnode by done. intros Hv. unfold good_page.
      destruct (Hm (node s sla L path)) as [-> ->]; [split; [done|by exists L, path]|]. by apply (so_pages _ _ Hok).
    + intros L1 p1 L2 p2 H1 H2. rewrite !Hnode by done. by apply (so_once _ _ Hok).
  - intros j Hj. unfold entry_at. pose proof (place_of_ok j Hj) as Hp.
    destruct (place_of j) as [i|L path k|]; cbn in Hp; [done| |done].
    destruct Hp as (Ht & _ & _). rewrite Hnode by done. cbv zeta.
    destruct (Z.eqb_spec (node s sla L path) PFN_INVALID) as [|Hv]; [done|].
    destruct (Hm (node s sla L path)) as [_ ->]; [split; [done|by exists L, path]|]. done.
Qed.

Lemma foreign_not_tree s sla m : foreign s sla m → ¬ tree_page s sla m.
Proof. intros [_ Hf] (_ & L & path & Ht & E). by apply (Hf L path). Qed.

Lemma tree_page_refs s sla m : sla_ok s sla → tree_page s sla m → pf_refs s m = Some 1.
Proof. intros Hok (Hv & L & path & Ht & <-). by destruct (so_pages _ _ Hok _ _ Ht Hv). Qed.

(** ** Sections *)

(** A section keeps one reference to each of its pages, which no other offset
    has; its array's own pages are not among them. *)
Record section_ok (s : S) (sec : MMSECTION) : Prop := {
  sec_sla : sla_ok s (Sla sec);
  sec_pages j : 0 ≤ j < 2 ^ 64 → entry_at s (Sla sec) j ≠ MM_SLA_NO_DATA → foreign s (Sla sec) (entry_at s (Sla sec) j);
  sec_once j k : 0 ≤ j < 2 ^ 64 → 0 ≤ k < 2 ^ 64 → entry_at s (Sla sec) j = entry_at s (Sla sec) k →
    entry_at s (Sla sec) j ≠ MM_SLA_NO_DATA → j = k;
}.

Lemma frame_u32 n : frame n → u32 n = n.
Proof. intros [? ?]. unfold MM_PFN_OUTOFMEMORY in *. rewrite wrap_small; lia. Qed.

Lemma foreign_frame s sla m : pf_ok s → foreign s sla m → frame m.
Proof. intros Hpf [[r Hr] _]. by destruct (pf_refs_frame _ _ _ Hpf Hr). Qed.

Definition section_page (s : S) (sec : MMSECTION) (m : Z) : Prop :=
  m ≠ MM_SLA_NO_DATA ∧ ∃ j, 0 ≤ j < 2 ^ 64 ∧ entry_at s (Sla sec) j = m.

(** A change of pages that are neither the array's nor the section's, or of the
    references to the latter. *)
Lemma section_ok_frame s s' sec :
  section_ok s sec → pf_ok s' →
  (∀ m, tree_page s (Sla sec) m → pf_refs s' m = pf_refs s m ∧ pf_mem s' !! m = pf_mem s !! m) →
  (∀ m, section_page s sec m → is_Some (pf_refs s' m)) →
  section_ok s' sec ∧ same_entries s (Sla sec) s' (Sla sec) ∧ ∀ L path, in_tree L path → node s' (Sla sec) L path = node s (Sla sec) L path.
Proof.
  intros [Hok Hpages Honce] Hpf Htree Hrefs.
  destruct (sla_ok_frame s s' (Sla sec) Hok Hpf Htree) as (Hok' & He & Hn).
  split; [|done]. split; [done| |].
  - intros j Hj. rewrite He by done. intros Hv. destruct (Hpages j Hj Hv) as [Hr Hnt]. split.
    + apply Hrefs. split; [done|by exists j].
    + intros L path Ht. rewrite Hn by done. by apply Hnt.
  - intros j k Hj Hk. rewrite !He by done. by apply Honce.
Qed.

Lemma section_page_foreign s sec m : section_ok s sec → section_page s sec m → foreign s (Sla sec) m.
Proof. intros Hsec (Hv & j & Hj & <-). by apply (sec_pages _ _ Hsec). Qed.

Lemma reference_section s sec m r :
  section_ok s sec → foreign s (Sla sec) m → pf_refs s m = Some r →
  ∃ s', pf_reference m s = Ok s' ∧ section_ok s' sec ∧ same_entries s (Sla sec) s' (Sla sec) ∧
    pf_refs s' m = Some (r + 1) ∧ pf_mem s' = pf_mem s ∧ (∀ n, n ≠ m → pf_refs s' n = pf_refs s n) ∧
    ∀ L path, in_tree L path → node s' (Sla sec) L path = node s (Sla sec) L path.
Proof.
  intros Hsec Hf Hr. pose proof (so_frames _ _ (sec_sla _ _ Hsec)) as Hpf.
  destruct (pf_reference_spec s m r Hpf Hr) as (s' & -> & Hpf' & Hm & Hr' & Hoth).
  destruct (section_ok_frame s s' sec Hsec Hpf') as (H1 & H2 & H3); [| |by exists s'].
  - intros n Hn. split; [|by rewrite Hm]. apply Hoth. intros ->. by apply foreign_not_tree in Hf.
  - intros n Hn. destruct (decide (n = m)) as [->|Hne]; [by eexists|].
    rewrite Hoth by done. by apply (section_page_foreign _ _ _ Hsec) in Hn as [? _].
Qed.

(** A page taken for a section, before its array knows it. *)
Lemma alloc_section s sec :
  section_ok s sec →
  pf_alloc s = Ok (PFN_INVALID, s) ∨
  ∃ n s', pf_alloc s = Ok (n, s') ∧ section_ok s' sec ∧ same_entries s (Sla sec) s' (Sla sec) ∧ frame n ∧
    foreign s' (Sla sec) n ∧ pf_refs s n = None ∧ pf_refs s' n = Some 1 ∧ pf_mem s' !! n = Some zeros ∧ ¬ section_page s sec n ∧
    is_Some (pf_mem s !! n) ∧ (∀ m, m ≠ n → pf_refs s' m = pf_refs s m ∧ pf_mem s' !! m = pf_mem s !! m) ∧
    ∀ L path, in_tree L path → node s' (Sla sec) L path = node s (Sla sec) L path.
Proof.
  intros Hsec. pose proof (sec_sla _ _ Hsec) as Hok.
  destruct (pf_alloc_spec s (so_frames _ _ Hok)) as [->|(n & s' & Ea & Hpf & Hfr & Hr & Hr' & Hm & Hoth)]; [by left|]. right.
  pose proof (pf_alloc_mem s n s' (so_frames _ _ Hok) Ea (frame_not_invalid n Hfr)) as Hd. exists n, s'. split; [done|].
  assert (¬ section_page s sec n) as Hnp.
  { intros Hp. apply (section_page_foreign _ _ _ Hsec) in Hp as [[? ?] _]. congruence. }
  assert (∀ m, tree_page s (Sla sec) m → m ≠ n) as Hnt.
  { intros m Hm' ->. apply (tree_page_refs _ _ _ Hok) in Hm'. congruence. }
  destruct (section_ok_frame s s' sec Hsec Hpf) as (H1 & H2 & H3).
  - intros m Hm'. by apply Hoth, Hnt.
  - intros m Hm'. destruct (section_page_foreign _ _ _ Hsec Hm') as [Hs _].
    rewrite (proj1 (Hoth m ltac:(by intros ->))). done.
  - split; [done|]. split; [done|]. split; [done|]. split; [|done]. split; [by eexists|].
    intros L path Ht. rewrite H3 by done. intros E. apply (Hnt n); [|done]. split; [by apply frame_not_invalid|]. by exists L, path.
Qed.

(** What [MmpGetPageSection] may do. *)
Definition got_page (s : S) (sec : MMSECTION) (off : Z) (St : BSTATUS) (Pfn : option Z) (sec' : MMSECTION) (s' : S) : Prop :=
  let A := entry_at s (Sla sec) in let A' := entry_at s' (Sla sec') in
  match Pfn with
  | None => St = STATUS_INSUFFICIENT_MEMORY ∧ A off = MM_SLA_NO_DATA ∧ ∀ j, 0 ≤ j < 2 ^ 64 → A' j = A j
  | Some n =>
      St = STATUS_SUCCESS ∧ (∀ j, 0 ≤ j < 2 ^ 64 → A' j = if decide (j = off) then n else A j) ∧
      if decide (A off = MM_SLA_NO_DATA)
      then pf_refs s n = None ∧ pf_refs s' n = Some 2 ∧ pf_mem s' !! n = Some zeros
      else A off = n ∧ pf_mem s' !! n = pf_mem s !! n ∧ ∃ r, pf_refs s n = Some r ∧ pf_refs s' n = Some (r + 1)
  end.

(** The array has changed but for the section's pages. *)
Lemma extends_section s sec sla' s' n :
  section_ok s sec → sla_ok s' sla' → extends s (Sla sec) s' sla' → foreign s (Sla sec) n → ¬ section_page s sec n →
  ∀ off, (∀ j, 0 ≤ j < 2 ^ 64 → entry_at s' sla' j = if decide (j = off) then n else entry_at s (Sla sec) j) ∨
         same_entries s (Sla sec) s' sla' →
  section_ok s' (mkSection sla' (MaxSizePages sec)).
Proof.
  intros [Hok Hpages Honce] Hok' (_ & Hx & _) Hf Hnp off He. split; [done| |]; cbn.
  - intros j Hj Hv. destruct He as [He|He]; rewrite He in Hv |- * by done; [|by apply Hx, Hpages].
    case_decide; [by apply Hx|by apply Hx, Hpages].
  - intros j k Hj Hk. destruct He as [He|He]; rewrite !He by done; [|by apply Honce].
    repeat case_decide; subst; try done.
    + intros E Hv. exfalso. apply Hnp. split; [done|]. by exists k.
    + intros E Hv. exfalso. apply Hnp. split; [by rewrite <-E|]. by exists j.
    + by apply Honce.
Qed.

(** Pages that are neither the array's nor the section's do not notice. *)
Definition outside (s : S) (sec : MMSECTION) (m : Z) : Prop := foreign s (Sla sec) m ∧ ¬ section_page s sec m.

Record outsiders_kept (s : S) (sec : MMSECTION) (s' : S) (sec' : MMSECTION) : Prop := {
  os_page m : outside s sec m → outside s' sec' m ∧ pf_refs s' m = pf_refs s m ∧ pf_mem s' !! m = pf_mem s !! m;
  os_foreign m : foreign s (Sla sec) m → pf_mem s' !! m = pf_mem s !! m;
  os_domain m : is_Some (pf_mem s' !! m) → is_Some (pf_mem s !! m);
}.

Lemma outside_same s s' sec m : outside s sec m → is_Some (pf_refs s' m) → same_entries s (Sla sec) s' (Sla sec) →
  (∀ L path, in_tree L path → node s' (Sla sec) L path = node s (Sla sec) L path) → outside s' sec m.
Proof.
  intros [[_ Hf] Hp] Hr He Hn. split; [split; [done|]|].
  - intros L path Ht. rewrite Hn by done. by apply Hf.
  - intros (Hv & j & Hj & E). apply Hp. split; [done|]. exists j. by rewrite <-He.
Qed.

(** The page that the section has at an offset, with one more reference. *)
Lemma present_page_spec s sec off : section_ok s sec → 0 ≤ off < 2 ^ 64 → entry_at s (Sla sec) off ≠ MM_SLA_NO_DATA →
  ∃ s', pf_reference (u32 (entry_at s (Sla sec) off)) s = Ok s' ∧ section_ok s' sec ∧ outsiders_kept s sec s' sec ∧
    got_page s sec off STATUS_SUCCESS (Some (u32 (entry_at s (Sla sec) off))) sec s'.
Proof.
  intros Hsec Hoff E. pose proof (sec_pages _ _ Hsec off Hoff E) as Hf. pose proof Hf as [[r Hr] _].
  rewrite (frame_u32 _ (foreign_frame _ _ _ (so_frames _ _ (sec_sla _ _ Hsec)) Hf)).
  destruct (reference_section s sec _ r Hsec Hf Hr) as (s' & -> & Hsec' & He & Hr' & Hm & Ho & Hn). exists s'. split; [done|]. split; [done|]. split.
  - split; [|by rewrite Hm|by rewrite Hm]. intros m Hmo. assert (m ≠ entry_at s (Sla sec) off) as Hne by (intros ->; apply Hmo; split; [done|by exists off]).
    split; [|by rewrite Ho, Hm by done]. apply (outside_same s); [done| |done|done]. rewrite Ho by done. apply Hmo.
  - cbn. split; [done|]. split.
    + intros j Hj. rewrite He by done. by case_decide; subst.
    + rewrite decide_False by done. split; [done|]. split; [by rewrite Hm|]. by exists r.
Qed.

(** Assigning a page of its own to an offset of a section. *)
Lemma assign_section s sec off n : section_ok s sec → 0 ≤ off < max_entries → frame n → foreign s (Sla sec) n → ¬ section_page s sec n →
  ∃ r sla' s', MmAssignEntrySla (Sla sec) off n s = Ok (r, sla', s') ∧ section_ok s' (mkSection sla' (MaxSizePages sec)) ∧ extends s (Sla sec) s' sla' ∧
    (∀ m, m ≠ n → outside s sec m → outside s' (mkSection sla' (MaxSizePages sec)) m) ∧
    (r = n ∧ (∀ j, 0 ≤ j < 2 ^ 64 → entry_at s' sla' j = if decide (j = off) then n else entry_at s (Sla sec) j) ∨
     r = MM_SLA_OUT_OF_MEMORY ∧ same_entries s (Sla sec) s' sla').
Proof.
  intros Hsec Hoff Hfr Hf Hnp. assert (max_entries < 2 ^ 64) as Hmax by done. assert (0 ≤ n < 2 ^ 64) as Hn64 by (destruct Hfr; unfold MM_PFN_OUTOFMEMORY in *; lia).
  unfold MmAssignEntrySla, MmAssignEntrySlaEx. destruct (assign_spec (Sla sec) off n s (sec_sla _ _ Hsec) ltac:(lia) Hn64) as (r & ptr & sla' & s' & -> & Has).
  assert (assigned s (Sla sec) off n r ptr sla' s') as (Hok' & Hx & H3).
  { pose proof (place_of_some off Hoff). destruct (place_of off); done. }
  exists r, sla', s'. split; [done|]. split.
  { eapply (extends_section s sec sla' s' n); try done. destruct H3 as [(_ & _ & ?)|[_ ?]]; [by left|by right]. }
  split; [done|]. split; [|destruct H3 as [(-> & _ & ?)|[-> ?]]; [by left|by right]].
  intros m Hne [Hmf Hmp]. split; [by apply Hx|]. intros (Hv & j & Hj & Ej). cbn in Ej.
  destruct H3 as [(_ & _ & H3)|[_ H3]]; rewrite H3 in Ej by done; [case_decide; [done|]|]; apply Hmp; (split; [done|by exists j]).
Qed.

(** A new page for an offset where the section has none. *)
Lemma absent_page_spec s sec off n s1 : section_ok s sec → 0 ≤ off < max_entries → entry_at s (Sla sec) off = MM_SLA_NO_DATA →
  frame n → pf_refs s n = None → section_ok s1 sec → same_entries s (Sla sec) s1 (Sla sec) → foreign s1 (Sla sec) n → pf_refs s1 n = Some 1 → pf_mem s1 !! n = Some zeros →
  ¬ section_page s1 sec n → (∀ m, foreign s (Sla sec) m → foreign s1 (Sla sec) m) → outsiders_kept s sec s1 sec →
  ∃ St Pfn sec' s',
    ('(NewEntry, sla, s) ← MmAssignEntrySla (Sla sec) off n s1;
     if NewEntry =? MM_SLA_OUT_OF_MEMORY then s ← pf_free n s; Ok (STATUS_INSUFFICIENT_MEMORY, None, mkSection sla (MaxSizePages sec), s)
     else _ ← check (NewEntry =? n); s ← pf_reference n s; Ok (STATUS_SUCCESS, Some n, mkSection sla (MaxSizePages sec), s)) = Ok (St, Pfn, sec', s') ∧
    section_ok s' sec' ∧ got_page s sec off St Pfn sec' s' ∧ outsiders_kept s sec s' sec'.
Proof.
  intros Hsec Hoff E Hfr Hr Hsec1 He1 Hf1 Hr1 Hm1 Hnp1 Hsame1 [Ho1 Hfm1 Hd1]. assert (max_entries < 2 ^ 64) as Hmax by done.
  assert (∀ m, outside s sec m → m ≠ n) as Hne by (intros m [[[r Hmr] _] _] ->; congruence).
  destruct (assign_section s1 sec off n Hsec1 Hoff Hfr Hf1 Hnp1) as (r & sla2 & s2 & -> & Hsec2 & Hx2 & Hout & H3). cbn [mbind outcome_bind].
  pose proof (proj1 (proj1 (proj2 Hx2) n Hf1)) as Hf2. pose proof (proj1 Hx2 _ _ Hr1) as Hr2.
  assert (∀ s3, (∀ m, m ≠ n → pf_refs s3 m = pf_refs s2 m) → pf_mem s3 = pf_mem s2 → same_entries s2 sla2 s3 sla2 →
    (∀ L path, in_tree L path → node s3 sla2 L path = node s2 sla2 L path) → outsiders_kept s sec s3 (mkSection sla2 (MaxSizePages sec))) as Hgo.
  { intros s3 Hr3 Hm3 He3 Hn3. split; [|intros m Hm; by rewrite Hm3, (proj2 (proj1 (proj2 Hx2) m (Hsame1 m Hm))), Hfm1|rewrite Hm3; intros m Hm; by apply Hd1, Hx2]. intros m Hmo. pose proof (Hne m Hmo) as Hmn.
    destruct (Ho1 m Hmo) as (Hmo1 & Ermo & Emo). destruct (proj1 (proj2 Hx2) m (proj1 Hmo1)) as [_ Hm2]. rewrite Hr3, Hm3, Hm2, Emo by done.
    pose proof Hmo as [[[r' Hr'] _] _]. assert (pf_refs s2 m = Some r') as Hr2m by (apply Hx2; congruence).
    split; [|split; [congruence|done]]. apply (outside_same s2); [by apply Hout|rewrite Hr3 by done; by eexists|done|done]. }
  destruct H3 as [(-> & Hj)|[-> Hj]].
  - assert ((n =? MM_SLA_OUT_OF_MEMORY) = false) as -> by (apply Z.eqb_neq; destruct Hfr; unfold MM_PFN_OUTOFMEMORY, MM_SLA_OUT_OF_MEMORY in *; lia).
    rewrite Z.eqb_refl. cbn [check mbind outcome_bind].
    destruct (reference_section s2 _ n 1 Hsec2 Hf2 Hr2) as (s3 & -> & Hsec3 & He3 & Hr3 & Hm3 & Ho3 & Hn3). cbn [mbind outcome_bind].
    eexists _, _, _, _. split; [done|]. split; [done|]. split; [|by apply Hgo]. cbn in *. split; [done|]. split.
    + intros j Hj'. rewrite He3, Hj by done. case_decide; [done|by apply He1].
    + rewrite decide_True by done. split; [done|]. split; [done|]. rewrite Hm3, (proj2 (proj1 (proj2 Hx2) n Hf1)). done.
  - rewrite Z.eqb_refl. destruct (pf_free_spec s2 n 1 (so_frames _ _ (sec_sla _ _ Hsec2)) Hr2) as (s3 & -> & Hpf3 & Hm3 & _ & Hoth3). cbn [mbind outcome_bind].
    destruct (section_ok_frame s2 s3 _ Hsec2 Hpf3) as (Hsec3 & He3 & Hn3).
    { intros m Hm. rewrite Hm3. split; [|done]. apply Hoth3. intros ->. by apply foreign_not_tree in Hf2. }
    { intros m Hm. rewrite Hoth3; [by apply (section_page_foreign _ _ _ Hsec2) in Hm as [? _]|].
      intros ->. destruct Hm as (Hv & j & Hj' & Ej). cbn in Ej. apply Hnp1. split; [done|]. exists j. by rewrite <-Hj. }
    eexists _, _, _, _. split; [done|]. split; [done|]. split; [|by apply Hgo]. cbn in *. split; [done|]. split; [done|]. intros j Hj'. by rewrite He3, Hj, He1.
Qed.

Lemma MmpGetPageSection_spec s sec off :
  section_ok s sec → 0 ≤ off < max_entries →
  ∃ St Pfn sec' s', MmpGetPageSection sec off s = Ok (St, Pfn, sec', s') ∧
    section_ok s' sec' ∧ got_page s sec off St Pfn sec' s' ∧ outsiders_kept s sec s' sec'.
Proof.
  intros Hsec Hoff. assert (max_entries < 2 ^ 64) as Hmax by done. assert (0 ≤ off < 2 ^ 64) as Hoff' by lia.
  pose proof (sec_sla _ _ Hsec) as Hok.
  unfold MmpGetPageSection, MmLookUpEntrySla, MmLookUpEntrySlaEx. rewrite lookup_spec by done.
  cbn [mbind outcome_bind]. destruct (Z.eqb_spec (entry_at s (Sla sec) off) MM_SLA_NO_DATA) as [E|E].
  2: { destruct (present_page_spec s sec off Hsec Hoff' E) as (s' & -> & Hsec' & Ho & Hg). cbn [mbind outcome_bind]. by eexists _, _, _, _. }
  destruct (alloc_section s sec Hsec) as [->|(n & s1 & -> & Hsec1 & He1 & Hfr & Hf1 & Hr & Hr1 & Hm1 & Hnp & Hd1 & Ho1 & Hn1)]; cbn [mbind outcome_bind].
  { rewrite Z.eqb_refl. eexists _, _, _, _. split; [done|]. by split. }
  rewrite (frame_valid n Hfr), (frame_u32 n Hfr). apply (absent_page_spec s sec off n s1); try done.
  - intros (Hv & j & Hj & Ej). apply Hnp. split; [done|]. exists j. by rewrite <-He1.
  - intros m [[r Hmr] Hf]. split; [|intros L path Ht; rewrite Hn1 by done; by apply Hf]. rewrite (proj1 (Ho1 m ltac:(congruence))). by eexists.
  - split.
    + intros m Hmo. assert (m ≠ n) as Hmn by (intros ->; destruct Hmo as [[[r Hmr] _] _]; congruence). destruct (Ho1 m Hmn) as [Er Em].
      split; [|done]. apply (outside_same s); [done| |done|done]. rewrite Er. apply Hmo.
    + intros m [[r Hmr] _]. apply Ho1. congruence.
    + intros m. destruct (decide (m = n)) as [->|Hmn]; [done|by rewrite (proj2 (Ho1 m Hmn))].
Qed.

(** ** Freeing an array *)

Lemma little_ones_inv l : Forall byte l → little l = 256 ^ Z.of_nat (length l) - 1 → l = replicate (length l) 255.
Proof.
  induction 1 as [|x l [Hx Hx'] Hl IH]; [done|]. cbn [little length replicate].
  rewrite Nat2Z.inj_succ, Z.pow_succ_r by lia. pose proof (little_bound l Hl). intros Hv.
  assert (x = 255) as -> by lia. f_equal. apply IH. lia.
Qed.

(** Byte [t] of page [p] is 0xFF. *)
Definition ff (p : Z) (t : nat) (s : S) : Prop := ∃ b, pf_mem s !! p = Some b ∧ b !! t = Some 255.

Lemma inserts_ff k w (b : list Z) t : b !! t = Some 255 → list_inserts k (replicate w 255) b !! t = Some 255.
Proof.
  intros Ht. pose proof (lookup_lt_Some _ _ _ Ht). rewrite list_lookup_inserts_Some, length_replicate.
  destruct (decide (k ≤ t < k + w)%nat).
  - right. split; [lia|]. split; [done|]. by apply lookup_replicate_2; lia.
  - left. split; [lia|done].
Qed.

Lemma store_ff p t p' w b k v s :
  to_little w v = replicate w 255 → pf_mem s !! p' = Some b → ff p t s → ff p t (pf_store p' (set_word w b k v) s).
Proof.
  intros Hv Hb (b' & Hb' & Ht). unfold ff. rewrite pf_store_mem.
  destruct (decide (p' = p)) as [->|]; [|rewrite lookup_insert_ne by done; by exists b'].
  rewrite lookup_insert_eq. eexists. split; [done|]. unfold set_word. rewrite Hv.
  apply inserts_ff. congruence.
Qed.

(** [f] returns or stops the kernel, and clears no bit of byte [t] of [p]. *)
Definition leaves_ff (p : Z) (t : nat) (f : S → outcome S) : Prop :=
  ∀ s, f s ≠ OutOfFuel ∧ ∀ s', f s = Ok s' → ff p t s → ff p t s'.

Section freed.
Context (FreeEntryFunc : Z → S → outcome S).
Hypothesis free_total : ∀ e s, FreeEntryFunc e s ≠ OutOfFuel.
Hypothesis free_mem : ∀ e s s', FreeEntryFunc e s = Ok s' → pf_mem s' = pf_mem s.

Lemma page_total p s : page p s ≠ OutOfFuel.
Proof. unfold page. by destruct (pf_mem s !! p). Qed.

Lemma page_Ok p s b : page p s = Ok b ↔ pf_mem s !! p = Some b.
Proof. unfold page. destruct (pf_mem s !! p); cbn; split; congruence. Qed.

Lemma word_total w b i : ld_word w b i ≠ OutOfFuel.
Proof. unfold ld_word. by destruct (in_page w b i). Qed.

Lemma st_word_total w b i v : st_word w b i v ≠ OutOfFuel.
Proof. unfold st_word. by destruct (in_page w b i). Qed.

Lemma st_word_Ok w b i v b' : st_word w b i v = Ok b' → b' = set_word w b i v.
Proof. unfold st_word. destruct (in_page w b i); cbn; [by intros [= <-]|done]. Qed.

Lemma mem_ff p t s s' : pf_mem s' = pf_mem s → ff p t s → ff p t s'.
Proof. unfold ff. by intros ->. Qed.

Lemma free_entries_ff p t n : ∀ q i, leaves_ff p t (free_entries FreeEntryFunc n q i).
Proof.
  induction n as [|n IH]; intros q i s; cbn; [by split; [|intros s' [= <-]]|]. split.
  - apply bind_not_fuel; [apply page_total|intros b _]. apply bind_not_fuel; [apply word_total|intros e _].
    apply bind_not_fuel; [apply st_word_total|intros b' _]. apply bind_not_fuel; [apply free_total|intros s' _]. apply IH.
  - intros s' (b & Hb%page_Ok & (e & _ & (b' & ->%st_word_Ok & (s1 & H1 & H2)%bind_Ok)%bind_Ok)%bind_Ok)%bind_Ok Hff.
    eapply IH; [exact H2|]. eapply mem_ff; [by eapply free_mem|]. by eapply store_ff.
Qed.

Lemma free_frames_ff p t free_level n : (∀ q, leaves_ff p t (free_level q)) →
  ∀ q i, leaves_ff p t (free_frames free_level n q i).
Proof.
  intros Hlevel. induction n as [|n IH]; intros q i s; cbn; [by split; [|intros s' [= <-]]|]. split.
  - apply bind_not_fuel; [apply page_total|intros b _]. apply bind_not_fuel; [apply word_total|intros e _].
    apply bind_not_fuel; [apply st_word_total|intros b' _]. cbv zeta.
    apply bind_not_fuel; [case_match; [apply Hlevel|done]|intros s' _].
    apply bind_not_fuel; [apply pf_free_total|intros s1 _]. apply IH.
  - intros s' (b & Hb%page_Ok & (e & _ & (b' & ->%st_word_Ok & (s1 & H1 & (s2 & H2%pf_free_mem & H3)%bind_Ok)%bind_Ok)%bind_Ok)%bind_Ok)%bind_Ok Hff.
    eapply IH; [exact H3|]. eapply mem_ff; [exact H2|].
    assert (ff p t (pf_store q (set_word 4 b i PFN_INVALID) s)) as Hff1 by (by eapply store_ff).
    case_match; [by eapply Hlevel|by injection H1 as <-].
Qed.

(** The loop over a page that lacks an entry does not end well. *)
Lemma free_frames_crash free_level q k n : (∀ p t q, leaves_ff p t (free_level q)) →
  ∀ i s, 0 ≤ i ≤ k → k < i + Z.of_nat n → (∀ t, (t < 4)%nat → ff q (Z.to_nat k * 4 + t) s) →
  free_frames free_level n q i s = Crash.
Proof.
  intros Hlevel. induction n as [|n IH]; intros i s Hik Hn Hff; [lia|].
  destruct (free_frames free_level (Datatypes.S n) q i s) as [s'| |] eqn:E; [|done|].
  2: { by apply (free_frames_ff q 0 free_level (Datatypes.S n) (Hlevel q 0%nat)) in E. }
  exfalso. cbn in E.
  apply bind_Ok in E as (b & Hb%page_Ok & (e & He & (b' & ->%st_word_Ok & (s1 & H1 & (s2 & H2 & H3)%bind_Ok)%bind_Ok)%bind_Ok)%bind_Ok).
  destruct (decide (i = k)) as [->|Hne].
  - assert (e = PFN_INVALID) as ->.
    { unfold ld_word in He. destruct (in_page 4 b k) eqn:Hp; [|done]. cbn in He. injection He as <-.
      unfold word. transitivity (little (replicate 4 255)); [|done]. f_equal. apply list_eq. intros t.
      destruct (decide (t < 4)%nat).
      - destruct (Hff t) as (b1 & Hb1 & Ht); [done|]. assert (b1 = b) as -> by congruence.
        rewrite lookup_take_lt, lookup_drop, Ht by done. symmetry. by apply lookup_replicate_2.
      - rewrite lookup_take_ge by lia. symmetry. apply lookup_ge_None. rewrite length_replicate. lia. }
    rewrite Z.eqb_refl in H1. cbn in H1. injection H1 as <-. by rewrite pf_free_invalid in H2.
  - rewrite (IH (i + 1) s2) in H3; [done|lia|lia|]. intros t Ht.
    eapply mem_ff; [by eapply pf_free_mem|].
    assert (ff q (Z.to_nat k * 4 + t) (pf_store q (set_word 4 b i PFN_INVALID) s)) as Hff1 by (eapply store_ff; [done|done|auto]).
    case_match; [by eapply Hlevel|by injection H1 as <-].
Qed.

#[local] Arguments free_entries : simpl never.
#[local] Arguments free_frames : simpl never.
#[local] Arguments MmpFreeSlaFinalLevel : simpl never.

Lemma level_ff p t L : ∀ q, leaves_ff p t (MmpFreeSlaIntermediateLevel FreeEntryFunc L q).
Proof.
  induction L as [|L IH]; intros q s; cbn; case_match; try (by split; [|intros s' [= <-]]).
  - apply free_entries_ff.
  - by apply free_frames_ff.
Qed.

Lemma free_direct_ff p t es : leaves_ff p t (free_direct FreeEntryFunc es).
Proof.
  induction es as [|e es IH]; intros s; cbn; [by split; [|intros s' [= <-]]|]. split.
  - apply bind_not_fuel; [apply free_total|intros s1 _]. apply IH.
  - intros s' (s1 & H1%free_mem & H2)%bind_Ok Hff. eapply IH; [exact H2|]. by eapply mem_ff.
Qed.

Lemma free_levels_crash ps : ∀ j s L q k,
  ps !! L = Some q → (0 < j + L)%nat → q ≠ PFN_INVALID → digit k →
  (∀ t, (t < 4)%nat → ff q (Z.to_nat k * 4 + t) s) → free_levels FreeEntryFunc j ps s = Crash.
Proof.
  induction ps as [|p ps IH]; intros j s L q k HL Hj Hq [Hk Hk'] Hff; [done|]. cbn.
  destruct L as [|L].
  - injection HL as ->. destruct j as [|j]; [lia|]. cbn. rewrite (proj2 (Z.eqb_neq _ _) Hq).
    rewrite (free_frames_crash _ q k); [done| |lia|rewrite PFN_ENTRIES in *; lia|done].
    intros p t q'. apply level_ff.
  - destruct (MmpFreeSlaIntermediateLevel FreeEntryFunc j p s) as [s1| |] eqn:E; cbn; [|done|].
    + eapply (IH _ _ L); [done|lia|done|done|]. intros t Ht. eapply (level_ff q _ j p); [exact E|auto].
    + by apply (level_ff q 0 j p) in E.
Qed.

Lemma MmDeinitializeSla_crash sla s L q b k :
  Indirect sla !! L = Some q → (0 < L)%nat → q ≠ PFN_INVALID → pf_mem s !! q = Some b → Forall byte b →
  length b = Z.to_nat PAGE_SIZE → digit k → word 4 b k = PFN_INVALID →
  MmDeinitializeSla FreeEntryFunc sla s = Crash.
Proof.
  intros HL HL0 Hq Hb Hbytes Hlen Hk Hw.
  assert (∀ t, (t < 4)%nat → ff q (Z.to_nat k * 4 + t) s) as Hff.
  { intros t Ht. exists b. split; [done|].
    assert (take 4 (drop (Z.to_nat k * 4) b) = replicate 4 255) as Hr.
    { pose proof (in_page_digit b k Hlen Hk) as Hp. unfold in_page in Hp. rewrite andb_true_iff, Nat.leb_le in Hp.
      assert (length (take 4 (drop (Z.to_nat k * 4) b)) = 4%nat) as Hl by (rewrite length_take, length_drop; lia).
      pose proof (little_ones_inv (take 4 (drop (Z.to_nat k * 4) b))) as Hinv. rewrite Hl in Hinv.
      apply Hinv; [by apply Forall_take, Forall_drop|exact Hw]. }
    rewrite <-lookup_drop, <-(lookup_take_lt _ 4), Hr by done. by apply lookup_replicate_2. }
  unfold MmDeinitializeSla. destruct (free_direct FreeEntryFunc (Direct sla) s) as [s1| |] eqn:E; cbn; [|done|].
  - eapply free_levels_crash; [done|lia|done|done|]. intros t Ht. eapply (free_direct_ff q); [exact E|auto].
  - by apply (free_direct_ff q 0) in E.
Qed.
End freed.
End sla.

(** ** Theorems *)

(** C18: whatever pages it is given, a sparse linear array behaves as a plain
    array of [max_entries] words over any sequence of lookups and assignments:
    a lookup returns the value last assigned, or that there is no data; an
    assignment changes its own entry only, or reports that memory ran out and
    changes none; and no page outside the array is touched. *)
Theorem sla_is_array {S} `{PageFrameLaws S} os (sla : MMSLA) (s : S) :
  sla_ok s sla → Forall op_allowed os →
  ∃ rs sla' s', sla_run os sla s = Ok (rs, sla', s') ∧ sla_ok s' sla' ∧ extends s sla s' sla' ∧
    array_steps (entry_at s sla) os rs (entry_at s' sla').
Proof. apply sla_run_spec. Qed.

(** Asking a section for the page at an offset returns the page that it
    has there, with one more reference, or else a new page full of zeros, which
    no one else has; no other offset changes; when memory has run out the
    section is as it was.  Offsets never share a page. *)
Theorem MmpGetPageSection_correct {S} `{PageFrameLaws S} (s : S) sec off :
  section_ok s sec → 0 ≤ off < max_entries →
  ∃ St Pfn sec' s', MmpGetPageSection sec off s = Ok (St, Pfn, sec', s') ∧
    section_ok s' sec' ∧ got_page s sec off St Pfn sec' s'.
Proof.
  intros Hsec Hoff. destruct (MmpGetPageSection_spec s sec off Hsec Hoff) as (St & Pfn & sec' & s' & Hg & Hok & Hp & _). by exists St, Pfn, sec', s'.
Qed.

(** Deleting a section that has a page of frame numbers with a gap stops
    the kernel: the gap is handed to [MmFreePhysicalPage]. *)
Theorem MmDeleteSectionObject_crashes {S} `{PageFrameLaws S} sec (s : S) L q b k :
  Indirect (Sla sec) !! L = Some q → (0 < L)%nat → q ≠ PFN_INVALID → pf_mem s !! q = Some b → Forall byte b →
  length b = Z.to_nat PAGE_SIZE → digit k → word 4 b k = PFN_INVALID →
  MmDeleteSectionObject sec s = Crash.
Proof.
  apply MmDeinitializeSla_crash.
  - intros e s'. unfold MmpFreeEntrySectionObject. case_match; [apply pf_free_total|done].
  - intros e s1 s2. unfold MmpFreeEntrySectionObject. case_match; [apply pf_free_mem|by intros [= ->]].
Qed.

(** ** Witnesses *)

Lemma small_ok : pmm_ok small_state.
Proof. exists small_lists, []. apply small_inv. Qed.

(** An offset of the second level, one of the direct entries, and the pages of
    the small machine of [Pmm]. *)
Lemma sla_is_array_witness :
  ∃ rs sla' s', sla_run [Assign 600 7; Lookup 600; Lookup 601; Assign 2 9; Lookup 2] MmInitializeSla small_state =
      Ok (rs, sla', s') ∧ rs = [7; 7; MM_SLA_NO_DATA; 9; 9] ∧ sla_ok s' sla'.
Proof.
  destruct (sla_is_array [Assign 600 7; Lookup 600; Lookup 601; Assign 2 9; Lookup 2] MmInitializeSla small_state)
    as (rs & sla' & s' & Hr & Hok & _).
  - exact (proj1 (MmInitializeSla_ok small_state small_ok)).
  - repeat constructor; vm_compute; congruence.
  - exists rs, sla', s'. split; [exact Hr|]. split; [|exact Hok].
    enough (match sla_run [Assign 600 7; Lookup 600; Lookup 601; Assign 2 9; Lookup 2] MmInitializeSla small_state with
            | Ok (rs, _, _) => rs = [7; 7; MM_SLA_NO_DATA; 9; 9] | _ => False end) as E by (by rewrite Hr in E).
    vm_compute. reflexivity.
Defined.

Lemma empty_section_ok {S} `{PageFrameLaws S} (s : S) MaxSize : pf_ok s → section_ok s (MmpInitializeSectionObject MaxSize).
Proof.
  intros Hpf. destruct (MmInitializeSla_ok s Hpf) as [Hok Hno]. split; [exact Hok| |]; cbn.
  - intros j Hj. by rewrite Hno.
  - intros j k Hj Hk. by rewrite Hno.
Qed.

Lemma MmpGetPageSection_correct_witness :
  ∃ sec' s', MmpGetPageSection (MmpInitializeSectionObject 8192) 600 small_state = Ok (STATUS_SUCCESS, Some 6, sec', s') ∧
    section_ok s' sec' ∧ pmm_refs s' 6 = Some 2.
Proof.
  destruct (MmpGetPageSection_correct small_state (MmpInitializeSectionObject 8192) 600)
    as (St & Pfn & sec' & s' & Hg & Hok & _).
  - exact (empty_section_ok small_state 8192 small_ok).
  - split; reflexivity || (vm_compute; congruence).
  - exists sec', s'.
    enough (match MmpGetPageSection (MmpInitializeSectionObject 8192) 600 small_state with
            | Ok (St, Pfn, _, s') => St = STATUS_SUCCESS ∧ Pfn = Some 6 ∧ pmm_refs s' 6 = Some 2 | _ => False end) as E.
    { rewrite Hg in E. destruct E as (-> & -> & E). split; [exact Hg|]. split; [exact Hok|exact E]. }
    vm_compute. split_and!; reflexivity.
Defined.

(** A section with one page, at an offset of the second level. *)
Definition gap : MMSLA * pmm :=
  match sla_run [Assign 600 7] MmInitializeSla small_state with
  | Ok (_, sla, s) => (sla, s)
  | _ => (MmInitializeSla, small_state)
  end.

Lemma MmDeleteSectionObject_crashes_witness :
  MmDeleteSectionObject (mkSection gap.1 1) gap.2 = Crash.
Proof.
  apply (MmDeleteSectionObject_crashes (mkSection gap.1 1) gap.2 1 6 (default [] (Mem gap.2 !! 6)) 0).
  - vm_compute. reflexivity.
  - lia.
  - done.
  - vm_compute. reflexivity.
  - apply (bool_decide_unpack _). vm_compute. exact I.
  - vm_compute. reflexivity.
  - split; reflexivity || (vm_compute; congruence).
  - vm_compute. reflexivity.
Defined.
