(* ===== verification/Mdl.v ===== *)
(** The memory descriptor lists of [boron/source/mm/mdl.c] (64-bit): the pages
    of a buffer are pinned, and copies go to them and from them through the
    higher half direct map, whatever address space is active.

    The pages come from the interface [PageFrames].  What the page tables and
    the probing of user memory answer changes while other threads run, so it is
    an argument: the [n]-th answer about an address. *)
From S2P Require Import Prelude Pmm Pages.
Local Open Scope Z_scope.

Definition PAGE_SIZE : Z := 4096.
Definition MDL_MAX_SIZE : Z := 4 * 1024 * 1024.
Definition MM_USER_SPACE_END : Z := 0x00007FFFFFFFFFFF.

(** [MDL_FLAG_CAPTURED] : boron/include/mm/mdl.h:24-33.
    The bits of [Flags]. *)
Record MDL_FLAGS := mkFlags {
  MDL_FLAG_CAPTURED : bool;
  MDL_FLAG_MAPPED : bool;
  MDL_FLAG_WRITE : bool;
  MDL_FLAG_FROMPOOL : bool }.

(** [MDL] : boron/include/mm/mdl.h:40-52.
    The process is a number; the entries of [Pages] that were not filled in are
    not in the list. *)
Record MDL := mkMdl {
  ByteOffset : Z;
  Flags : MDL_FLAGS;
  ByteCount : Z;
  SourceStartVA : Z;
  MappedStartVA : Z;
  NumberPages : Z;
  Pages : list Z }.

Definition set_Flags (v : MDL_FLAGS) (m : MDL) : MDL :=
  mkMdl (ByteOffset m) v (ByteCount m) (SourceStartVA m) (MappedStartVA m) (NumberPages m) (Pages m).
Definition set_MappedStartVA (v : Z) (m : MDL) : MDL :=
  mkMdl (ByteOffset m) (Flags m) (ByteCount m) (SourceStartVA m) v (NumberPages m) (Pages m).
Definition set_NumberPages (v : Z) (m : MDL) : MDL :=
  mkMdl (ByteOffset m) (Flags m) (ByteCount m) (SourceStartVA m) (MappedStartVA m) v (Pages m).
Definition set_Pages (v : list Z) (m : MDL) : MDL :=
  mkMdl (ByteOffset m) (Flags m) (ByteCount m) (SourceStartVA m) (MappedStartVA m) (NumberPages m) v.

Definition set_CAPTURED (b : bool) (m : MDL) : MDL :=
  set_Flags (mkFlags b (MDL_FLAG_MAPPED (Flags m)) (MDL_FLAG_WRITE (Flags m)) (MDL_FLAG_FROMPOOL (Flags m))) m.
Definition set_MAPPED (b : bool) (m : MDL) : MDL :=
  set_Flags (mkFlags (MDL_FLAG_CAPTURED (Flags m)) b (MDL_FLAG_WRITE (Flags m)) (MDL_FLAG_FROMPOOL (Flags m))) m.
Definition set_WRITE (b : bool) (m : MDL) : MDL :=
  set_Flags (mkFlags (MDL_FLAG_CAPTURED (Flags m)) (MDL_FLAG_MAPPED (Flags m)) b (MDL_FLAG_FROMPOOL (Flags m))) m.

(** ** Addresses *)

(** [MmIsAddressRangeValid] : boron/source/ke/amd64/probe.c:41-72. *)
Definition MmIsAddressRangeValid (Address Size : Z) (user : bool) : bool :=
  if Size =? 0 then false
  else
    let AddressEnd := u64 (Address + Size) in
    if AddressEnd <? Address then false
    else if user && (MM_USER_SPACE_END <? AddressEnd) then false
    else Z.land Address 0xFFFF800000000000 =? Z.land AddressEnd 0xFFFF800000000000.

(** [VirtualAddress & ~(PAGE_SIZE - 1)] *)
Definition page_down (a : Z) : Z := Z.ldiff a (PAGE_SIZE - 1).

(** [MmAllocateMdl] : boron/source/mm/mdl.c:114-147.
    [None] where the pool has no memory. *)
Definition MmAllocateMdl (pool : bool) (VirtualAddress Length : Z) : option MDL :=
  let StartPage := page_down VirtualAddress in
  let EndPage := page_down (u64 (VirtualAddress + Length + (PAGE_SIZE - 1))) in
  let NumPages := u64 (EndPage - StartPage) / PAGE_SIZE in
  if MDL_MAX_SIZE <=? Length then None
  else if negb (MmIsAddressRangeValid VirtualAddress Length false) then None
  else if negb pool then None
  else Some (mkMdl (Z.land VirtualAddress (PAGE_SIZE - 1)) (mkFlags false false false true) Length
               (page_down VirtualAddress) 0 NumPages []).

Section mdl.
Context {S : Type} `{PageFrames S}.

(** ** Copies *)

Definition bytes_till_next (Offset Size : Z) : Z :=
  let BytesTillNext := PAGE_SIZE - Offset mod PAGE_SIZE in
  if Size <? BytesTillNext then Size else BytesTillNext.

(** The page of an MDL that an offset is in. *)
Definition mdl_page (Mdl : MDL) (Offset : Z) (s : S) : outcome (Z * list Z) :=
  let PageIndex := Offset / PAGE_SIZE in
  _ ← check (PageIndex <? NumberPages Mdl);
  Pfn ← deref (Pages Mdl !! Z.to_nat PageIndex);
  page ← deref (pf_mem s !! Pfn);
  Ok (Pfn, page).

(** [MmCopyIntoMdl] : boron/source/mm/mdl.c:357-388. *)
Fixpoint copy_into (fuel : nat) (Mdl : MDL) (Offset : Z) (Source : list Z) (s : S) : outcome S :=
  match Source with
  | [] => Ok s
  | _ =>
      match fuel with
      | O => OutOfFuel
      | Datatypes.S fuel =>
          '(Pfn, page) ← mdl_page Mdl Offset s;
          let CopyAmount := bytes_till_next Offset (Z.of_nat (length Source)) in
          let n := Z.to_nat CopyAmount in
          copy_into fuel Mdl (Offset + CopyAmount) (drop n Source)
            (pf_store Pfn (list_inserts (Z.to_nat (Offset mod PAGE_SIZE)) (take n Source) page) s)
      end
  end.

(** [MmCopyIntoMdl] : boron/source/mm/mdl.c:343-393. *)
Definition MmCopyIntoMdl (Mdl : MDL) (Offset : Z) (Source : list Z) (s : S) : outcome S :=
  copy_into (length Source) Mdl (Offset + ByteOffset Mdl) Source s.

(** [MmCopyFromMdl] : boron/source/mm/mdl.c:409-442. *)
Fixpoint copy_from (fuel : nat) (Mdl : MDL) (Offset Size : Z) (s : S) : outcome (list Z) :=
  if Size =? 0 then Ok []
  else
    match fuel with
    | O => OutOfFuel
    | Datatypes.S fuel =>
        '(_, page) ← mdl_page Mdl Offset s;
        let CopyAmount := bytes_till_next Offset Size in
        rest ← copy_from fuel Mdl (Offset + CopyAmount) (Size - CopyAmount) s;
        Ok (take (Z.to_nat CopyAmount) (drop (Z.to_nat (Offset mod PAGE_SIZE)) page) ++ rest)
    end.

(** [MmCopyFromMdl] : boron/source/mm/mdl.c:395-447. *)
Definition MmCopyFromMdl (Mdl : MDL) (Offset Size : Z) (s : S) : outcome (list Z) :=
  copy_from (Z.to_nat Size) Mdl (Offset + ByteOffset Mdl) Size s.

(** [MmSetIntoMdl] : boron/source/mm/mdl.c:456-478. *)
Fixpoint set_into (fuel : nat) (Mdl : MDL) (Offset ToSet Size : Z) (s : S) : outcome S :=
  if Size =? 0 then Ok s
  else
    match fuel with
    | O => OutOfFuel
    | Datatypes.S fuel =>
        '(Pfn, page) ← mdl_page Mdl Offset s;
        let CopyAmount := bytes_till_next Offset Size in
        set_into fuel Mdl (Offset + CopyAmount) ToSet (Size - CopyAmount)
          (pf_store Pfn (list_inserts (Z.to_nat (Offset mod PAGE_SIZE)) (replicate (Z.to_nat CopyAmount) ToSet) page) s)
    end.

(** [MmSetIntoMdl] : boron/source/mm/mdl.c:449-479. *)
Definition MmSetIntoMdl (Mdl : MDL) (Offset ToSet Size : Z) (s : S) : outcome S :=
  set_into (Z.to_nat Size) Mdl (Offset + ByteOffset Mdl) ToSet Size s.

(** ** Pinning *)

(** [MmFreePhysicalPage] of each page. *)
Fixpoint free_pages (ps : list Z) (s : S) : outcome S :=
  match ps with
  | [] => Ok s
  | p :: ps => s ← pf_free p s; free_pages ps s
  end.

(** [MmUnmapPagesMdl] : boron/source/mm/mdl.c:19-27.
    [MiUnmapPages] drops the references that mapping took. *)
Definition MmUnmapPagesMdl (Mdl : MDL) (s : S) : outcome (MDL * S) :=
  if negb (MDL_FLAG_MAPPED (Flags Mdl)) then Ok (Mdl, s)
  else
    s ← free_pages (take (Z.to_nat (NumberPages Mdl)) (Pages Mdl)) s;
    Ok (set_MAPPED false Mdl, s).

(** [MmUnpinPagesMdl] : boron/source/mm/mdl.c:29-40. *)
Definition MmUnpinPagesMdl (Mdl : MDL) (s : S) : outcome (MDL * S) :=
  '(Mdl, s) ← MmUnmapPagesMdl Mdl s;
  if negb (MDL_FLAG_CAPTURED (Flags Mdl)) then Ok (Mdl, s)
  else
    _ ← check (NumberPages Mdl <=? Z.of_nat (length (Pages Mdl)));
    s ← free_pages (take (Z.to_nat (NumberPages Mdl)) (Pages Mdl)) s;
    Ok (set_CAPTURED false Mdl, s).

(** [MmFreeMdl] : boron/source/mm/mdl.c:42-49.
    The memory of the MDL itself is not part of the state. *)
Definition MmFreeMdl (Mdl : MDL) (s : S) : outcome S :=
  '(Mdl, s) ← MmUnmapPagesMdl Mdl s;
  '(_, s) ← MmUnpinPagesMdl Mdl s;
  Ok s.

(** [MmMapPinnedPagesMdl] : boron/source/mm/mdl.c:83-103.
    The loop over the pages [ps]: the index of the one that could not be
    mapped, as [room] answers, with its reference taken. *)
Fixpoint map_pages (room : nat → bool) (ps : list Z) (Index : nat) (s : S) : outcome (option nat * S) :=
  match ps with
  | [] => Ok (None, s)
  | p :: ps =>
      s ← pf_reference p s;
      if room Index then map_pages room ps (Datatypes.S Index) s else Ok (Some Index, s)
  end.

(** [MmMapPinnedPagesMdl] : boron/source/mm/mdl.c:51-113.
    [space] is the pool space that could be reserved, [room] whether there is
    memory for the page tables. *)
Definition MmMapPinnedPagesMdl (space : option Z) (room : nat → bool) (Mdl : MDL) (s : S)
  : outcome (BSTATUS * Z * MDL * S) :=
  if negb (MappedStartVA Mdl =? 0) then Ok (STATUS_NO_REMAP, MappedStartVA Mdl + ByteOffset Mdl, Mdl, s)
  else
    match space with
    | None => Ok (STATUS_INSUFFICIENT_MEMORY, 0, Mdl, s)
    | Some MapAddress =>
        let ps := take (Z.to_nat (NumberPages Mdl)) (Pages Mdl) in
        '(r, s) ← map_pages room ps 0 s;
        match r with
        | Some Index =>
            s ← free_pages (take Index ps) s;
            p ← deref (ps !! Index);
            s ← pf_free p s;
            Ok (STATUS_INSUFFICIENT_MEMORY, 0, Mdl, s)
        | None =>
            Ok (STATUS_SUCCESS, MapAddress + ByteOffset Mdl, set_MAPPED true (set_MappedStartVA MapAddress Mdl), s)
        end
    end.

(** [MmInitializeSinglePageMdl] : boron/source/mm/mdl.c:309-327. *)
Definition MmInitializeSinglePageMdl (Pfn : Z) (mdl_flags : MDL_FLAGS) (s : S) : outcome (MDL * S) :=
  let Mdl := mkMdl 0 mdl_flags PAGE_SIZE (2 ^ 64 - 1) 0 1 [] in
  s ← pf_reference Pfn s;
  Ok (set_CAPTURED true (set_Pages [Pfn] Mdl), s).

(** What the code reads of a page table entry. *)
Record PTE := mkPte { Present : bool; FromPmm : bool; Writable : bool; PtePfn : Z }.

(** The answers of the page tables and of [MmProbeAddress] after so many
    lookups in the page tables. *)
Record answers := mkAnswers { pte_at : nat → Z → option PTE; probe_at : nat → Z → BSTATUS }.

Variant pin_result :=
  | Pinned (Address : Z)
  | PinFailed (FailureReason : BSTATUS).

(** [MmProbeAndPinPagesMdl] : boron/source/mm/mdl.c:200-282.
    The loop around one page; [Index] is the number of pages in the list.  The
    page whose lookup has to be repeated is not the same: [continue] goes on
    with the inner loop. *)
Fixpoint pin_page (env : answers) (fuel : nat) (IsWrite : bool) (Address : Z) (Mdl : MDL) (t : nat) (s : S)
  : outcome (pin_result * MDL * nat * S) :=
  match fuel with
  | O => OutOfFuel
  | Datatypes.S fuel =>
      let try_fault :=
        match probe_at env (Datatypes.S t) Address with
        | STATUS_SUCCESS => pin_page env fuel IsWrite (u64 (Address - PAGE_SIZE)) Mdl (Datatypes.S t) s
        | ProbeStatus => Ok (PinFailed ProbeStatus, Mdl, Datatypes.S t, s)
        end in
      match pte_at env t Address with
      | None => try_fault
      | Some Pte =>
          if negb (Present Pte) then try_fault
          else if negb (FromPmm Pte) then Ok (PinFailed STATUS_INVALID_PARAMETER, Mdl, Datatypes.S t, s)
          else if negb (Writable Pte) && IsWrite then try_fault
          else
            s ← pf_reference (PtePfn Pte) s;
            _ ← check (Z.of_nat (length (Pages Mdl)) <? NumberPages Mdl);
            Ok (Pinned Address, set_Pages (Pages Mdl ++ [PtePfn Pte]) Mdl, Datatypes.S t, s)
      end
  end.

(** [MmProbeAndPinPagesMdl] : boron/source/mm/mdl.c:198-286. *)
Fixpoint pin_pages (env : answers) (fuel : nat) (IsWrite : bool) (Address EndPage : Z) (Mdl : MDL) (t : nat) (s : S)
  : outcome (BSTATUS * MDL * S) :=
  if negb (Address <? EndPage) then Ok (STATUS_SUCCESS, Mdl, s)
  else
    match fuel with
    | O => OutOfFuel
    | Datatypes.S fuel =>
        '(r, Mdl, t, s) ← pin_page env fuel IsWrite Address Mdl t s;
        match r with
        | PinFailed FailureReason => Ok (FailureReason, Mdl, s)
        | Pinned Address => pin_pages env fuel IsWrite (u64 (Address + PAGE_SIZE)) EndPage Mdl t s
        end
    end.

(** [MmProbeAndPinPagesMdl] : boron/source/mm/mdl.c:174-184.
    The loop that faults the pages in. *)
Fixpoint probe_pages (env : answers) (fuel : nat) (Address EndPage : Z) : outcome BSTATUS :=
  if negb (Address <? EndPage) then Ok STATUS_SUCCESS
  else
    match fuel with
    | O => OutOfFuel
    | Datatypes.S fuel =>
        match probe_at env 0 Address with
        | STATUS_SUCCESS => probe_pages env fuel (u64 (Address + PAGE_SIZE)) EndPage
        | ProbeStatus => Ok ProbeStatus
        end
    end.

(** [MmProbeAndPinPagesMdl] : boron/source/mm/mdl.c:150-307.
    In the address space of the process of the MDL. *)
Definition MmProbeAndPinPagesMdl (env : answers) (fuel : nat) (user IsWrite : bool) (Mdl : MDL) (s : S)
  : outcome (BSTATUS * MDL * S) :=
  let VirtualAddress := SourceStartVA Mdl in
  let Size := ByteCount Mdl in
  let StartPage := page_down VirtualAddress in
  let EndPage := page_down (u64 (VirtualAddress + ByteOffset Mdl + Size + (PAGE_SIZE - 1))) in
  if MDL_MAX_SIZE <=? Size then Ok (STATUS_INVALID_PARAMETER, Mdl, s)
  else if negb (MmIsAddressRangeValid VirtualAddress Size user) then Ok (STATUS_INVALID_PARAMETER, Mdl, s)
  else if user && (MM_USER_SPACE_END <? EndPage) then Ok (STATUS_INVALID_PARAMETER, Mdl, s)
  else
    FailureReason ← probe_pages env fuel StartPage EndPage;
    if FAILED FailureReason then Ok (FailureReason, Mdl, s)
    else
      '(FailureReason, Mdl, s) ← pin_pages env fuel IsWrite StartPage EndPage Mdl 0 s;
      let Mdl := set_WRITE IsWrite (set_CAPTURED true Mdl) in
      if FAILED FailureReason then
        '(Mdl, s) ← MmUnpinPagesMdl (set_NumberPages (Z.of_nat (length (Pages Mdl))) Mdl) s;
        Ok (FailureReason, Mdl, s)
      else Ok (STATUS_SUCCESS, Mdl, s).

(** [MmCreateMdl] : boron/source/mm/mdl.c:329-341. *)
Definition MmCreateMdl (env : answers) (fuel : nat) (pool : bool) (VirtualAddress Length : Z) (user IsWrite : bool) (s : S)
  : outcome (BSTATUS * option MDL * S) :=
  match MmAllocateMdl pool VirtualAddress Length with
  | None => Ok (STATUS_INSUFFICIENT_MEMORY, None, s)
  | Some Mdl =>
      '(Status, Mdl, s) ← MmProbeAndPinPagesMdl env fuel user IsWrite Mdl s;
      if FAILED Status then s ← MmFreeMdl Mdl s; Ok (Status, Some Mdl, s)
      else Ok (Status, Some Mdl, s)
  end.

End mdl.

Section laws.
Context {S : Type} `{PageFrameLaws S}.

(** The [k]-th byte behind the start of the first page. *)
Definition mdl_get (Mdl : MDL) (s : S) (k : Z) : option Z :=
  n ← Pages Mdl !! Z.to_nat (k / PAGE_SIZE); p ← pf_mem s !! n; p !! Z.to_nat (k mod PAGE_SIZE).

(** The pages of the MDL are pinned, and different. *)
Record mdl_ok (Mdl : MDL) (s : S) : Prop := {
  mo_count : NumberPages Mdl = Z.of_nat (length (Pages Mdl));
  mo_nodup : NoDup (Pages Mdl);
  mo_pinned n : n ∈ Pages Mdl → is_Some (pf_refs s n);
  mo_page n : n ∈ Pages Mdl → ∃ page, pf_mem s !! n = Some page ∧ Z.of_nat (length page) = PAGE_SIZE;
}.

(** The contents of no page but those of the MDL, and no references, change. *)
Definition mdl_frame (Mdl : MDL) (s s' : S) : Prop :=
  (∀ n, pf_refs s' n = pf_refs s n) ∧ ∀ n, n ∉ Pages Mdl → pf_mem s' !! n = pf_mem s !! n.

Lemma mdl_page_spec Mdl s k : mdl_ok Mdl s → 0 ≤ k < PAGE_SIZE * NumberPages Mdl →
  ∃ n page, mdl_page Mdl k s = Ok (n, page) ∧ Pages Mdl !! Z.to_nat (k / PAGE_SIZE) = Some n ∧
    pf_mem s !! n = Some page ∧ Z.of_nat (length page) = PAGE_SIZE.
Proof.
  intros [Hc _ _ Hp] Hk. unfold mdl_page, PAGE_SIZE in *.
  assert (0 ≤ k / 4096 < NumberPages Mdl) as Hi by (split; [apply Z.div_pos; lia|apply Z.div_lt_upper_bound; lia]).
  rewrite (proj2 (Z.ltb_lt _ _)) by lia. cbn [check mbind outcome_bind].
  destruct (lookup_lt_is_Some_2 (Pages Mdl) (Z.to_nat (k / 4096))) as [n Hn]; [lia|].
  destruct (Hp n (list_elem_of_lookup_2 _ _ _ Hn)) as (page & Hm & Hl).
  exists n, page. by rewrite Hn; cbn; rewrite Hm.
Qed.

Lemma bytes_till_next_spec Offset Size : 0 ≤ Offset → 0 < Size →
  0 < bytes_till_next Offset Size ≤ Size ∧ Offset mod PAGE_SIZE + bytes_till_next Offset Size ≤ PAGE_SIZE.
Proof.
  intros Ho Hs. unfold bytes_till_next, PAGE_SIZE. pose proof (Z.mod_pos_bound Offset 4096).
  destruct (Z.ltb_spec Size (4096 - Offset mod 4096)); lia.
Qed.

(** Storing into one page. *)
Lemma store_page Mdl s Offset n page w :
  pf_ok s → mdl_ok Mdl s → 0 ≤ Offset → Pages Mdl !! Z.to_nat (Offset / PAGE_SIZE) = Some n →
  pf_mem s !! n = Some page → Z.of_nat (length page) = PAGE_SIZE →
  Offset mod PAGE_SIZE + Z.of_nat (length w) ≤ PAGE_SIZE →
  let s' := pf_store n (list_inserts (Z.to_nat (Offset mod PAGE_SIZE)) w page) s in
  pf_ok s' ∧ mdl_ok Mdl s' ∧ mdl_frame Mdl s s' ∧
  ∀ k, 0 ≤ k → mdl_get Mdl s' k =
    if decide (Offset ≤ k < Offset + Z.of_nat (length w)) then w !! Z.to_nat (k - Offset) else mdl_get Mdl s k.
Proof.
  intros Hok [Hc Hnd Hpin Hp] Ho Hn Hm Hl Hw s'. pose proof (list_elem_of_lookup_2 _ _ _ Hn) as Hin.
  destruct (Hpin n Hin) as [r Hr]. pose proof (Z.mod_pos_bound Offset PAGE_SIZE ltac:(done)) as Hmod.
  assert (∀ m, pf_refs s' m = pf_refs s m) as Hrefs by (intros; apply pf_store_refs).
  assert (pf_mem s' = <[n := list_inserts (Z.to_nat (Offset mod PAGE_SIZE)) w page]> (pf_mem s)) as Hmem by apply pf_store_mem.
  split; [by eapply pf_store_spec|]. split; [|split; [split; [done|]|]].
  - split; [done|done| |].
    + intros m Hm'. rewrite Hrefs. by apply Hpin.
    + intros m Hm'. rewrite Hmem. destruct (decide (m = n)) as [->|Hne].
      * rewrite lookup_insert_eq. eexists. split; [done|]. by rewrite length_inserts.
      * rewrite lookup_insert_ne by done. by apply Hp.
  - intros m Hm'. rewrite Hmem. apply lookup_insert_ne. by intros ->.
  - intros k Hk. unfold mdl_get. rewrite Hmem.
    destruct (Pages Mdl !! Z.to_nat (k / PAGE_SIZE)) as [m|] eqn:Em; cbn.
    2: { rewrite decide_False; [done|]. intros Hin'.
      assert (k / PAGE_SIZE = Offset / PAGE_SIZE) as E; [|rewrite E in Em; congruence].
      unfold PAGE_SIZE in *. pose proof (Z.div_mod Offset 4096). pose proof (Z.div_mod k 4096).
      pose proof (Z.mod_pos_bound k 4096). nia. }
    assert (m = n ↔ k / PAGE_SIZE = Offset / PAGE_SIZE) as Hmn.
    { split; [|by intros E; rewrite E in Em; congruence]. intros ->.
      pose proof (NoDup_lookup _ _ _ _ Hnd Em Hn). pose proof (Z.div_pos k PAGE_SIZE). pose proof (Z.div_pos Offset PAGE_SIZE).
      unfold PAGE_SIZE in *. lia. }
    pose proof (Z.mod_pos_bound k PAGE_SIZE ltac:(done)) as Hmk.
    pose proof (Z.div_mod Offset PAGE_SIZE ltac:(done)). pose proof (Z.div_mod k PAGE_SIZE ltac:(done)).
    destruct (decide (m = n)) as [->|Hne].
    + rewrite lookup_insert_eq, Hm. cbn. rewrite inserts_lookup by lia.
      assert (k / PAGE_SIZE = Offset / PAGE_SIZE) as E by (by apply Hmn). rewrite E in *.
      destruct (decide (Offset ≤ k < Offset + Z.of_nat (length w))).
      * rewrite decide_True by lia. f_equal. lia.
      * by rewrite decide_False by lia.
    + rewrite lookup_insert_ne by done. rewrite decide_False; [done|]. intros Hin'. apply Hne, Hmn.
      unfold PAGE_SIZE in *. nia.
Qed.

Lemma mdl_frame_trans Mdl s1 s2 s3 : mdl_frame Mdl s1 s2 → mdl_frame Mdl s2 s3 → mdl_frame Mdl s1 s3.
Proof. intros [R1 M1] [R2 M2]. split; intros n; [by rewrite R2|]. intros Hn. by rewrite M2, M1. Qed.

Lemma copy_into_spec Mdl : ∀ fuel Source Offset s,
  pf_ok s → mdl_ok Mdl s → 0 ≤ Offset → Offset + Z.of_nat (length Source) ≤ PAGE_SIZE * NumberPages Mdl →
  (length Source ≤ fuel)%nat →
  ∃ s', copy_into fuel Mdl Offset Source s = Ok s' ∧ pf_ok s' ∧ mdl_ok Mdl s' ∧ mdl_frame Mdl s s' ∧
    ∀ k, 0 ≤ k → mdl_get Mdl s' k =
      if decide (Offset ≤ k < Offset + Z.of_nat (length Source)) then Source !! Z.to_nat (k - Offset) else mdl_get Mdl s k.
Proof.
  induction fuel as [|fuel IH]; intros Source Offset s Hok Hmdl Ho Hfit Hfuel.
  { destruct Source; [|cbn in Hfuel; lia]. exists s. split; [done|]. split; [done|]. split; [done|]. split; [done|].
    intros k Hk. rewrite decide_False by (cbn; lia). done. }
  destruct Source as [|b Source].
  { exists s. split; [done|]. split; [done|]. split; [done|]. split; [done|].
    intros k Hk. rewrite decide_False by (cbn; lia). done. }
  set (Src := b :: Source) in *. assert (0 < Z.of_nat (length Src)) as Hpos by (cbn; lia).
  destruct (bytes_till_next_spec Offset (Z.of_nat (length Src)) Ho Hpos) as [Hb1 Hb2].
  destruct (mdl_page_spec Mdl s Offset Hmdl) as (n & page & Hpg & Hn & Hm & Hl); [lia|].
  change (copy_into (Datatypes.S fuel) Mdl Offset Src s) with
    ('(Pfn, page) ← mdl_page Mdl Offset s;
     let CopyAmount := bytes_till_next Offset (Z.of_nat (length Src)) in
     let n := Z.to_nat CopyAmount in
     copy_into fuel Mdl (Offset + CopyAmount) (drop n Src)
       (pf_store Pfn (list_inserts (Z.to_nat (Offset mod PAGE_SIZE)) (take n Src) page) s)).
  rewrite Hpg. cbn [mbind outcome_bind]. cbn zeta. set (c := bytes_till_next Offset (Z.of_nat (length Src))) in *.
  assert (Z.of_nat (length (take (Z.to_nat c) Src)) = c) as Hlc by (rewrite length_take; lia).
  assert (Z.of_nat (length (drop (Z.to_nat c) Src)) = Z.of_nat (length Src) - c) as Hld by (rewrite length_drop; lia).
  destruct (store_page Mdl s Offset n page (take (Z.to_nat c) Src) Hok Hmdl Ho Hn Hm Hl) as (Hok1 & Hmdl1 & Hf1 & Hg1); [lia|].
  destruct (IH (drop (Z.to_nat c) Src) (Offset + c) _ Hok1 Hmdl1) as (s' & Hs' & Hok' & Hmdl' & Hf' & Hg'); [lia|lia|lia|].
  exists s'. split; [done|]. split; [done|]. split; [done|]. split; [by eapply mdl_frame_trans|].
  intros k Hk. rewrite Hg' by done. rewrite Hg1 by done.
  destruct (decide (Offset + c ≤ k < Offset + c + _)) as [Hin|Hin]; rewrite Hld in Hin.
  - rewrite decide_True by lia. rewrite lookup_drop. f_equal. lia.
  - destruct (decide (Offset ≤ k < Offset + Z.of_nat (length (take _ _)))) as [Hin'|Hin']; rewrite Hlc in Hin'.
    + rewrite decide_True by lia. apply lookup_take_lt. lia.
    + by rewrite decide_False by lia.
Qed.

Lemma copy_from_spec Mdl s : mdl_ok Mdl s → ∀ fuel Size Offset,
  0 ≤ Offset → 0 ≤ Size → Offset + Size ≤ PAGE_SIZE * NumberPages Mdl → Size ≤ Z.of_nat fuel →
  ∃ bs, copy_from fuel Mdl Offset Size s = Ok bs ∧ Z.of_nat (length bs) = Size ∧
    ∀ j, 0 ≤ j < Size → bs !! Z.to_nat j = mdl_get Mdl s (Offset + j).
Proof.
  intros Hmdl. induction fuel as [|fuel IH]; intros Size Offset Ho Hs Hfit Hfuel.
  { exists []. cbn [copy_from]. rewrite (proj2 (Z.eqb_eq Size 0)) by lia. split; [done|]. cbn. split; [lia|]. intros; lia. }
  cbn [copy_from]. destruct (Z.eqb_spec Size 0) as [Hz|Hz].
  { exists []. split; [done|]. cbn. split; [lia|]. intros; lia. }
  destruct (bytes_till_next_spec Offset Size Ho) as [Hb1 Hb2]; [lia|].
  destruct (mdl_page_spec Mdl s Offset Hmdl) as (n & page & Hpg & Hn & Hm & Hl); [lia|].
  rewrite Hpg. cbn [mbind outcome_bind]. cbn zeta. set (c := bytes_till_next Offset Size) in *.
  destruct (IH (Size - c) (Offset + c)) as (bs & Hbs & Hlb & Hg); [lia|lia|lia|lia|].
  rewrite Hbs. cbn [mbind outcome_bind]. eexists. split; [done|].
  pose proof (Z.mod_pos_bound Offset PAGE_SIZE ltac:(done)) as Hmod.
  assert (length (take (Z.to_nat c) (drop (Z.to_nat (Offset mod PAGE_SIZE)) page)) = Z.to_nat c) as Hlt
    by (rewrite length_take, length_drop; lia).
  split; [rewrite length_app, Hlt; lia|]. intros j Hj.
  destruct (decide (j < c)) as [Hjc|Hjc].
  - rewrite lookup_app_l by lia. rewrite lookup_take_lt, lookup_drop by lia. unfold mdl_get.
    assert ((Offset + j) / PAGE_SIZE = Offset / PAGE_SIZE ∧ (Offset + j) mod PAGE_SIZE = Offset mod PAGE_SIZE + j) as [-> ->].
    { pose proof (Z.div_mod Offset PAGE_SIZE ltac:(done)).
      split; symmetry; [apply Z.div_unique with (Offset mod PAGE_SIZE + j)|apply Z.mod_unique with (Offset / PAGE_SIZE)]; lia. }
    rewrite Hn. cbn. rewrite Hm. cbn. f_equal. lia.
  - rewrite lookup_app_r by lia. rewrite Hlt. replace (Z.to_nat j - Z.to_nat c)%nat with (Z.to_nat (j - c)) by lia.
    rewrite Hg by lia. f_equal. lia.
Qed.

(** [MmSetIntoMdl] copies a buffer of equal bytes. *)
Lemma set_into_copy Mdl : ∀ fuel Size Offset ToSet (s : S), 0 ≤ Size → 0 ≤ Offset →
  set_into fuel Mdl Offset ToSet Size s = copy_into fuel Mdl Offset (replicate (Z.to_nat Size) ToSet) s.
Proof.
  induction fuel as [|fuel IH]; intros Size Offset ToSet s Hs Ho; cbn [set_into].
  { destruct (Z.eqb_spec Size 0) as [->|Hz]; [done|]. destruct (Z.to_nat Size) eqn:E; [lia|done]. }
  destruct (Z.eqb_spec Size 0) as [->|Hz]; [done|].
  destruct (bytes_till_next_spec Offset Size Ho) as [Hb1 Hb2]; [lia|].
  destruct (replicate (Z.to_nat Size) ToSet) as [|b src] eqn:E; [by destruct (Z.to_nat Size) eqn:E'; [lia|]|].
  cbn [copy_into]. rewrite <-E. destruct (mdl_page Mdl Offset s) as [[n page]| |]; cbn [mbind outcome_bind]; try done.
  rewrite length_replicate, Z2Nat.id by lia. set (c := bytes_till_next Offset Size) in *.
  rewrite IH by lia. rewrite take_replicate, drop_replicate. do 2 f_equal; [lia|]. do 2 f_equal. lia.
Qed.

(** *** The buffer of an MDL *)

(** The bytes of the buffer. *)
Definition mdl_data (Mdl : MDL) (s : S) : list Z :=
  (λ j, default 0 (mdl_get Mdl s (ByteOffset Mdl + Z.of_nat j))) <$> seq 0 (Z.to_nat (ByteCount Mdl)).

(** The pages have room for the buffer. *)
Definition mdl_fits (Mdl : MDL) : Prop :=
  0 ≤ ByteOffset Mdl ∧ 0 ≤ ByteCount Mdl ∧ ByteOffset Mdl + ByteCount Mdl ≤ PAGE_SIZE * NumberPages Mdl.

Lemma mdl_data_lookup Mdl s j :
  (j < Z.to_nat (ByteCount Mdl))%nat →
  mdl_data Mdl s !! j = Some (default 0 (mdl_get Mdl s (ByteOffset Mdl + Z.of_nat j))).
Proof. intros Hj. unfold mdl_data. rewrite list_lookup_fmap, lookup_seq_lt by done. done. Qed.

Lemma length_mdl_data Mdl s : length (mdl_data Mdl s) = Z.to_nat (ByteCount Mdl).
Proof. unfold mdl_data. by rewrite length_fmap, length_seq. Qed.

Lemma copy_into_data Mdl s Offset Source :
  pf_ok s → mdl_ok Mdl s → mdl_fits Mdl → 0 ≤ Offset → Offset + Z.of_nat (length Source) ≤ ByteCount Mdl →
  ∃ s', MmCopyIntoMdl Mdl Offset Source s = Ok s' ∧ pf_ok s' ∧ mdl_ok Mdl s' ∧ mdl_frame Mdl s s' ∧
    mdl_data Mdl s' = list_inserts (Z.to_nat Offset) Source (mdl_data Mdl s).
Proof.
  intros Hok Hmdl (Hb & Hc & Hfit) Ho Hl. unfold MmCopyIntoMdl.
  destruct (copy_into_spec Mdl (length Source) Source (Offset + ByteOffset Mdl) s Hok Hmdl) as (s' & Hs & Hok' & Hmdl' & Hf & Hg); [lia|lia|done|].
  exists s'. split; [done|]. split; [done|]. split; [done|]. split; [done|].
  apply list_eq_same_length with (Z.to_nat (ByteCount Mdl)); [|apply length_mdl_data|].
  { by rewrite length_inserts, length_mdl_data. }
  intros j x y Hj Hx Hy. rewrite inserts_lookup in Hy by (rewrite length_mdl_data; lia).
  rewrite mdl_data_lookup in Hx by done. rewrite Hg in Hx by lia. revert Hx Hy.
  destruct (decide (Offset + ByteOffset Mdl ≤ _ < _)) as [Hin|Hin].
  - rewrite decide_True by lia. replace (Z.to_nat (ByteOffset Mdl + Z.of_nat j - (Offset + ByteOffset Mdl))) with (j - Z.to_nat Offset)%nat by lia.
    intros [= <-] Hy. by rewrite Hy.
  - rewrite decide_False by lia. rewrite mdl_data_lookup by done. congruence.
Qed.

Lemma copy_from_data Mdl s Offset Size :
  pf_ok s → mdl_ok Mdl s → mdl_fits Mdl → 0 ≤ Offset → 0 ≤ Size → Offset + Size ≤ ByteCount Mdl →
  MmCopyFromMdl Mdl Offset Size s = Ok (take (Z.to_nat Size) (drop (Z.to_nat Offset) (mdl_data Mdl s))).
Proof.
  intros Hok Hmdl (Hb & Hc & Hfit) Ho Hs Hl. unfold MmCopyFromMdl.
  destruct (copy_from_spec Mdl s Hmdl (Z.to_nat Size) Size (Offset + ByteOffset Mdl)) as (bs & Hbs & Hlb & Hg); [lia|lia|lia|lia|].
  rewrite Hbs. f_equal. apply list_eq_same_length with (Z.to_nat Size); [|lia|].
  { rewrite length_take, length_drop, length_mdl_data. lia. }
  intros j x y Hj Hx Hy. rewrite lookup_take_lt, lookup_drop in Hy by done.
  rewrite mdl_data_lookup in Hy by lia. specialize (Hg (Z.of_nat j)). rewrite Nat2Z.id, Hx in Hg.
  specialize (Hg ltac:(lia)). replace (ByteOffset Mdl + Z.of_nat (Z.to_nat Offset + j)) with (Offset + ByteOffset Mdl + Z.of_nat j) in Hy by lia.
  rewrite <-Hg in Hy. by injection Hy.
Qed.

(** C19: A pinned buffer is an array of bytes, wherever it starts in its first
    page and whatever frames its pages are in: copying into it and filling it
    changes exactly the bytes asked for, copying from it returns them, no other
    page and no reference changes, and the loops end. *)
Theorem mdl_is_array Mdl s Offset Source Size b :
  pf_ok s → mdl_ok Mdl s → mdl_fits Mdl → 0 ≤ Offset → 0 ≤ Size →
  Offset + Z.of_nat (length Source) ≤ ByteCount Mdl → Offset + Size ≤ ByteCount Mdl →
  (∃ s', MmCopyIntoMdl Mdl Offset Source s = Ok s' ∧ pf_ok s' ∧ mdl_ok Mdl s' ∧ mdl_frame Mdl s s' ∧
     mdl_data Mdl s' = list_inserts (Z.to_nat Offset) Source (mdl_data Mdl s)) ∧
  MmCopyFromMdl Mdl Offset Size s = Ok (take (Z.to_nat Size) (drop (Z.to_nat Offset) (mdl_data Mdl s))) ∧
  (∃ s', MmSetIntoMdl Mdl Offset b Size s = Ok s' ∧ pf_ok s' ∧ mdl_ok Mdl s' ∧ mdl_frame Mdl s s' ∧
     mdl_data Mdl s' = list_inserts (Z.to_nat Offset) (replicate (Z.to_nat Size) b) (mdl_data Mdl s)).
Proof.
  intros Hok Hmdl Hfit Ho Hs Hl Hl'. split; [by apply copy_into_data|]. split; [by apply copy_from_data|].
  destruct (copy_into_data Mdl s Offset (replicate (Z.to_nat Size) b)) as (s' & Hs' & H'); try done.
  { rewrite length_replicate. lia. }
  exists s'. split; [|done]. rewrite <-Hs'. unfold MmSetIntoMdl, MmCopyIntoMdl. destruct Hfit as [? _].
  rewrite set_into_copy by lia. by rewrite length_replicate.
Qed.

(** *** References of pages *)

(** [s'] has a reference more than [s] for each page of [ps], and is the same
    otherwise. *)
Record referenced (ps : list Z) (s s' : S) : Prop := {
  rf_ok : pf_ok s';
  rf_mem : pf_mem s' = pf_mem s;
  rf_refs n : pf_refs s' n = (λ r, r + count n ps) <$> pf_refs s n;
}.

Lemma referenced_nil s : pf_ok s → referenced [] s s.
Proof. intros Hok. split; [done|done|]. intros n. unfold count. cbn. destruct (pf_refs s n); cbn; [f_equal; lia|done]. Qed.

Lemma referenced_snoc ps p s s' :
  referenced ps s s' → is_Some (pf_refs s p) →
  ∃ s'', pf_reference p s' = Ok s'' ∧ referenced (ps ++ [p]) s s''.
Proof.
  intros [Hok Hm Hr] [r Hp]. pose proof (Hr p) as Hrp. rewrite Hp in Hrp. cbn in Hrp.
  destruct (pf_reference_spec s' p _ Hok Hrp) as (s'' & Hs & Hok' & Hm' & Hp' & Ho).
  exists s''. split; [done|]. split; [done|congruence|]. intros n. rewrite count_app. unfold count at 2. cbn.
  destruct (Z.eq_dec p n) as [<-|Hne].
  - rewrite Hp', Hp. cbn. f_equal. lia.
  - rewrite Ho, Hr by auto. destruct (pf_refs s n); cbn; [f_equal; lia|done].
Qed.

(** Freeing the pages again. *)
Lemma free_pages_spec s : pf_ok s → ∀ ps s', (∀ p, p ∈ ps → is_Some (pf_refs s p)) → referenced ps s s' →
  ∃ s'', free_pages ps s' = Ok s'' ∧ referenced [] s s''.
Proof.
  intros Hok. induction ps as [|p ps IH]; intros s' Hps Hrf; cbn; [by exists s'|].
  destruct (Hps p) as [r Hp]; [left|]. pose proof (rf_refs _ _ _ Hrf p) as Hrp. rewrite Hp in Hrp. cbn in Hrp.
  assert (count p (p :: ps) = count p ps + 1) as Hcp by (unfold count; cbn; destruct (Z.eq_dec p p); [lia|done]).
  destruct (pf_refs_frame s p r Hok Hp) as [_ Hr0].
  destruct (pf_free_spec s' p _ (rf_ok _ _ _ Hrf) Hrp) as (s1 & Hs1 & Hok1 & Hm1 & Hp1 & Ho1).
  rewrite Hs1. cbn. apply IH; [intros q Hq; apply Hps; by right|].
  assert (0 ≤ count p ps) by (unfold count; lia).
  rewrite (proj2 (Z.eqb_neq _ _)) in Hp1 by lia.
  split; [done|by rewrite Hm1; apply Hrf|]. intros n. destruct (decide (n = p)) as [->|Hne].
  - rewrite Hp1, Hp. cbn. f_equal. lia.
  - rewrite Ho1, (rf_refs _ _ _ Hrf n) by done. unfold count. cbn. by destruct (Z.eq_dec p n); [congruence|].
Qed.

(** *** Pinning *)

(** A lookup that finds a page that can be pinned. *)
Definition pinnable (w : bool) (o : option PTE) (n : Z) : Prop :=
  ∃ W, o = Some (mkPte true true W n) ∧ (w = true → W = true).

Lemma pin_page_ok env fuel w a Mdl t s0 s n :
  referenced (Pages Mdl) s0 s → is_Some (pf_refs s0 n) → pinnable w (pte_at env t a) n →
  Z.of_nat (length (Pages Mdl)) < NumberPages Mdl →
  ∃ s', pin_page env (Datatypes.S fuel) w a Mdl t s = Ok (Pinned a, set_Pages (Pages Mdl ++ [n]) Mdl, Datatypes.S t, s') ∧
    referenced (Pages Mdl ++ [n]) s0 s'.
Proof.
  intros Hrf Hn (W & Hp & HW) Hl. destruct (referenced_snoc _ n _ _ Hrf Hn) as (s' & Hs' & Hrf').
  exists s'. split; [|done]. cbn [pin_page]. rewrite Hp. cbn.
  assert (negb W && w = false) as -> by (destruct w; [by rewrite HW|by rewrite andb_false_r]).
  rewrite Hs'. cbn. by rewrite (proj2 (Z.ltb_lt _ _) Hl).
Qed.

(** ... and one after the list is full. *)
Lemma pin_page_full env fuel w a Mdl t s0 s n :
  referenced (Pages Mdl) s0 s → is_Some (pf_refs s0 n) → pinnable w (pte_at env t a) n →
  NumberPages Mdl ≤ Z.of_nat (length (Pages Mdl)) →
  pin_page env (Datatypes.S fuel) w a Mdl t s = Crash.
Proof.
  intros Hrf Hn (W & Hp & HW) Hl. destruct (referenced_snoc _ n _ _ Hrf Hn) as (s' & Hs' & Hrf').
  cbn [pin_page]. rewrite Hp. cbn.
  assert (negb W && w = false) as -> by (destruct w; [by rewrite HW|by rewrite andb_false_r]).
  rewrite Hs'. cbn. by rewrite (proj2 (Z.ltb_ge _ _) Hl).
Qed.

(** The address of the [i]-th page from [a] on. *)
Definition page_at (a : Z) (i : nat) : Z := a + PAGE_SIZE * Z.of_nat i.

(** A run of [k] pages that are pinned. *)
Lemma pin_run env w s0 EndPage (pfn : nat → Z) : ∀ k fuel a Mdl t s,
  referenced (Pages Mdl) s0 s → 0 ≤ a → page_at a k ≤ EndPage < 2 ^ 64 →
  Z.of_nat (length (Pages Mdl) + k) ≤ NumberPages Mdl →
  (∀ i, (i < k)%nat → pinnable w (pte_at env (t + i) (page_at a i)) (pfn i) ∧ is_Some (pf_refs s0 (pfn i))) →
  ∃ s', pin_pages env (k + Datatypes.S fuel) w a EndPage Mdl t s =
      pin_pages env (Datatypes.S fuel) w (page_at a k) EndPage (set_Pages (Pages Mdl ++ (pfn <$> seq 0 k)) Mdl) (t + k) s' ∧
    referenced (Pages Mdl ++ (pfn <$> seq 0 k)) s0 s'.
Proof.
  intros k. revert pfn. induction k as [|k IH]; intros pfn fuel a Mdl t s Hrf Ha Hend Hl Hpg.
  { exists s. cbn [seq fmap list_fmap]. rewrite app_nil_r. split; [|done].
    unfold page_at. rewrite Nat.add_0_r, Z.mul_0_r, Z.add_0_r. by destruct Mdl. }
  destruct (Hpg 0%nat) as [Hp0 Hn0]; [lia|]. rewrite Nat.add_0_r in Hp0.
  assert (page_at a 0 = a) as Ha0 by (unfold page_at; lia). rewrite Ha0 in Hp0.
  destruct (pin_page_ok env (k + fuel) w a Mdl t s0 s (pfn 0%nat) Hrf Hn0 Hp0) as (s1 & Hs1 & Hrf1); [lia|].
  assert (a + PAGE_SIZE = page_at a 1 ∧ a < EndPage ∧ 0 ≤ a + PAGE_SIZE < 2 ^ 64) as (Ha1 & HaE & Hwrap).
  { unfold page_at, PAGE_SIZE in *. lia. }
  change (Datatypes.S k + Datatypes.S fuel)%nat with (Datatypes.S (k + Datatypes.S fuel)).
  cbn [pin_pages]. rewrite (proj2 (Z.ltb_lt _ _) HaE). cbn [negb].
  replace (k + Datatypes.S fuel)%nat with (Datatypes.S (k + fuel)) by lia. rewrite Hs1. cbn [mbind outcome_bind].
  rewrite (wrap_small 64 (a + PAGE_SIZE)) by done.
  destruct (IH (pfn ∘ Datatypes.S) fuel (a + PAGE_SIZE) (set_Pages (Pages Mdl ++ [pfn 0%nat]) Mdl) (Datatypes.S t) s1) as (s' & Hs' & Hrf').
  - done.
  - lia.
  - unfold page_at, PAGE_SIZE in *. lia.
  - cbn. rewrite length_app. cbn. lia.
  - intros i Hi. destruct (Hpg (Datatypes.S i)) as [Hp Hn]; [lia|].
    replace (t + Datatypes.S i)%nat with (Datatypes.S t + i)%nat in Hp by lia. split; [|done].
    replace (page_at (a + PAGE_SIZE) i) with (page_at a (Datatypes.S i)); [done|]. unfold page_at. lia.
  - assert (pfn <$> seq 0 (Datatypes.S k) = pfn 0%nat :: ((pfn ∘ Datatypes.S) <$> seq 0 k)) as Hseq.
    { cbn. f_equal. rewrite <-fmap_S_seq, <-list_fmap_compose. done. }
    exists s'. rewrite Hseq. cbn in Hrf'. rewrite <-app_assoc in Hrf'. split; [|exact Hrf'].
    replace (k + Datatypes.S fuel)%nat with (Datatypes.S (k + fuel)) in Hs' by lia. rewrite Hs'.
    replace (page_at (a + PAGE_SIZE) k) with (page_at a (Datatypes.S k)) by (unfold page_at; lia).
    replace (Datatypes.S t + k)%nat with (t + Datatypes.S k)%nat by lia.
    unfold set_Pages at 1. cbn [ByteOffset Flags ByteCount SourceStartVA MappedStartVA NumberPages Pages set_Pages].
    by rewrite <-app_assoc.
Qed.

Lemma probe_pages_ok env EndPage : ∀ k fuel a,
  0 ≤ a → EndPage = page_at a k → EndPage < 2 ^ 64 → (k ≤ fuel)%nat →
  (∀ i, (i < k)%nat → probe_at env 0 (page_at a i) = STATUS_SUCCESS) →
  probe_pages env fuel a EndPage = Ok STATUS_SUCCESS.
Proof.
  induction k as [|k IH]; intros fuel a Ha He Hw Hf Hp.
  { destruct fuel; cbn; rewrite (proj2 (Z.ltb_ge _ _)) by (unfold page_at in He; lia); done. }
  destruct fuel as [|fuel]; [lia|]. cbn [probe_pages].
  rewrite (proj2 (Z.ltb_lt _ _)) by (unfold page_at, PAGE_SIZE in He; lia). cbn [negb].
  pose proof (Hp 0%nat ltac:(lia)) as Hp0. replace (page_at a 0) with a in Hp0 by (unfold page_at; lia). rewrite Hp0.
  rewrite wrap_small by (unfold page_at, PAGE_SIZE in *; lia).
  apply IH; [unfold PAGE_SIZE; lia|unfold page_at in *; lia|done|lia|].
  intros i Hi. specialize (Hp (Datatypes.S i) ltac:(lia)).
  replace (page_at (a + PAGE_SIZE) i) with (page_at a (Datatypes.S i)); [done|]. unfold page_at. lia.
Qed.

(** An MDL of a user buffer, before its pages are pinned. *)
Record user_buffer (Mdl : MDL) : Prop := {
  ub_offset : 0 ≤ ByteOffset Mdl < PAGE_SIZE;
  ub_start : 0 ≤ SourceStartVA Mdl ∧ SourceStartVA Mdl mod PAGE_SIZE = 0;
  ub_count : 0 < ByteCount Mdl < MDL_MAX_SIZE;
  ub_end : SourceStartVA Mdl + ByteOffset Mdl + ByteCount Mdl ≤ MM_USER_SPACE_END - PAGE_SIZE;
  ub_pages : NumberPages Mdl = (ByteOffset Mdl + ByteCount Mdl + PAGE_SIZE - 1) / PAGE_SIZE;
  ub_empty : Pages Mdl = [];
  ub_mapped : MDL_FLAG_MAPPED (Flags Mdl) = false;
}.

Lemma page_down_spec a : 0 ≤ a → page_down a = PAGE_SIZE * (a / PAGE_SIZE).
Proof.
  intros Ha. unfold page_down, PAGE_SIZE. change (4096 - 1) with (Z.ones 12).
  rewrite Z.ldiff_ones_r, Z.shiftl_mul_pow2, Z.shiftr_div_pow2 by lia. change (2 ^ 12) with 4096. lia.
Qed.

Lemma range_valid a n u : 0 ≤ a → 0 < n → a + n ≤ MM_USER_SPACE_END → MmIsAddressRangeValid a n u = true.
Proof.
  unfold MM_USER_SPACE_END. intros Ha Hn Hl. unfold MmIsAddressRangeValid.
  rewrite (proj2 (Z.eqb_neq _ _)) by lia. rewrite wrap_small by lia.
  rewrite (proj2 (Z.ltb_ge _ _)) by lia. rewrite (proj2 (Z.ltb_ge _ _)) by (unfold MM_USER_SPACE_END; lia).
  rewrite andb_false_r.
  assert (∀ x, 0 ≤ x < 2 ^ 47 → Z.land x 0xFFFF800000000000 = 0) as Hz.
  { intros x Hx. change 0xFFFF800000000000 with (Z.shiftl (Z.ones 17) 47).
    apply Z.bits_inj'. intros i Hi. rewrite Z.land_spec, Z.bits_0, Z.shiftl_spec by done.
    destruct (Z.ltb_spec i 47) as [Hlt|Hge].
    - rewrite (Z.testbit_neg_r (Z.ones 17)) by lia. apply andb_false_r.
    - destruct (Z.eq_dec x 0) as [->|Hne]; [by rewrite Z.bits_0|].
      rewrite Z.bits_above_log2; [done|lia|]. apply Z.lt_le_trans with 47; [|done]. apply Z.log2_lt_pow2; lia. }
  rewrite !Hz by lia. done.
Qed.

(** What pinning does with such an MDL, up to the loop over the pages. *)
Lemma probe_and_pin_start env fuel u w Mdl (s : S) :
  user_buffer Mdl → (∀ i, Z.of_nat i < NumberPages Mdl → probe_at env 0 (page_at (SourceStartVA Mdl) i) = STATUS_SUCCESS) →
  NumberPages Mdl ≤ Z.of_nat fuel →
  let EndPage := page_at (SourceStartVA Mdl) (Z.to_nat (NumberPages Mdl)) in
  0 < NumberPages Mdl ∧ 0 ≤ SourceStartVA Mdl ∧ EndPage < 2 ^ 64 ∧
  MmProbeAndPinPagesMdl env fuel u w Mdl s =
    '(FailureReason, Mdl, s) ← pin_pages env fuel w (SourceStartVA Mdl) EndPage Mdl 0 s;
    let Mdl := set_WRITE w (set_CAPTURED true Mdl) in
    if FAILED FailureReason then
      '(Mdl, s) ← MmUnpinPagesMdl (set_NumberPages (Z.of_nat (length (Pages Mdl))) Mdl) s;
      Ok (FailureReason, Mdl, s)
    else Ok (STATUS_SUCCESS, Mdl, s).
Proof.
  intros [Hbo [Hs0 Hs1] Hbc Hend Hnp _ _] Hprobe Hfuel EndPage.
  pose proof (Z.div_mod (SourceStartVA Mdl) PAGE_SIZE ltac:(done)) as Hdm. rewrite Hs1, Z.add_0_r in Hdm.
  set (q := SourceStartVA Mdl / PAGE_SIZE) in *.
  pose proof (Z.div_mod (ByteOffset Mdl + ByteCount Mdl + PAGE_SIZE - 1) PAGE_SIZE ltac:(done)) as Hdn.
  pose proof (Z.mod_pos_bound (ByteOffset Mdl + ByteCount Mdl + PAGE_SIZE - 1) PAGE_SIZE ltac:(done)) as Hdn'.
  rewrite <-Hnp in Hdn.
  unfold MM_USER_SPACE_END, PAGE_SIZE in *.
  assert (0 < NumberPages Mdl) as Hpos by lia.
  assert (EndPage = 4096 * (q + NumberPages Mdl)) as HE by (unfold EndPage, page_at, PAGE_SIZE; lia).
  split; [done|]. split; [done|]. split; [lia|].
  unfold MmProbeAndPinPagesMdl.
  replace (page_down (SourceStartVA Mdl)) with (SourceStartVA Mdl) by (rewrite page_down_spec by done; unfold PAGE_SIZE; lia).
  assert (page_down (u64 (SourceStartVA Mdl + ByteOffset Mdl + ByteCount Mdl + (PAGE_SIZE - 1))) = EndPage) as ->.
  { unfold PAGE_SIZE. rewrite wrap_small by lia. rewrite page_down_spec by lia. unfold PAGE_SIZE. rewrite HE. f_equal.
    symmetry. apply Z.div_unique with ((ByteOffset Mdl + ByteCount Mdl + 4096 - 1) mod 4096); [lia|].
    rewrite Hdm. lia. }
  rewrite (proj2 (Z.leb_gt _ _)) by lia. rewrite range_valid by (unfold MM_USER_SPACE_END; lia). cbn [negb].
  rewrite (proj2 (Z.ltb_ge _ _)) by (unfold MM_USER_SPACE_END; lia). rewrite andb_false_r.
  rewrite (probe_pages_ok env EndPage (Z.to_nat (NumberPages Mdl))); [done|done|done|lia|lia|].
  intros i Hi. apply Hprobe. lia.
Qed.

(** The answers while the pages of the buffer are in memory. *)
Record faulted_in (env : answers) (w : bool) (Mdl : MDL) (s : S) (pfn : nat → Z) (k : nat) : Prop := {
  fi_probe i : Z.of_nat i < NumberPages Mdl → probe_at env 0 (page_at (SourceStartVA Mdl) i) = STATUS_SUCCESS;
  fi_page i : (i < k)%nat → pinnable w (pte_at env i (page_at (SourceStartVA Mdl) i)) (pfn i);
  fi_pinned i : (i < k)%nat → is_Some (pf_refs s (pfn i));
}.

Lemma pin_prefix env fuel u w Mdl (s : S) pfn k :
  pf_ok s → user_buffer Mdl → faulted_in env w Mdl s pfn k → Z.of_nat k ≤ NumberPages Mdl →
  NumberPages Mdl < Z.of_nat fuel →
  ∃ f s', (fuel = k + Datatypes.S f)%nat ∧ referenced (pfn <$> seq 0 k) s s' ∧
    MmProbeAndPinPagesMdl env fuel u w Mdl s =
      '(FailureReason, Mdl, s) ← pin_pages env (Datatypes.S f) w (page_at (SourceStartVA Mdl) k)
          (page_at (SourceStartVA Mdl) (Z.to_nat (NumberPages Mdl))) (set_Pages (pfn <$> seq 0 k) Mdl) k s';
      let Mdl := set_WRITE w (set_CAPTURED true Mdl) in
      if FAILED FailureReason then
        '(Mdl, s) ← MmUnpinPagesMdl (set_NumberPages (Z.of_nat (length (Pages Mdl))) Mdl) s;
        Ok (FailureReason, Mdl, s)
      else Ok (STATUS_SUCCESS, Mdl, s).
Proof.
  intros Hok Hub [Hpr Hpg Hpin] Hk Hfuel.
  destruct (probe_and_pin_start env fuel u w Mdl s Hub Hpr) as (HN & Hs & HE & ->); [lia|].
  exists (fuel - k - 1)%nat.
  destruct (pin_run env w s (page_at (SourceStartVA Mdl) (Z.to_nat (NumberPages Mdl))) pfn k (fuel - k - 1) (SourceStartVA Mdl) Mdl 0 s)
    as (s' & Hrun & Hrf); [rewrite (ub_empty _ Hub); by apply referenced_nil|done|split; [unfold page_at, PAGE_SIZE; lia|done]
      |rewrite (ub_empty _ Hub); cbn; lia|intros i Hi; by split; [apply Hpg|apply Hpin]|].
  rewrite (ub_empty _ Hub) in Hrun, Hrf. cbn [app] in Hrun, Hrf.
  exists s'. split; [lia|]. split; [done|]. replace fuel with (k + Datatypes.S (fuel - k - 1))%nat at 1 by lia.
  by rewrite Hrun.
Qed.

Lemma pinned_pages s pfn k n : (∀ i, (i < k)%nat → is_Some (pf_refs s (pfn i))) → n ∈ pfn <$> seq 0 k → is_Some (pf_refs s n).
Proof. intros Hp (i & -> & Hi%elem_of_seq)%list_elem_of_fmap. apply Hp. lia. Qed.

(** C20: A user buffer whose pages are in memory, and are pages that the
    physical memory manager gave out, is pinned page by page: each frame has
    one reference more, the MDL lists the frames in order, the buffer fits in
    them, and unpinning takes the references away again. *)
Theorem MmProbeAndPinPagesMdl_correct env fuel u w Mdl (s : S) pfn :
  pf_ok s → user_buffer Mdl → NumberPages Mdl < Z.of_nat fuel →
  faulted_in env w Mdl s pfn (Z.to_nat (NumberPages Mdl)) →
  ∃ Mdl' s', MmProbeAndPinPagesMdl env fuel u w Mdl s = Ok (STATUS_SUCCESS, Mdl', s') ∧
    Pages Mdl' = pfn <$> seq 0 (Z.to_nat (NumberPages Mdl)) ∧ referenced (Pages Mdl') s s' ∧
    mdl_fits Mdl' ∧ ByteOffset Mdl' = ByteOffset Mdl ∧ ByteCount Mdl' = ByteCount Mdl ∧
    MDL_FLAG_WRITE (Flags Mdl') = w ∧
    ∃ Mdl'' s'', MmUnpinPagesMdl Mdl' s' = Ok (Mdl'', s'') ∧ referenced [] s s''.
Proof.
  intros Hok Hub Hfuel Hfi.
  destruct (pin_prefix env fuel u w Mdl s pfn _ Hok Hub Hfi) as (f & s' & _ & Hrf & ->); [|done|].
  { destruct (ub_count _ Hub), (ub_offset _ Hub). rewrite (ub_pages _ Hub). unfold PAGE_SIZE in *.
    rewrite Z2Nat.id; [done|]. apply Z.div_pos; lia. }
  cbn [pin_pages]. rewrite Z.ltb_irrefl. cbn [negb mbind outcome_bind]. change (FAILED STATUS_SUCCESS) with false.
  eexists _, s'. split; [done|]. cbn. split; [done|]. split; [done|].
  destruct Hub as [Hbo _ Hbc _ Hnp _ Hmap]. split_and!; try done.
  - unfold mdl_fits. cbn. split; [lia|]. split; [lia|]. pose proof (Z.div_mod (ByteOffset Mdl + ByteCount Mdl + PAGE_SIZE - 1) PAGE_SIZE ltac:(done)).
    pose proof (Z.mod_pos_bound (ByteOffset Mdl + ByteCount Mdl + PAGE_SIZE - 1) PAGE_SIZE ltac:(done)).
    rewrite <-Hnp in *. unfold PAGE_SIZE in *. lia.
  - unfold MmUnpinPagesMdl, MmUnmapPagesMdl. cbn. rewrite Hmap. cbn.
    assert (0 ≤ NumberPages Mdl) by (rewrite Hnp; unfold PAGE_SIZE in *; apply Z.div_pos; lia).
    rewrite length_fmap, length_seq, Z2Nat.id, Z.leb_refl by done. cbn.
    rewrite firstn_all2 by (by rewrite length_fmap, length_seq).
    destruct (free_pages_spec s Hok (pfn <$> seq 0 (Z.to_nat (NumberPages Mdl))) s') as (s'' & Hs'' & Hrf''); [|done|].
    + intros p Hp. eapply pinned_pages; [|done]. apply Hfi.
    + rewrite Hs''. cbn. by eexists _, s''.
Qed.

Lemma pin_pages_run env fuel w a E Mdl t (s : S) : a < E →
  pin_pages env (Datatypes.S fuel) w a E Mdl t s =
    '(r, Mdl, t, s) ← pin_page env fuel w a Mdl t s;
    match r with
    | PinFailed FailureReason => Ok (FailureReason, Mdl, s)
    | Pinned Address => pin_pages env fuel w (u64 (Address + PAGE_SIZE)) E Mdl t s
    end.
Proof. intros Ha. cbn [pin_pages]. by rewrite (proj2 (Z.ltb_lt _ _) Ha). Qed.

(** Unpinning an MDL whose pages were pinned. *)
Lemma unpin_all Mdl (s0 s : S) :
  pf_ok s0 → MDL_FLAG_CAPTURED (Flags Mdl) = true → MDL_FLAG_MAPPED (Flags Mdl) = false →
  referenced (Pages Mdl) s0 s → (∀ n, n ∈ Pages Mdl → is_Some (pf_refs s0 n)) →
  ∃ Mdl' s', MmUnpinPagesMdl (set_NumberPages (Z.of_nat (length (Pages Mdl))) Mdl) s = Ok (Mdl', s') ∧
    referenced [] s0 s' ∧ MDL_FLAG_CAPTURED (Flags Mdl') = false.
Proof.
  intros Hok Hc Hm Hrf Hps. unfold MmUnpinPagesMdl, MmUnmapPagesMdl. cbn. rewrite Hm. cbn. rewrite Hc. cbn.
  rewrite Z.leb_refl, Nat2Z.id, firstn_all. cbn.
  destruct (free_pages_spec s0 Hok (Pages Mdl) s Hps Hrf) as (s' & -> & Hrf'). cbn. by eexists _, s'.
Qed.

(** When a page of the buffer is none that the physical memory manager gave
    out, pinning fails and leaves no reference behind. *)
Theorem MmProbeAndPinPagesMdl_fails env fuel u w Mdl (s : S) pfn k W n :
  pf_ok s → user_buffer Mdl → NumberPages Mdl < Z.of_nat fuel →
  faulted_in env w Mdl s pfn k → Z.of_nat k < NumberPages Mdl →
  pte_at env k (page_at (SourceStartVA Mdl) k) = Some (mkPte true false W n) →
  ∃ Mdl' s', MmProbeAndPinPagesMdl env fuel u w Mdl s = Ok (STATUS_INVALID_PARAMETER, Mdl', s') ∧
    referenced [] s s' ∧ MDL_FLAG_CAPTURED (Flags Mdl') = false.
Proof.
  intros Hok Hub Hfuel Hfi Hk Hpte.
  destruct (pin_prefix env fuel u w Mdl s pfn k Hok Hub Hfi) as (f & s' & Hf & Hrf & ->); [lia|done|].
  destruct f as [|f]; [lia|].
  assert (pin_page env (Datatypes.S f) w (page_at (SourceStartVA Mdl) k) (set_Pages (pfn <$> seq 0 k) Mdl) k s' =
    Ok (PinFailed STATUS_INVALID_PARAMETER, set_Pages (pfn <$> seq 0 k) Mdl, Datatypes.S k, s')) as Hpin
    by (cbn [pin_page]; rewrite Hpte; done).
  rewrite pin_pages_run, Hpin by (unfold page_at, PAGE_SIZE; lia). cbn [mbind outcome_bind].
  change (FAILED STATUS_INVALID_PARAMETER) with true. cbn zeta iota.
  destruct (unpin_all (set_WRITE w (set_CAPTURED true (set_Pages (pfn <$> seq 0 k) Mdl))) s s' Hok) as (Mdl' & s'' & Hs'' & Hrf'' & Hc); [done|apply (ub_mapped _ Hub)|done| |].
  - intros n' Hn'. apply (pinned_pages s pfn k); [apply Hfi|exact Hn'].
  - rewrite Hs''. cbn [mbind outcome_bind]. by exists Mdl', s''.
Qed.

(** When a page of the buffer is gone again at its turn and the probe
    brings it back, the page before it is looked up a second time instead: its
    frame is listed twice, every later page is off by one, and the last one
    stops the kernel. *)
Theorem MmProbeAndPinPagesMdl_refault_crashes env fuel u w Mdl (s : S) pfn k :
  pf_ok s → user_buffer Mdl → NumberPages Mdl + 1 < Z.of_nat fuel →
  faulted_in env w Mdl s pfn k → 0 < Z.of_nat k < NumberPages Mdl →
  pte_at env k (page_at (SourceStartVA Mdl) k) = None →
  probe_at env (Datatypes.S k) (page_at (SourceStartVA Mdl) k) = STATUS_SUCCESS →
  (∀ t i, (k < t)%nat → Z.of_nat i < NumberPages Mdl →
    pinnable w (pte_at env t (page_at (SourceStartVA Mdl) i)) (pfn i) ∧ is_Some (pf_refs s (pfn i))) →
  MmProbeAndPinPagesMdl env fuel u w Mdl s = Crash.
Proof.
  intros Hok Hub Hfuel Hfi [Hk Hk'] Hpte Hprobe Hafter.
  destruct (pin_prefix env fuel u w Mdl s pfn k Hok Hub Hfi) as (f & s1 & Hf & Hrf1 & ->); [lia|lia|].
  destruct k as [|k]; [lia|]. set (a := SourceStartVA Mdl) in *. set (N := Z.to_nat (NumberPages Mdl)) in *.
  destruct f as [|f]; [lia|]. destruct (ub_start _ Hub) as [Ha _]. fold a in Ha.
  assert (page_at a N < 2 ^ 64) as HE.
  { pose proof (ub_end _ Hub). pose proof (ub_pages _ Hub) as Hnp. pose proof (ub_offset _ Hub). pose proof (ub_count _ Hub).
    pose proof (Z.mul_div_le (ByteOffset Mdl + ByteCount Mdl + PAGE_SIZE - 1) PAGE_SIZE ltac:(done)).
    rewrite <-Hnp in *. unfold page_at, PAGE_SIZE, MM_USER_SPACE_END, a, N in *. lia. }
  set (Mdl1 := set_Pages (pfn <$> seq 0 (Datatypes.S k)) Mdl).
  destruct f as [|f]; [unfold N in *; lia|].
  destruct (pin_page_ok env f w (page_at a k) Mdl1 (Datatypes.S (Datatypes.S k)) s s1 (pfn k)) as (s2 & Hs2 & Hrf2).
  { done. }
  { apply (Hafter (Datatypes.S (Datatypes.S k)) k); lia. }
  { apply Hafter; lia. }
  { unfold Mdl1. cbn [Pages NumberPages set_Pages]. rewrite length_fmap, length_seq. lia. }
  assert (pin_page env (Datatypes.S (Datatypes.S f)) w (page_at a (Datatypes.S k)) Mdl1 (Datatypes.S k) s1 =
    pin_page env (Datatypes.S f) w (page_at a k) Mdl1 (Datatypes.S (Datatypes.S k)) s1) as Hpp.
  { change (Datatypes.S (Datatypes.S f)) with (1 + Datatypes.S f)%nat. cbn [pin_page Nat.add]. rewrite Hpte, Hprobe.
    replace (u64 (page_at a (Datatypes.S k) - PAGE_SIZE)) with (page_at a k); [done|].
    rewrite wrap_small; unfold page_at, PAGE_SIZE, N in *; lia. }
  rewrite pin_pages_run by (unfold page_at, PAGE_SIZE, N; lia).
  rewrite Hpp, Hs2. cbn [mbind outcome_bind].
  rewrite wrap_small by (unfold page_at, PAGE_SIZE, N in *; lia).
  replace (page_at a k + PAGE_SIZE) with (page_at a (Datatypes.S k)) by (unfold page_at; lia).
  set (Mdl2 := set_Pages (Pages Mdl1 ++ [pfn k]) Mdl1).
  set (m := (N - Datatypes.S k - 1)%nat).
  destruct (pin_run env w s (page_at a N) (λ i, pfn (Datatypes.S k + i)%nat) m (Datatypes.S f - m) (page_at a (Datatypes.S k)) Mdl2
    (Datatypes.S (Datatypes.S (Datatypes.S k))) s2) as (s3 & Hs3 & Hrf3).
  { exact Hrf2. }
  { unfold page_at, PAGE_SIZE. lia. }
  { split; [|done]. unfold page_at, PAGE_SIZE, m, N. lia. }
  { unfold Mdl2, Mdl1, m, N. cbn [Pages NumberPages set_Pages]. rewrite length_app, length_fmap, length_seq. cbn [length]. lia. }
  { intros i Hi. replace (page_at (page_at a (Datatypes.S k)) i) with (page_at a (Datatypes.S k + i)) by (unfold page_at; lia).
    apply Hafter; unfold m, N in Hi; lia. }
  replace (m + Datatypes.S (Datatypes.S f - m))%nat with (Datatypes.S (Datatypes.S f)) in Hs3 by (unfold m, N in *; lia).
  rewrite Hs3. clear Hs3.
  replace (page_at (page_at a (Datatypes.S k)) m) with (page_at a (N - 1)) by (unfold page_at, PAGE_SIZE, m, N; lia).
  destruct (Datatypes.S f - m)%nat as [|g] eqn:Eg; [unfold m, N in *; lia|].
  rewrite pin_pages_run by (unfold page_at, PAGE_SIZE, N; lia).
  rewrite (pin_page_full env g w _ _ _ s s3 (pfn (N - 1)%nat)); [done| | | |].
  - exact Hrf3.
  - apply (Hafter (Datatypes.S (Datatypes.S k)) (N - 1)%nat); unfold N; lia.
  - apply Hafter; unfold N; lia.
  - unfold Mdl2, Mdl1, m, N. cbn [Pages NumberPages set_Pages]. rewrite !length_app, !length_fmap, !length_seq. cbn [length]. lia.
Qed.

(** *** Mapping *)

Lemma map_pages_ok room s0 : ∀ ps pre Index s,
  referenced pre s0 s → (∀ p, p ∈ ps → is_Some (pf_refs s0 p)) →
  (∀ i, (Index ≤ i < Index + length ps)%nat → room i = true) →
  ∃ s', map_pages room ps Index s = Ok (None, s') ∧ referenced (pre ++ ps) s0 s'.
Proof.
  induction ps as [|p ps IH]; intros pre Index s Hrf Hps Hroom; cbn [map_pages].
  { exists s. by rewrite app_nil_r. }
  destruct (referenced_snoc pre p s0 s Hrf) as (s1 & -> & Hrf1); [apply Hps; by left|].
  cbn [mbind outcome_bind]. rewrite Hroom by (cbn; lia).
  destruct (IH (pre ++ [p]) (Datatypes.S Index) s1 Hrf1) as (s2 & Hs2 & Hrf2).
  - intros q Hq. apply Hps. by right.
  - intros i Hi. apply Hroom. cbn. lia.
  - exists s2. by rewrite <-app_assoc in Hrf2.
Qed.

Lemma map_pages_fail room s0 k : ∀ ps pre Index s,
  referenced pre s0 s → (∀ p, p ∈ ps → is_Some (pf_refs s0 p)) → (k < length ps)%nat →
  (∀ i, (Index ≤ i < Index + k)%nat → room i = true) → room (Index + k)%nat = false →
  ∃ s', map_pages room ps Index s = Ok (Some (Index + k)%nat, s') ∧ referenced (pre ++ take (Datatypes.S k) ps) s0 s'.
Proof.
  induction k as [|k IH]; intros [|p ps] pre Index s Hrf Hps Hk Hroom Hno; cbn [length] in Hk; try lia; cbn [map_pages].
  all: destruct (referenced_snoc pre p s0 s Hrf) as (s1 & -> & Hrf1); [apply Hps; by left|]; cbn [mbind outcome_bind].
  { rewrite Nat.add_0_r in Hno. rewrite Hno, Nat.add_0_r. by exists s1. }
  rewrite Hroom by lia.
  destruct (IH ps (pre ++ [p]) (Datatypes.S Index) s1 Hrf1) as (s2 & Hs2 & Hrf2).
  - intros q Hq. apply Hps. by right.
  - lia.
  - intros i Hi. apply Hroom. lia.
  - by rewrite Nat.add_succ_comm.
  - exists s2. rewrite <-app_assoc in Hrf2. by rewrite <-Nat.add_succ_comm.
Qed.

Lemma free_pages_app ps ps' : ∀ s, free_pages (ps ++ ps') s = (s ← free_pages ps s; free_pages ps' s).
Proof.
  induction ps as [|p ps IH]; intros s; [done|]. cbn. destruct (pf_free p s) as [s'| |]; cbn; [apply IH|done|done].
Qed.

Lemma pages_all Mdl s : mdl_ok Mdl s → take (Z.to_nat (NumberPages Mdl)) (Pages Mdl) = Pages Mdl.
Proof. intros [Hc _ _ _]. rewrite Hc, Nat2Z.id. apply firstn_all. Qed.

(** Mapping a pinned MDL takes one more reference for each page, all of
    them or, when a page cannot be mapped, none, and unmapping gives them back.
    But the address stays in the MDL: mapping it again reports
    [STATUS_NO_REMAP] with the address that is no longer mapped. *)
Theorem MmMapPinnedPagesMdl_correct Mdl (s : S) A room :
  pf_ok s → mdl_ok Mdl s → MappedStartVA Mdl = 0 → A ≠ 0 →
  ((∀ i, (i < length (Pages Mdl))%nat → room i = true) →
   ∃ Mdl' s', MmMapPinnedPagesMdl (Some A) room Mdl s = Ok (STATUS_SUCCESS, A + ByteOffset Mdl, Mdl', s') ∧
     MDL_FLAG_MAPPED (Flags Mdl') = true ∧ referenced (Pages Mdl) s s' ∧
     ∃ Mdl'' s'', MmUnmapPagesMdl Mdl' s' = Ok (Mdl'', s'') ∧
       MDL_FLAG_MAPPED (Flags Mdl'') = false ∧ referenced [] s s'' ∧
       ∀ space room', MmMapPinnedPagesMdl space room' Mdl'' s'' = Ok (STATUS_NO_REMAP, A + ByteOffset Mdl, Mdl'', s'')) ∧
  (∀ k, (k < length (Pages Mdl))%nat → (∀ i, (i < k)%nat → room i = true) → room k = false →
   ∃ s', MmMapPinnedPagesMdl (Some A) room Mdl s = Ok (STATUS_INSUFFICIENT_MEMORY, 0, Mdl, s') ∧ referenced [] s s').
Proof.
  intros Hok Hmdl Hm HA. pose proof (pages_all _ _ Hmdl) as Hall. pose proof (mo_pinned _ _ Hmdl) as Hpin. split.
  - intros Hroom. destruct (map_pages_ok room s (Pages Mdl) [] 0 s (referenced_nil s Hok) Hpin) as (s' & Hs' & Hrf).
    { intros i Hi. apply Hroom. lia. }
    unfold MmMapPinnedPagesMdl at 1. rewrite Hm, Hall, Hs'. cbn [negb Z.eqb mbind outcome_bind].
    eexists _, s'. split; [done|]. split; [done|]. split; [done|].
    unfold MmUnmapPagesMdl. cbn. rewrite Hall.
    destruct (free_pages_spec s Hok (Pages Mdl) s' Hpin Hrf) as (s'' & -> & Hrf''). cbn.
    eexists _, s''. split; [done|]. split; [done|]. split; [done|]. intros space room'. unfold MmMapPinnedPagesMdl. cbn.
    by rewrite (proj2 (Z.eqb_neq _ _) HA).
  - intros k Hk Hroom Hno. destruct (map_pages_fail room s k (Pages Mdl) [] 0 s (referenced_nil s Hok) Hpin Hk) as (s' & Hs' & Hrf).
    { intros i Hi. apply Hroom. lia. }
    { done. }
    unfold MmMapPinnedPagesMdl. rewrite Hm, Hall, Hs'. cbn [negb Z.eqb mbind outcome_bind Nat.add].
    destruct (lookup_lt_is_Some_2 (Pages Mdl) k Hk) as [p Hp]. rewrite Hp. cbn [deref mbind outcome_bind].
    rewrite (take_S_r _ _ _ Hp) in Hrf. cbn [app] in Hrf.
    destruct (free_pages_spec s Hok (take k (Pages Mdl) ++ [p]) s') as (s'' & Hs'' & Hrf''); [|done|].
    { intros q [Hq|Hq]%elem_of_app; apply Hpin; [apply elem_of_take in Hq as (i & Hi & _); by eapply list_elem_of_lookup_2|].
      apply list_elem_of_singleton in Hq as ->. by eapply list_elem_of_lookup_2. }
    rewrite free_pages_app in Hs''. exists s''. split; [|done]. revert Hs''.
    destruct (free_pages (take k (Pages Mdl)) s') as [s1| |]; cbn [mbind outcome_bind]; [|done|done].
    cbn [free_pages]. destruct (pf_free p s1); cbn; [by intros [= ->]|done|done].
Qed.

End laws.

(** *** Allocation *)

(** What is allocated for a buffer of a user can be pinned. *)
Lemma MmAllocateMdl_user VirtualAddress Length :
  0 ≤ VirtualAddress → 0 < Length < MDL_MAX_SIZE → VirtualAddress + Length ≤ MM_USER_SPACE_END - PAGE_SIZE →
  ∃ Mdl, MmAllocateMdl true VirtualAddress Length = Some Mdl ∧ user_buffer Mdl ∧
    SourceStartVA Mdl + ByteOffset Mdl = VirtualAddress ∧ ByteCount Mdl = Length.
Proof.
  intros Ha Hl He.
  assert (0 ≤ VirtualAddress + Length + (PAGE_SIZE - 1) < 2 ^ 64) as Hw by (unfold PAGE_SIZE, MM_USER_SPACE_END in *; lia).
  unfold MmAllocateMdl. rewrite (proj2 (Z.leb_gt _ _)) by lia.
  rewrite range_valid by (unfold PAGE_SIZE, MM_USER_SPACE_END in *; lia). cbn [negb].
  rewrite (wrap_small 64 _ Hw), !page_down_spec by lia.
  assert (Z.land VirtualAddress (PAGE_SIZE - 1) = VirtualAddress mod PAGE_SIZE) as ->.
  { unfold PAGE_SIZE. change (4096 - 1) with (Z.ones 12). by rewrite Z.land_ones. }
  pose proof (Z.div_mod VirtualAddress PAGE_SIZE ltac:(done)) as Hd.
  pose proof (Z.mod_pos_bound VirtualAddress PAGE_SIZE ltac:(done)) as Hm.
  eexists. split; [done|]. split; [|cbn; lia].
  split; cbn; try done; try lia.
  - rewrite Z.mul_comm, Z_mod_mult. split; [|done]. apply Z.mul_nonneg_nonneg; [apply Z.div_pos|]; lia.
  - set (a := VirtualAddress / PAGE_SIZE) in *. set (o := VirtualAddress mod PAGE_SIZE) in *.
    replace (VirtualAddress + Length + (PAGE_SIZE - 1)) with (o + Length + PAGE_SIZE - 1 + a * PAGE_SIZE) by lia.
    rewrite Z.div_add by done. set (b := (o + Length + PAGE_SIZE - 1) / PAGE_SIZE).
    assert (0 ≤ b) by (apply Z.div_pos; [lia|done]).
    assert (b ≤ o + Length + PAGE_SIZE - 1) by (apply Z.div_le_upper_bound; [done|unfold PAGE_SIZE; lia]).
    rewrite wrap_small.
    + replace (PAGE_SIZE * (b + a) - PAGE_SIZE * a) with (b * PAGE_SIZE) by lia. by apply Z.div_mul.
    + unfold PAGE_SIZE, MM_USER_SPACE_END, MDL_MAX_SIZE in *. lia.
Qed.

(** ** Witnesses *)

(** Frames 6 and 5 of the small machine of [Pmm] are in use. *)
Definition mdl_state : pmm :=
  match MmAllocatePhysicalPage small_state with
  | Ok (_, s) => match MmAllocatePhysicalPage s with Ok (_, s) => s | _ => s end
  | _ => small_state
  end.

Lemma mdl_state_ok : pmm_ok mdl_state.
Proof. exists (λ l, match l with LStandby => [3] | _ => [] end), []. apply pm_inv_check. vm_compute. reflexivity. Qed.

(** 200 bytes from the end of a page on. *)
Definition mdl_buffer : MDL := mkMdl 4000 (mkFlags false false false true) 200 (2 * PAGE_SIZE) 0 2 [].
Definition mdl_pinned : MDL := set_CAPTURED true (set_Pages [6; 5] mdl_buffer).
Definition mdl_frames (i : nat) : Z := match i with O => 6 | _ => 5 end.

Lemma mdl_buffer_ok : user_buffer mdl_buffer.
Proof. split; vm_compute; split_and?; congruence || done. Qed.

Lemma mdl_frames_in i : is_Some (pmm_refs mdl_state (mdl_frames i)).
Proof. destruct i; vm_compute; eauto. Qed.

Lemma mdl_pinned_ok : mdl_ok mdl_pinned mdl_state ∧ mdl_fits mdl_pinned.
Proof.
  split; [|vm_compute; split_and!; congruence]. split; cbn [Pages mdl_pinned].
  - done.
  - apply (bool_decide_unpack _). vm_compute. exact I.
  - intros n Hn. cbn in Hn. apply elem_of_cons in Hn as [->|Hn]; [apply (mdl_frames_in 0)|].
    apply list_elem_of_singleton in Hn as ->. apply (mdl_frames_in 1).
  - intros n Hn. cbn in Hn. apply elem_of_cons in Hn as [->|Hn]; [|apply list_elem_of_singleton in Hn as ->];
      (eexists; split; [vm_compute; reflexivity|vm_compute; reflexivity]).
Qed.

Definition mdl_answers (gone : nat → Z → bool) : answers :=
  mkAnswers (λ t a, if gone t a then None else Some (mkPte true true true (if a =? 2 * PAGE_SIZE then 6 else 5)))
    (λ _ _, STATUS_SUCCESS).

Lemma mdl_faulted_in gone k : (k ≤ 2)%nat → (∀ t, (t < k)%nat → gone t (page_at (2 * PAGE_SIZE) t) = false) →
  faulted_in (mdl_answers gone) true mdl_buffer mdl_state mdl_frames k.
Proof.
  intros Hk Hg. split; [done| |intros; apply mdl_frames_in].
  intros i Hi. exists true. split; [|done]. cbn [pte_at mdl_answers]. change (SourceStartVA mdl_buffer) with (2 * PAGE_SIZE).
  rewrite Hg by done. destruct i as [|[|]]; [done|done|lia].
Qed.

Lemma MmProbeAndPinPagesMdl_correct_witness :
  ∃ Mdl' s', MmProbeAndPinPagesMdl (mdl_answers (λ _ _, false)) 3 true true mdl_buffer mdl_state = Ok (STATUS_SUCCESS, Mdl', s') ∧
    Pages Mdl' = [6; 5] ∧ pmm_refs s' 6 = Some 2.
Proof.
  destruct (MmProbeAndPinPagesMdl_correct (mdl_answers (λ _ _, false)) 3 true true mdl_buffer mdl_state mdl_frames)
    as (Mdl' & s' & Hr & Hp & Hrf & _).
  - exact mdl_state_ok.
  - exact mdl_buffer_ok.
  - reflexivity.
  - apply mdl_faulted_in; [vm_compute; lia|done].
  - exists Mdl', s'. split; [exact Hr|]. split; [exact Hp|].
    pose proof (rf_refs _ _ _ Hrf 6) as H6. rewrite Hp in H6. vm_compute in H6. exact H6.
Defined.

Lemma MmProbeAndPinPagesMdl_refault_crashes_witness :
  MmProbeAndPinPagesMdl (mdl_answers (λ t _, Nat.eqb t 1)) 4 true true mdl_buffer mdl_state = Crash.
Proof.
  apply (MmProbeAndPinPagesMdl_refault_crashes _ 4 true true mdl_buffer mdl_state mdl_frames 1).
  - exact mdl_state_ok.
  - exact mdl_buffer_ok.
  - reflexivity.
  - apply mdl_faulted_in; [lia|]. intros t Ht. by destruct t; [|lia].
  - done.
  - reflexivity.
  - reflexivity.
  - intros t i Ht Hi. split; [|apply mdl_frames_in]. exists true. split; [|done].
    cbn [pte_at mdl_answers]. rewrite (proj2 (Nat.eqb_neq t 1)) by lia. cbn in Hi.
    destruct i as [|[|]]; [done|done|lia].
Defined.

Lemma mdl_is_array_witness :
  ∃ s', MmCopyIntoMdl mdl_pinned 90 [1; 2; 3; 4; 5; 6; 7; 8] mdl_state = Ok s' ∧
    mdl_data mdl_pinned s' = list_inserts 90 [1; 2; 3; 4; 5; 6; 7; 8] (mdl_data mdl_pinned mdl_state).
Proof.
  destruct (mdl_is_array mdl_pinned mdl_state 90 [1; 2; 3; 4; 5; 6; 7; 8] 8 0) as ((s' & Hs' & _ & _ & _ & Hd) & _).
  - exact mdl_state_ok.
  - exact (proj1 mdl_pinned_ok).
  - exact (proj2 mdl_pinned_ok).
  - done.
  - done.
  - done.
  - done.
  - exists s'. split; [exact Hs'|exact Hd].
Defined.

Lemma MmMapPinnedPagesMdl_correct_witness :
  ∃ Mdl' s', MmMapPinnedPagesMdl (Some 65536) (λ _, true) mdl_pinned mdl_state = Ok (STATUS_SUCCESS, 69536, Mdl', s') ∧
    pmm_refs s' 6 = Some 2.
Proof.
  destruct (MmMapPinnedPagesMdl_correct mdl_pinned mdl_state 65536 (λ _, true)) as [Hm _].
  - exact mdl_state_ok.
  - exact (proj1 mdl_pinned_ok).
  - reflexivity.
  - done.
  - destruct Hm as (Mdl' & s' & Hr & _ & Hrf & _); [done|]. exists Mdl', s'. split; [exact Hr|].
    pose proof (rf_refs _ _ _ Hrf 6) as H6. vm_compute in H6. exact H6.
Defined.
