(* ===== verification/Pte.v ===== *)
(** The page table entries of [boron/source/mm/amd64/pte.c], as the 64-bit words
    that they are: building them, looking at them, and what comes back. *)
From S2P Require Import Prelude.
Local Open Scope Z_scope.

(** ** The bits *)

(** [MM_AMD64_PTE_PRESENT] : boron/include/arch/amd64.h:69-84. *)
Definition MM_AMD64_PTE_PRESENT : Z := 2 ^ 0.
Definition MM_AMD64_PTE_READWRITE : Z := 2 ^ 1.
Definition MM_AMD64_PTE_USERACCESS : Z := 2 ^ 2.
Definition MM_AMD64_PTE_CDISABLE : Z := 2 ^ 4.
Definition MM_AMD64_PTE_ACCESSED : Z := 2 ^ 5.
Definition MM_AMD64_PTE_DIRTY : Z := 2 ^ 6.
Definition MM_AMD64_PTE_PAGESIZE : Z := 2 ^ 7.
Definition MM_AMD64_PTE_GLOBAL : Z := 2 ^ 8.
Definition MM_AMD64_PTE_ISFROMPMM : Z := 2 ^ 9.
Definition MM_AMD64_PTE_NOEXEC : Z := 2 ^ 63.
(** [MM_AMD64_PTE_ADDRESSMASK] : boron/include/arch/amd64.h:85-85.
    0x000FFFFFFFFFF000. *)
Definition MM_AMD64_PTE_ADDRESSMASK : Z := Z.shiftl (Z.ones 40) 12.
(** [MM_AMD64_DPTE_ISPOOLHDR] : boron/include/arch/amd64.h:87-90. *)
Definition MM_AMD64_DPTE_ISPOOLHDR : Z := 2 ^ 58.
Definition MM_AMD64_DPTE_DECOMMITTED : Z := 2 ^ 3.
Definition MM_AMD64_DPTE_COMMITTED : Z := 2 ^ 8.
Definition MM_AMD64_DPTE_WASPRESENT : Z := 2 ^ 62.
(** [MM_KERNEL_SPACE_BASE] : boron/include/arch/amd64.h:61-61. *)
Definition MM_KERNEL_SPACE_BASE : Z := 2 ^ 64 - 2 ^ 47.

(** [MM_PROT_READ] : boron/include/mm/pte.h:66-69. *)
Definition MM_PROT_READ : Z := 2 ^ 0.
Definition MM_PROT_WRITE : Z := 2 ^ 1.
Definition MM_PROT_EXEC : Z := 2 ^ 2.
Definition MM_PROT_USER : Z := 2 ^ 3.
(** [MM_MISC_ACCESSED] : boron/include/mm/pte.h:84-88. *)
Definition MM_MISC_ACCESSED : Z := 2 ^ 4.
Definition MM_MISC_DIRTY : Z := 2 ^ 5.
Definition MM_MISC_DISABLE_CACHE : Z := 2 ^ 6.
Definition MM_MISC_IS_FROM_PMM : Z := 2 ^ 7.
Definition MM_MISC_GLOBAL : Z := 2 ^ 8.
(** [MM_PAGE_DECOMMITTED] : boron/include/mm/pte.h:97-98. *)
Definition MM_PAGE_DECOMMITTED : Z := 2 ^ 0.
Definition MM_PAGE_COMMITTED : Z := 2 ^ 1.

(** [x & m] as a condition. *)
Definition on (x m : Z) : bool := negb (Z.land x m =? 0).

(** ** The functions *)

(** [MmIsPresentPte] : boron/source/mm/amd64/pte.c:18-21. *)
Definition MmIsPresentPte (Pte : Z) : bool := on Pte MM_AMD64_PTE_PRESENT.

(** [MmIsPoolHeaderPte] : boron/source/mm/amd64/pte.c:23-26. *)
Definition MmIsPoolHeaderPte (Pte : Z) : bool := negb (MmIsPresentPte Pte) && on Pte MM_AMD64_DPTE_ISPOOLHDR.

(** [MmWasPresentPte] : boron/source/mm/amd64/pte.c:28-33. *)
Definition MmWasPresentPte (Pte : Z) : bool :=
  negb (MmIsPresentPte Pte) && negb (on Pte MM_AMD64_DPTE_ISPOOLHDR) && on Pte MM_AMD64_DPTE_WASPRESENT.

(** [MmIsCommittedPte] : boron/source/mm/amd64/pte.c:35-40. *)
Definition MmIsCommittedPte (Pte : Z) : bool :=
  negb (MmIsPresentPte Pte) && negb (on Pte MM_AMD64_DPTE_ISPOOLHDR) && on Pte MM_AMD64_DPTE_DECOMMITTED.

(** [MmIsDecommittedPte] : boron/source/mm/amd64/pte.c:42-47. *)
Definition MmIsDecommittedPte (Pte : Z) : bool :=
  negb (MmIsPresentPte Pte) && negb (on Pte MM_AMD64_DPTE_ISPOOLHDR) && on Pte MM_AMD64_DPTE_COMMITTED.

(** [MmBuildZeroPte] : boron/source/mm/amd64/pte.c:49-54. *)
Definition MmBuildZeroPte : Z := 0.

(** [MmSetPfnPte] : boron/source/mm/amd64/pte.c:56-61.
    The frame number is a [uint32_t] (mm/pfn.h), and so is what it is shifted
    to before it is widened. *)
Definition MmSetPfnPte (Pte NewPfn : Z) : Z :=
  Z.lor (Z.ldiff Pte MM_AMD64_PTE_ADDRESSMASK) (u32 (Z.shiftl NewPfn 12)).

(** One of the assignments of [MmSetPageBitsPte]. *)
Definition or_if (b : bool) (m Pte : Z) : Z := if b then Z.lor Pte m else Pte.

(** The bits that [MmSetPageBitsPte] clears first. *)
Definition page_bits_mask : Z :=
  Z.lor MM_AMD64_PTE_READWRITE (Z.lor MM_AMD64_PTE_USERACCESS (Z.lor MM_AMD64_PTE_NOEXEC (Z.lor MM_AMD64_PTE_CDISABLE
    (Z.lor MM_AMD64_PTE_ACCESSED (Z.lor MM_AMD64_PTE_DIRTY (Z.lor MM_AMD64_PTE_GLOBAL MM_AMD64_PTE_ISFROMPMM)))))).

(** [MmSetPageBitsPte] : boron/source/mm/amd64/pte.c:63-83. *)
Definition MmSetPageBitsPte (Pte PageBits : Z) : Z :=
  or_if (on PageBits MM_MISC_IS_FROM_PMM) MM_AMD64_PTE_ISFROMPMM
  (or_if (on PageBits MM_MISC_GLOBAL) MM_AMD64_PTE_GLOBAL
  (or_if (on PageBits MM_MISC_DIRTY) MM_AMD64_PTE_DIRTY
  (or_if (on PageBits MM_MISC_ACCESSED) MM_AMD64_PTE_ACCESSED
  (or_if (on PageBits MM_MISC_DISABLE_CACHE) MM_AMD64_PTE_CDISABLE
  (or_if (on (Z.lnot PageBits) MM_PROT_EXEC) MM_AMD64_PTE_NOEXEC
  (or_if (on PageBits MM_PROT_USER) MM_AMD64_PTE_USERACCESS
  (or_if (on PageBits MM_PROT_WRITE) MM_AMD64_PTE_READWRITE
    (Z.ldiff Pte page_bits_mask)))))))).

(** [MmBuildPte] : boron/source/mm/amd64/pte.c:85-96. *)
Definition MmBuildPte (Pfn PageBits : Z) : Z :=
  Z.lor (MmSetPageBitsPte (MmSetPfnPte MmBuildZeroPte Pfn) PageBits) MM_AMD64_PTE_PRESENT.

(** [MmBuildWasPresentPte] : boron/source/mm/amd64/pte.c:98-103.
    The mask is 0x8000FFFFFFFFFFFF. *)
Definition MmBuildWasPresentPte (OldPte : Z) : Z :=
  Z.lor (Z.land OldPte (Z.lor (2 ^ 63) (Z.ones 48))) MM_AMD64_DPTE_WASPRESENT.

(** [MmBuildAbsentPte] : boron/source/mm/amd64/pte.c:105-129. *)
Definition MmBuildAbsentPte (PageBits : Z) : Z :=
  or_if (on PageBits MM_PAGE_COMMITTED) MM_AMD64_DPTE_COMMITTED
  (or_if (on PageBits MM_PAGE_DECOMMITTED) MM_AMD64_DPTE_DECOMMITTED MmBuildZeroPte).

(** [MmBuildPoolHeaderPte] : boron/source/mm/amd64/pte.c:131-138. *)
Definition MmBuildPoolHeaderPte (Address : Z) : Z :=
  Z.lor (u64 (Address - MM_KERNEL_SPACE_BASE)) MM_AMD64_DPTE_ISPOOLHDR.

(** [MmGetPoolHeaderAddressPte] : boron/source/mm/amd64/pte.c:140-149. *)
Definition MmGetPoolHeaderAddressPte (Pte : Z) : Z :=
  if negb (MmIsPoolHeaderPte Pte) then 0
  else u64 (Z.ldiff Pte MM_AMD64_DPTE_ISPOOLHDR + MM_KERNEL_SPACE_BASE).

(** [MmGetPfnPte] : boron/source/mm/amd64/pte.c:151-154. *)
Definition MmGetPfnPte (Pte : Z) : Z := u32 (Z.shiftr (Z.land Pte MM_AMD64_PTE_ADDRESSMASK) 12).

(** [MmGetPageBitsPte] : boron/source/mm/amd64/pte.c:156-170. *)
Definition MmGetPageBitsPte (Pte : Z) : Z :=
  or_if (on Pte MM_AMD64_PTE_ISFROMPMM) MM_MISC_IS_FROM_PMM
  (or_if (on Pte MM_AMD64_PTE_GLOBAL) MM_MISC_GLOBAL
  (or_if (on Pte MM_AMD64_PTE_CDISABLE) MM_MISC_DISABLE_CACHE
  (or_if (on Pte MM_AMD64_PTE_DIRTY) MM_MISC_DIRTY
  (or_if (on Pte MM_AMD64_PTE_ACCESSED) MM_MISC_ACCESSED
  (or_if (on Pte MM_AMD64_PTE_USERACCESS) MM_PROT_USER
  (or_if (on Pte MM_AMD64_PTE_READWRITE) MM_PROT_WRITE
    (if on Pte MM_AMD64_PTE_NOEXEC then MM_PROT_READ else Z.lor MM_PROT_READ MM_PROT_EXEC))))))).

(** [MmIsEqualPte] : boron/source/mm/amd64/pte.c:172-175. *)
Definition MmIsEqualPte (Pte1 Pte2 : Z) : bool := Pte1 =? Pte2.

(** [MmIsUnsupportedHigherLevelPte] : boron/source/mm/amd64/pte.c:177-188. *)
Definition MmIsUnsupportedHigherLevelPte (Pte : Z) : bool := MmIsPresentPte Pte && on Pte MM_AMD64_PTE_PAGESIZE.

(** [MmIsFromPmmPte] : boron/source/mm/amd64/pte.c:190-193. *)
Definition MmIsFromPmmPte (Pte : Z) : bool :=
  (MmIsPresentPte Pte || MmWasPresentPte Pte) && on Pte MM_AMD64_PTE_ISFROMPMM.

(** ** The functions bit by bit *)

Lemma on_pow2 x k : 0 ≤ k → on x (2 ^ k) = Z.testbit x k.
Proof.
  intros Hk. unfold on. destruct (Z.testbit x k) eqn:E.
  - apply negb_true_iff, Z.eqb_neq. intros H. apply (f_equal (λ y, Z.testbit y k)) in H.
    rewrite Z.land_spec, Z.bits_0, E, Z.pow2_bits_true in H by done. done.
  - apply negb_false_iff, Z.eqb_eq, Z.bits_inj'. intros j Hj. rewrite Z.land_spec, Z.bits_0, Z.pow2_bits_eqb by done.
    destruct (Z.eqb_spec k j) as [->|]; [by rewrite E|by rewrite andb_false_r].
Qed.

Lemma or_if_bit b k Pte j : 0 ≤ k → Z.testbit (or_if b (2 ^ k) Pte) j = (b && (k =? j)) || Z.testbit Pte j.
Proof.
  intros Hk. unfold or_if. destruct b; [|done]. rewrite Z.lor_spec, Z.pow2_bits_eqb by done. cbn. apply orb_comm.
Qed.

Lemma mask_bit j : 0 ≤ j → Z.testbit MM_AMD64_PTE_ADDRESSMASK j = (12 <=? j) && (j <? 52).
Proof.
  intros Hj. unfold MM_AMD64_PTE_ADDRESSMASK. rewrite Z.shiftl_spec by done.
  destruct (Z.leb_spec 12 j), (Z.ltb_spec j 52); cbn.
  - apply Z.ones_spec_low. lia. - apply Z.ones_spec_high. lia.
  - rewrite Z.testbit_neg_r; [done|lia]. - rewrite Z.testbit_neg_r; [done|lia].
Qed.

Lemma wrap_bit w x j : 0 ≤ w → 0 ≤ j → Z.testbit (wrap w x) j = (j <? w) && Z.testbit x j.
Proof.
  intros Hw Hj. unfold wrap. destruct (Z.ltb_spec j w); [by rewrite Z.mod_pow2_bits_low|by rewrite Z.mod_pow2_bits_high].
Qed.

Lemma set_page_bits_bit Pte b j : 0 ≤ j → Z.testbit (MmSetPageBitsPte Pte b) j =
  (Z.testbit b 7 && (9 =? j)) || ((Z.testbit b 8 && (8 =? j)) || ((Z.testbit b 5 && (6 =? j)) || ((Z.testbit b 4 && (5 =? j)) ||
  ((Z.testbit b 6 && (4 =? j)) || ((negb (Z.testbit b 2) && (63 =? j)) || ((Z.testbit b 3 && (2 =? j)) || ((Z.testbit b 1 && (1 =? j)) ||
  (Z.testbit Pte j && negb (Z.testbit page_bits_mask j))))))))).
Proof.
  intros Hj. unfold MmSetPageBitsPte. unfold MM_AMD64_PTE_ISFROMPMM, MM_AMD64_PTE_GLOBAL, MM_AMD64_PTE_DIRTY, MM_AMD64_PTE_ACCESSED,
    MM_AMD64_PTE_CDISABLE, MM_AMD64_PTE_NOEXEC, MM_AMD64_PTE_USERACCESS, MM_AMD64_PTE_READWRITE, MM_MISC_IS_FROM_PMM, MM_MISC_GLOBAL,
    MM_MISC_DIRTY, MM_MISC_ACCESSED, MM_MISC_DISABLE_CACHE, MM_PROT_EXEC, MM_PROT_USER, MM_PROT_WRITE.
  rewrite !or_if_bit by done. rewrite !on_pow2 by done. by rewrite Z.lnot_spec, Z.ldiff_spec by done.
Qed.

Lemma set_pfn_bit Pte Pfn j : 0 ≤ j → Z.testbit (MmSetPfnPte Pte Pfn) j =
  (Z.testbit Pte j && negb ((12 <=? j) && (j <? 52))) || ((j <? 32) && Z.testbit Pfn (j - 12)).
Proof.
  intros Hj. unfold MmSetPfnPte. rewrite Z.lor_spec, Z.ldiff_spec, mask_bit, wrap_bit, Z.shiftl_spec by lia. done.
Qed.

Lemma build_pte_bit Pfn b j : 0 ≤ j → Z.testbit (MmBuildPte Pfn b) j =
  (0 =? j) || ((Z.testbit b 7 && (9 =? j)) || ((Z.testbit b 8 && (8 =? j)) || ((Z.testbit b 5 && (6 =? j)) || ((Z.testbit b 4 && (5 =? j)) ||
  ((Z.testbit b 6 && (4 =? j)) || ((negb (Z.testbit b 2) && (63 =? j)) || ((Z.testbit b 3 && (2 =? j)) || ((Z.testbit b 1 && (1 =? j)) ||
  ((j <? 32) && Z.testbit Pfn (j - 12) && negb (Z.testbit page_bits_mask j)))))))))).
Proof.
  intros Hj. unfold MmBuildPte, MM_AMD64_PTE_PRESENT. rewrite Z.lor_spec, Z.pow2_bits_eqb, set_page_bits_bit, set_pfn_bit by done.
  unfold MmBuildZeroPte. rewrite Z.bits_0. cbn [andb orb]. apply orb_comm.
Qed.

(** The bits of what is built, at a position that is known. *)
Ltac pte_bit :=
  unfold MmIsPoolHeaderPte, MmWasPresentPte, MmIsCommittedPte, MmIsDecommittedPte, MmIsUnsupportedHigherLevelPte, MmIsFromPmmPte, MmIsPresentPte,
    MM_AMD64_PTE_PRESENT, MM_AMD64_PTE_ISFROMPMM, MM_AMD64_PTE_GLOBAL, MM_AMD64_PTE_DIRTY, MM_AMD64_PTE_ACCESSED,
    MM_AMD64_PTE_CDISABLE, MM_AMD64_PTE_NOEXEC, MM_AMD64_PTE_USERACCESS, MM_AMD64_PTE_READWRITE, MM_AMD64_PTE_PAGESIZE,
    MM_AMD64_DPTE_ISPOOLHDR, MM_AMD64_DPTE_DECOMMITTED, MM_AMD64_DPTE_COMMITTED, MM_AMD64_DPTE_WASPRESENT;
  rewrite ?on_pow2 by done.

Lemma build_pte_at Pfn b :
  Z.testbit (MmBuildPte Pfn b) 0 = true ∧ Z.testbit (MmBuildPte Pfn b) 1 = Z.testbit b 1 ∧ Z.testbit (MmBuildPte Pfn b) 2 = Z.testbit b 3 ∧
  Z.testbit (MmBuildPte Pfn b) 4 = Z.testbit b 6 ∧ Z.testbit (MmBuildPte Pfn b) 5 = Z.testbit b 4 ∧ Z.testbit (MmBuildPte Pfn b) 6 = Z.testbit b 5 ∧
  Z.testbit (MmBuildPte Pfn b) 7 = false ∧ Z.testbit (MmBuildPte Pfn b) 8 = Z.testbit b 8 ∧ Z.testbit (MmBuildPte Pfn b) 9 = Z.testbit b 7 ∧
  Z.testbit (MmBuildPte Pfn b) 63 = negb (Z.testbit b 2).
Proof.
  rewrite !build_pte_bit by done. cbn [Z.eqb Pos.eqb Z.ltb Z.compare Pos.compare Pos.compare_cont andb orb].
  rewrite !(Z.testbit_neg_r Pfn) by done. rewrite ?andb_true_r, ?andb_false_r, ?orb_false_r, ?andb_false_l. done.
Qed.

(** ** What comes back *)

Lemma get_pfn_bit Pte j : 0 ≤ j → Z.testbit (MmGetPfnPte Pte) j = (j <? 32) && Z.testbit Pte (j + 12).
Proof.
  intros Hj. unfold MmGetPfnPte. rewrite wrap_bit, Z.shiftr_spec, Z.land_spec, mask_bit by lia.
  destruct (Z.ltb_spec j 32); [|done]. cbn. rewrite (proj2 (Z.leb_le _ _)), (proj2 (Z.ltb_lt _ _)) by lia. by rewrite andb_true_r.
Qed.

Lemma page_bits_mask_bit j : 12 ≤ j < 52 → Z.testbit page_bits_mask j = false.
Proof.
  intros Hj. unfold page_bits_mask, MM_AMD64_PTE_ISFROMPMM, MM_AMD64_PTE_GLOBAL, MM_AMD64_PTE_DIRTY, MM_AMD64_PTE_ACCESSED,
    MM_AMD64_PTE_CDISABLE, MM_AMD64_PTE_NOEXEC, MM_AMD64_PTE_USERACCESS, MM_AMD64_PTE_READWRITE.
  rewrite !Z.lor_spec, !Z.pow2_bits_eqb by done. repeat (rewrite (proj2 (Z.eqb_neq _ j)) by lia). done.
Qed.

Lemma MmGetPfnPte_build Pfn b : 0 ≤ Pfn → MmGetPfnPte (MmBuildPte Pfn b) = Pfn mod 2 ^ 20.
Proof.
  intros HP. apply Z.bits_inj'. intros j Hj. rewrite get_pfn_bit by done. fold (wrap 20 Pfn). rewrite wrap_bit by lia.
  destruct (Z.ltb_spec j 32), (Z.ltb_spec j 20); cbn [andb]; try lia; rewrite ?build_pte_bit by lia.
  - repeat (rewrite (proj2 (Z.eqb_neq _ (j + 12))) by lia). rewrite !andb_false_r. cbn [orb].
    rewrite page_bits_mask_bit, (proj2 (Z.ltb_lt _ _)) by lia. rewrite andb_true_r. cbn. f_equal. lia.
  - repeat (rewrite (proj2 (Z.eqb_neq _ (j + 12))) by lia). rewrite !andb_false_r. cbn [orb].
    by rewrite (proj2 (Z.ltb_ge _ _)) by lia.
Qed.

Lemma MmGetPageBitsPte_build Pfn b : 0 ≤ b < 2 ^ 9 → MmGetPageBitsPte (MmBuildPte Pfn b) = Z.lor MM_PROT_READ b.
Proof.
  intros Hb. destruct (build_pte_at Pfn b) as (B0 & B1 & B2 & B4 & B5 & B6 & B7 & B8 & B9 & B63).
  unfold MmGetPageBitsPte. pte_bit. rewrite B1, B2, B4, B5, B6, B8, B9, B63.
  unfold MM_PROT_READ, MM_PROT_WRITE, MM_PROT_EXEC, MM_PROT_USER, MM_MISC_ACCESSED, MM_MISC_DIRTY, MM_MISC_DISABLE_CACHE, MM_MISC_IS_FROM_PMM, MM_MISC_GLOBAL.
  apply Z.bits_inj'. intros j Hj. rewrite !or_if_bit, Z.lor_spec, Z.pow2_bits_eqb by done.
  assert (Z.testbit (if negb (Z.testbit b 2) then 2 ^ 0 else Z.lor (2 ^ 0) (2 ^ 2)) j = (0 =? j) || (Z.testbit b 2 && (2 =? j))) as ->.
  { destruct (Z.testbit b 2); cbn [negb andb]; rewrite ?Z.lor_spec, ?Z.pow2_bits_eqb by done; [done|by rewrite orb_false_r]. }
  destruct (Z.ltb_spec j 9).
  - assert (j = 0 ∨ j = 1 ∨ j = 2 ∨ j = 3 ∨ j = 4 ∨ j = 5 ∨ j = 6 ∨ j = 7 ∨ j = 8) as Hc by lia.
    destruct Hc as [->|[->|[->|[->|[->|[->|[->|[->| ->]]]]]]]]; cbn [Z.eqb Pos.eqb]; rewrite ?andb_true_r, ?andb_false_r, ?orb_false_r; done.
  - repeat (rewrite (proj2 (Z.eqb_neq _ j)) by lia). rewrite !andb_false_r. cbn [orb].
    rewrite (Z.bits_above_log2 b j); [done|lia|]. destruct (decide (b = 0)) as [->|]; [cbn; lia|]. apply Z.log2_lt_pow2; [lia|].
    apply Z.lt_le_trans with (2 ^ 9); [lia|]. apply Z.pow_le_mono_r; lia.
Qed.

Lemma bits_range x : (∀ j, 64 ≤ j → Z.testbit x j = false) → 0 ≤ x < 2 ^ 64.
Proof.
  intros Hx. assert (u64 x = x) as <-; [|apply wrap_range; lia]. apply Z.bits_inj'. intros j Hj. rewrite wrap_bit by lia.
  destruct (Z.ltb_spec j 64); [done|]. by rewrite Hx.
Qed.

Lemma MmBuildPte_range Pfn b : 0 ≤ MmBuildPte Pfn b < 2 ^ 64.
Proof.
  apply bits_range. intros j Hj. rewrite build_pte_bit by lia. repeat (rewrite (proj2 (Z.eqb_neq _ j)) by lia).
  rewrite !andb_false_r. by rewrite (proj2 (Z.ltb_ge _ _)) by lia.
Qed.

(** C39: A present entry that is built gives its page bits back (a page that is
    there can always be read), is of no other kind, and gives the frame number
    back as long as it is below [2 ^ 20]: the number is shifted as a 32-bit
    word, so that an entry for memory above 4 GiB leads to another frame. *)
Theorem MmBuildPte_roundtrip Pfn PageBits : 0 ≤ Pfn < 2 ^ 32 → 0 ≤ PageBits < 2 ^ 9 →
  let Pte := MmBuildPte Pfn PageBits in
  MmIsPresentPte Pte = true ∧ MmIsUnsupportedHigherLevelPte Pte = false ∧
  MmIsPoolHeaderPte Pte = false ∧ MmWasPresentPte Pte = false ∧ MmIsCommittedPte Pte = false ∧ MmIsDecommittedPte Pte = false ∧
  MmIsFromPmmPte Pte = Z.testbit PageBits 7 ∧ MmGetPageBitsPte Pte = Z.lor MM_PROT_READ PageBits ∧
  MmGetPfnPte Pte = Pfn mod 2 ^ 20 ∧ (MmGetPfnPte Pte = Pfn ↔ Pfn < 2 ^ 20).
Proof.
  intros HP Hb Pte. destruct (build_pte_at Pfn PageBits) as (B0 & B1 & B2 & B4 & B5 & B6 & B7 & B8 & B9 & B63).
  unfold Pte. rewrite MmGetPfnPte_build by lia. split_and!.
  1-7: pte_bit; by rewrite ?B0, ?B7, ?B9.
  - by apply MmGetPageBitsPte_build.
  - done.
  - split; intros H; [|apply Z.mod_small; lia]. pose proof (Z.mod_pos_bound Pfn (2 ^ 20)). lia.
Qed.

Lemma MmBuildPte_roundtrip_witness : MmGetPfnPte (MmBuildPte 0x12345 (Z.lor MM_PROT_WRITE MM_MISC_IS_FROM_PMM)) = 0x12345 ∧
  MmGetPfnPte (MmBuildPte 0x112345 MM_PROT_WRITE) = 0x12345.
Proof.
  split.
  - destruct (MmBuildPte_roundtrip 0x12345 (Z.lor MM_PROT_WRITE MM_MISC_IS_FROM_PMM)) as (_ & _ & _ & _ & _ & _ & _ & _ & _ & H); [lia|vm_compute; by split|]. by apply H.
  - destruct (MmBuildPte_roundtrip 0x112345 MM_PROT_WRITE) as (_ & _ & _ & _ & _ & _ & _ & _ & H & _); [lia|vm_compute; by split|]. by rewrite H.
Defined.

Lemma sub_base a : MM_KERNEL_SPACE_BASE ≤ a < 2 ^ 64 → u64 (a - MM_KERNEL_SPACE_BASE) = a - MM_KERNEL_SPACE_BASE ∧ 0 ≤ a - MM_KERNEL_SPACE_BASE < 2 ^ 47.
Proof. unfold MM_KERNEL_SPACE_BASE. intros Ha. rewrite wrap_small; lia. Qed.

Lemma high_bit x k : 0 ≤ x < 2 ^ 47 → 47 ≤ k → Z.testbit x k = false.
Proof.
  intros Hx Hk. rewrite <-(Z.mod_small x (2 ^ 47)) by done. apply Z.mod_pow2_bits_high. lia.
Qed.

Lemma pool_header_bit a k : MM_KERNEL_SPACE_BASE ≤ a < 2 ^ 64 → 0 ≤ k →
  Z.testbit (MmBuildPoolHeaderPte a) k = Z.testbit (a - MM_KERNEL_SPACE_BASE) k || (58 =? k).
Proof.
  intros Ha Hk. unfold MmBuildPoolHeaderPte, MM_AMD64_DPTE_ISPOOLHDR. rewrite Z.lor_spec, Z.pow2_bits_eqb by done.
  by rewrite (proj1 (sub_base a Ha)).
Qed.

Lemma even_bit0 a : a mod 8 = 0 → Z.testbit (a - MM_KERNEL_SPACE_BASE) 0 = false.
Proof.
  intros Ha. rewrite Z.bit0_odd, Z.odd_sub, <-!Z.bit0_odd. change (Z.testbit MM_KERNEL_SPACE_BASE 0) with false.
  rewrite xorb_false_r. rewrite (Z.div_mod a 8), Ha, Z.add_0_r by lia. by rewrite Z.bit0_odd, Z.odd_mul.
Qed.

Lemma pool_header_spec a : MM_KERNEL_SPACE_BASE ≤ a < 2 ^ 64 → a mod 8 = 0 →
  MmIsPresentPte (MmBuildPoolHeaderPte a) = false ∧ MmIsPoolHeaderPte (MmBuildPoolHeaderPte a) = true ∧
  MmGetPoolHeaderAddressPte (MmBuildPoolHeaderPte a) = a.
Proof.
  intros Ha Hm. pose proof (sub_base a Ha) as [_ Hs].
  assert (MmIsPresentPte (MmBuildPoolHeaderPte a) = false) as H0.
  { pte_bit. rewrite pool_header_bit by done. by rewrite even_bit0. }
  assert (MmIsPoolHeaderPte (MmBuildPoolHeaderPte a) = true) as H1.
  { unfold MmIsPoolHeaderPte. rewrite H0. unfold MM_AMD64_DPTE_ISPOOLHDR. rewrite on_pow2, pool_header_bit by done. by rewrite orb_true_r. }
  split_and!; [done|done|]. unfold MmGetPoolHeaderAddressPte. rewrite H1. cbn [negb].
  assert (Z.ldiff (MmBuildPoolHeaderPte a) MM_AMD64_DPTE_ISPOOLHDR = a - MM_KERNEL_SPACE_BASE) as ->.
  { apply Z.bits_inj'. intros k Hk. unfold MM_AMD64_DPTE_ISPOOLHDR at 1. rewrite Z.ldiff_spec, Z.pow2_bits_eqb, pool_header_bit by done.
    destruct (Z.eqb_spec 58 k) as [<-|]; cbn [negb]; [|by rewrite orb_false_r, andb_true_r].
    rewrite andb_false_r. symmetry. by apply high_bit. }
  unfold MM_KERNEL_SPACE_BASE in *. rewrite wrap_small; lia.
Qed.

(** The header of a pool region is found again in the entry that hides it:
    the address of an aligned structure in kernel space survives the entry,
    which is neither present nor of any kind that demand paging knows. *)
Theorem MmBuildPoolHeaderPte_roundtrip Address : MM_KERNEL_SPACE_BASE ≤ Address < 2 ^ 64 → Address mod 8 = 0 →
  let Pte := MmBuildPoolHeaderPte Address in
  MmGetPoolHeaderAddressPte Pte = Address ∧ MmIsPoolHeaderPte Pte = true ∧ MmIsPresentPte Pte = false ∧
  MmWasPresentPte Pte = false ∧ MmIsCommittedPte Pte = false ∧ MmIsDecommittedPte Pte = false.
Proof.
  intros Ha Hm Pte. destruct (pool_header_spec Address Ha Hm) as (H0 & H1 & H2). unfold Pte. split_and!; [done..| | |];
    unfold MmWasPresentPte, MmIsCommittedPte, MmIsDecommittedPte; unfold MmIsPoolHeaderPte in H1; rewrite H0 in *; cbn in *; by rewrite H1.
Qed.

Lemma MmBuildPoolHeaderPte_roundtrip_witness : MmGetPoolHeaderAddressPte (MmBuildPoolHeaderPte 0xFFFF800000012030) = 0xFFFF800000012030.
Proof. apply (MmBuildPoolHeaderPte_roundtrip 0xFFFF800000012030); [vm_compute; by split|done]. Defined.

(** The two predicates on absent entries are each other's: an entry that is
    built as committed is reported as decommitted and not as committed, and
    one that is built as decommitted the other way round. *)
Theorem MmBuildAbsentPte_swapped :
  MmIsCommittedPte (MmBuildAbsentPte MM_PAGE_COMMITTED) = false ∧ MmIsDecommittedPte (MmBuildAbsentPte MM_PAGE_COMMITTED) = true ∧
  MmIsCommittedPte (MmBuildAbsentPte MM_PAGE_DECOMMITTED) = true ∧ MmIsDecommittedPte (MmBuildAbsentPte MM_PAGE_DECOMMITTED) = false.
Proof. by vm_compute. Qed.

Lemma was_present_bit Pte j : 0 ≤ j → Z.testbit (MmBuildWasPresentPte Pte) j = (Z.testbit Pte j && ((63 =? j) || (j <? 48))) || (62 =? j).
Proof.
  intros Hj. unfold MmBuildWasPresentPte, MM_AMD64_DPTE_WASPRESENT. rewrite Z.lor_spec, Z.land_spec, Z.lor_spec, !Z.pow2_bits_eqb by done.
  do 3 f_equal. destruct (Z.ltb_spec j 48); [apply Z.ones_spec_low; lia|apply Z.ones_spec_high; lia].
Qed.

Lemma was_present_spec Pte : MmIsPresentPte Pte = true →
  MmIsPresentPte (MmBuildWasPresentPte Pte) = true ∧ MmIsFromPmmPte (MmBuildWasPresentPte Pte) = MmIsFromPmmPte Pte.
Proof.
  intros Hp. assert (MmIsPresentPte (MmBuildWasPresentPte Pte) = true) as H1.
  { revert Hp. pte_bit. intros Hp. by rewrite was_present_bit, Hp by done. }
  split; [done|]. unfold MmIsFromPmmPte. rewrite H1, Hp. cbn [orb andb]. pte_bit. rewrite was_present_bit by done.
  cbn. by rewrite andb_true_r, orb_false_r.
Qed.

Lemma was_present_pfn Pte : MmGetPfnPte (MmBuildWasPresentPte Pte) = MmGetPfnPte Pte.
Proof.
  apply Z.bits_inj'. intros j Hj. rewrite !get_pfn_bit by done. destruct (Z.ltb_spec j 32); [|done]. cbn. rewrite was_present_bit by lia.
  rewrite (proj2 (Z.ltb_lt (j + 12) 48)), (proj2 (Z.eqb_neq 62 _)) by lia. by rewrite orb_true_r, andb_true_r, orb_false_r.
Qed.

Lemma was_present_range Pte : 0 ≤ MmBuildWasPresentPte Pte < 2 ^ 64.
Proof.
  apply bits_range. intros j Hj. rewrite was_present_bit by lia. rewrite (proj2 (Z.ltb_ge j 48)) by lia.
  repeat (rewrite (proj2 (Z.eqb_neq _ j)) by lia). by rewrite andb_false_r.
Qed.

(** The first step of unmapping does not clear the present bit: the entry
    that was present and is built to have been so is still present, so that
    other processors can go on to load it into their TLBs. *)
Theorem MmBuildWasPresentPte_stays_present Pte : MmIsPresentPte Pte = true →
  MmIsPresentPte (MmBuildWasPresentPte Pte) = true ∧ MmWasPresentPte (MmBuildWasPresentPte Pte) = false.
Proof. intros Hp. destruct (was_present_spec Pte Hp) as [H _]. split; [done|]. unfold MmWasPresentPte. by rewrite H. Qed.

Lemma MmBuildWasPresentPte_stays_present_witness : MmIsPresentPte (MmBuildWasPresentPte (MmBuildPte 5 MM_PROT_WRITE)) = true.
Proof. by apply (MmBuildWasPresentPte_stays_present (MmBuildPte 5 MM_PROT_WRITE)). Defined.
