(* ===== verification/PageMap.v ===== *)
(** The four levels of page tables of [boron/source/mm/amd64/pt.c] and
    [ptfree.c]: finding and making the entry of an address, mapping, unmapping
    and freeing tables.

    Tables are pages of the interface [PageFrames], read and written through
    the higher half direct map; a page map is the frame of its topmost table.
    The entries that the code reaches through the recursive mapping of the
    current page map are those that a walk from its topmost table finds. *)
From S2P Require Import Prelude Pmm Pages Pte.
Local Open Scope Z_scope.

(** [PML1_IDX] : boron/include/arch/amd64.h:110-110.
    The index of an address in the table of a level, with what [MiGetPTEPointer]
    has in its array [indices]. *)
Definition PML_IDX (pml : nat) (Address : Z) : Z := Z.land (Z.shiftr Address (12 + 9 * (Z.of_nat pml - 1))) 511.

(** [MI_RECURSIVE_PAGING_START] : boron/include/arch/amd64.h:30-30. *)
Definition MI_RECURSIVE_PAGING_START : Z := 322.

(** [MiGetTopOfPoolManagedArea] : boron/source/mm/amd64/pt.c:500-506. *)
Definition MiGetTopOfPoolManagedArea : Z := Z.lor (2 ^ 64 - 2 ^ 48) (Z.shiftl 321 39).

(** [MmGetPteBitsFromProtection] : boron/source/mm/amd64/pt.c:573-584. *)
Definition MmGetPteBitsFromProtection (Protection : Z) : Z :=
  or_if (on Protection 4) MM_PROT_EXEC (or_if (on Protection 2) MM_PROT_WRITE (or_if (on Protection 1) MM_PROT_READ 0)).

Definition empty_table : list Z := replicate (Z.to_nat PAGE_SIZE) 0.

Section pagemap.
Context {S : Type} `{PageFrames S}.

(** [MiGetPTEPointer] : boron/source/mm/amd64/pt.c:177-181.
    Reading and writing an entry of a table. *)
Definition ld_pte (p i : Z) (s : S) : outcome Z := b ← page p s; ld_word 8 b i.

(** [MiGetPTEPointer] : boron/source/mm/amd64/pt.c:211-211. *)
Definition st_pte (p i Pte : Z) (s : S) : outcome S :=
  b ← page p s; b ← st_word 8 b i Pte; Ok (pf_store p b s).

(** What [MiGetPTEPointer] remembers of a table that it made. *)
Record changed := mkChanged { PteModified : Z * Z; PteOriginal : Z; PfnAllocated : Z }.

(** [MiGetPTEPointer] : boron/source/mm/amd64/pt.c:194-199. *)
Fixpoint rollback (l : list changed) (s : S) : outcome S :=
  match l with
  | [] => Ok s
  | c :: l =>
      s ← st_pte (PteModified c).1 (PteModified c).2 (PteOriginal c) s;
      s ← pf_free (PfnAllocated c) s;
      rollback l s
  end.

(** [MiGetPTEPointer] : boron/source/mm/amd64/pt.c:183-212.
    The entry of a level above the last: it is there, or a table is made for
    it, or there is none ([None]). *)
Definition next_level (Allocate : bool) (Address p i Entry : Z) (allocated : list changed) (s : S)
  : outcome (option (Z * list changed) * S) :=
  if MmIsPresentPte Entry then Ok (Some (Entry, allocated), s)
  else if negb Allocate then Ok (None, s)
  else
    '(pfn, s) ← pf_alloc s;
    if pfn =? PFN_INVALID then s ← rollback allocated s; Ok (None, s)
    else
      _ ← page pfn s;
      let s := pf_store pfn empty_table s in
      let SupervisorBit := if MM_KERNEL_SPACE_BASE <=? Address then 0 else MM_PROT_USER in
      let Entry' := MmBuildPte pfn (Z.lor (Z.lor (Z.lor MM_PROT_READ MM_PROT_WRITE) MM_PROT_EXEC) SupervisorBit) in
      s ← st_pte p i Entry' s;
      Ok (Some (Entry', allocated ++ [mkChanged (p, i) Entry pfn]), s).

(** [MiGetPTEPointer] : boron/source/mm/amd64/pt.c:172-228.
    The loop from the level [pml] on, in the table [CurrentLevel]. *)
Fixpoint walk_tables (pml : nat) (Allocate : bool) (Address CurrentLevel : Z) (allocated : list changed) (s : S)
  : outcome (option (Z * Z) * S) :=
  match pml with
  | O => Ok (None, s)
  | Datatypes.S below =>
      let i := PML_IDX pml Address in
      Entry ← ld_pte CurrentLevel i s;
      match below with
      | O => Ok (Some (CurrentLevel, i), s)
      | _ =>
          '(r, s) ← next_level Allocate Address CurrentLevel i Entry allocated s;
          match r with
          | None => Ok (None, s)
          | Some (Entry, allocated) =>
              if MmIsUnsupportedHigherLevelPte Entry then Ok (None, s)
              else walk_tables below Allocate Address (MmGetPfnPte Entry) allocated s
          end
      end
  end.

(** [MiGetPTEPointer] : boron/source/mm/amd64/pt.c:148-229. *)
Definition MiGetPTEPointer (Mapping Address : Z) (AllocateMissingPMLs : bool) (s : S) : outcome (option (Z * Z) * S) :=
  walk_tables 4 AllocateMissingPMLs Address Mapping [] s.

(** [MmpMapSingleAnonPageAtPte] : boron/source/mm/amd64/pt.c:338-365.
    [MM_DBG_NO_DEMAND_PAGING] is off. *)
Definition MmpMapSingleAnonPageAtPte (Pte : option (Z * Z)) (Permissions : Z) (NonPaged : bool) (s : S) : outcome (bool * S) :=
  match Pte with
  | None => Ok (false, s)
  | Some (p, i) =>
      if NonPaged then
        '(pfn, s) ← pf_alloc s;
        if pfn =? PFN_INVALID then Ok (false, s)
        else s ← st_pte p i (MmBuildPte pfn (Z.lor MM_MISC_IS_FROM_PMM Permissions)) s; Ok (true, s)
      else s ← st_pte p i (MmBuildAbsentPte MM_PAGE_COMMITTED) s; Ok (true, s)
  end.

(** [MiMapAnonPage] : boron/source/mm/amd64/pt.c:385-391. *)
Definition MiMapAnonPage (Mapping Address Permissions : Z) (NonPaged : bool) (s : S) : outcome (bool * S) :=
  '(Pte, s) ← MiGetPTEPointer Mapping Address true s;
  MmpMapSingleAnonPageAtPte Pte Permissions NonPaged s.

(** [MiMapPhysicalPage] : boron/source/mm/amd64/pt.c:413-423. *)
Definition MiMapPhysicalPage (Mapping PhysicalPage Address Permissions : Z) (s : S) : outcome (bool * S) :=
  '(Pte, s) ← MiGetPTEPointer Mapping Address true s;
  match Pte with
  | None => Ok (false, s)
  | Some (p, i) => s ← st_pte p i (MmBuildPte (MmPhysPageToPFN PhysicalPage) Permissions) s; Ok (true, s)
  end.

(** [MiUnmapPages] : boron/source/mm/amd64/pt.c:442-456. *)
Fixpoint unset_present (n : nat) (Mapping Address : Z) (s : S) : outcome S :=
  match n with
  | O => Ok s
  | Datatypes.S n =>
      '(pPTE, s) ← MiGetPTEPointer Mapping Address false s;
      s ← match pPTE with
          | None => Ok s
          | Some (p, i) =>
              Pte ← ld_pte p i s;
              st_pte p i (if MmIsPresentPte Pte then MmBuildWasPresentPte Pte else MmBuildZeroPte) s
          end;
      unset_present n Mapping (u64 (Address + PAGE_SIZE)) s
  end.

(** [MiUnmapPages] : boron/source/mm/amd64/pt.c:463-476. *)
Fixpoint free_mapped (n : nat) (Mapping Address : Z) (s : S) : outcome S :=
  match n with
  | O => Ok s
  | Datatypes.S n =>
      '(pPTE, s) ← MiGetPTEPointer Mapping Address false s;
      s ← match pPTE with
          | None => Ok s
          | Some (p, i) =>
              Pte ← ld_pte p i s;
              if MmIsFromPmmPte Pte then
                s ← pf_free (MmGetPfnPte Pte) s;
                st_pte p i MmBuildZeroPte s
              else Ok s
          end;
      free_mapped n Mapping (u64 (Address + PAGE_SIZE)) s
  end.

(** [MiUnmapPages] : boron/source/mm/amd64/pt.c:437-485.
    The fourth step is behind a [return]. *)
Definition MiUnmapPages (Mapping Address LengthPages : Z) (s : S) : outcome S :=
  s ← unset_present (Z.to_nat LengthPages) Mapping Address s;
  free_mapped (Z.to_nat LengthPages) Mapping Address s.

(** [MiMapAnonPages] : boron/source/mm/amd64/pt.c:544-562.
    The loop: [n] pages are left; the result is [None] when all is done, or
    the address and the number of pages to roll back with. *)
Fixpoint map_anon (n : nat) (Mapping Address Permissions : Z) (NonPaged : bool) (PtePtr : option (Z * Z)) (CurrentPml1 DonePages : Z) (s : S)
  : outcome (option (Z * Z) * S) :=
  match n with
  | O => Ok (None, s)
  | Datatypes.S n =>
      '(ok, s) ← MmpMapSingleAnonPageAtPte PtePtr Permissions NonPaged s;
      if negb (ok : bool) then Ok (Some (Address, DonePages), s)
      else
        let Address := u64 (Address + PAGE_SIZE) in
        let CurrentPml1 := CurrentPml1 + 1 in
        '(PtePtr, s) ←
          (if CurrentPml1 mod 512 =? 0 then MiGetPTEPointer Mapping Address true s
           else Ok ((λ '(p, i), (p, i + 1)) <$> PtePtr, s));
        map_anon n Mapping Address Permissions NonPaged PtePtr CurrentPml1 (DonePages + 1) s
  end.

(** [MiMapAnonPages] : boron/source/mm/amd64/pt.c:534-571. *)
Definition MiMapAnonPages (Mapping Address SizePages Permissions : Z) (NonPaged : bool) (s : S) : outcome (bool * S) :=
  '(PtePtr, s) ← MiGetPTEPointer Mapping Address true s;
  '(r, s) ← map_anon (Z.to_nat SizePages) Mapping Address Permissions NonPaged PtePtr (PML_IDX 1 Address) 0 s;
  match r with
  | None => Ok (true, s)
  | Some (Address, DonePages) => s ← MiUnmapPages Mapping Address DonePages s; Ok (false, s)
  end.

(** ** Looking at entries through the recursive mapping *)

(** [MmCheckPteLocation] : boron/source/mm/amd64/pt.c:45-60.
    The entries of the upper levels, down to the one for the last table. *)
Fixpoint check_levels (pml : nat) (Address CurrentLevel : Z) (s : S) : outcome (option Z) :=
  match pml with
  | O => Ok None
  | 1%nat => Ok (Some CurrentLevel)
  | Datatypes.S below =>
      Pte ← ld_pte CurrentLevel (PML_IDX pml Address) s;
      if MmIsPresentPte Pte then check_levels below Address (MmGetPfnPte Pte) s else Ok None
  end.

(** [MmCheckPteLocation] : boron/source/mm/amd64/pt.c:41-72. *)
Definition MmCheckPteLocation (Mapping Address : Z) (GenerateMissingLevels : bool) (s : S) : outcome (bool * S) :=
  _ ← check (negb (PML_IDX 4 Address =? MI_RECURSIVE_PAGING_START));
  r ← check_levels 4 Address Mapping s;
  match r with
  | Some _ => Ok (true, s)
  | None =>
      if GenerateMissingLevels then
        '(Pte, s) ← MiGetPTEPointer Mapping Address GenerateMissingLevels s; Ok (bool_decide (Pte ≠ None), s)
      else Ok (false, s)
  end.

(** [MmGetPteLocation] : boron/source/mm/amd64/pt.c:26-39.
    Without a table there the access faults. *)
Definition MmGetPteLocation (Mapping Address : Z) (s : S) : outcome (Z * Z) :=
  r ← check_levels 4 Address Mapping s; p ← deref r; Ok (p, PML_IDX 1 Address).

(** [MmGetPteLocationCheck] : boron/source/mm/amd64/pt.c:74-80. *)
Definition MmGetPteLocationCheck (Mapping Address : Z) (GenerateMissingLevels : bool) (s : S) : outcome (option (Z * Z) * S) :=
  '(ok, s) ← MmCheckPteLocation Mapping Address GenerateMissingLevels s;
  if (ok : bool) then l ← MmGetPteLocation Mapping Address s; Ok (Some l, s) else Ok (None, s).

(** ** Freeing tables *)

(** [MmpIsPteListCompletelyEmpty] : boron/source/mm/amd64/ptfree.c:40-55.
    The entries from [i] on, [n] of them. *)
Fixpoint MmpIsPteListCompletelyEmpty (n : nat) (p i : Z) (s : S) : outcome bool :=
  match n with
  | O => Ok true
  | Datatypes.S n =>
      Pte ← ld_pte p i s;
      if negb (MmIsEqualPte Pte MmBuildZeroPte) then Ok false else MmpIsPteListCompletelyEmpty n p (i + 1) s
  end.

(** [MmpFreeUnusedMappingLevelsInCurrentMapPML] : boron/source/mm/amd64/ptfree.c:112-129.
    The last level: may its table be freed? *)
Fixpoint unused_entries (n : nat) (p i : Z) (s : S) : outcome bool :=
  match n with
  | O => Ok true
  | Datatypes.S n =>
      Pte ← ld_pte p i s;
      if MmIsEqualPte Pte MmBuildZeroPte then
        if MmIsDecommittedPte Pte then unused_entries n p (i + 1) s else Ok false
      else unused_entries n p (i + 1) s
  end.

(** [MmpFreeUnusedMappingLevelsInCurrentMapPML] : boron/source/mm/amd64/ptfree.c:131-159.
    The loop over the entries of a level above the last; [sub] is the routine
    for the level below. *)
Fixpoint free_unused (sub : Z → S → outcome (bool * S)) (n : nat) (p i : Z) (FreeParent : bool) (s : S) : outcome (bool * S) :=
  match n with
  | O => Ok (FreeParent, s)
  | Datatypes.S n =>
      Pte ← ld_pte p i s;
      if negb (MmIsPresentPte Pte) then free_unused sub n p (i + 1) FreeParent s
      else
        let SubPte := MmGetPfnPte Pte in
        empty ← MmpIsPteListCompletelyEmpty 512 SubPte 0 s;
        if (empty : bool) then
          s ← pf_free (MmGetPfnPte Pte) s;
          s ← st_pte p i MmBuildZeroPte s;
          free_unused sub n p (i + 1) FreeParent s
        else
          '(freed, s) ← sub SubPte s;
          if negb (freed : bool) then free_unused sub n p (i + 1) false s
          else
            Pte ← ld_pte p i s;
            s ← pf_free (MmGetPfnPte Pte) s;
            s ← st_pte p i MmBuildZeroPte s;
            free_unused sub n p (i + 1) FreeParent s
  end.

(** [MmpFreeUnusedMappingLevelsInCurrentMapPML] : boron/source/mm/amd64/ptfree.c:108-160. *)
Fixpoint MmpFreeUnusedMappingLevelsInCurrentMapPML (MapLevel : nat) (p : Z) (s : S) : outcome (bool * S) :=
  match MapLevel with
  | O | 1%nat => r ← unused_entries 512 p 0 s; Ok (r, s)
  | Datatypes.S MapLevel => free_unused (MmpFreeUnusedMappingLevelsInCurrentMapPML MapLevel) 512 p 0 true s
  end.

(** [MiFreeUnusedMappingLevelsInCurrentMap] : boron/source/mm/amd64/ptfree.c:80-105.
    [n] entries of the topmost table, from [i] on. *)
Fixpoint free_topmost (n : nat) (Mapping i : Z) (ShouldUnmapPML4 : bool) (s : S) : outcome S :=
  match n with
  | O => Ok s
  | Datatypes.S n =>
      Pte ← ld_pte Mapping i s;
      s ← (if negb (MmIsPresentPte Pte) then Ok s
           else
             let SubPte := MmGetPfnPte Pte in
             empty ← MmpIsPteListCompletelyEmpty 512 SubPte 0 s;
             if (empty : bool) && ShouldUnmapPML4 then
               s ← pf_free (MmGetPfnPte Pte) s; st_pte Mapping i MmBuildZeroPte s
             else
               '(freed, s) ← MmpFreeUnusedMappingLevelsInCurrentMapPML 3 SubPte s;
               if negb (freed : bool) then Ok s
               else if ShouldUnmapPML4 then
                 Pte ← ld_pte Mapping i s;
                 s ← pf_free (MmGetPfnPte Pte) s; st_pte Mapping i MmBuildZeroPte s
               else Ok s);
      free_topmost n Mapping (i + 1) ShouldUnmapPML4 s
  end.

(** [MiFreeUnusedMappingLevelsInCurrentMap] : boron/source/mm/amd64/ptfree.c:63-106. *)
Definition MiFreeUnusedMappingLevelsInCurrentMap (Mapping StartVa SizePages : Z) (s : S) : outcome S :=
  let i := PML_IDX 4 StartVa in
  free_topmost (Z.to_nat ((SizePages + 512 ^ 3 - 1) / 512 ^ 3)) Mapping i (negb (256 <=? i)) s.

(** ** Page maps *)

(** [MiCreatePageMapping] : boron/source/mm/amd64/pt.c:99-110.
    [f] gives the entries from [i] on, [n] of them. *)
Fixpoint fill_entries (f : Z → S → outcome Z) (n : nat) (p i : Z) (s : S) : outcome S :=
  match n with
  | O => Ok s
  | Datatypes.S n => Pte ← f i s; s ← st_pte p i Pte s; fill_entries f n p (i + 1) s
  end.

(** [MiCreatePageMapping] : boron/source/mm/amd64/pt.c:83-119.
    The frame of the topmost table, or 0; the lock of the kernel space is held
    while the kernel's entries are copied. *)
Definition MiCreatePageMapping (OldPageMapping : Z) (s : S) : outcome (Z * S) :=
  '(NewPageMappingPFN, s) ← pf_alloc s;
  if NewPageMappingPFN =? PFN_INVALID then Ok (0, s)
  else
    s ← fill_entries (λ _ _, Ok MmBuildZeroPte) 256 NewPageMappingPFN 0 s;
    s ← fill_entries (λ i s, ld_pte OldPageMapping i s) 256 NewPageMappingPFN 256 s;
    s ← st_pte NewPageMappingPFN MI_RECURSIVE_PAGING_START (MmBuildPte NewPageMappingPFN (Z.lor MM_PROT_READ MM_PROT_WRITE)) s;
    Ok (NewPageMappingPFN, s).

(** [MiFreePageMapping] : boron/source/mm/amd64/pt.c:122-125. *)
Definition MiFreePageMapping (PageMap : Z) (s : S) : outcome S := pf_free PageMap s.

(** ** The tree of tables *)

Context `{!PageFrameLaws S}.

Definition digit (i : Z) : Prop := 0 ≤ i < 512.

Definition word_at (s : S) (p i : Z) : Z := match pf_mem s !! p with Some b => word 8 b i | None => 0 end.

(** The table that an entry leads to. *)
Definition leads_to (e : Z) : option Z :=
  if MmIsPresentPte e && negb (MmIsUnsupportedHigherLevelPte e) then Some (MmGetPfnPte e) else None.

(** The table at the end of a path of indices. *)
Fixpoint node (s : S) (p : Z) (path : list Z) : option Z :=
  match path with
  | [] => Some p
  | i :: path => match leads_to (word_at s p i) with Some q => node s q path | None => None end
  end.

(** The paths to tables, but for those through the recursive entry. *)
Definition in_tree (path : list Z) : Prop :=
  (length path ≤ 3)%nat ∧ Forall digit path ∧ head path ≠ Some MI_RECURSIVE_PAGING_START.

(** No entry above the last level is a large page. *)
Definition no_large (s : S) (root : Z) : Prop := ∀ path i p, in_tree (path ++ [i]) → node s root path = Some p →
  MmIsUnsupportedHigherLevelPte (word_at s p i) = false.

Definition good_page (s : S) (p : Z) : Prop :=
  pf_refs s p = Some 1 ∧ ∃ b, pf_mem s !! p = Some b ∧ length b = Z.to_nat PAGE_SIZE ∧ Forall byte b.

(** The memory ends below 4 GiB. *)
Definition low (s : S) : Prop := ∀ n, is_Some (pf_mem s !! n) → n < 2 ^ 20.

(** A page map owns its tables, and none of them is at two places. *)
Record pm_ok (s : S) (root : Z) : Prop := {
  po_frames : pf_ok s;
  po_low : low s;
  po_pages path p : in_tree path → node s root path = Some p → good_page s p;
  po_once path path' p : in_tree path → in_tree path' → node s root path = Some p → node s root path' = Some p → path = path';
}.

(** A page that is no table of the page map, and one in use. *)
Definition off_tree (s : S) (root m : Z) : Prop := ∀ path, in_tree path → node s root path ≠ Some m.

Definition foreign (s : S) (root m : Z) : Prop := is_Some (pf_refs s m) ∧ off_tree s root m.

Lemma pm_node_snoc s p path i : node s p (path ++ [i]) =
  match node s p path with Some q => leads_to (word_at s q i) | None => None end.
Proof.
  revert p. induction path as [|j path IH]; intros p; cbn; [by destruct (leads_to _)|].
  destruct (leads_to (word_at s p j)); [apply IH|done].
Qed.

Lemma pm_in_tree_prefix a b : in_tree (a ++ b) → in_tree a.
Proof.
  intros (Hl & Hf & Hh). rewrite length_app in Hl. apply Forall_app in Hf as [? _]. split_and!; [lia|done|]. by destruct a.
Qed.

Lemma pm_in_tree_last path i : in_tree (path ++ [i]) → digit i ∧ (length path < 3)%nat.
Proof. intros (Hl & [_ Hf]%Forall_app & _). rewrite length_app in Hl. cbn in Hl. split; [by apply Forall_inv in Hf|lia]. Qed.

Lemma pm_in_page_digit b i : length b = Z.to_nat PAGE_SIZE → digit i → in_page 8 b i = true.
Proof.
  intros Hb [Hi Hl]. unfold in_page. rewrite Hb. change (Z.to_nat PAGE_SIZE) with (Z.to_nat 4096).
  apply andb_true_iff. split; [by apply Z.leb_le|apply Nat.leb_le; lia].
Qed.

Lemma length_empty : length empty_table = Z.to_nat PAGE_SIZE.
Proof. apply length_replicate. Qed.

Lemma little_zeros n : little (replicate n 0) = 0.
Proof. induction n as [|n IH]; [done|]. cbn. by rewrite IH. Qed.

Lemma word_empty i : word 8 empty_table i = 0.
Proof. unfold word, empty_table. by rewrite drop_replicate, take_replicate, little_zeros. Qed.

Lemma to_little_bytes w v : Forall byte (to_little w v).
Proof. revert v. induction w as [|w IH]; intros v; cbn; constructor; [apply Z.mod_pos_bound; lia|apply IH]. Qed.

Lemma bytes_set_word w b i v : Forall byte b → Forall byte (set_word w b i v).
Proof.
  intros Hb. apply Forall_lookup. intros k x Hx. unfold set_word in Hx. apply list_lookup_inserts_Some in Hx as [(_ & Hx)|(_ & _ & Hx)].
  - exact (Forall_lookup_1 _ _ _ _ Hb Hx).
  - exact (Forall_lookup_1 _ _ _ _ (to_little_bytes w v) Hx).
Qed.

(** The pages of the tables with other words, and the same words. *)
Lemma pm_node_same s s' root path :
  (∀ a i c p, path = a ++ i :: c → node s root a = Some p → word_at s' p i = word_at s p i) →
  node s' root path = node s root path.
Proof.
  induction path as [|i path IH] using rev_ind; intros Hw; [done|]. rewrite !pm_node_snoc, IH.
  - destruct (node s root path) as [p|] eqn:Hp; [|done]. by rewrite (Hw path i [] p).
  - intros a j c p E. apply (Hw a j (c ++ [i])). by rewrite E, <-app_assoc.
Qed.

Lemma same_view s s' root : pm_ok s root → pf_ok s' → low s' →
  (∀ path p, in_tree path → node s root path = Some p → good_page s' p ∧ ∀ i, digit i → word_at s' p i = word_at s p i) →
  pm_ok s' root ∧ ∀ path, in_tree path → node s' root path = node s root path.
Proof.
  intros Hok Hpf Hlow Hw.
  assert (∀ path, in_tree path → node s' root path = node s root path) as Hn.
  { intros path Ht. apply pm_node_same. intros a i c p E Hp.
    assert (in_tree (a ++ [i])) as Hta by (rewrite E in Ht; rewrite cons_middle, app_assoc in Ht; by eapply pm_in_tree_prefix).
    apply (Hw a p); [by eapply pm_in_tree_prefix|done|by destruct (pm_in_tree_last _ _ Hta)]. }
  split; [|done]. split; [done|done| |].
  - intros path p Ht. rewrite Hn by done. intros Hp. by apply (Hw path).
  - intros path path' p Ht Ht'. rewrite !Hn by done. by apply (po_once s root Hok).
Qed.

(** An entry of a table that is written, where it makes no table appear or go. *)
Lemma pm_write_ok s root path p i v b : pm_ok s root → in_tree path → length path = 3%nat → node s root path = Some p → digit i →
  0 ≤ v < 2 ^ 64 → pf_mem s !! p = Some b →
  let s' := pf_store p (set_word 8 b i v) s in
  pm_ok s' root ∧ (∀ path', in_tree path' → node s' root path' = node s root path') ∧
  (∀ q j, (q, j) ≠ (p, i) → 0 ≤ j → word_at s' q j = word_at s q j) ∧ word_at s' p i = v ∧
  (∀ m, pf_refs s' m = pf_refs s m) ∧ (∀ m, m ≠ p → pf_mem s' !! m = pf_mem s !! m).
Proof.
  intros Hok Ht Hl3 Hp Hi Hv Hb s'. destruct (po_pages s root Hok path p Ht Hp) as [Hr (b0 & Hb0 & Hlen & Hbytes)].
  assert (b0 = b) as -> by congruence.
  assert (∀ m, pf_mem s' !! m = if decide (m = p) then Some (set_word 8 b i v) else pf_mem s !! m) as Hmem.
  { intros m. unfold s'. rewrite pf_store_mem. case_decide; [subst; by rewrite lookup_insert_eq|by rewrite lookup_insert_ne]. }
  assert (∀ m, pf_refs s' m = pf_refs s m) as Hrefs by (intros m; apply pf_store_refs).
  assert (∀ q j, (q, j) ≠ (p, i) → 0 ≤ j → word_at s' q j = word_at s q j) as Hw.
  { intros q j Hq Hj. unfold word_at. rewrite Hmem. case_decide as E; [subst q|done]. rewrite Hb.
    apply word_set_other; [apply Hi|done|congruence]. }
  assert (∀ path', in_tree path' → node s' root path' = node s root path') as Hn.
  { intros path' Ht'. apply pm_node_same. intros a j c q E Hq.
    assert (in_tree (a ++ [j])) as Hta by (rewrite E in Ht'; rewrite cons_middle, app_assoc in Ht'; by eapply pm_in_tree_prefix).
    pose proof (pm_in_tree_last _ _ Hta) as [Hj Hla]. apply pm_in_tree_prefix in Hta.
    apply Hw; [|apply Hj]. intros [= -> ->]. pose proof (po_once s root Hok a path p Hta Ht Hq Hp) as ->. lia. }
  split; [|split_and!; [done|done| |done|]].
  - split.
    + unfold s'. by eapply pf_store_spec; [apply (po_frames s root Hok)|].
    + intros n. rewrite Hmem. case_decide as E; [subst n; intros _; apply (po_low s root Hok); by eexists|apply (po_low s root Hok)].
    + intros path' q Ht'. rewrite Hn by done. intros Hq. destruct (po_pages s root Hok path' q Ht' Hq) as [Hg (b' & Hb' & Hl' & Hby)].
      split; [by rewrite Hrefs|]. rewrite Hmem. case_decide; [|by exists b']. eexists. split; [done|].
      rewrite length_set_word. split; [done|]. by apply bytes_set_word.
    + intros path1 path2 q H1 H2. rewrite !Hn by done. by apply (po_once s root Hok).
  - unfold word_at. rewrite Hmem, decide_True by done. apply word_set_same; [by apply pm_in_page_digit|exact Hv].
  - intros m Hm. by rewrite Hmem, decide_False.
Qed.

Lemma leads_to_zero : leads_to 0 = None.
Proof. done. Qed.

Lemma leads_to_build q b : 0 ≤ q < 2 ^ 20 → leads_to (MmBuildPte q b) = Some q.
Proof.
  intros Hq. unfold leads_to. destruct (build_pte_at q b) as (B0 & _ & _ & _ & _ & _ & B7 & _).
  assert (MmIsPresentPte (MmBuildPte q b) = true) as -> by (pte_bit; exact B0).
  assert (MmIsUnsupportedHigherLevelPte (MmBuildPte q b) = false) as -> by (pte_bit; by rewrite B7, andb_false_r).
  cbn. rewrite MmGetPfnPte_build by lia. by rewrite Z.mod_small.
Qed.

Lemma ld_pte_spec s p i b : pf_mem s !! p = Some b → length b = Z.to_nat PAGE_SIZE → digit i → ld_pte p i s = Ok (word_at s p i).
Proof.
  intros Hb Hl Hi. unfold ld_pte, page, word_at, ld_word. rewrite Hb. cbn. by rewrite pm_in_page_digit.
Qed.

Lemma st_pte_spec s p i v b : pf_mem s !! p = Some b → length b = Z.to_nat PAGE_SIZE → digit i →
  st_pte p i v s = Ok (pf_store p (set_word 8 b i v) s).
Proof. intros Hb Hl Hi. unfold st_pte, page, st_word. rewrite Hb. cbn. by rewrite pm_in_page_digit. Qed.

Lemma good_ld s p i : good_page s p → digit i → ld_pte p i s = Ok (word_at s p i).
Proof. intros [_ (b & Hb & Hl & _)] Hi. by eapply ld_pte_spec. Qed.

Lemma word_at_range s p i : good_page s p → digit i → 0 ≤ word_at s p i < 2 ^ 64.
Proof.
  intros [_ (b & Hb & Hl & Hby)] Hi. unfold word_at. rewrite Hb. pose proof (pm_in_page_digit b i Hl Hi) as Hin.
  unfold in_page in Hin. apply andb_true_iff in Hin as [_ Hin%Nat.leb_le]. unfold word.
  pose proof (little_bound (take 8 (drop (Z.to_nat i * 8) b))) as Hb'. rewrite length_take, length_drop, Nat.min_l in Hb' by lia.
  apply Hb'. by apply Forall_take, Forall_drop.
Qed.

(** One more table, [q], at the path [pre ++ [i]]. *)
Lemma pm_link_ok s root pre i q s1 e p b : pm_ok s root → in_tree (pre ++ [i]) → node s root pre = Some p →
  leads_to (word_at s p i) = None → pf_ok s1 → low s1 → pf_refs s q = None → pf_refs s1 q = Some 1 → is_Some (pf_mem s1 !! q) →
  (∀ m, m ≠ q → pf_refs s1 m = pf_refs s m ∧ pf_mem s1 !! m = pf_mem s !! m) →
  leads_to e = Some q → 0 ≤ e < 2 ^ 64 → pf_mem s !! p = Some b →
  let s' := pf_store p (set_word 8 b i e) (pf_store q empty_table s1) in
  pm_ok s' root ∧
  (∀ path, in_tree path → node s' root path = if decide (path = pre ++ [i]) then Some q else node s root path) ∧
  (∀ m, pf_refs s' m = pf_refs s1 m) ∧
  (∀ m, pf_mem s' !! m = if decide (m = p) then Some (set_word 8 b i e) else if decide (m = q) then Some empty_table else pf_mem s !! m).
Proof.
  intros Hok Ht Hp Hno Hpf Hlow Hfresh Hr Hq Hoth He Her Hb s'.
  destruct (pm_in_tree_last _ _ Ht) as [Hi Hl]. pose proof (pm_in_tree_prefix _ _ Ht) as Hpre.
  destruct (po_pages s root Hok pre p Hpre Hp) as [Hg (b0 & Hb0 & Hlen & Hbytes)]. assert (b0 = b) as -> by congruence.
  assert (∀ path r, in_tree path → node s root path = Some r → r ≠ q) as Hne.
  { intros path r Ht' Hr' ->. destruct (po_pages s root Hok path q Ht' Hr') as [Hg' _]. congruence. }
  assert (p ≠ q) as Hpq by (by eapply Hne).
  assert (∀ m, pf_mem s' !! m = if decide (m = p) then Some (set_word 8 b i e) else if decide (m = q) then Some empty_table else pf_mem s !! m) as Hmem.
  { intros m. unfold s'. rewrite !pf_store_mem. case_decide as E1; [subst; by rewrite lookup_insert_eq|]. rewrite lookup_insert_ne by done.
    case_decide as E2; [subst; by rewrite lookup_insert_eq|]. rewrite lookup_insert_ne by done. by apply Hoth. }
  assert (∀ m, pf_refs s' m = pf_refs s1 m) as Hrefs by (intros m; unfold s'; by rewrite !pf_store_refs).
  assert (word_at s' p i = e) as Hwp.
  { unfold word_at. rewrite Hmem, decide_True by done. apply word_set_same; [by apply pm_in_page_digit|exact Her]. }
  assert (∀ j, word_at s' q j = 0) as Hwq.
  { intros j. unfold word_at. rewrite Hmem, decide_False, decide_True by done. apply word_empty. }
  assert (∀ r j, r ≠ q → digit j → (r, j) ≠ (p, i) → word_at s' r j = word_at s r j) as Hwo.
  { intros r j Hrq Hj Hrj. unfold word_at. rewrite Hmem. case_decide as E1; [subst r; rewrite Hb|by rewrite decide_False].
    apply word_set_other; [apply Hi|apply Hj|congruence]. }
  assert (∀ path, in_tree path → node s' root path = if decide (path = pre ++ [i]) then Some q else node s root path) as Hnode.
  { intros path. induction path as [|j path IH] using rev_ind; intros Htp.
    { case_decide as E; [by destruct pre|done]. }
    destruct (pm_in_tree_last _ _ Htp) as [Hj Hlj]. rewrite !pm_node_snoc, IH by (by eapply pm_in_tree_prefix).
    destruct (decide (path = pre ++ [i])) as [->|E].
    - rewrite Hwq, leads_to_zero, (pm_node_snoc s root pre i), Hp, Hno. rewrite decide_False; [done|].
      intros E. apply (f_equal length) in E. rewrite !length_app in E. cbn in E. lia.
    - destruct (node s root path) as [r|] eqn:Hr'.
      + destruct (decide ((r, j) = (p, i))) as [[= -> ->]|Erj].
        * pose proof (po_once s root Hok path pre p ltac:(by eapply pm_in_tree_prefix) Hpre Hr' Hp) as ->. by rewrite Hwp, decide_True.
        * rewrite Hwo; [|by eapply Hne; [by eapply pm_in_tree_prefix|]|done|done]. rewrite decide_False; [done|].
          intros [-> [= ->]]%app_inj_tail. rewrite Hp in Hr'. injection Hr' as ->. done.
      + rewrite decide_False; [done|]. intros [-> _]%app_inj_tail. congruence. }
  split; [|done]. split.
  - unfold s'. eapply pf_store_spec; [|rewrite pf_store_refs, (proj1 (Hoth p Hpq)); exact Hg]. by eapply pf_store_spec.
  - intros n. rewrite Hmem. case_decide as E1; [intros _; rewrite E1; apply (po_low s root Hok); by eexists|].
    case_decide as E2; [intros _; rewrite E2; by apply Hlow|]. apply (po_low s root Hok).
  - intros path r Htp. rewrite Hnode by done. case_decide as E.
    + intros [= <-]. split; [by rewrite Hrefs|]. exists empty_table. rewrite Hmem, decide_False, decide_True by done.
      split; [done|]. split; [apply length_empty|]. apply Forall_replicate. unfold byte. lia.
    + intros Hr'. pose proof (Hne path r Htp Hr') as Hrq. destruct (po_pages s root Hok path r Htp Hr') as [Hg' (b' & Hb' & Hl' & Hby')].
      split; [rewrite Hrefs; by rewrite (proj1 (Hoth r Hrq))|]. rewrite Hmem. case_decide as E1.
      * exists (set_word 8 b i e). split; [done|]. rewrite length_set_word. split; [done|]. by apply bytes_set_word.
      * rewrite decide_False by done. by exists b'.
  - intros path1 path2 r H1 H2. rewrite !Hnode by done. case_decide as E1; case_decide as E2.
    + congruence.
    + intros [= <-] Hq'. by destruct (Hne path2 q H2 Hq').
    + intros Hq' [= <-]. by destruct (Hne path1 q H1 Hq').
    + by apply (po_once s root Hok).
Qed.

(** Tables that were made one below the other, from an entry of [p] on. *)
Fixpoint chained (p : Z) (l : list changed) : Prop :=
  match l with
  | [] => True
  | c :: l => (PteModified c).1 = p ∧ digit (PteModified c).2 ∧ chained (PfnAllocated c) l
  end.

Definition pfns (l : list changed) : list Z := PfnAllocated <$> l.

Lemma rollback_spec l : ∀ s p b, chained p l → pf_ok s → (∀ v, pf_ok (pf_store p v s)) → p ∉ pfns l → NoDup (pfns l) →
  (∀ q, q ∈ pfns l → pf_refs s q = Some 1 ∧ ∃ b, pf_mem s !! q = Some b ∧ length b = Z.to_nat PAGE_SIZE) →
  pf_mem s !! p = Some b → length b = Z.to_nat PAGE_SIZE →
  ∃ s', rollback l s = Ok s' ∧ pf_ok s' ∧ (∀ m, m ∉ pfns l → pf_refs s' m = pf_refs s m) ∧
    (∀ m, m ≠ p → m ∉ pfns l → pf_mem s' !! m = pf_mem s !! m) ∧ (∀ m, is_Some (pf_mem s' !! m) → is_Some (pf_mem s !! m)) ∧
    (∀ q, q ∈ pfns l → pf_refs s' q = None) ∧
    match l with [] => s' = s | c :: _ => pf_mem s' !! p = Some (set_word 8 b (PteModified c).2 (PteOriginal c)) end.
Proof.
  induction l as [|[[p0 i] orig q] l IH]; intros s p b Hch Hpf Hst Hp Hnd Hq Hb Hlen; [exists s; split_and!; try done; by intros q ?%not_elem_of_nil|].
  destruct Hch as (E & Hi & Hch). cbn in E. subst p0. cbn [rollback PteModified PteOriginal PfnAllocated fst snd] in *.
  rewrite (st_pte_spec s p i orig b) by done. cbn [mbind outcome_bind].
  cbn [pfns fmap list_fmap PfnAllocated] in *. fold (pfns l) in *. apply not_elem_of_cons in Hp as [Hpq Hp]. apply NoDup_cons in Hnd as [Hql Hnd].
  destruct (Hq q) as (Hqr & bq & Hbq & Hlq); [by left|].
  set (s1 := pf_store p (set_word 8 b i orig) s).
  assert (pf_refs s1 q = Some 1) as Hqr1 by (unfold s1; by rewrite pf_store_refs).
  destruct (pf_free_spec s1 q 1 (Hst _) Hqr1) as (s2 & Hs2 & Hpf2 & Hm2 & Hr2 & Ho2). rewrite Hs2. cbn [mbind outcome_bind].
  assert (∀ m, pf_mem s2 !! m = if decide (m = p) then Some (set_word 8 b i orig) else pf_mem s !! m) as Hmem2.
  { intros m. rewrite Hm2. unfold s1. rewrite pf_store_mem. case_decide; [subst; by rewrite lookup_insert_eq|by rewrite lookup_insert_ne]. }
  destruct (IH s2 q bq) as (s' & -> & Hpf' & Hr' & Hm' & Hd' & Hn' & Hh'); [done|done| |done|done| | |done|].
  - intros v. by apply pf_store_freed with s1; [apply Hst|..].
  - intros r Hr. assert (r ≠ q) by congruence. assert (r ≠ p) by congruence. destruct (Hq r) as (Hrr & br & Hbr & Hlr); [by right|].
    rewrite Ho2, Hmem2, decide_False by done. unfold s1. rewrite pf_store_refs. split; [done|by exists br].
  - by rewrite Hmem2, decide_False by done.
  - exists s'. split; [done|]. split; [done|]. split_and!.
    + intros m Hm. apply not_elem_of_cons in Hm as [Hmq Hm]. rewrite Hr', Ho2 by done. unfold s1. apply pf_store_refs.
    + intros m Hmp Hm. apply not_elem_of_cons in Hm as [Hmq Hm]. by rewrite Hm', Hmem2, decide_False by done.
    + intros m Hm. apply Hd' in Hm. rewrite Hmem2 in Hm. case_decide; [subst; by eexists|done].
    + intros r [->|Hr]%elem_of_cons; [by rewrite Hr', Hr2|by apply Hn'].
    + rewrite Hm', Hmem2, decide_True by done. done.
Qed.

(** [s] is [s0] with the tables of [l] made below one entry. *)
Record grown (s0 : S) (root : Z) (l : list changed) (s : S) : Prop := {
  gr_ok : pm_ok s root;
  gr_node path p : in_tree path → node s0 root path = Some p → node s root path = Some p;
  gr_new path p : in_tree path → node s0 root path = None → node s root path = Some p →
    p ∈ pfns l ∧ (length path = 3%nat → ∀ i, word_at s p i = 0);
  gr_nodup : NoDup (pfns l);
  gr_fresh q : q ∈ pfns l → pf_refs s0 q = None ∧ pf_refs s q = Some 1;
  gr_page q : q ∈ pfns l → ∃ b, pf_mem s !! q = Some b ∧ length b = Z.to_nat PAGE_SIZE;
  gr_refs m : m ∉ pfns l → pf_refs s m = pf_refs s0 m;
  gr_mem m : m ∉ pfns l → match l with [] => True | c :: _ => m ≠ (PteModified c).1 end → pf_mem s !! m = pf_mem s0 !! m;
  gr_dom m : is_Some (pf_mem s !! m) → is_Some (pf_mem s0 !! m);
  gr_head : match l with
    | [] => s = s0
    | c :: _ => ∃ pre b v, in_tree (pre ++ [(PteModified c).2]) ∧ node s0 root pre = Some (PteModified c).1 ∧
        pf_mem s0 !! (PteModified c).1 = Some b ∧ pf_mem s !! (PteModified c).1 = Some (set_word 8 b (PteModified c).2 v) ∧
        PteOriginal c = word_at s0 (PteModified c).1 (PteModified c).2 ∧ chained (PteModified c).1 l
    end;
  gr_large : no_large s0 root → no_large s root;
  gr_made q : q ∈ pfns l → ∃ path, in_tree path ∧ node s root path = Some q ∧ node s0 root path = None;
}.

Lemma grown_refl s root : pm_ok s root → grown s root [] s.
Proof. intros Hok. split; try done. - intros path p _ -> [=]. - constructor. - by intros q ?%not_elem_of_nil. - by intros q ?%not_elem_of_nil. - by intros q ?%not_elem_of_nil. Qed.

(** What finding or making the entry of an address leaves of a page map: every
    table that was there, with its entries; new tables are empty. *)
Record kept (s0 : S) (root : Z) (s : S) : Prop := {
  kp_ok : pm_ok s root;
  kp_node path p : in_tree path → node s0 root path = Some p → node s root path = Some p;
  kp_word path p i : in_tree path → length path = 3%nat → node s0 root path = Some p → digit i → word_at s p i = word_at s0 p i;
  kp_new path p i : in_tree path → length path = 3%nat → node s0 root path = None → node s root path = Some p → word_at s p i = 0;
  kp_refs m r : pf_refs s0 m = Some r → pf_refs s m = Some r;
  kp_mem m : foreign s0 root m → foreign s root m ∧ pf_mem s !! m = pf_mem s0 !! m;
  kp_large : no_large s0 root → no_large s root;
  kp_made m : pf_refs s m = pf_refs s0 m ∨
    pf_refs s0 m = None ∧ pf_refs s m = Some 1 ∧ ∃ path, in_tree path ∧ node s root path = Some m ∧ node s0 root path = None;
}.

Lemma kept_refl s root : pm_ok s root → kept s root s.
Proof. intros Hok. split; try done; [intros path p i _ _ -> [=]|intros m; by left]. Qed.

(** Everything is as before: the tables with all their entries, the references
    to every frame, and what is in the pages in use that are no tables. *)
Record restored (s0 : S) (root : Z) (s : S) : Prop := {
  rs_ok : pm_ok s root;
  rs_node path : in_tree path → node s root path = node s0 root path;
  rs_word path p i : in_tree path → node s0 root path = Some p → digit i → word_at s p i = word_at s0 p i;
  rs_refs m : pf_refs s m = pf_refs s0 m;
  rs_mem m : foreign s0 root m → pf_mem s !! m = pf_mem s0 !! m;
}.

Lemma restored_refl s root : pm_ok s root → restored s root s.
Proof. by split. Qed.

(** The frames that are left do not even make the tables that are missing. *)
Definition short_of_frames (s : S) (root : Z) : Prop :=
  ∃ l s1, (length l < 3)%nat ∧ grown s root l s1 ∧ pf_alloc s1 = Ok (PFN_INVALID, s1).

Lemma grown_kept s0 root l s : pm_ok s0 root → grown s0 root l s → kept s0 root s.
Proof.
  intros Hok Hg. pose proof Hg as [G1 G2 G3 G4 G5 Gp G6 G7 G8 G9 G10 G11].
  assert (∀ m r, pf_refs s0 m = Some r → m ∉ pfns l) as Hno by (intros m r Hm Hin; destruct (G5 m Hin); congruence).
  split.
  - done.
  - done.
  - intros path p i Ht Hl Hp Hi. destruct (po_pages s0 root Hok path p Ht Hp) as [Hr _]. unfold word_at. rewrite G7; [done|by eapply Hno|].
    destruct l as [|c l]; [done|]. destruct G9 as (pre & b & v & Htp & Hn & _). intros ->.
    pose proof (po_once s0 root Hok path pre _ Ht ltac:(by eapply pm_in_tree_prefix) Hp Hn) as ->. destruct (pm_in_tree_last _ _ Htp). lia.
  - intros path p i Ht Hl Hn Hp. by apply (G3 path p Ht Hn Hp).
  - intros m r Hm. rewrite G6; [done|by eapply Hno].
  - intros m [[r Hr] Hm]. pose proof (Hno m r Hr) as Hnl. split.
    + split; [rewrite G6 by done; by exists r|]. intros path Ht Hp. destruct (node s0 root path) as [q|] eqn:Hq.
      * pose proof (G2 path q Ht Hq) as Hq'. apply (Hm path Ht). congruence.
      * by destruct (G3 path m Ht Hq Hp).
    + apply G7; [done|]. destruct l as [|c l]; [done|]. destruct G9 as (pre & b & v & Htp & Hn & _). intros ->.
      apply (Hm pre); [by eapply pm_in_tree_prefix|done].
  - done.
  - intros m. destruct (decide (m ∈ pfns l)) as [Hm|Hm]; [right|left; by apply G6]. destruct (G5 m Hm). split_and!; [done..|by apply G11].
Qed.

Lemma last_in {A} (l : list A) x : last l = Some x → x ∈ l.
Proof. intros H1. apply last_Some in H1 as [l' ->]. apply elem_of_app. right. by left. Qed.

Lemma chained_snoc p l c : chained p l → (match last (pfns l) with Some q => (PteModified c).1 = q | None => (PteModified c).1 = p end) →
  digit (PteModified c).2 → chained p (l ++ [c]).
Proof.
  revert p. induction l as [|c' l IH]; intros p Hch Hl Hd; cbn; [by split_and!|]. destruct Hch as (H1 & H2 & H3). split_and!; [done|done|].
  apply IH; [done| |done]. cbn [pfns fmap list_fmap] in Hl. fold (pfns l) in Hl. rewrite last_cons in Hl. by destruct (last (pfns l)).
Qed.

(** The next table. *)
Lemma pm_grow_step s0 root l s pre i p q s1 e : pm_ok s0 root → grown s0 root l s → in_tree (pre ++ [i]) → node s root pre = Some p →
  leads_to (word_at s p i) = None → match l with [] => True | _ => last (pfns l) = Some p end →
  pf_alloc s = Ok (q, s1) → q ≠ PFN_INVALID → leads_to e = Some q → 0 ≤ e < 2 ^ 64 →
  ∃ b, pf_mem s !! p = Some b ∧ length b = Z.to_nat PAGE_SIZE ∧ is_Some (pf_mem s1 !! q) ∧ pf_mem (pf_store q empty_table s1) !! p = Some b ∧
    let s' := pf_store p (set_word 8 b i e) (pf_store q empty_table s1) in
    grown s0 root (l ++ [mkChanged (p, i) (word_at s p i) q]) s' ∧ node s' root (pre ++ [i]) = Some q ∧ ∀ j, word_at s' q j = 0.
Proof.
  intros Hok0 Hg Ht Hp Hno Hlast Hal Hqv He Her. pose proof Hg as [G1 G2 G3 G4 G5 Gp G6 G7 G8 G9 G10 G11].
  destruct (pm_in_tree_last _ _ Ht) as [Hi Hl]. pose proof (pm_in_tree_prefix _ _ Ht) as Hpre.
  destruct (po_pages s root G1 pre p Hpre Hp) as [Hr (b & Hb & Hlen & _)]. exists b. split; [done|]. split; [done|].
  pose proof (pf_alloc_mem s q s1 (po_frames s root G1) Hal Hqv) as Hqm.
  destruct (pf_alloc_spec s (po_frames s root G1)) as [E|(q' & s1' & E & Hpf1 & Hf & Hfr & Hr1 & Hm1 & Hoth)]; rewrite Hal in E; [congruence|].
  injection E as <- <-.
  assert (low s1) as Hlow.
  { intros n Hn. apply (po_low s root G1). destruct (decide (n = q)) as [->|Hnq]; [done|]. by rewrite <-(proj2 (Hoth n Hnq)). }
  split; [by eexists|].
  assert (p ≠ q) as Hpq by congruence. split; [by rewrite pf_store_mem, lookup_insert_ne, (proj2 (Hoth p Hpq))|].
  destruct (pm_link_ok s root pre i q s1 e p b) as (L1 & L2 & L3 & L4); [done..|by eexists|done|done|done|done|].
  set (s' := pf_store p (set_word 8 b i e) (pf_store q empty_table s1)) in *. cbn zeta.
  assert (pf_refs s0 q = None) as Hq0.
  { destruct (pf_refs s0 q) as [r|] eqn:E; [|done]. assert (q ∉ pfns l) as Hql by (intros Hin; destruct (G5 q Hin); congruence).
    rewrite G6 in Hfr by done. congruence. }
  assert (q ∉ pfns l) as Hql by (intros Hin; destruct (G5 q Hin); congruence).
  assert (∀ m, m ≠ q → pf_refs s' m = pf_refs s m) as Hrefs by (intros m Hm; rewrite L3; by apply Hoth).
  assert (∀ r j, r ≠ p → r ≠ q → word_at s' r j = word_at s r j) as Hwo.
  { intros r j H1 H2. unfold word_at. by rewrite L4, !decide_False by done. }
  split; [|split; [by rewrite L2, decide_True|intros j; unfold word_at; by rewrite L4, decide_False, decide_True, word_empty by done]]. split.
  - done.
  - intros path r Htp Hr'. rewrite L2 by done. case_decide as E; [|by apply G2].
    subst path. apply G2 in Hr'; [|done]. rewrite pm_node_snoc, Hp, Hno in Hr'. done.
  - intros path r Htp Hn0. rewrite L2 by done. unfold pfns. rewrite fmap_app. case_decide as E.
    + intros [= <-]. split; [apply elem_of_app; right; by left|]. intros _ j. unfold word_at. rewrite L4, decide_False, decide_True by done. apply word_empty.
    + intros Hr'. destruct (G3 path r Htp Hn0 Hr') as [Hin Hz]. split; [apply elem_of_app; by left|]. intros Hl3 j.
      rewrite Hwo; [by apply Hz| |intros ->; done]. intros ->. pose proof (po_once s root G1 path pre p Htp Hpre Hr' Hp) as ->. lia.
  - unfold pfns. rewrite fmap_app. apply NoDup_app. split; [done|]. split; [|apply NoDup_singleton].
    intros x Hx Hx'. apply list_elem_of_singleton in Hx' as ->. done.
  - intros r. unfold pfns. rewrite fmap_app. intros [Hin|Hin%list_elem_of_singleton]%elem_of_app.
    + destruct (G5 r Hin) as [H1 H2]. split; [done|]. rewrite Hrefs; [done|]. intros ->. done.
    + cbn in Hin. subst r. split; [done|]. by rewrite L3.
  - intros r. unfold pfns. rewrite fmap_app. intros Hin. rewrite L4. case_decide; [eexists; split; [done|by rewrite length_set_word]|].
    case_decide; [eexists; split; [done|apply length_empty]|]. apply Gp. apply elem_of_app in Hin as [|Hin%list_elem_of_singleton]; [done|]. by cbn in Hin.
  - intros m. unfold pfns. rewrite fmap_app, not_elem_of_app. intros [H1 H2]. rewrite Hrefs; [by apply G6|]. intros ->. apply H2. by left.
  - intros m. unfold pfns. rewrite fmap_app, not_elem_of_app. intros [H1 H2] Hh.
    assert (m ≠ q) as Hmq by (intros ->; apply H2; by left).
    assert (m ≠ p) as Hmp.
    { destruct l as [|c l]; [exact Hh|]. intros ->. by apply last_in in Hlast. }
    rewrite L4, !decide_False by done. apply G7; [done|]. destruct l; [done|exact Hh].
  - intros m. rewrite L4. case_decide as E1; [intros _; apply G8; subst; by eexists|]. case_decide as E2; [intros _; apply G8; by subst|]. apply G8.
  - destruct l as [|c l]; cbn [app].
    + subst s0. exists pre, b, e. cbn. rewrite L4, decide_True by done. by split_and!.
    + destruct G9 as (pre0 & b0 & v0 & Ht0 & Hn0 & Hb0 & Hbs & Horig & Hch).
      destruct (po_pages s0 root Hok0 pre0 _ (pm_in_tree_prefix _ _ Ht0) Hn0) as [Hr0 _].
      assert ((PteModified c).1 ∉ pfns (c :: l)) as Hp0 by (intros Hin; destruct (G5 _ Hin); congruence).
      exists pre0, b0, v0. rewrite L4, decide_False, decide_False; [|congruence|intros E; apply Hp0; rewrite E; by apply last_in].
      split_and!; [done..|]. apply (chained_snoc _ (c :: l)); [done| |done]. by rewrite Hlast.
  - intros Hlg path j r Htp. destruct (pm_in_tree_last _ _ Htp) as [Hj _]. pose proof (pm_in_tree_prefix _ _ Htp) as Hpt. rewrite L2 by done. case_decide as E.
    { intros [= <-]. unfold word_at. by rewrite L4, decide_False, decide_True, word_empty by done. }
    intros Hnr. specialize (G10 Hlg path j r Htp Hnr). destruct (decide (r = p)) as [->|Hrp].
    + destruct (decide (j = i)) as [->|Hji].
      * unfold word_at. rewrite L4, decide_True by done. rewrite word_set_same; [|by apply pm_in_page_digit|exact Her].
        unfold leads_to in He. destruct (MmIsUnsupportedHigherLevelPte e); [|done]. by rewrite andb_false_r in He.
      * unfold word_at in *. rewrite Hb in G10. rewrite L4, decide_True by done. by rewrite word_set_other; [|apply Hi|apply Hj|congruence].
    + destruct (decide (r = q)) as [->|Hrq]; [|by rewrite Hwo]. exfalso. destruct (po_pages s root G1 path q Hpt Hnr) as [Hg' _]. congruence.
  - assert (node s root (pre ++ [i]) = None) as Hnone by (by rewrite pm_node_snoc, Hp).
    intros r. unfold pfns. rewrite fmap_app. intros [Hin|Hin%list_elem_of_singleton]%elem_of_app.
    + destruct (G11 r Hin) as (path & Htp & Hn1 & Hn0). exists path. split_and!; [done| |done]. rewrite L2 by done. rewrite decide_False; [done|congruence].
    + cbn in Hin. subst r. exists (pre ++ [i]). split_and!; [done|by rewrite L2, decide_True|].
      destruct (node s0 root (pre ++ [i])) as [t|] eqn:E; [|done]. apply G2 in E; [congruence|done].
Qed.

(** Out of memory: the tables are taken away again. *)
Lemma rollback_kept s0 root l s : pm_ok s0 root → grown s0 root l s → ∃ s', rollback l s = Ok s' ∧ kept s0 root s' ∧ restored s0 root s'.
Proof.
  intros Hok0 Hg. pose proof Hg as [G1 G2 G3 G4 G5 Gp G6 G7 G8 G9 G10 G11]. destruct l as [|c l].
  { subst s. exists s0. split; [done|]. split; [by apply kept_refl|by apply restored_refl]. }
  destruct G9 as (pre & b & v & Ht & Hn & Hb & Hbs & Horig & Hch). set (p := (PteModified c).1) in *. set (i := (PteModified c).2) in *.
  pose proof (pm_in_tree_prefix _ _ Ht) as Hpre. destruct (pm_in_tree_last _ _ Ht) as [Hi Hl].
  destruct (po_pages s0 root Hok0 pre p Hpre Hn) as [Hr (b0 & Hb0 & Hlen & Hby)]. assert (b0 = b) as -> by congruence.
  assert (∀ m r, pf_refs s0 m = Some r → m ∉ pfns (c :: l)) as Hno by (intros m r Hm Hin; destruct (G5 m Hin); congruence).
  pose proof (gr_node _ _ _ _ Hg pre p Hpre Hn) as Hns. destruct (po_pages s root G1 pre p Hpre Hns) as [Hrs _].
  destruct (rollback_spec (c :: l) s p (set_word 8 b i v)) as (s' & -> & Hpf & Hr' & Hm' & Hd' & Hf' & Hh').
  - done.
  - apply (po_frames s root G1).
  - intros w. eapply pf_store_spec; [apply (po_frames s root G1)|done].
  - by eapply Hno.
  - done.
  - intros q Hq. destruct (G5 q Hq) as [Hq0 Hq1]. split; [done|]. by apply Gp.
  - done.
  - by rewrite length_set_word.
  - exists s'. split; [done|].
    assert (∀ m, m ∉ pfns (c :: l) → m ≠ p → pf_mem s' !! m = pf_mem s0 !! m) as Hmem by (intros m H1 H2; rewrite Hm' by done; by apply G7).
    assert (∀ j, digit j → word_at s' p j = word_at s0 p j) as Hwp.
    { intros j Hj. unfold word_at. rewrite Hh', Hb. fold i. destruct (decide (j = i)) as [->|Hji].
      - rewrite word_set_same; [by rewrite Horig; unfold word_at; rewrite Hb| |].
        + rewrite in_page_set_word. by apply pm_in_page_digit.
        + rewrite Horig. apply word_at_range; [|done]. by apply (po_pages s0 root Hok0 pre).
      - rewrite !word_set_other; try done; try apply Hi; try apply Hj. }
    assert (∀ path r, in_tree path → node s0 root path = Some r → good_page s' r ∧ ∀ j, digit j → word_at s' r j = word_at s0 r j) as Hview.
    { intros path r Htp Hnr. destruct (po_pages s0 root Hok0 path r Htp Hnr) as [Hrr (br & Hbr & Hlr & Hbyr)].
      assert (r ∉ pfns (c :: l)) as Hrl by (by eapply Hno). split.
      - split; [rewrite Hr', G6 by done; done|]. destruct (decide (r = p)) as [->|Hrp].
        + exists (set_word 8 (set_word 8 b i v) i (PteOriginal c)). split; [exact Hh'|]. rewrite !length_set_word. split; [done|]. by do 2 apply bytes_set_word.
        + rewrite Hmem by done. by exists br.
      - intros j Hj. destruct (decide (r = p)) as [->|Hrp]; [by apply Hwp|]. unfold word_at. by rewrite Hmem. }
    destruct (same_view s0 s' root Hok0 Hpf) as [Hok' Hnode]; [|done|].
    { intros n Hn'. apply (po_low s0 root Hok0), G8, Hd', Hn'. }
    assert (∀ m, pf_refs s' m = pf_refs s0 m) as Hrefs.
    { intros m. destruct (decide (m ∈ pfns (c :: l))) as [Hm|Hm]; [by rewrite Hf', (proj1 (G5 m Hm))|by rewrite Hr', G6]. }
    assert (∀ m, foreign s0 root m → pf_mem s' !! m = pf_mem s0 !! m) as Hforeign.
    { intros m [[r Hmr] Hm]. apply Hmem; [by apply Hno with r|]. intros ->. by apply (Hm pre). }
    split; [|split; [done|done| |done|done]; intros path r j Htp Hnr Hj; by apply (Hview path r Htp Hnr)]. split.
    + done.
    + intros path r Htp Hnr. by rewrite Hnode.
    + intros path r j Htp Hl3 Hnr Hj. by apply (Hview path r Htp Hnr).
    + intros path r j Htp Hl3 Hn0. rewrite Hnode by done. congruence.
    + intros m r Hm. by rewrite Hrefs.
    + intros m Hm. split; [|by apply Hforeign]. destruct Hm as [[r Hmr] Hm].
      split; [exists r; by rewrite Hrefs|]. intros path Htp. rewrite Hnode by done. by apply Hm.
    + intros Hlg path j r Htp. destruct (pm_in_tree_last _ _ Htp) as [Hj _]. pose proof (pm_in_tree_prefix _ _ Htp) as Hpt. rewrite Hnode by done.
      intros Hnr. rewrite (proj2 (Hview path r Hpt Hnr) j Hj). by apply (Hlg path).
    + intros m. left. apply Hrefs.
Qed.

(** ** Addresses *)

Definition path_of (va : Z) : list Z := [PML_IDX 4 va; PML_IDX 3 va; PML_IDX 2 va].

(** The entry of an address, where there is a table for it. *)
Definition pte (s : S) (root va : Z) : option Z :=
  match node s root (path_of va) with Some p => Some (word_at s p (PML_IDX 1 va)) | None => None end.

(** An address that does not lead through the recursive entry. *)
Definition plain_va (va : Z) : Prop := PML_IDX 4 va ≠ MI_RECURSIVE_PAGING_START.

(** There is a large page on the way to the table of an address. *)
Definition blocked (s : S) (root va : Z) : Prop := ∃ pre i rest p, path_of va = pre ++ i :: rest ∧ node s root pre = Some p ∧
  MmIsUnsupportedHigherLevelPte (word_at s p i) = true.

Fixpoint tail_path (pml : nat) (va : Z) : list Z :=
  match pml with Datatypes.S (Datatypes.S _ as below) => PML_IDX pml va :: tail_path below va | _ => [] end.

Lemma digit_PML pml va : digit (PML_IDX pml va).
Proof.
  unfold digit, PML_IDX. change 511 with (Z.ones 9). rewrite Z.land_ones by lia. apply Z.mod_pos_bound. lia.
Qed.

Lemma path_in_tree va : plain_va va → in_tree (path_of va).
Proof.
  intros Hva. split_and!; [cbn; lia| |by intros [= E]]. repeat constructor; apply digit_PML.
Qed.

Lemma node_prefix s p a b q : node s p (a ++ b) = Some q → is_Some (node s p a).
Proof.
  revert p. induction a as [|i a IH]; intros p; cbn; [by eexists|]. destruct (leads_to _); [apply IH|done].
Qed.

Lemma node_none s p a b : node s p a = None → node s p (a ++ b) = None.
Proof. intros Ha. destruct (node s p (a ++ b)) eqn:E; [|done]. apply node_prefix in E as [? ?]. congruence. Qed.

Lemma leads_to_present e : MmIsPresentPte e = true → leads_to e = if MmIsUnsupportedHigherLevelPte e then None else Some (MmGetPfnPte e).
Proof. intros He. unfold leads_to. rewrite He. by destruct (MmIsUnsupportedHigherLevelPte e). Qed.

Lemma leads_to_absent e : MmIsPresentPte e = false → leads_to e = None.
Proof. intros He. unfold leads_to. by rewrite He. Qed.

(** How a walk for the tables of [va] ends. *)
Definition walked (s0 : S) (root va : Z) (Allocate : bool) (out : outcome (option (Z * Z) * S)) : Prop :=
  ∃ r s', out = Ok (r, s') ∧ kept s0 root s' ∧
    match r with
    | Some (t, i) => i = PML_IDX 1 va ∧ node s' root (path_of va) = Some t
    | None => node s' root (path_of va) = None ∧
        (Allocate = true → blocked s0 root va ∧ s' = s0 ∨ short_of_frames s0 root ∧ restored s0 root s')
    end ∧
    (Allocate = false → s' = s0) ∧ (is_Some (node s0 root (path_of va)) → s' = s0).

Lemma walk_spec s0 root va Allocate : pm_ok s0 root → plain_va va → ∀ pml l s p pre,
  path_of va = pre ++ tail_path (Datatypes.S pml) va → node s root pre = Some p → grown s0 root l s →
  match l with [] => True | _ => last (pfns l) = Some p ∧ ∀ i, word_at s p i = 0 end → (length l + pml ≤ 3)%nat → (Allocate = false → l = []) →
  (is_Some (node s0 root (path_of va)) → l = []) →
  walked s0 root va Allocate (walk_tables (Datatypes.S pml) Allocate va p l s).
Proof.
  intros Hok0 Hva. pose proof (path_in_tree va Hva) as Htva.
  induction pml as [|pml IH]; intros l s p pre Hpath Hp Hg Hl Hlen3 Hal Hthere.
  - pose proof (gr_ok _ _ _ _ Hg) as Hok. cbn [tail_path] in Hpath. rewrite app_nil_r in Hpath. subst pre.
    destruct (po_pages s root Hok _ p Htva Hp) as [_ (b & Hb & Hlen & _)].
    cbn [walk_tables]. rewrite (ld_pte_spec s p _ b) by (done || apply digit_PML). cbn [mbind outcome_bind].
    assert (l = [] → s = s0) as Hs by (intros ->; exact (gr_head _ _ _ _ Hg)).
    exists (Some (p, PML_IDX 1 va)), s. split_and!; [done|by apply grown_kept with l|done|done|auto..].
  - pose proof (gr_ok _ _ _ _ Hg) as Hok. cbn [tail_path] in Hpath.
    set (i := PML_IDX (Datatypes.S (Datatypes.S pml)) va) in *.
    assert (in_tree (pre ++ [i])) as Hti by (rewrite Hpath, cons_middle, app_assoc in Htva; by eapply pm_in_tree_prefix).
    pose proof (pm_in_tree_prefix _ _ Hti) as Hpre. destruct (po_pages s root Hok pre p Hpre Hp) as [_ (b & Hb & Hlen & _)].
    assert (l = [] → s = s0) as Hs by (intros ->; exact (gr_head _ _ _ _ Hg)).
    cbn [walk_tables]. fold i. rewrite (ld_pte_spec s p i b) by (done || apply digit_PML). cbn [mbind outcome_bind].
    unfold next_level. destruct (MmIsPresentPte (word_at s p i)) eqn:Hpr.
    + cbn [mbind outcome_bind].
      assert (l = []) as -> by (destruct l; [done|]; destruct Hl as [_ Hz]; rewrite Hz in Hpr; done).
      specialize (Hs eq_refl). subst s. pose proof (leads_to_present _ Hpr) as Hlead. destruct (MmIsUnsupportedHigherLevelPte (word_at s0 p i)) eqn:Hhuge.
      * exists None, s0. split; [done|]. split; [by apply kept_refl|]. split; [|done]. split.
        -- rewrite Hpath, cons_middle, app_assoc. apply node_none. by rewrite pm_node_snoc, Hp.
        -- intros _. left. split; [|done]. by exists pre, i, (tail_path (Datatypes.S pml) va), p.
      * apply (IH [] s0 _ (pre ++ [i])); try done; [by rewrite Hpath, cons_middle, app_assoc|by rewrite pm_node_snoc, Hp|cbn; lia].
    + pose proof (leads_to_absent _ Hpr) as Hlead.
      assert (node s root (path_of va) = None) as Hnone.
      { rewrite Hpath, cons_middle, app_assoc. apply node_none. by rewrite pm_node_snoc, Hp. }
      assert (node s0 root (path_of va) = None) as Hnone0.
      { destruct (node s0 root (path_of va)) as [t|] eqn:E; [|done]. apply (gr_node _ _ _ _ Hg) in E; [congruence|done]. }
      assert (¬ is_Some (node s0 root (path_of va))) as Hnot by (rewrite Hnone0; by intros [? ?]).
      destruct Allocate; cbn [negb mbind outcome_bind].
      2: { exists None, s. rewrite (Hs (Hal eq_refl)) in *. split; [done|]. by split_and!; [apply kept_refl|..]. }
      destruct (pf_alloc s) as [[q s1]| |] eqn:Hall;
        [|by destruct (pf_alloc_spec s (po_frames s root Hok)) as [E|(? & ? & E & _)]; congruence..].
      cbn [mbind outcome_bind]. destruct (Z.eqb_spec q PFN_INVALID) as [->|Hqv].
      * destruct (pf_alloc_spec s (po_frames s root Hok)) as [E|(q & s1' & E & _ & Hf & _)];
          [|rewrite Hall in E; injection E as <- <-; by apply frame_valid in Hf].
        rewrite Hall in E. injection E as ->. destruct (rollback_kept s0 root l s Hok0 Hg) as (s' & -> & Hk & Hrs). cbn [mbind outcome_bind].
        exists None, s'. split; [done|]. split; [done|]. split; [|by split]. split; [by rewrite (rs_node _ _ _ Hrs)|].
        intros _. right. split; [|done]. exists l, s. split_and!; [lia|done|done].
      * set (e := MmBuildPte q _). assert (0 ≤ q < 2 ^ 20) as Hq.
        { split; [|by apply (po_low s root Hok), (pf_alloc_mem s q s1 (po_frames s root Hok) Hall Hqv)].
          destruct (pf_alloc_spec s (po_frames s root Hok)) as [E|(q' & s1' & E & _ & Hf & _)]; rewrite Hall in E; [congruence|].
          injection E as <- <-. apply Hf. }
        destruct (pm_grow_step s0 root l s pre i p q s1 e) as (b' & Hb' & _ & [bq Hbq] & Hbp & Hg' & Hnode' & Hz');
          [done..|by destruct l; [|apply Hl]|done|done|by apply leads_to_build|apply MmBuildPte_range|].
        unfold page. rewrite Hbq. cbn [deref mbind outcome_bind].
        rewrite (st_pte_spec _ p i e b') by (done || apply digit_PML || (rewrite Hb in Hb'; injection Hb' as <-; done)). cbn [mbind outcome_bind].
        assert (MmIsUnsupportedHigherLevelPte e = false ∧ MmGetPfnPte e = q) as [-> ->].
        { pose proof (leads_to_build q (Z.lor (Z.lor (Z.lor MM_PROT_READ MM_PROT_WRITE) MM_PROT_EXEC) (if MM_KERNEL_SPACE_BASE <=? va then 0 else MM_PROT_USER)) Hq) as Hlb.
          fold e in Hlb. unfold leads_to in Hlb. destruct (MmIsPresentPte e), (MmIsUnsupportedHigherLevelPte e); cbn in Hlb; try done. by injection Hlb as ->. }
        apply (IH _ _ _ (pre ++ [i])); try done; [by rewrite Hpath, cons_middle, app_assoc| |rewrite length_app; cbn; lia].
        unfold pfns. rewrite fmap_app, last_app. cbn. by destruct l.
Qed.

Lemma MiGetPTEPointer_spec s root va Allocate : pm_ok s root → plain_va va →
  walked s root va Allocate (MiGetPTEPointer root va Allocate s).
Proof.
  intros Hok Hva. apply (walk_spec s root va Allocate Hok Hva 3 [] s root []); try done. by apply grown_refl.
Qed.

Lemma kept_pte s root s' va : kept s root s' → plain_va va →
  match pte s root va with Some e => pte s' root va = Some e | None => pte s' root va = None ∨ pte s' root va = Some 0 end.
Proof.
  intros Hk Hva. pose proof (path_in_tree va Hva) as Ht. unfold pte. destruct (node s root (path_of va)) as [p|] eqn:Hp.
  - rewrite (kp_node s root s' Hk _ p) by done. f_equal. apply (kp_word s root s' Hk (path_of va)); [done..|apply digit_PML].
  - destruct (node s' root (path_of va)) as [p|] eqn:Hp'; [right|by left]. f_equal. by apply (kp_new s root s' Hk (path_of va)).
Qed.

(** The place of the entry of an address. *)
Definition slot (va : Z) : list Z * Z := (path_of va, PML_IDX 1 va).

(** The entry of an address is written. *)
Record wrote (s : S) (root va v : Z) (s' : S) : Prop := {
  wr_ok : pm_ok s' root;
  wr_pte va' : plain_va va' → pte s' root va' = if decide (slot va' = slot va) then Some v else pte s root va';
  wr_node path : in_tree path → node s' root path = node s root path;
  wr_refs m : pf_refs s' m = pf_refs s m;
  wr_mem m : off_tree s root m → pf_mem s' !! m = pf_mem s !! m;
  wr_large : no_large s root → no_large s' root;
}.

Lemma foreign_same s s' root m : foreign s root m → is_Some (pf_refs s' m) → (∀ path, in_tree path → node s' root path = node s root path) → foreign s' root m.
Proof. intros [_ Hf] Hr Hn. split; [done|]. intros path Ht. rewrite Hn by done. by apply Hf. Qed.

Lemma st_pte_wrote s root va v p : pm_ok s root → plain_va va → node s root (path_of va) = Some p → 0 ≤ v < 2 ^ 64 →
  ∃ s', st_pte p (PML_IDX 1 va) v s = Ok s' ∧ wrote s root va v s'.
Proof.
  intros Hok Hva Hp Hv. pose proof (path_in_tree va Hva) as Ht. destruct (po_pages s root Hok _ p Ht Hp) as [Hr (b & Hb & Hl & _)].
  rewrite (st_pte_spec s p _ v b) by (done || apply digit_PML). eexists. split; [done|].
  destruct (pm_write_ok s root (path_of va) p (PML_IDX 1 va) v b Hok Ht eq_refl Hp (digit_PML 1 va) Hv Hb) as (W1 & W2 & W3 & W4 & W5 & W6).
  split; [done| |done|done| |].
  - intros va' Hva'. pose proof (path_in_tree va' Hva') as Ht'. unfold pte, slot. rewrite W2 by done. case_decide as E.
    + injection E as E1 E2 E3 E4. assert (path_of va' = path_of va) as -> by (unfold path_of; congruence). by rewrite Hp, E4, W4.
    + destruct (node s root (path_of va')) as [p'|] eqn:Hp'; [|done]. f_equal. apply W3; [|apply digit_PML].
      intros [= -> E2]. apply E. pose proof (po_once s root Hok _ _ p Ht' Ht Hp' Hp) as ->. by rewrite E2.
  - intros m Hm. apply W6. intros ->. by apply (Hm (path_of va)).
  - intros Hlg path j r Htp. destruct (pm_in_tree_last _ _ Htp) as [Hj Hl3]. pose proof (pm_in_tree_prefix _ _ Htp) as Hpt. rewrite W2 by done. intros Hn.
    rewrite W3; [by apply (Hlg path)| |apply Hj]. intros [= -> _]. pose proof (po_once s root Hok _ _ p Hpt Ht Hn Hp) as ->. cbn in Hl3. lia.
Qed.

(** C21: Finding or making the entry of an address of a page map whose memory
    ends below 4 GiB.  An entry that there is a table for is found and nothing
    changes.  Otherwise, if asked to, the missing tables are made, empty, of
    frames that were free, which are all that is taken, and every other entry of
    the page map stays as it was.  Or there is no entry in the end: because a
    large page is in the way, and then nothing was touched, or because the free
    frames do not make the missing tables, and then all entries of all tables,
    the references to all frames and the pages in use are as before. *)
Theorem MiGetPTEPointer_correct s root va Allocate : pm_ok s root → plain_va va →
  match pte s root va with
  | Some e => ∃ p i, MiGetPTEPointer root va Allocate s = Ok (Some (p, i), s) ∧ word_at s p i = e
  | None =>
      if Allocate then
        (∃ p i s', MiGetPTEPointer root va Allocate s = Ok (Some (p, i), s') ∧ kept s root s' ∧ word_at s' p i = 0 ∧ pte s' root va = Some 0) ∨
        (MiGetPTEPointer root va Allocate s = Ok (None, s) ∧ blocked s root va) ∨
        (∃ s', MiGetPTEPointer root va Allocate s = Ok (None, s') ∧ restored s root s' ∧ short_of_frames s root)
      else MiGetPTEPointer root va Allocate s = Ok (None, s)
  end.
Proof.
  intros Hok Hva. destruct (MiGetPTEPointer_spec s root va Allocate Hok Hva) as (r & s' & Hs' & Hk & Hr & Hfalse & Hsame).
  pose proof (kept_pte s root s' va Hk Hva) as Hpte. unfold pte in *. destruct (node s root (path_of va)) as [p|] eqn:Hp.
  - rewrite (Hsame (ltac:(by eexists))) in *. destruct r as [[t i]|]; [|destruct Hr; congruence]. destruct Hr as [-> Ht].
    exists t, (PML_IDX 1 va). split; [done|]. congruence.
  - destruct Allocate.
    + destruct r as [[t i]|].
      * left. destruct Hr as [-> Ht]. exists t, (PML_IDX 1 va), s'. rewrite Ht in Hpte. destruct Hpte as [|[= Hz]]; [done|]. rewrite Ht. split_and!; congruence.
      * right. destruct Hr as [Hn Hb]. destruct (Hb eq_refl) as [[Hbl ->]|[Hsh Hrs]]; [by left|right; by exists s'].
    + rewrite (Hfalse eq_refl) in *. destruct r as [[t i]|]; [destruct Hr; congruence|done].
Qed.

(** Mapping a physical page: the entry of the address is then that of the
    page with the permissions, and every other entry is as before, but for
    entries in tables that are new and empty; or it fails and all is as before. *)
Theorem MiMapPhysicalPage_correct s root PhysicalPage va Permissions : pm_ok s root → plain_va va →
  ∃ s', (MiMapPhysicalPage root PhysicalPage va Permissions s = Ok (true, s') ∧ pm_ok s' root ∧
      pte s' root va = Some (MmBuildPte (MmPhysPageToPFN PhysicalPage) Permissions) ∧
      (∀ va', plain_va va' → slot va' ≠ slot va →
         match pte s root va' with Some e => pte s' root va' = Some e | None => pte s' root va' = None ∨ pte s' root va' = Some 0 end) ∧
      ∀ m r, pf_refs s m = Some r → pf_refs s' m = Some r) ∨
    (MiMapPhysicalPage root PhysicalPage va Permissions s = Ok (false, s') ∧ kept s root s' ∧ pte s' root va = None).
Proof.
  intros Hok Hva. destruct (MiGetPTEPointer_spec s root va true Hok Hva) as (r & s1 & Hs1 & Hk & Hr & _). unfold MiMapPhysicalPage. rewrite Hs1.
  cbn [mbind outcome_bind]. destruct r as [[p i]|].
  - destruct Hr as [-> Hp].
    destruct (st_pte_wrote s1 root va (MmBuildPte (MmPhysPageToPFN PhysicalPage) Permissions) p) as (s' & -> & Hw);
      [apply (kp_ok s root s1 Hk)|done|done|apply MmBuildPte_range|]. cbn [mbind outcome_bind].
    exists s'. left. split; [done|]. split; [apply (wr_ok _ _ _ _ _ Hw)|]. split; [by rewrite (wr_pte _ _ _ _ _ Hw), decide_True|]. split.
    + intros va' Hva' Hne. pose proof (kept_pte s root s1 va' Hk Hva') as Hpte. by rewrite (wr_pte _ _ _ _ _ Hw), decide_False.
    + intros m r Hm. rewrite (wr_refs _ _ _ _ _ Hw). by apply (kp_refs s root s1 Hk).
  - exists s1. right. split; [done|]. split; [done|]. unfold pte. by destruct Hr as [-> _].
Qed.

(** ** Ranges of pages *)

Lemma PML_IDX_page k va : PML_IDX (Datatypes.S k) va = (va / 4096 / 512 ^ Z.of_nat k) mod 512.
Proof.
  unfold PML_IDX. change 511 with (Z.ones 9). rewrite Z.land_ones, Z.shiftr_div_pow2 by lia. change (2 ^ 9) with 512.
  replace (12 + 9 * (Z.of_nat (Datatypes.S k) - 1)) with (12 + 9 * Z.of_nat k) by lia. rewrite Z.pow_add_r, Z.pow_mul_r by lia.
  rewrite Z.div_div; [done|lia|]. apply Z.pow_pos_nonneg; lia.
Qed.

(** The number of the page of an address, as far as the tables see it. *)
Definition page_no (va : Z) : Z := (va / 4096) mod 2 ^ 36.

Lemma slot_page a b : slot a = slot b ↔ page_no a = page_no b.
Proof.
  assert (∀ va, page_no va = PML_IDX 1 va + 512 * (PML_IDX 2 va + 512 * (PML_IDX 3 va + 512 * PML_IDX 4 va))) as H1.
  { intros va. unfold page_no. rewrite !PML_IDX_page. cbn [Z.of_nat]. change (512 ^ Z.of_nat 1) with 512. change (512 ^ Z.of_nat 2) with (512 * 512).
    change (512 ^ Z.of_nat 3) with (512 * (512 * 512)). rewrite Z.pow_0_r, Z.div_1_r. change (2 ^ 36) with (512 * (512 * (512 * 512))).
    set (x := va / 4096). rewrite (Z.rem_mul_r x 512), (Z.rem_mul_r (x / 512) 512), (Z.rem_mul_r (x / 512 / 512) 512), !Z.div_div by lia.
    by change (512 * 512 * 512) with (512 * (512 * 512)). }
  split; intros E.
  - unfold slot, path_of in E. injection E as E4 E3 E2 E1. by rewrite !H1, E1, E2, E3, E4.
  - pose proof (digit_PML 1 a) as A1. pose proof (digit_PML 2 a) as A2. pose proof (digit_PML 3 a) as A3. pose proof (digit_PML 4 a) as A4.
    pose proof (digit_PML 1 b) as B1. pose proof (digit_PML 2 b) as B2. pose proof (digit_PML 3 b) as B3. pose proof (digit_PML 4 b) as B4.
    unfold digit in *. rewrite !H1 in E. unfold slot, path_of. f_equal; [f_equal; [lia|f_equal; [lia|f_equal; lia]]|lia].
Qed.

(** The address of the [i]-th page of a range. *)
Definition nth_page (va : Z) (i : nat) : Z := va + 4096 * Z.of_nat i.

(** A range of addresses that the code can go through page by page. *)
Record range_ok (va : Z) (n : nat) : Prop := {
  rg_start : 0 ≤ va;
  rg_end : va + 4096 * Z.of_nat n ≤ 2 ^ 64;
  rg_size : Z.of_nat n ≤ 2 ^ 36;
  rg_plain i : (i < n)%nat → plain_va (nth_page va i);
}.

Lemma nth_page_S va i : nth_page (va + 4096) i = nth_page va (Datatypes.S i).
Proof. unfold nth_page. lia. Qed.

Lemma nth_page_0 va : nth_page va 0 = va.
Proof. unfold nth_page. lia. Qed.

Lemma range_next va n : range_ok va (Datatypes.S n) → range_ok (va + 4096) n.
Proof. intros [R1 R2 R3 R4]. split; [lia|lia|lia|]. intros i Hi. rewrite nth_page_S. apply R4. lia. Qed.

Lemma range_plain va n : range_ok va (Datatypes.S n) → plain_va va.
Proof. intros Hr. rewrite <-nth_page_0. apply (rg_plain va _ Hr). lia. Qed.

Lemma slot_nth va n i j : range_ok va n → (i < n)%nat → (j < n)%nat → slot (nth_page va i) = slot (nth_page va j) → i = j.
Proof.
  intros [R1 R2 R3 R4] Hi Hj E%slot_page. unfold page_no, nth_page in E.
  replace (va + 4096 * Z.of_nat i) with (Z.of_nat i * 4096 + va) in E by lia. replace (va + 4096 * Z.of_nat j) with (Z.of_nat j * 4096 + va) in E by lia.
  rewrite !Z.div_add_l in E by lia. set (x := va / 4096) in *. assert (((Z.of_nat i + x) - (Z.of_nat j + x)) mod 2 ^ 36 = 0) as Hm.
  { rewrite Zminus_mod, E, Z.sub_diag. done. }
  apply Z.mod_divide in Hm as [k Hk]; [|lia]. assert (k = 0) by nia. lia.
Qed.

Lemma slot_first va n i : range_ok va (Datatypes.S n) → (i < n)%nat → slot (nth_page (va + 4096) i) ≠ slot va.
Proof.
  intros Hr Hi. rewrite nth_page_S. rewrite <-(nth_page_0 va) at 2. intros E. apply (slot_nth va (Datatypes.S n)) in E; [lia|done|lia|lia].
Qed.

(** The entries of a range were changed by [f] and nothing else was. *)
Record swept (f : Z → Z) (s : S) (root va : Z) (n : nat) (s' : S) : Prop := {
  sw_ok : pm_ok s' root;
  sw_pte i : (i < n)%nat → pte s' root (nth_page va i) = f <$> pte s root (nth_page va i);
  sw_other va' : plain_va va' → (∀ i, (i < n)%nat → slot va' ≠ slot (nth_page va i)) → pte s' root va' = pte s root va';
  sw_node path : in_tree path → node s' root path = node s root path;
  sw_large : no_large s root → no_large s' root;
}.

Lemma swept_step f s root va n s1 s' : range_ok va (Datatypes.S n) →
  pte s1 root va = f <$> pte s root va → (∀ va', plain_va va' → slot va' ≠ slot va → pte s1 root va' = pte s root va') →
  (∀ path, in_tree path → node s1 root path = node s root path) → (no_large s root → no_large s1 root) →
  swept f s1 root (va + 4096) n s' → swept f s root va (Datatypes.S n) s'.
Proof.
  intros Hr Hva Hoth Hn Hlg [W1 W2 W3 W4 W5]. pose proof (range_next va n Hr) as Hr'. split.
  - done.
  - intros [|i] Hi.
    + rewrite nth_page_0, W3; [done|by eapply range_plain|]. intros i Hi' E. by apply (slot_first va n i Hr Hi').
    + rewrite <-nth_page_S, W2, Hoth; [done| | |lia].
      * apply (rg_plain _ _ Hr'). lia.
      * apply slot_first with n; [done|lia].
  - intros va' Hva' Hne. rewrite W3; [apply Hoth; [done|rewrite <-(nth_page_0 va); apply Hne; lia]|done|].
    intros i Hi. rewrite nth_page_S. apply Hne. lia.
  - intros path Ht. by rewrite W4, Hn.
  - intros Hl. by apply W5, Hlg.
Qed.

Lemma next_page va n : range_ok va (Datatypes.S (Datatypes.S n)) → u64 (va + PAGE_SIZE) = va + 4096.
Proof. intros [R1 R2 R3 R4]. unfold PAGE_SIZE. rewrite wrap_small; lia. Qed.

(** Finding the entry of an address. *)
Lemma find_pte s root va : pm_ok s root → plain_va va →
  match pte s root va with
  | Some e => ∃ p, node s root (path_of va) = Some p ∧ MiGetPTEPointer root va false s = Ok (Some (p, PML_IDX 1 va), s) ∧ ld_pte p (PML_IDX 1 va) s = Ok e
  | None => MiGetPTEPointer root va false s = Ok (None, s)
  end.
Proof.
  intros Hok Hva. pose proof (path_in_tree va Hva) as Ht.
  destruct (MiGetPTEPointer_spec s root va false Hok Hva) as (r & s' & Hs' & _ & Hr & Hsame & _). rewrite (Hsame eq_refl) in *.
  unfold pte. destruct (node s root (path_of va)) as [p|] eqn:Hp.
  - destruct r as [[t i]|]; [|destruct Hr; congruence]. destruct Hr as [-> Ht']. exists p. split_and!; [done|congruence|].
    apply good_ld; [by apply (po_pages s root Hok (path_of va))|apply digit_PML].
  - destruct r as [[t i]|]; [destruct Hr; congruence|done].
Qed.

Definition unset (e : Z) : Z := if MmIsPresentPte e then MmBuildWasPresentPte e else 0.

(** What a sweep leaves of other pages and their references. *)
Definition others_kept (s : S) (root : Z) (s' : S) : Prop :=
  (∀ m, pf_refs s' m = pf_refs s m) ∧ ∀ m, off_tree s root m → off_tree s' root m ∧ pf_mem s' !! m = pf_mem s !! m.

Lemma others_foreign s root s' m : others_kept s root s' → foreign s root m → foreign s' root m.
Proof. intros [R F] [Hr Hm]. split; [by rewrite R|by apply F]. Qed.

Lemma others_kept_trans s root s1 s2 : others_kept s root s1 → others_kept s1 root s2 → others_kept s root s2.
Proof.
  intros [R1 F1] [R2 F2]. split; [intros m; by rewrite R2, R1|]. intros m Hm. destruct (F1 m Hm) as [Hm1 E1]. destruct (F2 m Hm1) as [Hm2 E2].
  split; [done|congruence].
Qed.

Lemma off_tree_same s s' root m : (∀ path, in_tree path → node s' root path = node s root path) → off_tree s root m → off_tree s' root m.
Proof. intros Hn Hm path Ht. rewrite Hn by done. by apply Hm. Qed.

Lemma wrote_others s root va v s' : wrote s root va v s' → others_kept s root s'.
Proof.
  intros [_ _ W3 W4 W5 _]. split; [done|]. intros m Hm. split; [by apply (off_tree_same s)|by apply W5].
Qed.

Lemma unset_present_last n root va s : range_ok va (Datatypes.S n) →
  unset_present n root (u64 (va + PAGE_SIZE)) s = unset_present n root (va + 4096) s.
Proof. destruct n as [|n]; [done|]. intros Hr. by rewrite (next_page va n). Qed.

Lemma unset_present_spec n : ∀ root va s, pm_ok s root → range_ok va n →
  ∃ s', unset_present n root va s = Ok s' ∧ swept unset s root va n s' ∧ others_kept s root s'.
Proof.
  induction n as [|n IH]; intros root va s Hok Hr; cbn [unset_present].
  { exists s. split; [done|]. split; [split; [done|lia|done|done|done]|by split]. }
  pose proof (range_plain va n Hr) as Hva. pose proof (find_pte s root va Hok Hva) as Hf.
  assert (∃ s1, (∀ k : S → outcome S, ('(pPTE, s) ← MiGetPTEPointer root va false s;
      s ← match pPTE with None => Ok s | Some (p, i) => Pte ← ld_pte p i s; st_pte p i (if MmIsPresentPte Pte then MmBuildWasPresentPte Pte else MmBuildZeroPte) s end;
      k s) = k s1) ∧ pm_ok s1 root ∧ pte s1 root va = unset <$> pte s root va ∧
    (∀ va', plain_va va' → slot va' ≠ slot va → pte s1 root va' = pte s root va') ∧
    (∀ path, in_tree path → node s1 root path = node s root path) ∧ others_kept s root s1 ∧ (no_large s root → no_large s1 root))
    as (s1 & Hs1 & Hok1 & Hp1 & Ho1 & Hn1 & Hk1 & Hlg1).
  { destruct (pte s root va) as [e|] eqn:Hpte.
    - destruct Hf as (p & Hp & Hget & Hld). destruct (st_pte_wrote s root va (unset e) p Hok Hva Hp) as (s1 & Hs1 & Hw).
      { unfold unset. case_match; [apply was_present_range|lia]. }
      exists s1. split; [intros k; rewrite Hget; cbn [mbind outcome_bind]; rewrite Hld; cbn [mbind outcome_bind]; unfold unset in Hs1;
        unfold MmBuildZeroPte; by rewrite Hs1|].
      split; [apply (wr_ok _ _ _ _ _ Hw)|]. split; [by rewrite (wr_pte _ _ _ _ _ Hw), decide_True|].
      split; [intros va' Hva' Hne; by rewrite (wr_pte _ _ _ _ _ Hw), decide_False|].
      split; [apply (wr_node _ _ _ _ _ Hw)|]. split; [by apply wrote_others in Hw|apply (wr_large _ _ _ _ _ Hw)].
    - exists s. split; [intros k; by rewrite Hf|]. by split_and!. }
  rewrite Hs1, unset_present_last by done. destruct (IH root (va + 4096) s1 Hok1 (range_next va n Hr)) as (s' & -> & Hsw & Hk).
  exists s'. split; [done|]. split; [by eapply swept_step|by eapply others_kept_trans].
Qed.

Definition drop_ref (r : option Z) : option Z := match r with Some r => if r =? 1 then None else Some (r - 1) | None => None end.

(** A page that is no table is freed. *)
Lemma free_foreign s root f : pm_ok s root → foreign s root f →
  ∃ s', pf_free f s = Ok s' ∧ pm_ok s' root ∧ pf_mem s' = pf_mem s ∧ (∀ path, node s' root path = node s root path) ∧
    ∀ m, pf_refs s' m = if decide (m = f) then drop_ref (pf_refs s m) else pf_refs s m.
Proof.
  intros Hok [[r Hr] Hf]. destruct (pf_free_spec s f r (po_frames s root Hok) Hr) as (s' & Hs' & Hpf & Hm & Hr' & Ho).
  assert (∀ p i, word_at s' p i = word_at s p i) as Hw by (intros p i; unfold word_at; by rewrite Hm).
  assert (∀ path p, node s' p path = node s p path) as Hn.
  { induction path as [|i path IH]; intros p; cbn; [done|]. rewrite Hw. destruct (leads_to _); [apply IH|done]. }
  exists s'. split; [done|]. split; [|split; [done|split; [intros path; apply Hn|]]].
  - split; [done|intros n; rewrite Hm; apply (po_low s root Hok)| |].
    + intros path p Ht. rewrite Hn. intros Hp. destruct (po_pages s root Hok path p Ht Hp) as [Hg Hb]. split; [|by rewrite Hm].
      rewrite Ho; [done|]. intros ->. by apply (Hf path).
    + intros path path' p H1 H2. rewrite !Hn. by apply (po_once s root Hok).
  - intros m. case_decide as E; [subst; rewrite Hr', Hr; done|by apply Ho].
Qed.

Definition frame1 (o : option Z) : list Z := match o with Some e => if MmIsFromPmmPte e then [MmGetPfnPte e] else [] | None => [] end.

(** The frames that the pages of a range come from. *)
Fixpoint frames_of (g : Z → Z) (s : S) (root va : Z) (n : nat) : list Z :=
  match n with
  | O => []
  | Datatypes.S n =>
      frame1 (g <$> pte s root va) ++ frames_of g s root (va + 4096) n
  end.

Definition free1 (e : Z) : Z := if MmIsFromPmmPte e then 0 else e.

Lemma frames_of_ext g g' s s' root va n : range_ok va n →
  (∀ i, (i < n)%nat → frame1 (g' <$> pte s' root (nth_page va i)) = frame1 (g <$> pte s root (nth_page va i))) →
  frames_of g' s' root va n = frames_of g s root va n.
Proof.
  revert va. induction n as [|n IH]; intros va Hr Hp; [done|]. cbn [frames_of]. f_equal.
  - specialize (Hp 0%nat ltac:(lia)). by rewrite nth_page_0 in Hp.
  - apply IH; [by apply range_next|]. intros i Hi. rewrite nth_page_S. apply Hp. lia.
Qed.

Lemma free_mapped_last n root va s : range_ok va (Datatypes.S n) → free_mapped n root (u64 (va + PAGE_SIZE)) s = free_mapped n root (va + 4096) s.
Proof. destruct n as [|n]; [done|]. intros Hr. by rewrite (next_page va n). Qed.

(** What freeing pages does to references and to the pages themselves. *)
Definition dropped (fs : list Z) (s : S) (root : Z) (s' : S) : Prop :=
  (∀ m, pf_refs s' m = if decide (m ∈ fs) then drop_ref (pf_refs s m) else pf_refs s m) ∧
  ∀ m, off_tree s root m → pf_mem s' !! m = pf_mem s !! m.

(** One round of [free_mapped]. *)
Lemma free_one root va s : pm_ok s root → plain_va va → (∀ f, f ∈ frame1 (pte s root va) → foreign s root f) →
  ∃ s1, (∀ k : S → outcome S, ('(pPTE, s) ← MiGetPTEPointer root va false s;
      s ← match pPTE with None => Ok s | Some (p, i) => Pte ← ld_pte p i s;
        if MmIsFromPmmPte Pte then s ← pf_free (MmGetPfnPte Pte) s; st_pte p i MmBuildZeroPte s else Ok s end;
      k s) = k s1) ∧ pm_ok s1 root ∧ pte s1 root va = free1 <$> pte s root va ∧
    (∀ va', plain_va va' → slot va' ≠ slot va → pte s1 root va' = pte s root va') ∧
    (∀ path, in_tree path → node s1 root path = node s root path) ∧ dropped (frame1 (pte s root va)) s root s1 ∧ (no_large s root → no_large s1 root).
Proof.
  intros Hok Hva Hfr. pose proof (find_pte s root va Hok Hva) as Hf.
  assert (dropped [] s root s) as Hd0 by (split; [intros m; by rewrite decide_False by apply not_elem_of_nil|done]).
  destruct (pte s root va) as [e|] eqn:Hpte; cbn [frame1] in *.
  2: { exists s. split; [intros k; by rewrite Hf|]. by split_and!. }
  destruct Hf as (p & Hp & Hget & Hld). unfold free1. cbn [fmap option_fmap option_map].
  destruct (MmIsFromPmmPte e) eqn:He.
  - assert (foreign s root (MmGetPfnPte e)) as Hfor by (apply Hfr; by left).
    destruct (free_foreign s root (MmGetPfnPte e) Hok Hfor) as (s1 & Hs1 & Hok1 & Hm1 & Hn1 & Hr1).
    destruct (st_pte_wrote s1 root va 0 p Hok1 Hva) as (s2 & Hs2 & Hw); [by rewrite Hn1|lia|].
    assert (∀ va', pte s1 root va' = pte s root va') as Hpe by (intros va'; unfold pte, word_at; by rewrite Hn1, Hm1).
    exists s2. split; [intros k; rewrite Hget; cbn [mbind outcome_bind]; rewrite Hld; cbn [mbind outcome_bind]; rewrite He, Hs1;
      cbn [mbind outcome_bind]; unfold MmBuildZeroPte; by rewrite Hs2|].
    split; [apply (wr_ok _ _ _ _ _ Hw)|]. split; [by rewrite (wr_pte _ _ _ _ _ Hw), decide_True|].
    split; [intros va' Hva' Hne; by rewrite (wr_pte _ _ _ _ _ Hw), decide_False|].
    split; [intros path Ht; by rewrite (wr_node _ _ _ _ _ Hw), Hn1|].
    assert (no_large s root → no_large s1 root) as Hlg by (intros Hl path i t Ht; unfold word_at; rewrite Hn1, Hm1; by apply Hl).
    split; [|intros Hl; by apply (wr_large _ _ _ _ _ Hw), Hlg]. split.
    + intros m. rewrite (wr_refs _ _ _ _ _ Hw), Hr1. by rewrite (decide_ext (m ∈ [MmGetPfnPte e]) (m = MmGetPfnPte e) _ _ (list_elem_of_singleton m _)).
    + intros m Hm. rewrite (wr_mem _ _ _ _ _ Hw), Hm1; [done|]. by apply (off_tree_same s).
  - exists s. split; [intros k; rewrite Hget; cbn [mbind outcome_bind]; rewrite Hld; cbn [mbind outcome_bind]; by rewrite He|]. by split_and!.
Qed.

Lemma dropped_app fs gs s root s1 s2 : (∀ path, in_tree path → node s1 root path = node s root path) → NoDup (fs ++ gs) →
  dropped fs s root s1 → dropped gs s1 root s2 → dropped (fs ++ gs) s root s2.
Proof.
  intros Hn (_ & Hfg & _)%NoDup_app [R1 M1] [R2 M2]. split.
  - intros m. rewrite R2, R1. repeat case_decide; rewrite elem_of_app in *; naive_solver.
  - intros m Hm. rewrite M2, M1; [done|done|]. by apply (off_tree_same s).
Qed.

Lemma free_mapped_spec n : ∀ root va s, pm_ok s root → range_ok va n →
  NoDup (frames_of id s root va n) → (∀ f, f ∈ frames_of id s root va n → foreign s root f) →
  ∃ s', free_mapped n root va s = Ok s' ∧ swept free1 s root va n s' ∧ dropped (frames_of id s root va n) s root s'.
Proof.
  induction n as [|n IH]; intros root va s Hok Hr Hnd Hfr; cbn [free_mapped].
  { exists s. split; [done|]. split; [split; [done|lia|done|done|done]|]. split; [|done]. intros m. by rewrite decide_False by apply not_elem_of_nil. }
  cbn [frames_of] in *. rewrite option_fmap_id in *.  pose proof (range_next va n Hr) as Hr'.
  destruct (free_one root va s Hok (range_plain va n Hr)) as (s1 & Hs1 & Hok1 & Hp1 & Ho1 & Hn1 & Hd1 & Hlg1).
  { intros f Hf. apply Hfr, elem_of_app. by left. }
  rewrite Hs1, free_mapped_last by done.
  assert (frames_of id s1 root (va + 4096) n = frames_of id s root (va + 4096) n) as Hfs.
  { apply frames_of_ext; [done|]. intros i Hi. rewrite !option_fmap_id. f_equal. apply Ho1; [by apply (rg_plain _ _ Hr')|by apply slot_first with n]. }
  pose proof Hnd as (_ & Hdis & Hnd')%NoDup_app.
  destruct (IH root (va + 4096) s1 Hok1 Hr') as (s' & -> & Hsw & Hd); [by rewrite Hfs| |].
  { rewrite Hfs. intros f Hf. apply (foreign_same s); [apply Hfr, elem_of_app; by right| |done].
    rewrite (proj1 Hd1), decide_False by (intros E; by apply (Hdis f)). apply Hfr, elem_of_app. by right. }
  exists s'. split; [done|]. split; [by eapply swept_step|]. rewrite Hfs in Hd. by eapply dropped_app.
Qed.

Definition present_only (e : Z) : Z := if MmIsPresentPte e then e else 0.

(** What is left of an entry that was unmapped. *)
Definition unmapped (e : Z) : Z := if MmIsPresentPte e && negb (MmIsFromPmmPte e) then MmBuildWasPresentPte e else 0.

Lemma unset_frame e : MmIsFromPmmPte (unset e) = MmIsPresentPte e && MmIsFromPmmPte e ∧
  (MmIsPresentPte e = true → MmGetPfnPte (unset e) = MmGetPfnPte e).
Proof.
  unfold unset. destruct (MmIsPresentPte e) eqn:E; [|done]. split; [|intros _; apply was_present_pfn]. by apply was_present_spec.
Qed.

Lemma free_unset e : free1 (unset e) = unmapped e.
Proof.
  unfold free1. rewrite (proj1 (unset_frame e)). unfold unmapped, unset. by destruct (MmIsPresentPte e), (MmIsFromPmmPte e).
Qed.

Lemma frame1_unset o : frame1 (unset <$> o) = frame1 (present_only <$> o).
Proof.
  destruct o as [e|]; [|done]. cbn. destruct (unset_frame e) as [-> H2]. unfold present_only.
  destruct (MmIsPresentPte e); [by rewrite H2|done].
Qed.

Lemma MiUnmapPages_spec s root va n : pm_ok s root → range_ok va n →
  NoDup (frames_of present_only s root va n) → (∀ f, f ∈ frames_of present_only s root va n → foreign s root f) →
  ∃ s', MiUnmapPages root va (Z.of_nat n) s = Ok s' ∧ swept unmapped s root va n s' ∧ dropped (frames_of present_only s root va n) s root s'.
Proof.
  intros Hok Hr Hnd Hfor. unfold MiUnmapPages. rewrite Nat2Z.id.
  destruct (unset_present_spec n root va s Hok Hr) as (s1 & -> & Hsw1 & Hk1). cbn [mbind outcome_bind].
  assert (frames_of id s1 root va n = frames_of present_only s root va n) as Hfs.
  { apply frames_of_ext; [done|]. intros i Hi. by rewrite option_fmap_id, (sw_pte _ _ _ _ _ _ Hsw1), frame1_unset. }
  destruct (free_mapped_spec n root va s1 (sw_ok _ _ _ _ _ _ Hsw1) Hr) as (s' & -> & Hsw & Hd).
  { by rewrite Hfs. }
  { rewrite Hfs. intros f Hf. apply (others_foreign s); [done|by apply Hfor]. }
  exists s'. split; [done|]. split.
  - split; [apply (sw_ok _ _ _ _ _ _ Hsw)| | | |].
    + intros i Hi. rewrite (sw_pte _ _ _ _ _ _ Hsw), (sw_pte _ _ _ _ _ _ Hsw1) by done. destruct (pte s root _) as [e|]; [|done]. cbn. by rewrite free_unset.
    + intros va' Hva' Hne. by rewrite (sw_other _ _ _ _ _ _ Hsw), (sw_other _ _ _ _ _ _ Hsw1).
    + intros path Ht. by rewrite (sw_node _ _ _ _ _ _ Hsw), (sw_node _ _ _ _ _ _ Hsw1).
    + intros Hl. by apply (sw_large _ _ _ _ _ _ Hsw), (sw_large _ _ _ _ _ _ Hsw1).
  - rewrite Hfs in Hd. destruct Hd as [D1 D2], Hk1 as [K1 K2]. split; [intros m; by rewrite D1, K1|].
    intros m Hm. destruct (K2 m Hm) as [Hm1 <-]. by apply D2.
Qed.

(** ** Mapping ranges *)

(** The entry that an anonymous page is mapped with. *)
Definition anon_pte (NonPaged : bool) (Permissions f : Z) : Z :=
  if NonPaged then MmBuildPte f (Z.lor MM_MISC_IS_FROM_PMM Permissions) else MmBuildAbsentPte MM_PAGE_COMMITTED.

Definition kept_or_new (o o' : option Z) : Prop := match o with Some e => o' = Some e | None => o' = None ∨ o' = Some 0 end.

(** A frame that was not in use, and now is for something else than tables. *)
Record taken (s : S) (root : Z) (s' : S) (f : Z) : Prop := {
  tk_free : pf_refs s f = None;
  tk_used : pf_refs s' f = Some 1;
  tk_foreign : foreign s' root f;
  tk_range : 0 ≤ f < 2 ^ 20;
}.

Lemma alloc_taken s root q s1 : pm_ok s root → pf_alloc s = Ok (q, s1) → q ≠ PFN_INVALID →
  pm_ok s1 root ∧ (∀ path, in_tree path → node s1 root path = node s root path) ∧
  (∀ va, plain_va va → pte s1 root va = pte s root va) ∧ taken s root s1 q ∧ (∀ m, m ≠ q → pf_refs s1 m = pf_refs s m) ∧ (no_large s root → no_large s1 root).
Proof.
  intros Hok Hall Hq. pose proof (po_frames s root Hok) as Hpf.
  destruct (pf_alloc_mem s q s1 Hpf Hall Hq) as [b Hb]. pose proof (po_low s root Hok q ltac:(by eexists)) as Hlow.
  destruct (pf_alloc_spec s Hpf) as [E|(q' & s1' & E & Hpf1 & Hfr & Hf & Hu & Hz & Ho)]; rewrite Hall in E; [congruence|]. injection E as <- <-.
  assert (∀ path p, in_tree path → node s root path = Some p → p ≠ q) as Hne.
  { intros path p Ht Hp ->. destruct (po_pages s root Hok path q Ht Hp) as [Hr _]. congruence. }
  destruct (same_view s s1 root Hok Hpf1) as [Hok1 Hn1].
  - intros m Hm. destruct (decide (m = q)) as [->|Hmq]; [done|]. apply (po_low s root Hok). by rewrite <-(proj2 (Ho m Hmq)).
  - intros path p Ht Hp. pose proof (Hne path p Ht Hp) as Hpq. destruct (Ho p Hpq) as [Ho1 Ho2].
    destruct (po_pages s root Hok path p Ht Hp) as [Hr Hpg]. split; [split; [by rewrite Ho1|by rewrite Ho2]|].
    intros i _. unfold word_at. by rewrite Ho2.
  - split; [done|]. split; [done|]. split; [|split; [split; [done|done| |split; [apply Hfr|done]]|split; [intros m Hm; by apply Ho|]]].
    + intros va Hva. pose proof (path_in_tree va Hva) as Ht. unfold pte, word_at. rewrite Hn1 by done.
      destruct (node s root (path_of va)) as [p|] eqn:Hp; [|done]. by rewrite (proj2 (Ho p (Hne _ _ Ht Hp))).
    + split; [by eexists|]. intros path Ht. rewrite Hn1 by done. intros Hp. by apply (Hne path q).
    + intros Hlg path i p Ht. pose proof (pm_in_tree_prefix _ _ Ht) as Hpt. rewrite Hn1 by done. intros Hp. unfold word_at.
      rewrite (proj2 (Ho p (Hne _ _ Hpt Hp))). by apply (Hlg path).
Qed.

(** One page is mapped, or there is no memory. *)
Lemma map_single_spec s root va Permissions NonPaged p : pm_ok s root → plain_va va → node s root (path_of va) = Some p →
  (∃ f s', MmpMapSingleAnonPageAtPte (Some (p, PML_IDX 1 va)) Permissions NonPaged s = Ok (true, s') ∧ pm_ok s' root ∧
    (∀ va', plain_va va' → pte s' root va' = if decide (slot va' = slot va) then Some (anon_pte NonPaged Permissions f) else pte s root va') ∧
    (∀ path, in_tree path → node s' root path = node s root path) ∧
    (NonPaged = true → taken s root s' f) ∧ (∀ m, (NonPaged = true → m ≠ f) → pf_refs s' m = pf_refs s m) ∧ (no_large s root → no_large s' root)) ∨
  (MmpMapSingleAnonPageAtPte (Some (p, PML_IDX 1 va)) Permissions NonPaged s = Ok (false, s) ∧ pf_alloc s = Ok (PFN_INVALID, s)).
Proof.
  intros Hok Hva Hp. unfold MmpMapSingleAnonPageAtPte. destruct NonPaged.
  - destruct (pf_alloc s) as [[q s1]| |] eqn:Hall;
      [|by destruct (pf_alloc_spec s (po_frames s root Hok)) as [E|(? & ? & E & _)]; congruence..].
    cbn [mbind outcome_bind]. destruct (Z.eqb_spec q PFN_INVALID) as [->|Hqv].
    { right. destruct (pf_alloc_spec s (po_frames s root Hok)) as [E|(q & s1' & E & _ & Hf & _)]; rewrite Hall in E; [by injection E as ->|].
      injection E as <- <-. by apply frame_valid in Hf. }
    left. destruct (alloc_taken s root q s1 Hok Hall Hqv) as (Hok1 & Hn1 & Hp1 & Htk & Hr1 & Hlg1).
    destruct (st_pte_wrote s1 root va (anon_pte true Permissions q) p Hok1 Hva) as (s' & Hs' & Hw); [rewrite Hn1; [done|by apply path_in_tree]|apply MmBuildPte_range|].
    exists q, s'. cbn [anon_pte] in Hs'. rewrite Hs'. cbn [mbind outcome_bind]. split; [done|]. split; [apply (wr_ok _ _ _ _ _ Hw)|].
    split; [intros va' Hva'; by rewrite (wr_pte _ _ _ _ _ Hw), Hp1|].
    split; [intros path Ht; by rewrite (wr_node _ _ _ _ _ Hw), Hn1|]. split.
    + intros _. destruct Htk as [T1 T2 T3 T4]. split; [done|by rewrite (wr_refs _ _ _ _ _ Hw)| |done].
      by apply (others_foreign s1); [apply wrote_others in Hw|].
    + split; [intros m Hm; rewrite (wr_refs _ _ _ _ _ Hw); by apply Hr1, Hm|]. intros Hl. by apply (wr_large _ _ _ _ _ Hw), Hlg1.
  - left. destruct (st_pte_wrote s root va (anon_pte false Permissions 0) p Hok Hva Hp) as (s' & Hs' & Hw); [done|].
    exists 0, s'. cbn [anon_pte] in Hs'. rewrite Hs'. cbn [mbind outcome_bind]. split; [done|]. split; [apply (wr_ok _ _ _ _ _ Hw)|].
    split; [apply (wr_pte _ _ _ _ _ Hw)|]. split; [apply (wr_node _ _ _ _ _ Hw)|]. split; [done|].
    split; [intros m _; apply (wr_refs _ _ _ _ _ Hw)|apply (wr_large _ _ _ _ _ Hw)].
Qed.

(** The pages from [va] on were mapped, to the frames [fs]; nothing else was
    but tables for them. *)
Record mapped_with (NonPaged : bool) (Permissions : Z) (s : S) (root va : Z) (fs : list Z) (s' : S) : Prop := {
  mw_ok : pm_ok s' root;
  mw_pte i f : fs !! i = Some f → pte s' root (nth_page va i) = Some (anon_pte NonPaged Permissions f);
  mw_other va' : plain_va va' → (∀ i, (i < length fs)%nat → slot va' ≠ slot (nth_page va i)) → kept_or_new (pte s root va') (pte s' root va');
  mw_refs m r : pf_refs s m = Some r → pf_refs s' m = Some r;
  mw_fresh f : NonPaged = true → f ∈ fs → taken s root s' f;
  mw_nodup : NonPaged = true → NoDup fs;
  mw_foreign m : foreign s root m → foreign s' root m;
  mw_large : no_large s root → no_large s' root;
}.

Lemma kept_or_new_trans a b c : kept_or_new a b → kept_or_new b c → kept_or_new a c.
Proof. destruct a; cbn; [by intros ->|]. intros [->| ->]; [done|]. cbn. by right. Qed.

Lemma kept_mapped s root s1 b P va fs s' : kept s root s1 → mapped_with b P s1 root va fs s' → mapped_with b P s root va fs s'.
Proof.
  intros Hk [M1 M2 M3 M4 M5 M6 M7 M8]. split; [done|done| | | |done| |].
  - intros va' Hva' Hne. eapply kept_or_new_trans; [by apply (kept_pte s root s1)|by apply M3].
  - intros m r Hm. by apply M4, (kp_refs s root s1 Hk).
  - intros f Hb Hf. destruct (M5 f Hb Hf) as [T1 T2 T3 T4]. split; [|done..].
    destruct (pf_refs s f) as [r|] eqn:E; [|done]. apply (kp_refs s root s1 Hk) in E. congruence.
  - intros m Hm. by apply M7, (kp_mem s root s1 Hk).
  - intros Hl. by apply M8, (kp_large s root s1 Hk).
Qed.

Lemma mapped_nil b P s root va : pm_ok s root → mapped_with b P s root va [] s.
Proof.
  intros Hok. split; [done|done| |done| |constructor|done|done].
  - intros va' _ _. destruct (pte s root va'); [done|by left].
  - intros f _ []%elem_of_nil.
Qed.

Lemma next_slot va : plain_va va → PML_IDX 1 va ≠ 511 → path_of (va + 4096) = path_of va ∧ PML_IDX 1 (va + 4096) = PML_IDX 1 va + 1.
Proof.
  intros _. unfold path_of. rewrite !PML_IDX_page. replace (va + 4096) with (1 * 4096 + va) by lia. rewrite Z.div_add_l by lia.
  cbn [Z.of_nat]. rewrite Z.pow_0_r, !Z.div_1_r. set (x := va / 4096). intros Hx.
  assert ((1 + x) / 512 = x / 512) as E.
  { pose proof (Z.div_mod x 512). pose proof (Z.mod_pos_bound x 512). symmetry. apply (Z.div_unique _ _ _ (x mod 512 + 1)); lia. }
  split.
  - change (512 ^ Z.of_nat 1) with 512. change (512 ^ Z.of_nat 2) with (512 * 512). change (512 ^ Z.of_nat 3) with (512 * (512 * 512)).
    rewrite <-!Z.div_div, E by lia. done.
  - pose proof (Z.div_mod (1 + x) 512). pose proof (Z.div_mod x 512). lia.
Qed.

Lemma mapped_cons b P s root va f s1 fs s' n : range_ok va (Datatypes.S n) → (length fs ≤ n)%nat →
  (∀ va', plain_va va' → pte s1 root va' = if decide (slot va' = slot va) then Some (anon_pte b P f) else pte s root va') →
  (∀ path, in_tree path → node s1 root path = node s root path) →
  (b = true → taken s root s1 f) → (∀ m, (b = true → m ≠ f) → pf_refs s1 m = pf_refs s m) → (no_large s root → no_large s1 root) →
  mapped_with b P s1 root (va + 4096) fs s' → mapped_with b P s root va (f :: fs) s'.
Proof.
  intros Hr Hlen Hp1 Hn1 Hf Hr1 Hlg [M1 M2 M3 M4 M5 M6 M7 M8]. pose proof (range_next va n Hr) as Hr'. pose proof (range_plain va n Hr) as Hva.
  assert (∀ m r, pf_refs s m = Some r → pf_refs s1 m = Some r) as Hk.
  { intros m r Hm. rewrite Hr1; [done|]. intros Hb ->. pose proof (tk_free _ _ _ _ (Hf Hb)). congruence. }
  split; [done| | | | | | |].
  - intros [|i] g Hg.
    + injection Hg as ->. rewrite nth_page_0. specialize (M3 va Hva). rewrite Hp1 in M3 by exact Hva. rewrite decide_True in M3 by reflexivity. apply M3.
      intros i Hi E. apply (slot_first va n i Hr); [lia|done].
    + rewrite <-nth_page_S. by apply M2.
  - intros va' Hva' Hne. cbn [length] in Hne. specialize (M3 va' Hva'). rewrite Hp1 in M3 by exact Hva'.
    assert (slot va' ≠ slot va) as Hne0 by (rewrite <-(nth_page_0 va); apply Hne; lia).
    rewrite decide_False in M3 by exact Hne0. apply M3. intros i Hi. rewrite nth_page_S. apply Hne. lia.
  - intros m r Hm. by apply M4, Hk.
  - intros g Hb [->|Hg]%elem_of_cons.
    + destruct (Hf Hb) as [T1 T2 T3 T4]. split; [done|by apply M4|by apply M7|done].
    + destruct (M5 g Hb Hg) as [T1 T2 T3 T4]. split; [|done..]. destruct (pf_refs s g) as [r|] eqn:E; [|done]. apply Hk in E. congruence.
  - intros Hb. constructor; [|by apply M6]. intros Hg. pose proof (tk_free _ _ _ _ (M5 f Hb Hg)). pose proof (tk_used _ _ _ _ (Hf Hb)). congruence.
  - intros m [[r Hm] Ho]. apply M7. split; [exists r; by apply Hk|]. by apply (off_tree_same s).
  - intros Hl. by apply M8, Hlg.
Qed.

Definition pte_at (s : S) (root va : Z) (PtePtr : option (Z * Z)) : Prop :=
  match PtePtr with Some (p, i) => i = PML_IDX 1 va ∧ node s root (path_of va) = Some p | None => True end.

(** The pointer for the next round: one further, or looked up again. *)
Lemma next_pointer s root va PtePtr cur n : pm_ok s root → range_ok va (Datatypes.S (Datatypes.S n)) → pte_at s root va PtePtr → cur mod 512 = PML_IDX 1 va →
  ∃ ptr s1, (if (cur + 1) mod 512 =? 0 then MiGetPTEPointer root (va + 4096) true s else Ok ((λ '(p, i), (p, i + 1)) <$> PtePtr, s)) = Ok (ptr, s1) ∧
    kept s root s1 ∧ pte_at s1 root (va + 4096) ptr ∧ (cur + 1) mod 512 = PML_IDX 1 (va + 4096).
Proof.
  intros Hok Hr Hptr Hcur. pose proof (range_plain va _ Hr) as Hva. pose proof (range_plain _ _ (range_next va _ Hr)) as Hva'.
  assert ((cur + 1) mod 512 = PML_IDX 1 (va + 4096)) as Hc.
  { rewrite PML_IDX_page in *. cbn [Z.of_nat] in *. rewrite Z.pow_0_r, Z.div_1_r in *. replace (va + 4096) with (va + 1 * 4096) by lia.
    rewrite Z.div_add, Z.add_mod, Hcur, <-Z.add_mod by lia. done. }
  destruct (Z.eqb_spec ((cur + 1) mod 512) 0) as [E|E].
  - destruct (MiGetPTEPointer_spec s root (va + 4096) true Hok Hva') as (r & s1 & Hs1 & Hk & Hres & _). exists r, s1. split; [done|].
    split; [done|]. split; [|done]. by destruct r as [[p i]|].
  - assert (PML_IDX 1 va ≠ 511) as Hne.
    { intros E'. rewrite <-Hcur in E'. pose proof (Z.div_mod cur 512). apply E. replace (cur + 1) with ((cur / 512 + 1) * 512) by lia. apply Z.mod_mul. lia. }
    destruct (next_slot va Hva Hne) as [H1 H2]. eexists _, s. split; [done|]. split; [by apply kept_refl|]. split; [|done].
    destruct PtePtr as [[p i]|]; [|done]. cbn [fmap option_fmap option_map pte_at]. rewrite H1, H2. by destruct Hptr as [-> ?].
Qed.

Lemma map_anon_spec Permissions NonPaged root n : ∀ va s PtePtr cur done, pm_ok s root → range_ok va (Datatypes.S n) →
  pte_at s root va PtePtr → cur mod 512 = PML_IDX 1 va →
  ∃ r fs s', map_anon n root va Permissions NonPaged PtePtr cur done s = Ok (r, s') ∧ mapped_with NonPaged Permissions s root va fs s' ∧
    match r with
    | None => length fs = n
    | Some (a, d) => (length fs < n)%nat ∧ a = nth_page va (length fs) ∧ d = done + Z.of_nat (length fs)
    end.
Proof.
  induction n as [|n IH]; intros va s PtePtr cur dn Hok Hr Hptr Hcur; cbn [map_anon].
  { exists None, [], s. split_and!; [done|by apply mapped_nil|done]. }
  pose proof (range_plain va _ Hr) as Hva.
  destruct PtePtr as [[p i]|].
  2: { exists (Some (va, dn)), [], s. split; [done|]. split; [by apply mapped_nil|]. cbn. rewrite nth_page_0. split_and!; [lia|done|lia]. }
  destruct Hptr as [-> Hp].
  destruct (map_single_spec s root va Permissions NonPaged p Hok Hva Hp) as [(f & s1 & -> & Hok1 & Hp1 & Hn1 & Hf & Hr1 & Hlg1)|[-> _]]; cbn [mbind outcome_bind negb].
  2: { exists (Some (va, dn)), [], s. split; [done|]. split; [by apply mapped_nil|]. cbn. rewrite nth_page_0. split_and!; [lia|done|lia]. }
  rewrite (next_page va n Hr).
  destruct (next_pointer s1 root va (Some (p, PML_IDX 1 va)) cur n Hok1 Hr) as (ptr & s2 & Hs2 & Hk & Hat & Hc); [split; [done|]; rewrite Hn1; [done|by apply path_in_tree]|done|].
  cbn [fmap option_fmap option_map] in Hs2 |- *. rewrite Hs2. cbn [mbind outcome_bind].
  destruct (IH (va + 4096) s2 ptr (cur + 1) (dn + 1) (kp_ok s1 root s2 Hk) (range_next va _ Hr) Hat Hc) as (r & fs & s' & -> & Hm & Hres).
  exists r, (f :: fs), s'. split; [done|]. assert (length fs ≤ n)%nat as Hlen by (destruct r as [[a d]|]; lia). split.
  - eapply mapped_cons; [|done|done|done|done|done|done|by eapply kept_mapped].
    destruct Hr as [R1 R2 R3 R4]. split; [lia|lia|lia|]. intros j Hj. apply R4. lia.
  - destruct r as [[a d]|]; cbn [length]; [|lia]. rewrite <-nth_page_S. split_and!; [lia|apply Hres|lia].
Qed.

(** An entry that maps nothing and remembers nothing. *)
Definition blank (o : option Z) : Prop := o = None ∨ o = Some 0.

Lemma frames_of_blank g s root va n : g 0 = 0 → (∀ i, (i < n)%nat → blank (pte s root (nth_page va i))) → frames_of g s root va n = [].
Proof.
  intros Hg. revert va. induction n as [|n IH]; intros va Hb; [done|]. cbn [frames_of]. rewrite IH.
  - specialize (Hb 0%nat ltac:(lia)). rewrite nth_page_0 in Hb. destruct Hb as [-> | ->]; [done|]. cbn. by rewrite Hg.
  - intros i Hi. rewrite nth_page_S. apply Hb. lia.
Qed.

Lemma range_sub va n k m : range_ok va n → (k + m ≤ n)%nat → range_ok (nth_page va k) m.
Proof.
  intros [R1 R2 R3 R4] Hk. split; [unfold nth_page; lia|unfold nth_page; lia|lia|]. intros i Hi.
  replace (nth_page (nth_page va k) i) with (nth_page va (k + i)) by (unfold nth_page; lia). apply R4. lia.
Qed.

(** Unmapping pages that nothing is mapped at changes nothing. *)
Lemma unmap_blank b P s0 root va0 fs s va n : mapped_with b P s0 root va0 fs s → range_ok va0 (length fs) → range_ok va n →
  (∀ i, (i < n)%nat → blank (pte s root (nth_page va i))) →
  ∃ s', MiUnmapPages root va (Z.of_nat n) s = Ok s' ∧ mapped_with b P s0 root va0 fs s' ∧ ∀ va', plain_va va' → pte s' root va' = pte s root va'.
Proof.
  intros [M1 M2 M3 M4 M5 M6 M7 M8] Hr0 Hr Hb. pose proof (frames_of_blank present_only s root va n eq_refl Hb) as Hfs.
  destruct (MiUnmapPages_spec s root va n M1 Hr) as (s' & Hs' & Hsw & Hd); [rewrite Hfs; constructor|rewrite Hfs; by intros f []%elem_of_nil|].
  rewrite Hfs in Hd. exists s'. split; [exact Hs'|].
  assert (∀ va', plain_va va' → pte s' root va' = pte s root va') as Hp.
  { intros va' Hva'. destruct (decide (Exists (λ i, slot va' = slot (nth_page va i)) (seq 0 n))) as [Hex|Hno].
    - apply Exists_exists in Hex as (i & Hi%elem_of_seq & E). assert (pte s' root va' = pte s' root (nth_page va i) ∧ pte s root va' = pte s root (nth_page va i)) as [-> ->].
      { unfold pte. unfold slot in E. injection E as E1 E2 E3 E4. unfold path_of. by rewrite E1, E2, E3, E4. }
      rewrite (sw_pte _ _ _ _ _ _ Hsw) by lia. by destruct (Hb i ltac:(lia)) as [-> | ->].
    - apply (sw_other _ _ _ _ _ _ Hsw); [exact Hva'|]. intros i Hi E. apply Hno, Exists_exists. exists i. split; [apply elem_of_seq; lia|exact E]. }
  assert (∀ m, pf_refs s' m = pf_refs s m) as Hrefs by (intros m; rewrite (proj1 Hd), decide_False; [done|by intros ?%elem_of_nil]).
  assert (∀ m, foreign s root m → foreign s' root m) as Hf.
  { intros m [Hm1 Hm2]. split; [by rewrite Hrefs|]. by apply (off_tree_same s); [apply (sw_node _ _ _ _ _ _ Hsw)|]. }
  split; [|exact Hp]. split.
  - apply (sw_ok _ _ _ _ _ _ Hsw).
  - intros i f Hi. rewrite Hp; [by apply M2|]. apply (rg_plain _ _ Hr0). by eapply lookup_lt_Some.
  - intros va' Hva'. rewrite Hp by exact Hva'. by apply M3.
  - intros m r Hm. rewrite Hrefs. by apply M4.
  - intros f Hb' Hf'. destruct (M5 f Hb' Hf') as [T1 T2 T3 T4]. split; [done|by rewrite Hrefs|by apply Hf|done].
  - done.
  - intros m Hm. by apply Hf, M7.
  - intros Hl. by apply (sw_large _ _ _ _ _ _ Hsw), M8.
Qed.

Lemma mapped_blank b P s root va n fs s' : mapped_with b P s root va fs s' → range_ok va n → (length fs ≤ n)%nat →
  (∀ i, (i < n)%nat → blank (pte s root (nth_page va i))) → ∀ i, (length fs ≤ i < n)%nat → blank (pte s' root (nth_page va i)).
Proof.
  intros Hm Hr Hl Hb i Hi. pose proof (mw_other _ _ _ _ _ _ _ Hm (nth_page va i) ltac:(by apply (rg_plain _ _ Hr); lia)) as Hk.
  unfold kept_or_new in Hk. destruct (Hb i ltac:(lia)) as [E|E]; rewrite E in Hk; [apply Hk|right; apply Hk];
    intros j Hj E'; apply (slot_nth va n) in E'; solve [done|lia].
Qed.

Lemma MiMapAnonPages_spec s root va n Permissions NonPaged : pm_ok s root → range_ok va (Datatypes.S (n + n)) →
  (∀ i, (i < n + n)%nat → blank (pte s root (nth_page va i))) →
  ∃ ok fs s', MiMapAnonPages root va (Z.of_nat n) Permissions NonPaged s = Ok (ok, s') ∧ mapped_with NonPaged Permissions s root va fs s' ∧
    if (ok : bool) then length fs = n else (length fs < n)%nat.
Proof.
  intros Hok Hr Hb. pose proof (range_plain va _ Hr) as Hva. unfold MiMapAnonPages. rewrite Nat2Z.id.
  destruct (MiGetPTEPointer_spec s root va true Hok Hva) as (ptr & s1 & -> & Hk & Hptr & _). cbn [mbind outcome_bind].
  assert (range_ok va (Datatypes.S n)) as Hr1.
  { replace va with (nth_page va 0) by apply nth_page_0. apply (range_sub va _ 0 _ Hr). lia. }
  destruct (map_anon_spec Permissions NonPaged root n va s1 ptr (PML_IDX 1 va) 0 (kp_ok _ _ _ Hk) Hr1) as (r & fs & s2 & -> & Hm & Hres);
    [by destruct ptr as [[p i]|]|apply Z.mod_small, digit_PML|]. cbn [mbind outcome_bind].
  apply (kept_mapped s root s1) in Hm; [|done]. destruct r as [[a d]|].
  - destruct Hres as (Hlt & -> & ->). replace (0 + Z.of_nat (length fs)) with (Z.of_nat (length fs)) by lia.
    assert (range_ok va (n + n)) as Hr2.
    { replace va with (nth_page va 0) by apply nth_page_0. apply (range_sub va _ 0 _ Hr). lia. }
    destruct (unmap_blank NonPaged Permissions s root va fs s2 (nth_page va (length fs)) (length fs) Hm) as (s' & -> & Hm' & _).
    + replace va with (nth_page va 0) by apply nth_page_0. apply (range_sub va _ 0 _ Hr). lia.
    + apply (range_sub va _ _ _ Hr2). lia.
    + intros i Hi. replace (nth_page (nth_page va (length fs)) i) with (nth_page va (length fs + i)) by (unfold nth_page; lia).
      apply (mapped_blank NonPaged Permissions s root va (n + n) fs s2 Hm Hr2); [lia|exact Hb|lia].
    + exists false, fs, s'. split_and!; [done|done|lia].
  - exists true, fs, s2. split_and!; [done|done|exact Hres].
Qed.

(** C22: Mapping anonymous pages: either all pages are mapped, each to a frame
    of its own that nothing else uses (or marked as committed, when they may be
    paged), or the answer is [false]; everything else stays as it was but for new
    tables.  When it fails after some pages, those stay mapped and their frames
    stay taken: the pages unmapped are the ones after them. *)
Theorem MiMapAnonPages_correct s root va n Permissions NonPaged : pm_ok s root → range_ok va (Datatypes.S (n + n)) →
  (∀ i, (i < n + n)%nat → blank (pte s root (nth_page va i))) →
  ∃ ok fs s', MiMapAnonPages root va (Z.of_nat n) Permissions NonPaged s = Ok (ok, s') ∧ mapped_with NonPaged Permissions s root va fs s' ∧
    if (ok : bool) then length fs = n else (length fs < n)%nat.
Proof. apply MiMapAnonPages_spec. Qed.

Lemma anon_frame P f : 0 ≤ f < 2 ^ 20 → MmIsPresentPte (anon_pte true P f) = true ∧ MmIsFromPmmPte (anon_pte true P f) = true ∧ MmGetPfnPte (anon_pte true P f) = f.
Proof.
  intros Hf. unfold anon_pte. destruct (build_pte_at f (Z.lor MM_MISC_IS_FROM_PMM P)) as (B0 & _ & _ & _ & _ & _ & _ & _ & B9 & _).
  assert (MmIsPresentPte (MmBuildPte f (Z.lor MM_MISC_IS_FROM_PMM P)) = true) as Hp by (pte_bit; exact B0).
  split; [exact Hp|]. split; [|rewrite MmGetPfnPte_build by lia; by apply Z.mod_small].
  unfold MmIsFromPmmPte. rewrite Hp. cbn [orb andb]. pte_bit. rewrite B9, Z.lor_spec. done.
Qed.

Lemma mapped_frames P s root fs : ∀ va n s', length fs = n → (∀ i f, fs !! i = Some f → pte s' root (nth_page va i) = Some (anon_pte true P f)) →
  (∀ f, f ∈ fs → taken s root s' f) → frames_of present_only s' root va n = fs.
Proof.
  induction fs as [|f fs IH]; intros va n s' <- Hp Ht; [done|]. cbn [length frames_of]. rewrite IH; [|done| |].
  - specialize (Hp 0%nat f eq_refl). rewrite nth_page_0 in Hp. rewrite Hp. destruct (anon_frame P f) as (H1 & H2 & H3).
    { apply (tk_range s root s'), Ht. by left. }
    cbn [fmap option_fmap option_map frame1]. unfold present_only. by rewrite H1, H2, H3.
  - intros i g Hg. rewrite nth_page_S. by apply Hp.
  - intros g Hg. apply Ht. by right.
Qed.

(** C23: Mapping pages that are not paged and unmapping them: no page of the
    range is mapped then, every frame is free again and no other reference
    changed. *)
Theorem MiUnmapPages_gives_back s root va n Permissions s1 : pm_ok s root → range_ok va (Datatypes.S (n + n)) →
  (∀ i, (i < n + n)%nat → blank (pte s root (nth_page va i))) →
  MiMapAnonPages root va (Z.of_nat n) Permissions true s = Ok (true, s1) →
  ∃ fs s', length fs = n ∧ NoDup fs ∧ (∀ f, f ∈ fs → pf_refs s f = None ∧ pf_refs s1 f = Some 1 ∧ pf_refs s' f = None) ∧
    MiUnmapPages root va (Z.of_nat n) s1 = Ok s' ∧ pm_ok s' root ∧
    (∀ i, (i < n)%nat → pte s' root (nth_page va i) = Some 0) ∧
    (∀ va', plain_va va' → (∀ i, (i < n)%nat → slot va' ≠ slot (nth_page va i)) → pte s' root va' = pte s1 root va') ∧
    ∀ m, m ∉ fs → pf_refs s' m = pf_refs s1 m.
Proof.
  intros Hok Hr Hb Hmap. destruct (MiMapAnonPages_spec s root va n Permissions true Hok Hr Hb) as (ok & fs & s1' & E & Hm & Hlen).
  rewrite Hmap in E. injection E as <- <-. destruct Hm as [M1 M2 M3 M4 M5 M6 M7 M8]. specialize (M6 eq_refl).
  assert (frames_of present_only s1 root va n = fs) as Hfs by (apply (mapped_frames Permissions s root); auto).
  assert (range_ok va n) as Hrn by (rewrite <-(nth_page_0 va); apply (range_sub va _ 0 _ Hr); lia).
  destruct (MiUnmapPages_spec s1 root va n M1 Hrn) as (s' & Hs' & Hsw & Hd); rewrite ?Hfs; [done|intros f Hf; by apply (tk_foreign s), M5|].
  rewrite Hfs in Hd. destruct Hd as [D1 _]. exists fs, s'. split; [exact Hlen|]. split; [exact M6|]. split.
  { intros f Hf. pose proof (M5 f eq_refl Hf) as [T1 T2 _ _]. split; [exact T1|]. split; [exact T2|]. by rewrite D1, decide_True, T2. }
  split; [exact Hs'|]. split; [apply (sw_ok _ _ _ _ _ _ Hsw)|]. split; [|split; [apply (sw_other _ _ _ _ _ _ Hsw)|]].
  - intros i Hi. destruct (lookup_lt_is_Some_2 fs i ltac:(lia)) as [f Hf]. rewrite (sw_pte _ _ _ _ _ _ Hsw) by exact Hi. rewrite (M2 i f Hf).
    destruct (anon_frame Permissions f) as (H1 & H2 & _); [apply (tk_range s root s1), M5; [done|by eapply list_elem_of_lookup_2]|].
    cbn [fmap option_fmap option_map]. unfold unmapped. by rewrite H1, H2.
  - intros m Hm. by rewrite D1, decide_False.
Qed.

(** Unmapping a range: a page that came from the physical memory manager
    is no longer mapped and loses the reference of the map; what was absent is
    forgotten; any other page stays as it was, with its present bit set, and is
    only marked as having been present. *)
Theorem MiUnmapPages_correct s root va n : pm_ok s root → range_ok va n →
  NoDup (frames_of present_only s root va n) → (∀ f, f ∈ frames_of present_only s root va n → foreign s root f) →
  ∃ s', MiUnmapPages root va (Z.of_nat n) s = Ok s' ∧ pm_ok s' root ∧
    (∀ i, (i < n)%nat → pte s' root (nth_page va i) =
       (λ e, if MmIsPresentPte e && negb (MmIsFromPmmPte e) then MmBuildWasPresentPte e else 0) <$> pte s root (nth_page va i)) ∧
    (∀ va', plain_va va' → (∀ i, (i < n)%nat → slot va' ≠ slot (nth_page va i)) → pte s' root va' = pte s root va') ∧
    ∀ m, pf_refs s' m = if decide (m ∈ frames_of present_only s root va n) then drop_ref (pf_refs s m) else pf_refs s m.
Proof.
  intros Hok Hr Hnd Hf. destruct (MiUnmapPages_spec s root va n Hok Hr Hnd Hf) as (s' & Hs' & [W1 W2 W3 _ _] & [D1 _]).
  exists s'. by split_and!.
Qed.

(** ** Which tables go *)

Lemma unused_entries_spec s p n : ∀ i, good_page s p → 0 ≤ i → i + Z.of_nat n ≤ 512 →
  ∃ r, unused_entries n p i s = Ok r ∧ (r = true ↔ ∀ j, i ≤ j < i + Z.of_nat n → word_at s p j ≠ 0).
Proof.
  induction n as [|n IH]; intros i Hg Hi Hn; cbn [unused_entries].
  { exists true. split; [done|]. split; [lia|done]. }
  rewrite (good_ld s p i Hg) by (unfold digit; lia). cbn [mbind outcome_bind]. unfold MmIsEqualPte, MmBuildZeroPte.
  destruct (Z.eqb_spec (word_at s p i) 0) as [E|E].
  - rewrite E. change (MmIsDecommittedPte 0) with false. exists false. split; [done|]. split; [done|]. intros Hall. destruct (Hall i); [lia|exact E].
  - destruct (IH (i + 1) Hg ltac:(lia) ltac:(lia)) as (r & -> & Hr). exists r. split; [done|]. rewrite Hr. split; intros Hall j Hj.
    + destruct (decide (j = i)) as [->|]; [exact E|]. apply Hall. lia.
    + apply Hall. lia.
Qed.

Lemma empty_list_spec s p n : ∀ i, good_page s p → 0 ≤ i → i + Z.of_nat n ≤ 512 →
  ∃ r, MmpIsPteListCompletelyEmpty n p i s = Ok r ∧ (r = true ↔ ∀ j, i ≤ j < i + Z.of_nat n → word_at s p j = 0).
Proof.
  induction n as [|n IH]; intros i Hg Hi Hn; cbn [MmpIsPteListCompletelyEmpty].
  { exists true. split; [done|]. split; [lia|done]. }
  rewrite (good_ld s p i Hg) by (unfold digit; lia). cbn [mbind outcome_bind]. unfold MmIsEqualPte, MmBuildZeroPte.
  destruct (Z.eqb_spec (word_at s p i) 0) as [E|E]; cbn [negb].
  - destruct (IH (i + 1) Hg ltac:(lia) ltac:(lia)) as (r & -> & Hr). exists r. split; [done|]. rewrite Hr. split; intros Hall j Hj.
    + destruct (decide (j = i)) as [->|]; [exact E|]. apply Hall. lia.
    + apply Hall. lia.
  - exists false. split; [done|]. split; [done|]. intros Hall. destruct E. apply Hall. lia.
Qed.

(** A last-level table may be freed exactly when it is completely full:
    one entry that maps nothing makes the level count as busy. *)
Theorem last_level_freed_when_full s root path p : pm_ok s root → in_tree path → node s root path = Some p →
  ∃ r, MmpFreeUnusedMappingLevelsInCurrentMapPML 1 p s = Ok (r, s) ∧ (r = true ↔ ∀ j, 0 ≤ j < 512 → word_at s p j ≠ 0).
Proof.
  intros Hok Ht Hp. destruct (unused_entries_spec s p 512 0) as (r & Hr & Hi); [by apply (po_pages s root Hok path)|lia|lia|].
  exists r. split; [|exact Hi]. cbn [MmpFreeUnusedMappingLevelsInCurrentMapPML]. by rewrite Hr.
Qed.

(** Through the recursive entry the same table is found as by the walk. *)
Lemma check_levels_spec s root va : pm_ok s root → plain_va va → ¬ blocked s root va →
  check_levels 4 va root s = Ok (node s root (path_of va)).
Proof.
  intros Hok Hva Hnb. pose proof (path_in_tree va Hva) as Ht.
  assert (∀ pre i rest p, path_of va = pre ++ i :: rest → node s root pre = Some p →
    ld_pte p i s = Ok (word_at s p i) ∧ (MmIsPresentPte (word_at s p i) = true → node s root (pre ++ [i]) = Some (MmGetPfnPte (word_at s p i))) ∧
    (MmIsPresentPte (word_at s p i) = false → node s root (path_of va) = None)) as Hstep.
  { intros pre i rest p E Hp. assert (in_tree (pre ++ [i])) as Hti by (rewrite E, cons_middle, app_assoc in Ht; by eapply pm_in_tree_prefix).
    destruct (pm_in_tree_last _ _ Hti) as [Hi _]. pose proof (pm_in_tree_prefix _ _ Hti) as Hpre.
    split; [apply good_ld; [by apply (po_pages s root Hok pre)|exact Hi]|]. split.
    - intros Hpr. rewrite pm_node_snoc, Hp, leads_to_present by exact Hpr. destruct (MmIsUnsupportedHigherLevelPte _) eqn:Hh; [|done].
      destruct Hnb. by exists pre, i, rest, p.
    - intros Hpr. rewrite E, cons_middle, app_assoc. apply node_none. by rewrite pm_node_snoc, Hp, leads_to_absent. }
  cbn [check_levels].
  destruct (Hstep [] (PML_IDX 4 va) [PML_IDX 3 va; PML_IDX 2 va] root eq_refl eq_refl) as (-> & Hy & Hn). cbn [mbind outcome_bind].
  destruct (MmIsPresentPte _) eqn:E4; [specialize (Hy eq_refl); clear Hn|by rewrite Hn].
  destruct (Hstep [PML_IDX 4 va] (PML_IDX 3 va) [PML_IDX 2 va] _ eq_refl Hy) as (-> & Hy3 & Hn). cbn [mbind outcome_bind].
  destruct (MmIsPresentPte (word_at s (MmGetPfnPte _) (PML_IDX 3 va))) eqn:E3; [specialize (Hy3 eq_refl); clear Hn|by rewrite Hn].
  destruct (Hstep [PML_IDX 4 va; PML_IDX 3 va] (PML_IDX 2 va) [] _ eq_refl Hy3) as (-> & Hy2 & Hn). cbn [mbind outcome_bind].
  destruct (MmIsPresentPte (word_at s (MmGetPfnPte _) (PML_IDX 2 va))) eqn:E2; [specialize (Hy2 eq_refl); clear Hn|by rewrite Hn].
  f_equal. symmetry. exact Hy2.
Qed.

(** Looking an entry up through the recursive mapping of the page map finds
    what walking the tables from the top finds, when no large page is in the
    way. *)
Theorem MmGetPteLocationCheck_equivalent s root va Generate : pm_ok s root → plain_va va → ¬ blocked s root va →
  pte s root va ≠ None ∨ Generate = false →
  MmGetPteLocationCheck root va Generate s = MiGetPTEPointer root va Generate s.
Proof.
  intros Hok Hva Hnb Hc. unfold MmGetPteLocationCheck, MmCheckPteLocation, MmGetPteLocation.
  rewrite (proj2 (Z.eqb_neq _ _) Hva). cbn [check negb mbind outcome_bind]. rewrite (check_levels_spec s root va Hok Hva Hnb).
  destruct (MiGetPTEPointer_spec s root va Generate Hok Hva) as (r & s' & -> & _ & Hr & Hf & Hsame). unfold pte in Hc.
  destruct (node s root (path_of va)) as [p|] eqn:Hp; cbn [mbind outcome_bind].
  - rewrite (Hsame ltac:(by eexists)) in *. rewrite (check_levels_spec s root va Hok Hva Hnb), Hp. cbn [deref mbind outcome_bind].
    destruct r as [[t i]|]; [|destruct Hr; congruence]. destruct Hr as [-> Ht]. congruence.
  - destruct Hc as [Hc| ->]; [done|]. rewrite (Hf eq_refl) in *. destruct r as [[t i]|]; [destruct Hr; congruence|done].
Qed.

(** ** New page maps *)

Lemma st_pte_word s p i v b : pf_mem s !! p = Some b → length b = Z.to_nat PAGE_SIZE → digit i → 0 ≤ v < 2 ^ 64 →
  ∃ s' b', st_pte p i v s = Ok s' ∧ pf_mem s' !! p = Some b' ∧ length b' = Z.to_nat PAGE_SIZE ∧
    (∀ j, digit j → word_at s' p j = if decide (j = i) then v else word_at s p j) ∧ ∀ m, m ≠ p → pf_mem s' !! m = pf_mem s !! m.
Proof.
  intros Hb Hl Hi Hv. rewrite (st_pte_spec s p i v b) by done. eexists _, (set_word 8 b i v). split; [done|].
  unfold word_at. rewrite pf_store_mem, lookup_insert_eq. split; [done|]. split; [by rewrite length_set_word|]. split.
  - intros j Hj. rewrite Hb. case_decide as E; [subst; apply word_set_same; [by apply pm_in_page_digit|exact Hv]|].
    apply word_set_other; [apply Hi|apply Hj|congruence].
  - intros m Hm. by rewrite lookup_insert_ne.
Qed.

Lemma fill_entries_spec f g n p : ∀ i s b, pf_mem s !! p = Some b → length b = Z.to_nat PAGE_SIZE → 0 ≤ i → i + Z.of_nat n ≤ 512 →
  (∀ j s', (∀ m, m ≠ p → pf_mem s' !! m = pf_mem s !! m) → i ≤ j < i + Z.of_nat n → f j s' = Ok (g j) ∧ 0 ≤ g j < 2 ^ 64) →
  ∃ s' b', fill_entries f n p i s = Ok s' ∧ pf_mem s' !! p = Some b' ∧ length b' = Z.to_nat PAGE_SIZE ∧
    (∀ j, digit j → word_at s' p j = if decide (i ≤ j < i + Z.of_nat n) then g j else word_at s p j) ∧
    ∀ m, m ≠ p → pf_mem s' !! m = pf_mem s !! m.
Proof.
  induction n as [|n IH]; intros i s b Hb Hl Hi Hn Hf; cbn [fill_entries].
  { exists s, b. split_and!; try done. intros j _. rewrite decide_False by lia. done. }
  destruct (Hf i s) as [-> Hg]; [done|lia|]. cbn [mbind outcome_bind].
  destruct (st_pte_word s p i (g i) b Hb Hl) as (s1 & b1 & -> & Hb1 & Hl1 & Hw1 & Hm1); [unfold digit; lia|exact Hg|]. cbn [mbind outcome_bind].
  destruct (IH (i + 1) s1 b1 Hb1 Hl1) as (s' & b' & -> & Hb' & Hl' & Hw' & Hm'); [lia|lia| |].
  { intros j s' Hm Hj. apply Hf; [|lia]. intros m Hne. by rewrite Hm, Hm1. }
  exists s', b'. split_and!; try done.
  - intros j Hj. rewrite Hw', Hw1 by exact Hj. repeat case_decide; subst; try done; lia.
  - intros m Hne. by rewrite Hm', Hm1.
Qed.

(** A new page map: the user half is empty, the kernel half is that of the
    page map it was made from, but for the recursive entry, which leads to the
    new topmost table; nothing else changed. *)
Theorem MiCreatePageMapping_correct s root : pm_ok s root →
  MiCreatePageMapping root s = Ok (0, s) ∨
  ∃ q s', MiCreatePageMapping root s = Ok (q, s') ∧ q ≠ root ∧ pf_refs s q = None ∧
    (∀ j, digit j → word_at s' q j =
      if j <? 256 then 0 else if j =? MI_RECURSIVE_PAGING_START then MmBuildPte q (Z.lor MM_PROT_READ MM_PROT_WRITE) else word_at s root j) ∧
    ∀ m, m ≠ q → pf_mem s' !! m = pf_mem s !! m.
Proof.
  intros Hok. unfold MiCreatePageMapping. assert (in_tree []) as Hnil by (split_and!; [cbn; lia|constructor|done]).
  destruct (po_pages s root Hok [] root Hnil eq_refl) as [Hr (br & Hbr & Hlr & Hby)].
  destruct (pf_alloc_spec s (po_frames s root Hok)) as [-> |(q & s1 & -> & _ & Hfr & Hf & _ & Hz & Ho)]; [by left|]. right.
  cbn [mbind outcome_bind]. rewrite (frame_valid q Hfr).
  assert (q ≠ root) as Hq by (intros ->; congruence).
  destruct (fill_entries_spec (λ _ _, Ok MmBuildZeroPte) (λ _, 0) 256 q 0 s1 zeros Hz (length_replicate _ _)) as (s2 & b2 & -> & Hb2 & Hl2 & Hw2 & Hm2); [lia|lia|done|].
  cbn [mbind outcome_bind].
  destruct (fill_entries_spec (λ i s, ld_pte root i s) (λ i, word_at s root i) 256 q 256 s2 b2 Hb2 Hl2) as (s3 & b3 & -> & Hb3 & Hl3 & Hw3 & Hm3); [lia|lia| |].
  { intros j s' Hm Hj. assert (pf_mem s' !! root = pf_mem s !! root) as E by (rewrite Hm, Hm2 by done; by apply Ho).
    split; [|apply word_at_range; [by split; [|exists br]|unfold digit; lia]].
    rewrite (ld_pte_spec s' root j br) by (unfold digit; rewrite ?E; done || lia). unfold word_at. by rewrite E. }
  cbn [mbind outcome_bind].
  destruct (st_pte_word s3 q MI_RECURSIVE_PAGING_START (MmBuildPte q (Z.lor MM_PROT_READ MM_PROT_WRITE)) b3 Hb3 Hl3) as (s4 & b4 & -> & _ & _ & Hw4 & Hm4);
    [done|apply MmBuildPte_range|]. cbn [mbind outcome_bind].
  exists q, s4. split; [done|]. split; [exact Hq|]. split; [exact Hf|]. split.
  - intros j Hj. rewrite Hw4, Hw3, Hw2 by exact Hj. unfold digit, MI_RECURSIVE_PAGING_START in *.
    destruct (Z.ltb_spec j 256), (Z.eqb_spec j 322); repeat case_decide; try done; lia.
  - intros m Hne. rewrite Hm4, Hm3, Hm2 by exact Hne. by apply Ho.
Qed.

(** A page map that maps nothing: a page of zeros that was just allocated. *)
Lemma empty_map s q s1 : pf_ok s → low s → pf_alloc s = Ok (q, s1) → q ≠ PFN_INVALID →
  pm_ok s1 q ∧ (∀ va, plain_va va → blank (pte s1 q va)) ∧ (∀ va, ¬ blocked s1 q va) ∧
  (∀ path p, node s1 q path = Some p → path = [] ∧ p = q) ∧ ∀ i, word_at s1 q i = 0.
Proof.
  intros Hpf Hlow Hall Hq. pose proof (pf_alloc_mem s q s1 Hpf Hall Hq) as Hdom.
  destruct (pf_alloc_spec s Hpf) as [E|(q' & s1' & E & Hpf1 & _ & _ & Hu & Hz & Ho)]; rewrite Hall in E; [congruence|]. injection E as <- <-.
  assert (∀ i, word_at s1 q i = 0) as Hw by (intros i; unfold word_at; rewrite Hz; apply word_empty).
  assert (∀ path p, node s1 q path = Some p → path = [] ∧ p = q) as Hn.
  { intros [|i path] p; cbn; [by intros [= <-]|]. by rewrite Hw. }
  split.
  - split; [done| | |].
    + intros n Hn'. destruct (decide (n = q)) as [->|Hne]; [by apply Hlow|]. apply Hlow. by rewrite <-(proj2 (Ho n Hne)).
    + intros path p _ [-> ->]%Hn. split; [done|]. exists empty_table. split; [exact Hz|]. split; [apply length_empty|].
      apply Forall_replicate. unfold byte. lia.
    + by intros path path' p _ _ [-> _]%Hn [-> _]%Hn.
  - split; [|split; [|by split]].
    + intros va Hva. unfold pte. destruct (node s1 q (path_of va)) as [p|] eqn:E; [|by left]. apply Hn in E as [E _]. discriminate.
    + intros va (pre & i & rest & p & _ & [_ ->]%Hn & E). by rewrite Hw in E.
Qed.

End pagemap.

(** ** Witnesses *)

(** Six free pages. *)
Definition free_page (Next Prev : Z) : MMPFDBE := mkPfdbe PF_TYPE_FREE false false false 0 Next Prev 0 0 0 0.

Definition six_free : pmm := mkPmm (list_to_map
    [(1, free_page 2 PFN_INVALID); (2, free_page 3 1); (3, free_page 4 2); (4, free_page 5 3); (5, free_page 6 4); (6, free_page PFN_INVALID 5)])
  (λ l, match l with LFree => (1, 6) | _ => (PFN_INVALID, PFN_INVALID) end) 6 (list_to_map ((λ n, (n, [7])) <$> [1; 2; 3; 4; 5; 6])) ∅.

Lemma six_inv : pm_inv six_free (λ l, match l with LFree => [1; 2; 3; 4; 5; 6] | _ => [] end) [].
Proof. apply pm_inv_check. vm_compute. reflexivity. Qed.

Lemma six_low : low six_free.
Proof.
  intros n [v Hv]. cbn in Hv. repeat (apply lookup_insert_Some in Hv as [[<- _]|[_ Hv]]; [lia|]). by rewrite lookup_empty in Hv.
Qed.

(** A page map in the first of them, that maps nothing. *)
Definition fresh_map : pmm := match pf_alloc six_free with Ok (_, s) => s | _ => six_free end.

Lemma fresh_map_ok : pm_ok fresh_map 1 ∧ (∀ va, plain_va va → blank (pte fresh_map 1 va)) ∧ (∀ va, ¬ blocked fresh_map 1 va) ∧
  (∀ path p, node fresh_map 1 path = Some p → path = [] ∧ p = 1) ∧ ∀ i, word_at fresh_map 1 i = 0.
Proof.
  assert (pf_alloc six_free = Ok (1, fresh_map)) as Hall by (vm_compute; reflexivity).
  apply (empty_map six_free 1 fresh_map); [eexists _, _; apply six_inv|apply six_low|exact Hall|done].
Qed.

Lemma range_ok_check va n : (0 <=? va) && (va + 4096 * Z.of_nat n <=? 2 ^ 64) && (Z.of_nat n <=? 2 ^ 36) &&
  forallb (λ i, negb (PML_IDX 4 (nth_page va i) =? MI_RECURSIVE_PAGING_START)) (seq 0 n) = true → range_ok va n.
Proof.
  rewrite !andb_true_iff, !Z.leb_le, forallb_forall. intros [[[H1 H2] H3] H4]. split; [exact H1|exact H2|exact H3|].
  intros i Hi. specialize (H4 i (proj2 (in_seq n 0 i) ltac:(lia))). by apply negb_true_iff, Z.eqb_neq in H4.
Qed.

Lemma demo_range : range_ok 0x400000 7.
Proof. apply range_ok_check. vm_compute. reflexivity. Qed.

Lemma demo_blank n : (n ≤ 7)%nat → ∀ i, (i < n)%nat → blank (pte fresh_map 1 (nth_page 0x400000 i)).
Proof. intros Hn i Hi. apply fresh_map_ok, (rg_plain _ _ demo_range). lia. Qed.

(** A page is mapped, and one frame is left. *)
Definition one_left : pmm := match MiMapAnonPages 1 0x400000 1 MM_PROT_WRITE true fresh_map with Ok (_, s) => s | _ => fresh_map end.

Lemma one_left_ok : pm_ok one_left 1.
Proof.
  destruct (MiMapAnonPages_spec fresh_map 1 0x400000 1 MM_PROT_WRITE true (proj1 fresh_map_ok) (range_sub 0x400000 7 0 3 demo_range ltac:(lia)) (demo_blank 2 ltac:(lia)))
    as (ok & fs & s1 & Hm & Hw & _). change (Z.of_nat 1) with 1 in Hm. unfold one_left. rewrite Hm. apply (mw_ok _ _ _ _ _ _ _ Hw).
Qed.

(** With memory for the three tables they are made; with memory for one, which
    is made for an address far away, it is taken away again. *)
Lemma MiGetPTEPointer_correct_witness :
  (∃ p i s', MiGetPTEPointer 1 0x400000 true fresh_map = Ok (Some (p, i), s') ∧ word_at s' p i = 0 ∧ pte s' 1 0x400000 = Some 0) ∧
  ∃ s', MiGetPTEPointer 1 0x8000000000 true one_left = Ok (None, s') ∧ restored one_left 1 s'.
Proof.
  split.
  - pose proof (MiGetPTEPointer_correct fresh_map 1 0x400000 true (proj1 fresh_map_ok) ltac:(vm_compute; congruence)) as Ht.
    assert (pte fresh_map 1 0x400000 = None) as E by (vm_compute; reflexivity). rewrite E in Ht.
    assert (match MiGetPTEPointer 1 0x400000 true fresh_map with Ok (Some _, _) => True | _ => False end) as Hs by (vm_compute; exact I).
    destruct Ht as [(p & i & s' & Hg & _ & Hw & Hp)|[[Hg _]|(s' & Hg & _)]]; [|rewrite Hg in Hs; destruct Hs..].
    exists p, i, s'. split; [exact Hg|]. split; [exact Hw|exact Hp].
  - pose proof (MiGetPTEPointer_correct one_left 1 0x8000000000 true one_left_ok ltac:(vm_compute; congruence)) as Ht.
    assert (pte one_left 1 0x8000000000 = None) as E by (vm_compute; reflexivity). rewrite E in Ht.
    assert (match MiGetPTEPointer 1 0x8000000000 true one_left with Ok (None, _) => True | _ => False end) as Hs by (vm_compute; exact I).
    destruct Ht as [(p & i & s' & Hg & _)|[[Hg _]|(s' & Hg & Hr & _)]]; [rewrite Hg in Hs; destruct Hs| |].
    + exists one_left. split; [exact Hg|exact (restored_refl _ _ one_left_ok)].
    + exists s'. split; [exact Hg|exact Hr].
Defined.

Lemma MiMapPhysicalPage_correct_witness :
  ∃ s', MiMapPhysicalPage 1 0x7000 0x400000 MM_PROT_WRITE fresh_map = Ok (true, s') ∧ pm_ok s' 1 ∧ pte s' 1 0x400000 = Some (MmBuildPte 7 MM_PROT_WRITE).
Proof.
  destruct (MiMapPhysicalPage_correct fresh_map 1 0x7000 0x400000 MM_PROT_WRITE (proj1 fresh_map_ok)) as (s' & [(Hm & Hok & Hp & _)|(Hm & _)]);
    [vm_compute; congruence|exists s'; split; [exact Hm|]; split; [exact Hok|exact Hp]|].
  assert (match MiMapPhysicalPage 1 0x7000 0x400000 MM_PROT_WRITE fresh_map with Ok (true, _) => True | _ => False end) as Hs by (vm_compute; exact I).
  rewrite Hm in Hs. destruct Hs.
Defined.

(** Three pages where there is memory for two: the two stay. *)
Lemma MiMapAnonPages_correct_witness :
  ∃ fs s', MiMapAnonPages 1 0x400000 3 MM_PROT_WRITE true fresh_map = Ok (false, s') ∧ length fs = 2%nat ∧
    mapped_with true MM_PROT_WRITE fresh_map 1 0x400000 fs s'.
Proof.
  destruct (MiMapAnonPages_correct fresh_map 1 0x400000 3 MM_PROT_WRITE true (proj1 fresh_map_ok) demo_range) as (ok & fs & s' & Hm & Hw & Hl);
    [intros i Hi; by apply (demo_blank 6); [lia|]|].
  assert (match MiMapAnonPages 1 0x400000 3 MM_PROT_WRITE true fresh_map with
    | Ok (false, s') => MmIsPresentPte (default 0 (pte s' 1 0x401000)) = true | _ => False end) as Hs by (vm_compute; reflexivity).
  change (Z.of_nat 3) with 3 in Hm. rewrite Hm in Hs. destruct ok; [destruct Hs|]. exists fs, s'. split; [exact Hm|]. split; [|exact Hw].
  destruct fs as [|a [|b [|c fs]]]; cbn [length] in *; [| |done|lia]; exfalso.
  - assert (MmIsPresentPte (default 0 (pte s' 1 (nth_page 0x400000 1))) = true) as Hs' by exact Hs.
    destruct (mapped_blank _ _ _ _ _ 6 _ _ Hw (range_sub 0x400000 7 0 6 demo_range ltac:(lia)) ltac:(cbn; lia) (demo_blank 6 ltac:(lia)) 1%nat ltac:(cbn; lia)) as [E|E];
      rewrite E in Hs'; discriminate Hs'.
  - assert (MmIsPresentPte (default 0 (pte s' 1 (nth_page 0x400000 1))) = true) as Hs' by exact Hs.
    destruct (mapped_blank _ _ _ _ _ 6 _ _ Hw (range_sub 0x400000 7 0 6 demo_range ltac:(lia)) ltac:(cbn; lia) (demo_blank 6 ltac:(lia)) 1%nat ltac:(cbn; lia)) as [E|E];
      rewrite E in Hs'; discriminate Hs'.
Defined.

Lemma ok_pair {A B} (a a' : A) (b b' : B) : Ok (a, b) = Ok (a', b') → a = a' ∧ b = b'.
Proof. by intros [= <- <-]. Qed.

(** Two pages mapped. *)
Definition two_mapped : pmm := match MiMapAnonPages 1 0x400000 2 MM_PROT_WRITE true fresh_map with Ok (_, s) => s | _ => fresh_map end.

Lemma MiUnmapPages_gives_back_witness :
  ∃ fs s', length fs = 2%nat ∧ MiUnmapPages 1 0x400000 2 two_mapped = Ok s' ∧ pte s' 1 0x401000 = Some 0 ∧ ∀ f, f ∈ fs → pmm_refs s' f = None.
Proof.
  destruct (MiUnmapPages_gives_back fresh_map 1 0x400000 2 MM_PROT_WRITE two_mapped (proj1 fresh_map_ok)) as (fs & s' & Hl & _ & Hf & Hu & _ & Hp & _).
  - apply (range_sub 0x400000 7 0 5 demo_range). lia.
  - apply (demo_blank 4). lia.
  - vm_compute. reflexivity.
  - exists fs, s'. split; [exact Hl|]. split; [exact Hu|]. split; [exact (Hp 1%nat ltac:(lia))|]. intros f Hin. by apply Hf.
Defined.

Lemma MiUnmapPages_correct_witness :
  ∃ fs s', MiUnmapPages 1 0x400000 2 two_mapped = Ok s' ∧ length fs = 2%nat ∧ ∀ f, f ∈ fs → pmm_refs two_mapped f = Some 1 ∧ pmm_refs s' f = None.
Proof.
  destruct (MiMapAnonPages_spec fresh_map 1 0x400000 2 MM_PROT_WRITE true (proj1 fresh_map_ok) (range_sub 0x400000 7 0 5 demo_range ltac:(lia)) (demo_blank 4 ltac:(lia)))
    as (ok & fs & s1 & Hm & Hw & Hl).
  assert (MiMapAnonPages 1 0x400000 2 MM_PROT_WRITE true fresh_map = Ok (true, two_mapped)) as E by (vm_compute; reflexivity).
  change (Z.of_nat 2) with 2 in Hm. rewrite E in Hm. destruct (ok_pair _ _ _ _ Hm) as [<- <-].
  assert (frames_of present_only two_mapped 1 0x400000 2 = fs) as Hfs.
  { apply (mapped_frames MM_PROT_WRITE fresh_map 1 fs 0x400000 2 two_mapped Hl); [apply (mw_pte _ _ _ _ _ _ _ Hw)|intros f; exact (mw_fresh _ _ _ _ _ _ _ Hw f eq_refl)]. }
  destruct (MiUnmapPages_correct two_mapped 1 0x400000 2 (mw_ok _ _ _ _ _ _ _ Hw) (range_sub 0x400000 7 0 2 demo_range ltac:(lia))) as (s' & Hu & _ & _ & _ & Hr).
  - rewrite Hfs. exact (mw_nodup _ _ _ _ _ _ _ Hw eq_refl).
  - rewrite Hfs. intros f Hf. exact (tk_foreign _ _ _ _ (mw_fresh _ _ _ _ _ _ _ Hw f eq_refl Hf)).
  - exists fs, s'. split; [exact Hu|]. split; [exact Hl|]. intros f Hf.
    pose proof (tk_used _ _ _ _ (mw_fresh _ _ _ _ _ _ _ Hw f eq_refl Hf)) as Hone. split; [exact Hone|].
    specialize (Hr f). rewrite Hfs, decide_True in Hr by exact Hf. rewrite Hone in Hr. exact Hr.
Defined.

Lemma last_level_freed_when_full_witness : ∃ r, MmpFreeUnusedMappingLevelsInCurrentMapPML 1 1 fresh_map = Ok (r, fresh_map) ∧ r ≠ true.
Proof.
  destruct (last_level_freed_when_full fresh_map 1 [] 1 (proj1 fresh_map_ok)) as (r & Hr & Hi); [split_and!; [cbn; lia|constructor|done]|done|].
  exists r. split; [exact Hr|]. intros E. apply (proj1 Hi E 0); [lia|vm_compute; reflexivity].
Defined.

Lemma MmGetPteLocationCheck_equivalent_witness :
  MmGetPteLocationCheck 1 0x400000 false fresh_map = MiGetPTEPointer 1 0x400000 false fresh_map.
Proof.
  apply (MmGetPteLocationCheck_equivalent fresh_map 1 0x400000 false (proj1 fresh_map_ok)).
  - vm_compute. congruence.
  - apply fresh_map_ok.
  - by right.
Defined.

Lemma MiCreatePageMapping_correct_witness :
  ∃ q s', MiCreatePageMapping 1 fresh_map = Ok (q, s') ∧ word_at s' q 255 = 0 ∧ MmGetPfnPte (word_at s' q 322) = q.
Proof.
  destruct (MiCreatePageMapping_correct fresh_map 1 (proj1 fresh_map_ok)) as [E|(q & s' & E & _ & _ & Hw & _)].
  - assert (match MiCreatePageMapping 1 fresh_map with Ok (0, _) => False | _ => True end) as Hs by (vm_compute; exact I). rewrite E in Hs. destruct Hs.
  - exists q, s'. split; [exact E|]. split; [exact (Hw 255 ltac:(unfold digit; lia))|]. rewrite (Hw 322 ltac:(unfold digit; lia)).
    cbn [Z.ltb Z.compare Pos.compare Pos.compare_cont Z.eqb MI_RECURSIVE_PAGING_START Pos.eqb].
    assert (match MiCreatePageMapping 1 fresh_map with Ok (q, _) => q = 2 | _ => False end) as Hs by (vm_compute; reflexivity). rewrite E in Hs. rewrite Hs. vm_compute. reflexivity.
Defined.
