(* ===== verification/PageFree.v ===== *)
(** Freeing of page tables that nothing is mapped in: what
    [MiFreeUnusedMappingLevelsInCurrentMap] ([boron/source/mm/amd64/ptfree.c])
    does to a page map, as long as no last-level table is full. *)
From S2P Require Import Prelude Pmm Pages Pte PageMap.
Local Open Scope Z_scope.

Section free.
Context {S : Type} `{PageFrameLaws S}.

(** Every last-level table has an entry that is zero. *)
Definition no_full (s : S) (root : Z) : Prop := ∀ path p, in_tree path → length path = 3%nat → node s root path = Some p →
  ∃ j, digit j ∧ word_at s p j = 0.

(** Some tables in which nothing was mapped are gone. *)
Record pruned (s : S) (root : Z) (s' : S) : Prop := {
  pr_ok : pm_ok s' root;
  pr_node path p : in_tree path → node s' root path = Some p → node s root path = Some p;
  pr_word path p j : in_tree path → node s' root path = Some p → digit j →
    word_at s' p j = word_at s p j ∨ ((length path < 3)%nat ∧ word_at s' p j = 0);
  pr_gone path p j : in_tree path → length path = 3%nat → node s root path = Some p → node s' root path = None → digit j → word_at s p j = 0;
  pr_refs m : pf_refs s' m = pf_refs s m ∨ (pf_refs s' m = None ∧ ∃ path, in_tree path ∧ node s root path = Some m);
  pr_mem m : off_tree s root m → pf_mem s' !! m = pf_mem s !! m;
  pr_freed path m : in_tree path → node s root path = Some m → node s' root path = None → pf_refs s' m = None;
}.

Lemma pruned_refl s root : pm_ok s root → pruned s root s.
Proof. intros Hok. split; try done; auto; [by intros path p j _ _ -> [=]|by intros path m _ ->]. Qed.

Lemma pruned_off s root s' m : pruned s root s' → off_tree s root m → off_tree s' root m.
Proof. intros Hp Hm path Ht Hn. apply (Hm path Ht). by apply (pr_node _ _ _ Hp). Qed.

Lemma pruned_trans s root s1 s2 : pruned s root s1 → pruned s1 root s2 → pruned s root s2.
Proof.
  intros P Q. split.
  - apply (pr_ok _ _ _ Q).
  - intros path p Ht Hn. apply (pr_node _ _ _ P), (pr_node _ _ _ Q); done.
  - intros path p j Ht Hn Hj. pose proof (pr_node _ _ _ Q path p Ht Hn) as Hn1.
    destruct (pr_word _ _ _ Q path p j Ht Hn Hj) as [->|[? ->]]; [by apply (pr_word _ _ _ P path)|by right].
  - intros path p j Ht Hl Hn Hn2 Hj. destruct (node s1 root path) as [q|] eqn:Hn1.
    + pose proof (pr_node _ _ _ P path q Ht Hn1) as E. rewrite Hn in E. injection E as <-.
      pose proof (pr_gone _ _ _ Q path p j Ht Hl Hn1 Hn2 Hj) as Hz. destruct (pr_word _ _ _ P path p j Ht Hn1 Hj) as [<-|[? _]]; [done|lia].
    + by apply (pr_gone _ _ _ P path p j).
  - intros m. destruct (pr_refs _ _ _ Q m) as [->|[-> (path & Ht & Hn)]]; [apply (pr_refs _ _ _ P)|].
    right. split; [done|]. exists path. split; [done|]. by apply (pr_node _ _ _ P).
  - intros m Hm. rewrite (pr_mem _ _ _ Q), (pr_mem _ _ _ P); [done|done|]. by apply (pruned_off s).
  - intros path m Ht Hn Hn2. destruct (node s1 root path) as [q|] eqn:Hn1.
    + pose proof (pr_node _ _ _ P path q Ht Hn1) as E. rewrite Hn in E. injection E as <-. by apply (pr_freed _ _ _ Q path).
    + pose proof (pr_freed _ _ _ P path m Ht Hn Hn1) as E. destruct (pr_refs _ _ _ Q m) as [->|[-> _]]; done.
Qed.

(** The tables below a table have no entry in use. *)
Definition blank_below (s : S) (root : Z) (pre : list Z) : Prop := ∀ path p j, in_tree (pre ++ path) → length (pre ++ path) = 3%nat → node s root (pre ++ path) = Some p →
  digit j → word_at s p j = 0.

Lemma pruned_blank s root s' pre : pruned s root s' → blank_below s root pre → blank_below s' root pre.
Proof.
  intros P Hb path p j Ht Hl Hp Hj. destruct (pr_word _ _ _ P _ p j Ht Hp Hj) as [->|[_ ->]]; [|done]. apply (Hb path p j); try done. by apply (pr_node _ _ _ P).
Qed.

Lemma pruned_blank_back s root s' pre : pruned s root s' → blank_below s' root pre → blank_below s root pre.
Proof.
  intros P Hb path p j Ht Hl Hp Hj. destruct (node s' root (pre ++ path)) as [q|] eqn:E; [|by apply (pr_gone _ _ _ P (pre ++ path) p j)].
  pose proof (pr_node _ _ _ P _ q Ht E) as Hq. rewrite Hp in Hq. injection Hq as <-. pose proof (Hb path p j Ht Hl E Hj) as Hz.
  destruct (pr_word _ _ _ P _ p j Ht E Hj) as [<-|[Hlt _]]; [done|lia].
Qed.

Lemma blank_deeper s root pre i : blank_below s root pre → blank_below s root (pre ++ [i]).
Proof. intros Hb path p j. rewrite <-app_assoc. apply Hb. Qed.

(** Of the tables from [pre] on, those with nothing in use below are gone. *)
Definition tables_gone (s : S) (root : Z) (pre : list Z) (s' : S) : Prop := ∀ path, in_tree (pre ++ path) → blank_below s root (pre ++ path) →
  node s' root (pre ++ path) = None.

Lemma pruned_none s root s' path : pruned s root s' → in_tree path → node s root path = None → node s' root path = None.
Proof. intros P Ht Hn. destruct (node s' root path) as [q|] eqn:E; [|done]. apply (pr_node _ _ _ P) in E; [congruence|done]. Qed.

Lemma tables_gone_none s root pre s' : node s' root pre = None → tables_gone s root pre s'.
Proof. intros Hn path _ _. by apply node_none. Qed.

Lemma tables_gone_later s root pre s1 s2 : tables_gone s root pre s1 → pruned s1 root s2 → tables_gone s root pre s2.
Proof. intros Hs P path Ht Hb. apply (pruned_none s1); [done|done|by apply Hs]. Qed.

Lemma tables_gone_before s root pre s1 s2 : pruned s root s1 → tables_gone s1 root pre s2 → tables_gone s root pre s2.
Proof. intros P Hs path Ht Hb. apply Hs; [done|by apply (pruned_blank s)]. Qed.

Lemma pruned_no_large s root s' : pruned s root s' → no_large s root → no_large s' root.
Proof.
  intros P Hl path i p Ht Hn. destruct (pm_in_tree_last _ _ Ht) as [Hi _]. pose proof (pm_in_tree_prefix _ _ Ht) as Hpre.
  destruct (pr_word _ _ _ P path p i Hpre Hn Hi) as [->|[_ ->]]; [|done]. apply (Hl path); [done|]. by apply (pr_node _ _ _ P).
Qed.

Lemma pruned_no_full s root s' : pruned s root s' → no_full s root → no_full s' root.
Proof.
  intros P Hf path p Ht Hl Hn. destruct (Hf path p Ht Hl) as (j & Hj & Hz); [by apply (pr_node _ _ _ P)|].
  exists j. split; [done|]. destruct (pr_word _ _ _ P path p j Ht Hn Hj) as [->|[? _]]; [done|lia].
Qed.

(** What a page map looks like afterwards: an entry that is not zero is still
    there. *)
Lemma pruned_pte s root s' va : pruned s root s' → plain_va va →
  match pte s root va with
  | Some e => pte s' root va = Some e ∨ (e = 0 ∧ pte s' root va = None)
  | None => pte s' root va = None
  end.
Proof.
  intros P Hva. pose proof (path_in_tree va Hva) as Ht. unfold pte. destruct (node s' root (path_of va)) as [p|] eqn:Hn'.
  - rewrite (pr_node _ _ _ P _ p Ht Hn'). left. f_equal. destruct (pr_word _ _ _ P _ p (PML_IDX 1 va) Ht Hn' (digit_PML 1 va)) as [->|[Hl _]]; [done|].
    cbn in Hl. lia.
  - destruct (node s root (path_of va)) as [p|] eqn:Hn; [|done]. right. split; [|done].
    apply (pr_gone _ _ _ P (path_of va)); [done|done|done|done|apply digit_PML].
Qed.

(** A table in which nothing is mapped is freed and its entry cleared. *)
Lemma unlink_ok s root pre i p q : pm_ok s root → in_tree (pre ++ [i]) → node s root pre = Some p → leads_to (word_at s p i) = Some q →
  (∀ j, digit j → leads_to (word_at s q j) = None) → (length (pre ++ [i]) = 3%nat → ∀ j, digit j → word_at s q j = 0) →
  ∃ s1 s', pf_free q s = Ok s1 ∧ st_pte p i 0 s1 = Ok s' ∧ pruned s root s' ∧ node s' root pre = Some p ∧
    (∀ j, digit j → word_at s' p j = if decide (j = i) then 0 else word_at s p j).
Proof.
  intros Hok Ht Hp Hq Hno Hzero. destruct (pm_in_tree_last _ _ Ht) as [Hi Hl]. pose proof (pm_in_tree_prefix _ _ Ht) as Hpre.
  assert (node s root (pre ++ [i]) = Some q) as Hnq by (by rewrite pm_node_snoc, Hp).
  destruct (po_pages s root Hok pre p Hpre Hp) as [Hrp (b & Hb & Hlen & Hby)].
  destruct (po_pages s root Hok _ q Ht Hnq) as [Hrq _].
  assert (p ≠ q) as Hpq.
  { intros ->. pose proof (po_once s root Hok pre (pre ++ [i]) q Hpre Ht Hp Hnq) as E. apply (f_equal length) in E. rewrite length_app in E. cbn in E. lia. }
  destruct (pf_free_spec s q 1 (po_frames s root Hok) Hrq) as (s1 & Hs1 & Hpf1 & Hm1 & Hr1 & Ho1). exists s1.
  rewrite (st_pte_spec s1 p i 0 b) by (rewrite ?Hm1; done). eexists. split; [done|]. split; [done|]. set (s' := pf_store p (set_word 8 b i 0) s1).
  assert (∀ m, pf_mem s' !! m = if decide (m = p) then Some (set_word 8 b i 0) else pf_mem s !! m) as Hmem.
  { intros m. unfold s'. rewrite pf_store_mem, Hm1. case_decide; [subst; by rewrite lookup_insert_eq|by rewrite lookup_insert_ne]. }
  assert (∀ m, pf_refs s' m = if decide (m = q) then None else pf_refs s m) as Hrefs.
  { intros m. unfold s'. rewrite pf_store_refs. case_decide; [by subst; rewrite Hr1|by apply Ho1]. }
  assert (∀ r j, digit j → word_at s' r j = if decide ((r, j) = (p, i)) then 0 else word_at s r j) as Hw.
  { intros r j Hj. unfold word_at. rewrite Hmem. destruct (decide (r = p)) as [->|Hne].
    - rewrite Hb. case_decide as E; [injection E as ->; apply word_set_same; [by apply pm_in_page_digit|cbn; lia]|].
      apply word_set_other; [apply Hi|apply Hj|congruence].
    - rewrite decide_False; [done|congruence]. }
  assert (∀ path, in_tree path → node s' root path = if decide (path = pre ++ [i]) then None else node s root path) as Hn.
  { intros path. induction path as [|j path IH] using rev_ind; intros Htp; [by rewrite decide_False by (by destruct pre)|].
    pose proof (pm_in_tree_prefix _ _ Htp) as Hpt. destruct (pm_in_tree_last _ _ Htp) as [Hj _].
    rewrite !pm_node_snoc, IH by done. destruct (decide (path = pre ++ [i])) as [->|E].
    - rewrite (pm_node_snoc s root pre i), Hp, Hq, (Hno j Hj). by case_decide.
    - destruct (node s root path) as [r|] eqn:Hr; [|by case_decide]. rewrite Hw by done.
      destruct (decide ((r, j) = (p, i))) as [[= -> ->]|Erj].
      + pose proof (po_once s root Hok path pre p Hpt Hpre Hr Hp) as ->. by rewrite decide_True.
      + rewrite decide_False; [done|]. intros [-> [= ->]]%app_inj_tail. congruence. }
  assert (∀ path r, in_tree path → node s' root path = Some r → node s root path = Some r ∧ r ≠ q) as Hback.
  { intros path r Htp. rewrite Hn by done. case_decide as E; [done|]. intros Hr. split; [done|]. intros ->. apply E. by apply (po_once s root Hok path (pre ++ [i]) q). }
  split; [|split].
  - split.
    + split.
      * unfold s'. apply (pf_store_spec s1 p 1); [exact Hpf1|]. by rewrite Ho1.
      * intros n. rewrite Hmem. case_decide as E; [intros _; rewrite E; apply (po_low s root Hok); by eexists|apply (po_low s root Hok)].
      * intros path r Htp Hr. destruct (Hback path r Htp Hr) as [Hr0 Hrq0]. destruct (po_pages s root Hok path r Htp Hr0) as [Hg (b' & Hb' & Hl' & Hby')].
        split; [by rewrite Hrefs, decide_False|]. rewrite Hmem. case_decide; [|by exists b'].
        eexists. split; [done|]. rewrite length_set_word. split; [exact Hlen|]. by apply bytes_set_word.
      * intros path1 path2 r H1 H2 E1 E2. apply (po_once s root Hok path1 path2 r H1 H2); by apply Hback.
    + intros path r Htp Hr. by apply Hback.
    + intros path r j Htp Hr Hj. rewrite Hw by done. case_decide as E; [|by left]. injection E as -> ->. right. split; [|done].
      destruct (Hback path p Htp Hr) as [Hr0 _]. pose proof (po_once s root Hok path pre p Htp Hpre Hr0 Hp) as ->. done.
    + intros path r j Htp Hl3 Hr. rewrite Hn by done. case_decide as E; [|congruence]. subst path. rewrite Hnq in Hr. injection Hr as <-.
      intros _ Hj. by apply Hzero.
    + intros m. rewrite Hrefs. case_decide as E; [|by left]. subst m. right. split; [done|]. by exists (pre ++ [i]).
    + intros m Hm. rewrite Hmem, decide_False; [done|]. intros ->. by apply (Hm pre).
    + intros path r Htp Hr. rewrite Hn by done. case_decide as E; [|congruence]. subst path. rewrite Hnq in Hr. injection Hr as <-. intros _. by rewrite Hrefs, decide_True.
  - rewrite Hn, decide_False; [done| |done]. intros E. apply (f_equal length) in E. rewrite length_app in E. cbn in E. lia.
  - intros j Hj. rewrite Hw by done. by repeat case_decide; congruence.
Qed.

(** What the routine for one level does to the tables below a table. *)
Definition sub_ok (root : Z) (sub : Z → S → outcome (bool * S)) (len : nat) : Prop := ∀ s pre q,
  pm_ok s root → no_large s root → no_full s root → in_tree pre → length pre = len → node s root pre = Some q →
  ∃ r s', sub q s = Ok (r, s') ∧ pruned s root s' ∧ node s' root pre = Some q ∧
    (r = true → (∀ j, digit j → leads_to (word_at s' q j) = None) ∧ (len = 3%nat → ∀ j, digit j → word_at s' q j = 0)) ∧
    ((len < 3)%nat → blank_below s root pre → r = true) ∧ (∀ j, digit j → tables_gone s root (pre ++ [j]) s').

Lemma last_level_ok root : sub_ok root (MmpFreeUnusedMappingLevelsInCurrentMapPML 1) 3.
Proof.
  intros s pre q Hok _ Hfull Ht Hl Hq. cbn [MmpFreeUnusedMappingLevelsInCurrentMapPML].
  destruct (unused_entries_spec s q 512 0) as (r & -> & Hi); [by apply (po_pages s root Hok pre)|lia|lia|]. cbn [mbind outcome_bind].
  exists r, s. split; [done|]. split; [by apply pruned_refl|]. split; [done|]. split; [|split; [lia|]].
  2: { intros j _ path Hlong. destruct Hlong as [Hlong _]. rewrite !length_app in Hlong. cbn in Hlong. lia. }
  intros ->. destruct (Hfull pre q Ht Hl Hq) as (j & Hj & Hz).
  by destruct (proj1 Hi eq_refl j).
Qed.

(** One entry of a table above the last level: what it leads to is freed, or
    what can be is freed below it. *)
Lemma free_entry root sub len s pre p i : (len < 3)%nat → sub_ok root sub (Datatypes.S len) →
  pm_ok s root → no_large s root → no_full s root → in_tree (pre ++ [i]) → length pre = len → node s root pre = Some p →
  MmIsPresentPte (word_at s p i) = true →
  ∃ empty, MmpIsPteListCompletelyEmpty 512 (MmGetPfnPte (word_at s p i)) 0 s = Ok empty ∧
    if (empty : bool) then
      ∃ s1 s', pf_free (MmGetPfnPte (word_at s p i)) s = Ok s1 ∧ st_pte p i MmBuildZeroPte s1 = Ok s' ∧ pruned s root s' ∧ node s' root pre = Some p ∧
        word_at s' p i = 0
    else
      ∃ r s1, sub (MmGetPfnPte (word_at s p i)) s = Ok (r, s1) ∧ pruned s root s1 ∧ node s1 root pre = Some p ∧ (r = true →
        ld_pte p i s1 = Ok (word_at s1 p i) ∧
        ∃ s2 s', pf_free (MmGetPfnPte (word_at s1 p i)) s1 = Ok s2 ∧ st_pte p i MmBuildZeroPte s2 = Ok s' ∧ pruned s root s' ∧ node s' root pre = Some p ∧
          word_at s' p i = 0) ∧ (blank_below s root (pre ++ [i]) → r = true) ∧ (r = false → tables_gone s root (pre ++ [i]) s1).
Proof.
  intros Hlen Hsub Hok Hlarge Hfull Ht Hl Hp Hpr. destruct (pm_in_tree_last _ _ Ht) as [Hi _].
  assert (leads_to (word_at s p i) = Some (MmGetPfnPte (word_at s p i))) as Hq by (rewrite leads_to_present, (Hlarge pre i p Ht Hp) by done; done).
  set (q := MmGetPfnPte (word_at s p i)) in *. assert (node s root (pre ++ [i]) = Some q) as Hnq by (by rewrite pm_node_snoc, Hp).
  destruct (empty_list_spec s q 512 0) as (empty & He & Hempty); [by apply (po_pages s root Hok (pre ++ [i]))|lia|lia|].
  exists empty. split; [exact He|]. destruct empty.
  - assert (∀ j, digit j → word_at s q j = 0) as Hz by (intros j Hj; apply (proj1 Hempty eq_refl); unfold digit in Hj; lia).
    destruct (unlink_ok s root pre i p q) as (s1 & s' & Hf & Hs & Hpru & Hn & Hw); try done.
    { intros j Hj. by rewrite Hz. }
    exists s1, s'. split_and!; try done. by rewrite Hw, decide_True.
  - destruct (Hsub s (pre ++ [i]) q) as (r & s1 & Hs & Hpru & Hn & Hr & Hbl & Hsw); try done.
    { rewrite length_app. cbn. lia. }
    pose proof (pr_ok _ _ _ Hpru) as Hok1. pose proof (pm_in_tree_prefix _ _ Ht) as Hpre.
    assert (node s1 root pre = Some p ∧ leads_to (word_at s1 p i) = Some q) as [Hn1 Hq1].
    { rewrite pm_node_snoc in Hn. destruct (node s1 root pre) as [p'|] eqn:E; [|done]. pose proof (pr_node _ _ _ Hpru pre p' Hpre E) as E'.
      rewrite Hp in E'. by injection E' as <-. }
    assert (blank_below s root (pre ++ [i]) → r = true) as Hblank.
    { intros Hb. destruct (decide (Datatypes.S len < 3)%nat) as [Hl3|Hl3]; [by apply Hbl|]. exfalso. assert (false = true); [|done].
      apply Hempty. intros j Hj. apply (Hb [] q j); rewrite ?app_nil_r; [done|rewrite length_app; cbn; lia|done|unfold digit; lia]. }
    exists r, s1. split; [exact Hs|]. split; [exact Hpru|]. split; [exact Hn1|]. split; [intros ->; split|].
    { apply good_ld; [by apply (po_pages s1 root Hok1 pre)|done]. }
    assert (MmGetPfnPte (word_at s1 p i) = q) as ->.
    { unfold leads_to in Hq1. by destruct (MmIsPresentPte _ && _); [injection Hq1|]. }
    destruct (unlink_ok s1 root pre i p q) as (s2 & s' & Hf & Hs' & Hpru' & Hn' & Hw'); try done; [by apply Hr|intros Hl3; apply Hr; [done|]; rewrite length_app in Hl3; cbn in Hl3; lia|].
    exists s2, s'. split_and!; try done; [by eapply pruned_trans|]. by rewrite Hw', decide_True.
    + split; [exact Hblank|]. intros -> path Htp Hb. destruct path as [|j path].
      * rewrite app_nil_r in Hb. specialize (Hblank Hb). done.
      * assert (in_tree ((pre ++ [i]) ++ [j])) as Htj by (rewrite cons_middle, app_assoc in Htp; by eapply pm_in_tree_prefix).
        destruct (pm_in_tree_last _ _ Htj) as [Hj _]. specialize (Hsw j Hj path). rewrite <-app_assoc in Hsw. by apply Hsw.
Qed.

Lemma free_unused_ok root sub len : (len < 3)%nat → (0 < len)%nat → sub_ok root sub (Datatypes.S len) → ∀ n s pre p i FreeParent,
  pm_ok s root → no_large s root → no_full s root → in_tree pre → length pre = len → node s root pre = Some p → 0 ≤ i → i + Z.of_nat n = 512 →
  (FreeParent = true → ∀ j, 0 ≤ j < i → leads_to (word_at s p j) = None) →
  ∃ r s', free_unused sub n p i FreeParent s = Ok (r, s') ∧ pruned s root s' ∧ node s' root pre = Some p ∧
    (r = true → ∀ j, digit j → leads_to (word_at s' p j) = None) ∧ (FreeParent = true → blank_below s root pre → r = true) ∧
    (∀ j, i ≤ j < 512 → tables_gone s root (pre ++ [j]) s').
Proof.
  intros Hlen Hlen0 Hsub. induction n as [|n IH]; intros s pre p i fp Hok Hlarge Hfull Hpre Hl Hp Hi Hn Hfp; cbn [free_unused].
  { exists fp, s. split; [done|]. split; [by apply pruned_refl|]. split; [done|]. split; [|split; [done|intros j Hj; lia]]. intros ->. intros j [Hj1 Hj2]. apply Hfp; [done|lia]. }
  assert (digit i) as Hdi by (unfold digit; lia).
  assert (in_tree (pre ++ [i])) as Ht.
  { destruct Hpre as (P1 & P2 & P3). split_and!; [rewrite length_app; cbn; lia|apply Forall_app; split; [done|by constructor]|].
    destruct pre; [cbn in Hl; lia|exact P3]. }
  rewrite (good_ld s p i) by (done || by apply (po_pages s root Hok pre)). cbn [mbind outcome_bind].
  assert (∀ s1 fp', pruned s root s1 → node s1 root pre = Some p → (fp' = true → fp = true ∧ leads_to (word_at s1 p i) = None) →
    (fp = true → blank_below s root pre → fp' = true) → tables_gone s root (pre ++ [i]) s1 →
    ∃ r s', free_unused sub n p (i + 1) fp' s1 = Ok (r, s') ∧ pruned s root s' ∧ node s' root pre = Some p ∧
      (r = true → ∀ j, digit j → leads_to (word_at s' p j) = None) ∧ (fp = true → blank_below s root pre → r = true) ∧
      (∀ j, i ≤ j < 512 → tables_gone s root (pre ++ [j]) s')) as Hnext.
  { intros s1 fp' Hpru Hn1 Hfp1 Hbl Hsi. destruct (IH s1 pre p (i + 1) fp') as (r & s' & Hr & Hpru' & Hn' & Hlast & Hb & Hsj); try done; [apply (pr_ok _ _ _ Hpru)| | |lia|lia| |].
    - by eapply pruned_no_large.
    - by eapply pruned_no_full.
    - intros E j Hj. destruct (Hfp1 E) as [Efp Hlast]. destruct (decide (j = i)) as [->|Hne]; [done|].
      destruct (pr_word _ _ _ Hpru pre p j Hpre Hn1) as [->|[_ ->]]; [unfold digit; lia|apply Hfp; [done|lia]|done].
    - exists r, s'. split; [done|]. split; [by eapply pruned_trans|]. split; [done|]. split; [done|]. split.
      + intros E1 E2. apply Hb; [by apply Hbl|by apply (pruned_blank s)].
      + intros j Hj. destruct (decide (j = i)) as [->|Hne]; [by apply (tables_gone_later s root _ s1)|].
        apply (tables_gone_before s root _ s1); [done|apply Hsj; lia]. }
  assert (∀ s1, node s1 root pre = Some p → leads_to (word_at s1 p i) = None → tables_gone s root (pre ++ [i]) s1) as Hgone.
  { intros s1 Hn1 Hno. apply tables_gone_none. by rewrite pm_node_snoc, Hn1. }
  destruct (MmIsPresentPte (word_at s p i)) eqn:Hpr; cbn [negb].
  2: { apply Hnext; [by apply pruned_refl|done| |done|]; [|by apply Hgone, leads_to_absent]. intros ->. split; [done|by apply leads_to_absent]. }
  destruct (free_entry root sub len s pre p i Hlen Hsub Hok Hlarge Hfull Ht Hl Hp Hpr) as (empty & -> & Hcase). cbn [mbind outcome_bind].
  destruct empty.
  - destruct Hcase as (s1 & s' & -> & Hst & Hpru & Hn' & Hz). cbn [mbind outcome_bind]. rewrite Hst. cbn [mbind outcome_bind].
    apply Hnext; [done|done| |done|]; [|by apply Hgone; [|rewrite Hz]]. intros ->. split; [done|by rewrite Hz].
  - destruct Hcase as (r & s1 & -> & Hpru & Hn1 & Hr & Hb & Hsw). cbn [mbind outcome_bind].
    destruct r; cbn [negb]; [|apply Hnext; try done; [intros _ Hbl; by apply Hb, blank_deeper|by apply Hsw]].
    destruct (Hr eq_refl) as (-> & s2 & s' & Hf & Hst & Hpru' & Hn' & Hz). cbn [mbind outcome_bind]. rewrite Hf. cbn [mbind outcome_bind].
    rewrite Hst. cbn [mbind outcome_bind]. apply Hnext; [done|done| |done|]; [|by apply Hgone; [|rewrite Hz]]. intros ->. split; [done|by rewrite Hz].
Qed.

Lemma prune_levels root : sub_ok root (MmpFreeUnusedMappingLevelsInCurrentMapPML 3) 1.
Proof.
  assert (∀ lvl len, (len < 3)%nat → (0 < len)%nat → sub_ok root (MmpFreeUnusedMappingLevelsInCurrentMapPML (Datatypes.S lvl)) (Datatypes.S len) →
    sub_ok root (MmpFreeUnusedMappingLevelsInCurrentMapPML (Datatypes.S (Datatypes.S lvl))) len) as Hstep.
  { intros lvl len Hlen Hl0 Hsub s pre q Hok Hlarge Hfull Hpre Hl Hq.
    destruct (free_unused_ok root _ len Hlen Hl0 Hsub 512 s pre q 0 true) as (r & s' & Hr & Hpru & Hn & Hrest & Hb & Hsw); try done; [lia|].
    exists r, s'. split; [exact Hr|]. split; [done|]. split; [done|]. split; [intros E; split; [by apply Hrest|lia]|].
    split; [intros _; by apply Hb|]. intros j Hj. by apply Hsw. }
  apply Hstep; [lia|lia|]. apply Hstep; [lia|lia|]. apply last_level_ok.
Qed.

Lemma free_topmost_ok root n : ∀ s i, pm_ok s root → no_large s root → no_full s root → 0 ≤ i → i + Z.of_nat n ≤ 256 →
  ∃ s', free_topmost n root i true s = Ok s' ∧ pruned s root s' ∧
    ((∀ j, 0 ≤ j < 256 → blank_below s root [j]) → ∀ j, i ≤ j < i + Z.of_nat n → MmIsPresentPte (word_at s' root j) = false) ∧
    (∀ j, i ≤ j < i + Z.of_nat n → tables_gone s root [j] s').
Proof.
  induction n as [|n IH]; intros s i Hok Hlarge Hfull Hi Hn; cbn [free_topmost].
  { exists s. split; [done|]. split; [by apply pruned_refl|split; intros; lia]. }
  assert (in_tree [] ∧ in_tree ([] ++ [i])) as [Hpre Ht].
  { split; [split_and!; [cbn; lia|constructor|done]|]. split_and!; [cbn; lia|repeat constructor; unfold digit; lia|]. cbn. unfold MI_RECURSIVE_PAGING_START. intros [= E]. lia. }
  assert (digit i) as Hdi by (unfold digit; lia).
  rewrite (good_ld s root i) by (done || by apply (po_pages s root Hok [])). cbn [mbind outcome_bind].
  assert (∀ s1, pruned s root s1 → ((∀ j, 0 ≤ j < 256 → blank_below s root [j]) → MmIsPresentPte (word_at s1 root i) = false) → tables_gone s root [i] s1 →
    ∃ s', free_topmost n root (i + 1) true s1 = Ok s' ∧ pruned s root s' ∧
      ((∀ j, 0 ≤ j < 256 → blank_below s root [j]) → ∀ j, i ≤ j < i + Z.of_nat (Datatypes.S n) → MmIsPresentPte (word_at s' root j) = false) ∧
      (∀ j, i ≤ j < i + Z.of_nat (Datatypes.S n) → tables_gone s root [j] s')) as Hnext.
  { intros s1 Hpru Hi1 Hsi. destruct (IH s1 (i + 1)) as (s' & Hs' & Hpru' & Hall & Hsw); [apply (pr_ok _ _ _ Hpru)|by eapply pruned_no_large|by eapply pruned_no_full|lia|lia|].
    exists s'. split; [done|]. split; [by eapply pruned_trans|]. split.
    2: { intros j Hj. destruct (decide (j = i)) as [->|Hne]; [by apply (tables_gone_later s root _ s1)|].
         apply (tables_gone_before s root _ s1); [done|apply Hsw; lia]. }
    intros Hb j Hj. destruct (decide (j = i)) as [->|Hne].
    - destruct (pr_word _ _ _ Hpru' [] root i Hpre eq_refl Hdi) as [->|[_ ->]]; [by apply Hi1|done].
    - apply Hall; [|lia]. intros k Hk. by apply (pruned_blank s), Hb. }
  assert (∀ s1, leads_to (word_at s1 root i) = None → tables_gone s root [i] s1) as Hgone.
  { intros s1 Hno. apply tables_gone_none. cbn. by rewrite Hno. }
  destruct (MmIsPresentPte (word_at s root i)) eqn:Hpr; cbn [negb]; [|by apply Hnext; [apply pruned_refl| |apply Hgone, leads_to_absent]].
  destruct (free_entry root _ 0 s [] root i ltac:(lia) (prune_levels root) Hok Hlarge Hfull Ht eq_refl eq_refl Hpr) as (empty & -> & Hcase).
  cbn [mbind outcome_bind]. destruct empty; cbn [andb].
  - destruct Hcase as (s1 & s' & -> & Hst & Hpru & _ & Hz). cbn [mbind outcome_bind]. rewrite Hst. cbn [mbind outcome_bind]. apply Hnext; [done| |by apply Hgone; rewrite Hz]. intros _. by rewrite Hz.
  - destruct Hcase as (r & s1 & -> & Hpru & _ & Hr & Hb & Hsw). cbn [mbind outcome_bind].
    assert (blank_below s root [i] → r = true) as Hb' by (intros Hbi; by apply Hb).
    destruct r; cbn [negb mbind outcome_bind]; [|apply Hnext; [done| |by apply Hsw]; intros Hbl; exfalso; assert (false = true); [|done]; apply Hb', Hbl; lia].
    destruct (Hr eq_refl) as (-> & s2 & s' & Hf & Hst & Hpru' & _ & Hz). cbn [mbind outcome_bind]. rewrite Hf. cbn [mbind outcome_bind].
    rewrite Hst. cbn [mbind outcome_bind]. apply Hnext; [done| |by apply Hgone; rewrite Hz]. intros _. by rewrite Hz.
Qed.

(** The topmost entries that a range of [n] pages from [va] on is unmapped with. *)
Definition topmost (va n j : Z) : Prop := PML_IDX 4 va ≤ j < PML_IDX 4 va + (n + 512 ^ 3 - 1) / 512 ^ 3.

(** With nothing in use in the user half, no topmost entry of the range is left. *)
Lemma free_unused_levels_all s root va n : pm_ok s root → no_large s root → no_full s root → 0 ≤ n → PML_IDX 4 va + (n + 512 ^ 3 - 1) / 512 ^ 3 ≤ 256 →
  PML_IDX 4 va < 256 → ∃ s', MiFreeUnusedMappingLevelsInCurrentMap root va n s = Ok s' ∧ pruned s root s' ∧
    ((∀ j, 0 ≤ j < 256 → blank_below s root [j]) → ∀ j, topmost va n j → MmIsPresentPte (word_at s' root j) = false) ∧
    (∀ j, topmost va n j → tables_gone s root [j] s').
Proof.
  intros Hok Hlarge Hfull Hn0 Hn Hva. unfold MiFreeUnusedMappingLevelsInCurrentMap, topmost. destruct (digit_PML 4 va) as [H4 _].
  rewrite (proj2 (Z.leb_gt _ _)) by exact Hva. cbn [negb]. assert (0 ≤ (n + 512 ^ 3 - 1) / 512 ^ 3) as Hq by (apply Z.div_pos; lia).
  destruct (free_topmost_ok root (Z.to_nat ((n + 512 ^ 3 - 1) / 512 ^ 3)) s (PML_IDX 4 va) Hok Hlarge Hfull H4) as (s' & Hs' & P & Hall & Hsw); [by rewrite Z2Nat.id|].
  rewrite Z2Nat.id in Hall, Hsw by done. by exists s'.
Qed.

Lemma free_unused_levels_spec s root va n : pm_ok s root → no_large s root → no_full s root → 0 ≤ n → PML_IDX 4 va + (n + 512 ^ 3 - 1) / 512 ^ 3 ≤ 256 →
  PML_IDX 4 va < 256 → ∃ s', MiFreeUnusedMappingLevelsInCurrentMap root va n s = Ok s' ∧ pruned s root s'.
Proof. intros. destruct (free_unused_levels_all s root va n) as (s' & Hs' & P & _); try done. by exists s'. Qed.

(** A table that is gone had nothing in use below. *)
Lemma pruned_gone_blank s root s' path : pruned s root s' → node s' root path = None → blank_below s root path.
Proof.
  intros P Hn rest p j Ht Hl Hp Hj. apply (pr_gone _ _ _ P (path ++ rest) p j); try done. by apply node_none.
Qed.

(** The frames whose references changed are those of the tables that are gone. *)
Lemma pruned_changed s root s' m : pruned s root s' → pf_refs s' m ≠ pf_refs s m →
  ∃ path, in_tree path ∧ node s root path = Some m ∧ node s' root path = None.
Proof.
  intros P Hne. destruct (pr_refs _ _ _ P m) as [?|[Hm (path & Ht & Hn)]]; [done|]. exists path. split_and!; [done..|].
  destruct (node s' root path) as [q|] eqn:E; [|done]. destruct (po_pages s' root (pr_ok _ _ _ P) path q Ht E) as [Hr _].
  pose proof (pr_node _ _ _ P path q Ht E) as Hq. congruence.
Qed.

(** C24: Freeing the unused tables of a user range, when memory ends below
    4 GiB, no page is large and no last-level table is full: it returns, the
    page map stays a tree that owns its tables, and every entry that is not zero
    keeps its word.  Of the tables under the topmost entries of the range those
    that no entry is in use below are gone, at every level; no other table goes.
    The frames of the tables that are gone are free again, and no other frame
    changes its references, and no page outside the tables its contents. *)
Theorem MiFreeUnusedMappingLevelsInCurrentMap_correct s root StartVa SizePages : pm_ok s root → no_large s root → no_full s root → 0 ≤ SizePages →
  PML_IDX 4 StartVa + (SizePages + 512 ^ 3 - 1) / 512 ^ 3 ≤ 256 → PML_IDX 4 StartVa < 256 →
  ∃ s', MiFreeUnusedMappingLevelsInCurrentMap root StartVa SizePages s = Ok s' ∧ pm_ok s' root ∧
    (∀ va, plain_va va → match pte s root va with
       | Some e => pte s' root va = Some e ∨ (e = 0 ∧ pte s' root va = None)
       | None => pte s' root va = None end) ∧
    (∀ j path, topmost StartVa SizePages j → in_tree (j :: path) → blank_below s root (j :: path) → node s' root (j :: path) = None) ∧
    (∀ path m, in_tree path → node s root path = Some m →
       node s' root path = Some m ∨ node s' root path = None ∧ blank_below s root path ∧ pf_refs s' m = None) ∧
    (∀ m, pf_refs s' m ≠ pf_refs s m → ∃ path, in_tree path ∧ node s root path = Some m ∧ node s' root path = None) ∧
    ∀ m, off_tree s root m → pf_mem s' !! m = pf_mem s !! m.
Proof.
  intros Hok Hlarge Hfull Hn0 Hn Hva. destruct (free_unused_levels_all s root StartVa SizePages) as (s' & Hs' & P & _ & Hsw); try done.
  exists s'. split; [exact Hs'|]. split; [apply (pr_ok _ _ _ P)|]. split; [intros va Hva'; by apply pruned_pte|].
  split; [intros j path Hj; by apply (Hsw j Hj path)|]. split; [|split; [intros m; by apply pruned_changed|apply (pr_mem _ _ _ P)]].
  intros path m Ht Hp. destruct (node s' root path) as [q|] eqn:E; [left|right].
  - apply (pr_node _ _ _ P) in E; [congruence|done].
  - split_and!; [done|by apply (pruned_gone_blank s root s')|by apply (pr_freed _ _ _ P path)].
Qed.

(** ** Concrete page maps *)

(** The tables below the table [p] at [pre], [depth] levels deep. *)
Fixpoint tables (s : S) (depth : nat) (pre : list Z) (p : Z) : list (list Z * Z) :=
  (pre, p) :: match depth with
    | O => []
    | Datatypes.S depth => flat_map (λ i,
        if bool_decide (pre = []) && (i =? MI_RECURSIVE_PAGING_START) then []
        else match leads_to (word_at s p i) with Some q => tables s depth (pre ++ [i]) q | None => [] end) (seqZ 0 512)
    end.

Lemma tables_complete s depth : ∀ pre p path q, in_tree (pre ++ path) → (length path ≤ depth)%nat → node s p path = Some q →
  (pre ++ path, q) ∈ tables s depth pre p.
Proof.
  induction depth as [|depth IH]; intros pre p [|i path] q Ht Hl Hn; cbn in Hl, Hn; try lia; cbn [tables].
  1-2: rewrite app_nil_r; injection Hn as <-; by left.
  right. destruct (leads_to (word_at s p i)) as [r|] eqn:Hr; [|done].
  assert (in_tree (pre ++ [i])) as Hti by (rewrite cons_middle, app_assoc in Ht; by eapply pm_in_tree_prefix).
  destruct (pm_in_tree_last _ _ Hti) as [Hi _]. apply list_elem_of_In, in_flat_map. exists i. split.
  - apply list_elem_of_In, elem_of_seqZ. unfold digit in Hi. lia.
  - rewrite Hr. assert (bool_decide (pre = []) && (i =? MI_RECURSIVE_PAGING_START) = false) as ->.
    { case_bool_decide as E; [|done]. subst pre. apply Z.eqb_neq. intros ->. by destruct Hti as (_ & _ & []). }
    apply list_elem_of_In. specialize (IH (pre ++ [i]) r path q). rewrite <-app_assoc in IH. apply IH; [done|lia|done].
Qed.

(** A condition on all tables is checked on a concrete page map by looking at them. *)
Lemma tables_check (P : list Z → Z → Prop) (c : list Z → Z → bool) s root : (∀ path p, c path p = true → P path p) →
  forallb (λ '(path, p), c path p) (tables s 3 [] root) = true → ∀ path p, in_tree path → node s root path = Some p → P path p.
Proof.
  intros Hc Hf path p Ht Hn. apply Hc. rewrite forallb_forall in Hf. apply (Hf (path, p)), list_elem_of_In.
  apply (tables_complete s 3 [] root path p); [done|by destruct Ht|done].
Qed.

Definition has_zero (s : S) (p : Z) : bool := existsb (λ j, word_at s p j =? 0) (seqZ 0 512).
Definition all_zero (s : S) (p : Z) : bool := forallb (λ j, word_at s p j =? 0) (seqZ 0 512).
Definition none_large (s : S) (p : Z) : bool := forallb (λ j, negb (MmIsUnsupportedHigherLevelPte (word_at s p j))) (seqZ 0 512).

Lemma no_full_check s root : forallb (λ '(path, p), negb (length path =? 3)%nat || has_zero s p) (tables s 3 [] root) = true → no_full s root.
Proof.
  intros Hf path p Ht Hl Hn. revert Hl.
  apply (tables_check (λ path p, length path = 3%nat → ∃ j, digit j ∧ word_at s p j = 0) _ s root) with (2 := Hf); [|done..].
  intros path' p' Hc Hl. rewrite Hl in Hc. cbn in Hc. apply existsb_exists in Hc as (j & Hj%list_elem_of_In%elem_of_seqZ & Hz%Z.eqb_eq).
  exists j. split; [unfold digit; lia|done].
Qed.

Lemma no_large_check s root : forallb (λ '(path, p), (length path =? 3)%nat || none_large s p) (tables s 3 [] root) = true → no_large s root.
Proof.
  intros Hf path i p Ht Hn. destruct (pm_in_tree_last _ _ Ht) as [Hi Hl]. pose proof (pm_in_tree_prefix _ _ Ht) as Hpre.
  apply (tables_check (λ path p, (length path < 3)%nat → ∀ i, digit i → MmIsUnsupportedHigherLevelPte (word_at s p i) = false) _ s root) with (2 := Hf) (path := path); [|done..].
  intros path' p' Hc Hl' j Hj. apply orb_true_iff in Hc as [Hc%Nat.eqb_eq|Hc]; [lia|]. unfold none_large in Hc. rewrite forallb_forall in Hc.
  apply negb_true_iff, Hc, list_elem_of_In, elem_of_seqZ. unfold digit in Hj. lia.
Qed.

Lemma blank_below_check s root pre : forallb (λ '(path, p), negb ((length path =? 3)%nat && bool_decide (pre `prefix_of` path)) || all_zero s p) (tables s 3 [] root) = true →
  blank_below s root pre.
Proof.
  intros Hf path p j Ht Hl Hn Hj. apply (tables_check (λ path p, length path = 3%nat → pre `prefix_of` path → ∀ j, digit j → word_at s p j = 0) _ s root)
    with (2 := Hf) (path := pre ++ path); [|done|done|done|by apply prefix_app_r|done].
  intros path' p' Hc Hl' Hp' i Hi. rewrite Hl', bool_decide_true in Hc by done. cbn in Hc. unfold all_zero in Hc. rewrite forallb_forall in Hc.
  apply Z.eqb_eq, Hc, list_elem_of_In, elem_of_seqZ. unfold digit in Hi. lia.
Qed.

End free.

(** ** Witnesses *)

(** A page is committed, and there is an empty table beside that of its entry. *)
Definition spare_table : pmm :=
  match MiMapAnonPages 1 0x400000 1 MM_PROT_WRITE false fresh_map with
  | Ok (_, s) => match MiGetPTEPointer 1 0x600000 true s with Ok (_, s) => s | _ => s end
  | _ => fresh_map
  end.

Lemma spare_table_ok : pm_ok spare_table 1.
Proof.
  destruct (MiMapAnonPages_spec fresh_map 1 0x400000 1 MM_PROT_WRITE false (proj1 fresh_map_ok) (range_sub 0x400000 7 0 3 demo_range ltac:(lia)) (demo_blank 2 ltac:(lia)))
    as (ok & fs & s1 & Hm & Hw & _). change (Z.of_nat 1) with 1 in Hm. unfold spare_table. rewrite Hm.
  destruct (MiGetPTEPointer_spec s1 1 0x600000 true (mw_ok _ _ _ _ _ _ _ Hw) ltac:(vm_compute; congruence)) as (r & s' & -> & Hk & _).
  apply (kp_ok _ _ _ Hk).
Qed.

(** The empty table goes and its frame is free again, while the entry that is
    in use stays. *)
Lemma MiFreeUnusedMappingLevelsInCurrentMap_correct_witness :
  ∃ s', MiFreeUnusedMappingLevelsInCurrentMap 1 0x400000 1024 spare_table = Ok s' ∧ pm_ok s' 1 ∧
    node spare_table 1 [0; 0; 3] = Some 5 ∧ node s' 1 [0; 0; 3] = None ∧ pf_refs s' 5 = None ∧
    pte s' 1 0x400000 = Some (MmBuildAbsentPte MM_PAGE_COMMITTED).
Proof.
  destruct (MiFreeUnusedMappingLevelsInCurrentMap_correct spare_table 1 0x400000 1024 spare_table_ok) as (s' & Hs' & Hok & Hpte & Hgone & Hfreed & _).
  - apply no_large_check. vm_compute. reflexivity.
  - apply no_full_check. vm_compute. reflexivity.
  - lia.
  - vm_compute. congruence.
  - vm_compute. congruence.
  - assert (in_tree [0; 0; 3]) as Ht by (split_and!; [cbn; lia|repeat constructor; unfold digit; lia|done]).
    assert (node spare_table 1 [0; 0; 3] = Some 5) as Hn by (vm_compute; reflexivity).
    assert (node s' 1 [0; 0; 3] = None) as Hn'.
    { apply Hgone; [split; vm_compute; congruence|exact Ht|]. apply blank_below_check. vm_compute. reflexivity. }
    exists s'. split; [exact Hs'|]. split; [exact Hok|]. split; [exact Hn|]. split; [exact Hn'|]. split.
    + destruct (Hfreed _ _ Ht Hn) as [E|(_ & _ & E)]; [congruence|exact E].
    + specialize (Hpte 0x400000 ltac:(vm_compute; congruence)).
      assert (pte spare_table 1 0x400000 = Some (MmBuildAbsentPte MM_PAGE_COMMITTED)) as E by (vm_compute; reflexivity). rewrite E in Hpte.
      destruct Hpte as [Hp|[E' _]]; [exact Hp|vm_compute in E'; discriminate E'].
Defined.

(** 512 pages are committed in one table; then they are not, although nobody
    unmapped them. *)
Definition full_table : pmm := match MiMapAnonPages 1 0x400000 512 0 false fresh_map with Ok (_, s) => s | _ => fresh_map end.

Lemma full_table_is_freed :
  pte full_table 1 0x400000 = Some (MmBuildAbsentPte MM_PAGE_COMMITTED) ∧
  match MiFreeUnusedMappingLevelsInCurrentMap 1 0x800000 1 full_table with Ok s => pte s 1 0x400000 = None | _ => False end.
Proof. split; vm_compute; reflexivity. Qed.
