(* ===== verification/Commit.v ===== *)
(** The loops of [boron/source/mm/commit.c] and [vad.c] over the page table
    entries of a range of user addresses: committing, decommitting and clearing
    it.  A pointer to the entry of an address is that address; where it enters a
    new table, the code checks that the table is there. *)
From S2P Require Import Prelude Pmm Pages Pte PageMap PageFree.
Local Open Scope Z_scope.

(** [MmCommitVirtualMemory] : boron/source/mm/commit.c:85-85.
    [(CurrentVa + PAGE_SIZE * PAGE_SIZE / sizeof(MMPTE)) & ~(PAGE_SIZE * PAGE_SIZE / sizeof(MMPTE) - 1)] *)
Definition next_table (CurrentVa : Z) : Z := Z.ldiff (u64 (CurrentVa + 2 ^ 21)) (2 ^ 21 - 1).

Section commit.
Context {S : Type} `{PageFrames S}.

(** [MmCommitVirtualMemory] : boron/source/mm/commit.c:70-72.
    Is there a table?  It is looked for where the loop starts and where the
    entry is the first of a table. *)
Definition table_check (first : bool) (Mapping CurrentVa : Z) (Generate : bool) (s : S) : outcome (bool * S) :=
  if first || (PML_IDX 1 CurrentVa =? 0) then MmCheckPteLocation Mapping CurrentVa Generate s else Ok (true, s).

(** [MmCommitVirtualMemory] : boron/source/mm/commit.c:66-117. *)
Fixpoint commit_check (fuel : nat) (Mapping : Z) (IsVadCommitted : bool) (SizePages i CurrentVa : Z) (s : S) : outcome BSTATUS :=
  if SizePages <=? i then Ok STATUS_SUCCESS
  else
    match fuel with
    | O => OutOfFuel
    | Datatypes.S fuel =>
        '(ok, s) ← table_check (i =? 0) Mapping CurrentVa false s;
        if negb (ok : bool) then
          if IsVadCommitted then Ok STATUS_CONFLICTING_ADDRESSES
          else
            let NextVa := next_table CurrentVa in
            commit_check fuel Mapping IsVadCommitted SizePages (i + u64 (NextVa - CurrentVa) / PAGE_SIZE) NextVa s
        else
          '(p, j) ← MmGetPteLocation Mapping CurrentVa s;
          Pte ← ld_pte p j s;
          if MmIsPresentPte Pte || MmIsCommittedPte Pte then Ok STATUS_CONFLICTING_ADDRESSES
          else if IsVadCommitted && negb (MmIsDecommittedPte Pte) then Ok STATUS_CONFLICTING_ADDRESSES
          else commit_check fuel Mapping IsVadCommitted SizePages (i + 1) (u64 (CurrentVa + PAGE_SIZE)) s
    end.

(** [MmCommitVirtualMemory] : boron/source/mm/commit.c:132-151.
    [n] pages are left.  When there is no memory for a table the pages before
    stay committed. *)
Fixpoint commit_set (n : nat) (first : bool) (Mapping CurrentVa : Z) (s : S) : outcome (BSTATUS * S) :=
  match n with
  | O => Ok (STATUS_SUCCESS, s)
  | Datatypes.S n =>
      '(ok, s) ← table_check first Mapping CurrentVa true s;
      if negb (ok : bool) then Ok (STATUS_INSUFFICIENT_MEMORY, s)
      else
        '(p, j) ← MmGetPteLocation Mapping CurrentVa s;
        s ← st_pte p j (MmBuildAbsentPte MM_PAGE_COMMITTED) s;
        commit_set n false Mapping (u64 (CurrentVa + PAGE_SIZE)) s
  end.

(** [MiDecommitVad] : boron/source/mm/commit.c:241-257.
    One entry: its page is freed. *)
Definition decommit_entry (Pte : Z) (s : S) : outcome S :=
  if MmIsPresentPte Pte then
    if MmIsFromPmmPte Pte then pf_free (MmGetPfnPte Pte) s else Ok s
  else if negb (MmIsEqualPte Pte MmBuildZeroPte) then
    _ ← check (MmIsCommittedPte Pte || MmIsDecommittedPte Pte); Ok s
  else Ok s.

(** [MiDecommitVad] : boron/source/mm/commit.c:215-267. *)
Fixpoint decommit_pages (fuel : nat) (Mapping : Z) (IsVadCommitted SetDecommittedPTE : bool) (SizePages i CurrentVa : Z) (s : S) : outcome S :=
  if SizePages <=? i then Ok s
  else
    match fuel with
    | O => OutOfFuel
    | Datatypes.S fuel =>
        '(ok, s) ← table_check (i =? 0) Mapping CurrentVa (IsVadCommitted && SetDecommittedPTE) s;
        if negb (ok : bool) then
          let NextVa := next_table CurrentVa in
          decommit_pages fuel Mapping IsVadCommitted SetDecommittedPTE SizePages (i + u64 (NextVa - CurrentVa) / PAGE_SIZE) NextVa s
        else
          '(p, j) ← MmGetPteLocation Mapping CurrentVa s;
          Pte ← ld_pte p j s;
          s ← decommit_entry Pte s;
          s ← st_pte p j (if SetDecommittedPTE then MmBuildAbsentPte MM_PAGE_DECOMMITTED else MmBuildZeroPte) s;
          decommit_pages fuel Mapping IsVadCommitted SetDecommittedPTE SizePages (i + 1) (u64 (CurrentVa + PAGE_SIZE)) s
    end.

(** [MiCleanUpVad] : boron/source/mm/vad.c:454-476.
    After a table that is not there, the [for] loop adds one to [i] again. *)
Fixpoint clear_pages (fuel : nat) (Mapping Size i CurrentVa : Z) (s : S) : outcome S :=
  if Size <=? i then Ok s
  else
    match fuel with
    | O => OutOfFuel
    | Datatypes.S fuel =>
        '(ok, s) ← table_check (i =? 0) Mapping CurrentVa false s;
        if negb (ok : bool) then
          let NextVa := next_table CurrentVa in
          clear_pages fuel Mapping Size (i + u64 (NextVa - CurrentVa) / PAGE_SIZE + 1) NextVa s
        else
          '(p, j) ← MmGetPteLocation Mapping CurrentVa s;
          Pte ← ld_pte p j s;
          _ ← check (negb (MmIsPresentPte Pte));
          s ← st_pte p j MmBuildZeroPte s;
          clear_pages fuel Mapping Size (i + 1) (u64 (CurrentVa + PAGE_SIZE)) s
    end.

(** ** Ranges of user addresses *)

Context `{!PageFrameLaws S}.

Record user_range (va : Z) (n : nat) : Prop := {
  ur_start : 0 ≤ va;
  ur_aligned : va mod 4096 = 0;
  ur_end : va + 4096 * Z.of_nat n ≤ 2 ^ 47;
}.

Lemma user_plain va : 0 ≤ va < 2 ^ 47 → plain_va va ∧ PML_IDX 4 va < 256.
Proof.
  intros Hva. assert (PML_IDX 4 va < 256) as Hlt; [|split; [unfold plain_va, MI_RECURSIVE_PAGING_START; lia|done]].
  rewrite PML_IDX_page. change (512 ^ Z.of_nat 3) with (512 * 512 * 512). rewrite Z.div_div by lia.
  assert (va / (4096 * (512 * 512 * 512)) < 256) by (apply Z.div_lt_upper_bound; lia).
  rewrite Z.mod_small; [done|]. split; [apply Z.div_pos; lia|lia].
Qed.

Lemma user_range_ok va n : user_range va n → range_ok va n.
Proof.
  intros [R1 R2 R3]. split; [lia|lia|lia|]. intros i Hi. apply user_plain. unfold nth_page. lia.
Qed.

Lemma user_next va n : user_range va (Datatypes.S n) → user_range (va + 4096) n ∧ u64 (va + PAGE_SIZE) = va + 4096.
Proof.
  intros [R1 R2 R3]. split; [|unfold PAGE_SIZE; rewrite wrap_small; lia]. split; [lia| |lia].
  replace (va + 4096) with (va + 1 * 4096) by lia. by rewrite Z.mod_add.
Qed.

Lemma user_sub va n k m : user_range va n → (k + m ≤ n)%nat → user_range (nth_page va k) m.
Proof.
  intros [R1 R2 R3] Hk. unfold nth_page. split; [lia| |lia]. replace (va + 4096 * Z.of_nat k) with (va + Z.of_nat k * 4096) by lia. by rewrite Z.mod_add.
Qed.

Lemma user_nth va n i : user_range va n → (i < n)%nat → plain_va (nth_page va i).
Proof. intros Hr Hi. by apply (rg_plain _ _ (user_range_ok va n Hr)). Qed.

(** The pages from an address up to the next table. *)
Definition to_next (va : Z) : nat := Z.to_nat (512 - PML_IDX 1 va).

Lemma next_table_spec va n : user_range va (Datatypes.S n) →
  next_table va = nth_page va (to_next va) ∧ u64 (next_table va - va) / PAGE_SIZE = Z.of_nat (to_next va) ∧ (0 < to_next va)%nat ∧
  PML_IDX 1 (next_table va) = 0 ∧ ∀ i, (i < to_next va)%nat → path_of (nth_page va i) = path_of va.
Proof.
  intros [R1 R2 R3]. pose proof (digit_PML 1 va) as [D1 D2]. pose proof (PML_IDX_page 0 va) as E. cbn [Z.of_nat] in E. rewrite Z.pow_0_r, Z.div_1_r in E.
  set (x := va / 4096) in *. assert (va = 4096 * x) as Hx by (pose proof (Z.div_mod va 4096); lia).
  pose proof (Z.div_mod x 512 ltac:(lia)) as Hd. rewrite <-E in Hd.
  assert (next_table va = 2 ^ 21 * (x / 512 + 1)) as Hn.
  { unfold next_table. rewrite wrap_small by lia. change (2 ^ 21 - 1) with (Z.ones 21). rewrite Z.ldiff_ones_r by lia.
    rewrite Z.shiftl_mul_pow2, Z.shiftr_div_pow2 by lia.
    assert ((va + 2 ^ 21) / 2 ^ 21 = x / 512 + 1) as ->; [|lia].
    symmetry. apply (Z.div_unique _ _ _ (4096 * PML_IDX 1 va)); lia. }
  assert (next_table va = nth_page va (to_next va)) as Hnp by (unfold nth_page, to_next; rewrite Hn, Z2Nat.id by lia; lia).
  split; [exact Hnp|]. split; [|split; [unfold to_next; lia|split]].
  - rewrite Hnp. unfold nth_page. replace (va + 4096 * Z.of_nat (to_next va) - va) with (Z.of_nat (to_next va) * 4096) by lia.
    rewrite wrap_small by (unfold to_next; lia). unfold PAGE_SIZE. by rewrite Z.div_mul.
  - rewrite Hn, PML_IDX_page. cbn [Z.of_nat]. rewrite Z.pow_0_r, Z.div_1_r. replace (2 ^ 21 * (x / 512 + 1)) with ((512 * (x / 512 + 1)) * 4096) by lia.
    rewrite Z.div_mul by lia. rewrite Z.mul_comm. by apply Z.mod_mul.
  - intros i Hi. unfold path_of. rewrite !PML_IDX_page. unfold nth_page.
    replace (va + 4096 * Z.of_nat i) with (Z.of_nat i * 4096 + va) by lia. rewrite Z.div_add_l by lia. fold x.
    assert ((Z.of_nat i + x) / 512 = x / 512) as Ei.
    { symmetry. apply (Z.div_unique _ _ _ (PML_IDX 1 va + Z.of_nat i)); unfold to_next in Hi; lia. }
    change (512 ^ Z.of_nat 1) with 512. change (512 ^ Z.of_nat 2) with (512 * 512). change (512 ^ Z.of_nat 3) with (512 * (512 * 512)).
    by rewrite <-!(Z.div_div _ 512), Ei by lia.
Qed.

(** ** Tables *)

Lemma there_not_blocked s root va p : node s root (path_of va) = Some p → ¬ blocked s root va.
Proof.
  intros Hp (pre & i & rest & q & E & Hq & Hb). rewrite E, cons_middle, app_assoc in Hp. apply node_prefix in Hp as [t Ht].
  rewrite pm_node_snoc, Hq in Ht. unfold leads_to in Ht. rewrite Hb, andb_false_r in Ht. done.
Qed.

Lemma no_large_not_blocked s root va : no_large s root → plain_va va → ¬ blocked s root va.
Proof.
  intros Hl Hva (pre & i & rest & q & E & Hq & Hb). pose proof (path_in_tree va Hva) as Ht. rewrite E, cons_middle, app_assoc in Ht.
  rewrite (Hl pre i q) in Hb; [done|by eapply pm_in_tree_prefix|done].
Qed.

Lemma pte_location s root va p : pm_ok s root → plain_va va → node s root (path_of va) = Some p →
  MmGetPteLocation root va s = Ok (p, PML_IDX 1 va) ∧ ld_pte p (PML_IDX 1 va) s = Ok (word_at s p (PML_IDX 1 va)).
Proof.
  intros Hok Hva Hp. unfold MmGetPteLocation. rewrite check_levels_spec, Hp by (done || by eapply there_not_blocked).
  split; [done|]. apply good_ld; [apply (po_pages s root Hok (path_of va)); [by apply path_in_tree|done]|apply digit_PML].
Qed.

(** Looking for a table without making one. *)
Lemma check_location s root va : pm_ok s root → no_large s root → plain_va va →
  MmCheckPteLocation root va false s = Ok (match node s root (path_of va) with Some _ => true | None => false end, s).
Proof.
  intros Hok Hl Hva. unfold MmCheckPteLocation. rewrite (proj2 (Z.eqb_neq _ _) Hva). cbn [check negb mbind outcome_bind].
  rewrite check_levels_spec by (done || by apply no_large_not_blocked). cbn [mbind outcome_bind]. by destruct (node s root (path_of va)).
Qed.

(** Looking for a table and making it. *)
Lemma make_location s root va : pm_ok s root → no_large s root → plain_va va →
  ∃ ok s', MmCheckPteLocation root va true s = Ok (ok, s') ∧ kept s root s' ∧
    if (ok : bool) then is_Some (node s' root (path_of va)) else node s' root (path_of va) = None ∧ node s root (path_of va) = None.
Proof.
  intros Hok Hl Hva. unfold MmCheckPteLocation. rewrite (proj2 (Z.eqb_neq _ _) Hva). cbn [check negb mbind outcome_bind].
  rewrite check_levels_spec by (done || by apply no_large_not_blocked). cbn [mbind outcome_bind].
  destruct (node s root (path_of va)) as [p|] eqn:Hp.
  - exists true, s. split; [done|]. split; [by apply kept_refl|]. rewrite Hp. by eexists.
  - destruct (MiGetPTEPointer_spec s root va true Hok Hva) as (r & s' & -> & Hk & Hr & _). cbn [mbind outcome_bind].
    destruct r as [[t i]|].
    + exists true, s'. rewrite bool_decide_true by done. split; [done|]. split; [done|]. destruct Hr as [_ ->]. by eexists.
    + exists false, s'. rewrite bool_decide_false by auto. split; [done|]. split; [done|]. split; [apply Hr|done].
Qed.

(** The table of the next address was checked, or it is the same one. *)
Definition at_table (s : S) (root va : Z) (first : bool) : Prop :=
  first = true ∨ PML_IDX 1 va = 0 ∨ is_Some (node s root (path_of va)).

Lemma at_next s root va n p first : user_range va (Datatypes.S n) → node s root (path_of va) = Some p → at_table s root (va + 4096) first.
Proof.
  intros Hr Hp. destruct (next_table_spec va n Hr) as (Hn & _ & Hpos & Hz & Hpath).
  destruct (decide (to_next va = 1%nat)) as [E|E].
  - right. left. rewrite E in Hn. unfold nth_page in Hn. replace (va + 4096) with (next_table va) by lia. done.
  - right. right. replace (va + 4096) with (nth_page va 1) by (unfold nth_page; lia). rewrite (Hpath 1%nat) by lia. by rewrite Hp.
Qed.

(** ** Committing *)

(** May the page of an entry be committed? *)
Definition committable (IsVadCommitted : bool) (o : option Z) : bool :=
  match o with
  | None => negb IsVadCommitted
  | Some e => negb (MmIsPresentPte e || MmIsCommittedPte e) && (negb IsVadCommitted || MmIsDecommittedPte e)
  end.

Definition range_committable (IsVadCommitted : bool) (s : S) (root va : Z) (n : nat) : bool :=
  forallb (λ i, committable IsVadCommitted (pte s root (nth_page va i))) (seq 0 n).

Lemma range_committable_S b s root va n : range_committable b s root va (Datatypes.S n) =
  committable b (pte s root va) && range_committable b s root (va + 4096) n.
Proof.
  unfold range_committable. cbn [seq forallb]. rewrite nth_page_0. f_equal. rewrite <-fmap_S_seq. unfold fmap.
  induction (seq 0 n) as [|i l IH]; [done|]. cbn. by rewrite nth_page_S, IH.
Qed.

Lemma range_committable_skip s root va k : ∀ n, (k ≤ n)%nat → (∀ i, (i < k)%nat → pte s root (nth_page va i) = None) →
  range_committable false s root va n = range_committable false s root (nth_page va k) (n - k).
Proof.
  revert va. induction k as [|k IH]; intros va n Hk Hp; [by rewrite nth_page_0, Nat.sub_0_r|].
  destruct n as [|n]; [lia|]. rewrite range_committable_S. pose proof (Hp 0%nat ltac:(lia)) as H0. rewrite nth_page_0 in H0. rewrite H0. cbn [committable negb andb].
  rewrite (IH (va + 4096) n) by (lia || (intros i Hi; rewrite nth_page_S; apply Hp; lia)). by rewrite nth_page_S.
Qed.

Lemma pte_none_skip s root va n : user_range va (Datatypes.S n) → node s root (path_of va) = None →
  ∀ i, (i < to_next va)%nat → pte s root (nth_page va i) = None.
Proof. intros Hr Hn i Hi. destruct (next_table_spec va n Hr) as (_ & _ & _ & _ & Hpath). unfold pte. by rewrite Hpath, Hn. Qed.

Lemma table_check_false s root va first : pm_ok s root → no_large s root → plain_va va → at_table s root va first →
  table_check first root va false s = Ok (match node s root (path_of va) with Some _ => true | None => false end, s).
Proof.
  intros Hok Hl Hva Hat. unfold table_check. destruct first; cbn [orb]; [by apply check_location|].
  destruct (Z.eqb_spec (PML_IDX 1 va) 0); [by apply check_location|]. destruct Hat as [|[|[p ->]]]; done.
Qed.

Lemma table_check_any s root va first gen : pm_ok s root → no_large s root → plain_va va → at_table s root va first →
  ∃ ok s', table_check first root va gen s = Ok (ok, s') ∧ kept s root s' ∧ (gen = false → s' = s) ∧
    if (ok : bool) then is_Some (node s' root (path_of va)) else node s' root (path_of va) = None ∧ node s root (path_of va) = None.
Proof.
  intros Hok Hl Hva Hat. destruct gen.
  - assert (∃ ok s', MmCheckPteLocation root va true s = Ok (ok, s') ∧ kept s root s' ∧ (true = false → s' = s) ∧
      if (ok : bool) then is_Some (node s' root (path_of va)) else node s' root (path_of va) = None ∧ node s root (path_of va) = None) as Hm.
    { destruct (make_location s root va Hok Hl Hva) as (ok & s' & Hs' & Hk & Hr). by exists ok, s'. }
    unfold table_check. destruct first; cbn [orb]; [exact Hm|]. destruct (Z.eqb_spec (PML_IDX 1 va) 0); [exact Hm|].
    exists true, s. split; [done|]. split; [by apply kept_refl|]. split; [done|]. by destruct Hat as [|[|?]].
  - rewrite table_check_false by done. eexists _, s. split; [done|]. split; [by apply kept_refl|]. split; [done|].
    by destruct (node s root (path_of va)).
Qed.

Lemma commit_check_spec root b s : pm_ok s root → no_large s root → ∀ fuel n i va, user_range va n → (n ≤ fuel)%nat → 0 ≤ i →
  at_table s root va (i =? 0) →
  commit_check fuel root b (i + Z.of_nat n) i va s = Ok (if range_committable b s root va n then STATUS_SUCCESS else STATUS_CONFLICTING_ADDRESSES).
Proof.
  intros Hok Hl. induction fuel as [|fuel IH]; intros n i va Hr Hf Hi Hat.
  { destruct n as [|n]; [|lia]. cbn [commit_check]. by rewrite (proj2 (Z.leb_le _ _)) by lia. }
  destruct n as [|n]; cbn [commit_check].
  { by rewrite (proj2 (Z.leb_le _ _)) by lia. }
  rewrite (proj2 (Z.leb_gt _ _)) by lia. pose proof (user_nth va _ 0 Hr ltac:(lia)) as Hva. rewrite nth_page_0 in Hva.
  rewrite table_check_false by done. cbn [mbind outcome_bind]. destruct (node s root (path_of va)) as [p|] eqn:Hp; cbn [negb].
  - destruct (pte_location s root va p Hok Hva Hp) as [-> Hld]. cbn [mbind outcome_bind]. rewrite Hld. cbn [mbind outcome_bind].
    rewrite range_committable_S. unfold pte at 1. rewrite Hp. cbn [committable].
    destruct (MmIsPresentPte _ || MmIsCommittedPte _); [done|]. cbn [negb andb].
    destruct b; cbn [negb orb andb].
    + destruct (MmIsDecommittedPte _); cbn [negb andb]; [|done]. destruct (user_next va n Hr) as [Hr' ->].
      replace (i + Z.of_nat (Datatypes.S n)) with (i + 1 + Z.of_nat n) by lia. apply IH; [done|lia|lia|by eapply at_next].
    + destruct (user_next va n Hr) as [Hr' ->].
      replace (i + Z.of_nat (Datatypes.S n)) with (i + 1 + Z.of_nat n) by lia. apply IH; [done|lia|lia|by eapply at_next].
  - destruct (next_table_spec va n Hr) as (Hnx & Hk & Hpos & Hz & Hpath). rewrite Hk.
    assert (∀ j, (j < to_next va)%nat → pte s root (nth_page va j) = None) as Hnone by (by eapply pte_none_skip).
    destruct b.
    { rewrite range_committable_S. specialize (Hnone 0%nat ltac:(lia)). rewrite nth_page_0 in Hnone. by rewrite Hnone. }
    rewrite Hnx. destruct (decide (Datatypes.S n ≤ to_next va)%nat) as [Hle|Hgt].
    + rewrite (range_committable_skip s root va (Datatypes.S n)) by (lia || (intros j Hj; apply Hnone; lia)). rewrite Nat.sub_diag.
      destruct fuel; cbn [commit_check]; by rewrite (proj2 (Z.leb_le _ _)) by lia.
    + rewrite (range_committable_skip s root va (to_next va)) by (lia || done).
      replace (i + Z.of_nat (Datatypes.S n)) with (i + Z.of_nat (to_next va) + Z.of_nat (Datatypes.S n - to_next va)) by lia.
      apply IH; [apply (user_sub va (Datatypes.S n)); [done|lia]|lia|lia|]. right. left. by rewrite <-Hnx.
Qed.

(** The loop that commits: all pages, or those before the one whose table there
    was no memory for. *)
Lemma commit_set_spec root n : ∀ va s first, pm_ok s root → no_large s root → user_range va n → at_table s root va first →
  ∃ k St s', commit_set n first root va s = Ok (St, s') ∧ mapped_with false 0 s root va (replicate k 0) s' ∧ (k ≤ n)%nat ∧
    St = (if decide (k = n) then STATUS_SUCCESS else STATUS_INSUFFICIENT_MEMORY).
Proof.
  induction n as [|n IH]; intros va s first Hok Hl Hr Hat; cbn [commit_set].
  { exists 0%nat, STATUS_SUCCESS, s. split; [done|]. split; [by apply mapped_nil|done]. }
  pose proof (user_nth va _ 0 Hr ltac:(lia)) as Hva. rewrite nth_page_0 in Hva. destruct (user_next va n Hr) as [Hr' Hu].
  destruct (table_check_any s root va first true Hok Hl Hva Hat) as (ok & s1 & -> & Hk & _ & Hres).
  cbn [mbind outcome_bind]. destruct ok; cbn [negb].
  2: { exists 0%nat, STATUS_INSUFFICIENT_MEMORY, s1. split; [done|]. split; [|split; [lia|by rewrite decide_False by lia]].
    apply (kept_mapped s root s1); [done|]. apply mapped_nil, Hk. }
  destruct Hres as [p Hp]. pose proof (kp_ok _ _ _ Hk) as Hok1. destruct (pte_location s1 root va p Hok1 Hva Hp) as [-> _]. cbn [mbind outcome_bind].
  destruct (st_pte_wrote s1 root va (anon_pte false 0 0) p Hok1 Hva Hp) as (s2 & Hs2 & Hw); [done|]. cbn [anon_pte] in Hs2. rewrite Hs2. cbn [mbind outcome_bind].
  rewrite Hu. destruct (IH (va + 4096) s2 false) as (k & St & s' & -> & Hm & Hkn & ->).
  - apply (wr_ok _ _ _ _ _ Hw).
  - apply (wr_large _ _ _ _ _ Hw), (kp_large _ _ _ Hk), Hl.
  - done.
  - apply (at_next s2 root va n p); [done|]. rewrite (wr_node _ _ _ _ _ Hw); [done|by apply path_in_tree].
  - exists (Datatypes.S k), (if decide (k = n) then STATUS_SUCCESS else STATUS_INSUFFICIENT_MEMORY), s'. split; [done|]. split; [|split; [lia|]].
    + apply (kept_mapped s root s1); [done|]. cbn [replicate].
      apply (mapped_cons false 0 s1 root va 0 s2 (replicate k 0) s' n); [by apply user_range_ok|by rewrite length_replicate|apply (wr_pte _ _ _ _ _ Hw)|
        apply (wr_node _ _ _ _ _ Hw)|done|intros m _; apply (wr_refs _ _ _ _ _ Hw)|apply (wr_large _ _ _ _ _ Hw)|done].
    + destruct (decide (k = n)); case_decide; done || lia.
Qed.

(** ** Decommitting *)

(** The entries that the code has a name for. *)
Definition known (e : Z) : bool := MmIsPresentPte e || (e =? 0) || MmIsCommittedPte e || MmIsDecommittedPte e.

Lemma decommit_one s root va p new : pm_ok s root → plain_va va → node s root (path_of va) = Some p → 0 ≤ new < 2 ^ 64 →
  let e := word_at s p (PML_IDX 1 va) in known e = true → (∀ f, f ∈ frame1 (Some (present_only e)) → foreign s root f) →
  ∃ s1 s', decommit_entry e s = Ok s1 ∧ st_pte p (PML_IDX 1 va) new s1 = Ok s' ∧ pm_ok s' root ∧
    (∀ va', plain_va va' → pte s' root va' = if decide (slot va' = slot va) then Some new else pte s root va') ∧
    (∀ path, in_tree path → node s' root path = node s root path) ∧ dropped (frame1 (Some (present_only e))) s root s' ∧
    (no_large s root → no_large s' root).
Proof.
  intros Hok Hva Hp Hnew e Hkn Hfor.
  assert (∃ s1, decommit_entry e s = Ok s1 ∧ pm_ok s1 root ∧ pf_mem s1 = pf_mem s ∧ (∀ path, node s1 root path = node s root path) ∧
    ∀ m, pf_refs s1 m = if decide (m ∈ frame1 (Some (present_only e))) then drop_ref (pf_refs s m) else pf_refs s m) as (s1 & Hs1 & Hok1 & Hm1 & Hn1 & Hr1).
  { unfold decommit_entry, known, present_only, frame1 in *. destruct (MmIsPresentPte e) eqn:Hpr.
    - destruct (MmIsFromPmmPte e) eqn:Hpmm.
      + destruct (free_foreign s root (MmGetPfnPte e) Hok) as (s1 & Hs1 & Hok1 & Hm1 & Hn1 & Hr1); [apply Hfor; by left|].
        exists s1. split; [exact Hs1|]. split; [done|]. split; [done|]. split; [done|]. intros m. rewrite Hr1.
        by rewrite (decide_ext (m ∈ [MmGetPfnPte e]) (m = MmGetPfnPte e) _ _ (list_elem_of_singleton m _)).
      + exists s. by split_and!.
    - assert (MmIsFromPmmPte 0 = false) as -> by done. exists s. split; [|by split_and!].
      unfold MmIsEqualPte, MmBuildZeroPte. cbn [orb] in Hkn. destruct (e =? 0); [done|]. cbn [negb orb] in *. by rewrite Hkn. }
  exists s1. destruct (st_pte_wrote s1 root va new p Hok1 Hva) as (s' & Hs' & Hw); [by rewrite Hn1|done|].
  exists s'. split; [exact Hs1|]. split; [exact Hs'|]. split; [apply (wr_ok _ _ _ _ _ Hw)|].
  assert (∀ va', pte s1 root va' = pte s root va') as Hpe by (intros va'; unfold pte, word_at; by rewrite Hn1, Hm1).
  split; [intros va' Hva'; rewrite (wr_pte _ _ _ _ _ Hw) by done; by rewrite Hpe|].
  split; [intros path Ht; by rewrite (wr_node _ _ _ _ _ Hw), Hn1|]. split.
  - split; [intros m; by rewrite (wr_refs _ _ _ _ _ Hw), Hr1|]. intros m Hm. rewrite (wr_mem _ _ _ _ _ Hw), Hm1; [done|]. by apply (off_tree_same s).
  - intros Hl. apply (wr_large _ _ _ _ _ Hw). intros path i t Ht. unfold word_at. rewrite Hn1, Hm1. by apply Hl.
Qed.

(** The entries of a range were set to [new], where there are tables; [gen] says
    that missing ones are made. *)
Record decommitted (gen : bool) (new : Z) (s : S) (root va : Z) (n : nat) (s' : S) : Prop := {
  dc_ok : pm_ok s' root;
  dc_large : no_large s root → no_large s' root;
  dc_pte i : (i < n)%nat → match pte s root (nth_page va i) with
    | Some _ => pte s' root (nth_page va i) = Some new
    | None => pte s' root (nth_page va i) = None ∨ (gen = true ∧ (pte s' root (nth_page va i) = Some new ∨ pte s' root (nth_page va i) = Some 0))
    end;
  dc_other va' : plain_va va' → (∀ i, (i < n)%nat → slot va' ≠ slot (nth_page va i)) → kept_or_new (pte s root va') (pte s' root va');
  dc_same va' : gen = false → plain_va va' → (∀ i, (i < n)%nat → slot va' ≠ slot (nth_page va i)) → pte s' root va' = pte s root va';
  dc_node path : gen = false → in_tree path → node s' root path = node s root path;
  dc_refs m r : pf_refs s m = Some r →
    if decide (m ∈ frames_of present_only s root va n) then (r ≠ 1 → pf_refs s' m = Some (r - 1)) ∧ (r = 1 → gen = false → pf_refs s' m = None)
    else pf_refs s' m = Some r;
  dc_foreign m : foreign s root m → m ∉ frames_of present_only s root va n → foreign s' root m;
  dc_used m : gen = false → is_Some (pf_refs s' m) → is_Some (pf_refs s m);
}.

Lemma kept_or_new_frame o o' : kept_or_new o o' → frame1 (present_only <$> o') = frame1 (present_only <$> o).
Proof. destruct o; cbn [kept_or_new]; [by intros ->|]. by intros [-> | ->]. Qed.

Lemma frames_of_kept s root s1 va n : kept s root s1 → range_ok va n → frames_of present_only s1 root va n = frames_of present_only s root va n.
Proof.
  intros Hk Hr. apply frames_of_ext; [done|]. intros i Hi. apply kept_or_new_frame, (kept_pte s root s1); [done|by apply (rg_plain _ _ Hr)].
Qed.

Lemma dec_nil gen new s root va : pm_ok s root → decommitted gen new s root va 0 s.
Proof.
  intros Hok. split; try done.
  - lia.
  - intros va' _ _. destruct (pte s root va'); [done|by left].
Qed.

Lemma dec_kept gen new s root s1 va n s' : range_ok va n → kept s root s1 → (gen = false → s1 = s) →
  decommitted gen new s1 root va n s' → decommitted gen new s root va n s'.
Proof.
  intros Hr Hk Hg [D1 D2 D3 D4 D5 D6 D7 D8 D9]. pose proof (frames_of_kept s root s1 va n Hk Hr) as Hfs. rewrite Hfs in *. split.
  - done.
  - intros Hl. by apply D2, (kp_large _ _ _ Hk).
  - intros i Hi. pose proof (kept_pte s root s1 _ Hk (rg_plain _ _ Hr i Hi)) as Hp. specialize (D3 i Hi). destruct gen; [|by rewrite <-(Hg eq_refl)].
    destruct (pte s root (nth_page va i)) as [e|]; [by rewrite Hp in D3|]. destruct Hp as [E|E]; rewrite E in D3; [exact D3|]. right. split; [done|]. by left.
  - intros va' Hva' Hne. eapply kept_or_new_trans; [by apply (kept_pte s root s1)|by apply D4].
  - intros va' Hf. rewrite <-(Hg Hf). by apply D5.
  - intros path Hf. rewrite <-(Hg Hf). by apply D6.
  - intros m r Hm. apply D7. by apply (kp_refs _ _ _ Hk).
  - intros m Hm. apply D8. by apply (kp_mem _ _ _ Hk).
  - intros m Hf. rewrite <-(Hg Hf). by apply D9.
Qed.

Lemma frames_of_S g s root va n : frames_of g s root va (Datatypes.S n) = frame1 (g <$> pte s root va) ++ frames_of g s root (va + 4096) n.
Proof. done. Qed.

Lemma dec_step gen new s root va e n s1 s' : range_ok va (Datatypes.S n) → pte s root va = Some e →
  (∀ va', plain_va va' → pte s1 root va' = if decide (slot va' = slot va) then Some new else pte s root va') →
  (∀ path, in_tree path → node s1 root path = node s root path) → dropped (frame1 (Some (present_only e))) s root s1 → (no_large s root → no_large s1 root) →
  NoDup (frames_of present_only s root va (Datatypes.S n)) → (∀ f, f ∈ frame1 (Some (present_only e)) → is_Some (pf_refs s f)) →
  decommitted gen new s1 root (va + 4096) n s' → decommitted gen new s root va (Datatypes.S n) s'.
Proof.
  intros Hr He Hp1 Hn1 [R1 _] Hlg Hnd Hused [D1 D2 D3 D4 D5 D6 D7 D8 D9]. pose proof (range_next va n Hr) as Hr'. pose proof (range_plain va n Hr) as Hva.
  assert (∀ i, (i < n)%nat → pte s1 root (nth_page (va + 4096) i) = pte s root (nth_page (va + 4096) i)) as Hp1'.
  { intros i Hi. rewrite Hp1 by (by apply (rg_plain _ _ Hr')). by rewrite decide_False by (by apply slot_first with n). }
  assert (frames_of present_only s1 root (va + 4096) n = frames_of present_only s root (va + 4096) n) as Hfs.
  { apply frames_of_ext; [done|]. intros i Hi. by rewrite Hp1'. }
  rewrite Hfs in *. rewrite frames_of_S, He in *. cbn [fmap option_fmap option_map] in *. apply NoDup_app in Hnd as (_ & Hdis & _). split.
  - done.
  - intros Hl. by apply D2, Hlg.
  - intros [|i] Hi.
    + rewrite nth_page_0, He. specialize (D4 va Hva). rewrite Hp1 in D4 by done. rewrite decide_True in D4 by done. apply D4. intros i Hi' E. symmetry in E. revert E.
      by apply slot_first with n.
    + rewrite <-nth_page_S, <-Hp1' by lia. apply D3. lia.
  - intros va' Hva' Hne. specialize (D4 va' Hva'). rewrite Hp1 in D4 by done. rewrite decide_False in D4; [|rewrite <-(nth_page_0 va); apply Hne; lia].
    apply D4. intros i Hi. rewrite nth_page_S. apply Hne. lia.
  - intros va' Hf Hva' Hne. rewrite D5; [|done|done|intros i Hi; rewrite nth_page_S; apply Hne; lia]. rewrite Hp1 by done.
    rewrite decide_False; [done|rewrite <-(nth_page_0 va); apply Hne; lia].
  - intros path Hf Ht. by rewrite D6, Hn1.
  - intros m r Hm. specialize (R1 m). rewrite Hm in R1. rewrite frames_of_S, He. cbn [fmap option_fmap option_map].
    destruct (decide (m ∈ frame1 (Some (present_only e)) ++ frames_of present_only s root (va + 4096) n)) as [E|E].
    + apply elem_of_app in E as [E|E].
      * rewrite decide_True in R1 by exact E. cbn [drop_ref] in R1. destruct (Z.eqb_spec r 1) as [Er|Hne].
        -- split; [done|]. intros _ Hf. destruct (pf_refs s' m) as [x|] eqn:Ex; [|done].
           specialize (D9 m Hf). rewrite R1, Ex in D9. by destruct D9 as [? [=]].
        -- specialize (D7 m (r - 1) R1). rewrite decide_False in D7 by (by apply Hdis). by split.
      * rewrite decide_False in R1 by (intros E'; by apply (Hdis m)). specialize (D7 m r R1). by rewrite decide_True in D7 by exact E.
    + apply not_elem_of_app in E as [E1 E2]. rewrite decide_False in R1 by exact E1. specialize (D7 m r R1). by rewrite decide_False in D7 by exact E2.
  - intros m Hm Hnot. rewrite frames_of_S, He in Hnot. apply not_elem_of_app in Hnot as [H1 H2]. apply D8; [|done]. apply (foreign_same s); [done| |done]. rewrite R1, decide_False by done. apply Hm.
  - intros m Hf Hm. apply (D9 m Hf) in Hm. rewrite R1 in Hm. case_decide as E; [by apply Hused|done].
Qed.

Lemma frames_of_skip g s root k : ∀ va n, (∀ i, (i < k)%nat → pte s root (nth_page va i) = None) → (k ≤ n)%nat →
  frames_of g s root va n = frames_of g s root (nth_page va k) (n - k).
Proof.
  induction k as [|k IH]; intros va n Hp Hk; [by rewrite nth_page_0, Nat.sub_0_r|]. destruct n as [|n]; [lia|].
  rewrite frames_of_S. pose proof (Hp 0%nat ltac:(lia)) as H0. rewrite nth_page_0 in H0. rewrite H0. cbn [fmap option_fmap option_map frame1 app].
  rewrite IH by (lia || (intros i Hi; rewrite nth_page_S; apply Hp; lia)). by rewrite nth_page_S.
Qed.

Lemma dec_skip gen new s root va k n s' : range_ok va n → (k ≤ n)%nat → (∀ i, (i < k)%nat → pte s root (nth_page va i) = None) →
  decommitted gen new s root (nth_page va k) (n - k) s' → decommitted gen new s root va n s'.
Proof.
  intros Hr Hk Hnone [D1 D2 D3 D4 D5 D6 D7 D8 D9]. rewrite <-(frames_of_skip present_only s root k va n Hnone Hk) in *.
  assert (∀ i, nth_page (nth_page va k) i = nth_page va (k + i)) as Hnn by (intros i; unfold nth_page; lia).
  assert (∀ va', (∀ i, (i < n)%nat → slot va' ≠ slot (nth_page va i)) → ∀ i, (i < n - k)%nat → slot va' ≠ slot (nth_page (nth_page va k) i)) as Hout.
  { intros va' Hne i Hi. rewrite Hnn. apply Hne. lia. }
  split; [done|done| |by auto|by auto|done|done|done|done].
  intros i Hi. destruct (decide (i < k)%nat) as [Hlt|Hge].
  - rewrite Hnone by done. pose proof (rg_plain _ _ Hr i Hi) as Hpi.
    assert (∀ j, (j < n - k)%nat → slot (nth_page va i) ≠ slot (nth_page (nth_page va k) j)) as Hne.
    { intros j Hj E. rewrite Hnn in E. apply (slot_nth va n) in E; [lia|done|lia|lia]. }
    destruct gen.
    + specialize (D4 _ Hpi Hne). rewrite Hnone in D4 by done. destruct D4 as [D4|D4]; [by left|right]. split; [done|by right].
    + left. rewrite D5 by done. by apply Hnone.
  - specialize (D3 (i - k)%nat ltac:(lia)). by replace (nth_page (nth_page va k) (i - k)) with (nth_page va i) in D3 by (rewrite Hnn; f_equal; lia).
Qed.

Lemma frames_foreign_kept s root s1 va n : kept s root s1 → range_ok va n → (∀ f, f ∈ frames_of present_only s root va n → foreign s root f) →
  ∀ f, f ∈ frames_of present_only s1 root va n → foreign s1 root f.
Proof. intros Hk Hr Hf f. rewrite (frames_of_kept s root s1 va n Hk Hr). intros Hin. by apply (kp_mem _ _ _ Hk), Hf. Qed.

Lemma pte_known_kept s root s1 va : kept s root s1 → plain_va va → (∀ e, pte s root va = Some e → known e = true) → ∀ e, pte s1 root va = Some e → known e = true.
Proof.
  intros Hk Hva Hkn e He. pose proof (kept_pte s root s1 va Hk Hva) as Hp. destruct (pte s root va) as [e0|]; [apply Hkn; congruence|].
  destruct Hp as [E|E]; rewrite E in He; [done|]. by injection He as <-.
Qed.

Lemma decommit_pages_spec root bc st : let gen := bc && st in let new := if st then MmBuildAbsentPte MM_PAGE_DECOMMITTED else MmBuildZeroPte in
  ∀ fuel n s i va, pm_ok s root → no_large s root → user_range va n → (n ≤ fuel)%nat → 0 ≤ i → at_table s root va (i =? 0) →
  (∀ j e, (j < n)%nat → pte s root (nth_page va j) = Some e → known e = true) →
  NoDup (frames_of present_only s root va n) → (∀ f, f ∈ frames_of present_only s root va n → foreign s root f) →
  ∃ s', decommit_pages fuel root bc st (i + Z.of_nat n) i va s = Ok s' ∧ decommitted gen new s root va n s'.
Proof.
  intros gen new. induction fuel as [|fuel IH]; intros n s i va Hok Hl Hr Hfu Hi Hat Hkn Hnd Hfor.
  { destruct n as [|n]; [|lia]. cbn [decommit_pages]. rewrite (proj2 (Z.leb_le _ _)) by lia. exists s. split; [done|]. by apply dec_nil. }
  destruct n as [|n]; cbn [decommit_pages].
  { rewrite (proj2 (Z.leb_le _ _)) by lia. exists s. split; [done|]. by apply dec_nil. }
  rewrite (proj2 (Z.leb_gt _ _)) by lia. pose proof (user_nth va _ 0 Hr ltac:(lia)) as Hva. rewrite nth_page_0 in Hva. pose proof (user_range_ok va _ Hr) as Hro.
  destruct (table_check_any s root va (i =? 0) gen Hok Hl Hva Hat) as (ok & s1 & Hs1 & Hk & Hsame & Hres). unfold gen in Hs1. rewrite Hs1. cbn [mbind outcome_bind].
  pose proof (kp_ok _ _ _ Hk) as Hok1. pose proof (kp_large _ _ _ Hk Hl) as Hl1.
  assert (NoDup (frames_of present_only s1 root va (Datatypes.S n))) as Hnd1 by (by rewrite (frames_of_kept s root s1 va _ Hk Hro)).
  pose proof (frames_foreign_kept s root s1 va _ Hk Hro Hfor) as Hfor1.
  assert (∀ j e, (j < Datatypes.S n)%nat → pte s1 root (nth_page va j) = Some e → known e = true) as Hkn1.
  { intros j e Hj. apply (pte_known_kept s root s1); [done|by apply (rg_plain _ _ Hro)|]. intros e'. by apply Hkn. }
  destruct ok; cbn [negb].
  - destruct Hres as [p Hp]. destruct (pte_location s1 root va p Hok1 Hva Hp) as [-> Hld]. cbn [mbind outcome_bind]. rewrite Hld. cbn [mbind outcome_bind].
    set (e := word_at s1 p (PML_IDX 1 va)) in *. assert (pte s1 root va = Some e) as Hpe by (unfold pte; by rewrite Hp).
    assert (frame1 (present_only <$> pte s1 root va) = frame1 (Some (present_only e))) as Hfe by (by rewrite Hpe).
    destruct (decommit_one s1 root va p new Hok1 Hva Hp) as (s2 & s3 & Hs2 & Hs3 & Hok3 & Hp3 & Hn3 & Hd3 & Hl3).
    { unfold new. by destruct st. }
    { apply (Hkn1 0%nat); [lia|]. by rewrite nth_page_0. }
    { intros f Hf. apply Hfor1. rewrite frames_of_S, Hfe. apply elem_of_app. by left. }
    fold e in Hs2, Hd3. rewrite Hs2. cbn [mbind outcome_bind]. unfold new in Hs3. rewrite Hs3. cbn [mbind outcome_bind].
    destruct (user_next va n Hr) as [Hr' ->].
    assert (∀ j, (j < n)%nat → pte s3 root (nth_page (va + 4096) j) = pte s1 root (nth_page (va + 4096) j)) as Hp3'.
    { intros j Hj. rewrite Hp3 by (by apply (rg_plain _ _ (range_next _ _ Hro))). by rewrite decide_False by (by apply slot_first with n). }
    assert (frames_of present_only s3 root (va + 4096) n = frames_of present_only s1 root (va + 4096) n) as Hfs3.
    { apply frames_of_ext; [by apply range_next|]. intros j Hj. by rewrite Hp3'. }
    pose proof Hnd1 as Hnd1'. rewrite frames_of_S, Hfe in Hnd1'. apply NoDup_app in Hnd1' as (_ & Hdis & Hnd2).
    destruct (IH n s3 (i + 1) (va + 4096) Hok3 (Hl3 Hl1) Hr') as (s' & Hs' & Hd'); [lia|lia| | |by rewrite Hfs3| |].
    + apply (at_next s3 root va n p); [done|]. rewrite Hn3; [done|by apply path_in_tree].
    + intros j e' Hj. rewrite Hp3', nth_page_S by done. apply Hkn1. lia.
    + rewrite Hfs3. intros f Hf. assert (foreign s1 root f) as Hff by (apply Hfor1; rewrite frames_of_S; apply elem_of_app; by right).
      apply (foreign_same s1); [done| |done]. rewrite (proj1 Hd3), decide_False by (intros E; by apply (Hdis f)). apply Hff.
    + replace (i + Z.of_nat (Datatypes.S n)) with (i + 1 + Z.of_nat n) by lia. exists s'. split; [exact Hs'|].
      apply (dec_kept gen new s root s1); [done|done|done|]. apply (dec_step gen new s1 root va e n s3); try done.
      intros f Hf. apply Hfor1. rewrite frames_of_S, Hfe. apply elem_of_app. by left.
  - destruct Hres as [Hn1 _]. destruct (next_table_spec va n Hr) as (Hnx & Hkk & Hpos & Hz & _). rewrite Hkk.
    pose proof (pte_none_skip s1 root va n Hr Hn1) as Hnone. rewrite Hnx.
    destruct (decide (Datatypes.S n ≤ to_next va)%nat) as [Hle|Hgt].
    + exists s1. split; [destruct fuel; cbn [decommit_pages]; by rewrite (proj2 (Z.leb_le _ _)) by lia|].
      apply (dec_kept gen new s root s1); [done|done|done|]. apply (dec_skip gen new s1 root va (Datatypes.S n)); [done|lia|intros j Hj; apply Hnone; lia|].
      rewrite Nat.sub_diag. by apply dec_nil.
    + assert ((to_next va ≤ Datatypes.S n)%nat) as Hle by lia.
      pose proof (frames_of_skip present_only s1 root (to_next va) va (Datatypes.S n) Hnone Hle) as Hfs.
      destruct (IH (Datatypes.S n - to_next va)%nat s1 (i + Z.of_nat (to_next va)) (nth_page va (to_next va)) Hok1 Hl1) as (s' & Hs' & Hd').
      * apply (user_sub va (Datatypes.S n)); [done|lia].
      * lia.
      * lia.
      * right. left. by rewrite <-Hnx.
      * intros j e Hj. replace (nth_page (nth_page va (to_next va)) j) with (nth_page va (to_next va + j)) by (unfold nth_page; lia). apply Hkn1. lia.
      * by rewrite <-Hfs.
      * rewrite <-Hfs. exact Hfor1.
      * replace (i + Z.of_nat (Datatypes.S n)) with (i + Z.of_nat (to_next va) + Z.of_nat (Datatypes.S n - to_next va)) by lia. exists s'. split; [exact Hs'|].
        apply (dec_kept gen new s root s1); [done|done|done|]. by apply (dec_skip gen new s1 root va (to_next va)).
Qed.

(** ** Clearing *)

Lemma frames_of_absent s root va n : (∀ j e, (j < n)%nat → pte s root (nth_page va j) = Some e → MmIsPresentPte e = false) →
  frames_of present_only s root va n = [].
Proof.
  revert va. induction n as [|n IH]; intros va Hp; [done|]. rewrite frames_of_S, IH.
  - pose proof (Hp 0%nat) as H0. rewrite nth_page_0 in H0. destruct (pte s root va) as [e|]; [|done]. cbn [fmap option_fmap option_map frame1].
    unfold present_only. by rewrite (H0 e) by (done || lia).
  - intros j e Hj. rewrite nth_page_S. apply Hp. lia.
Qed.

(** How many of the tables for the entries of a range are missing. *)
Fixpoint missing_tables (s : S) (root va : Z) (first : bool) (n : nat) : nat :=
  match n with
  | O => 0
  | Datatypes.S n => (if (first || (PML_IDX 1 va =? 0)) && bool_decide (pte s root va = None) then 1 else 0) + missing_tables s root (va + 4096) false n
  end.

Lemma missing_ext s s' root n : ∀ va first, (∀ j, (j < n)%nat → pte s' root (nth_page va j) = None ↔ pte s root (nth_page va j) = None) →
  missing_tables s' root va first n = missing_tables s root va first n.
Proof.
  induction n as [|n IH]; intros va first He; [done|]. cbn [missing_tables]. rewrite (IH (va + 4096)).
  - pose proof (He 0%nat ltac:(lia)) as H0. rewrite nth_page_0 in H0. by rewrite (bool_decide_ext _ _ H0).
  - intros j Hj. rewrite nth_page_S. apply He. lia.
Qed.

Lemma missing_app s root k m : ∀ va first, (0 < k)%nat → missing_tables s root va first (k + m) =
  (missing_tables s root va first k + missing_tables s root (nth_page va k) false m)%nat.
Proof.
  induction k as [|[|k] IH]; intros va first Hk; [lia| |].
  - cbn [missing_tables Nat.add]. replace (nth_page va 1) with (va + 4096) by (unfold nth_page; lia). lia.
  - change (Datatypes.S (Datatypes.S k) + m)%nat with (Datatypes.S (Datatypes.S k + m)). cbn [missing_tables]. 
    rewrite (IH (va + 4096) false) by lia. rewrite nth_page_S. cbn [missing_tables]. lia.
Qed.

Lemma missing_mono s root m : ∀ k va first, (k ≤ m)%nat → (missing_tables s root va first k ≤ missing_tables s root va first m)%nat.
Proof. induction m as [|m IH]; intros [|k] va first Hk; cbn [missing_tables]; try lia. specialize (IH k (va + 4096) false). lia. Qed.

(** The loop clears the entries of the first [stop] pages of the range; for each
    table that is missing on the way a page at the end may be left out. *)
Lemma clear_pages_spec root : ∀ fuel n s i va, pm_ok s root → no_large s root → user_range va n → (n ≤ fuel)%nat → 0 ≤ i → at_table s root va (i =? 0) →
  (∀ j e, (j < n)%nat → pte s root (nth_page va j) = Some e → MmIsPresentPte e = false) →
  ∃ stop s', clear_pages fuel root (i + Z.of_nat n) i va s = Ok s' ∧ (stop ≤ n)%nat ∧ decommitted false 0 s root va stop s' ∧
    (n ≤ stop + missing_tables s root va (i =? 0)%Z n)%nat.
Proof.
  induction fuel as [|fuel IH]; intros n s i va Hok Hl Hr Hfu Hi Hat Hab.
  { destruct n as [|n]; [|lia]. cbn [clear_pages]. rewrite (proj2 (Z.leb_le _ _)) by lia. exists 0%nat, s. split; [done|]. split; [done|]. split; [by apply dec_nil|lia]. }
  destruct n as [|n]; cbn [clear_pages].
  { rewrite (proj2 (Z.leb_le _ _)) by lia. exists 0%nat, s. split; [done|]. split; [done|]. split; [by apply dec_nil|lia]. }
  rewrite (proj2 (Z.leb_gt _ _)) by lia. pose proof (user_nth va _ 0 Hr ltac:(lia)) as Hva. rewrite nth_page_0 in Hva. pose proof (user_range_ok va _ Hr) as Hro.
  rewrite table_check_false by done. cbn [mbind outcome_bind]. destruct (node s root (path_of va)) as [p|] eqn:Hp; cbn [negb].
  - destruct (pte_location s root va p Hok Hva Hp) as [-> Hld]. cbn [mbind outcome_bind]. rewrite Hld. cbn [mbind outcome_bind].
    set (e := word_at s p (PML_IDX 1 va)) in *. assert (pte s root va = Some e) as Hpe by (unfold pte; by rewrite Hp).
    assert (MmIsPresentPte e = false) as He by (apply (Hab 0%nat); [lia|by rewrite nth_page_0]). rewrite He. cbn [negb check mbind outcome_bind].
    destruct (st_pte_wrote s root va 0 p Hok Hva Hp) as (s1 & Hs1 & Hw); [lia|]. unfold MmBuildZeroPte. rewrite Hs1. cbn [mbind outcome_bind].
    destruct (user_next va n Hr) as [Hr' ->].
    assert (∀ j, (j < n)%nat → pte s1 root (nth_page (va + 4096) j) = pte s root (nth_page (va + 4096) j)) as Hp1.
    { intros j Hj. rewrite (wr_pte _ _ _ _ _ Hw) by (by apply (rg_plain _ _ (range_next _ _ Hro))). by rewrite decide_False by (by apply slot_first with n). }
    destruct (IH n s1 (i + 1) (va + 4096)) as (stop & s' & Hs' & Hst & Hd & Hfull); try done; [apply (wr_ok _ _ _ _ _ Hw)|by apply (wr_large _ _ _ _ _ Hw)|lia|lia| | |].
    + apply (at_next s1 root va n p); [done|]. rewrite (wr_node _ _ _ _ _ Hw); [done|by apply path_in_tree].
    + intros j e' Hj. rewrite Hp1, nth_page_S by done. apply Hab. lia.
    + replace (i + Z.of_nat (Datatypes.S n)) with (i + 1 + Z.of_nat n) by lia. exists (Datatypes.S stop), s'. split; [exact Hs'|]. split; [lia|]. split.
      * assert (frame1 (Some (present_only e)) = []) as Hf by (unfold present_only; by rewrite He).
        apply (dec_step false 0 s root va e stop s1); [|done|apply (wr_pte _ _ _ _ _ Hw)|apply (wr_node _ _ _ _ _ Hw)| |apply (wr_large _ _ _ _ _ Hw)| |by rewrite Hf; intros f []%elem_of_nil|done].
        -- apply user_range_ok. destruct Hr as [R1 R2 R3]. split; [done|done|lia].
        -- rewrite Hf. split; [intros m; rewrite decide_False by apply not_elem_of_nil; apply (wr_refs _ _ _ _ _ Hw)|apply (wr_mem _ _ _ _ _ Hw)].
        -- rewrite (frames_of_absent s root va (Datatypes.S stop)); [constructor|]. intros j e' Hj. apply Hab. lia.
      * rewrite (proj2 (Z.eqb_neq (i + 1) 0)) in Hfull by lia. rewrite (missing_ext s s1) in Hfull by (intros j Hj; by rewrite Hp1).
        cbn [missing_tables]. lia.
  - destruct (next_table_spec va n Hr) as (Hnx & Hkk & Hpos & Hz & _). rewrite Hkk.
    pose proof (pte_none_skip s root va n Hr Hp) as Hnone. rewrite Hnx.
    assert (∀ k, (0 < k)%nat → (1 ≤ missing_tables s root va (i =? 0)%Z k)%nat) as Hone.
    { intros [|k] Hk; [lia|]. cbn [missing_tables]. pose proof (Hnone 0%nat Hpos) as H0. rewrite nth_page_0 in H0. rewrite bool_decide_true by done.
      destruct Hat as [->|[->|[? ?]]]; [cbn; lia| |congruence]. rewrite orb_true_r. cbn. lia. }
    destruct (decide (Datatypes.S n ≤ to_next va + 1)%nat) as [Hle|Hgt].
    + set (stop := Nat.min (Datatypes.S n) (to_next va)). exists stop, s.
      split; [destruct fuel; cbn [clear_pages]; by rewrite (proj2 (Z.leb_le _ _)) by lia|]. split; [lia|]. split.
      * apply (dec_skip false 0 s root va stop); [apply user_range_ok; destruct Hr as [R1 R2 R3]; split; [done|done|lia]|lia|intros j Hj; apply Hnone; lia|].
        rewrite Nat.sub_diag. by apply dec_nil.
      * specialize (Hone (Datatypes.S n)). lia.
    + destruct (IH (Datatypes.S n - to_next va - 1)%nat s (i + Z.of_nat (to_next va) + 1) (nth_page va (to_next va)) Hok Hl) as (stop & s' & Hs' & Hst & Hd & Hfull).
      * apply (user_sub va (Datatypes.S n)); [done|lia].
      * lia.
      * lia.
      * right. left. by rewrite <-Hnx.
      * intros j e Hj. replace (nth_page (nth_page va (to_next va)) j) with (nth_page va (to_next va + j)) by (unfold nth_page; lia). apply Hab. lia.
      * replace (i + Z.of_nat (Datatypes.S n)) with (i + Z.of_nat (to_next va) + 1 + Z.of_nat (Datatypes.S n - to_next va - 1)) by lia.
        exists (to_next va + stop)%nat, s'. split; [exact Hs'|]. split; [lia|]. split.
        2: { rewrite (proj2 (Z.eqb_neq _ 0)) in Hfull by lia. specialize (Hone (to_next va) Hpos).
             pose proof (missing_app s root (to_next va) (Datatypes.S n - to_next va) va (i =? 0) Hpos) as Happ.
             replace (to_next va + (Datatypes.S n - to_next va))%nat with (Datatypes.S n) in Happ by lia. rewrite Happ.
             pose proof (missing_mono s root (Datatypes.S n - to_next va) (Datatypes.S n - to_next va - 1) (nth_page va (to_next va)) false). lia. }
        apply (dec_skip false 0 s root va (to_next va)); [apply user_range_ok; destruct Hr as [R1 R2 R3]; split; [done|done|lia]|lia|done|].
        replace (to_next va + stop - to_next va)%nat with stop by lia. exact Hd.
Qed.

(** ** User halves *)

Definition user_va (va : Z) : Prop := 0 ≤ va < 2 ^ 47.

(** The frames that an address maps: at most one. *)
Definition mapped_frame (s : S) (root va : Z) : list Z := frame1 (present_only <$> pte s root va).

(** The user half of a page map: the code has a name for every entry, and each
    page that came from the physical memory manager is mapped once and is no
    table. *)
Record user_map (s : S) (root : Z) : Prop := {
  um_ok : pm_ok s root;
  um_large : no_large s root;
  um_known va e : user_va va → pte s root va = Some e → known e = true;
  um_foreign va f : user_va va → f ∈ mapped_frame s root va → foreign s root f;
  um_once va va' f : user_va va → user_va va' → f ∈ mapped_frame s root va → f ∈ mapped_frame s root va' → slot va = slot va';
}.

Lemma user_va_nth va n i : user_range va n → (i < n)%nat → user_va (nth_page va i).
Proof. intros [R1 R2 R3] Hi. unfold user_va, nth_page. lia. Qed.

Lemma frames_of_in s root f n : ∀ va, f ∈ frames_of present_only s root va n ↔ ∃ i, (i < n)%nat ∧ f ∈ mapped_frame s root (nth_page va i).
Proof.
  induction n as [|n IH]; intros va.
  - split; [by intros ?%elem_of_nil|]. intros (i & Hi & _). lia.
  - rewrite frames_of_S, elem_of_app, IH. split.
    + intros [Hf|(i & Hi & Hf)]; [exists 0%nat; rewrite nth_page_0; split; [lia|exact Hf]|].
      exists (Datatypes.S i). rewrite <-nth_page_S. split; [lia|exact Hf].
    + intros ([|i] & Hi & Hf); [left; by rewrite nth_page_0 in Hf|right]. exists i. rewrite nth_page_S. split; [lia|exact Hf].
Qed.

Lemma frame1_le o : frame1 o = [] ∨ ∃ f, frame1 o = [f].
Proof. destruct o as [e|]; cbn; [|by left]. destruct (MmIsFromPmmPte e); [right; by eexists|by left]. Qed.

Lemma um_range s root va n : user_map s root → user_range va n →
  NoDup (frames_of present_only s root va n) ∧ ∀ f, f ∈ frames_of present_only s root va n → foreign s root f.
Proof.
  intros Hu Hr. split.
  - revert va Hr. induction n as [|n IH]; intros va Hr; [constructor|]. pose proof (user_next va n Hr) as [Hr' _].
    rewrite frames_of_S. apply NoDup_app. split; [|split; [|by apply IH]].
    + destruct (frame1_le (present_only <$> pte s root va)) as [-> | [f ->]]; [constructor|apply NoDup_singleton].
    + intros f Hf (i & Hi & Hf')%frames_of_in. pose proof (user_va_nth va _ 0 Hr ltac:(lia)) as Hva. rewrite nth_page_0 in Hva.
      apply (slot_first va n i (user_range_ok va _ Hr) Hi). symmetry.
      apply (um_once s root Hu va (nth_page (va + 4096) i) f); [done|by apply (user_va_nth _ n)|done|done].
  - intros f (i & Hi & Hf)%frames_of_in. apply (um_foreign s root Hu (nth_page va i)); [by apply (user_va_nth _ n)|done].
Qed.

Lemma slot_pte s root a b : slot a = slot b → pte s root a = pte s root b.
Proof. unfold slot, path_of, pte. intros E. injection E as E1 E2 E3 E4. unfold path_of. by rewrite E1, E2, E3, E4. Qed.

(** Is an address in a range of pages? *)
Lemma in_range va0 va n : {i | (i < n)%nat ∧ slot va0 = slot (nth_page va i)} + {∀ i, (i < n)%nat → slot va0 ≠ slot (nth_page va i)}.
Proof.
  induction n as [|n IH]; [right; lia|]. destruct IH as [(i & Hi & E)|Hno]; [left; exists i; split; [lia|exact E]|].
  destruct (decide (slot va0 = slot (nth_page va n))) as [E|E]; [left; exists n; split; [lia|exact E]|right].
  intros i Hi. destruct (decide (i = n)) as [->|]; [exact E|]. apply Hno. lia.
Qed.

(** Entries that are no longer present, or as they were. *)
Lemma um_change s root s' : user_map s root → pm_ok s' root → no_large s' root →
  (∀ va, user_va va → (∃ e, pte s' root va = Some e ∧ known e = true ∧ MmIsPresentPte e = false) ∨ pte s' root va = None ∨
    (pte s' root va = pte s root va ∧ ∀ f, f ∈ mapped_frame s root va → foreign s' root f)) → user_map s' root.
Proof.
  intros Hu Hok Hl Hc.
  assert (∀ va f, user_va va → f ∈ mapped_frame s' root va → f ∈ mapped_frame s root va ∧ foreign s' root f) as Hm.
  { intros va f Hva Hf. unfold mapped_frame in *. destruct (Hc va Hva) as [(e & He & _ & Hp)|[He|[He Hfor]]].
    - rewrite He in Hf. cbn [fmap option_fmap option_map frame1] in Hf. unfold present_only in Hf. rewrite Hp in Hf. by apply elem_of_nil in Hf.
    - rewrite He in Hf. by apply elem_of_nil in Hf.
    - rewrite He in Hf. split; [exact Hf|by apply Hfor]. }
  split; [done|done| | |].
  - intros va e Hva He. destruct (Hc va Hva) as [(e' & He' & Hkn & _)|[He'|[He' _]]]; [congruence|congruence|].
    apply (um_known s root Hu va); [done|congruence].
  - intros va f Hva Hf. by apply (Hm va f).
  - intros va va' f Hva Hva' Hf Hf'. apply (um_once s root Hu va va' f); [done|done|by apply Hm|by apply Hm].
Qed.

Lemma kept_or_new_cases o o' : kept_or_new o o' → o' = o ∨ o' = Some 0.
Proof. destruct o; cbn; [auto|]. intros [->| ->]; auto. Qed.

Lemma um_decommitted gen new s root va n s' : user_map s root → user_range va n → known new = true → MmIsPresentPte new = false →
  decommitted gen new s root va n s' → user_map s' root.
Proof.
  intros Hu Hr Hkn Hnp Hd. apply (um_change s root); [done|apply (dc_ok _ _ _ _ _ _ _ Hd)|apply (dc_large _ _ _ _ _ _ _ Hd), Hu|].
  intros va0 Hva0. destruct (in_range va0 va n) as [(i & Hi & E)|Hno].
  - rewrite (slot_pte s' root _ _ E). pose proof (dc_pte _ _ _ _ _ _ _ Hd i Hi) as Hp. destruct (pte s root (nth_page va i)) as [e|].
    + left. by exists new.
    + destruct Hp as [Hp|(_ & [Hp|Hp])]; [by right; left|left; by exists new|left; by exists 0].
  - pose proof (dc_other _ _ _ _ _ _ _ Hd va0 (proj1 (user_plain va0 Hva0)) Hno) as Hp. apply kept_or_new_cases in Hp as [Hp|Hp].
    + right. right. split; [exact Hp|]. intros f Hf. apply (dc_foreign _ _ _ _ _ _ _ Hd); [by apply (um_foreign s root Hu va0)|].
      intros (i & Hi & Hf')%frames_of_in. apply (Hno i Hi). apply (um_once s root Hu va0 (nth_page va i) f); [done|by apply (user_va_nth _ n)|done|done].
    + left. by exists 0.
Qed.

Lemma um_mapped s root va k s' : user_map s root → user_range va k → mapped_with false 0 s root va (replicate k 0) s' → user_map s' root.
Proof.
  intros Hu Hr Hm. apply (um_change s root); [done|apply (mw_ok _ _ _ _ _ _ _ Hm)|apply (mw_large _ _ _ _ _ _ _ Hm), Hu|].
  intros va0 Hva0. destruct (in_range va0 va k) as [(i & Hi & E)|Hno].
  - left. rewrite (slot_pte s' root _ _ E). exists (MmBuildAbsentPte MM_PAGE_COMMITTED). split; [|done].
    apply (mw_pte _ _ _ _ _ _ _ Hm i 0). by apply lookup_replicate_2.
  - pose proof (mw_other _ _ _ _ _ _ _ Hm va0 (proj1 (user_plain va0 Hva0))) as Hp. rewrite length_replicate in Hp.
    apply Hp in Hno. apply kept_or_new_cases in Hno as [Hn|Hn].
    + right. right. split; [exact Hn|]. intros f Hf. apply (mw_foreign _ _ _ _ _ _ _ Hm). by apply (um_foreign s root Hu va0).
    + left. by exists 0.
Qed.

Lemma um_pruned s root s' : user_map s root → pruned s root s' → user_map s' root.
Proof.
  intros Hu Hp. apply (um_change s root); [done|apply (pr_ok _ _ _ Hp)|apply (pruned_no_large s); [done|apply Hu]|].
  intros va Hva. pose proof (pruned_pte s root s' va Hp (proj1 (user_plain va Hva))) as Hpte.
  destruct (pte s root va) as [e|] eqn:He; [destruct Hpte as [Hpte|[_ Hpte]]|]; [|by right; left|by right; left].
  right. right. split; [done|]. intros f Hf. destruct (um_foreign s root Hu va f Hva Hf) as [Hu1 Hu2].
  split; [|by apply (pruned_off s)]. destruct (pr_refs _ _ _ Hp f) as [->|(_ & path & Ht & Hn)]; [done|]. by destruct (Hu2 path Ht).
Qed.

(** The three loops on a well-formed user half. *)
Lemma decommit_user root bc st s n va : user_map s root → user_range va n →
  ∃ s', decommit_pages n root bc st (Z.of_nat n) 0 va s = Ok s' ∧ user_map s' root ∧
    decommitted (bc && st) (if st then MmBuildAbsentPte MM_PAGE_DECOMMITTED else MmBuildZeroPte) s root va n s'.
Proof.
  intros Hu Hr. destruct (um_range s root va n Hu Hr) as [Hnd Hfor].
  destruct (decommit_pages_spec root bc st n n s 0 va (um_ok _ _ Hu) (um_large _ _ Hu) Hr) as (s' & Hs' & Hd); [lia|lia|by left| |done|done|].
  - intros j e Hj. apply (um_known s root Hu). by apply (user_va_nth _ n).
  - exists s'. split; [exact Hs'|]. split; [|exact Hd]. by eapply um_decommitted; [done|done| | |exact Hd]; destruct st.
Qed.

Lemma clear_user root s n va : user_map s root → user_range va n →
  (∀ j e, (j < n)%nat → pte s root (nth_page va j) = Some e → MmIsPresentPte e = false) →
  ∃ stop s', clear_pages n root (Z.of_nat n) 0 va s = Ok s' ∧ user_map s' root ∧ (stop ≤ n)%nat ∧ decommitted false 0 s root va stop s' ∧
    (n ≤ stop + missing_tables s root va true n)%nat.
Proof.
  intros Hu Hr Hab. destruct (clear_pages_spec root n n s 0 va (um_ok _ _ Hu) (um_large _ _ Hu) Hr) as (stop & s' & Hs' & Hst & Hd & Hfull); [lia|lia|by left|done|].
  exists stop, s'. split; [exact Hs'|]. split; [|by split].
  eapply um_decommitted; [exact Hu| | | |exact Hd]; [|done|done]. destruct Hr as [R1 R2 R3]. split; [done|done|lia].
Qed.

(** The address of an entry of a last-level table. *)
Definition entry_address (i4 i3 i2 j : Z) : Z := 4096 * (j + 512 * (i2 + 512 * (i3 + 512 * i4))).

Lemma slot_address i4 i3 i2 j : digit i4 → digit i3 → digit i2 → digit j → slot (entry_address i4 i3 i2 j) = ([i4; i3; i2], j).
Proof.
  intros D4 D3 D2 Hj. unfold digit in *. unfold slot, path_of. rewrite !PML_IDX_page. unfold entry_address. rewrite (Z.mul_comm 4096), Z.div_mul by lia. cbn [Z.of_nat].
  rewrite Z.pow_0_r, Z.div_1_r. change (512 ^ Z.of_nat 1) with 512. change (512 ^ Z.of_nat 2) with (512 * 512). change (512 ^ Z.of_nat 3) with (512 * (512 * 512)).
  rewrite <-!(Z.div_div _ 512) by lia. set (y := i3 + 512 * i4). set (x := i2 + 512 * y).
  assert ((j + 512 * x) / 512 = x) as -> by (symmetry; apply (Z.div_unique _ _ _ j); lia).
  assert (x / 512 = y) as -> by (symmetry; apply (Z.div_unique _ _ _ i2); lia).
  assert (y / 512 = i4) as -> by (symmetry; apply (Z.div_unique _ _ _ i3); lia).
  assert ((j + 512 * x) mod 512 = j) as -> by (symmetry; apply (Z.mod_unique _ _ x); lia).
  assert (x mod 512 = i2) as -> by (symmetry; apply (Z.mod_unique _ _ y); lia).
  assert (y mod 512 = i3) as -> by (symmetry; apply (Z.mod_unique _ _ i4); lia). by rewrite Z.mod_small.
Qed.

Lemma no_full_decommitted s root va n s' : decommitted false 0 s root va n s' → pm_ok s root → range_ok va n → no_full s root → no_full s' root.
Proof.
  intros Hd Hok Hr Hf path p Ht Hl Hp. rewrite (dc_node _ _ _ _ _ _ _ Hd) in Hp by done. destruct (Hf path p Ht Hl Hp) as (j & Hj & Hz).
  exists j. split; [done|]. destruct path as [|i4 [|i3 [|i2 [|]]]]; try done.
  pose proof Ht as (_ & Hdig & Hhead). rewrite !Forall_cons in Hdig. destruct Hdig as (D4 & D3 & D2 & _).
  set (va0 := entry_address i4 i3 i2 j). assert (slot va0 = ([i4; i3; i2], j)) as Hslot by (by apply slot_address).
  assert (path_of va0 = [i4; i3; i2] ∧ PML_IDX 1 va0 = j) as [Epath Ej] by (unfold slot in Hslot; split; congruence).
  assert (plain_va va0) as Hva0 by (unfold plain_va; intros E; apply Hhead; cbn; unfold path_of in Epath; congruence).
  assert (pte s root va0 = Some 0) as Hp0 by (unfold pte; by rewrite Epath, Hp, Ej, Hz).
  assert (pte s' root va0 = Some (word_at s' p j)) as Hp1 by (unfold pte; by rewrite Epath, (dc_node _ _ _ _ _ _ _ Hd _ eq_refl Ht), Hp, Ej).
  destruct (in_range va0 va n) as [(i & Hi & E)|Hno].
  - pose proof (dc_pte _ _ _ _ _ _ _ Hd i Hi) as Hq. rewrite <-!(slot_pte _ _ _ _ E), Hp0, Hp1 in Hq. by injection Hq.
  - rewrite (dc_same _ _ _ _ _ _ _ Hd va0 eq_refl Hva0 Hno), Hp0 in Hp1. by injection Hp1.
Qed.

End commit.
