(* ===== verification/RwLock.v ===== *)
(** The reader-writer locks of [boron/source/ex/rwlock.c], as a machine whose
    steps are the critical sections of the guard spin lock, the waits on the
    lock's event and semaphore, and the two stores that are not made in one
    piece with what they belong to: that of a woken exclusive waiter, which does
    not take the guard lock, and that of a releasing thread after it has woken
    the waiter.  Any number of threads take these steps in any order. *)
From S2P Require Import Prelude.
Local Open Scope Z_scope.

(** ** The lock *)

(** [EX_RW_LOCK_OWNER] : boron/include/ex/rwlock.h:18-24.
    The list entry is never used. *)
Record EX_RW_LOCK_OWNER := mkOwner { Locked : Z; OwnerThread : option nat }.

Definition no_owner : EX_RW_LOCK_OWNER := mkOwner 0 None.

(** A synchronization event, as [Dispatch] specifies it. *)
Record KEVENT := mkEvent { EventSignaled : bool; EventWaiters : list nat }.

(** A semaphore without a limit. *)
Record KSEMAPHORE := mkSemaphore { SemaphoreCount : Z; SemaphoreWaiters : list nat }.

(** [EX_RW_LOCK] : boron/include/ex/rwlock.h:26-51.
    The size of the table is its length; [SharedOwnerCount] is never used; the
    guard lock is part of the state of the machine. *)
Record EX_RW_LOCK := mkRwLock {
  ExclusiveOwner : EX_RW_LOCK_OWNER;
  SharedOwner : EX_RW_LOCK_OWNER;
  OwnerTable : list EX_RW_LOCK_OWNER;
  SharedSemaphore : KSEMAPHORE;
  ExclusiveSyncEvent : KEVENT;
  SharedWaiterCount : Z;
  ExclusiveWaiterCount : Z;
  HeldCount : Z }.

Definition set_ExclusiveOwner (v : EX_RW_LOCK_OWNER) (l : EX_RW_LOCK) : EX_RW_LOCK :=
  mkRwLock v (SharedOwner l) (OwnerTable l) (SharedSemaphore l) (ExclusiveSyncEvent l)
    (SharedWaiterCount l) (ExclusiveWaiterCount l) (HeldCount l).
Definition set_SharedOwner (v : EX_RW_LOCK_OWNER) (l : EX_RW_LOCK) : EX_RW_LOCK :=
  mkRwLock (ExclusiveOwner l) v (OwnerTable l) (SharedSemaphore l) (ExclusiveSyncEvent l)
    (SharedWaiterCount l) (ExclusiveWaiterCount l) (HeldCount l).
Definition set_OwnerTable (v : list EX_RW_LOCK_OWNER) (l : EX_RW_LOCK) : EX_RW_LOCK :=
  mkRwLock (ExclusiveOwner l) (SharedOwner l) v (SharedSemaphore l) (ExclusiveSyncEvent l)
    (SharedWaiterCount l) (ExclusiveWaiterCount l) (HeldCount l).
Definition set_SharedSemaphore (v : KSEMAPHORE) (l : EX_RW_LOCK) : EX_RW_LOCK :=
  mkRwLock (ExclusiveOwner l) (SharedOwner l) (OwnerTable l) v (ExclusiveSyncEvent l)
    (SharedWaiterCount l) (ExclusiveWaiterCount l) (HeldCount l).
Definition set_ExclusiveSyncEvent (v : KEVENT) (l : EX_RW_LOCK) : EX_RW_LOCK :=
  mkRwLock (ExclusiveOwner l) (SharedOwner l) (OwnerTable l) (SharedSemaphore l) v
    (SharedWaiterCount l) (ExclusiveWaiterCount l) (HeldCount l).
Definition set_SharedWaiterCount (v : Z) (l : EX_RW_LOCK) : EX_RW_LOCK :=
  mkRwLock (ExclusiveOwner l) (SharedOwner l) (OwnerTable l) (SharedSemaphore l)
    (ExclusiveSyncEvent l) v (ExclusiveWaiterCount l) (HeldCount l).
Definition set_ExclusiveWaiterCount (v : Z) (l : EX_RW_LOCK) : EX_RW_LOCK :=
  mkRwLock (ExclusiveOwner l) (SharedOwner l) (OwnerTable l) (SharedSemaphore l)
    (ExclusiveSyncEvent l) (SharedWaiterCount l) v (HeldCount l).
Definition set_HeldCount (v : Z) (l : EX_RW_LOCK) : EX_RW_LOCK :=
  mkRwLock (ExclusiveOwner l) (SharedOwner l) (OwnerTable l) (SharedSemaphore l)
    (ExclusiveSyncEvent l) (SharedWaiterCount l) (ExclusiveWaiterCount l) v.

(** [ExInitializeRwLock] : boron/source/ex/rwlock.c:37-52. *)
Definition ExInitializeRwLock : EX_RW_LOCK :=
  mkRwLock no_owner no_owner [] (mkSemaphore 0 []) (mkEvent false []) 0 0 0.

(** [ExDeinitializeRwLock] : boron/source/ex/rwlock.c:54-61. *)
Definition ExDeinitializeRwLock (l : EX_RW_LOCK) : EX_RW_LOCK := set_OwnerTable [] l.

(** [ExReleaseRwLock] : boron/source/ex/rwlock.c:518-519. *)
Definition store_waiter (WaitThrd : option nat) (l : EX_RW_LOCK) : EX_RW_LOCK :=
  set_ExclusiveOwner (mkOwner 1 WaitThrd) l.

(** [ExAcquireExclusiveRwLock] : boron/source/ex/rwlock.c:130-130. *)
Definition store_owner (t : nat) (l : EX_RW_LOCK) : EX_RW_LOCK :=
  set_ExclusiveOwner (mkOwner (Locked (ExclusiveOwner l)) (Some t)) l.

(** [KeSetEventAndGetWaiter] of the lock's event: its first waiter takes it. *)
Definition set_event_and_get_waiter (e : KEVENT) : option nat * KEVENT :=
  match EventWaiters e with
  | [] => (None, mkEvent true [])
  | t :: ts => (Some t, mkEvent false ts)
  end.

(** [KeReleaseSemaphore] of the lock's semaphore: as many of its waiters as it
    has permits for take one each. *)
Definition release_semaphore (n : Z) (m : KSEMAPHORE) : list nat * KSEMAPHORE :=
  let woken := take (Z.to_nat (SemaphoreCount m + n)) (SemaphoreWaiters m) in
  (woken, mkSemaphore (SemaphoreCount m + n - Z.of_nat (length woken))
            (drop (Z.to_nat (SemaphoreCount m + n)) (SemaphoreWaiters m))).

(** ** The critical sections *)

(** The entries that threads own the lock shared by: the preallocated one and
    those of the table. *)
Definition slots (l : EX_RW_LOCK) : list EX_RW_LOCK_OWNER := SharedOwner l :: OwnerTable l.
#[global] Arguments slots : simpl never.

Definition set_slot (i : nat) (o : EX_RW_LOCK_OWNER) (l : EX_RW_LOCK) : EX_RW_LOCK :=
  match i with
  | O => set_SharedOwner o l
  | S i => set_OwnerTable (<[i := o]> (OwnerTable l)) l
  end.

(** [ExFindOwnerRwLock] : boron/source/ex/rwlock.c:363-370.
    The loop over the table, from slot [i]. *)
Fixpoint find_slot (Thread : option nat) (Table : list EX_RW_LOCK_OWNER) (i : nat) (FreeEntry : option nat)
  : option nat :=
  match Table with
  | [] => FreeEntry
  | o :: Table =>
      if bool_decide (OwnerThread o = Thread) then Some i
      else
        find_slot Thread Table (S i)
          (match FreeEntry with
           | Some _ => FreeEntry
           | None => if bool_decide (OwnerThread o = None) then Some i else None
           end)
  end.

(** What [ExFindOwnerRwLock] returns, or that the table has to grow. *)
Inductive found :=
  | FoundExclusive
  | FoundSlot (i : nat)
  | TableFull.

(** [ExFindOwnerRwLock] : boron/source/ex/rwlock.c:342-374.
    Up to where it releases the guard lock to grow the table. *)
Definition ExFindOwnerRwLock (Thread : option nat) (l : EX_RW_LOCK) : found :=
  if bool_decide (is_Some Thread) && bool_decide (OwnerThread (ExclusiveOwner l) = Thread) then FoundExclusive
  else
    match find_slot Thread (OwnerTable l) 1
            (if bool_decide (OwnerThread (SharedOwner l) = None) then Some 0%nat else None) with
    | Some i => FoundSlot i
    | None => TableFull
    end.

(** [ExFindOwnerRwLock] : boron/source/ex/rwlock.c:407-428.
    After the allocation, with the guard lock held again. *)
Definition grow_table (OldSize : nat) (l : EX_RW_LOCK) : EX_RW_LOCK :=
  if (length (OwnerTable l) =? OldSize)%nat then set_OwnerTable (OwnerTable l ++ replicate 4 no_owner) l else l.

(** How a critical section that acquires the lock ends. *)
Inductive acquired :=
  | Acquired
  | WouldBlock
  | MustWait
  | MustGrow (OldSize : nat).

(** [ExAcquireExclusiveRwLock] : boron/source/ex/rwlock.c:71-120.
    The critical section. *)
Definition ExAcquireExclusiveRwLock (t : nat) (DontBlock : bool) (l : EX_RW_LOCK) : acquired * EX_RW_LOCK :=
  if HeldCount l =? 0 then (Acquired, set_ExclusiveOwner (mkOwner 1 (Some t)) (set_HeldCount 1 l))
  else
    let wait := (MustWait, set_ExclusiveWaiterCount (ExclusiveWaiterCount l + 1) l) in
    if negb (Locked (ExclusiveOwner l) =? 0) then
      if bool_decide (OwnerThread (ExclusiveOwner l) = Some t) then
        (Acquired, set_ExclusiveOwner (mkOwner (Locked (ExclusiveOwner l) + 1) (Some t)) l)
      else wait
    else if DontBlock then (WouldBlock, l)
    else wait.

(** [ExAcquireSharedRwLock] : boron/source/ex/rwlock.c:159-256.
    One round of the loop, which ends early when the table has to grow. *)
Definition ExAcquireSharedRwLock (t : nat) (DontBlock CanStarve : bool) (l : EX_RW_LOCK)
  : outcome (acquired * EX_RW_LOCK) :=
  let wait i := (MustWait, set_SharedWaiterCount (SharedWaiterCount l + 1) (set_slot i (mkOwner 1 (Some t)) l)) in
  if HeldCount l =? 0 then Ok (Acquired, set_HeldCount 1 (set_SharedOwner (mkOwner 1 (Some t)) l))
  else if negb (Locked (ExclusiveOwner l) =? 0) then
    if bool_decide (OwnerThread (ExclusiveOwner l) = Some t) then
      Ok (Acquired, set_ExclusiveOwner (mkOwner (Locked (ExclusiveOwner l) + 1) (Some t)) l)
    else
      match ExFindOwnerRwLock None l with
      | TableFull => Ok (MustGrow (length (OwnerTable l)), l)
      | FoundExclusive => Crash
      | FoundSlot i => Ok (wait i)
      end
  else
    match ExFindOwnerRwLock (Some t) l with
    | TableFull => Ok (MustGrow (length (OwnerTable l)), l)
    | FoundExclusive =>
        Ok (Acquired, set_ExclusiveOwner (mkOwner (Locked (ExclusiveOwner l) + 1) (Some t)) l)
    | FoundSlot i =>
        Owner ← deref (slots l !! i);
        if bool_decide (OwnerThread Owner = Some t) then
          Ok (Acquired, set_slot i (mkOwner (Locked Owner + 1) (Some t)) l)
        else if CanStarve || (ExclusiveWaiterCount l =? 0) then
          Ok (Acquired, set_HeldCount (HeldCount l + 1) (set_slot i (mkOwner 1 (Some t)) l))
        else if DontBlock then Ok (WouldBlock, l)
        else Ok (wait i)
    end.

(** Lets all the shared waiters in; [base] owners remain. *)
(** [ExReleaseRwLock] : boron/source/ex/rwlock.c:526-537. *)
Definition wake_shared (base : Z) (l : EX_RW_LOCK) : list nat * EX_RW_LOCK :=
  let Waiters := SharedWaiterCount l in
  if Waiters =? 0 then ([], l)
  else
    let '(woken, m) := release_semaphore Waiters (SharedSemaphore l) in
    (woken, set_SharedSemaphore m (set_HeldCount (base + Waiters) (set_SharedWaiterCount 0 l))).

(** [ExDemoteToSharedRwLock] : boron/source/ex/rwlock.c:282-317.
    One round of the loop: the shared waiters woken, or that the table has to
    grow. *)
Definition ExDemoteToSharedRwLock (t : nat) (l : EX_RW_LOCK) : outcome (list nat * option nat * EX_RW_LOCK) :=
  _ ← check (bool_decide (OwnerThread (ExclusiveOwner l) = Some t));
  match ExFindOwnerRwLock None l with
  | TableFull => Ok ([], Some (length (OwnerTable l)), l)
  | FoundExclusive => Crash
  | FoundSlot i =>
      let l := set_slot i (mkOwner (Locked (ExclusiveOwner l)) (Some t)) (set_ExclusiveOwner no_owner l) in
      let '(woken, l) := wake_shared (HeldCount l) l in
      Ok (woken, None, l)
  end.

(** The first slot of a thread. *)
Fixpoint slot_of (t : nat) (os : list EX_RW_LOCK_OWNER) (i : nat) : option nat :=
  match os with
  | [] => None
  | o :: os => if bool_decide (OwnerThread o = Some t) then Some i else slot_of t os (S i)
  end.

(** [ExReleaseRwLock] : boron/source/ex/rwlock.c:488-541.
    From where the thread owns the lock no more: the shared waiters woken, and
    the waiter (if one has queued itself by now) that the lock is passed to. *)
Definition release_held (Exclusive : bool) (l : EX_RW_LOCK) : outcome (list nat * option (option nat) * EX_RW_LOCK) :=
  _ ← check (negb (HeldCount l =? 0));
  let l := set_HeldCount (HeldCount l - 1) l in
  if HeldCount l =? 0 then
    let Access := negb Exclusive || (SharedWaiterCount l =? 0) in
    if Access && negb (ExclusiveWaiterCount l =? 0) then
      let '(WaitThrd, e) := set_event_and_get_waiter (ExclusiveSyncEvent l) in
      Ok ([], Some WaitThrd,
          set_ExclusiveSyncEvent e (set_ExclusiveWaiterCount (ExclusiveWaiterCount l - 1) (set_HeldCount 1 l)))
    else
      let '(woken, l) := wake_shared 0 l in Ok (woken, None, l)
  else Ok ([], None, l).

(** [ExReleaseRwLock] : boron/source/ex/rwlock.c:431-542.
    Up to line 516 when the lock is passed over. *)
Definition ExReleaseRwLock (t : nat) (l : EX_RW_LOCK) : outcome (list nat * option (option nat) * EX_RW_LOCK) :=
  if bool_decide (OwnerThread (ExclusiveOwner l) = Some t) then
    let Owner := ExclusiveOwner l in
    _ ← check (negb (Locked Owner =? 0));
    if negb (Locked Owner - 1 =? 0) then
      Ok ([], None, set_ExclusiveOwner (mkOwner (Locked Owner - 1) (OwnerThread Owner)) l)
    else release_held true (set_ExclusiveOwner (mkOwner (Locked Owner - 1) None) l)
  else
    i ← deref (slot_of t (slots l) 0);
    Owner ← deref (slots l !! i);
    _ ← check (negb (Locked Owner =? 0));
    if negb (Locked Owner - 1 =? 0) then
      Ok ([], None, set_slot i (mkOwner (Locked Owner - 1) (OwnerThread Owner)) l)
    else release_held false (set_slot i (mkOwner (Locked Owner - 1) None) l).

(** ** The machine *)

(** What a thread believes it holds: the number of its acquisitions. *)
Inductive holding := Nothing | HoldX (n : Z) | HoldS (n : Z).

#[export] Instance holding_eq_dec : EqDecision holding.
Proof. solve_decision. Defined.

Record sys := mkSys {
  lock : EX_RW_LOCK;
  (** Counted among the exclusive waiters, about to wait for the event. *)
  wants_x : list nat;
  (** Has the event, has not stored itself as the owner. *)
  got_x : list nat;
  (** Has a slot, about to wait for the semaphore. *)
  wants_s : list nat;
  (** Allocates a larger table, whose size was the second. *)
  growing : list (nat * nat);
  (** Holds the guard lock in [ExReleaseRwLock], with what
      [KeSetEventAndGetWaiter] returned. *)
  passing : option (nat * option nat);
  mine : nat → holding }.

Definition init : sys := mkSys ExInitializeRwLock [] [] [] [] None (λ _, Nothing).

Definition set_lock (v : EX_RW_LOCK) (s : sys) : sys :=
  mkSys v (wants_x s) (got_x s) (wants_s s) (growing s) (passing s) (mine s).
Definition set_wants_x (v : list nat) (s : sys) : sys :=
  mkSys (lock s) v (got_x s) (wants_s s) (growing s) (passing s) (mine s).
Definition set_got_x (v : list nat) (s : sys) : sys :=
  mkSys (lock s) (wants_x s) v (wants_s s) (growing s) (passing s) (mine s).
Definition set_wants_s (v : list nat) (s : sys) : sys :=
  mkSys (lock s) (wants_x s) (got_x s) v (growing s) (passing s) (mine s).
Definition set_growing (v : list (nat * nat)) (s : sys) : sys :=
  mkSys (lock s) (wants_x s) (got_x s) (wants_s s) v (passing s) (mine s).
Definition set_passing (v : option (nat * option nat)) (s : sys) : sys :=
  mkSys (lock s) (wants_x s) (got_x s) (wants_s s) (growing s) v (mine s).
Definition set_mine (v : nat → holding) (s : sys) : sys :=
  mkSys (lock s) (wants_x s) (got_x s) (wants_s s) (growing s) (passing s) v.

Definition sleeps_x (s : sys) : list nat := EventWaiters (ExclusiveSyncEvent (lock s)).
Definition sleeps_s (s : sys) : list nat := SemaphoreWaiters (SharedSemaphore (lock s)).

(** The threads that wait for shared access, and all that are inside one of the
    lock's routines. *)
Definition waits_s (s : sys) : list nat := wants_s s ++ sleeps_s s.
Definition inside (s : sys) : list nat :=
  wants_x s ++ sleeps_x s ++ got_x s ++ waits_s s ++ (growing s).*1.

Definition runs (t : nat) (s : sys) : bool :=
  bool_decide (t ∉ inside s) && match passing s with Some (p, _) => negb (t =? p)%nat | None => true end.

Definition add_hold (h : holding) : holding :=
  match h with Nothing => HoldS 1 | HoldX n => HoldX (n + 1) | HoldS n => HoldS (n + 1) end.
Definition sub_hold (h : holding) : holding :=
  match h with
  | Nothing => Nothing
  | HoldX n => if n =? 1 then Nothing else HoldX (n - 1)
  | HoldS n => if n =? 1 then Nothing else HoldS (n - 1)
  end.
Definition demoted (h : holding) : holding := match h with HoldX n => HoldS n | h => h end.

Definition change (f : holding → holding) (t : nat) (m : nat → holding) : nat → holding := <[t := f (m t)]> m.

(** The woken shared waiters have the lock. *)
Definition wake (ts : list nat) (s : sys) : sys := set_mine (foldl (λ m t, change add_hold t m) (mine s) ts) s.

Inductive step :=
  | AcquireExclusive (t : nat) (DontBlock : bool)
  | AcquireShared (t : nat) (DontBlock CanStarve : bool)
  | Demote (t : nat)
  | Release (t : nat)
  | FinishRelease (t : nat)   (* the stores to the exclusive owner, and the unlocking *)
  | Grow (t : nat)            (* the table was allocated *)
  | WaitExclusive (t : nat)   (* enters the wait for the event, or takes it *)
  | TimeoutExclusive (t : nat)
  | StoreOwner (t : nat)      (* of [ExAcquireExclusiveRwLock], after the wait *)
  | WaitShared (t : nat)
  | TimeoutShared (t : nat).

Definition remove (t : nat) (ts : list nat) : list nat := filter (.≠ t) ts.

Definition set_event (e : KEVENT) (s : sys) : sys := set_lock (set_ExclusiveSyncEvent e (lock s)) s.
Definition set_semaphore (m : KSEMAPHORE) (s : sys) : sys := set_lock (set_SharedSemaphore m (lock s)) s.

(** What a step does. *)
Definition exec (o : step) (s : sys) : outcome sys :=
  match o with
  | AcquireExclusive t DontBlock =>
      let '(r, l) := ExAcquireExclusiveRwLock t DontBlock (lock s) in
      let s := set_lock l s in
      match r with
      | Acquired => Ok (set_mine (change (λ h, match h with HoldX n => HoldX (n + 1) | _ => HoldX 1 end) t (mine s)) s)
      | MustWait => Ok (set_wants_x (t :: wants_x s) s)
      | _ => Ok s
      end
  | AcquireShared t DontBlock CanStarve =>
      '(r, l) ← ExAcquireSharedRwLock t DontBlock CanStarve (lock s);
      let s := set_lock l s in
      match r with
      | Acquired => Ok (set_mine (change add_hold t (mine s)) s)
      | WouldBlock => Ok s
      | MustWait => Ok (set_wants_s (t :: wants_s s) s)
      | MustGrow n => Ok (set_growing ((t, n) :: growing s) s)
      end
  | Demote t =>
      '(woken, g, l) ← ExDemoteToSharedRwLock t (lock s);
      let s := set_lock l s in
      match g with
      | Some n => Ok (set_growing ((t, n) :: growing s) s)
      | None => Ok (wake woken (set_mine (change demoted t (mine s)) s))
      end
  | Release t =>
      '(woken, handed, l) ← ExReleaseRwLock t (lock s);
      let s := set_mine (change sub_hold t (mine s)) (set_lock l s) in
      match handed with
      | None => Ok (wake woken s)
      | Some WaitThrd =>
          Ok (set_passing (Some (t, WaitThrd))
                (match WaitThrd with Some w => set_got_x (w :: got_x s) s | None => s end))
      end
  | FinishRelease t =>
      match passing s with
      | Some (_, WaitThrd) => Ok (set_passing None (set_lock (store_waiter WaitThrd (lock s)) s))
      | None => Crash
      end
  | Grow t =>
      match head (filter (λ '(u, _), u = t) (growing s)) with
      | Some (_, n) => Ok (set_growing (filter (λ '(u, _), u ≠ t) (growing s)) (set_lock (grow_table n (lock s)) s))
      | None => Crash
      end
  | WaitExclusive t =>
      let s := set_wants_x (remove t (wants_x s)) s in
      if EventSignaled (ExclusiveSyncEvent (lock s)) then
        Ok (set_got_x (t :: got_x s) (set_event (mkEvent false (sleeps_x s)) s))
      else Ok (set_event (mkEvent false (sleeps_x s ++ [t])) s)
  | TimeoutExclusive t =>
      Ok (set_wants_x (t :: wants_x s)
            (set_event (mkEvent (EventSignaled (ExclusiveSyncEvent (lock s))) (remove t (sleeps_x s))) s))
  | StoreOwner t =>
      Ok (set_mine (change (λ _, HoldX 1) t (mine s)) (set_got_x (remove t (got_x s))
           (set_lock (store_owner t (lock s)) s)))
  | WaitShared t =>
      let m := SharedSemaphore (lock s) in
      let s := set_wants_s (remove t (wants_s s)) s in
      if 0 <? SemaphoreCount m then
        Ok (wake [t] (set_semaphore (mkSemaphore (SemaphoreCount m - 1) (SemaphoreWaiters m)) s))
      else Ok (set_semaphore (mkSemaphore (SemaphoreCount m) (SemaphoreWaiters m ++ [t])) s)
  | TimeoutShared t =>
      let m := SharedSemaphore (lock s) in
      Ok (set_wants_s (t :: wants_s s) (set_semaphore (mkSemaphore (SemaphoreCount m) (remove t (SemaphoreWaiters m))) s))
  end.

(** When a step may be taken: threads release what they hold, and the guard
    lock is free for what takes it. *)
Definition enabled (o : step) (s : sys) : bool :=
  let guard := bool_decide (passing s = None) in
  match o with
  | AcquireExclusive t _ | AcquireShared t _ _ => guard && runs t s
  | Demote t => guard && runs t s && match mine s t with HoldX _ => true | _ => false end
  | Release t => guard && runs t s && negb (bool_decide (mine s t = Nothing))
  | FinishRelease t => match passing s with Some (p, _) => (t =? p)%nat | None => false end
  | Grow t => guard && bool_decide (t ∈ (growing s).*1)
  | WaitExclusive t => bool_decide (t ∈ wants_x s)
  | TimeoutExclusive t => bool_decide (t ∈ sleeps_x s)
  | StoreOwner t => bool_decide (t ∈ got_x s)
  | WaitShared t => bool_decide (t ∈ wants_s s)
  | TimeoutShared t => bool_decide (t ∈ sleeps_s s)
  end.

(** The releasing thread found no waiter to name as the owner, and meanwhile
    the waiter that took the event has named itself: the late store undoes
    that. *)
Definition overtaken (o : step) (s : sys) : bool :=
  match o, passing s with
  | FinishRelease _, Some (_, None) =>
      negb (EventSignaled (ExclusiveSyncEvent (lock s))) && bool_decide (got_x s = [])
  | _, _ => false
  end.

Inductive reaches : bool → sys → Prop :=
  | reaches_init : reaches false init
  | reaches_step b s o s' :
      reaches b s → enabled o s = true → exec o s = Ok s' → reaches (b || overtaken o s) s'.

(** ** Accounting of slots *)

Definition ind (P : Prop) `{Decision P} : Z := if decide P then 1 else 0.

Fixpoint total (f : EX_RW_LOCK_OWNER → Z) (os : list EX_RW_LOCK_OWNER) : Z :=
  match os with [] => 0 | o :: os => f o + total f os end.

Definition owned (o : EX_RW_LOCK_OWNER) : Z := ind (OwnerThread o ≠ None).
Definition owned_by (t : nat) (o : EX_RW_LOCK_OWNER) : Z := ind (OwnerThread o = Some t).
Definition locked_by (t : nat) (o : EX_RW_LOCK_OWNER) : Z := if decide (OwnerThread o = Some t) then Locked o else 0.

Definition slot_ok (o : EX_RW_LOCK_OWNER) : Prop := 0 ≤ Locked o ∧ (OwnerThread o = None ↔ Locked o = 0).

Definition shares (h : holding) : Z := match h with HoldS n => n | _ => 0 end.
Definition is_shared (h : holding) : Z := match h with HoldS _ => 1 | _ => 0 end.
Definition hold_ok (h : holding) : Prop := match h with Nothing => True | HoldX n | HoldS n => 0 < n end.
Definition is_x (h : holding) : bool := match h with HoldX _ => true | _ => false end.

Lemma total_insert f os i o o' : os !! i = Some o → total f (<[i := o']> os) = total f os - f o + f o'.
Proof.
  revert i. induction os as [|x os IH]; intros [|i]; cbn; try done; [intros [= ->]; lia|].
  intros Hi. rewrite IH by done. lia.
Qed.

Lemma total_app f os os' : total f (os ++ os') = total f os + total f os'.
Proof. induction os as [|x os IH]; cbn; [lia|]. rewrite IH. lia. Qed.

Lemma total_nonneg f os : (∀ o, o ∈ os → 0 ≤ f o) → 0 ≤ total f os.
Proof.
  induction os as [|x os IH]; intros Hf; cbn; [lia|].
  assert (0 ≤ f x) by (apply Hf; left). assert (0 ≤ total f os) by (apply IH; intros o Ho; apply Hf; by right). lia.
Qed.

Lemma ind_nonneg P `{Decision P} : 0 ≤ ind P.
Proof. unfold ind. case_decide; lia. Qed.

(** Entries that belong to different threads are different. *)
Lemma owned_by_distinct ts o : NoDup ts → foldr (λ t a, owned_by t o + a) 0 ts ≤ owned o.
Proof.
  unfold owned, owned_by, ind. induction 1 as [|t ts Ht _ IH]; cbn; [case_decide; lia|].
  destruct (decide (OwnerThread o = Some t)) as [E|E]; [|lia].
  assert (foldr (λ u a, (if decide (OwnerThread o = Some u) then 1 else 0) + a) 0 ts = 0) as ->.
  { clear IH. induction ts as [|u ts IH]; cbn; [done|]. apply not_elem_of_cons in Ht as [Hne Ht].
    rewrite IH by done. rewrite decide_False by congruence. lia. }
  rewrite decide_True by (by rewrite E). lia.
Qed.

Lemma total_distinct ts os : NoDup ts → foldr (λ t a, total (owned_by t) os + a) 0 ts ≤ total owned os.
Proof.
  intros Hnd. induction os as [|o os IH]; cbn.
  - induction ts as [|t ts IHt]; cbn; [lia|]. apply NoDup_cons in Hnd as [_ Hnd]. specialize (IHt Hnd). lia.
  - pose proof (owned_by_distinct ts o Hnd).
    assert (foldr (λ t a, owned_by t o + total (owned_by t) os + a) 0 ts =
            foldr (λ t a, owned_by t o + a) 0 ts + foldr (λ t a, total (owned_by t) os + a) 0 ts) as ->; [|lia].
    clear. induction ts as [|t ts IH]; cbn; lia.
Qed.

(** The slots [os] agree with what the threads hold, [m], and with the threads
    [W] that wait for shared access. *)
Record shared_ok (os : list EX_RW_LOCK_OWNER) (W : list nat) (m : nat → holding) : Prop := {
  sh_slots : Forall slot_ok os;
  sh_holds t : hold_ok (m t);
  sh_locked t : total (locked_by t) os = shares (m t) + ind (t ∈ W);
  sh_owned t : is_shared (m t) + ind (t ∈ W) ≤ total (owned_by t) os;
}.

Lemma slot_of_ok os i o : Forall slot_ok os → os !! i = Some o → slot_ok o.
Proof. intros Hf Hi. by eapply Forall_lookup_1. Qed.

Lemma total_owned_by_pos os t : Forall slot_ok os → 0 < total (locked_by t) os → 1 ≤ total (owned_by t) os.
Proof.
  induction 1 as [|o os Ho Hos IH]; cbn; [lia|]. intros Hp.
  assert (0 ≤ total (owned_by t) os) by (apply total_nonneg; intros; apply ind_nonneg).
  unfold locked_by in Hp at 1. unfold owned_by at 1, ind. case_decide; [lia|]. lia.
Qed.

(** There is room for all waiters and holders in the slots. *)
Lemma slots_enough os W m : shared_ok os W m → NoDup W →
  Z.of_nat (length W) ≤ total owned os ∧
  ∀ t n, m t = HoldS n → Z.of_nat (length W) + 1 ≤ total owned os.
Proof.
  intros [Hs Hh Hl Ho] Hnd.
  assert (∀ ts : list nat, (∀ t, t ∈ ts → 1 ≤ total (owned_by t) os) → Z.of_nat (length ts) ≤ foldr (λ t a, total (owned_by t) os + a) 0 ts) as Hlen.
  { induction ts as [|t ts IH]; cbn; intros Ht; [lia|]. assert (1 ≤ total (owned_by t) os) by (apply Ht; left).
    specialize (IH ltac:(intros u Hu; apply Ht; by right)). lia. }
  assert (∀ t, t ∈ W → 1 ≤ total (owned_by t) os) as HW.
  { intros t Ht. specialize (Ho t). unfold ind in Ho. rewrite decide_True in Ho by done. destruct (m t); cbn in Ho; lia. }
  split.
  { pose proof (Hlen W HW). pose proof (total_distinct W os Hnd). lia. }
  intros t n Ht. specialize (Ho t). rewrite Ht in Ho. cbn in Ho.
  destruct (decide (t ∈ W)) as [Hin|Hin].
  - unfold ind in Ho. rewrite decide_True in Ho by done.
    apply list_elem_of_split in Hin as (a & b & ->).
    pose proof (total_distinct _ os Hnd) as Hd. rewrite foldr_app in Hd. cbn in Hd.
    assert (∀ a c, foldr (λ t a, total (owned_by t) os + a) c a = foldr (λ t a, total (owned_by t) os + a) 0 a + c) as Hacc.
    { clear. intros a c. induction a as [|x a IH]; cbn; lia. }
    rewrite Hacc in Hd. pose proof (Hlen a) as Ha. pose proof (Hlen b) as Hb.
    rewrite length_app. cbn. specialize (Ha ltac:(intros u Hu; apply HW; set_solver)).
    specialize (Hb ltac:(intros u Hu; apply HW; set_solver)). lia.
  - pose proof (total_distinct (t :: W) os) as Hd. specialize (Hd ltac:(by constructor)). cbn in Hd.
    pose proof (Hlen W HW). pose proof (ind_nonneg (t ∈ W)). lia.
Qed.

(** One slot, what its thread holds and the waiters change together. *)
Lemma shared_update os W m i o o' W' m' :
  shared_ok os W m → os !! i = Some o → slot_ok o' → (∀ u, hold_ok (m' u)) →
  (∀ u, locked_by u o' - locked_by u o = (shares (m' u) + ind (u ∈ W')) - (shares (m u) + ind (u ∈ W))) →
  (∀ u, is_shared (m' u) + ind (u ∈ W') ≤ total (owned_by u) os - owned_by u o + owned_by u o') →
  shared_ok (<[i := o']> os) W' m'.
Proof.
  intros [Hs Hh Hl Ho] Hi Hok Hm Hd Hc. split; [by apply Forall_insert|done| |].
  - intros u. rewrite (total_insert _ _ _ o) by done. specialize (Hl u). specialize (Hd u). lia.
  - intros u. by rewrite (total_insert _ _ _ o).
Qed.

(** Only what threads hold changes. *)
Lemma shared_hold os W m m' :
  shared_ok os W m → (∀ u, hold_ok (m' u)) → (∀ u, shares (m' u) = shares (m u) ∧ is_shared (m' u) = is_shared (m u)) →
  shared_ok os W m'.
Proof.
  intros [Hs Hh Hl Ho] Hm E. split; [done|done| |]; intros u; destruct (E u) as [E1 E2].
  - by rewrite E1.
  - by rewrite E2.
Qed.

Lemma change_same f t m : change f t m t = f (m t).
Proof. unfold change. by rewrite fn_lookup_insert. Qed.

Lemma change_other f t m u : u ≠ t → change f t m u = m u.
Proof. intros. unfold change. by rewrite fn_lookup_insert_ne. Qed.

Lemma ind_true P `{Decision P} : P → ind P = 1.
Proof. intros. unfold ind. by rewrite decide_True. Qed.

Lemma ind_false P `{Decision P} : ¬ P → ind P = 0.
Proof. intros. unfold ind. by rewrite decide_False. Qed.

Lemma ind_iff P Q `{Decision P, Decision Q} : (P ↔ Q) → ind P = ind Q.
Proof. intros HPQ. unfold ind. destruct (decide P), (decide Q); tauto. Qed.

(** The entry of [t] in a slot of its own. *)
Lemma locked_by_self n t : locked_by t (mkOwner n (Some t)) = n.
Proof. unfold locked_by. by rewrite decide_True. Qed.

Lemma locked_by_other o t u : OwnerThread o = Some t ∨ OwnerThread o = None → u ≠ t → locked_by u o = 0.
Proof. unfold locked_by. intros [E|E] Hu; rewrite decide_False by congruence; done. Qed.

Lemma owned_by_self n t : owned_by t (mkOwner n (Some t)) = 1.
Proof. by apply ind_true. Qed.

Lemma owned_by_other o t u : OwnerThread o = Some t ∨ OwnerThread o = None → u ≠ t → owned_by u o = 0.
Proof. unfold owned_by. intros [E|E] Hu; apply ind_false; congruence. Qed.

Lemma owned_by_none o t : OwnerThread o = None → owned_by t o = 0 ∧ locked_by t o = 0.
Proof. unfold owned_by, locked_by, ind. intros ->. done. Qed.

(** A free slot is taken by a thread that acquires. *)
Lemma shared_take os W m i o t n f :
  shared_ok os W m → os !! i = Some o → OwnerThread o = None → t ∉ W → 0 < n →
  hold_ok (f (m t)) → shares (f (m t)) = shares (m t) + n → is_shared (f (m t)) = 1 →
  shared_ok (<[i := mkOwner n (Some t)]> os) W (change f t m).
Proof.
  intros Hsh Hi Hn Ht Hn0 Hf1 Hf2 Hf3. eapply shared_update; [done|done| | | |].
  - split; cbn; [lia|]. split; [done|lia].
  - intros u. destruct (decide (u = t)) as [->|Hu]; [by rewrite change_same|rewrite change_other by done; apply Hsh].
  - intros u. destruct (owned_by_none o u Hn) as [_ ->]. destruct (decide (u = t)) as [->|Hu].
    + rewrite change_same, locked_by_self. lia.
    + rewrite change_other, (locked_by_other _ t) by (done || by left). lia.
  - intros u. destruct (owned_by_none o u Hn) as [-> _]. pose proof (sh_owned _ _ _ Hsh u).
    destruct (decide (u = t)) as [->|Hu].
    + rewrite change_same, owned_by_self, (ind_false (t ∈ W)) in * by done.
      assert (0 ≤ total (owned_by t) os) by (apply total_nonneg; intros; apply ind_nonneg). lia.
    + rewrite change_other, (owned_by_other _ t) by (done || by left). lia.
Qed.

(** A free slot is taken by a thread that will wait. *)
Lemma shared_wait os W m i o t :
  shared_ok os W m → os !! i = Some o → OwnerThread o = None → t ∉ W →
  shared_ok (<[i := mkOwner 1 (Some t)]> os) (t :: W) m.
Proof.
  intros Hsh Hi Hn Ht. eapply shared_update; [done|done| |apply Hsh| |].
  - split; cbn; [lia|]. split; [done|lia].
  - intros u. destruct (owned_by_none o u Hn) as [_ ->]. destruct (decide (u = t)) as [->|Hu].
    + rewrite locked_by_self, (ind_true (t ∈ t :: W)), (ind_false (t ∈ W)) by (done || by left). lia.
    + rewrite (locked_by_other _ t), (ind_iff (u ∈ t :: W) (u ∈ W)) by (by left || set_solver). lia.
  - intros u. destruct (owned_by_none o u Hn) as [-> _]. pose proof (sh_owned _ _ _ Hsh u).
    destruct (decide (u = t)) as [->|Hu].
    + rewrite owned_by_self, (ind_true (t ∈ t :: W)), (ind_false (t ∈ W)) in * by (done || by left). lia.
    + rewrite (owned_by_other _ t), (ind_iff (u ∈ t :: W) (u ∈ W)) by (by left || set_solver). lia.
Qed.

(** The thread of a slot, which holds the lock, changes how often it does. *)
Lemma shared_more os W m i o t f o' :
  shared_ok os W m → os !! i = Some o → OwnerThread o = Some t → t ∉ W → slot_ok o' →
  OwnerThread o' = Some t ∨ OwnerThread o' = None →
  hold_ok (f (m t)) → shares (f (m t)) = shares (m t) + locked_by t o' - Locked o →
  shared_ok (<[i := o']> os) W (change f t m).
Proof.
  intros Hsh Hi Hn Ht Hok Ho' Hf1 Hf2.
  assert (Forall slot_ok (<[i := o']> os)) as Hslots by (apply Forall_insert; [apply Hsh|done]).
  assert (∀ u, total (locked_by u) (<[i := o']> os) = shares (change f t m u) + ind (u ∈ W)) as Hlocked.
  { intros u. rewrite (total_insert _ _ _ o), (sh_locked _ _ _ Hsh) by done. destruct (decide (u = t)) as [->|Hu].
    - rewrite change_same. unfold locked_by at 1. rewrite decide_True by done. lia.
    - rewrite change_other, !(locked_by_other _ t) by (done || by left). lia. }
  split; [done| |done|].
  - intros u. destruct (decide (u = t)) as [->|Hu]; [by rewrite change_same|rewrite change_other by done; apply Hsh].
  - intros u. destruct (decide (u = t)) as [->|Hu].
    + specialize (Hlocked t). rewrite (ind_false (t ∈ W)) in * by done. rewrite change_same in *.
      destruct (f (m t)) as [|k|k]; cbn in *;
        [| |assert (1 ≤ total (owned_by t) (<[i:=o']> os)) by (apply total_owned_by_pos; [done|lia]); lia];
        apply total_nonneg; intros; apply ind_nonneg.
    + rewrite change_other, (total_insert _ _ _ o), !(owned_by_other _ t u) by (done || by left).
      pose proof (sh_owned _ _ _ Hsh u). lia.
Qed.

(** A waiter has the lock. *)
Lemma shared_wake os t W m :
  shared_ok os (t :: W) m → t ∉ W → is_x (m t) = false → shared_ok os W (change add_hold t m).
Proof.
  intros Hsh Ht Hx. pose proof (sh_holds _ _ _ Hsh t) as Hh.
  split; [apply Hsh| | |].
  - intros u. destruct (decide (u = t)) as [->|Hu]; [|rewrite change_other by done; apply Hsh].
    rewrite change_same. destruct (m t); cbn in *; lia.
  - intros u. pose proof (sh_locked _ _ _ Hsh u) as Hl. destruct (decide (u = t)) as [->|Hu].
    + rewrite change_same, (ind_false (t ∈ W)), (ind_true (t ∈ t :: W)) in * by (done || by left).
      destruct (m t); cbn in *; [lia|done|lia].
    + rewrite change_other, (ind_iff (u ∈ W) (u ∈ t :: W)) by (done || set_solver). lia.
  - intros u. pose proof (sh_owned _ _ _ Hsh u) as Hl. destruct (decide (u = t)) as [->|Hu].
    + rewrite change_same, (ind_false (t ∈ W)), (ind_true (t ∈ t :: W)) in * by (done || by left).
      destruct (m t); cbn in *; [lia|done|lia].
    + rewrite change_other, (ind_iff (u ∈ W) (u ∈ t :: W)) by (done || set_solver). lia.
Qed.

Lemma shared_perm os W W' m : W ≡ₚ W' → shared_ok os W m → shared_ok os W' m.
Proof.
  intros Hp [Hs Hh Hl Ho]. split; [done|done| |]; intros u.
  - rewrite Hl. f_equal. apply ind_iff. by rewrite Hp.
  - rewrite <-(Ho u). apply Z.eq_le_incl. f_equal. apply ind_iff. by rewrite Hp.
Qed.

Lemma shared_wake_all os ts : ∀ W m,
  shared_ok os (ts ++ W) m → NoDup (ts ++ W) → (∀ t, t ∈ ts → is_x (m t) = false) →
  shared_ok os W (foldl (λ m t, change add_hold t m) m ts).
Proof.
  induction ts as [|t ts IH]; intros W m Hsh Hnd Hx; cbn; [done|].
  apply NoDup_cons in Hnd as [Ht Hnd]. apply IH; [|done|].
  - apply shared_wake; [done|done|]. apply Hx. left.
  - intros u Hu. rewrite change_other; [apply Hx; by right|]. intros ->. apply Ht. set_solver.
Qed.

Lemma shared_grow os W m n : shared_ok os W m → shared_ok (os ++ replicate n no_owner) W m.
Proof.
  intros [Hs Hh Hl Ho].
  assert (∀ f, f no_owner = 0 → total f (replicate n no_owner) = 0) as Hz.
  { intros f Hf. induction n as [|n IH]; cbn; [done|]. rewrite Hf, IH. done. }
  split; [|done| |].
  - apply Forall_app. split; [done|]. apply Forall_replicate. done.
  - intros u. rewrite total_app, Hz by done. rewrite Hl. lia.
  - intros u. rewrite total_app, Hz by done. specialize (Ho u). lia.
Qed.

(** ** Slots that are found *)

Lemma find_slot_spec T l : ∀ k free i,
  find_slot T l k free = Some i →
  free = Some i ∨ ∃ o, (k ≤ i)%nat ∧ l !! (i - k)%nat = Some o ∧ (OwnerThread o = T ∨ OwnerThread o = None).
Proof.
  induction l as [|o l IH]; intros k free i; cbn; [by left|]. case_bool_decide as E.
  { intros [= <-]. right. exists o. rewrite Nat.sub_diag. auto. }
  intros Hf. apply IH in Hf as [Hf|(o' & Hk & Ho' & E')].
  - destruct free as [j|]; [by left|]. case_bool_decide; [|done]. injection Hf as <-.
    right. exists o. rewrite Nat.sub_diag. auto.
  - right. exists o'. split; [lia|]. split; [|done]. by replace (i - k)%nat with (S (i - S k)) by lia.
Qed.

Lemma find_owner_slot T l i :
  ExFindOwnerRwLock T l = FoundSlot i →
  ∃ o, slots l !! i = Some o ∧ (OwnerThread o = T ∨ OwnerThread o = None).
Proof.
  unfold ExFindOwnerRwLock. case_match; [done|]. case_match eqn:Hf; [|done]. intros [= ->].
  apply find_slot_spec in Hf as [Hf|(o & Hk & Ho & E)].
  - case_bool_decide; [|done]. injection Hf as <-. exists (SharedOwner l). auto.
  - exists o. split; [|done]. destruct i as [|i]; [lia|]. cbn. by replace i with (S i - 1)%nat by lia.
Qed.

Lemma find_owner_exclusive T l :
  ExFindOwnerRwLock T l = FoundExclusive → is_Some T ∧ OwnerThread (ExclusiveOwner l) = T.
Proof.
  unfold ExFindOwnerRwLock. case_match eqn:E; [|by case_match]. intros _.
  apply andb_true_iff in E as [?%bool_decide_eq_true ?%bool_decide_eq_true]. done.
Qed.

Lemma slots_set_slot i o l : slots (set_slot i o l) = <[i := o]> (slots l).
Proof. by destruct i. Qed.

(** What an update of a slot leaves alone. *)
Lemma set_slot_frame i o l :
  ExclusiveOwner (set_slot i o l) = ExclusiveOwner l ∧ SharedSemaphore (set_slot i o l) = SharedSemaphore l ∧
  ExclusiveSyncEvent (set_slot i o l) = ExclusiveSyncEvent l ∧ SharedWaiterCount (set_slot i o l) = SharedWaiterCount l ∧
  ExclusiveWaiterCount (set_slot i o l) = ExclusiveWaiterCount l ∧ HeldCount (set_slot i o l) = HeldCount l.
Proof. by destruct i. Qed.

Lemma slot_of_spec t os : ∀ k i, slot_of t os k = Some i →
  ∃ o, (k ≤ i)%nat ∧ os !! (i - k)%nat = Some o ∧ OwnerThread o = Some t.
Proof.
  induction os as [|o os IH]; intros k i; cbn; [done|]. case_bool_decide as E.
  - intros [= <-]. exists o. by rewrite Nat.sub_diag.
  - intros Hs. apply IH in Hs as (o' & Hk & Ho' & E'). exists o'. split; [lia|]. split; [|done].
    by replace (i - k)%nat with (S (i - S k)) by lia.
Qed.

Lemma slot_of_none t os : ∀ k, slot_of t os k = None → total (locked_by t) os = 0.
Proof.
  induction os as [|o os IH]; intros k; cbn; [done|]. case_bool_decide as E; [done|].
  intros Hs. rewrite (IH _ Hs). unfold locked_by. by rewrite decide_False.
Qed.

(** ** The invariant *)

Definition signaled (s : sys) : bool := EventSignaled (ExclusiveSyncEvent (lock s)).
Definition permits (s : sys) : Z := SemaphoreCount (SharedSemaphore (lock s)).
Definition xlocked (s : sys) : Z := Locked (ExclusiveOwner (lock s)).
Definition xowner (s : sys) : option nat := OwnerThread (ExclusiveOwner (lock s)).
Definition occupied (s : sys) : Z := total owned (slots (lock s)).

Definition handing (s : sys) : bool := match passing s with Some _ => true | None => false end.

(** The lock is held exclusively or being passed to an exclusive waiter. *)
Definition excl (s : sys) : bool := (0 <? xlocked s) || handing s.

(** Exclusive ownership on its way to a waiter. *)
Definition tokens (s : sys) : Z := Z.of_nat (length (got_x s)) + Z.b2z (signaled s).

Record inv (s : sys) : Prop := {
  iv_shared : shared_ok (slots (lock s)) (waits_s s) (mine s);
  iv_nodup : NoDup (inside s);
  iv_xcount : Z.of_nat (length (wants_x s) + length (sleeps_x s)) = ExclusiveWaiterCount (lock s) + Z.b2z (signaled s);
  iv_scount : Z.of_nat (length (waits_s s)) = SharedWaiterCount (lock s) + permits s;
  iv_pos : 0 ≤ ExclusiveWaiterCount (lock s) ∧ 0 ≤ SharedWaiterCount (lock s) ∧ 0 ≤ permits s ∧ 0 ≤ xlocked s;
  iv_sig : signaled s = true → sleeps_x s = [];
  iv_cnt : 0 < permits s → sleeps_s s = [];
  iv_pass : handing s = true → xlocked s = 0;
  iv_open : excl s = false →
    HeldCount (lock s) = occupied s - SharedWaiterCount (lock s) ∧
    tokens s = 0 ∧ xowner s = None ∧ ∀ t, is_x (mine s t) = false;
  iv_shut : excl s = true →
    HeldCount (lock s) = 1 ∧ occupied s = SharedWaiterCount (lock s) ∧
    (tokens s = 0 ∧ (∃ t, is_x (mine s t) = true) ∨
     tokens s = 1 ∧ (∀ t, is_x (mine s t) = false) ∧ (handing s = false → xlocked s = 1));
  iv_x t n : mine s t = HoldX n → n = (if handing s then 1 else xlocked s) ∧ (xowner s = Some t ∨ xowner s = None);
  iv_one t u : is_x (mine s t) = true → is_x (mine s u) = true → t = u;
  iv_owner t : xowner s = Some t → t ∈ got_x s ∨ is_x (mine s t) = true;
  iv_handed p w : passing s = Some (p, Some w) → w ∈ got_x s ∨ is_x (mine s w) = true;
  iv_idle : HeldCount (lock s) = 0 → SharedWaiterCount (lock s) = 0 ∧ ExclusiveWaiterCount (lock s) = 0;
}.

Lemma init_inv : inv init.
Proof.
  split; try done.
  - split; try done. by constructor.
  - constructor.
Qed.

Lemma nodup_waits_s s : inv s → NoDup (waits_s s).
Proof. intros Hi. pose proof (iv_nodup _ Hi) as Hn. unfold inside in Hn. rewrite !NoDup_app in Hn. tauto. Qed.

(** No one holds the lock shared while it is held exclusively, or not at all. *)
Lemma no_shared s : inv s → excl s = true ∨ HeldCount (lock s) = 0 →
  permits s = 0 ∧ (∀ t n, mine s t ≠ HoldS n) ∧ occupied s = SharedWaiterCount (lock s).
Proof.
  intros Hi Hx. assert (occupied s = SharedWaiterCount (lock s)) as Ho.
  { destruct (excl s) eqn:He; [by apply (iv_shut _ Hi)|]. destruct Hx as [Hx|Hx]; [done|].
    destruct (iv_open _ Hi He) as [Hh _]. lia. }
  destruct (slots_enough _ _ _ (iv_shared _ Hi) (nodup_waits_s _ Hi)) as [H1 H2].
  pose proof (iv_scount _ Hi). pose proof (iv_pos _ Hi). unfold occupied in Ho.
  split; [lia|]. split; [|done]. intros t n Ht. specialize (H2 t n Ht). lia.
Qed.

Lemma runs_spec t s : runs t s = true → t ∉ inside s ∧ ∀ p w, passing s = Some (p, w) → t ≠ p.
Proof.
  unfold runs. rewrite andb_true_iff, bool_decide_eq_true. intros [H1 H2]. split; [done|].
  intros p w Hp. rewrite Hp in H2. apply negb_true_iff, Nat.eqb_neq in H2. done.
Qed.

Lemma not_inside t s : t ∉ inside s →
  t ∉ wants_x s ∧ t ∉ sleeps_x s ∧ t ∉ got_x s ∧ t ∉ waits_s s ∧ t ∉ (growing s).*1.
Proof. unfold inside. rewrite !not_elem_of_app. tauto. Qed.

(** Permutations by counting. *)
Ltac perm :=
  apply (Permutation_count_occ Nat.eq_dec); intros ?x;
  repeat match goal with H : _ ≡ₚ _ |- _ => apply (proj1 (Permutation_count_occ Nat.eq_dec _ _)) with x in H end;
  rewrite ?count_occ_app in *; cbn [count_occ app fmap list_fmap fst] in *; rewrite ?count_occ_app in *; cbn [count_occ] in *;
  repeat case_match; lia.

Ltac same_threads H :=
  match type of H with NoDup ?X =>
    match goal with |- NoDup ?Y => let E := fresh in assert (Y ≡ₚ X) as E; [perm|by rewrite E] end
  end.

Ltac drop_thread H t :=
  match type of H with NoDup ?X =>
    match goal with |- NoDup ?Y =>
      let E := fresh in assert (X ≡ₚ t :: Y) as E; [perm|rewrite E in H; by apply NoDup_cons in H as [_ H]] end
  end.

Lemma remove_perm t (ts : list nat) : NoDup ts → t ∈ ts → ts ≡ₚ t :: remove t ts.
Proof.
  induction 1 as [|u ts Hu Hnd IH]; intros Ht; [by apply not_elem_of_nil in Ht|].
  unfold remove in *. apply elem_of_cons in Ht as [->|Ht].
  - rewrite filter_cons_False by (intros ?; done). rewrite filter_keep; [done|]. intros v Hv ->. done.
  - rewrite filter_cons_True by set_solver. rewrite Permutation_swap, <-IH by done. done.
Qed.

Lemma slots_free os : Forall slot_ok os → total owned os = 0 → Forall (λ o, OwnerThread o = None) os.
Proof.
  induction 1 as [|o os Ho Hos IH]; cbn; [constructor|]. intros Ht.
  assert (0 ≤ total owned os) by (apply total_nonneg; intros; apply ind_nonneg).
  assert (0 ≤ owned o) by apply ind_nonneg. unfold owned at 1 in Ht. unfold owned in H0.
  destruct (OwnerThread o) eqn:E; [rewrite ind_true in * by done; lia|].
  constructor; [done|]. apply IH. rewrite ind_false in Ht by auto. lia.
Qed.

Lemma excl_false s : inv s → excl s = false → handing s = false ∧ xlocked s = 0.
Proof.
  intros Hi Hx. pose proof (iv_pos _ Hi). unfold excl in Hx.
  destruct (handing s); [by rewrite orb_true_r in Hx|]. rewrite orb_false_r in Hx. split; [done|]. lia.
Qed.

Lemma is_x_true h : is_x h = true ↔ ∃ n, h = HoldX n.
Proof. destruct h; cbn; split; try done; try (by intros [? ?]); by eexists. Qed.

(** A thread that holds the lock exclusively, as seen from the lock. *)
Lemma owner_holds s t :
  inv s → t ∉ inside s → passing s = None → xowner s = Some t → mine s t = HoldX (xlocked s).
Proof.
  intros Hi Ht Hp Ho. apply not_inside in Ht as (_ & _ & Ht & _).
  destruct (iv_owner _ Hi t Ho) as [?|[n Hn]%is_x_true]; [done|].
  destruct (iv_x _ Hi t n Hn) as [-> _]. unfold handing in Hn. by rewrite Hp in Hn.
Qed.

(** Parts of the lock that are no slots. *)
Ltac frames :=
  repeat match goal with
  | |- context [slots (set_ExclusiveOwner ?o ?l)] => change (slots (set_ExclusiveOwner o l)) with (slots l)
  | |- context [slots (set_SharedSemaphore ?o ?l)] => change (slots (set_SharedSemaphore o l)) with (slots l)
  | |- context [slots (set_ExclusiveSyncEvent ?o ?l)] => change (slots (set_ExclusiveSyncEvent o l)) with (slots l)
  | |- context [slots (set_SharedWaiterCount ?o ?l)] => change (slots (set_SharedWaiterCount o l)) with (slots l)
  | |- context [slots (set_ExclusiveWaiterCount ?o ?l)] => change (slots (set_ExclusiveWaiterCount o l)) with (slots l)
  | |- context [slots (set_HeldCount ?o ?l)] => change (slots (set_HeldCount o l)) with (slots l)
  end.

(** The threads of a changed state. *)
Ltac parts :=
  unfold inside, waits_s, permits, occupied, signaled, sleeps_s, sleeps_x in *; cbn in *; frames; rewrite ?length_app in *; cbn in *.

(** What follows from the same field of the invariant. *)
Ltac easy_field :=
  lazymatch goal with
  | H : NoDup _ |- NoDup _ => same_threads H
  | |- _ = _ → _ =>
      let E := fresh in intros E;
      repeat match goal with H : ?P → _, H' : ?P |- _ => specialize (H H') end;
      solve [destruct_and?; split_and?; first [done | lia | destruct_or?; destruct_and?; first [lia | left; split_and?; first [done | lia] | right; split_and?; first [done | lia | auto]]]]
  | |- ∀ u, _ = Some u → _ ∨ _ =>
      let u := fresh in let Hu := fresh in intros u Hu;
      match goal with H : ∀ u, _ = Some u → _ |- _ => destruct (H u Hu); [left; first [done | by right]|by right] end
  | |- ∀ p w, _ = Some (p, Some w) → _ ∨ _ =>
      let p := fresh in let w := fresh in let Hp := fresh in intros p w Hp;
      match goal with H : ∀ p w, _ = Some (p, Some w) → _ |- _ => destruct (H p w Hp); [left; first [done | by right]|by right] end
  | _ => fail
  end.

(** The fields of the invariant of a changed state, as far as they are
    obvious. *)
Ltac fields Hi :=
  destruct Hi; split;
  unfold inside, waits_s, excl, tokens, signaled, permits, xlocked, xowner, occupied, sleeps_x, sleeps_s, handing in *;
  cbn in *; frames;
  repeat match goal with E : EventSignaled _ = _ |- _ => rewrite E in *; clear E end;
  rewrite ?length_app in *; cbn in *;
  try done; try lia; try easy_field.

Lemma wait_exclusive_inv s t :
  inv s → t ∉ inside s → HeldCount (lock s) ≠ 0 →
  inv (set_wants_x (t :: wants_x s) (set_lock (set_ExclusiveWaiterCount (ExclusiveWaiterCount (lock s) + 1) (lock s)) s)).
Proof. intros Hi Ht Hh. fields Hi. by constructor. Qed.

(** A list of threads without one of them. *)
Lemma remove_inside s t (ts : list nat) :
  inv s → NoDup ts → t ∈ ts → ts ≡ₚ t :: remove t ts ∧ length ts = S (length (remove t ts)).
Proof. intros Hi Hn Ht. pose proof (remove_perm t ts Hn Ht) as Hr. split; [done|]. apply (Permutation_length Hr). Qed.

Lemma nodup_parts s : inv s → NoDup (wants_x s) ∧ NoDup (sleeps_x s) ∧ NoDup (got_x s) ∧ NoDup (wants_s s) ∧ NoDup (sleeps_s s).
Proof. intros Hi. pose proof (iv_nodup _ Hi) as Hn. unfold inside, waits_s in Hn. rewrite !NoDup_app in Hn. tauto. Qed.

Lemma wait_exclusive_step s t : inv s → t ∈ wants_x s → ∃ s', exec (WaitExclusive t) s = Ok s' ∧ inv s'.
Proof.
  intros Hi Ht. destruct (remove_inside s t (wants_x s)) as [Hr Hl]; [done|by apply nodup_parts|done|].
  cbn. case_match eqn:Hs; eexists; (split; [done|]); fields Hi.
Qed.

Lemma timeout_exclusive_step s t : inv s → t ∈ sleeps_x s → ∃ s', exec (TimeoutExclusive t) s = Ok s' ∧ inv s'.
Proof.
  intros Hi Ht. destruct (remove_inside s t (sleeps_x s)) as [Hr Hl]; [done|by apply nodup_parts|done|].
  cbn. eexists; (split; [done|]). pose proof (iv_sig _ Hi) as Hs. destruct (signaled s) eqn:E.
  { rewrite Hs in Ht by done. by apply not_elem_of_nil in Ht. }
  fields Hi.
  all: match goal with |- ?G => idtac G end.
Qed.

(** The thread that has the event. *)
Lemma has_token s t : inv s → t ∈ got_x s →
  excl s = true ∧ got_x s = [t] ∧ signaled s = false ∧ (∀ u, is_x (mine s u) = false) ∧
  (handing s = false → xlocked s = 1).
Proof.
  intros Hi Ht. assert (0 ≤ Z.b2z (signaled s)) as Hb by (destruct (signaled s); done).
  destruct (got_x s) as [|u us] eqn:E; [by apply not_elem_of_nil in Ht|].
  destruct (excl s) eqn:Hx; [|destruct (iv_open _ Hi Hx) as (_ & Hn & _); unfold tokens in Hn; rewrite E in Hn; cbn in Hn; lia].
  destruct (iv_shut _ Hi Hx) as (_ & _ & [[Hn _]|(Hn & Hm & Hl)]); unfold tokens in Hn; rewrite E in Hn; cbn in Hn; [lia|].
  destruct us; [|cbn in Hn; lia]. apply list_elem_of_singleton in Ht as ->. destruct (signaled s); [cbn in Hn; lia|]. done.
Qed.

Lemma store_owner_step s t : inv s → t ∈ got_x s → ∃ s', exec (StoreOwner t) s = Ok s' ∧ inv s'.
Proof.
  intros Hi Ht. destruct (has_token s t Hi Ht) as (Hx & Hg & Hs & Hm & Hl).
  destruct (no_shared s Hi) as (_ & Hns & _); [by left|].
  assert (remove t (got_x s) = []) as Hr by (by rewrite Hg; unfold remove; rewrite filter_cons_False by auto).
  cbn. rewrite Hr. eexists; (split; [done|]).
  assert (∀ u, is_x (change (λ _, HoldX 1) t (mine s) u) = true → u = t) as Hone.
  { intros u. destruct (decide (u = t)) as [->|Hu]; [done|]. by rewrite change_other, Hm. }
  fields Hi.
  - apply shared_hold with (mine s); [done| |]; intros u; (destruct (decide (u = t)) as [->|Hu];
      [rewrite change_same|rewrite change_other by done]); [done|by apply iv_shared0| |done].
    destruct (mine s t) eqn:E; [done|done|]. by destruct (Hns t n).
  - rewrite Hg in iv_nodup0. drop_thread iv_nodup0 t.
  - intros E. destruct (iv_shut0 E) as (? & ? & _). split_and?; [done|done|]. left. split; [done|].
    exists t. by rewrite change_same.
  - intros u n E. assert (u = t) as -> by (apply Hone; by rewrite E). rewrite change_same in E. injection E as <-.
    split; [|by left]. case_match; [done|]. by rewrite Hl.
  - intros u v Hu Hv. by rewrite (Hone u Hu), (Hone v Hv).
  - intros u [= <-]. right. by rewrite change_same.
  - intros p w E. right. destruct (iv_handed0 p w E) as [Hw|Hw]; [|by rewrite Hm in Hw].
    rewrite Hg in Hw. apply list_elem_of_singleton in Hw as ->. by rewrite change_same.
Qed.

Lemma finish_release_step s t : inv s → enabled (FinishRelease t) s = true →
  ∃ s', exec (FinishRelease t) s = Ok s' ∧ inv s'.
Proof.
  intros Hi He. cbn in *. destruct (passing s) as [[p w]|] eqn:Hp; [|done].
  assert (handing s = true) as Hh by (unfold handing; by rewrite Hp).
  assert (excl s = true) as Hx by (unfold excl; rewrite Hh; apply orb_true_r).
  eexists; (split; [done|]).
  assert (∀ u, u ∈ got_x s → ∀ v, is_x (mine s v) = false) as Hg by (intros u Hu; by apply (has_token s u)).
  fields Hi.
  - intros u n E. destruct (iv_x0 u n E) as [-> _]. rewrite Hp. split; [done|]. destruct w as [w|]; [left|by right]. f_equal.
    assert (is_x (mine s u) = true) as Hu by (by rewrite E).
    destruct (iv_handed0 p w Hp) as [Hw|Hw]; [by rewrite (Hg w Hw) in Hu|by apply iv_one0].
  - intros u ->. by apply (iv_handed0 p).
Qed.

Lemma grow_table_inv s n : inv s → inv (set_lock (grow_table n (lock s)) s).
Proof.
  intros Hi. unfold grow_table. case_match; [|by destruct s].
  pose proof (shared_grow _ _ _ 4 (iv_shared _ Hi)) as Hs.
  assert (total owned (slots (lock s) ++ replicate 4 no_owner) = total owned (slots (lock s))) as Ho
    by (rewrite total_app; apply Z.add_0_r).
  revert Hs Ho. change (slots (lock s) ++ replicate 4 no_owner) with (slots (set_OwnerTable (OwnerTable (lock s) ++ replicate 4 no_owner) (lock s))).
  generalize (OwnerTable (lock s) ++ replicate 4 no_owner). intros os Hs Ho.
  fields Hi; rewrite ?Ho; done.
Qed.

Lemma growing_inv s g : inv s → g.*1 ⊆+ (growing s).*1 → inv (set_growing g s).
Proof.
  intros Hi Hg. fields Hi. apply submseteq_Permutation in Hg as [k Hg]. rewrite Hg in iv_nodup0.
  rewrite !(assoc_L (++)) in *. by apply NoDup_app in iv_nodup0 as [? _].
Qed.

Lemma grow_step s t : inv s → enabled (Grow t) s = true → ∃ s', exec (Grow t) s = Ok s' ∧ inv s'.
Proof.
  intros Hi He. cbn in *. apply andb_true_iff in He as [Hp%bool_decide_eq_true He%bool_decide_eq_true].
  apply list_elem_of_fmap in He as ([u n] & -> & Hin). cbn.
  destruct (filter (λ '(u0, _), u0 = u) (growing s)) as [|[u' n'] g] eqn:Hf.
  { assert ((u, n) ∈ filter (λ '(u0, _), u0 = u) (growing s)) as Hf' by by (apply list_elem_of_filter).
    rewrite Hf in Hf'. by apply not_elem_of_nil in Hf'. }
  cbn. eexists; (split; [done|]). apply (growing_inv (set_lock (grow_table n' (lock s)) s)); [by apply grow_table_inv|].
  cbn. apply sublist_submseteq, fmap_sublist, sublist_filter.
Qed.

(** Nobody holds the lock exclusively or is about to. *)
Record quiet (s : sys) : Prop := {
  qt_shared : shared_ok (slots (lock s)) (waits_s s) (mine s);
  qt_nodup : NoDup (inside s);
  qt_xcount : Z.of_nat (length (wants_x s) + length (sleeps_x s)) = ExclusiveWaiterCount (lock s);
  qt_scount : Z.of_nat (length (waits_s s)) = SharedWaiterCount (lock s) + permits s;
  qt_pos : 0 ≤ SharedWaiterCount (lock s) ∧ 0 ≤ permits s;
  qt_cnt : 0 < permits s → sleeps_s s = [];
  qt_pass : passing s = None;
  qt_owner : ExclusiveOwner (lock s) = no_owner;
  qt_got : got_x s = [];
  qt_signaled : signaled s = false;
  qt_x t : is_x (mine s t) = false;
}.

(** The invariant of a lock that is held shared, or not at all. *)
Lemma open_inv s :
  quiet s → HeldCount (lock s) = occupied s - SharedWaiterCount (lock s) →
  (HeldCount (lock s) = 0 → SharedWaiterCount (lock s) = 0 ∧ ExclusiveWaiterCount (lock s) = 0) →
  inv s.
Proof.
  intros [Hsh Hnd Hxc Hsc Hp Hcnt Hpass Hown Hgot Hsig Hm] Hheld Hidle.
  assert (handing s = false) as Hh by (unfold handing; by rewrite Hpass).
  assert (xlocked s = 0 ∧ xowner s = None) as [Hl Ho] by (unfold xlocked, xowner; by rewrite Hown).
  assert (excl s = false) as He by (unfold excl; by rewrite Hl, Hh).
  split; rewrite ?Hsig, ?Hh, ?Hl, ?Ho, ?Hpass, ?He; try done; try lia.
  - by rewrite Z.add_0_r.
  - intros _. split; [done|]. unfold tokens. by rewrite Hgot, Hsig.
  - intros t n E. specialize (Hm t). by rewrite E in Hm.
  - intros t u E. by rewrite Hm in E.
Qed.

Lemma open_quiet s : inv s → excl s = false → quiet s.
Proof.
  intros Hi He. destruct (excl_false s Hi He) as [Hh Hl]. destruct (iv_open _ Hi He) as (_ & Ht & Ho & Hm).
  pose proof (iv_pos _ Hi). pose proof (iv_xcount _ Hi) as Hx.
  assert (got_x s = [] ∧ signaled s = false) as [Hg Hs].
  { unfold tokens in Ht. destruct (got_x s), (signaled s); cbn in *; done || lia. }
  rewrite Hs, Z.add_0_r in Hx. split; try done; try apply Hi.
  - lia.
  - unfold handing in Hh. by destruct (passing s).
  - unfold xlocked, xowner in *. destruct (ExclusiveOwner (lock s)). cbn in *. by subst.
Qed.

(** A lock that is held shared, or not at all. *)
Lemma open_spec s : inv s → excl s = false →
  passing s = None ∧ ExclusiveOwner (lock s) = no_owner ∧ got_x s = [] ∧ signaled s = false ∧
  ∀ t, is_x (mine s t) = false.
Proof. intros Hi He. by destruct (open_quiet s Hi He). Qed.

Lemma woken_x ts : ∀ m u, is_x (m u) = false → is_x (foldl (λ m t, change add_hold t m) m ts u) = false.
Proof.
  induction ts as [|t ts IH]; intros m u Hm; cbn; [done|]. apply IH.
  destruct (decide (u = t)) as [->|Hu]; [rewrite change_same|by rewrite change_other]. by destruct (m t).
Qed.

Lemma wait_shared_step s t : inv s → t ∈ wants_s s → ∃ s', exec (WaitShared t) s = Ok s' ∧ inv s'.
Proof.
  intros Hi Ht. destruct (remove_inside s t (wants_s s)) as [Hr Hl]; [done|by apply nodup_parts|done|].
  assert (wants_s s ++ sleeps_s s ≡ₚ t :: remove t (wants_s s) ++ sleeps_s s) as Hp by perm.
  pose proof (shared_perm _ _ _ _ Hp (iv_shared _ Hi)) as Hsh.
  pose proof (nodup_waits_s s Hi) as Hw. unfold waits_s in Hw. rewrite Hp in Hw. apply NoDup_cons in Hw as [Hw _].
  cbn. destruct (Z.ltb_spec 0 (SemaphoreCount (SharedSemaphore (lock s)))) as [Hc|Hc]; eexists; (split; [done|]).
  - destruct (excl s) eqn:He; [destruct (no_shared s Hi) as [? _]; [by left|unfold permits in *; lia]|].
    pose proof (iv_open _ Hi He) as [H6 _]. pose proof (iv_cnt _ Hi Hc) as H9. pose proof (iv_idle _ Hi).
    apply open_inv; [|done|done]. destruct (open_quiet s Hi He) as [_ Hn]. split; parts; try done; try lia.
    + by apply shared_wake.
    + drop_thread Hn t.
    + intros u. by apply (woken_x [t]).
  - fields Hi. eapply shared_perm; [|exact iv_shared0]. perm.
Qed.

Lemma timeout_shared_step s t : inv s → t ∈ sleeps_s s → ∃ s', exec (TimeoutShared t) s = Ok s' ∧ inv s'.
Proof.
  intros Hi Ht. destruct (remove_inside s t (sleeps_s s)) as [Hr Hl]; [done|by apply nodup_parts|done|].
  cbn. eexists; (split; [done|]); fields Hi.
  - eapply shared_perm; [|exact iv_shared0]. perm.
  - intros Hc. rewrite iv_cnt0 in Ht by done. by apply not_elem_of_nil in Ht.
Qed.

(** The invariant of a lock that [t] holds exclusively. *)
Lemma shut_inv s t n :
  shared_ok (slots (lock s)) (waits_s s) (mine s) → NoDup (inside s) →
  Z.of_nat (length (wants_x s) + length (sleeps_x s)) = ExclusiveWaiterCount (lock s) →
  Z.of_nat (length (waits_s s)) = SharedWaiterCount (lock s) → permits s = 0 →
  HeldCount (lock s) = 1 → occupied s = SharedWaiterCount (lock s) →
  passing s = None → ExclusiveOwner (lock s) = mkOwner n (Some t) → 0 < n → got_x s = [] → signaled s = false →
  mine s t = HoldX n → (∀ u, is_x (mine s u) = true → u = t) →
  inv s.
Proof.
  intros Hsh Hnd Hxc Hsc Hp Hheld Hocc Hpass Hown Hn Hgot Hsig Ht Hm.
  assert (handing s = false) as Hh by (unfold handing; by rewrite Hpass).
  assert (xlocked s = n ∧ xowner s = Some t) as [Hl Ho] by (unfold xlocked, xowner; by rewrite Hown).
  assert (excl s = true) as He by (unfold excl; rewrite Hl, Hh, orb_false_r; by apply Z.ltb_lt).
  split; rewrite ?Hsig, ?Hh, ?Hl, ?Ho, ?Hpass, ?He; try done; try lia.
  - by rewrite Z.add_0_r.
  - intros _. split; [done|]. split; [done|]. left. unfold tokens. rewrite Hgot, Hsig. split; [done|].
    exists t. by rewrite Ht.
  - intros u k E. assert (u = t) as -> by (apply Hm; by rewrite E). rewrite Ht in E. injection E as <-. auto.
  - intros u v Hu Hv. by rewrite (Hm u Hu), (Hm v Hv).
  - intros u [= <-]. right. by rewrite Ht.
Qed.

(** A lock that a thread outside the routines holds exclusively. *)
Lemma shut_spec s t : inv s → t ∉ inside s → passing s = None → xowner s = Some t →
  excl s = true ∧ got_x s = [] ∧ signaled s = false ∧ 0 < xlocked s ∧ mine s t = HoldX (xlocked s) ∧
  HeldCount (lock s) = 1 ∧ permits s = 0 ∧ (∀ u k, mine s u ≠ HoldS k) ∧ occupied s = SharedWaiterCount (lock s) ∧
  ∀ u, is_x (mine s u) = true → u = t.
Proof.
  intros Hi Ht Hp Ho. pose proof (owner_holds s t Hi Ht Hp Ho) as Hm.
  assert (is_x (mine s t) = true) as Hx by (by rewrite Hm).
  destruct (excl s) eqn:He; [|destruct (open_spec s Hi He) as (_ & _ & _ & _ & H); by rewrite H in Hx].
  destruct (no_shared s Hi) as (H1 & H2 & H3); [by left|].
  destruct (iv_shut _ Hi He) as (H4 & _ & [[H5 _]|(_ & H & _)]); [|by rewrite H in Hx].
  assert (0 < xlocked s) by (unfold excl, handing in He; rewrite Hp, orb_false_r in He; by apply Z.ltb_lt).
  unfold tokens in H5. destruct (got_x s), (signaled s); cbn in H5; try lia. split_and?; try done.
  intros u Hu. by apply (iv_one _ Hi).
Qed.

(** The owner acquires the lock once more. *)
Lemma again_inv s t f : inv s → t ∉ inside s → passing s = None → xowner s = Some t →
  (∀ n, f (HoldX n) = HoldX (n + 1)) →
  inv (set_mine (change f t (mine s))
         (set_lock (set_ExclusiveOwner (mkOwner (Locked (ExclusiveOwner (lock s)) + 1) (Some t)) (lock s)) s)).
Proof.
  intros Hi Ht Hp Ho Hf. destruct (shut_spec s t Hi Ht Hp Ho) as (He & Hg & Hs & Hl & Hm & Hh & Hpm & Hns & Hocc & Hone).
  pose proof (iv_xcount _ Hi) as Hxc. pose proof (iv_scount _ Hi) as Hsc. rewrite Hs in Hxc. cbn in Hxc.
  apply (shut_inv _ t (xlocked s + 1)); parts; try done; try lia.
  - apply shared_hold with (mine s); [apply Hi| |]; intros u; (destruct (decide (u = t)) as [->|Hu];
      [rewrite change_same, Hm, Hf|rewrite change_other by done]); [cbn; lia|by apply Hi|done|done].
  - apply Hi.
  - by rewrite change_same, Hm, Hf.
  - intros u. destruct (decide (u = t)) as [->|Hu]; [done|]. rewrite change_other by done. apply Hone.
Qed.

Lemma set_lock_same s : set_lock (lock s) s = s.
Proof. by destruct s. Qed.

Lemma acquire_exclusive_step s t DontBlock :
  inv s → passing s = None → t ∉ inside s → ∃ s', exec (AcquireExclusive t DontBlock) s = Ok s' ∧ inv s'.
Proof.
  intros Hi Hp Ht. cbn. unfold ExAcquireExclusiveRwLock.
  destruct (Z.eqb_spec (HeldCount (lock s)) 0) as [Hh|Hh].
  - eexists; (split; [done|]). destruct (no_shared s Hi) as (H1 & H2 & H3); [by right|].
    assert (excl s = false) as He by (destruct (excl s) eqn:E; [destruct (iv_shut _ Hi E); lia|done]).
    destruct (open_spec s Hi He) as (_ & H4 & H5 & H6 & H7). destruct (iv_idle _ Hi Hh) as [H8 H9].
    pose proof (iv_xcount _ Hi) as Hxc. pose proof (iv_scount _ Hi) as Hsc. rewrite H6 in Hxc. cbn in Hxc.
    assert (mine s t = Nothing) as Hm.
    { specialize (H7 t). destruct (mine s t) eqn:E; [done|done|by destruct (H2 t n)]. }
    apply (shut_inv _ t 1); parts; try done; try lia.
    + apply shared_hold with (mine s); [apply Hi| |]; intros u; (destruct (decide (u = t)) as [->|Hu];
        [rewrite change_same, Hm|rewrite change_other by done]); [cbn; lia|by apply Hi|done|done].
    + apply Hi.
    + by rewrite change_same, Hm.
    + intros u. destruct (decide (u = t)) as [->|Hu]; [done|]. rewrite change_other by done. by rewrite H7.
  - destruct (Z.eqb_spec (Locked (ExclusiveOwner (lock s))) 0) as [Hl|Hl]; cbn [negb].
    + destruct DontBlock; eexists; (split; [done|]); [by rewrite set_lock_same|by apply wait_exclusive_inv].
    + case_bool_decide as Ho; eexists; (split; [done|]); [by apply again_inv|by apply wait_exclusive_inv].
Qed.

(** The lock with a slot set. *)
Lemma set_slot_eq i o l : ∃ so os,
  set_slot i o l = mkRwLock (ExclusiveOwner l) so os (SharedSemaphore l) (ExclusiveSyncEvent l)
    (SharedWaiterCount l) (ExclusiveWaiterCount l) (HeldCount l) ∧
  ∀ x m e a b c, slots (mkRwLock x so os m e a b c) = <[i := o]> (slots l).
Proof. by destruct i; eexists _, _. Qed.

Lemma owned_some n t : owned (mkOwner n (Some t)) = 1.
Proof. by apply ind_true. Qed.

Lemma owned_none o : OwnerThread o = None → owned o = 0.
Proof. intros E. apply ind_false. auto. Qed.

Lemma wait_shared_inv s t i o :
  inv s → t ∉ inside s → HeldCount (lock s) ≠ 0 → slots (lock s) !! i = Some o → OwnerThread o = None →
  inv (set_wants_s (t :: wants_s s)
         (set_lock (set_SharedWaiterCount (SharedWaiterCount (lock s) + 1) (set_slot i (mkOwner 1 (Some t)) (lock s))) s)).
Proof.
  intros Hi Ht Hh Hs Ho. destruct (not_inside t s Ht) as (_ & _ & _ & Hw & _).
  pose proof (shared_wait _ _ _ i o t (iv_shared _ Hi) Hs Ho Hw) as Hsh.
  pose proof (total_insert owned _ i o (mkOwner 1 (Some t)) Hs) as Hocc. rewrite (owned_none o Ho), owned_some in Hocc.
  assert (NoDup (t :: inside s)) as Hn by (constructor; [done|apply Hi]).
  destruct (set_slot_eq i (mkOwner 1 (Some t)) (lock s)) as (so & os & -> & Hsl).
  fields Hi; rewrite ?Hsl, ?Hocc; try done.
  - intros E. destruct (iv_open0 E) as (? & ?). split; [lia|done].
  - intros E. destruct (iv_shut0 E) as (? & ? & ?). split; [done|]. split; [lia|done].
Qed.

Lemma growing_cons_inv s t n : inv s → t ∉ inside s → inv (set_growing ((t, n) :: growing s) s).
Proof.
  intros Hi Ht. assert (NoDup (t :: inside s)) as Hn by (constructor; [done|apply Hi]).
  fields Hi.
Qed.

Lemma slot_take_inv s t i o c :
  inv s → t ∉ inside s → excl s = false → slots (lock s) !! i = Some o → OwnerThread o = None →
  c = HeldCount (lock s) + 1 → 
  inv (set_mine (change add_hold t (mine s)) (set_lock (set_HeldCount c (set_slot i (mkOwner 1 (Some t)) (lock s))) s)).
Proof.
  intros Hi Ht He Hs Ho ->. destruct (not_inside t s Ht) as (_ & _ & _ & Hw & _).
  destruct (open_spec s Hi He) as (H1 & H2 & H3 & H4 & H5). destruct (iv_open _ Hi He) as (H6 & _).
  assert (shared_ok (<[i := mkOwner 1 (Some t)]> (slots (lock s))) (waits_s s) (change add_hold t (mine s))) as Hsh.
  { pose proof (sh_holds _ _ _ (iv_shared _ Hi) t) as Hh. specialize (H5 t).
    eapply shared_take; [apply Hi|done|done|done|lia|..]; destruct (mine s t); cbn in *; done || lia. }
  pose proof (total_insert owned _ i o (mkOwner 1 (Some t)) Hs) as Hocc. rewrite (owned_none o Ho), owned_some in Hocc.
  assert (0 ≤ occupied s - SharedWaiterCount (lock s)).
  { destruct (slots_enough _ _ _ (iv_shared _ Hi) (nodup_waits_s _ Hi)) as [? _].
    pose proof (iv_scount _ Hi). pose proof (iv_pos _ Hi). unfold occupied. lia. }
  destruct (set_slot_eq i (mkOwner 1 (Some t)) (lock s)) as (so & os & -> & Hsl).
  apply open_inv; [destruct (open_quiet s Hi He); split|..]; parts; rewrite ?Hsl, ?Hocc; try done; try lia.
  intros u. by apply (woken_x [t]).
Qed.

(** The owner of a slot acquires the lock once more. *)
Lemma slot_again_inv s t i o :
  inv s → t ∉ inside s → excl s = false → slots (lock s) !! i = Some o → OwnerThread o = Some t →
  inv (set_mine (change add_hold t (mine s)) (set_lock (set_slot i (mkOwner (Locked o + 1) (Some t)) (lock s)) s)).
Proof.
  intros Hi Ht He Hs Ho. destruct (not_inside t s Ht) as (_ & _ & _ & Hw & _).
  destruct (open_spec s Hi He) as (H1 & H2 & H3 & H4 & H5). destruct (iv_open _ Hi He) as (H6 & _).
  assert (shared_ok (<[i := mkOwner (Locked o + 1) (Some t)]> (slots (lock s))) (waits_s s) (change add_hold t (mine s))) as Hsh.
  { pose proof (sh_holds _ _ _ (iv_shared _ Hi) t) as Hh. specialize (H5 t).
    pose proof (slot_of_ok _ _ _ (sh_slots _ _ _ (iv_shared _ Hi)) Hs) as [Hpos _].
    eapply shared_more; [apply Hi|done|done|done| | | |].
    - split; cbn; [lia|]. split; [done|lia].
    - by left.
    - destruct (mine s t); cbn in *; lia.
    - rewrite locked_by_self. destruct (mine s t); cbn in *; done || lia. }
  pose proof (total_insert owned _ i o (mkOwner (Locked o + 1) (Some t)) Hs) as Hocc. rewrite owned_some in Hocc.
  replace (owned o) with 1 in Hocc by (symmetry; apply ind_true; by rewrite Ho).
  pose proof (iv_idle _ Hi).
  destruct (set_slot_eq i (mkOwner (Locked o + 1) (Some t)) (lock s)) as (so & os & -> & Hsl).
  apply open_inv; [destruct (open_quiet s Hi He); split|..]; parts; rewrite ?Hsl, ?Hocc; try done; try lia.
  intros u. by apply (woken_x [t]).
Qed.

Lemma acquire_shared_step s t DontBlock CanStarve :
  inv s → passing s = None → t ∉ inside s → ∃ s', exec (AcquireShared t DontBlock CanStarve) s = Ok s' ∧ inv s'.
Proof.
  intros Hi Hp Ht. unfold exec, ExAcquireSharedRwLock.
  destruct (Z.eqb_spec (HeldCount (lock s)) 0) as [Hh|Hh].
  - cbn. eexists; (split; [done|]). 
    assert (excl s = false) as He by (destruct (excl s) eqn:E; [destruct (iv_shut _ Hi E); lia|done]).
    destruct (no_shared s Hi) as (_ & _ & H3); [by right|]. destruct (iv_idle _ Hi Hh) as [H4 _].
    pose proof (slots_free _ (sh_slots _ _ _ (iv_shared _ Hi))) as Hf. unfold occupied in H3.
    rewrite H3 in Hf. apply Forall_cons in Hf as [Hf _]; [|done].
    apply (slot_take_inv s t 0 (SharedOwner (lock s)) 1); try done. lia.
  - destruct (Z.eqb_spec (Locked (ExclusiveOwner (lock s))) 0) as [Hl|Hl]; cbn [negb].
    + assert (excl s = false) as He by (unfold excl, xlocked, handing; by rewrite Hl, Hp).
      destruct (ExFindOwnerRwLock (Some t) (lock s)) as [|i|] eqn:Hf.
      * apply find_owner_exclusive in Hf as [_ Hf]. destruct (iv_open _ Hi He) as (_ & _ & Ho & _).
        unfold xowner in Ho. congruence.
      * destruct (find_owner_slot _ _ _ Hf) as (o & Hs & Ho). rewrite Hs. cbn [deref mbind outcome_bind].
        cbn. case_bool_decide as Ht'; [eexists; (split; [done|]); by apply slot_again_inv|].
        destruct Ho as [|Ho]; [done|]. case_match eqn:Hc.
        -- eexists; (split; [done|]). by apply (slot_take_inv s t i o).
        -- destruct DontBlock; eexists; (split; [done|]); [by rewrite set_lock_same|by apply wait_shared_inv with o].
      * eexists; (split; [done|]). rewrite set_lock_same. by apply (growing_cons_inv s).
    + case_bool_decide as Ho; [eexists; (split; [done|]); by apply (again_inv s)|].
      destruct (ExFindOwnerRwLock None (lock s)) as [|i|] eqn:Hf.
      * apply find_owner_exclusive in Hf as [[? ?] _]. done.
      * destruct (find_owner_slot _ _ _ Hf) as (o & Hs & Ho'). eexists; (split; [done|]).
        apply (wait_shared_inv s t i o); try done. by destruct Ho'.
      * eexists; (split; [done|]). rewrite set_lock_same. by apply (growing_cons_inv s).
Qed.

Lemma wake_nil s : wake [] s = s.
Proof. by destruct s. Qed.

(** The shared waiters are let in to a lock that is not held exclusively. *)
Lemma wake_shared_inv s base woken l :
  quiet s → 0 ≤ base → base = HeldCount (lock s) → base = occupied s - SharedWaiterCount (lock s) →
  (base = 0 → SharedWaiterCount (lock s) = 0 → ExclusiveWaiterCount (lock s) = 0) →
  wake_shared base (lock s) = (woken, l) →
  inv (wake woken (set_lock l s)).
Proof.
  intros Hq Hb0 Hbh Hb Hidle Hw. unfold wake_shared in Hw.
  destruct (Z.eqb_spec (SharedWaiterCount (lock s)) 0) as [Hz|Hz].
  { injection Hw as <- <-. rewrite set_lock_same, wake_nil. apply open_inv; [done|lia|]. intros. split; [done|]. apply Hidle; lia. }
  injection Hw as <- <-. pose proof (qt_pos _ Hq).
  pose proof (take_drop (Z.to_nat (SemaphoreCount (SharedSemaphore (lock s)) + SharedWaiterCount (lock s)))
    (SemaphoreWaiters (SharedSemaphore (lock s)))) as Hd.
  set (a := take _ _) in *. set (b := drop _ _) in *.
  assert (wants_s s ++ sleeps_s s ≡ₚ a ++ wants_s s ++ b) as Hpm by (unfold sleeps_s; rewrite <-Hd; perm).
  assert (length a + length b = length (SemaphoreWaiters (SharedSemaphore (lock s))))%nat as Hlen
    by (rewrite <-Hd, length_app; done).
  assert (Z.of_nat (length a) ≤ SemaphoreCount (SharedSemaphore (lock s)) + SharedWaiterCount (lock s) ∧
    (Z.of_nat (length a) < SemaphoreCount (SharedSemaphore (lock s)) + SharedWaiterCount (lock s) → b = [])) as [Ha1 Ha2].
  { unfold permits in *. unfold a, b. rewrite length_take. split; [lia|]. intros. apply drop_ge. lia. }
  apply open_inv; [|parts; lia|cbn; lia].
  destruct Hq as [Hsh Hnd Hxc Hsc Hp Hcnt Hpass Hown Hgot Hsig Hm].
  assert (NoDup (wants_s s ++ sleeps_s s)) as Hw by (unfold inside, waits_s in Hnd; rewrite !NoDup_app in Hnd; rewrite NoDup_app; tauto).
  rewrite Hpm in Hw. pose proof (shared_perm _ _ _ _ Hpm Hsh) as Hsh'.
  split; parts; try done; try lia.
  - apply shared_wake_all; [done|done|]. intros t _. apply Hm.
  - rewrite <-Hd in Hnd.
    match type of Hnd with NoDup ?X => match goal with |- NoDup ?Y => assert (X ≡ₚ a ++ Y) as E by perm end end.
    rewrite E in Hnd. by apply NoDup_app in Hnd as (_ & _ & Hnd).
  - intros. apply Ha2. lia.
  - intros u. by apply woken_x.
Qed.

(** The lock is passed to an exclusive waiter. *)
Lemma hand_over_inv s t W e :
  quiet s → 0 < ExclusiveWaiterCount (lock s) → occupied s = SharedWaiterCount (lock s) →
  set_event_and_get_waiter (ExclusiveSyncEvent (lock s)) = (W, e) →
  let s' := set_lock (set_ExclusiveSyncEvent e (set_ExclusiveWaiterCount (ExclusiveWaiterCount (lock s) - 1)
                        (set_HeldCount 1 (lock s)))) s in
  inv (set_passing (Some (t, W)) (match W with Some w => set_got_x (w :: got_x s') s' | None => s' end)).
Proof.
  intros [Hsh Hnd Hxc Hsc Hp Hcnt Hpass Hown Hgot Hsig Hm] Hw Hocc Hk s'. unfold set_event_and_get_waiter in Hk.
  destruct (EventWaiters (ExclusiveSyncEvent (lock s))) as [|w ws] eqn:E; injection Hk as <- <-; unfold s'; clear s'; split;
    unfold excl, tokens, xlocked, xowner, handing; parts; rewrite ?E, ?Hgot, ?Hown in *; cbn in *; try done; try lia;
    try (intros u n Hu; specialize (Hm u); by rewrite Hu in Hm); try (intros u v Hu; by rewrite Hm in Hu);
    try (intros _; split_and?; [done|done|right; by split_and?]).
  - same_threads Hnd.
  - intros p x [= _ <-]. left. left.
Qed.

(** What [ExReleaseRwLock] does when the thread holds the lock no more. *)
Lemma release_held_inv s t Exclusive :
  quiet s → 0 < HeldCount (lock s) → HeldCount (lock s) - 1 = occupied s - SharedWaiterCount (lock s) →
  ∃ s', ('(woken, handed, l) ← release_held Exclusive (lock s);
         match handed with
         | None => Ok (wake woken (set_lock l s))
         | Some W =>
             Ok (set_passing (Some (t, W))
                   (match W with Some w => set_got_x (w :: got_x s) (set_lock l s) | None => set_lock l s end))
         end) = Ok s' ∧ inv s'.
Proof.
  intros Hq Hh Hocc. unfold release_held.
  destruct (Z.eqb_spec (HeldCount (lock s)) 0); [lia|]. cbn.
  set (s1 := set_lock (set_HeldCount (HeldCount (lock s) - 1) (lock s)) s).
  assert (quiet s1) as Hq1 by (by destruct Hq).
  assert (∀ base woken l, base = HeldCount (lock s) - 1 → (base = 0 → SharedWaiterCount (lock s) = 0 → ExclusiveWaiterCount (lock s) = 0) →
    wake_shared base (lock s1) = (woken, l) → inv (wake woken (set_lock l s1))) as Hwake.
  { intros base wk l' -> Hidle Hw. apply (wake_shared_inv s1 (HeldCount (lock s) - 1) wk l'); try done. lia. }
  assert (0 ≤ ExclusiveWaiterCount (lock s)) as Hx by (rewrite <-(qt_xcount _ Hq); lia).
  destruct (Z.eqb_spec (HeldCount (lock s) - 1) 0) as [Hz|Hz].
  - destruct (_ && negb (ExclusiveWaiterCount (lock s) =? 0)) eqn:Ha.
    + destruct (set_event_and_get_waiter (ExclusiveSyncEvent (lock s))) as [W e] eqn:Hk.
      eexists. split; [done|]. apply andb_true_iff in Ha as [_ Ha%negb_true_iff%Z.eqb_neq].
      pose proof (hand_over_inv s t W e Hq) as Hi. specialize (Hi ltac:(lia) ltac:(lia) Hk). by destruct W.
    + change (set_HeldCount (HeldCount (lock s) - 1) (lock s)) with (lock s1).
      destruct (wake_shared 0 (lock s1)) as [wk l'] eqn:Hw.
      eexists. split; [done|]. apply (Hwake 0); [lia| |done]. intros _ Hs0.
      apply andb_false_iff in Ha as [Ha|Ha%negb_false_iff%Z.eqb_eq]; [|done].
      rewrite Hs0 in Ha. cbn in Ha. by destruct Exclusive.
  - eexists. split; [done|].
    rewrite wake_nil. apply open_inv; [done|done|]. cbn. lia.
Qed.

(** The thread holds the lock exclusively, but its name was overwritten. *)
Definition lost (s : sys) : Prop := ∃ t, passing s = None ∧ is_x (mine s t) = true ∧ xowner s ≠ Some t.

Lemma release_exclusive_step s t :
  inv s → passing s = None → t ∉ inside s → xowner s = Some t → ∃ s', exec (Release t) s = Ok s' ∧ inv s'.
Proof.
  intros Hi Hp Ht Ho. destruct (shut_spec s t Hi Ht Hp Ho) as (He & Hg & Hs & Hl & Hm & Hh & Hpm & Hns & Hocc & Hone).
  pose proof (iv_xcount _ Hi) as Hxc. pose proof (iv_scount _ Hi) as Hsc. rewrite Hs in Hxc. cbn in Hxc.
  unfold exec, ExReleaseRwLock. rewrite bool_decide_true by done. 
  destruct (Z.eqb_spec (Locked (ExclusiveOwner (lock s))) 0) as [Hz|Hz]; [unfold xlocked in Hl; lia|]. cbn [negb check mbind outcome_bind].
  destruct (Z.eqb_spec (Locked (ExclusiveOwner (lock s)) - 1) 0) as [H1|H1]; cbn [negb].
  - set (l := set_ExclusiveOwner _ (lock s)).
    assert (quiet (set_mine (change sub_hold t (mine s)) (set_lock l s))) as Hq.
    { split; parts; try done; try lia.
      - apply shared_hold with (mine s); [apply Hi| |]; intros u; (destruct (decide (u = t)) as [->|Hu];
          [rewrite change_same, Hm; cbn; case_match|rewrite change_other by done]); cbn; try done; try lia. apply Hi.
      - apply Hi.
      - cbn. by rewrite H1.
      - intros u. destruct (decide (u = t)) as [->|Hu].
        + rewrite change_same, Hm. unfold sub_hold, xlocked. rewrite (proj2 (Z.eqb_eq _ _)) by lia. done.
        + rewrite change_other by done. destruct (is_x (mine s u)) eqn:E; [|done]. by apply Hone in E. }
    apply (release_held_inv _ t true Hq); subst l; parts; lia.
  - assert (sub_hold (mine s t) = HoldX (xlocked s - 1)) as Hsub.
    { rewrite Hm. cbn. by rewrite (proj2 (Z.eqb_neq _ _)) by (unfold xlocked; lia). }
    assert (0 < xlocked s - 1) by (unfold xlocked in *; lia).
    cbn. eexists; (split; [done|]). rewrite wake_nil. unfold xowner in Ho. rewrite Ho.
    apply (shut_inv _ t (xlocked s - 1)); parts; try done; try lia.
    + apply shared_hold with (mine s); [apply Hi| |]; intros u; (destruct (decide (u = t)) as [->|Hu];
        [rewrite change_same, Hsub|rewrite change_other by done]); cbn; try done; [|by rewrite Hm]. apply Hi.
    + apply Hi.
    + by rewrite change_same.
    + intros u. destruct (decide (u = t)) as [->|Hu]; [done|]. rewrite change_other by done. apply Hone.
Qed.

Lemma total_ge f os i o : (∀ o, o ∈ os → 0 ≤ f o) → os !! i = Some o → f o ≤ total f os.
Proof.
  revert i. induction os as [|x os IH]; intros [|i] Hf; cbn; try done.
  - intros [= ->]. assert (0 ≤ total f os); [|lia]. apply total_nonneg. intros y Hy. apply Hf. by right.
  - intros Hi. assert (0 ≤ f x) by (apply Hf; left). specialize (IH i ltac:(intros y Hy; apply Hf; by right) Hi). lia.
Qed.

(** The thread of a slot has the lock shared. *)
Lemma slot_holds s t i o : inv s → t ∉ inside s → slots (lock s) !! i = Some o → OwnerThread o = Some t →
  0 < Locked o ∧ excl s = false ∧ 0 < HeldCount (lock s) ∧ ∃ k, mine s t = HoldS k ∧ Locked o ≤ k.
Proof.
  intros Hi Ht Hs Ho. destruct (not_inside t s Ht) as (_ & _ & _ & Hw & _).
  pose proof (sh_locked _ _ _ (iv_shared _ Hi) t) as Hl. rewrite (ind_false (t ∈ waits_s s)), Z.add_0_r in Hl by done.
  pose proof (sh_slots _ _ _ (iv_shared _ Hi)) as Hslots. pose proof (slot_of_ok _ _ _ Hslots Hs) as [Hpos Hfree].
  assert (0 < Locked o) as Hlo by (assert (Locked o ≠ 0) by (intros E; apply Hfree in E; congruence); lia).
  assert (locked_by t o ≤ total (locked_by t) (slots (lock s))) as Hge.
  { apply total_ge with i; [|done]. rewrite Forall_forall in Hslots. intros x Hx. destruct (Hslots x Hx).
    unfold locked_by. case_decide; lia. }
  unfold locked_by in Hge at 1. rewrite decide_True, Hl in Hge by done.
  assert (∃ k, mine s t = HoldS k ∧ Locked o ≤ k) as (k & Hm & Hk)
    by (destruct (mine s t) as [|k|k]; cbn in Hge; [lia|lia|by exists k]).
  assert (excl s = false) as He.
  { destruct (excl s) eqn:E; [|done]. destruct (no_shared s Hi) as (_ & Hn & _); [by left|]. by destruct (Hn t k). }
  destruct (slots_enough _ _ _ (iv_shared _ Hi) (nodup_waits_s _ Hi)) as [_ H2]. specialize (H2 t k Hm).
  pose proof (iv_scount _ Hi). pose proof (iv_pos _ Hi). destruct (iv_open _ Hi He) as [Hh _]. unfold occupied in Hh.
  split; [done|]. split; [done|]. split; [lia|]. by exists k.
Qed.

Lemma slot_release_quiet s t i o T :
  inv s → t ∉ inside s → slots (lock s) !! i = Some o → OwnerThread o = Some t →
  T = (if Locked o - 1 =? 0 then None else Some t) →
  let s' := set_mine (change sub_hold t (mine s)) (set_lock (set_slot i (mkOwner (Locked o - 1) T) (lock s)) s) in
  quiet s' ∧ occupied s' = occupied s - (if Locked o - 1 =? 0 then 1 else 0) ∧
  SharedWaiterCount (lock s') = SharedWaiterCount (lock s) ∧ ExclusiveWaiterCount (lock s') = ExclusiveWaiterCount (lock s) ∧
  HeldCount (lock s') = HeldCount (lock s).
Proof.
  intros Hi Ht Hs Ho HT s'. destruct (slot_holds s t i o Hi Ht Hs Ho) as (Hlo & He & Hh & k & Hm & Hk).
  destruct (not_inside t s Ht) as (_ & _ & _ & Hw & _).
  pose proof (total_insert owned _ i o (mkOwner (Locked o - 1) T) Hs) as Hocc.
  replace (owned o) with 1 in Hocc by (symmetry; apply ind_true; by rewrite Ho).
  assert (shared_ok (<[i := mkOwner (Locked o - 1) T]> (slots (lock s))) (waits_s s) (change sub_hold t (mine s))) as Hsh.
  { eapply shared_more; [apply Hi|done|done|done| | | |]; rewrite ?Hm, ?HT; cbn.
    - split; cbn; [lia|]. destruct (Z.eqb_spec (Locked o - 1) 0); [done|]. split; [done|lia].
    - destruct (Locked o - 1 =? 0); [by right|by left].
    - destruct (Z.eqb_spec k 1); cbn; lia.
    - unfold locked_by. cbn. destruct (Z.eqb_spec (Locked o - 1) 0), (Z.eqb_spec k 1); cbn; rewrite ?decide_False, ?decide_True by done; lia. }
  assert (owned (mkOwner (Locked o - 1) T) = 1 - (if Locked o - 1 =? 0 then 1 else 0)) as HoT.
  { rewrite HT. destruct (Locked o - 1 =? 0); [by apply ind_false; intros ?|by apply ind_true]. }
  destruct (set_slot_eq i (mkOwner (Locked o - 1) T) (lock s)) as (so & os & E & Hsl). unfold s'. rewrite E. clear s' E.
  split; [|split_and?; parts; rewrite ?Hsl, ?Hocc, ?HoT; lia].
  destruct (open_quiet s Hi He) as [_ Hn]. split; parts; rewrite ?Hsl; try done; try lia.
  intros u. destruct (decide (u = t)) as [->|Hu]; [|by rewrite change_other].
  rewrite change_same, Hm. cbn. by destruct (k =? 1).
Qed.

(** A thread without a slot holds the lock exclusively or not at all. *)
Lemma release_shared_step s t :
  inv s → passing s = None → t ∉ inside s → xowner s ≠ Some t → mine s t ≠ Nothing →
  (∃ s', exec (Release t) s = Ok s' ∧ inv s') ∨ exec (Release t) s = Crash ∧ lost s.
Proof.
  intros Hi Hp Ht Ho Hm. destruct (not_inside t s Ht) as (_ & _ & _ & Hw & _).
  pose proof (sh_locked _ _ _ (iv_shared _ Hi) t) as Hl. rewrite (ind_false (t ∈ waits_s s)), Z.add_0_r in Hl by done.
  unfold exec, ExReleaseRwLock. rewrite bool_decide_false by done.
  destruct (slot_of t (slots (lock s)) 0) as [i|] eqn:Hs.
  2: { right. split; [done|]. exists t. split; [done|]. apply slot_of_none in Hs. pose proof (sh_holds _ _ _ (iv_shared _ Hi) t) as Hh.
    destruct (mine s t); cbn in *; [done|done|lia]. }
  left. cbn [deref mbind outcome_bind]. apply slot_of_spec in Hs as (o & _ & Hs & Hot). rewrite Nat.sub_0_r in Hs. rewrite Hs.
  cbn [deref mbind outcome_bind]. destruct (slot_holds s t i o Hi Ht Hs Hot) as (Hlo & He & Hh & k & Hmk & Hk).
  destruct (slot_release_quiet s t i o _ Hi Ht Hs Hot eq_refl) as (Hq & Hocc & Hsw & Hxw & Hhc).
  destruct (iv_open _ Hi He) as [Hheld _].
  destruct (Z.eqb_spec (Locked o) 0) as [|_]; [lia|]. cbn [negb check mbind outcome_bind].
  destruct (Z.eqb_spec (Locked o - 1) 0) as [H1|H1]; cbn [negb].
  - apply (release_held_inv _ t false Hq); lia.
  - cbn. eexists; (split; [done|]). rewrite wake_nil, Hot. apply open_inv; [done|lia|].
    intros. rewrite Hsw, Hxw. apply (iv_idle _ Hi). lia.
Qed.

Lemma demote_step s t :
  inv s → passing s = None → t ∉ inside s → is_x (mine s t) = true →
  (∃ s', exec (Demote t) s = Ok s' ∧ inv s') ∨ exec (Demote t) s = Crash ∧ lost s.
Proof.
  intros Hi Hp Ht Hx. unfold exec, ExDemoteToSharedRwLock. case_bool_decide as Ho; [left|right; split; [done|by exists t]].
  destruct (shut_spec s t Hi Ht Hp Ho) as (He & Hg & Hs & Hl & Hm & Hh & Hpm & Hns & Hocc & Hone).
  destruct (not_inside t s Ht) as (_ & _ & _ & Hw & _).
  pose proof (iv_xcount _ Hi) as Hxc. pose proof (iv_scount _ Hi) as Hsc. rewrite Hs in Hxc. cbn in Hxc.
  cbn [check mbind outcome_bind]. destruct (ExFindOwnerRwLock None (lock s)) as [|i|] eqn:Hf.
  - by apply find_owner_exclusive in Hf as [[? ?] _].
  - apply find_owner_slot in Hf as (o & Hsi & Hfree). assert (OwnerThread o = None) as Hfree' by (by destruct Hfree). clear Hfree.
    set (n := Locked (ExclusiveOwner (lock s))) in *. cbn zeta. set (l := set_slot i (mkOwner n (Some t)) _).
    pose proof (total_insert owned _ i o (mkOwner n (Some t)) Hsi) as Hocc'. rewrite (owned_none o Hfree'), owned_some in Hocc'.
    assert (shared_ok (<[i := mkOwner n (Some t)]> (slots (lock s))) (waits_s s) (change demoted t (mine s))) as Hsh.
    { apply shared_take with o; try done; try apply Hi; rewrite Hm; cbn; done || lia. }
    set (s1 := set_mine (change demoted t (mine s)) (set_lock l s)).
    assert (quiet s1 ∧ occupied s1 = occupied s + 1 ∧ SharedWaiterCount (lock s1) = SharedWaiterCount (lock s) ∧ HeldCount (lock s1) = 1) as (Hq & Ho1 & Hsw & Hh1).
    { unfold s1, l. destruct (set_slot_eq i (mkOwner n (Some t)) (set_ExclusiveOwner no_owner (lock s))) as (so & os & -> & Hsl).
      split; [|split_and?; parts; rewrite ?Hsl; frames; lia].
      split; parts; rewrite ?Hsl; frames; try done; try lia.
      - apply Hi.
      - intros u. destruct (decide (u = t)) as [->|Hu]; [by rewrite change_same, Hm|]. rewrite change_other by done.
        destruct (is_x (mine s u)) eqn:E; [|done]. by apply Hone in E. }
    destruct (wake_shared (HeldCount l) l) as [woken l'] eqn:Hwk. cbn. eexists; (split; [done|]).
    apply (wake_shared_inv s1 (HeldCount l)); try done; change l with (lock s1); rewrite Hh1; lia.
  - eexists; (split; [done|]). rewrite set_lock_same. by apply (growing_cons_inv s).
Qed.

(** ** Every step *)

Lemma exec_step s o : inv s → enabled o s = true → (∃ s', exec o s = Ok s' ∧ inv s') ∨ exec o s = Crash ∧ lost s.
Proof.
  intros Hi He. destruct o as [t d|t d c|t|t|t|t|t|t|t|t|t]; cbn [enabled] in He;
    repeat match goal with
    | H : _ && _ = true |- _ => apply andb_true_iff in H as [? ?]
    | H : bool_decide _ = true |- _ => apply bool_decide_eq_true in H
    | H : negb _ = true |- _ => apply negb_true_iff in H
    | H : runs _ _ = true |- _ => apply runs_spec in H as [? _]
    end.
  - left. by apply acquire_exclusive_step.
  - left. by apply acquire_shared_step.
  - apply demote_step; [done..|]. by destruct (mine s t).
  - destruct (decide (xowner s = Some t)); [left; by apply release_exclusive_step|].
    apply release_shared_step; try done. by eapply bool_decide_eq_false_1.
  - left. by apply finish_release_step.
  - left. apply grow_step; [done|]. cbn. by rewrite !bool_decide_true.
  - left. by apply wait_exclusive_step.
  - left. by apply timeout_exclusive_step.
  - left. by apply store_owner_step.
  - left. by apply wait_shared_step.
  - left. by apply timeout_shared_step.
Qed.

Lemma reaches_inv b s : reaches b s → inv s.
Proof.
  induction 1 as [|b s o s' Hr IH He Hx]; [apply init_inv|].
  destruct (exec_step s o IH He) as [(s'' & E & Hi)|[E _]]; congruence.
Qed.

(** The lock knows the thread that holds it exclusively. *)
Definition named (s : sys) : Prop := passing s = None → ∀ t, is_x (mine s t) = true → xowner s = Some t.

Lemma named_same s s' :
  named s → passing s' = passing s → xowner s' = xowner s → (∀ t, is_x (mine s' t) = true → is_x (mine s t) = true) → named s'.
Proof. intros Hn Hp Ho Hm Hp' t Ht. rewrite Ho. apply Hn; [by rewrite <-Hp|]. by apply Hm. Qed.

Lemma named_owner s t : inv s → xowner s = Some t → is_x (mine s t) = true → named s.
Proof. intros Hi Ho Ht _ u Hu. rewrite Ho. f_equal. by apply (iv_one _ Hi). Qed.

Lemma named_open s : inv s → xlocked s = 0 → named s.
Proof.
  intros Hi Hl Hp t Ht. assert (excl s = false) as He by (unfold excl, handing; by rewrite Hl, Hp).
  destruct (iv_open _ Hi He) as (_ & _ & _ & Hm). by rewrite Hm in Ht.
Qed.

Lemma woken_same ts : ∀ m u, is_x (foldl (λ m t, change add_hold t m) m ts u) = is_x (m u).
Proof.
  induction ts as [|t ts IH]; intros m u; cbn; [done|]. rewrite IH.
  destruct (decide (u = t)) as [->|Hu]; [rewrite change_same|by rewrite change_other]. by destruct (m t).
Qed.

Lemma wake_shared_owner base l woken l' : wake_shared base l = (woken, l') → ExclusiveOwner l' = ExclusiveOwner l.
Proof. unfold wake_shared. case_match; [|cbn]; by intros [= <- <-]. Qed.

Lemma release_held_owner x l woken h l' :
  release_held x l = Ok (woken, h, l') → ExclusiveOwner l' = ExclusiveOwner l.
Proof.
  unfold release_held. destruct (check _); cbn; try done. case_match; [|by intros [= <- <- <-]].
  case_match.
  - destruct (set_event_and_get_waiter _). by intros [= <- <- <-].
  - destruct (wake_shared _ _) eqn:E. intros [= <- <- <-]. by apply wake_shared_owner in E.
Qed.

Lemma set_slot_owner i o l : ExclusiveOwner (set_slot i o l) = ExclusiveOwner l.
Proof. apply set_slot_frame. Qed.

Lemma change_x (f : holding → holding) t m u :
  (∀ h, is_x (f h) = true → is_x h = true) → is_x (change f t m u) = true → is_x (m u) = true.
Proof. intros Hf. destruct (decide (u = t)) as [->|Hu]; [rewrite change_same; apply Hf|by rewrite change_other]. Qed.

Lemma sub_hold_x h : is_x (sub_hold h) = true → is_x h = true.
Proof. destruct h as [|n|n]; cbn; [done|done|by destruct (n =? 1)]. Qed.

Lemma add_hold_x h : is_x (add_hold h) = true → is_x h = true.
Proof. by destruct h. Qed.

Lemma release_named s t s' :
  inv s' → named s → passing s = None → exec (Release t) s = Ok s' → named s'.
Proof.
  intros Hi' Hn Hp. unfold exec, ExReleaseRwLock. case_bool_decide as Ho.
  - destruct (check _); cbn; try done. case_match eqn:E1.
    + intros [= <-]. apply (named_same s); [done|done|by unfold xowner; cbn|]. intros u. rewrite wake_nil.
      apply change_x, sub_hold_x.
    + destruct (release_held _ _) as [[[woken h] l]| |] eqn:Hr; cbn; try done. apply release_held_owner in Hr. cbn in Hr.
      destruct h; [by destruct o; intros [= <-]|]. intros [= <-]. apply named_open; [done|].
      unfold xlocked. cbn. rewrite Hr. cbn. by apply negb_false_iff, Z.eqb_eq in E1.
  - destruct (deref (slot_of _ _ _)) as [i| |]; cbn; try done. destruct (deref _) as [o| |]; cbn; try done.
    destruct (check _); cbn; try done. case_match eqn:E1.
    + intros [= <-]. apply (named_same s); [done|done|by unfold xowner; cbn; rewrite set_slot_owner|]. intros u. rewrite wake_nil.
      apply change_x, sub_hold_x.
    + destruct (release_held _ _) as [[[woken h] l]| |] eqn:Hr; cbn; try done. apply release_held_owner in Hr.
      rewrite set_slot_owner in Hr. destruct h; [by destruct o0; intros [= <-]|]. intros [= <-].
      apply (named_same s); [done|done|by unfold xowner; cbn; rewrite Hr|]. intros u. cbn. rewrite woken_same.
      apply change_x, sub_hold_x.
Qed.

Lemma demote_named s t s' :
  inv s' → named s → passing s = None → exec (Demote t) s = Ok s' → named s'.
Proof.
  intros Hi' Hn Hp. unfold exec, ExDemoteToSharedRwLock. destruct (check _); cbn [mbind outcome_bind]; try done.
  destruct (ExFindOwnerRwLock None (lock s)) as [|i|]; cbn [mbind outcome_bind]; [done| |].
  - cbn zeta. destruct (wake_shared _ _) as [woken l] eqn:Hw. cbn. intros [= <-]. apply wake_shared_owner in Hw.
    rewrite set_slot_owner in Hw. cbn in Hw. apply named_open; [done|]. unfold xlocked. cbn. by rewrite Hw.
  - intros [= <-]. by apply (named_same s).
Qed.

Lemma finish_release_named s t s' :
  inv s → enabled (FinishRelease t) s = true → overtaken (FinishRelease t) s = false →
  exec (FinishRelease t) s = Ok s' → named s'.
Proof.
  intros Hi He Ho. cbn in *. destruct (passing s) as [[p w]|] eqn:Hp; [|done]. intros [= <-] _ u Hu. cbn in *.
  assert (handing s = true) as Hh by (unfold handing; by rewrite Hp).
  assert (excl s = true) as Hx by (unfold excl; rewrite Hh; apply orb_true_r).
  assert (tokens s = 0) as Ht.
  { destruct (iv_shut _ Hi Hx) as (_ & _ & [[? _]|(_ & H & _)]); [done|]. by rewrite H in Hu. }
  unfold tokens in Ht. destruct w as [w|].
  - unfold xowner. cbn. f_equal. destruct (iv_handed _ Hi p w Hp) as [Hw|Hw]; [|by apply (iv_one _ Hi)].
    destruct (has_token s w Hi Hw) as (_ & _ & _ & H & _). by rewrite H in Hu.
  - change (EventSignaled (ExclusiveSyncEvent (lock s))) with (signaled s) in Ho.
    destruct (signaled s); cbn in *; [lia|]. destruct (got_x s); [done|cbn in Ht; lia].
Qed.

Lemma acquire_shared_named s t d c s' :
  inv s → inv s' → named s → exec (AcquireShared t d c) s = Ok s' → named s'.
Proof.
  intros Hi Hi' Hn. unfold exec. destruct (ExAcquireSharedRwLock t d c (lock s)) as [[r l]| |] eqn:Hr; cbn; try done.
  assert (OwnerThread (ExclusiveOwner l) = OwnerThread (ExclusiveOwner (lock s))) as Ho.
  { unfold ExAcquireSharedRwLock in Hr. destruct (HeldCount (lock s) =? 0); [by simplify_eq|].
    destruct (negb _); [case_bool_decide as Hb; [by simplify_eq|]; destruct (ExFindOwnerRwLock _ _); simplify_eq; cbn; by rewrite ?set_slot_owner|].
    destruct (ExFindOwnerRwLock _ _) as [|i|] eqn:Hf; [|destruct (deref _) as [o| |]; cbn in Hr; try done|by simplify_eq].
    - apply find_owner_exclusive in Hf as [_ Hf]. by simplify_eq.
    - repeat case_match; simplify_eq; cbn; by rewrite ?set_slot_owner. }
  destruct r; intros [= <-]; apply (named_same s); try done. intros u. apply change_x, add_hold_x.
Qed.

Lemma exec_named s o s' :
  inv s → inv s' → named s → enabled o s = true → overtaken o s = false → exec o s = Ok s' → named s'.
Proof.
  intros Hi Hi' Hn He Hov Hx. destruct o as [t d|t d c|t|t|t|t|t|t|t|t|t]; cbn [enabled] in He;
    repeat match goal with
    | H : _ && _ = true |- _ => apply andb_true_iff in H as [? ?]
    | H : bool_decide _ = true |- _ => apply bool_decide_eq_true in H
    end.
  - cbn in Hx. unfold ExAcquireExclusiveRwLock in Hx. repeat case_match; simplify_eq; try by apply (named_same s).
    all: apply (named_owner _ t); [done|done|cbn; rewrite change_same; by destruct (mine s t)].
  - by apply (acquire_shared_named s t d c).
  - by apply (demote_named s t).
  - by apply (release_named s t).
  - by apply (finish_release_named s t).
  - cbn in Hx. case_match; [|done]. destruct p. simplify_eq. apply (named_same s); try done. unfold xowner, grow_table. cbn. by case_match.
  - cbn in Hx. case_match; simplify_eq; by apply (named_same s).
  - cbn in Hx. simplify_eq. by apply (named_same s).
  - cbn in Hx. simplify_eq. apply (named_owner _ t); [done|done|cbn; by rewrite change_same].
  - cbn in Hx. case_match; simplify_eq; apply (named_same s); try done. intros u. apply change_x, add_hold_x.
  - cbn in Hx. simplify_eq. by apply (named_same s).
Qed.

Lemma reaches_named s : reaches false s → named s.
Proof.
  remember false as b eqn:Eb. induction 1 as [|b s o s' Hr IH He Hx]; [by intros _ t|].
  apply orb_false_iff in Eb as [-> Ho].
  pose proof (reaches_inv _ _ Hr) as Hi. apply (exec_named s o s'); try done; [|by apply IH].
  eapply reaches_inv. by eapply reaches_step.
Qed.

(** Runs of given steps, for the examples. *)
Fixpoint run_steps (os : list step) (b : bool) (s : sys) : option (bool * sys) :=
  match os with
  | [] => Some (b, s)
  | o :: os =>
      if enabled o s then
        match exec o s with Ok s' => run_steps os (b || overtaken o s) s' | _ => None end
      else None
  end.

Lemma run_steps_reaches os : ∀ b s b' s', reaches b s → run_steps os b s = Some (b', s') → reaches b' s'.
Proof.
  induction os as [|o os IH]; intros b s b' s' Hr; cbn; [by intros [= <- <-]|].
  destruct (enabled o s) eqn:He; [|done]. destruct (exec o s) as [s1| |] eqn:Hx; try done.
  apply IH. by eapply reaches_step.
Qed.

(** Every slot belongs to a thread of [W]. *)
Lemma owned_covered os W :
  Forall slot_ok os → Forall (λ o, ∀ t, OwnerThread o = Some t → t ∈ W) os →
  total owned os ≤ foldr (λ t a, total (locked_by t) os + a) 0 W.
Proof.
  induction 1 as [|o os [Hp Hf] Hos IH]; intros Hc; cbn.
  { clear. induction W; cbn; lia. }
  apply Forall_cons in Hc as [Hc Hcs]. specialize (IH Hcs).
  assert (foldr (λ t a, locked_by t o + total (locked_by t) os + a) 0 W =
          foldr (λ t a, locked_by t o + a) 0 W + foldr (λ t a, total (locked_by t) os + a) 0 W) as ->
    by (clear; induction W as [|t W IH]; cbn; lia).
  assert (∀ W, 0 ≤ foldr (λ t a, locked_by t o + a) 0 W) as Hnn.
  { clear -Hp. intros W. induction W as [|t W IH]; cbn; [lia|]. unfold locked_by at 1. case_decide; lia. }
  assert (owned o ≤ foldr (λ t a, locked_by t o + a) 0 W); [|lia].
  destruct (OwnerThread o) as [t|] eqn:E; [|rewrite owned_none by done; apply Hnn].
  replace (owned o) with 1 by (symmetry; apply ind_true; by rewrite E).
  assert (0 < Locked o) by (assert (Locked o ≠ 0) by (intros H; by apply Hf in H); lia).
  specialize (Hc t eq_refl). apply list_elem_of_split in Hc as (a & c & ->). rewrite foldr_app. cbn.
  unfold locked_by at 2. rewrite decide_True by done.
  assert (∀ a d, foldr (λ t a, locked_by t o + a) d a = foldr (λ t a, locked_by t o + a) 0 a + d) as ->
    by (clear; intros a d; induction a as [|x a IH]; cbn; lia).
  pose proof (Hnn a). pose proof (Hnn c). lia.
Qed.

(** More slots are owned than threads wait: someone holds the lock. *)
Lemma someone_holds os W m :
  shared_ok os W m → NoDup W → Z.of_nat (length W) < total owned os → ∃ t, m t ≠ Nothing.
Proof.
  intros [Hs Hh Hl Ho] Hnd Hlt.
  destruct (decide (Exists (λ t, m t ≠ Nothing) W)) as [He|He]; [apply Exists_exists in He as (t & _ & Ht); by exists t|].
  apply not_Exists_Forall in He; [|apply _]. rewrite Forall_forall in He.
  assert (∀ o, Decision (match OwnerThread o with Some t => t ∈ W | None => True end)) as Hdec
    by (intros o; destruct (OwnerThread o); apply _).
  destruct (decide (Forall (λ o, match OwnerThread o with Some t => t ∈ W | None => True end) os)) as [Hc|Hc].
  - assert (total owned os ≤ foldr (λ t a, total (locked_by t) os + a) 0 W) as Hle.
    { apply owned_covered; [done|]. eapply Forall_impl; [exact Hc|]. intros o Hw t E. cbn in Hw. by rewrite E in Hw. }
    assert (foldr (λ t a, total (locked_by t) os + a) 0 W ≤ Z.of_nat (length W)); [|lia].
    assert (∀ ts, (∀ t, t ∈ ts → t ∈ W) → foldr (λ t a, total (locked_by t) os + a) 0 ts = Z.of_nat (length ts)) as Hall; [|rewrite Hall; [lia|auto]].
    induction ts as [|t ts IH]; intros Hts; cbn; [done|]. rewrite IH by (intros u Hu; apply Hts; by right).
    rewrite Hl, ind_true by (apply Hts; left). specialize (He t (Hts t ltac:(left))).
    apply dec_stable in He. rewrite He. cbn. lia.
  - apply not_Forall_Exists in Hc; [|done]. apply Exists_exists in Hc as (o & Hin & Hc). cbn in Hc.
    destruct (OwnerThread o) as [t|] eqn:E; [|done]. exists t. intros Hm.
    specialize (Hl t). rewrite Hm, (ind_false (t ∈ W)) in Hl by done. cbn in Hl.
    apply list_elem_of_lookup in Hin as [i Hin]. rewrite Forall_forall in Hs.
    destruct (Hs o) as [Hp Hf]; [by apply list_elem_of_lookup_2 in Hin|].
    assert (locked_by t o ≤ total (locked_by t) os) as Hge.
    { apply total_ge with i; [|done]. intros x Hx. destruct (Hs x Hx). unfold locked_by. case_decide; lia. }
    unfold locked_by in Hge at 1. rewrite decide_True in Hge by done.
    assert (Locked o = 0) as Hz by lia. apply Hf in Hz. congruence.
Qed.

(** Nobody waits for a lock that is not held. *)
Lemma idle_empty s : inv s → HeldCount (lock s) = 0 →
  got_x s = [] ∧ wants_x s = [] ∧ sleeps_x s = [] ∧ waits_s s = [] ∧ ∀ t, mine s t = Nothing.
Proof.
  intros Hi Hh. assert (excl s = false) as He by (destruct (excl s) eqn:E; [destruct (iv_shut _ Hi E); lia|done]).
  destruct (no_shared s Hi) as (Hp & Hn & _); [by right|]. destruct (iv_idle _ Hi Hh) as [H1 H2].
  destruct (open_quiet s Hi He) as [_ _ Hx Hs _ _ _ _ Hg _ Hm]. split; [done|].
  destruct (wants_x s), (sleeps_x s), (waits_s s); cbn in *; try lia. split_and?; try done. intros t.
  specialize (Hm t). specialize (Hn t). by destruct (mine s t) as [|k|k]; [| |destruct (Hn k)].
Qed.

(** C5: The lock is held by one thread exclusively or by any number of threads
    shared, in every state that threads can bring it to by any interleaving of
    their critical sections, waits and stores; it counts as free only when
    nobody holds it or waits for it; and no assertion fails as long as no late
    store of a releasing thread overwrites the name of the new owner. *)
Theorem rwlock_safe b s :
  reaches b s →
  (∀ t n, mine s t = HoldX n → 0 < n ∧ HeldCount (lock s) = 1 ∧ ∀ u, u ≠ t → mine s u = Nothing) ∧
  (∀ t n, mine s t = HoldS n → 0 < n ∧ 0 < HeldCount (lock s)) ∧
  (HeldCount (lock s) = 0 → ∀ t, mine s t = Nothing ∧ t ∉ wants_x s ++ sleeps_x s ++ got_x s ++ waits_s s) ∧
  (b = false → ∀ o, enabled o s = true → ∃ s', exec o s = Ok s').
Proof.
  intros Hr. pose proof (reaches_inv _ _ Hr) as Hi. pose proof (λ t, sh_holds _ _ _ (iv_shared _ Hi) t) as Hpos.
  assert (∀ t n, mine s t = HoldX n → excl s = true) as Hex.
  { intros t n Ht. destruct (excl s) eqn:E; [done|]. destruct (iv_open _ Hi E) as (_ & _ & _ & H). specialize (H t). by rewrite Ht in H. }
  split_and?.
  - intros t n Ht. pose proof (Hex t n Ht) as He. split; [specialize (Hpos t); by rewrite Ht in Hpos|].
    split; [by apply (iv_shut _ Hi)|]. intros u Hu. destruct (mine s u) as [|k|k] eqn:Eu; [done| |].
    + destruct Hu. apply (iv_one _ Hi); [by rewrite Eu|by rewrite Ht].
    + destruct (no_shared s Hi) as (_ & H & _); [by left|]. by destruct (H u k).
  - intros t n Ht. split; [specialize (Hpos t); by rewrite Ht in Hpos|].
    destruct (slots_enough _ _ _ (iv_shared _ Hi) (nodup_waits_s _ Hi)) as [_ H2]. specialize (H2 t n Ht).
    destruct (excl s) eqn:E; [destruct (iv_shut _ Hi E); lia|]. destruct (iv_open _ Hi E) as [Hh _]. unfold occupied in Hh.
    pose proof (iv_scount _ Hi). pose proof (iv_pos _ Hi). lia.
  - intros Hh t. destruct (idle_empty s Hi Hh) as (-> & -> & -> & -> & Hm). split; [done|]. by apply not_elem_of_nil.
  - intros -> o He. destruct (exec_step s o Hi He) as [(s' & E & _)|[_ (t & Hp & Hx & Ho)]]; [by exists s'|].
    by destruct Ho; apply (reaches_named s Hr).
Qed.

(** Two readers leave, and a writer that waits takes the lock. *)
Definition example_steps : list step :=
  [AcquireShared 0 false false; AcquireShared 1 false false; Grow 1; AcquireShared 1 false false;
   AcquireExclusive 2 false; WaitExclusive 2; Release 0; Release 1; StoreOwner 2; FinishRelease 1].

Lemma rwlock_safe_witness : ∃ s, reaches false s ∧ mine s 2%nat = HoldX 1 ∧ mine s 1%nat = Nothing.
Proof.
  destruct (run_steps example_steps false init) as [[b s]|] eqn:E; [|by vm_compute in E].
  assert (b = false ∧ mine s 2%nat = HoldX 1) as [-> Hm].
  { vm_compute in E. injection E as <- <-. by vm_compute. }
  pose proof (run_steps_reaches _ _ _ _ _ reaches_init E) as Hr.
  exists s. split; [done|]. split; [done|].
  exact (proj2 (proj2 (proj1 (rwlock_safe false s Hr) 2%nat 1 Hm)) 1%nat ltac:(lia)).
Defined.

(** C6: No thread sleeps for the lock without reason: some thread holds it, which
    may be the sleeper itself, that waits for a lock it holds, or a thread has
    just been given it, or is about to wait and will get it at once. *)
Theorem rwlock_no_lost_wakeup b s t :
  reaches b s → t ∈ sleeps_x s ++ sleeps_s s →
  (∃ u, mine s u ≠ Nothing) ∨ got_x s ≠ [] ∨ signaled s = true ∧ wants_x s ≠ [] ∨ 0 < permits s ∧ wants_s s ≠ [].
Proof.
  intros Hr Ht. pose proof (reaches_inv _ _ Hr) as Hi.
  destruct (decide (HeldCount (lock s) = 0)) as [Hh|Hh].
  { destruct (idle_empty s Hi Hh) as (_ & _ & E1 & E2 & _). unfold waits_s in E2. apply app_eq_nil in E2 as [_ E2].
    rewrite E1, E2 in Ht. by apply not_elem_of_nil in Ht. }
  pose proof (iv_xcount _ Hi) as Hxc. pose proof (iv_scount _ Hi) as Hsc. pose proof (iv_pos _ Hi) as Hp.
  destruct (excl s) eqn:He.
  - destruct (iv_shut _ Hi He) as (_ & _ & [[_ [u Hu]]|(Hk & _)]); [left; exists u; by destruct (mine s u)|].
    right. unfold tokens in Hk. destruct (signaled s) eqn:Hs; [|left; destruct (got_x s); done].
    right; left. split; [done|]. rewrite (iv_sig _ Hi Hs) in Hxc. intros E. rewrite E in Hxc. cbn in Hxc. lia.
  - destruct (iv_open _ Hi He) as (Hheld & _). destruct (decide (0 < permits s)) as [Hpm|Hpm].
    + do 3 right. split; [done|]. intros E. unfold waits_s in Hsc. rewrite E, (iv_cnt _ Hi Hpm) in Hsc. cbn in Hsc. lia.
    + left. assert (0 ≤ occupied s - SharedWaiterCount (lock s)).
      { destruct (slots_enough _ _ _ (iv_shared _ Hi) (nodup_waits_s _ Hi)) as [? _]. unfold occupied. lia. }
      eapply someone_holds; [apply Hi|by apply nodup_waits_s|]. unfold occupied in *. lia.
Qed.

(** A reader sleeps behind the writer that waits for another. *)
Definition sleeping_steps : list step :=
  [AcquireShared 0 false false; AcquireExclusive 2 false; WaitExclusive 2; AcquireShared 1 false false; Grow 1;
   AcquireShared 1 false false; WaitShared 1].

Lemma rwlock_no_lost_wakeup_witness : ∃ s, reaches false s ∧ 1%nat ∈ sleeps_x s ++ sleeps_s s ∧
  ((∃ u, mine s u ≠ Nothing) ∨ got_x s ≠ [] ∨ signaled s = true ∧ wants_x s ≠ [] ∨ 0 < permits s ∧ wants_s s ≠ []).
Proof.
  destruct (run_steps sleeping_steps false init) as [[b s]|] eqn:E; [|by vm_compute in E].
  assert (b = false ∧ 1%nat ∈ sleeps_x s ++ sleeps_s s) as [-> Hm].
  { vm_compute in E. injection E as <- <-. split; [done|]. vm_compute. right. left. }
  pose proof (run_steps_reaches _ _ _ _ _ reaches_init E) as Hr.
  exists s. split; [done|]. split; [done|]. exact (rwlock_no_lost_wakeup false s 1 Hr Hm).
Defined.

(** A thread that took the event before the releasing thread has stored the
    owner holds the lock exclusively, but the late store takes its name away:
    when it releases the lock, it is no longer known to hold it. *)
Theorem rwlock_owner_lost b s p :
  reaches b s → enabled (FinishRelease p) s = true → overtaken (FinishRelease p) s = true →
  ∃ t s', exec (FinishRelease p) s = Ok s' ∧ mine s' t = HoldX 1 ∧
    (runs t s' = true → ExReleaseRwLock t (lock s') = Crash).
Proof.
  intros Hr He Ho. pose proof (reaches_inv _ _ Hr) as Hi.
  destruct (finish_release_step s p Hi He) as (s' & Hx & Hi'). cbn in He, Ho, Hx.
  destruct (passing s) as [[q [w|]]|] eqn:Hp; try done. apply andb_true_iff in Ho as [Hs%negb_true_iff Hg%bool_decide_eq_true].
  assert (handing s = true) as Hh by (unfold handing; by rewrite Hp).
  assert (excl s = true) as He' by (unfold excl; rewrite Hh; apply orb_true_r).
  destruct (iv_shut _ Hi He') as (_ & _ & [[_ [t Ht]]|(Hk & _)]).
  2: { unfold tokens, signaled in Hk. rewrite Hg, Hs in Hk. done. }
  apply is_x_true in Ht as [n Ht]. destruct (iv_x _ Hi t n Ht) as [Hn _]. rewrite Hh in Hn. subst n.
  exists t, s'. split; [by cbn; rewrite Hp|]. injection Hx as <-. split; [done|].
  intros [Hrun _]%runs_spec. destruct (not_inside _ _ Hrun) as (_ & _ & _ & Hw & _).
  unfold ExReleaseRwLock. rewrite bool_decide_false by done.
  pose proof (sh_locked _ _ _ (iv_shared _ Hi') t) as Hl. cbn in Hl. rewrite Ht, (ind_false (t ∈ _)) in Hl by done. cbn in Hl.
  destruct (slot_of _ _ _) as [i|] eqn:Hso; [|done]. apply slot_of_spec in Hso as (o & _ & Hso & Hot). rewrite Nat.sub_0_r in Hso.
  destruct (slot_holds _ t i o Hi' Hrun Hso Hot) as (_ & _ & _ & k & Hk & _). cbn in Hk. congruence.
Qed.

(** The waiter runs into the event while the owner releases. *)
Definition late_steps : list step :=
  [AcquireExclusive 0 false; AcquireExclusive 1 false; Release 0; WaitExclusive 1; StoreOwner 1].

Lemma rwlock_owner_lost_witness : ∃ s t s', reaches false s ∧ exec (FinishRelease 0) s = Ok s' ∧ mine s' t = HoldX 1 ∧
  (runs t s' = true → ExReleaseRwLock t (lock s') = Crash).
Proof.
  destruct (run_steps late_steps false init) as [[b s]|] eqn:E; [|by vm_compute in E].
  assert (b = false ∧ enabled (FinishRelease 0) s = true ∧ overtaken (FinishRelease 0) s = true) as (-> & He & Ho).
  { vm_compute in E. injection E as <- <-. by vm_compute. }
  pose proof (run_steps_reaches _ _ _ _ _ reaches_init E) as Hr.
  destruct (rwlock_owner_lost false s 0 Hr He Ho) as (t & s' & H). by exists s, t, s'.
Defined.
