(* ===== verification/Pipe.v ===== *)
(** The pipes of [boron/source/io/pipe.c]: a ring buffer, and a machine of any
    number of readers and writers whose steps are the sections of the code
    between two waits, all of which hold the mutex of the pipe.

    The buffer of a caller is a list of bytes, which is what [Mdl] proves a
    pinned buffer to be.  The event of a direction is pulsed: who waits for it
    when it is pulsed goes on to wait for the mutex. *)
From S2P Require Import Prelude.
Local Open Scope Z_scope.

(** ** The pipe *)

(** [PIPE] : boron/source/io/pipe.c:34-45.
    The mutex and the events are part of the machine. *)
Record PIPE := mkPipe {
  ReferenceCount : Z;
  Head : Z;
  Tail : Z;
  BufferSize : Z;
  EndReadNow : bool;
  Buffer : list Z }.

Definition set_ReferenceCount (v : Z) (p : PIPE) : PIPE :=
  mkPipe v (Head p) (Tail p) (BufferSize p) (EndReadNow p) (Buffer p).
Definition set_Head (v : Z) (p : PIPE) : PIPE :=
  mkPipe (ReferenceCount p) v (Tail p) (BufferSize p) (EndReadNow p) (Buffer p).
Definition set_Tail (v : Z) (p : PIPE) : PIPE :=
  mkPipe (ReferenceCount p) (Head p) v (BufferSize p) (EndReadNow p) (Buffer p).
Definition set_EndReadNow (v : bool) (p : PIPE) : PIPE :=
  mkPipe (ReferenceCount p) (Head p) (Tail p) (BufferSize p) v (Buffer p).
Definition set_Buffer (v : list Z) (p : PIPE) : PIPE :=
  mkPipe (ReferenceCount p) (Head p) (Tail p) (BufferSize p) (EndReadNow p) v.

(** [IO_RW_NONBLOCK] : common/include/ios.h:121-144.
    The flags that the pipe looks at. *)
Record rw_flags := mkRwFlags {
  IO_RW_NONBLOCK : bool;
  IO_RW_NONBLOCK_UNLESS_EMPTY : bool;
  IO_RW_FINISH_ON_NEWLINE : bool;
  IO_RW_TERMINATE_READ : bool }.

Definition DEFAULT_PIPE_SIZE : Z := 1024.
Definition MAX_PIPE_SIZE : Z := 32768.

(** [IopInitializePipe] : boron/source/io/pipe.c:48-57.
    Of the memory [Pipe], [EndReadNow] and the buffer are left as they are. *)
Definition IopInitializePipe (Pipe : PIPE) (BufferSize : Z) : PIPE :=
  mkPipe 1 0 0 BufferSize (EndReadNow Pipe) (Buffer Pipe).

(** [IopReferencePipe] : boron/source/io/pipe.c:337-342. *)
Definition IopReferencePipe (Pipe : PIPE) : PIPE := set_ReferenceCount (u64 (ReferenceCount Pipe + 1)) Pipe.

(** [IopDereferencePipe] : boron/source/io/pipe.c:344-353.
    [None] when the pipe is freed. *)
Definition IopDereferencePipe (Pipe : PIPE) : option PIPE :=
  let Pipe := set_ReferenceCount (u64 (ReferenceCount Pipe - 1)) Pipe in
  if ReferenceCount Pipe =? 0 then None else Some Pipe.

(** [OSCreatePipe] : boron/source/io/pipe.c:417-421.
    The size that the pipe gets. *)
Definition pipe_size (BufferSize : Z) : BSTATUS + Z :=
  let BufferSize := if BufferSize =? 0 then DEFAULT_PIPE_SIZE else BufferSize in
  if (BufferSize <? 64) || (MAX_PIPE_SIZE <? BufferSize) then inl STATUS_INVALID_PARAMETER else inr BufferSize.

(** [IoCreatePipeObject] : boron/source/io/pipe.c:364-389.
    [Fcb] is the memory of a new FCB, where there is some, [Created] what
    [IoCreateFileObject] returns; it references the pipe when it succeeds. *)
Definition IoCreatePipeObject (Fcb : option PIPE) (Created : BSTATUS) (named : bool) (BufferSize : Z) : BSTATUS * option PIPE :=
  if named then (STATUS_UNIMPLEMENTED, None)
  else
    match Fcb with
    | None => (STATUS_INSUFFICIENT_MEMORY, None)
    | Some Pipe =>
        let Pipe := IopInitializePipe Pipe BufferSize in
        if FAILED Created then (Created, None)
        else (Created, Some (IopReferencePipe Pipe))
    end.

(** What a section ends with: the loop goes on, the thread waits for the event
    of its direction, or the routine ends. *)
Variant round :=
  | Again
  | Sleeps
  | Ends (Status : BSTATUS).

(** ** Reading *)

(** A read: the caller's buffer and the variables of [IopReadPipe]. *)
Record read_op := mkRead {
  RFlags : rw_flags;
  RByteCount : Z;
  RBytesRead : Z;
  RBuffer : list Z;
  RIosb : Z * BSTATUS }.

(** [n] bytes of the ring buffer from [off] on. *)
Definition buffer_at (p : PIPE) (off n : Z) : outcome (list Z) :=
  _ ← check ((0 <=? off) && (0 <=? n) && (off + n <=? Z.of_nat (length (Buffer p))));
  Ok (take (Z.to_nat n) (drop (Z.to_nat off) (Buffer p))).

(** [MmCopyIntoMdl], within the bounds of the buffer. *)
Definition copy_into_caller (off : Z) (bs : list Z) (b : list Z) : outcome (list Z) :=
  _ ← check ((0 <=? off) && (off + Z.of_nat (length bs) <=? Z.of_nat (length b)));
  Ok (list_inserts (Z.to_nat off) bs b).

(** [IopReadPipe] : boron/source/io/pipe.c:128-136.
    The data that the pipe has. *)
Definition AvailableData (p : PIPE) : Z :=
  if Tail p <=? Head p then Head p - Tail p else u64 (Head p + BufferSize p - Tail p).

(** [IopReadPipe] : boron/source/io/pipe.c:152-165.
    The scan for the end of a line, with [ReadSize] and [ByteCount]. *)
Fixpoint scan_newline (fuel : nat) (p : PIPE) (BytesRead i j ReadSize ByteCount : Z) : outcome (Z * Z) :=
  if negb (i <? ReadSize) then Ok (ReadSize, ByteCount)
  else
    match fuel with
    | O => OutOfFuel
    | S fuel =>
        let j := if BufferSize p <=? j then 0 else j in
        Chr ← deref (Buffer p !! Z.to_nat j);
        if negb (Chr =? 10) && negb (Chr =? 13) then scan_newline fuel p BytesRead (i + 1) (j + 1) ReadSize ByteCount
        else scan_newline fuel p BytesRead (i + 1) (j + 1) (i + 1) (BytesRead + (i + 1))
    end.

(** [IopReadPipe] : boron/source/io/pipe.c:168-190.
    The copy out of the ring, in one piece or two. *)
Definition read_copy (p : PIPE) (BytesRead ReadSize : Z) (b : list Z) : outcome (list Z * Z) :=
  let TailAfterRead := Tail p + ReadSize in
  let TailAfterRead := if BufferSize p <=? TailAfterRead then TailAfterRead - BufferSize p else TailAfterRead in
  if Tail p <=? TailAfterRead then
    bs ← buffer_at p (Tail p) ReadSize;
    b ← copy_into_caller BytesRead bs b;
    Ok (b, TailAfterRead)
  else
    let TailSize := BufferSize p - Tail p in
    _ ← check (TailSize <=? ReadSize);
    _ ← check (TailSize <=? AvailableData p);
    let HeadSize := ReadSize - TailSize in
    b ← (if TailSize =? 0 then Ok b
         else bs ← buffer_at p (Tail p) TailSize; copy_into_caller BytesRead bs b);
    b ← (if HeadSize =? 0 then Ok b
         else bs ← buffer_at p 0 HeadSize; copy_into_caller (BytesRead + TailSize) bs b);
    Ok (b, TailAfterRead).

(** [IopReadPipe] : boron/source/io/pipe.c:81-198.
    One round of the loop; [true] when [QueueFullEvent] is pulsed. *)
Definition read_round (p : PIPE) (r : read_op) : outcome (round * PIPE * read_op * bool) :=
  if Head p =? Tail p then
    if ReferenceCount p =? 1 then Ok (Ends STATUS_END_OF_FILE, p, r, false)
    else if IO_RW_NONBLOCK (RFlags r) || (IO_RW_NONBLOCK_UNLESS_EMPTY (RFlags r) && negb (RBytesRead r =? 0))
    then Ok (Ends STATUS_BLOCKING_OPERATION, p, r, false)
    else if EndReadNow p then Ok (Ends STATUS_END_OF_FILE, set_EndReadNow false p, r, false)
    else Ok (Sleeps, p, r, false)
  else
    let ReadSize := RByteCount r - RBytesRead r in
    let ReadSize := if AvailableData p <? ReadSize then AvailableData p else ReadSize in
    '(ReadSize, ByteCount) ←
      (if IO_RW_FINISH_ON_NEWLINE (RFlags r)
       then scan_newline (Z.to_nat ReadSize) p (RBytesRead r) 0 (Tail p) ReadSize (RByteCount r)
       else Ok (ReadSize, RByteCount r));
    '(b, TailAfterRead) ← read_copy p (RBytesRead r) ReadSize (RBuffer r);
    Ok (Again, set_Tail TailAfterRead p, mkRead (RFlags r) ByteCount (RBytesRead r + ReadSize) b (RIosb r), true).

(** [IopReadPipe] : boron/source/io/pipe.c:79-200.
    The loop, until the thread waits or the routine ends. *)
Fixpoint read_loop (fuel : nat) (p : PIPE) (r : read_op) (pulsed : bool) : outcome (round * PIPE * read_op * bool) :=
  if negb (RBytesRead r <? RByteCount r) then Ok (Ends STATUS_SUCCESS, p, r, pulsed)
  else
    match fuel with
    | O => OutOfFuel
    | S fuel =>
        '(o, p, r, b) ← read_round p r;
        match o with
        | Again => read_loop fuel p r (pulsed || b)
        | o => Ok (o, p, r, pulsed || b)
        end
    end.

(** [IopReadPipe] : boron/source/io/pipe.c:66-72.
    A read that begins. *)
Definition start_read (Flags : rw_flags) (MdlBuffer : list Z) : read_op :=
  mkRead Flags (Z.of_nat (length MdlBuffer)) 0 MdlBuffer (0, STATUS_SUCCESS).

(** [IopReadPipe] : boron/source/io/pipe.c:205-207. *)
Definition finish_read (Status : BSTATUS) (r : read_op) : read_op :=
  mkRead (RFlags r) (RByteCount r) (RBytesRead r) (RBuffer r) (RBytesRead r, Status).

(** [IopReadPipe] : boron/source/io/pipe.c:60-212.
    A section: from the mutex to the next wait or to the end. *)
Definition IopReadPipe (p : PIPE) (r : read_op) : outcome (round * PIPE * read_op * bool) :=
  '(o, p, r, pulsed) ← read_loop (S (Z.to_nat (RByteCount r - RBytesRead r))) p r false;
  match o with
  | Ends Status => Ok (o, p, finish_read Status r, pulsed)
  | o => Ok (o, p, r, pulsed)
  end.

(** ** Writing *)

(** A write: the caller's buffer and the variables of [IopWritePipe]. *)
Record write_op := mkWrite {
  WFlags : rw_flags;
  WByteCount : Z;
  WBytesWritten : Z;
  WBuffer : list Z;
  WIosb : Z * BSTATUS }.

Definition set_WIosb (v : Z * BSTATUS) (w : write_op) : write_op :=
  mkWrite (WFlags w) (WByteCount w) (WBytesWritten w) (WBuffer w) v.

(** [MmCopyFromMdl] into the ring at [dst], within the bounds of both. *)
Definition copy_into_ring (w : write_op) (off dst n : Z) (ring : list Z) : outcome (list Z) :=
  _ ← check ((0 <=? off) && (0 <=? n) && (off + n <=? Z.of_nat (length (WBuffer w))));
  _ ← check ((0 <=? dst) && (dst + n <=? Z.of_nat (length ring)));
  Ok (list_inserts (Z.to_nat dst) (take (Z.to_nat n) (drop (Z.to_nat off) (WBuffer w))) ring).

(** [IopWritePipe] : boron/source/io/pipe.c:238-242.
    The room that the pipe has. *)
Definition FreeSpace (p : PIPE) : Z :=
  if Tail p <=? Head p then u64 (BufferSize p - 1 - (Head p - Tail p)) else Tail p - Head p - 1.

(** [IopWritePipe] : boron/source/io/pipe.c:283-305.
    The copy into the ring, in one piece or two. *)
Definition write_copy (p : PIPE) (w : write_op) (WriteSize : Z) : outcome (list Z * Z) :=
  let HeadAfterWrite := Head p + WriteSize in
  let HeadAfterWrite := if BufferSize p <=? HeadAfterWrite then HeadAfterWrite mod BufferSize p else HeadAfterWrite in
  if Head p <=? HeadAfterWrite then
    ring ← copy_into_ring w (WBytesWritten w) (Head p) WriteSize (Buffer p);
    Ok (ring, HeadAfterWrite)
  else
    let HeadSize := BufferSize p - Head p in
    _ ← check (HeadSize <=? WriteSize);
    _ ← check (HeadSize <=? FreeSpace p);
    let TailSize := WriteSize - HeadSize in
    ring ← (if HeadSize =? 0 then Ok (Buffer p) else copy_into_ring w (WBytesWritten w) (Head p) HeadSize (Buffer p));
    ring ← (if TailSize =? 0 then Ok ring else copy_into_ring w (WBytesWritten w + HeadSize) 0 TailSize ring);
    Ok (ring, HeadAfterWrite).

(** [IopWritePipe] : boron/source/io/pipe.c:236-315.
    One round of the loop; [true] when [QueueEmptyEvent] is pulsed. *)
Definition write_round (p : PIPE) (w : write_op) : outcome (round * PIPE * write_op * bool) :=
  let w := set_WIosb (WBytesWritten w, (WIosb w).2) w in
  if FreeSpace p =? 0 then
    if ReferenceCount p =? 1 then Ok (Ends STATUS_END_OF_FILE, p, w, false)
    else if IO_RW_NONBLOCK (WFlags w) then Ok (Ends STATUS_BLOCKING_OPERATION, p, w, false)
    else Ok (Sleeps, p, w, false)
  else
    let WriteSize := WByteCount w - WBytesWritten w in
    let WriteSize := if FreeSpace p <? WriteSize then FreeSpace p else WriteSize in
    '(ring, HeadAfterWrite) ← write_copy p w WriteSize;
    let p := set_Head HeadAfterWrite (set_Buffer ring p) in
    _ ← check (negb (Tail p =? Head p));
    Ok (Again, p, mkWrite (WFlags w) (WByteCount w) (WBytesWritten w + WriteSize) (WBuffer w) (WIosb w), true).

(** [IopWritePipe] : boron/source/io/pipe.c:234-325.
    The loop, until the thread waits or the routine ends. *)
Fixpoint write_loop (fuel : nat) (p : PIPE) (w : write_op) (pulsed : bool) : outcome (round * PIPE * write_op * bool) :=
  if negb (WBytesWritten w <? WByteCount w) then
    if IO_RW_TERMINATE_READ (WFlags w) then Ok (Ends STATUS_SUCCESS, set_EndReadNow true p, w, true)
    else Ok (Ends STATUS_SUCCESS, p, w, pulsed)
  else
    match fuel with
    | O => OutOfFuel
    | S fuel =>
        '(o, p, w, b) ← write_round p w;
        match o with
        | Again => write_loop fuel p w (pulsed || b)
        | o => Ok (o, p, w, pulsed || b)
        end
    end.

(** [IopWritePipe] : boron/source/io/pipe.c:221-227.
    A write that begins. *)
Definition start_write (Flags : rw_flags) (MdlBuffer : list Z) : write_op :=
  mkWrite Flags (Z.of_nat (length MdlBuffer)) 0 MdlBuffer (0, STATUS_SUCCESS).

(** [IopWritePipe] : boron/source/io/pipe.c:329-330. *)
Definition finish_write (Status : BSTATUS) (w : write_op) : write_op := set_WIosb ((WIosb w).1, Status) w.

(** [IopWritePipe] : boron/source/io/pipe.c:215-335.
    A section: from the mutex to the next wait or to the end. *)
Definition IopWritePipe (p : PIPE) (w : write_op) : outcome (round * PIPE * write_op * bool) :=
  '(o, p, w, pulsed) ← write_loop (S (Z.to_nat (WByteCount w - WBytesWritten w))) p w false;
  match o with
  | Ends Status => Ok (o, p, finish_write Status w, pulsed)
  | o => Ok (o, p, w, pulsed)
  end.

(** ** The machine *)

(** A thread inside of the routines waits for the mutex, or for the event of
    its direction. *)
Variant phase := Ready | Asleep | Done.

Variant thread :=
  | Reader (r : read_op) (ph : phase)
  | Writer (w : write_op) (ph : phase).

(** [Accepted] are the bytes that writers put into the pipe, [Delivered] those
    that readers took out of it, in order. *)
Record sys := mkSys { Pipe : PIPE; Threads : list thread; Accepted : list Z; Delivered : list Z }.

Definition phase_of (o : round) : phase :=
  match o with Again => Ready | Sleeps => Asleep | Ends _ => Done end.

(** [KePulseEvent] of [QueueEmptyEvent] and of [QueueFullEvent]. *)
Definition wake_reader (t : thread) : thread := match t with Reader r Asleep => Reader r Ready | t => t end.
Definition wake_writer (t : thread) : thread := match t with Writer w Asleep => Writer w Ready | t => t end.

(** A wait for the mutex or the event fails, say because the thread is killed. *)
Definition interrupted (Status : BSTATUS) (t : thread) : thread :=
  match t with
  | Reader r (Ready | Asleep) => Reader (finish_read Status r) Done
  | Writer w (Ready | Asleep) => Writer (finish_write Status w) Done
  | t => t
  end.

Variant action :=
  | StartRead (Flags : rw_flags) (MdlBuffer : list Z)
  | StartWrite (Flags : rw_flags) (MdlBuffer : list Z)
  | Run (i : nat)
  | Interrupt (i : nat) (Status : BSTATUS)
  | Reference
  | Dereference.

(** One step; the last reference is not dropped while the machine runs. *)
Definition act (a : action) (s : sys) : outcome sys :=
  match a with
  | StartRead f b => Ok (mkSys (Pipe s) (Threads s ++ [Reader (start_read f b) Ready]) (Accepted s) (Delivered s))
  | StartWrite f b => Ok (mkSys (Pipe s) (Threads s ++ [Writer (start_write f b) Ready]) (Accepted s) (Delivered s))
  | Run i =>
      match Threads s !! i with
      | Some (Reader r Ready) =>
          '(o, p, r', pulsed) ← IopReadPipe (Pipe s) r;
          let ts : list thread := <[i := Reader r' (phase_of o)]> (Threads s) in
          let got := take (Z.to_nat (RBytesRead r' - RBytesRead r)) (drop (Z.to_nat (RBytesRead r)) (RBuffer r')) in
          Ok (mkSys p (if (pulsed : bool) then wake_writer <$> ts else ts) (Accepted s) (Delivered s ++ got))
      | Some (Writer w Ready) =>
          '(o, p, w', pulsed) ← IopWritePipe (Pipe s) w;
          let ts : list thread := <[i := Writer w' (phase_of o)]> (Threads s) in
          let put := take (Z.to_nat (WBytesWritten w' - WBytesWritten w)) (drop (Z.to_nat (WBytesWritten w)) (WBuffer w)) in
          Ok (mkSys p (if (pulsed : bool) then wake_reader <$> ts else ts) (Accepted s ++ put) (Delivered s))
      | _ => Ok s
      end
  | Interrupt i Status => Ok (mkSys (Pipe s) (alter (interrupted Status) i (Threads s)) (Accepted s) (Delivered s))
  | Reference => Ok (mkSys (IopReferencePipe (Pipe s)) (Threads s) (Accepted s) (Delivered s))
  | Dereference =>
      match IopDereferencePipe (Pipe s) with
      | None => Ok s
      | Some p => Ok (mkSys p (Threads s) (Accepted s) (Delivered s))
      end
  end.

Fixpoint acts (l : list action) (s : sys) : outcome sys :=
  match l with [] => Ok s | a :: l => s ← act a s; acts l s end.

(** ** The ring *)

Record pipe_ok (p : PIPE) : Prop := {
  po_size : 2 ≤ BufferSize p < 2 ^ 63;
  po_head : 0 ≤ Head p < BufferSize p;
  po_tail : 0 ≤ Tail p < BufferSize p;
  po_buffer : Z.of_nat (length (Buffer p)) = BufferSize p;
}.

(** A place of the ring, and the places from the tail on. *)
Definition byte_at (b : list Z) (q : Z) : Z := default 0 (b !! Z.to_nat q).
Definition place (size q : Z) : Z := if size <=? q then q - size else q.

(** The data in the pipe, oldest first. *)
Definition contents (p : PIPE) : list Z :=
  zmap (λ i, byte_at (Buffer p) (place (BufferSize p) (Tail p + i))) (AvailableData p).

Lemma available_spec p : pipe_ok p →
  0 ≤ AvailableData p < BufferSize p ∧ FreeSpace p = BufferSize p - 1 - AvailableData p ∧
  (Head p = Tail p + AvailableData p ∨ Head p = Tail p + AvailableData p - BufferSize p ∧ Head p < Tail p).
Proof.
  intros [Hs Hh Ht _]. unfold AvailableData, FreeSpace.
  destruct (Z.leb_spec (Tail p) (Head p)); [|rewrite wrap_small by lia; lia].
  rewrite wrap_small by lia. lia.
Qed.

Lemma length_contents p : pipe_ok p → Z.of_nat (length (contents p)) = AvailableData p.
Proof. intros Hp. unfold contents. rewrite length_zmap. destruct (available_spec p Hp). lia. Qed.

Lemma contents_nil p : pipe_ok p → contents p = [] ↔ Head p = Tail p.
Proof.
  intros Hp. destruct (available_spec p Hp) as (Ha & _ & Hh). destruct Hp as [_ Hh' Ht' _]. unfold AvailableData in *.
  unfold contents. split.
  - intros Hc%(f_equal length). rewrite length_zmap in Hc. cbn in Hc. unfold AvailableData in Hc.
    destruct (Tail p <=? Head p); lia.
  - intros He. unfold AvailableData in *. rewrite He, Z.leb_refl, Z.sub_diag. done.
Qed.

Lemma buffer_at_spec p off n : pipe_ok p → 0 ≤ off → 0 ≤ n → off + n ≤ BufferSize p →
  buffer_at p off n = Ok (zmap (λ i, byte_at (Buffer p) (off + i)) n).
Proof.
  intros [_ _ _ Hb] Ho Hn Hl. unfold buffer_at.
  rewrite !(proj2 (Z.leb_le _ _)) by lia. cbn. f_equal. apply zmap_eq; [rewrite length_take, length_drop; lia|].
  intros i Hi. rewrite lookup_take_lt, lookup_drop by lia. unfold byte_at.
  destruct (lookup_lt_is_Some_2 (Buffer p) (Z.to_nat (off + Z.of_nat i))) as [x Hx]; [lia|]. rewrite Hx. cbn.
  replace (Z.to_nat off + i)%nat with (Z.to_nat (off + Z.of_nat i)) by lia. done.
Qed.

Lemma copy_into_caller_spec off bs b : 0 ≤ off → off + Z.of_nat (length bs) ≤ Z.of_nat (length b) →
  copy_into_caller off bs b = Ok (list_inserts (Z.to_nat off) bs b).
Proof. intros Ho Hl. unfold copy_into_caller. by rewrite !(proj2 (Z.leb_le _ _)) by lia. Qed.

(** What is read is the oldest data, and it leaves the pipe. *)
Lemma read_copy_spec p off n b :
  pipe_ok p → 0 < n ≤ AvailableData p → 0 ≤ off → off + n ≤ Z.of_nat (length b) →
  ∃ T, read_copy p off n b = Ok (list_inserts (Z.to_nat off) (take (Z.to_nat n) (contents p)) b, T) ∧
    pipe_ok (set_Tail T p) ∧ contents (set_Tail T p) = drop (Z.to_nat n) (contents p) ∧
    AvailableData (set_Tail T p) = AvailableData p - n.
Proof.
  intros Hp Hn Ho Hl. pose proof (available_spec p Hp) as (Ha & _ & Hh). pose proof Hp as [Hs Hh' Ht Hb].
  set (T := place (BufferSize p) (Tail p + n)).
  assert (0 ≤ T < BufferSize p) as HT by (unfold T, place; destruct (Z.leb_spec (BufferSize p) (Tail p + n)); lia).
  assert (pipe_ok (set_Tail T p)) as Hp' by (by split).
  assert (AvailableData (set_Tail T p) = AvailableData p - n) as HA.
  { pose proof (available_spec _ Hp') as (Ha' & _ & Hh''). cbn in Ha', Hh''.
    unfold T, place in *. destruct (Z.leb_spec (BufferSize p) (Tail p + n)); lia. }
  exists T. split; [|split; [done|split; [|done]]].
  - assert (take (Z.to_nat n) (contents p) = zmap (λ i, byte_at (Buffer p) (place (BufferSize p) (Tail p + i))) n) as ->
      by (apply zmap_take; lia).
    unfold read_copy. fold (place (BufferSize p) (Tail p + n)). fold T.
    destruct (Z.leb_spec (Tail p) T) as [HTT|HTT].
    + assert (Tail p + n ≤ BufferSize p) as Hfit by (unfold T, place in HTT; destruct (Z.leb_spec (BufferSize p) (Tail p + n)); lia).
      rewrite buffer_at_spec by (done || lia). cbn [mbind outcome_bind].
      rewrite copy_into_caller_spec by (rewrite ?length_zmap; lia). cbn [mbind outcome_bind]. do 3 f_equal.
      apply zmap_ext. intros i Hi. unfold place. by rewrite (proj2 (Z.leb_gt _ _)) by lia.
    + assert (BufferSize p ≤ Tail p + n) as Hover by (unfold T, place in HTT; destruct (Z.leb_spec (BufferSize p) (Tail p + n)); lia).
      set (ts := BufferSize p - Tail p). rewrite !(proj2 (Z.leb_le _ _)) by lia. cbn [check mbind outcome_bind].
      rewrite (proj2 (Z.eqb_neq ts 0)) by lia. rewrite (buffer_at_spec p (Tail p) ts) by (done || lia). cbn [mbind outcome_bind].
      rewrite copy_into_caller_spec by (rewrite ?length_zmap; lia). cbn [mbind outcome_bind].
      assert (zmap (λ i, byte_at (Buffer p) (place (BufferSize p) (Tail p + i))) n =
        zmap (λ i, byte_at (Buffer p) (Tail p + i)) ts ++ zmap (λ i, byte_at (Buffer p) (0 + i)) (n - ts)) as ->.
      { replace n with (ts + (n - ts)) at 1 by lia. rewrite <-zmap_app by lia. f_equal; apply zmap_ext; intros i Hi; unfold place.
        - by rewrite (proj2 (Z.leb_gt _ _)) by lia.
        - rewrite (proj2 (Z.leb_le _ _)) by lia. f_equal. lia. }
      rewrite list_inserts_app_l, length_zmap. destruct (Z.eqb_spec (n - ts) 0) as [->|Hne].
      { done. }
      rewrite buffer_at_spec by (done || lia). cbn [mbind outcome_bind].
      rewrite copy_into_caller_spec by (rewrite ?length_inserts, ?length_zmap; lia). cbn [mbind outcome_bind].
      do 3 f_equal. lia.
  - unfold contents. rewrite HA. cbn. rewrite zmap_drop by lia. apply zmap_ext. intros i Hi. f_equal.
    unfold T, place. destruct (Z.leb_spec (BufferSize p) (Tail p + n)); repeat case_match; bool_hyps; lia.
Qed.

(** ** What a read does *)

Definition newline (Chr : Z) : bool := (Chr =? 10) || (Chr =? 13).

Lemma scan_newline_spec p BytesRead ByteCount ReadSize : pipe_ok p → ReadSize ≤ AvailableData p → ∀ fuel i j,
  0 ≤ i ≤ ReadSize → (i < ReadSize → (if BufferSize p <=? j then 0 else j) = place (BufferSize p) (Tail p + i)) →
  ReadSize - i ≤ Z.of_nat fuel →
  scan_newline fuel p BytesRead i j ReadSize ByteCount =
    Ok match find_index newline (zmap (λ k, byte_at (Buffer p) (place (BufferSize p) (Tail p + (i + k)))) (ReadSize - i)) with
       | Some k => (i + Z.of_nat k + 1, BytesRead + (i + Z.of_nat k + 1))
       | None => (ReadSize, ByteCount)
       end.
Proof.
  intros Hp Hr. pose proof (available_spec p Hp) as (Ha & _ & _). pose proof Hp as [Hs _ Ht Hb].
  induction fuel as [|fuel IH]; intros i j Hi Hj Hf; cbn [scan_newline].
  { rewrite (proj2 (Z.ltb_ge _ _)) by lia. cbn [negb]. by replace (ReadSize - i) with 0 by lia. }
  destruct (Z.ltb_spec i ReadSize) as [Hlt|Hge]; cbn [negb]; [|by replace (ReadSize - i) with 0 by lia].
  rewrite Hj by done. set (q := place (BufferSize p) (Tail p + i)).
  assert (0 ≤ q < BufferSize p) as Hq by (unfold q, place; destruct (Z.leb_spec (BufferSize p) (Tail p + i)); lia).
  rewrite zmap_cons by lia. cbn [find_index]. rewrite Z.add_0_r. fold q.
  destruct (lookup_lt_is_Some_2 (Buffer p) (Z.to_nat q)) as [c Hc]; [lia|]. rewrite Hc. cbn [deref mbind outcome_bind].
  assert (byte_at (Buffer p) q = c) as -> by (unfold byte_at; by rewrite Hc).
  rewrite <-negb_orb. fold (newline c). destruct (newline c) eqn:Hn; cbn [negb].
  - assert (scan_newline fuel p BytesRead (i + 1) (q + 1) (i + 1) (BytesRead + (i + 1)) = Ok (i + 1, BytesRead + (i + 1))) as ->
      by (destruct fuel; cbn; by rewrite Z.ltb_irrefl).
    f_equal. f_equal; lia.
  - rewrite IH; [|lia| |lia].
    2: { intros _. unfold q, place in *. repeat case_match; bool_hyps; lia. }
    f_equal. replace (ReadSize - i - 1) with (ReadSize - (i + 1)) by lia.
    rewrite (zmap_ext (λ k, byte_at (Buffer p) (place (BufferSize p) (Tail p + (i + (1 + k)))))
      (λ k, byte_at (Buffer p) (place (BufferSize p) (Tail p + (i + 1 + k)))) (ReadSize - (i + 1)))
      by (intros k Hk; do 2 f_equal; lia).
    destruct (find_index newline _) as [k|]; cbn; [f_equal; lia|done].
Qed.

(** A read between two sections. *)
Record read_ok (r : read_op) : Prop := {
  ro_read : 0 ≤ RBytesRead r ≤ RByteCount r;
  ro_count : RByteCount r ≤ Z.of_nat (length (RBuffer r));
}.

(** How many bytes a section reads, and whether the last is the end of a line. *)
Definition read_size (p : PIPE) (r : read_op) : Z * bool :=
  let n := Z.min (RByteCount r - RBytesRead r) (AvailableData p) in
  if IO_RW_FINISH_ON_NEWLINE (RFlags r) then
    match find_index newline (take (Z.to_nat n) (contents p)) with
    | Some k => (Z.of_nat k + 1, true)
    | None => (n, false)
    end
  else (n, false).

(** How a read goes on when there is no data, and [EndReadNow] after it. *)
Definition read_empty (p : PIPE) (f : rw_flags) (BytesRead : Z) : round * bool :=
  if ReferenceCount p =? 1 then (Ends STATUS_END_OF_FILE, EndReadNow p)
  else if IO_RW_NONBLOCK f || (IO_RW_NONBLOCK_UNLESS_EMPTY f && negb (BytesRead =? 0))
  then (Ends STATUS_BLOCKING_OPERATION, EndReadNow p)
  else if EndReadNow p then (Ends STATUS_END_OF_FILE, false)
  else (Sleeps, false).

(** How a section of a read ends. *)
Definition read_end (p : PIPE) (r : read_op) : round * bool :=
  let '(n, line) := read_size p r in
  if line || (n =? RByteCount r - RBytesRead r) then (Ends STATUS_SUCCESS, EndReadNow p)
  else read_empty p (RFlags r) (RBytesRead r + n).

Lemma read_size_range p r n line : pipe_ok p → read_ok r → read_size p r = (n, line) →
  0 ≤ n ≤ Z.min (RByteCount r - RBytesRead r) (AvailableData p) ∧
  (line = false → n = Z.min (RByteCount r - RBytesRead r) (AvailableData p)) ∧ (line = true → 0 < n).
Proof.
  intros Hp [Hr _]. pose proof (available_spec p Hp) as (Ha & _ & _). pose proof (length_contents p Hp) as Hc. unfold read_size.
  case_match; [|intros [= <- <-]; split_and!; [lia..|done]].
  destruct (find_index _ _) as [k|] eqn:E; intros [= <- <-]; [|split_and!; [lia..|done]].
  apply find_index_Some in E as (x & Hx & _ & _). apply lookup_lt_Some in Hx. rewrite length_take in Hx. split_and!; [lia..|done|lia].
Qed.

Lemma read_round_empty p r : Head p = Tail p →
  read_round p r = let '(o, e) := read_empty p (RFlags r) (RBytesRead r) in
    Ok (o, set_EndReadNow e p, r, false).
Proof.
  intros He. unfold read_round, read_empty. rewrite He, Z.eqb_refl.
  destruct p as [rc h t bs e b]. cbn in *. subst. repeat case_match; done.
Qed.

Lemma read_round_data p r n line : pipe_ok p → read_ok r → Head p ≠ Tail p → RBytesRead r < RByteCount r →
  read_size p r = (n, line) →
  0 < n ∧
  ∃ T, read_round p r = Ok (Again, set_Tail T p,
      mkRead (RFlags r) (if line then RBytesRead r + n else RByteCount r) (RBytesRead r + n)
        (list_inserts (Z.to_nat (RBytesRead r)) (take (Z.to_nat n) (contents p)) (RBuffer r)) (RIosb r), true) ∧
    pipe_ok (set_Tail T p) ∧ contents (set_Tail T p) = drop (Z.to_nat n) (contents p) ∧
    AvailableData (set_Tail T p) = AvailableData p - n.
Proof.
  intros Hp Hr Hne Hlt Hsz. destruct (read_size_range _ _ _ _ Hp Hr Hsz) as (Hn & Hl & Hl').
  pose proof (available_spec p Hp) as (Ha & _ & Hh). destruct Hr as [Hr1 Hr2].
  pose proof (po_head p Hp). pose proof (po_tail p Hp).
  assert (0 < n) as Hpos by (destruct line; [by apply Hl'|rewrite Hl by done; lia]). split; [done|].
  destruct (read_copy_spec p (RBytesRead r) n (RBuffer r) Hp) as (T & HT & Hrest); [lia..|].
  exists T. split; [|done]. unfold read_round. rewrite (proj2 (Z.eqb_neq _ _) Hne).
  set (m := RByteCount r - RBytesRead r) in *.
  assert ((if AvailableData p <? m then AvailableData p else m) = Z.min m (AvailableData p)) as -> by
    (destruct (Z.ltb_spec (AvailableData p) m); lia).
  assert ((if IO_RW_FINISH_ON_NEWLINE (RFlags r)
       then scan_newline (Z.to_nat (Z.min m (AvailableData p))) p (RBytesRead r) 0 (Tail p) (Z.min m (AvailableData p)) (RByteCount r)
       else Ok (Z.min m (AvailableData p), RByteCount r)) = Ok (n, if line then RBytesRead r + n else RByteCount r)) as ->.
  { unfold read_size in Hsz. fold m in Hsz. destruct (IO_RW_FINISH_ON_NEWLINE (RFlags r)); [|by injection Hsz as <- <-].
    rewrite scan_newline_spec; [|done|lia|lia| |lia].
    2: { intros _. rewrite Z.add_0_r. unfold place. destruct Hp. by rewrite !(proj2 (Z.leb_gt _ _)) by lia. }
    rewrite Z.sub_0_r. unfold contents in Hsz. rewrite zmap_take in Hsz by lia.
    rewrite (zmap_ext (λ k, byte_at (Buffer p) (place (BufferSize p) (Tail p + (0 + k))))
      (λ i, byte_at (Buffer p) (place (BufferSize p) (Tail p + i)))) by (intros i Hi; do 2 f_equal; lia).
    destruct (find_index newline _) as [k|]; injection Hsz as <- <-; [|done]. by f_equal. }
  cbn [mbind outcome_bind]. by rewrite HT.
Qed.

Lemma read_loop_done fuel p r b : RByteCount r ≤ RBytesRead r → read_loop fuel p r b = Ok (Ends STATUS_SUCCESS, p, r, b).
Proof. intros Hr. destruct fuel; cbn [read_loop]; by rewrite (proj2 (Z.ltb_ge _ _) Hr). Qed.

Lemma read_loop_empty fuel p r b : RBytesRead r < RByteCount r → Head p = Tail p →
  read_loop (S fuel) p r b = let '(o, e) := read_empty p (RFlags r) (RBytesRead r) in Ok (o, set_EndReadNow e p, r, b).
Proof.
  intros Hr He. cbn [read_loop]. rewrite (proj2 (Z.ltb_lt _ _) Hr), read_round_empty by done. cbn [negb].
  unfold read_empty. repeat case_match; cbn [mbind outcome_bind] in *; simplify_eq; by rewrite orb_false_r.
Qed.

Lemma read_loop_data fuel p r b n line : pipe_ok p → read_ok r → Head p ≠ Tail p → RBytesRead r < RByteCount r →
  read_size p r = (n, line) →
  ∃ T, read_loop (S fuel) p r b = read_loop fuel (set_Tail T p)
      (mkRead (RFlags r) (if line then RBytesRead r + n else RByteCount r) (RBytesRead r + n)
        (list_inserts (Z.to_nat (RBytesRead r)) (take (Z.to_nat n) (contents p)) (RBuffer r)) (RIosb r)) true ∧
    pipe_ok (set_Tail T p) ∧ contents (set_Tail T p) = drop (Z.to_nat n) (contents p) ∧
    AvailableData (set_Tail T p) = AvailableData p - n.
Proof.
  intros Hp Hr Hne Hlt Hsz. destruct (read_round_data _ _ _ _ Hp Hr Hne Hlt Hsz) as (_ & T & HT & Hrest).
  exists T. split; [|done]. cbn [read_loop]. rewrite (proj2 (Z.ltb_lt _ _) Hlt), HT. cbn. by rewrite orb_true_r.
Qed.

(** The loop with enough fuel. *)
Lemma read_loop_spec p r : pipe_ok p → read_ok r →
  let '(n, line) := read_size p r in
  let '(o, e) := read_end p r in
  ∃ p' T ByteCount, read_loop (S (Z.to_nat (RByteCount r - RBytesRead r))) p r false =
      Ok (o, p', mkRead (RFlags r) ByteCount (RBytesRead r + n)
        (list_inserts (Z.to_nat (RBytesRead r)) (take (Z.to_nat n) (contents p)) (RBuffer r)) (RIosb r), 0 <? n) ∧
    p' = set_EndReadNow e (set_Tail T p) ∧ pipe_ok p' ∧ contents p' = drop (Z.to_nat n) (contents p) ∧
    RBytesRead r + n ≤ ByteCount ≤ RByteCount r.
Proof.
  intros Hp Hr. destruct (read_size p r) as [n line] eqn:Hsz.
  destruct (read_size_range _ _ _ _ Hp Hr Hsz) as (Hn & Hl & Hl').
  pose proof (available_spec p Hp) as (Ha & _ & Hh). pose proof (po_head p Hp). pose proof (po_tail p Hp).
  assert (∀ e, pipe_ok (set_EndReadNow e p)) as Hpe by (intros e; by destruct Hp).
  assert (p = set_EndReadNow (EndReadNow p) (set_Tail (Tail p) p)) as Hid by (by destruct p).
  assert (∀ e, set_EndReadNow e p = set_EndReadNow e (set_Tail (Tail p) p)) as Hid' by (by destruct p).
  destruct r as [f bc br buf io]. destruct Hr as [Hr1 Hr2]. cbn [RFlags RByteCount RBytesRead RBuffer RIosb] in *.
  unfold read_end. rewrite Hsz. cbn [RFlags RByteCount RBytesRead RBuffer RIosb].
  destruct (decide (n = 0)) as [->|Hn0].
  - assert (line = false) as -> by (destruct line; [by pose proof (Hl' eq_refl)|done]). specialize (Hl eq_refl).
    rewrite firstn_O, Z.add_0_r. cbn [list_inserts orb].
    destruct (Z.eqb_spec 0 (bc - br)) as [Hz|Hz].
    + rewrite read_loop_done by (cbn; lia). exists p, (Tail p), bc. split_and!; [done|done|done|done|lia..].
    + rewrite read_loop_empty by (cbn; lia). cbn [RFlags RByteCount RBytesRead RBuffer RIosb]. destruct (read_empty p f br) as [o e]. eexists _, (Tail p), bc.
      split_and!; [done|by rewrite Hid'|done|done|lia..].
  - assert (Head p ≠ Tail p ∧ br < bc ∧ 0 < n) as (Hne & Hlt & Hpos).
    { unfold AvailableData in *. destruct (Z.leb_spec (Tail p) (Head p)); lia. }
    destruct (read_loop_data (Z.to_nat (bc - br)) p _ false n line Hp (Build_read_ok (mkRead f bc br buf io) Hr1 Hr2) Hne Hlt Hsz)
      as (T & -> & HpT & HcT & HaT). cbn [RFlags RByteCount RBytesRead RBuffer RIosb]. rewrite (proj2 (Z.ltb_lt 0 n)) by lia.
    assert (∀ e, pipe_ok (set_EndReadNow e (set_Tail T p))) as HpeT by (intros e; by destruct HpT).
    destruct (line || (n =? bc - br)) eqn:E.
    + rewrite read_loop_done by (cbn; destruct line; [done|]; cbn in E; bool_hyps; lia).
      eexists _, T, _. split_and!; [done|by destruct p|done|done|..]; destruct line; lia.
    + apply orb_false_iff in E as [-> E%Z.eqb_neq]. specialize (Hl eq_refl).
      destruct (Z.to_nat (bc - br)) as [|k] eqn:Ek; [lia|].
      rewrite read_loop_empty; [|cbn; lia|].
      * cbn [RFlags RByteCount RBytesRead RBuffer RIosb]. replace (read_empty (set_Tail T p) f (br + n)) with (read_empty p f (br + n)) by done.
        destruct (read_empty p f (br + n)) as [o e]. eexists _, T, bc. split_and!; [done|done|done|done|lia..].
      * apply contents_nil; [done|]. apply length_zero_iff_nil. pose proof (length_contents _ HpT). lia.
Qed.

(** A section of a read; [IopReadPipe_correct] says it in words. *)
Lemma read_section p r : pipe_ok p → read_ok r →
  let '(n, line) := read_size p r in
  let '(o, e) := read_end p r in
  ∃ p' r', IopReadPipe p r = Ok (o, p', r', 0 <? n) ∧
    pipe_ok p' ∧ contents p' = drop (Z.to_nat n) (contents p) ∧
    EndReadNow p' = e ∧ ReferenceCount p' = ReferenceCount p ∧ BufferSize p' = BufferSize p ∧
    read_ok r' ∧ RBytesRead r' = RBytesRead r + n ∧ RFlags r' = RFlags r ∧
    RBuffer r' = list_inserts (Z.to_nat (RBytesRead r)) (take (Z.to_nat n) (contents p)) (RBuffer r) ∧
    (∀ Status, o = Ends Status → RIosb r' = (RBytesRead r', Status)).
Proof.
  intros Hp Hr. pose proof (read_loop_spec p r Hp Hr) as Hspec. destruct (read_size p r) as [n line] eqn:Hsz.
  destruct (read_size_range _ _ _ _ Hp Hr Hsz) as (Hn & _ & _).
  destruct (read_end p r) as [o e]. destruct Hspec as (p' & T & bc & Hloop & -> & Hp' & Hc' & Hbc).
  destruct Hr as [Hr1 Hr2]. unfold IopReadPipe. rewrite Hloop. cbn [mbind outcome_bind].
  assert (read_ok (mkRead (RFlags r) bc (RBytesRead r + n) (list_inserts (Z.to_nat (RBytesRead r)) (take (Z.to_nat n) (contents p)) (RBuffer r)) (RIosb r)))
    as Hr' by (split; cbn; [lia|rewrite length_inserts; lia]).
  assert (∀ st, read_ok (finish_read st (mkRead (RFlags r) bc (RBytesRead r + n) (list_inserts (Z.to_nat (RBytesRead r)) (take (Z.to_nat n) (contents p)) (RBuffer r)) (RIosb r))))
    as Hr'' by (intros st; destruct Hr'; by split).
  destruct o as [| |st]; eexists _, _; (split; [done|]); split_and!; try done; by intros st' [= <-].
Qed.

(** ** What a write does *)

(** The bytes that a write still has to put into the pipe, from [off] on. *)
Definition piece (w : write_op) (off n : Z) : list Z := take (Z.to_nat n) (drop (Z.to_nat off) (WBuffer w)).

Lemma piece_zmap w off n : 0 ≤ off → 0 ≤ n → off + n ≤ Z.of_nat (length (WBuffer w)) →
  piece w off n = zmap (λ i, byte_at (WBuffer w) (off + i)) n.
Proof.
  intros Ho Hn Hl. unfold piece. apply zmap_eq; [rewrite length_take, length_drop; lia|].
  intros i Hi. rewrite lookup_take_lt, lookup_drop by lia. unfold byte_at.
  destruct (lookup_lt_is_Some_2 (WBuffer w) (Z.to_nat (off + Z.of_nat i))) as [x Hx]; [lia|]. rewrite Hx. cbn.
  by replace (Z.to_nat off + i)%nat with (Z.to_nat (off + Z.of_nat i)) by lia.
Qed.

Lemma length_piece w off n : 0 ≤ off → 0 ≤ n → off + n ≤ Z.of_nat (length (WBuffer w)) → Z.of_nat (length (piece w off n)) = n.
Proof. intros. rewrite piece_zmap, length_zmap by done. lia. Qed.

(** One copy into the ring. *)
Lemma copy_into_ring_spec w off dst n ring :
  0 ≤ off → 0 ≤ n → off + n ≤ Z.of_nat (length (WBuffer w)) → 0 ≤ dst → dst + n ≤ Z.of_nat (length ring) →
  ∃ ring', copy_into_ring w off dst n ring = Ok ring' ∧ length ring' = length ring ∧
    ∀ q, 0 ≤ q → byte_at ring' q = if decide (dst ≤ q < dst + n) then byte_at (WBuffer w) (off + (q - dst)) else byte_at ring q.
Proof.
  intros Ho Hn Hl Hd Hr. unfold copy_into_ring. rewrite !(proj2 (Z.leb_le _ _)) by lia. cbn.
  fold (piece w off n). eexists. split; [done|]. split; [apply length_inserts|]. intros q Hq.
  unfold byte_at at 1. pose proof (length_piece w off n Ho Hn Hl) as Hp. rewrite inserts_lookup by lia. rewrite piece_zmap in * by done.
  destruct (decide (dst ≤ q < dst + n)) as [Hin|Hin].
  - rewrite decide_True by lia. rewrite zmap_lookup by lia. cbn. f_equal. lia.
  - by rewrite decide_False by lia.
Qed.

Lemma write_copy_spec p w n :
  pipe_ok p → 0 < n ≤ FreeSpace p → 0 ≤ WBytesWritten w → WBytesWritten w + n ≤ Z.of_nat (length (WBuffer w)) →
  ∃ ring H, write_copy p w n = Ok (ring, H) ∧
    let p' := set_Head H (set_Buffer ring p) in
    pipe_ok p' ∧ contents p' = contents p ++ piece w (WBytesWritten w) n ∧
    AvailableData p' = AvailableData p + n ∧ Tail p ≠ H.
Proof.
  intros Hp Hn Ho Hl. pose proof (available_spec p Hp) as (Ha & Hf & Hh). pose proof Hp as [Hs Hh' Ht Hb].
  rewrite Hf in Hn. set (H := place (BufferSize p) (Head p + n)). set (off := WBytesWritten w) in *.
  assert (0 ≤ H < BufferSize p) as HH by (unfold H, place; destruct (Z.leb_spec (BufferSize p) (Head p + n)); lia).
  assert (∃ ring, write_copy p w n = Ok (ring, H) ∧ length ring = length (Buffer p) ∧
    ∀ k, 0 ≤ k < BufferSize p → byte_at ring (place (BufferSize p) (Head p + k)) =
      if decide (k < n) then byte_at (WBuffer w) (off + k) else byte_at (Buffer p) (place (BufferSize p) (Head p + k)))
    as (ring & Hw & Hlr & Hring).
  { unfold write_copy. fold off.
    assert ((if BufferSize p <=? Head p + n then (Head p + n) mod BufferSize p else Head p + n) = H) as ->.
    { unfold H, place. destruct (Z.leb_spec (BufferSize p) (Head p + n)); [|done].
      symmetry. apply Z.mod_unique with 1; lia. }
    destruct (Z.leb_spec (Head p) H) as [HHH|HHH].
    - assert (Head p + n < BufferSize p) as Hfit by (unfold H, place in HHH; destruct (Z.leb_spec (BufferSize p) (Head p + n)); lia).
      destruct (copy_into_ring_spec w off (Head p) n (Buffer p)) as (ring & -> & Hlr & Hring); [lia..|]. cbn.
      exists ring. split; [done|]. split; [done|]. intros k Hk. unfold place.
      destruct (Z.leb_spec (BufferSize p) (Head p + k)); rewrite Hring by lia.
      + by rewrite !decide_False by lia.
      + destruct (decide (k < n)); [rewrite decide_True by lia; f_equal; lia|by rewrite decide_False by lia].
    - assert (BufferSize p ≤ Head p + n) as Hover by (unfold H, place in HHH; destruct (Z.leb_spec (BufferSize p) (Head p + n)); lia).
      rewrite Hf, !(proj2 (Z.leb_le _ _)) by lia. cbn [check mbind outcome_bind]. set (hs := BufferSize p - Head p).
      rewrite (proj2 (Z.eqb_neq hs 0)) by lia.
      destruct (copy_into_ring_spec w off (Head p) hs (Buffer p)) as (ring1 & -> & Hl1 & Hr1); [lia..|]. cbn [mbind outcome_bind].
      assert (∃ ring, (if n - hs =? 0 then Ok ring1 else copy_into_ring w (off + hs) 0 (n - hs) ring1) = Ok ring ∧ length ring = length ring1 ∧
        ∀ q, 0 ≤ q → byte_at ring q = if decide (q < n - hs) then byte_at (WBuffer w) (off + hs + q) else byte_at ring1 q)
        as (ring & -> & Hl2 & Hr2).
      { destruct (Z.eqb_spec (n - hs) 0) as [Hz|Hz].
        - exists ring1. split; [done|]. split; [done|]. intros q Hq. by rewrite decide_False by lia.
        - destruct (copy_into_ring_spec w (off + hs) 0 (n - hs) ring1) as (ring & -> & Hl2 & Hr2); [lia..|].
          exists ring. split; [done|]. split; [done|]. intros q Hq. rewrite Hr2 by done.
          destruct (decide (q < n - hs)); [rewrite decide_True by lia; f_equal; lia|by rewrite decide_False by lia]. }
      cbn. exists ring. split; [done|]. split; [congruence|]. intros k Hk. unfold place.
      destruct (Z.leb_spec (BufferSize p) (Head p + k)); rewrite Hr2, ?Hr1 by lia.
      + destruct (decide (k < n)); [rewrite decide_True by lia; f_equal; lia|]. by rewrite !decide_False by lia.
      + rewrite decide_False by lia. rewrite decide_True by lia. rewrite decide_True by lia. f_equal. lia. }
  exists ring, H. split; [done|].
  assert (pipe_ok (set_Head H (set_Buffer ring p))) as Hp' by (split; cbn; lia).
  assert (AvailableData (set_Head H (set_Buffer ring p)) = AvailableData p + n) as HA.
  { pose proof (available_spec _ Hp') as (Ha' & _ & Hh''). cbn in Ha', Hh''.
    unfold H, place in *. destruct (Z.leb_spec (BufferSize p) (Head p + n)); lia. }
  split_and!; [done| |done|].
  - unfold contents at 1. rewrite HA. cbn. rewrite <-zmap_app by lia. unfold contents.
    rewrite piece_zmap by lia. f_equal; apply zmap_ext; intros i Hi.
    + specialize (Hring (i - AvailableData p + BufferSize p)). rewrite decide_False in Hring by lia.
      replace (place (BufferSize p) (Tail p + i)) with (place (BufferSize p) (Head p + (i - AvailableData p + BufferSize p))).
      { apply Hring. lia. }
      unfold place. repeat case_match; bool_hyps; lia.
    + specialize (Hring i). rewrite decide_True in Hring by lia. rewrite <-Hring by lia. f_equal.
      unfold place. repeat case_match; bool_hyps; lia.
  - pose proof (available_spec _ Hp') as (Ha' & _ & Hh''). cbn in Ha', Hh''. lia.
Qed.

(** A write between two sections. *)
Record write_ok (w : write_op) : Prop := {
  wo_written : 0 ≤ WBytesWritten w ≤ WByteCount w;
  wo_count : WByteCount w ≤ Z.of_nat (length (WBuffer w));
}.

(** How many bytes a section writes, and whether they are all that is left. *)
Definition write_size (p : PIPE) (w : write_op) : Z := Z.min (WByteCount w - WBytesWritten w) (FreeSpace p).
Definition write_all (p : PIPE) (w : write_op) : bool := write_size p w =? WByteCount w - WBytesWritten w.

(** How a section of a write ends. *)
Definition write_full (p : PIPE) (f : rw_flags) : round :=
  if ReferenceCount p =? 1 then Ends STATUS_END_OF_FILE
  else if IO_RW_NONBLOCK f then Ends STATUS_BLOCKING_OPERATION
  else Sleeps.
Definition write_end (p : PIPE) (w : write_op) : round :=
  if write_all p w then Ends STATUS_SUCCESS else write_full p (WFlags w).

(** Whether it puts an end to reads. *)
Definition write_terminates (p : PIPE) (w : write_op) : bool := write_all p w && IO_RW_TERMINATE_READ (WFlags w).

(** What [BytesWritten] of the status block is then. *)
Definition write_reported (p : PIPE) (w : write_op) : Z :=
  if WByteCount w =? WBytesWritten w then (WIosb w).1
  else if write_all p w then WBytesWritten w else WBytesWritten w + write_size p w.

Definition written (w : write_op) (BytesWritten reported : Z) : write_op :=
  mkWrite (WFlags w) (WByteCount w) BytesWritten (WBuffer w) (reported, (WIosb w).2).

Lemma write_round_full p w : FreeSpace p = 0 →
  write_round p w = Ok (write_full p (WFlags w), p, written w (WBytesWritten w) (WBytesWritten w), false).
Proof. intros He. unfold write_round, write_full. rewrite He, Z.eqb_refl. cbn. repeat case_match; done. Qed.

Lemma write_round_space p w : pipe_ok p → write_ok w → FreeSpace p ≠ 0 → WBytesWritten w < WByteCount w →
  let n := write_size p w in
  0 < n ∧
  ∃ p', write_round p w = Ok (Again, p', written w (WBytesWritten w + n) (WBytesWritten w), true) ∧
    pipe_ok p' ∧ contents p' = contents p ++ piece w (WBytesWritten w) n ∧
    AvailableData p' = AvailableData p + n ∧ EndReadNow p' = EndReadNow p ∧
    ReferenceCount p' = ReferenceCount p ∧ BufferSize p' = BufferSize p.
Proof.
  intros Hp [Hw1 Hw2] Hne Hlt n. pose proof (available_spec p Hp) as (Ha & Hf & _).
  assert (0 < n ≤ FreeSpace p ∧ n ≤ WByteCount w - WBytesWritten w) as [Hn Hn'] by (unfold n, write_size; lia). split; [lia|].
  destruct (write_copy_spec p (set_WIosb (WBytesWritten w, (WIosb w).2) w) n Hp) as (ring & H & Hc & Hp' & Hcont & HA & HT); [lia|cbn; lia..|].
  eexists. split; [|split; [exact Hp'|split; [exact Hcont|split; [exact HA|done]]]].
  unfold write_round. rewrite (proj2 (Z.eqb_neq _ _) Hne).
  change (WByteCount (set_WIosb (WBytesWritten w, (WIosb w).2) w)) with (WByteCount w).
  change (WBytesWritten (set_WIosb (WBytesWritten w, (WIosb w).2) w)) with (WBytesWritten w).
  assert ((if FreeSpace p <? WByteCount w - WBytesWritten w then FreeSpace p else WByteCount w - WBytesWritten w) = n) as ->.
  { unfold n, write_size. destruct (Z.ltb_spec (FreeSpace p) (WByteCount w - WBytesWritten w)); lia. }
  rewrite Hc. cbn. by rewrite (proj2 (Z.eqb_neq _ _) HT).
Qed.

Lemma write_loop_done fuel p w b : WByteCount w ≤ WBytesWritten w →
  write_loop fuel p w b =
    Ok (Ends STATUS_SUCCESS, set_EndReadNow (EndReadNow p || IO_RW_TERMINATE_READ (WFlags w)) p, w, b || IO_RW_TERMINATE_READ (WFlags w)).
Proof.
  intros Hw. destruct fuel; cbn [write_loop]; rewrite (proj2 (Z.ltb_ge _ _) Hw); cbn [negb];
    destruct (IO_RW_TERMINATE_READ _); rewrite ?orb_true_r, ?orb_false_r; by destruct p.
Qed.

Lemma write_loop_full fuel p w b : WBytesWritten w < WByteCount w → FreeSpace p = 0 →
  write_loop (S fuel) p w b = Ok (write_full p (WFlags w), p, written w (WBytesWritten w) (WBytesWritten w), b).
Proof.
  intros Hw He. cbn [write_loop]. rewrite (proj2 (Z.ltb_lt _ _) Hw), write_round_full by done. cbn [negb].
  unfold write_full. repeat case_match; cbn [mbind outcome_bind] in *; simplify_eq; by rewrite orb_false_r.
Qed.

Lemma write_loop_spec p w : pipe_ok p → write_ok w →
  ∃ p', write_loop (S (Z.to_nat (WByteCount w - WBytesWritten w))) p w false =
      Ok (write_end p w, p', written w (WBytesWritten w + write_size p w) (write_reported p w), (0 <? write_size p w) || write_terminates p w) ∧
    pipe_ok p' ∧ contents p' = contents p ++ piece w (WBytesWritten w) (write_size p w) ∧
    EndReadNow p' = EndReadNow p || write_terminates p w ∧ ReferenceCount p' = ReferenceCount p ∧ BufferSize p' = BufferSize p.
Proof.
  intros Hp Hw. pose proof (available_spec p Hp) as (Ha & Hf & _). pose proof Hw as [Hw1 Hw2].
  assert (∀ e p, pipe_ok p → pipe_ok (set_EndReadNow e p)) as Hpe by (intros e q Hq; by destruct Hq).
  unfold write_end, write_terminates, write_reported, write_all.
  destruct (decide (WByteCount w = WBytesWritten w)) as [Heq|Hne].
  { assert (write_size p w = 0) as -> by (unfold write_size; lia).
    rewrite write_loop_done by lia. rewrite Heq, Z.sub_diag, !Z.eqb_refl, Z.add_0_r. cbn [andb].
    eexists. split; [|split; [by apply Hpe|split; [|done]]].
    - unfold written. rewrite <-surjective_pairing. by destruct w.
    - unfold piece. by rewrite firstn_O, app_nil_r. }
  rewrite (proj2 (Z.eqb_neq _ _) Hne).
  destruct (decide (FreeSpace p = 0)) as [Hz|Hz].
  { assert (write_size p w = 0) as -> by (unfold write_size; lia).
    rewrite write_loop_full by (done || lia). rewrite (proj2 (Z.eqb_neq 0 _)) by lia. cbn [andb orb]. rewrite Z.add_0_r, !orb_false_r.
    exists p. split_and!; try done. unfold piece. by rewrite firstn_O, app_nil_r. }
  destruct (write_round_space p w Hp Hw Hz) as (Hn & p' & Hround & Hp' & Hc' & HA' & He' & Hr' & Hs'); [lia|].
  set (n := write_size p w) in *. set (fuel := Z.to_nat (WByteCount w - WBytesWritten w)).
  assert (write_loop (S fuel) p w false = write_loop fuel p' (written w (WBytesWritten w + n) (WBytesWritten w)) true) as ->.
  { cbn [write_loop]. rewrite (proj2 (Z.ltb_lt (WBytesWritten w) (WByteCount w))) by lia. cbn [negb]. by rewrite Hround. }
  rewrite (proj2 (Z.ltb_lt 0 n)) by done. cbn [orb].
  destruct (Z.eqb_spec n (WByteCount w - WBytesWritten w)) as [E|E]; cbn [andb].
  - rewrite write_loop_done by (cbn; lia). eexists. split; [done|]. cbn. rewrite He'. split_and!; try done. by apply Hpe.
  - assert (n = FreeSpace p) as HnF by (unfold n, write_size in *; lia).
    assert (n ≤ WByteCount w - WBytesWritten w) by (unfold n, write_size; lia).
    assert (FreeSpace p' = 0) as Hz' by (pose proof (available_spec p' Hp') as (_ & Hf' & _); lia).
    destruct fuel as [|k] eqn:Ek; [unfold fuel in Ek; lia|].
    rewrite write_loop_full; [|cbn; lia|done]. exists p'. rewrite !orb_false_r.
    split_and!; try done. unfold write_full. by rewrite Hr'.
Qed.

Lemma write_section p w : pipe_ok p → write_ok w →
  ∃ p' w', IopWritePipe p w = Ok (write_end p w, p', w', (0 <? write_size p w) || write_terminates p w) ∧
    pipe_ok p' ∧ contents p' = contents p ++ piece w (WBytesWritten w) (write_size p w) ∧
    EndReadNow p' = EndReadNow p || write_terminates p w ∧ ReferenceCount p' = ReferenceCount p ∧ BufferSize p' = BufferSize p ∧
    write_ok w' ∧ WBytesWritten w' = WBytesWritten w + write_size p w ∧ WFlags w' = WFlags w ∧ WBuffer w' = WBuffer w ∧
    (∀ Status, write_end p w = Ends Status → WIosb w' = (write_reported p w, Status)).
Proof.
  intros Hp Hw. destruct (write_loop_spec p w Hp Hw) as (p' & Hl & Hrest). pose proof (available_spec p Hp) as (Ha & Hf & _).
  destruct Hw as [Hw1 Hw2]. unfold IopWritePipe. rewrite Hl. cbn [mbind outcome_bind].
  destruct (write_end p w) as [| |st]; eexists p', _; (split; [done|]); destruct Hrest as (? & ? & ? & ? & ?); split_and!; try done.
  1-3: split; cbn; unfold write_size; lia.
  by intros st' [= <-].
Qed.

(** ** What the machine keeps *)

Definition thread_ok (p : PIPE) (t : thread) : Prop :=
  match t with
  | Reader r ph => read_ok r ∧ (ph = Asleep → contents p = [] ∧ EndReadNow p = false)
  | Writer w ph => write_ok w ∧ (ph = Asleep → FreeSpace p = 0)
  end.

Record sys_ok (s : sys) : Prop := {
  so_pipe : pipe_ok (Pipe s);
  so_threads : Forall (thread_ok (Pipe s)) (Threads s);
  so_fifo : Accepted s = Delivered s ++ contents (Pipe s);
}.

(** Only the data and the end-of-read mark matter to the threads. *)
Lemma thread_ok_same p p' t : pipe_ok p → pipe_ok p' → BufferSize p' = BufferSize p →
  contents p' = contents p → (EndReadNow p' = true → EndReadNow p = true) → thread_ok p t → thread_ok p' t.
Proof.
  intros Hp Hp' Hs Hc He. pose proof (length_contents _ Hp) as Hl. pose proof (length_contents _ Hp') as Hl'.
  destruct (available_spec _ Hp) as (_ & Hf & _). destruct (available_spec _ Hp') as (_ & Hf' & _).
  destruct t as [r ph|w ph]; intros [Ht Ha]; (split; [done|]); intros Hph; specialize (Ha Hph).
  - rewrite Hc. destruct Ha as [-> Ha]. split; [done|]. destruct (EndReadNow p'); [|done]. rewrite He in Ha; done.
  - rewrite Hc in Hl'. lia.
Qed.

(** A pulse of the event that it waits for makes a thread ready, so that
    nothing is asked of it. *)
Lemma wake_reader_ok p p' t : pipe_ok p → pipe_ok p' → BufferSize p' = BufferSize p →
  (∀ w, t = Writer w Asleep → contents p' = contents p) → thread_ok p t → thread_ok p' (wake_reader t).
Proof.
  intros Hp Hp' Hs Hw Ht. destruct t as [r []|w []]; destruct Ht as [Ht Ha]; cbn; (split; [done|done || intros _]).
  specialize (Hw w eq_refl). specialize (Ha eq_refl).
  pose proof (length_contents _ Hp) as Hl. pose proof (length_contents _ Hp') as Hl'. rewrite Hw in Hl'.
  destruct (available_spec _ Hp) as (_ & Hf & _). destruct (available_spec _ Hp') as (_ & Hf' & _). lia.
Qed.

Lemma wake_writer_ok p p' t : (∀ r, t = Reader r Asleep → contents p' = [] ∧ EndReadNow p' = false) →
  thread_ok p t → thread_ok p' (wake_writer t).
Proof. intros Hr Ht. destruct t as [r []|w []]; destruct Ht as [Ht Ha]; cbn; (split; [done|done || intros _]). by apply (Hr r). Qed.

Lemma interrupted_ok p st t : thread_ok p t → thread_ok p (interrupted st t).
Proof. destruct t as [r []|w []]; intros [[] Ha]; cbn; (split; [by split|done || by intros _]). Qed.

Lemma inserts_piece (b bs : list Z) off : 0 ≤ off → off + Z.of_nat (length bs) ≤ Z.of_nat (length b) →
  take (length bs) (drop (Z.to_nat off) (list_inserts (Z.to_nat off) bs b)) = bs.
Proof.
  intros Ho Hl. apply list_eq_same_length with (length bs); [done| |].
  { rewrite length_take, length_drop, length_inserts. lia. }
  intros i x y Hi Hx Hy. rewrite lookup_take_lt, lookup_drop, inserts_lookup in Hx by lia.
  rewrite decide_True in Hx by lia. replace (Z.to_nat off + i - Z.to_nat off)%nat with i in Hx by lia. congruence.
Qed.

Lemma read_end_sleeps p r e : pipe_ok p → read_ok r → read_end p r = (Sleeps, e) →
  e = false ∧ (read_size p r).1 = AvailableData p.
Proof.
  intros Hp Hr. unfold read_end. destruct (read_size p r) as [n line] eqn:Hsz.
  destruct (read_size_range _ _ _ _ Hp Hr Hsz) as (Hn & Hl & _).
  destruct line; cbn [orb]; [done|]. specialize (Hl eq_refl).
  destruct (Z.eqb_spec n (RByteCount r - RBytesRead r)); [done|]. unfold read_empty.
  repeat case_match; try done. intros [= <-]. split; [done|]. cbn. lia.
Qed.

Lemma read_end_mark p r o e : read_end p r = (o, e) → e = true → EndReadNow p = true.
Proof. unfold read_end, read_empty. repeat case_match; by intros [= <- <-]. Qed.

Lemma run_reader_ok s i r : sys_ok s → Threads s !! i = Some (Reader r Ready) →
  ∃ s', act (Run i) s = Ok s' ∧ sys_ok s'.
Proof.
  intros [Hp Hts Hf] Hi. pose proof (Forall_lookup_1 _ _ _ _ Hts Hi) as [Hr _].
  cbn [act]. rewrite Hi. pose proof (read_section (Pipe s) r Hp Hr) as Hsec.
  destruct (read_end (Pipe s) r) as [o e] eqn:Hend.
  pose proof (read_end_sleeps (Pipe s) r) as Hsl. pose proof (read_end_mark _ _ _ _ Hend) as Hmark.
  destruct (read_size (Pipe s) r) as [n line] eqn:Hsz. destruct (read_size_range _ _ _ _ Hp Hr Hsz) as (Hn & _ & _).
  destruct Hsec as (p' & r' & -> & Hp' & Hc' & He' & _ & Hs' & Hr' & Hb' & _ & Hbuf' & _). cbn [mbind outcome_bind].
  pose proof (length_contents _ Hp) as Hlen. destruct (available_spec _ Hp) as (Ha & _ & _).
  eexists. split; [done|]. destruct Hr as [Hr1 Hr2]. split; cbn; [done| |].
  - assert (thread_ok p' (Reader r' (phase_of o))) as Hnew.
    { split; [done|]. intros Hph. destruct o; try done. destruct (Hsl e Hp (Build_read_ok _ Hr1 Hr2) Hend) as [-> Hsz'].
      cbn in Hsz'. split; [|done]. rewrite Hc'. apply drop_ge. lia. }
    destruct (Z.ltb_spec 0 n) as [Hpos|Hz].
    + apply Forall_fmap, Forall_insert; [|by destruct o].
      eapply Forall_impl; [exact Hts|]. intros t Ht. cbn. apply (wake_writer_ok (Pipe s)); [|done].
      intros r0 ->. destruct Ht as [_ Ht]. destruct (Ht eq_refl) as [Hnil _]. rewrite Hnil in Hlen. cbn in Hlen. lia.
    + apply Forall_insert; [|done]. eapply Forall_impl; [exact Hts|]. intros t Ht.
      apply (thread_ok_same (Pipe s)); try done; [rewrite Hc'; by replace (Z.to_nat n) with 0%nat by lia|by rewrite He'].
  - rewrite Hf, Hc', <-app_assoc. f_equal. rewrite Hb', Hbuf'.
    replace (RBytesRead r + n - RBytesRead r) with n by lia.
    assert (length (take (Z.to_nat n) (contents (Pipe s))) = Z.to_nat n) as Hlt by (rewrite length_take; lia).
    pose proof (inserts_piece (RBuffer r) (take (Z.to_nat n) (contents (Pipe s))) (RBytesRead r)) as Hins. rewrite Hlt in Hins.
    rewrite Hins by lia. symmetry. apply take_drop.
Qed.

Lemma write_end_sleeps p w : write_end p w = Sleeps → write_all p w = false.
Proof. unfold write_end. by destruct (write_all p w). Qed.

Lemma run_writer_ok s i w : sys_ok s → Threads s !! i = Some (Writer w Ready) →
  ∃ s', act (Run i) s = Ok s' ∧ sys_ok s'.
Proof.
  intros [Hp Hts Hf] Hi. pose proof (Forall_lookup_1 _ _ _ _ Hts Hi) as [Hw _].
  cbn [act]. rewrite Hi.
  destruct (write_section (Pipe s) w Hp Hw) as (p' & w' & -> & Hp' & Hc' & He' & _ & Hs' & Hw' & Hb' & _ & _ & _). cbn [mbind outcome_bind].
  pose proof (length_contents _ Hp) as Hlen. pose proof (length_contents _ Hp') as Hlen'.
  destruct (available_spec _ Hp) as (Ha & Hfs & _). destruct (available_spec _ Hp') as (Ha' & Hfs' & _).
  destruct Hw as [Hw1 Hw2].
  assert (0 ≤ write_size (Pipe s) w ≤ WByteCount w - WBytesWritten w) as Hn by (unfold write_size; lia).
  assert (Z.of_nat (length (piece w (WBytesWritten w) (write_size (Pipe s) w))) = write_size (Pipe s) w) as Hpl by (apply length_piece; lia).
  rewrite Hc', length_app in Hlen'.
  assert (thread_ok p' (Writer w' (phase_of (write_end (Pipe s) w)))) as Hnew.
  { split; [done|]. intros Hph. destruct (write_end (Pipe s) w) eqn:Hend; try done. apply write_end_sleeps in Hend.
    unfold write_all, write_size in *. bool_hyps. lia. }
  eexists. split; [done|]. split; cbn; [done| |].
  - destruct ((0 <? write_size (Pipe s) w) || write_terminates (Pipe s) w) eqn:Hpulse.
    + apply Forall_fmap, Forall_insert; [|by destruct (phase_of _)].
      eapply Forall_impl; [exact Hts|]. intros t Ht. cbn. apply (wake_reader_ok (Pipe s)); try done.
      intros w0 ->. destruct Ht as [_ Ht]. specialize (Ht eq_refl).
      replace (write_size (Pipe s) w) with 0 in Hc' by (unfold write_size in *; lia).
      rewrite Hc'. unfold piece. by rewrite firstn_O, app_nil_r.
    + apply orb_false_iff in Hpulse as [Hz Hterm]. bool_hyps. apply Forall_insert; [|done].
      eapply Forall_impl; [exact Hts|]. intros t Ht. apply (thread_ok_same (Pipe s)); try done.
      * replace (write_size (Pipe s) w) with 0 in Hc' by lia. rewrite Hc'. unfold piece. by rewrite firstn_O, app_nil_r.
      * rewrite He', Hterm, orb_false_r. done.
  - rewrite Hc', Hf, <-app_assoc. do 2 f_equal. rewrite Hb'.
    by replace (WBytesWritten w + write_size (Pipe s) w - WBytesWritten w) with (write_size (Pipe s) w) by lia.
Qed.

Lemma act_ok a s : sys_ok s → ∃ s', act a s = Ok s' ∧ sys_ok s'.
Proof.
  intros Hs. destruct a as [f b|f b|i|i st| |].
  - eexists. split; [done|]. destruct Hs as [Hp Hts Hf]. split; cbn; try done.
    apply Forall_app. split; [done|]. apply Forall_singleton. split; [split; cbn; lia|done].
  - eexists. split; [done|]. destruct Hs as [Hp Hts Hf]. split; cbn; try done.
    apply Forall_app. split; [done|]. apply Forall_singleton. split; [split; cbn; lia|done].
  - destruct (Threads s !! i) as [[r []|w []]|] eqn:Hi.
    1: by eapply run_reader_ok. 3: by eapply run_writer_ok.
    all: exists s; cbn [act]; by rewrite Hi.
  - eexists. split; [done|]. destruct Hs as [Hp Hts Hf]. split; cbn; try done.
    apply Forall_alter; [done|]. intros t _ Ht. by apply interrupted_ok.
  - eexists. split; [done|]. destruct Hs as [Hp Hts Hf].
    match goal with |- sys_ok (mkSys ?p _ _ _) => assert (pipe_ok p) as Hp' by (by destruct Hp) end.
    by split.
  - cbn [act]. unfold IopDereferencePipe. cbn. destruct (_ =? 0); [by exists s|].
    eexists. split; [done|]. destruct Hs as [Hp Hts Hf].
    match goal with |- sys_ok (mkSys ?p _ _ _) => assert (pipe_ok p) as Hp' by (by destruct Hp) end.
    by split.
Qed.

Lemma acts_ok l : ∀ s, sys_ok s → ∃ s', acts l s = Ok s' ∧ sys_ok s'.
Proof.
  induction l as [|a l IH]; intros s Hs; [by exists s|]. cbn.
  destruct (act_ok a s Hs) as (s1 & -> & Hs1). exact (IH s1 Hs1).
Qed.

(** A new pipe, in whatever memory. *)
Definition new_pipe (Fcb : PIPE) (size : Z) : sys :=
  mkSys (IopReferencePipe (IopInitializePipe Fcb size)) [] [] [].

Lemma new_pipe_ok Fcb n size : pipe_size n = inr size → Z.of_nat (length (Buffer Fcb)) = size → sys_ok (new_pipe Fcb size).
Proof.
  unfold pipe_size, MAX_PIPE_SIZE, DEFAULT_PIPE_SIZE. intros Hs Hl.
  assert (64 ≤ size ≤ 32768) as Hsz.
  { destruct (n =? 0); case_match; simplify_eq; [lia|]. bool_hyps. lia. }
  split; [split; cbn; lia|by apply Forall_nil|]. unfold contents, AvailableData. cbn. done.
Qed.

(** ** Theorems *)

(** C7: Whatever readers and writers do in whatever order, with whatever
    flags, waits that fail and owners that come and go: no assertion fails, the
    loops end, and what was read and what is still in the pipe are together
    what was written, in order. *)
Theorem pipe_fifo Fcb n size l :
  pipe_size n = inr size → Z.of_nat (length (Buffer Fcb)) = size →
  ∃ s, acts l (new_pipe Fcb size) = Ok s ∧ Accepted s = Delivered s ++ contents (Pipe s) ∧
    Z.of_nat (length (contents (Pipe s))) < BufferSize (Pipe s).
Proof.
  intros Hn Hl. destruct (acts_ok l _ (new_pipe_ok Fcb n size Hn Hl)) as (s & Hs & [Hp _ Hf]).
  exists s. split; [done|]. split; [done|]. rewrite length_contents by done. by apply available_spec.
Qed.

(** C8: No wake-up is lost: in every reachable state a reader sleeps only while
    the pipe is empty and nobody asked reads to end, a writer only while it is
    full, and so never both. *)
Theorem pipe_no_lost_wakeup Fcb n size l s :
  pipe_size n = inr size → Z.of_nat (length (Buffer Fcb)) = size → acts l (new_pipe Fcb size) = Ok s →
  (∀ i r, Threads s !! i = Some (Reader r Asleep) → contents (Pipe s) = [] ∧ EndReadNow (Pipe s) = false) ∧
  (∀ i w, Threads s !! i = Some (Writer w Asleep) → FreeSpace (Pipe s) = 0) ∧
  ¬ ∃ i j r w, Threads s !! i = Some (Reader r Asleep) ∧ Threads s !! j = Some (Writer w Asleep).
Proof.
  intros Hn Hl Hs. destruct (acts_ok l _ (new_pipe_ok Fcb n size Hn Hl)) as (s' & Hs' & [Hp Hts _]).
  rewrite Hs in Hs'. injection Hs' as <-.
  assert (∀ i r, Threads s !! i = Some (Reader r Asleep) → contents (Pipe s) = [] ∧ EndReadNow (Pipe s) = false) as Hr.
  { intros i r Hi. destruct (Forall_lookup_1 _ _ _ _ Hts Hi) as [_ H]. by apply H. }
  assert (∀ i w, Threads s !! i = Some (Writer w Asleep) → FreeSpace (Pipe s) = 0) as Hw.
  { intros i w Hi. destruct (Forall_lookup_1 _ _ _ _ Hts Hi) as [_ H]. by apply H. }
  split; [done|]. split; [done|]. intros (i & j & r & w & Hi & Hj). apply Hr in Hi as [Hi _]. apply Hw in Hj.
  pose proof (length_contents _ Hp) as Hlc. rewrite Hi in Hlc. cbn in Hlc.
  destruct (available_spec _ Hp) as (_ & Hf & _). destruct Hp as [? _ _ _]. lia.
Qed.

(** A section of a read takes the oldest bytes of the pipe: as many as it
    lacks and as there are, up to the first end of a line when it was asked to
    stop there.  Then it ends, waits or fails as the flags, the other owners
    and the end-of-read mark say, and reports what it has read. *)
Theorem IopReadPipe_correct p r : pipe_ok p → read_ok r →
  let '(n, line) := read_size p r in
  let '(o, e) := read_end p r in
  ∃ p' r', IopReadPipe p r = Ok (o, p', r', 0 <? n) ∧
    pipe_ok p' ∧ contents p' = drop (Z.to_nat n) (contents p) ∧
    EndReadNow p' = e ∧ ReferenceCount p' = ReferenceCount p ∧ BufferSize p' = BufferSize p ∧
    read_ok r' ∧ RBytesRead r' = RBytesRead r + n ∧ RFlags r' = RFlags r ∧
    RBuffer r' = list_inserts (Z.to_nat (RBytesRead r)) (take (Z.to_nat n) (contents p)) (RBuffer r) ∧
    (∀ Status, o = Ends Status → RIosb r' = (RBytesRead r', Status)).
Proof. apply read_section. Qed.

(** C9: A section of a write appends its next bytes to the data of the pipe, as
    many as it has and as fit.  Then it ends, waits or fails as the flags and
    the other owners say.  When it ends because all is written, the number of
    bytes that it reports leaves out what its last round wrote: a write that
    fits the pipe at once reports that nothing was written. *)
Theorem IopWritePipe_correct p w : pipe_ok p → write_ok w →
  (∃ p' w', IopWritePipe p w = Ok (write_end p w, p', w', (0 <? write_size p w) || write_terminates p w) ∧
    pipe_ok p' ∧ contents p' = contents p ++ piece w (WBytesWritten w) (write_size p w) ∧
    EndReadNow p' = EndReadNow p || write_terminates p w ∧ ReferenceCount p' = ReferenceCount p ∧ BufferSize p' = BufferSize p ∧
    write_ok w' ∧ WBytesWritten w' = WBytesWritten w + write_size p w ∧ WFlags w' = WFlags w ∧ WBuffer w' = WBuffer w ∧
    (∀ Status, write_end p w = Ends Status → WIosb w' = (write_reported p w, Status))) ∧
  (∀ f b, w = start_write f b → Z.of_nat (length b) ≤ FreeSpace p → write_end p w = Ends STATUS_SUCCESS ∧ write_reported p w = 0).
Proof.
  intros Hp Hw. split; [by apply write_section|]. intros f b -> Hb. unfold write_end, write_reported, write_all, write_size, start_write. cbn.
  rewrite Z.sub_0_r, Z.min_l, Z.eqb_refl by done. split; [done|]. by destruct (_ =? 0).
Qed.

(** When the other end of the pipe goes away, a reader that sleeps is not
    woken, although it would find the end of the file. *)
Lemma reader_left_asleep :
  let f := mkRwFlags false false false false in
  ∃ s r, acts [StartRead f [0; 0]; Run 0; Dereference] (new_pipe (mkPipe 0 0 0 0 false (replicate 64 0)) 64) = Ok s ∧
    Threads s = [Reader r Asleep] ∧ ReferenceCount (Pipe s) = 1 ∧
    ∀ o p' r' b, IopReadPipe (Pipe s) r = Ok (o, p', r', b) → o = Ends STATUS_END_OF_FILE.
Proof.
  cbn zeta. eexists _, _. split; [vm_compute; reflexivity|]. split; [reflexivity|]. split; [reflexivity|].
  intros o p' r' b H. vm_compute in H. by injection H as <- _ _ _.
Qed.

(** ** Witnesses *)

Definition plain : rw_flags := mkRwFlags false false false false.
Definition by_line : rw_flags := mkRwFlags false false true false.
Definition memory_64 : PIPE := mkPipe 0 0 0 0 false (replicate 64 0).

(** A reader waits, a writer brings a line, and the reader takes it. *)
Definition small_run : list action :=
  [StartRead by_line [0; 0; 0; 0]; Run 0; StartWrite plain [65; 66; 10; 67]; Run 1; Run 0].

Lemma pipe_fifo_witness :
  ∃ s, acts small_run (new_pipe memory_64 64) = Ok s ∧ Accepted s = [65; 66; 10; 67] ∧ Delivered s = [65; 66; 10].
Proof.
  destruct (pipe_fifo memory_64 64 64 small_run) as (s & Hs & _).
  - reflexivity.
  - reflexivity.
  - exists s. split; [exact Hs|]. vm_compute in Hs. injection Hs as <-. split; reflexivity.
Defined.

Lemma pipe_no_lost_wakeup_witness :
  ∃ s r, acts [StartRead plain [0; 0]; Run 0] (new_pipe memory_64 64) = Ok s ∧
    Threads s !! 0%nat = Some (Reader r Asleep) ∧ contents (Pipe s) = [].
Proof.
  eexists _, _. split; [vm_compute; reflexivity|]. split; [reflexivity|].
  refine (proj1 (proj1 (pipe_no_lost_wakeup memory_64 64 64 [StartRead plain [0; 0]; Run 0] _ _ _ _) 0%nat _ _)).
  - reflexivity.
  - reflexivity.
  - vm_compute. reflexivity.
  - reflexivity.
Defined.

Definition pipe_data : PIPE := mkPipe 2 1 62 64 false (66 :: replicate 61 0 ++ [65; 10]).

Lemma pipe_data_ok : pipe_ok pipe_data.
Proof. split; vm_compute; split_and?; congruence || done. Qed.

Lemma IopReadPipe_correct_witness :
  ∃ p' r', IopReadPipe pipe_data (start_read by_line [0; 0; 0]) = Ok (Ends STATUS_SUCCESS, p', r', true) ∧
    contents p' = [66] ∧ RBuffer r' = [65; 10; 0].
Proof.
  pose proof (IopReadPipe_correct pipe_data (start_read by_line [0; 0; 0]) pipe_data_ok) as H.
  assert (read_ok (start_read by_line [0; 0; 0])) as Hr by (split; vm_compute; split_and?; congruence).
  destruct (H Hr) as (p' & r' & Hrun & _ & Hc & _ & _ & _ & _ & _ & _ & Hb & _).
  exists p', r'. split; [exact Hrun|]. split; [rewrite Hc; reflexivity|rewrite Hb; reflexivity].
Defined.

Lemma IopWritePipe_correct_witness :
  write_end pipe_data (start_write plain [67; 68]) = Ends STATUS_SUCCESS ∧
  ∃ p' w', IopWritePipe pipe_data (start_write plain [67; 68]) = Ok (Ends STATUS_SUCCESS, p', w', true) ∧
    contents p' = [65; 10; 66; 67; 68] ∧ WIosb w' = (0, STATUS_SUCCESS).
Proof.
  assert (write_ok (start_write plain [67; 68])) as Hw by (split; vm_compute; split_and?; congruence).
  destruct (IopWritePipe_correct pipe_data (start_write plain [67; 68]) pipe_data_ok Hw)
    as [(p' & w' & Hrun & _ & Hc & _ & _ & _ & _ & _ & _ & _ & Hio) _].
  split; [reflexivity|]. exists p', w'. split; [exact Hrun|]. split; [rewrite Hc; reflexivity|exact (Hio _ eq_refl)].
Defined.
