(* ===== verification/Ob.v ===== *)
(** The namespace of objects of [boron/source/ob]: objects with their
    reference counts, directories, symbolic links and the lookup of paths.

    An address of an object is a number; the pool is the arguments that say
    which memory an allocation gets.  Directories are used under their mutexes,
    one operation at a time, at an IPL at which objects are deleted at once.
    The [Parse] methods of the types of drivers are a parameter. *)
From S2P Require Import Prelude.
Local Open Scope Z_scope.

(** [OB_PATH_SEPARATOR] : common/include/obs.h:19-19. *)
Definition OB_PATH_SEPARATOR : Z := 47.

Definition OB_MAX_PATH_LENGTH : Z := 256.

(** [OB_MAX_LOOP] : boron/source/ob/obp.h:33-33. *)
Definition OB_MAX_LOOP : nat := 16.

(** A C string without its terminator. *)
Notation cstring := (list Z).

(** ** Objects *)

(** [OBJECT_DIRECTORY] : boron/include/ob.h:197-235.
    With the other bodies of objects: of symbolic links, of types, of which
    only the number of objects is kept here, and of all others. *)
Inductive body :=
  | OBJECT_DIRECTORY (ListHead : list Z) (Count : Z)
  | OBJECT_SYMLINK (DestPath : option cstring)
  | OBJECT_TYPE (TotalObjectCount : Z)
  | OtherBody.

(** [OBJECT_HEADER] : boron/include/ob.h:132-189.
    Both headers and the body. *)
Record OBJECT := mkObject {
  Permanent : bool;
  ObjectName : option cstring;
  ParentDirectory : option Z;
  ObjectType : Z;
  PointerCount : Z;
  HandleCount : Z;
  Body : body }.

Definition set_ObjectName (v : option cstring) (x : OBJECT) : OBJECT :=
  mkObject (Permanent x) v (ParentDirectory x) (ObjectType x) (PointerCount x) (HandleCount x) (Body x).
Definition set_ParentDirectory (v : option Z) (x : OBJECT) : OBJECT :=
  mkObject (Permanent x) (ObjectName x) v (ObjectType x) (PointerCount x) (HandleCount x) (Body x).
Definition set_ObjectType (v : Z) (x : OBJECT) : OBJECT :=
  mkObject (Permanent x) (ObjectName x) (ParentDirectory x) v (PointerCount x) (HandleCount x) (Body x).
Definition set_PointerCount (v : Z) (x : OBJECT) : OBJECT :=
  mkObject (Permanent x) (ObjectName x) (ParentDirectory x) (ObjectType x) v (HandleCount x) (Body x).
Definition set_Body (v : body) (x : OBJECT) : OBJECT :=
  mkObject (Permanent x) (ObjectName x) (ParentDirectory x) (ObjectType x) (PointerCount x) (HandleCount x) v.

(** The objects and the global variables of the object manager. *)
Record ob := mkOb {
  Objects : gmap Z OBJECT;
  ObpRootDirectory : option Z;
  ObpObjectTypesDirectory : option Z;
  ObpFileSystemRootLink : option Z;
  ObObjectTypeType : option Z;
  ObDirectoryType : Z;
  ObSymbolicLinkType : Z;
  IoFileType : Z }.

Definition set_Objects (v : gmap Z OBJECT) (s : ob) : ob :=
  mkOb v (ObpRootDirectory s) (ObpObjectTypesDirectory s) (ObpFileSystemRootLink s) (ObObjectTypeType s)
    (ObDirectoryType s) (ObSymbolicLinkType s) (IoFileType s).

Definition get (o : Z) (s : ob) : outcome OBJECT := deref (Objects s !! o).

Definition upd (o : Z) (f : OBJECT → OBJECT) (s : ob) : outcome ob :=
  x ← get o s; Ok (set_Objects (<[o := f x]> (Objects s)) s).

(** [ObpGetObjectType] : boron/source/ob/obp.h:63-67. *)
Definition ObpGetObjectType (o : Z) (s : ob) : outcome Z := x ← get o s; Ok (ObjectType x).

Definition s32 (x : Z) : Z := sext 32 x.

(** ** Reference counts *)

(** [ObReferenceObjectByPointer] : boron/source/ob/ref.c:112-131. *)
Definition ObReferenceObjectByPointer (o : Z) (s : ob) : outcome ob :=
  upd o (λ x, set_PointerCount (s32 (PointerCount x + 1)) x) s.

(** [ObpFreeObject] : boron/source/ob/create.c:100-120. *)
Definition ObpFreeObject (o : Z) (s : ob) : outcome ob :=
  _ ← get o s; Ok (set_Objects (delete o (Objects s)) s).

(** [ObpDeleteObject] : boron/source/ob/ref.c:17-42.
    The [Delete] method of symbolic links frees the path, which goes with the
    object. *)
Definition ObpDeleteObject (o : Z) (s : ob) : outcome ob :=
  x ← get o s;
  if Permanent x then Ok s else ObpFreeObject o s.

(** [ObDereferenceObject] : boron/source/ob/ref.c:133-169. *)
Definition ObDereferenceObject (o : Z) (s : ob) : outcome ob :=
  x ← get o s;
  let OldCount := PointerCount x in
  s ← upd o (set_PointerCount (s32 (OldCount - 1))) s;
  _ ← check (1 <=? OldCount);
  if negb (OldCount =? 1) then Ok s
  else if Permanent x then Ok s
  else ObpDeleteObject o s.

(** ** Creation *)

(** [ObpAllocateObject] : boron/source/ob/create.c:22-98.
    [Mem] is the memory for both headers and the body, where there is enough. *)
Definition ObpAllocateObject (Mem : option Z) (Type_ : option Z) (permanent : bool) (s : ob) : outcome (BSTATUS * Z * ob) :=
  match Mem with
  | None => Ok (STATUS_INSUFFICIENT_MEMORY, 0, s)
  | Some o =>
      s ← match Type_ with
          | None => Ok s
          | Some t => upd t (λ x, match Body x with OBJECT_TYPE n => set_Body (OBJECT_TYPE (s32 (n + 1))) x | _ => x end) s
          end;
      Ok (STATUS_SUCCESS, o,
        set_Objects (<[o := mkObject permanent None None (default 0 Type_) 1 0 OtherBody]> (Objects s)) s)
  end.

(** [ObpAssignName] : boron/source/ob/create.c:124-139. *)
Definition ObpAssignName (mem : bool) (o : Z) (Name : cstring) (s : ob) : outcome (BSTATUS * ob) :=
  x ← get o s;
  _ ← check (bool_decide (ParentDirectory x = None));
  _ ← check (bool_decide (ObjectName x = None));
  if negb mem then Ok (STATUS_INSUFFICIENT_MEMORY, s)
  else s ← upd o (set_ObjectName (Some Name)) s; Ok (STATUS_SUCCESS, s).

(** ** Directories *)

(** The fields of a directory. *)
Definition get_directory (d : Z) (s : ob) : outcome (list Z * Z) :=
  x ← get d s; match Body x with OBJECT_DIRECTORY ListHead Count => Ok (ListHead, Count) | _ => Crash end.

(** [ObLinkObject] : boron/source/ob/dir.c:77-91.
    Is an entry of the directory named like that? *)
Fixpoint name_taken (l : list Z) (Name : option cstring) (s : ob) : outcome bool :=
  match l with
  | [] => Ok false
  | e :: l =>
      DirObject ← get e s;
      _ ← check (bool_decide (ObjectName DirObject ≠ None));
      if bool_decide (ObjectName DirObject = Name) then Ok true else name_taken l Name s
  end.

(** [ObLinkObject] : boron/source/ob/dir.c:77-103.
    With a name: the search for the same name, and the insertion. *)
Definition link_entry (Directory Object : Z) (s : ob) : outcome (BSTATUS * ob) :=
  Header ← get Object s;
  '(ListHead, Count) ← get_directory Directory s;
  taken ← name_taken ListHead (ObjectName Header) s;
  if (taken : bool) then Ok (STATUS_NAME_COLLISION, s)
  else
    s ← upd Directory (set_Body (OBJECT_DIRECTORY (ListHead ++ [Object]) (s32 (Count + 1)))) s;
    s ← ObReferenceObjectByPointer Directory s;
    s ← upd Object (set_ParentDirectory (Some Directory)) s;
    Ok (STATUS_SUCCESS, s).

(** [ObLinkObject] : boron/source/ob/dir.c:46-104. *)
Definition ObLinkObject (mem : bool) (Directory Object : Z) (Name : option cstring) (s : ob) : outcome (BSTATUS * ob) :=
  Header ← get Object s;
  if bool_decide (ParentDirectory Header ≠ None) then Ok (STATUS_ALREADY_LINKED, s)
  else
    '(Status, s) ←
      (if bool_decide (ObjectName Header = None) then
         match Name with
         | None => Ok (STATUS_INVALID_PARAMETER, s)
         | Some Name => ObpAssignName mem Object Name s
         end
       else Ok (STATUS_SUCCESS, s));
    if FAILED Status then Ok (Status, s)
    else
      link_entry Directory Object s.

(** [ObpRemoveObjectFromDirectory] : boron/source/ob/dir.c:113-125.
    The loop of DEBUG builds that looks for the object among the entries: it
    never goes on to the next one. *)
Fixpoint find_entry (fuel : nat) (Ent : list Z) (Object : Z) : outcome bool :=
  match Ent with
  | [] => Ok false
  | e :: _ =>
      if e =? Object then Ok true
      else match fuel with O => OutOfFuel | S fuel => find_entry fuel Ent Object end
  end.

(** [ObpRemoveObjectFromDirectory] : boron/source/ob/dir.c:107-143. *)
Definition ObpRemoveObjectFromDirectory (fuel : nat) (Directory Object : Z) (s : ob) : outcome ob :=
  '(ListHead, _) ← get_directory Directory s;
  Ok_ ← find_entry fuel ListHead Object;
  _ ← check Ok_;
  '(ListHead, Count) ← get_directory Directory s;
  s ← upd Directory (set_Body (OBJECT_DIRECTORY (filter (λ e, e ≠ Object) ListHead) (s32 (Count - 1)))) s;
  s ← ObDereferenceObject Directory s;
  _ ← get_directory Directory s;
  Ok s.

(** [ObUnlinkObject] : boron/source/ob/dir.c:638-648. *)
Definition ObUnlinkObject (fuel : nat) (Object : Z) (s : ob) : outcome (BSTATUS * ob) :=
  Header ← get Object s;
  match ParentDirectory Header with
  | None => Ok (STATUS_NOT_LINKED, s)
  | Some Dir => s ← ObpRemoveObjectFromDirectory fuel Dir Object s; Ok (STATUS_SUCCESS, s)
  end.

(** ** Lookup *)

(** [ObMatchPathName] : boron/source/ob/dir.c:153-174. *)
Fixpoint ObMatchPathName_loop (FileName Path : cstring) (n : nat) : nat :=
  match FileName, Path with
  | [], [] => n
  | [], c :: _ => if c =? OB_PATH_SEPARATOR then S n else 0%nat
  | _ :: _, [] => 0%nat
  | f :: FileName, c :: Path =>
      if (f =? c) && negb (c =? OB_PATH_SEPARATOR) then ObMatchPathName_loop FileName Path (S n) else 0%nat
  end.

Definition ObMatchPathName (FileName Path : cstring) : nat := ObMatchPathName_loop FileName Path 0.

(** [ObpLookUpDirectoryEntry] : boron/source/ob/dir.c:194-214.
    The loop over the entries. *)
Fixpoint look_up_entry (Entries : list Z) (PathToMatch : cstring) (s : ob) : outcome (option (Z * nat)) :=
  match Entries with
  | [] => Ok None
  | e :: Entries =>
      Header ← get e s;
      Name ← deref (ObjectName Header);
      let MatchLength := ObMatchPathName Name PathToMatch in
      if negb (MatchLength =? 0)%nat then Ok (Some (e, MatchLength)) else look_up_entry Entries PathToMatch s
  end.

(** [ObpLookUpDirectoryEntry] : boron/source/ob/dir.c:188-217. *)
Definition ObpLookUpDirectoryEntry (Directory : Z) (PathToMatch : cstring) (s : ob)
  : outcome (BSTATUS * Z * nat * ob) :=
  '(ListHead, _) ← get_directory Directory s;
  r ← look_up_entry ListHead PathToMatch s;
  match r with
  | Some (o, MatchLength) => s ← ObReferenceObjectByPointer o s; Ok (STATUS_SUCCESS, o, MatchLength, s)
  | None => Ok (STATUS_NAME_NOT_FOUND, 0, 0%nat, s)
  end.

(** [OB_OPEN_NO_INHERIT] : common/include/obs.h:23-49.
    The bits of [OpenFlags]. *)
Record open_flags := mkOpen {
  OB_OPEN_NO_INHERIT : bool;
  OB_OPEN_SYMLINK : bool;
  OB_OPEN_OBJECT_NAMESPACE : bool;
  OB_OPEN_USER_MODE : bool;
  OB_OPEN_DUPLICATE_ON_FORK : bool }.

Definition no_flags : open_flags := mkOpen false false false false false.

(** The [Parse] method of a type, as the comment on [OBJ_PARSE_FUNC] has it: of
    an object, for the rest of the path and a loop count, it returns a status
    and, if that is a success, what is left of the path ([None] when the object
    is the one wanted) and an object. *)
Definition parse_func : Type := Z → cstring → nat → ob → outcome (BSTATUS * option cstring * Z * ob).

Section lookup.
(** The methods of the types of drivers. *)
Context (driver_parse : Z → option parse_func).

(** [ObpParseSymbolicLink] : boron/source/ob/link.c:20-59.
    [lookup] is [ObpLookUpObjectPath] of an absolute path. *)
Definition ObpParseSymbolicLink (lookup : cstring → ob → outcome (BSTATUS * Z * ob)) (SymLinkObject : Z) (Name : cstring) (s : ob)
  : outcome (BSTATUS * option cstring * Z * ob) :=
  x ← get SymLinkObject s;
  match Body x with
  | OBJECT_SYMLINK None => Ok (STATUS_UNASSIGNED_LINK, Some Name, 0, s)
  | OBJECT_SYMLINK (Some DestPath) =>
      '(Status, o, s) ← lookup DestPath s;
      Ok (Status, Some Name, o, s)
  | _ => Crash
  end.

(** [ObpLookUpObjectPath] : boron/source/ob/dir.c:400-409.
    The end of the lookup: the type is looked at. *)
Definition TerminateParsing (ExpectedType : option Z) (CurrentObject ObjectType : Z) (s : ob) : outcome (BSTATUS * Z * ob) :=
  match ExpectedType with
  | Some t =>
      if t =? ObjectType then Ok (STATUS_SUCCESS, CurrentObject, s)
      else s ← ObDereferenceObject CurrentObject s; Ok (STATUS_TYPE_MISMATCH, 0, s)
  | None => Ok (STATUS_SUCCESS, CurrentObject, s)
  end.

(** [ObpLookUpObjectPath] : boron/source/ob/dir.c:296-415.
    The loop: a round for each directory that is entered and each object that
    is parsed; [parse] is the [Parse] method of a type. *)
Fixpoint parse_path (parse : Z → option (Z → cstring → ob → outcome (BSTATUS * option cstring * Z * ob)))
    (CurrDepth : nat) (ExpectedType : option Z) (OpenFlags : open_flags) (CurrentObject : Z) (CurrentPath : cstring) (s : ob)
  : outcome (BSTATUS * Z * ob) :=
  match CurrDepth with
  | O => Ok (STATUS_PATH_TOO_DEEP, 0, s)
  | S CurrDepth =>
      ObjectType ← ObpGetObjectType CurrentObject s;
      if ObjectType =? ObDirectoryType s then
        match CurrentPath with
        | [] => Ok (STATUS_SUCCESS, CurrentObject, s)
        | _ =>
            '(Status, LookedUpObject, MatchLength, s) ← ObpLookUpDirectoryEntry CurrentObject CurrentPath s;
            s ← ObDereferenceObject CurrentObject s;
            _ ← get_directory CurrentObject s;
            if FAILED Status then Ok (STATUS_NAME_NOT_FOUND, 0, s)
            else parse_path parse CurrDepth ExpectedType OpenFlags LookedUpObject (drop MatchLength CurrentPath) s
        end
      else if (ObjectType =? ObSymbolicLinkType s) && bool_decide (CurrentPath = []) && OB_OPEN_SYMLINK OpenFlags
      then TerminateParsing ExpectedType CurrentObject ObjectType s
      else
        match parse ObjectType with
        | Some Parse =>
            '(Status, CurrentPath, NewObject, s) ← Parse CurrentObject CurrentPath s;
            if FAILED Status then s ← ObDereferenceObject CurrentObject s; Ok (Status, 0, s)
            else
              match CurrentPath with
              | None => ObjectType ← ObpGetObjectType NewObject s; TerminateParsing ExpectedType NewObject ObjectType s
              | Some CurrentPath =>
                  s ← ObDereferenceObject CurrentObject s;
                  parse_path parse CurrDepth ExpectedType OpenFlags NewObject CurrentPath s
              end
        | None =>
            match CurrentPath with
            | [] => TerminateParsing ExpectedType CurrentObject ObjectType s
            | _ => s ← ObDereferenceObject CurrentObject s; Ok (STATUS_PATH_INVALID, 0, s)
            end
        end
  end.

(** [ObpLookUpObjectPath] : boron/source/ob/dir.c:251-288.
    Where the lookup starts, and with what path. *)
Definition parse_start (InitialParseObject : option Z) (ObjectName : cstring) (ExpectedType : option Z) (OpenFlags : open_flags) (s : ob)
  : outcome (BSTATUS * Z * cstring) :=
  match InitialParseObject with
  | None =>
      o ← (if bool_decide (ExpectedType = Some (IoFileType s)) && bool_decide (ObpFileSystemRootLink s ≠ None)
              && OB_OPEN_USER_MODE OpenFlags && negb (OB_OPEN_OBJECT_NAMESPACE OpenFlags)
           then Ok (ObpFileSystemRootLink s) else Ok (ObpRootDirectory s));
      match ObjectName with
      | c :: ObjectName => if c =? OB_PATH_SEPARATOR then o ← deref o; Ok (STATUS_SUCCESS, o, ObjectName) else Ok (STATUS_PATH_INVALID, 0, [])
      | [] => Ok (STATUS_PATH_INVALID, 0, [])
      end
  | Some o =>
      match ObjectName with
      | [] => Ok (STATUS_PATH_INVALID, 0, [])
      | c :: _ =>
          if c =? OB_PATH_SEPARATOR then Ok (STATUS_PATH_INVALID, 0, [])
          else
            ObjectType ← ObpGetObjectType o s;
            if (ObjectType =? ObDirectoryType s) || (ObjectType =? ObSymbolicLinkType s) || (ObjectType =? IoFileType s)
            then Ok (STATUS_SUCCESS, o, ObjectName) else Ok (STATUS_PATH_INVALID, 0, [])
      end
  end.

(** [ObpLookUpObjectPath] : boron/source/ob/dir.c:232-416.
    [loops] is [OB_MAX_LOOP - LoopCount].  The loop count of the methods that
    it calls is one more. *)
Fixpoint look_up_path (loops : nat) (InitialParseObject : option Z) (ObjectName : cstring) (ExpectedType : option Z)
    (OpenFlags : open_flags) (s : ob) : outcome (BSTATUS * Z * ob) :=
  match loops with
  | O => Ok (STATUS_LOOP_TOO_DEEP, 0, s)
  | S loops =>
      '(Status, o, path) ← parse_start InitialParseObject ObjectName ExpectedType OpenFlags s;
      if FAILED Status then Ok (Status, 0, s)
      else
        s ← ObReferenceObjectByPointer o s;
        let parse (t : Z) :=
          if t =? ObSymbolicLinkType s
          then Some (ObpParseSymbolicLink (λ DestPath, look_up_path loops None DestPath None no_flags))
          else Parse ← driver_parse t; Some (λ o path, Parse o path (OB_MAX_LOOP - loops)%nat) in
        parse_path parse 100 ExpectedType OpenFlags o path s
  end.

(** [ObpLookUpObjectPath] : boron/source/ob/dir.c:232-416. *)
Definition ObpLookUpObjectPath (InitialParseObject : option Z) (ObjectName : cstring) (ExpectedType : option Z) (LoopCount : nat)
    (OpenFlags : open_flags) (s : ob) : outcome (BSTATUS * Z * ob) :=
  look_up_path (OB_MAX_LOOP - LoopCount) InitialParseObject ObjectName ExpectedType OpenFlags s.

(** [ObReferenceObjectByName] : boron/source/ob/handle.c:169-184. *)
Definition ObReferenceObjectByName (ObjectName : cstring) (InitialParseObject : option Z) (OpenFlags : open_flags) (ExpectedType : option Z)
  : ob → outcome (BSTATUS * Z * ob) :=
  ObpLookUpObjectPath InitialParseObject ObjectName ExpectedType 0 OpenFlags.

(** ** Names of new objects *)

(** [ObpNormalizeParentDirectoryAndName] : boron/source/ob/dir.c:588-612.
    The loop from the end of the name: what is before the last separator, and
    what is behind it. *)
Fixpoint split_name (Index : nat) (ActualName : cstring) (StartCopying : bool) (PathWithoutName : cstring) (FinalName : nat) : bool * cstring * nat :=
  match Index with
  | O => (StartCopying, PathWithoutName, FinalName)
  | S Index =>
      let c := default 0 (ActualName !! Index) in
      if StartCopying then split_name Index ActualName true (c :: PathWithoutName) FinalName
      else if c =? OB_PATH_SEPARATOR then split_name Index ActualName true [] (Index + 1)%nat
      else split_name Index ActualName false PathWithoutName FinalName
  end.

(** [ObpNormalizeParentDirectoryAndName] : boron/source/ob/dir.c:556-636. *)
Definition ObpNormalizeParentDirectoryAndName (ParentDirectory : option Z) (Name : cstring) (s : ob)
  : outcome (BSTATUS * option Z * cstring * ob) :=
  match Name with
  | [] => Ok (STATUS_INVALID_PARAMETER, ParentDirectory, Name, s)
  | c :: Name' =>
      if bool_decide (ParentDirectory = None) && negb (c =? OB_PATH_SEPARATOR)
      then Ok (STATUS_INVALID_PARAMETER, ParentDirectory, Name, s)
      else
        let '(ParentDirectory, Name) := match ParentDirectory with None => (ObpRootDirectory s, Name') | Some d => (Some d, Name) end in
        if bool_decide (head Name = Some OB_PATH_SEPARATOR) then Ok (STATUS_INVALID_PARAMETER, ParentDirectory, Name, s)
        else if OB_MAX_PATH_LENGTH - 1 <=? Z.of_nat (length Name) then Ok (STATUS_NAME_TOO_LONG, ParentDirectory, Name, s)
        else
          let '(StartCopying, PathWithoutName, FinalName) := split_name (length Name) Name false [] 0 in
          match PathWithoutName with
          | [] => Ok (STATUS_SUCCESS, ParentDirectory, drop FinalName Name, s)
          | _ =>
              '(Status, ContainingDirectory, s) ← ObpLookUpObjectPath ParentDirectory PathWithoutName (Some (ObDirectoryType s)) 0 no_flags s;
              if FAILED Status then Ok (Status, ParentDirectory, Name, s)
              else Ok (STATUS_SUCCESS, Some ContainingDirectory, drop FinalName Name, s)
          end
  end.

(** [ObCreateObjectCallback] : boron/source/ob/create.c:141-222.
    With a name and a type; [Mem] and [mem] are the memory for the object and
    for its name, [Callback] what fills in the body.  The object comes with
    every status under which the caller's pointer to it is set. *)
Definition ObCreateObjectCallback (Mem : option Z) (mem : bool) (ParentDirectory : option Z) (Type_ : Z) (Name : cstring)
    (permanent no_directory : bool) (Callback : body → BSTATUS * body) (s : ob) : outcome (BSTATUS * option Z * ob) :=
  '(Status, ParentDirectory, Name, s) ←
    (if negb no_directory && bool_decide (ObpRootDirectory s ≠ None)
     then ObpNormalizeParentDirectoryAndName ParentDirectory Name s
     else Ok (STATUS_SUCCESS, ParentDirectory, Name, s));
  if FAILED Status then Ok (Status, None, s)
  else
    '(Status, o, s) ← ObpAllocateObject Mem (Some Type_) permanent s;
    if FAILED Status then Ok (Status, None, s)
    else
      let '(Status, b) := Callback OtherBody in
      s ← upd o (set_Body b) s;
      if FAILED Status then s ← ObpFreeObject o s; Ok (Status, None, s)
      else
        match ParentDirectory with
        | Some d =>
            if no_directory then Ok (STATUS_SUCCESS, Some o, s)
            else '(Status, s) ← ObLinkObject mem d o (Some Name) s; Ok (Status, Some o, s)
        | None => Ok (STATUS_SUCCESS, Some o, s)
        end.

(** [ObpInitializeDirectoryObject] : boron/source/ob/dir.c:418-427. *)
Definition ObpInitializeDirectoryObject (_ : body) : BSTATUS * body := (STATUS_SUCCESS, OBJECT_DIRECTORY [] 0).

(** [ObCreateDirectoryObject] : boron/source/ob/dir.c:429-459. *)
Definition ObCreateDirectoryObject (Mem : option Z) (mem : bool) (ParentDirectory : option Z) (Name : cstring) (permanent no_directory : bool) (s : ob)
  : outcome (BSTATUS * option Z * ob) :=
  '(Status, o, s) ← ObCreateObjectCallback Mem mem ParentDirectory (ObDirectoryType s) Name permanent no_directory ObpInitializeDirectoryObject s;
  if FAILED Status then Ok (Status, None, s) else Ok (STATUS_SUCCESS, o, s).

(** [ObpInitializeSymbolicLink] : boron/source/ob/link.c:101-115. *)
Definition ObpInitializeSymbolicLink (mem : bool) (LinkTarget : cstring) (_ : body) : BSTATUS * body :=
  if mem then (STATUS_SUCCESS, OBJECT_SYMLINK (Some LinkTarget)) else (STATUS_INSUFFICIENT_MEMORY, OBJECT_SYMLINK None).

(** [ObCreateSymbolicLinkObject] : boron/source/ob/link.c:117-168.
    [link_mem] is the memory for the path. *)
Definition ObCreateSymbolicLinkObject (Mem : option Z) (mem link_mem : bool) (LinkTarget ObjectName : cstring) (permanent no_directory : bool) (s : ob)
  : outcome (BSTATUS * option Z * ob) :=
  '(Status, Object, s) ← ObpLookUpObjectPath None LinkTarget None 0 no_flags s;
  if FAILED Status then Ok (Status, None, s)
  else
    s ← ObDereferenceObject Object s;
    '(Status, o, s) ← ObCreateObjectCallback Mem mem None (ObSymbolicLinkType s) ObjectName permanent no_directory
      (ObpInitializeSymbolicLink link_mem LinkTarget) s;
    if FAILED Status then Ok (Status, None, s) else Ok (STATUS_SUCCESS, o, s).

End lookup.

(** [ObCreateObjectType] : boron/source/ob/type.c:48-111.
    The name is checked, the type allocated, named and linked where there is a
    directory of types; the first type is its own type. *)
Definition ObCreateObjectType (Mem : option Z) (mem : bool) (TypeName : cstring) (s : ob) : outcome (BSTATUS * Z * ob) :=
  if bool_decide (OB_PATH_SEPARATOR ∈ TypeName) then Ok (STATUS_NAME_INVALID, 0, s)
  else
    '(Status, o, s) ← ObpAllocateObject Mem (ObObjectTypeType s) true s;
    if FAILED Status then Ok (Status, 0, s)
    else
      s ← upd o (set_Body (OBJECT_TYPE 0)) s;
      '(Status, s) ← ObpAssignName mem o TypeName s;
      if FAILED Status then s ← ObpFreeObject o s; Ok (Status, 0, s)
      else
        s ← match ObObjectTypeType s with
            | Some _ => Ok s
            | None =>
                s ← upd o (λ x, set_Body (OBJECT_TYPE 1) (set_ObjectType o x)) s;
                Ok (mkOb (Objects s) (ObpRootDirectory s) (ObpObjectTypesDirectory s) (ObpFileSystemRootLink s) (Some o)
                      (ObDirectoryType s) (ObSymbolicLinkType s) (IoFileType s))
            end;
        s ← match ObpObjectTypesDirectory s with
            | None => Ok s
            | Some d => '(_, s) ← ObLinkObject mem d o None s; Ok s
            end;
        Ok (STATUS_SUCCESS, o, s).

(** ** Paths as segments *)

Fixpoint first_segment (path : cstring) : cstring :=
  match path with [] => [] | c :: path => if c =? OB_PATH_SEPARATOR then [] else c :: first_segment path end.

Fixpoint after_segment (path : cstring) : cstring :=
  match path with [] => [] | c :: path => if c =? OB_PATH_SEPARATOR then path else after_segment path end.

(** The segments of a path; a separator at the end is not followed by one. *)
Fixpoint segments (path : cstring) : list cstring :=
  match path with
  | [] => []
  | c :: path =>
      if c =? OB_PATH_SEPARATOR then [] :: segments path
      else match segments path with [] => [[c]] | seg :: segs => (c :: seg) :: segs end
  end.

Lemma segments_cons path : path ≠ [] → segments path = first_segment path :: segments (after_segment path).
Proof.
  induction path as [|c path IH]; [done|]. intros _. cbn. destruct (c =? OB_PATH_SEPARATOR); [done|].
  destruct path as [|d path]; [done|]. by rewrite IH.
Qed.

Lemma after_segment_length path : path ≠ [] → (length (after_segment path) < length path)%nat.
Proof.
  induction path as [|c path IH]; [done|]. intros _. cbn. destruct (c =? OB_PATH_SEPARATOR); [lia|].
  destruct path as [|d path]; [cbn; lia|]. specialize (IH ltac:(done)). lia.
Qed.

Lemma drop_segment path : drop (length path - length (after_segment path)) path = after_segment path.
Proof.
  induction path as [|c path IH]; [done|]. cbn [after_segment]. destruct (c =? OB_PATH_SEPARATOR).
  - cbn [length]. replace (S (length path) - length path)%nat with 1%nat by lia. done.
  - assert (length (after_segment path) ≤ length path)%nat by (destruct path; [cbn; lia|apply Nat.lt_le_incl, after_segment_length; done]).
    cbn [length]. replace (S (length path) - length (after_segment path))%nat with (S (length path - length (after_segment path))) by lia.
    exact IH.
Qed.

Lemma match_loop_spec path : ∀ FileName n,
  ObMatchPathName_loop FileName path n =
    if decide (FileName = first_segment path) then (n + (length path - length (after_segment path)))%nat else 0%nat.
Proof.
  induction path as [|c path IH]; intros [|f FileName] n; cbn [ObMatchPathName_loop first_segment after_segment].
  - rewrite decide_True by done. cbn. lia.
  - by rewrite decide_False.
  - destruct (c =? OB_PATH_SEPARATOR); [|by rewrite decide_False]. rewrite decide_True by done. cbn [length]. lia.
  - destruct (Z.eqb_spec c OB_PATH_SEPARATOR) as [->|Hc].
    { rewrite decide_False by done. by destruct (f =? OB_PATH_SEPARATOR). }
    destruct (Z.eqb_spec f c) as [->|Hf]; cbn [andb negb].
    2: { by rewrite decide_False by congruence. }
    rewrite IH. destruct (decide (FileName = first_segment path)) as [->|Hne].
    + rewrite decide_True by done. cbn [length].
      assert (length (after_segment path) ≤ length path)%nat by (destruct path; [cbn; lia|apply Nat.lt_le_incl, after_segment_length; done]). lia.
    + by rewrite decide_False by congruence.
Qed.

(** A name is matched with the first segment of the path, and what is behind
    the matched part is the rest of it. *)
Lemma match_spec FileName path : path ≠ [] →
  (if (ObMatchPathName FileName path =? 0)%nat then first_segment path ≠ FileName
   else first_segment path = FileName ∧ drop (ObMatchPathName FileName path) path = after_segment path).
Proof.
  intros Hp. unfold ObMatchPathName. rewrite match_loop_spec. pose proof (after_segment_length path Hp).
  destruct (decide (FileName = first_segment path)) as [->|Hne].
  - rewrite (proj2 (Nat.eqb_neq _ _)) by lia. split; [done|]. apply drop_segment.
  - cbn. congruence.
Qed.

(** ** References *)

(** [s'] is [s] with one more reference for each object of [l]. *)
Record refd (l : list Z) (s s' : ob) : Prop := {
  rd_globals : s' = set_Objects (Objects s') s;
  rd_objects o : Objects s' !! o = (λ x, set_PointerCount (PointerCount x + count o l) x) <$> Objects s !! o;
}.

Lemma refd_nil s s' : refd [] s s' ↔ s' = s.
Proof.
  split.
  - intros [Hg Ho]. rewrite Hg. destruct s as [m]. unfold set_Objects. f_equal. apply map_eq. intros o. rewrite Ho.
    cbn. destruct (m !! o) as [[]|]; [|done]. cbn. f_equal. unfold set_PointerCount. cbn. f_equal. unfold count. cbn. lia.
  - intros ->. split; [by destruct s|]. intros o. destruct (Objects s !! o) as [[]|]; [|done]. cbn. f_equal.
    unfold set_PointerCount. cbn. f_equal. unfold count. cbn. lia.
Qed.

(** An object with a name. *)
Definition named (s : ob) (e : Z) : Prop := ∃ y n, Objects s !! e = Some y ∧ ObjectName y = Some n.

(** The bodies are those of the types, the directories list objects with
    names, every object is referenced, and there is a root. *)
Record ob_ok (s : ob) : Prop := {
  oo_count o x : Objects s !! o = Some x → 1 ≤ PointerCount x;
  oo_directory d x : Objects s !! d = Some x → ObjectType x = ObDirectoryType s →
    ∃ l c, Body x = OBJECT_DIRECTORY l c;
  oo_entries d x l c : Objects s !! d = Some x → Body x = OBJECT_DIRECTORY l c → ∀ e, e ∈ l → named s e;
  oo_link o x : Objects s !! o = Some x → ObjectType x = ObSymbolicLinkType s → ∃ p, Body x = OBJECT_SYMLINK p;
  oo_types : ObDirectoryType s ≠ ObSymbolicLinkType s;
  oo_root : ∃ r, ObpRootDirectory s = Some r ∧ is_Some (Objects s !! r);
  oo_file_root f : ObpFileSystemRootLink s = Some f → is_Some (Objects s !! f);
}.

(** No object has more than [n] references. *)
Definition few_refs (n : Z) (s : ob) : Prop := ∀ o x, Objects s !! o = Some x → PointerCount x ≤ n.

Lemma s32_small x : - 2 ^ 31 ≤ x < 2 ^ 31 → s32 x = x.
Proof.
  intros Hx. unfold s32, sext, wrap. change (2 ^ (32 - 1)) with (2 ^ 31).
  destruct (Z.ltb_spec x 0).
  - replace (x mod 2 ^ 32) with (x + 2 ^ 32) by (apply Z.mod_unique with (-1); lia).
    rewrite (proj2 (Z.ltb_ge _ _)) by lia. lia.
  - rewrite Z.mod_small by lia. by rewrite (proj2 (Z.ltb_lt _ _)) by lia.
Qed.

Section refd.
Context (s : ob) (Hok : ob_ok s) (Hfew : few_refs (2 ^ 30) s).

Lemma refd_lookup l s' o x : refd l s s' → Objects s !! o = Some x →
  Objects s' !! o = Some (set_PointerCount (PointerCount x + count o l) x).
Proof. intros Hr Ho. by rewrite (rd_objects _ _ _ Hr), Ho. Qed.

Lemma refd_type l s' o x : refd l s s' → Objects s !! o = Some x → ObpGetObjectType o s' = Ok (ObjectType x).
Proof. intros Hr Ho. unfold ObpGetObjectType, get. by rewrite (refd_lookup l s' o x Hr Ho). Qed.

Lemma refd_global l s' {A} (f : ob → A) : (∀ m s, f (set_Objects m s) = f s) → refd l s s' → f s' = f s.
Proof. intros Hf Hr. rewrite (rd_globals _ _ _ Hr). apply Hf. Qed.

Lemma reference_spec l s' o : refd l s s' → is_Some (Objects s !! o) → (length l < 1000)%nat →
  ∃ s'', ObReferenceObjectByPointer o s' = Ok s'' ∧ refd (o :: l) s s''.
Proof.
  intros Hr [x Hx] Hl. unfold ObReferenceObjectByPointer, upd, get. rewrite (refd_lookup l s' o x Hr Hx). cbn.
  eexists. split; [done|]. pose proof (count_range o l). pose proof (oo_count s Hok o x Hx). pose proof (Hfew o x Hx).
  split; [rewrite (rd_globals _ _ _ Hr); done|]. intros n. cbn. rewrite count_cons. destruct (decide (o = n)) as [<-|Hne].
  - rewrite lookup_insert_eq, Hx. cbn. f_equal. rewrite s32_small by lia. unfold set_PointerCount. cbn. f_equal. lia.
  - rewrite lookup_insert_ne by done. apply (rd_objects _ _ _ Hr).
Qed.

Lemma dereference_spec l s' o : refd (o :: l) s s' → is_Some (Objects s !! o) → (length l < 1000)%nat →
  ∃ s'', ObDereferenceObject o s' = Ok s'' ∧ refd l s s''.
Proof.
  intros Hr [x Hx] Hl. unfold ObDereferenceObject, upd, get. rewrite (refd_lookup _ s' o x Hr Hx). cbn.
  rewrite count_cons, decide_True by done. pose proof (count_range o l). pose proof (oo_count s Hok o x Hx). pose proof (Hfew o x Hx).
  rewrite (proj2 (Z.leb_le _ _)) by lia. cbn. rewrite (proj2 (Z.eqb_neq _ _)) by lia. cbn.
  eexists. split; [done|]. split; [rewrite (rd_globals _ _ _ Hr); done|]. intros n. cbn. destruct (decide (o = n)) as [<-|Hne].
  - rewrite lookup_insert_eq, Hx. cbn. f_equal. rewrite s32_small by lia. unfold set_PointerCount. cbn. f_equal. lia.
  - rewrite lookup_insert_ne by done. rewrite (rd_objects _ _ _ Hr), count_cons, decide_False by done. done.
Qed.

Lemma refd_perm l l' s' : l ≡ₚ l' → refd l s s' → refd l' s s'.
Proof.
  intros Hp [Hg Ho]. split; [done|]. intros o. rewrite Ho. unfold count. by rewrite (Permutation_count_occ Z.eq_dec l l') in Hp; rewrite Hp.
Qed.
End refd.

(** ** What a path means *)

(** The entry of a directory with a name: the first one. *)
Definition child (s : ob) (d : Z) (seg : cstring) : option Z :=
  match Body <$> Objects s !! d with
  | Some (OBJECT_DIRECTORY l _) => head (filter (λ e, (Objects s !! e ≫= ObjectName) = Some seg) l)
  | _ => None
  end.

Definition type_matches (ExpectedType : option Z) (t : Z) : bool := match ExpectedType with Some e => e =? t | None => true end.

(** From an object through the segments of a path, over at most [depth] objects;
    [follow] is what a symbolic link leads to. *)
Fixpoint resolve_segments (s : ob) (follow : cstring → BSTATUS + Z) (depth : nat) (ExpectedType : option Z) (OpenFlags : open_flags)
    (cur : Z) (segs : list cstring) : BSTATUS + Z :=
  match depth, Objects s !! cur with
  | O, _ => inl STATUS_PATH_TOO_DEEP
  | S _, None => inl STATUS_NAME_NOT_FOUND
  | S depth, Some x =>
      if ObjectType x =? ObDirectoryType s then
        match segs with
        | [] => inr cur
        | seg :: segs =>
            match child s cur seg with
            | None => inl STATUS_NAME_NOT_FOUND
            | Some e => resolve_segments s follow depth ExpectedType OpenFlags e segs
            end
        end
      else if (ObjectType x =? ObSymbolicLinkType s) && negb (bool_decide (segs = []) && OB_OPEN_SYMLINK OpenFlags) then
        match Body x with
        | OBJECT_SYMLINK (Some DestPath) =>
            match follow DestPath with
            | inl Status => inl Status
            | inr o => resolve_segments s follow depth ExpectedType OpenFlags o segs
            end
        | _ => inl STATUS_UNASSIGNED_LINK
        end
      else if bool_decide (segs ≠ []) then inl STATUS_PATH_INVALID
      else if type_matches ExpectedType (ObjectType x) then inr cur else inl STATUS_TYPE_MISMATCH
  end.

(** A path from an object, or from the root, with at most [loops] links that
    lead to each other. *)
Fixpoint resolve (s : ob) (loops : nat) (InitialParseObject : option Z) (ObjectName : cstring) (ExpectedType : option Z)
    (OpenFlags : open_flags) : BSTATUS + Z :=
  match loops with
  | O => inl STATUS_LOOP_TOO_DEEP
  | S loops =>
      match parse_start InitialParseObject ObjectName ExpectedType OpenFlags s with
      | Ok (STATUS_SUCCESS, o, path) =>
          resolve_segments s (λ DestPath, resolve s loops None DestPath None no_flags) 100 ExpectedType OpenFlags o (segments path)
      | Ok (Status, _, _) => inl Status
      | _ => inl STATUS_FAULT
      end
  end.

(** What a lookup that starts with the references [l] ends with. *)
Definition looked_up (s : ob) (l : list Z) (r : BSTATUS + Z) (out : outcome (BSTATUS * Z * ob)) : Prop :=
  match r with
  | inr o => is_Some (Objects s !! o) ∧ ∃ s', out = Ok (STATUS_SUCCESS, o, s') ∧ refd (o :: l) s s'
  | inl Status =>
      Status ≠ STATUS_SUCCESS ∧ ∃ leak s', out = Ok (Status, 0, s') ∧ refd (leak ++ l) s s' ∧
        (Status ≠ STATUS_PATH_TOO_DEEP → leak = []) ∧ (Status = STATUS_PATH_TOO_DEEP → ∃ o, leak = [o])
  end.

(** No object of the namespace is of a type of a driver that parses paths. *)
Definition plain (driver_parse : Z → option parse_func) (s : ob) : Prop := ∀ o x, Objects s !! o = Some x →
  ObjectType x ≠ ObDirectoryType s → ObjectType x ≠ ObSymbolicLinkType s → driver_parse (ObjectType x) = None.

Section lookup_spec.
Context (driver_parse : Z → option parse_func) (s : ob) (Hok : ob_ok s) (Hfew : few_refs (2 ^ 30) s).
Context (Hplain : plain driver_parse s).

Lemma look_up_entry_spec l' s' path : path ≠ [] → refd l' s s' → ∀ l,
  (∀ e, e ∈ l → ∃ y n, Objects s !! e = Some y ∧ ObjectName y = Some n) →
  look_up_entry l path s' =
    match head (filter (λ e, (Objects s !! e ≫= ObjectName) = Some (first_segment path)) l) with
    | Some e => Ok (Some (e, (length path - length (after_segment path))%nat))
    | None => Ok None
    end.
Proof.
  intros Hp Hr. induction l as [|e l IH]; intros Hl; [done|]. cbn [look_up_entry].
  destruct (Hl e) as (y & n & Hy & Hn); [by left|]. unfold get. rewrite (refd_lookup s l' s' e y Hr Hy).
  cbn [deref mbind outcome_bind]. cbn [ObjectName set_PointerCount]. rewrite Hn. cbn [deref mbind outcome_bind].
  assert ((Objects s !! e ≫= ObjectName) = Some n) as Hen by (by rewrite Hy). rewrite filter_cons.
  unfold ObMatchPathName. rewrite match_loop_spec. pose proof (after_segment_length path Hp).
  destruct (decide (n = first_segment path)) as [->|Hne].
  - rewrite (proj2 (Nat.eqb_neq _ _)) by lia. cbn [negb]. by rewrite decide_True.
  - rewrite Nat.eqb_refl. cbn [negb]. rewrite decide_False by congruence. apply IH. intros e' He'. apply Hl. by right.
Qed.

Lemma directory_body d x : Objects s !! d = Some x → ObjectType x = ObDirectoryType s → ∀ l s', refd l s s' →
  ∃ ls c, Body x = OBJECT_DIRECTORY ls c ∧ get_directory d s' = Ok (ls, c) ∧
    ∀ e, e ∈ ls → ∃ y n, Objects s !! e = Some y ∧ ObjectName y = Some n.
Proof.
  intros Hx Ht l s' Hr. destruct (oo_directory s Hok d x Hx Ht) as (ls & c & Hb). exists ls, c. split; [done|].
  split; [|exact (oo_entries s Hok d x ls c Hx Hb)].
  unfold get_directory, get. rewrite (refd_lookup s l s' d x Hr Hx). cbn. by rewrite Hb.
Qed.

Lemma child_in d seg e : child s d seg = Some e → ∃ x ls c, Objects s !! d = Some x ∧ Body x = OBJECT_DIRECTORY ls c ∧ e ∈ ls.
Proof.
  unfold child. destruct (Objects s !! d) as [x|]; [|done]. cbn. destruct (Body x) as [ls c| | |] eqn:Hb; try done.
  intros Hh. exists x, ls, c. split; [done|]. split; [done|]. apply head_Some_elem_of, list_elem_of_filter in Hh. by apply Hh.
Qed.

Lemma look_up_directory_spec l s' d x path : refd l s s' → Objects s !! d = Some x → ObjectType x = ObDirectoryType s → path ≠ [] →
  (length l < 1000)%nat →
  match child s d (first_segment path) with
  | Some e => is_Some (Objects s !! e) ∧ ∃ s'', ObpLookUpDirectoryEntry d path s' =
      Ok (STATUS_SUCCESS, e, (length path - length (after_segment path))%nat, s'') ∧ refd (e :: l) s s''
  | None => ObpLookUpDirectoryEntry d path s' = Ok (STATUS_NAME_NOT_FOUND, 0, 0%nat, s')
  end.
Proof.
  intros Hr Hx Ht Hp Hl. destruct (directory_body d x Hx Ht l s' Hr) as (ls & c & Hb & Hd & Hls).
  unfold ObpLookUpDirectoryEntry. rewrite Hd. cbn [mbind outcome_bind]. rewrite (look_up_entry_spec l s' path Hp Hr ls Hls).
  unfold child. rewrite Hx. cbn [fmap option_fmap option_map]. rewrite Hb.
  destruct (head _) as [e|] eqn:He; [|done]. cbn [mbind outcome_bind].
  apply head_Some_elem_of, list_elem_of_filter in He as [_ He]. destruct (Hls e He) as (y & n & Hy & _).
  split; [by eexists|]. destruct (reference_spec s Hok Hfew l s' e Hr) as (s'' & -> & Hr''); [by eexists|done|]. by exists s''.
Qed.

Lemma terminate_spec l s' o x ExpectedType : refd (o :: l) s s' → Objects s !! o = Some x → (length l < 1000)%nat →
  looked_up s l (if type_matches ExpectedType (ObjectType x) then inr o else inl STATUS_TYPE_MISMATCH)
    (TerminateParsing ExpectedType o (ObjectType x) s').
Proof.
  intros Hr Hx Hl. unfold TerminateParsing, type_matches.
  assert (is_Some (Objects s !! o)) as Hs by (by eexists).
  destruct ExpectedType as [t|]; [destruct (t =? ObjectType x)|]; cbn; [split; [done|]; by exists s'| |split; [done|]; by exists s'].
  split; [done|]. destruct (dereference_spec s Hok Hfew l s' o Hr Hs Hl) as (s'' & -> & Hr''). exists [], s''. by split_and!.
Qed.

(** A failure after the reference of the current object is dropped. *)
Lemma fail_spec l s' o Status : refd (o :: l) s s' → is_Some (Objects s !! o) → (length l < 1000)%nat →
  Status ≠ STATUS_SUCCESS → Status ≠ STATUS_PATH_TOO_DEEP →
  looked_up s l (inl Status) (s ← ObDereferenceObject o s'; Ok (Status, 0, s)).
Proof.
  intros Hr Hs Hl H1 H2. split; [done|]. destruct (dereference_spec s Hok Hfew l s' o Hr Hs Hl) as (s'' & -> & Hr''). exists [], s''. by split_and!.
Qed.

Lemma parse_path_spec loops follow ExpectedType OpenFlags l :
  (length l + loops + 2 < 1000)%nat →
  (∀ l' s' DestPath, refd l' s s' → (length l' ≤ S (length l))%nat → looked_up s l' (follow DestPath) (look_up_path driver_parse loops None DestPath None no_flags s')) →
  ∀ depth o path s', refd (o :: l) s s' → is_Some (Objects s !! o) →
  looked_up s l (resolve_segments s follow depth ExpectedType OpenFlags o (segments path))
    (parse_path (λ t, if t =? ObSymbolicLinkType s
          then Some (ObpParseSymbolicLink (λ DestPath, look_up_path driver_parse loops None DestPath None no_flags))
          else Parse ← driver_parse t; Some (λ o path, Parse o path (OB_MAX_LOOP - loops)%nat)) depth ExpectedType OpenFlags o path s').
Proof.
  intros Hl Hfollow. induction depth as [|depth IH]; intros o path s' Hr [x Hx]; cbn [resolve_segments parse_path].
  { split; [done|]. exists [o], s'. split_and!; [done|done|done|]. by exists o. }
  rewrite Hx, (refd_type s (o :: l) s' o x Hr Hx). cbn [mbind outcome_bind].
  rewrite (refd_global s (o :: l) s' ObDirectoryType) by done. rewrite (refd_global s (o :: l) s' ObSymbolicLinkType) by done.
  destruct (Z.eqb_spec (ObjectType x) (ObDirectoryType s)) as [Ht|Ht].
  - destruct path as [|c path']; [cbn; split; [by eexists|]; by exists s'|]. set (path := c :: path') in *.
    rewrite segments_cons by done. pose proof (look_up_directory_spec (o :: l) s' o x path Hr Hx Ht ltac:(done) ltac:(cbn; lia)) as Hlook.
    destruct (child s o (first_segment path)) as [e|].
    + destruct Hlook as (He & s1 & -> & Hr1). cbn [mbind outcome_bind].
      destruct (dereference_spec s Hok Hfew (e :: l) s1 o) as (s2 & -> & Hr2); [|by eexists|cbn; lia|].
      { eapply refd_perm; [apply Permutation_swap|done]. }
      cbn [mbind outcome_bind]. destruct (directory_body o x Hx Ht (e :: l) s2 Hr2) as (ls & cc & _ & -> & _). cbn [mbind outcome_bind].
      change (FAILED STATUS_SUCCESS) with false. cbn iota. unfold path at 2. fold path. rewrite drop_segment. by apply IH.
    + rewrite Hlook. cbn [mbind outcome_bind].
      destruct (dereference_spec s Hok Hfew l s' o Hr) as (s2 & -> & Hr2); [by eexists|lia|].
      cbn [mbind outcome_bind]. destruct (directory_body o x Hx Ht l s2 Hr2) as (ls & cc & _ & -> & _). cbn [mbind outcome_bind].
      split; [done|]. exists [], s2. by split_and!.
  - destruct (Z.eqb_spec (ObjectType x) (ObSymbolicLinkType s)) as [Hlk|Hlk]; cbn [andb].
    + destruct (oo_link s Hok o x Hx Hlk) as [p Hp].
      assert (bool_decide (segments path = []) = bool_decide (path = [])) as ->.
      { destruct path as [|c path]; [done|]. rewrite segments_cons by done. by rewrite !bool_decide_false. }
      destruct (bool_decide (path = []) && OB_OPEN_SYMLINK OpenFlags) eqn:Hend; cbn [negb].
      { bool_hyps. subst path. cbn [segments]. rewrite bool_decide_false by (by intros []). by apply terminate_spec; [..|lia]. }
      unfold ObpParseSymbolicLink, get. rewrite (refd_lookup s (o :: l) s' o x Hr Hx). cbn [deref mbind outcome_bind set_PointerCount Body].
      rewrite Hp. destruct p as [DestPath|]; cbn [mbind outcome_bind].
      * pose proof (Hfollow (o :: l) s' DestPath Hr ltac:(cbn; lia)) as Hf. destruct (follow DestPath) as [St|o'].
        -- destruct Hf as (HSt & leak & s1 & -> & Hr1 & Hl1 & Hl2). cbn [mbind outcome_bind].
           assert (FAILED St = true) as -> by (by apply bool_decide_true).
           destruct (dereference_spec s Hok Hfew (leak ++ l) s1 o) as (s2 & -> & Hr2).
           { eapply refd_perm; [symmetry; apply Permutation_middle|done]. }
           { by eexists. }
           { rewrite length_app. destruct (decide (St = STATUS_PATH_TOO_DEEP)) as [E|E]; [destruct (Hl2 E) as [? ->]|rewrite (Hl1 E)]; cbn; lia. }
           cbn. split; [done|]. by exists leak, s2.
        -- destruct Hf as (Ho' & s1 & -> & Hr1). cbn [mbind outcome_bind]. change (FAILED STATUS_SUCCESS) with false. cbn iota.
           destruct (dereference_spec s Hok Hfew (o' :: l) s1 o) as (s2 & -> & Hr2); [|by eexists|cbn; lia|].
           { eapply refd_perm; [apply Permutation_swap|done]. }
           cbn [mbind outcome_bind]. by apply IH.
      * change (FAILED STATUS_UNASSIGNED_LINK) with true. cbn iota. by apply fail_spec; [|eexists|lia|..].
    + rewrite (Hplain o x Hx Ht Hlk). cbn [mbind option_bind]. destruct path as [|c path].
      * cbn [segments]. rewrite bool_decide_false by (by intros []). by apply terminate_spec; [..|lia].
      * rewrite bool_decide_true by (by rewrite segments_cons). by apply fail_spec; [|eexists|lia|..].
Qed.

Lemma parse_start_refd l s' InitialParseObject Name ExpectedType OpenFlags : refd l s s' →
  parse_start InitialParseObject Name ExpectedType OpenFlags s' = parse_start InitialParseObject Name ExpectedType OpenFlags s.
Proof.
  intros Hr. unfold parse_start.
  rewrite (refd_global s l s' IoFileType), (refd_global s l s' ObpFileSystemRootLink), (refd_global s l s' ObpRootDirectory),
    (refd_global s l s' ObDirectoryType), (refd_global s l s' ObSymbolicLinkType) by done.
  assert (∀ o, ObpGetObjectType o s' = ObpGetObjectType o s) as Ht.
  { intros o. unfold ObpGetObjectType, get. rewrite (rd_objects _ _ _ Hr). by destruct (Objects s !! o). }
  destruct InitialParseObject as [o|]; [|done]. by rewrite Ht.
Qed.

(** The start exists. *)
Definition start_ok (InitialParseObject : option Z) : Prop :=
  match InitialParseObject with Some o => is_Some (Objects s !! o) | None => True end.

Lemma parse_start_spec InitialParseObject Name ExpectedType OpenFlags : start_ok InitialParseObject →
  (∃ o path, parse_start InitialParseObject Name ExpectedType OpenFlags s = Ok (STATUS_SUCCESS, o, path) ∧ is_Some (Objects s !! o)) ∨
  parse_start InitialParseObject Name ExpectedType OpenFlags s = Ok (STATUS_PATH_INVALID, 0, []).
Proof.
  intros Hi. unfold parse_start. destruct InitialParseObject as [o|].
  - destruct Name as [|c Name]; [by right|]. destruct (c =? OB_PATH_SEPARATOR); [by right|].
    destruct Hi as [x Hx]. unfold ObpGetObjectType, get. rewrite Hx. cbn.
    case_match; [left|by right]. exists o, (c :: Name). split; [done|by eexists].
  - destruct (oo_root s Hok) as (r & Hr & Hr').
    assert (∃ o, (if bool_decide (ExpectedType = Some (IoFileType s)) && bool_decide (ObpFileSystemRootLink s ≠ None)
        && OB_OPEN_USER_MODE OpenFlags && negb (OB_OPEN_OBJECT_NAMESPACE OpenFlags) then Ok (ObpFileSystemRootLink s) else Ok (ObpRootDirectory s)) = Ok (Some o) ∧
        is_Some (Objects s !! o)) as (o & -> & Ho).
    { destruct (_ && _) eqn:E; [|exists r; by rewrite Hr]. bool_hyps.
      destruct (ObpFileSystemRootLink s) as [f|] eqn:Hf; [|done]. exists f. split; [done|]. by apply (oo_file_root s Hok). }
    cbn [mbind outcome_bind]. destruct Name as [|c Name]; [by right|]. destruct (c =? OB_PATH_SEPARATOR); [left|by right].
    exists o, Name. by split.
Qed.

Lemma look_up_path_spec loops : ∀ l s' InitialParseObject Name ExpectedType OpenFlags,
  refd l s s' → (length l + loops + 2 < 1000)%nat → start_ok InitialParseObject →
  looked_up s l (resolve s loops InitialParseObject Name ExpectedType OpenFlags)
    (look_up_path driver_parse loops InitialParseObject Name ExpectedType OpenFlags s').
Proof.
  induction loops as [|loops IH]; intros l s' InitialParseObject Name ExpectedType OpenFlags Hr Hl Hi; cbn [resolve look_up_path].
  { split; [done|]. exists [], s'. by split_and!. }
  rewrite (parse_start_refd l s') by done.
  destruct (parse_start_spec InitialParseObject Name ExpectedType OpenFlags Hi) as [(o & path & -> & Ho)| ->]; cbn [mbind outcome_bind].
  - change (FAILED STATUS_SUCCESS) with false. cbn iota.
    destruct (reference_spec s Hok Hfew l s' o Hr Ho) as (s1 & -> & Hr1); [lia|]. cbn [mbind outcome_bind].
    rewrite (refd_global s (o :: l) s1 ObSymbolicLinkType) by done.
    apply parse_path_spec; [lia| |done|done].
    intros l' s2 DestPath Hr2 Hl'. apply IH; [done|lia|done].
  - change (FAILED STATUS_PATH_INVALID) with true. cbn iota. split; [done|]. exists [], s'. by split_and!.
Qed.

Lemma ObpLookUpObjectPath_spec InitialParseObject Name ExpectedType LoopCount OpenFlags :
  start_ok InitialParseObject →
  match resolve s (OB_MAX_LOOP - LoopCount) InitialParseObject Name ExpectedType OpenFlags with
  | inr o => is_Some (Objects s !! o) ∧
      ∃ s', ObpLookUpObjectPath driver_parse InitialParseObject Name ExpectedType LoopCount OpenFlags s = Ok (STATUS_SUCCESS, o, s') ∧ refd [o] s s'
  | inl Status => Status ≠ STATUS_SUCCESS ∧
      ∃ s', ObpLookUpObjectPath driver_parse InitialParseObject Name ExpectedType LoopCount OpenFlags s = Ok (Status, 0, s') ∧
        if decide (Status = STATUS_PATH_TOO_DEEP) then ∃ o, refd [o] s s' else s' = s
  end.
Proof.
  intros Hi. pose proof (look_up_path_spec (OB_MAX_LOOP - LoopCount) [] s InitialParseObject Name ExpectedType OpenFlags) as H.
  unfold looked_up in H. unfold ObpLookUpObjectPath.
  destruct (resolve _ _ _ _ _ _) as [St|o].
  - destruct H as (HSt & leak & s' & -> & Hr & H1 & H2); [by apply refd_nil|unfold OB_MAX_LOOP; cbn; lia|done|].
    split; [done|]. exists s'. split; [done|]. rewrite app_nil_r in Hr. case_decide as E.
    + destruct (H2 E) as [o ->]. by exists o.
    + rewrite (H1 E) in Hr. by apply refd_nil.
  - apply H; [by apply refd_nil|unfold OB_MAX_LOOP; cbn; lia|done].
Qed.

(** C10: A lookup finds what the path means: from the root or the given object
    through the directories by name, over symbolic links, at most 16 of them
    inside of each other, and over at most 100 objects at each level.  The
    found object has one reference more and no other count changes; the type is
    only compared with objects that are no directories.  When nothing is found
    all the counts are as before, except that a path that is too deep leaves
    one object with a reference that nobody drops. *)
Theorem ObpLookUpObjectPath_correct InitialParseObject Name ExpectedType LoopCount OpenFlags :
  start_ok InitialParseObject →
  match resolve s (OB_MAX_LOOP - LoopCount) InitialParseObject Name ExpectedType OpenFlags with
  | inr o => is_Some (Objects s !! o) ∧
      ∃ s', ObpLookUpObjectPath driver_parse InitialParseObject Name ExpectedType LoopCount OpenFlags s = Ok (STATUS_SUCCESS, o, s') ∧ refd [o] s s'
  | inl Status => Status ≠ STATUS_SUCCESS ∧
      ∃ s', ObpLookUpObjectPath driver_parse InitialParseObject Name ExpectedType LoopCount OpenFlags s = Ok (Status, 0, s') ∧
        if decide (Status = STATUS_PATH_TOO_DEEP) then ∃ o, refd [o] s s' else s' = s
  end.
Proof. apply ObpLookUpObjectPath_spec. Qed.

End lookup_spec.

(** ** What the operations keep *)

(** The body of an object is that of its type. *)
Definition body_ok (s : ob) (x : OBJECT) : Prop :=
  (ObjectType x = ObDirectoryType s → ∃ l c, Body x = OBJECT_DIRECTORY l c) ∧
  (∀ l c, Body x = OBJECT_DIRECTORY l c → ∀ e, e ∈ l → named s e) ∧
  (ObjectType x = ObSymbolicLinkType s → ∃ p, Body x = OBJECT_SYMLINK p).

Lemma ob_ok_body s o x : ob_ok s → Objects s !! o = Some x → body_ok s x.
Proof. intros Hok Hx. split_and!; [by apply (oo_directory s Hok o)|intros l c; exact (oo_entries s Hok o x l c Hx)|by apply (oo_link s Hok o)]. Qed.

(** Changing an object, or adding one, that keeps its name. *)
Lemma ob_ok_insert s o x : ob_ok s → 1 ≤ PointerCount x → body_ok s x →
  (∀ y, Objects s !! o = Some y → ObjectName y ≠ None → ObjectName x ≠ None) →
  ob_ok (set_Objects (<[o := x]> (Objects s)) s).
Proof.
  intros Hok Hc Hb Hn.
  assert (∀ e, named s e → named (set_Objects (<[o := x]> (Objects s)) s) e) as Hnamed.
  { intros e (y & n & Hy & Hyn). destruct (decide (e = o)) as [->|Hne].
    - specialize (Hn y Hy). rewrite Hyn in Hn. destruct (ObjectName x) as [nx|] eqn:E; [|by destruct Hn].
      exists x, nx. cbn. by rewrite lookup_insert_eq.
    - exists y, n. cbn. by rewrite lookup_insert_ne. }
  assert (∀ i y, Objects (set_Objects (<[o := x]> (Objects s)) s) !! i = Some y → 1 ≤ PointerCount y ∧ body_ok s y) as Hall.
  { intros i y Hy. cbn in Hy. destruct (decide (i = o)) as [->|Hne].
    - rewrite lookup_insert_eq in Hy. by injection Hy as <-.
    - rewrite lookup_insert_ne in Hy by done. split; [by apply (oo_count s Hok i)|by eapply ob_ok_body]. }
  assert (∀ i, is_Some (Objects s !! i) → is_Some (<[o := x]> (Objects s) !! i)) as Hdom.
  { intros i Hi. destruct (decide (i = o)) as [->|]; [by rewrite lookup_insert_eq; eexists|by rewrite lookup_insert_ne]. }
  split.
  - intros i y Hy. by apply (Hall i y).
  - intros d y Hy. by apply (Hall d y).
  - intros d y l c Hy Hl e He. destruct (Hall d y Hy) as (_ & _ & Hd & _). by apply Hnamed, (Hd l c).
  - intros i y Hy. by apply (Hall i y).
  - apply (oo_types s Hok).
  - destruct (oo_root s Hok) as (r & Hr & Hr'). exists r. split; [done|by apply Hdom].
  - intros f Hf. by apply Hdom, (oo_file_root s Hok).
Qed.

Lemma refd_ob_ok l s s' : ob_ok s → refd l s s' → ob_ok s'.
Proof.
  intros Hok [Hg Ho]. rewrite Hg. destruct Hok as [H1 H2 Hent H3 H4 H5 H6].
  assert (∀ i, is_Some (Objects s !! i) → is_Some (Objects s' !! i)) as Hdom.
  { intros i [x Hx]. rewrite Ho, Hx. by eexists. }
  split; cbn.
  - intros o x. rewrite Ho. intros (y & Hy & ->)%fmap_Some. cbn. pose proof (count_range o l). specialize (H1 o y Hy). lia.
  - intros d x. rewrite Ho. intros (y & Hy & ->)%fmap_Some Ht. exact (H2 d y Hy Ht).
  - intros d x ls c. rewrite Ho. intros (y & Hy & ->)%fmap_Some Hb e Hel. destruct (Hent d y ls c Hy Hb e Hel) as (z & n & Hz & Hn).
    unfold named. cbn. rewrite Ho, Hz. cbn. eexists _, n. by split.
  - intros o x. rewrite Ho. intros (y & Hy & ->)%fmap_Some Ht. by apply (H3 o y Hy Ht).
  - done.
  - destruct H5 as (r & Hr & Hr'). exists r. split; [done|by apply Hdom].
  - intros f Hf. by apply Hdom, H6.
Qed.

Lemma refd_few l s s' n : few_refs n s → refd l s s' → few_refs (n + Z.of_nat (length l)) s'.
Proof.
  intros Hf [_ Ho] o x. rewrite Ho. intros (y & Hy & ->)%fmap_Some. cbn. pose proof (count_range o l). specialize (Hf o y Hy). lia.
Qed.

Lemma refd_plain dp l s s' : plain dp s → refd l s s' → plain dp s'.
Proof.
  intros Hp Hr o x. rewrite (rd_objects _ _ _ Hr). intros (y & Hy & ->)%fmap_Some. cbn.
  rewrite (refd_global s l s' ObDirectoryType), (refd_global s l s' ObSymbolicLinkType) by done. by apply Hp with o.
Qed.

(** *** Linking *)

(** The names of entries. *)
Definition names (s : ob) (l : list Z) : list (option cstring) := (λ e, Objects s !! e ≫= ObjectName) <$> l.

Lemma name_taken_spec s Name : ∀ l, (∀ e, e ∈ l → named s e) →
  name_taken l (Some Name) s = Ok (bool_decide (Some Name ∈ names s l)).
Proof.
  induction l as [|e l IH]; intros Hl; cbn [name_taken].
  { by rewrite bool_decide_false by apply not_elem_of_nil. }
  destruct (Hl e) as (y & n & Hy & Hn); [by left|]. unfold get. rewrite Hy. cbn [deref mbind outcome_bind]. rewrite Hn.
  rewrite (bool_decide_true (Some n ≠ None)) by done. cbn [check mbind outcome_bind].
  unfold names. cbn [fmap list_fmap]. fold (names s l). assert ((Objects s !! e ≫= ObjectName) = Some n) as -> by (by rewrite Hy).
  destruct (decide (Some n = Some Name)) as [E|E].
  - rewrite !bool_decide_true; [done| |done]. rewrite E. by left.
  - rewrite (bool_decide_false (Some n = Some Name)) by done. rewrite IH by (intros; apply Hl; by right). f_equal. apply bool_decide_ext.
    rewrite elem_of_cons. split; [by right|]. by intros [?|?]; [congruence|].
Qed.

(** The name that an object is linked under. *)
Definition link_name (Header : OBJECT) (Name : option cstring) : option cstring :=
  match ObjectName Header with Some n => Some n | None => Name end.

Lemma child_spec s d x l c seg : Objects s !! d = Some x → Body x = OBJECT_DIRECTORY l c →
  child s d seg = head (filter (λ e, (Objects s !! e ≫= ObjectName) = Some seg) l).
Proof. intros Hx Hb. unfold child. rewrite Hx. cbn. by rewrite Hb. Qed.

Lemma filter_names s seg l : filter (λ e, (Objects s !! e ≫= ObjectName) = Some seg) l = [] ↔ Some seg ∉ names s l.
Proof.
  unfold names. rewrite list_elem_of_fmap. split.
  - intros Hf (e & Hn & He). assert (e ∈ filter (λ e, (Objects s !! e ≫= ObjectName) = Some seg) l) as Hin by (by apply list_elem_of_filter).
    rewrite Hf in Hin. by apply not_elem_of_nil in Hin.
  - intros Hno. destruct (filter _ l) as [|e l'] eqn:E; [done|]. exfalso. apply Hno. exists e.
    assert (e ∈ filter (λ e, (Objects s !! e ≫= ObjectName) = Some seg) l) as [? ?]%list_elem_of_filter by (rewrite E; by left). done.
Qed.

Lemma child_None s d x l c seg : Objects s !! d = Some x → Body x = OBJECT_DIRECTORY l c →
  child s d seg = None ↔ Some seg ∉ names s l.
Proof.
  intros Hx Hb. rewrite (child_spec s d x l c) by done. rewrite <-filter_names. by destruct (filter _ l).
Qed.

(** The state after an object got its name. *)
Definition with_name (o : Z) (Header : OBJECT) (n : cstring) (s : ob) : ob :=
  set_Objects (<[o := set_ObjectName (Some n) Header]> (Objects s)) s.

Lemma with_name_ok s o x n : ob_ok s → Objects s !! o = Some x → ob_ok (with_name o x n s).
Proof.
  intros Hok Hx. apply ob_ok_insert; [done|exact (oo_count s Hok o x Hx)|exact (ob_ok_body s o x Hok Hx)|done].
Qed.

(** Linking an object into a directory, from its parent and its name on. *)
Lemma link_tail s d o dx x n l c : ob_ok s → few_refs (2 ^ 30) s → Objects s !! d = Some dx → ObjectType dx = ObDirectoryType s →
  Body dx = OBJECT_DIRECTORY l c → Objects s !! o = Some x → ObjectName x = Some n → o ≠ d →
  ∃ s', (s ← upd d (set_Body (OBJECT_DIRECTORY (l ++ [o]) (s32 (c + 1)))) s;
         s ← ObReferenceObjectByPointer d s;
         s ← upd o (set_ParentDirectory (Some d)) s;
         Ok (STATUS_SUCCESS, s)) = Ok (STATUS_SUCCESS, s') ∧
    ob_ok s' ∧ s' = set_Objects (<[o := set_ParentDirectory (Some d) x]>
      (<[d := set_PointerCount (PointerCount dx + 1) (set_Body (OBJECT_DIRECTORY (l ++ [o]) (s32 (c + 1))) dx)]> (Objects s))) s.
Proof.
  intros Hok Hfew Hd Ht Hb Ho Hn Hne. unfold ObReferenceObjectByPointer, upd, get. rewrite Hd. cbn.
  rewrite lookup_insert_eq. cbn. rewrite lookup_insert_ne by done. rewrite lookup_insert_ne by done. rewrite Ho. cbn.
  pose proof (oo_count s Hok d dx Hd). pose proof (Hfew d dx Hd). rewrite s32_small by lia.
  set (dx' := set_PointerCount (PointerCount dx + 1) (set_Body (OBJECT_DIRECTORY (l ++ [o]) (s32 (c + 1))) dx)).
  exists (set_Objects (<[o := set_ParentDirectory (Some d) x]> (<[d := dx']> (Objects s))) s).
  split; [by rewrite insert_insert_eq|]. split; [|done].
  assert (ob_ok (set_Objects (<[d := dx']> (Objects s)) s)) as Hok1.
  { apply ob_ok_insert; [done|cbn; lia| |cbn; congruence]. destruct (ob_ok_body s d dx Hok Hd) as (_ & Hdir & _). split_and!.
    - intros _. by eexists _, _.
    - cbn. intros l' c' [= <- <-] e [He|He]%elem_of_app; [by apply (Hdir l c)|].
      apply list_elem_of_singleton in He as ->. by exists x, n.
    - cbn. intros E. rewrite Ht in E. by destruct (oo_types s Hok). }
  set (s1 := set_Objects (<[d := dx']> (Objects s)) s) in *.
  assert (ob_ok (set_Objects (<[o := set_ParentDirectory (Some d) x]> (Objects s1)) s1)) as H'; [|exact H'].
  apply (ob_ok_insert s1 o (set_ParentDirectory (Some d) x)).
  - done.
  - exact (oo_count s Hok o x Ho).
  - assert (Objects (set_Objects (<[d := dx']> (Objects s)) s) !! o = Some x) as Ho' by (cbn; by rewrite lookup_insert_ne).
    exact (ob_ok_body _ o x Hok1 Ho').
  - cbn. rewrite lookup_insert_ne by done. intros y Hy. rewrite Ho in Hy. by injection Hy as <-.
Qed.

(** An entry more in a directory. *)
Definition add_entry (o : Z) (x : OBJECT) : OBJECT :=
  match Body x with OBJECT_DIRECTORY l c => set_Body (OBJECT_DIRECTORY (l ++ [o]) (s32 (c + 1))) x | _ => x end.

(** What becomes of the object [i], when [o] is linked into [d] as [n]. *)
Definition linked_object (d o : Z) (n : cstring) (i : Z) (x : OBJECT) : OBJECT :=
  if decide (i = o) then set_ParentDirectory (Some d) (set_ObjectName (Some n) x)
  else if decide (i = d) then set_PointerCount (PointerCount x + 1) (add_entry o x) else x.

(** What linking an object does to the namespace. *)
Record linked (s : ob) (d o : Z) (n : cstring) (s' : ob) : Prop := {
  ln_ok : ob_ok s';
  ln_globals : s' = set_Objects (Objects s') s;
  ln_few k : few_refs k s → few_refs (k + 1) s';
  ln_child : child s' d n = Some o;
  ln_other d' seg : (d', seg) ≠ (d, n) → child s' d' seg = child s d' seg;
  ln_object : ∃ x, Objects s' !! o = Some x ∧ ObjectName x = Some n ∧ ParentDirectory x = Some d;
  ln_directory : (PointerCount <$> Objects s' !! d) = (λ x, PointerCount x + 1) <$> Objects s !! d;
  ln_types i : (ObjectType <$> Objects s' !! i) = (ObjectType <$> Objects s !! i);
  ln_objects i : Objects s' !! i = linked_object d o n i <$> Objects s !! i;
}.

(** The names of the objects whose name did not change. *)
Lemma child_same s s' d seg : (Body <$> Objects s' !! d) = (Body <$> Objects s !! d) →
  (∀ x l c e, Objects s !! d = Some x → Body x = OBJECT_DIRECTORY l c → e ∈ l →
    (Objects s' !! e ≫= ObjectName) = (Objects s !! e ≫= ObjectName)) →
  child s' d seg = child s d seg.
Proof.
  intros Hb Hn. unfold child. rewrite Hb. destruct (Objects s !! d) as [x|]; [|done]. cbn.
  destruct (Body x) as [l c| | |] eqn:E; try done. f_equal. apply filter_same. intros e He. by rewrite (Hn x l c e).
Qed.

Lemma with_name_child s o x n d seg : ob_ok s → Objects s !! o = Some x → (ObjectName x = None ∨ ObjectName x = Some n) →
  child (with_name o x n s) d seg = child s d seg.
Proof.
  intros Hok Hx Hn. apply child_same; unfold with_name; cbn.
  - destruct (decide (d = o)) as [->|]; [by rewrite lookup_insert_eq, Hx|by rewrite lookup_insert_ne].
  - intros y l c e Hy Hb He. destruct (decide (e = o)) as [->|]; [|by rewrite lookup_insert_ne].
    rewrite lookup_insert_eq, Hx. cbn. destruct (oo_entries s Hok d y l c Hy Hb o He) as (z & m & Hz & Hm).
    rewrite Hx in Hz. injection Hz as <-. destruct Hn; congruence.
Qed.

Lemma set_ObjectName_same n x : ObjectName x = Some n → set_ObjectName (Some n) x = x.
Proof. destruct x. cbn. by intros ->. Qed.

Lemma link_spec s d o dx x n l c : ob_ok s → few_refs (2 ^ 30) s → Objects s !! d = Some dx → ObjectType dx = ObDirectoryType s →
  Body dx = OBJECT_DIRECTORY l c → Objects s !! o = Some x → ObjectName x = Some n → o ≠ d → Some n ∉ names s l →
  ∃ s', (s ← upd d (set_Body (OBJECT_DIRECTORY (l ++ [o]) (s32 (c + 1)))) s;
         s ← ObReferenceObjectByPointer d s;
         s ← upd o (set_ParentDirectory (Some d)) s;
         Ok (STATUS_SUCCESS, s)) = Ok (STATUS_SUCCESS, s') ∧ linked s d o n s'.
Proof.
  intros Hok Hfew Hd Ht Hb Ho Hn Hne Hno.
  destruct (link_tail s d o dx x n l c Hok Hfew Hd Ht Hb Ho Hn Hne) as (s' & -> & Hok' & Hs'). exists s'. split; [done|].
  assert (∀ e, (Objects s' !! e ≫= ObjectName) = (Objects s !! e ≫= ObjectName)) as Hnames.
  { intros e. rewrite Hs'. cbn. destruct (decide (e = o)) as [->|]; [by rewrite lookup_insert_eq, Ho|].
    rewrite lookup_insert_ne by done. destruct (decide (e = d)) as [->|]; [by rewrite lookup_insert_eq, Hd|by rewrite lookup_insert_ne]. }
  assert (child s' d n = Some o ∧ ∀ seg, seg ≠ n → child s' d seg = child s d seg) as [Hc Hc'].
  { assert (Objects s' !! d = Some (set_PointerCount (PointerCount dx + 1) (set_Body (OBJECT_DIRECTORY (l ++ [o]) (s32 (c + 1))) dx))) as Hd'
      by (rewrite Hs'; cbn; by rewrite lookup_insert_ne, lookup_insert_eq by done).
    assert (∀ seg, filter (λ e, (Objects s' !! e ≫= ObjectName) = Some seg) l = filter (λ e, (Objects s !! e ≫= ObjectName) = Some seg) l) as Hf
      by (intros seg; apply filter_same; intros e _; by rewrite Hnames).
    split; [|intros seg Hseg]; rewrite (child_spec s' d _ _ _ _ Hd' eq_refl), filter_app, Hf.
    - rewrite (proj2 (filter_names s n l)) by done. cbn [app]. by rewrite filter_cons_True by (by rewrite Hnames, Ho).
    - rewrite filter_cons_False by (rewrite Hnames, Ho; cbn; congruence). rewrite filter_nil, app_nil_r. symmetry. exact (child_spec s d dx l c seg Hd Hb). }
  split; try done.
  - by rewrite Hs'.
  - intros k Hk i y Hy. rewrite Hs' in Hy. cbn in Hy. destruct (decide (i = o)) as [->|].
    + rewrite lookup_insert_eq in Hy. injection Hy as <-. cbn. specialize (Hk o x Ho). lia.
    + rewrite lookup_insert_ne in Hy by done. destruct (decide (i = d)) as [->|].
      * rewrite lookup_insert_eq in Hy. injection Hy as <-. cbn. specialize (Hk d dx Hd). lia.
      * rewrite lookup_insert_ne in Hy by done. specialize (Hk i y Hy). lia.
  - intros d' seg Hds. destruct (decide (d' = d)) as [->|Hd']; [apply Hc'; congruence|].
    apply child_same; [|intros; apply Hnames]. rewrite Hs'. cbn. destruct (decide (d' = o)) as [->|].
    + by rewrite lookup_insert_eq, Ho.
    + by rewrite !lookup_insert_ne by done.
  - exists (set_ParentDirectory (Some d) x). rewrite Hs'. cbn. by rewrite lookup_insert_eq.
  - rewrite Hs'. cbn. rewrite lookup_insert_ne, lookup_insert_eq, Hd by done. done.
  - intros i. rewrite Hs'. cbn. destruct (decide (i = o)) as [->|]; [by rewrite lookup_insert_eq, Ho|].
    rewrite lookup_insert_ne by done. destruct (decide (i = d)) as [->|]; [by rewrite lookup_insert_eq, Hd|by rewrite lookup_insert_ne].
  - intros i. rewrite Hs'. unfold linked_object. cbn. destruct (decide (i = o)) as [->|].
    { rewrite lookup_insert_eq, Ho. cbn. by rewrite set_ObjectName_same. }
    rewrite lookup_insert_ne by done. destruct (decide (i = d)) as [->|]; [|rewrite lookup_insert_ne by done; by destruct (Objects s !! i)].
    rewrite lookup_insert_eq, Hd. cbn. unfold add_entry. by rewrite Hb.
Qed.

(** An object that now has a name is linked, unless the name is taken. *)
Lemma link_entry_spec s d o dx x n : ob_ok s → few_refs (2 ^ 30) s →
  Objects s !! d = Some dx → ObjectType dx = ObDirectoryType s → Objects s !! o = Some x → o ≠ d →
  ObjectName x = None ∨ ObjectName x = Some n →
  match child s d n with
  | Some _ => link_entry d o (with_name o x n s) = Ok (STATUS_NAME_COLLISION, with_name o x n s)
  | None => ∃ s', link_entry d o (with_name o x n s) = Ok (STATUS_SUCCESS, s') ∧ linked s d o n s'
  end.
Proof.
  intros Hok Hfew Hd Ht Ho Hne Hn. destruct (oo_directory s Hok d dx Hd Ht) as (l & c & Hb). set (s1 := with_name o x n s).
  pose proof (with_name_ok s o x n Hok Ho) as Hok1. fold s1 in Hok1.
  assert (Objects s1 !! o = Some (set_ObjectName (Some n) x)) as Ho1 by (unfold s1, with_name; cbn; by rewrite lookup_insert_eq).
  assert (Objects s1 !! d = Some dx) as Hd1 by (unfold s1, with_name; cbn; by rewrite lookup_insert_ne).
  assert (∀ k, few_refs k s → few_refs k s1) as Hfew1.
  { intros k Hk i y. unfold s1, with_name. cbn. destruct (decide (i = o)) as [->|].
    - rewrite lookup_insert_eq. intros [= <-]. exact (Hk o x Ho).
    - rewrite lookup_insert_ne by done. apply Hk. }
  unfold link_entry, get, get_directory. rewrite Ho1. cbn [deref mbind outcome_bind]. unfold get. rewrite Hd1. cbn [deref mbind outcome_bind]. rewrite Hb.
  cbn [mbind outcome_bind]. cbn [ObjectName set_ObjectName].
  rewrite name_taken_spec by (apply (oo_entries s1 Hok1 d dx l c Hd1 Hb)). cbn [mbind outcome_bind].
  rewrite <-(with_name_child s o x n d n Hok Ho Hn). fold s1. pose proof (child_None s1 d dx l c n Hd1 Hb) as Hcn.
  destruct (child s1 d n) as [e|] eqn:Hc; [case_bool_decide as Hin; [done|by apply Hcn in Hin]|].
  rewrite bool_decide_false by (by apply Hcn).
  destruct (link_spec s1 d o dx (set_ObjectName (Some n) x) n l c Hok1 (Hfew1 _ Hfew) Hd1 Ht Hb Ho1 eq_refl Hne (proj1 Hcn eq_refl))
    as (s' & -> & [L1 L2 L3 L4 L5 L6 L7 L8 L9]). exists s'. split; [done|]. split; try done.
  - intros k Hk. by apply L3, Hfew1.
  - intros d' seg Hds. rewrite L5 by done. by apply with_name_child.
  - rewrite L7, Hd1, Hd. done.
  - intros i. rewrite L8. unfold s1, with_name. cbn. destruct (decide (i = o)) as [->|]; [by rewrite lookup_insert_eq, Ho|by rewrite lookup_insert_ne].
  - intros i. rewrite L9. destruct (decide (i = o)) as [->|]; [|unfold s1, with_name; cbn; by rewrite lookup_insert_ne].
    rewrite Ho1, Ho. unfold linked_object. cbn. by rewrite !decide_True.
Qed.

(** Linking, on every branch. *)
Lemma ObLinkObject_spec mem s d o dx x Name : ob_ok s → few_refs (2 ^ 30) s →
  Objects s !! d = Some dx → ObjectType dx = ObDirectoryType s → Objects s !! o = Some x → o ≠ d →
  match ParentDirectory x, link_name x Name with
  | Some _, _ => ObLinkObject mem d o Name s = Ok (STATUS_ALREADY_LINKED, s)
  | None, None => ObLinkObject mem d o Name s = Ok (STATUS_INVALID_PARAMETER, s)
  | None, Some n =>
      if bool_decide (ObjectName x = None) && negb mem then ObLinkObject mem d o Name s = Ok (STATUS_INSUFFICIENT_MEMORY, s)
      else
        match child s d n with
        | Some _ => ObLinkObject mem d o Name s = Ok (STATUS_NAME_COLLISION, with_name o x n s)
        | None => ∃ s', ObLinkObject mem d o Name s = Ok (STATUS_SUCCESS, s') ∧ linked s d o n s'
        end
  end.
Proof.
  intros Hok Hfew Hd Ht Ho Hne. pose proof (λ n, link_entry_spec s d o dx x n Hok Hfew Hd Ht Ho Hne) as Hlink.
  unfold ObLinkObject, get. rewrite Ho. cbn [deref mbind outcome_bind].
  destruct (ParentDirectory x) eqn:Hp; [by rewrite bool_decide_true|]. rewrite (bool_decide_false (None ≠ None)) by (intros E; by apply E).
  unfold link_name. destruct (ObjectName x) as [n|] eqn:Hn.
  - rewrite bool_decide_false by done. cbn [andb mbind outcome_bind]. change (FAILED STATUS_SUCCESS) with false. cbn iota.
    assert (with_name o x n s = s) as Hs1.
    { unfold with_name. replace (set_ObjectName (Some n) x) with x by (destruct x; cbn in *; by rewrite Hn).
      rewrite insert_id by done. by destruct s. }
    specialize (Hlink n (or_intror eq_refl)). rewrite Hs1 in *. exact Hlink.
  - destruct Name as [n|]; [|done]. rewrite bool_decide_true by done. cbn [andb]. unfold ObpAssignName, upd, get. rewrite !Ho. cbn [deref mbind outcome_bind].
    rewrite Hp, Hn. destruct mem; cbn [negb]; [|done]. exact (Hlink n (or_introl eq_refl)).
Qed.

(** ** Creating objects *)

Lemma split_name_copy Name f : ∀ i acc, (i ≤ length Name)%nat → split_name i Name true acc f = (true, take i Name ++ acc, f).
Proof.
  induction i as [|i IH]; intros acc Hi; [done|]. cbn [split_name]. rewrite IH by lia. f_equal. f_equal.
  destruct (lookup_lt_is_Some_2 Name i) as [c Hc]; [lia|]. rewrite Hc. cbn. rewrite (take_S_r _ _ _ Hc), <-app_assoc. done.
Qed.

Lemma split_name_none Name : OB_PATH_SEPARATOR ∉ Name → ∀ i, (i ≤ length Name)%nat → split_name i Name false [] 0 = (false, [], 0%nat).
Proof.
  intros Hno. induction i as [|i IH]; intros Hi; [done|]. cbn [split_name].
  destruct (lookup_lt_is_Some_2 Name i) as [c Hc]; [lia|]. rewrite Hc. cbn.
  rewrite (proj2 (Z.eqb_neq c OB_PATH_SEPARATOR)); [apply IH; lia|]. intros ->. by apply Hno, list_elem_of_lookup_2 with i.
Qed.

(** The name is split at the last separator. *)
Lemma split_name_some pre post : OB_PATH_SEPARATOR ∉ post →
  split_name (length (pre ++ OB_PATH_SEPARATOR :: post)) (pre ++ OB_PATH_SEPARATOR :: post) false [] 0 = (true, pre, S (length pre)).
Proof.
  intros Hno. set (Name := pre ++ OB_PATH_SEPARATOR :: post).
  assert (∀ k, (k ≤ length post)%nat → split_name (length pre + 1 + k) Name false [] 0 = (true, pre, S (length pre))) as H.
  { induction k as [|k IH]; intros Hk.
    - replace (length pre + 1 + 0)%nat with (S (length pre)) by lia. cbn [split_name].
      assert (Name !! length pre = Some OB_PATH_SEPARATOR) as -> by (unfold Name; by rewrite list_lookup_middle).
      cbn. rewrite split_name_copy by (unfold Name; rewrite length_app; lia). unfold Name. rewrite take_app_length, app_nil_r. do 2 f_equal. lia.
    - replace (length pre + 1 + S k)%nat with (S (length pre + 1 + k)) by lia. cbn [split_name].
      assert (Name !! (length pre + 1 + k)%nat = post !! k) as ->.
      { unfold Name. rewrite lookup_app_r by lia. replace (length pre + 1 + k - length pre)%nat with (S k) by lia. done. }
      destruct (lookup_lt_is_Some_2 post k) as [c Hc]; [lia|]. rewrite Hc. cbn.
      rewrite (proj2 (Z.eqb_neq c OB_PATH_SEPARATOR)); [apply IH; lia|]. intros ->. by apply Hno, list_elem_of_lookup_2 with k. }
  rewrite <-(H (length post)) by done. f_equal. unfold Name. rewrite length_app. cbn. lia.
Qed.

(** Where a name leads: to the directory [d] and the last part [n]. *)
Inductive names_entry (s : ob) (d : Z) (Name : cstring) : BSTATUS + (Z * cstring) → Prop :=
  | entry_here : Name ≠ [] → OB_PATH_SEPARATOR ∉ Name → names_entry s d Name (inr (d, Name))
  | entry_below pre post d' : pre ≠ [] → head pre ≠ Some OB_PATH_SEPARATOR → Name = pre ++ OB_PATH_SEPARATOR :: post → OB_PATH_SEPARATOR ∉ post →
      resolve s OB_MAX_LOOP (Some d) pre (Some (ObDirectoryType s)) no_flags = inr d' →
      names_entry s d Name (inr (d', post)).

Lemma names_entry_head s d Name r : names_entry s d Name r → Name ≠ [] ∧ head Name ≠ Some OB_PATH_SEPARATOR.
Proof.
  intros [Hn Hs|pre post d' Hp Hh -> _ _].
  - split; [done|]. destruct Name as [|c Name]; [done|]. cbn. intros [= ->]. apply Hs. by left.
  - destruct pre as [|c pre]; [done|]. done.
Qed.

(** The directory that is referenced when a name with separators is taken apart. *)
Definition referenced (Name : cstring) (d' : Z) : list Z := if decide (OB_PATH_SEPARATOR ∈ Name) then [d'] else [].

Lemma referenced_length Name d' : (length (referenced Name d') ≤ 1)%nat.
Proof. unfold referenced. case_decide; cbn; lia. Qed.

Lemma ObpNormalize_spec dp s d Name d' n : ob_ok s → few_refs (2 ^ 30) s → plain dp s → is_Some (Objects s !! d) →
  names_entry s d Name (inr (d', n)) → Z.of_nat (length Name) < OB_MAX_PATH_LENGTH - 1 →
  ∃ s', ObpNormalizeParentDirectoryAndName dp (Some d) Name s = Ok (STATUS_SUCCESS, Some d', n, s') ∧ refd (referenced Name d') s s'.
Proof.
  intros Hok Hfew Hplain Hd He Hlen. pose proof (names_entry_head s d Name _ He) as [Hne Hh].
  unfold ObpNormalizeParentDirectoryAndName. destruct Name as [|c Name'] eqn:HN; [done|]. rewrite <-HN in *.
  rewrite (bool_decide_false (Some d = None)) by done. cbn [andb]. rewrite bool_decide_false by done.
  rewrite (proj2 (Z.leb_gt _ _)) by lia. inversion He as [_ Hs|pre post d'' Hp Hph HN' Hpost Hr]; subst.
  - rewrite split_name_none by done. exists s. split; [done|]. unfold referenced. rewrite decide_False by done. by apply refd_nil.
  - rewrite HN', split_name_some by done. destruct pre as [|c' pre]; [done|].
    pose proof (ObpLookUpObjectPath_spec dp s Hok Hfew Hplain (Some d) (c' :: pre) (Some (ObDirectoryType s)) 0 no_flags Hd) as Hl.
    rewrite Nat.sub_0_r in Hl. rewrite Hr in Hl. destruct Hl as (_ & s' & -> & Hr'). cbn [mbind outcome_bind].
    change (FAILED STATUS_SUCCESS) with false. cbn iota. exists s'. unfold referenced. rewrite decide_True by (apply elem_of_app; right; by left). split; [|done].
    do 3 f_equal. rewrite drop_app_ge by (cbn; lia). by replace (S (length (c' :: pre)) - length (c' :: pre))%nat with 1%nat by lia.
Qed.

(** The body that a callback makes for an object of a type. *)
Definition new_body_ok (s : ob) (t : Z) (b : body) : Prop :=
  (t = ObDirectoryType s → ∃ c, b = OBJECT_DIRECTORY [] c) ∧
  (t = ObSymbolicLinkType s → ∃ p, b = OBJECT_SYMLINK p) ∧
  (t ≠ ObDirectoryType s → ∀ l c, b ≠ OBJECT_DIRECTORY l c).

(** An object more of a type. *)
Definition count_object (x : OBJECT) : OBJECT :=
  match Body x with OBJECT_TYPE n => set_Body (OBJECT_TYPE (s32 (n + 1))) x | _ => x end.

(** [s'] has a new object. *)
Record created (s : ob) (o t : Z) (permanent : bool) (b : body) (s' : ob) : Prop := {
  cr_ok : ob_ok s';
  cr_globals : s' = set_Objects (Objects s') s;
  cr_few k : 1 ≤ k → few_refs k s → few_refs k s';
  cr_new : Objects s' !! o = Some (mkObject permanent None None t 1 0 b);
  cr_child d seg : d ≠ o → child s' d seg = child s d seg;
  cr_types i : i ≠ o → (ObjectType <$> Objects s' !! i) = (ObjectType <$> Objects s !! i);
  cr_bodies i x l c : i ≠ o → Objects s !! i = Some x → Body x = OBJECT_DIRECTORY l c → Objects s' !! i = Some x;
  cr_objects i : i ≠ o → Objects s' !! i = (if decide (i = t) then count_object else id) <$> Objects s !! i;
}.

Lemma ObpAllocateObject_spec s o t permanent b : ob_ok s → Objects s !! o = None → is_Some (Objects s !! t) → new_body_ok s t b →
  ∃ s1 s', ObpAllocateObject (Some o) (Some t) permanent s = Ok (STATUS_SUCCESS, o, s1) ∧
    upd o (set_Body b) s1 = Ok s' ∧ created s o t permanent b s'.
Proof.
  intros Hok Ho [tx Ht] Hb. unfold ObpAllocateObject, upd, get. rewrite Ht. cbn [deref mbind outcome_bind].
  set (tx' := match Body tx with OBJECT_TYPE n => set_Body (OBJECT_TYPE (s32 (n + 1))) tx | _ => tx end).
  assert (ObjectType tx' = ObjectType tx ∧ ObjectName tx' = ObjectName tx ∧ PointerCount tx' = PointerCount tx ∧
    (∀ l c, Body tx' = OBJECT_DIRECTORY l c ↔ Body tx = OBJECT_DIRECTORY l c) ∧ (∀ p, Body tx' = OBJECT_SYMLINK p ↔ Body tx = OBJECT_SYMLINK p)) as (E1 & E2 & E3 & E4 & E5).
  { unfold tx'. destruct (Body tx) eqn:E; split_and!; try done; intros; cbn; rewrite ?E; done. }
  set (s1 := set_Objects (<[t := tx']> (Objects s)) s).
  assert (ob_ok s1) as Hok1.
  { apply ob_ok_insert; [done|rewrite E3; by apply (oo_count s Hok t)| |rewrite E2; intros y Hy; rewrite Ht in Hy; by injection Hy as <-].
    destruct (ob_ok_body s t tx Hok Ht) as (B1 & B2 & B3). split_and!; rewrite ?E1.
    - intros E. destruct (B1 E) as (l & c & Hl). exists l, c. by apply E4.
    - intros l c Hl. apply (B2 l c). by apply E4.
    - intros E. destruct (B3 E) as (p & Hp). exists p. by apply E5. }
  assert (t ≠ o) as Hto by congruence.
  assert (Objects s1 !! o = None) as Ho1 by (unfold s1; cbn; by rewrite lookup_insert_ne).
  eexists _, _. split; [done|]. cbn [Objects set_Objects]. rewrite lookup_insert_eq. split; [done|]. cbn [deref mbind outcome_bind].
  rewrite insert_insert_eq. cbn. set (x := mkObject permanent None None t 1 0 b).
  assert (ob_ok (set_Objects (<[o := x]> (Objects s1)) s1)) as Hok2.
  { apply ob_ok_insert; [done|cbn; lia| |intros y Hy; congruence]. destruct Hb as (B1 & B2 & B3). split_and!; cbn.
    - intros E. destruct (B1 E) as [c ->]. by eexists _, _.
    - intros l c ->. destruct (decide (t = ObDirectoryType s)) as [E|E]; [|by destruct (B3 E l c)].
      destruct (B1 E) as [c' [= -> ->]]. intros e He. by apply not_elem_of_nil in He.
    - exact B2. }
  split.
  - exact Hok2.
  - done.
  - intros k Hk Hf i y. cbn. destruct (decide (i = o)) as [->|]; [rewrite lookup_insert_eq; intros [= <-]; cbn; lia|].
    rewrite lookup_insert_ne by done. destruct (decide (i = t)) as [->|].
    + rewrite lookup_insert_eq. intros [= <-]. rewrite E3. by apply (Hf t).
    + rewrite lookup_insert_ne by done. apply Hf.
  - cbn. by rewrite lookup_insert_eq.
  - intros d seg Hd. unfold child. cbn. rewrite lookup_insert_ne by done.
    assert ((match Body <$> <[t:=tx']> (Objects s) !! d with Some (OBJECT_DIRECTORY l c) => Some l | _ => None end) =
      (match Body <$> Objects s !! d with Some (OBJECT_DIRECTORY l c) => Some l | _ => None end)) as Hl.
    { destruct (decide (d = t)) as [->|]; [|by rewrite lookup_insert_ne]. rewrite lookup_insert_eq, Ht. cbn.
      destruct (Body tx) as [l c| | |] eqn:E; [by rewrite (proj2 (E4 l c) eq_refl)|..];
        destruct (Body tx') as [l' c'| | |] eqn:E'; try done; by pose proof (proj1 (E4 l' c') eq_refl). }
    assert (∀ e, e ≠ o → ((<[o:=x]> (<[t:=tx']> (Objects s)) !! e) ≫= ObjectName) = (Objects s !! e ≫= ObjectName)) as Hn.
    { intros e He. rewrite lookup_insert_ne by done. destruct (decide (e = t)) as [->|]; [rewrite lookup_insert_eq, Ht; cbn; by rewrite E2|by rewrite lookup_insert_ne]. }
    destruct (Objects s !! d) as [dx|] eqn:Hdx.
    2: { assert (<[t:=tx']> (Objects s) !! d = None) as -> by (apply lookup_insert_None; split; congruence). done. }
    assert (∀ l c, Body dx = OBJECT_DIRECTORY l c → head (filter (λ e, ((<[o:=x]> (<[t:=tx']> (Objects s)) !! e) ≫= ObjectName) = Some seg) l) =
      head (filter (λ e, (Objects s !! e ≫= ObjectName) = Some seg) l)) as Hf.
    { intros l c Hbd. f_equal. apply filter_same. intros e He. rewrite Hn; [done|]. intros ->.
      destruct (oo_entries s Hok d dx l c Hdx Hbd o He) as (y & m & Hy & _). congruence. }
    revert Hl. destruct (<[t:=tx']> (Objects s) !! d) as [dx'|] eqn:Hdx'; cbn.
    2: { apply lookup_insert_None in Hdx' as [Hdx' _]. congruence. }
    destruct (Body dx') as [l' c'| | |] eqn:Eb', (Body dx) as [l c| | |] eqn:Eb; try done. intros [= ->]. by apply (Hf l c).
  - intros i Hi. cbn. rewrite lookup_insert_ne by done. destruct (decide (i = t)) as [->|]; [by rewrite lookup_insert_eq, Ht; cbn; rewrite E1|by rewrite lookup_insert_ne].
  - intros i y l c Hi Hy Hby. cbn. rewrite lookup_insert_ne by done. destruct (decide (i = t)) as [->|]; [|by rewrite lookup_insert_ne].
    rewrite lookup_insert_eq. rewrite Ht in Hy. injection Hy as <-. unfold tx'. by rewrite Hby.
  - intros i Hi. cbn. rewrite lookup_insert_ne by done. destruct (decide (i = t)) as [->|].
    + rewrite lookup_insert_eq, Ht. done.
    + rewrite lookup_insert_ne by done. by rewrite option_fmap_id.
Qed.

Lemma refd_child l s s' d seg : refd l s s' → child s' d seg = child s d seg.
Proof.
  intros [_ Ho]. apply child_same; [|intros _ _ _ e _ _ _]; rewrite Ho; [by destruct (Objects s !! d)|by destruct (Objects s !! e)].
Qed.

(** What a creation under the name [Name] makes of the object [i] that was there
    before: the type counts an object more, the directory of the entry has a
    reference more, when it was looked up, which nobody gives back. *)
Definition created_object (Name : cstring) (d' t : Z) (i : Z) (x : OBJECT) : OBJECT :=
  (if decide (i = t) then count_object else id) (set_PointerCount (PointerCount x + count i (referenced Name d')) x).

(** What a creation does to the namespace that succeeds: one entry more, of an
    object with one reference; every other object is as it was, but for the
    entry and its reference in the directory, and what is said above. *)
Record entered (s : ob) (Name : cstring) (d o : Z) (n : cstring) (t : Z) (permanent : bool) (b : body) (s' : ob) : Prop := {
  en_ok : ob_ok s';
  en_few k : 1 ≤ k → few_refs k s → few_refs (k + 2) s';
  en_child : child s' d n = Some o;
  en_other d' seg : d' ≠ o → (d', seg) ≠ (d, n) → child s' d' seg = child s d' seg;
  en_types i : i ≠ o → (ObjectType <$> Objects s' !! i) = (ObjectType <$> Objects s !! i);
  en_type : (ObjectType <$> Objects s' !! o) = Some t;
  en_empty seg : b = OBJECT_DIRECTORY [] 0 → child s' o seg = None;
  en_globals : s' = set_Objects (Objects s') s;
  en_new : Objects s' !! o = Some (mkObject permanent (Some n) (Some d) t 1 0 b);
  en_objects i : i ≠ o → Objects s' !! i = linked_object d o n i ∘ created_object Name d t i <$> Objects s !! i;
}.

(** What one does that finds the name taken: an object with a reference, though
    nothing leads to it; the directories are as they were. *)
Record leaked (s : ob) (Name : cstring) (d o : Z) (n : cstring) (t : Z) (permanent : bool) (b : body) (s' : ob) : Prop := {
  lk_ok : ob_ok s';
  lk_object : Objects s' !! o = Some (mkObject permanent (Some n) None t 1 0 b);
  lk_child d seg : d ≠ o → child s' d seg = child s d seg;
  lk_globals : s' = set_Objects (Objects s') s;
  lk_objects i : i ≠ o → Objects s' !! i = created_object Name d t i <$> Objects s !! i;
}.

Section create.
Context (dp : Z → option parse_func) (s : ob) (Hok : ob_ok s) (Hfew : few_refs (2 ^ 30 - 1) s) (Hplain : plain dp s).
Context (d : Z) (Name : cstring) (d' : Z) (n : cstring) (Hd : is_Some (Objects s !! d)) (Hentry : names_entry s d Name (inr (d', n)))
  (Hlen : Z.of_nat (length Name) < OB_MAX_PATH_LENGTH - 1) (Hd' : (ObjectType <$> Objects s !! d') = Some (ObDirectoryType s)).
Context (o t : Z) (Ho : Objects s !! o = None) (Htype : is_Some (Objects s !! t)).

Lemma ObCreateObjectCallback_spec permanent Callback b : Callback OtherBody = (STATUS_SUCCESS, b) → new_body_ok s t b →
  let r := ObCreateObjectCallback dp (Some o) true (Some d) t Name permanent false Callback s in
  match child s d' n with
  | None => ∃ s', r = Ok (STATUS_SUCCESS, Some o, s') ∧ entered s Name d' o n t permanent b s'
  | Some _ => ∃ s', r = Ok (STATUS_NAME_COLLISION, Some o, s') ∧ leaked s Name d' o n t permanent b s'
  end.
Proof.
  intros HC Hb r. unfold r, ObCreateObjectCallback. destruct (oo_root s Hok) as (root & Hroot & _).
  rewrite Hroot. rewrite (bool_decide_true (Some root ≠ None)) by done. cbn [negb andb].
  destruct (ObpNormalize_spec dp s d Name d' n) as (s1 & -> & Hr1); [done| |done..|].
  { intros i x Hx. specialize (Hfew i x Hx). lia. }
  set (l := referenced Name d') in Hr1. pose proof (referenced_length Name d') as Hl. fold l in Hl.
  cbn [mbind outcome_bind]. change (FAILED STATUS_SUCCESS) with false. cbn iota.
  pose proof (refd_ob_ok l s s1 Hok Hr1) as Hok1.
  assert (Objects s1 !! o = None) as Ho1 by (rewrite (rd_objects _ _ _ Hr1), Ho; done).
  assert (is_Some (Objects s1 !! t)) as Ht1 by (rewrite (rd_objects _ _ _ Hr1); destruct Htype as [x ->]; by eexists).
  assert (new_body_ok s1 t b) as Hb1.
  { unfold new_body_ok. rewrite (refd_global s l s1 ObDirectoryType), (refd_global s l s1 ObSymbolicLinkType) by done. exact Hb. }
  destruct (ObpAllocateObject_spec s1 o t permanent b Hok1 Ho1 Ht1 Hb1) as (s2 & s3 & -> & Hupd & [C1 C2 C3 C4 C5 C6 C7 C8]).
  cbn [mbind outcome_bind]. change (FAILED STATUS_SUCCESS) with false. cbn iota. rewrite HC, Hupd.
  cbn [mbind outcome_bind]. change (FAILED STATUS_SUCCESS) with false. cbn iota.
  assert (d' ≠ o) as Hne by (intros ->; rewrite Ho in Hd'; done).
  assert ((ObjectType <$> Objects s3 !! d') = Some (ObDirectoryType s3)) as Hd3.
  { rewrite C6, (rd_objects _ _ _ Hr1) by done. rewrite C2, (rd_globals _ _ _ Hr1). cbn. destruct (Objects s !! d'); exact Hd'. }
  assert (∀ k, 1 ≤ k → few_refs k s → few_refs (k + 1) s3) as Hfew3.
  { intros k Hk Hf. apply C3; [lia|]. intros i x Hx. pose proof (refd_few l s s1 k Hf Hr1 i x Hx). lia. }
  apply fmap_Some in Hd3 as (dx & Hdx & Hdt).
  pose proof (ObLinkObject_spec true s3 d' o dx _ (Some n) C1 (Hfew3 (2 ^ 30 - 1) ltac:(lia) Hfew) Hdx (eq_sym Hdt) C4 (not_eq_sym Hne)) as Hlink.
  cbn in Hlink. fold (ObLinkObject true d' o (Some n) s3) in Hlink.
  assert (∀ d2 seg, d2 ≠ o → child s3 d2 seg = child s d2 seg) as Hchild.
  { intros d2 seg Hd2. rewrite C5 by done. by apply refd_child with l. }
  assert (∀ i, i ≠ o → Objects s3 !! i = created_object Name d' t i <$> Objects s !! i) as Hobj.
  { intros i Hi. rewrite C8, (rd_objects _ _ _ Hr1), <-option_fmap_compose by done. done. }
  rewrite Hchild in Hlink by done. destruct (child s d' n) as [e|] eqn:Hc.
  - rewrite Hlink. cbn [mbind outcome_bind]. eexists. split; [done|]. split.
    + by apply with_name_ok.
    + unfold with_name. cbn. by rewrite lookup_insert_eq.
    + intros d2 seg Hd2. rewrite with_name_child; [by apply Hchild|done|done|by left].
    + unfold with_name. rewrite C2, (rd_globals _ _ _ Hr1). done.
    + intros i Hi. unfold with_name. cbn. rewrite lookup_insert_ne by done. by apply Hobj.
  - destruct Hlink as (s4 & -> & [L1 L2 L3 L4 L5 L6 L7 L8 L9]). cbn [mbind outcome_bind]. exists s4. split; [done|]. split.
    + done.
    + intros k Hk Hf. replace (k + 2) with (k + 1 + 1) by lia. by apply L3, Hfew3.
    + done.
    + intros d2 seg Hd2 Hds. rewrite L5 by done. by apply Hchild.
    + intros i Hi. rewrite L8, C6, (rd_objects _ _ _ Hr1) by done. by destruct (Objects s !! i).
    + rewrite L8, C4. done.
    + intros seg ->. rewrite L5 by congruence. unfold child. by rewrite C4.
    + rewrite L2, C2, (rd_globals _ _ _ Hr1). done.
    + rewrite L9, C4. unfold linked_object. cbn. by rewrite decide_True.
    + intros i Hi. rewrite L9, Hobj, <-option_fmap_compose by done. done.
Qed.

End create.

(** The path of a name without separators leads to the entry of that name. *)
Lemma segments_name n : n ≠ [] → OB_PATH_SEPARATOR ∉ n → segments n = [n].
Proof.
  intros Hn Hs. induction n as [|c n IH]; [done|]. cbn. destruct (Z.eqb_spec c OB_PATH_SEPARATOR) as [->|]; [destruct Hs; by left|].
  destruct n as [|c' n]; [done|]. rewrite IH; [done|done|]. intros ?. apply Hs. by right.
Qed.

Lemma resolve_entry s d n o x follow depth : (ObjectType <$> Objects s !! d) = Some (ObDirectoryType s) → child s d n = Some o →
  Objects s !! o = Some x → ObjectType x ≠ ObSymbolicLinkType s →
  resolve_segments s follow (S (S depth)) None no_flags d [n] = inr o.
Proof.
  intros (dx & Hdx & Hdt)%fmap_Some Hc Ho Ht. cbn [resolve_segments]. rewrite Hdx, <-Hdt, Z.eqb_refl, Hc, Ho.
  destruct (Z.eqb_spec (ObjectType x) (ObDirectoryType s)); [done|].
  by rewrite (proj2 (Z.eqb_neq _ _)).
Qed.

Lemma resolve_name s d n o x loops : (ObjectType <$> Objects s !! d) = Some (ObDirectoryType s) → n ≠ [] → OB_PATH_SEPARATOR ∉ n →
  child s d n = Some o → Objects s !! o = Some x → ObjectType x ≠ ObSymbolicLinkType s →
  resolve s (S loops) (Some d) n None no_flags = inr o.
Proof.
  intros Hd Hn Hs Hc Ho Ht. cbn [resolve]. assert (parse_start (Some d) n None no_flags s = Ok (STATUS_SUCCESS, d, n)) as ->.
  { unfold parse_start, ObpGetObjectType, get. apply fmap_Some in Hd as (dx & -> & Hdt). destruct n as [|c n]; [done|].
    destruct (Z.eqb_spec c OB_PATH_SEPARATOR) as [->|]; [destruct Hs; by left|]. cbn. by rewrite <-Hdt, Z.eqb_refl. }
  rewrite segments_name by done. by apply (resolve_entry s d n o x _ 98).
Qed.

Section create_directory.
Context (dp : Z → option parse_func) (s : ob) (Hok : ob_ok s) (Hfew : few_refs (2 ^ 29) s) (Hplain : plain dp s).
Context (d : Z) (Name : cstring) (d' : Z) (n : cstring) (Hd : is_Some (Objects s !! d)) (Hentry : names_entry s d Name (inr (d', n)))
  (Hlen : Z.of_nat (length Name) < OB_MAX_PATH_LENGTH - 1) (Hd' : (ObjectType <$> Objects s !! d') = Some (ObDirectoryType s)).
Context (o : Z) (Ho : Objects s !! o = None) (Htype : is_Some (Objects s !! ObDirectoryType s)).

(** C12: In a namespace without objects of drivers that parse paths, and with
    memory for it, a directory that is created in a directory that is there,
    under a name that is free, is then the entry of that name, empty, with one
    reference, and a lookup of the name returns it; the containing directory has this entry more and the reference of the
    entry, the type of directories counts an object more, and every other object
    is exactly as it was.  But when the name has separators, the containing
    directory is also left with a reference that nobody gives back.  Under a
    name that is taken the creation fails and no directory changes, but the new
    object stays allocated with a reference that the caller is not given, and
    counted; the reference to the containing directory is lost here too. *)
Theorem ObCreateDirectoryObject_correct permanent : n ≠ [] →
  let r := ObCreateDirectoryObject dp (Some o) true (Some d) Name permanent false s in
  match child s d' n with
  | None => ∃ s', r = Ok (STATUS_SUCCESS, Some o, s') ∧ entered s Name d' o n (ObDirectoryType s) permanent (OBJECT_DIRECTORY [] 0) s' ∧
      ∃ s'', ObReferenceObjectByName dp n (Some d') no_flags None s' = Ok (STATUS_SUCCESS, o, s'') ∧ refd [o] s' s''
  | Some _ => ∃ s', r = Ok (STATUS_NAME_COLLISION, None, s') ∧ leaked s Name d' o n (ObDirectoryType s) permanent (OBJECT_DIRECTORY [] 0) s'
  end.
Proof.
  intros Hn r. unfold r, ObCreateDirectoryObject.
  assert (new_body_ok s (ObDirectoryType s) (OBJECT_DIRECTORY [] 0)) as Hb.
  { split_and!; [by eexists|intros E; by destruct (oo_types s Hok)|done]. }
  assert (few_refs (2 ^ 30 - 1) s) as Hfew' by (intros i x Hx; specialize (Hfew i x Hx); lia).
  pose proof (ObCreateObjectCallback_spec dp s Hok Hfew' Hplain d Name d' n Hd Hentry Hlen Hd' o _ Ho Htype permanent
    ObpInitializeDirectoryObject _ eq_refl Hb) as H.
  cbn zeta in H. destruct (child s d' n) as [e|].
  { destruct H as (s' & -> & Hl). cbn. by exists s'. }
  destruct H as (s' & -> & He). cbn [mbind outcome_bind]. change (FAILED STATUS_SUCCESS) with false. cbn iota.
  exists s'. split; [done|]. split; [done|]. pose proof He as [E1 E2 E3 E4 E5 E6 E7 E8 _ _].
  assert (d' ≠ o) as Hne by (intros ->; rewrite Ho in Hd'; done).
  assert (Hdt : ObDirectoryType s' = ObDirectoryType s) by (by rewrite E8).
  assert ((ObjectType <$> Objects s' !! d') = Some (ObDirectoryType s')) as Hd1 by (by rewrite Hdt, E5).
  assert ((ObjectType <$> Objects s' !! o) = Some (ObDirectoryType s')) as Ho1 by (by rewrite Hdt).
  assert (plain dp s') as Hp'.
  { intros i x Hx Hnd Hnl. destruct (decide (i = o)) as [->|Hi]; [rewrite Hx in Ho1; cbn in Ho1; congruence|].
    specialize (E5 i Hi). rewrite Hx in E5. symmetry in E5. apply fmap_Some in E5 as (y & Hy & Hyt).
    rewrite Hyt. apply (Hplain i); [done|congruence|]. rewrite <-Hyt. intros E. apply Hnl. by rewrite E8. }
  assert (few_refs (2 ^ 30) s') as Hf'.
  { intros i x Hx. pose proof (E2 (2 ^ 29) ltac:(lia) Hfew i x Hx). lia. }
  assert (OB_PATH_SEPARATOR ∉ n) as Hsep by (by inversion Hentry).
  pose proof Ho1 as (ox & Hox & Hoxt)%fmap_Some. pose proof (resolve_name s' d' n o ox 15 Hd1 Hn Hsep E3 Hox) as Hres.
  rewrite <-Hoxt in Hres. specialize (Hres (oo_types s' E1)).
  unfold ObReferenceObjectByName.
  pose proof (ObpLookUpObjectPath_spec dp s' E1 Hf' Hp' (Some d') n None 0 no_flags) as Hl. change (OB_MAX_LOOP - 0)%nat with (S 15) in Hl. rewrite Hres in Hl.
  apply Hl. cbn. apply fmap_Some in Hd1 as (y & -> & _). by eexists.
Qed.

End create_directory.

(** Linking into a directory, on every branch: an object that is linked
    anywhere is refused; one without any name is; a name that the directory has
    already is refused too, though the object keeps it; otherwise the name leads
    to the object, the directory has one reference more, and no other entry of
    any directory changes. *)
Theorem ObLinkObject_correct mem s d o dx x Name : ob_ok s → few_refs (2 ^ 30) s →
  Objects s !! d = Some dx → ObjectType dx = ObDirectoryType s → Objects s !! o = Some x → o ≠ d →
  match ParentDirectory x, link_name x Name with
  | Some _, _ => ObLinkObject mem d o Name s = Ok (STATUS_ALREADY_LINKED, s)
  | None, None => ObLinkObject mem d o Name s = Ok (STATUS_INVALID_PARAMETER, s)
  | None, Some n =>
      if bool_decide (ObjectName x = None) && negb mem then ObLinkObject mem d o Name s = Ok (STATUS_INSUFFICIENT_MEMORY, s)
      else
        match child s d n with
        | Some _ => ObLinkObject mem d o Name s = Ok (STATUS_NAME_COLLISION, with_name o x n s)
        | None => ∃ s', ObLinkObject mem d o Name s = Ok (STATUS_SUCCESS, s') ∧ linked s d o n s'
        end
  end.
Proof. apply ObLinkObject_spec. Qed.

(** *** Unlinking and deleting *)

Lemma find_entry_spec o l fuel : find_entry fuel l o =
  match l with [] => Ok false | e :: _ => if decide (e = o) then Ok true else OutOfFuel end.
Proof.
  destruct l as [|e l]; [by destruct fuel|]. induction fuel as [|fuel IH]; cbn [find_entry]; destruct (Z.eqb_spec e o).
  - by rewrite decide_True. - by rewrite decide_False. - by rewrite decide_True. - exact IH.
Qed.

(** What unlinking does in a debug build: the first entry of a directory is
    taken out of the list, but goes on counting as linked and cannot be linked
    again; for any other entry the search does not end, with the directory's
    mutex held; in an empty directory the assertion fails. *)
Theorem ObUnlinkObject_correct fuel s o x d dx l c : Objects s !! o = Some x → ParentDirectory x = Some d →
  Objects s !! d = Some dx → Body dx = OBJECT_DIRECTORY l c → o ≠ d → 1 < PointerCount dx < 2 ^ 31 →
  match l with
  | [] => ObUnlinkObject fuel o s = Crash
  | e :: l' =>
      if decide (e = o) then
        ∃ s', ObUnlinkObject fuel o s = Ok (STATUS_SUCCESS, s') ∧
          (Body <$> Objects s' !! d) = Some (OBJECT_DIRECTORY (filter (λ e, e ≠ o) l') (s32 (c - 1))) ∧
          (PointerCount <$> Objects s' !! d) = Some (PointerCount dx - 1) ∧ Objects s' !! o = Some x ∧
          ∀ mem d' Name, ObLinkObject mem d' o Name s' = Ok (STATUS_ALREADY_LINKED, s')
      else ObUnlinkObject fuel o s = OutOfFuel
  end.
Proof.
  intros Ho Hp Hd Hb Hne Hc. unfold ObUnlinkObject, ObpRemoveObjectFromDirectory, get_directory, get. rewrite Ho. cbn [deref mbind outcome_bind]. rewrite Hp, Hd.
  cbn [deref mbind outcome_bind]. rewrite Hb. cbn [mbind outcome_bind]. rewrite find_entry_spec. destruct l as [|e l]; [done|].
  case_decide as He; [subst e|done]. cbn [mbind outcome_bind check]. unfold ObDereferenceObject, upd, get. rewrite Hd. cbn [deref mbind outcome_bind].
  rewrite filter_cons_False by (intros H; by apply H). cbn [Objects set_Objects]. rewrite lookup_insert_eq. cbn [deref mbind outcome_bind].
  cbn [PointerCount set_Body]. rewrite (proj2 (Z.leb_le _ _)), (proj2 (Z.eqb_neq _ _)) by lia. cbn [check mbind outcome_bind negb Objects set_Objects].
  rewrite lookup_insert_eq. cbn [deref mbind outcome_bind Body set_Body set_PointerCount].
  rewrite insert_insert_eq. eexists. split; [done|]. cbn [Objects set_Objects]. rewrite lookup_insert_eq. cbn. rewrite (s32_small (PointerCount dx - 1)) by lia.
  rewrite lookup_insert_ne by done. split_and!; [done..|]. intros mem d' Name. unfold ObLinkObject, get. cbn. rewrite lookup_insert_ne by done.
  rewrite Ho. cbn. by rewrite Hp, bool_decide_true.
Qed.

Lemma look_up_entry_dangling s s' n o : n ≠ [] → OB_PATH_SEPARATOR ∉ n →
  Objects s' !! o = None → (∀ e, e ≠ o → (Objects s' !! e ≫= ObjectName) = (Objects s !! e ≫= ObjectName)) →
  ∀ l, (∀ e, e ∈ l → named s e) → head (filter (λ e, (Objects s !! e ≫= ObjectName) = Some n) l) = Some o →
  look_up_entry l n s' = Crash.
Proof.
  intros Hn Hs Ho Hsame. induction l as [|e l IH]; intros Hl Hh; [done|]. cbn [look_up_entry]. unfold get.
  destruct (Hl e) as (y & m & Hy & Hm); [by left|].
  destruct (decide (m = n)) as [->|Hmn].
  { rewrite filter_cons_True in Hh by (by rewrite Hy). injection Hh as ->. by rewrite Ho. }
  rewrite filter_cons_False in Hh by (rewrite Hy; cbn; congruence).
  destruct (decide (e = o)) as [->|Heo]; [by rewrite Ho|]. specialize (Hsame e Heo). rewrite Hy in Hsame. cbn in Hsame. rewrite Hm in Hsame.
  destruct (Objects s' !! e) as [y'|]; [|done]. cbn in Hsame. cbn [deref mbind outcome_bind]. rewrite Hsame. cbn [deref mbind outcome_bind].
  pose proof (match_spec m n Hn) as Hmt.
  assert (first_segment n = n) as Hfs by (pose proof (segments_name n Hn Hs) as E; rewrite segments_cons in E by done; by injection E).
  destruct (ObMatchPathName m n =? 0)%nat; [|destruct Hmt; congruence]. apply IH; [|done]. intros i Hi. apply Hl. by right.
Qed.

(** A directory that lists freed memory under the name [n]. *)
Lemma parse_path_dangling parse depth ExpectedType OpenFlags s d dx l c n : n ≠ [] →
  Objects s !! d = Some dx → ObjectType dx = ObDirectoryType s → Body dx = OBJECT_DIRECTORY l c → look_up_entry l n s = Crash →
  parse_path parse (S depth) ExpectedType OpenFlags d n s = Crash.
Proof.
  intros Hn Hd Ht Hb Hl. cbn [parse_path]. unfold ObpGetObjectType, get. rewrite Hd. cbn [deref mbind outcome_bind].
  rewrite Ht, Z.eqb_refl. destruct n as [|c' n]; [done|].
  unfold ObpLookUpDirectoryEntry, get_directory, get. rewrite Hd. cbn [deref mbind outcome_bind]. rewrite Hb. cbn [mbind outcome_bind]. by rewrite Hl.
Qed.

Lemma look_up_path_dangling dp loops ExpectedType OpenFlags s d dx l c n : n ≠ [] → OB_PATH_SEPARATOR ∉ n →
  Objects s !! d = Some dx → ObjectType dx = ObDirectoryType s → Body dx = OBJECT_DIRECTORY l c →
  (∀ s', (∀ e, (ObjectName <$> Objects s' !! e) = (ObjectName <$> Objects s !! e)) → look_up_entry l n s' = Crash) →
  look_up_path dp (S loops) (Some d) n ExpectedType OpenFlags s = Crash.
Proof.
  intros Hn Hs Hd Ht Hb Hl. cbn [look_up_path].
  assert (parse_start (Some d) n ExpectedType OpenFlags s = Ok (STATUS_SUCCESS, d, n)) as ->.
  { unfold parse_start, ObpGetObjectType, get. rewrite Hd. destruct n as [|c' n]; [done|].
    destruct (Z.eqb_spec c' OB_PATH_SEPARATOR) as [->|]; [destruct Hs; by left|]. cbn. by rewrite Ht, Z.eqb_refl. }
  cbn [mbind outcome_bind]. change (FAILED STATUS_SUCCESS) with false. cbn iota.
  unfold ObReferenceObjectByPointer at 1, upd, get. rewrite Hd. cbn [deref mbind outcome_bind].
  apply (parse_path_dangling _ 99 _ _ _ d (set_PointerCount (s32 (PointerCount dx + 1)) dx) l c); [done| |done|done|].
  - cbn. by rewrite lookup_insert_eq.
  - apply Hl. intros e. cbn. destruct (decide (e = d)) as [->|]; [by rewrite lookup_insert_eq, Hd|by rewrite lookup_insert_ne].
Qed.

(** A directory does not hold references to its entries: dropping the last
    reference of an object that is linked and not permanent frees it, and the
    next lookup of its name reads the freed memory. *)
Theorem ObDereferenceObject_dangling dp s d o n x : ob_ok s → (ObjectType <$> Objects s !! d) = Some (ObDirectoryType s) →
  child s d n = Some o → n ≠ [] → OB_PATH_SEPARATOR ∉ n →
  Objects s !! o = Some x → PointerCount x = 1 → Permanent x = false → o ≠ d →
  ∃ s', ObDereferenceObject o s = Ok s' ∧ ObReferenceObjectByName dp n (Some d) no_flags None s' = Crash.
Proof.
  intros Hok (dx & Hd & Hdt)%fmap_Some Hc Hn Hs Ho H1 Hp Hne. unfold ObDereferenceObject, upd, get. rewrite Ho. cbn [deref mbind outcome_bind].
  rewrite H1, Hp. cbn [check Z.leb Z.compare Pos.compare Pos.compare_cont Z.eqb Pos.eqb negb mbind outcome_bind]. unfold ObpDeleteObject, ObpFreeObject, get.
  cbn [Objects set_Objects]. rewrite lookup_insert_eq. cbn [deref mbind outcome_bind Permanent set_PointerCount]. rewrite Hp.
  change (1 <=? 1) with true. change (1 =? 1) with true. cbn [check mbind outcome_bind negb]. rewrite delete_insert_eq. eexists. split; [done|].
  destruct (oo_directory s Hok d dx Hd (eq_sym Hdt)) as (l & c & Hb).
  set (s1 := set_Objects (delete o (Objects s)) (set_Objects (<[o:=set_PointerCount (s32 (1 - 1)) x]> (Objects s)) s)).
  assert (Objects s1 !! d = Some dx) as Hd1 by (unfold s1; cbn; by rewrite lookup_delete_ne).
  apply (look_up_path_dangling dp 15 None no_flags s1 d dx l c n); [done..|].
  assert (Objects s1 !! o = None) as Hs1 by (unfold s1; cbn; by rewrite lookup_delete_eq).
  intros s2 Hs2. apply (look_up_entry_dangling s s2 n o); [done|done| | | |].
  - specialize (Hs2 o). rewrite Hs1 in Hs2. by destruct (Objects s2 !! o).
  - intros e He. specialize (Hs2 e). unfold s1 in Hs2. cbn in Hs2. rewrite lookup_delete_ne in Hs2 by done.
    destruct (Objects s2 !! e), (Objects s !! e); [|done..]. cbn in *. congruence.
  - exact (oo_entries s Hok d dx l c Hd Hb).
  - by rewrite <-(child_spec s d dx l c).
Qed.

(** ** Sequences of operations *)

(** Lookups from an object or the root, links, and references. *)
Inductive ob_op :=
  | OpLookUp (InitialParseObject : option Z) (ObjectName : cstring) (ExpectedType : option Z) (OpenFlags : open_flags)
  | OpLink (mem : bool) (Directory Object : Z) (Name : option cstring)
  | OpReference (Object : Z).

Definition ob_exec (dp : Z → option parse_func) (op : ob_op) (s : ob) : outcome ob :=
  match op with
  | OpLookUp InitialParseObject ObjectName ExpectedType OpenFlags =>
      '(_, s) ← ObReferenceObjectByName dp ObjectName InitialParseObject OpenFlags ExpectedType s; Ok s
  | OpLink mem Directory Object Name => '(_, s) ← ObLinkObject mem Directory Object Name s; Ok s
  | OpReference Object => ObReferenceObjectByPointer Object s
  end.

Fixpoint ob_run (dp : Z → option parse_func) (ops : list ob_op) (s : ob) : outcome ob :=
  match ops with [] => Ok s | op :: ops => s ← ob_exec dp op s; ob_run dp ops s end.

(** The arguments of an operation are objects, and a link is made in a
    directory, to another object. *)
Definition op_valid (s : ob) (op : ob_op) : Prop :=
  match op with
  | OpLookUp InitialParseObject _ _ _ => start_ok s InitialParseObject
  | OpLink _ d o _ => (ObjectType <$> Objects s !! d) = Some (ObDirectoryType s) ∧ is_Some (Objects s !! o) ∧ o ≠ d
  | OpReference o => is_Some (Objects s !! o)
  end.

(** What may become of an object: it is given a name and a directory when it has
    none, it is referenced, and a directory is given entries; what a link leads
    to and every other body stay. *)
Definition aged (x y : OBJECT) : Prop :=
  Permanent y = Permanent x ∧ ObjectType y = ObjectType x ∧ HandleCount y = HandleCount x ∧ PointerCount x ≤ PointerCount y ∧
  (∀ n, ObjectName x = Some n → ObjectName y = Some n) ∧ (∀ d, ParentDirectory x = Some d → ParentDirectory y = Some d) ∧
  match Body x with OBJECT_DIRECTORY l _ => ∃ l' c, Body y = OBJECT_DIRECTORY (l ++ l') c | b => Body y = b end.

Lemma aged_refl x : aged x x.
Proof. split_and!; try done. destruct (Body x) as [l c| | |]; try done. exists [], c. by rewrite app_nil_r. Qed.

Lemma aged_trans x y z : aged x y → aged y z → aged x z.
Proof.
  intros (A1 & A2 & A3 & A4 & A5 & A6 & A7) (B1 & B2 & B3 & B4 & B5 & B6 & B7). split_and!; try congruence; [lia|auto|auto|].
  destruct (Body x) as [l c| | |]; [|rewrite A7 in B7; congruence..]. destruct A7 as (l1 & c1 & A7). rewrite A7 in B7.
  destruct B7 as (l2 & c2 & B7). exists (l1 ++ l2), c2. by rewrite app_assoc.
Qed.

(** A change that only adds references, a missing name or a missing parent. *)
Lemma aged_same x y : Permanent y = Permanent x → ObjectType y = ObjectType x → HandleCount y = HandleCount x → Body y = Body x →
  PointerCount x ≤ PointerCount y → (ObjectName x = None ∨ ObjectName y = ObjectName x) →
  (ParentDirectory x = None ∨ ParentDirectory y = ParentDirectory x) → aged x y.
Proof.
  intros ? ? ? Hb ? Hn Hp. split_and!; try done; [intros; destruct Hn; congruence|intros; destruct Hp; congruence|]. rewrite Hb.
  destruct (Body x) as [l c| | |]; try done. exists [], c. by rewrite app_nil_r.
Qed.

(** [s'] is as good as [s], with no type and no entry changed. *)
Record extends (s s' : ob) : Prop := {
  ex_ok : ob_ok s';
  ex_few k : few_refs k s → few_refs (k + 1) s';
  ex_types i : (ObjectType <$> Objects s' !! i) = (ObjectType <$> Objects s !! i);
  ex_child d n e : child s d n = Some e → child s' d n = Some e;
  ex_globals : s' = set_Objects (Objects s') s;
  ex_objects i x : Objects s !! i = Some x → ∃ y, Objects s' !! i = Some y ∧ aged x y;
}.

Lemma refd_extends s s' l : ob_ok s → (length l ≤ 1)%nat → refd l s s' → extends s s'.
Proof.
  intros Hok Hl Hr. split.
  - by apply refd_ob_ok with l s.
  - intros k Hk i x Hx. pose proof (refd_few l s s' k Hk Hr i x Hx). lia.
  - intros i. rewrite (rd_objects _ _ _ Hr). by destruct (Objects s !! i).
  - intros d n e. by rewrite (refd_child l s s').
  - by rewrite (rd_globals _ _ _ Hr).
  - intros i x Hx. rewrite (rd_objects _ _ _ Hr), Hx. eexists. split; [done|]. apply aged_same; try done; try (by right).
    cbn. unfold count. lia.
Qed.

Lemma linked_extends s d o n x s' : child s d n = None → Objects s !! o = Some x → ParentDirectory x = None →
  (ObjectName x = None ∨ ObjectName x = Some n) → linked s d o n s' → extends s s'.
Proof.
  intros Hc Ho Hp Hn [L1 L2 L3 L4 L5 L6 L7 L8 L9]. split; [done|done|done| |done|].
  - intros d' n' e He. rewrite L5; [done|]. intros [= -> ->]. congruence.
  - intros i y Hy. rewrite L9, Hy. eexists. split; [done|]. unfold linked_object. destruct (decide (i = o)) as [->|].
    { rewrite Ho in Hy. injection Hy as <-. apply aged_same; try done; [|by left]. destruct Hn as [|E]; [by left|right; by rewrite E]. }
    destruct (decide (i = d)); [|apply aged_refl]. unfold add_entry. split_and!; cbn.
    1-3, 5-6: by destruct (Body y).
    + lia.
    + destruct (Body y) as [l c| | |] eqn:E; cbn; try done. by eexists _, _.
Qed.

Lemma with_name_extends s o x n : ob_ok s → Objects s !! o = Some x → (ObjectName x = None ∨ ObjectName x = Some n) → extends s (with_name o x n s).
Proof.
  intros Hok Ho Hn. split.
  - by apply with_name_ok.
  - intros k Hk i y. unfold with_name. cbn. destruct (decide (i = o)) as [->|].
    + rewrite lookup_insert_eq. intros [= <-]. specialize (Hk o x Ho). cbn. lia.
    + rewrite lookup_insert_ne by done. intros Hy. specialize (Hk i y Hy). lia.
  - intros i. unfold with_name. cbn. destruct (decide (i = o)) as [->|]; [by rewrite lookup_insert_eq, Ho|by rewrite lookup_insert_ne].
  - intros d n' e. by rewrite with_name_child.
  - done.
  - intros i y Hy. unfold with_name. cbn. destruct (decide (i = o)) as [->|].
    + rewrite lookup_insert_eq. eexists. split; [done|]. rewrite Ho in Hy. injection Hy as <-.
      apply aged_same; try done; [|by right]. destruct Hn as [|E]; [by left|right; by rewrite E].
    + rewrite lookup_insert_ne by done. exists y. split; [done|apply aged_refl].
Qed.

Lemma ob_exec_spec dp op s : ob_ok s → few_refs (2 ^ 30) s → plain dp s → op_valid s op → ∃ s', ob_exec dp op s = Ok s' ∧ extends s s'.
Proof.
  intros Hok Hfew Hplain Hv. assert (refd [] s s) as Hrefl by (by apply refd_nil).
  destruct op as [from n t flags|mem d o n|o]; cbn [op_valid ob_exec] in *.
  - pose proof (ObpLookUpObjectPath_spec dp s Hok Hfew Hplain from n t 0 flags Hv) as H. unfold ObReferenceObjectByName.
    destruct (resolve _ _ _ _ _ _) as [St|o].
    + destruct H as (_ & s' & -> & H). cbn [mbind outcome_bind]. exists s'. split; [done|]. case_decide.
      * destruct H as [o H]. apply (refd_extends s s' [o]); [done|cbn; lia|done].
      * subst s'. apply (refd_extends s s []); [done|cbn; lia|done].
    + destruct H as (_ & s' & -> & H). cbn [mbind outcome_bind]. exists s'. split; [done|]. apply (refd_extends s s' [o]); [done|cbn; lia|done].
  - destruct Hv as ((dx & Hd & Hdt)%fmap_Some & [x Ho] & Hne).
    pose proof (ObLinkObject_spec mem s d o dx x n Hok Hfew Hd (eq_sym Hdt) Ho Hne) as H.
    assert (extends s s) as Hs by (apply (refd_extends s s []); [done|cbn; lia|done]).
    destruct (ParentDirectory x) eqn:Hpar; [rewrite H; by exists s|]. unfold link_name in H.
    assert (∀ m, match ObjectName x with Some n => Some n | None => n end = Some m → ObjectName x = None ∨ ObjectName x = Some m) as Hm
      by (intros m; destruct (ObjectName x); [by right|by left]).
    destruct (match ObjectName x with Some n => Some n | None => n end) as [m|]; [|rewrite H; by exists s].
    destruct (_ && _); [rewrite H; by exists s|]. destruct (child s d m) eqn:Hc.
    + rewrite H. cbn [mbind outcome_bind]. eexists. split; [done|]. apply with_name_extends; [done|done|by apply Hm].
    + destruct H as (s' & -> & H). cbn [mbind outcome_bind]. exists s'. split; [done|]. apply (linked_extends s d o m x); [done..| |done]. by apply Hm.
  - destruct (reference_spec s Hok Hfew [] s o) as (s' & Hs' & Hr); [done|done|cbn; lia|]. exists s'. split; [done|].
    apply (refd_extends s s' [o]); [done|cbn; lia|done].
Qed.

Lemma extends_dom s s' i : extends s s' → is_Some (Objects s !! i) → is_Some (Objects s' !! i).
Proof. intros He [x Hx]. pose proof (ex_types s s' He i) as H. rewrite Hx in H. apply fmap_Some in H as (y & -> & _). by eexists. Qed.

Lemma extends_valid s s' op : extends s s' → op_valid s op → op_valid s' op.
Proof.
  intros He. pose proof (extends_dom s s') as Hdom. destruct op as [[o|] n t flags|mem d o n|o]; cbn [op_valid start_ok].
  - by apply Hdom. - done.
  - intros (Hd & Ho & Hne). split_and!; [|by apply Hdom|done]. rewrite (ex_types s s' He), Hd. f_equal. by rewrite (ex_globals s s' He).
  - by apply Hdom.
Qed.

Lemma extends_plain dp s s' : extends s s' → plain dp s → plain dp s'.
Proof.
  intros He Hp i x Hx. pose proof (ex_types s s' He i) as H. rewrite Hx in H. symmetry in H. apply fmap_Some in H as (y & Hy & ->).
  rewrite (ex_globals s s' He). exact (Hp i y Hy).
Qed.

(** C11: In a namespace without objects of drivers that parse paths, over any
    sequence of lookups, links and references to objects that are there, as long
    as no count can overflow, no operation crashes and no object comes or goes: every object keeps its type, its name and directory once it
    has them, what it leads to if it is a link, and every other body but those
    of directories, which only get entries at their end; the entries of
    directories are objects with names, and a name that a directory lists goes
    on meaning the same object.  (Creation, unlinking, closing and dropping of
    references are not among these operations.) *)
Theorem namespace_runs dp ops : ∀ s, ob_ok s → few_refs (2 ^ 30 - Z.of_nat (length ops)) s → plain dp s → Forall (op_valid s) ops →
  ∃ s', ob_run dp ops s = Ok s' ∧ ob_ok s' ∧ (∀ i, (ObjectType <$> Objects s' !! i) = (ObjectType <$> Objects s !! i)) ∧
    (∀ i x, Objects s !! i = Some x → ∃ y, Objects s' !! i = Some y ∧ aged x y) ∧
    (∀ d n e, child s d n = Some e → child s' d n = Some e).
Proof.
  induction ops as [|op ops IH]; intros s Hok Hfew Hp Hv; [exists s; split_and!; eauto using aged_refl|]. apply Forall_cons in Hv as [Hv Hvs].
  destruct (ob_exec_spec dp op s Hok) as (s1 & Hs1 & He); [|done..|].
  { intros i x Hx. specialize (Hfew i x Hx). lia. }
  cbn [ob_run]. rewrite Hs1. cbn [mbind outcome_bind]. destruct (IH s1) as (s' & Hs' & Hok' & Ht' & Ho' & Hc').
  - apply (ex_ok s s1 He).
  - intros i x Hx. pose proof (ex_few s s1 He _ Hfew i x Hx). cbn [length] in *. lia.
  - by apply extends_plain with s.
  - apply (Forall_impl _ _ _ Hvs). intros o Ho. by apply extends_valid with s.
  - exists s'. split_and!; [done|done| | |].
    + intros i. by rewrite Ht', (ex_types s s1 He).
    + intros i x Hx. destruct (ex_objects s s1 He i x Hx) as (y & Hy & Hxy). destruct (Ho' i y Hy) as (z & Hz & Hyz).
      exists z. split; [done|by apply aged_trans with y].
    + intros d n e Hc. by apply Hc', (ex_child s s1 He).
Qed.

(** ** Concrete runs *)

(** A namespace: the types 1 to 4, the root 10 with the directory "A" (11), in
    which there is an object "x" (13), and a link "L" (12) to "/A"; 14 is an
    object without a name. *)
Definition demo_objects : list (Z * OBJECT) :=
  [(1, mkObject true None None 1 1 0 (OBJECT_TYPE 4));
   (2, mkObject true None None 1 1 0 (OBJECT_TYPE 2));
   (3, mkObject true None None 1 1 0 (OBJECT_TYPE 1));
   (4, mkObject true None None 1 1 0 (OBJECT_TYPE 2));
   (10, mkObject true None None 2 3 0 (OBJECT_DIRECTORY [11; 12] 2));
   (11, mkObject true (Some [65]) (Some 10) 2 2 0 (OBJECT_DIRECTORY [13] 1));
   (12, mkObject true (Some [76]) (Some 10) 3 1 0 (OBJECT_SYMLINK (Some [47; 65])));
   (13, mkObject false (Some [120]) (Some 11) 4 1 0 OtherBody);
   (14, mkObject false None None 4 1 0 OtherBody)].

Definition demo : ob := mkOb (list_to_map demo_objects) (Some 10) None None (Some 1) 2 3 4.

Definition demo_parse (_ : Z) : option parse_func := None.

Lemma demo_lookup o x : Objects demo !! o = Some x → (o, x) ∈ demo_objects.
Proof. apply elem_of_list_to_map_2. Qed.

Ltac demo_cases H :=
  apply demo_lookup in H; unfold demo_objects in H;
  repeat (apply elem_of_cons in H as [[= -> ->]|H]); [..|by apply not_elem_of_nil in H].

Lemma demo_ok : ob_ok demo.
Proof.
  split.
  - intros o x H. demo_cases H; cbn; lia.
  - intros o x H. demo_cases H; cbn; try done; intros _; by eexists _, _.
  - intros o x l c H. demo_cases H; cbn; try done; intros [= <- <-] e He;
      repeat (apply elem_of_cons in He as [->|He]); try (by apply not_elem_of_nil in He); by eexists _, _.
  - intros o x H. demo_cases H; cbn; try done; intros _; by eexists.
  - done.
  - by exists 10.
  - done.
Qed.

Lemma demo_few k : 3 ≤ k → few_refs k demo.
Proof. intros Hk o x H. demo_cases H; cbn; lia. Qed.

Lemma demo_plain : plain demo_parse demo.
Proof. done. Qed.

(** "/L/x", over the link. *)
Lemma ObpLookUpObjectPath_correct_witness :
  resolve demo OB_MAX_LOOP None [47; 76; 47; 120] (Some 4) no_flags = inr 13 ∧
  ∃ s', ObpLookUpObjectPath demo_parse None [47; 76; 47; 120] (Some 4) 0 no_flags demo = Ok (STATUS_SUCCESS, 13, s') ∧ refd [13] demo s'.
Proof.
  assert (resolve demo OB_MAX_LOOP None [47; 76; 47; 120] (Some 4) no_flags = inr 13) as Hr by (by vm_compute).
  split; [done|].
  pose proof (ObpLookUpObjectPath_correct demo_parse demo demo_ok (demo_few (2 ^ 30) ltac:(lia)) demo_plain None [47; 76; 47; 120] (Some 4) 0 no_flags I) as H.
  rewrite Nat.sub_0_r, Hr in H. apply H.
Defined.

Lemma ObCreateDirectoryObject_correct_witness :
  ∃ s', ObCreateDirectoryObject demo_parse (Some 20) true (Some 10) [65; 47; 66] false false demo = Ok (STATUS_SUCCESS, Some 20, s') ∧ child s' 11 [66] = Some 20.
Proof.
  pose proof (ObCreateDirectoryObject_correct demo_parse demo demo_ok (demo_few (2 ^ 29) ltac:(lia)) demo_plain 10 [65; 47; 66] 11 [66]
    ltac:(by eexists) (entry_below demo 10 [65; 47; 66] [65] [66] 11 ltac:(done) ltac:(done) ltac:(done) ltac:(by intros [?|?%not_elem_of_nil]%elem_of_cons) ltac:(by vm_compute))
    ltac:(done) ltac:(done) 20 ltac:(done) ltac:(by eexists) false ltac:(done)) as H.
  cbn zeta in H. assert (child demo 11 [66] = None) as E by (by vm_compute). rewrite E in H.
  destruct H as (s' & Hs & He & _). exists s'. split; [exact Hs|exact (en_child _ _ _ _ _ _ _ _ _ He)].
Defined.

Lemma ObLinkObject_correct_witness :
  ∃ s', ObLinkObject true 11 14 (Some [121]) demo = Ok (STATUS_SUCCESS, s') ∧ child s' 11 [121] = Some 14 ∧ child s' 11 [120] = Some 13.
Proof.
  pose proof (ObLinkObject_correct true demo 11 14 _ (mkObject false None None 4 1 0 OtherBody) (Some [121]) demo_ok (demo_few (2 ^ 30) ltac:(lia)) eq_refl eq_refl eq_refl ltac:(done)) as H.
  cbn [ParentDirectory link_name ObjectName] in H. rewrite bool_decide_true in H by done. cbn [andb negb] in H.
  assert (child demo 11 [121] = None) as E by (by vm_compute). rewrite E in H.
  destruct H as (s' & Hs & Hl). exists s'. split_and!; [exact Hs|exact (ln_child _ _ _ _ _ Hl)|].
  rewrite (ln_other _ _ _ _ _ Hl) by done. by vm_compute.
Defined.

(** "L" is the second entry of the root. *)
Lemma ObUnlinkObject_correct_witness :
  (∀ fuel, ObUnlinkObject fuel 12 demo = OutOfFuel) ∧ ∃ s', ObUnlinkObject 0 13 demo = Ok (STATUS_SUCCESS, s').
Proof.
  split.
  - intros fuel. pose proof (ObUnlinkObject_correct fuel demo 12 _ 10 _ [11; 12] 2 eq_refl eq_refl eq_refl eq_refl ltac:(done) ltac:(cbn; lia)) as H.
    cbv beta iota in H. by rewrite decide_False in H by done.
  - pose proof (ObUnlinkObject_correct 0 demo 13 _ 11 _ [13] 1 eq_refl eq_refl eq_refl eq_refl ltac:(done) ltac:(cbn; lia)) as H.
    cbv beta iota in H. rewrite decide_True in H by done. destruct H as (s' & Hs & _). by exists s'.
Defined.

Lemma ObDereferenceObject_dangling_witness :
  ∃ s', ObDereferenceObject 13 demo = Ok s' ∧ ObReferenceObjectByName demo_parse [120] (Some 11) no_flags None s' = Crash.
Proof.
  apply (ObDereferenceObject_dangling demo_parse demo 11 13 [120] _ demo_ok eq_refl ltac:(by vm_compute) ltac:(done)
    ltac:(by intros [?|?%not_elem_of_nil]%elem_of_cons) eq_refl eq_refl eq_refl ltac:(done)).
Defined.

Lemma namespace_runs_witness :
  ∃ s', ob_run demo_parse [OpLink true 10 14 (Some [66]); OpLookUp None [47; 66] None no_flags; OpReference 14; OpLink true 11 14 None] demo = Ok s' ∧
    (PointerCount <$> Objects s' !! 14) = Some 3 ∧ ob_ok s'.
Proof.
  destruct (namespace_runs demo_parse [OpLink true 10 14 (Some [66]); OpLookUp None [47; 66] None no_flags; OpReference 14; OpLink true 11 14 None]
    demo demo_ok (demo_few (2 ^ 30 - 4) ltac:(lia)) demo_plain) as (s' & Hs & Hok & _).
  { repeat constructor; try done; by eexists. }
  exists s'. split_and!; [exact Hs| |exact Hok].
  assert ((PointerCount <$> (match ob_run demo_parse [OpLink true 10 14 (Some [66]); OpLookUp None [47; 66] None no_flags; OpReference 14; OpLink true 11 14 None] demo with Ok s => Objects s | _ => ∅ end) !! 14) = Some 3) as E by (by vm_compute).
  by rewrite Hs in E.
Defined.
