(* ===== verification/RbTree.v ===== *)
(** The ordered trees of [boron/source/rtl/rbtree.c].

    The balancing macros it instantiates (FreeBSD's, fbsdtree.h) are represented
    by what they do to the in-order sequence of the entries: a tree is the list
    of its entries from the least key to the greatest.  Entries are found again
    by key, so the operations speak about trees with ascending keys. *)
From S2P Require Import Prelude.
Local Open Scope Z_scope.

(** The key of an entry. *)
Class Keyed (A : Type) := key : A → Z.

Section tree.
Context {A : Type} `{Keyed A}.

(** [InsertItemRbTree] : boron/source/rtl/rbtree.c:42-48.
    [None] when an entry with this key exists. *)
Fixpoint InsertItemRbTree (Tree : list A) (Item : A) : option (list A) :=
  match Tree with
  | [] => Some [Item]
  | y :: Tree' =>
      if key Item <? key y then Some (Item :: Tree)
      else if key Item =? key y then None
      else (y ::.) <$> InsertItemRbTree Tree' Item
  end.

(** [RemoveItemRbTree] : boron/source/rtl/rbtree.c:50-53. *)
Fixpoint RemoveItemRbTree (Tree : list A) (Item : Z) : list A :=
  match Tree with
  | [] => []
  | y :: Tree => if key y =? Item then Tree else y :: RemoveItemRbTree Tree Item
  end.

(** [LookUpItemRbTree] : boron/source/rtl/rbtree.c:55-60. *)
Definition LookUpItemRbTree (Tree : list A) (Key : Z) : option A :=
  List.find (λ y, key y =? Key) Tree.

(** The least entry whose key is not below [Key]. *)
Definition RB_NFIND (Tree : list A) (Key : Z) : option A :=
  List.find (λ y, Key <=? key y) Tree.

(** [GetFirstEntryRbTree] : boron/source/rtl/rbtree.c:95-98. *)
Definition GetFirstEntryRbTree (Tree : list A) : option A := head Tree.

(** [GetLastEntryRbTree] : boron/source/rtl/rbtree.c:100-103. *)
Definition GetLastEntryRbTree (Tree : list A) : option A := last Tree.

(** [GetItemCountRbTree] : boron/source/rtl/rbtree.c:105-111. *)
Definition GetItemCountRbTree (Tree : list A) : Z := Z.of_nat (length Tree).

(** [GetNextEntryRbTree] : boron/source/rtl/rbtree.c:123-126.
    The entry after the one with this key. *)
Fixpoint GetNextEntryRbTree (Tree : list A) (Key : Z) : option A :=
  match Tree with
  | [] => None
  | y :: Tree => if key y =? Key then head Tree else GetNextEntryRbTree Tree Key
  end.

(** [GetPrevEntryRbTree] : boron/source/rtl/rbtree.c:128-131. *)
Fixpoint GetPrevEntryRbTree (Tree : list A) (Key : Z) : option A :=
  match Tree with
  | [] => None
  | y :: Tree =>
      match head Tree with
      | Some z => if key z =? Key then Some y else GetPrevEntryRbTree Tree Key
      | None => None
      end
  end.

(** [LookUpItemApproximateRbTree] : boron/source/rtl/rbtree.c:62-93. *)
Definition LookUpItemApproximateRbTree (Tree : list A) (Key : Z) : option A :=
  match RB_NFIND Tree Key with
  | None =>
      match GetLastEntryRbTree Tree with
      | Some Found => if key Found <=? Key then Some Found else None
      | None => None
      end
  | Some Found => if key Found =? Key then Some Found else GetPrevEntryRbTree Tree (key Found)
  end.

(** A store to an entry of the tree, in place. *)
Fixpoint update_entry (Tree : list A) (Key : Z) (x : A) : list A :=
  match Tree with
  | [] => []
  | y :: Tree => if key y =? Key then x :: Tree else y :: update_entry Tree Key x
  end.

(** Ascending keys. *)
Definition ascending (l : list A) : Prop := StronglySorted (λ x y, key x < key y) l.

Definition all_below (l : list A) (k : Z) : Prop := ∀ x, x ∈ l → key x < k.
Definition all_above (l : list A) (k : Z) : Prop := ∀ x, x ∈ l → k < key x.

Lemma ascending_app a b :
  ascending (a ++ b) ↔ ascending a ∧ ascending b ∧ ∀ x y, x ∈ a → y ∈ b → key x < key y.
Proof.
  unfold ascending. induction a as [|x a IH]; cbn.
  - split; [|by intros (_ & ? & _)]. intros Hb. split; [constructor|]. split; [done|].
    intros x y Hx. by apply not_elem_of_nil in Hx.
  - split.
    + intros Hs. apply StronglySorted_inv in Hs as [Hs Hx]. apply IH in Hs as (Ha & Hb & Hab).
      rewrite Forall_app in Hx. destruct Hx as [Hxa Hxb]. split; [by constructor|].
      split; [done|]. intros x' y [->|Hx']%elem_of_cons Hy; [|by apply Hab].
      rewrite Forall_forall in Hxb. by apply Hxb.
    + intros (Ha & Hb & Hab). apply StronglySorted_inv in Ha as [Ha Hx]. constructor.
      * apply IH. split; [done|]. split; [done|]. intros x' y Hx' Hy. apply Hab; [by right|done].
      * apply Forall_app. split; [done|]. apply Forall_forall. intros y Hy. apply Hab; [left|done].
Qed.

Lemma ascending_cons x b : ascending (x :: b) ↔ ascending b ∧ all_above b (key x).
Proof.
  unfold ascending, all_above. split.
  - intros Hs. apply StronglySorted_inv in Hs as [Hs Hx]. split; [done|].
    by apply Forall_forall.
  - intros [Hb Hx]. constructor; [done|]. by apply Forall_forall.
Qed.

(** A position in an ascending sequence. *)
Lemma ascending_split a x b :
  ascending (a ++ x :: b) ↔
  ascending (a ++ b) ∧ all_below a (key x) ∧ all_above b (key x).
Proof.
  rewrite !ascending_app, ascending_cons. unfold all_below, all_above. split.
  - intros (Ha & (Hb & Hxb) & Hab). split_and!; try done.
    + intros y z Hy Hz. apply Hab; [done|by right].
    + intros y Hy. apply Hab; [done|left].
  - intros ((Ha & Hb & Hab) & Hax & Hxb). split_and!; try done.
    intros y z Hy [->|Hz]%elem_of_cons; [by apply Hax|by apply Hab].
Qed.

Lemma insert_at a x b :
  all_below a (key x) → all_above b (key x) → InsertItemRbTree (a ++ b) x = Some (a ++ x :: b).
Proof.
  intros Ha Hb. induction a as [|y a IH]; cbn.
  - destruct b as [|y b]; cbn; [done|].
    rewrite (proj2 (Z.ltb_lt _ _)) by (apply Hb; left). done.
  - assert (key y < key x) by (apply Ha; left).
    rewrite (proj2 (Z.ltb_ge _ _)), (proj2 (Z.eqb_neq _ _)) by lia.
    rewrite IH by (intros z Hz; apply Ha; by right). done.
Qed.

Lemma insert_collides a x y b :
  all_below a (key x) → key y = key x → InsertItemRbTree (a ++ y :: b) x = None.
Proof.
  intros Ha Hy. induction a as [|z a IH]; cbn.
  - rewrite Hy, Z.eqb_refl. by rewrite (proj2 (Z.ltb_ge _ _)) by lia.
  - assert (key z < key x) by (apply Ha; left).
    rewrite (proj2 (Z.ltb_ge _ _)), (proj2 (Z.eqb_neq _ _)) by lia.
    by rewrite IH by (intros w Hw; apply Ha; by right).
Qed.

Lemma remove_at a x b : all_below a (key x) → RemoveItemRbTree (a ++ x :: b) (key x) = a ++ b.
Proof.
  intros Ha. induction a as [|y a IH]; cbn; [by rewrite Z.eqb_refl|].
  assert (key y < key x) by (apply Ha; left). rewrite (proj2 (Z.eqb_neq _ _)) by lia.
  by rewrite IH by (intros z Hz; apply Ha; by right).
Qed.

Lemma update_at a x b x' :
  all_below a (key x) → update_entry (a ++ x :: b) (key x) x' = a ++ x' :: b.
Proof.
  intros Ha. induction a as [|y a IH]; cbn; [by rewrite Z.eqb_refl|].
  assert (key y < key x) by (apply Ha; left). rewrite (proj2 (Z.eqb_neq _ _)) by lia.
  by rewrite IH by (intros z Hz; apply Ha; by right).
Qed.

Lemma next_at a x b : all_below a (key x) → GetNextEntryRbTree (a ++ x :: b) (key x) = head b.
Proof.
  intros Ha. induction a as [|y a IH]; cbn; [by rewrite Z.eqb_refl|].
  assert (key y < key x) by (apply Ha; left). rewrite (proj2 (Z.eqb_neq _ _)) by lia.
  by rewrite IH by (intros z Hz; apply Ha; by right).
Qed.

Lemma prev_first x b : ascending (x :: b) → GetPrevEntryRbTree (x :: b) (key x) = None.
Proof.
  rewrite ascending_cons. intros [Hs Hx].
  assert (∀ c y, all_above (y :: c) (key x) → GetPrevEntryRbTree (y :: c) (key x) = None) as Hn.
  { induction c as [|z c IH]; intros y Hy; [done|]. cbn.
    rewrite (proj2 (Z.eqb_neq _ _)) by (assert (key x < key z) by (apply Hy; right; left); lia).
    apply (IH z). intros w Hw. apply Hy. by right. }
  destruct b as [|y b]; [done|]. cbn.
  rewrite (proj2 (Z.eqb_neq _ _)) by (assert (key x < key y) by (apply Hx; left); lia).
  by apply Hn.
Qed.

Lemma prev_at a w x b :
  all_below (a ++ [w]) (key x) → GetPrevEntryRbTree (a ++ w :: x :: b) (key x) = Some w.
Proof.
  intros Ha. induction a as [|y a IH]; cbn; [by rewrite Z.eqb_refl|].
  destruct a as [|z a]; cbn in *.
  - assert (key w < key x) by (apply Ha; right; left).
    rewrite (proj2 (Z.eqb_neq _ _)) by lia. by rewrite Z.eqb_refl.
  - assert (key z < key x) by (apply Ha; right; left).
    rewrite (proj2 (Z.eqb_neq _ _)) by lia. apply IH. intros v Hv. apply Ha. by right.
Qed.

(** The approximate lookup finds the greatest entry whose key is at most [k]. *)
Lemma approximate_at a x b k :
  ascending (a ++ x :: b) → key x ≤ k → (∀ y, y ∈ b → k < key y) →
  LookUpItemApproximateRbTree (a ++ x :: b) k = Some x.
Proof.
  intros Hs Hx Hb. apply ascending_split in Hs as (_ & Ha & Hxb).
  unfold LookUpItemApproximateRbTree, RB_NFIND.
  assert (∀ c, (∀ y, y ∈ c → key y < k) →
    ∀ d, List.find (λ y, k <=? key y) (c ++ d) = List.find (λ y, k <=? key y) d) as Hskip.
  { induction c as [|y c IH]; intros Hc d; [done|]. cbn.
    rewrite (proj2 (Z.leb_gt _ _)) by (apply Hc; left). apply IH. intros z Hz. apply Hc. by right. }
  destruct (decide (key x = k)) as [Heq|Hne].
  - rewrite Hskip by (intros y Hy; apply Ha in Hy; lia). cbn.
    rewrite (proj2 (Z.leb_le _ _)) by lia. by rewrite Heq, Z.eqb_refl.
  - rewrite cons_middle, app_assoc.
    rewrite Hskip.
    2: { intros y [Hy| ->%list_elem_of_singleton]%elem_of_app; [apply Ha in Hy|]; lia. }
    destruct b as [|y b]; cbn.
    + rewrite app_nil_r. unfold GetLastEntryRbTree. rewrite last_snoc.
      by rewrite (proj2 (Z.leb_le _ _)).
    + assert (k < key y) by (apply Hb; left). rewrite (proj2 (Z.leb_le _ _)) by lia.
      rewrite (proj2 (Z.eqb_neq _ _)) by lia. rewrite <-app_assoc. cbn. apply prev_at.
      intros z [Hz| ->%list_elem_of_singleton]%elem_of_app; [apply Ha in Hz|]; lia.
Qed.

Lemma approximate_none l k :
  ascending l → (∀ y, y ∈ l → k < key y) → LookUpItemApproximateRbTree l k = None.
Proof.
  intros Hs Hl. unfold LookUpItemApproximateRbTree, RB_NFIND. destruct l as [|y l]; [done|].
  cbn. assert (k < key y) by (apply Hl; left).
  rewrite (proj2 (Z.leb_le _ _)) by lia. rewrite (proj2 (Z.eqb_neq _ _)) by lia.
  by apply prev_first.
Qed.

(** Where a key falls in an ascending sequence. *)
Lemma ascending_locate l k :
  ascending l →
  (∀ y, y ∈ l → k < key y) ∨ ∃ a x b, l = a ++ x :: b ∧ key x ≤ k ∧ ∀ y, y ∈ b → k < key y.
Proof.
  induction l as [|x l IH]; intros Hs; [left; intros y Hy; by apply not_elem_of_nil in Hy|].
  apply ascending_cons in Hs as [Hs Hx]. destruct (decide (key x ≤ k)) as [Hle|Hgt].
  - right. destruct (IH Hs) as [Hall|(a & z & b & -> & Hz & Hb)].
    + by exists [], x, l.
    + by exists (x :: a), z, b.
  - left. intros y [->|Hy]%elem_of_cons; [lia|]. apply Hx in Hy. lia.
Qed.

(** A new key finds its place, or meets its equal. *)
Lemma insert_place l x :
  ascending l →
  (∃ a b, l = a ++ b ∧ all_below a (key x) ∧ all_above b (key x) ∧
          InsertItemRbTree l x = Some (a ++ x :: b)) ∨
  (∃ y, y ∈ l ∧ key y = key x ∧ InsertItemRbTree l x = None).
Proof.
  intros Hs. destruct (ascending_locate l (key x) Hs) as [Hall|(a & y & b & -> & Hy & Hb)].
  - left. exists [], l. split_and!; try done.
    + intros y Hy. by apply not_elem_of_nil in Hy.
    + apply (insert_at []); [|done]. intros y Hy. by apply not_elem_of_nil in Hy.
  - apply ascending_split in Hs as (_ & Ha & Hyb).
    destruct (decide (key y = key x)) as [Heq|Hne].
    + right. exists y. split; [set_solver|]. split; [done|].
      apply insert_collides; [|done]. intros z Hz. apply Ha in Hz. lia.
    + left. exists (a ++ [y]), b. rewrite <-!app_assoc. split; [done|].
      assert (all_below (a ++ [y]) (key x)) as Hay.
      { intros z [Hz| ->%list_elem_of_singleton]%elem_of_app; [apply Ha in Hz|]; lia. }
      split; [done|]. split; [done|].
      rewrite (cons_middle y a b), app_assoc. rewrite insert_at by done.
      by rewrite <-!app_assoc.
Qed.
End tree.
