(* ===== verification/Heap.v ===== *)
(** The address space heaps of [boron/source/mm/heap.c]: the free ranges of an
    address space, as an ordered tree of nodes keyed by their start.

    A node is known by its start address.  Whether a pool allocation of a node
    succeeds is an argument of the operation; the heap's mutex is held for the
    whole of each operation. *)
From S2P Require Import Prelude RbTree.
Local Open Scope Z_scope.

Definition PAGE_SIZE : Z := 4096.

(** [MMADDRESS_NODE] : boron/include/mm/addrnode.h:19-37. *)
Record MMADDRESS_NODE := mkNode { StartVa : Z; Size : Z }.

#[export] Instance node_key : Keyed MMADDRESS_NODE := StartVa.

#[export] Instance node_eq_dec : EqDecision MMADDRESS_NODE.
Proof. solve_decision. Defined.

(** [Node_EndVa] : boron/include/mm/addrnode.h:39-39. *)
Definition Node_EndVa (n : MMADDRESS_NODE) : Z := u64 (StartVa n + u64 (Size n * PAGE_SIZE)).

(** [PAGE_ALIGNED] *)
Definition PAGE_ALIGNED (a : Z) : bool := Z.land a (PAGE_SIZE - 1) =? 0.

(** [MMHEAP] (include/mm/heap.h): only the tree; the mutex serializes the
    operations. *)
Abbreviation MMHEAP := (list MMADDRESS_NODE).

(** [MmpCreateRegionHeap] : boron/source/mm/heap.c:17-31.
    The result of the insertion is ignored: a node whose start collides is
    lost. *)
Definition MmpCreateRegionHeap (alloc_ok : bool) (Heap : MMHEAP) (Start Sz : Z)
  : outcome (bool * MMHEAP) :=
  _ ← check (PAGE_ALIGNED Start);
  if negb alloc_ok then Ok (false, Heap)
  else Ok (true, default Heap (InsertItemRbTree Heap (mkNode Start Sz))).

(** [MmInitializeHeap] : boron/source/mm/heap.c:33-42. *)
Definition MmInitializeHeap (alloc_ok : bool) (InitialVa InitialSize : Z) : outcome MMHEAP :=
  '(_, h) ← MmpCreateRegionHeap alloc_ok [] InitialVa InitialSize; Ok h.

(** [MmAllocateAddressRange] : boron/source/mm/heap.c:44-169.
    [ok1] and [ok2] are the up to two node allocations. *)
Definition MmAllocateAddressRange (Heap : MMHEAP) (Va SizePages : Z) (ok1 ok2 : bool)
  : outcome (BSTATUS * option MMADDRESS_NODE * MMHEAP) :=
  let ViewSize := u64 (SizePages * PAGE_SIZE) in
  let ViewSize := u64 (ViewSize + Z.land Va (PAGE_SIZE - 1)) in
  let SizePages := u64 (ViewSize + PAGE_SIZE - 1) / PAGE_SIZE in
  let Va := Z.ldiff Va (PAGE_SIZE - 1) in
  let Success Node h := Ok (STATUS_SUCCESS, Some Node, RemoveItemRbTree h (StartVa Node)) in
  match LookUpItemApproximateRbTree Heap Va with
  | None => Ok (STATUS_CONFLICTING_ADDRESSES, None, Heap)
  | Some Node =>
      if (StartVa Node =? Va) && (Size Node =? SizePages) then Success Node Heap
      else if Size Node <? SizePages then Ok (STATUS_CONFLICTING_ADDRESSES, None, Heap)
      else if Node_EndVa Node <? u64 (Va + u64 (SizePages * PAGE_SIZE)) then
        Ok (STATUS_CONFLICTING_ADDRESSES, None, Heap)
      else if StartVa Node =? Va then
        '(ok, h) ← MmpCreateRegionHeap ok1 Heap (u64 (StartVa Node + u64 (SizePages * PAGE_SIZE)))
                     (u64 (Size Node - SizePages));
        if negb ok then Ok (STATUS_INSUFFICIENT_MEMORY, None, h)
        else
          let Node' := mkNode (StartVa Node) SizePages in
          Success Node' (update_entry h (StartVa Node) Node')
      else if Node_EndVa Node =? u64 (Va + u64 (SizePages * PAGE_SIZE)) then
        let Start := u64 (Node_EndVa Node - u64 (SizePages * PAGE_SIZE)) in
        _ ← check (PAGE_ALIGNED Start);
        let Node' := mkNode Start SizePages in
        let h := update_entry Heap (StartVa Node) Node' in
        '(ok, h) ← MmpCreateRegionHeap ok1 h (StartVa Node) (u64 (Size Node - SizePages));
        if negb ok then
          Ok (STATUS_INSUFFICIENT_MEMORY, None, update_entry h (StartVa Node') Node)
        else Success Node' h
      else if negb (ok1 && ok2) then Ok (STATUS_INSUFFICIENT_MEMORY, None, Heap)
      else
        let RangeVa := StartVa Node in
        let RangeSize := Size Node in
        _ ← check (PAGE_ALIGNED Va);
        let Node' := mkNode Va SizePages in
        let h := update_entry Heap RangeVa Node' in
        _ ← check (PAGE_ALIGNED RangeVa);
        let Node1 := mkNode RangeVa (u64 (Va - RangeVa) / PAGE_SIZE) in
        let Start2 := u64 (Va + u64 (SizePages * PAGE_SIZE)) in
        let Node2 := mkNode Start2
                       (u64 (u64 (RangeVa + u64 (RangeSize * PAGE_SIZE)) - Start2) / PAGE_SIZE) in
        _ ← check (PAGE_ALIGNED Start2);
        let h := default h (InsertItemRbTree h Node1) in
        let h := default h (InsertItemRbTree h Node2) in
        Success Node' h
  end.

(** [MmAllocateAddressSpace] : boron/source/mm/heap.c:190-260.
    The loop over the entries, from the first or from the last. *)
Fixpoint allocate_loop (entries : list MMADDRESS_NODE) (Heap : MMHEAP) (SizePages : Z)
    (TopDown alloc_ok : bool) : outcome (BSTATUS * option MMADDRESS_NODE * MMHEAP) :=
  match entries with
  | [] => Ok (STATUS_INSUFFICIENT_VA_SPACE, None, Heap)
  | Node :: entries =>
      if Size Node =? SizePages then
        Ok (STATUS_SUCCESS, Some Node, RemoveItemRbTree Heap (StartVa Node))
      else if Size Node <? SizePages then allocate_loop entries Heap SizePages TopDown alloc_ok
      else
        let NewSize := u64 (Size Node - SizePages) in
        let AllocatedVa :=
          if TopDown then u64 (StartVa Node + u64 (NewSize * PAGE_SIZE)) else StartVa Node in
        let NewNodeVa :=
          if TopDown then StartVa Node else u64 (StartVa Node + u64 (SizePages * PAGE_SIZE)) in
        _ ← check (PAGE_ALIGNED AllocatedVa);
        _ ← (match GetNextEntryRbTree Heap (StartVa Node) with
             | Some Next => check (AllocatedVa <=? StartVa Next)
             | None => Ok tt
             end);
        let h := update_entry Heap (StartVa Node) (mkNode AllocatedVa (Size Node)) in
        '(ok, h) ← MmpCreateRegionHeap alloc_ok h NewNodeVa NewSize;
        _ ← check ok;
        let Node' := mkNode AllocatedVa SizePages in
        let h := update_entry h AllocatedVa Node' in
        Ok (STATUS_SUCCESS, Some Node', RemoveItemRbTree h AllocatedVa)
  end.

(** [MmAllocateAddressSpace] : boron/source/mm/heap.c:171-260. *)
Definition MmAllocateAddressSpace (Heap : MMHEAP) (SizePages : Z) (TopDown alloc_ok : bool)
  : outcome (BSTATUS * option MMADDRESS_NODE * MMHEAP) :=
  allocate_loop (if TopDown then reverse Heap else Heap) Heap SizePages TopDown alloc_ok.

(** [MmpTryMergeNext] : boron/source/mm/heap.c:262-276. *)
Definition MmpTryMergeNext (Heap : MMHEAP) (Node : MMADDRESS_NODE) : MMHEAP :=
  match GetNextEntryRbTree Heap (StartVa Node) with
  | None => Heap
  | Some Next =>
      if StartVa Next =? Node_EndVa Node then
        update_entry (RemoveItemRbTree Heap (StartVa Next)) (StartVa Node)
          (mkNode (StartVa Node) (u64 (Size Node + Size Next)))
      else Heap
  end.

(** [MmFreeAddressSpace] : boron/source/mm/heap.c:278-305. *)
Definition MmFreeAddressSpace (Heap : MMHEAP) (Node : MMADDRESS_NODE) : BSTATUS * MMHEAP :=
  match InsertItemRbTree Heap Node with
  | None => (STATUS_INVALID_PARAMETER, Heap)
  | Some h =>
      let h := MmpTryMergeNext h Node in
      match GetPrevEntryRbTree h (StartVa Node) with
      | Some Prev => (STATUS_SUCCESS, MmpTryMergeNext h Prev)
      | None => (STATUS_SUCCESS, h)
      end
  end.

(** ** Well-formed heaps *)

(** The address after a node, without the wrap-around. *)
Definition end_ (n : MMADDRESS_NODE) : Z := StartVa n + Size n * PAGE_SIZE.

Definition node_ok (n : MMADDRESS_NODE) : Prop :=
  0 ≤ StartVa n ∧ (PAGE_SIZE | StartVa n) ∧ 0 < Size n ∧ end_ n < 2 ^ 64.

(** Nodes in ascending order with room between them. *)
Definition heap_ok (h : MMHEAP) : Prop :=
  Forall node_ok h ∧ StronglySorted (λ x y, end_ x < StartVa y) h.

(** The addresses of a node and of a heap. *)
Definition node_has (n : MMADDRESS_NODE) (a : Z) : Prop := StartVa n ≤ a < end_ n.
Definition has (h : MMHEAP) (a : Z) : Prop := ∃ n, n ∈ h ∧ node_has n a.

Lemma aligned_divide a : PAGE_ALIGNED a = true ↔ (PAGE_SIZE | a).
Proof.
  unfold PAGE_ALIGNED. rewrite Z.eqb_eq. change (PAGE_SIZE - 1) with (Z.ones 12).
  rewrite Z.land_ones by lia. change (2 ^ 12) with PAGE_SIZE. by rewrite Z.mod_divide.
Qed.

Lemma end_wrap n : node_ok n → Node_EndVa n = end_ n.
Proof.
  intros (H0 & _ & Hs & He). unfold Node_EndVa, end_ in *.
  rewrite (wrap_small 64 (Size n * PAGE_SIZE)) by (unfold PAGE_SIZE in *; lia).
  apply wrap_small. unfold PAGE_SIZE in *; lia.
Qed.

Lemma node_grows n : node_ok n → StartVa n + PAGE_SIZE ≤ end_ n.
Proof. intros (_ & _ & Hs & _). unfold end_, PAGE_SIZE. lia. Qed.

Lemma heap_ok_split a x b :
  heap_ok (a ++ x :: b) ↔
  heap_ok (a ++ b) ∧ node_ok x ∧ (∀ y, y ∈ a → end_ y < StartVa x) ∧
  (∀ y, y ∈ b → end_ x < StartVa y).
Proof.
  unfold heap_ok. rewrite !Forall_app, Forall_cons.
  assert (∀ a b : MMHEAP, StronglySorted (λ x y, end_ x < StartVa y) (a ++ b) ↔
    StronglySorted (λ x y, end_ x < StartVa y) a ∧ StronglySorted (λ x y, end_ x < StartVa y) b ∧
    ∀ x y, x ∈ a → y ∈ b → end_ x < StartVa y) as Happ.
  { clear. intros a b. rewrite StronglySorted_app. intuition. }
  assert (StronglySorted (λ x y, end_ x < StartVa y) (x :: b) ↔
    StronglySorted (λ x y, end_ x < StartVa y) b ∧ ∀ y, y ∈ b → end_ x < StartVa y) as Hcons.
  { rewrite <-Forall_forall. split; [intros H; by apply StronglySorted_inv in H|].
    intros [? ?]. by constructor. }
  rewrite !Happ, Hcons. split.
  - intros ((Ha & Hx & Hb) & Sa & (Sb & Hxb) & Hab). split_and!; try done.
    + intros y z Hy Hz. apply Hab; [done|by right].
    + intros y Hy. apply Hab; [done|left].
  - intros (((Ha & Hb) & Sa & Sb & Hab) & Hx & Hax & Hxb). split_and!; try done.
    intros y z Hy [->|Hz]%elem_of_cons; [by apply Hax|by apply Hab].
Qed.

Lemma heap_ok_node h n : heap_ok h → n ∈ h → node_ok n.
Proof. intros [Hf _] Hn. rewrite Forall_forall in Hf. by apply Hf. Qed.

Lemma heap_ok_ascending h : heap_ok h → ascending h.
Proof.
  induction h as [|n h IH]; intros Hh; [constructor|].
  apply (heap_ok_split []) in Hh as (Hh & Hn & _ & Hb). apply ascending_cons.
  split; [by apply IH|]. intros y Hy. apply Hb in Hy. apply node_grows in Hn.
  unfold key, node_key, PAGE_SIZE in *. lia.
Qed.

(** Keys on either side of a node of a heap. *)
Lemma heap_keys a n b :
  heap_ok (a ++ n :: b) → all_below a (StartVa n) ∧ all_above b (end_ n).
Proof.
  intros Hh. pose proof Hh as H0. apply heap_ok_split in Hh as (_ & _ & Ha & Hb). split.
  - intros y Hy. assert (node_ok y) as Hok by (eapply heap_ok_node; [done|set_solver]).
    apply node_grows in Hok. apply Ha in Hy. unfold key, node_key, PAGE_SIZE in *. lia.
  - intros y Hy. by apply Hb.
Qed.

Lemma has_app a b x : has (a ++ b) x ↔ has a x ∨ has b x.
Proof.
  unfold has. split.
  - intros (n & [Hn|Hn]%elem_of_app & Hx); eauto.
  - intros [(n & Hn & Hx)|(n & Hn & Hx)]; exists n; set_solver.
Qed.

Lemma has_cons n b x : has (n :: b) x ↔ node_has n x ∨ has b x.
Proof.
  unfold has. split.
  - intros (m & [->|Hm]%elem_of_cons & Hx); eauto.
  - intros [Hx|(m & Hm & Hx)]; [exists n|exists m]; set_solver.
Qed.

Lemma has_middle a n b x : has (a ++ n :: b) x ↔ node_has n x ∨ has (a ++ b) x.
Proof. rewrite !has_app, has_cons. tauto. Qed.

Lemma has_nil x : ¬ has [] x.
Proof. intros (n & Hn & _). by apply not_elem_of_nil in Hn. Qed.

(** A node and the rest of the heap share no address. *)
Lemma heap_disjoint a n b x : heap_ok (a ++ n :: b) → node_has n x → ¬ has (a ++ b) x.
Proof.
  intros Hh Hx (m & Hm & Hmx). apply heap_ok_split in Hh as (_ & _ & Ha & Hb).
  unfold node_has in *. apply elem_of_app in Hm as [Hm|Hm]; [apply Ha in Hm|apply Hb in Hm]; lia.
Qed.

(** Free addresses that are contiguous are in one node. *)
Lemma range_in_one_node h lo hi :
  heap_ok h → lo < hi → (∀ x, lo ≤ x < hi → has h x) →
  ∃ n, n ∈ h ∧ StartVa n ≤ lo ∧ hi ≤ end_ n.
Proof.
  intros Hh Hlt Hr. destruct (Hr lo) as (n & Hn & Hlo); [lia|]. unfold node_has in Hlo.
  exists n. split; [done|]. split; [lia|].
  destruct (decide (hi ≤ end_ n)) as [|Hgt]; [done|]. exfalso.
  destruct (Hr (end_ n)) as (m & Hm & Hme); [lia|]. unfold node_has in Hme.
  apply list_elem_of_split in Hn as (a & b & ->). apply heap_ok_split in Hh as (_ & _ & Ha & Hb).
  apply elem_of_app in Hm as [Hm|[->|Hm]%elem_of_cons]; [apply Ha in Hm|..|apply Hb in Hm]; lia.
Qed.

(** A heap is determined by its addresses. *)
Lemma heap_canonical h : ∀ h', heap_ok h → heap_ok h' → (∀ x, has h x ↔ has h' x) → h = h'.
Proof.
  assert (∀ n b m c, heap_ok (n :: b) → heap_ok (m :: c) →
    (∀ x, has (n :: b) x → has (m :: c) x) → StartVa m ≤ StartVa n) as Hlow.
  { intros n b m c Hh Hh' Hsub. pose proof (heap_ok_node _ n Hh ltac:(left)) as Hn.
    apply node_grows in Hn. destruct (Hsub (StartVa n)) as (k & Hk & Hkx).
    { exists n. split; [left|]. unfold node_has, PAGE_SIZE in *. lia. }
    apply (heap_ok_split []) in Hh' as (_ & Hm & _ & Hc). apply node_grows in Hm.
    unfold node_has, PAGE_SIZE in *.
    apply elem_of_cons in Hk as [->|Hk]; [|apply Hc in Hk]; lia. }
  assert (∀ n b m c, heap_ok (n :: b) → heap_ok (m :: c) →
    (∀ x, has (n :: b) x → has (m :: c) x) → StartVa n = StartVa m → end_ n ≤ end_ m) as Hend.
  { intros n b m c Hh Hh' Hsub Heq. pose proof (heap_ok_node _ n Hh ltac:(left)) as Hn.
    apply node_grows in Hn.
    destruct (range_in_one_node (m :: c) (StartVa n) (end_ n) Hh') as (k & Hk & Hk1 & Hk2).
    { unfold PAGE_SIZE in *. lia. }
    { intros x Hx. apply Hsub. exists n. split; [left|done]. }
    apply (heap_ok_split []) in Hh' as (_ & Hm & _ & Hc). apply node_grows in Hm.
    unfold PAGE_SIZE in *. apply elem_of_cons in Hk as [->|Hk]; [|apply Hc in Hk]; lia. }
  induction h as [|n h IH]; intros h' Hh Hh' Heq.
  - destruct h' as [|m h']; [done|]. pose proof (heap_ok_node _ m Hh' ltac:(left)) as Hm.
    apply node_grows in Hm. exfalso. apply (has_nil (StartVa m)), Heq. exists m.
    split; [left|]. unfold node_has, PAGE_SIZE in *. lia.
  - destruct h' as [|m h'].
    { pose proof (heap_ok_node _ n Hh ltac:(left)) as Hn.
      apply node_grows in Hn. exfalso. apply (has_nil (StartVa n)), Heq. exists n.
      split; [left|]. unfold node_has, PAGE_SIZE in *. lia. }
    assert (StartVa n = StartVa m) as Hs.
    { pose proof (Hlow n h m h' Hh Hh' (λ x, proj1 (Heq x))).
      pose proof (Hlow m h' n h Hh' Hh (λ x, proj2 (Heq x))). lia. }
    assert (end_ n = end_ m) as He.
    { pose proof (Hend n h m h' Hh Hh' (λ x, proj1 (Heq x)) Hs).
      pose proof (Hend m h' n h Hh' Hh (λ x, proj2 (Heq x)) (eq_sym Hs)). lia. }
    assert (n = m) as ->.
    { destruct n as [s z], m as [s' z']. unfold end_, PAGE_SIZE in He. cbn in *. f_equal; lia. }
    f_equal. apply (IH h').
    + by apply (heap_ok_split []) in Hh as (? & _).
    + by apply (heap_ok_split []) in Hh' as (? & _).
    + intros x. specialize (Heq x). rewrite !has_cons in Heq.
      pose proof (heap_disjoint [] m h x Hh). pose proof (heap_disjoint [] m h' x Hh'). cbn in *. tauto.
Qed.

(** Cutting a node in up to three. *)
Lemma divide_add_pages v k : (PAGE_SIZE | v) → (PAGE_SIZE | v + k * PAGE_SIZE).
Proof. intros H. apply Z.divide_add_r; [done|]. apply Z.divide_factor_r. Qed.

Lemma wrap_pages n k : node_ok n → 0 ≤ k ≤ Size n → u64 (k * PAGE_SIZE) = k * PAGE_SIZE.
Proof.
  intros (H0 & _ & Hs & He) Hk. apply wrap_small. unfold end_, PAGE_SIZE in *. nia.
Qed.

Lemma wrap_inside n k :
  node_ok n → 0 ≤ k ≤ Size n → u64 (StartVa n + k * PAGE_SIZE) = StartVa n + k * PAGE_SIZE.
Proof.
  intros (H0 & _ & Hs & He) Hk. apply wrap_small. unfold end_, PAGE_SIZE in *. nia.
Qed.

Lemma create_ok h v k :
  (PAGE_SIZE | v) →
  MmpCreateRegionHeap true h v k = Ok (true, default h (InsertItemRbTree h (mkNode v k))).
Proof. intros Hv. unfold MmpCreateRegionHeap. by rewrite (proj2 (aligned_divide v) Hv). Qed.

Lemma create_fails h v k :
  (PAGE_SIZE | v) → MmpCreateRegionHeap false h v k = Ok (false, h).
Proof. intros Hv. unfold MmpCreateRegionHeap. by rewrite (proj2 (aligned_divide v) Hv). Qed.

(** ** Allocation *)

Lemma heap_ok_shrink a n b m :
  heap_ok (a ++ n :: b) → node_ok m → StartVa n ≤ StartVa m → end_ m ≤ end_ n →
  heap_ok (a ++ m :: b).
Proof.
  rewrite !heap_ok_split. intros (Hab & Hn & Ha & Hb) Hm Hs He. split_and!; try done.
  - intros y Hy. apply Ha in Hy. lia.
  - intros y Hy. apply Hb in Hy. lia.
Qed.

(** What a successful allocation does: [node] leaves the heap. *)
Definition carved (h : MMHEAP) (node : MMADDRESS_NODE) (h' : MMHEAP) : Prop :=
  heap_ok h' ∧ node_ok node ∧ ∀ x, (has h x ↔ node_has node x ∨ has h' x) ∧
    ¬ (node_has node x ∧ has h' x).

Lemma carved_whole a n b : heap_ok (a ++ n :: b) → carved (a ++ n :: b) n (a ++ b).
Proof.
  intros Hh. pose proof (heap_disjoint a n b) as Hd. split; [by apply heap_ok_split in Hh as [? _]|].
  split; [eapply heap_ok_node; [done|set_solver]|]. intros x. split; [apply has_middle|].
  intros [Hx Hx']. by apply (Hd x Hh).
Qed.

(** The part [l] below and the part [r] above the node may be empty. *)
Lemma carved_parts a n b node parts :
  heap_ok (a ++ n :: b) → node_ok node →
  (∀ m, m ∈ parts → node_ok m ∧ StartVa n ≤ StartVa m ∧ end_ m ≤ end_ n) →
  StronglySorted (λ x y, end_ x < StartVa y) parts →
  (∀ x, node_has n x ↔ node_has node x ∨ has parts x) →
  (∀ x, ¬ (node_has node x ∧ has parts x)) →
  carved (a ++ n :: b) node (a ++ parts ++ b).
Proof.
  intros Hh Hnode Hparts Hsort Hcover Hdis.
  pose proof (heap_disjoint a n b) as Hd. apply heap_ok_split in Hh as Hh'.
  destruct Hh' as (Hab & Hn & Ha & Hb). split.
  - clear Hcover Hdis Hd. induction parts as [|m parts IH]; [done|]. cbn.
    apply heap_ok_split. apply StronglySorted_inv in Hsort as [Hs Hm].
    rewrite Forall_forall in Hm. destruct (Hparts m) as (Hmo & Hm1 & Hm2); [left|].
    split; [apply IH; [|done]; intros k Hk; apply Hparts; by right|]. split; [done|]. split.
    + intros y Hy. apply Ha in Hy. lia.
    + intros y [Hy|Hy]%elem_of_app; [by apply Hm|]. apply Hb in Hy. lia.
  - split; [done|]. intros x. rewrite has_middle, !has_app. specialize (Hcover x).
    specialize (Hdis x). specialize (Hd x Hh). rewrite has_app in Hd. tauto.
Qed.

Lemma allocate_loop_find entries h k td ok :
  allocate_loop entries h k td ok =
    match List.find (λ n, k <=? Size n) entries with
    | None => Ok (STATUS_INSUFFICIENT_VA_SPACE, None, h)
    | Some n => allocate_loop [n] h k td ok
    end.
Proof.
  induction entries as [|n entries IH]; [done|]. cbn [List.find].
  destruct (Z.leb_spec k (Size n)) as [Hle|Hgt].
  - cbn. destruct (Size n =? k); [done|]. by rewrite (proj2 (Z.ltb_ge _ _)) by lia.
  - cbn [allocate_loop]. rewrite (proj2 (Z.eqb_neq _ _)), (proj2 (Z.ltb_lt _ _)) by lia. apply IH.
Qed.

(** Taking [k] pages from the node [n]. *)
Lemma allocate_at a n b k td :
  heap_ok (a ++ n :: b) → 0 < k ≤ Size n →
  ∃ node h', allocate_loop [n] (a ++ n :: b) k td true = Ok (STATUS_SUCCESS, Some node, h') ∧
    Size node = k ∧
    StartVa node = (if td then StartVa n + (Size n - k) * PAGE_SIZE else StartVa n) ∧
    carved (a ++ n :: b) node h'.
Proof.
  intros Hh Hk. pose proof (heap_keys a n b Hh) as [Ha Hb].
  assert (node_ok n) as Hn by (eapply heap_ok_node; [done|set_solver]).
  pose proof Hn as (H0 & Hal & Hs & He). pose proof (node_grows n Hn) as Hgr.
  cbn [allocate_loop]. destruct (Z.eqb_spec (Size n) k) as [<-|Hne].
  { exists n, (a ++ b). rewrite (remove_at a n b Ha : RemoveItemRbTree _ (StartVa n) = _). split; [done|].
    split; [done|]. split; [destruct td; lia|]. by apply carved_whole. }
  rewrite (proj2 (Z.ltb_ge _ _)) by lia. unfold end_ in He.
  rewrite (wrap_small 64 (Size n - k)) by (unfold PAGE_SIZE in *; lia).
  rewrite !(wrap_pages n) by (done || lia). rewrite !(wrap_inside n) by (done || lia).
  rewrite (check_true (PAGE_ALIGNED _)) by (apply aligned_divide; destruct td; [by apply divide_add_pages|done]).
  cbn [mbind outcome_bind].
  rewrite (next_at a n b Ha : GetNextEntryRbTree (a ++ n :: b) (StartVa n) = head b).
  assert ((match head b with
    | Some Next => check ((if td then StartVa n + (Size n - k) * PAGE_SIZE else StartVa n) <=? StartVa Next)
    | None => Ok tt end) = Ok tt) as ->.
  { destruct b as [|y b]; [done|]. cbn. apply check_true, Z.leb_le.
    assert (end_ n < StartVa y) by (apply (Hb y); left). unfold end_, PAGE_SIZE in *. destruct td; nia. }
  cbn [mbind outcome_bind].
  rewrite (update_at a n b _ Ha : update_entry (a ++ n :: b) (StartVa n) _ = _).
  destruct td; cbv iota.
  - set (v := StartVa n + (Size n - k) * PAGE_SIZE).
    set (l := mkNode (StartVa n) (Size n - k)). set (n1 := mkNode v (Size n)).
    assert (StartVa n < v) as Hv by (unfold v, PAGE_SIZE in *; nia).
    rewrite create_ok by done. cbn [mbind outcome_bind check].
    change (mkNode (StartVa n) (Size n - k)) with l.
    assert (InsertItemRbTree (a ++ n1 :: b) l = Some (a ++ l :: n1 :: b)) as ->.
    { apply insert_at; [done|]. intros y [->|Hy]%elem_of_cons; [done|].
      apply Hb in Hy. unfold key, node_key, end_, PAGE_SIZE in *. cbn in *. lia. }
    cbn [default from_option id].
    assert (all_below (a ++ [l]) v) as Hbl.
    { intros y [Hy| ->%list_elem_of_singleton]%elem_of_app; [apply Ha in Hy|];
        unfold key, node_key in *; cbn in *; lia. }
    rewrite (cons_middle l a (n1 :: b)), app_assoc.
    rewrite (update_at (a ++ [l]) n1 b _ Hbl : update_entry _ v _ = _).
    rewrite (remove_at (a ++ [l]) (mkNode v k) b Hbl : RemoveItemRbTree _ v = _).
    eexists _, _. split; [done|]. split; [done|]. split; [done|].
    rewrite <-app_assoc. apply carved_parts; try done.
    + unfold node_ok, end_. cbn. split; [unfold v, PAGE_SIZE in *; nia|].
      split; [by apply divide_add_pages|]. unfold v, PAGE_SIZE in *. nia.
    + intros m ->%list_elem_of_singleton. unfold node_ok, end_, l. cbn.
      split_and!; try done; unfold PAGE_SIZE in *; nia.
    + apply StronglySorted_cons. split; [constructor|constructor].
    + intros x. rewrite has_cons. pose proof (has_nil x). unfold node_has, end_, l, v, PAGE_SIZE in *.
      cbn. assert (x < StartVa n + (Size n - k) * 4096 ∨ StartVa n + (Size n - k) * 4096 ≤ x) by lia.
      split; [intros; nia|]. intros [?|[?|?]]; [nia|nia|done].
    + intros x. rewrite has_cons. intros [Hx [Hx'|Hx']]; [|by apply (has_nil x)].
      unfold node_has, end_, l, v in *. cbn in *. lia.
  - set (v := StartVa n + k * PAGE_SIZE). set (r := mkNode v (Size n - k)).
    assert (StartVa n < v) as Hv by (unfold v, PAGE_SIZE in *; nia).
    rewrite create_ok by by apply divide_add_pages. cbn [mbind outcome_bind check].
    set (n1 := mkNode (StartVa n) (Size n)). change (mkNode v (Size n - k)) with r.
    assert (InsertItemRbTree (a ++ n1 :: b) r = Some (a ++ n1 :: r :: b)) as ->.
    { rewrite (cons_middle n1 a b), app_assoc, (cons_middle n1 a (r :: b)), (app_assoc a).
      apply insert_at.
      - intros y [Hy| ->%list_elem_of_singleton]%elem_of_app; [apply Ha in Hy|];
          unfold key, node_key in *; cbn in *; lia.
      - intros y Hy. apply Hb in Hy. unfold key, node_key, end_, v in *. cbn.
        unfold PAGE_SIZE in *. nia. }
    cbn [default from_option id].
    rewrite (update_at a n1 (r :: b) _ Ha : update_entry _ (StartVa n) _ = _).
    rewrite (remove_at a (mkNode (StartVa n) k) (r :: b) Ha : RemoveItemRbTree _ (StartVa n) = _).
    eexists _, _. split; [done|]. split; [done|]. split; [done|].
    apply (carved_parts a n b (mkNode (StartVa n) k) [r]); try done.
    + unfold node_ok, end_. cbn. split_and!; try done; unfold PAGE_SIZE in *; nia.
    + intros m ->%list_elem_of_singleton. unfold node_ok, end_, r. cbn.
      split_and!; try (unfold v, PAGE_SIZE in *; nia). by apply divide_add_pages.
    + apply StronglySorted_cons. split; [constructor|constructor].
    + intros x. rewrite has_cons. pose proof (has_nil x). unfold node_has, end_, r, v, PAGE_SIZE in *.
      cbn. assert (x < StartVa n + k * 4096 ∨ StartVa n + k * 4096 ≤ x) by lia.
      split; [intros; nia|]. intros [?|[?|?]]; [nia|nia|done].
    + intros x. rewrite has_cons. intros [Hx [Hx'|Hx']]; [|by apply (has_nil x)].
      unfold node_has, end_, r, v in *. cbn in *. lia.
Qed.

(** ** Allocation at an address *)

(** Whole pages that cover [n] bytes' worth of pages from [va]. *)
Definition page_base (va : Z) : Z := va - va `mod` PAGE_SIZE.
Definition pages_for (va n : Z) : Z :=
  (n * PAGE_SIZE + va `mod` PAGE_SIZE + PAGE_SIZE - 1) / PAGE_SIZE.

Lemma land_offset va : Z.land va (PAGE_SIZE - 1) = va `mod` PAGE_SIZE.
Proof. change (PAGE_SIZE - 1) with (Z.ones 12). by rewrite Z.land_ones. Qed.

Lemma ldiff_base va : Z.ldiff va (PAGE_SIZE - 1) = page_base va.
Proof.
  change (PAGE_SIZE - 1) with (Z.ones 12). rewrite Z.ldiff_ones_r by lia.
  rewrite Z.shiftl_mul_pow2, Z.shiftr_div_pow2 by lia. change (2 ^ 12) with PAGE_SIZE.
  unfold page_base. pose proof (Z.div_mod va PAGE_SIZE ltac:(done)). lia.
Qed.

Lemma page_base_aligned va : (PAGE_SIZE | page_base va).
Proof.
  unfold page_base. exists (va / PAGE_SIZE). pose proof (Z.div_mod va PAGE_SIZE ltac:(done)). lia.
Qed.

Lemma offset_range va : 0 ≤ va `mod` PAGE_SIZE < PAGE_SIZE.
Proof. by apply Z.mod_pos_bound. Qed.

Lemma pages_for_bounds va n :
  0 ≤ va → 0 ≤ n →
  let k := pages_for va n in
  0 ≤ k ∧ page_base va + k * PAGE_SIZE < va + n * PAGE_SIZE + PAGE_SIZE ∧
  va + n * PAGE_SIZE ≤ page_base va + k * PAGE_SIZE.
Proof.
  intros Hva Hn k. pose proof (offset_range va) as Ho. unfold k, pages_for, page_base.
  set (t := n * PAGE_SIZE + va `mod` PAGE_SIZE + PAGE_SIZE - 1).
  pose proof (Z.div_mod t PAGE_SIZE ltac:(done)) as Hd.
  pose proof (Z.mod_pos_bound t PAGE_SIZE ltac:(done)) as Hm.
  assert (0 ≤ t / PAGE_SIZE) by (apply Z.div_pos; unfold t, PAGE_SIZE in *; lia).
  unfold t, PAGE_SIZE in *. lia.
Qed.

(** The range is free exactly if the node below its start reaches its end. *)
Lemma range_free a n b lo hi :
  heap_ok (a ++ n :: b) → StartVa n ≤ lo → (∀ y, y ∈ b → lo < StartVa y) → lo < hi →
  (∀ x, lo ≤ x < hi → has (a ++ n :: b) x) ↔ hi ≤ end_ n.
Proof.
  intros Hh Hlo Hb Hlt. split.
  - intros Hr. destruct (range_in_one_node _ lo hi Hh Hlt Hr) as (m & Hm & Hm1 & Hm2).
    apply heap_ok_split in Hh as (_ & _ & Ha & _).
    apply elem_of_app in Hm as [Hm|[->|Hm]%elem_of_cons]; [apply Ha in Hm; lia|done|].
    apply Hb in Hm. lia.
  - intros He x Hx. exists n. split; [set_solver|]. unfold node_has. lia.
Qed.

Lemma remove_key a n b :
  all_below a (StartVa n) → RemoveItemRbTree (a ++ n :: b) (StartVa n) = a ++ b.
Proof. apply (remove_at a n b). Qed.

Lemma update_key a n b n' :
  all_below a (StartVa n) → update_entry (a ++ n :: b) (StartVa n) n' = a ++ n' :: b.
Proof. apply (update_at a n b). Qed.

Lemma insert_node a n b :
  all_below a (StartVa n) → all_above b (StartVa n) →
  InsertItemRbTree (a ++ b) n = Some (a ++ n :: b).
Proof. apply (insert_at a n b). Qed.

Lemma all_below_snoc (a : MMHEAP) n k :
  all_below a k → StartVa n < k → all_below (a ++ [n]) k.
Proof. intros Ha Hn y [Hy| ->%list_elem_of_singleton]%elem_of_app; [by apply Ha|done]. Qed.

Lemma all_below_le (a : MMHEAP) k k' : all_below a k → k ≤ k' → all_below a k'.
Proof. intros Ha Hk y Hy. apply Ha in Hy. lia. Qed.

Lemma all_above_le (b : MMHEAP) k k' : all_above b k → k' ≤ k → all_above b k'.
Proof. intros Hb Hk y Hy. apply Hb in Hy. lia. Qed.

(** A node in the middle of [n], with what is left on both sides. *)
Lemma carved_middle a n b v k :
  heap_ok (a ++ n :: b) → (PAGE_SIZE | v) → 0 < k → StartVa n < v → v + k * PAGE_SIZE < end_ n →
  carved (a ++ n :: b) (mkNode v k)
    (a ++ [mkNode (StartVa n) ((v - StartVa n) / PAGE_SIZE);
           mkNode (v + k * PAGE_SIZE) ((end_ n - (v + k * PAGE_SIZE)) / PAGE_SIZE)] ++ b).
Proof.
  intros Hh Hv Hk Hlo Hhi.
  assert (node_ok n) as (H0 & Hal & Hs & He) by (eapply heap_ok_node; [done|set_solver]).
  destruct Hv as [v' ->]. destruct Hal as [s' Hs']. unfold end_ in *. rewrite Hs' in *.
  replace (v' * PAGE_SIZE - s' * PAGE_SIZE) with ((v' - s') * PAGE_SIZE) by lia.
  replace (s' * PAGE_SIZE + Size n * PAGE_SIZE - (v' * PAGE_SIZE + k * PAGE_SIZE))
    with ((s' + Size n - v' - k) * PAGE_SIZE) by lia.
  rewrite !Z.div_mul by done. unfold PAGE_SIZE in *.
  apply carved_parts; try done.
  - unfold node_ok, end_, PAGE_SIZE. cbn. split_and!; try lia. by exists v'.
  - intros m [->|[->|Hm]%elem_of_cons]%elem_of_cons; [..|by apply not_elem_of_nil in Hm];
      unfold node_ok, end_, PAGE_SIZE; cbn; rewrite ?Hs'; split_and!; try lia.
    + by exists s'.
    + exists (v' + k). unfold PAGE_SIZE. lia.
  - repeat constructor. unfold end_, PAGE_SIZE. cbn. lia.
  - intros x. rewrite !has_cons. pose proof (has_nil x).
    unfold node_has, end_, PAGE_SIZE. cbn. rewrite Hs'.
    assert (x < v' * 4096 ∨ v' * 4096 ≤ x < v' * 4096 + k * 4096 ∨ v' * 4096 + k * 4096 ≤ x) by lia.
    split; [intros; lia|]. intros [?|[?|[?|?]]]; [lia|lia|lia|done].
  - intros x. rewrite !has_cons. intros [Hx [Hx'|[Hx'|Hx']]]; [..|by apply (has_nil x)];
      unfold node_has, end_, PAGE_SIZE in *; cbn in *; lia.
Qed.

(** The node cut at one side only. *)
Lemma carved_low a n b k :
  heap_ok (a ++ n :: b) → 0 < k < Size n →
  carved (a ++ n :: b) (mkNode (StartVa n) k)
    (a ++ [mkNode (StartVa n + k * PAGE_SIZE) (Size n - k)] ++ b).
Proof.
  intros Hh Hk.
  assert (node_ok n) as (H0 & Hal & Hs & He) by (eapply heap_ok_node; [done|set_solver]).
  unfold end_, PAGE_SIZE in He. apply carved_parts; try done.
  - unfold node_ok, end_, PAGE_SIZE in *. cbn. split_and!; try done; lia.
  - intros m ->%list_elem_of_singleton. unfold node_ok, end_. cbn. split_and!; try (unfold PAGE_SIZE; lia).
    by apply divide_add_pages.
  - repeat constructor.
  - intros x. rewrite has_cons. pose proof (has_nil x). unfold node_has, end_, PAGE_SIZE. cbn.
    split; [intros; lia|]. intros [?|[?|?]]; [lia|lia|done].
  - intros x. rewrite has_cons. intros [Hx [Hx'|Hx']]; [|by apply (has_nil x)].
    unfold node_has, end_ in *. cbn in *. lia.
Qed.

Lemma carved_high a n b k :
  heap_ok (a ++ n :: b) → 0 < k < Size n →
  carved (a ++ n :: b) (mkNode (StartVa n + (Size n - k) * PAGE_SIZE) k)
    (a ++ [mkNode (StartVa n) (Size n - k)] ++ b).
Proof.
  intros Hh Hk.
  assert (node_ok n) as (H0 & Hal & Hs & He) by (eapply heap_ok_node; [done|set_solver]).
  unfold end_, PAGE_SIZE in He. apply carved_parts; try done.
  - unfold node_ok, end_. cbn. split_and!; try (unfold PAGE_SIZE; lia). by apply divide_add_pages.
  - intros m ->%list_elem_of_singleton. unfold node_ok, end_. cbn. split_and!; try done; unfold PAGE_SIZE; lia.
  - repeat constructor.
  - intros x. rewrite has_cons. pose proof (has_nil x). unfold node_has, end_, PAGE_SIZE. cbn.
    split; [intros; lia|]. intros [?|[?|?]]; [lia|lia|done].
  - intros x. rewrite has_cons. intros [Hx [Hx'|Hx']]; [|by apply (has_nil x)].
    unfold node_has, end_ in *. cbn in *. lia.
Qed.

(** The arithmetic of the request does not wrap. *)
Lemma request_pages va n :
  0 ≤ va → 0 < n → va + (n + 1) * PAGE_SIZE < 2 ^ 64 →
  u64 (u64 (u64 (n * PAGE_SIZE) + Z.land va (PAGE_SIZE - 1)) + PAGE_SIZE - 1) / PAGE_SIZE =
    pages_for va n ∧
  u64 (pages_for va n * PAGE_SIZE) = pages_for va n * PAGE_SIZE ∧
  u64 (page_base va + pages_for va n * PAGE_SIZE) = page_base va + pages_for va n * PAGE_SIZE.
Proof.
  intros Hva Hn Hb. pose proof (offset_range va) as Ho.
  pose proof (pages_for_bounds va n Hva ltac:(lia)) as (Hk0 & Hk1 & Hk2).
  assert (0 ≤ page_base va) as Hp.
  { unfold page_base. pose proof (Z.mod_le va PAGE_SIZE ltac:(lia) ltac:(done)). lia. }
  rewrite land_offset. unfold PAGE_SIZE in *.
  split; [|split; apply wrap_small; lia].
  rewrite (wrap_small 64 (n * 4096)) by lia. rewrite (wrap_small 64 (n * 4096 + _)) by lia.
  by rewrite (wrap_small 64) by lia.
Qed.

(** ** The three cuts *)

(** The heap after a cut that leaves the pages after the first [k]. *)
Lemma cut_right a x b k ok :
  heap_ok (a ++ x :: b) → 0 < k < Size x →
  ('(ok, h) ← MmpCreateRegionHeap ok (a ++ x :: b) (u64 (StartVa x + k * PAGE_SIZE))
     (u64 (Size x - k));
   if negb ok then Ok (STATUS_INSUFFICIENT_MEMORY, @None MMADDRESS_NODE, h)
   else
     let Node' := mkNode (StartVa x) k in
     Ok (STATUS_SUCCESS, Some Node',
         RemoveItemRbTree (update_entry h (StartVa x) Node') (StartVa Node'))) =
  if ok then
    Ok (STATUS_SUCCESS, Some (mkNode (StartVa x) k),
        a ++ [mkNode (StartVa x + k * PAGE_SIZE) (Size x - k)] ++ b)
  else Ok (STATUS_INSUFFICIENT_MEMORY, None, a ++ x :: b).
Proof.
  intros Hh Hk. pose proof (heap_keys a x b Hh) as [Ha Hb].
  assert (node_ok x) as Hn by (eapply heap_ok_node; [done|set_solver]).
  pose proof Hn as (H0 & Hal & Hs & He). unfold end_ in He.
  rewrite (wrap_inside x) by (done || lia).
  rewrite (wrap_small 64 (Size x - k)) by (unfold PAGE_SIZE in *; lia).
  destruct ok; [|by rewrite create_fails by by apply divide_add_pages].
  rewrite create_ok by by apply divide_add_pages. cbn [mbind outcome_bind negb StartVa].
  set (r := mkNode _ (Size x - k)).
  rewrite (cons_middle x a b), app_assoc.
  rewrite insert_node.
  - cbn [default from_option id]. rewrite <-app_assoc. cbn [app].
    rewrite update_key by done. by rewrite (remove_key a (mkNode (StartVa x) k)).
  - apply all_below_snoc; [apply (all_below_le _ (StartVa x)); [done|unfold r, PAGE_SIZE; cbn; lia]|].
    unfold r, PAGE_SIZE. cbn. lia.
  - apply (all_above_le _ (end_ x)); [done|]. unfold r, end_, PAGE_SIZE. cbn. lia.
Qed.

Lemma cut_left a x b k ok :
  heap_ok (a ++ x :: b) → 0 < k < Size x →
  (let Start := u64 (end_ x - k * PAGE_SIZE) in
   _ ← check (PAGE_ALIGNED Start);
   let Node' := mkNode Start k in
   let h := update_entry (a ++ x :: b) (StartVa x) Node' in
   '(ok, h) ← MmpCreateRegionHeap ok h (StartVa x) (u64 (Size x - k));
   if negb ok then Ok (STATUS_INSUFFICIENT_MEMORY, @None MMADDRESS_NODE, update_entry h (StartVa Node') x)
   else Ok (STATUS_SUCCESS, Some Node', RemoveItemRbTree h (StartVa Node'))) =
  if ok then
    Ok (STATUS_SUCCESS, Some (mkNode (StartVa x + (Size x - k) * PAGE_SIZE) k),
        a ++ [mkNode (StartVa x) (Size x - k)] ++ b)
  else Ok (STATUS_INSUFFICIENT_MEMORY, None, a ++ x :: b).
Proof.
  intros Hh Hk. pose proof (heap_keys a x b Hh) as [Ha Hb].
  assert (node_ok x) as Hn by (eapply heap_ok_node; [done|set_solver]).
  pose proof Hn as (H0 & Hal & Hs & He).
  assert (u64 (end_ x - k * PAGE_SIZE) = StartVa x + (Size x - k) * PAGE_SIZE) as ->.
  { rewrite wrap_small; unfold end_, PAGE_SIZE in *; lia. }
  set (v := StartVa x + (Size x - k) * PAGE_SIZE).
  assert (StartVa x < v < end_ x) as Hv by (unfold v, end_, PAGE_SIZE; lia).
  rewrite (wrap_small 64 (Size x - k)) by (unfold end_, PAGE_SIZE in *; lia).
  cbv zeta. rewrite check_true by (by apply aligned_divide, divide_add_pages).
  cbn [mbind outcome_bind]. rewrite update_key by done. cbn [StartVa].
  assert (all_below a v) as Hav by (apply (all_below_le _ (StartVa x)); [done|lia]).
  destruct ok.
  - rewrite create_ok by done. cbn [mbind outcome_bind negb].
    rewrite insert_node.
    + cbn [default from_option id]. set (l := mkNode (StartVa x) (Size x - k)).
      rewrite (cons_middle l a), app_assoc.
      rewrite (remove_key (a ++ [l]) (mkNode v k)); [by rewrite <-app_assoc|].
      cbn [StartVa]. apply all_below_snoc; [done|unfold l; cbn; lia].
    + done.
    + intros y [->|Hy]%elem_of_cons; [unfold key, node_key; cbn; lia|].
      apply Hb in Hy. cbn. lia.
  - rewrite create_fails by done. cbn [mbind outcome_bind negb].
    by rewrite (update_key a (mkNode v k)).
Qed.

Lemma cut_middle a x b v k :
  heap_ok (a ++ x :: b) → (PAGE_SIZE | v) → 0 < k → StartVa x < v → v + k * PAGE_SIZE < end_ x →
  (_ ← check (PAGE_ALIGNED v);
   let Node' := mkNode v k in
   let h := update_entry (a ++ x :: b) (StartVa x) Node' in
   _ ← check (PAGE_ALIGNED (StartVa x));
   let Node1 := mkNode (StartVa x) (u64 (v - StartVa x) / PAGE_SIZE) in
   let Node2 := mkNode (v + k * PAGE_SIZE)
     (u64 (u64 (StartVa x + u64 (Size x * PAGE_SIZE)) - (v + k * PAGE_SIZE)) / PAGE_SIZE) in
   _ ← check (PAGE_ALIGNED (v + k * PAGE_SIZE));
   let h := default h (InsertItemRbTree h Node1) in
   let h := default h (InsertItemRbTree h Node2) in
   Ok (STATUS_SUCCESS, Some Node', RemoveItemRbTree h (StartVa Node'))) =
  Ok (STATUS_SUCCESS, Some (mkNode v k),
      a ++ [mkNode (StartVa x) ((v - StartVa x) / PAGE_SIZE);
            mkNode (v + k * PAGE_SIZE) ((end_ x - (v + k * PAGE_SIZE)) / PAGE_SIZE)] ++ b).
Proof.
  intros Hh Hv Hk Hlo Hhi. pose proof (heap_keys a x b Hh) as [Ha Hb].
  assert (node_ok x) as Hn by (eapply heap_ok_node; [done|set_solver]).
  pose proof Hn as (H0 & Hal & Hs & He).
  change (u64 (StartVa x + u64 (Size x * PAGE_SIZE))) with (Node_EndVa x). rewrite end_wrap by done.
  rewrite (wrap_small 64 (v - StartVa x)) by (unfold PAGE_SIZE in *; lia).
  rewrite (wrap_small 64 (end_ x - _)) by (unfold PAGE_SIZE in *; lia).
  rewrite !(check_true (PAGE_ALIGNED _)) by
    (apply aligned_divide; try done; by apply divide_add_pages).
  cbn [mbind outcome_bind]. cbv zeta. rewrite update_key by done. cbn [StartVa].
  set (n := mkNode v k). set (l := mkNode (StartVa x) _). set (r := mkNode (v + k * PAGE_SIZE) _).
  assert (all_below a v) as Hav by (apply (all_below_le _ (StartVa x)); [done|lia]).
  rewrite (insert_node a l (n :: b)).
  2: done.
  2: { intros y [->|Hy]%elem_of_cons; [done|]. apply Hb in Hy. unfold l, PAGE_SIZE in *; cbn; lia. }
  cbn [default from_option id].
  assert (all_below (a ++ [l]) v) as Hlv by (apply all_below_snoc; [done|unfold l; cbn; lia]).
  replace (a ++ l :: n :: b) with (((a ++ [l]) ++ [n]) ++ b) by (by rewrite <-!app_assoc).
  rewrite (insert_node _ r b).
  - cbn [default from_option id]. rewrite <-!app_assoc. cbn [app]. rewrite cons_middle, app_assoc.
    change v with (StartVa n) at 1. rewrite (remove_key (a ++ [l]) n (r :: b)) by done. by rewrite <-app_assoc.
  - apply all_below_snoc; [|unfold n, r, PAGE_SIZE; cbn; lia].
    apply (all_below_le _ v); [done|]. unfold r, PAGE_SIZE. cbn. lia.
  - apply (all_above_le _ (end_ x)); [done|]. unfold r. cbn. lia.
Qed.

(** What an allocation at an address may answer. *)
Definition range_answer (h : MMHEAP) (base k : Z) (ok : bool)
    (r : outcome (BSTATUS * option MMADDRESS_NODE * MMHEAP)) : Prop :=
  let free := ∀ x, base ≤ x < base + k * PAGE_SIZE → has h x in
  (free ∧ ∃ h', r = Ok (STATUS_SUCCESS, Some (mkNode base k), h') ∧ carved h (mkNode base k) h') ∨
  (free ∧ ok = false ∧ r = Ok (STATUS_INSUFFICIENT_MEMORY, None, h)) ∨
  (¬ free ∧ r = Ok (STATUS_CONFLICTING_ADDRESSES, None, h)).

Lemma allocate_range_spec h va n ok1 ok2 :
  heap_ok h → 0 ≤ va → 0 < n → va + (n + 1) * PAGE_SIZE < 2 ^ 64 →
  range_answer h (page_base va) (pages_for va n) (ok1 && ok2)
    (MmAllocateAddressRange h va n ok1 ok2).
Proof.
  intros Hh Hva Hn Hbd. pose proof (request_pages va n Hva Hn Hbd) as (Hk & Hkw & Hew).
  pose proof (pages_for_bounds va n Hva ltac:(lia)) as (Hk0 & Hk1 & Hk2).
  pose proof (page_base_aligned va) as Hal. pose proof (offset_range va) as Ho.
  unfold MmAllocateAddressRange. rewrite Hk, ldiff_base, Hkw, Hew. clear Hk.
  set (v := page_base va) in *. set (k := pages_for va n) in *.
  assert (0 < k) as Hkp by (unfold v, page_base, PAGE_SIZE in *; lia).
  clearbody v k. clear Hk1 Hk2 Hbd Ho Hn Hva n va.
  destruct (ascending_locate h v (heap_ok_ascending h Hh)) as [Hall|(a & x & b & -> & Hx & Hb)].
  { rewrite approximate_none by (done || by apply heap_ok_ascending). right; right. split; [|done].
    intros Hf. destruct (Hf v) as (m & Hm & Hmv); [unfold PAGE_SIZE; lia|].
    apply Hall in Hm. unfold node_has, key, node_key in *. lia. }
  rewrite approximate_at by (done || by apply heap_ok_ascending).
  pose proof (heap_keys a x b Hh) as [Hba Hbb].
  assert (node_ok x) as Hn by (eapply heap_ok_node; [done|set_solver]).
  pose proof (range_free a x b v (v + k * PAGE_SIZE) Hh Hx Hb ltac:(unfold PAGE_SIZE; lia)) as Hfree.
  unfold key, node_key in Hx, Hb, Hfree. rewrite (end_wrap x Hn). unfold range_answer. rewrite Hfree.
  pose proof (node_grows x Hn) as Hgr. pose proof Hn as (Hs0 & Hsal & Hsz & Hse).
  destruct (Z.eqb_spec (Size x) k) as [Hsk|Hsk], (Z.eqb_spec (StartVa x) v) as [Hv|Hv]; cbn [andb].
  - left. split; [unfold end_; rewrite Hsk, Hv; lia|]. subst. rewrite remove_key by done.
    exists (a ++ b). destruct x. split; [done|]. by apply carved_whole.
  - right; right. unfold end_. split; [rewrite Hsk; unfold PAGE_SIZE; lia|].
    rewrite (proj2 (Z.ltb_ge _ _)) by lia. rewrite (proj2 (Z.ltb_lt _ _)); [done|].
    rewrite Hsk. unfold PAGE_SIZE. lia.
  - destruct (Z.ltb_spec (Size x) k) as [Hlt|Hge].
    { right; right. unfold end_. split; [unfold PAGE_SIZE in *; lia|done]. }
    rewrite (proj2 (Z.ltb_ge _ _)) by (unfold end_, PAGE_SIZE in *; lia).
    pose proof (cut_right a x b k ok1 Hh ltac:(lia)) as Hcut. cbv zeta in Hcut. rewrite Hcut. subst v.
    assert (StartVa x + k * PAGE_SIZE ≤ end_ x) as Hin by (unfold end_, PAGE_SIZE; lia).
    destruct ok1; cbn [andb]; [|by right; left]. left. split; [done|]. eexists. split; [done|].
    by apply carved_low; [|lia].
  - destruct (Z.ltb_spec (Size x) k) as [Hlt|Hge].
    { right; right. unfold end_. split; [unfold PAGE_SIZE in *; lia|done]. }
    destruct (Z.ltb_spec (end_ x) (v + k * PAGE_SIZE)) as [Hlt|Hin].
    { right; right. split; [lia|done]. }
    destruct (Z.eqb_spec (end_ x) (v + k * PAGE_SIZE)) as [He|He].
    + assert (v = StartVa x + (Size x - k) * PAGE_SIZE) as -> by (unfold end_, PAGE_SIZE in *; lia).
      pose proof (cut_left a x b k ok1 Hh ltac:(lia)) as Hcut. cbv zeta in Hcut. rewrite Hcut.
      destruct ok1; cbn [andb]; [|by right; left].
      left. split; [done|]. eexists. split; [done|]. by apply carved_high; [|lia].
    + destruct (ok1 && ok2) eqn:Hok; cbn [negb]; [|by right; left].
      pose proof (cut_middle a x b v k Hh Hal Hkp ltac:(lia) ltac:(lia)) as Hcut.
      cbv zeta in Hcut. rewrite Hcut.
      left. split; [done|]. eexists. split; [done|]. apply carved_middle; (done || lia).
Qed.

(** ** Freeing *)

(** Two adjacent nodes as one. *)
Definition joined (n y : MMADDRESS_NODE) : MMADDRESS_NODE := mkNode (StartVa n) (Size n + Size y).

Lemma joined_ok n y :
  node_ok n → node_ok y → StartVa y = end_ n → node_ok (joined n y) ∧ end_ (joined n y) = end_ y.
Proof.
  intros (Hn0 & Hna & Hns & Hne) (Hy0 & Hya & Hys & Hye) Heq. unfold node_ok, joined, end_ in *. cbn.
  rewrite Heq in Hye |- *. split_and!; try done; unfold PAGE_SIZE in *; lia.
Qed.

Lemma joined_has n y x :
  node_ok n → node_ok y → StartVa y = end_ n →
  node_has (joined n y) x ↔ node_has n x ∨ node_has y x.
Proof.
  intros Hn Hy Heq. destruct (joined_ok n y Hn Hy Heq) as [_ He]. unfold node_has. rewrite He.
  apply node_grows in Hn, Hy. unfold PAGE_SIZE in *. cbn. lia.
Qed.

Lemma merge_next a n b :
  all_below a (StartVa n) → node_ok n → (∀ y, y ∈ b → node_ok y) →
  MmpTryMergeNext (a ++ n :: b) n =
    match b with
    | y :: b' => if StartVa y =? end_ n then a ++ joined n y :: b' else a ++ n :: b
    | [] => a ++ n :: b
    end.
Proof.
  intros Ha Hn Hb. unfold MmpTryMergeNext. rewrite (next_at a n b Ha : GetNextEntryRbTree _ (StartVa n) = _).
  destruct b as [|y b]; [done|]. cbn [head]. rewrite (end_wrap n Hn).
  destruct (Z.eqb_spec (StartVa y) (end_ n)) as [Heq|]; [|done].
  assert (node_ok y) as Hy by (apply Hb; left). pose proof (node_grows n Hn) as Hgr.
  rewrite (cons_middle n a), app_assoc, remove_key, <-app_assoc.
  2: { apply all_below_snoc; [|unfold PAGE_SIZE in *; lia].
       apply (all_below_le _ (StartVa n)); [done|unfold PAGE_SIZE in *; lia]. }
  cbn [app]. rewrite update_key by done. unfold joined. rewrite wrap_small; [done|].
  destruct Hn as (? & ? & ? & ?), Hy as (? & ? & ? & ?). unfold end_, PAGE_SIZE in *. lia.
Qed.

(** A node next to the nodes [a] below it and apart from those above it. *)
Lemma close_left a m c :
  heap_ok (a ++ c) → node_ok m → (∀ y, y ∈ a → end_ y ≤ StartVa m) →
  (∀ y, y ∈ c → end_ m < StartVa y) → ascending (a ++ m :: c) →
  let h := match GetPrevEntryRbTree (a ++ m :: c) (StartVa m) with
    | Some p => MmpTryMergeNext (a ++ m :: c) p
    | None => a ++ m :: c
    end in
  heap_ok h ∧ ∀ x, has h x ↔ node_has m x ∨ has (a ++ c) x.
Proof.
  intros Hac Hm Ha Hc Has. destruct a as [|p a' _] using rev_ind.
  - cbn [app] in *. rewrite (prev_first m c Has : GetPrevEntryRbTree _ (StartVa m) = _).
    split; [|intros x; apply has_cons]. apply (heap_ok_split []). split_and!; try done.
    intros y Hy. by apply not_elem_of_nil in Hy.
  - apply ascending_split in Has as (_ & Hbelow & _). rewrite <-!app_assoc in *. cbn [app] in *.
    rewrite (prev_at a' p m c Hbelow : GetPrevEntryRbTree _ (StartVa m) = _).
    pose proof (heap_keys a' p c Hac) as [Ha' _].
    apply heap_ok_split in Hac as Hsp. destruct Hsp as (Hac' & Hp & Hpa & Hpc).
    assert (end_ p ≤ StartVa m) as Hpm by (apply Ha; set_solver).
    assert (∀ y, y ∈ a' → end_ y < StartVa m) as Ham.
    { intros y Hy. apply Hpa in Hy. apply node_grows in Hp. unfold PAGE_SIZE in *. lia. }
    rewrite (merge_next a' p (m :: c) Ha' Hp).
    2: { intros y [->|Hy]%elem_of_cons; [done|]. destruct Hac' as [Hf _].
         rewrite Forall_forall in Hf. apply Hf. set_solver. }
    destruct (Z.eqb_spec (StartVa m) (end_ p)) as [Heq|Hne].
    + destruct (joined_ok p m Hp Hm Heq) as [Hj Hje]. split.
      * apply heap_ok_split. split_and!; try done. intros y Hy. rewrite Hje. by apply Hc.
      * intros x. rewrite has_middle, joined_has, has_middle by done. tauto.
    + split.
      * rewrite (cons_middle p a'), app_assoc. apply heap_ok_split. rewrite <-app_assoc.
        split_and!; try done. intros y [Hy| ->%list_elem_of_singleton]%elem_of_app; [by apply Ham|lia].
      * intros x. rewrite !has_app, !has_cons. tauto.
Qed.

Lemma free_spec h n :
  heap_ok h → node_ok n → (∀ x, ¬ (has h x ∧ node_has n x)) →
  ∃ h', MmFreeAddressSpace h n = (STATUS_SUCCESS, h') ∧ heap_ok h' ∧
        ∀ x, has h' x ↔ has h x ∨ node_has n x.
Proof.
  intros Hh Hn Hd. pose proof (node_grows n Hn) as Hgr. unfold MmFreeAddressSpace.
  assert (node_has n (StartVa n)) as Hst by (unfold node_has, PAGE_SIZE in *; lia).
  destruct (insert_place h n (heap_ok_ascending h Hh)) as [(a & b & -> & Ha & Hb & ->)|(y & Hy & Hk & _)].
  2: { exfalso. apply (Hd (StartVa n)). split; [|done]. exists y. split; [done|].
       pose proof (node_grows y (heap_ok_node _ _ Hh Hy)). unfold key, node_key in Hk.
       unfold node_has, PAGE_SIZE in *. lia. }
  change (key n) with (StartVa n) in Ha, Hb.
  assert (∀ y, y ∈ a ++ b → node_ok y) as Hok by (intros y Hy; by eapply heap_ok_node).
  assert (∀ y, y ∈ a → end_ y ≤ StartVa n) as Hal.
  { intros y Hy. pose proof (Ha y Hy) as Hlt. unfold key, node_key in Hlt.
    destruct (decide (end_ y ≤ StartVa n)) as [|Hgt]; [done|]. exfalso. apply (Hd (StartVa n)).
    split; [|done]. exists y. split; [set_solver|]. unfold node_has. lia. }
  assert (∀ y, y ∈ b → end_ n ≤ StartVa y) as Hbl.
  { intros y Hy. pose proof (Hb y Hy) as Hlt. unfold key, node_key in Hlt.
    destruct (decide (end_ n ≤ StartVa y)) as [|Hgt]; [done|]. exfalso. apply (Hd (StartVa y)).
    pose proof (node_grows y (Hok y ltac:(set_solver))). unfold PAGE_SIZE in *.
    split; [exists y; split; [set_solver|]|]; unfold node_has; lia. }
  rewrite (merge_next a n b Ha Hn) by (intros y Hy; apply Hok; set_solver).
  assert (∃ m c, match b with
      | y :: b' => if StartVa y =? end_ n then a ++ joined n y :: b' else a ++ n :: b
      | [] => a ++ n :: b end = a ++ m :: c ∧ StartVa m = StartVa n ∧ node_ok m ∧
      heap_ok (a ++ c) ∧ (∀ y, y ∈ c → end_ m < StartVa y) ∧
      ∀ x, node_has m x ∨ has (a ++ c) x ↔ has (a ++ b) x ∨ node_has n x)
    as (m & c & -> & Hmn & Hm & Hac & Hc & Hx).
  { destruct b as [|y b]; [exists n, []; split_and!; try done; [|tauto]; intros y Hy;
      by apply not_elem_of_nil in Hy|].
    apply heap_ok_split in Hh as Hsp. destruct Hsp as (Hab & Hy & _ & Hyb).
    destruct (Z.eqb_spec (StartVa y) (end_ n)) as [Heq|Hne].
    - destruct (joined_ok n y Hn Hy Heq) as [Hj Hje]. exists (joined n y), b. split_and!; try done.
      + intros z Hz. rewrite Hje. by apply Hyb.
      + intros x. rewrite joined_has, has_middle by done. tauto.
    - exists n, (y :: b). split_and!; try done; [|tauto].
      assert (end_ n < StartVa y) by (specialize (Hbl y ltac:(left)); lia).
      intros z [->|Hz]%elem_of_cons; [done|]. apply Hyb in Hz. apply node_grows in Hy.
      unfold PAGE_SIZE in *. lia. }
  rewrite <-Hmn in Ha, Hal |- *.
  assert (ascending (a ++ m :: c)) as Has.
  { apply ascending_split. split; [by apply heap_ok_ascending|]. split; [done|].
    intros y Hy. apply Hc in Hy. apply node_grows in Hm. unfold key, node_key, PAGE_SIZE in *. lia. }
  destruct (close_left a m c Hac Hm Hal Hc Has) as [Hres Hhas].
  destruct (GetPrevEntryRbTree (a ++ m :: c) (StartVa m)) as [p|]; eexists; split_and!; try done;
    intros x; rewrite Hhas; apply Hx.
Qed.

(** ** The heap's contract *)

(** A range of [k] pages from [v] is free. *)
Definition fits (h : MMHEAP) (k v : Z) : Prop := ∀ x, v ≤ x < v + k * PAGE_SIZE → has h x.

Lemma find_split {A} (P : A → bool) l x :
  List.find P l = Some x →
  ∃ a b, l = a ++ x :: b ∧ P x = true ∧ ∀ y, y ∈ a → P y = false.
Proof.
  induction l as [|y l IH]; [done|]. cbn. destruct (P y) eqn:Hy.
  - intros [= ->]. exists [], l. split_and!; try done. intros z Hz. by apply not_elem_of_nil in Hz.
  - intros (a & b & -> & Hx & Ha)%IH. exists (y :: a), b. split_and!; try done.
    intros z [->|Hz]%elem_of_cons; [done|by apply Ha].
Qed.

Lemma fits_node h k v :
  heap_ok h → 0 < k → fits h k v →
  ∃ n, n ∈ h ∧ k ≤ Size n ∧ StartVa n ≤ v ∧ v + k * PAGE_SIZE ≤ end_ n.
Proof.
  intros Hh Hk Hf. destruct (range_in_one_node h v (v + k * PAGE_SIZE) Hh) as (n & Hn & H1 & H2);
    [unfold PAGE_SIZE; lia|done|]. exists n. split_and!; try done. unfold end_, PAGE_SIZE in *. lia.
Qed.

(** The result of a search: the extreme free range, or none exists. *)
Definition space_answer (h : MMHEAP) (k : Z) (td : bool)
    (r : outcome (BSTATUS * option MMADDRESS_NODE * MMHEAP)) : Prop :=
  (∃ node h', r = Ok (STATUS_SUCCESS, Some node, h') ∧ Size node = k ∧ carved h node h' ∧
     ∀ v, fits h k v → if td then v ≤ StartVa node else StartVa node ≤ v) ∨
  (r = Ok (STATUS_INSUFFICIENT_VA_SPACE, None, h) ∧ ∀ v, ¬ fits h k v).

Lemma allocate_space_spec h k td :
  heap_ok h → 0 < k → space_answer h k td (MmAllocateAddressSpace h k td true).
Proof.
  intros Hh Hk. unfold MmAllocateAddressSpace. rewrite allocate_loop_find.
  destruct (List.find _ _) as [n|] eqn:Hf.
  - left. apply find_split in Hf as (a & b & Heq & Hn & Ha). apply Z.leb_le in Hn.
    assert (∃ l r, h = l ++ n :: r ∧ ∀ y, y ∈ (if td then r else l) → Size y < k)
      as (l & r & -> & Hsmall).
    { destruct td; [exists (reverse b), (reverse a)|exists a, b; split; [done|]];
        [split; [by rewrite <-(reverse_involutive h), Heq, reverse_app, reverse_cons, <-app_assoc|]|];
        intros y Hy; rewrite ?elem_of_reverse in Hy; apply Ha, Z.leb_gt in Hy; done. }
    destruct (allocate_at l n r k td Hh ltac:(lia)) as (node & h' & Hr & Hsz & Hst & Hc).
    exists node, h'. split_and!; try done. intros v (m & Hm & Hmk & Hm1 & Hm2)%fits_node; [|done..].
    apply heap_ok_split in Hh as (_ & Hno & Hl & Hrr). rewrite Hst.
    apply elem_of_app in Hm as [Hm|[->|Hm]%elem_of_cons]; destruct td;
      try (apply Hsmall in Hm; lia); try (apply Hl in Hm); try (apply Hrr in Hm);
      apply node_grows in Hno; unfold end_, PAGE_SIZE in *; lia.
  - right. split; [done|]. intros v (m & Hm & Hmk & _)%fits_node; [|done..].
    assert (m ∈ (if td then reverse h else h)) as Hm' by (destruct td; rewrite ?elem_of_reverse; done).
    apply list_elem_of_In in Hm'. eapply List.find_none in Hf; [|exact Hm']. cbn in Hf.
    apply Z.leb_gt in Hf. lia.
Qed.

(** On a well-formed heap, [MmAllocateAddressSpace] takes exactly the
    [SizePages] pages it returns out of the heap, which stays well formed; it
    picks the lowest (or, top down, the highest) free range of that size, and
    fails with the heap unchanged only if there is no such range. *)
Theorem MmAllocateAddressSpace_correct h SizePages TopDown :
  heap_ok h → 0 < SizePages →
  space_answer h SizePages TopDown (MmAllocateAddressSpace h SizePages TopDown true).
Proof. apply allocate_space_spec. Qed.

(** [MmAllocateAddressRange] rounds the request out to whole pages and
    takes exactly those pages out of the heap, keeping what is left on either
    side; it reports a conflict only if one of them is not free, running out
    of memory only if a node could not be allocated, and leaves the heap as it
    was in both cases. *)
Theorem MmAllocateAddressRange_correct h Va SizePages ok1 ok2 :
  heap_ok h → 0 ≤ Va → 0 < SizePages → Va + (SizePages + 1) * PAGE_SIZE < 2 ^ 64 →
  range_answer h (page_base Va) (pages_for Va SizePages) (ok1 && ok2)
    (MmAllocateAddressRange h Va SizePages ok1 ok2).
Proof. apply allocate_range_spec. Qed.

(** C40: freeing a node that shares no address with the heap adds exactly its
    addresses, and merges it with the free ranges that touch it: no two nodes
    of the resulting heap are adjacent. *)
Theorem MmFreeAddressSpace_correct h node :
  heap_ok h → node_ok node → (∀ x, ¬ (has h x ∧ node_has node x)) →
  ∃ h', MmFreeAddressSpace h node = (STATUS_SUCCESS, h') ∧ heap_ok h' ∧
        ∀ x, has h' x ↔ has h x ∨ node_has node x.
Proof. apply free_spec. Qed.

(** Freeing what was just allocated restores the very same heap. *)
Theorem allocate_free_roundtrip h SizePages TopDown node h' :
  heap_ok h → 0 < SizePages →
  MmAllocateAddressSpace h SizePages TopDown true = Ok (STATUS_SUCCESS, Some node, h') →
  MmFreeAddressSpace h' node = (STATUS_SUCCESS, h).
Proof.
  intros Hh Hk Hr. destruct (allocate_space_spec h SizePages TopDown Hh Hk)
    as [(n' & h1 & Hr' & _ & Hc & _)|[Hr' _]]; rewrite Hr in Hr'; [|done].
  injection Hr' as <- <-. destruct Hc as (Hh' & Hn & Hx).
  destruct (free_spec h' node Hh' Hn) as (h2 & -> & Hh2 & Hx2).
  { intros x [Hx1 Hx2]. by apply (Hx x). }
  f_equal. apply heap_canonical; try done. intros x. rewrite Hx2. destruct (Hx x) as [-> _]. tauto.
Qed.

(** With no pages asked for, the node that should keep the rest of the range
    collides with the one handed out, and the whole range leaves the heap. *)
Lemma zero_pages_lose_the_range :
  MmAllocateAddressSpace [mkNode 4096 2] 0 false true = Ok (STATUS_SUCCESS, Some (mkNode 4096 0), []).
Proof. reflexivity. Qed.

(** ** Witnesses *)

Definition sample_heap : MMHEAP := [mkNode 4096 2; mkNode 20480 8].

Lemma sample_heap_ok : heap_ok sample_heap.
Proof.
  split; unfold sample_heap.
  - rewrite !Forall_cons, Forall_nil. unfold node_ok, end_. cbn.
    split_and!; try done; (by exists 1) || (by exists 5).
  - repeat constructor.
Defined.

Lemma MmAllocateAddressSpace_correct_witness :
  space_answer sample_heap 3 true (MmAllocateAddressSpace sample_heap 3 true true) ∧
  MmAllocateAddressSpace sample_heap 3 true true =
    Ok (STATUS_SUCCESS, Some (mkNode 40960 3), [mkNode 4096 2; mkNode 20480 5]).
Proof.
  split; [|reflexivity]. apply (MmAllocateAddressSpace_correct _ 3 true sample_heap_ok). lia.
Defined.

Lemma MmAllocateAddressRange_correct_witness :
  range_answer sample_heap (page_base 24586) (pages_for 24586 1) (true && true)
    (MmAllocateAddressRange sample_heap 24586 1 true true) ∧
  MmAllocateAddressRange sample_heap 24586 1 true true =
    Ok (STATUS_SUCCESS, Some (mkNode 24576 2), [mkNode 4096 2; mkNode 20480 1; mkNode 32768 5]).
Proof.
  split; [|reflexivity].
  apply (MmAllocateAddressRange_correct sample_heap 24586 1 true true sample_heap_ok);
    unfold PAGE_SIZE; lia.
Defined.

Lemma MmFreeAddressSpace_correct_witness :
  (∃ h', MmFreeAddressSpace sample_heap (mkNode 12288 2) = (STATUS_SUCCESS, h') ∧ heap_ok h' ∧
     ∀ x, has h' x ↔ has sample_heap x ∨ node_has (mkNode 12288 2) x) ∧
  MmFreeAddressSpace sample_heap (mkNode 12288 2) = (STATUS_SUCCESS, [mkNode 4096 12]).
Proof.
  split; [|reflexivity].
  apply (MmFreeAddressSpace_correct sample_heap (mkNode 12288 2) sample_heap_ok).
  - unfold node_ok, end_. cbn. split_and!; try done. by exists 3.
  - intros x [(n & [->|[->|Hn]%elem_of_cons]%elem_of_cons & Hn1) Hn2];
      [..|by apply not_elem_of_nil in Hn]; unfold node_has, end_, PAGE_SIZE in *; cbn in *; lia.
Defined.

Lemma allocate_free_roundtrip_witness :
  MmFreeAddressSpace [mkNode 4096 2; mkNode 20480 5] (mkNode 40960 3) = (STATUS_SUCCESS, sample_heap).
Proof.
  apply (allocate_free_roundtrip sample_heap 3 true _ _ sample_heap_ok); [lia|reflexivity].
Defined.
