(* ===== verification/Vad.v ===== *)
(** The address space of a process: its virtual address descriptors
    ([boron/source/mm/vad.c]), the ranges committed and decommitted in them
    ([commit.c]), its tear-down ([teardown.c]) and the services over it
    ([svcs.c], [query.c]).

    An address space has the tree of descriptors, the heap of free ranges, the
    page map, the references that its descriptors hold to objects, and how often
    the running thread holds the mutex of the list and the address space lock.
    A descriptor is known by its start. *)
From S2P Require Import Prelude Pmm Pages Pte PageMap PageFree Commit RbTree Heap.
From S2P Require Mdl.
Local Open Scope Z_scope.

(** [MMVAD] : boron/include/mm/vad.h:27-84. *)
Record MMVAD := mkVad {
  Node : MMADDRESS_NODE;
  Committed : bool;
  Protection : Z;
  Private : bool;
  MappedObject : option Z;
  SectionOffset : Z;
}.

#[export] Instance vad_key : Keyed MMVAD := λ v, StartVa (Node v).

Definition set_Node (n : MMADDRESS_NODE) (v : MMVAD) : MMVAD :=
  mkVad n (Committed v) (Protection v) (Private v) (MappedObject v) (SectionOffset v).
Definition set_Committed (b : bool) (v : MMVAD) : MMVAD :=
  mkVad (Node v) b (Protection v) (Private v) (MappedObject v) (SectionOffset v).
Definition set_SectionOffset (o : Z) (v : MMVAD) : MMVAD :=
  mkVad (Node v) (Committed v) (Protection v) (Private v) (MappedObject v) o.
Definition set_MappedObject (o : option Z) (v : MMVAD) : MMVAD :=
  mkVad (Node v) (Committed v) (Protection v) (Private v) o (SectionOffset v).

(** [MMVAD_LIST] : boron/include/mm/vad.h:86-91.
    With the rest of the process that the code works on. *)
Record aspace := mkAspace {
  VadTree : list MMVAD;
  HeapTree : MMHEAP;
  PageMap : Z;
  VadLocks : Z;
  SpaceLocks : Z;
  Objects : gmap Z Z;
}.

Definition set_VadTree t (p : aspace) := mkAspace t (HeapTree p) (PageMap p) (VadLocks p) (SpaceLocks p) (Objects p).
Definition set_HeapTree t (p : aspace) := mkAspace (VadTree p) t (PageMap p) (VadLocks p) (SpaceLocks p) (Objects p).
Definition set_VadLocks n (p : aspace) := mkAspace (VadTree p) (HeapTree p) (PageMap p) n (SpaceLocks p) (Objects p).
Definition set_SpaceLocks n (p : aspace) := mkAspace (VadTree p) (HeapTree p) (PageMap p) (VadLocks p) n (Objects p).
Definition set_Objects o (p : aspace) := mkAspace (VadTree p) (HeapTree p) (PageMap p) (VadLocks p) (SpaceLocks p) o.

(** [MEM_RESERVE] : common/include/mms.h:18-63. *)
Definition MEM_RESERVE : Z := 0x0001.
Definition MEM_COMMIT : Z := 0x0002.
Definition MEM_SHARED : Z := 0x0004.
Definition MEM_TOP_DOWN : Z := 0x0008.
Definition MEM_DECOMMIT : Z := 0x0010.
Definition MEM_RELEASE : Z := 0x0020.
Definition MEM_COW : Z := 0x0040.
Definition MEM_FIXED : Z := 0x0080.
Definition MEM_OVERRIDE : Z := 0x0100.
Definition MEM_PARTIAL : Z := 0x0200.

(** [PAGE_READ] : common/include/mms.h:65-70. *)
Definition PAGE_READ : Z := 1.
Definition PAGE_WRITE : Z := 2.
Definition PAGE_EXECUTE : Z := 4.

(** [MM_FIRST_USER_PAGE] : boron/include/mm/addrnode.h:46-47. *)
Definition MM_FIRST_USER_PAGE : Z := 0x1000.
Definition MM_LAST_USER_PAGE : Z := 0x00007FFFFFFFF000.

(** The exclusive lock of the address space; it can be taken recursively. *)
Definition MmLockSpaceExclusive (p : aspace) : aspace := set_SpaceLocks (SpaceLocks p + 1) p.
Definition MmUnlockSpace (p : aspace) : outcome aspace :=
  _ ← check (0 <? SpaceLocks p); Ok (set_SpaceLocks (SpaceLocks p - 1) p).

(** [MmLockVadListProcess] : boron/source/mm/vad.c:20-24. *)
Definition MiLockVadList (p : aspace) : aspace := set_VadLocks (VadLocks p + 1) p.

(** [MmUnlockVadList] : boron/source/mm/vad.c:38-41.
    Releasing a mutex that is not held stops the kernel. *)
Definition MmUnlockVadList (p : aspace) : outcome aspace :=
  _ ← check (0 <? VadLocks p); Ok (set_VadLocks (VadLocks p - 1) p).

(** The references of an object. *)
Definition change_refs (d : Z) (o : option Z) (p : aspace) : aspace :=
  match o with Some o => set_Objects (alter (λ r, r + d) o (Objects p)) p | None => p end.

(** [MmLookUpVadByAddress] : boron/source/mm/vad.c:557-584. *)
Definition MmLookUpVadByAddress (t : list MMVAD) (Address : Z) : option MMVAD :=
  match LookUpItemApproximateRbTree t Address with
  | None => None
  | Some Vad =>
      if (Address <? StartVa (Node Vad)) || (u64 (StartVa (Node Vad) + u64 (Size (Node Vad) * PAGE_SIZE)) <=? Address) then None
      else Some Vad
  end.

(** The start of a descriptor, or none. *)
Definition vad_id (v : option MMVAD) : option Z := key <$> v.

(** [MiInitializeAndInsertVad] : boron/source/mm/vad.c:49-108.
    With a descriptor, or with the answer of the pool for a new one. *)
Definition MiInitializeAndInsertVad (Given : option MMADDRESS_NODE) (pool : bool) (StartAddress SizePages AllocationType Prot : Z)
  (UnlockAfter : bool) (p : aspace) : outcome (BSTATUS * option MMVAD * aspace) :=
  let ins (n : MMADDRESS_NODE) :=
    let p := MiLockVadList p in
    let Vad := mkVad n (on AllocationType MEM_COMMIT) (Z.land Prot 7) (negb (on AllocationType MEM_SHARED)) None 0 in
    match InsertItemRbTree (VadTree p) Vad with
    | None => Crash
    | Some t =>
        let p := set_VadTree t p in
        p ← (if UnlockAfter then MmUnlockVadList p else Ok p);
        Ok (STATUS_SUCCESS, Some Vad, p)
    end in
  match Given with
  | Some n => ins n
  | None => if negb pool then Ok (STATUS_INSUFFICIENT_MEMORY, None, p) else ins (mkNode StartAddress SizePages)
  end.

Section vad.
Context {S : Type} `{PageFrames S}.

(** [MiDecommitVad] : boron/source/mm/commit.c:189-273.
    The descriptor [Vad] is in the tree. *)
Definition MiDecommitVad (Vad Start SizePages : Z) (SetDecommittedPTE : bool) (p : aspace) (s : S) : outcome (aspace * S) :=
  v ← deref (LookUpItemRbTree (VadTree p) Vad);
  let v := if (StartVa (Node v) =? Start) && (Size (Node v) =? SizePages) then set_Committed false v else v in
  let p := set_VadTree (update_entry (VadTree p) Vad v) p in
  p ← MmUnlockVadList p;
  let p := MmLockSpaceExclusive p in
  s ← decommit_pages (Z.to_nat SizePages) (PageMap p) (Committed v) SetDecommittedPTE SizePages 0 Start s;
  p ← MmUnlockSpace p;
  Ok (p, s).

(** [MmDecommitVirtualMemory] : boron/source/mm/commit.c:162-185. *)
Definition MmDecommitVirtualMemory (Start SizePages : Z) (p : aspace) (s : S) : outcome (BSTATUS * aspace * S) :=
  if negb (Mdl.MmIsAddressRangeValid Start (u64 (SizePages * PAGE_SIZE)) true) || (SizePages =? 0) then
    Ok (STATUS_INVALID_PARAMETER, p, s)
  else
    let p := MiLockVadList p in
    let Vad := MmLookUpVadByAddress (VadTree p) Start in
    let VadEnd := MmLookUpVadByAddress (VadTree p) (u64 (Start + u64 (SizePages * PAGE_SIZE) - 1)) in
    match Vad with
    | Some v =>
        if bool_decide (vad_id VadEnd = Some (key v)) then
          '(p, s) ← MiDecommitVad (key v) Start SizePages true p s; Ok (STATUS_SUCCESS, p, s)
        else p ← MmUnlockVadList p; Ok (STATUS_CONFLICTING_ADDRESSES, p, s)
    | None => p ← MmUnlockVadList p; Ok (STATUS_CONFLICTING_ADDRESSES, p, s)
    end.

(** [MmCommitVirtualMemory] : boron/source/mm/commit.c:23-157. *)
Definition MmCommitVirtualMemory (Start SizePages Prot : Z) (p : aspace) (s : S) : outcome (BSTATUS * aspace * S) :=
  if negb (Mdl.MmIsAddressRangeValid Start (u64 (SizePages * PAGE_SIZE)) true) then Ok (STATUS_INVALID_PARAMETER, p, s)
  else
    let p := MiLockVadList p in
    let Vad := MmLookUpVadByAddress (VadTree p) Start in
    let VadEnd := MmLookUpVadByAddress (VadTree p) (u64 (Start + u64 (SizePages * PAGE_SIZE) - 1)) in
    match Vad with
    | Some v =>
        if bool_decide (vad_id VadEnd = Some (key v)) then
          let Prot := if Prot =? 0 then Protection v else Prot in
          p ← MmUnlockVadList p;
          if Prot =? 0 then Ok (STATUS_INVALID_PARAMETER, p, s)
          else
            let p := MmLockSpaceExclusive p in
            Status ← commit_check (Z.to_nat SizePages) (PageMap p) (Committed v) SizePages 0 Start s;
            if FAILED Status then p ← MmUnlockSpace p; Ok (Status, p, s)
            else
              '(Status, s) ← commit_set (Z.to_nat SizePages) true (PageMap p) Start s;
              p ← MmUnlockSpace p;
              Ok (Status, p, s)
        else p ← MmUnlockVadList p; Ok (STATUS_CONFLICTING_ADDRESSES, p, s)
    | None => p ← MmUnlockVadList p; Ok (STATUS_CONFLICTING_ADDRESSES, p, s)
    end.

(** [MiCleanUpVad] : boron/source/mm/vad.c:446-491.
    The descriptor is no longer in the tree. *)
Definition MiCleanUpVad (Vad : MMVAD) (p : aspace) (s : S) : outcome (aspace * S) :=
  let p := MmLockSpaceExclusive p in
  s ← clear_pages (Z.to_nat (Size (Node Vad))) (PageMap p) (Size (Node Vad)) 0 (StartVa (Node Vad)) s;
  s ← MiFreeUnusedMappingLevelsInCurrentMap (PageMap p) (StartVa (Node Vad)) (Size (Node Vad)) s;
  p ← MmUnlockSpace p;
  Ok (change_refs (-1) (MappedObject Vad) p, s).

(** [MiReleaseVad] : boron/source/mm/vad.c:496-518. *)
Definition MiReleaseVad (Vad : Z) (p : aspace) (s : S) : outcome (aspace * S) :=
  v ← deref (LookUpItemRbTree (VadTree p) Vad);
  let p := set_VadTree (RemoveItemRbTree (VadTree p) Vad) p in
  p ← MmUnlockVadList p;
  '(p, s) ← MiCleanUpVad v p s;
  match MmFreeAddressSpace (HeapTree p) (Node v) with
  | (Status, h) => if FAILED Status then Crash else Ok (set_HeapTree h p, s)
  end.

(** [MmReleaseVirtualMemory] : boron/source/mm/vad.c:523-555. *)
Definition MmReleaseVirtualMemory (Address : Z) (p : aspace) (s : S) : outcome (BSTATUS * aspace * S) :=
  let p := MiLockVadList p in
  match LookUpItemApproximateRbTree (VadTree p) Address with
  | None => p ← MmUnlockVadList p; Ok (STATUS_MEMORY_NOT_RESERVED, p, s)
  | Some Vad =>
      if negb (StartVa (Node Vad) =? Address) then p ← MmUnlockVadList p; Ok (STATUS_VA_NOT_AT_BASE, p, s)
      else
        _ ← check (negb (Committed Vad));
        '(p, s) ← MiReleaseVad (key Vad) p s; Ok (STATUS_SUCCESS, p, s)
  end.

(** ** Taking a range away from whoever has it *)

(** [MmOverrideAddressRange] : boron/source/mm/vad.c:188-214.
    The three partial overlaps switch the committed flag off while they
    decommit. *)
Definition decommit_quietly (Vad : MMVAD) (Start SizePages : Z) (p : aspace) (s : S) : outcome (aspace * S) :=
  let p := set_VadTree (update_entry (VadTree p) (key Vad) (set_Committed false Vad)) p in
  MiDecommitVad (key Vad) Start SizePages false (MiLockVadList p) s.

(** [MmOverrideAddressRange] : boron/source/mm/vad.c:144-274.
    The loop over the descriptors, from [Entry] on.  [TempVad2] is a descriptor
    that is not in the tree yet, of which only the range is told. *)
Fixpoint override_vads (fuel : nat) (Entry : option MMVAD) (StartAddress SizePages EndAddress : Z) (p : aspace) (s : S) : outcome (aspace * S) :=
  match Entry with
  | None => Ok (p, s)
  | Some Vad =>
      match fuel with
      | O => OutOfFuel
      | Datatypes.S fuel =>
          let Next := GetNextEntryRbTree (VadTree p) (key Vad) in
          let Start := StartVa (Node Vad) in
          let End_ := Node_EndVa (Node Vad) in
          if (EndAddress <=? Start) || (End_ <=? StartAddress) then override_vads fuel Next StartAddress SizePages EndAddress p s
          else if (StartAddress <=? Start) && (End_ <=? EndAddress) then
            '(p, s) ← MiDecommitVad (key Vad) Start (Size (Node Vad)) false (MiLockVadList p) s;
            '(p, s) ← MiReleaseVad (key Vad) (MiLockVadList p) s;
            override_vads fuel Next StartAddress SizePages EndAddress p s
          else if (Start <? StartAddress) && (EndAddress <? End_) then
            let TempVad2 := mkVad (mkNode EndAddress (u64 (End_ - EndAddress) / PAGE_SIZE)) (Committed Vad) (Protection Vad) (Private Vad) (MappedObject Vad)
              (match MappedObject Vad with Some _ => u64 (SectionOffset Vad + (EndAddress - Start)) | None => 0 end) in
            let p := change_refs 1 (MappedObject Vad) p in
            '(p, s) ← decommit_quietly Vad StartAddress SizePages p s;
            let Vad' := set_Node (mkNode Start (u64 (StartAddress - Start) / PAGE_SIZE)) Vad in
            let p := set_VadTree (update_entry (VadTree p) (key Vad) Vad') p in
            let p := set_VadTree (default (VadTree p) (InsertItemRbTree (VadTree p) TempVad2)) p in
            Ok (p, s)
          else if (Start <? StartAddress) && (End_ <=? EndAddress) then
            '(p, s) ← decommit_quietly Vad StartAddress (u64 (End_ - StartAddress) / PAGE_SIZE) p s;
            let Vad' := set_Node (mkNode Start (u64 (StartAddress - Start) / PAGE_SIZE)) Vad in
            override_vads fuel Next StartAddress SizePages EndAddress (set_VadTree (update_entry (VadTree p) (key Vad) Vad') p) s
          else if (StartAddress <=? Start) && (EndAddress <? End_) then
            let Offset := u64 (EndAddress - Start) in
            '(p, s) ← decommit_quietly Vad Start (Offset / PAGE_SIZE) p s;
            let Vad' := set_Node (mkNode (u64 (Start + Offset)) (u64 (Size (Node Vad) - Offset / PAGE_SIZE))) Vad in
            let Vad' := match MappedObject Vad with Some _ => set_SectionOffset (u64 (SectionOffset Vad + Offset)) Vad' | None => Vad' end in
            override_vads fuel Next StartAddress SizePages EndAddress (set_VadTree (update_entry (VadTree p) (key Vad) Vad') p) s
          else Crash
      end
  end.

(** [MmOverrideAddressRange] : boron/source/mm/vad.c:279-337.
    The loop over the free ranges; after a split it starts again. *)
Fixpoint override_heap (fuel : nat) (Entry : option MMADDRESS_NODE) (StartAddress EndAddress : Z) (h : MMHEAP) : outcome MMHEAP :=
  match Entry with
  | None => Ok h
  | Some N =>
      match fuel with
      | O => OutOfFuel
      | Datatypes.S fuel =>
          let Next := GetNextEntryRbTree h (StartVa N) in
          let End_ := Node_EndVa N in
          if (EndAddress <=? StartVa N) || (End_ <=? StartAddress) then override_heap fuel Next StartAddress EndAddress h
          else if (StartAddress <=? StartVa N) && (End_ <=? EndAddress) then
            override_heap fuel Next StartAddress EndAddress (RemoveItemRbTree h (StartVa N))
          else if (StartVa N <? StartAddress) && (EndAddress <? End_) then
            let TempVad3 := mkNode EndAddress (u64 (End_ - EndAddress) / PAGE_SIZE) in
            let h := update_entry h (StartVa N) (mkNode (StartVa N) (u64 (StartAddress - StartVa N) / PAGE_SIZE)) in
            let '(_, h) := MmFreeAddressSpace h TempVad3 in
            override_heap fuel (GetFirstEntryRbTree h) StartAddress EndAddress h
          else if (StartVa N <? StartAddress) && (End_ <=? EndAddress) then
            override_heap fuel Next StartAddress EndAddress
              (update_entry h (StartVa N) (mkNode (StartVa N) (u64 (StartAddress - StartVa N) / PAGE_SIZE)))
          else if (StartAddress <=? StartVa N) && (EndAddress <? End_) then
            let Offset := u64 (EndAddress - StartVa N) in
            override_heap fuel Next StartAddress EndAddress
              (update_entry h (StartVa N) (mkNode (u64 (StartVa N + Offset)) (u64 (Size N - Offset / PAGE_SIZE))))
          else Crash
      end
  end.

(** [MmOverrideAddressRange] : boron/source/mm/vad.c:339-360.
    The range without the pages that must stay inaccessible. *)
Definition trim_range (StartAddress SizePages : Z) : MMADDRESS_NODE :=
  let '(StartAddress, SizePages) := if StartAddress =? 0 then (PAGE_SIZE, u64 (SizePages - 1)) else (StartAddress, SizePages) in
  let '(StartAddress, SizePages) :=
    if StartAddress <? MM_FIRST_USER_PAGE then (u64 (StartAddress + PAGE_SIZE), u64 (SizePages - 1)) else (StartAddress, SizePages) in
  let SizePages := if MM_LAST_USER_PAGE <=? u64 (StartAddress + u64 (SizePages * PAGE_SIZE)) then u64 (SizePages - 1) else SizePages in
  mkNode StartAddress SizePages.

(** [MmOverrideAddressRange] : boron/source/mm/vad.c:114-370.
    [pool] is the answer of the pool for the three temporary descriptors. *)
Definition MmOverrideAddressRange (pool : bool) (StartAddress SizePages : Z) (p : aspace) (s : S)
  : outcome (BSTATUS * option MMADDRESS_NODE * aspace * S) :=
  if negb pool then Ok (STATUS_INSUFFICIENT_MEMORY, None, p, s)
  else
    let p := MiLockVadList (MmLockSpaceExclusive p) in
    let EndAddress := u64 (StartAddress + u64 (SizePages * PAGE_SIZE)) in
    '(p, s) ← override_vads (length (VadTree p)) (GetFirstEntryRbTree (VadTree p)) StartAddress SizePages EndAddress p s;
    p ← MmUnlockVadList p;
    h ← override_heap (2 * length (HeapTree p) + 2) (GetFirstEntryRbTree (HeapTree p)) StartAddress EndAddress (HeapTree p);
    p ← MmUnlockSpace (set_HeapTree h p);
    Ok (STATUS_SUCCESS, Some (trim_range StartAddress SizePages), p, s).

(** ** Reserving *)

(** What the pool answers to the allocations on the way. *)
Record answers := mkAnswers { ok_temp : bool; ok_first : bool; ok_second : bool }.

(** [MmReserveVirtualMemoryVad] : boron/source/mm/vad.c:373-400.
    It returns with the mutex of the list held. *)
Definition MmReserveVirtualMemoryVad (pool : answers) (SizePages AllocationType Prot StartAddress : Z) (p : aspace) (s : S)
  : outcome (BSTATUS * option MMVAD * aspace * S) :=
  '(Status, AddrNode, p, s) ←
    (if Z.land AllocationType (Z.lor MEM_FIXED MEM_OVERRIDE) =? Z.lor MEM_FIXED MEM_OVERRIDE then
       MmOverrideAddressRange (ok_temp pool) StartAddress SizePages p s
     else if on AllocationType MEM_FIXED then
       '(Status, n, h) ← MmAllocateAddressRange (HeapTree p) StartAddress SizePages (ok_first pool) (ok_second pool);
       Ok (Status, n, set_HeapTree h p, s)
     else
       '(Status, n, h) ← MmAllocateAddressSpace (HeapTree p) SizePages (on AllocationType MEM_TOP_DOWN) (ok_first pool);
       Ok (Status, n, set_HeapTree h p, s));
  if FAILED Status then Ok (Status, None, p, s)
  else
    n ← deref AddrNode;
    '(Status, Vad, p) ← MiInitializeAndInsertVad (Some n) true 0 0 AllocationType Prot false p;
    if FAILED Status then Crash else Ok (Status, Vad, p, s).

(** [MmReserveVirtualMemory] : boron/source/mm/vad.c:422-442. *)
Definition MmReserveVirtualMemory (pool : answers) (SizePages InAddress AllocationType Prot : Z) (p : aspace) (s : S)
  : outcome (BSTATUS * Z * aspace * S) :=
  if on Prot (Z.lnot (Z.lor PAGE_READ (Z.lor PAGE_WRITE PAGE_EXECUTE))) then Ok (STATUS_INVALID_PARAMETER, InAddress, p, s)
  else if on AllocationType (Z.lnot (Z.lor MEM_RESERVE (Z.lor MEM_COMMIT (Z.lor MEM_SHARED (Z.lor MEM_TOP_DOWN (Z.lor MEM_FIXED MEM_OVERRIDE)))))) then
    Ok (STATUS_INVALID_PARAMETER, InAddress, p, s)
  else
    '(Status, Vad, p, s) ← MmReserveVirtualMemoryVad pool SizePages AllocationType Prot InAddress p s;
    if FAILED Status then Ok (Status, InAddress, p, s)
    else
      v ← deref Vad;
      _ ← check (PAGE_ALIGNED (StartVa (Node v)));
      p ← MmUnlockVadList p;
      Ok (STATUS_SUCCESS, StartVa (Node v), p, s).

(** [MiUnmapVirtualMemoryPartial] : boron/source/mm/vad.c:402-419. *)
Definition MiUnmapVirtualMemoryPartial (pool : bool) (StartAddress SizePages : Z) (p : aspace) (s : S) : outcome (BSTATUS * aspace * S) :=
  '(Status, AddrNode, p, s) ← MmOverrideAddressRange pool StartAddress SizePages p s;
  if FAILED Status then Ok (Status, p, s)
  else
    n ← deref AddrNode;
    let '(Status, h) := MmFreeAddressSpace (HeapTree p) n in
    _ ← check (negb (FAILED Status));
    Ok (Status, set_HeapTree h p, s).

End vad.

(** ** Descriptors *)

(** A node of the user half. *)
Definition user_node (n : MMADDRESS_NODE) : Prop := node_ok n ∧ end_ n ≤ 2 ^ 47.

Definition vad_ok (v : MMVAD) : Prop := user_node (Node v) ∧ (MappedObject v = None → SectionOffset v = 0).

(** Descriptors in ascending order that do not overlap. *)
Definition vads_ok (t : list MMVAD) : Prop := Forall vad_ok t ∧ StronglySorted (λ x y, end_ (Node x) ≤ StartVa (Node y)) t.

(** The addresses that descriptors cover. *)
Definition reserved (t : list MMVAD) (a : Z) : Prop := ∃ v, v ∈ t ∧ node_has (Node v) a.

Lemma vads_ok_split a x b :
  vads_ok (a ++ x :: b) ↔
  vads_ok (a ++ b) ∧ vad_ok x ∧ (∀ y, y ∈ a → end_ (Node y) ≤ StartVa (Node x)) ∧ (∀ y, y ∈ b → end_ (Node x) ≤ StartVa (Node y)).
Proof.
  unfold vads_ok. rewrite !Forall_app, Forall_cons, !StronglySorted_app. split.
  - intros ((Ha & Hx & Hb) & Hab & Sa & Sb). apply StronglySorted_inv in Sb as [Sb Hxb]. rewrite Forall_forall in Hxb.
    split_and!; try done; intros y; [intros z Hy Hz; apply Hab; [done|by right]|intros Hy; apply Hab; [done|left]].
  - intros (((Ha & Hb) & Hab & Sa & Sb) & Hx & Hax & Hxb). split_and!; try done.
    + intros y z Hy [->|Hz]%elem_of_cons; [by apply Hax|by apply Hab].
    + constructor; [done|]. by apply Forall_forall.
Qed.

Lemma vads_ok_in t v : vads_ok t → v ∈ t → vad_ok v.
Proof. intros [Hf _] Hv. rewrite Forall_forall in Hf. by apply Hf. Qed.

Lemma vad_grows v : vad_ok v → StartVa (Node v) + PAGE_SIZE ≤ end_ (Node v).
Proof. intros [[Hn _] _]. by apply node_grows. Qed.

Lemma vads_ascending t : vads_ok t → ascending t.
Proof.
  induction t as [|v t IH]; intros Ht; [constructor|]. apply (vads_ok_split []) in Ht as (Ht & Hv & _ & Hb). apply ascending_cons.
  split; [by apply IH|]. intros y Hy. apply Hb in Hy. apply vad_grows in Hv. unfold key, vad_key, PAGE_SIZE in *. lia.
Qed.

Lemma vads_keys a v b : vads_ok (a ++ v :: b) → all_below a (key v) ∧ all_above b (key v).
Proof. intros Ht%vads_ascending. apply ascending_split in Ht as (_ & Ha & Hb). by split. Qed.

Lemma reserved_app a b x : reserved (a ++ b) x ↔ reserved a x ∨ reserved b x.
Proof.
  unfold reserved. split; [intros (v & [Hv|Hv]%elem_of_app & Hx); eauto|].
  intros [(v & Hv & Hx)|(v & Hv & Hx)]; exists v; set_solver.
Qed.

Lemma reserved_cons v b x : reserved (v :: b) x ↔ node_has (Node v) x ∨ reserved b x.
Proof.
  unfold reserved. split; [intros (m & [->|Hm]%elem_of_cons & Hx); eauto|].
  intros [Hx|(m & Hm & Hx)]; [exists v|exists m]; set_solver.
Qed.

Lemma reserved_middle a v b x : reserved (a ++ v :: b) x ↔ node_has (Node v) x ∨ reserved (a ++ b) x.
Proof. rewrite !reserved_app, reserved_cons. tauto. Qed.

Lemma reserved_nil x : ¬ reserved [] x.
Proof. intros (v & Hv & _). by apply not_elem_of_nil in Hv. Qed.

Lemma vads_disjoint a v b x : vads_ok (a ++ v :: b) → node_has (Node v) x → ¬ reserved (a ++ b) x.
Proof.
  intros Ht Hx (m & Hm & Hmx). apply vads_ok_split in Ht as (_ & _ & Ha & Hb). unfold node_has in *.
  apply elem_of_app in Hm as [Hm|Hm]; [apply Ha in Hm|apply Hb in Hm]; lia.
Qed.

Lemma user_node_end n : user_node n → Node_EndVa n = end_ n ∧ 0 ≤ StartVa n ∧ StartVa n < end_ n ≤ 2 ^ 47.
Proof. intros [Hn He]. pose proof (node_grows n Hn). split; [by apply end_wrap|]. destruct Hn as (H0 & _). unfold PAGE_SIZE in *. lia. Qed.

(** The lookup finds the descriptor of an address, or there is none. *)
Lemma lookup_vad_spec t a : vads_ok t →
  (∃ x v y, t = x ++ v :: y ∧ node_has (Node v) a ∧ MmLookUpVadByAddress t a = Some v) ∨ (¬ reserved t a ∧ MmLookUpVadByAddress t a = None).
Proof.
  intros Ht. pose proof (vads_ascending t Ht) as Hs. unfold MmLookUpVadByAddress.
  destruct (ascending_locate t a Hs) as [Hall|(x & v & y & -> & Hv & Hy)].
  - rewrite approximate_none by done. right. split; [|done]. intros (m & Hm & Hma). apply Hall in Hm. unfold node_has, key, vad_key in *. lia.
  - rewrite approximate_at by done. assert (vad_ok v) as [Hok _] by (eapply vads_ok_in; [exact Ht|set_solver]).
    destruct (user_node_end _ Hok) as (He & H0 & Hlt & Hle). unfold Node_EndVa in He. rewrite He. change (key v) with (StartVa (Node v)) in Hv.
    rewrite (proj2 (Z.ltb_ge _ _)) by lia. cbn [orb]. destruct (Z.leb_spec (end_ (Node v)) a).
    + right. split; [|done]. intros (m & Hm & Hma). unfold node_has in Hma. apply vads_ok_split in Ht as (_ & _ & Ha & _).
      apply elem_of_app in Hm as [Hm|[->|Hm]%elem_of_cons]; [apply Ha in Hm; lia|lia|]. apply Hy in Hm. unfold key, vad_key in Hm. lia.
    + left. exists x, v, y. split_and!; try done; unfold node_has; lia.
Qed.

Lemma lookup_vad_at x v y a : vads_ok (x ++ v :: y) → node_has (Node v) a → MmLookUpVadByAddress (x ++ v :: y) a = Some v.
Proof.
  intros Ht Ha. destruct (lookup_vad_spec _ a Ht) as [(x' & v' & y' & E & Ha' & ->)|[Hno _]].
  - f_equal. assert (v ∈ x' ++ v' :: y') as Hv by (rewrite <-E; set_solver). apply elem_of_app in Hv as [Hv|[->|Hv]%elem_of_cons]; [exfalso| done|exfalso];
      rewrite E in Ht; apply (vads_disjoint _ _ _ a Ht Ha'); exists v; set_solver.
  - destruct Hno. apply reserved_middle. by left.
Qed.

Lemma find_vad a v b : vads_ok (a ++ v :: b) → LookUpItemRbTree (a ++ v :: b) (key v) = Some v.
Proof.
  intros Ht. destruct (vads_keys a v b Ht) as [Ha _]. clear Ht. unfold LookUpItemRbTree. induction a as [|y a IH]; cbn [app List.find].
  - by rewrite Z.eqb_refl.
  - rewrite (proj2 (Z.eqb_neq _ _)) by (specialize (Ha y ltac:(left)); lia). apply IH. intros z Hz. apply Ha. by right.
Qed.

(** A descriptor changes, but not its range. *)
Lemma vads_ok_same a v v' b : vads_ok (a ++ v :: b) → Node v' = Node v → (MappedObject v' = None → SectionOffset v' = 0) → vads_ok (a ++ v' :: b).
Proof. rewrite !vads_ok_split. intros (Hab & [Hn _] & Ha & Hb) E Ho. unfold vad_ok. rewrite E. by split_and!. Qed.

Lemma reserved_same a v v' b x : Node v' = Node v → reserved (a ++ v' :: b) x ↔ reserved (a ++ v :: b) x.
Proof. intros E. by rewrite !reserved_middle, E. Qed.

(** ** Address spaces *)

Section proofs.
Context {S : Type} `{PageFrames S} `{!PageFrameLaws S}.

(** The page of an address is mapped. *)
Definition present (s : S) (root va : Z) : Prop := ∃ e, pte s root va = Some e ∧ MmIsPresentPte e = true.

(** The descriptors and the free ranges share no address, the page map is well
    formed, and a page that is mapped belongs to a descriptor. *)
Record as_ok (p : aspace) (s : S) : Prop := {
  as_vads : vads_ok (VadTree p);
  as_heap : heap_ok (HeapTree p);
  as_user : Forall user_node (HeapTree p);
  as_apart a : ¬ (has (HeapTree p) a ∧ reserved (VadTree p) a);
  as_map : user_map s (PageMap p);
  as_present va : user_va va → present s (PageMap p) va → reserved (VadTree p) va;
}.

(** No page was mapped anew. *)
Definition less_present (s : S) (root : Z) (s' : S) : Prop := ∀ va, user_va va → present s' root va → present s root va.

Lemma kept_or_new_present s root s' va : kept_or_new (pte s root va) (pte s' root va) → present s' root va → present s root va.
Proof.
  intros Hk (e & He & Hp). destruct (kept_or_new_cases _ _ Hk) as [E|E]; rewrite E in He; [by exists e|]. injection He as <-. discriminate Hp.
Qed.

Lemma decommitted_present gen new s root va n s' : decommitted gen new s root va n s' → user_range va n → MmIsPresentPte new = false →
  ∀ va', user_va va' → present s' root va' → present s root va' ∧ ∀ i, (i < n)%nat → slot va' ≠ slot (nth_page va i).
Proof.
  intros Hd Hr Hnew va' Hva' Hp. destruct (in_range va' va n) as [(i & Hi & E)|Hno].
  - exfalso. destruct Hp as (e & He & Hp). rewrite (slot_pte _ _ _ _ E) in He. pose proof (dc_pte _ _ _ _ _ _ _ Hd i Hi) as Hq.
    destruct (pte s root (nth_page va i)) as [e0|]; [congruence|]. destruct Hq as [Hq|[_ [Hq|Hq]]]; rewrite Hq in He; [done|congruence|].
    injection He as <-. discriminate Hp.
  - split; [|done]. apply (kept_or_new_present s root s'); [|done]. apply (dc_other _ _ _ _ _ _ _ Hd); [by apply user_plain|done].
Qed.

Lemma mapped_present s root va k s' : mapped_with false 0 s root va (replicate k 0) s' → less_present s root s'.
Proof.
  intros Hm va' Hva' Hp. destruct (in_range va' va k) as [(i & Hi & E)|Hno].
  - exfalso. destruct Hp as (e & He & Hp). rewrite (slot_pte _ _ _ _ E) in He. rewrite (mw_pte _ _ _ _ _ _ _ Hm i 0) in He by (by apply lookup_replicate_2).
    injection He as <-. discriminate Hp.
  - apply (kept_or_new_present s root s'); [|done]. apply (mw_other _ _ _ _ _ _ _ Hm); [by apply user_plain|by rewrite length_replicate].
Qed.

Lemma pruned_present s root s' : pruned s root s' → less_present s root s'.
Proof.
  intros Hp va Hva (e & He & Hpr). pose proof (pruned_pte s root s' va Hp (proj1 (user_plain va Hva))) as Hc.
  destruct (pte s root va) as [e0|] eqn:E0; [|congruence]. destruct Hc as [Hc|[_ Hc]]; [|congruence]. exists e0. split; [done|congruence].
Qed.

(** User addresses of the same slot are in the same page. *)
Lemma user_slot a b : user_va a → user_va b → slot a = slot b → a / 4096 = b / 4096.
Proof.
  intros Ha Hb E%slot_page. unfold user_va, page_no in *.
  assert (0 ≤ a / 4096 < 2 ^ 36) by (split; [apply Z.div_pos; lia|apply Z.div_lt_upper_bound; lia]).
  assert (0 ≤ b / 4096 < 2 ^ 36) by (split; [apply Z.div_pos; lia|apply Z.div_lt_upper_bound; lia]).
  by rewrite !Z.mod_small in E by lia.
Qed.

Lemma page_slot a b : a / 4096 = b / 4096 → slot a = slot b.
Proof. intros E. unfold slot, path_of. by rewrite !PML_IDX_page, E. Qed.

(** The pages of a node. *)
Lemma node_user_range n : user_node n → user_range (StartVa n) (Z.to_nat (Size n)).
Proof.
  intros [(H0 & [k Hk] & Hs & He) Hu]. unfold end_, PAGE_SIZE in *. split; [lia| |lia]. rewrite Hk. by apply Z.mod_mul.
Qed.

Lemma node_page n a : user_node n → node_has n a ↔ ∃ i, (i < Z.to_nat (Size n))%nat ∧ nth_page (StartVa n) i ≤ a < nth_page (StartVa n) i + 4096.
Proof.
  intros [(H0 & [k Hk] & Hs & He) Hu]. unfold node_has, end_, nth_page, PAGE_SIZE in *. split.
  - intros Ha. exists (Z.to_nat ((a - StartVa n) / 4096)). pose proof (Z.div_mod (a - StartVa n) 4096 ltac:(lia)). pose proof (Z.mod_pos_bound (a - StartVa n) 4096 ltac:(lia)).
    assert (0 ≤ (a - StartVa n) / 4096) by (apply Z.div_pos; lia). lia.
  - intros (i & Hi & Ha). lia.
Qed.

Lemma node_slot n a : user_node n → user_va a → node_has n a ↔ ∃ i, (i < Z.to_nat (Size n))%nat ∧ slot a = slot (nth_page (StartVa n) i).
Proof.
  intros Hn Ha. rewrite (node_page n a Hn). pose proof (node_user_range n Hn) as Hr. pose proof (ur_aligned _ _ Hr) as Hal.
  assert (∀ i, nth_page (StartVa n) i mod 4096 = 0) as Hmod.
  { intros i. unfold nth_page. rewrite (Z.mul_comm 4096), Z.mod_add by lia. done. }
  split; intros (i & Hi & E); exists i; (split; [done|]); pose proof (user_va_nth _ _ i Hr Hi) as Hu; specialize (Hmod i);
    pose proof (Z.div_mod (nth_page (StartVa n) i) 4096 ltac:(lia)) as Hd.
  - apply page_slot. symmetry. apply (Z.div_unique _ _ _ (a - nth_page (StartVa n) i)); lia.
  - apply user_slot in E; [|done|done]. pose proof (Z.div_mod a 4096 ltac:(lia)). pose proof (Z.mod_pos_bound a 4096 ltac:(lia)). lia.
Qed.

(** ** Valid ranges *)

Lemma valid_user Start n : 0 ≤ Start < 2 ^ 64 → 0 ≤ n → n * 4096 < 2 ^ 64 →
  Mdl.MmIsAddressRangeValid Start (u64 (n * PAGE_SIZE)) true = bool_decide (0 < n ∧ Start + n * 4096 < 2 ^ 47).
Proof.
  intros Hs Hn0 Hn. unfold Mdl.MmIsAddressRangeValid, PAGE_SIZE. rewrite (wrap_small 64 (n * 4096)) by lia.
  destruct (Z.eqb_spec (n * 4096) 0) as [E|E]; [rewrite bool_decide_false by lia; done|].
  destruct (decide (Start + n * 4096 < 2 ^ 64)) as [Hlt|Hge].
  - rewrite wrap_small by lia. rewrite (proj2 (Z.ltb_ge _ _)) by lia. cbn [andb]. unfold Mdl.MM_USER_SPACE_END.
    destruct (Z.ltb_spec 0x00007FFFFFFFFFFF (Start + n * 4096)) as [Hu|Hu]; [rewrite bool_decide_false by lia; done|].
    rewrite bool_decide_true by lia. apply Z.eqb_eq.
    assert (∀ a, 0 ≤ a < 2 ^ 47 → Z.land a 0xFFFF800000000000 = 0) as Hland.
    { intros a Ha. change 0xFFFF800000000000 with (Z.shiftl (Z.ones 17) 47). apply Z.bits_inj'. intros i Hi.
      rewrite Z.land_spec, Z.bits_0. destruct (decide (i < 47)) as [Hi'|Hi'].
      - rewrite Z.shiftl_spec_low by lia. apply andb_false_r.
      - rewrite (Z.bits_above_log2 a); [done|lia|]. destruct (decide (a = 0)) as [->|]; [cbn; lia|]. assert (Z.log2 a < 47) by (apply Z.log2_lt_pow2; lia). lia. }
    by rewrite !Hland by lia.
  - unfold u64, wrap. assert ((Start + n * 4096) mod 2 ^ 64 = Start + n * 4096 - 2 ^ 64) as ->.
    { symmetry. apply (Z.mod_unique _ _ 1); lia. }
    rewrite (proj2 (Z.ltb_lt _ _)) by lia. by rewrite bool_decide_false by lia.
Qed.

(** A descriptor covers a range. *)
Definition covers (v : MMVAD) (Start n : Z) : Prop := StartVa (Node v) ≤ Start ∧ Start + n * PAGE_SIZE ≤ end_ (Node v).

Lemma find_range t Start n : vads_ok t → 0 ≤ Start → 0 < n → Start + n * 4096 < 2 ^ 47 →
  (∃ x v y, t = x ++ v :: y ∧ covers v Start n ∧ MmLookUpVadByAddress t Start = Some v ∧
    vad_id (MmLookUpVadByAddress t (u64 (Start + u64 (n * PAGE_SIZE) - 1))) = Some (key v)) ∨
  ((∀ v, v ∈ t → ¬ covers v Start n) ∧ match MmLookUpVadByAddress t Start with
    | Some v => vad_id (MmLookUpVadByAddress t (u64 (Start + u64 (n * PAGE_SIZE) - 1))) ≠ Some (key v)
    | None => True end).
Proof.
  intros Ht H0 Hn He. unfold PAGE_SIZE. rewrite (wrap_small 64 (n * 4096)), wrap_small by lia.
  destruct (lookup_vad_spec t Start Ht) as [(x & v & y & -> & Hv & ->)|[Hno ->]].
  - destruct (decide (Start + n * 4096 ≤ end_ (Node v))) as [Hle|Hgt].
    + left. exists x, v, y. rewrite lookup_vad_at by (done || (unfold node_has in *; lia)). unfold covers, node_has, PAGE_SIZE in *.
      split_and!; try done. lia.
    + right. split.
      * intros w Hw [Hw1 Hw2]. unfold node_has, PAGE_SIZE in *. apply vads_ok_split in Ht as (_ & _ & Ha & Hb).
        apply elem_of_app in Hw as [Hw|[->|Hw]%elem_of_cons]; [apply Ha in Hw|..|apply Hb in Hw]; lia.
      * destruct (lookup_vad_spec _ (Start + n * 4096 - 1) Ht) as [(x' & w & y' & E & Hw & ->)|[_ ->]]; [|done].
        cbn. intros [= Ek]. assert (Node w = Node v) as Ew.
        { assert (w ∈ x ++ v :: y) as Hin by (rewrite E; set_solver). destruct (vads_keys x v y Ht) as [Ha Hb].
          apply elem_of_app in Hin as [Hin|[->|Hin]%elem_of_cons]; [apply Ha in Hin; lia|done|apply Hb in Hin; lia]. }
        unfold node_has in Hw. rewrite Ew in Hw. lia.
  - right. split; [|done]. intros w Hw [Hw1 Hw2]. apply Hno. exists w. split; [done|]. unfold node_has, PAGE_SIZE in *. lia.
Qed.

(** The range of the loops in a descriptor. *)
Lemma covers_range v Start n : vad_ok v → covers v Start (Z.of_nat n) → (PAGE_SIZE | Start) → user_range Start n.
Proof.
  intros [Hu _] [H1 H2] [k Hk]. destruct (user_node_end _ Hu) as (_ & H0 & Hlt & Hle). unfold PAGE_SIZE in *.
  split; [lia| |lia]. rewrite Hk. by apply Z.mod_mul.
Qed.

Lemma unlock_vads p : 0 ≤ VadLocks p → MmUnlockVadList (MiLockVadList p) = Ok p.
Proof.
  intros Hl. unfold MmUnlockVadList, MiLockVadList. cbn [VadLocks set_VadLocks]. rewrite (proj2 (Z.ltb_lt _ _)) by lia. cbn [check mbind outcome_bind].
  destruct p as [t h m vl sl o]. cbn. by replace (vl + 1 - 1) with vl by lia.
Qed.

Lemma unlock_space p t : 0 ≤ SpaceLocks p → SpaceLocks t = SpaceLocks p + 1 → MmUnlockSpace t = Ok (set_SpaceLocks (SpaceLocks p) t).
Proof. intros Hl E. unfold MmUnlockSpace. rewrite E, (proj2 (Z.ltb_lt _ _)) by lia. cbn. by replace (SpaceLocks p + 1 - 1) with (SpaceLocks p) by lia. Qed.

Lemma as_ok_step p s p' s' x v v' y : as_ok p s → VadTree p = x ++ v :: y → VadTree p' = x ++ v' :: y → HeapTree p' = HeapTree p →
  PageMap p' = PageMap p → Node v' = Node v → (MappedObject v' = None → SectionOffset v' = 0) → user_map s' (PageMap p) →
  less_present s (PageMap p) s' → as_ok p' s'.
Proof.
  intros [A1 A2 A3 A4 A5 A6] Ev Ev' Eh Em En Ho Hu Hl. rewrite Ev in *. split; rewrite ?Ev', ?Eh, ?Em; try done.
  - by apply (vads_ok_same x v v' y).
  - intros a [Ha Hb]. apply (A4 a). split; [done|]. by apply (reserved_same x v v' y).
  - intros va Hva Hp. apply (reserved_same x v v' y); [done|]. apply A6; [done|]. by apply Hl.
Qed.

(** ** Decommitting *)

(** What a decommitted entry becomes. *)
Definition decommit_mark (SetDecommittedPTE : bool) : Z := if SetDecommittedPTE then MmBuildAbsentPte MM_PAGE_DECOMMITTED else MmBuildZeroPte.

Definition whole (v : MMVAD) (Start n : Z) : bool := (StartVa (Node v) =? Start) && (Size (Node v) =? n).
Definition after_decommit (v : MMVAD) (Start n : Z) : MMVAD := if whole v Start n then set_Committed false v else v.

Lemma after_decommit_same v Start n : Node (after_decommit v Start n) = Node v ∧ MappedObject (after_decommit v Start n) = MappedObject v ∧
  SectionOffset (after_decommit v Start n) = SectionOffset v.
Proof. unfold after_decommit. by destruct (whole v Start n). Qed.

Lemma decommit_vad p s x v y Start n st : vads_ok (VadTree p) → user_map s (PageMap p) → VadTree p = x ++ v :: y → user_range Start n → 0 < VadLocks p → 0 ≤ SpaceLocks p →
  let v' := after_decommit v Start (Z.of_nat n) in
  ∃ s', MiDecommitVad (key v) Start (Z.of_nat n) st p s = Ok (set_VadLocks (VadLocks p - 1) (set_VadTree (x ++ v' :: y) p), s') ∧
    user_map s' (PageMap p) ∧ decommitted (Committed v' && st) (decommit_mark st) s (PageMap p) Start n s'.
Proof.
  intros Ht Hu Ev Hr Hvl Hsl v'. unfold MiDecommitVad. rewrite Ev in *. rewrite find_vad by done. cbn [deref mbind outcome_bind].
  fold (whole v Start (Z.of_nat n)). fold (after_decommit v Start (Z.of_nat n)). fold v'.
  destruct (vads_keys x v y Ht) as [Ha _]. rewrite update_at by done. unfold MmUnlockVadList. cbn [VadLocks set_VadTree].
  rewrite (proj2 (Z.ltb_lt _ _)) by lia. cbn [check mbind outcome_bind]. rewrite Nat2Z.id. unfold MmLockSpaceExclusive. cbn [PageMap set_SpaceLocks set_VadLocks set_VadTree SpaceLocks].
  destruct (decommit_user (PageMap p) (Committed v') st s n Start Hu Hr) as (s' & -> & Hu' & Hd). cbn [mbind outcome_bind].
  rewrite (unlock_space p) by done. cbn [mbind outcome_bind]. exists s'. split; [|by split].
  by destruct p.
Qed.

(** The range of a request is valid. *)
Definition valid_range (Start n : Z) : Prop := 0 < n ∧ Start + n * 4096 < 2 ^ 47.

Definition decommit_answer (p : aspace) (s : S) (Start SizePages : Z) (St : BSTATUS) (p' : aspace) (s' : S) : Prop :=
  (¬ valid_range Start SizePages ∧ St = STATUS_INVALID_PARAMETER ∧ p' = p ∧ s' = s) ∨
  (valid_range Start SizePages ∧ (∀ v, v ∈ VadTree p → ¬ covers v Start SizePages) ∧ St = STATUS_CONFLICTING_ADDRESSES ∧ p' = p ∧ s' = s) ∨
  (valid_range Start SizePages ∧ ∃ x v y, VadTree p = x ++ v :: y ∧ covers v Start SizePages ∧ St = STATUS_SUCCESS ∧
    let v' := after_decommit v Start SizePages in
    p' = set_VadTree (x ++ v' :: y) p ∧
    decommitted (Committed v') (MmBuildAbsentPte MM_PAGE_DECOMMITTED) s (PageMap p) Start (Z.to_nat SizePages) s' ∧
    ∀ va, user_va va → Start ≤ va < Start + SizePages * PAGE_SIZE → ¬ present s' (PageMap p) va).

Lemma range_slot Start n va : user_range Start n → Start ≤ va < Start + Z.of_nat n * 4096 → ∃ i, (i < n)%nat ∧ slot va = slot (nth_page Start i).
Proof.
  intros [R1 R2 R3] Hva. exists (Z.to_nat ((va - Start) / 4096)). pose proof (Z.div_mod (va - Start) 4096 ltac:(lia)) as Hd.
  pose proof (Z.mod_pos_bound (va - Start) 4096 ltac:(lia)). assert (0 ≤ (va - Start) / 4096) by (apply Z.div_pos; lia).
  split; [lia|]. apply page_slot. unfold nth_page. rewrite Z2Nat.id by lia.
  apply Z.mod_divide in R2 as [k ->]; [|lia]. replace (k * 4096 + 4096 * ((va - k * 4096) / 4096)) with ((k + (va - k * 4096) / 4096) * 4096) by lia.
  rewrite Z.div_mul by lia. symmetry. apply (Z.div_unique _ _ _ ((va - k * 4096) mod 4096)); lia.
Qed.

Lemma decommit_memory_spec p s Start SizePages : as_ok p s → 0 ≤ VadLocks p → 0 ≤ SpaceLocks p →
  0 ≤ Start < 2 ^ 64 → (PAGE_SIZE | Start) → 0 ≤ SizePages → SizePages * 4096 < 2 ^ 64 →
  ∃ St p' s', MmDecommitVirtualMemory Start SizePages p s = Ok (St, p', s') ∧ as_ok p' s' ∧ decommit_answer p s Start SizePages St p' s'.
Proof.
  intros Hok Hvl Hsl HS Hal Hn0 Hn. unfold MmDecommitVirtualMemory. rewrite valid_user by done.
  destruct (bool_decide_reflect (0 < SizePages ∧ Start + SizePages * 4096 < 2 ^ 47)) as [Hv|Hv]; cbn [negb orb].
  2: { exists STATUS_INVALID_PARAMETER, p, s. split; [done|]. split; [done|]. by left. }
  rewrite (proj2 (Z.eqb_neq _ _)) by lia.
  destruct (find_range (VadTree p) Start SizePages (as_vads _ _ Hok)) as [(x & v & y & Ev & Hc & Hl & He)|[Hno He]]; try lia.
  - cbn [VadTree MiLockVadList set_VadLocks]. rewrite Hl, He, bool_decide_true by done.
    assert (user_range Start (Z.to_nat SizePages)) as Hr.
    { apply (covers_range v); [|by rewrite Z2Nat.id|done]. eapply vads_ok_in; [apply (as_vads _ _ Hok)|]. rewrite Ev. set_solver. }
    destruct (decommit_vad (MiLockVadList p) s x v y Start (Z.to_nat SizePages) true) as (s' & Hs' & Hu & Hd); cbn; try done; [apply Hok|apply Hok|lia|].
    rewrite Z2Nat.id in Hs', Hd by done. rewrite Hs'. cbn [mbind outcome_bind]. set (v' := after_decommit v Start SizePages) in *. rewrite andb_true_r in Hd.
    eexists _, _, s'. split; [done|]. assert (set_VadLocks (VadLocks (MiLockVadList p) - 1) (set_VadTree (x ++ v' :: y) (MiLockVadList p)) = set_VadTree (x ++ v' :: y) p) as ->.
    { destruct p as [t h m vl sl o]. cbn. by replace (vl + 1 - 1) with vl by lia. }
    destruct (after_decommit_same v Start SizePages) as (E1 & E2 & E3). assert (vad_ok v) as [_ Hvo].
    { eapply vads_ok_in; [apply (as_vads _ _ Hok)|]. rewrite Ev. set_solver. }
    split.
    + eapply (as_ok_step p s _ s' x v v' y); try done; [unfold v'; by rewrite E2, E3|]. intros va Hva Hp.
      by destruct (decommitted_present _ _ _ _ _ _ _ Hd Hr eq_refl va Hva Hp).
    + right. right. split; [done|]. exists x, v, y. split; [done|]. split; [done|]. split; [done|]. split; [done|]. split; [exact Hd|].
      intros va Hva Hin Hp. destruct (decommitted_present _ _ _ _ _ _ _ Hd Hr eq_refl va Hva Hp) as [_ Hne].
      destruct (range_slot Start (Z.to_nat SizePages) va Hr) as (i & Hi & E); [unfold PAGE_SIZE in Hin; lia|]. by apply (Hne i).
  - cbn [VadTree MiLockVadList set_VadLocks]. fold (MiLockVadList p). exists STATUS_CONFLICTING_ADDRESSES, p, s.
    split; [|split; [done|by right; left]]. destruct (MmLookUpVadByAddress (VadTree p) Start) as [v|].
    + rewrite bool_decide_false by done. by rewrite unlock_vads.
    + by rewrite unlock_vads.
Qed.
(** ** Committing *)

Lemma as_ok_pages p s s' : as_ok p s → user_map s' (PageMap p) → less_present s (PageMap p) s' → as_ok p s'.
Proof. intros [A1 A2 A3 A4 A5 A6] Hu Hl. split; try done. intros va Hva Hp. apply A6; [done|]. by apply Hl. Qed.

(** The first [k] pages of a range become committed; the tables that this takes
    are made. *)
Definition committed (s : S) (root Start : Z) (k : nat) (s' : S) : Prop := mapped_with false 0 s root Start (replicate k 0) s'.

Definition commit_answer (p : aspace) (s : S) (Start SizePages Prot : Z) (St : BSTATUS) (s' : S) : Prop :=
  (¬ valid_range Start SizePages ∧ St = STATUS_INVALID_PARAMETER ∧ s' = s) ∨
  (valid_range Start SizePages ∧ (∀ v, v ∈ VadTree p → ¬ covers v Start SizePages) ∧ St = STATUS_CONFLICTING_ADDRESSES ∧ s' = s) ∨
  (valid_range Start SizePages ∧ ∃ v, v ∈ VadTree p ∧ covers v Start SizePages ∧
    let ok := range_committable (Committed v) s (PageMap p) Start (Z.to_nat SizePages) in
    ((Prot = 0 ∧ Protection v = 0 ∧ St = STATUS_INVALID_PARAMETER ∧ s' = s) ∨
     ((Prot ≠ 0 ∨ Protection v ≠ 0) ∧ ok = false ∧ St = STATUS_CONFLICTING_ADDRESSES ∧ s' = s) ∨
     ((Prot ≠ 0 ∨ Protection v ≠ 0) ∧ ok = true ∧ ∃ k, (k ≤ Z.to_nat SizePages)%nat ∧ committed s (PageMap p) Start k s' ∧
       St = (if decide (k = Z.to_nat SizePages) then STATUS_SUCCESS else STATUS_INSUFFICIENT_MEMORY)))).

Lemma commit_memory_spec p s Start SizePages Prot : as_ok p s → 0 ≤ VadLocks p → 0 ≤ SpaceLocks p →
  0 ≤ Start < 2 ^ 64 → (PAGE_SIZE | Start) → 0 ≤ SizePages → SizePages * 4096 < 2 ^ 64 →
  ∃ St s', MmCommitVirtualMemory Start SizePages Prot p s = Ok (St, p, s') ∧ as_ok p s' ∧ commit_answer p s Start SizePages Prot St s'.
Proof.
  intros Hok Hvl Hsl HS Hal Hn0 Hn. unfold MmCommitVirtualMemory. rewrite valid_user by done.
  destruct (bool_decide_reflect (0 < SizePages ∧ Start + SizePages * 4096 < 2 ^ 47)) as [Hv|Hv]; cbn [negb].
  2: { exists STATUS_INVALID_PARAMETER, s. split; [done|]. split; [done|]. by left. }
  cbn [VadTree MiLockVadList set_VadLocks]. fold (MiLockVadList p).
  destruct (find_range (VadTree p) Start SizePages (as_vads _ _ Hok)) as [(x & v & y & Ev & Hc & Hl & He)|[Hno He]]; try lia.
  2: { exists STATUS_CONFLICTING_ADDRESSES, s. split; [|split; [done|by right; left]]. destruct (MmLookUpVadByAddress (VadTree p) Start) as [v|];
       [rewrite bool_decide_false by done|]; by rewrite unlock_vads. }
  rewrite Hl, He, bool_decide_true by done. rewrite unlock_vads by done. cbn [mbind outcome_bind].
  assert (v ∈ VadTree p) as Hin by (rewrite Ev; set_solver).
  assert (user_range Start (Z.to_nat SizePages)) as Hr.
  { apply (covers_range v); [|by rewrite Z2Nat.id|done]. eapply vads_ok_in; [apply (as_vads _ _ Hok)|done]. }
  assert (∀ St s', ((Prot = 0 ∧ Protection v = 0 ∧ St = STATUS_INVALID_PARAMETER ∧ s' = s) ∨
     ((Prot ≠ 0 ∨ Protection v ≠ 0) ∧ range_committable (Committed v) s (PageMap p) Start (Z.to_nat SizePages) = false ∧ St = STATUS_CONFLICTING_ADDRESSES ∧ s' = s) ∨
     ((Prot ≠ 0 ∨ Protection v ≠ 0) ∧ range_committable (Committed v) s (PageMap p) Start (Z.to_nat SizePages) = true ∧ ∃ k, (k ≤ Z.to_nat SizePages)%nat ∧ committed s (PageMap p) Start k s' ∧
       St = (if decide (k = Z.to_nat SizePages) then STATUS_SUCCESS else STATUS_INSUFFICIENT_MEMORY))) → commit_answer p s Start SizePages Prot St s') as Hans.
  { intros St s' Ha. right. right. split; [done|]. by exists v. }
  assert ((if Prot =? 0 then Protection v else Prot) = 0 ↔ Prot = 0 ∧ Protection v = 0) as Hprot by (destruct (Z.eqb_spec Prot 0); lia).
  destruct (Z.eqb_spec (if Prot =? 0 then Protection v else Prot) 0) as [Hp|Hp].
  { exists STATUS_INVALID_PARAMETER, s. split; [done|]. split; [done|]. apply Hans. left. apply Hprot in Hp as [? ?]. done. }
  assert (Prot ≠ 0 ∨ Protection v ≠ 0) as Hp' by lia. clear Hp Hprot.
  cbn [MmLockSpaceExclusive set_SpaceLocks PageMap].
  assert (MmUnlockSpace (MmLockSpaceExclusive p) = Ok p) as Hunl.
  { rewrite (unlock_space p) by done. by destruct p. }
  fold (MmLockSpaceExclusive p).
  pose proof (commit_check_spec (PageMap p) (Committed v) s (um_ok _ _ (as_map _ _ Hok)) (um_large _ _ (as_map _ _ Hok)) (Z.to_nat SizePages) (Z.to_nat SizePages) 0 Start Hr
    ltac:(lia) ltac:(lia) ltac:(by left)) as Hcc.
  rewrite Z.add_0_l, Z2Nat.id in Hcc by lia. rewrite Hcc. cbn [mbind outcome_bind].
  destruct (range_committable _ _ _ _ _) eqn:Hrc; cbn [FAILED].
  - destruct (commit_set_spec (PageMap p) (Z.to_nat SizePages) Start s true (um_ok _ _ (as_map _ _ Hok)) (um_large _ _ (as_map _ _ Hok)) Hr) as (k & St & s' & -> & Hm & Hk & ->); [by left|].
    cbn [mbind outcome_bind]. change (FAILED STATUS_SUCCESS) with false. cbv iota. rewrite Hunl. cbn [mbind outcome_bind].
    eexists _, s'. split; [done|]. split.
    + apply (as_ok_pages p s); [done| |by eapply mapped_present]. eapply um_mapped; [apply Hok| |exact Hm]. destruct Hr as [R1 R2 R3]. split; [done|done|lia].
    + apply Hans. right. right. split; [done|]. split; [done|]. by exists k.
  - change (FAILED STATUS_CONFLICTING_ADDRESSES) with true. cbv iota. rewrite Hunl. cbn [mbind outcome_bind]. eexists _, s. split; [done|]. split; [done|].
    apply Hans. right. left. done.
Qed.
(** ** Releasing *)

Lemma user_heap h : heap_ok h → (∀ a, has h a → a < 2 ^ 47) → Forall user_node h.
Proof.
  intros Hh Ha. apply Forall_forall. intros n Hn. pose proof (heap_ok_node h n Hh Hn) as Ho. split; [done|].
  pose proof (node_grows n Ho). assert (end_ n - 1 < 2 ^ 47) by (apply Ha; exists n; unfold node_has, PAGE_SIZE in *; split; [done|lia]). lia.
Qed.

Lemma heap_user h a : Forall user_node h → has h a → user_va a.
Proof.
  intros Hf (n & Hn & Ha). rewrite Forall_forall in Hf. destruct (user_node_end n (Hf n Hn)) as (_ & H0 & Hlt & Hle). unfold node_has, user_va in *. lia.
Qed.

(** An entry is as it was, or it was zero and its table is gone. *)
Definition pruned_entry (o o' : option Z) : Prop :=
  match o with Some e => o' = Some e ∨ (e = 0 ∧ o' = None) | None => o' = None end.

(** The entries of the pages of a range are cleared, but for some at its end
    when tables for it are missing; the entries outside are kept, but for those
    whose table was freed.  No table is left in which nothing is in use, below
    the topmost entries of the range, and only frames of tables are given back. *)
Record cleaned (s : S) (root : Z) (n : MMADDRESS_NODE) (s' : S) : Prop := {
  cl_map : user_map s' root;
  cl_full : no_full s' root;
  cl_node path p : in_tree path → node s' root path = Some p → node s root path = Some p;
  cl_absent va : user_va va → node_has n va → ¬ present s' root va;
  cl_other va : user_va va → ¬ node_has n va → pruned_entry (pte s root va) (pte s' root va);
  cl_refs m : pf_refs s' m = pf_refs s m ∨ (pf_refs s' m = None ∧ ∃ path, in_tree path ∧ node s root path = Some m);
  cl_blank va : user_va va → blank (pte s root va) → blank (pte s' root va);
  cl_freed path m : in_tree path → node s root path = Some m → node s' root path = None → pf_refs s' m = None;
  cl_cleared : ∃ stop, (stop ≤ Z.to_nat (Size n) ≤ stop + missing_tables s root (StartVa n) true (Z.to_nat (Size n)))%nat ∧
    (∀ i, (i < stop)%nat → blank (pte s' root (nth_page (StartVa n) i))) ∧
    ∀ i, (stop ≤ i < Z.to_nat (Size n))%nat → pruned_entry (pte s root (nth_page (StartVa n) i)) (pte s' root (nth_page (StartVa n) i));
  cl_tables j path : topmost (StartVa n) (Size n) j → in_tree (j :: path) → blank_below s' root (j :: path) → node s' root (j :: path) = None;
}.

Lemma dc_no_frames s root va n s' : decommitted false 0 s root va n s' → frames_of present_only s root va n = [] → ∀ m, pf_refs s' m = pf_refs s m.
Proof.
  intros Hd Hf m. destruct (pf_refs s m) as [r|] eqn:Er.
  - pose proof (dc_refs _ _ _ _ _ _ _ Hd m r Er) as Hr. rewrite Hf, decide_False in Hr by apply not_elem_of_nil. done.
  - destruct (pf_refs s' m) as [r|] eqn:E; [|done]. destruct (dc_used _ _ _ _ _ _ _ Hd m eq_refl) as [? Hx]; [by rewrite E|congruence].
Qed.

(** The entries of the descriptor are cleared and unused tables freed. *)
Lemma clean_up p v s : user_map s (PageMap p) → no_full s (PageMap p) → vad_ok v → 0 ≤ SpaceLocks p →
  (∀ va, user_va va → node_has (Node v) va → ¬ present s (PageMap p) va) →
  ∃ s', MiCleanUpVad v p s = Ok (change_refs (-1) (MappedObject v) p, s') ∧ cleaned s (PageMap p) (Node v) s'.
Proof.
  intros Hu Hf Hv Hsl Hab. unfold MiCleanUpVad. cbn [MmLockSpaceExclusive set_SpaceLocks PageMap]. fold (MmLockSpaceExclusive p).
  pose proof Hv as [Hun _]. pose proof (node_user_range _ Hun) as Hr. destruct (user_node_end _ Hun) as (_ & H0 & Hlt & Hle).
  assert (0 < Size (Node v)) as Hsz by (destruct Hun as [(_ & _ & ? & _) _]; done).
  assert (∀ j e, (j < Z.to_nat (Size (Node v)))%nat → pte s (PageMap p) (nth_page (StartVa (Node v)) j) = Some e → MmIsPresentPte e = false) as Hnp.
  { intros j e Hj He. destruct (MmIsPresentPte e) eqn:Hp; [|done]. exfalso. apply (Hab (nth_page (StartVa (Node v)) j)); [by eapply user_va_nth| |by exists e].
    apply node_page; [done|]. exists j. split; [done|]. lia. }
  destruct (clear_user (PageMap p) s (Z.to_nat (Size (Node v))) (StartVa (Node v)) Hu Hr Hnp) as (stop & s1 & Hs1 & Hu1 & Hst & Hd & Hmiss).
  rewrite Z2Nat.id in Hs1 by lia. rewrite Hs1. cbn [mbind outcome_bind].
  assert (user_range (StartVa (Node v)) stop) as Hrs by (destruct Hr as [R1 R2 R3]; split; [done|done|lia]).
  pose proof (no_full_decommitted s (PageMap p) _ _ s1 Hd (um_ok _ _ Hu) (user_range_ok _ _ Hrs) Hf) as Hf1.
  assert (PML_IDX 4 (StartVa (Node v)) < 256) as H4 by (apply user_plain; lia).
  destruct (free_unused_levels_all s1 (PageMap p) (StartVa (Node v)) (Size (Node v)) (um_ok _ _ Hu1) (um_large _ _ Hu1) Hf1) as (s' & Hs' & P & _ & Hgone); [lia| |done|].
  { pose proof (PML_IDX_page 3 (StartVa (Node v))) as E. unfold end_, PAGE_SIZE in Hle. cbn [Z.of_nat] in E. rewrite E.
    destruct (node_user_range _ Hun) as [_ [k Hk]%Z.mod_divide _]; [|lia]. rewrite Hk in *. rewrite Z.div_mul in * by lia.
    assert (k + Size (Node v) ≤ 2 ^ 35) by lia. assert (0 ≤ k) by lia.
    change (512 ^ Z.of_nat 3) with (2 ^ 27). change (512 ^ 3) with (2 ^ 27).
    rewrite (Z.mod_small (k / 2 ^ 27)) by (split; [apply Z.div_pos; lia|apply Z.div_lt_upper_bound; lia]).
    set (q := k / 2 ^ 27). pose proof (Z.div_mod k (2 ^ 27) ltac:(lia)) as Hq. fold q in Hq. pose proof (Z.mod_pos_bound k (2 ^ 27) ltac:(lia)).
    assert ((Size (Node v) + 2 ^ 27 - 1) / 2 ^ 27 < 257 - q) by (apply Z.div_lt_upper_bound; lia). lia. }
  rewrite Hs'. cbn [mbind outcome_bind]. rewrite (unlock_space p) by done. cbn [mbind outcome_bind]. exists s'.
  assert (∀ va, user_va va → ¬ node_has (Node v) va → ∀ i, (i < stop)%nat → slot va ≠ slot (nth_page (StartVa (Node v)) i)) as Hout.
  { intros va Hva Hno i Hi E. apply Hno, node_slot; [done|done|]. exists i. split; [lia|done]. }
  split; [by destruct p|]. split.
  - by apply (um_pruned s1).
  - by apply (pruned_no_full s1).
  - intros path q Ht Hq. rewrite <-(dc_node _ _ _ _ _ _ _ Hd path eq_refl Ht). by apply (pr_node _ _ _ P).
  - intros va Hva Hin Hp. apply (Hab va Hva Hin). apply (pruned_present s1 _ s' P va Hva) in Hp.
    by apply (decommitted_present _ _ _ _ _ _ _ Hd Hrs eq_refl va Hva).
  - intros va Hva Hno. pose proof (proj1 (user_plain va Hva)) as Hpl. rewrite <-(dc_same _ _ _ _ _ _ _ Hd va eq_refl Hpl (Hout va Hva Hno)).
    by apply pruned_pte.
  - intros m. assert (frames_of present_only s (PageMap p) (StartVa (Node v)) stop = []) as Hfr.
    { apply frames_of_absent. intros j e Hj. apply Hnp. lia. }
    rewrite <-(dc_no_frames _ _ _ _ _ Hd Hfr m). destruct (pr_refs _ _ _ P m) as [E|(E & path & Ht & Hn)]; [by left|right].
    split; [done|]. exists path. by rewrite <-(dc_node _ _ _ _ _ _ _ Hd path eq_refl Ht).
  - intros va Hva Hb. pose proof (proj1 (user_plain va Hva)) as Hpl. assert (blank (pte s1 (PageMap p) va)) as Hb1.
    { destruct (in_range va (StartVa (Node v)) stop) as [(i & Hi & E)|Hno].
      - pose proof (dc_pte _ _ _ _ _ _ _ Hd i Hi) as Hq. rewrite <-!(slot_pte _ _ _ _ E) in Hq. destruct (pte s (PageMap p) va); [by right|]. destruct Hq as [?|[? _]]; [by left|done].
      - by rewrite (dc_same _ _ _ _ _ _ _ Hd va eq_refl Hpl Hno). }
    pose proof (pruned_pte s1 _ s' va P Hpl) as Hp. destruct Hb1 as [E|E]; rewrite E in Hp; [by left|]. destruct Hp as [E'|[_ E']]; [by right|by left].
  - intros path m Ht Hn. rewrite <-(dc_node _ _ _ _ _ _ _ Hd path eq_refl Ht) in Hn. by apply (pr_freed _ _ _ P).
  - exists stop. split; [lia|].
    assert (∀ i, (i < Z.to_nat (Size (Node v)))%nat → plain_va (nth_page (StartVa (Node v)) i)) as Hpl.
    { intros i Hi. apply (rg_plain _ _ (user_range_ok _ _ Hr) i Hi). }
    split; intros i Hi; pose proof (pruned_pte s1 _ s' _ P (Hpl i ltac:(lia))) as Hp.
    + pose proof (dc_pte _ _ _ _ _ _ _ Hd i Hi) as Hq. destruct (pte s (PageMap p) (nth_page _ i)).
      * rewrite Hq in Hp. destruct Hp as [Hp|[_ Hp]]; [by right|by left].
      * destruct Hq as [Hq|[Hq _]]; [|done]. rewrite Hq in Hp. by left.
    + rewrite (dc_same _ _ _ _ _ _ _ Hd _ eq_refl (Hpl i ltac:(lia))) in Hp; [done|]. intros k Hk E.
      apply (slot_nth (StartVa (Node v)) (Z.to_nat (Size (Node v)))) in E; [lia|by apply user_range_ok|lia|lia].
  - intros j path Hj Ht Hb. apply (Hgone j Hj path Ht). by apply (pruned_blank_back s1 _ s').
Qed.

Lemma cleaned_present s root n s' : cleaned s root n s' → less_present s root s'.
Proof.
  intros C va Hva Hp. assert (¬ node_has n va) as Hno by (intros Hin; by apply (cl_absent _ _ _ _ C va)).
  destruct Hp as (e & He & Hp). pose proof (cl_other _ _ _ _ C va Hva Hno) as Ho. destruct (pte s root va) as [e0|] eqn:E; [|congruence].
  destruct Ho as [Ho|[_ Ho]]; [|congruence]. exists e0. split; [done|congruence].
Qed.

(** The descriptor [v] leaves the tree and its range goes to the heap. *)
Record released (p : aspace) (v : MMVAD) (s : S) (p' : aspace) (s' : S) : Prop := {
  rl_ok : as_ok p' s';
  rl_free a : has (HeapTree p') a ↔ has (HeapTree p) a ∨ node_has (Node v) a;
  rl_pages : cleaned s (PageMap p) (Node v) s';
  rl_map : PageMap p' = PageMap p;
  rl_space : SpaceLocks p' = SpaceLocks p;
  rl_objects : Objects p' = Objects (change_refs (-1) (MappedObject v) p);
}.

Lemma release_vad p s x v y : as_ok p s → no_full s (PageMap p) → VadTree p = x ++ v :: y → 0 < VadLocks p → 0 ≤ SpaceLocks p →
  (∀ va, user_va va → node_has (Node v) va → ¬ present s (PageMap p) va) →
  ∃ p' s', MiReleaseVad (key v) p s = Ok (p', s') ∧ released p v s p' s' ∧ VadTree p' = x ++ y ∧ VadLocks p' = VadLocks p - 1.
Proof.
  intros Hok Hf Ev Hvl Hsl Hab. pose proof Hok as [A1 A2 A3 A4 A5 A6]. rewrite Ev in A1, A4. unfold MiReleaseVad. rewrite Ev, find_vad by done. cbn [deref mbind outcome_bind].
  destruct (vads_keys x v y A1) as [Ha _]. rewrite remove_at by done. unfold MmUnlockVadList. cbn [VadLocks set_VadTree].
  rewrite (proj2 (Z.ltb_lt _ _)) by lia. cbn [check mbind outcome_bind]. pose proof A1 as Hsp. apply vads_ok_split in Hsp as (Hxy & Hv & _ & _).
  destruct (clean_up (set_VadLocks (VadLocks p - 1) (set_VadTree (x ++ y) p)) v s) as (s' & -> & C); try done. cbn [mbind outcome_bind].
  assert (HeapTree (change_refs (-1) (MappedObject v) (set_VadLocks (VadLocks p - 1) (set_VadTree (x ++ y) p))) = HeapTree p) as -> by (by destruct (MappedObject v)).
  destruct (free_spec (HeapTree p) (Node v) A2) as (h' & -> & Hh' & Hhas); [apply Hv|intros a [Hh Hn]; apply (A4 a); split; [done|apply reserved_middle; by left]|].
  change (FAILED STATUS_SUCCESS) with false. cbv iota. eexists _, s'. split; [done|]. cbn [PageMap set_VadLocks set_VadTree] in C.
  split; [|by destruct (MappedObject v)].
  assert (∀ w, PageMap (set_HeapTree w (change_refs (-1) (MappedObject v) (set_VadLocks (VadLocks p - 1) (set_VadTree (x ++ y) p)))) = PageMap p ∧
    HeapTree (set_HeapTree w (change_refs (-1) (MappedObject v) (set_VadLocks (VadLocks p - 1) (set_VadTree (x ++ y) p)))) = w ∧
    VadTree (set_HeapTree w (change_refs (-1) (MappedObject v) (set_VadLocks (VadLocks p - 1) (set_VadTree (x ++ y) p)))) = x ++ y) as Hproj by (intros w; by destruct (MappedObject v)).
  destruct (Hproj h') as (E1 & E2 & E3). clear Hproj. split; rewrite ?E1, ?E2.
  - split; rewrite ?E1, ?E2, ?E3; try done.
    + apply user_heap; [done|]. intros a [Hin|Hin]%Hhas; [by apply (heap_user _ a A3) in Hin as []|].
      destruct Hv as [Hu _]. destruct (user_node_end _ Hu) as (_ & _ & _ & Hle). unfold node_has in Hin. lia.
    + intros a [[Hin|Hin]%Hhas Hr]; [apply (A4 a); split; [done|apply reserved_middle; by right]|]. by apply (vads_disjoint x v y a A1 Hin).
    + apply (cl_map _ _ _ _ C).
    + intros va Hva Hp. assert (¬ node_has (Node v) va) as Hno by (intros Hin; by apply (cl_absent _ _ _ _ C va)).
      apply (cleaned_present _ _ _ _ C va Hva) in Hp. apply A6 in Hp; [|done]. rewrite Ev in Hp. apply reserved_middle in Hp as [Hp|Hp]; [done|done].
  - done.
  - done.
  - done.
  - by destruct (MappedObject v).
  - by destruct (MappedObject v).
Qed.
Definition release_answer (p : aspace) (s : S) (Address : Z) (St : BSTATUS) (p' : aspace) (s' : S) : Prop :=
  (St = STATUS_MEMORY_NOT_RESERVED ∧ (∀ v, v ∈ VadTree p → Address < StartVa (Node v)) ∧ p' = p ∧ s' = s) ∨
  (St = STATUS_VA_NOT_AT_BASE ∧ (∃ v, v ∈ VadTree p ∧ StartVa (Node v) < Address) ∧ (∀ v, v ∈ VadTree p → StartVa (Node v) ≠ Address) ∧ p' = p ∧ s' = s) ∨
  (St = STATUS_SUCCESS ∧ ∃ x v y, VadTree p = x ++ v :: y ∧ StartVa (Node v) = Address ∧ VadTree p' = x ++ y ∧ VadLocks p' = VadLocks p ∧ released p v s p' s').

(** The code asserts that the range was decommitted before. *)
Definition releasable (p : aspace) (s : S) (Address : Z) : Prop := ∀ v, v ∈ VadTree p → StartVa (Node v) = Address →
  Committed v = false ∧ ∀ va, user_va va → node_has (Node v) va → ¬ present s (PageMap p) va.

Lemma released_lock p v s p' s' : released (MiLockVadList p) v s p' s' → released p v s p' s'.
Proof. intros [R1 R2 R3 R4 R5 R6]. split; try done. rewrite R6. by destruct (MappedObject v). Qed.

Lemma release_memory_spec p s Address : as_ok p s → no_full s (PageMap p) → 0 ≤ VadLocks p → 0 ≤ SpaceLocks p → releasable p s Address →
  ∃ St p' s', MmReleaseVirtualMemory Address p s = Ok (St, p', s') ∧ as_ok p' s' ∧ release_answer p s Address St p' s'.
Proof.
  intros Hok Hf Hvl Hsl Hrel. unfold MmReleaseVirtualMemory. cbn [MiLockVadList set_VadLocks VadTree]. fold (MiLockVadList p).
  pose proof (as_vads _ _ Hok) as Ht. destruct (ascending_locate (VadTree p) Address (vads_ascending _ Ht)) as [Hall|(x & v & y & Ev & Hv & Hy)].
  - rewrite approximate_none by (done || by apply vads_ascending). rewrite unlock_vads by done. cbn [mbind outcome_bind].
    exists STATUS_MEMORY_NOT_RESERVED, p, s. split; [done|]. split; [done|]. by left.
  - assert (LookUpItemApproximateRbTree (VadTree p) Address = Some v) as -> by (rewrite Ev; apply approximate_at; [rewrite <-Ev; by apply vads_ascending|done|done]).
    assert (v ∈ VadTree p) as Hin by (rewrite Ev; set_solver). change (key v) with (StartVa (Node v)) in Hv.
    destruct (Z.eqb_spec (StartVa (Node v)) Address) as [E|E]; cbn [negb].
    + destruct (Hrel v Hin E) as [Hc Hab]. rewrite Hc. cbn [negb check mbind outcome_bind].
      destruct (release_vad (MiLockVadList p) s x v y) as (p' & s' & -> & R & Et & El); try done.
      { by destruct Hok. } { cbn. lia. }
      cbn [mbind outcome_bind]. exists STATUS_SUCCESS, p', s'. split; [done|]. split; [apply (rl_ok _ _ _ _ _ R)|]. right. right. split; [done|].
      exists x, v, y. split; [done|]. split; [done|]. split; [done|]. split; [rewrite El; cbn; lia|]. by apply released_lock.
    + rewrite unlock_vads by done. cbn [mbind outcome_bind]. exists STATUS_VA_NOT_AT_BASE, p, s. split; [done|]. split; [done|]. right. left.
      split; [done|]. split; [exists v; split; [done|lia]|]. split; [|done]. intros w Hw Ew. rewrite Ev in Hw, Ht. destruct (vads_keys x v y Ht) as [Ha _].
      apply elem_of_app in Hw as [Hw|[->|Hw]%elem_of_cons]; [apply Ha in Hw| done|apply Hy in Hw]; unfold key, vad_key in Hw; lia.
Qed.

(** ** Reserving *)

Definition fresh_vad (n : MMADDRESS_NODE) (AllocationType Prot : Z) : MMVAD :=
  mkVad n (on AllocationType MEM_COMMIT) (Z.land Prot 7) (negb (on AllocationType MEM_SHARED)) None 0.

Lemma insert_vad t v : vads_ok t → vad_ok v → (∀ a, node_has (Node v) a → ¬ reserved t a) →
  ∃ x y, t = x ++ y ∧ InsertItemRbTree t v = Some (x ++ v :: y) ∧ vads_ok (x ++ v :: y).
Proof.
  intros Ht Hv Hno. pose proof (vad_grows v Hv) as Hg. destruct (insert_place t v (vads_ascending t Ht)) as [(x & y & -> & Ha & Hb & E)|(w & Hw & Ek & _)].
  - exists x, y. split; [done|]. split; [done|]. apply vads_ok_split. split; [done|]. split; [done|]. split.
    + intros w Hw. pose proof (Ha w Hw) as Hk. unfold key, vad_key in Hk. destruct (Z.le_gt_cases (end_ (Node w)) (StartVa (Node v))) as [|Hgt]; [done|].
      exfalso. apply (Hno (StartVa (Node v))); [unfold node_has, PAGE_SIZE in *; lia|]. exists w. split; [set_solver|]. unfold node_has. lia.
    + intros w Hw. pose proof (Hb w Hw) as Hk. unfold key, vad_key in Hk. destruct (Z.le_gt_cases (end_ (Node v)) (StartVa (Node w))) as [|Hgt]; [done|].
      exfalso. apply (Hno (StartVa (Node w))); [unfold node_has; lia|]. exists w. split; [set_solver|].
      assert (vad_ok w) as Hwo%vad_grows by (eapply vads_ok_in; [done|set_solver]). unfold node_has, PAGE_SIZE in *. lia.
  - exfalso. unfold key, vad_key in Ek. apply (Hno (StartVa (Node v))); [unfold node_has, PAGE_SIZE in *; lia|]. exists w. split; [done|].
    pose proof (vad_grows w (vads_ok_in _ _ Ht Hw)). unfold node_has, PAGE_SIZE in *. lia.
Qed.

(** The descriptor [v] is new, its range was free. *)
Record inserted (p : aspace) (v : MMVAD) (p' : aspace) : Prop := {
  is_tree : ∃ x y, VadTree p = x ++ y ∧ VadTree p' = x ++ v :: y;
  is_heap : carved (HeapTree p) (Node v) (HeapTree p');
  is_map : PageMap p' = PageMap p;
  is_space : SpaceLocks p' = SpaceLocks p;
  is_objects : Objects p' = Objects p;
}.

Lemma insert_carved p s h n AllocationType Prot : as_ok p s → carved (HeapTree p) n h →
  ∃ p', MiInitializeAndInsertVad (Some n) true 0 0 AllocationType Prot false (set_HeapTree h p) = Ok (STATUS_SUCCESS, Some (fresh_vad n AllocationType Prot), p') ∧
    inserted p (fresh_vad n AllocationType Prot) p' ∧ as_ok p' s ∧ VadLocks p' = VadLocks p + 1 ∧ HeapTree p' = h.
Proof.
  intros [A1 A2 A3 A4 A5 A6] Hc. pose proof Hc as (Hh & Hn & Hx). unfold MiInitializeAndInsertVad. fold (fresh_vad n AllocationType Prot).
  assert (user_node n) as Hun.
  { split; [done|]. assert (has (HeapTree p) (end_ n - 1)) as Hl.
    { apply (Hx (end_ n - 1)). left. pose proof (node_grows n Hn). unfold node_has, PAGE_SIZE in *. lia. }
    apply (heap_user _ _ A3) in Hl as []. lia. }
  destruct (insert_vad (VadTree p) (fresh_vad n AllocationType Prot) A1) as (x & y & Et & Hi & Hv); [by split| |].
  { intros a Ha Hr. apply (A4 a). split; [|done]. apply Hx. by left. }
  cbn [VadTree MiLockVadList set_VadLocks set_HeapTree]. rewrite Hi. eexists. split; [done|]. split; [|split; [|done]].
  - split; cbn; try done. by exists x, y.
  - split; cbn; try done.
    + apply user_heap; [done|]. intros a Ha. assert (has (HeapTree p) a) as Hl by (apply Hx; by right). by apply (heap_user _ _ A3) in Hl as [].
    + intros a [Ha Hr]. apply reserved_middle in Hr as [Hr|Hr]; [by apply (proj2 (Hx a))|]. rewrite <-Et in Hr. apply (A4 a). split; [|done]. apply Hx. by right.
    + intros va Hva Hp. apply reserved_middle. right. rewrite <-Et. by apply A6.
Qed.

Definition bad_request (AllocationType Prot : Z) : bool :=
  on Prot (Z.lnot (Z.lor PAGE_READ (Z.lor PAGE_WRITE PAGE_EXECUTE))) ||
  on AllocationType (Z.lnot (Z.lor MEM_RESERVE (Z.lor MEM_COMMIT (Z.lor MEM_SHARED (Z.lor MEM_TOP_DOWN (Z.lor MEM_FIXED MEM_OVERRIDE)))))).

Definition placed (p : aspace) (n : MMADDRESS_NODE) (SizePages InAddress AllocationType : Z) : Prop :=
  if on AllocationType MEM_FIXED then n = mkNode (page_base InAddress) (pages_for InAddress SizePages)
  else Size n = SizePages ∧ ∀ a, fits (HeapTree p) SizePages a → if on AllocationType MEM_TOP_DOWN then a ≤ StartVa n else StartVa n ≤ a.

Definition no_room (p : aspace) (pool : answers) (SizePages InAddress AllocationType : Z) (St : BSTATUS) : Prop :=
  if on AllocationType MEM_FIXED then
    let free := fits (HeapTree p) (pages_for InAddress SizePages) (page_base InAddress) in
    (¬ free ∧ St = STATUS_CONFLICTING_ADDRESSES) ∨ (free ∧ ok_first pool && ok_second pool = false ∧ St = STATUS_INSUFFICIENT_MEMORY)
  else St = STATUS_INSUFFICIENT_VA_SPACE ∧ ∀ a, ¬ fits (HeapTree p) SizePages a.

Definition reserve_answer (p : aspace) (pool : answers) (SizePages InAddress AllocationType Prot : Z) (St : BSTATUS) (a : Z) (p' : aspace) : Prop :=
  (bad_request AllocationType Prot = true ∧ St = STATUS_INVALID_PARAMETER ∧ a = InAddress ∧ p' = p) ∨
  (bad_request AllocationType Prot = false ∧ no_room p pool SizePages InAddress AllocationType St ∧ a = InAddress ∧ p' = p) ∨
  (bad_request AllocationType Prot = false ∧ St = STATUS_SUCCESS ∧ ∃ n, placed p n SizePages InAddress AllocationType ∧ a = StartVa n ∧
    inserted p (fresh_vad n AllocationType Prot) p' ∧ VadLocks p' = VadLocks p).

Lemma heap_same p : set_HeapTree (HeapTree p) p = p.
Proof. by destruct p. Qed.

Lemma reserve_vad_spec p s pool SizePages InAddress AllocationType Prot : as_ok p s → 0 < SizePages →
  (if on AllocationType MEM_FIXED then 0 ≤ InAddress ∧ InAddress + (SizePages + 1) * PAGE_SIZE < 2 ^ 64 else ok_first pool = true) →
  on AllocationType MEM_OVERRIDE = false →
  (∃ St, MmReserveVirtualMemoryVad pool SizePages AllocationType Prot InAddress p s = Ok (St, None, p, s) ∧ St ≠ STATUS_SUCCESS ∧
    no_room p pool SizePages InAddress AllocationType St) ∨
  ∃ n p', MmReserveVirtualMemoryVad pool SizePages AllocationType Prot InAddress p s = Ok (STATUS_SUCCESS, Some (fresh_vad n AllocationType Prot), p', s) ∧
    placed p n SizePages InAddress AllocationType ∧ node_ok n ∧ inserted p (fresh_vad n AllocationType Prot) p' ∧ as_ok p' s ∧ VadLocks p' = VadLocks p + 1.
Proof.
  intros Hok Hsz Hpre Hov. unfold MmReserveVirtualMemoryVad.
  assert ((Z.land AllocationType (Z.lor MEM_FIXED MEM_OVERRIDE) =? Z.lor MEM_FIXED MEM_OVERRIDE) = false) as ->.
  { apply Z.eqb_neq. intros E. apply (f_equal (λ z, Z.testbit z 8)) in E. rewrite Z.land_spec in E. change (Z.testbit (Z.lor MEM_FIXED MEM_OVERRIDE) 8) with true in E.
    rewrite andb_true_r in E. unfold on in Hov. apply negb_false_iff, Z.eqb_eq in Hov. apply (f_equal (λ z, Z.testbit z 8)) in Hov. rewrite Z.land_spec in Hov.
    change (Z.testbit MEM_OVERRIDE 8) with true in Hov. rewrite andb_true_r, Z.bits_0 in Hov. congruence. }
  assert (∀ n h, carved (HeapTree p) n h → placed p n SizePages InAddress AllocationType →
    ∃ n' p', ('(Status, Vad, p) ← MiInitializeAndInsertVad (Some n) true 0 0 AllocationType Prot false (set_HeapTree h p);
       if FAILED Status then Crash else Ok (Status, Vad, p, s)) = Ok (STATUS_SUCCESS, Some (fresh_vad n' AllocationType Prot), p', s) ∧
      placed p n' SizePages InAddress AllocationType ∧ node_ok n' ∧ inserted p (fresh_vad n' AllocationType Prot) p' ∧ as_ok p' s ∧ VadLocks p' = VadLocks p + 1) as Hgo.
  { intros n h Hc Hpl. destruct (insert_carved p s h n AllocationType Prot Hok Hc) as (p1 & -> & Hi & Hok1 & Hl1 & _).
    cbn [mbind outcome_bind]. change (FAILED STATUS_SUCCESS) with false. cbv iota. exists n, p1. destruct Hc as (_ & Hn & _). by split_and!. }
  unfold no_room. destruct (on AllocationType MEM_FIXED) eqn:Hfx.
  - destruct Hpre as [Hin He]. pose proof (allocate_range_spec (HeapTree p) InAddress SizePages (ok_first pool) (ok_second pool) (as_heap _ _ Hok) Hin Hsz He) as Hra.
    unfold range_answer in Hra. cbv zeta in Hra. destruct Hra as [(Hfree & h' & -> & Hc)|[(Hfree & Hp & ->)|(Hfree & ->)]]; cbn [mbind outcome_bind].
    + right. change (FAILED STATUS_SUCCESS) with false. cbn [deref mbind outcome_bind]. apply (Hgo _ h' Hc). unfold placed. by rewrite Hfx.
    + left. rewrite heap_same. exists STATUS_INSUFFICIENT_MEMORY. split; [done|]. split; [done|by right].
    + left. rewrite heap_same. exists STATUS_CONFLICTING_ADDRESSES. split; [done|]. split; [done|by left].
  - rewrite Hpre.
    destruct (allocate_space_spec (HeapTree p) SizePages (on AllocationType MEM_TOP_DOWN) (as_heap _ _ Hok) Hsz) as [(n & h' & -> & Hsn & Hc & Hbest)|[-> Hno]]; cbn [mbind outcome_bind].
    + right. change (FAILED STATUS_SUCCESS) with false. cbn [deref mbind outcome_bind]. apply (Hgo _ h' Hc). unfold placed. by rewrite Hfx.
    + left. rewrite heap_same. exists STATUS_INSUFFICIENT_VA_SPACE. split; [done|]. by split.
Qed.

Lemma as_ok_unlock p s n : as_ok p s → as_ok (set_VadLocks n p) s.
Proof. by intros []. Qed.

Lemma inserted_unlock p v p' n : inserted p v p' → inserted p v (set_VadLocks n p').
Proof. by intros []. Qed.

Lemma unlock_again p l : 0 ≤ l → VadLocks p = l + 1 → MmUnlockVadList p = Ok (set_VadLocks l p).
Proof. intros Hl E. unfold MmUnlockVadList. rewrite E, (proj2 (Z.ltb_lt _ _)) by lia. cbn [check mbind outcome_bind]. by replace (l + 1 - 1) with l by lia. Qed.

Lemma reserve_memory_spec p s pool SizePages InAddress AllocationType Prot : as_ok p s → 0 ≤ VadLocks p → 0 < SizePages →
  (if on AllocationType MEM_FIXED then 0 ≤ InAddress ∧ InAddress + (SizePages + 1) * PAGE_SIZE < 2 ^ 64 else ok_first pool = true) →
  on AllocationType MEM_OVERRIDE = false →
  ∃ St a p', MmReserveVirtualMemory pool SizePages InAddress AllocationType Prot p s = Ok (St, a, p', s) ∧ as_ok p' s ∧
    reserve_answer p pool SizePages InAddress AllocationType Prot St a p'.
Proof.
  intros Hok Hvl Hsz Hpre Hov. unfold MmReserveVirtualMemory, reserve_answer, bad_request.
  destruct (on Prot _); cbn [orb]; [exists STATUS_INVALID_PARAMETER, InAddress, p; split; [done|]; split; [done|]; by left|].
  destruct (on AllocationType (Z.lnot _)); [exists STATUS_INVALID_PARAMETER, InAddress, p; split; [done|]; split; [done|]; by left|].
  destruct (reserve_vad_spec p s pool SizePages InAddress AllocationType Prot Hok Hsz Hpre Hov) as [(St & -> & HSt & Hno)|(n & p' & -> & Hpl & Hn & Hi & Hok' & Hl)]; cbn [mbind outcome_bind].
  - assert (FAILED St = true) as -> by (by destruct St). exists St, InAddress, p. split; [done|]. split; [done|]. by right; left.
  - change (FAILED STATUS_SUCCESS) with false. cbn [deref mbind outcome_bind Node fresh_vad]. destruct Hn as (_ & Hal & _).
    rewrite (proj2 (aligned_divide _) Hal). cbn [check mbind outcome_bind]. rewrite (unlock_again p' (VadLocks p)) by done. cbn [mbind outcome_bind].
    eexists _, _, _. split; [done|]. split; [by apply as_ok_unlock|]. right. right. split; [done|]. split; [done|]. exists n. split; [done|]. split; [done|].
    split; [by apply inserted_unlock|done].
Qed.
(** ** What the services do *)

(** A lookup finds the descriptor that covers the address, if there is one. *)
Theorem MmLookUpVadByAddress_correct t Address : vads_ok t →
  match MmLookUpVadByAddress t Address with
  | Some v => v ∈ t ∧ node_has (Node v) Address
  | None => ¬ reserved t Address
  end.
Proof.
  intros Ht. destruct (lookup_vad_spec t Address Ht) as [(x & v & y & -> & Ha & ->)|[Hno ->]]; [|done]. split; [set_solver|done].
Qed.

(** C27: reserving, without [MEM_OVERRIDE], and with memory for a node unless
    [MEM_FIXED] is given (an assertion stops the kernel otherwise), returns, keeps
    the address space well formed and changes no page.  It refuses bad flags;
    with [MEM_FIXED] it takes the requested pages, else the lowest (or highest)
    free range of the size, out of the heap and makes them a new descriptor; and
    it fails, changing nothing, only for bad flags, when there is no such free
    range, or with [MEM_FIXED] when there is no memory for a node. *)
Theorem MmReserveVirtualMemory_correct p s pool SizePages InAddress AllocationType Prot : as_ok p s → 0 ≤ VadLocks p → 0 < SizePages →
  (if on AllocationType MEM_FIXED then 0 ≤ InAddress ∧ InAddress + (SizePages + 1) * PAGE_SIZE < 2 ^ 64 else ok_first pool = true) →
  on AllocationType MEM_OVERRIDE = false →
  ∃ St a p', MmReserveVirtualMemory pool SizePages InAddress AllocationType Prot p s = Ok (St, a, p', s) ∧ as_ok p' s ∧
    reserve_answer p pool SizePages InAddress AllocationType Prot St a p'.
Proof. apply reserve_memory_spec. Qed.

(** C28: committing returns and keeps the address space well formed.  It refuses
    a range that is not valid or not in one descriptor, a missing protection, and
    a range with a page that may not be committed; otherwise the entries of the
    pages become committed and no other entry in use changes.  Without memory
    for a table it fails, with the pages before that table committed. *)
Theorem MmCommitVirtualMemory_correct p s Start SizePages Prot : as_ok p s → 0 ≤ VadLocks p → 0 ≤ SpaceLocks p →
  0 ≤ Start < 2 ^ 64 → (PAGE_SIZE | Start) → 0 ≤ SizePages → SizePages * 4096 < 2 ^ 64 →
  ∃ St s', MmCommitVirtualMemory Start SizePages Prot p s = Ok (St, p, s') ∧ as_ok p s' ∧ commit_answer p s Start SizePages Prot St s'.
Proof. apply commit_memory_spec. Qed.

(** Decommitting returns and keeps the address space well formed.  It
    refuses a range that is not valid or not in one descriptor; otherwise no
    page of the range is mapped any more, each page that was mapped there loses
    the reference of the mapping, no other entry in use changes, and the
    descriptor stops being committed exactly if the range is all of it. *)
Theorem MmDecommitVirtualMemory_correct p s Start SizePages : as_ok p s → 0 ≤ VadLocks p → 0 ≤ SpaceLocks p →
  0 ≤ Start < 2 ^ 64 → (PAGE_SIZE | Start) → 0 ≤ SizePages → SizePages * 4096 < 2 ^ 64 →
  ∃ St p' s', MmDecommitVirtualMemory Start SizePages p s = Ok (St, p', s') ∧ as_ok p' s' ∧ decommit_answer p s Start SizePages St p' s'.
Proof. apply decommit_memory_spec. Qed.

(** C29: releasing, of an address space in memory below 4 GiB, when the
    descriptor at the address was decommitted before (which the code asserts)
    and no last-level table is completely filled.  An address at which no
    descriptor starts is refused and nothing changes.  Otherwise the descriptor
    leaves the tree, its range is free again, and the reference to its mapped
    object is dropped; the entries of its pages are cleared, all of them if all
    their tables are there, or else but for at most one at the end of the range
    for each table that is missing; no other entry in use changes.  Of the
    tables under the topmost entries of the range none is left that no entry is
    in use below; the frames of the tables that went are free again and no other
    frame changes its references. *)
Theorem MmReleaseVirtualMemory_correct p s Address : as_ok p s → no_full s (PageMap p) → 0 ≤ VadLocks p → 0 ≤ SpaceLocks p → releasable p s Address →
  ∃ St p' s', MmReleaseVirtualMemory Address p s = Ok (St, p', s') ∧ as_ok p' s' ∧ release_answer p s Address St p' s'.
Proof. apply release_memory_spec. Qed.

Lemma split_unique x v y x' v' y' : vads_ok (x ++ v :: y) → x ++ v :: y = x' ++ v' :: y' → StartVa (Node v) = StartVa (Node v') → x = x' ∧ v = v' ∧ y = y'.
Proof.
  intros Ht E Ek. destruct (vads_keys x v y Ht) as [Ha _]. assert (vads_ok (x' ++ v' :: y')) as Ht' by (by rewrite <-E). destruct (vads_keys x' v' y' Ht') as [Ha' _].
  change (key v = key v') in Ek. clear Ht Ht'. revert x' E Ha'. induction x as [|w x IH]; intros [|w' x'] E Ha'; cbn in E.
  - by injection E.
  - injection E as E1 E2. subst. specialize (Ha' w' ltac:(left)). lia.
  - injection E as E1 E2. subst. specialize (Ha v' ltac:(left)). lia.
  - injection E as E1 E2. subst. destruct (IH ltac:(intros z Hz; apply Ha; by right) x' E2 ltac:(intros z Hz; apply Ha'; by right)) as (-> & -> & ->). done.
Qed.

Lemma absent_free p s n : as_ok p s → (∀ a, node_has n a → has (HeapTree p) a) → ∀ va, user_va va → node_has n va → ¬ present s (PageMap p) va.
Proof. intros Hok Hn va Hva Ha Hp. apply (as_apart _ _ Hok va). split; [by apply Hn|]. by apply (as_present _ _ Hok). Qed.

(** A descriptor that was inserted, and is not committed, can be released again. *)
Lemma release_inserted p p1 s s1 v : as_ok p s → as_ok p1 s1 → inserted p v p1 → VadLocks p1 = VadLocks p → no_full s1 (PageMap p1) → 0 ≤ VadLocks p → 0 ≤ SpaceLocks p →
  Committed v = false → (∀ va, user_va va → node_has (Node v) va → ¬ present s1 (PageMap p1) va) →
  ∃ s2, MmReleaseVirtualMemory (StartVa (Node v)) p1 s1 = Ok (STATUS_SUCCESS, change_refs (-1) (MappedObject v) p, s2) ∧
    as_ok (change_refs (-1) (MappedObject v) p) s2 ∧ less_present s1 (PageMap p) s2.
Proof.
  intros Hok Hok1 [(x & y & Ex & Ex1) Hc Em Esl Eo] Hl1 Hf Hvl Hsl Hcm Hab. destruct Hc as (Hh1 & Hn & Hx).
  assert (∀ w, w ∈ VadTree p1 → StartVa (Node w) = StartVa (Node v) → w = v) as Huniq.
  { intros w (x' & y' & E)%list_elem_of_split Ev. rewrite Ex1 in E. pose proof (as_vads _ _ Hok1) as Ht. rewrite Ex1 in Ht.
    by destruct (split_unique _ _ _ _ _ _ Ht E) as (_ & -> & _). }
  destruct (release_memory_spec p1 s1 (StartVa (Node v))) as (St & p2 & s2 & Hr2 & Hok2 & Ha2); [done|done|by rewrite Hl1|by rewrite Esl| |].
  { intros w Hw Ew. by rewrite (Huniq w Hw Ew). }
  assert (v ∈ VadTree p1) as Hin by (rewrite Ex1; set_solver).
  destruct Ha2 as [(_ & Hno & _)|[(_ & _ & Hno & _)|(-> & x' & w & y' & E & Ev & Et2 & El2 & R)]].
  { exfalso. specialize (Hno v Hin). lia. }
  { exfalso. by apply (Hno v Hin). }
  pose proof (as_vads _ _ Hok1) as Ht. rewrite Ex1 in Ht, E. destruct (split_unique _ _ _ _ _ _ Ht E) as (<- & <- & <-); [by rewrite Ev|]. destruct R as [R1 R2 R3 R4 R5 R6].
  assert (p2 = change_refs (-1) (MappedObject v) p) as ->.
  { assert (HeapTree p2 = HeapTree p) as Eh.
    { apply heap_canonical; [apply R1|apply Hok|]. intros b. rewrite R2. destruct (Hx b) as [Hb1 _]. tauto. }
    rewrite <-Ex in Et2. destruct p, p1, p2. cbn in *. destruct (MappedObject v); cbn in *; unfold set_Objects; cbn; congruence. }
  exists s2. split; [exact Hr2|]. split; [exact R1|]. rewrite <-Em. by apply cleaned_present with (Node v).
Qed.

(** A range that was reserved without [MEM_COMMIT] can be released at the
    address that was returned; descriptors, free ranges, locks and references
    to objects are then as before. *)
Theorem reserve_release_roundtrip p s pool SizePages AllocationType Prot a p1 : as_ok p s → no_full s (PageMap p) → 0 ≤ VadLocks p → 0 ≤ SpaceLocks p →
  0 < SizePages → ok_first pool = true → on AllocationType MEM_FIXED = false → on AllocationType MEM_OVERRIDE = false → on AllocationType MEM_COMMIT = false →
  MmReserveVirtualMemory pool SizePages 0 AllocationType Prot p s = Ok (STATUS_SUCCESS, a, p1, s) →
  ∃ s2, MmReleaseVirtualMemory a p1 s = Ok (STATUS_SUCCESS, p, s2) ∧ as_ok p s2 ∧ less_present s (PageMap p) s2.
Proof.
  intros Hok Hf Hvl Hsl Hsz Hpool Hfx Hov Hcm Hres.
  destruct (reserve_memory_spec p s pool SizePages 0 AllocationType Prot Hok Hvl Hsz) as (St & a' & p' & Hr & Hok1 & Ha); [by rewrite Hfx|done|].
  rewrite Hres in Hr. injection Hr as <- <- <-. destruct Ha as [(_ & E & _)|[(_ & Hno & _)|(_ & _ & n & Hpl & -> & Hi & Hl1)]]; [discriminate E| |].
  { unfold no_room in Hno. rewrite Hfx in Hno. by destruct Hno as [E _]. }
  pose proof (is_heap _ _ _ Hi) as (_ & _ & Hx). pose proof (is_map _ _ _ Hi) as Em.
  destruct (release_inserted p p1 s s (fresh_vad n AllocationType Prot) Hok Hok1 Hi Hl1) as (s2 & Hr2 & Hok2 & Hless); [by rewrite Em|done|done|done| |by exists s2].
  rewrite Em. apply absent_free; [done|]. intros b Hb. apply Hx. by left.
Qed.

(** No entry of a concrete page map is present. *)
Lemma none_present_check s root :
  forallb (λ '(path, p), negb (length path =? 3)%nat || forallb (λ j, negb (MmIsPresentPte (word_at s p j))) (seqZ 0 512)) (tables s 3 [] root) = true →
  ∀ va, plain_va va → ¬ present s root va.
Proof.
  intros Hf va Hva (e & He & Hpr). unfold pte in He. destruct (node s root (path_of va)) as [p|] eqn:Hp; [|done]. injection He as <-.
  assert (∀ path p, in_tree path → node s root path = Some p → length path = 3%nat → ∀ j, digit j → MmIsPresentPte (word_at s p j) = false) as Hz.
  { apply (tables_check (λ path p, length path = 3%nat → ∀ j, digit j → MmIsPresentPte (word_at s p j) = false) _) with (2 := Hf).
    intros path q Hc Hl j Hj. rewrite Hl in Hc. cbn [Nat.eqb negb orb] in Hc. rewrite forallb_forall in Hc.
    apply negb_true_iff, Hc, list_elem_of_In, elem_of_seqZ. unfold digit in Hj. lia. }
  rewrite (Hz (path_of va) p (path_in_tree va Hva) Hp eq_refl _ (digit_PML 1 va)) in Hpr. done.
Qed.
End proofs.

(** ** Witnesses *)

(** An address space with one descriptor, that is neither committed nor mapped. *)
Definition demo_vad : MMVAD := mkVad (mkNode 0x10000 16) false 3 true None 0.
Definition demo_space : aspace := mkAspace [demo_vad] [mkNode 0x1000 15; mkNode 0x20000 1000] 1 0 0 ∅.

Lemma node_ok_check n : (0 <=? StartVa n) && (StartVa n mod PAGE_SIZE =? 0) && (0 <? Size n) && (end_ n <? 2 ^ 64) = true → node_ok n.
Proof.
  rewrite !andb_true_iff, Z.leb_le, Z.eqb_eq, !Z.ltb_lt. intros (((H1 & H2) & H3) & H4). split; [done|]. split; [|done]. by apply Z.mod_divide in H2.
Qed.

Lemma fresh_user_map : user_map fresh_map 1 ∧ no_full fresh_map 1 ∧ ∀ va, user_va va → ¬ present fresh_map 1 va.
Proof.
  destruct fresh_map_ok as (Hok & Hb & _ & Hn & Hw).
  assert (∀ va, user_va va → pte fresh_map 1 va = None) as Hnone.
  { intros va Hva. unfold pte. destruct (node fresh_map 1 (path_of va)) as [q|] eqn:E; [|done]. apply Hn in E as [E _]. done. }
  split; [|split].
  - split; [exact Hok| | | |].
    + intros path i q Ht [-> ->]%Hn. by rewrite Hw.
    + intros va e Hva He. by rewrite Hnone in He.
    + intros va f Hva Hf. unfold mapped_frame in Hf. rewrite Hnone in Hf by exact Hva. by apply elem_of_nil in Hf.
    + intros va va' f Hva _ Hf. unfold mapped_frame in Hf. rewrite Hnone in Hf by exact Hva. by apply elem_of_nil in Hf.
  - intros path q Ht Hl [-> _]%Hn. discriminate Hl.
  - intros va Hva (e & He & _). by rewrite Hnone in He.
Qed.

Lemma demo_space_ok : as_ok demo_space fresh_map.
Proof.
  destruct fresh_user_map as (Hu & _ & Hp). split.
  - split; [|repeat constructor]. repeat constructor; try done; apply node_ok_check; vm_compute; reflexivity.
  - split; [|repeat constructor]. repeat constructor; apply node_ok_check; vm_compute; reflexivity.
  - repeat constructor; try (apply node_ok_check; vm_compute; reflexivity); vm_compute; congruence.
  - intros a [Hh Hr]. cbn [demo_space HeapTree VadTree] in *. rewrite !has_cons in Hh. rewrite reserved_cons in Hr.
    pose proof (has_nil a). pose proof (reserved_nil a). unfold node_has, end_, PAGE_SIZE in *. cbn in *. destruct Hr as [Hr|Hr]; [|done]. destruct Hh as [Hh|[Hh|Hh]]; [lia|lia|done].
  - exact Hu.
  - intros va Hva Hpr. by destruct (Hp va Hva).
Qed.

Lemma MmLookUpVadByAddress_correct_witness :
  match MmLookUpVadByAddress [demo_vad] 0x12345 with Some v => v ∈ [demo_vad] ∧ node_has (Node v) 0x12345 | None => ¬ reserved [demo_vad] 0x12345 end.
Proof. apply (MmLookUpVadByAddress_correct [demo_vad] 0x12345), (as_vads _ _ demo_space_ok). Defined.

Lemma MmReserveVirtualMemory_correct_witness :
  ∃ St a p', MmReserveVirtualMemory (mkAnswers true true true) 4 0x30000 (Z.lor MEM_RESERVE MEM_FIXED) PAGE_READ demo_space fresh_map = Ok (St, a, p', fresh_map) ∧ as_ok p' fresh_map.
Proof.
  destruct (MmReserveVirtualMemory_correct demo_space fresh_map (mkAnswers true true true) 4 0x30000 (Z.lor MEM_RESERVE MEM_FIXED) PAGE_READ demo_space_ok)
    as (St & a & p' & Hr & Hok & _); [cbn; lia|lia|vm_compute; split; [congruence|reflexivity]|reflexivity|]. exists St, a, p'. split; [exact Hr|exact Hok].
Defined.

Lemma MmCommitVirtualMemory_correct_witness : ∃ St s', MmCommitVirtualMemory 0x10000 2 0 demo_space fresh_map = Ok (St, demo_space, s') ∧ as_ok demo_space s'.
Proof.
  destruct (MmCommitVirtualMemory_correct demo_space fresh_map 0x10000 2 0 demo_space_ok) as (St & s' & Hc & Hok & _);
    [cbn; lia|cbn; lia|lia|by exists 16|lia|lia|]. exists St, s'. split; [exact Hc|exact Hok].
Defined.

Lemma MmDecommitVirtualMemory_correct_witness : ∃ St p' s', MmDecommitVirtualMemory 0x10000 16 demo_space fresh_map = Ok (St, p', s') ∧ as_ok p' s'.
Proof.
  destruct (MmDecommitVirtualMemory_correct demo_space fresh_map 0x10000 16 demo_space_ok) as (St & p' & s' & Hc & Hok & _);
    [cbn; lia|cbn; lia|lia|by exists 16|lia|lia|]. exists St, p', s'. split; [exact Hc|exact Hok].
Defined.

(** Two pages of the descriptor were committed, and all was decommitted: the
    entries in its table are marks that are left to be cleared. *)
Definition marked : outcome (BSTATUS * aspace * pmm) :=
  '(_, p, s) ← MmCommitVirtualMemory 0x10000 2 0 demo_space fresh_map; MmDecommitVirtualMemory 0x10000 16 p s.
Definition marked_map : pmm := match marked with Ok (_, _, s) => s | _ => fresh_map end.

Lemma marked_space : as_ok demo_space marked_map.
Proof.
  destruct (commit_memory_spec demo_space fresh_map 0x10000 2 0 demo_space_ok) as (St & s & Hc & Hok & _); [cbn; lia|cbn; lia|lia|by exists 16|lia|lia|].
  destruct (decommit_memory_spec demo_space s 0x10000 16 Hok) as (St' & p' & s' & Hd & Hok' & _); [cbn; lia|cbn; lia|lia|by exists 16|lia|lia|].
  assert (marked = Ok (St', p', s')) as E by (unfold marked; rewrite Hc; exact Hd).
  assert (match marked with Ok (_, p, _) => p = demo_space | _ => False end) as Hp by (vm_compute; reflexivity).
  unfold marked_map. rewrite E in Hp |- *. rewrite <-Hp. exact Hok'.
Qed.

Lemma marked_absent va : user_va va → ¬ present marked_map 1 va.
Proof. intros Hva. apply none_present_check; [vm_compute; reflexivity|exact (proj1 (user_plain va Hva))]. Qed.

(** A mark is cleared, and the table, in which then nothing is in use, is freed. *)
Lemma MmReleaseVirtualMemory_correct_witness :
  pte marked_map 1 0x11000 = Some (MmBuildAbsentPte MM_PAGE_DECOMMITTED) ∧ node marked_map 1 [0; 0; 0] = Some 4 ∧
  ∃ p' s', MmReleaseVirtualMemory 0x10000 demo_space marked_map = Ok (STATUS_SUCCESS, p', s') ∧ as_ok p' s' ∧ VadTree p' = [] ∧
    pte s' 1 0x11000 = None ∧ pf_refs s' 4 = None.
Proof.
  assert (node marked_map 1 [0; 0; 0] = Some 4) as Hn by (vm_compute; reflexivity).
  split; [vm_compute; reflexivity|]. split; [exact Hn|].
  destruct (MmReleaseVirtualMemory_correct demo_space marked_map 0x10000 marked_space) as (St & p' & s' & Hc & Hok & Ha);
    [apply no_full_check; vm_compute; reflexivity|cbn; lia|cbn; lia| |].
  { intros v Hv _. apply list_elem_of_singleton in Hv as ->. split; [reflexivity|]. intros va Hva _. exact (marked_absent va Hva). }
  assert (match MmReleaseVirtualMemory 0x10000 demo_space marked_map with
    | Ok (St, p, s) => St = STATUS_SUCCESS ∧ VadTree p = [] ∧ node s 1 [0; 0; 0] = None ∧ pte s 1 0x11000 = None | _ => False end) as Hs by (vm_compute; split_and!; reflexivity).
  rewrite Hc in Hs. destruct Hs as (-> & Hv & Hn' & Hp). exists p', s'. split; [exact Hc|]. split; [exact Hok|]. split; [exact Hv|]. split; [exact Hp|].
  destruct Ha as [[E _]|[[E _]|(_ & x & v & y & _ & _ & _ & _ & R)]]; [discriminate E|discriminate E|].
  refine (cl_freed _ _ _ _ (rl_pages _ _ _ _ _ R) [0; 0; 0] 4 _ Hn Hn'). split_and!; [cbn; lia|repeat constructor; unfold digit; lia|discriminate].
Defined.

(** Four pages more. *)
Definition demo_reserved : aspace :=
  mkAspace [fresh_vad (mkNode 0x1000 4) MEM_RESERVE PAGE_READ; demo_vad] [mkNode 0x5000 11; mkNode 0x20000 1000] 1 0 0 ∅.

Lemma reserve_release_roundtrip_witness :
  ∃ s2, MmReserveVirtualMemory (mkAnswers true true true) 4 0 MEM_RESERVE PAGE_READ demo_space fresh_map = Ok (STATUS_SUCCESS, 0x1000, demo_reserved, fresh_map) ∧
    MmReleaseVirtualMemory 0x1000 demo_reserved fresh_map = Ok (STATUS_SUCCESS, demo_space, s2).
Proof.
  assert (MmReserveVirtualMemory (mkAnswers true true true) 4 0 MEM_RESERVE PAGE_READ demo_space fresh_map = Ok (STATUS_SUCCESS, 0x1000, demo_reserved, fresh_map)) as E
    by (cbv -[fresh_map]; reflexivity).
  destruct (reserve_release_roundtrip demo_space fresh_map (mkAnswers true true true) 4 MEM_RESERVE PAGE_READ 0x1000 demo_reserved demo_space_ok (proj1 (proj2 fresh_user_map)))
    as (s2 & Hr & _); [cbn; lia|cbn; lia|lia|reflexivity|reflexivity|reflexivity|reflexivity|exact E|].
  exists s2. split; [exact E|exact Hr].
Defined.
