(* ===== verification/VadRange.v ===== *)
(** Taking a range of addresses away from whoever has it: what
    [MmOverrideAddressRange] of [boron/source/mm/vad.c] does to the descriptors,
    the free ranges, the page map and the references to objects, and the two
    services over it. *)
From S2P Require Import Prelude Pmm Pages Pte PageMap PageFree Commit RbTree Heap Vad.
From S2P Require Mdl.
Local Open Scope Z_scope.

(** ** Cutting a range out of a node *)

Definition node_left (lo : Z) (n : MMADDRESS_NODE) : MMADDRESS_NODE := mkNode (StartVa n) ((lo - StartVa n) / PAGE_SIZE).
Definition node_right (hi : Z) (n : MMADDRESS_NODE) : MMADDRESS_NODE := mkNode hi ((end_ n - hi) / PAGE_SIZE).

Definition node_cut (lo hi : Z) (n : MMADDRESS_NODE) : list MMADDRESS_NODE :=
  if (hi <=? StartVa n) || (end_ n <=? lo) then [n]
  else (if StartVa n <? lo then [node_left lo n] else []) ++ (if hi <? end_ n then [node_right hi n] else []).

(** The descriptor of what is left on either side; the one above begins later in
    the object that is mapped. *)
Definition vad_left (lo : Z) (v : MMVAD) : MMVAD := set_Node (node_left lo (Node v)) v.
Definition vad_right (hi : Z) (v : MMVAD) : MMVAD :=
  set_SectionOffset (match MappedObject v with Some _ => u64 (SectionOffset v + (hi - StartVa (Node v))) | None => 0 end) (set_Node (node_right hi (Node v)) v).

Definition vad_cut (lo hi : Z) (v : MMVAD) : list MMVAD :=
  if (hi <=? StartVa (Node v)) || (end_ (Node v) <=? lo) then [v]
  else (if StartVa (Node v) <? lo then [vad_left lo v] else []) ++ (if hi <? end_ (Node v) then [vad_right hi v] else []).

Definition in_bounds (lo hi a : Z) : Prop := lo ≤ a < hi.

Lemma left_ok lo n : node_ok n → (PAGE_SIZE | lo) → StartVa n < lo < end_ n → node_ok (node_left lo n) ∧ end_ (node_left lo n) = lo.
Proof.
  intros (H0 & [s Hs] & Hsz & He) [l Hl] Hlo. unfold node_ok, node_left, end_ in *. cbn [StartVa Size]. rewrite Hl in *. rewrite Hs in *.
  replace (l * PAGE_SIZE - s * PAGE_SIZE) with ((l - s) * PAGE_SIZE) by lia. rewrite Z.div_mul by done. unfold PAGE_SIZE in *.
  split; [|lia]. split; [lia|]. split; [by exists s|]. lia.
Qed.

Lemma right_ok hi n : node_ok n → (PAGE_SIZE | hi) → StartVa n ≤ hi < end_ n → node_ok (node_right hi n) ∧ end_ (node_right hi n) = end_ n.
Proof.
  intros (H0 & [s Hs] & Hsz & He) [l Hl] Hhi. unfold node_ok, node_right, end_ in *. cbn [StartVa Size]. rewrite Hl in *. rewrite Hs in *.
  replace (s * PAGE_SIZE + Size n * PAGE_SIZE - l * PAGE_SIZE) with ((s + Size n - l) * PAGE_SIZE) by lia. rewrite Z.div_mul by done. unfold PAGE_SIZE in *.
  split; [|lia]. split; [lia|]. split; [by exists l|]. lia.
Qed.

Lemma has_nil_iff a : has [] a ↔ False.
Proof. split; [apply has_nil|done]. Qed.

(** What is left of a node are its addresses outside of the range. *)
Lemma node_cut_spec lo hi n : node_ok n → (PAGE_SIZE | lo) → (PAGE_SIZE | hi) → lo < hi →
  (∀ m, m ∈ node_cut lo hi n → node_ok m ∧ StartVa n ≤ StartVa m ∧ end_ m ≤ end_ n) ∧
  StronglySorted (λ x y, end_ x < StartVa y) (node_cut lo hi n) ∧ ∀ a, has (node_cut lo hi n) a ↔ node_has n a ∧ ¬ in_bounds lo hi a.
Proof.
  intros Hn Hlo Hhi Hlt. pose proof (node_grows n Hn) as Hg. unfold node_cut, in_bounds, PAGE_SIZE in *.
  assert (∀ a, has [n] a ↔ node_has n a) as H1 by (intros a; rewrite has_cons; pose proof (has_nil a); tauto).
  destruct (Z.leb_spec hi (StartVa n)); cbn [orb].
  { split; [intros m ->%list_elem_of_singleton; split; [done|lia]|]. split; [repeat constructor|]. intros a. rewrite H1. unfold node_has. lia. }
  destruct (Z.leb_spec (end_ n) lo).
  { split; [intros m ->%list_elem_of_singleton; split; [done|lia]|]. split; [repeat constructor|]. intros a. rewrite H1. unfold node_has. lia. }
  assert (StartVa n < lo → node_ok (node_left lo n) ∧ end_ (node_left lo n) = lo) as HL by (intros; apply left_ok; [done|done|lia]).
  assert (hi < end_ n → node_ok (node_right hi n) ∧ end_ (node_right hi n) = end_ n) as HR by (intros; apply right_ok; [done|done|lia]).
  destruct (Z.ltb_spec (StartVa n) lo) as [Hl|Hl]; [destruct (HL Hl) as [HL1 HL2]|]; (destruct (Z.ltb_spec hi (end_ n)) as [Hr|Hr]; [destruct (HR Hr) as [HR1 HR2]|]);
    cbn [app]; clear HL HR; (split; [|split]).
  - intros m [->|[->|[]%elem_of_nil]%elem_of_cons]%elem_of_cons; (split; [done|]); rewrite ?HL2, ?HR2; cbn; lia.
  - constructor; [repeat constructor|]. repeat constructor. rewrite HL2. cbn. lia.
  - intros a. rewrite !has_cons, has_nil_iff. unfold node_has. rewrite HL2, HR2. cbn. lia.
  - intros m [->|[]%elem_of_nil]%elem_of_cons. split; [done|]. rewrite HL2. cbn. lia.
  - repeat constructor.
  - intros a. rewrite !has_cons, has_nil_iff. unfold node_has. rewrite HL2. cbn. lia.
  - intros m [->|[]%elem_of_nil]%elem_of_cons. split; [done|]. rewrite HR2. cbn. lia.
  - repeat constructor.
  - intros a. rewrite !has_cons, has_nil_iff. unfold node_has. rewrite HR2. cbn. lia.
  - intros m []%elem_of_nil.
  - constructor.
  - intros a. rewrite has_nil_iff. unfold node_has. lia.
Qed.

Lemma vad_cut_nodes lo hi v : Node <$> vad_cut lo hi v = node_cut lo hi (Node v).
Proof. unfold vad_cut, node_cut. destruct (_ || _); [done|]. by destruct (_ <? lo), (hi <? _). Qed.

Lemma vad_cut_same lo hi v w : w ∈ vad_cut lo hi v → MappedObject w = MappedObject v ∧ Committed w = Committed v ∧ Protection w = Protection v ∧ Private w = Private v.
Proof.
  unfold vad_cut. destruct (_ || _); [by intros ->%list_elem_of_singleton|].
  intros [Hw|Hw]%elem_of_app; [destruct (_ <? lo)|destruct (hi <? _)]; solve [by apply elem_of_nil in Hw|by apply list_elem_of_singleton in Hw as ->].
Qed.

Lemma vad_cut_ok lo hi v w : vad_ok v → (PAGE_SIZE | lo) → (PAGE_SIZE | hi) → lo < hi → w ∈ vad_cut lo hi v →
  vad_ok w ∧ StartVa (Node v) ≤ StartVa (Node w) ∧ end_ (Node w) ≤ end_ (Node v).
Proof.
  intros [[Hn Hu] Ho] Hlo Hhi Hlt Hw. destruct (node_cut_spec lo hi (Node v) Hn Hlo Hhi Hlt) as (Hc & _ & _).
  destruct (Hc (Node w)) as (Hw1 & Hw2 & Hw3); [rewrite <-vad_cut_nodes; by apply list_elem_of_fmap_2|]. split; [|done].
  split; [split; [done|lia]|]. unfold vad_cut in Hw. destruct (_ || _); [by apply list_elem_of_singleton in Hw as ->|].
  apply elem_of_app in Hw as [Hw|Hw].
  - destruct (_ <? lo); [|by apply elem_of_nil in Hw]. by apply list_elem_of_singleton in Hw as ->.
  - destruct (hi <? _); [|by apply elem_of_nil in Hw]. apply list_elem_of_singleton in Hw as ->. cbn. by intros ->.
Qed.

Lemma vads_ok_parts x v parts y : vads_ok (x ++ v :: y) → (∀ w, w ∈ parts → vad_ok w ∧ StartVa (Node v) ≤ StartVa (Node w) ∧ end_ (Node w) ≤ end_ (Node v)) →
  StronglySorted (λ x y, end_ x < StartVa y) (Node <$> parts) → vads_ok (x ++ parts ++ y).
Proof.
  intros Ht Hp Hs. apply vads_ok_split in Ht as (Hxy & Hv & Ha & Hb). induction parts as [|w parts IH]; [done|]. cbn in *.
  apply StronglySorted_inv in Hs as [Hs Hw]. destruct (Hp w) as (Hwo & Hw1 & Hw2); [left|]. apply vads_ok_split. split; [apply IH; [intros z Hz; apply Hp; by right|done]|].
  split; [done|]. split; [intros z Hz; apply Ha in Hz; lia|]. intros z [Hz|Hz]%elem_of_app; [|apply Hb in Hz; lia].
  rewrite Forall_fmap, Forall_forall in Hw. apply Hw in Hz. cbn in Hz. lia.
Qed.

Lemma reserved_nodes t a : reserved t a ↔ has (Node <$> t) a.
Proof.
  unfold reserved, has. split; [intros (v & Hv & Ha); exists (Node v); split; [by apply list_elem_of_fmap_2|done]|].
  intros (n & (v & -> & Hv)%list_elem_of_fmap & Ha). by exists v.
Qed.

Lemma vads_cut_ok lo hi x v y : vads_ok (x ++ v :: y) → (PAGE_SIZE | lo) → (PAGE_SIZE | hi) → lo < hi →
  vads_ok (x ++ vad_cut lo hi v ++ y) ∧ ∀ a, reserved (vad_cut lo hi v) a ↔ node_has (Node v) a ∧ ¬ in_bounds lo hi a.
Proof.
  intros Ht Hlo Hhi Hlt. assert (vad_ok v) as Hv by (eapply vads_ok_in; [done|set_solver]). pose proof Hv as [[Hn _] _].
  destruct (node_cut_spec lo hi (Node v) Hn Hlo Hhi Hlt) as (_ & Hs & Hh). split; [|intros a; by rewrite reserved_nodes, vad_cut_nodes].
  apply (vads_ok_parts x v); [done| |by rewrite vad_cut_nodes]. intros w Hw. by apply (vad_cut_ok lo hi).
Qed.

(** A node that does not meet the range, or is above it, is kept. *)
Lemma node_cut_above lo hi n : hi ≤ StartVa n → node_cut lo hi n = [n].
Proof. intros Hh. unfold node_cut. by rewrite (proj2 (Z.leb_le _ _)). Qed.

Lemma vad_cut_above lo hi v : hi ≤ StartVa (Node v) → vad_cut lo hi v = [v].
Proof. intros Hh. unfold vad_cut. by rewrite (proj2 (Z.leb_le _ _)). Qed.

Lemma vads_cut_above lo hi t : (∀ v, v ∈ t → hi ≤ StartVa (Node v)) → flat_map (vad_cut lo hi) t = t.
Proof.
  induction t as [|v t IH]; intros Ht; [done|]. cbn. rewrite vad_cut_above by (apply Ht; left). cbn. f_equal. apply IH. intros w Hw. apply Ht. by right.
Qed.

(** The references that descriptors hold to an object. *)
Definition holds (o : Z) (v : MMVAD) : Z := if bool_decide (MappedObject v = Some o) then 1 else 0.
Definition holders (o : Z) (t : list MMVAD) : Z := foldr (λ v n, holds o v + n) 0 t.

Lemma holders_app o a b : holders o (a ++ b) = holders o a + holders o b.
Proof. induction a as [|v a IH]; cbn; [done|]. unfold holders in IH. rewrite IH. unfold holders. lia. Qed.

Lemma holders_cons o v b : holders o (v :: b) = holds o v + holders o b.
Proof. done. Qed.

Lemma snoc_cons {A} (x : list A) n y : x ++ n :: y = (x ++ [n]) ++ y.
Proof. by rewrite <-app_assoc. Qed.

(** ** The free ranges *)

Lemma heap_parts x n parts y : heap_ok (x ++ n :: y) → (∀ m, m ∈ parts → node_ok m ∧ StartVa n ≤ StartVa m ∧ end_ m ≤ end_ n) →
  StronglySorted (λ x y, end_ x < StartVa y) parts → heap_ok (x ++ parts ++ y).
Proof.
  intros Hh Hp Hs. apply heap_ok_split in Hh as (Hxy & Hn & Ha & Hb). induction parts as [|m parts IH]; [done|]. cbn.
  apply StronglySorted_inv in Hs as [Hs Hm]. destruct (Hp m) as (Hmo & Hm1 & Hm2); [left|]. apply heap_ok_split.
  split; [apply IH; [intros z Hz; apply Hp; by right|done]|]. split; [done|]. split; [intros z Hz; apply Ha in Hz; lia|].
  intros z [Hz|Hz]%elem_of_app; [|apply Hb in Hz; lia]. rewrite Forall_forall in Hm. by apply Hm.
Qed.

Lemma heap_cut lo hi x n y : heap_ok (x ++ n :: y) → (PAGE_SIZE | lo) → (PAGE_SIZE | hi) → lo < hi → heap_ok (x ++ node_cut lo hi n ++ y).
Proof.
  intros Hh Hlo Hhi Hlt. assert (node_ok n) as Hn by (eapply heap_ok_node; [done|set_solver]).
  destruct (node_cut_spec lo hi n Hn Hlo Hhi Hlt) as (Hp & Hs & _). by apply (heap_parts x n).
Qed.

Lemma heap_cut_has lo hi h a : heap_ok h → (PAGE_SIZE | lo) → (PAGE_SIZE | hi) → lo < hi → has (flat_map (node_cut lo hi) h) a ↔ has h a ∧ ¬ in_bounds lo hi a.
Proof.
  intros Hh Hlo Hhi Hlt. assert (∀ n, n ∈ h → node_ok n) as Hok by (intros n; by apply heap_ok_node). clear Hh.
  induction h as [|n h IH]; cbn [flat_map]; [rewrite has_nil_iff; tauto|]. rewrite has_app, has_cons, IH by (intros m Hm; apply Hok; by right).
  destruct (node_cut_spec lo hi n (Hok n ltac:(left)) Hlo Hhi Hlt) as (_ & _ & ->). tauto.
Qed.

(** Nodes that do not meet the range are passed. *)
Lemma override_heap_pass lo hi : ∀ y x fuel, heap_ok (x ++ y) → (length y ≤ fuel)%nat → (∀ n, n ∈ y → hi ≤ StartVa n ∨ end_ n ≤ lo) →
  override_heap fuel (head y) lo hi (x ++ y) = Ok (x ++ y).
Proof.
  induction y as [|n y IH]; intros x fuel Hh Hf Hy; [by destruct fuel|]. destruct fuel as [|fuel]; [cbn in Hf; lia|]. cbn [head override_heap].
  destruct (heap_keys x n y Hh) as [Ha _]. assert (node_ok n) as Hn by (eapply heap_ok_node; [done|set_solver]).
  rewrite (next_at x n y Ha : GetNextEntryRbTree _ (StartVa n) = _), (end_wrap n Hn).
  assert ((hi <=? StartVa n) || (end_ n <=? lo) = true) as ->.
  { destruct (Hy n ltac:(left)); [rewrite (proj2 (Z.leb_le hi _)) by lia; done|rewrite (proj2 (Z.leb_le (end_ n) _)) by lia; apply orb_true_r]. }
  rewrite (snoc_cons x n y) in *. apply IH; [done|cbn in Hf; lia|]. intros m Hm. apply Hy. by right.
Qed.

Lemma heap_cut_above lo hi h : (∀ n, n ∈ h → hi ≤ StartVa n) → flat_map (node_cut lo hi) h = h.
Proof.
  induction h as [|n h IH]; intros Hh; [done|]. cbn. rewrite node_cut_above by (apply Hh; left). cbn. f_equal. apply IH. intros m Hm. apply Hh. by right.
Qed.

(** After a split the walk begins again; two walks are enough. *)
Lemma override_heap_spec lo hi : (PAGE_SIZE | lo) → (PAGE_SIZE | hi) → lo < hi → hi < 2 ^ 64 → ∀ y x fuel, heap_ok (x ++ y) →
  (∀ n, n ∈ x → end_ n ≤ lo) → (length (x ++ y) + length y + 2 ≤ fuel)%nat →
  override_heap fuel (head y) lo hi (x ++ y) = Ok (x ++ flat_map (node_cut lo hi) y).
Proof.
  intros Hlo Hhi Hlt Hmax. induction y as [|n y IH]; intros x fuel Hh Hx Hf; [by destruct fuel|]. destruct fuel as [|fuel]; [cbn in Hf; lia|].
  rewrite length_app in Hf. cbn [length] in Hf. cbn [head override_heap flat_map]. destruct (heap_keys x n y Hh) as [Ha Hb].
  assert (node_ok n) as Hn by (eapply heap_ok_node; [done|set_solver]). pose proof (node_grows n Hn) as Hg. pose proof Hn as (H0 & Hal & Hsz & He).
  rewrite (next_at x n y Ha : GetNextEntryRbTree _ (StartVa n) = _), (end_wrap n Hn).
  pose proof Hh as Hsp. apply heap_ok_split in Hsp as (Hxy & _ & Hxn & Hny).
  destruct ((hi <=? StartVa n) || (end_ n <=? lo)) eqn:Eno.
  { unfold node_cut at 1. rewrite Eno. cbn [app]. destruct (Z.leb_spec hi (StartVa n)).
    - rewrite heap_cut_above by (intros m Hm; apply Hny in Hm; unfold PAGE_SIZE in *; lia).
      rewrite (snoc_cons x n y) in *. apply override_heap_pass; [done|lia|]. intros m Hm. apply Hny in Hm. left. unfold PAGE_SIZE in *. lia.
    - cbn [orb] in Eno. apply Z.leb_le in Eno. rewrite (snoc_cons x n y), (snoc_cons x n (flat_map _ y)). rewrite (snoc_cons x n y) in Hh. apply IH; [done| |rewrite !length_app in *; cbn in *; lia].
      intros m [Hm| ->%list_elem_of_singleton]%elem_of_app; [by apply Hx|done]. }
  apply orb_false_iff in Eno as [E1%Z.leb_gt E2%Z.leb_gt].
  unfold node_cut at 1. rewrite (proj2 (Z.leb_gt hi (StartVa n))), (proj2 (Z.leb_gt (end_ n) lo)) by lia. cbn [orb].
  destruct (Z.leb_spec lo (StartVa n)) as [Hl|Hl], (Z.leb_spec (end_ n) hi) as [Hr|Hr], (Z.ltb_spec (StartVa n) lo), (Z.ltb_spec hi (end_ n)); try lia; cbn [andb app].
  - (* all of it *)
    rewrite remove_key by done. apply IH; [done|done|]. rewrite length_app. lia.
  - (* the lower part *)
    rewrite update_key by done.
    assert (mkNode (u64 (StartVa n + u64 (hi - StartVa n))) (u64 (Size n - u64 (hi - StartVa n) / PAGE_SIZE)) = node_right hi n) as ->.
    { unfold node_right, end_ in *. rewrite (wrap_small 64 (hi - StartVa n)) by lia. destruct Hal as [k Hk], Hhi as [l Hk']. rewrite Hk, Hk' in *.
      replace (l * PAGE_SIZE - k * PAGE_SIZE) with ((l - k) * PAGE_SIZE) by lia. replace (k * PAGE_SIZE + Size n * PAGE_SIZE - l * PAGE_SIZE) with ((k + Size n - l) * PAGE_SIZE) by lia.
      rewrite !Z.div_mul by done. unfold PAGE_SIZE in *. rewrite !wrap_small by lia. f_equal; lia. }
    destruct (right_ok hi n Hn Hhi ltac:(lia)) as [Hr1 Hr2].
    rewrite (heap_cut_above lo hi y) by (intros m Hm; apply Hny in Hm; lia). rewrite (snoc_cons x (node_right hi n) y).
    apply override_heap_pass; [|lia|].
    + rewrite <-app_assoc. apply (heap_parts x n [node_right hi n]); [done| |repeat constructor]. intros m ->%list_elem_of_singleton. split; [done|]. rewrite Hr2. cbn. lia.
    + intros m Hm. apply Hny in Hm. left. lia.
  - (* the upper part *)
    rewrite update_key by done.
    assert (mkNode (StartVa n) (u64 (lo - StartVa n) / PAGE_SIZE) = node_left lo n) as ->.
    { unfold node_left. by rewrite wrap_small by lia. }
    destruct (left_ok lo n Hn Hlo ltac:(lia)) as [Hl1 Hl2]. rewrite (snoc_cons x (node_left lo n) y), (snoc_cons x (node_left lo n) (flat_map _ y)).
    apply IH.
    + rewrite <-app_assoc. apply (heap_parts x n [node_left lo n]); [done| |repeat constructor]. intros m ->%list_elem_of_singleton. split; [done|]. rewrite Hl2. cbn. lia.
    + intros m [Hm| ->%list_elem_of_singleton]%elem_of_app; [by apply Hx|]. rewrite Hl2. lia.
    + rewrite !length_app in *. cbn in *. lia.
  - (* both parts *)
    rewrite update_key by done.
    assert (mkNode (StartVa n) (u64 (lo - StartVa n) / PAGE_SIZE) = node_left lo n) as ->.
    { unfold node_left. by rewrite wrap_small by lia. }
    assert (mkNode hi (u64 (end_ n - hi) / PAGE_SIZE) = node_right hi n) as ->.
    { unfold node_right. by rewrite wrap_small by lia. }
    destruct (left_ok lo n Hn Hlo ltac:(lia)) as [Hl1 Hl2]. destruct (right_ok hi n Hn Hhi ltac:(lia)) as [Hr1 Hr2].
    assert (heap_ok (x ++ [node_left lo n] ++ y)) as Hh1.
    { apply (heap_parts x n); [done| |repeat constructor]. intros m ->%list_elem_of_singleton. split; [done|]. rewrite Hl2. cbn. lia. }
    assert (heap_ok (x ++ [node_left lo n; node_right hi n] ++ y)) as Hh2.
    { apply (heap_parts x n); [done| |constructor; [repeat constructor|repeat constructor; rewrite Hl2; cbn; lia]].
      intros m [->| ->%list_elem_of_singleton]%elem_of_cons; (split; [done|]); rewrite ?Hl2, ?Hr2; cbn; lia. }
    destruct (free_spec (x ++ [node_left lo n] ++ y) (node_right hi n) Hh1 Hr1) as (h' & Hfr & Hh' & Hhas).
    { intros a [Hin Hr']. cbn [app] in Hin. apply has_middle in Hin as [Hin|(m & Hm & Hma)].
      - unfold node_has in *. cbn in Hr'. lia.
      - unfold node_has in *. cbn in Hr'. apply elem_of_app in Hm as [Hm|Hm]; [apply Hx in Hm|apply Hny in Hm]; lia. }
    cbn [app] in Hfr. rewrite Hfr. assert (h' = x ++ [node_left lo n; node_right hi n] ++ y) as ->.
    { apply heap_canonical; [done|done|]. intros a. rewrite Hhas, !has_app, !has_cons, has_nil_iff. tauto. }
    rewrite (heap_cut_above lo hi y) by (intros m Hm; apply Hny in Hm; lia).
    apply (override_heap_pass lo hi (x ++ [node_left lo n; node_right hi n] ++ y) []); [done|rewrite !length_app; cbn; lia|].
    intros m [Hm|[->|[->|Hm]%elem_of_cons]%elem_of_cons]%elem_of_app; [right; by apply Hx|right; lia|left; cbn; lia|left; apply Hny in Hm; lia].
Qed.

(** ** Pages *)

Section proofs.
Context {S : Type} `{PageFrames S} `{!PageFrameLaws S}.

(** The addresses in [R] lose their pages, the others keep their entries; each
    page that is lost loses one reference, and tables may be given back. *)
Record overrode (R : Z → Prop) (s : S) (root : Z) (s' : S) : Prop := {
  ov_node path p : in_tree path → node s' root path = Some p → node s root path = Some p;
  ov_other va : user_va va → ¬ R va → match pte s root va with
    | Some e => pte s' root va = Some e ∨ (e = 0 ∧ pte s' root va = None)
    | None => pte s' root va = None end;
  ov_inside va : user_va va → R va → present s' root va → pte s' root va = pte s root va;
  ov_gone va f : user_va va → R va → ¬ present s' root va → f ∈ mapped_frame s root va → pf_refs s' f = drop_ref (pf_refs s f);
  ov_kept m : (∀ va, user_va va → R va → m ∈ mapped_frame s root va → present s' root va) →
    pf_refs s' m = pf_refs s m ∨ (pf_refs s' m = None ∧ ∃ path, in_tree path ∧ node s root path = Some m);
}.

Lemma mapped_is_present s root va f : f ∈ mapped_frame s root va → present s root va.
Proof.
  unfold mapped_frame, present. destruct (pte s root va) as [e|]; cbn; [|by intros ?%elem_of_nil]. unfold present_only.
  destruct (MmIsPresentPte e) eqn:E; [by exists e|]. by intros ?%elem_of_nil.
Qed.

Lemma overrode_less R s root s' : overrode R s root s' → (∀ va, R va ∨ ¬ R va) → less_present s root s'.
Proof.
  intros O HR va Hva Hp. destruct (HR va) as [Hin|Hout].
  - pose proof (ov_inside _ _ _ _ O va Hva Hin Hp) as E. destruct Hp as (e & He & Hp). exists e. by rewrite <-E.
  - pose proof (ov_other _ _ _ _ O va Hva Hout) as E. destruct Hp as (e & He & Hp). destruct (pte s root va) as [e0|] eqn:E0; [|congruence].
    destruct E as [E|[_ E]]; [|congruence]. exists e0. split; [done|congruence].
Qed.

Lemma overrode_refl R s root : (∀ va f, user_va va → R va → f ∈ mapped_frame s root va → present s root va) → overrode R s root s.
Proof.
  intros Hm. split; try done.
  - intros va _ _. destruct (pte s root va); [by left|done].
  - intros va f Hva HR Hno Hf. destruct Hno. by apply (Hm va f).
  - intros m _. by left.
Qed.

Lemma pte_same_frame s s' root va : pte s' root va = pte s root va → mapped_frame s' root va = mapped_frame s root va.
Proof. intros E. unfold mapped_frame. by rewrite E. Qed.

Lemma overrode_trans R s root s1 s2 : (∀ va, R va ∨ ¬ R va) → user_map s root → user_map s1 root →
  overrode R s root s1 → overrode R s1 root s2 → overrode R s root s2.
Proof.
  intros HR Hu Hu1 O1 O2. pose proof (overrode_less R s1 root s2 O2 HR) as Hl2. split.
  - intros path p Ht Hp. apply (ov_node _ _ _ _ O1); [done|]. by apply (ov_node _ _ _ _ O2).
  - intros va Hva Hno. pose proof (ov_other _ _ _ _ O1 va Hva Hno) as E1. pose proof (ov_other _ _ _ _ O2 va Hva Hno) as E2.
    destruct (pte s root va) as [e|]; [|by rewrite E1 in E2]. destruct E1 as [E1|[-> E1]]; rewrite E1 in E2; [done|by right].
  - intros va Hva Hin Hp. rewrite (ov_inside _ _ _ _ O2) by done. apply (ov_inside _ _ _ _ O1); [done|done|]. by apply Hl2.
  - intros va f Hva Hin Hno Hf.
    assert (present s1 root va ∨ ¬ present s1 root va) as [Hp|Hp].
    { unfold present. destruct (pte s1 root va) as [e|]; [|right; by intros (? & ? & _)]. destruct (MmIsPresentPte e) eqn:E; [left; by exists e|right].
      intros (e' & [= <-] & ?). congruence. }
    + assert (f ∈ mapped_frame s1 root va) as Hf1 by (by rewrite (pte_same_frame s s1) by (by apply (ov_inside _ _ _ _ O1))).
      rewrite (ov_gone _ _ _ _ O2 va f Hva Hin Hno Hf1).
      destruct (ov_kept _ _ _ _ O1 f) as [->|(_ & path & Ht & Hn)]; [|done|].
      * intros va' Hva' Hin' Hf'. assert (slot va' = slot va) as E by (by apply (um_once s root Hu va' va f)). destruct Hp as (e & He & Hp). exists e.
        by rewrite (slot_pte s1 root va' va E).
      * destruct (um_foreign s root Hu va f Hva Hf) as [_ Hoff]. by destruct (Hoff path Ht).
    + rewrite <-(ov_gone _ _ _ _ O1 va f Hva Hin Hp Hf). destruct (ov_kept _ _ _ _ O2 f) as [->|(_ & path & Ht & Hn)]; [|done|].
      * intros va' Hva' Hin' Hf'. exfalso. apply Hp. pose proof (mapped_is_present _ _ _ _ Hf') as Hp1.
        rewrite (pte_same_frame s s1) in Hf' by (by apply (ov_inside _ _ _ _ O1)). assert (slot va' = slot va) as E by (by apply (um_once s root Hu va' va f)).
        destruct Hp1 as (e & He & Hp1). exists e. by rewrite <-(slot_pte s1 root va' va E).
      * destruct (um_foreign s root Hu va f Hva Hf) as [_ Hoff]. destruct (Hoff path Ht). by apply (ov_node _ _ _ _ O1).
  - intros m Hm. destruct (ov_kept _ _ _ _ O1 m) as [E1|(E1 & Ht1)].
    + intros va Hva Hin Hf. apply Hl2; [done|]. by apply Hm.
    + destruct (ov_kept _ _ _ _ O2 m) as [E2|(E2 & path & Ht & Hn)].
      * intros va Hva Hin Hf. apply Hm; [done|done|]. pose proof (mapped_is_present _ _ _ _ Hf) as Hp.
        by rewrite <-(pte_same_frame s s1) by (by apply (ov_inside _ _ _ _ O1)).
      * left. congruence.
      * right. split; [done|]. exists path. split; [done|]. by apply (ov_node _ _ _ _ O1).
    + destruct (ov_kept _ _ _ _ O2 m) as [E2|(E2 & _)].
      * intros va Hva Hin Hf. apply Hm; [done|done|]. pose proof (mapped_is_present _ _ _ _ Hf) as Hp.
        by rewrite <-(pte_same_frame s s1) by (by apply (ov_inside _ _ _ _ O1)).
      * right. split; [congruence|done].
      * right. split; [done|done].
Qed.

(** Decommitting a range within [R]. *)
Lemma overrode_decommitted R s root Start n s' : user_map s root → user_range Start n → (∀ a, Start ≤ a < Start + Z.of_nat n * 4096 → R a) →
  decommitted false 0 s root Start n s' → overrode R s root s'.
Proof.
  intros Hu Hr HR Hd. assert (∀ va, user_va va → ¬ R va → ∀ i, (i < n)%nat → slot va ≠ slot (nth_page Start i)) as Hout.
  { intros va Hva Hno i Hi E. apply Hno, HR. apply user_slot in E; [|done|by eapply user_va_nth]. destruct Hr as [R1 R2 R3]. unfold nth_page in E.
    apply Z.mod_divide in R2 as [k ->]; [|lia]. replace (k * 4096 + 4096 * Z.of_nat i) with ((k + Z.of_nat i) * 4096) in E by lia. rewrite Z.div_mul in E by lia.
    pose proof (Z.div_mod va 4096 ltac:(lia)). pose proof (Z.mod_pos_bound va 4096 ltac:(lia)). lia. }
  assert (∀ va f, user_va va → f ∈ mapped_frame s root va → f ∈ frames_of present_only s root Start n → ∃ i, (i < n)%nat ∧ slot va = slot (nth_page Start i)) as Hin.
  { intros va f Hva Hf (i & Hi & Hf')%frames_of_in. exists i. split; [done|]. apply (um_once s root Hu va (nth_page Start i) f); [done|by eapply user_va_nth|done|done]. }
  split.
  - intros path p Ht Hp. by rewrite <-(dc_node _ _ _ _ _ _ _ Hd path eq_refl Ht).
  - intros va Hva Hno. rewrite (dc_same _ _ _ _ _ _ _ Hd va eq_refl (proj1 (user_plain va Hva)) (Hout va Hva Hno)). destruct (pte s root va); [by left|done].
  - intros va Hva _ Hp. destruct (decommitted_present _ _ _ _ _ _ _ Hd Hr eq_refl va Hva Hp) as [_ Hne].
    by apply (dc_same _ _ _ _ _ _ _ Hd va eq_refl (proj1 (user_plain va Hva))).
  - intros va f Hva _ Hno Hf. assert (f ∈ frames_of present_only s root Start n) as Hff.
    { destruct (in_range va Start n) as [(i & Hi & E)|Hne]; [apply frames_of_in; exists i; split; [done|]; unfold mapped_frame; by rewrite <-(slot_pte s root _ _ E)|].
      exfalso. apply Hno. apply mapped_is_present in Hf as (e & He & Hp). exists e.
      by rewrite (dc_same _ _ _ _ _ _ _ Hd va eq_refl (proj1 (user_plain va Hva)) Hne). }
    destruct (um_foreign s root Hu va f Hva Hf) as [[r Hfr] _]. rewrite Hfr. pose proof (dc_refs _ _ _ _ _ _ _ Hd f r Hfr) as Hd'. rewrite decide_True in Hd' by done.
    cbn. destruct Hd' as [Hd1 Hd2]. destruct (Z.eqb_spec r 1); [by apply Hd2|by apply Hd1].
  - intros m Hm. left. destruct (decide (m ∈ frames_of present_only s root Start n)) as [Hf|Hf].
    + exfalso. pose proof Hf as (i & Hi & Hf')%frames_of_in. pose proof (user_va_nth Start n i Hr Hi) as Hva.
      assert (R (nth_page Start i)) as HRi by (apply HR; unfold nth_page; lia).
      destruct (decommitted_present _ _ _ _ _ _ _ Hd Hr eq_refl _ Hva (Hm _ Hva HRi Hf')) as [_ Hne]. by apply (Hne i).
    + destruct (pf_refs s m) as [r|] eqn:Er.
      * pose proof (dc_refs _ _ _ _ _ _ _ Hd m r Er) as Hd'. by rewrite decide_False in Hd' by done.
      * destruct (pf_refs s' m) as [r|] eqn:E; [|done]. destruct (dc_used _ _ _ _ _ _ _ Hd m eq_refl) as [? Hx]; [by rewrite E|congruence].
Qed.

(** Clearing a node within [R] in which no page is mapped. *)
Lemma overrode_cleaned (R : Z → Prop) s root n s' : (∀ va, user_va va → node_has n va → ¬ present s root va) →
  (∀ va, node_has n va → R va) → cleaned s root n s' → overrode R s root s'.
Proof.
  intros Hab HR C. split.
  - apply (cl_node _ _ _ _ C).
  - intros va Hva Hno. apply (cl_other _ _ _ _ C va Hva). intros Hin. by apply Hno, HR.
  - intros va Hva _ Hp. destruct (decide (StartVa n ≤ va < end_ n)) as [Hin|Hout]; [by destruct (cl_absent _ _ _ _ C va Hva Hin)|].
    pose proof (cl_other _ _ _ _ C va Hva Hout) as Hc. destruct Hp as (e & He & _). destruct (pte s root va) as [e0|]; [|congruence].
    by destruct Hc as [Hc|[_ Hc]]; [|congruence].
  - intros va f Hva _ Hno Hf. exfalso. apply mapped_is_present in Hf as Hp. destruct (decide (StartVa n ≤ va < end_ n)) as [Hin|Hout]; [by apply (Hab va Hva Hin)|].
    pose proof (cl_other _ _ _ _ C va Hva Hout) as Hc. destruct Hp as (e & He & Hp). rewrite He in Hc. apply Hno. exists e.
    destruct Hc as [Hc|[-> _]]; [done|discriminate Hp].
  - intros m _. apply (cl_refs _ _ _ _ C).
Qed.

(** ** The loop over the descriptors *)

Definition same_frame (p p' : aspace) : Prop := PageMap p' = PageMap p ∧ VadLocks p' = VadLocks p ∧ SpaceLocks p' = SpaceLocks p.

(** References to objects come and go with the descriptors that hold them. *)
Definition balanced (p p' : aspace) : Prop := ∀ o, match Objects p !! o with
  | Some r => Objects p' !! o = Some (r + holders o (VadTree p') - holders o (VadTree p))
  | None => Objects p' !! o = None end.

Lemma balanced_refl p p' : Objects p' = Objects p → (∀ o, holders o (VadTree p') = holders o (VadTree p)) → balanced p p'.
Proof. intros E Hh o. rewrite E, Hh. destruct (Objects p !! o); [f_equal; lia|done]. Qed.

Lemma balanced_trans p p1 p2 : balanced p p1 → balanced p1 p2 → balanced p p2.
Proof.
  intros B1 B2 o. specialize (B1 o). specialize (B2 o). destruct (Objects p !! o) as [r|]; [|by rewrite B1 in B2]. rewrite B1 in B2. rewrite B2. f_equal. lia.
Qed.

(** One object more or less in use, and one descriptor more or less that uses it. *)
Lemma balanced_change d v p p' : Objects p' = Objects (change_refs d (MappedObject v) p) →
  (∀ o, holders o (VadTree p') = holders o (VadTree p) + d * holds o v) → balanced p p'.
Proof.
  intros E Hh o. rewrite E, Hh. unfold holds, change_refs. destruct (MappedObject v) as [q|]; cbn.
  - destruct (decide (q = o)) as [->|Hne].
    + rewrite lookup_alter_eq, bool_decide_true by done. destruct (Objects p !! o); cbn; [f_equal; lia|done].
    + rewrite lookup_alter_ne, bool_decide_false by congruence. destruct (Objects p !! o); [f_equal; lia|done].
  - rewrite bool_decide_false by done. destruct (Objects p !! o); [f_equal; lia|done].
Qed.

Lemma decommit_quietly_spec p s x v y Start n : vads_ok (VadTree p) → user_map s (PageMap p) → VadTree p = x ++ v :: y → user_range Start n →
  whole v Start (Z.of_nat n) = false → 0 ≤ VadLocks p → 0 ≤ SpaceLocks p →
  ∃ s', decommit_quietly v Start (Z.of_nat n) p s = Ok (set_VadTree (x ++ set_Committed false v :: y) p, s') ∧
    user_map s' (PageMap p) ∧ decommitted false 0 s (PageMap p) Start n s'.
Proof.
  intros Ht Hu Ev Hr Hw Hvl Hsl. unfold decommit_quietly. destruct (vads_keys x v y ltac:(by rewrite <-Ev)) as [Ha _]. rewrite Ev, update_at by done.
  set (v0 := set_Committed false v). set (p0 := MiLockVadList (set_VadTree (x ++ v0 :: y) p)).
  assert (vads_ok (VadTree p0)) as Ht0.
  { cbn. apply (vads_ok_same x v v0 y); [by rewrite <-Ev|done|]. assert (vad_ok v) as [_ Ho] by (eapply vads_ok_in; [exact Ht|rewrite Ev; set_solver]). exact Ho. }
  destruct (decommit_vad p0 s x v0 y Start n false Ht0) as (s' & Hs' & Hu' & Hd); try done; [cbn; lia|].
  change (key v0) with (key v) in Hs'. unfold after_decommit in Hs', Hd. change (whole v0) with (whole v) in Hs', Hd. rewrite Hw in Hs', Hd.
  exists s'. rewrite Hs'. split; [|split; [done|exact Hd]]. unfold p0. destruct p as [t h m vl sl o]. cbn. by replace (vl + 1 - 1) with vl by lia.
Qed.
Lemma as_ok_same p p' s : as_ok p s → VadTree p' = VadTree p → HeapTree p' = HeapTree p → PageMap p' = PageMap p → as_ok p' s.
Proof. intros [A1 A2 A3 A4 A5 A6] E1 E2 E3. split; rewrite ?E1, ?E2, ?E3; done. Qed.

(** Part of a descriptor is decommitted and cut out of it. *)
Lemma as_ok_cut lo hi p s x v y s' : (PAGE_SIZE | lo) → (PAGE_SIZE | hi) → lo < hi → as_ok p s → VadTree p = x ++ v :: y → user_map s' (PageMap p) →
  less_present s (PageMap p) s' → (∀ va, user_va va → node_has (Node v) va → in_bounds lo hi va → ¬ present s' (PageMap p) va) →
  as_ok (set_VadTree (x ++ vad_cut lo hi v ++ y) p) s'.
Proof.
  intros Hlo Hhi Hlt [A1 A2 A3 A4 A5 A6] Ev Hu Hl Hab. rewrite Ev in *. destruct (vads_cut_ok lo hi x v y A1 Hlo Hhi Hlt) as [Ht Hc].
  split; cbn; try done.
  - intros a [Hh Hr]. apply (A4 a). split; [done|]. rewrite reserved_middle, reserved_app. rewrite !reserved_app, Hc in Hr. tauto.
  - intros va Hva Hp. pose proof (A6 va Hva (Hl va Hva Hp)) as Hr. rewrite reserved_middle, reserved_app in Hr. rewrite !reserved_app, Hc.
    destruct Hr as [Hr|[Hr|Hr]]; [|by left|by right; right]. right. left. split; [done|]. intros Hb. by apply (Hab va).
Qed.

Lemma bounds_dec lo hi va : in_bounds lo hi va ∨ ¬ in_bounds lo hi va.
Proof. unfold in_bounds. lia. Qed.

Lemma partial_step lo hi p s x v y Start n : (PAGE_SIZE | lo) → (PAGE_SIZE | hi) → lo < hi → as_ok p s → no_full s (PageMap p) → VadTree p = x ++ v :: y →
  0 ≤ VadLocks p → 0 ≤ SpaceLocks p → (PAGE_SIZE | Start) → 0 < n → StartVa (Node v) ≤ Start → Start + n * PAGE_SIZE ≤ end_ (Node v) →
  (StartVa (Node v) < Start ∨ Start + n * PAGE_SIZE < end_ (Node v)) →
  lo ≤ Start → Start + n * PAGE_SIZE ≤ hi → (∀ a, node_has (Node v) a → in_bounds lo hi a → Start ≤ a < Start + n * PAGE_SIZE) →
  ∃ s', decommit_quietly v Start n p s = Ok (set_VadTree (x ++ set_Committed false v :: y) p, s') ∧
    as_ok (set_VadTree (x ++ vad_cut lo hi v ++ y) p) s' ∧ no_full s' (PageMap p) ∧ overrode (in_bounds lo hi) s (PageMap p) s'.
Proof.
  intros Hlo Hhi Hlt Hok Hf Ev Hvl Hsl Hal Hn H1 H2 H3 H4 H5 Hcov. pose proof (as_vads _ _ Hok) as Ht. pose proof (as_map _ _ Hok) as Hu.
  assert (vad_ok v) as Hv by (eapply vads_ok_in; [exact Ht|rewrite Ev; set_solver]).
  assert (user_range Start (Z.to_nat n)) as Hr by (apply (covers_range v); [done|rewrite Z2Nat.id by lia; by split|done]).
  assert (whole v Start n = false) as Hw.
  { unfold whole. apply andb_false_iff. unfold end_, PAGE_SIZE in *. destruct (Z.eqb_spec (StartVa (Node v)) Start); [right; apply Z.eqb_neq; lia|by left]. }
  rewrite <-(Z2Nat.id n) in Hw by lia.
  destruct (decommit_quietly_spec p s x v y Start (Z.to_nat n) Ht Hu Ev Hr Hw Hvl Hsl) as (s' & Hs' & Hu' & Hd). rewrite Z2Nat.id in Hs' by lia.
  exists s'. split; [exact Hs'|]. split; [|split].
  - apply (as_ok_cut lo hi p s x v y s'); try done.
    + intros va Hva Hp. by destruct (decommitted_present _ _ _ _ _ _ _ Hd Hr eq_refl va Hva Hp).
    + intros va Hva Hin Hb Hp. destruct (decommitted_present _ _ _ _ _ _ _ Hd Hr eq_refl va Hva Hp) as [_ Hne].
      destruct (range_slot Start (Z.to_nat n) va Hr) as (i & Hi & E); [rewrite Z2Nat.id by lia; by apply (Hcov va)|]. by apply (Hne i).
  - by apply (no_full_decommitted s (PageMap p) _ _ s' Hd (um_ok _ _ Hu) (user_range_ok _ _ Hr)).
  - apply (overrode_decommitted _ s (PageMap p) Start (Z.to_nat n)); [done|done| |done]. rewrite Z2Nat.id by lia. unfold in_bounds, PAGE_SIZE in *. lia.
Qed.

(** A descriptor in the range is decommitted and released. *)
Lemma whole_step lo hi p s x v y : as_ok p s → no_full s (PageMap p) → VadTree p = x ++ v :: y → 0 ≤ VadLocks p → 0 ≤ SpaceLocks p →
  lo ≤ StartVa (Node v) → end_ (Node v) ≤ hi →
  ∃ p' s', ('(p, s) ← MiDecommitVad (key v) (StartVa (Node v)) (Size (Node v)) false (MiLockVadList p) s; MiReleaseVad (key v) (MiLockVadList p) s) = Ok (p', s') ∧
    as_ok p' s' ∧ no_full s' (PageMap p) ∧ VadTree p' = x ++ y ∧ same_frame p p' ∧ balanced p p' ∧ overrode (in_bounds lo hi) s (PageMap p) s' ∧
    ∀ a, has (HeapTree p') a ↔ has (HeapTree p) a ∨ node_has (Node v) a.
Proof.
  intros Hok Hf Ev Hvl Hsl Hlo Hhi. pose proof (as_vads _ _ Hok) as Ht. pose proof (as_map _ _ Hok) as Hu.
  assert (vad_ok v) as Hv by (eapply vads_ok_in; [exact Ht|rewrite Ev; set_solver]). pose proof Hv as [Hun Hvo]. pose proof (node_user_range _ Hun) as Hr.
  assert (0 < Size (Node v)) as Hsz by (destruct Hun as [(_ & _ & ? & _) _]; done).
  destruct (decommit_vad (MiLockVadList p) s x v y (StartVa (Node v)) (Z.to_nat (Size (Node v))) false) as (s1 & Hs1 & Hu1 & Hd); try done; [cbn; lia|].
  rewrite Z2Nat.id in Hs1, Hd by lia. unfold after_decommit, whole in Hs1, Hd. rewrite !Z.eqb_refl in Hs1, Hd. cbn [andb] in Hs1, Hd. cbn [set_Committed Committed andb] in Hd.
  set (v0 := set_Committed false v) in *. rewrite Hs1. cbn [mbind outcome_bind].
  set (p1 := set_VadLocks (VadLocks (MiLockVadList p) - 1) (set_VadTree (x ++ v0 :: y) (MiLockVadList p))).
  assert (∀ va, user_va va → present s1 (PageMap p) va → present s (PageMap p) va ∧ ¬ node_has (Node v) va) as Hp1.
  { intros va Hva Hp. destruct (decommitted_present _ _ _ _ _ _ _ Hd Hr eq_refl va Hva Hp) as [Hps Hne]. split; [done|]. intros Hin.
    apply node_slot in Hin as (i & Hi & E); [|done|done]. by apply (Hne i). }
  assert (as_ok p1 s1) as Hok1.
  { apply (as_ok_step p s p1 s1 x v v0 y); try done. intros va Hva Hp. by apply Hp1. }
  assert (no_full s1 (PageMap p)) as Hf1 by (by apply (no_full_decommitted s (PageMap p) _ _ s1 Hd (um_ok _ _ Hu) (user_range_ok _ _ Hr))).
  destruct (release_vad (MiLockVadList p1) s1 x v0 y) as (p2 & s2 & Hs2 & R & Et & El); try done.
  { by apply (as_ok_same p1). } { cbn. lia. }
  { intros va Hva Hin Hp. by apply (proj2 (Hp1 va Hva Hp)). }
  change (key v0) with (key v) in Hs2. exists p2, s2. split; [exact Hs2|]. split; [apply (rl_ok _ _ _ _ _ R)|]. pose proof (rl_pages _ _ _ _ _ R) as C. cbn in C.
  split; [apply (cl_full _ _ _ _ C)|]. split; [done|]. split.
  { split; [by rewrite (rl_map _ _ _ _ _ R)|]. split; [rewrite El; cbn; lia|by rewrite (rl_space _ _ _ _ _ R)]. }
  split; [|split; [|apply (rl_free _ _ _ _ _ R)]].
  - apply (balanced_change (-1) v p p2).
    + rewrite (rl_objects _ _ _ _ _ R). cbn. by destruct (MappedObject v).
    + intros o. rewrite Et, Ev, !holders_app, holders_cons. lia.
  - apply (overrode_trans _ s (PageMap p) s1 s2); [apply bounds_dec|done|done| |].
    + apply (overrode_decommitted _ s _ (StartVa (Node v)) (Z.to_nat (Size (Node v)))); [done|done| |done]. rewrite Z2Nat.id by lia. unfold in_bounds, end_, PAGE_SIZE in *. lia.
    + apply (overrode_cleaned _ s1 _ (Node v)); [| |exact C].
      * intros va Hva Hin Hp. by apply (proj2 (Hp1 va Hva Hp)).
      * intros va Hin. unfold node_has, in_bounds in *. lia.
Qed.

Lemma override_vads_pass lo n hi s : ∀ y x p fuel, vads_ok (x ++ y) → VadTree p = x ++ y → (length y ≤ fuel)%nat → (∀ v, v ∈ y → hi ≤ StartVa (Node v)) →
  override_vads fuel (head y) lo n hi p s = Ok (p, s).
Proof.
  induction y as [|v y IH]; intros x p fuel Ht Ev Hf Hy; [by destruct fuel|]. destruct fuel as [|fuel]; [cbn in Hf; lia|]. cbn [head override_vads].
  destruct (vads_keys x v y Ht) as [Ha _]. rewrite Ev, next_at by done. rewrite (proj2 (Z.leb_le hi _)) by (apply Hy; left). cbn [orb].
  rewrite (snoc_cons x v y) in *. apply (IH (x ++ [v])); [done|done|cbn in Hf; lia|]. intros w Hw. apply Hy. by right.
Qed.
(** What the loop over the descriptors has done. *)
Record overridden (lo hi : Z) (p : aspace) (s : S) (p' : aspace) (s' : S) : Prop := {
  od_ok : as_ok p' s';
  od_full : no_full s' (PageMap p);
  od_frame : same_frame p p';
  od_objects : balanced p p';
  od_pages : overrode (in_bounds lo hi) s (PageMap p) s';
  od_free a : ¬ in_bounds lo hi a → has (HeapTree p') a ↔ has (HeapTree p) a;
}.

Lemma overridden_refl lo hi p s : as_ok p s → no_full s (PageMap p) → overridden lo hi p s p s.
Proof.
  intros Hok Hf. split; try done.
  - by apply balanced_refl.
  - apply overrode_refl. intros va f _ _. by apply mapped_is_present.
Qed.

Lemma overridden_trans lo hi p s p1 s1 p2 s2 : as_ok p s → overridden lo hi p s p1 s1 → overridden lo hi p1 s1 p2 s2 → overridden lo hi p s p2 s2.
Proof.
  intros Hok [A1 A2 (A3 & A3' & A3'') A4 A5 A6] [B1 B2 (B3 & B3' & B3'') B4 B5 B6]. rewrite A3 in B2, B5. split; try done.
  - split; [congruence|]. split; congruence.
  - by apply (balanced_trans p p1).
  - apply (overrode_trans _ s _ s1); [apply bounds_dec|apply Hok| |done|done]. rewrite <-A3. apply A1.
  - intros a Ha. by rewrite B6, A6.
Qed.

Lemma overridden_partial lo hi p q s x v y s' : VadTree p = x ++ v :: y → as_ok (set_VadTree (x ++ vad_cut lo hi v ++ y) p) s' → no_full s' (PageMap p) →
  overrode (in_bounds lo hi) s (PageMap p) s' → VadTree q = x ++ vad_cut lo hi v ++ y → HeapTree q = HeapTree p → same_frame p q →
  Objects q = Objects (change_refs (Z.of_nat (length (vad_cut lo hi v)) - 1) (MappedObject v) p) → overridden lo hi p s q s'.
Proof.
  intros Ev Hok Hf Ho Et Eh Hs Eo. split; try done.
  - apply (as_ok_same (set_VadTree (x ++ vad_cut lo hi v ++ y) p)); try done. apply Hs.
  - apply (balanced_change (Z.of_nat (length (vad_cut lo hi v)) - 1) v); [done|]. intros o. rewrite Et, Ev, !holders_app, holders_cons.
    assert (∀ l, (∀ w, w ∈ l → MappedObject w = MappedObject v) → holders o l = Z.of_nat (length l) * holds o v) as Hl.
    { induction l as [|w l IH]; intros Hw; [done|]. rewrite holders_cons, IH by (intros z Hz; apply Hw; by right). unfold holds.
      rewrite (Hw w) by left. cbn [length]. lia. }
    rewrite (Hl (vad_cut lo hi v)) by (intros w Hw; by apply (vad_cut_same lo hi)). lia.
  - by rewrite Eh.
Qed.

Lemma change_none o p : change_refs 0 o p = p ∨ Objects (change_refs 0 o p) = Objects p.
Proof.
  destruct o as [o|]; [right|by left]. cbn. apply map_eq. intros i. destruct (decide (i = o)) as [->|Hne].
  - rewrite lookup_alter_eq. destruct (Objects p !! o); cbn; [f_equal; lia|done].
  - by rewrite lookup_alter_ne.
Qed.

Lemma change_none_objects o p : Objects (change_refs 0 o p) = Objects p.
Proof. by destruct (change_none o p) as [->|]. Qed.

Lemma override_vads_spec lo hi n : (PAGE_SIZE | lo) → 0 ≤ lo → 0 < n → hi = lo + n * PAGE_SIZE → hi ≤ 2 ^ 47 → ∀ y x p s fuel,
  as_ok p s → no_full s (PageMap p) → VadTree p = x ++ y → (∀ v, v ∈ x → end_ (Node v) ≤ lo) → (length y ≤ fuel)%nat → 0 ≤ VadLocks p → 0 ≤ SpaceLocks p →
  ∃ p' s', override_vads fuel (head y) lo n hi p s = Ok (p', s') ∧ VadTree p' = x ++ flat_map (vad_cut lo hi) y ∧ overridden lo hi p s p' s'.
Proof.
  intros Hlo H0 Hn Ehi Hmax. assert (PAGE_SIZE | hi) as Hhi by (subst hi; by apply divide_add_pages). assert (lo < hi) as Hlt by (unfold PAGE_SIZE in *; lia).
  induction y as [|v y IH]; intros x p s fuel Hok Hf Ev Hx Hfu Hvl Hsl.
  { exists p, s. split; [by destruct fuel|]. split; [done|]. by apply overridden_refl. }
  destruct fuel as [|fuel]; [cbn in Hfu; lia|]. cbn [head override_vads flat_map]. pose proof (as_vads _ _ Hok) as Ht. rewrite Ev in Ht.
  destruct (vads_keys x v y Ht) as [Ha _]. assert (GetNextEntryRbTree (VadTree p) (key v) = head y) as -> by (rewrite Ev; by apply next_at).
  assert (vad_ok v) as Hv by (eapply vads_ok_in; [exact Ht|set_solver]). pose proof Hv as [[Hno Hun] Hvo]. destruct (user_node_end (Node v)) as (He & Hs0 & Hse & _); [done|]. rewrite He.
  pose proof Ht as Hsp. apply vads_ok_split in Hsp as (_ & _ & _ & Hvy). pose proof (node_grows _ Hno) as Hg. pose proof Hno as (_ & Hal & Hsz & _).
  assert ((length y ≤ fuel)%nat) as Hfy by (cbn in Hfu; lia).
  destruct ((hi <=? StartVa (Node v)) || (end_ (Node v) <=? lo)) eqn:Eno.
  { unfold vad_cut at 1. rewrite Eno. cbn [app]. destruct (Z.leb_spec hi (StartVa (Node v))).
    - assert (∀ w, w ∈ y → hi ≤ StartVa (Node w)) as Hy by (intros w Hw; apply Hvy in Hw; unfold PAGE_SIZE in *; lia).
      rewrite vads_cut_above by done. rewrite (snoc_cons x v y) in *. rewrite (override_vads_pass lo n hi s y (x ++ [v])) by done.
      exists p, s. split; [done|]. split; [done|]. by apply overridden_refl.
    - cbn [orb] in Eno. apply Z.leb_le in Eno. rewrite (snoc_cons x v y) in Ev. rewrite (snoc_cons x v (flat_map _ y)). apply IH; try done.
      intros w [Hw| ->%list_elem_of_singleton]%elem_of_app; [by apply Hx|done]. }
  apply orb_false_iff in Eno as Eno'. destruct Eno' as [E1%Z.leb_gt E2%Z.leb_gt].
  assert (vad_cut lo hi v = (if StartVa (Node v) <? lo then [vad_left lo v] else []) ++ (if hi <? end_ (Node v) then [vad_right hi v] else [])) as Ecut by (unfold vad_cut; by rewrite Eno).
  destruct (Z.leb_spec lo (StartVa (Node v))) as [Hl|Hl], (Z.leb_spec (end_ (Node v)) hi) as [Hr|Hr], (Z.ltb_spec (StartVa (Node v)) lo), (Z.ltb_spec hi (end_ (Node v))); try lia;
    cbn [andb]; cbn [app] in Ecut; rewrite Ecut; cbn [app].
  - (* all of it *)
    destruct (whole_step lo hi p s x v y Hok Hf Ev Hvl Hsl Hl Hr) as (p1 & s1 & Hrun & Hok1 & Hf1 & Et & Hs & Hb & Ho & Hh).
    destruct (MiDecommitVad (key v) (StartVa (Node v)) (Size (Node v)) false (MiLockVadList p) s) as [[p0 s0]| |]; cbn [mbind outcome_bind] in *; [|done|done].
    rewrite Hrun. cbn [mbind outcome_bind]. assert (overridden lo hi p s p1 s1) as O1.
    { split; try done. intros a Ha'. rewrite Hh. unfold node_has, in_bounds in *. split; [|tauto]. intros [?|?]; [done|lia]. }
    destruct Hs as (Em & El & Esl). destruct (IH x p1 s1 fuel) as (p2 & s2 & Hr2 & Et2 & O2); try done; [by rewrite Em|lia|lia|].
    exists p2, s2. split; [exact Hr2|]. split; [done|]. by apply (overridden_trans lo hi p s p1 s1).
  - (* the lower part *)
    destruct (right_ok hi (Node v) Hno Hhi ltac:(lia)) as [Hr1 Hr2].
    assert (u64 (hi - StartVa (Node v)) / PAGE_SIZE = (hi - StartVa (Node v)) / PAGE_SIZE ∧ ((hi - StartVa (Node v)) / PAGE_SIZE) * PAGE_SIZE = hi - StartVa (Node v)) as [Ed Em].
    { rewrite wrap_small by lia. split; [done|]. destruct Hal as [k Hk], Hhi as [l Hk']. rewrite Hk, Hk'. replace (l * PAGE_SIZE - k * PAGE_SIZE) with ((l - k) * PAGE_SIZE) by lia.
      by rewrite Z.div_mul. }
    rewrite Ed. set (m := (hi - StartVa (Node v)) / PAGE_SIZE) in *.
    destruct (partial_step lo hi p s x v y (StartVa (Node v)) m) as (s1 & -> & Hok1 & Hf1 & Ho); try done; try lia; [unfold node_has, in_bounds; lia|].
    cbn [mbind outcome_bind VadTree set_VadTree].
    change (key v) with (key (set_Committed false v)). rewrite update_at by done.
    set (v1 := match MappedObject v with Some _ => _ | None => _ end).
    assert (v1 = vad_right hi v) as E.
    { unfold v1, vad_right. rewrite (wrap_small 64 (hi - StartVa (Node v))) by lia. rewrite (wrap_small 64 (StartVa (Node v) + _)) by lia.
      assert (mkNode (StartVa (Node v) + (hi - StartVa (Node v))) (u64 (Size (Node v) - m)) = node_right hi (Node v)) as ->.
      { unfold node_right, end_ in *. rewrite wrap_small by (unfold PAGE_SIZE in *; lia). f_equal; [lia|].
        replace (StartVa (Node v) + Size (Node v) * PAGE_SIZE - hi) with ((Size (Node v) - m) * PAGE_SIZE) by lia. by rewrite Z.div_mul. }
      destruct (MappedObject v) eqn:Eo; [done|]. unfold set_SectionOffset, set_Node. cbn. by rewrite Hvo. }
    rewrite E. rewrite Ecut in Hok1. cbn [app] in Hok1.
    assert (∀ w, w ∈ y → hi ≤ StartVa (Node w)) as Hy by (intros w Hw; apply Hvy in Hw; lia).
    rewrite vads_cut_above by done. rewrite (override_vads_pass lo n hi s1 y (x ++ [vad_right hi v])); [|rewrite <-app_assoc; apply (as_vads _ _ Hok1)|by rewrite <-app_assoc|done|done].
    eexists _, s1. split; [done|]. split; [done|]. apply (overridden_partial lo hi p _ s x v y s1); try done; rewrite Ecut; [done|done|]. cbn. by rewrite change_none_objects.
  - (* the upper part *)
    destruct (left_ok lo (Node v) Hno Hlo ltac:(lia)) as [Hl1 Hl2].
    assert (u64 (end_ (Node v) - lo) / PAGE_SIZE = (end_ (Node v) - lo) / PAGE_SIZE ∧ ((end_ (Node v) - lo) / PAGE_SIZE) * PAGE_SIZE = end_ (Node v) - lo) as [Ed Em].
    { rewrite wrap_small by lia. split; [done|]. unfold end_ in *. destruct Hal as [k Hk], Hlo as [l Hk']. rewrite Hk, Hk'.
      replace (k * PAGE_SIZE + Size (Node v) * PAGE_SIZE - l * PAGE_SIZE) with ((k + Size (Node v) - l) * PAGE_SIZE) by lia. by rewrite Z.div_mul. }
    rewrite Ed. set (m := (end_ (Node v) - lo) / PAGE_SIZE) in *.
    destruct (partial_step lo hi p s x v y lo m) as (s1 & -> & Hok1 & Hf1 & Ho); try done; try lia; [unfold node_has, in_bounds; lia|].
    cbn [mbind outcome_bind VadTree set_VadTree]. change (key v) with (key (set_Committed false v)). rewrite update_at by done.
    assert (set_Node (mkNode (StartVa (Node v)) (u64 (lo - StartVa (Node v)) / PAGE_SIZE)) v = vad_left lo v) as ->.
    { unfold vad_left, node_left. by rewrite wrap_small by lia. }
    rewrite Ecut in Hok1. cbn [app] in Hok1. set (p1 := set_VadTree (x ++ vad_left lo v :: y) _).
    assert (overridden lo hi p s p1 s1) as O1.
    { apply (overridden_partial lo hi p p1 s x v y s1); try done; rewrite Ecut; [done|done|]. cbn. by rewrite change_none_objects. }
    destruct (IH (x ++ [vad_left lo v]) p1 s1 fuel) as (p2 & s2 & Hr2 & Et2 & O2); try done.
    { unfold p1. cbn. by rewrite <-app_assoc. } { intros w [Hw| ->%list_elem_of_singleton]%elem_of_app; [by apply Hx|]. cbn. rewrite Hl2. lia. }
    exists p2, s2. split; [exact Hr2|]. split; [by rewrite Et2, <-app_assoc|]. by apply (overridden_trans lo hi p s p1 s1).
  - (* both parts *)
    destruct (left_ok lo (Node v) Hno Hlo ltac:(lia)) as [Hl1 Hl2]. destruct (right_ok hi (Node v) Hno Hhi ltac:(lia)) as [Hr1 Hr2].
    set (p0 := change_refs 1 (MappedObject v) p).
    assert (VadTree p0 = VadTree p ∧ HeapTree p0 = HeapTree p ∧ same_frame p p0) as (Et0 & Eh0 & Hs0') by (unfold p0; by destruct (MappedObject v)).
    pose proof Hs0' as (Em0 & El0 & Esl0).
    destruct (partial_step lo hi p0 s x v y lo n) as (s1 & -> & Hok1 & Hf1 & Ho); rewrite ?Em0, ?El0, ?Esl0; try done; try lia; [by apply (as_ok_same p)|by rewrite Et0|unfold in_bounds; lia|].
    cbn [mbind outcome_bind VadTree set_VadTree]. change (key v) with (key (set_Committed false v)). rewrite update_at by done.
    assert (set_Node (mkNode (StartVa (Node v)) (u64 (lo - StartVa (Node v)) / PAGE_SIZE)) v = vad_left lo v) as ->.
    { unfold vad_left, node_left. by rewrite wrap_small by lia. }
    set (v2 := mkVad _ _ _ _ _ _). assert (v2 = vad_right hi v) as ->.
    { unfold v2, vad_right, node_right. rewrite wrap_small by lia. destruct v as [vn vc vp vpr vo vs]. done. }
    rewrite Ecut in Hok1. cbn [app] in Hok1. pose proof (as_vads _ _ Hok1) as Ht1. cbn in Ht1.
    destruct (vads_keys (x ++ [vad_left lo v]) (vad_right hi v) y) as [Hb1 Hb2]; [by rewrite <-app_assoc|].
    rewrite (snoc_cons x (vad_left lo v) y), insert_at by done. cbn [default].
    rewrite vads_cut_above by (intros w Hw; apply Hvy in Hw; lia).
    eexists _, s1. split; [done|]. split; [cbn; by rewrite <-app_assoc|].
    apply (overridden_partial lo hi p _ s x v y s1); rewrite ?Ecut; try done.
    + by apply (as_ok_same (set_VadTree (x ++ vad_left lo v :: vad_right hi v :: y) p0)).
    + by rewrite <-Em0.
    + by rewrite <-Em0.
    + cbn. by rewrite <-app_assoc.
Qed.
Lemma heap_cut_all lo hi : (PAGE_SIZE | lo) → (PAGE_SIZE | hi) → lo < hi → ∀ y x, heap_ok (x ++ y) → heap_ok (x ++ flat_map (node_cut lo hi) y).
Proof.
  intros Hlo Hhi Hlt. induction y as [|n y IH]; intros x Hh; [done|]. cbn [flat_map]. apply (heap_cut lo hi) in Hh; [|done..].
  rewrite app_assoc in Hh |- *. by apply IH.
Qed.

(** The range belongs to nobody: what is left of each descriptor and of each
    free range are its addresses outside. *)
Record taken_out (lo hi : Z) (p : aspace) (s : S) (p' : aspace) (s' : S) : Prop := {
  to_ok : as_ok p' s';
  to_full : no_full s' (PageMap p);
  to_vads : VadTree p' = flat_map (vad_cut lo hi) (VadTree p);
  to_heap : HeapTree p' = flat_map (node_cut lo hi) (HeapTree p);
  to_frame : same_frame p p';
  to_objects : balanced p p';
  to_pages : overrode (in_bounds lo hi) s (PageMap p) s';
}.

Lemma override_range_spec p s lo n : as_ok p s → no_full s (PageMap p) → 0 ≤ VadLocks p → 0 ≤ SpaceLocks p →
  (PAGE_SIZE | lo) → 0 ≤ lo → 0 < n → lo + n * PAGE_SIZE ≤ 2 ^ 47 →
  ∃ p' s', MmOverrideAddressRange true lo n p s = Ok (STATUS_SUCCESS, Some (trim_range lo n), p', s') ∧ taken_out lo (lo + n * PAGE_SIZE) p s p' s'.
Proof.
  intros Hok Hf Hvl Hsl Hlo H0 Hn Hmax. set (hi := lo + n * PAGE_SIZE) in *. assert (PAGE_SIZE | hi) as Hhi by (by apply divide_add_pages).
  assert (lo < hi) as Hlt by (unfold hi, PAGE_SIZE in *; lia). unfold MmOverrideAddressRange. cbn [negb].
  assert (u64 (lo + u64 (n * PAGE_SIZE)) = hi) as ->.
  { unfold hi in *. rewrite (wrap_small 64 (n * PAGE_SIZE)) by (unfold PAGE_SIZE in *; lia). rewrite wrap_small; [done|lia]. }
  set (p0 := MiLockVadList (MmLockSpaceExclusive p)).
  destruct (override_vads_spec lo hi n Hlo H0 Hn eq_refl Hmax (VadTree p) [] p0 s (length (VadTree p))) as (p1 & s1 & Hs1 & Et & O); try done; try (cbn; lia).
  { by apply (as_ok_same p). } { intros v Hv. by apply elem_of_nil in Hv. }
  change (GetFirstEntryRbTree (VadTree p0)) with (head (VadTree p)). change (length (VadTree p0)) with (length (VadTree p)). rewrite Hs1. cbn [mbind outcome_bind]. cbn [app] in Et.
  destruct O as [O1 O2 (O3 & O3' & O3'') O4 O5 O6]. cbn in O3, O3', O3''. unfold MmUnlockVadList. rewrite O3', (proj2 (Z.ltb_lt _ _)) by lia. cbn [check mbind outcome_bind].
  cbn [HeapTree set_VadLocks]. pose proof O1 as [A1 A2 A3 A4 A5 A6].
  rewrite (override_heap_spec lo hi Hlo Hhi Hlt ltac:(lia) (HeapTree p1) []); [|done|intros m Hm; by apply elem_of_nil in Hm|cbn; lia]. cbn [mbind outcome_bind app].
  set (h := flat_map (node_cut lo hi) (HeapTree p1)). assert (heap_ok h) as Hh by (apply (heap_cut_all lo hi Hlo Hhi Hlt _ []); done).
  assert (h = flat_map (node_cut lo hi) (HeapTree p)) as Eh.
  { apply heap_canonical; [done|apply (heap_cut_all lo hi Hlo Hhi Hlt _ []); apply Hok|]. intros a. unfold h. rewrite !heap_cut_has by (done || apply Hok).
    split; (intros [Ha Hb]; split; [|done]); [by apply O6 in Ha|by apply O6]. }
  rewrite (unlock_space p) by done. cbn [mbind outcome_bind]. eexists _, s1. split; [done|]. split; try done.
  - split; cbn; try done.
    + apply user_heap; [done|]. intros a Ha. unfold h in Ha. rewrite heap_cut_has in Ha by done. destruct Ha as [Ha _]. by apply (heap_user _ _ A3) in Ha as [].
    + intros a [Ha Hr]. unfold h in Ha. rewrite heap_cut_has in Ha by done. apply (A4 a). by destruct Ha.
  - split; [by cbn|]. split; [cbn; lia|done].
Qed.

(** Nothing of the range is left. *)
Lemma taken_out_nothing lo hi p s p' s' : (PAGE_SIZE | lo) → (PAGE_SIZE | hi) → lo < hi → as_ok p s → taken_out lo hi p s p' s' →
  ∀ a, in_bounds lo hi a → ¬ has (HeapTree p') a ∧ ¬ reserved (VadTree p') a ∧ (user_va a → ¬ present s' (PageMap p) a).
Proof.
  intros Hlo Hhi Hlt Hok T a Ha.
  assert (¬ reserved (VadTree p') a) as Hr.
  { rewrite (to_vads _ _ _ _ _ _ T), reserved_nodes. intros (m & (w & -> & Hw)%list_elem_of_fmap & Hma). apply list_elem_of_In, in_flat_map in Hw as (v & Hv%list_elem_of_In & Hw%list_elem_of_In).
    pose proof (vads_ok_in _ _ (as_vads _ _ Hok) Hv) as [[Hn _] _]. destruct (node_cut_spec lo hi (Node v) Hn Hlo Hhi Hlt) as (_ & _ & Hc).
    destruct (proj1 (Hc a)) as [_ Hno]; [|by apply Hno]. exists (Node w). split; [rewrite <-vad_cut_nodes; by apply list_elem_of_fmap_2|done]. }
  split; [|split; [done|]].
  - rewrite (to_heap _ _ _ _ _ _ T), heap_cut_has by (done || apply Hok). by intros [_ ?].
  - intros Hu Hp. apply Hr. destruct (to_frame _ _ _ _ _ _ T) as (E & _). rewrite <-E in Hp. by apply (as_present _ _ (to_ok _ _ _ _ _ _ T)).
Qed.

(** ** The services *)

(** The pages at the ends of the user half are left out of a range. *)
Lemma trim_inner lo n : MM_FIRST_USER_PAGE ≤ lo → 0 ≤ n → lo + n * PAGE_SIZE < MM_LAST_USER_PAGE → trim_range lo n = mkNode lo n.
Proof.
  intros Hlo Hn He. unfold trim_range, MM_FIRST_USER_PAGE, MM_LAST_USER_PAGE, PAGE_SIZE in *. destruct (Z.eqb_spec lo 0); [lia|]. cbv iota beta.
  rewrite (proj2 (Z.ltb_ge _ _)) by lia. cbv iota beta. rewrite (wrap_small 64 (n * 4096)), (wrap_small 64 (lo + n * 4096)) by lia. by rewrite (proj2 (Z.leb_gt _ _)) by lia.
Qed.

Definition inner_range (lo n : Z) : Prop := (PAGE_SIZE | lo) ∧ MM_FIRST_USER_PAGE ≤ lo ∧ 0 < n ∧ lo + n * PAGE_SIZE < MM_LAST_USER_PAGE.

Lemma inner_node lo n : inner_range lo n → user_node (mkNode lo n) ∧ ∀ a, node_has (mkNode lo n) a ↔ in_bounds lo (lo + n * PAGE_SIZE) a.
Proof.
  intros (Hal & Hlo & Hn & He). unfold MM_FIRST_USER_PAGE, MM_LAST_USER_PAGE in *. split; [|done]. split; [|unfold end_; cbn; lia].
  split; [cbn; lia|]. split; [done|]. split; [done|]. unfold end_. cbn. lia.
Qed.

Lemma unmap_partial_spec p s lo n : as_ok p s → no_full s (PageMap p) → 0 ≤ VadLocks p → 0 ≤ SpaceLocks p → inner_range lo n →
  let hi := lo + n * PAGE_SIZE in
  ∃ p' s', MiUnmapVirtualMemoryPartial true lo n p s = Ok (STATUS_SUCCESS, p', s') ∧ as_ok p' s' ∧ no_full s' (PageMap p) ∧
    VadTree p' = flat_map (vad_cut lo hi) (VadTree p) ∧ (∀ a, has (HeapTree p') a ↔ has (HeapTree p) a ∨ in_bounds lo hi a) ∧
    same_frame p p' ∧ balanced p p' ∧ overrode (in_bounds lo hi) s (PageMap p) s'.
Proof.
  intros Hok Hf Hvl Hsl Hin hi. destruct (inner_node lo n Hin) as [Hnode Hhas]. pose proof Hin as (Hal & Hlo & Hn & He). unfold MM_FIRST_USER_PAGE, MM_LAST_USER_PAGE in *.
  assert (PAGE_SIZE | hi) as Hhi by (by apply divide_add_pages). assert (lo < hi) as Hlt by (unfold hi, PAGE_SIZE in *; lia).
  destruct (override_range_spec p s lo n) as (p1 & s1 & Hs1 & T); try done; try lia. fold hi in T. unfold MiUnmapVirtualMemoryPartial. rewrite Hs1, trim_inner by (done || lia). cbn [mbind outcome_bind].
  change (FAILED STATUS_SUCCESS) with false. cbn [deref mbind outcome_bind]. pose proof (taken_out_nothing lo hi p s p1 s1 Hal Hhi Hlt Hok T) as Hnone.
  destruct T as [[A1 A2 A3 A4 A5 A6] T2 T3 T4 T5 T6 T7].
  destruct (free_spec (HeapTree p1) (mkNode lo n) A2 (proj1 Hnode)) as (h' & -> & Hh' & Hh).
  { intros a [Ha Hb]. by destruct (Hnone a (proj1 (Hhas a) Hb)) as [Hno _]. }
  change (FAILED STATUS_SUCCESS) with false. cbn [negb check mbind outcome_bind]. eexists _, s1. split; [done|].
  assert (∀ a, has h' a ↔ has (HeapTree p) a ∨ in_bounds lo hi a) as Hh2.
  { intros a. rewrite Hh, (Hhas a), T4, heap_cut_has by (done || apply Hok). fold hi. destruct (bounds_dec lo hi a); tauto. }
  split; [|by split_and!]. split; cbn; try done.
  - apply user_heap; [done|]. intros a [Ha|Ha]%Hh2; [by apply (heap_user _ _ (as_user _ _ Hok)) in Ha as []|]. unfold in_bounds, hi in Ha. lia.
  - intros a [[Ha|Ha]%Hh Hr]; [by apply (A4 a)|]. by destruct (Hnone a (proj1 (Hhas a) Ha)) as (_ & Hno & _).
Qed.
(** C25: overriding a range of user pages, in memory below 4 GiB, when no
    last-level table is full and there is memory for what is split: it returns
    with both locks released, and the range belongs to nobody.  Each descriptor
    and each free range keeps exactly its addresses outside, in up to two parts,
    of which the upper one begins as much later in its object; the pages of the
    range are unmapped and lose the references of the mappings, no entry in use
    outside of it changes, and objects have as many references more or less as
    there are descriptors more or less that map them. *)
Theorem MmOverrideAddressRange_correct p s StartAddress SizePages : as_ok p s → no_full s (PageMap p) → 0 ≤ VadLocks p → 0 ≤ SpaceLocks p →
  (PAGE_SIZE | StartAddress) → 0 ≤ StartAddress → 0 < SizePages → StartAddress + SizePages * PAGE_SIZE ≤ 2 ^ 47 →
  let EndAddress := StartAddress + SizePages * PAGE_SIZE in
  ∃ p' s', MmOverrideAddressRange true StartAddress SizePages p s = Ok (STATUS_SUCCESS, Some (trim_range StartAddress SizePages), p', s') ∧
    taken_out StartAddress EndAddress p s p' s' ∧
    ∀ a, in_bounds StartAddress EndAddress a → ¬ has (HeapTree p') a ∧ ¬ reserved (VadTree p') a ∧ (user_va a → ¬ present s' (PageMap p) a).
Proof.
  intros Hok Hf Hvl Hsl Hal H0 Hn Hmax EndAddress. destruct (override_range_spec p s StartAddress SizePages) as (p' & s' & Hr & T); try done.
  exists p', s'. split; [exact Hr|]. split; [exact T|]. apply (taken_out_nothing _ _ p s p' s'); [done|by apply divide_add_pages|unfold EndAddress, PAGE_SIZE; lia|done|done].
Qed.

(** C26: unmapping part of the user half that leaves out page zero
    ([unmap_first_page_crashes]) and ends before the last user page, in memory
    below 4 GiB, when no last-level table is full and there is memory for what is
    split: it returns; the range becomes free whoever had it, the entries in use
    outside stay, objects have their references balanced, and the address space
    stays well formed. *)
Theorem MiUnmapVirtualMemoryPartial_correct p s StartAddress SizePages : as_ok p s → no_full s (PageMap p) → 0 ≤ VadLocks p → 0 ≤ SpaceLocks p → inner_range StartAddress SizePages →
  let EndAddress := StartAddress + SizePages * PAGE_SIZE in
  ∃ p' s', MiUnmapVirtualMemoryPartial true StartAddress SizePages p s = Ok (STATUS_SUCCESS, p', s') ∧ as_ok p' s' ∧
    (∀ a, has (HeapTree p') a ↔ has (HeapTree p) a ∨ in_bounds StartAddress EndAddress a) ∧
    (∀ a, reserved (VadTree p') a ↔ reserved (VadTree p) a ∧ ¬ in_bounds StartAddress EndAddress a) ∧
    same_frame p p' ∧ balanced p p' ∧ overrode (in_bounds StartAddress EndAddress) s (PageMap p) s'.
Proof.
  intros Hok Hf Hvl Hsl Hin EndAddress. destruct (unmap_partial_spec p s StartAddress SizePages) as (p' & s' & Hr & Hok' & _ & Et & Hh & Hs & Hb & Ho); try done.
  exists p', s'. split_and!; try done. intros a. rewrite Et. pose proof Hin as (Hal & _ & Hn & _).
  assert (StartAddress < EndAddress) as Hlt by (unfold EndAddress, PAGE_SIZE; lia). assert (PAGE_SIZE | EndAddress) as Hhi by (by apply divide_add_pages).
  pose proof (as_vads _ _ Hok) as Ht. clear - Ht Hlt Hhi Hal. unfold reserved. split.
  - intros (w & (v & Hv%list_elem_of_In & Hw%list_elem_of_In)%list_elem_of_In%in_flat_map & Ha).
    pose proof (vads_ok_in _ _ Ht Hv) as [[Hn _] _]. destruct (node_cut_spec _ _ (Node v) Hn Hal Hhi Hlt) as (_ & _ & Hc).
    destruct (proj1 (Hc a)) as [H1 H2]; [exists (Node w); split; [rewrite <-vad_cut_nodes; by apply list_elem_of_fmap_2|done]|]. split; [|done]. by exists v.
  - intros [(v & Hv & Ha) Hno]. pose proof (vads_ok_in _ _ Ht Hv) as [[Hn _] _]. destruct (node_cut_spec _ _ (Node v) Hn Hal Hhi Hlt) as (_ & _ & Hc).
    destruct (proj2 (Hc a)) as (m & Hm & Hma); [done|]. rewrite <-vad_cut_nodes in Hm. apply list_elem_of_fmap in Hm as (w & -> & Hw).
    exists w. split; [|done]. apply list_elem_of_In, in_flat_map. exists v. split; by apply list_elem_of_In.
Qed.
End proofs.

(** ** Witnesses *)

(** The middle of a descriptor is cut out of it. *)
Lemma MmOverrideAddressRange_correct_witness :
  ∃ p' s', MmOverrideAddressRange true 0x14000 2 demo_space fresh_map = Ok (STATUS_SUCCESS, Some (mkNode 0x14000 2), p', s') ∧
    Node <$> VadTree p' = [mkNode 0x10000 4; mkNode 0x16000 10].
Proof.
  destruct (MmOverrideAddressRange_correct demo_space fresh_map 0x14000 2 demo_space_ok (proj1 (proj2 fresh_user_map))) as (p' & s' & Hr & T & _);
    [cbn; lia|cbn; lia|by exists 20|lia|lia|unfold PAGE_SIZE; lia|].
  exists p', s'. split; [exact Hr|]. rewrite (to_vads _ _ _ _ _ _ T). reflexivity.
Defined.

Lemma MiUnmapVirtualMemoryPartial_correct_witness :
  ∃ p' s', MiUnmapVirtualMemoryPartial true 0x14000 20 demo_space fresh_map = Ok (STATUS_SUCCESS, p', s') ∧ has (HeapTree p') 0x15000 ∧ reserved (VadTree p') 0x10000.
Proof.
  destruct (MiUnmapVirtualMemoryPartial_correct demo_space fresh_map 0x14000 20 demo_space_ok (proj1 (proj2 fresh_user_map))) as (p' & s' & Hr & _ & Hh & Ht & _);
    [cbn; lia|cbn; lia| |].
  - split; [by exists 20|]. unfold MM_FIRST_USER_PAGE, MM_LAST_USER_PAGE, PAGE_SIZE. lia.
  - exists p', s'. split; [exact Hr|]. split.
    + apply Hh. right. unfold in_bounds, PAGE_SIZE. lia.
    + apply Ht. split; [|unfold in_bounds; lia]. exists demo_vad. split; [left|unfold node_has, end_, PAGE_SIZE; cbn; lia].
Defined.

(** ** What goes wrong *)

(** Unmapping the page at address zero: the range that is left has no page, the
    heap already has a node at its start, and the assertion stops the kernel. *)
Lemma unmap_first_page_crashes : MiUnmapVirtualMemoryPartial true 0 1 demo_space fresh_map = Crash.
Proof. vm_compute. reflexivity. Qed.

Definition after (r : outcome (BSTATUS * aspace * pmm)) : aspace * pmm := match r with Ok (_, p, s) => (p, s) | _ => (demo_space, fresh_map) end.
Definition status (r : outcome (BSTATUS * aspace * pmm)) : option BSTATUS := match r with Ok (St, _, _) => Some St | _ => None end.

(** A page that was committed and decommitted cannot be committed again. *)
Lemma recommit_refused :
  let '(p, s) := after (MmCommitVirtualMemory 0x10000 1 0 demo_space fresh_map) in
  let '(p, s) := after (MmDecommitVirtualMemory 0x10000 1 p s) in
  status (MmCommitVirtualMemory 0x10000 1 0 p s) = Some STATUS_CONFLICTING_ADDRESSES.
Proof. vm_compute. reflexivity. Qed.

(** Four pages over the border of two tables, of which the first is missing: the
    last entry is not cleared when they are released. *)
Definition border_space : aspace := mkAspace [mkVad (mkNode 0x1FF000 4) false 3 true None 0] [mkNode 0x1000 0x1FE; mkNode 0x203000 1000] 1 0 0 ∅.

Lemma stale_entry_left :
  let '(p, s) := after (MmCommitVirtualMemory 0x200000 1 0 border_space fresh_map) in
  let '(p, s) := after (MmDecommitVirtualMemory 0x1FF000 4 p s) in
  let '(p, s) := after (MmReleaseVirtualMemory 0x1FF000 p s) in
  VadTree p = [] ∧ pte s 1 0x201000 = Some 0 ∧ pte s 1 0x202000 = Some (MmBuildAbsentPte MM_PAGE_DECOMMITTED).
Proof. vm_compute. split; [reflexivity|]. split; reflexivity. Qed.
