(* ===== verification/Mappable.v ===== *)
(** Objects that can be mapped: the interface of
    [boron/include/mm/mappable.h], what those that stay in memory promise, and
    section objects as such ([boron/source/mm/section.c], over [Sla]). *)
From S2P Require Import Prelude Pmm Pages Vad.
From S2P Require Sla.
Local Open Scope Z_scope.

(** [MAPPABLE_DISPATCH_TABLE] : boron/include/mm/mappable.h:45-53.
    The dispatch table of mappable objects, in a store of them.  A page that is
    returned comes with a reference.  While a page is read in, the address space
    is not locked: [MmMeanwhile] is what others do to it. *)
Class Mappables (O S : Type) := {
  MmGetPageMappable : Z → Z → O → S → outcome (BSTATUS * option Z * O * S);
  MmReadPageMappable : Z → Z → O → S → outcome (BSTATUS * option Z * O * S);
  MmPrepareWriteMappable : Z → Z → O → S → outcome (BSTATUS * O * S);
  MmMeanwhile : aspace → O → S → aspace * O * S;
}.

(** ** What memory-backed objects promise *)

(** Such an object has pages for its tables, which nobody else refers to, and
    the pages that it hands out, at offsets of pages. *)
Class Resident (O S : Type) := {
  mp_ok : O → S → Prop;
  mp_table : O → S → Z → Prop;
  mp_page : O → S → Z → Prop;
  mp_bound : O → Z → Prop;
  mp_at : O → S → Z → option Z;
}.

Section promises.
Context {O S : Type} `{PageFrameLaws S} `{!Mappables O S} `{!Resident O S}.

(** The contents of a page of the object; one that it does not have yet is full
    of zeros. *)
Definition page_view (o : O) (s : S) (off : Z) : list Z :=
  match mp_at o s off with Some f => default zeros (pf_mem s !! f) | None => zeros end.

(** A page in use that the object has nothing to do with. *)
Definition apart_from (o : O) (s : S) (m : Z) : Prop := is_Some (pf_refs s m) ∧ ¬ mp_table o s m ∧ ¬ mp_page o s m.

(** What every operation does: the object shows the same pages, and the pages of
    others are left alone. *)
Record resident_step (o : O) (s : S) (o' : O) (s' : S) : Prop := {
  rs_ok : mp_ok o' s';
  rs_bound off : mp_bound o' off ↔ mp_bound o off;
  rs_view off : mp_bound o off → page_view o' s' off = page_view o s off;
  rs_apart m : apart_from o s m → apart_from o' s' m ∧ pf_refs s' m = pf_refs s m ∧ pf_mem s' !! m = pf_mem s !! m;
  rs_domain m : is_Some (pf_mem s' !! m) → is_Some (pf_mem s !! m);
}.

(** Others changed pages of their own, or references to the pages handed out. *)
Record resident_frame (o : O) (s s' : S) : Prop := {
  rf_ok : mp_ok o s';
  rf_table m : mp_table o s' m ↔ mp_table o s m;
  rf_page m : mp_page o s' m ↔ mp_page o s m;
  rf_at off : mp_bound o off → mp_at o s' off = mp_at o s off;
}.
End promises.

Class ResidentLaws (O S : Type) `{PageFrameLaws S} `{!Mappables O S} `{!Resident O S} := {
  mp_ok_frames o s : mp_ok o s → pf_ok s;
  mp_table_used o s m : mp_ok o s → mp_table o s m → pf_refs s m = Some 1;
  mp_page_used o s m : mp_ok o s → mp_page o s m → is_Some (pf_refs s m) ∧ ¬ mp_table o s m;
  mp_at_page o s off f : mp_ok o s → mp_bound o off → mp_at o s off = Some f → mp_page o s f;
  mp_frame o s s' : mp_ok o s → pf_ok s' →
    (∀ m, mp_table o s m → pf_refs s' m = pf_refs s m ∧ pf_mem s' !! m = pf_mem s !! m) →
    (∀ m, mp_page o s m → is_Some (pf_refs s' m)) → resident_frame o s s';
  (** The page at an offset, with one reference more. *)
  mp_get i o s off : mp_ok o s → mp_bound o off →
    ∃ St r o' s', MmGetPageMappable i off o s = Ok (St, r, o', s') ∧ resident_step o s o' s' ∧
      match r with
      | Some f => St = STATUS_SUCCESS ∧ mp_at o' s' off = Some f ∧ pf_refs s' f = Some (default 1 (pf_refs s f) + 1) ∧
          (is_Some (pf_refs s f) → mp_page o s f)
      | None => St = STATUS_INSUFFICIENT_MEMORY
      end;
  (** Making a page ready to be written does not change what is seen. *)
  mp_prepare i o s off : mp_ok o s → mp_bound o off →
    ∃ St o' s', MmPrepareWriteMappable i off o s = Ok (St, o', s') ∧ resident_step o s o' s' ∧ (St = STATUS_SUCCESS ∨ St = STATUS_INSUFFICIENT_MEMORY);
}.

Section laws.
Context {O S : Type} `{ResidentLaws O S}.

Lemma resident_view o s s' : resident_frame o s s' → mp_ok o s → (∀ m, mp_page o s m → pf_mem s' !! m = pf_mem s !! m) →
  ∀ off, mp_bound o off → page_view o s' off = page_view o s off.
Proof.
  intros Hf Hok Hm off Hoff. unfold page_view. rewrite (rf_at _ _ _ Hf) by done. destruct (mp_at o s off) as [f|] eqn:E; [|done].
  by rewrite Hm by (by apply (mp_at_page o s off)).
Qed.

Lemma resident_refl o s : mp_ok o s → resident_step o s o s.
Proof. intros Hok. by split. Qed.

(** Storing into a page that was handed out. *)
Lemma resident_store o s f c : mp_ok o s → mp_page o s f → resident_frame o s (pf_store f c s).
Proof.
  intros Hok Hf. destruct (mp_page_used o s f Hok Hf) as [[r Hr] Hnt]. apply mp_frame; [done|by apply (pf_store_spec s f r), Hr; apply (mp_ok_frames o)| |].
  - intros m Ht. rewrite pf_store_refs, pf_store_mem, lookup_insert_ne; [done|]. by intros ->.
  - intros m Hp. rewrite pf_store_refs. by apply (mp_page_used o s m).
Qed.

Lemma resident_trans o s o1 s1 o2 s2 : resident_step o s o1 s1 → resident_step o1 s1 o2 s2 → resident_step o s o2 s2.
Proof.
  intros [H1' H2' H3' H4' H5'] [K1 K2 K3 K4 K5]. split; [done| | | |by eauto].
  - intros off. by rewrite K2.
  - intros off Hb. rewrite K3 by (by apply H2'). by apply H3'.
  - intros m Hm. destruct (H4' m Hm) as (Hm1 & Er & Em). destruct (K4 m Hm1) as (Hm2 & Er' & Em'). split; [done|]. by rewrite Er', Em'.
Qed.
End laws.

(** ** Sections *)

Section mappable.
Context {S : Type} `{PageFrames S}.

(** [MmpReadPageSection] : boron/source/mm/section.c:98-106. *)
Definition MmpReadPageSection (SectionOffset : Z) : BSTATUS * option Z := (STATUS_HARDWARE_IO_ERROR, None).

(** [MmpPrepareWriteSection] : boron/source/mm/section.c:108-115. *)
Definition MmpPrepareWriteSection (SectionOffset : Z) : BSTATUS := STATUS_SUCCESS.

(** [MmpSectionObjectMappableDispatch] : boron/source/mm/section.c:117-122.
    For one section, which is all that is stored. *)
#[export] Instance section_mappables : Mappables Sla.MMSECTION S := {|
  MmGetPageMappable _ SectionOffset Section s := Sla.MmpGetPageSection Section SectionOffset s;
  MmReadPageMappable _ SectionOffset Section s := let '(Status, Pfn) := MmpReadPageSection SectionOffset in Ok (Status, Pfn, Section, s);
  MmPrepareWriteMappable _ SectionOffset Section s := Ok (MmpPrepareWriteSection SectionOffset, Section, s);
  MmMeanwhile p Section s := (p, Section, s);
|}.
End mappable.

Section sections.
Context {S : Type} `{PageFrameLaws S}.

#[export] Instance section_resident : Resident Sla.MMSECTION S := {|
  mp_ok sec s := Sla.section_ok s sec;
  mp_table sec s := Sla.tree_page s (Sla.Sla sec);
  mp_page sec s := Sla.section_page s sec;
  mp_bound sec off := 0 ≤ off < Sla.max_entries;
  mp_at sec s off := let e := Sla.entry_at s (Sla.Sla sec) off in if e =? MM_SLA_NO_DATA then None else Some e;
|}.

Lemma frame_no_data n : frame n → n ≠ MM_SLA_NO_DATA.
Proof. intros [? ?] ->. unfold MM_SLA_NO_DATA, MM_PFN_OUTOFMEMORY in *. lia. Qed.

Lemma section_apart s sec m : Sla.section_ok s sec → apart_from sec s m ↔ Sla.outside s sec m.
Proof.
  intros Hok. pose proof (Sla.so_frames _ _ (Sla.sec_sla _ _ Hok)) as Hpf. split.
  - intros (Hr & Ht & Hp). split; [|done]. split; [done|]. intros L path Hin E. apply Ht. destruct Hr as [r Hr]. destruct (pf_refs_frame _ _ _ Hpf Hr) as [Hf _].
    split; [by apply Sla.frame_not_invalid|by exists L, path].
  - intros [Hf Hp]. split; [apply Hf|]. split; [by apply Sla.foreign_not_tree|done].
Qed.

(** A new section has no pages. *)
Lemma empty_apart s max m : pf_ok s → is_Some (pf_refs s m) → apart_from (Sla.MmpInitializeSectionObject max) s m.
Proof.
  intros Hpf Hr. destruct (Sla.MmInitializeSla_ok s Hpf) as [Hs He]. split; [done|]. split.
  - intros (Hv & L & q & _ & E). cbn in E. assert (Sla.node s Sla.MmInitializeSla L [] = PFN_INVALID) as E0.
    { rewrite Sla.node_nil. destruct (Sla.Indirect Sla.MmInitializeSla !! L) eqn:El; [|done]. by apply lookup_replicate_1 in El as [-> _]. }
    pose proof (Sla.node_beyond _ _ _ _ q E0) as E1. cbn [app] in E1. by rewrite E1 in E; subst m.
  - intros (Hv & j & Hj & E). cbn in E. rewrite He in E by done. by subst m.
Qed.

Lemma bounded_offset off : 0 ≤ off < Sla.max_entries → 0 ≤ off < 2 ^ 64.
Proof. assert (Sla.max_entries < 2 ^ 64) by done. lia. Qed.

Lemma got_page_view s sec off St n sec' s' : Sla.section_ok s sec → Sla.section_ok s' sec' → Sla.outsiders_kept s sec s' sec' → 0 ≤ off < Sla.max_entries →
  Sla.got_page s sec off St (Some n) sec' s' → ∀ j, 0 ≤ j < Sla.max_entries → page_view sec' s' j = page_view sec s j.
Proof.
  intros Hok Hok' Hout Hoff (_ & He & Hp) j Hj. pose proof (bounded_offset j Hj) as Hj'. unfold page_view, mp_at, section_resident. rewrite He by done.
  destruct (decide (j = off)) as [->|Hne].
  - assert (frame n) as Hfr.
    { pose proof (Sla.so_frames _ _ (Sla.sec_sla _ _ Hok')) as Hpf. destruct (decide _); [destruct Hp as (_ & Hr & _)|destruct Hp as (_ & _ & r & _ & Hr)]; by apply (pf_refs_frame _ _ _ Hpf) in Hr as [? _]. }
    rewrite (proj2 (Z.eqb_neq _ _) (frame_no_data n Hfr)). destruct (decide _) as [E|E].
    + rewrite E, Z.eqb_refl. by destruct Hp as (_ & _ & ->).
    + destruct Hp as (-> & -> & _). by rewrite (proj2 (Z.eqb_neq _ _) (frame_no_data n Hfr)).
  - destruct (Z.eqb_spec (Sla.entry_at s (Sla.Sla sec) j) MM_SLA_NO_DATA) as [E|E]; [done|].
    rewrite (Sla.os_foreign _ _ _ _ Hout); [done|]. by apply (Sla.sec_pages _ _ Hok).
Qed.

#[export] Instance section_laws : ResidentLaws Sla.MMSECTION S.
Proof.
  split.
  - intros sec s Hok. apply (Sla.so_frames _ _ (Sla.sec_sla _ _ Hok)).
  - intros sec s m Hok Ht. by apply (Sla.tree_page_refs s (Sla.Sla sec)); [apply Hok|].
  - intros sec s m Hok Hp. pose proof (Sla.section_page_foreign _ _ _ Hok Hp) as Hf. split; [apply Hf|by apply Sla.foreign_not_tree].
  - intros sec s off f Hok Hb Ha. cbn in *. destruct (Z.eqb_spec (Sla.entry_at s (Sla.Sla sec) off) MM_SLA_NO_DATA) as [E|E]; [done|]. injection Ha as <-.
    split; [done|]. exists off. split; [by apply bounded_offset|done].
  - intros sec s s' Hok Hpf Ht Hp. destruct (Sla.section_ok_frame s s' sec Hok Hpf Ht Hp) as (Hok' & He & Hn). split; [done| | |].
    + intros m. cbn. split; intros (Hv & L & path & Hin & E); (split; [done|]); exists L, path; (split; [done|]); [by rewrite <-Hn|by rewrite Hn].
    + intros m. cbn. split; intros (Hv & j & Hj & E); (split; [done|]); exists j; (split; [done|]); [by rewrite <-He|by rewrite He].
    + intros off Hoff. unfold mp_at, section_resident. rewrite (He off (bounded_offset off Hoff)). reflexivity.
  - intros i sec s off Hok Hb. cbn in Hb. destruct (Sla.MmpGetPageSection_spec s sec off Hok Hb) as (St & r & sec' & s' & Hg & Hok' & Hgot & Hout).
    exists St, r, sec', s'. split; [done|].
    assert ((∀ j, 0 ≤ j < Sla.max_entries → page_view sec' s' j = page_view sec s j)) as Hview.
    { destruct r as [n|]; [by apply (got_page_view s sec off St n)|]. destruct Hgot as (_ & _ & He). intros j Hj. pose proof (bounded_offset j Hj) as Hj'.
      unfold page_view, mp_at, section_resident. rewrite He by done. destruct (Z.eqb_spec (Sla.entry_at s (Sla.Sla sec) j) MM_SLA_NO_DATA) as [E|E]; [done|].
      rewrite (Sla.os_foreign _ _ _ _ Hout); [done|]. by apply (Sla.sec_pages _ _ Hok). }
    split.
    { split; [done|done|done| |apply (Sla.os_domain _ _ _ _ Hout)]. intros m Hm. apply (section_apart s sec m Hok) in Hm.
      destruct (Sla.os_page _ _ _ _ Hout m Hm) as (Hm' & Hr & Hmem). split; [by apply section_apart|done]. }
    destruct r as [n|]; [|apply Hgot]. destruct Hgot as (-> & He & Hp). split; [done|]. pose proof (bounded_offset off Hb) as Hoff.
    assert (pf_refs s' n = Some (default 1 (pf_refs s n) + 1)) as Hr by (destruct (decide _); [by destruct Hp as (-> & -> & _)|by destruct Hp as (_ & _ & r & -> & ->)]).
    split; [|split; [done|]].
    + cbn. rewrite He, decide_True by done. destruct (pf_refs_frame _ _ _ (Sla.so_frames _ _ (Sla.sec_sla _ _ Hok')) Hr) as [Hfr _].
      by rewrite (proj2 (Z.eqb_neq _ _) (frame_no_data n Hfr)).
    + intros [r Hr0]. destruct (decide _) as [E|E]; [destruct Hp as (Hr1 & _); congruence|]. destruct Hp as (<- & _). split; [done|by exists off].
  - intros i sec s off Hok Hb. exists STATUS_SUCCESS, sec, s. split; [done|]. split; [by apply resident_refl|by left].
Qed.
End sections.
