(* ===== verification/Fault.v ===== *)
(** Page faults: [boron/source/mm/fault.c], and the loop around it in
    [boron/source/ke/except.c].

    A fault is handled in one space, the user half of the process or the
    kernel half, which has the descriptors, the page map and the locks of [Vad].
    The objects that can be mapped are known through the interface of
    [Mappable]. *)
From S2P Require Import Prelude Pmm Pages Pte PageMap PageFree Commit RbTree Heap Vad Mappable.
From S2P Require Mdl.
Local Open Scope Z_scope.

(** [MM_FAULT_PROTECTION] : boron/include/arch/amd64.h:97-100. *)
Definition MM_FAULT_PROTECTION : Z := 1.
Definition MM_FAULT_WRITE : Z := 2.
Definition MM_FAULT_USER : Z := 4.
Definition MM_FAULT_INSNFETCH : Z := 16.

(** [MiNormalFault] : boron/source/mm/fault.c:181-182. *)
Definition PoolEnd : Z := MiGetTopOfPoolManagedArea + 2 ^ 39.
Definition in_pool (Va : Z) : bool := (MiGetTopOfPoolManagedArea <=? Va) && (Va <? PoolEnd).

Section fault.
Context {O S : Type} `{PageFrames S} `{Mappables O S}.

(** [MmpHandleFaultCommittedPage] : boron/source/mm/fault.c:44-58. *)
Definition MmpHandleFaultCommittedPage (PtePtr : Z * Z) (PageBits : Z) (s : S) : outcome (BSTATUS * S) :=
  '(Pfn, s) ← pf_alloc s;
  if Pfn =? PFN_INVALID then Ok (STATUS_REFAULT_SLEEP, s)
  else
    s ← st_pte PtePtr.1 PtePtr.2 (MmBuildPte Pfn (Z.lor PageBits MM_MISC_IS_FROM_PMM)) s;
    Ok (STATUS_SUCCESS, s).

(** [MmpAssignPfnToAddress] : boron/source/mm/fault.c:60-78. *)
Definition MmpAssignPfnToAddress (Mapping Va Pfn Prot : Z) (s : S) : outcome (BSTATUS * S) :=
  let PageBits := Z.lor MM_PROT_READ MM_MISC_IS_FROM_PMM in
  let Prot := Z.ldiff Prot MM_PROT_WRITE in
  let PageBits := if Va <? MM_KERNEL_SPACE_BASE then Z.lor PageBits MM_PROT_USER else PageBits in
  '(PtePtr, s) ← MmGetPteLocationCheck Mapping Va true s;
  match PtePtr with
  | None => Ok (STATUS_INSUFFICIENT_MEMORY, s)
  | Some l =>
      s ← st_pte l.1 l.2 (MmBuildPte Pfn (Z.lor PageBits (MmGetPteBitsFromProtection Prot))) s;
      Ok (STATUS_SUCCESS, s)
  end.

(** [MmpHandleFaultCommittedMappedPage] : boron/source/mm/fault.c:80-161.
    The space is locked on entry and unlocked on return. *)
Definition MmpHandleFaultCommittedMappedPage (Va VaBase MappedOffset MappedObject Prot : Z) (p : aspace) (o : O) (s : S)
  : outcome (BSTATUS * aspace * O * S) :=
  let SectionOffset := u64 (u64 (Z.ldiff Va (PAGE_SIZE - 1) - VaBase) + MappedOffset) / PAGE_SIZE in
  '(Status, Pfn, o, s) ← MmGetPageMappable MappedObject SectionOffset o s;
  '(Failed, Status, Pfn, p, o, s) ←
    (if decide (Status = STATUS_MORE_PROCESSING_REQUIRED) then
       p ← MmUnlockSpace p;
       let '(p, o, s) := MmMeanwhile p o s in
       '(Status, Pfn, o, s) ← MmReadPageMappable MappedObject SectionOffset o s;
       if FAILED Status then Ok (true, Status, Pfn, p, o, s)
       else Ok (false, Status, Pfn, MmLockSpaceExclusive p, o, s)
     else Ok (false, Status, Pfn, p, o, s));
  if (Failed : bool) then Ok (Status, change_refs (-1) (Some MappedObject) p, o, s)
  else
    Pfn ← (match Pfn with Some Pfn => Ok Pfn | None => Crash end);
    '(Status, s) ← MmpAssignPfnToAddress (PageMap p) Va Pfn Prot s;
    if FAILED Status then
      s ← pf_free Pfn s;
      _ ← check (bool_decide (Status = STATUS_INSUFFICIENT_MEMORY));
      p ← MmUnlockSpace (change_refs (-1) (Some MappedObject) p);
      Ok (STATUS_REFAULT_SLEEP, p, o, s)
    else
      p ← MmUnlockSpace (change_refs (-1) (Some MappedObject) p);
      Ok (Status, p, o, s).

(** [MiNormalFault] : boron/source/mm/fault.c:163-286.
    The space is locked on entry and unlocked on return. *)
Definition MiNormalFault (Va : Z) (PtePtr : option (Z * Z)) (p : aspace) (o : O) (s : S) : outcome (BSTATUS * aspace * O * S) :=
  let p := MiLockVadList p in
  match MmLookUpVadByAddress (VadTree p) Va with
  | None =>
      p ← MmUnlockVadList p;
      p ← MmUnlockSpace p;
      if in_pool Va then
        '(l, s) ← MmGetPteLocationCheck (PageMap p) Va true s;
        l ← deref l;
        Pte ← ld_pte l.1 l.2 s;
        if MmIsCommittedPte Pte then
          '(Status, s) ← MmpHandleFaultCommittedPage l (Z.lor MM_PROT_READ MM_PROT_WRITE) s; Ok (Status, p, o, s)
        else Ok (STATUS_ACCESS_VIOLATION, p, o, s)
      else Ok (STATUS_ACCESS_VIOLATION, p, o, s)
  | Some Vad =>
      Zero ← (match PtePtr with Some l => Pte ← ld_pte l.1 l.2 s; Ok (MmIsEqualPte Pte MmBuildZeroPte) | None => Ok true end);
      if (Zero : bool) && negb (Committed Vad) then
        p ← MmUnlockVadList p; p ← MmUnlockSpace p; Ok (STATUS_ACCESS_VIOLATION, p, o, s)
      else
        '(PtePtr, s) ← (match PtePtr with Some l => Ok (Some l, s) | None => MmGetPteLocationCheck (PageMap p) Va true s end);
        match PtePtr with
        | None => p ← MmUnlockVadList p; p ← MmUnlockSpace p; Ok (STATUS_REFAULT_SLEEP, p, o, s)
        | Some l =>
            Pte ← ld_pte l.1 l.2 s;
            if negb (Zero || MmIsCommittedPte Pte) then
              (* the lock of the descriptors is kept *)
              p ← MmUnlockSpace p; Ok (STATUS_ACCESS_VIOLATION, p, o, s)
            else
              match MappedObject Vad with
              | Some Object =>
                  p ← MmUnlockVadList (change_refs 1 (Some Object) p);
                  MmpHandleFaultCommittedMappedPage Va (StartVa (Node Vad)) (SectionOffset Vad) Object (Protection Vad) p o s
              | None =>
                  let PageBits := Z.ldiff (MmGetPteBitsFromProtection (Protection Vad)) MM_PROT_WRITE in
                  let PageBits := if negb (MM_KERNEL_SPACE_BASE <=? Va) then Z.lor PageBits MM_PROT_USER else PageBits in
                  p ← MmUnlockVadList p;
                  '(Status, s) ← MmpHandleFaultCommittedPage l PageBits s;
                  p ← MmUnlockSpace p;
                  Ok (Status, p, o, s)
              end
        end
  end.

(** [MiWriteFault] : boron/source/mm/fault.c:288-402.
    The entry is present; the space stays locked. *)
Definition MiWriteFault (Va : Z) (PtePtr : Z * Z) (p : aspace) (o : O) (s : S) : outcome (BSTATUS * aspace * O * S) :=
  Pte ← ld_pte PtePtr.1 PtePtr.2 s;
  if on (MmGetPageBitsPte Pte) MM_PROT_WRITE then Ok (STATUS_SUCCESS, p, o, s)
  else
    let Bits := Z.lor (MmGetPageBitsPte Pte) (Z.lor MM_PROT_READ (Z.lor MM_PROT_WRITE MM_MISC_IS_FROM_PMM)) in
    let p := MiLockVadList p in
    match MmLookUpVadByAddress (VadTree p) Va with
    | None =>
        p ← MmUnlockVadList p;
        if in_pool Va then
          '(l, s) ← MmGetPteLocationCheck (PageMap p) Va true s;
          l ← deref l;
          Pte ← ld_pte l.1 l.2 s;
          s ← st_pte l.1 l.2 (MmSetPageBitsPte Pte (Z.lor (MmGetPageBitsPte Pte) (Z.lor MM_PROT_READ (Z.lor MM_PROT_WRITE MM_MISC_IS_FROM_PMM)))) s;
          Ok (STATUS_SUCCESS, p, o, s)
        else Ok (STATUS_ACCESS_VIOLATION, p, o, s)
    | Some Vad =>
        if on (Z.lnot (Protection Vad)) PAGE_WRITE then
          p ← MmUnlockVadList p; Ok (STATUS_ACCESS_VIOLATION, p, o, s)
        else
          match MappedObject Vad with
          | Some Object =>
              let Offset := u64 (u64 (Z.ldiff Va (PAGE_SIZE - 1) - StartVa (Node Vad)) + SectionOffset Vad) / PAGE_SIZE in
              '(Status, o, s) ← MmPrepareWriteMappable Object Offset o s;
              if FAILED Status then p ← MmUnlockVadList p; Ok (Status, p, o, s)
              else
                '(Status, NewPfn, o, s) ← MmGetPageMappable Object Offset o s;
                if FAILED Status then p ← MmUnlockVadList p; Ok (Status, p, o, s)
                else
                  NewPfn ← deref NewPfn;
                  (* the reference to the page that was mapped is not dropped *)
                  s ← st_pte PtePtr.1 PtePtr.2 (MmBuildPte NewPfn Bits) s;
                  p ← MmUnlockVadList p;
                  Ok (STATUS_SUCCESS, p, o, s)
          | None =>
              s ← st_pte PtePtr.1 PtePtr.2 (MmSetPageBitsPte Pte Bits) s;
              p ← MmUnlockVadList p;
              Ok (STATUS_SUCCESS, p, o, s)
          end
    end.

(** [MmPageFault] : boron/source/mm/fault.c:404-520.
    [p] is the space of the address.  [Waited] is how a wait for more memory
    ended. *)
Definition MmPageFault (Waited : BSTATUS) (FaultPC FaultAddress FaultMode : Z) (p : aspace) (o : O) (s : S) : outcome (BSTATUS * aspace * O * S) :=
  let IsKernelSpace := MM_KERNEL_SPACE_BASE <=? FaultAddress in
  let IsUserModeCode := FaultPC <? MM_KERNEL_SPACE_BASE in
  if IsUserModeCode && IsKernelSpace then Ok (STATUS_ACCESS_VIOLATION, p, o, s)
  else
    let p := MmLockSpaceExclusive p in
    '(PtePtr, s) ← MmGetPteLocationCheck (PageMap p) FaultAddress false s;
    Present ← (match PtePtr with Some l => Pte ← ld_pte l.1 l.2 s; Ok (if MmIsPresentPte Pte then Some (l, Pte) else None) | None => Ok None end);
    '(Status, p, o, s) ←
      (match Present with
       | Some (l, Pte) =>
           if on (Z.lnot (MmGetPageBitsPte Pte)) MM_PROT_USER && IsUserModeCode then
             p ← MmUnlockSpace p; Ok (STATUS_ACCESS_VIOLATION, p, o, s)
           else if on (Z.lnot (MmGetPageBitsPte Pte)) MM_PROT_EXEC && on FaultMode MM_FAULT_INSNFETCH then
             p ← MmUnlockSpace p; Ok (STATUS_ACCESS_VIOLATION, p, o, s)
           else if on FaultMode MM_FAULT_WRITE then
             '(Status, p, o, s) ← MiWriteFault FaultAddress l p o s;
             p ← MmUnlockSpace p; Ok (Status, p, o, s)
           else p ← MmUnlockSpace p; Ok (STATUS_SUCCESS, p, o, s)
       | None =>
           '(Status, p, o, s) ← MiNormalFault FaultAddress PtePtr p o s;
           Ok (if negb (FAILED Status) && on FaultMode MM_FAULT_WRITE then STATUS_REFAULT else Status, p, o, s)
       end);
    let Status := if decide (Status = STATUS_REFAULT_SLEEP) then (if FAILED Waited then Waited else STATUS_REFAULT) else Status in
    Ok (Status, p, o, s).

(** [KeOnPageFault] : boron/source/ke/except.c:120-124.
    The fault is handled again as long as it is to be. *)
Fixpoint handle_fault (fuel : nat) (Waited : BSTATUS) (FaultPC FaultAddress FaultMode : Z) (p : aspace) (o : O) (s : S) : outcome (BSTATUS * aspace * O * S) :=
  match fuel with
  | Datatypes.O => OutOfFuel
  | Datatypes.S fuel =>
      '(FaultReason, p, o, s) ← MmPageFault Waited FaultPC FaultAddress FaultMode p o s;
      if decide (FaultReason = STATUS_REFAULT) then handle_fault fuel Waited FaultPC FaultAddress FaultMode p o s
      else Ok (FaultReason, p, o, s)
  end.

(** How the code that faulted goes on: where it was, or at the end of the probe
    that it was in, with [STATUS_FAULT]. *)
Inductive resume := Retried | ProbeFailed.

(** [KeOnPageFault] : boron/source/ke/except.c:91-165.
    [Thread] is the running thread, if there is one yet, and whether it is
    probing.  Any other fault that cannot be resolved stops the kernel. *)
Definition KeOnPageFault (fuel : nat) (Thread : option bool) (HighIpl : bool) (Waited : BSTATUS) (FaultPC FaultAddress FaultMode : Z) (p : aspace) (o : O) (s : S)
  : outcome (resume * aspace * O * S) :=
  let Bad := (FaultPC <=? Mdl.MM_USER_SPACE_END) && (Mdl.MM_USER_SPACE_END <? FaultAddress) in
  if HighIpl then Crash
  else
    Probing ← deref Thread;
    '(FaultReason, p, o, s) ←
      (if Bad then Ok (STATUS_ACCESS_VIOLATION, p, o, s) else handle_fault fuel Waited FaultPC FaultAddress FaultMode p o s);
    if negb (FAILED FaultReason) then Ok (Retried, p, o, s)
    else if (Probing : bool) then Ok (ProbeFailed, p, o, s)
    else Crash.

End fault.

(** ** What a fault does to the page map *)

Section maps.
Context {S : Type} `{PageFrameLaws S}.

Lemma location_there s root va p : pm_ok s root → no_large s root → plain_va va → node s root (path_of va) = Some p → ∀ gen,
  MmGetPteLocationCheck root va gen s = Ok (Some (p, PML_IDX 1 va), s).
Proof.
  intros Hok Hl Hva Hp gen. destruct (pte_location s root va p Hok Hva Hp) as [Hloc _]. unfold MmGetPteLocationCheck, MmCheckPteLocation.
  rewrite (proj2 (Z.eqb_neq _ _)) by done. cbn [negb check mbind outcome_bind].
  rewrite check_levels_spec by (try done; by apply no_large_not_blocked). rewrite Hp. cbn [mbind outcome_bind]. by rewrite Hloc.
Qed.

Lemma location_missing s root va : pm_ok s root → no_large s root → plain_va va → node s root (path_of va) = None →
  MmGetPteLocationCheck root va false s = Ok (None, s).
Proof. intros Hok Hl Hva Hp. unfold MmGetPteLocationCheck. rewrite check_location by done. by rewrite Hp. Qed.

Lemma location_made s root va : pm_ok s root → no_large s root → plain_va va →
  ∃ r s', MmGetPteLocationCheck root va true s = Ok (r, s') ∧ kept s root s' ∧
    match r with
    | Some l => l.2 = PML_IDX 1 va ∧ node s' root (path_of va) = Some l.1
    | None => node s' root (path_of va) = None ∧ node s root (path_of va) = None
    end.
Proof.
  intros Hok Hl Hva. destruct (make_location s root va Hok Hl Hva) as (ok & s' & Hm & Hk & Hr). unfold MmGetPteLocationCheck. rewrite Hm. cbn [mbind outcome_bind].
  destruct ok; [|by exists None, s'].
  destruct Hr as [p Hp]. destruct (pte_location s' root va p (kp_ok _ _ _ Hk) Hva Hp) as [Hloc _]. rewrite Hloc. cbn [mbind outcome_bind]. by exists (Some (p, PML_IDX 1 va)), s'.
Qed.

Lemma pte_node s root va p : node s root (path_of va) = Some p → pte s root va = Some (word_at s p (PML_IDX 1 va)).
Proof. intros Hp. unfold pte. by rewrite Hp. Qed.

Lemma kept_kept_or_new s root s' va : kept s root s' → plain_va va → kept_or_new (pte s root va) (pte s' root va).
Proof. apply kept_pte. Qed.

Lemma um_kept s root s' : user_map s root → kept s root s' → user_map s' root.
Proof.
  intros Hu Hk. apply (um_change s root); [done|apply (kp_ok _ _ _ Hk)|apply (kp_large _ _ _ Hk), Hu|]. intros va Hva.
  pose proof (kept_kept_or_new s root s' va Hk (proj1 (user_plain va Hva))) as Hp. destruct (kept_or_new_cases _ _ Hp) as [E|E].
  - right. right. split; [done|]. intros f Hf. by apply (kp_mem _ _ _ Hk), (um_foreign s root Hu va).
  - left. by exists 0.
Qed.

Lemma kept_less_present s root s' : kept s root s' → less_present s root s'.
Proof. intros Hk va Hva. apply kept_or_new_present. apply kept_kept_or_new; [done|by apply user_plain]. Qed.

(** A page that nothing else maps was mapped at [va]. *)
Record newly_mapped (s : S) (root va e f : Z) (s' : S) : Prop := {
  nm_ok : pm_ok s' root;
  nm_large : no_large s' root;
  nm_pte va' : plain_va va' → if decide (slot va' = slot va) then pte s' root va' = Some e else kept_or_new (pte s root va') (pte s' root va');
  nm_free : pf_refs s f = None;
  nm_used : pf_refs s' f = Some 1;
  nm_zero : pf_mem s' !! f = Some zeros;
  nm_frame : 0 ≤ f < 2 ^ 20;
  nm_foreign m : m = f ∨ foreign s root m → foreign s' root m;
  nm_refs m r : pf_refs s m = Some r → pf_refs s' m = Some r;
  nm_mem m : foreign s root m → pf_mem s' !! m = pf_mem s !! m;
}.

(** What a page that is mapped on demand looks like. *)
Definition demand_pte (f Bits : Z) : Z := MmBuildPte f (Z.lor Bits MM_MISC_IS_FROM_PMM).

Lemma demand_pte_spec f Bits : 0 ≤ f < 2 ^ 20 → MmIsPresentPte (demand_pte f Bits) = true ∧ MmIsFromPmmPte (demand_pte f Bits) = true ∧ MmGetPfnPte (demand_pte f Bits) = f.
Proof. intros Hf. unfold demand_pte. rewrite Z.lor_comm. apply (anon_frame Bits f Hf). Qed.

(** A fault on an entry that is there. *)
Lemma committed_page_spec s root va p Bits : pm_ok s root → no_large s root → plain_va va → node s root (path_of va) = Some p →
  (MmpHandleFaultCommittedPage (p, PML_IDX 1 va) Bits s = Ok (STATUS_REFAULT_SLEEP, s) ∧ pf_alloc s = Ok (PFN_INVALID, s)) ∨
  ∃ f s', MmpHandleFaultCommittedPage (p, PML_IDX 1 va) Bits s = Ok (STATUS_SUCCESS, s') ∧ newly_mapped s root va (demand_pte f Bits) f s' ∧
    ∃ s1, pf_alloc s = Ok (f, s1).
Proof.
  intros Hok Hl Hva Hp. unfold MmpHandleFaultCommittedPage.
  destruct (pf_alloc_spec s (po_frames s root Hok)) as [E|(q & s1 & Hall & _ & Hfr & Hf & Hu & Hz & Ho)].
  { left. rewrite E. cbn [mbind outcome_bind]. by rewrite Z.eqb_refl. }
  right. assert (q ≠ PFN_INVALID) as Hq by (intros ->; by apply frame_valid in Hfr).
  destruct (alloc_taken s root q s1 Hok Hall Hq) as (Hok1 & Hn1 & Hp1 & Htk & Hr1 & Hlg1).
  destruct (st_pte_wrote s1 root va (demand_pte q Bits) p Hok1 Hva) as (s' & Hs' & Hw); [rewrite Hn1; [done|by apply path_in_tree]|apply MmBuildPte_range|].
  exists q, s'. rewrite Hall. cbn [mbind outcome_bind fst snd]. rewrite (proj2 (Z.eqb_neq _ _)) by done. fold (demand_pte q Bits). rewrite Hs'. cbn [mbind outcome_bind]. split; [done|]. split; [|by exists s1].
  destruct Htk as [T1 T2 T3 T4]. pose proof (wrote_others _ _ _ _ _ Hw) as Hwo.
  assert (∀ m, foreign s root m → m ≠ q) as Hne by (intros m [[r Hm] _] ->; congruence).
  split; [apply (wr_ok _ _ _ _ _ Hw)|by apply (wr_large _ _ _ _ _ Hw), Hlg1| |exact Hf| | |exact T4| | |].
  - intros va' Hva'. rewrite (wr_pte _ _ _ _ _ Hw) by exact Hva'. destruct (decide _); [reflexivity|]. rewrite Hp1 by exact Hva'. destruct (pte s root va'); cbn; auto.
  - rewrite (wr_refs _ _ _ _ _ Hw). exact T2.
  - rewrite (wr_mem _ _ _ _ _ Hw); [done|apply T3].
  - intros m [->|Hm]; [by apply (others_foreign s1)|]. apply (others_foreign s1); [done|]. apply (foreign_same s); [done| |done]. rewrite Hr1 by (by apply Hne). apply Hm.
  - intros m r Hm. rewrite (wr_refs _ _ _ _ _ Hw), Hr1; [done|congruence].
  - intros m Hm. rewrite (wr_mem _ _ _ _ _ Hw); [apply Ho; by apply Hne|]. intros path Ht. rewrite Hn1 by done. by apply Hm.
Qed.

Lemma kept_newly_mapped s root s1 va e f s' : kept s root s1 → newly_mapped s1 root va e f s' → newly_mapped s root va e f s'.
Proof.
  intros Hk [A B C D E F G Hf I J]. split; [exact A|exact B| | |exact E|exact F|exact G| | |].
  - intros va' Hva'. specialize (C va' Hva'). destruct (decide _); [done|]. eapply kept_or_new_trans; [|exact C]. by apply kept_kept_or_new.
  - destruct (pf_refs s f) as [r|] eqn:Er; [|done]. apply (kp_refs _ _ _ Hk) in Er. congruence.
  - intros m [->|Hm]; [by apply Hf; left|]. apply Hf. right. by apply (kp_mem _ _ _ Hk).
  - intros m r Hm. by apply I, (kp_refs _ _ _ Hk).
  - intros m Hm. destruct (kp_mem _ _ _ Hk m Hm) as [Hm1 <-]. by apply J.
Qed.

(** Addresses of one page. *)
Lemma slot_user va va' : user_va va → user_va va' → slot va = slot va' → va / 4096 = va' / 4096.
Proof.
  unfold user_va. intros Hva Hva' E%slot_page. unfold page_no in E. rewrite !Z.mod_small in E; [done| |]; split; try (apply Z.div_pos; lia); apply Z.div_lt_upper_bound; lia.
Qed.

Lemma frame1_present_only e : frame1 (Some (present_only e)) = if MmIsPresentPte e then frame1 (Some e) else [].
Proof. unfold present_only. by destruct (MmIsPresentPte e). Qed.

(** The user half stays well formed when a page is mapped where none was. *)
Lemma um_new s root va Bits f s' : user_map s root → user_va va → newly_mapped s root va (demand_pte f Bits) f s' → user_map s' root.
Proof.
  intros Hu Hva Hn. destruct (demand_pte_spec f Bits (nm_frame _ _ _ _ _ _ Hn)) as (Hpr & Hpm & Hpf).
  assert (∀ va0 g, user_va va0 → g ∈ mapped_frame s' root va0 → (slot va0 = slot va ∧ g = f) ∨ (g ∈ mapped_frame s root va0 ∧ g ≠ f)) as Hm.
  { intros va0 g Hva0 Hg. pose proof (nm_pte _ _ _ _ _ _ Hn va0 (proj1 (user_plain va0 Hva0))) as Hp. unfold mapped_frame in *. destruct (decide _) as [E|E].
    - left. split; [done|]. rewrite Hp in Hg. cbn [fmap option_fmap option_map] in Hg. rewrite frame1_present_only, Hpr in Hg. cbn [frame1] in Hg. rewrite Hpm, Hpf in Hg.
      by apply list_elem_of_singleton in Hg.
    - right. rewrite (kept_or_new_frame _ _ Hp) in Hg. split; [done|]. intros ->. destruct (um_foreign s root Hu va0 f Hva0 Hg) as [[r Hr] _]. pose proof (nm_free _ _ _ _ _ _ Hn). congruence. }
  split; [apply (nm_ok _ _ _ _ _ _ Hn)|apply (nm_large _ _ _ _ _ _ Hn)| | |].
  - intros va0 e Hva0 He. pose proof (nm_pte _ _ _ _ _ _ Hn va0 (proj1 (user_plain va0 Hva0))) as Hp. destruct (decide _).
    + rewrite Hp in He. injection He as <-. unfold known. by rewrite Hpr.
    + destruct (kept_or_new_cases _ _ Hp) as [E|E]; rewrite E in He; [by apply (um_known s root Hu va0)|]. by injection He as <-.
  - intros va0 g Hva0 Hg. apply (nm_foreign _ _ _ _ _ _ Hn). destruct (Hm va0 g Hva0 Hg) as [[_ ->]|[Hg0 _]]; [by left|right]. by apply (um_foreign s root Hu va0).
  - intros va1 va2 g Hva1 Hva2 Hg1 Hg2. destruct (Hm va1 g Hva1 Hg1) as [[E1 ->]|[Hg1' Hne1]], (Hm va2 _ Hva2 Hg2) as [[E2 E]|[Hg2' Hne2]]; try congruence.
    by apply (um_once s root Hu va1 va2 g).
Qed.

(** The protection of an entry that is written to for the first time. *)
Definition upgraded (e : Z) : Z := MmSetPageBitsPte e (Z.lor (MmGetPageBitsPte e) (Z.lor MM_PROT_READ (Z.lor MM_PROT_WRITE MM_MISC_IS_FROM_PMM))).

Lemma get_page_bits_at e :
  Z.testbit (MmGetPageBitsPte e) 1 = Z.testbit e 1 ∧ Z.testbit (MmGetPageBitsPte e) 2 = negb (Z.testbit e 63) ∧
  Z.testbit (MmGetPageBitsPte e) 3 = Z.testbit e 2 ∧ Z.testbit (MmGetPageBitsPte e) 7 = Z.testbit e 9.
Proof.
  unfold MmGetPageBitsPte, MM_MISC_IS_FROM_PMM, MM_MISC_GLOBAL, MM_MISC_DISABLE_CACHE, MM_MISC_DIRTY, MM_MISC_ACCESSED, MM_PROT_USER, MM_PROT_WRITE. pte_bit.
  split_and!; rewrite !or_if_bit by lia; (destruct (Z.testbit e 63); cbn; rewrite ?andb_false_r, ?andb_true_r, ?orb_false_r; reflexivity).
Qed.

(** An entry as code sees it: what it allows, and the page. *)
Definition allows_write (e : Z) : bool := Z.testbit e 1.
Definition allows_user (e : Z) : bool := Z.testbit e 2.
Definition allows_exec (e : Z) : bool := negb (Z.testbit e 63).

Lemma upgraded_spec e : 0 ≤ e < 2 ^ 64 → 0 ≤ upgraded e < 2 ^ 64 ∧ MmGetPfnPte (upgraded e) = MmGetPfnPte e ∧ allows_write (upgraded e) = true ∧
  allows_user (upgraded e) = allows_user e ∧ allows_exec (upgraded e) = allows_exec e ∧ MmIsPresentPte (upgraded e) = MmIsPresentPte e ∧
  (MmIsPresentPte e = true → MmIsFromPmmPte (upgraded e) = true).
Proof.
  intros He. destruct (get_page_bits_at e) as (G1 & G2 & G3 & G7). unfold upgraded, allows_write, allows_user, allows_exec.
  set (b := Z.lor (MmGetPageBitsPte e) _).
  assert (Z.testbit b 1 = true ∧ Z.testbit b 2 = negb (Z.testbit e 63) ∧ Z.testbit b 3 = Z.testbit e 2 ∧ Z.testbit b 7 = true) as (B1 & B2 & B3 & B7).
  { unfold b, MM_PROT_READ, MM_PROT_WRITE, MM_MISC_IS_FROM_PMM. rewrite !Z.lor_spec, G1, G2, G3, G7. cbn. rewrite !orb_true_r, !orb_false_r. done. }
  clearbody b. split_and!.
  1-2: apply bits_range; intros j Hj; rewrite set_page_bits_bit by lia; repeat (rewrite (proj2 (Z.eqb_neq _ j)) by lia); rewrite !andb_false_r; cbn [orb];
    replace (Z.testbit e j) with false; [done|]; symmetry; apply Z.bits_above_log2; [lia|]; destruct (Z.eq_dec e 0) as [->|]; [cbn; lia|]; apply Z.log2_lt_pow2; [lia|];
    apply Z.lt_le_trans with (2 ^ 64); [lia|by apply Z.pow_le_mono_r].
  - apply Z.bits_inj'. intros j Hj. rewrite !get_pfn_bit by done. destruct (Z.ltb_spec j 32); [|done]. cbn [andb]. rewrite set_page_bits_bit by lia.
    destruct (Z.eqb_spec 63 (j + 12)); [lia|]. repeat (rewrite (proj2 (Z.eqb_neq _ (j + 12))) by lia). rewrite !andb_false_r. cbn [orb].
    rewrite page_bits_mask_bit by lia. by rewrite andb_true_r.
  - rewrite set_page_bits_bit by lia. rewrite B1. cbn. by rewrite !orb_true_r.
  - rewrite set_page_bits_bit by lia. rewrite B3. cbn. by rewrite !andb_false_r, !andb_true_r, orb_false_r.
  - rewrite set_page_bits_bit by lia. rewrite B2. cbn. rewrite !andb_false_r, !andb_true_r, orb_false_r. by rewrite !negb_involutive.
  - pte_bit. rewrite set_page_bits_bit by lia. cbn. rewrite !andb_false_r, andb_true_r. done.
  - intros Hp. unfold MmIsFromPmmPte. assert (MmIsPresentPte (MmSetPageBitsPte e b) = true) as ->.
    { revert Hp. pte_bit. rewrite set_page_bits_bit by lia. cbn. rewrite !andb_false_r, andb_true_r. done. }
    cbn [orb andb]. pte_bit. rewrite set_page_bits_bit by lia. rewrite B7. done.
Qed.

(** The user half stays well formed, with the same pages, when an entry allows
    writing. *)
Lemma um_upgraded s root va e s' : user_map s root → user_va va → pte s root va = Some e → MmIsPresentPte e = true → MmIsFromPmmPte e = true →
  0 ≤ e < 2 ^ 64 → wrote s root va (upgraded e) s' → user_map s' root ∧ less_present s root s'.
Proof.
  intros Hu Hva He Hpr Hpm Hrange Hw. destruct (upgraded_spec e Hrange) as (_ & Upfn & _ & _ & _ & Upr & Upm). specialize (Upm Hpr). rewrite Hpr in Upr.
  assert (∀ va0, user_va va0 → mapped_frame s' root va0 = mapped_frame s root va0) as Hm.
  { intros va0 Hva0. unfold mapped_frame. rewrite (wr_pte _ _ _ _ _ Hw) by (by apply user_plain). destruct (decide _) as [E|E]; [|done].
    rewrite (slot_pte s root _ _ E), He. cbn [fmap option_fmap option_map]. rewrite !frame1_present_only, Upr, Hpr. cbn [frame1]. by rewrite Upm, Hpm, Upfn. }
  split; [split|].
  - apply (wr_ok _ _ _ _ _ Hw).
  - apply (wr_large _ _ _ _ _ Hw), Hu.
  - intros va0 e0 Hva0 He0. rewrite (wr_pte _ _ _ _ _ Hw) in He0 by (by apply user_plain). destruct (decide _); [|by apply (um_known s root Hu va0)].
    injection He0 as <-. unfold known. by rewrite Upr.
  - intros va0 f Hva0 Hf. rewrite Hm in Hf by done. apply (others_foreign s); [by apply wrote_others in Hw|]. by apply (um_foreign s root Hu va0).
  - intros va1 va2 f H1 H2. rewrite !Hm by done. by apply (um_once s root Hu).
  - intros va0 Hva0 (e0 & He0 & Hp0). rewrite (wr_pte _ _ _ _ _ Hw) in He0 by (by apply user_plain). destruct (decide _) as [E|E]; [|by exists e0].
    exists e. split; [|done]. by rewrite (slot_pte s root _ _ E).
Qed.

Lemma node_has_page n va va' : node_ok n → va / 4096 = va' / 4096 → node_has n va → node_has n va'.
Proof.
  intros (_ & [k Hk] & _) E. unfold node_has, end_, PAGE_SIZE in *. intros [H1 H2]. rewrite Hk in *.
  pose proof (Z.div_mod va 4096). pose proof (Z.div_mod va' 4096). pose proof (Z.mod_pos_bound va 4096). pose proof (Z.mod_pos_bound va' 4096). nia.
Qed.

(** So does the address space of a descriptor that covers the page. *)
Lemma as_ok_new p s va v Bits f s' : as_ok p s → user_va va → v ∈ VadTree p → node_has (Node v) va →
  newly_mapped s (PageMap p) va (demand_pte f Bits) f s' → as_ok p s'.
Proof.
  intros Hok Hva Hv Hn Hm. destruct Hok as [A1 A2 A3 A4 A5 A6]. split; try done; [by apply (um_new s _ va Bits f)|].
  intros va' Hva' (e & He & Hpr). pose proof (nm_pte _ _ _ _ _ _ Hm va' (proj1 (user_plain va' Hva'))) as Hp. destruct (decide _) as [E|E].
  - exists v. split; [done|]. apply (node_has_page _ va); [|by apply slot_user|done]. by apply (vads_ok_in _ _ A1) in Hv as [[? _] _].
  - apply A6; [done|]. apply (kept_or_new_present s (PageMap p) s' va' Hp). by exists e.
Qed.

End maps.

(** ** What a fault in the user half comes to *)

Section answers.
Context {S : Type} `{PageFrameLaws S}.

Definition covering (p : aspace) (va : Z) (v : MMVAD) : Prop := v ∈ VadTree p ∧ node_has (Node v) va.

(** A page without an entry of its own is as its descriptor says; an entry that
    was decommitted counts as committed, see [Pte.MmBuildAbsentPte_swapped]. *)
Definition demandable (v : MMVAD) (o : option Z) : bool :=
  match o with None => Committed v | Some e => (MmIsEqualPte e MmBuildZeroPte && Committed v) || MmIsCommittedPte e end.

Definition zero_entry (o : option Z) : bool := match o with None => true | Some e => MmIsEqualPte e MmBuildZeroPte end.

(** What a page is first mapped with: never writable. *)
Definition first_bits (Prot : Z) : Z := Z.lor (Z.ldiff (MmGetPteBitsFromProtection Prot) MM_PROT_WRITE) MM_PROT_USER.

(** The answers to a fault on a page of the user half that is not present. *)
Inductive page_answer (p : aspace) (s : S) (va : Z) : BSTATUS → aspace → S → Prop :=
  | pa_unreserved : ¬ reserved (VadTree p) va → page_answer p s va STATUS_ACCESS_VIOLATION p s
  | pa_uncommitted v : covering p va v → zero_entry (pte s (PageMap p) va) = true → Committed v = false →
      page_answer p s va STATUS_ACCESS_VIOLATION p s
  | pa_stuck v : covering p va v → zero_entry (pte s (PageMap p) va) = false → demandable v (pte s (PageMap p) va) = false →
      page_answer p s va STATUS_ACCESS_VIOLATION (MiLockVadList p) s
  | pa_no_memory v s' : covering p va v → demandable v (pte s (PageMap p) va) = true → kept s (PageMap p) s' →
      (node s (PageMap p) (path_of va) = None ∧ node s' (PageMap p) (path_of va) = None) ∨ pf_alloc s' = Ok (PFN_INVALID, s') →
      (is_Some (pte s (PageMap p) va) → s' = s) →
      page_answer p s va STATUS_REFAULT_SLEEP p s'
  | pa_mapped v f s' : covering p va v → demandable v (pte s (PageMap p) va) = true →
      newly_mapped s (PageMap p) va (demand_pte f (first_bits (Protection v))) f s' → (is_Some (pte s (PageMap p) va) → ∃ s1, pf_alloc s = Ok (f, s1)) →
      page_answer p s va STATUS_SUCCESS p s'.

(** The entry of the page, if it is present. *)
Definition present_entry (s : S) (root va : Z) : option Z :=
  match pte s root va with Some e => if MmIsPresentPte e then Some e else None | None => None end.

(** The answers to a fault at a user address, by code that runs in user mode or
    not. *)
Definition fault_answer (p : aspace) (s : S) (va : Z) (user : bool) (Mode : Z) (St : BSTATUS) (p' : aspace) (s' : S) : Prop :=
  match present_entry s (PageMap p) va with
  | Some e =>
      if (negb (allows_user e) && user) || (negb (allows_exec e) && on Mode MM_FAULT_INSNFETCH) then St = STATUS_ACCESS_VIOLATION ∧ p' = p ∧ s' = s
      else if negb (on Mode MM_FAULT_WRITE) || allows_write e then St = STATUS_SUCCESS ∧ p' = p ∧ s' = s
      else ∃ v, covering p va v ∧ p' = p ∧
        if on (Protection v) PAGE_WRITE then St = STATUS_SUCCESS ∧ wrote s (PageMap p) va (upgraded e) s'
        else St = STATUS_ACCESS_VIOLATION ∧ s' = s
  | None =>
      ∃ St1, page_answer p s va St1 p' s' ∧
        St = if decide (St1 = STATUS_REFAULT_SLEEP) then STATUS_REFAULT
             else if negb (FAILED St1) && on Mode MM_FAULT_WRITE then STATUS_REFAULT else St1
  end.

(** The memory that is committed at the address, if any, is anonymous and its
    pages come from the physical memory manager. *)
Record anonymous (p : aspace) (s : S) (va : Z) : Prop := {
  an_vad v : covering p va v → MappedObject v = None;
  an_page e : pte s (PageMap p) va = Some e → MmIsPresentPte e = true → MmIsFromPmmPte e = true;
}.

Lemma user_low va : user_va va → (MM_KERNEL_SPACE_BASE <=? va) = false ∧ in_pool va = false.
Proof.
  unfold user_va. intros Hva. split; [apply Z.leb_gt; unfold MM_KERNEL_SPACE_BASE; lia|]. unfold in_pool. rewrite (proj2 (Z.leb_gt _ _)); [done|].
  change MiGetTopOfPoolManagedArea with 0xFFFFA08000000000. lia.
Qed.

Lemma unlocks p : 0 ≤ VadLocks p → 0 ≤ SpaceLocks p →
  MmUnlockSpace (MmLockSpaceExclusive p) = Ok p ∧ (∀ q, MmLockSpaceExclusive p = q → MmUnlockVadList (MiLockVadList q) = Ok q) ∧
  MmUnlockSpace (MiLockVadList (MmLockSpaceExclusive p)) = Ok (MiLockVadList p).
Proof.
  intros Hv Hs. split; [|split].
  - rewrite (unlock_space p) by done. by destruct p.
  - intros q <-. by apply unlock_vads.
  - by rewrite (unlock_space p).
Qed.

Section ops.
Context {O : Type} `{Mappables O S}.

Lemma normal_fault_spec p (o : O) s va : as_ok p s → 0 ≤ VadLocks p → 0 ≤ SpaceLocks p → user_va va → anonymous p s va →
  ∃ St p' s', MiNormalFault va (match node s (PageMap p) (path_of va) with Some t => Some (t, PML_IDX 1 va) | None => None end) (MmLockSpaceExclusive p) o s = Ok (St, p', o, s') ∧
    page_answer p s va St p' s'.
Proof.
  intros Hok Hvl Hsl Hva Han. destruct (unlocks p Hvl Hsl) as (Us & Uv & Uvs). specialize (Uv _ eq_refl).
  pose proof (um_ok _ _ (as_map _ _ Hok)) as Hpm. pose proof (um_large _ _ (as_map _ _ Hok)) as Hlg. pose proof (proj1 (user_plain va Hva)) as Hpl.
  destruct (user_low va Hva) as [Hk Hpool]. unfold MiNormalFault.
  change (VadTree (MiLockVadList (MmLockSpaceExclusive p))) with (VadTree p). change (PageMap (MiLockVadList (MmLockSpaceExclusive p))) with (PageMap p).
  destruct (lookup_vad_spec (VadTree p) va (as_vads _ _ Hok)) as [(x & v & y & Ex & Hin & ->)|[Hno ->]].
  2:{ rewrite Uv. cbn [mbind outcome_bind]. rewrite Us. cbn [mbind outcome_bind]. rewrite Hpool. eexists _, _, _. split; [reflexivity|]. by apply pa_unreserved. }
  assert (covering p va v) as Hc by (split; [rewrite Ex; set_solver|done]). pose proof (an_vad _ _ _ Han v Hc) as Hobj.
  assert (∀ s1 t, kept s (PageMap p) s1 → (is_Some (pte s (PageMap p) va) → s1 = s) → demandable v (pte s (PageMap p) va) = true → node s1 (PageMap p) (path_of va) = Some t →
    ∃ St p' s', (p0 ← MmUnlockVadList (MiLockVadList (MmLockSpaceExclusive p));
        '(Status, s2) ← MmpHandleFaultCommittedPage (t, PML_IDX 1 va) (first_bits (Protection v)) s1;
        p1 ← MmUnlockSpace p0; Ok (Status, p1, o, s2)) = Ok (St, p', o, s') ∧ page_answer p s va St p' s') as Hgo.
  { intros s1 t Hkp Hsame Hd Ht. rewrite Uv. cbn [mbind outcome_bind].
    destruct (committed_page_spec s1 (PageMap p) va t (first_bits (Protection v)) (kp_ok _ _ _ Hkp) (kp_large _ _ _ Hkp Hlg) Hpl Ht) as [[-> Ha]|(f & s' & -> & Hn & Hal)];
      cbn [mbind outcome_bind]; rewrite Us; cbn [mbind outcome_bind]; eexists _, _, _; (split; [reflexivity|]).
    - apply pa_no_memory with v; auto.
    - apply pa_mapped with v f; [done|done|by apply kept_newly_mapped with s1|]. intros Hs. by rewrite <-(Hsame Hs). }
  unfold first_bits in Hgo. destruct (node s (PageMap p) (path_of va)) as [t|] eqn:Ht.
  - destruct (pte_location s (PageMap p) va t Hpm Hpl Ht) as [_ Hld]. cbn [fst snd]. rewrite Hld. cbn [mbind outcome_bind].
    pose proof (pte_node s (PageMap p) va t Ht) as He. set (e := word_at s t (PML_IDX 1 va)) in *. rewrite He in *.
    destruct (MmIsEqualPte e MmBuildZeroPte && negb (Committed v)) eqn:Hz.
    { apply andb_true_iff in Hz as [Hz1 Hz2]. rewrite Uv. cbn [mbind outcome_bind]. rewrite Us. cbn [mbind outcome_bind]. eexists _, _, _. split; [reflexivity|].
      apply pa_uncommitted with v; [done|by rewrite He|by apply negb_true_iff in Hz2]. }
    cbn [mbind outcome_bind fst snd]. rewrite Hld. cbn [mbind outcome_bind]. destruct (negb (MmIsEqualPte e MmBuildZeroPte || MmIsCommittedPte e)) eqn:Hst.
    { apply negb_true_iff, orb_false_iff in Hst as [Hs1 Hs2]. rewrite Uvs. cbn [mbind outcome_bind]. eexists _, _, _. split; [reflexivity|].
      apply pa_stuck with v; [done|by rewrite He|]. rewrite He. unfold demandable. by rewrite Hs1, Hs2. }
    rewrite Hobj. rewrite Hk. cbn [negb]. apply Hgo; [by apply kept_refl|done| |done]. unfold demandable.
    apply negb_false_iff in Hst. destruct (MmIsEqualPte e MmBuildZeroPte), (Committed v); done.
  - cbn [mbind outcome_bind]. unfold pte in *. rewrite Ht in *. destruct (Committed v) eqn:Hcm; cbn [negb andb].
    2:{ rewrite Uv. cbn [mbind outcome_bind]. rewrite Us. cbn [mbind outcome_bind]. eexists _, _, _. split; [reflexivity|].
        apply pa_uncommitted with v; [done|unfold pte; by rewrite Ht|done]. }
    destruct (location_made s (PageMap p) va Hpm Hlg Hpl) as (r & s1 & Hr & Hkp & Hm). rewrite Hr. cbn [mbind outcome_bind]. destruct r as [[t j]|].
    + cbn [fst snd] in Hm. destruct Hm as [-> Ht1]. destruct (pte_location s1 (PageMap p) va t (kp_ok _ _ _ Hkp) Hpl Ht1) as [_ Hld]. cbn [fst snd]. rewrite Hld.
      cbn [mbind outcome_bind orb negb]. rewrite Hobj, Hk. cbn [negb]. apply Hgo; [done|by intros [? [=]]|unfold demandable; by rewrite Hcm|done].
    + rewrite Uv. cbn [mbind outcome_bind]. rewrite Us. cbn [mbind outcome_bind]. eexists _, _, _. split; [reflexivity|].
      apply pa_no_memory with v; [done|unfold demandable, pte; by rewrite Ht|done| |unfold pte; rewrite Ht; by intros [? [=]]]. left. split; [done|apply Hm].
Qed.

Lemma page_answer_ok p s va St p' s' : as_ok p s → user_va va → page_answer p s va St p' s' → as_ok p' s'.
Proof.
  intros Hok Hva [ | | |v s1 Hc Hd Hk _ _|v f s1 [Hv Hn] Hd Hm _]; [done|done| | |].
  - destruct Hok as [A1 A2 A3 A4 A5 A6]. by split.
  - apply (as_ok_pages p s); [done|apply (um_kept s); [apply Hok|done]|by apply kept_less_present].
  - by apply (as_ok_new p s va v (first_bits (Protection v)) f).
Qed.

Lemma bits_of e : on (Z.lnot (MmGetPageBitsPte e)) MM_PROT_USER = negb (allows_user e) ∧ on (Z.lnot (MmGetPageBitsPte e)) MM_PROT_EXEC = negb (allows_exec e) ∧
  on (MmGetPageBitsPte e) MM_PROT_WRITE = allows_write e.
Proof.
  destruct (get_page_bits_at e) as (G1 & G2 & G3 & _). unfold MM_PROT_USER, MM_PROT_EXEC, MM_PROT_WRITE, allows_user, allows_exec, allows_write.
  rewrite !on_pow2 by lia. rewrite !Z.lnot_spec by lia. by rewrite G1, G2, G3.
Qed.

(** A write to a page that is present. *)
Lemma write_fault_spec p (o : O) s va t e : as_ok p s → 0 ≤ VadLocks p → 0 ≤ SpaceLocks p → user_va va → anonymous p s va →
  node s (PageMap p) (path_of va) = Some t → pte s (PageMap p) va = Some e → MmIsPresentPte e = true →
  ∃ St s', MiWriteFault va (t, PML_IDX 1 va) (MmLockSpaceExclusive p) o s = Ok (St, MmLockSpaceExclusive p, o, s') ∧ as_ok p s' ∧
    if allows_write e then St = STATUS_SUCCESS ∧ s' = s
    else ∃ v, covering p va v ∧ if on (Protection v) PAGE_WRITE then St = STATUS_SUCCESS ∧ wrote s (PageMap p) va (upgraded e) s'
      else St = STATUS_ACCESS_VIOLATION ∧ s' = s.
Proof.
  intros Hok Hvl Hsl Hva Han Ht He Hpr. destruct (unlocks p Hvl Hsl) as (_ & Uv & _). specialize (Uv _ eq_refl).
  pose proof (um_ok _ _ (as_map _ _ Hok)) as Hpm. pose proof (proj1 (user_plain va Hva)) as Hpl.
  destruct (pte_location s (PageMap p) va t Hpm Hpl Ht) as [_ Hld]. pose proof (pte_node s (PageMap p) va t Ht) as He'. rewrite He in He'. injection He' as E. rewrite <-E in Hld.
  assert (0 ≤ e < 2 ^ 64) as Hrange.
  { rewrite E. apply word_at_range; [|apply digit_PML]. apply (po_pages _ _ Hpm (path_of va)); [by apply path_in_tree|done]. }
  unfold MiWriteFault. cbn [fst snd]. rewrite Hld. cbn [mbind outcome_bind]. destruct (bits_of e) as (_ & _ & ->).
  destruct (allows_write e); [by exists STATUS_SUCCESS, s|].
  change (VadTree (MiLockVadList (MmLockSpaceExclusive p))) with (VadTree p).
  destruct (lookup_vad_spec (VadTree p) va (as_vads _ _ Hok)) as [(x & v & y & Ex & Hin & ->)|[Hno _]].
  2:{ destruct Hno. apply (as_present _ _ Hok); [done|]. by exists e. }
  assert (covering p va v) as Hc by (split; [rewrite Ex; set_solver|done]). rewrite (an_vad _ _ _ Han v Hc).
  assert (on (Z.lnot (Protection v)) PAGE_WRITE = negb (on (Protection v) PAGE_WRITE)) as ->.
  { change PAGE_WRITE with (2 ^ 1). rewrite !on_pow2 by lia. by apply Z.lnot_spec. }
  destruct (on (Protection v) PAGE_WRITE) eqn:Hw; cbn [negb].
  - fold (upgraded e). destruct (upgraded_spec e Hrange) as (Ur & _). destruct (st_pte_wrote s (PageMap p) va (upgraded e) t Hpm Hpl Ht Ur) as (s' & Hs & Hwr).
    rewrite Hs. cbn [mbind outcome_bind]. rewrite Uv. cbn [mbind outcome_bind]. exists STATUS_SUCCESS, s'. split; [done|]. split; [|exists v; by rewrite Hw].
    destruct (um_upgraded s (PageMap p) va e s' (as_map _ _ Hok) Hva He Hpr (an_page _ _ _ Han e He Hpr) Hrange Hwr) as [Hu Hl]. by apply (as_ok_pages p s).
  - rewrite Uv. cbn [mbind outcome_bind]. exists STATUS_ACCESS_VIOLATION, s. split; [done|]. split; [done|]. exists v. by rewrite Hw.
Qed.

Lemma page_fault_spec p (o : O) s Waited PC va Mode : as_ok p s → 0 ≤ VadLocks p → 0 ≤ SpaceLocks p → user_va va → anonymous p s va → FAILED Waited = false →
  ∃ St p' s', MmPageFault Waited PC va Mode p o s = Ok (St, p', o, s') ∧ as_ok p' s' ∧ fault_answer p s va (PC <? MM_KERNEL_SPACE_BASE) Mode St p' s'.
Proof.
  intros Hok Hvl Hsl Hva Han Hwt. destruct (unlocks p Hvl Hsl) as (Us & _).
  pose proof (um_ok _ _ (as_map _ _ Hok)) as Hpm. pose proof (um_large _ _ (as_map _ _ Hok)) as Hlg. pose proof (proj1 (user_plain va Hva)) as Hpl.
  unfold MmPageFault. rewrite (proj1 (user_low va Hva)), andb_false_r. change (PageMap (MmLockSpaceExclusive p)) with (PageMap p).
  pose proof (normal_fault_spec p o s va Hok Hvl Hsl Hva Han) as Hnf. unfold fault_answer, present_entry.
  assert (∀ St1 p1 s1, page_answer p s va St1 p1 s1 →
    ∃ St p' s', Ok (if decide ((if negb (FAILED St1) && on Mode MM_FAULT_WRITE then STATUS_REFAULT else St1) = STATUS_REFAULT_SLEEP) then (if FAILED Waited then Waited else STATUS_REFAULT)
       else (if negb (FAILED St1) && on Mode MM_FAULT_WRITE then STATUS_REFAULT else St1), p1, o, s1) = Ok (St, p', o, s') ∧ as_ok p' s' ∧
      ∃ St1, page_answer p s va St1 p' s' ∧ St = if decide (St1 = STATUS_REFAULT_SLEEP) then STATUS_REFAULT
             else if negb (FAILED St1) && on Mode MM_FAULT_WRITE then STATUS_REFAULT else St1) as Hgo.
  { intros St1 p1 s1 Ha. eexists _, p1, s1. split; [reflexivity|]. split; [by apply (page_answer_ok p s va St1)|]. exists St1. split; [done|]. rewrite Hwt.
    destruct Ha; cbn; destruct (on Mode MM_FAULT_WRITE); done. }
  destruct (node s (PageMap p) (path_of va)) as [t|] eqn:Ht.
  - rewrite (location_there s (PageMap p) va t Hpm Hlg Hpl Ht). cbn [mbind outcome_bind fst snd]. destruct (pte_location s (PageMap p) va t Hpm Hpl Ht) as [_ ->]. cbn [mbind outcome_bind].
    pose proof (pte_node s (PageMap p) va t Ht) as He. rewrite He. set (e := word_at s t (PML_IDX 1 va)) in *. destruct (MmIsPresentPte e) eqn:Hpr.
    2:{ destruct Hnf as (St1 & p1 & s1 & -> & Ha). cbn [mbind outcome_bind]. by apply Hgo. }
    destruct (bits_of e) as (-> & -> & _). destruct (negb (allows_user e) && (PC <? MM_KERNEL_SPACE_BASE)) eqn:Hr1; cbn [orb].
    { rewrite Us. cbn [mbind outcome_bind]. by eexists _, p, s. }
    destruct (negb (allows_exec e) && on Mode MM_FAULT_INSNFETCH) eqn:Hr2.
    { rewrite Us. cbn [mbind outcome_bind]. by eexists _, p, s. }
    destruct (on Mode MM_FAULT_WRITE) eqn:Hwm; cbn [negb orb]; [|rewrite Us; cbn [mbind outcome_bind]; by eexists _, p, s].
    destruct (write_fault_spec p o s va t e Hok Hvl Hsl Hva Han Ht He Hpr) as (St & s' & -> & Hok' & Ha). cbn [mbind outcome_bind]. rewrite Us. cbn [mbind outcome_bind].
    eexists _, p, s'. split; [reflexivity|]. split; [done|]. destruct (allows_write e).
    + by destruct Ha as [-> ->].
    + destruct Ha as (v & Hc & Ha). exists v. split; [done|]. split; [done|]. destruct (on (Protection v) PAGE_WRITE); by destruct Ha as [-> Ha].
  - rewrite (location_missing s (PageMap p) va Hpm Hlg Hpl Ht). cbn [mbind outcome_bind]. unfold pte. rewrite Ht.
    destruct Hnf as (St1 & p1 & s1 & -> & Ha). cbn [mbind outcome_bind]. by apply Hgo.
Qed.


Lemma covering_unique p va v w : vads_ok (VadTree p) → covering p va v → covering p va w → v = w.
Proof.
  intros Ht [Hv Hva] [Hw Hwa]. apply list_elem_of_split in Hv as (x & y & E). rewrite E in Hw, Ht.
  apply vads_ok_split in Ht as (_ & _ & Hx & Hy). unfold node_has in *. apply elem_of_app in Hw as [Hw|[->|Hw]%elem_of_cons]; [|done|].
  - apply Hx in Hw. lia.
  - apply Hy in Hw. lia.
Qed.

Lemma first_bits_at f Prot : allows_write (demand_pte f (first_bits Prot)) = false ∧ allows_user (demand_pte f (first_bits Prot)) = true.
Proof.
  unfold allows_write, allows_user, demand_pte. destruct (build_pte_at f (Z.lor (first_bits Prot) MM_MISC_IS_FROM_PMM)) as (_ & -> & -> & _). unfold first_bits.
  rewrite !Z.lor_spec, Z.ldiff_spec. cbn. by rewrite !andb_false_r, !orb_true_r.
Qed.

(** A read of a page that is committed maps it, or there is no memory for it. *)
Lemma first_fault p (o : O) s Waited PC va Mode v : as_ok p s → 0 ≤ VadLocks p → 0 ≤ SpaceLocks p → user_va va → FAILED Waited = false →
  covering p va v → MappedObject v = None → is_Some (pte s (PageMap p) va) → demandable v (pte s (PageMap p) va) = true → present_entry s (PageMap p) va = None →
  (pf_alloc s = Ok (PFN_INVALID, s) ∧ MmPageFault Waited PC va Mode p o s = Ok (STATUS_REFAULT, p, o, s)) ∨
  pf_alloc s ≠ Ok (PFN_INVALID, s) ∧ ∃ f s1, MmPageFault Waited PC va Mode p o s = Ok (if on Mode MM_FAULT_WRITE then STATUS_REFAULT else STATUS_SUCCESS, p, o, s1) ∧ as_ok p s1 ∧
    newly_mapped s (PageMap p) va (demand_pte f (first_bits (Protection v))) f s1.
Proof.
  intros Hok Hvl Hsl Hva Hwt Hc Hobj Hsome Hd Hne.
  assert (anonymous p s va) as Han.
  { split; [intros w Hw; by rewrite (covering_unique p va w v (as_vads _ _ Hok) Hw Hc)|]. intros e He Hpr. unfold present_entry in Hne. by rewrite He, Hpr in Hne. }
  destruct (page_fault_spec p o s Waited PC va Mode Hok Hvl Hsl Hva Han Hwt) as (St & p' & s' & -> & Hok' & Ha). unfold fault_answer in Ha. rewrite Hne in Ha.
  destruct Ha as (St1 & Ha & ->). destruct Ha as [Hno|w Hw Hz Hcm|w Hw Hz Hnd|w s' Hw _ Hk Hm Hsm|w f s' Hw _ Hn Hal].
  - destruct Hno. by exists v; destruct Hc.
  - exfalso. rewrite (covering_unique p va w v (as_vads _ _ Hok) Hw Hc) in Hcm. destruct Hsome as [e He]. rewrite He in *. cbn in Hz, Hd. apply Z.eqb_eq in Hz as ->. by rewrite Hcm in Hd.
  - exfalso. rewrite (covering_unique p va w v (as_vads _ _ Hok) Hw Hc) in Hnd. congruence.
  - rewrite (Hsm Hsome) in *. left. split; [|done]. destruct Hm as [[Hm _]|Hm]; [|done]. destruct Hsome as [e He]. unfold pte in He. by rewrite Hm in He.
  - rewrite (covering_unique p va w v (as_vads _ _ Hok) Hw Hc) in *. destruct (Hal Hsome) as [s1 Hs1]. right. split.
    2:{ exists f, s'. split; [|done]. destruct (on Mode MM_FAULT_WRITE); done. }
    intros E. rewrite E in Hs1. injection Hs1 as <- _. pose proof (nm_frame _ _ _ _ _ _ Hn). unfold PFN_INVALID in *. lia.
Qed.

(** One more turn of the loop. *)
Lemma handle_fault_again n Waited PC va Mode p (o : O) s p' o' s' : MmPageFault Waited PC va Mode p o s = Ok (STATUS_REFAULT, p', o', s') →
  handle_fault (Datatypes.S n) Waited PC va Mode p o s = handle_fault n Waited PC va Mode p' o' s'.
Proof. intros E. cbn [handle_fault]. rewrite E. done. Qed.

Lemma handle_fault_done n Waited PC va Mode p (o : O) s St p' o' s' : MmPageFault Waited PC va Mode p o s = Ok (St, p', o', s') → St ≠ STATUS_REFAULT →
  handle_fault (Datatypes.S n) Waited PC va Mode p o s = Ok (St, p', o', s').
Proof. intros E Hn. cbn [handle_fault]. rewrite E. cbn [mbind outcome_bind]. by rewrite decide_False. Qed.

Lemma write_resolved p (o : O) s Waited PC va Mode v : as_ok p s → 0 ≤ VadLocks p → 0 ≤ SpaceLocks p → user_va va → FAILED Waited = false →
  on Mode MM_FAULT_WRITE = true → on Mode MM_FAULT_INSNFETCH = false → covering p va v → MappedObject v = None → Committed v = true →
  on (Protection v) PAGE_WRITE = true → pte s (PageMap p) va = Some 0 →
  (pf_alloc s = Ok (PFN_INVALID, s) ∧ ∀ fuel, handle_fault fuel Waited PC va Mode p o s = OutOfFuel) ∨
  pf_alloc s ≠ Ok (PFN_INVALID, s) ∧ ∃ f e s', (∀ fuel, handle_fault (Datatypes.S (Datatypes.S fuel)) Waited PC va Mode p o s = Ok (STATUS_SUCCESS, p, o, s')) ∧ as_ok p s' ∧
    pte s' (PageMap p) va = Some e ∧ MmIsPresentPte e = true ∧ allows_write e = true ∧ allows_user e = true ∧ MmGetPfnPte e = f ∧
    pf_refs s f = None ∧ pf_refs s' f = Some 1 ∧ pf_mem s' !! f = Some zeros ∧
    ∀ va', plain_va va' → slot va' ≠ slot va → kept_or_new (pte s (PageMap p) va') (pte s' (PageMap p) va').
Proof.
  intros Hok Hvl Hsl Hva Hwt Hmw Hmx Hc Hobj Hcm Hpw Hz.
  destruct (first_fault p o s Waited PC va Mode v Hok Hvl Hsl Hva Hwt Hc Hobj) as [[Ha E]|(Ha & f & s1 & E & Hok1 & Hn)];
    [by eexists|rewrite Hz; cbn; by rewrite Hcm|unfold present_entry; by rewrite Hz| |]; [left|right]; (split; [done|]).
  { intros fuel. induction fuel as [|fuel IH]; [done|]. by rewrite (handle_fault_again _ _ _ _ _ _ _ _ _ _ _ E). }
  rewrite Hmw in E. set (e := demand_pte f (first_bits (Protection v))) in *. pose proof (nm_frame _ _ _ _ _ _ Hn) as Hf.
  destruct (demand_pte_spec f (first_bits (Protection v)) Hf) as (Hpr & Hpm & Hpf). destruct (first_bits_at f (Protection v)) as [Hw Hu]. fold e in Hpr, Hpm, Hpf, Hw, Hu.
  pose proof (proj1 (user_plain va Hva)) as Hpl. pose proof (nm_pte _ _ _ _ _ _ Hn va Hpl) as He. rewrite decide_True in He by done.
  assert (anonymous p s1 va) as Han.
  { split; [intros w Hw'; by rewrite (covering_unique p va w v (as_vads _ _ Hok) Hw' Hc)|]. intros e' He' _. rewrite He in He'. by injection He' as <-. }
  destruct (page_fault_spec p o s1 Waited PC va Mode Hok1 Hvl Hsl Hva Han Hwt) as (St & p' & s' & E2 & Hok' & Hans). unfold fault_answer, present_entry in Hans.
  rewrite He, Hpr, Hu, Hw, Hmw, Hmx, andb_false_r in Hans. cbn [negb andb orb] in Hans. destruct Hans as (w & Hcw & -> & Hans).
  rewrite (covering_unique p va w v (as_vads _ _ Hok) Hcw Hc), Hpw in Hans. destruct Hans as [-> Hwr].
  assert (0 ≤ e < 2 ^ 64) as Hrange by apply MmBuildPte_range. destruct (upgraded_spec e Hrange) as (_ & Upfn & Uw & Uu & _ & Upr & _).
  exists f, (upgraded e), s'. split.
  { intros fuel. rewrite (handle_fault_again _ _ _ _ _ _ _ _ _ _ _ E). by apply handle_fault_done. }
  split; [done|]. split; [by rewrite (wr_pte _ _ _ _ _ Hwr), decide_True by done|]. rewrite Upr, Uw, Uu, Upfn. split_and!; try done.
  - apply (nm_free _ _ _ _ _ _ Hn).
  - rewrite (wr_refs _ _ _ _ _ Hwr). apply (nm_used _ _ _ _ _ _ Hn).
  - rewrite (wr_mem _ _ _ _ _ Hwr); [apply (nm_zero _ _ _ _ _ _ Hn)|]. apply (nm_foreign _ _ _ _ _ _ Hn). by left.
  - intros va' Hva' Hne. rewrite (wr_pte _ _ _ _ _ Hwr), decide_False by done. pose proof (nm_pte _ _ _ _ _ _ Hn va' Hva') as Hk. by rewrite decide_False in Hk.
Qed.

End ops.
End answers.

(** ** Committing, decommitting and touching *)

Section touch.
Context {S O : Type} `{PageFrameLaws S} `{Mappables O S}.

(** C30: a fault at a user address, in anonymous memory, returns with the address
    space well formed.  A page that is there is upgraded, once, if it is written
    to and its descriptor allows that, and nothing else changes; a page that is
    not there is mapped to a frame that was free, filled with zeros and not
    writable, if it is committed; everything else is an access violation, or no
    memory, after which the fault is to be handled again. *)
Theorem MmPageFault_correct p (o : O) s Waited FaultPC va Mode : as_ok p s → 0 ≤ VadLocks p → 0 ≤ SpaceLocks p → user_va va → anonymous p s va →
  FAILED Waited = false →
  ∃ St p' s', MmPageFault Waited FaultPC va Mode p o s = Ok (St, p', o, s') ∧ as_ok p' s' ∧
    fault_answer p s va (FaultPC <? MM_KERNEL_SPACE_BASE) Mode St p' s'.
Proof. apply page_fault_spec. Qed.

(** C31: a write to a page of writable, anonymous memory, whose descriptor is
    committed, and whose table is there with a zero entry for the page, is
    resolved in two turns of the loop: the page is then there, is writable, is a
    frame of its own that is all zeros, and no other entry in use has changed.
    When there is no memory the loop goes on for ever.  (Pages that were
    committed by themselves are another matter: [committed_memory_unusable].) *)
Theorem write_fault_resolved p (o : O) s Waited FaultPC va Mode v : as_ok p s → 0 ≤ VadLocks p → 0 ≤ SpaceLocks p → user_va va → FAILED Waited = false →
  on Mode MM_FAULT_WRITE = true → on Mode MM_FAULT_INSNFETCH = false → covering p va v → MappedObject v = None → Committed v = true →
  on (Protection v) PAGE_WRITE = true → pte s (PageMap p) va = Some 0 →
  (pf_alloc s = Ok (PFN_INVALID, s) ∧ ∀ fuel, handle_fault fuel Waited FaultPC va Mode p o s = OutOfFuel) ∨
  pf_alloc s ≠ Ok (PFN_INVALID, s) ∧ ∃ f e s',
    (∀ fuel, (2 ≤ fuel)%nat → handle_fault fuel Waited FaultPC va Mode p o s = Ok (STATUS_SUCCESS, p, o, s')) ∧ as_ok p s' ∧
    pte s' (PageMap p) va = Some e ∧ MmIsPresentPte e = true ∧ allows_write e = true ∧ allows_user e = true ∧ MmGetPfnPte e = f ∧
    pf_refs s f = None ∧ pf_refs s' f = Some 1 ∧ pf_mem s' !! f = Some zeros ∧
    ∀ va', plain_va va' → slot va' ≠ slot va → kept_or_new (pte s (PageMap p) va') (pte s' (PageMap p) va').
Proof.
  intros Hok Hvl Hsl Hva Hwt Hmw Hmx Hc Hobj Hcm Hpw Hz.
  destruct (write_resolved p o s Waited FaultPC va Mode v Hok Hvl Hsl Hva Hwt Hmw Hmx Hc Hobj Hcm Hpw Hz) as [Ha|(Ha & f & e & s' & Hf & Hr)]; [by left|right].
  split; [done|]. exists f, e, s'. split; [|done]. intros fuel Hfuel. destruct fuel as [|[|fuel]]; [lia|lia|]. apply Hf.
Qed.

(** C38: memory that was committed by itself, not with its descriptor, cannot be
    touched: every access is an access violation, and the mutex of the
    descriptors is still held after it. *)
Theorem committed_memory_unusable p (o : O) s Waited FaultPC va Mode Start SizePages Prot s1 : as_ok p s → 0 ≤ VadLocks p → 0 ≤ SpaceLocks p →
  0 ≤ Start < 2 ^ 64 → (PAGE_SIZE | Start) → 0 ≤ SizePages → SizePages * 4096 < 2 ^ 64 → FAILED Waited = false →
  MmCommitVirtualMemory Start SizePages Prot p s = Ok (STATUS_SUCCESS, p, s1) → Start ≤ va < Start + SizePages * 4096 →
  (∀ v, covering p va v → MappedObject v = None) →
  MmPageFault Waited FaultPC va Mode p o s1 = Ok (STATUS_ACCESS_VIOLATION, MiLockVadList p, o, s1).
Proof.
  intros Hok Hvl Hsl HS Hal Hn0 Hn Hwt Hcom Hin Hobj.
  destruct (commit_memory_spec p s Start SizePages Prot Hok Hvl Hsl HS Hal Hn0 Hn) as (St & s' & E & Hok1 & Ha). rewrite Hcom in E. injection E as <- <-.
  destruct Ha as [(_ & E & _)|[(_ & _ & E & _)|(Hv & v & Hvin & Hcv & Ha)]]; [done|done|].
  destruct Ha as [(_ & _ & E & _)|[(_ & _ & E & _)|(_ & _ & k & Hk & Hcm & E)]]; [done|done|]. destruct (decide _) as [->|]; [|done]. clear E.
  assert (user_va va) as Hva by (unfold valid_range, user_va in *; lia).
  destruct (range_slot Start (Z.to_nat SizePages) va) as (i & Hi & Es); [split; [lia|by apply Z.mod_divide|unfold valid_range in Hv; lia]|lia|].
  assert (pte s1 (PageMap p) va = Some (MmBuildAbsentPte MM_PAGE_COMMITTED)) as Hpte.
  { rewrite (slot_pte s1 _ _ _ Es). apply (mw_pte _ _ _ _ _ _ _ Hcm i 0). by apply lookup_replicate_2. }
  assert (anonymous p s1 va) as Han by (split; [done|]; intros e He Hp; rewrite Hpte in He; injection He as <-; done).
  destruct (page_fault_spec p o s1 Waited FaultPC va Mode Hok1 Hvl Hsl Hva Han Hwt) as (St & p' & s' & -> & _ & Ha).
  unfold fault_answer, present_entry in Ha. rewrite Hpte in Ha. change (MmIsPresentPte (MmBuildAbsentPte MM_PAGE_COMMITTED)) with false in Ha. cbv iota in Ha.
  destruct Ha as (St1 & Ha & ->). destruct Ha as [Hno|w Hw Hz _|w Hw _ _|w s' Hw Hd _ _ _|w f s' Hw Hd _ _].
  - destruct Hno. exists v. split; [done|]. unfold Vad.covers, node_has, PAGE_SIZE in *. lia.
  - rewrite Hpte in Hz. discriminate Hz.
  - done.
  - rewrite Hpte in Hd. discriminate Hd.
  - rewrite Hpte in Hd. discriminate Hd.
Qed.

(** Memory that was decommitted comes back when it is touched: a page whose
    table is there is never an access violation, it is mapped again, to a page
    of zeros, when there is memory for it. *)
Theorem decommitted_memory_returns p (o : O) s Waited FaultPC va Mode Start SizePages p1 s1 : as_ok p s → 0 ≤ VadLocks p → 0 ≤ SpaceLocks p →
  0 ≤ Start < 2 ^ 64 → (PAGE_SIZE | Start) → 0 ≤ SizePages → SizePages * 4096 < 2 ^ 64 → FAILED Waited = false →
  MmDecommitVirtualMemory Start SizePages p s = Ok (STATUS_SUCCESS, p1, s1) → Start ≤ va < Start + SizePages * 4096 →
  (∀ v, covering p va v → MappedObject v = None) → is_Some (pte s (PageMap p) va) → on Mode MM_FAULT_WRITE = false →
  (pf_alloc s1 = Ok (PFN_INVALID, s1) ∧ MmPageFault Waited FaultPC va Mode p1 o s1 = Ok (STATUS_REFAULT, p1, o, s1)) ∨
  ∃ f s2, MmPageFault Waited FaultPC va Mode p1 o s1 = Ok (STATUS_SUCCESS, p1, o, s2) ∧ as_ok p1 s2 ∧ present s2 (PageMap p) va ∧
    pf_refs s1 f = None ∧ mapped_frame s2 (PageMap p) va = [f] ∧ pf_mem s2 !! f = Some zeros.
Proof.
  intros Hok Hvl Hsl HS Hal Hn0 Hn Hwt Hdec Hin Hobj [e He] Hmw.
  destruct (decommit_memory_spec p s Start SizePages Hok Hvl Hsl HS Hal Hn0 Hn) as (St & p' & s' & E & Hok1 & Ha). rewrite Hdec in E. injection E as <- <- <-.
  destruct Ha as [(_ & E & _)|[(_ & _ & E & _)|(Hv & x & v & y & Ex & Hcv & _ & Ha)]]; [done|done|]. cbv zeta in Ha. destruct Ha as (Ep & Hd & _).
  assert (user_va va) as Hva by (unfold valid_range, user_va in *; lia).
  destruct (range_slot Start (Z.to_nat SizePages) va) as (i & Hi & Es); [split; [lia|by apply Z.mod_divide|unfold valid_range in Hv; lia]|lia|].
  assert (pte s1 (PageMap p) va = Some (MmBuildAbsentPte MM_PAGE_DECOMMITTED)) as Hpte.
  { pose proof (dc_pte _ _ _ _ _ _ _ Hd i Hi) as Hp. rewrite (slot_pte s _ _ _ Es) in He. rewrite He in Hp. by rewrite (slot_pte s1 _ _ _ Es). }
  set (v' := after_decommit v Start SizePages) in *. assert (Node v' = Node v ∧ MappedObject v' = MappedObject v) as [En Em] by (destruct (after_decommit_same v Start SizePages) as (E1 & E2 & _); by split).
  assert (PageMap p1 = PageMap p ∧ VadLocks p1 = VadLocks p ∧ SpaceLocks p1 = SpaceLocks p) as (Epm & Evl & Esl) by (by subst p1).
  assert (covering p va v) as Hc by (split; [rewrite Ex; set_solver|]; unfold Vad.covers, node_has, PAGE_SIZE in *; lia).
  assert (covering p1 va v') as Hc' by (subst p1; split; [cbn; set_solver|]; rewrite En; apply Hc).
  destruct (first_fault p1 o s1 Waited FaultPC va Mode v' Hok1) as [[Ha E]|(_ & f & s2 & E & Hok2 & Hm)];
    [by rewrite Evl|by rewrite Esl|done|done|done|rewrite Em; by apply Hobj|rewrite Epm, Hpte; by eexists|by rewrite Epm, Hpte|unfold present_entry; by rewrite Epm, Hpte|by left|].
  right. exists f, s2. rewrite Hmw in E. split; [done|]. split; [done|]. rewrite Epm in Hm.
  destruct (demand_pte_spec f (first_bits (Protection v')) (nm_frame _ _ _ _ _ _ Hm)) as (Hpr & Hpm & Hpf).
  pose proof (nm_pte _ _ _ _ _ _ Hm va (proj1 (user_plain va Hva))) as Hp. rewrite decide_True in Hp by done.
  split; [by eexists|]. split; [apply (nm_free _ _ _ _ _ _ Hm)|]. split; [|apply (nm_zero _ _ _ _ _ _ Hm)].
  unfold mapped_frame. rewrite Hp. cbn [fmap option_fmap option_map]. rewrite frame1_present_only, Hpr. cbn [frame1]. by rewrite Hpm, Hpf.
Qed.
End touch.

(** ** Witnesses *)

(** A system without objects that can be mapped. *)
Definition no_objects : Mappables unit pmm := {|
  MmGetPageMappable _ _ _ _ := Crash;
  MmReadPageMappable _ _ _ _ := Crash;
  MmPrepareWriteMappable _ _ _ _ := Crash;
  MmMeanwhile p o s := (p, o, s);
|}.
Local Existing Instance no_objects.

(** The space of [Vad] with its descriptor committed. *)
Definition demo_committed : aspace := set_VadTree [set_Committed true demo_vad] demo_space.

Lemma demo_committed_ok : as_ok demo_committed fresh_map.
Proof.
  apply (as_ok_step demo_space fresh_map demo_committed fresh_map [] demo_vad (set_Committed true demo_vad) []); try reflexivity;
    [exact demo_space_ok|exact (as_map _ _ demo_space_ok)|intros va _ Hp; exact Hp].
Qed.

(** A table for the page, then no entry in it. *)
Lemma demo_table : ∃ s, as_ok demo_committed s ∧ pte s 1 0x10000 = Some 0 ∧ pf_alloc s ≠ Ok (PFN_INVALID, s).
Proof.
  destruct fresh_map_ok as (Hok & _). destruct fresh_user_map as (Hu & _).
  destruct (location_made fresh_map 1 0x10000 Hok (um_large _ _ Hu)) as (r & s & Hr & Hk & Hm); [vm_compute; congruence|].
  assert (match MmGetPteLocationCheck 1 0x10000 true fresh_map with
    | Ok (Some _, s) => pte s 1 0x10000 = Some 0 ∧ match pf_alloc s with Ok (q, _) => q =? PFN_INVALID = false | _ => False end
    | _ => False end) as Hs by (vm_compute; split; reflexivity).
  rewrite Hr in Hs. destruct r as [l|]; [|destruct Hs]. destruct Hs as [Hp Ha]. exists s. split; [|split; [exact Hp|]].
  - apply (as_ok_pages demo_committed fresh_map); [exact demo_committed_ok|exact (um_kept _ _ _ Hu Hk)|exact (kept_less_present _ _ _ Hk)].
  - intros E. rewrite E in Ha. discriminate Ha.
Qed.

Lemma demo_covering : covering demo_committed 0x10000 (set_Committed true demo_vad).
Proof. split; [left|unfold node_has, end_, PAGE_SIZE; cbn; lia]. Qed.

Lemma MmPageFault_correct_witness :
  ∃ St p' s', MmPageFault STATUS_SUCCESS 0x400000 0x10000 0 demo_committed tt fresh_map = Ok (St, p', tt, s') ∧ as_ok p' s'.
Proof.
  destruct (MmPageFault_correct demo_committed tt fresh_map STATUS_SUCCESS 0x400000 0x10000 0 demo_committed_ok) as (St & p' & s' & Hf & Hok & _);
    [cbn; lia|cbn; lia|unfold user_va; lia| |reflexivity|exists St, p', s'; split; [exact Hf|exact Hok]].
  split.
  - intros v [Hv _]. apply list_elem_of_singleton in Hv as ->. reflexivity.
  - intros e He. assert (pte fresh_map 1 0x10000 = None) as E by (vm_compute; reflexivity). change (pte fresh_map 1 0x10000 = Some e) in He. rewrite E in He. discriminate He.
Defined.

Lemma write_fault_resolved_witness :
  ∃ s e s', as_ok demo_committed s ∧ handle_fault 2 STATUS_SUCCESS 0x400000 0x10000 MM_FAULT_WRITE demo_committed tt s = Ok (STATUS_SUCCESS, demo_committed, tt, s') ∧
    pte s' 1 0x10000 = Some e ∧ allows_write e = true.
Proof.
  destruct demo_table as (s & Hok & Hp & Ha). exists s.
  destruct (write_fault_resolved demo_committed tt s STATUS_SUCCESS 0x400000 0x10000 MM_FAULT_WRITE (set_Committed true demo_vad) Hok) as [[E _]|(_ & f & e & s' & Hf & _ & He & _ & Hw & _)];
    [cbn; lia|cbn; lia|unfold user_va; lia|reflexivity|reflexivity|reflexivity|exact demo_covering|reflexivity|reflexivity|reflexivity|exact Hp|destruct (Ha E)|].
  exists e, s'. split; [exact Hok|]. split; [apply Hf; lia|]. split; [exact He|exact Hw].
Defined.

Lemma demo_commit : ∃ s1, MmCommitVirtualMemory 0x10000 1 0 demo_space fresh_map = Ok (STATUS_SUCCESS, demo_space, s1) ∧ as_ok demo_space s1 ∧ is_Some (pte s1 1 0x10000).
Proof.
  destruct (commit_memory_spec demo_space fresh_map 0x10000 1 0 demo_space_ok) as (St & s1 & Hc & Hok & _); [cbn; lia|cbn; lia|lia|by exists 16|lia|lia|].
  assert (match MmCommitVirtualMemory 0x10000 1 0 demo_space fresh_map with
    | Ok (St, _, s) => St = STATUS_SUCCESS ∧ match pte s 1 0x10000 with Some _ => True | None => False end
    | _ => False end) as Hs by (vm_compute; split; reflexivity).
  rewrite Hc in Hs. destruct Hs as [-> Hs]. exists s1. split; [exact Hc|]. split; [exact Hok|]. destruct (pte s1 1 0x10000); [by eexists|destruct Hs].
Qed.

Lemma committed_memory_unusable_witness :
  ∃ s1, MmCommitVirtualMemory 0x10000 1 0 demo_space fresh_map = Ok (STATUS_SUCCESS, demo_space, s1) ∧
    MmPageFault STATUS_SUCCESS 0x400000 0x10000 0 demo_space tt s1 = Ok (STATUS_ACCESS_VIOLATION, MiLockVadList demo_space, tt, s1).
Proof.
  destruct demo_commit as (s1 & Hc & _). exists s1. split; [exact Hc|].
  apply (committed_memory_unusable demo_space tt fresh_map STATUS_SUCCESS 0x400000 0x10000 0 0x10000 1 0 s1 demo_space_ok);
    [cbn; lia|cbn; lia|lia|by exists 16|lia|lia|reflexivity|exact Hc|lia|].
  intros v [Hv _]. apply list_elem_of_singleton in Hv as ->. reflexivity.
Defined.

Lemma demo_decommit s1 : as_ok demo_space s1 → ∃ p2 s2, MmDecommitVirtualMemory 0x10000 1 demo_space s1 = Ok (STATUS_SUCCESS, p2, s2).
Proof.
  intros Hok. destruct (decommit_memory_spec demo_space s1 0x10000 1 Hok) as (St & p2 & s2 & Hd & _ & Ha); [cbn; lia|cbn; lia|lia|by exists 16|lia|lia|].
  destruct Ha as [(Hv & _)|[(_ & Hno & _)|(_ & x & v & y & _ & _ & -> & _)]]; [destruct Hv; unfold valid_range; lia| |by exists p2, s2].
  destruct (Hno demo_vad); [left|]. unfold Vad.covers, end_, PAGE_SIZE. cbn. lia.
Qed.

Lemma decommitted_memory_returns_witness :
  ∃ s1 p2 s2 St s3, MmDecommitVirtualMemory 0x10000 1 demo_space s1 = Ok (STATUS_SUCCESS, p2, s2) ∧
    MmPageFault STATUS_SUCCESS 0x400000 0x10000 0 p2 tt s2 = Ok (St, p2, tt, s3) ∧ St ≠ STATUS_ACCESS_VIOLATION.
Proof.
  destruct demo_commit as (s1 & _ & Hok & Hp). destruct (demo_decommit s1 Hok) as (p2 & s2 & Hd). exists s1, p2, s2.
  destruct (decommitted_memory_returns demo_space tt s1 STATUS_SUCCESS 0x400000 0x10000 0 0x10000 1 p2 s2 Hok) as [[_ E]|(f & s3 & E & _)];
    [cbn; lia|cbn; lia|lia|by exists 16|lia|lia|reflexivity|exact Hd|lia| |exact Hp|reflexivity| |].
  - intros v [Hv _]. apply list_elem_of_singleton in Hv as ->. reflexivity.
  - exists STATUS_REFAULT, s2. split; [exact Hd|]. split; [exact E|discriminate].
  - exists STATUS_SUCCESS, s3. split; [exact Hd|]. split; [exact E|discriminate].
Defined.
