(* ===== verification/MappedFault.v ===== *)
(** Page faults on views: the handler of [Fault] over the objects of
    [Mappable] that stay in memory.

    The page map and the object share the physical memory manager; what keeps
    them apart is that their pages are. *)
From S2P Require Import Prelude Pmm Pages Pte PageMap PageFree Commit RbTree Heap Vad Mappable Fault.
From S2P Require Sla.
Local Open Scope Z_scope.

Section mapped.
Context {O S : Type} `{ResidentLaws O S}.

(** No page of the map is a page of the object. *)
Definition map_apart (s : S) (root : Z) (o : O) : Prop := ∀ path p, in_tree path → node s root path = Some p → apart_from o s p.

Lemma object_foreign s root o m : mp_ok o s → map_apart s root o → mp_table o s m ∨ mp_page o s m → foreign s root m.
Proof.
  intros Hok Ha Hm. split.
  - destruct Hm as [Hm|Hm]; [rewrite (mp_table_used o s m Hok Hm); by eexists|by apply (mp_page_used o s m Hok)].
  - intros path Ht Hp. destruct (Ha path m Ht Hp) as (_ & Hnt & Hnp). by destruct Hm.
Qed.

(** The object did something: the map is as it was. *)
Lemma map_survives s root o s' o' : pm_ok s root → no_large s root → map_apart s root o → resident_step o s o' s' →
  pm_ok s' root ∧ no_large s' root ∧ map_apart s' root o' ∧ (∀ path, in_tree path → node s' root path = node s root path) ∧
  ∀ va, plain_va va → pte s' root va = pte s root va.
Proof.
  intros Hok Hl Ha [Hok' _ _ Ho Hd].
  assert (∀ path p, in_tree path → node s root path = Some p → apart_from o' s' p ∧ pf_refs s' p = pf_refs s p ∧ pf_mem s' !! p = pf_mem s !! p) as Hp
    by (intros path p Ht Hp; apply Ho; by apply (Ha path)).
  destruct (same_view s s' root Hok) as [Hok2 Hn].
  - by apply (mp_ok_frames o').
  - intros m Hm. apply (po_low _ _ Hok). by apply Hd.
  - intros path p Ht Hn. destruct (Hp path p Ht Hn) as (_ & Er & Em). destruct (po_pages _ _ Hok path p Ht Hn) as [Hr Hb].
    split; [split; [by rewrite Er|by rewrite Em]|]. intros i _. unfold word_at. by rewrite Em.
  - split; [done|]. split; [|split; [|split; [done|]]].
    + intros path i p Ht Hn'. pose proof (pm_in_tree_prefix _ _ Ht) as Ht'. rewrite Hn in Hn' by done. unfold word_at. destruct (Hp path p Ht' Hn') as (_ & _ & ->). by apply (Hl path).
    + intros path p Ht Hn'. rewrite Hn in Hn' by done. by apply (Hp path).
    + intros va Hva. unfold pte, word_at. pose proof (path_in_tree va Hva) as Ht. rewrite Hn by done.
      destruct (node s root (path_of va)) as [p|] eqn:E; [|done]. by destruct (Hp _ _ Ht E) as (_ & _ & ->).
Qed.

(** The map took pages for tables, or an entry was written: the object is as it
    was. *)
Lemma object_survives s root o s' : pm_ok s' root → (∀ m r, pf_refs s m = Some r → pf_refs s' m = Some r) →
  (∀ m, foreign s root m → foreign s' root m ∧ pf_mem s' !! m = pf_mem s !! m) → map_apart s root o → mp_ok o s →
  resident_frame o s s' ∧ map_apart s' root o ∧ ∀ off, mp_bound o off → page_view o s' off = page_view o s off.
Proof.
  intros Hok' Hr Hm Ha Hok. pose proof (po_frames _ _ Hok') as Hpf.
  assert (∀ m, mp_table o s m ∨ mp_page o s m → foreign s root m) as Hf by (intros m; by apply object_foreign).
  assert (resident_frame o s s') as Hfr.
  { apply mp_frame; [done|done| |].
    - intros m Ht. rewrite (mp_table_used o s m Hok Ht). split; [by apply Hr, (mp_table_used o s m)|]. by apply Hm, Hf; left.
    - intros m Hp. destruct (proj1 (mp_page_used o s m Hok Hp)) as [r Er]. exists r. by apply Hr. }
  split; [done|]. split.
  - intros path p Hin Hn. destruct (po_pages _ _ Hok' path p Hin Hn) as [Er _]. split; [by eexists|]. rewrite (rf_table _ _ _ Hfr), (rf_page _ _ _ Hfr).
    split; intros Hx; (destruct (Hm p) as [[_ Hoff] _]; [apply Hf; by (left + right)|by apply (Hoff path)]).
  - apply resident_view; [done|done|]. intros m Hp. apply Hm, Hf. by right.
Qed.

(** What the entry of a page of a section is. *)
Definition section_pte (f Prot : Z) : Z :=
  MmBuildPte f (Z.lor (Z.lor (Z.lor MM_PROT_READ MM_MISC_IS_FROM_PMM) MM_PROT_USER) (MmGetPteBitsFromProtection (Z.ldiff Prot MM_PROT_WRITE))).

Lemma section_pte_bits f Prot : MmIsPresentPte (section_pte f Prot) = true ∧ allows_write (section_pte f Prot) = false ∧ allows_user (section_pte f Prot) = true.
Proof.
  unfold allows_write, allows_user, section_pte. destruct (build_pte_at f (Z.lor (Z.lor (Z.lor MM_PROT_READ MM_MISC_IS_FROM_PMM) MM_PROT_USER)
    (MmGetPteBitsFromProtection (Z.ldiff Prot MM_PROT_WRITE)))) as (B0 & -> & -> & _). split; [pte_bit; exact B0|].
  assert (on (Z.ldiff Prot MM_PROT_WRITE) 2 = false) as E2 by (change 2 with (2 ^ 1); rewrite on_pow2 by lia; rewrite Z.ldiff_spec; cbn; by rewrite andb_false_r).
  unfold MmGetPteBitsFromProtection. rewrite E2. cbn [or_if]. split; [by destruct (on _ 4), (on _ 1)|by destruct (on _ 4), (on _ 1)].
Qed.

(** Giving a frame to an address whose table is there. *)
Lemma assign_pfn_spec s root va t f Prot : pm_ok s root → no_large s root → user_va va → node s root (path_of va) = Some t →
  ∃ s', MmpAssignPfnToAddress root va f Prot s = Ok (STATUS_SUCCESS, s') ∧ wrote s root va (section_pte f Prot) s'.
Proof.
  intros Hok Hl Hva Hn. pose proof (proj1 (user_plain va Hva)) as Hpl. unfold MmpAssignPfnToAddress.
  assert ((va <? MM_KERNEL_SPACE_BASE) = true) as -> by (apply Z.ltb_lt; unfold user_va, MM_KERNEL_SPACE_BASE in *; lia).
  rewrite (location_there s root va t Hok Hl Hpl Hn). cbn [mbind outcome_bind fst snd]. fold (section_pte f Prot).
  destruct (st_pte_wrote s root va (section_pte f Prot) t Hok Hpl Hn (MmBuildPte_range _ _)) as (s' & -> & Hw). by exists s'.
Qed.

(** The page that a view has at an address. *)
Definition view_offset (v : MMVAD) (va : Z) : Z := u64 (u64 (Z.ldiff va (PAGE_SIZE - 1) - StartVa (Node v)) + SectionOffset v) / PAGE_SIZE.

(** What is the same before and after: the object shows the same pages, and is
    apart from the map. *)
Record view_kept (s : S) (root : Z) (o o' : O) (s' : S) : Prop := {
  vk_ok : pm_ok s' root;
  vk_large : no_large s' root;
  vk_object : mp_ok o' s';
  vk_apart : map_apart s' root o';
  vk_bound off : mp_bound o' off ↔ mp_bound o off;
  vk_view off : mp_bound o off → page_view o' s' off = page_view o s off;
}.

Lemma view_kept_trans s root o o1 s1 o2 s2 : view_kept s root o o1 s1 → view_kept s1 root o1 o2 s2 → view_kept s root o o2 s2.
Proof.
  intros [A1 A2 A3 A4 A5 A6] [B1 B2 B3 B4 B5 B6]. split; [exact B1|exact B2|exact B3|exact B4| |].
  - intros off. by rewrite B5, A5.
  - intros off Hoff. rewrite B6, A6; [done|done|]. by apply A5.
Qed.

Lemma step_view_kept s root o o' s' : pm_ok s root → no_large s root → map_apart s root o → resident_step o s o' s' → view_kept s root o o' s'.
Proof.
  intros Hok Hl Ha Hs. destruct (map_survives s root o s' o' Hok Hl Ha Hs) as (Hok' & Hl' & Ha' & _).
  split; [exact Hok'|exact Hl'|apply (rs_ok _ _ _ _ Hs)|exact Ha'|apply (rs_bound _ _ _ _ Hs)|apply (rs_view _ _ _ _ Hs)].
Qed.

Lemma wrote_view_kept s root o va e s' : mp_ok o s → no_large s root → map_apart s root o → wrote s root va e s' →
  view_kept s root o o s' ∧ ∀ off, mp_bound o off → mp_at o s' off = mp_at o s off.
Proof.
  intros Ho Hl Ha Hw. destruct (object_survives s root o s') as (Hf & Ha' & Hv); [apply (wr_ok _ _ _ _ _ Hw)|intros m r Hm; by rewrite (wr_refs _ _ _ _ _ Hw)| |exact Ha|exact Ho|].
  { intros m Hm. split; [apply (others_foreign s); [by apply wrote_others in Hw|exact Hm]|]. apply (wr_mem _ _ _ _ _ Hw), Hm. }
  split; [|apply (rf_at _ _ _ Hf)]. split; [apply (wr_ok _ _ _ _ _ Hw)|by apply (wr_large _ _ _ _ _ Hw)|apply (rf_ok _ _ _ Hf)|exact Ha'|done|exact Hv].
Qed.

Lemma kept_view_kept s root o s' : mp_ok o s → no_large s root → map_apart s root o → kept s root s' → view_kept s root o o s' ∧ resident_frame o s s'.
Proof.
  intros Ho Hl Ha Hk. destruct (object_survives s root o s' (kp_ok _ _ _ Hk) (kp_refs _ _ _ Hk) (kp_mem _ _ _ Hk) Ha Ho) as (Hf & Ha' & Hv).
  split; [|done]. split; [apply (kp_ok _ _ _ Hk)|by apply (kp_large _ _ _ Hk)|apply (rf_ok _ _ _ Hf)|exact Ha'|done|exact Hv].
Qed.

(** The page of the object at [off] was mapped at [va], read-only. *)
Record view_mapped (s : S) (root : Z) (o : O) (va off Prot f : Z) (o' : O) (s' : S) : Prop := {
  vm_kept : view_kept s root o o' s';
  vm_at : mp_at o' s' off = Some f;
  vm_refs : pf_refs s' f = Some (default 1 (pf_refs s f) + 1);
  vm_pte va' : plain_va va' → if decide (slot va' = slot va) then pte s' root va' = Some (section_pte f Prot) else kept_or_new (pte s root va') (pte s' root va');
}.

Lemma change_refs_back d o p : change_refs (- d) o (change_refs d o p) = p.
Proof.
  destruct o as [o|]; [|done]. destruct p as [t h m vl sl ob]. unfold change_refs, set_Objects. cbn. f_equal.
  apply map_eq. intros i. destruct (decide (i = o)) as [->|Hne]; [|by rewrite !lookup_alter_ne].
  rewrite !lookup_alter_eq. destruct (ob !! o); [|done]. cbn. f_equal. lia.
Qed.


(** The address space and the object, which may be mapped more than once. *)
Record view_space (p : aspace) (o : O) (s : S) : Prop := {
  vs_vads : vads_ok (VadTree p);
  vs_locks : 0 ≤ VadLocks p ∧ 0 ≤ SpaceLocks p;
  vs_map : pm_ok s (PageMap p);
  vs_large : no_large s (PageMap p);
  vs_object : mp_ok o s;
  vs_apart : map_apart s (PageMap p) o;
}.

Lemma view_space_kept p o s o' s' : view_space p o s → view_kept s (PageMap p) o o' s' → view_space p o' s'.
Proof. intros [V1 V2 V3 V4 V5 V6] [K1 K2 K3 K4 K5 K6]. by split. Qed.

Lemma covering_lookup p va v : vads_ok (VadTree p) → covering p va v → MmLookUpVadByAddress (VadTree p) va = Some v.
Proof.
  intros Hv Hc. destruct (lookup_vad_spec (VadTree p) va Hv) as [(x & w & y & Ex & Hin & ->)|[Hno _]]; [|destruct Hno; by exists v; destruct Hc].
  f_equal. apply (covering_unique p va w v Hv); [split; [rewrite Ex; set_solver|done]|done].
Qed.

Lemma view_page_spec p va obj v s t o : pm_ok s (PageMap p) → no_large s (PageMap p) → user_va va → 0 ≤ SpaceLocks p → node s (PageMap p) (path_of va) = Some t →
  mp_ok o s → map_apart s (PageMap p) o → mp_bound o (view_offset v va) →
  let out := MmpHandleFaultCommittedMappedPage va (StartVa (Node v)) (SectionOffset v) obj (Protection v) (change_refs 1 (Some obj) (MmLockSpaceExclusive p)) o s in
  (out = Crash ∧ ∃ o1 s1, MmGetPageMappable obj (view_offset v va) o s = Ok (STATUS_INSUFFICIENT_MEMORY, None, o1, s1)) ∨
  ∃ f o' s', out = Ok (STATUS_SUCCESS, p, o', s') ∧ view_mapped s (PageMap p) o va (view_offset v va) (Protection v) f o' s' ∧
    (is_Some (pf_refs s f) → mp_page o s f).
Proof.
  intros Hok Hl Hva Hsl Hn Ho Ha Hoff out. unfold out, MmpHandleFaultCommittedMappedPage. fold (view_offset v va).
  destruct (mp_get obj o s (view_offset v va) Ho Hoff) as (St & Pfn & o' & s1 & Hg & Hstep & Hgot). rewrite Hg. cbn [mbind outcome_bind].
  destruct Pfn as [f|].
  2:{ left. subst St. split; [|by eexists _, _]. by rewrite (decide_False (P := STATUS_INSUFFICIENT_MEMORY = STATUS_MORE_PROCESSING_REQUIRED)) by done. }
  right. destruct Hgot as (-> & Hat & Hrefs & Hpage).
  destruct (map_survives s (PageMap p) o s1 o' Hok Hl Ha Hstep) as (Hok1 & Hl1 & Ha1 & Hn1 & Hp1). pose proof (proj1 (user_plain va Hva)) as Hpl.
  pose proof (step_view_kept s (PageMap p) o o' s1 Hok Hl Ha Hstep) as Hk1.
  destruct (assign_pfn_spec s1 (PageMap p) va t f (Protection v) Hok1 Hl1 Hva) as (s2 & Has & Hw); [rewrite Hn1; [done|by apply path_in_tree]|].
  rewrite (decide_False (P := STATUS_SUCCESS = STATUS_MORE_PROCESSING_REQUIRED)) by done. cbn [mbind outcome_bind].
  change (PageMap (change_refs 1 (Some obj) (MmLockSpaceExclusive p))) with (PageMap p). rewrite Has. cbn [mbind outcome_bind]. change (FAILED STATUS_SUCCESS) with false. cbv iota.
  change (-1) with (- (1)). rewrite change_refs_back.
  replace (MmUnlockSpace (MmLockSpaceExclusive p)) with (Ok p) by (rewrite (unlock_space p) by done; by destruct p). cbn [mbind outcome_bind].
  exists f, o', s2. split; [done|]. split; [|done].
  destruct (wrote_view_kept s1 (PageMap p) o' va _ s2 (rs_ok _ _ _ _ Hstep) Hl1 Ha1 Hw) as [Hk2 Hat2].
  split; [by apply (view_kept_trans s _ o o' s1)| | |].
  - rewrite Hat2; [exact Hat|]. by apply (rs_bound _ _ _ _ Hstep).
  - rewrite (wr_refs _ _ _ _ _ Hw). exact Hrefs.
  - intros va' Hva'. rewrite (wr_pte _ _ _ _ _ Hw) by exact Hva'. destruct (decide (slot va' = slot va)); [reflexivity|]. rewrite Hp1 by exact Hva'. destruct (pte s (PageMap p) va'); cbn; auto.
Qed.

(** A fault on a view comes down to the object's page, once the table is there. *)
Lemma view_fault p (o : O) s Waited PC va Mode v obj : view_space p o s → user_va va →
  covering p va v → MappedObject v = Some obj → demandable v (pte s (PageMap p) va) = true → present_entry s (PageMap p) va = None →
  let finish out := '(Status, p, o, s) ← out;
    let Status := if negb (FAILED Status) && on Mode MM_FAULT_WRITE then STATUS_REFAULT else Status in
    Ok (if decide (Status = STATUS_REFAULT_SLEEP) then (if FAILED Waited then Waited else STATUS_REFAULT) else Status, p, o, s) in
  ∃ s0, kept s (PageMap p) s0 ∧
    ((node s0 (PageMap p) (path_of va) = None ∧ MmPageFault Waited PC va Mode p o s = finish (Ok (STATUS_REFAULT_SLEEP, p, o, s0))) ∨
     ∃ t, node s0 (PageMap p) (path_of va) = Some t ∧
       MmPageFault Waited PC va Mode p o s = finish (MmpHandleFaultCommittedMappedPage va (StartVa (Node v)) (SectionOffset v) obj (Protection v)
         (change_refs 1 (Some obj) (MmLockSpaceExclusive p)) o s0)).
Proof.
  intros [Hvs [Hvl Hsl] Hpm Hlg _ _] Hva Hc Hobj Hd Hne finish. destruct (unlocks p Hvl Hsl) as (Us & Uv & _). specialize (Uv _ eq_refl).
  pose proof (proj1 (user_plain va Hva)) as Hpl. pose proof (covering_lookup p va v Hvs Hc) as Hlook.
  assert (MmUnlockVadList (change_refs 1 (Some obj) (MiLockVadList (MmLockSpaceExclusive p))) = Ok (change_refs 1 (Some obj) (MmLockSpaceExclusive p))) as Uvo
    by apply (unlock_vads (change_refs 1 (Some obj) (MmLockSpaceExclusive p)) Hvl).
  unfold MmPageFault. rewrite (proj1 (user_low va Hva)), andb_false_r. change (PageMap (MmLockSpaceExclusive p)) with (PageMap p).
  unfold present_entry in Hne. destruct (node s (PageMap p) (path_of va)) as [t|] eqn:Ht.
  - pose proof (pte_node s (PageMap p) va t Ht) as He. destruct (pte_location s (PageMap p) va t Hpm Hpl Ht) as [_ Hld]. set (e := word_at s t (PML_IDX 1 va)) in *. rewrite He in Hne, Hd.
    destruct (MmIsPresentPte e) eqn:Hpr; [done|]. exists s. split; [by apply kept_refl|]. right. exists t. split; [done|].
    rewrite (location_there s (PageMap p) va t Hpm Hlg Hpl Ht). cbn [mbind outcome_bind fst snd]. rewrite Hld. cbn [mbind outcome_bind]. rewrite Hpr. unfold MiNormalFault.
    change (VadTree (MiLockVadList (MmLockSpaceExclusive p))) with (VadTree p). rewrite Hlook. cbn [mbind outcome_bind fst snd]. rewrite Hld. cbn [mbind outcome_bind fst snd].
    cbn in Hd. assert (MmIsEqualPte e MmBuildZeroPte && negb (Committed v) = false) as ->.
    { destruct (MmIsEqualPte e MmBuildZeroPte) eqn:Ez; [|done]. destruct (Committed v); [done|]. apply Z.eqb_eq in Ez. by rewrite Ez in Hd. }
    cbn [mbind outcome_bind fst snd]. assert (negb (MmIsEqualPte e MmBuildZeroPte || MmIsCommittedPte e) = false) as ->.
    { destruct (MmIsEqualPte e MmBuildZeroPte); [done|]. cbn in *. by rewrite Hd. }
    rewrite Hobj, Uvo. cbn [mbind outcome_bind]. unfold finish. by destruct (MmpHandleFaultCommittedMappedPage _ _ _ _ _ _ _ _) as [[[[St p'] o'] s']| |].
  - unfold pte in Hd. rewrite Ht in Hd. rewrite (location_missing s (PageMap p) va Hpm Hlg Hpl Ht). cbn [mbind outcome_bind]. unfold MiNormalFault.
    change (VadTree (MiLockVadList (MmLockSpaceExclusive p))) with (VadTree p). change (PageMap (MiLockVadList (MmLockSpaceExclusive p))) with (PageMap p).
    rewrite Hlook. cbn [mbind outcome_bind] in *. cbn in Hd. rewrite Hd. cbn [negb andb].
    destruct (location_made s (PageMap p) va Hpm Hlg Hpl) as (r & s0 & -> & Hk & Hr). cbn [mbind outcome_bind]. exists s0. split; [done|]. destruct r as [[t j]|].
    + right. cbn [fst snd] in *. destruct Hr as [-> Hn]. exists t. split; [done|]. destruct (pte_location s0 (PageMap p) va t (kp_ok _ _ _ Hk) Hpl Hn) as [_ ->].
      cbn [mbind outcome_bind orb negb]. rewrite Hobj, Uvo. cbn [mbind outcome_bind]. unfold finish. by destruct (MmpHandleFaultCommittedMappedPage _ _ _ _ _ _ _ _) as [[[[St p'] o'] s']| |].
    + left. split; [apply Hr|]. rewrite Uv. cbn [mbind outcome_bind]. rewrite Us. reflexivity.
Qed.


Lemma kept_view_mapped s root o s0 va off Prot f o' s' : kept s root s0 → mp_ok o s → no_large s root → map_apart s root o →
  (is_Some (pf_refs s0 f) → mp_page o s0 f) → view_mapped s0 root o va off Prot f o' s' → view_mapped s root o va off Prot f o' s'.
Proof.
  intros Hk Ho Hl Ha Hpage [V1 V2 V3 V4]. destruct (kept_view_kept s root o s0 Ho Hl Ha Hk) as [Hv Hf]. split; [by apply (view_kept_trans s root o o s0)|exact V2| |].
  - rewrite V3. f_equal. f_equal. destruct (pf_refs s f) as [r|] eqn:E; [by rewrite (kp_refs _ _ _ Hk f r E)|].
    destruct (pf_refs s0 f) as [r|] eqn:E0; [|done]. exfalso. specialize (Hpage ltac:(by eexists)). apply (rf_page _ _ _ Hf) in Hpage.
    destruct (proj1 (mp_page_used o s f Ho Hpage)) as [r' Hr']. congruence.
  - intros va' Hva'. specialize (V4 va' Hva'). destruct (decide _); [done|]. eapply kept_or_new_trans; [|exact V4]. by apply kept_kept_or_new.
Qed.

(** C32: a fault on a page of a view that is not there and may be: either there is
    no memory for its table, and the fault is to be handled again; or the page
    that the object has at that offset is mapped, read-only, with one reference
    more; or the object has no memory for a page, and the kernel stops.  In the
    first two cases the object shows the same pages as before, the mapped object
    has as many references as before, and no lock is kept. *)
Theorem view_fault_correct p o s Waited FaultPC va Mode v obj : view_space p o s → user_va va → FAILED Waited = false →
  covering p va v → MappedObject v = Some obj → demandable v (pte s (PageMap p) va) = true → present_entry s (PageMap p) va = None →
  mp_bound o (view_offset v va) →
  (∃ s', MmPageFault Waited FaultPC va Mode p o s = Ok (STATUS_REFAULT, p, o, s') ∧ kept s (PageMap p) s' ∧ pte s' (PageMap p) va = None ∧
    view_kept s (PageMap p) o o s') ∨
  (∃ s0 o1 s1, MmPageFault Waited FaultPC va Mode p o s = Crash ∧ kept s (PageMap p) s0 ∧
    MmGetPageMappable obj (view_offset v va) o s0 = Ok (STATUS_INSUFFICIENT_MEMORY, None, o1, s1)) ∨
  ∃ f o' s', MmPageFault Waited FaultPC va Mode p o s = Ok (if on Mode MM_FAULT_WRITE then STATUS_REFAULT else STATUS_SUCCESS, p, o', s') ∧
    view_mapped s (PageMap p) o va (view_offset v va) (Protection v) f o' s' ∧ allows_write (section_pte f (Protection v)) = false.
Proof.
  intros Hok Hva Hwt Hc Hobj Hd Hne Hoff. pose proof Hok as [Hvs [Hvl Hsl] Hpm Hlg Ho Ha].
  destruct (view_fault p o s Waited FaultPC va Mode v obj Hok Hva Hc Hobj Hd Hne) as (s0 & Hk & Hf).
  destruct (kept_view_kept s (PageMap p) o s0 Ho Hlg Ha Hk) as [Hv _].
  destruct Hf as [[Hn ->]|(t & Hn & ->)].
  - left. exists s0. rewrite Hwt. split; [done|]. split; [done|]. split; [unfold pte; by rewrite Hn|done].
  - right. destruct (view_page_spec p va obj v s0 t o (vk_ok _ _ _ _ _ Hv) (vk_large _ _ _ _ _ Hv) Hva Hsl Hn (vk_object _ _ _ _ _ Hv) (vk_apart _ _ _ _ _ Hv) Hoff)
      as [[-> (o1 & s1 & Hg)]|(f & o' & s' & -> & Hm & Hpage)].
    + left. by exists s0, o1, s1.
    + right. exists f, o', s'. split; [destruct (on Mode MM_FAULT_WRITE); done|]. split; [by apply (kept_view_mapped s (PageMap p) o s0)|apply section_pte_bits].
Qed.

(** ** Writing to a page of a view *)

(** The bits of an entry that a write fault maps the object's page with. *)
Definition write_bits (e : Z) : Z := Z.lor (MmGetPageBitsPte e) (Z.lor MM_PROT_READ (Z.lor MM_PROT_WRITE MM_MISC_IS_FROM_PMM)).

(** The page was made ready to be written, and mapped; the reference of the page
    that was mapped before is still there. *)
Record view_written (s : S) (root : Z) (o : O) (va obj off e f : Z) (o1 : O) (s1 : S) (o' : O) (s' : S) : Prop := {
  vw_prepared : MmPrepareWriteMappable obj off o s = Ok (STATUS_SUCCESS, o1, s1);
  vw_got : ∃ s2, MmGetPageMappable obj off o1 s1 = Ok (STATUS_SUCCESS, Some f, o', s2) ∧ wrote s2 root va (MmBuildPte f (write_bits e)) s' ∧ view_kept s root o o' s2;
  vw_kept : view_kept s root o o' s';
  vw_at : mp_at o' s' off = Some f;
  vw_refs : pf_refs s' f = Some (default 1 (pf_refs s1 f) + 1);
  vw_pte va' : plain_va va' → pte s' root va' = if decide (slot va' = slot va) then Some (MmBuildPte f (write_bits e)) else pte s root va';
}.

(** A write to a page of a view that is mapped read-only, where the
    descriptor allows writing: the object makes its page ready, which shows no
    difference, and the page that it then has is mapped writable; or the object
    has no memory and says so.  The entry of no other page changes, and no lock
    is kept. *)
Lemma view_write_spec p o s Waited FaultPC va Mode v obj e : view_space p o s → user_va va →
  covering p va v → MappedObject v = Some obj → on (Protection v) PAGE_WRITE = true → present_entry s (PageMap p) va = Some e →
  allows_write e = false → allows_user e = true → on Mode MM_FAULT_WRITE = true → on Mode MM_FAULT_INSNFETCH = false →
  mp_bound o (view_offset v va) →
  (∃ o' s', MmPageFault Waited FaultPC va Mode p o s = Ok (STATUS_INSUFFICIENT_MEMORY, p, o', s') ∧ view_kept s (PageMap p) o o' s' ∧
    ∀ va', plain_va va' → pte s' (PageMap p) va' = pte s (PageMap p) va') ∨
  ∃ f o1 s1 o' s', MmPageFault Waited FaultPC va Mode p o s = Ok (STATUS_SUCCESS, p, o', s') ∧
    view_written s (PageMap p) o va obj (view_offset v va) e f o1 s1 o' s'.
Proof.
  intros [Hvs [Hvl Hsl] Hpm Hlg Ho Ha] Hva Hc Hobj Hpw He Hw Hu Hmw Hmx Hoff. destruct (unlocks p Hvl Hsl) as (Us & Uv & _). specialize (Uv _ eq_refl).
  pose proof (proj1 (user_plain va Hva)) as Hpl. pose proof (covering_lookup p va v Hvs Hc) as Hlook.
  unfold present_entry in He. destruct (pte s (PageMap p) va) as [e0|] eqn:He0; [|done]. destruct (MmIsPresentPte e0) eqn:Hpr; [|done]. injection He as ->.
  assert (∃ t, node s (PageMap p) (path_of va) = Some t ∧ ld_pte t (PML_IDX 1 va) s = Ok e) as (t & Ht & Hld).
  { unfold pte in He0. destruct (node s (PageMap p) (path_of va)) as [t|] eqn:Ht; [|done]. injection He0 as E. exists t. split; [done|].
    destruct (pte_location s (PageMap p) va t Hpm Hpl Ht) as [_ Hld]. by rewrite <-E. }
  assert (on (Z.lnot (Protection v)) PAGE_WRITE = false) as Hnw.
  { revert Hpw. change PAGE_WRITE with (2 ^ 1). rewrite !on_pow2 by lia. rewrite Z.lnot_spec by lia. by intros ->. }
  unfold MmPageFault. rewrite (proj1 (user_low va Hva)), andb_false_r. change (PageMap (MmLockSpaceExclusive p)) with (PageMap p).
  rewrite (location_there s (PageMap p) va t Hpm Hlg Hpl Ht). cbn [mbind outcome_bind fst snd]. rewrite Hld. cbn [mbind outcome_bind]. rewrite Hpr.
  destruct (bits_of e) as (-> & -> & Hbw). rewrite Hu, Hmx, Hmw, andb_false_r. cbn [negb andb]. unfold MiWriteFault. cbn [fst snd]. rewrite Hld. cbn [mbind outcome_bind].
  rewrite Hbw, Hw. change (VadTree (MiLockVadList (MmLockSpaceExclusive p))) with (VadTree p). rewrite Hlook, Hnw, Hobj. fold (view_offset v va) (write_bits e).
  destruct (mp_prepare obj o s (view_offset v va) Ho Hoff) as (St & o1 & s1 & Hprep & Hst1 & HSt). rewrite Hprep. cbn [mbind outcome_bind].
  destruct (map_survives s (PageMap p) o s1 o1 Hpm Hlg Ha Hst1) as (Hok1 & Hl1 & Ha1 & Hn1 & Hp1). pose proof (step_view_kept s (PageMap p) o o1 s1 Hpm Hlg Ha Hst1) as Hk1.
  destruct HSt as [-> | ->].
  2:{ change (FAILED STATUS_INSUFFICIENT_MEMORY) with true. cbv iota. rewrite Uv. cbn [mbind outcome_bind]. rewrite Us. cbn [mbind outcome_bind]. left. exists o1, s1. by split. }
  change (FAILED STATUS_SUCCESS) with false. cbv iota.
  destruct (mp_get obj o1 s1 (view_offset v va) (rs_ok _ _ _ _ Hst1)) as (St & r & o2 & s2 & Hg & Hst2 & Hgot); [by apply (rs_bound _ _ _ _ Hst1)|]. rewrite Hg. cbn [mbind outcome_bind].
  destruct (map_survives s1 (PageMap p) o1 s2 o2 Hok1 Hl1 Ha1 Hst2) as (Hok2 & Hl2 & Ha2 & Hn2 & Hp2). pose proof (step_view_kept s1 (PageMap p) o1 o2 s2 Hok1 Hl1 Ha1 Hst2) as Hk2.
  destruct r as [f|].
  2:{ subst St. change (FAILED STATUS_INSUFFICIENT_MEMORY) with true. cbv iota. rewrite Uv. cbn [mbind outcome_bind]. rewrite Us. cbn [mbind outcome_bind]. left. exists o2, s2.
      split; [done|]. split; [by apply (view_kept_trans s _ o o1 s1)|]. intros va' Hva'. by rewrite Hp2, Hp1. }
  destruct Hgot as (-> & Hat & Hrefs & _). change (FAILED STATUS_SUCCESS) with false. cbv iota. cbn [deref mbind outcome_bind].
  destruct (st_pte_wrote s2 (PageMap p) va (MmBuildPte f (write_bits e)) t Hok2 Hpl) as (s3 & Hs3 & Hwr); [rewrite Hn2, Hn1; [done|by apply path_in_tree|by apply path_in_tree]|apply MmBuildPte_range|].
  rewrite Hs3. cbn [mbind outcome_bind]. rewrite Uv. cbn [mbind outcome_bind]. rewrite Us. cbn [mbind outcome_bind]. right. exists f, o1, s1, o2, s3. split; [done|].
  destruct (wrote_view_kept s2 (PageMap p) o2 va _ s3 (rs_ok _ _ _ _ Hst2) Hl2 Ha2 Hwr) as [Hk3 Hat3].
  split; [exact Hprep|exists s2; split; [exact Hg|split; [exact Hwr|by apply (view_kept_trans s _ o o1 s1)]]|by apply (view_kept_trans s _ o o1 s1), (view_kept_trans s1 _ o1 o2 s2)| | |].
  - rewrite Hat3; [exact Hat|]. by apply (rs_bound _ _ _ _ Hst2), (rs_bound _ _ _ _ Hst1).
  - rewrite (wr_refs _ _ _ _ _ Hwr). exact Hrefs.
  - intros va' Hva'. rewrite (wr_pte _ _ _ _ _ Hwr) by exact Hva'. destruct (decide (slot va' = slot va)); [reflexivity|]. by rewrite Hp2, Hp1.
Qed.
End mapped.

(** ** Witnesses *)

(** The space of [Vad] with a view of an empty section. *)
Definition demo_view : MMVAD := mkVad (mkNode 0x10000 16) true 3 true (Some 7) 0.
Definition demo_view_space : aspace := mkAspace [demo_view] (HeapTree demo_space) 1 0 0 {[7 := 1]}.
Definition demo_section : Sla.MMSECTION := Sla.MmpInitializeSectionObject 8192.

Lemma demo_space_of {O : Type} {M : Mappables O pmm} {R : Resident O pmm} {L : ResidentLaws O pmm} (o : O) : mp_ok o fresh_map → apart_from o fresh_map 1 → view_space demo_view_space o fresh_map.
Proof.
  intros Ho Ha. destruct fresh_map_ok as (Hok & _ & _ & Hn & _). pose proof (um_large _ _ (as_map _ _ demo_space_ok)) as Hl.
  split; [|split; cbn; lia|exact Hok|exact Hl|exact Ho|].
  - apply (vads_ok_same [] demo_vad demo_view []); [exact (as_vads _ _ demo_space_ok)|reflexivity|done].
  - intros path p _ Hp. destruct (Hn path p Hp) as [_ ->]. exact Ha.
Qed.

Lemma demo_root_apart max : apart_from (Sla.MmpInitializeSectionObject max) fresh_map 1.
Proof.
  destruct fresh_map_ok as (Hok & _ & _ & Hn & _). apply empty_apart; [exact (po_frames _ _ Hok)|].
  assert (node fresh_map 1 [] = Some 1) as Hr by reflexivity. assert (in_tree []) as Ht by (split_and!; [cbn; lia|constructor|done]).
  destruct (po_pages _ _ Hok [] 1 Ht Hr) as [-> _]. by eexists.
Qed.

Lemma demo_view_ok : view_space demo_view_space demo_section fresh_map.
Proof. apply demo_space_of; [exact (Sla.empty_section_ok fresh_map 8192 (po_frames _ _ (proj1 fresh_map_ok)))|exact (demo_root_apart 8192)]. Qed.

Lemma demo_view_covers : covering demo_view_space 0x11234 demo_view.
Proof. split; [left|unfold node_has, end_, PAGE_SIZE; cbn; lia]. Qed.

Lemma demo_no_entry : pte fresh_map 1 0x11234 = None.
Proof. vm_compute. reflexivity. Qed.

Lemma demo_fault : match MmPageFault STATUS_SUCCESS 0x400000 0x11234 0 demo_view_space demo_section fresh_map with Ok (STATUS_SUCCESS, _, _, _) => True | _ => False end.
Proof. vm_compute. exact I. Qed.

Lemma view_fault_correct_witness :
  ∃ sec' s', MmPageFault STATUS_SUCCESS 0x400000 0x11234 0 demo_view_space demo_section fresh_map = Ok (STATUS_SUCCESS, demo_view_space, sec', s') ∧
    Sla.section_ok s' sec' ∧ is_Some (pte s' 1 0x11234).
Proof.
  pose proof demo_fault as Hs. pose proof demo_no_entry as Hnone.
  destruct (view_fault_correct demo_view_space demo_section fresh_map STATUS_SUCCESS 0x400000 0x11234 0 demo_view 7 demo_view_ok)
    as [(s' & E & _)|[(s0 & sec1 & s1 & E & _)|(f & sec' & s' & E & Hv & _)]]; [unfold user_va; lia|reflexivity|exact demo_view_covers|reflexivity| | |vm_compute; split; [congruence|reflexivity]| | |].
  - change (demandable demo_view (pte fresh_map 1 0x11234) = true). rewrite Hnone. reflexivity.
  - unfold present_entry. change (pte fresh_map (PageMap demo_view_space) 0x11234) with (pte fresh_map 1 0x11234). rewrite Hnone. reflexivity.
  - exfalso. rewrite E in Hs. exact Hs.
  - exfalso. rewrite E in Hs. exact Hs.
  - exists sec', s'. split; [exact E|]. split; [exact (vk_object _ _ _ _ _ (vm_kept _ _ _ _ _ _ _ _ _ Hv))|].
    pose proof (vm_pte _ _ _ _ _ _ _ _ _ Hv 0x11234 ltac:(vm_compute; congruence)) as Hp. destruct (decide _) as [|Hne]; [|destruct (Hne eq_refl)]. eexists. exact Hp.
Defined.

(** What the first fault on a view of any object leaves, for the write that
    follows. *)
Lemma demo_view_mapped {O : Type} {M : Mappables O pmm} {R : Resident O pmm} {L : ResidentLaws O pmm} (o : O) : view_space demo_view_space o fresh_map → mp_bound o (view_offset demo_view 0x11234) →
  match MmPageFault STATUS_SUCCESS 0x400000 0x11234 0 demo_view_space o fresh_map with Ok (STATUS_SUCCESS, _, _, _) => True | _ => False end →
  ∃ f o' s, MmPageFault STATUS_SUCCESS 0x400000 0x11234 0 demo_view_space o fresh_map = Ok (STATUS_SUCCESS, demo_view_space, o', s) ∧
    view_space demo_view_space o' s ∧ present_entry s 1 0x11234 = Some (section_pte f 3) ∧ mp_bound o' (view_offset demo_view 0x11234).
Proof.
  intros Hvo Hb Hs. pose proof demo_no_entry as Hnone. assert (user_va 0x11234) as Hva by (unfold user_va; lia).
  destruct (view_fault demo_view_space o fresh_map STATUS_SUCCESS 0x400000 0x11234 0 demo_view 7 Hvo Hva demo_view_covers eq_refl) as (s0 & Hk & [[_ E]|(t & Hn & E)]).
  - change (demandable demo_view (pte fresh_map 1 0x11234) = true). rewrite Hnone. reflexivity.
  - unfold present_entry. change (pte fresh_map (PageMap demo_view_space) 0x11234) with (pte fresh_map 1 0x11234). rewrite Hnone. reflexivity.
  - exfalso. rewrite E in Hs. exact Hs.
  - destruct (kept_view_kept fresh_map 1 o s0 (vs_object _ _ _ Hvo) (vs_large _ _ _ Hvo) (vs_apart _ _ _ Hvo) Hk) as [Hv _].
    destruct (view_page_spec demo_view_space 0x11234 7 demo_view s0 t o (vk_ok _ _ _ _ _ Hv) (vk_large _ _ _ _ _ Hv) Hva ltac:(cbn; lia) Hn (vk_object _ _ _ _ _ Hv) (vk_apart _ _ _ _ _ Hv))
      as [[Ec _]|(f & o' & s & Ec & Hm & _)]; [by apply (vk_bound _ _ _ _ _ Hv)|exfalso; rewrite E, Ec in Hs; exact Hs|].
    pose proof (view_kept_trans _ _ _ _ _ _ _ Hv (vm_kept _ _ _ _ _ _ _ _ _ Hm)) as Hk2. exists f, o', s. split; [by rewrite E, Ec|]. split; [exact (view_space_kept demo_view_space o fresh_map o' s Hvo Hk2)|]. split.
    + pose proof (vm_pte _ _ _ _ _ _ _ _ _ Hm 0x11234 (proj1 (user_plain _ Hva))) as Hp. rewrite (decide_True (P := slot 0x11234 = slot 0x11234)) in Hp by reflexivity.
      unfold present_entry. change (PageMap demo_view_space) with 1 in Hp. rewrite Hp. change (Protection demo_view) with 3. by rewrite (proj1 (section_pte_bits f 3)).
    + by apply (vk_bound _ _ _ _ _ Hk2).
Qed.

(** ** What goes wrong *)

(** The table is there, and the last two pages are gone. *)
Definition exhausted : pmm :=
  match (r ← MmGetPteLocationCheck 1 0x11234 true fresh_map; a ← pf_alloc r.2; b ← pf_alloc a.2; Ok b.2) with Ok s => s | _ => fresh_map end.

(** Without memory a fault on a view stops the kernel, where one on anonymous
    memory would wait for some. *)
Lemma section_fault_without_memory :
  (∃ s, Sla.MmpGetPageSection demo_section 1 exhausted = Ok (STATUS_INSUFFICIENT_MEMORY, None, demo_section, s)) ∧
  MmPageFault STATUS_SUCCESS 0x400000 0x11234 0 demo_view_space demo_section exhausted = Crash.
Proof.
  split; [|vm_compute; reflexivity].
  assert (match Sla.MmpGetPageSection demo_section 1 exhausted with
    | Ok (St, None, sec, _) => St = STATUS_INSUFFICIENT_MEMORY ∧ sec = demo_section | _ => False end) as H by (vm_compute; split; reflexivity).
  destruct (Sla.MmpGetPageSection demo_section 1 exhausted) as [[[[St [n|]] sec] s]| |]; try destruct H. subst. by exists s.
Qed.
