(* ===== verification/TearDown.v ===== *)
(** The end of an address space: [boron/source/mm/teardown.c].

    Every descriptor is decommitted and released, the heap of free ranges is
    dropped, and the page map is given back, with an assertion that its user
    half is empty. *)
From S2P Require Import Prelude Pmm Pages Sla Pte PageMap PageFree Commit RbTree Heap Vad Mappable Fault MappedFault.
From S2P Require VadRange.
Local Open Scope Z_scope.

(** [MM_USER_SPACE_END] : boron/include/arch/amd64.h:62. *)
Definition MM_USER_SPACE_END : Z := 0x00007FFFFFFFFFFF.

Section teardown.
Context {S : Type} `{PageFrames S}.

(** [MmTearDownProcess] : boron/source/mm/teardown.c:23-47. *)
Fixpoint tear_down_vads (fuel : nat) (p : aspace) (s : S) : outcome (aspace * S) :=
  match GetFirstEntryRbTree (VadTree p) with
  | None => Ok (p, s)
  | Some Vad =>
      match fuel with
      | O => OutOfFuel
      | Datatypes.S fuel =>
          '(p, s) ← MiDecommitVad (key Vad) (StartVa (Node Vad)) (Size (Node Vad)) false (MiLockVadList p) s;
          '(p, s) ← MiReleaseVad (key Vad) (MiLockVadList p) s;
          tear_down_vads fuel p s
      end
  end.

(** [MmTearDownProcess] : boron/source/mm/teardown.c:47-58. *)
Fixpoint tear_down_heap (fuel : nat) (h : MMHEAP) : outcome MMHEAP :=
  match GetFirstEntryRbTree h with
  | None => Ok h
  | Some Node => match fuel with O => OutOfFuel | Datatypes.S fuel => tear_down_heap fuel (RemoveItemRbTree h (key Node)) end
  end.

(** [MmTearDownProcess] : boron/source/mm/teardown.c:64-69. *)
Fixpoint check_empty (n : nat) (PageMap i : Z) (s : S) : outcome unit :=
  match n with
  | O => Ok ()
  | Datatypes.S n =>
      Pte ← ld_pte PageMap i s;
      _ ← check (negb (MmIsPresentPte Pte));
      check_empty n PageMap (i + 1) s
  end.

(** [MmTearDownProcess] : boron/source/mm/teardown.c:17-87.
    What is left of the address space. *)
Definition MmTearDownProcess (p : aspace) (s : S) : outcome (aspace * S) :=
  '(p, s) ← tear_down_vads (length (VadTree p)) p s;
  h ← tear_down_heap (length (HeapTree p)) (HeapTree p);
  let p := set_HeapTree h p in
  s ← MiFreeUnusedMappingLevelsInCurrentMap (PageMap p) 0 (Z.shiftr (MM_USER_SPACE_END + 1) 12) s;
  _ ← check_empty 256 (PageMap p) 0 s;
  s ← (if negb (PageMap p =? 0) then MiFreePageMapping (PageMap p) s else Ok s);
  Ok (p, s).
End teardown.

Section proofs.
Context {S : Type} `{PageFrameLaws S}.

(** A frame that is mapped in one of the descriptors. *)
Definition mapped_in (vs : list MMVAD) (s : S) (root f : Z) : Prop := ∃ va, user_va va ∧ reserved vs va ∧ f ∈ mapped_frame s root va.

Lemma reserved_dec vs va : {reserved vs va} + {¬ reserved vs va}.
Proof.
  induction vs as [|v vs IH]; [right; apply reserved_nil|]. destruct (decide (StartVa (Node v) ≤ va ∧ va < end_ (Node v))) as [Hv|Hv].
  - left. apply reserved_cons. by left.
  - destruct IH as [Hr|Hr]; [left; apply reserved_cons; by right|right]. rewrite reserved_cons. unfold node_has. tauto.
Qed.

(** One reference less. *)
Definition lose (o : option Z) : option Z := match o with Some r => if r =? 1 then None else Some (r - 1) | None => None end.

(** The references that the descriptors have to objects are dropped. *)
Definition drop_refs (vs : list MMVAD) (m : gmap Z Z) : gmap Z Z :=
  foldl (λ m v, match MappedObject v with Some o => alter (λ r, r + -1) o m | None => m end) m vs.

(** What is left when the descriptors [vs] are gone. *)
Record torn (vs : list MMVAD) (p : aspace) (s : S) (p' : aspace) (s' : S) : Prop := {
  tn_ok : as_ok p' s';
  tn_full : no_full s' (PageMap p);
  tn_same : PageMap p' = PageMap p ∧ VadLocks p' = VadLocks p ∧ SpaceLocks p' = SpaceLocks p;
  tn_objects : Objects p' = drop_refs vs (Objects p);
  tn_node path t : in_tree path → node s' (PageMap p) path = Some t → node s (PageMap p) path = Some t;
  tn_freed path t : in_tree path → node s (PageMap p) path = Some t → node s' (PageMap p) path = None → pf_refs s' t = None;
  tn_blank va : user_va va → reserved vs va ∨ blank (pte s (PageMap p) va) → blank (pte s' (PageMap p) va);
  tn_mapped va : user_va va → ¬ reserved vs va → mapped_frame s' (PageMap p) va = mapped_frame s (PageMap p) va;
  tn_lost f : off_tree s (PageMap p) f → mapped_in vs s (PageMap p) f → pf_refs s' f = lose (pf_refs s f);
  tn_kept f : off_tree s (PageMap p) f → ¬ mapped_in vs s (PageMap p) f → pf_refs s' f = pf_refs s f;
  tn_none m : pf_refs s m = None → pf_refs s' m = None;
}.

Lemma blank_no_frame s root va : blank (pte s root va) → mapped_frame s root va = [].
Proof. unfold mapped_frame. intros [-> | ->]; done. Qed.

(** Decommitting a whole descriptor without marks. *)
Lemma decommit_first p s v y : as_ok p s → no_full s (PageMap p) → VadTree p = v :: y → 0 ≤ VadLocks p → 0 ≤ SpaceLocks p →
  let v' := after_decommit v (StartVa (Node v)) (Size (Node v)) in
  ∃ s1, MiDecommitVad (key v) (StartVa (Node v)) (Size (Node v)) false (MiLockVadList p) s = Ok (set_VadTree (v' :: y) p, s1) ∧
    as_ok (set_VadTree (v' :: y) p) s1 ∧ no_full s1 (PageMap p) ∧ decommitted false 0 s (PageMap p) (StartVa (Node v)) (Z.to_nat (Size (Node v))) s1 ∧
    ∀ va, user_va va → node_has (Node v) va → ¬ present s1 (PageMap p) va.
Proof.
  intros Hok Hf Ev Hvl Hsl v'. assert (vad_ok v) as [Hun Hvo] by (eapply vads_ok_in; [apply (as_vads _ _ Hok)|rewrite Ev; set_solver]).
  pose proof (node_user_range _ Hun) as Hr. assert (0 < Size (Node v)) as Hsz by (destruct Hun as [(_ & _ & ? & _) _]; done).
  destruct (decommit_vad (MiLockVadList p) s [] v y (StartVa (Node v)) (Z.to_nat (Size (Node v))) false) as (s1 & Hs1 & Hu1 & Hd); cbn; try done; [apply Hok|apply Hok|lia|].
  rewrite Z2Nat.id in Hs1, Hd by lia. fold v' in Hs1, Hd. rewrite andb_false_r in Hd. change (decommit_mark false) with 0 in Hd. cbn [PageMap MiLockVadList set_VadLocks] in Hd, Hu1.
  exists s1. assert (set_VadLocks (VadLocks (MiLockVadList p) - 1) (set_VadTree ([] ++ v' :: y) (MiLockVadList p)) = set_VadTree (v' :: y) p) as E.
  { destruct p as [t h m vl sl o]. cbn. by replace (vl + 1 - 1) with vl by lia. }
  rewrite E in Hs1. split; [exact Hs1|]. destruct (after_decommit_same v (StartVa (Node v)) (Size (Node v))) as (E1 & E2 & E3).
  split; [|split; [|split; [exact Hd|]]].
  - apply (as_ok_step p s _ s1 [] v v' y); try done; [unfold v'; by rewrite E2, E3|]. intros va Hva Hp. by destruct (decommitted_present _ _ _ _ _ _ _ Hd Hr eq_refl va Hva Hp).
  - apply (no_full_decommitted s (PageMap p) _ _ s1 Hd (um_ok _ _ (as_map _ _ Hok)) (user_range_ok _ _ Hr) Hf).
  - intros va Hva Hin Hp. destruct (decommitted_present _ _ _ _ _ _ _ Hd Hr eq_refl va Hva Hp) as [_ Hne].
    apply (node_slot (Node v) va Hun Hva) in Hin as (i & Hi & Es). by apply (Hne i Hi).
Qed.

Lemma reserved_one v va : reserved [v] va ↔ node_has (Node v) va.
Proof. rewrite reserved_cons. pose proof (reserved_nil va). tauto. Qed.

(** One descriptor is decommitted and released. *)
Lemma torn_one p s v y : as_ok p s → no_full s (PageMap p) → VadTree p = v :: y → 0 ≤ VadLocks p → 0 ≤ SpaceLocks p →
  ∃ p1 s1 p2 s2, MiDecommitVad (key v) (StartVa (Node v)) (Size (Node v)) false (MiLockVadList p) s = Ok (p1, s1) ∧
    MiReleaseVad (key v) (MiLockVadList p1) s1 = Ok (p2, s2) ∧ VadTree p2 = y ∧ torn [v] p s p2 s2.
Proof.
  intros Hok Hf Ev Hvl Hsl. destruct (decommit_first p s v y Hok Hf Ev Hvl Hsl) as (s1 & Hd & Hok1 & Hf1 & Hdc & Hab).
  set (v' := after_decommit v (StartVa (Node v)) (Size (Node v))) in *. destruct (after_decommit_same v (StartVa (Node v)) (Size (Node v))) as (En & Eo & _). fold v' in En, Eo.
  assert (vad_ok v) as [Hun _] by (eapply vads_ok_in; [apply (as_vads _ _ Hok)|rewrite Ev; set_solver]).
  destruct (release_vad (MiLockVadList (set_VadTree (v' :: y) p)) s1 [] v' y) as (p2 & s2 & Hr & R & Et & El); cbn; try done; [by destruct Hok1|lia|by rewrite En|].
  exists (set_VadTree (v' :: y) p), s1, p2, s2. split; [exact Hd|]. split; [by unfold key, vad_key in *; rewrite <-En|]. split; [exact Et|].
  destruct R as [R1 _ C R4 R5 R6]. cbn [PageMap MiLockVadList set_VadLocks set_VadTree] in C, R4. rewrite En in C. cbn in El, R5.
  assert (∀ va, user_va va → node_has (Node v) va → ∃ i, (i < Z.to_nat (Size (Node v)))%nat ∧ slot va = slot (nth_page (StartVa (Node v)) i)) as Hin by (intros va Hva; by apply node_slot).
  assert (∀ va, user_va va → ¬ node_has (Node v) va → ∀ i, (i < Z.to_nat (Size (Node v)))%nat → slot va ≠ slot (nth_page (StartVa (Node v)) i)) as Hout.
  { intros va Hva Hno i Hi E. apply Hno, node_slot; [done|done|]. by exists i. }
  assert (∀ f, f ∈ frames_of present_only s (PageMap p) (StartVa (Node v)) (Z.to_nat (Size (Node v))) ↔ mapped_in [v] s (PageMap p) f) as Hfr.
  { intros f. rewrite frames_of_in. pose proof (node_user_range _ Hun) as Hrg. split.
    - intros (i & Hi & Hm). assert (user_va (nth_page (StartVa (Node v)) i)) as Hva by (by eapply user_va_nth). exists (nth_page (StartVa (Node v)) i). split; [done|]. split; [|done].
      apply reserved_one, node_slot; [done|done|]. by exists i.
    - intros (va & Hva & Hre & Hm). apply reserved_one in Hre. destruct (Hin va Hva Hre) as (i & Hi & E). exists i. split; [done|].
      unfold mapped_frame in *. by rewrite <-(slot_pte _ _ _ _ E). }
  assert (∀ f, off_tree s (PageMap p) f → pf_refs s2 f = pf_refs s1 f) as Hoff.
  { intros f Ho. destruct (cl_refs _ _ _ _ C f) as [?|(_ & path & Ht & Hn)]; [done|]. rewrite (dc_node _ _ _ _ _ _ _ Hdc path eq_refl Ht) in Hn. by destruct (Ho path Ht). }
  assert (∀ m, pf_refs s m = None → pf_refs s1 m = None) as Hno.
  { intros m Hm. destruct (pf_refs s1 m) as [r|] eqn:E; [|done]. destruct (dc_used _ _ _ _ _ _ _ Hdc m eq_refl) as [? ?]; [by rewrite E|congruence]. }
  split.
  - exact R1.
  - apply (cl_full _ _ _ _ C).
  - split; [exact R4|]. split; [rewrite El; lia|exact R5].
  - rewrite R6, Eo. cbn. by destruct (MappedObject v).
  - intros path t Ht Hn. rewrite <-(dc_node _ _ _ _ _ _ _ Hdc path eq_refl Ht). by apply (cl_node _ _ _ _ C).
  - intros path t Ht Hn. rewrite <-(dc_node _ _ _ _ _ _ _ Hdc path eq_refl Ht) in Hn. by apply (cl_freed _ _ _ _ C).
  - intros va Hva Hb. apply (cl_blank _ _ _ _ C va Hva). rewrite reserved_one in Hb. destruct (in_range va (StartVa (Node v)) (Z.to_nat (Size (Node v)))) as [(i & Hi & E)|Hno'].
    + pose proof (dc_pte _ _ _ _ _ _ _ Hdc i Hi) as Hq. rewrite <-!(slot_pte _ _ _ _ E) in Hq. destruct (pte s (PageMap p) va); [by right|]. destruct Hq as [?|[? _]]; [by left|done].
    + destruct Hb as [Hb|Hb]; [destruct (Hin va Hva Hb) as (i & Hi & E); by destruct (Hno' i Hi)|].
      by rewrite (dc_same _ _ _ _ _ _ _ Hdc va eq_refl (proj1 (user_plain va Hva)) Hno').
  - intros va Hva Hre. rewrite reserved_one in Hre. pose proof (cl_other _ _ _ _ C va Hva Hre) as Ho.
    rewrite (dc_same _ _ _ _ _ _ _ Hdc va eq_refl (proj1 (user_plain va Hva)) (Hout va Hva Hre)) in Ho. unfold mapped_frame.
    destruct (pte s (PageMap p) va); [destruct Ho as [->|[-> ->]]; done|by rewrite Ho].
  - intros f Ho Hm. rewrite (Hoff f Ho). pose proof Hm as (va & Hva & _ & Hmf). destruct (um_foreign _ _ (as_map _ _ Hok) va f Hva Hmf) as [[r Er] _].
    pose proof (dc_refs _ _ _ _ _ _ _ Hdc f r Er) as Hq. rewrite decide_True in Hq by (by apply Hfr). rewrite Er. unfold lose. destruct Hq as [H1' H2'].
    destruct (Z.eqb_spec r 1); [by apply H2'|by apply H1'].
  - intros f Ho Hm. rewrite (Hoff f Ho). destruct (pf_refs s f) as [r|] eqn:Er; [|by apply Hno].
    pose proof (dc_refs _ _ _ _ _ _ _ Hdc f r Er) as Hq. rewrite decide_False in Hq by (by rewrite Hfr). done.
  - intros m Hm. destruct (cl_refs _ _ _ _ C m) as [->|[-> _]]; [by apply Hno|done].
Qed.

Lemma mapped_in_cons v y s root f : mapped_in (v :: y) s root f ↔ mapped_in [v] s root f ∨ mapped_in y s root f.
Proof.
  split.
  - intros (va & Hva & [Hr|Hr]%reserved_cons & Hm); [left; exists va; by rewrite reserved_one|right; by exists va].
  - intros [(va & Hva & Hr & Hm)|(va & Hva & Hr & Hm)]; exists va; rewrite reserved_cons; [rewrite reserved_one in Hr|]; by auto.
Qed.

Lemma torn_cons v y p s p1 s1 p2 s2 : as_ok p s → VadTree p = v :: y → torn [v] p s p1 s1 → torn y p1 s1 p2 s2 → torn (v :: y) p s p2 s2.
Proof.
  intros Hok Ev A B. pose proof (tn_same _ _ _ _ _ A) as (Em & Evl & Esl). pose proof (as_vads _ _ Hok) as Ht. rewrite Ev in Ht.
  destruct B as [B1 B2 B3 B4 B5 B6 B7 B8 B9 B10 B11]. rewrite Em, Evl, Esl in *.
  assert (∀ va, node_has (Node v) va → ¬ reserved y va) as Hdis by (intros va; apply (vads_disjoint [] v y va Ht)).
  assert (∀ va, reserved y va → ¬ reserved [v] va) as Hy by (intros va Hr; rewrite reserved_one; intros Hn; by apply (Hdis va)).
  assert (∀ f, mapped_in y s1 (PageMap p) f ↔ mapped_in y s (PageMap p) f) as Hmy.
  { intros f. split; intros (va & Hva & Hr & Hm); exists va; (split; [done|]); (split; [done|]); [rewrite <-(tn_mapped _ _ _ _ _ A)|rewrite (tn_mapped _ _ _ _ _ A)]; auto. }
  assert (∀ f, mapped_in [v] s (PageMap p) f → ¬ mapped_in y s (PageMap p) f) as Honce.
  { intros f (va & Hva & Hr & Hm) (va' & Hva' & Hr' & Hm'). pose proof (um_once _ _ (as_map _ _ Hok) va va' f Hva Hva' Hm Hm') as E. rewrite reserved_one in Hr.
    apply (Hdis va'); [|done]. assert (vad_ok v) as [Hun _] by (eapply vads_ok_in; [exact Ht|set_solver]). apply (node_slot (Node v) va Hun Hva) in Hr as (i & Hi & Es).
    apply (node_slot (Node v) va' Hun Hva'). exists i. split; [done|]. by rewrite <-E. }
  assert (∀ f, off_tree s (PageMap p) f → off_tree s1 (PageMap p) f) as Hoff by (intros f Ho path Htr Hn; by apply (Ho path Htr), (tn_node _ _ _ _ _ A)).
  split.
  - exact B1.
  - exact B2.
  - exact B3.
  - rewrite B4, (tn_objects _ _ _ _ _ A). done.
  - intros path t Htr Hn. by apply (tn_node _ _ _ _ _ A), B5.
  - intros path t Htr Hn Hn2. destruct (node s1 (PageMap p) path) as [q|] eqn:E.
    + pose proof (tn_node _ _ _ _ _ A path q Htr E) as Eq. rewrite Hn in Eq. injection Eq as <-. by apply (B6 path).
    + by apply B11, (tn_freed _ _ _ _ _ A path).
  - intros va Hva Hb. apply B7; [done|]. rewrite reserved_cons in Hb. destruct Hb as [[Hb|Hb]|Hb]; [right|by left|right]; apply (tn_blank _ _ _ _ _ A va Hva); [left; by apply reserved_one|by right].
  - intros va Hva Hr. rewrite reserved_cons in Hr. rewrite B8 by tauto. apply (tn_mapped _ _ _ _ _ A); [done|]. rewrite reserved_one. tauto.
  - intros f Ho [Hm|Hm]%mapped_in_cons.
    + rewrite B10; [by apply (tn_lost _ _ _ _ _ A)|by apply Hoff|]. rewrite Hmy. by apply Honce.
    + rewrite B9; [|by apply Hoff|by apply Hmy]. f_equal. apply (tn_kept _ _ _ _ _ A); [done|]. intros Hv. by apply (Honce f).
  - intros f Ho Hm. rewrite mapped_in_cons in Hm. rewrite B10; [|by apply Hoff|rewrite Hmy; tauto]. apply (tn_kept _ _ _ _ _ A); [done|tauto].
  - intros m Hm. by apply B11, (tn_none _ _ _ _ _ A).
Qed.

Lemma torn_nil p s : as_ok p s → no_full s (PageMap p) → torn [] p s p s.
Proof.
  intros Hok Hf. split; try done; [by intros path t _ -> |intros va _ [Hr|]; [by apply reserved_nil in Hr|done]|].
  intros f _ (va & _ & Hr & _). by apply reserved_nil in Hr.
Qed.

Lemma tear_down_vads_spec vs : ∀ p s, VadTree p = vs → as_ok p s → no_full s (PageMap p) → 0 ≤ VadLocks p → 0 ≤ SpaceLocks p →
  ∃ p' s', tear_down_vads (length vs) p s = Ok (p', s') ∧ torn vs p s p' s' ∧ VadTree p' = [].
Proof.
  induction vs as [|v y IH]; intros p s Ev Hok Hf Hvl Hsl; cbn [length tear_down_vads]; rewrite Ev; cbn [GetFirstEntryRbTree head].
  { exists p, s. split; [done|]. split; [by apply torn_nil|done]. }
  destruct (torn_one p s v y Hok Hf Ev Hvl Hsl) as (p1 & s1 & p2 & s2 & -> & Hr & Et & T). cbn [mbind outcome_bind]. rewrite Hr. cbn [mbind outcome_bind].
  destruct (tn_same _ _ _ _ _ T) as (Em & El & Es).
  destruct (IH p2 s2 Et (tn_ok _ _ _ _ _ T)) as (p' & s' & -> & T' & Et'); [rewrite Em; apply (tn_full _ _ _ _ _ T)|by rewrite El|by rewrite Es|].
  exists p', s'. split; [done|]. split; [by apply (torn_cons v y p s p2 s2)|done].
Qed.

Lemma tear_down_heap_spec h : tear_down_heap (length h) h = Ok [].
Proof.
  induction h as [|n h IH]; [done|]. cbn [length tear_down_heap GetFirstEntryRbTree head].
  assert (RemoveItemRbTree (n :: h) (key n) = h) as -> by (apply (remove_at []); by intros ? ?%elem_of_nil). exact IH.
Qed.

Lemma check_empty_spec s root n : pm_ok s root → ∀ i, 0 ≤ i → i + Z.of_nat n ≤ 512 → (∀ j, i ≤ j < i + Z.of_nat n → MmIsPresentPte (word_at s root j) = false) →
  check_empty n root i s = Ok ().
Proof.
  intros Hok. induction n as [|n IH]; intros i Hi Hn Hp; [done|]. cbn [check_empty].
  assert (in_tree []) as Ht by (split_and!; [cbn; lia|constructor|done]).
  rewrite (good_ld s root i) by (first [by apply (po_pages s root Hok [])|unfold digit; lia]). cbn [mbind outcome_bind]. rewrite Hp by lia. cbn [negb check mbind outcome_bind].
  apply IH; [lia|lia|]. intros j Hj. apply Hp. lia.
Qed.

(** The entries of the user half are those of its last-level tables. *)
Lemma blank_user s root : (∀ va, user_va va → blank (pte s root va)) → ∀ j, 0 ≤ j < 256 → blank_below s root [j].
Proof.
  intros Hb j Hj path p k Ht Hl Hp Hk. destruct path as [|i3 [|i2 [|]]]; try done. cbn [app] in *. pose proof Ht as (_ & Hd & _). rewrite !Forall_cons in Hd. destruct Hd as (D4 & D3 & D2 & _).
  pose proof (slot_address j i3 i2 k D4 D3 D2 Hk) as Hs. assert (user_va (entry_address j i3 i2 k)) as Hva by (unfold user_va, entry_address, digit in *; lia).
  specialize (Hb _ Hva).
  assert (path_of (entry_address j i3 i2 k) = [j; i3; i2] ∧ PML_IDX 1 (entry_address j i3 i2 k) = k) as [Ep Ej] by (unfold slot in Hs; split; congruence). unfold pte in Hb. rewrite Ep, Hp, Ej in Hb. destruct Hb as [E|E]; [done|by injection E].
Qed.

Definition user_path (path : list Z) : Prop := match path with [] => True | i :: _ => i < 256 end.

Lemma user_path_gone s root : (∀ j, 0 ≤ j < 256 → MmIsPresentPte (word_at s root j) = false) → ∀ path, in_tree path → user_path path → path ≠ [] → node s root path = None.
Proof.
  intros Hp [|i path] (_ & Hd & _) Hu Hne; [done|]. cbn [node]. rewrite leads_to_absent; [done|]. apply Hp. apply Forall_cons in Hd as [Hd _]. unfold digit in Hd. cbn in Hu. lia.
Qed.

(** C33: the end of an address space in memory below 4 GiB, when no last-level
    table is completely filled, and no entry outside of the descriptors is in use
    (which [MiCleanUpVad] can leave, as [stale_entry_stops_teardown] shows): the
    loops end and the assertions hold.  No descriptor, free range or reference
    to a mapped object is left, and no lock; every table of the user half and
    the topmost one are free; a frame that was mapped in the user half has lost
    that one reference, and is free if it was the last; every other frame is as
    it was. *)
Theorem MmTearDownProcess_correct p s : as_ok p s → no_full s (PageMap p) → 0 ≤ VadLocks p → 0 ≤ SpaceLocks p → PageMap p ≠ 0 →
  (∀ va, user_va va → ¬ reserved (VadTree p) va → blank (pte s (PageMap p) va)) →
  ∃ s', MmTearDownProcess p s = Ok (mkAspace [] [] (PageMap p) (VadLocks p) (SpaceLocks p) (drop_refs (VadTree p) (Objects p)), s') ∧ pf_ok s' ∧
    (∀ path t, in_tree path → user_path path → node s (PageMap p) path = Some t → pf_refs s' t = None) ∧
    (∀ f, off_tree s (PageMap p) f → (∃ va, user_va va ∧ f ∈ mapped_frame s (PageMap p) va) → pf_refs s' f = lose (pf_refs s f)) ∧
    ∀ f, off_tree s (PageMap p) f → (∀ va, user_va va → f ∉ mapped_frame s (PageMap p) va) → pf_refs s' f = pf_refs s f.
Proof.
  intros Hok Hf Hvl Hsl Hroot Hblank. unfold MmTearDownProcess. destruct (tear_down_vads_spec (VadTree p) p s eq_refl Hok Hf Hvl Hsl) as (p1 & s1 & -> & T & Et).
  cbn [mbind outcome_bind]. rewrite tear_down_heap_spec. cbn [mbind outcome_bind PageMap set_HeapTree]. destruct (tn_same _ _ _ _ _ T) as (Em & El & Es). rewrite Em.
  pose proof (tn_ok _ _ _ _ _ T) as Hok1. pose proof (as_map _ _ Hok1) as Hu. rewrite Em in Hu.
  assert (∀ va, user_va va → blank (pte s1 (PageMap p) va)) as Hall.
  { intros va Hva. apply (tn_blank _ _ _ _ _ T va Hva). destruct (reserved_dec (VadTree p) va) as [Hr|Hr]; [by left|right; by apply Hblank]. }
  change (Z.shiftr (MM_USER_SPACE_END + 1) 12) with (2 ^ 35).
  destruct (free_unused_levels_all s1 (PageMap p) 0 (2 ^ 35) (um_ok _ _ Hu) (um_large _ _ Hu) (tn_full _ _ _ _ _ T)) as (s2 & -> & P & Hgone & _); [done|vm_compute; congruence|vm_compute; reflexivity|].
  cbn [mbind outcome_bind]. specialize (Hgone (blank_user s1 (PageMap p) Hall)). change (PML_IDX 4 0) with 0 in Hgone. change ((2 ^ 35 + 512 ^ 3 - 1) / 512 ^ 3) with 256 in Hgone.
  rewrite (check_empty_spec s2 (PageMap p) 256 (pr_ok _ _ _ P) 0) by (done || lia). cbn [mbind outcome_bind]. rewrite (proj2 (Z.eqb_neq _ _) Hroot). cbn [negb]. unfold MiFreePageMapping.
  assert (in_tree []) as Ht0 by (split_and!; [cbn; lia|constructor|done]).
  destruct (po_pages s2 (PageMap p) (pr_ok _ _ _ P) [] (PageMap p) Ht0 eq_refl) as [Hr1 _].
  destruct (pf_free_spec s2 (PageMap p) 1 (po_frames _ _ (pr_ok _ _ _ P)) Hr1) as (s3 & -> & Hpf3 & _ & Hrr & Ho). cbn [mbind outcome_bind]. change (1 =? 1) with true in Hrr. cbv iota in Hrr. exists s3.
  split.
  { destruct p1 as [t h m vl sl o]. cbn in Et, Em, El, Es. pose proof (tn_objects _ _ _ _ _ T) as Eo. cbn in Eo. by rewrite Et, Em, El, Es, Eo. }
  split; [exact Hpf3|].
  assert (∀ f, off_tree s (PageMap p) f → pf_refs s3 f = pf_refs s1 f) as Hoff.
  { intros f Hf0. rewrite Ho by (intros ->; by apply (Hf0 [] Ht0)). destruct (pr_refs _ _ _ P f) as [?|(_ & path & Ht & Hn)]; [done|].
    destruct (Hf0 path Ht). by apply (tn_node _ _ _ _ _ T). }
  split; [|split].
  - intros path t Ht Hup Hn. destruct (decide (t = PageMap p)) as [->|Hne]; [done|]. rewrite Ho by done.
    assert (path ≠ []) as Hne0 by (intros ->; cbn in Hn; congruence).
    assert (node s2 (PageMap p) path = None) as Hn2 by (apply user_path_gone; try done; intros j Hj; by apply Hgone).
    destruct (node s1 (PageMap p) path) as [q|] eqn:E1.
    + pose proof (tn_node _ _ _ _ _ T path q Ht E1) as Eq. rewrite Hn in Eq. injection Eq as <-. by apply (pr_freed _ _ _ P path).
    + pose proof (tn_freed _ _ _ _ _ T path t Ht Hn E1) as E. destruct (pr_refs _ _ _ P t) as [->|[-> _]]; done.
  - intros f Hf0 (va & Hva & Hm). rewrite (Hoff f Hf0). apply (tn_lost _ _ _ _ _ T); [done|]. exists va. split; [done|]. split; [|done].
    destruct (reserved_dec (VadTree p) va) as [Hr|Hr]; [done|]. rewrite (blank_no_frame _ _ _ (Hblank va Hva Hr)) in Hm. by apply elem_of_nil in Hm.
  - intros f Hf0 Hm. rewrite (Hoff f Hf0). apply (tn_kept _ _ _ _ _ T); [done|]. intros (va & Hva & _ & Hin). by apply (Hm va).
Qed.
End proofs.

(** ** Witness *)

(** A view of the section 7, of which one page was touched: its table is there,
    and the page is mapped with a reference of its own. *)
Definition touched : pmm :=
  match MmPageFault STATUS_SUCCESS 0x400000 0x11234 0 demo_view_space demo_section fresh_map with Ok (_, _, _, s) => s | _ => fresh_map end.

Lemma touched_ok : pm_ok touched 1 ∧ no_large touched 1.
Proof.
  destruct (demo_view_mapped demo_section demo_view_ok ltac:(vm_compute; split; [congruence|reflexivity]) demo_fault) as (f & o' & s & E & Hv & _).
  unfold touched. rewrite E. exact (conj (vs_map _ _ _ Hv) (vs_large _ _ _ Hv)).
Qed.

(** Only the entry of the page is in use. *)
Lemma touched_entries va : user_va va → blank (pte touched 1 va) ∨ slot va = slot 0x11234 ∧ pte touched 1 va = pte touched 1 0x11234.
Proof.
  intros Hva. pose proof (path_in_tree va (proj1 (user_plain va Hva))) as Ht. destruct (node touched 1 (path_of va)) as [p|] eqn:Hp; [|left; left; unfold pte; by rewrite Hp].
  destruct (decide (slot va = slot 0x11234)) as [E|E]; [right; split; [exact E|exact (slot_pte _ _ _ _ E)]|left; right].
  assert (∀ path p, in_tree path → node touched 1 path = Some p → length path = 3%nat → ∀ j, digit j → (path, j) ≠ slot 0x11234 → word_at touched p j = 0) as Hz.
  { apply (tables_check (S := pmm) (λ path p, length path = 3%nat → ∀ j, digit j → (path, j) ≠ slot 0x11234 → word_at touched p j = 0) (λ path p, negb (length path =? 3)%nat || forallb (λ j, bool_decide ((path, j) = slot 0x11234) || (word_at touched p j =? 0)) (seqZ 0 512))); [|vm_compute; reflexivity].
    intros path q Hc Hl j Hj Hne. rewrite Hl in Hc. cbn [Nat.eqb negb orb] in Hc. rewrite forallb_forall in Hc.
    specialize (Hc j). rewrite bool_decide_false in Hc by exact Hne. apply Z.eqb_eq, Hc, list_elem_of_In, elem_of_seqZ. unfold digit in Hj. lia. }
  unfold pte. rewrite Hp. f_equal. apply (Hz (path_of va)); [exact Ht|exact Hp|reflexivity|apply digit_PML|exact E].
Qed.

Lemma touched_frame : ∃ f, pte touched 1 0x11234 = Some (section_pte f 3) ∧ mapped_frame touched 1 0x11234 = [f] ∧ pf_refs touched f = Some 2 ∧ off_tree touched 1 f.
Proof.
  exists 5. split; [vm_compute; reflexivity|]. split; [vm_compute; reflexivity|]. split; [vm_compute; reflexivity|].
  intros path Ht. destruct (node touched 1 path) as [q|] eqn:Hq; [|discriminate]. intros [= ->].
  assert (∀ path p, in_tree path → node touched 1 path = Some p → p ≠ 5) as Hne; [|exact (Hne path 5 Ht Hq eq_refl)].
  apply (tables_check (S := pmm) (λ _ p, p ≠ 5) (λ _ p, negb (p =? 5))); [|vm_compute; reflexivity]. intros _ p Hc%negb_true_iff%Z.eqb_neq. exact Hc.
Qed.

Lemma view_page_reserved va : user_va va → slot va = slot 0x11234 → reserved [demo_view] va.
Proof.
  intros Hva E. apply reserved_one. pose proof (as_vads _ _ demo_space_ok) as A1.
  apply (node_slot _ va (proj1 (vads_ok_in _ demo_vad A1 (list_elem_of_here _ _))) Hva). exists 1%nat. split; [cbn; lia|].
  rewrite E. vm_compute. reflexivity.
Qed.

(** The space of a view, one page of which is mapped. *)
Lemma one_page_space (s : pmm) f : pm_ok s 1 → no_large s 1 → (∀ va, user_va va → blank (pte s 1 va) ∨ slot va = slot 0x11234 ∧ pte s 1 va = pte s 1 0x11234) →
  pte s 1 0x11234 = Some (section_pte f 3) → mapped_frame s 1 0x11234 = [f] → pf_refs s f = Some 2 → off_tree s 1 f → as_ok demo_view_space s.
Proof.
  intros Hok Hl Hent Hp Hm Hr Hoff. pose proof demo_space_ok as [A1 A2 A3 A4 _ _].
  assert (∀ va g, user_va va → g ∈ mapped_frame s 1 va → slot va = slot 0x11234 ∧ g = f) as Hone.
  { intros va g Hva Hg. destruct (Hent va Hva) as [Hb|[E Ep]]; [rewrite (blank_no_frame _ _ _ Hb) in Hg; by apply elem_of_nil in Hg|].
    unfold mapped_frame in *. rewrite Ep, Hm in Hg. apply list_elem_of_singleton in Hg. split; [exact E|exact Hg]. }
  split.
  - exact (vads_ok_same [] demo_vad demo_view [] A1 eq_refl ltac:(done)).
  - exact A2.
  - exact A3.
  - intros a [Hh Hr']. apply (A4 a). split; [exact Hh|]. apply reserved_one. apply reserved_one in Hr'. exact Hr'.
  - change (PageMap demo_view_space) with 1. split; [exact Hok|exact Hl| | |].
    + intros va e Hva He. destruct (Hent va Hva) as [[E|E]|[_ E]]; rewrite E in He; [discriminate|injection He as <-; reflexivity|].
      rewrite Hp in He. injection He as <-. unfold known. by rewrite (proj1 (section_pte_bits f 3)).
    + intros va g Hva Hg. destruct (Hone va g Hva Hg) as [_ ->]. split; [exists 2; exact Hr|exact Hoff].
    + intros va va' g Hva Hva' Hg Hg'. destruct (Hone va g Hva Hg) as [-> _]. destruct (Hone va' g Hva' Hg') as [-> _]. reflexivity.
  - change (PageMap demo_view_space) with 1. intros va Hva (e & He & Hpr). destruct (Hent va Hva) as [[E|E]|[E _]].
    + rewrite E in He. discriminate.
    + rewrite E in He. injection He as <-. discriminate.
    + exact (view_page_reserved va Hva E).
Qed.

Lemma touched_space : as_ok demo_view_space touched.
Proof.
  destruct touched_ok as [Hok Hl]. destruct touched_frame as (f & Hp & Hm & Hr & Hoff).
  exact (one_page_space touched f Hok Hl touched_entries Hp Hm Hr Hoff).
Qed.

(** The page loses the reference of the view and stays with the section; the
    table and the page map are free, and the section has a reference less. *)
Lemma MmTearDownProcess_correct_witness :
  ∃ f s', mapped_frame touched 1 0x11234 = [f] ∧ pf_refs touched f = Some 2 ∧ node touched 1 [0; 0; 0] = Some 4 ∧
    MmTearDownProcess demo_view_space touched = Ok (mkAspace [] [] 1 0 0 {[7 := 0]}, s') ∧
    pf_refs s' f = Some 1 ∧ pf_refs s' 4 = None ∧ pf_refs s' 1 = None.
Proof.
  destruct touched_frame as (f & Hp & Hm & Hr & Hoff). exists f.
  destruct (MmTearDownProcess_correct demo_view_space touched touched_space) as (s' & E & _ & Hfree & Hlost & _).
  - apply no_full_check. vm_compute. reflexivity.
  - cbn. lia.
  - cbn. lia.
  - discriminate.
  - intros va Hva Hno. destruct (touched_entries va Hva) as [Hb|[Es _]]; [exact Hb|]. destruct Hno. exact (view_page_reserved va Hva Es).
  - assert (node touched 1 [0; 0; 0] = Some 4) as Hn by (vm_compute; reflexivity).
    exists s'. split; [exact Hm|]. split; [exact Hr|]. split; [exact Hn|]. split; [exact E|]. split; [|split].
    + specialize (Hlost f Hoff). rewrite Hr in Hlost. apply Hlost. exists 0x11234. split; [unfold user_va; lia|]. change (PageMap demo_view_space) with 1. rewrite Hm. by left.
    + apply (Hfree [0; 0; 0] 4); [split_and!; [cbn; lia|repeat constructor; unfold digit; lia|discriminate]|reflexivity|exact Hn].
    + apply (Hfree [] 1); [split_and!; [cbn; lia|constructor|discriminate]|exact I|reflexivity].
Defined.

(** ** What goes wrong *)

(** The run of [VadRange.stale_entry_left]: after committing, decommitting and
    releasing, the end of the process stops the kernel. *)
Lemma stale_entry_stops_teardown :
  let '(p, s) := VadRange.after (MmCommitVirtualMemory 0x200000 1 0 VadRange.border_space fresh_map) in
  let '(p, s) := VadRange.after (MmDecommitVirtualMemory 0x1FF000 4 p s) in
  let '(p, s) := VadRange.after (MmReleaseVirtualMemory 0x1FF000 p s) in
  VadTree p = [] ∧ MmTearDownProcess p s = Crash.
Proof. vm_compute. split; reflexivity. Qed.
