(* ===== verification/Overlay.v ===== *)
(** Copy-on-write overlays ([boron/source/mm/overlay.c]) over any object that can
    be mapped.

    An overlay keeps the pages that were written in a sparse array, as a section
    does, and shows its parent elsewhere.  An overlay over a memory-backed object
    is one itself, so that overlays can be stacked. *)
From S2P Require Import Prelude Pmm Pages Pte PageMap Commit Vad Mappable Fault MappedFault.
From S2P Require Sla.
Local Open Scope Z_scope.

(** [MMOVERLAY] : boron/include/mm/overlay.h:16-24. *)
Record MMOVERLAY := mkOverlay { Parent : Z; OvSla : Sla.MMSLA; OvOffset : Z }.

Definition set_OvSla (sla : Sla.MMSLA) (ov : MMOVERLAY) : MMOVERLAY := mkOverlay (Parent ov) sla (OvOffset ov).

Section overlay.
Context {O S : Type} `{PageFrames S} `{!Mappables O S}.

(** [MmpFreeEntryOverlayObject] : boron/source/mm/overlay.c:53-61. *)
Definition MmpFreeEntryOverlayObject (Entry : Z) (s : S) : outcome S :=
  let Pfn := u32 Entry in
  if negb (Pfn =? PFN_INVALID) then pf_free Pfn s else Ok s.

(** [MmpGetPageOverlay] : boron/source/mm/overlay.c:63-86. *)
Definition MmpGetPageOverlay (off : Z) (o : MMOVERLAY * O) (s : S) : outcome (BSTATUS * option Z * (MMOVERLAY * O) * S) :=
  let '(Overlay, par) := o in
  let off := u64 (off + OvOffset Overlay) in
  '(Entry, s) ← Sla.MmLookUpEntrySla (OvSla Overlay) off s;
  if negb (Entry =? MM_SLA_NO_DATA) then
    s ← pf_reference (u32 Entry) s;
    Ok (STATUS_SUCCESS, Some (u32 Entry), (Overlay, par), s)
  else
    '(Status, Pfn, par, s) ← MmGetPageMappable (Parent Overlay) off par s;
    Ok (Status, Pfn, (Overlay, par), s).

(** [MmpReadPageOverlay] : boron/source/mm/overlay.c:88-93. *)
Definition MmpReadPageOverlay (off : Z) (o : MMOVERLAY * O) (s : S) : outcome (BSTATUS * option Z * (MMOVERLAY * O) * S) :=
  let '(Overlay, par) := o in
  '(Status, Pfn, par, s) ← MmReadPageMappable (Parent Overlay) (u64 (off + OvOffset Overlay)) par s;
  Ok (Status, Pfn, (Overlay, par), s).

(** [MmpPrepareWriteOverlay] : boron/source/mm/overlay.c:135-193.
    From the second lock on: [Pfn] is the page of the parent. *)
Definition copy_page (off Pfn : Z) (Overlay : MMOVERLAY) (s : S) : outcome (BSTATUS * MMOVERLAY * S) :=
  '(Entry, s) ← Sla.MmLookUpEntrySla (OvSla Overlay) off s;
  if negb (Entry =? MM_SLA_NO_DATA) then s ← pf_free Pfn s; Ok (STATUS_SUCCESS, Overlay, s)
  else
    '(NewPfn, s) ← pf_alloc s;
    if NewPfn =? PFN_INVALID then s ← pf_free Pfn s; Ok (STATUS_INSUFFICIENT_MEMORY, Overlay, s)
    else
      _ ← page NewPfn s;
      Contents ← page Pfn s;
      s ← pf_free Pfn (pf_store NewPfn Contents s);
      '(NewEntry, sla, s) ← Sla.MmAssignEntrySla (OvSla Overlay) off (u32 NewPfn) s;
      let Overlay := set_OvSla sla Overlay in
      if NewEntry =? Sla.MM_SLA_OUT_OF_MEMORY then
        s ← pf_free NewPfn s; Ok (STATUS_INSUFFICIENT_MEMORY, Overlay, s)
      else
        _ ← check (NewEntry =? u32 NewPfn);
        Ok (STATUS_SUCCESS, Overlay, s).

(** [MmpPrepareWriteOverlay] : boron/source/mm/overlay.c:95-194. *)
Definition MmpPrepareWriteOverlay (off : Z) (o : MMOVERLAY * O) (s : S) : outcome (BSTATUS * (MMOVERLAY * O) * S) :=
  let '(Overlay, par) := o in
  let off := u64 (off + OvOffset Overlay) in
  '(Entry, s) ← Sla.MmLookUpEntrySla (OvSla Overlay) off s;
  if negb (Entry =? MM_SLA_NO_DATA) then Ok (STATUS_SUCCESS, (Overlay, par), s)
  else
    '(Status, Pfn, par, s) ← MmGetPageMappable (Parent Overlay) off par s;
    '(Status, Pfn, par, s) ←
      (if decide (Status = STATUS_HARDWARE_IO_ERROR) then MmReadPageMappable (Parent Overlay) off par s else Ok (Status, Pfn, par, s));
    if FAILED Status then Ok (Status, (Overlay, par), s)
    else
      Pfn ← deref Pfn;
      '(Status, Overlay, s) ← copy_page off Pfn Overlay s;
      Ok (Status, (Overlay, par), s).

(** [MmpOverlayObjectMappableDispatch] : boron/source/mm/overlay.c:196-201. *)
#[export] Instance overlay_mappables : Mappables (MMOVERLAY * O) S := {|
  MmGetPageMappable _ := MmpGetPageOverlay;
  MmReadPageMappable _ := MmpReadPageOverlay;
  MmPrepareWriteMappable _ := MmpPrepareWriteOverlay;
  MmMeanwhile p o s := let '(p, par, s) := MmMeanwhile p o.2 s in (p, (o.1, par), s);
|}.

(** [MmInitializeOverlayObject] : boron/source/mm/overlay.c:210-218.
    The reference to the parent is left to the caller. *)
Definition MmInitializeOverlayObject (ParentMappable SectionOffset : Z) : MMOVERLAY :=
  mkOverlay ParentMappable Sla.MmInitializeSla SectionOffset.

(** [MmDeleteOverlayObject] : boron/source/mm/overlay.c:203-208.
    As above. *)
Definition MmDeleteOverlayObject (Overlay : MMOVERLAY) (s : S) : outcome S :=
  Sla.MmDeinitializeSla MmpFreeEntryOverlayObject (OvSla Overlay) s.
End overlay.

(** ** An overlay over a memory-backed object is one *)

Section laws.
Context {O S : Type} `{ResidentLaws O S}.

(** The array and the pages of an overlay are kept as those of a section are. *)
Definition pages_of (ov : MMOVERLAY) : Sla.MMSECTION := Sla.mkSection (OvSla ov) 0.
Definition shifted (ov : MMOVERLAY) (off : Z) : Z := u64 (off + OvOffset ov).
Definition own_entry (ov : MMOVERLAY) (s : S) (k : Z) : option Z :=
  let e := Sla.entry_at s (OvSla ov) k in if e =? MM_SLA_NO_DATA then None else Some e.

(** The pages of the overlay are not its parent's. *)
Record overlay_ok (o : MMOVERLAY * O) (s : S) : Prop := {
  ov_pages : Sla.section_ok s (pages_of o.1);
  ov_parent : mp_ok o.2 s;
  ov_apart m : Sla.tree_page s (OvSla o.1) m ∨ Sla.section_page s (pages_of o.1) m → ¬ mp_table o.2 s m ∧ ¬ mp_page o.2 s m;
}.

#[export] Instance overlay_resident : Resident (MMOVERLAY * O) S := {|
  mp_ok := overlay_ok;
  mp_table o s m := Sla.tree_page s (OvSla o.1) m ∨ mp_table o.2 s m;
  mp_page o s m := Sla.section_page s (pages_of o.1) m ∨ mp_page o.2 s m;
  mp_bound o off := 0 ≤ shifted o.1 off < Sla.max_entries ∧ mp_bound o.2 (shifted o.1 off);
  mp_at o s off := match own_entry o.1 s (shifted o.1 off) with Some e => Some e | None => mp_at o.2 s (shifted o.1 off) end;
|}.

Lemma ov_used o s m : overlay_ok o s → Sla.tree_page s (OvSla o.1) m ∨ Sla.section_page s (pages_of o.1) m → is_Some (pf_refs s m).
Proof.
  intros [Hp _ _] [Hm|Hm]; [rewrite (Sla.tree_page_refs _ _ _ (Sla.sec_sla _ _ Hp) Hm); by eexists|]. apply (Sla.section_page_foreign _ _ _ Hp Hm).
Qed.

(** The overlay's own pages are left alone by its parent, and the other way
    round. *)
Lemma ov_apart_from o s m : overlay_ok o s → Sla.tree_page s (OvSla o.1) m ∨ Sla.section_page s (pages_of o.1) m → apart_from o.2 s m.
Proof. intros Hok Hm. split; [by apply (ov_used o)|by apply (ov_apart o s Hok)]. Qed.

Lemma parent_outside o s m : overlay_ok o s → mp_table o.2 s m ∨ mp_page o.2 s m → Sla.outside s (pages_of o.1) m.
Proof.
  intros Hok Hm. apply section_apart; [apply Hok|]. split; [|split].
  - destruct Hm as [Hm|Hm]; [rewrite (mp_table_used o.2 s m (ov_parent _ _ Hok) Hm); by eexists|by apply (mp_page_used o.2 s m (ov_parent _ _ Hok))].
  - intros Ht. destruct (ov_apart o s Hok m (or_introl Ht)). by destruct Hm.
  - intros Ht. destruct (ov_apart o s Hok m (or_intror Ht)). by destruct Hm.
Qed.

Lemma apart_both o s m : overlay_ok o s → apart_from o s m ↔ Sla.outside s (pages_of o.1) m ∧ apart_from o.2 s m.
Proof.
  intros Hok. rewrite <-(section_apart s (pages_of o.1) m (ov_pages _ _ Hok)). unfold apart_from. cbn. tauto.
Qed.

Lemma look_up ov s k : Sla.section_ok s (pages_of ov) → 0 ≤ k < Sla.max_entries → Sla.MmLookUpEntrySla (OvSla ov) k s = Ok (Sla.entry_at s (OvSla ov) k, s).
Proof.
  intros Hok Hk. unfold Sla.MmLookUpEntrySla, Sla.MmLookUpEntrySlaEx. by rewrite (Sla.lookup_spec (OvSla ov) k s (Sla.sec_sla _ _ Hok) (bounded_offset k Hk)).
Qed.

Lemma own_entry_page ov s k e : 0 ≤ k < Sla.max_entries → own_entry ov s k = Some e → Sla.section_page s (pages_of ov) e.
Proof.
  intros Hk. unfold own_entry. destruct (Z.eqb_spec (Sla.entry_at s (OvSla ov) k) MM_SLA_NO_DATA) as [|E]; [done|]. intros [= <-]. split; [done|]. exists k. split; [by apply bounded_offset|done].
Qed.

Lemma overlay_frame o s s' : overlay_ok o s → pf_ok s' →
  (∀ m, mp_table o s m → pf_refs s' m = pf_refs s m ∧ pf_mem s' !! m = pf_mem s !! m) →
  (∀ m, mp_page o s m → is_Some (pf_refs s' m)) → resident_frame o s s'.
Proof.
  intros Hok Hpf Ht Hp. destruct Hok as [H1' H2' H3']. cbn in Ht, Hp.
  destruct (mp_frame o.2 s s' H2' Hpf) as [F1 F2 F3 F4]; [intros m Hm; apply Ht; by right|intros m Hm; apply Hp; by right|].
  destruct (@mp_frame _ _ _ _ _ _ section_laws (pages_of o.1) s s' H1' Hpf) as [G1 G2 G3 G4]; [intros m Hm; apply Ht; by left|intros m Hm; apply Hp; by left|]. cbn in G1, G2, G3, G4.
  split.
  - split; [done|done|]. intros m. rewrite F2, F3. intros [Hm|Hm]; apply H3'; [left; by apply G2|right; by apply G3].
  - intros m. cbn. by rewrite F2, G2.
  - intros m. cbn. by rewrite F3, G3.
  - intros off [Hb Hb']. cbn. unfold own_entry. pose proof (G4 _ Hb) as Hat. cbn in Hat. rewrite Hat. by rewrite F4.
Qed.

(** The parent did something. *)
Lemma parent_step ov par s par' s' : overlay_ok (ov, par) s → resident_step par s par' s' →
  resident_step (ov, par) s (ov, par') s' ∧ ∀ k, 0 ≤ k < Sla.max_entries → own_entry ov s' k = own_entry ov s k.
Proof.
  intros Hok [P1 P2 P3 P4 P5]. pose proof Hok as [H1' H2' H3']. cbn [fst snd] in *. pose proof (mp_ok_frames _ _ P1) as Hpf.
  assert (∀ m, Sla.tree_page s (OvSla ov) m ∨ Sla.section_page s (pages_of ov) m → apart_from par' s' m ∧ pf_refs s' m = pf_refs s m ∧ pf_mem s' !! m = pf_mem s !! m) as Hown.
  { intros m Hm. apply P4. by apply (ov_apart_from (ov, par) s m Hok). }
  destruct (@mp_frame _ _ _ _ _ _ section_laws (pages_of ov) s s' H1' Hpf) as [G1 G2 G3 G4].
  { intros m Hm. apply Hown. by left. }
  { intros m Hm. apply (Hown m). by right. }
  cbn in G1, G2, G3, G4.
  assert (overlay_ok (ov, par') s') as Hok'.
  { split; [done|done|]. intros m Hm. destruct (Hown m) as [(_ & Ha & Hb) _]; [|done]. destruct Hm as [Hm|Hm]; [left; by apply G2|right; by apply G3]. }
  assert (∀ k, 0 ≤ k < Sla.max_entries → own_entry ov s' k = own_entry ov s k) as He by (intros k Hk; apply (G4 k Hk)).
  split; [|done]. split; [done| | | |done].
  - intros off. cbn. by rewrite P2.
  - intros off [Hb Hb']. cbn [fst snd] in *. unfold page_view. cbn. rewrite He by done. destruct (own_entry ov s (shifted ov off)) as [e|] eqn:E; [|by apply (P3 (shifted ov off))].
    by destruct (Hown e) as (_ & _ & ->); [right; by apply (own_entry_page ov s _ e Hb)|].
  - intros m Hm. apply (apart_both _ _ _ Hok) in Hm as [Hm1 Hm2]. destruct (P4 m Hm2) as (Hm3 & Hr & Hmem). split; [|done].
    apply (apart_both _ _ _ Hok'). split; [|done]. apply section_apart; [done|]. apply section_apart in Hm1; [|done]. destruct Hm1 as (Hr' & Ht & Hp).
    split; [by rewrite Hr|]. cbn in *. by rewrite G2, G3.
Qed.

(** A reference to one of the overlay's own pages. *)
Lemma own_reference ov par s k e : overlay_ok (ov, par) s → 0 ≤ k < Sla.max_entries → own_entry ov s k = Some e →
  ∃ s', pf_reference (u32 e) s = Ok s' ∧ u32 e = e ∧ resident_step (ov, par) s (ov, par) s' ∧ own_entry ov s' k = Some e ∧
    pf_refs s' e = Some (default 1 (pf_refs s e) + 1) ∧ ∀ j, mp_bound par j → page_view par s' j = page_view par s j.
Proof.
  intros Hok Hk He. pose proof (own_entry_page ov s k e Hk He) as Hpage. pose proof (mp_ok_frames _ _ (ov_parent _ _ Hok)) as Hpf.
  destruct (ov_used _ _ _ Hok (or_intror Hpage)) as [r Hr]. pose proof (proj1 (pf_refs_frame _ _ _ Hpf Hr)) as Hfr. pose proof (Sla.frame_u32 e Hfr) as Eu.
  destruct (pf_reference_spec s e r Hpf Hr) as (s' & Href & Hpf' & Hm & Hr' & Ho). exists s'. rewrite Eu. split; [done|]. split; [done|].
  assert (resident_frame (ov, par) s s') as Hfrm.
  { apply (overlay_frame (ov, par) s s' Hok Hpf').
    - intros m Ht. split; [|by rewrite Hm]. apply Ho. intros ->. destruct Ht as [Ht|Ht]; cbn [fst snd] in *.
      + apply (Sla.section_page_foreign _ _ _ (ov_pages _ _ Hok)) in Hpage. by apply Sla.foreign_not_tree in Hpage.
      + by destruct (ov_apart _ _ Hok e (or_intror Hpage)).
    - intros m Hp. destruct (decide (m = e)) as [->|Hne]; [by eexists|]. rewrite Ho by done. destruct Hp as [Hp|Hp]; [by apply (ov_used _ _ _ Hok (or_intror Hp))|].
      by apply (mp_page_used par s m (ov_parent _ _ Hok)). }
  assert (own_entry ov s' k = Some e) as He'.
  { rewrite <-He. destruct (@mp_frame _ _ _ _ _ _ section_laws (pages_of ov) s s' (ov_pages _ _ Hok) Hpf') as [_ _ _ G4]; [| |by apply (G4 k Hk)].
    - intros m Ht. split; [|by rewrite Hm]. apply Ho. intros ->. apply (Sla.section_page_foreign _ _ _ (ov_pages _ _ Hok)) in Hpage. by apply Sla.foreign_not_tree in Hpage.
    - intros m Hp. destruct (decide (m = e)) as [->|Hne]; [by eexists|]. rewrite Ho by done. by apply (ov_used _ _ _ Hok (or_intror Hp)). }
  split; [|split; [done|split; [by rewrite Hr, Hr'|]]].
  2:{ apply resident_view; [|apply Hok|intros m _; by rewrite Hm]. apply mp_frame; [apply Hok|done| |].
      - intros m Ht. rewrite Hm. split; [|done]. apply Ho. intros ->. by destruct (ov_apart _ _ Hok e (or_intror Hpage)).
      - intros m Hp. destruct (decide (m = e)) as [->|Hne]; [by eexists|]. rewrite Ho by done. by apply (mp_page_used par s m (ov_parent _ _ Hok)). }
  split; [apply (rf_ok _ _ _ Hfrm)|done| | |by rewrite Hm].
  - intros off Hoff. unfold page_view. rewrite (rf_at _ _ _ Hfrm off Hoff), Hm. done.
  - intros m (Hu & Ht & Hp). assert (m ≠ e) as Hne by (intros ->; apply Hp; by left). rewrite Ho, Hm by done. split; [|done].
    split; [by rewrite Ho|]. by rewrite (rf_table _ _ _ Hfrm), (rf_page _ _ _ Hfrm).
Qed.

Lemma own_get ov par s off f : overlay_ok (ov, par) s → 0 ≤ shifted ov off < Sla.max_entries → own_entry ov s (shifted ov off) = Some f →
  ∃ s', MmpGetPageOverlay off (ov, par) s = Ok (STATUS_SUCCESS, Some f, (ov, par), s') ∧ resident_step (ov, par) s (ov, par) s' ∧
    own_entry ov s' (shifted ov off) = Some f ∧ ∀ j, mp_bound par j → page_view par s' j = page_view par s j.
Proof.
  intros Hok Hb Hf. destruct (own_reference ov par s (shifted ov off) f Hok Hb Hf) as (s' & Href & Eu & Hst & Hf' & _ & Hpv). exists s'. split; [|done].
  unfold MmpGetPageOverlay. fold (shifted ov off). rewrite (look_up ov s _ (ov_pages _ _ Hok) Hb). cbn [mbind outcome_bind].
  unfold own_entry in Hf. destruct (Z.eqb_spec (Sla.entry_at s (OvSla ov) (shifted ov off)) MM_SLA_NO_DATA); [done|]. injection Hf as ->. cbn [negb].
  rewrite Href. cbn [mbind outcome_bind]. by rewrite Eu.
Qed.

Lemma overlay_get o s off : overlay_ok o s → mp_bound o off →
  ∃ St r o' s', MmpGetPageOverlay off o s = Ok (St, r, o', s') ∧ resident_step o s o' s' ∧
    match r with
    | Some f => St = STATUS_SUCCESS ∧ mp_at o' s' off = Some f ∧ pf_refs s' f = Some (default 1 (pf_refs s f) + 1) ∧ (is_Some (pf_refs s f) → mp_page o s f)
    | None => St = STATUS_INSUFFICIENT_MEMORY
    end.
Proof.
  destruct o as [ov par]. intros Hok [Hb Hb']. cbn [fst snd] in *. unfold MmpGetPageOverlay. fold (shifted ov off). set (k := shifted ov off) in *.
  rewrite (look_up ov s k (ov_pages _ _ Hok) Hb). cbn [mbind outcome_bind].
  destruct (Z.eqb_spec (Sla.entry_at s (OvSla ov) k) MM_SLA_NO_DATA) as [E|E]; cbn [negb].
  - destruct (mp_get (Parent ov) par s k (ov_parent _ _ Hok) Hb') as (St & r & par' & s' & -> & Hstep & Hr). cbn [mbind outcome_bind]. exists St, r, (ov, par'), s'. split; [done|].
    destruct (parent_step ov par s par' s' Hok Hstep) as [Hst He]. split; [done|]. destruct r as [f|]; [|done]. destruct Hr as (-> & Hat & Hrefs & Hp). split; [done|].
    split; [|split; [done|intros Hs; right; by apply Hp]]. cbn. fold k. rewrite He by done. unfold own_entry. by rewrite E, Z.eqb_refl.
  - assert (own_entry ov s k = Some (Sla.entry_at s (OvSla ov) k)) as Hoe by (unfold own_entry; by rewrite (proj2 (Z.eqb_neq _ _) E)).
    destruct (own_reference ov par s k _ Hok Hb Hoe) as (s' & -> & Eu & Hst & He & Hr & _). cbn [mbind outcome_bind]. rewrite Eu. eexists _, _, _, _. split; [reflexivity|]. split; [done|].
    split; [done|]. split; [cbn; fold k; by rewrite He|]. split; [done|]. intros _. left. by apply (own_entry_page ov s k).
Qed.

(** What copying a page for offset [k] does to the overlay and to the pages of
    others. *)
Record copied (ov : MMOVERLAY) (s : S) (k f r : Z) (St : BSTATUS) (ov' : MMOVERLAY) (s' : S) : Prop := {
  cp_ok : Sla.section_ok s' (pages_of ov');
  cp_parent : Parent ov' = Parent ov ∧ OvOffset ov' = OvOffset ov;
  cp_outside m : Sla.outside s (pages_of ov) m →
    Sla.outside s' (pages_of ov') m ∧ pf_refs s' m = (if decide (m = f) then Some r else pf_refs s m) ∧ pf_mem s' !! m = pf_mem s !! m;
  cp_mem m : Sla.foreign s (OvSla ov) m → pf_mem s' !! m = pf_mem s !! m;
  cp_domain m : is_Some (pf_mem s' !! m) → is_Some (pf_mem s !! m);
  cp_entries : (St = STATUS_SUCCESS ∧ ∃ n, pf_refs s n = None ∧ pf_refs s' n = Some 1 ∧ pf_mem s' !! n = pf_mem s !! f ∧
      ∀ j, 0 ≤ j < 2 ^ 64 → Sla.entry_at s' (OvSla ov') j = if decide (j = k) then n else Sla.entry_at s (OvSla ov) j) ∨
    (St = STATUS_INSUFFICIENT_MEMORY ∧ Sla.same_entries s (OvSla ov) s' (OvSla ov'));
}.

(** The new page is filled and the parent's page is given back. *)
Lemma fill_page ov s f r n s1 c : Sla.section_ok s (pages_of ov) → Sla.outside s (pages_of ov) f → pf_refs s f = Some (r + 1) → 0 < r → pf_mem s !! f = Some c →
  Sla.section_ok s1 (pages_of ov) → Sla.same_entries s (OvSla ov) s1 (OvSla ov) → Sla.foreign s1 (OvSla ov) n → pf_refs s n = None → pf_refs s1 n = Some 1 →
  ¬ Sla.section_page s (pages_of ov) n → is_Some (pf_mem s !! n) → (∀ m, m ≠ n → pf_refs s1 m = pf_refs s m ∧ pf_mem s1 !! m = pf_mem s !! m) →
  (∀ L path, Sla.in_tree L path → Sla.node s1 (OvSla ov) L path = Sla.node s (OvSla ov) L path) →
  ∃ s2, pf_free f (pf_store n c s1) = Ok s2 ∧ Sla.section_ok s2 (pages_of ov) ∧ Sla.same_entries s (OvSla ov) s2 (OvSla ov) ∧ Sla.foreign s2 (OvSla ov) n ∧
    ¬ Sla.section_page s2 (pages_of ov) n ∧ pf_refs s2 n = Some 1 ∧ pf_mem s2 !! n = Some c ∧ pf_refs s2 f = Some r ∧
    (∀ m, m ≠ n → pf_mem s2 !! m = pf_mem s !! m ∧ (m ≠ f → pf_refs s2 m = pf_refs s m)) ∧
    (∀ m, is_Some (pf_mem s2 !! m) → is_Some (pf_mem s !! m)) ∧ (∀ L path, Sla.in_tree L path → Sla.node s2 (OvSla ov) L path = Sla.node s (OvSla ov) L path).
Proof.
  intros Hok Hout Hr Hr0 Hc Hok1 He1 Hf1 Hrn Hr1 Hnp Hd Ho1 Hn1. pose proof (Sla.so_frames _ _ (Sla.sec_sla _ _ Hok1)) as Hpf1. assert (f ≠ n) as Hfn by congruence.
  assert (pf_refs (pf_store n c s1) f = Some (r + 1)) as Hrf by (rewrite pf_store_refs; by rewrite (proj1 (Ho1 f Hfn))).
  destruct (pf_free_spec _ f (r + 1) (pf_store_spec s1 n 1 c Hpf1 Hr1) Hrf) as (s2 & Hfree & Hpf2 & Hm2 & Hr2 & Ho2). exists s2. split; [done|].
  rewrite (proj2 (Z.eqb_neq (r + 1) 1)) in Hr2 by lia. replace (r + 1 - 1) with r in Hr2 by lia.
  assert (∀ m, m ≠ n → pf_mem s2 !! m = pf_mem s1 !! m) as Hmem by (intros m Hne; by rewrite Hm2, pf_store_mem, lookup_insert_ne).
  assert (∀ m, m ≠ f → pf_refs s2 m = pf_refs s1 m) as Hrefs by (intros m Hne; by rewrite Ho2, pf_store_refs).
  destruct (Sla.section_ok_frame s1 s2 (pages_of ov) Hok1 Hpf2) as (Hok2 & He2 & Hn2).
  - intros m Ht. assert (m ≠ n) as Hmn by (intros ->; by apply Sla.foreign_not_tree in Hf1). rewrite Hmem by done. split; [|done]. apply Hrefs. intros ->.
    destruct Hout as [[_ Hf] _]. destruct Ht as (_ & L & path & Hin & E). cbn in E. rewrite Hn1 in E by done. by apply (Hf L path).
  - intros m Hp. destruct (decide (m = f)) as [->|Hne]; [by eexists|]. rewrite Hrefs by done. by apply (Sla.section_page_foreign _ _ _ Hok1) in Hp as [? _].
  - split; [done|]. split; [intros j Hj; by rewrite He2, He1|]. split.
    { split; [rewrite Hrefs by done; by eexists|]. intros L path Hin. cbn in Hn2. rewrite Hn2 by done. by apply Hf1. }
    split; [intros (Hv & j & Hj & E); apply Hnp; split; [done|]; exists j; split; [done|]; cbn in E |- *; rewrite <-E; symmetry; by rewrite He2, He1|].
    split; [by rewrite Hrefs|]. split; [by rewrite Hm2, pf_store_mem, lookup_insert_eq|]. split; [done|]. split.
    { intros m Hne. destruct (Ho1 m Hne) as [Er Em]. split; [by rewrite Hmem|]. intros Hmf. by rewrite Hrefs. }
    split; [|intros L path Hin; cbn in Hn2; by rewrite Hn2, Hn1]. intros m. destruct (decide (m = n)) as [->|Hne]; [done|]. by rewrite Hmem, (proj2 (Ho1 m Hne)).
Qed.

(** The overlay did not get a page. *)
Lemma not_copied ov ov' s k f r s' : Sla.section_ok s' (pages_of ov') → Parent ov' = Parent ov → OvOffset ov' = OvOffset ov → Sla.same_entries s (OvSla ov) s' (OvSla ov') →
  (∀ m, Sla.outside s (pages_of ov) m → Sla.outside s' (pages_of ov') m ∧ pf_refs s' m = (if decide (m = f) then Some r else pf_refs s m) ∧ pf_mem s' !! m = pf_mem s !! m) →
  (∀ m, Sla.foreign s (OvSla ov) m → pf_mem s' !! m = pf_mem s !! m) → (∀ m, is_Some (pf_mem s' !! m) → is_Some (pf_mem s !! m)) →
  copied ov s k f r STATUS_INSUFFICIENT_MEMORY ov' s'.
Proof. intros. split; [done|done|done|done|done|by right]. Qed.

Lemma copy_page_spec ov s k f r : Sla.section_ok s (pages_of ov) → 0 ≤ k < Sla.max_entries → Sla.entry_at s (OvSla ov) k = MM_SLA_NO_DATA →
  Sla.outside s (pages_of ov) f → pf_refs s f = Some (r + 1) → 0 < r →
  ∃ St ov' s', copy_page k f ov s = Ok (St, ov', s') ∧ copied ov s k f r St ov' s'.
Proof.
  intros Hok Hk He Hout Hr Hr0. pose proof (Sla.so_frames _ _ (Sla.sec_sla _ _ Hok)) as Hpf. unfold copy_page. rewrite (look_up ov s k Hok Hk). cbn [mbind outcome_bind].
  rewrite He, Z.eqb_refl. cbn [negb]. destruct (pf_used_mem s f _ Hpf Hr) as [c Hc].
  destruct (Sla.alloc_section s (pages_of ov) Hok) as [->|(n & s1 & -> & Hok1 & He1 & Hfr & Hf1 & Hrn & Hr1 & Hm1 & Hnp & Hd & Ho1 & Hn1)]; cbn [mbind outcome_bind].
  { rewrite Z.eqb_refl. destruct (pf_free_spec s f (r + 1) Hpf Hr) as (s' & -> & Hpf' & Hm & Hr' & Ho). cbn [mbind outcome_bind].
    rewrite (proj2 (Z.eqb_neq (r + 1) 1)) in Hr' by lia. replace (r + 1 - 1) with r in Hr' by lia.
    destruct (Sla.section_ok_frame s s' (pages_of ov) Hok Hpf') as (Hok' & He' & Hn').
    { intros m Ht. rewrite Hm. split; [|done]. apply Ho. intros ->. destruct Hout as [Hf _]. by apply Sla.foreign_not_tree in Hf. }
    { intros m Hp. destruct (decide (m = f)) as [->|Hne]; [by eexists|]. rewrite Ho by done. by apply (Sla.section_page_foreign _ _ _ Hok) in Hp as [? _]. }
    eexists _, ov, s'. split; [reflexivity|]. apply not_copied; try done; [|by rewrite Hm|by rewrite Hm]. intros m Hmo. assert (pf_refs s' m = (if decide (m = f) then Some r else pf_refs s m)) as Er
      by (destruct (decide _) as [->|Hne]; [done|by apply Ho]). rewrite Hm. split; [|done].
    apply (Sla.outside_same s); [done| |done|done]. rewrite Er. destruct (decide _); [by eexists|apply Hmo]. }
  rewrite (frame_valid n Hfr), (Sla.frame_u32 n Hfr). unfold page. rewrite Hm1. cbn [deref mbind outcome_bind].
  assert (f ≠ n) as Hfn by congruence. rewrite (proj2 (Ho1 f Hfn)), Hc. cbn [deref mbind outcome_bind].
  destruct (fill_page ov s f r n s1 c Hok Hout Hr Hr0 Hc Hok1 He1 Hf1 Hrn Hr1 Hnp Hd Ho1 Hn1) as (s2 & -> & Hok2 & He2 & Hf2 & Hnp2 & Hr2 & Hmn2 & Hrf2 & Ho2 & Hd2 & Hn2).
  cbn [mbind outcome_bind].
  assert (∀ m, Sla.outside s (pages_of ov) m → m ≠ n ∧ Sla.outside s2 (pages_of ov) m ∧ pf_refs s2 m = (if decide (m = f) then Some r else pf_refs s m)) as Hout2.
  { intros m Hmo. assert (m ≠ n) as Hmn by (intros ->; destruct Hmo as [[[r' Hr'] _] _]; congruence). split; [done|].
    assert (pf_refs s2 m = (if decide (m = f) then Some r else pf_refs s m)) as Er by (destruct (decide _) as [->|Hne]; [done|by apply Ho2]).
    split; [|done]. apply (Sla.outside_same s); [done| |done|done]. rewrite Er. destruct (decide _); [by eexists|apply Hmo]. }
  destruct (Sla.assign_section s2 (pages_of ov) k n Hok2 Hk Hfr Hf2 Hnp2) as (ret & sla & s3 & Has & Hok3 & Hx & Hout3 & Hent). cbn [Sla.Sla pages_of] in Has. rewrite Has. cbn [mbind outcome_bind].
  assert (∀ m, Sla.foreign s (OvSla ov) m → pf_mem s3 !! m = pf_mem s !! m) as Hmem3.
  { intros m Hm. assert (m ≠ n) as Hmn by (intros ->; destruct Hm as [[r' Hr'] _]; congruence). assert (Sla.foreign s2 (OvSla ov) m) as Hm2.
    { split; [|intros L path Hin; rewrite Hn2 by done; by apply Hm]. destruct (decide (m = f)) as [->|Hmf]; [by eexists|]. rewrite (proj2 (Ho2 m Hmn)) by done. apply Hm. }
    rewrite (proj2 (proj1 (proj2 Hx) m Hm2)). by apply Ho2. }
  assert (∀ m, Sla.outside s (pages_of ov) m → Sla.outside s3 (Sla.mkSection sla 0) m ∧ pf_refs s3 m = (if decide (m = f) then Some r else pf_refs s m) ∧ pf_mem s3 !! m = pf_mem s !! m) as Hall.
  { intros m Hmo. destruct (Hout2 m Hmo) as (Hmn & Hmo2 & Er). split; [by apply (Hout3 m Hmn)|]. split; [|apply Hmem3, Hmo].
    rewrite <-Er. destruct (proj1 (proj1 Hmo2)) as [r' Hr']. rewrite Hr'. by apply Hx. }
  destruct Hent as [(-> & Hj)|[-> Hj]].
  - assert ((n =? Sla.MM_SLA_OUT_OF_MEMORY) = false) as -> by (apply Z.eqb_neq; destruct Hfr; unfold MM_PFN_OUTOFMEMORY, Sla.MM_SLA_OUT_OF_MEMORY in *; lia).
    rewrite Z.eqb_refl. cbn [check mbind outcome_bind]. eexists _, (set_OvSla sla ov), s3. split; [reflexivity|]. split; [done|done|done|done|intros m Hm; by apply Hd2, Hx|].
    left. split; [done|]. exists n. split; [done|]. split; [by apply Hx|]. split; [rewrite (proj2 (proj1 (proj2 Hx) n Hf2)); congruence|].
    intros j Hj'. change (OvSla (set_OvSla sla ov)) with sla. rewrite (Hj j Hj'). cbn [Sla.Sla pages_of]. by rewrite (He2 j Hj').
  - rewrite Z.eqb_refl. pose proof (proj1 Hx _ _ Hr2) as Hr3. pose proof (proj1 (proj1 (proj2 Hx) n Hf2)) as Hf3.
    destruct (pf_free_spec s3 n 1 (Sla.so_frames _ _ (Sla.sec_sla _ _ Hok3)) Hr3) as (s4 & -> & Hpf4 & Hm4 & _ & Ho4). cbn [mbind outcome_bind].
    destruct (Sla.section_ok_frame s3 s4 _ Hok3 Hpf4) as (Hok4 & He4 & Hn4).
    { intros m Hm. rewrite Hm4. split; [|done]. apply Ho4. intros ->. by apply Sla.foreign_not_tree in Hf3. }
    { intros m Hm. rewrite Ho4; [by apply (Sla.section_page_foreign _ _ _ Hok3) in Hm as [? _]|].
      intros ->. destruct Hm as (Hv & j & Hj' & Ej). cbn in Ej. apply Hnp2. split; [done|]. exists j. split; [done|]. by rewrite <-(Hj j Hj'). }
    eexists _, (set_OvSla sla ov), s4. split; [reflexivity|]. apply not_copied; try done.
    + intros j Hj'. change (OvSla (set_OvSla sla ov)) with (Sla.Sla (Sla.mkSection sla (Sla.MaxSizePages (pages_of ov)))). rewrite (He4 j Hj'). cbn [Sla.Sla]. by rewrite (Hj j Hj'), <-(He2 j Hj').
    + intros m Hmo. destruct (Hall m Hmo) as (Hmo3 & Er & Em). destruct (Hout2 m Hmo) as (Hmn & _). rewrite Hm4, Em, Ho4 by done. split; [|done].
      apply (Sla.outside_same s3); [done| |done|done]. rewrite Ho4 by done. apply Hmo3.
    + intros m Hm. rewrite Hm4. by apply Hmem3.
    + intros m Hm. rewrite Hm4 in Hm. by apply Hd2, Hx.
Qed.

Lemma outside_none o s m : overlay_ok o s → Sla.outside s (pages_of o.1) m → ¬ (Sla.tree_page s (OvSla o.1) m ∨ Sla.section_page s (pages_of o.1) m).
Proof. intros Hok Hm. apply section_apart in Hm as (_ & Ht & Hp); [|apply Hok]. by intros [?|?]. Qed.

(** The parent sees nothing of the copy. *)
Lemma copied_parent ov par s k f r St ov' s' : overlay_ok (ov, par) s → mp_page par s f → copied ov s k f r St ov' s' →
  resident_frame par s s' ∧ overlay_ok (ov', par) s' ∧ ∀ j, mp_bound par j → page_view par s' j = page_view par s j.
Proof.
  intros Hok Hf Hc. pose proof (Sla.so_frames _ _ (Sla.sec_sla _ _ (cp_ok _ _ _ _ _ _ _ _ Hc))) as Hpf. pose proof (ov_parent _ _ Hok) as Hpar. cbn [snd] in Hpar.
  assert (∀ m, mp_table par s m ∨ mp_page par s m → Sla.outside s (pages_of ov) m) as Hout by (intros m; by apply (parent_outside (ov, par))).
  assert (resident_frame par s s') as Hfr.
  { apply mp_frame; [done|done| |].
    - intros m Ht. destruct (cp_outside _ _ _ _ _ _ _ _ Hc m (Hout m (or_introl Ht))) as (_ & Er & Em). split; [|done]. rewrite Er, decide_False; [done|].
      intros ->. by apply (mp_page_used par s f Hpar) in Hf as [_ ?].
    - intros m Hp. destruct (cp_outside _ _ _ _ _ _ _ _ Hc m (Hout m (or_intror Hp))) as (_ & -> & _). destruct (decide _); [by eexists|by apply (mp_page_used par s m Hpar)]. }
  split; [done|]. split.
  - split; [apply Hc|apply Hfr|]. intros m Hm. cbn [fst snd] in *. rewrite (rf_table _ _ _ Hfr), (rf_page _ _ _ Hfr).
    assert (¬ (mp_table par s m ∨ mp_page par s m)) as Hn; [|tauto]. intros Hp. destruct (cp_outside _ _ _ _ _ _ _ _ Hc m (Hout m Hp)) as (Hmo & _).
    apply (section_apart s' (pages_of ov') m (cp_ok _ _ _ _ _ _ _ _ Hc)) in Hmo as (_ & Hnt & Hnp). by destruct Hm.
  - apply resident_view; [done|done|]. intros m Hp. apply (cp_outside _ _ _ _ _ _ _ _ Hc m (Hout m (or_intror Hp))).
Qed.

Lemma own_entry_same ov s ov' s' : Sla.same_entries s (OvSla ov) s' (OvSla ov') → ∀ k, 0 ≤ k < Sla.max_entries → own_entry ov' s' k = own_entry ov s k.
Proof. intros He k Hk. unfold own_entry. by rewrite (He k (bounded_offset k Hk)). Qed.

Lemma copied_entries ov s k f r St ov' s' : 0 ≤ k < Sla.max_entries → copied ov s k f r St ov' s' →
  (St = STATUS_SUCCESS ∧ ∃ n, pf_refs s n = None ∧ pf_mem s' !! n = pf_mem s !! f ∧
     ∀ j, 0 ≤ j < Sla.max_entries → own_entry ov' s' j = if decide (j = k) then Some n else own_entry ov s j) ∨
  (St = STATUS_INSUFFICIENT_MEMORY ∧ ∀ j, 0 ≤ j < Sla.max_entries → own_entry ov' s' j = own_entry ov s j).
Proof.
  intros Hk Hc. destruct (cp_entries _ _ _ _ _ _ _ _ Hc) as [(-> & n & Hn & Hr & Hm & He)|[-> He]].
  - left. split; [done|]. exists n. split; [done|]. split; [done|]. intros j Hj. unfold own_entry. rewrite (He j (bounded_offset j Hj)). destruct (decide (j = k)); [|done].
    destruct (pf_refs_frame _ _ _ (Sla.so_frames _ _ (Sla.sec_sla _ _ (cp_ok _ _ _ _ _ _ _ _ Hc))) Hr) as [Hfr _]. by rewrite (proj2 (Z.eqb_neq _ _) (frame_no_data n Hfr)).
  - right. split; [done|]. by apply own_entry_same.
Qed.

Lemma copied_step ov par s k f r St ov' s' : overlay_ok (ov, par) s → 0 ≤ k < Sla.max_entries → mp_bound par k → own_entry ov s k = None → mp_at par s k = Some f →
  copied ov s k f r St ov' s' → resident_step (ov, par) s (ov', par) s'.
Proof.
  intros Hok Hk Hb Hnone Hat Hc. pose proof (mp_at_page par s k f (ov_parent _ _ Hok) Hb Hat) as Hf.
  destruct (copied_parent ov par s k f r St ov' s' Hok Hf Hc) as (Hfr & Hok' & Hview). destruct (cp_parent _ _ _ _ _ _ _ _ Hc) as [_ Eo].
  split; [done| | | |apply (cp_domain _ _ _ _ _ _ _ _ Hc)].
  - intros off. cbn. unfold shifted. by rewrite Eo.
  - intros off [Hs Hbs]. cbn [fst snd] in *. unfold page_view. cbn. replace (shifted ov' off) with (shifted ov off) by (unfold shifted; by rewrite Eo). set (j := shifted ov off) in *.
    assert (own_entry ov' s' j = own_entry ov s j → match (match own_entry ov' s' j with Some e => Some e | None => mp_at par s' j end) with Some f0 => default zeros (pf_mem s' !! f0) | None => zeros end =
      match (match own_entry ov s j with Some e => Some e | None => mp_at par s j end) with Some f0 => default zeros (pf_mem s !! f0) | None => zeros end) as Hsame.
    { intros ->. destruct (own_entry ov s j) as [e|] eqn:E; [|by apply (Hview j)]. rewrite (cp_mem _ _ _ _ _ _ _ _ Hc); [done|].
      by apply (Sla.section_page_foreign _ (pages_of ov) _ (ov_pages _ _ Hok)), (own_entry_page ov s j). }
    destruct (copied_entries ov s k f r St ov' s' Hk Hc) as [(_ & n & _ & Hm & He)|[_ He]]; [|by apply Hsame, He].
    specialize (He j Hs). destruct (decide (j = k)) as [->|Hne]; [|by apply Hsame]. rewrite He, Hnone, Hat. by rewrite Hm.
  - intros m Hm. apply (apart_both _ _ _ Hok) in Hm as [Hm1 (Hu & Ht & Hp)]. destruct (cp_outside _ _ _ _ _ _ _ _ Hc m Hm1) as (Hm' & Er & Em).
    rewrite decide_False in Er by (by intros ->). split; [|done]. apply (apart_both _ _ _ Hok'). split; [done|].
    split; [by rewrite Er|]. by rewrite (rf_table _ _ _ Hfr), (rf_page _ _ _ Hfr).
Qed.

(** What is seen through the overlay and what its parent shows are as before;
    with success the overlay has a page of its own. *)
Lemma MmpPrepareWriteOverlay_spec o s off : overlay_ok o s → mp_bound o off →
  ∃ St o' s', MmpPrepareWriteOverlay off o s = Ok (St, o', s') ∧ resident_step o s o' s' ∧ OvOffset o'.1 = OvOffset o.1 ∧
    (∀ j, mp_bound o'.2 j ↔ mp_bound o.2 j) ∧ (∀ j, mp_bound o.2 j → page_view o'.2 s' j = page_view o.2 s j) ∧
    (St = STATUS_SUCCESS ∧ is_Some (own_entry o'.1 s' (shifted o.1 off)) ∨ St = STATUS_INSUFFICIENT_MEMORY).
Proof.
  destruct o as [ov par]. intros Hok [Hb Hb']. cbn [fst snd] in *. unfold MmpPrepareWriteOverlay. fold (shifted ov off). set (k := shifted ov off) in *.
  rewrite (look_up ov s k (ov_pages _ _ Hok) Hb). cbn [mbind outcome_bind].
  destruct (Z.eqb_spec (Sla.entry_at s (OvSla ov) k) MM_SLA_NO_DATA) as [E|E]; cbn [negb].
  2:{ eexists _, (ov, par), s. split; [reflexivity|]. split; [by apply (resident_refl (Resident0 := overlay_resident))|]. split; [done|]. split; [done|]. split; [done|]. left. split; [done|].
      cbn [fst]. unfold own_entry. rewrite (proj2 (Z.eqb_neq _ _) E). by eexists. }
  destruct (mp_get (Parent ov) par s k (ov_parent _ _ Hok) Hb') as (St & r & par1 & s1 & -> & Hst & Hr). cbn [mbind outcome_bind].
  destruct (parent_step ov par s par1 s1 Hok Hst) as [Hstep He].
  destruct r as [f|].
  2:{ subst St. rewrite (decide_False (P := STATUS_INSUFFICIENT_MEMORY = STATUS_HARDWARE_IO_ERROR)) by done. cbn [mbind outcome_bind].
      change (FAILED STATUS_INSUFFICIENT_MEMORY) with true. cbv iota. eexists _, (ov, par1), s1. split; [reflexivity|]. split; [done|]. split; [done|].
      split; [exact (rs_bound _ _ _ _ Hst)|]. split; [exact (rs_view _ _ _ _ Hst)|by right]. }
  destruct Hr as (-> & Hat & Hrefs & Hpage). rewrite (decide_False (P := STATUS_SUCCESS = STATUS_HARDWARE_IO_ERROR)) by done. cbn [mbind outcome_bind].
  change (FAILED STATUS_SUCCESS) with false. cbn [deref mbind outcome_bind]. pose proof (rs_ok _ _ _ _ Hstep) as Hok1.
  assert (mp_bound par1 k) as Hb1 by (by apply (rs_bound _ _ _ _ Hst)). pose proof (mp_at_page par1 s1 k f (ov_parent _ _ Hok1) Hb1 Hat) as Hfp.
  assert (own_entry ov s k = None) as Hnone by (unfold own_entry; by rewrite E).
  destruct (copy_page_spec ov s1 k f (default 1 (pf_refs s f))) as (St & ov' & s' & -> & Hc).
  - apply Hok1.
  - done.
  - pose proof (He k Hb) as Hk. rewrite Hnone in Hk. unfold own_entry in Hk. by destruct (Z.eqb_spec (Sla.entry_at s1 (OvSla ov) k) MM_SLA_NO_DATA).
  - apply (parent_outside (ov, par1) s1 f Hok1). by right.
  - done.
  - destruct (pf_refs s f) as [r|] eqn:Er; [|done]. by apply (pf_refs_frame s f r (mp_ok_frames _ _ (ov_parent _ _ Hok))) in Er as [_ ?].
  - cbn [mbind outcome_bind]. eexists _, (ov', par1), s'. split; [reflexivity|].
    pose proof (copied_step ov par1 s1 k f _ St ov' s' Hok1 Hb Hb1 (eq_trans (He k Hb) Hnone) Hat Hc) as Hstep2.
    split; [by apply (@resident_trans _ _ _ _ overlay_resident _ _ (ov, par1) s1)|].
    split; [apply (cp_parent _ _ _ _ _ _ _ _ Hc)|]. split; [exact (rs_bound _ _ _ _ Hst)|]. split.
    + intros j Hj. cbn [snd]. destruct (copied_parent ov par1 s1 k f _ St ov' s' Hok1 Hfp Hc) as (_ & _ & ->); [by apply (rs_view _ _ _ _ Hst)|by apply (rs_bound _ _ _ _ Hst)].
    + destruct (copied_entries ov s1 k f _ St ov' s' Hb Hc) as [(-> & n & _ & _ & Hn)|[-> _]]; [left|by right]. split; [done|]. cbn [fst]. rewrite Hn, decide_True by done. by eexists.
Qed.

#[export] Instance overlay_laws : ResidentLaws (MMOVERLAY * O) S.
Proof.
  split.
  - intros o s Hok. apply (mp_ok_frames _ _ (ov_parent _ _ Hok)).
  - intros o s m Hok [Hm|Hm]; [by apply (Sla.tree_page_refs s (OvSla o.1)), Hm; apply (ov_pages _ _ Hok)|by apply (mp_table_used o.2 s m (ov_parent _ _ Hok))].
  - intros o s m Hok [Hm|Hm].
    + split; [by apply (ov_used o s m Hok); right|]. intros [Ht|Ht]; [|by destruct (ov_apart _ _ Hok m (or_intror Hm))].
      apply (Sla.section_page_foreign _ _ _ (ov_pages _ _ Hok)) in Hm. by apply Sla.foreign_not_tree in Hm.
    + destruct (mp_page_used o.2 s m (ov_parent _ _ Hok) Hm) as [Hu Hn]. split; [done|]. intros [Ht|Ht]; [|done]. by destruct (ov_apart _ _ Hok m (or_introl Ht)).
  - intros o s off f Hok [Hb Hb'] Ha. cbn in Ha. destruct (own_entry o.1 s (shifted o.1 off)) as [e|] eqn:E.
    + injection Ha as <-. left. by apply (own_entry_page o.1 s (shifted o.1 off)).
    + right. by apply (mp_at_page o.2 s (shifted o.1 off) f (ov_parent _ _ Hok)).
  - intros o s s' Hok Hpf Ht Hp. by apply overlay_frame.
  - intros i o s off Hok Hb. by apply overlay_get.
  - intros i o s off Hok Hb. destruct (MmpPrepareWriteOverlay_spec o s off Hok Hb) as (St & o' & s' & E & Hst & _ & _ & _ & HSt). exists St, o', s'. split; [exact E|]. split; [done|].
    destruct HSt as [[-> _]| ->]; [by left|by right].
Qed.

(** A new overlay shows its parent. *)
Lemma MmInitializeOverlayObject_ok i off par s : mp_ok par s → overlay_ok (MmInitializeOverlayObject i off, par) s.
Proof.
  intros Hok. pose proof (mp_ok_frames _ _ Hok) as Hpf. pose proof (Sla.empty_section_ok s 0 Hpf) as Hs. split; [exact Hs|done|].
  intros m Hm. assert (is_Some (pf_refs s m)) as Hr.
  { destruct Hm as [Hm|Hm]; [rewrite (Sla.tree_page_refs _ _ _ (Sla.sec_sla _ _ Hs) Hm); by eexists|apply (Sla.section_page_foreign _ _ _ Hs Hm)]. }
  destruct (empty_apart s 0 m Hpf Hr) as (_ & Ht & Hp). by destruct Hm.
Qed.

(** Storing into a page of the overlay's own. *)
Lemma overlay_store o s k f b : overlay_ok o s → 0 ≤ k < Sla.max_entries → own_entry o.1 s k = Some f →
  let t := pf_store f b s in
  mp_ok o t ∧ (∀ off, mp_bound o off → page_view o t off = if decide (shifted o.1 off = k) then b else page_view o s off) ∧
  ∀ j, mp_bound o.2 j → page_view o.2 t j = page_view o.2 s j.
Proof.
  intros Hok Hk He t. pose proof (own_entry_page o.1 s k f Hk He) as Hf. pose proof (ov_parent _ _ Hok) as Hpar.
  assert (resident_frame o s t) as Hfr by exact (resident_store o s f b Hok (or_introl Hf)). split; [apply Hfr|].
  assert (∀ m, m ≠ f → pf_mem t !! m = pf_mem s !! m) as Hmem by (intros m Hm; unfold t; by rewrite pf_store_mem, lookup_insert_ne).
  split.
  - intros off Hb. unfold page_view. rewrite (rf_at _ _ _ Hfr off Hb). destruct Hb as [Hb Hb']. cbn. destruct (decide _) as [->|Hne].
    + rewrite He. unfold t. by rewrite pf_store_mem, lookup_insert_eq.
    + destruct (own_entry o.1 s (shifted o.1 off)) as [e|] eqn:Ee.
      * rewrite Hmem; [done|]. intros ->. apply Hne. unfold own_entry in He, Ee.
        destruct (Z.eqb_spec (Sla.entry_at s (OvSla o.1) k) MM_SLA_NO_DATA); [done|]. destruct (Z.eqb_spec (Sla.entry_at s (OvSla o.1) (shifted o.1 off)) MM_SLA_NO_DATA); [done|].
        apply (Sla.sec_once _ _ (ov_pages _ _ Hok)); [by apply bounded_offset|by apply bounded_offset|cbn; congruence|done].
      * destruct (mp_at o.2 s (shifted o.1 off)) as [e|] eqn:Ep; [|done]. rewrite Hmem; [done|]. intros ->.
        destruct (ov_apart _ _ Hok f (or_intror Hf)) as [_ []]. by apply (mp_at_page o.2 s (shifted o.1 off)).
  - assert (resident_frame o.2 s t) as Hfr2.
    { apply mp_frame; [done|apply (mp_ok_frames o t), Hfr| |].
      - intros m Ht. unfold t at 1. rewrite pf_store_refs. split; [done|]. apply Hmem. intros ->. by destruct (ov_apart _ _ Hok f (or_intror Hf)).
      - intros m Hp. unfold t. rewrite pf_store_refs. by apply (mp_page_used o.2 s m). }
    apply resident_view; [done|done|]. intros m Hp. apply Hmem. intros ->. by destruct (ov_apart _ _ Hok f (or_intror Hf)).
Qed.
End laws.

(** ** Writing through an overlay *)

(** C36: over a parent whose pages stay in memory, preparing a write through a
    copy-on-write overlay changes nothing of what is seen through the overlay or
    of what its parent shows, and when it succeeds
    the page that the overlay then hands out is its own: whatever is stored there
    is seen through the overlay at that offset and nowhere else, and the parent
    stays as it was.  Without memory it says so and, again, changes nothing. *)
Theorem overlay_write_isolated {O S : Type} `{ResidentLaws O S} (o : MMOVERLAY * O) (s : S) (off : Z) (Hok : mp_ok o s) (Hoff : mp_bound o off) :
  ∃ St o1 s1, MmpPrepareWriteOverlay off o s = Ok (St, o1, s1) ∧ mp_ok o1 s1 ∧
    (∀ j, mp_bound o j → page_view o1 s1 j = page_view o s j) ∧ (∀ j, mp_bound o.2 j → page_view o1.2 s1 j = page_view o.2 s j) ∧
    (St = STATUS_INSUFFICIENT_MEMORY ∨
     St = STATUS_SUCCESS ∧ ∃ f s2, MmpGetPageOverlay off o1 s1 = Ok (STATUS_SUCCESS, Some f, o1, s2) ∧
       ∀ b, let t := pf_store f b s2 in
         mp_ok o1 t ∧ page_view o1 t off = b ∧
         (∀ j, mp_bound o j → shifted o.1 j ≠ shifted o.1 off → page_view o1 t j = page_view o s j) ∧
         ∀ j, mp_bound o.2 j → page_view o1.2 t j = page_view o.2 s j).
Proof.
  destruct (MmpPrepareWriteOverlay_spec o s off Hok Hoff) as (St & [ov1 par1] & s1 & Hprep & Hst & Eo & Hpb & Hpv & HSt). cbn [fst snd] in *.
  exists St, (ov1, par1), s1. split; [exact Hprep|]. split; [apply Hst|]. split; [exact (rs_view _ _ _ _ Hst)|]. split; [exact Hpv|].
  destruct HSt as [[-> [f Hf]]|HSt]; [right|by left]. split; [done|].
  assert (∀ j, shifted ov1 j = shifted o.1 j) as Esh by (intros j; unfold shifted; by rewrite Eo). rewrite <-Esh in Hf. pose proof (rs_ok _ _ _ _ Hst) as Hok1.
  assert (mp_bound (ov1, par1) off) as Hoff1 by (by apply (rs_bound _ _ _ _ Hst)). pose proof Hoff1 as [Hb _]. cbn [fst snd] in Hb.
  destruct (own_get ov1 par1 s1 off f Hok1 Hb Hf) as (s2 & Hg & Hst2 & Hf2 & Hpv2). exists f, s2. split; [exact Hg|].
  intros b. destruct (overlay_store (ov1, par1) s2 (shifted ov1 off) f b (rs_ok _ _ _ _ Hst2) Hb Hf2) as (Hok2 & Hv & Hp). cbn [fst snd] in *. split; [exact Hok2|].
  split; [|split].
  - rewrite (Hv off Hoff1). by rewrite decide_True.
  - intros j Hj Hne. assert (mp_bound (ov1, par1) j) as Hj1 by (by apply (rs_bound _ _ _ _ Hst)). rewrite (Hv j Hj1), decide_False by (by rewrite !Esh).
    rewrite (rs_view _ _ _ _ Hst2 j Hj1). by apply (rs_view _ _ _ _ Hst).
  - intros j Hj. apply Hpb in Hj as Hj'. rewrite (Hp j Hj'), (Hpv2 j Hj'). by apply Hpv.
Qed.

(** ** Private views *)

Section private.
Context {O S : Type} `{ResidentLaws O S}.

(** Writing an entry of the map leaves the overlay's own pages. *)
Lemma own_entry_wrote root ov par va e s s' k : overlay_ok (ov, par) s → no_large s root → map_apart s root (ov, par) → wrote s root va e s' →
  0 ≤ k < Sla.max_entries → own_entry ov s' k = own_entry ov s k.
Proof.
  intros Hok Hl Ha Hw Hk. assert (map_apart s root (pages_of ov)) as Ha'.
  { intros path p Ht Hp. specialize (Ha path p Ht Hp). apply (section_apart s (pages_of ov) p (ov_pages _ _ Hok)). by apply (apart_both _ _ _ Hok) in Ha as [? _]. }
  destruct (@wrote_view_kept _ _ _ _ _ _ section_laws s root (pages_of ov) va e s' (ov_pages _ _ Hok) Hl Ha' Hw) as [_ Hat]. exact (Hat k Hk).
Qed.

Lemma parent_wrote root ov par va e s s' : overlay_ok (ov, par) s → no_large s root → map_apart s root (ov, par) → wrote s root va e s' →
  ∀ j, mp_bound par j → page_view par s' j = page_view par s j.
Proof.
  intros Hok Hl Ha Hw. assert (map_apart s root par) as Ha'.
  { intros path p Ht Hp. specialize (Ha path p Ht Hp). by apply (apart_both _ _ _ Hok) in Ha as [_ ?]. }
  destruct (wrote_view_kept s root par va e s' (ov_parent _ _ Hok) Hl Ha' Hw) as [Hk _]. exact (vk_view _ _ _ _ _ Hk).
Qed.

(** C37: a write to a page of a private view, one that shows a copy-on-write
    overlay over a parent whose pages stay in memory, that is mapped read-only where the descriptor allows writing: the
    kernel has no memory and says so; or the page is mapped writable, nothing that
    the view or the overlay's parent shows has changed, and whatever is then stored
    in the page is seen through the view at that offset alone, never through the
    parent. *)
Theorem private_write_isolated p (o : MMOVERLAY * O) s Waited FaultPC va Mode v obj e : view_space p o s → user_va va →
  covering p va v → MappedObject v = Some obj → on (Protection v) PAGE_WRITE = true → present_entry s (PageMap p) va = Some e →
  allows_write e = false → allows_user e = true → on Mode MM_FAULT_WRITE = true → on Mode MM_FAULT_INSNFETCH = false →
  mp_bound o (view_offset v va) →
  (∃ o' s', MmPageFault Waited FaultPC va Mode p o s = Ok (STATUS_INSUFFICIENT_MEMORY, p, o', s') ∧ view_space p o' s') ∨
  ∃ f o' s', MmPageFault Waited FaultPC va Mode p o s = Ok (STATUS_SUCCESS, p, o', s') ∧ view_space p o' s' ∧
    pte s' (PageMap p) va = Some (MmBuildPte f (write_bits e)) ∧
    (∀ j, mp_bound o j → page_view o' s' j = page_view o s j) ∧
    ∀ b, page_view o' (pf_store f b s') (view_offset v va) = b ∧
      (∀ j, mp_bound o j → shifted o.1 j ≠ shifted o.1 (view_offset v va) → page_view o' (pf_store f b s') j = page_view o s j) ∧
      ∀ j, mp_bound o.2 j → page_view o'.2 (pf_store f b s') j = page_view o.2 s j.
Proof.
  intros Hvs Hva Hc Hobj Hpw He Hw Hu Hmw Hmx Hoff. pose proof (vs_object _ _ _ Hvs) as Hok.
  destruct (view_write_spec p o s Waited FaultPC va Mode v obj e Hvs Hva Hc Hobj Hpw He Hw Hu Hmw Hmx Hoff)
    as [(o' & s' & E & Hk & _)|(f & o1 & s1 & o' & s' & E & [Hprep (s2 & Hg & Hwr & Hk2) Hk _ _ Hpte])]; [left; exists o', s'; split; [exact E|exact (view_space_kept p o s o' s' Hvs Hk)]|right].
  destruct (MmpPrepareWriteOverlay_spec o s (view_offset v va) Hok Hoff) as (St & [ov1 par1] & s1' & Hprep' & Hst & Eo & Hpb & Hpv & HSt). cbn [fst snd] in *.
  change (MmpPrepareWriteOverlay (view_offset v va) o s = Ok (STATUS_SUCCESS, o1, s1)) in Hprep. rewrite Hprep in Hprep'. injection Hprep' as <- -> <-.
  destruct HSt as [[_ [g Hgo]]|HSt]; [|discriminate HSt]. assert (∀ j, shifted ov1 j = shifted o.1 j) as Esh by (intros j; unfold shifted; by rewrite Eo). rewrite <-Esh in Hgo.
  pose proof (rs_ok _ _ _ _ Hst) as Hok1. pose proof (proj2 (rs_bound _ _ _ _ Hst (view_offset v va)) Hoff) as Hoff1. pose proof Hoff1 as [Hb _]. cbn [fst snd] in Hb.
  destruct (own_get ov1 par1 s1 (view_offset v va) g Hok1 Hb Hgo) as (s2' & Hg' & Hst2 & Hf2 & Hpv2).
  change (MmpGetPageOverlay (view_offset v va) (ov1, par1) s1 = Ok (STATUS_SUCCESS, Some f, o', s2)) in Hg. rewrite Hg in Hg'. injection Hg' as -> -> <-.
  exists g, (ov1, par1), s'. split; [exact E|]. split; [exact (view_space_kept p o s _ s' Hvs Hk)|]. split; [rewrite (Hpte va (proj1 (user_plain va Hva))); by rewrite decide_True|].
  split; [exact (vk_view _ _ _ _ _ Hk)|]. intros b.
  assert (own_entry ov1 s' (shifted ov1 (view_offset v va)) = Some g) as Hf3.
  { rewrite <-Hf2. apply (own_entry_wrote (PageMap p) ov1 par1 va _ s2 s' _ (vk_object _ _ _ _ _ Hk2) (vk_large _ _ _ _ _ Hk2) (vk_apart _ _ _ _ _ Hk2) Hwr Hb). }
  destruct (overlay_store (ov1, par1) s' _ g b (vk_object _ _ _ _ _ Hk) Hb Hf3) as (_ & Hv & Hp). cbn [fst snd] in *. split; [|split].
  - rewrite (Hv _ Hoff1). by rewrite decide_True.
  - intros j Hj Hne. pose proof (proj2 (rs_bound _ _ _ _ Hst j) Hj) as Hj1. rewrite (Hv j Hj1), decide_False by (by rewrite !Esh). exact (vk_view _ _ _ _ _ Hk j Hj).
  - intros j Hj. apply Hpb in Hj as Hj'. rewrite (Hp j Hj'). rewrite (parent_wrote (PageMap p) ov1 par1 va _ s2 s' (vk_object _ _ _ _ _ Hk2) (vk_large _ _ _ _ _ Hk2) (vk_apart _ _ _ _ _ Hk2) Hwr j Hj').
    rewrite (Hpv2 j Hj'). by apply Hpv.
Qed.
End private.

(** ** Witnesses *)

(** An overlay over an empty section, and the address space that it is shown
    in. *)
Definition demo_overlay : MMOVERLAY * Sla.MMSECTION := (MmInitializeOverlayObject 7 0, demo_section).

Lemma demo_overlay_ok : view_space demo_view_space demo_overlay fresh_map.
Proof.
  destruct fresh_map_ok as (Hmap & _). pose proof (po_frames _ _ Hmap) as Hpf.
  assert (overlay_ok demo_overlay fresh_map) as Hok by (apply MmInitializeOverlayObject_ok; exact (Sla.empty_section_ok fresh_map 8192 Hpf)).
  apply demo_space_of; [exact Hok|]. apply (apart_both demo_overlay fresh_map 1 Hok). split; [|exact (demo_root_apart 8192)].
  apply (section_apart fresh_map (pages_of demo_overlay.1) 1 (ov_pages _ _ Hok)). exact (demo_root_apart 0).
Qed.

Lemma demo_bound j : 0 ≤ j < Sla.max_entries → mp_bound demo_overlay j.
Proof.
  intros Hj. assert (shifted demo_overlay.1 j = j) as E by (unfold shifted; cbn; rewrite Z.add_0_r; pose proof (bounded_offset j Hj); by apply wrap_small).
  split; rewrite E; exact Hj.
Qed.

Lemma overlay_write_isolated_witness :
  ∃ o1 s1, MmpPrepareWriteOverlay 1 demo_overlay fresh_map = Ok (STATUS_SUCCESS, o1, s1) ∧ mp_ok o1 s1 ∧ page_view o1.2 s1 1 = zeros.
Proof.
  assert (mp_bound demo_overlay 1) as Hb by (apply demo_bound; vm_compute; split; [congruence|reflexivity]).
  destruct (overlay_write_isolated demo_overlay fresh_map 1 (vs_object _ _ _ demo_overlay_ok) Hb) as (St & o1 & s1 & E & Hok & _ & Hp & HSt).
  assert (match MmpPrepareWriteOverlay 1 demo_overlay fresh_map with Ok (STATUS_SUCCESS, _, _) => True | _ => False end) as Hs by (vm_compute; exact I).
  exists o1, s1. destruct HSt as [->|[-> _]]; [exfalso; rewrite E in Hs; exact Hs|]. split; [exact E|]. split; [exact Hok|]. rewrite (Hp 1 (proj2 Hb)). vm_compute. reflexivity.
Defined.

Lemma private_write_isolated_witness :
  ∃ (o : MMOVERLAY * Sla.MMSECTION) s f o' s', MmPageFault STATUS_SUCCESS 0x400000 0x11234 MM_FAULT_WRITE demo_view_space o s = Ok (STATUS_SUCCESS, demo_view_space, o', s') ∧
    ∀ b, page_view o' (pf_store f b s') 1 = b.
Proof.
  pose proof demo_overlay_ok as Hvo.
  assert (match MmPageFault STATUS_SUCCESS 0x400000 0x11234 0 demo_view_space demo_overlay fresh_map with Ok (STATUS_SUCCESS, _, _, _) => True | _ => False end) as Hs
    by (vm_compute; exact I).
  assert (match MmPageFault STATUS_SUCCESS 0x400000 0x11234 0 demo_view_space demo_overlay fresh_map with
    | Ok (_, p, o, s) => match MmPageFault STATUS_SUCCESS 0x400000 0x11234 MM_FAULT_WRITE p o s with Ok (STATUS_SUCCESS, _, _, _) => True | _ => False end
    | _ => False end) as Hs2 by (vm_compute; exact I).
  destruct (demo_view_mapped demo_overlay Hvo) as (f & o & s & E & Hv & He & Hb); [apply demo_bound; vm_compute; split; [congruence|reflexivity]|exact Hs|]. rewrite E in Hs2.
  destruct (section_pte_bits f 3) as (_ & Hw & Hu).
  destruct (private_write_isolated demo_view_space o s STATUS_SUCCESS 0x400000 0x11234 MM_FAULT_WRITE demo_view 7 (section_pte f 3) Hv)
    as [(o' & s' & E2 & _)|(g & o' & s' & E2 & _ & _ & _ & Hi)]; [unfold user_va; lia|exact demo_view_covers|reflexivity|reflexivity|exact He|exact Hw|exact Hu|reflexivity|reflexivity|exact Hb| |].
  - exfalso. rewrite E2 in Hs2. exact Hs2.
  - exists o, s, g, o', s'. split; [exact E2|]. intros b. exact (proj1 (Hi b)).
Defined.
