(* ===== verification/View.v ===== *)
(** Views of objects and the services over the address space of a process:
    [boron/source/mm/view.c] and [boron/source/mm/svcs.c].

    The address space is that of the process in question.  What the handle of
    that process comes to, what [MmSafeCopy] answers and what a handle refers to
    are arguments. *)
From S2P Require Import Prelude Pmm Pages Pte PageMap PageFree Commit RbTree Heap Vad Mappable Fault MappedFault Overlay.
From S2P Require Mdl Sla.
Local Open Scope Z_scope.

(** [MmCreateOverlayObject] : boron/source/mm/overlay.c:239-270.
    [created] is what [ObCreateObject] answers; a new object has one reference. *)
Definition MmCreateOverlayObject (created : BSTATUS * Z) (ParentMappable SectionOffset : Z) (p : aspace) : BSTATUS * option (Z * MMOVERLAY) * aspace :=
  let '(Status, OutObject) := created in
  if FAILED Status then (Status, None, p)
  else
    let p := set_Objects (<[OutObject := 1]> (Objects p)) p in
    let p := change_refs 1 (Some ParentMappable) p in
    (STATUS_SUCCESS, Some (OutObject, MmInitializeOverlayObject ParentMappable SectionOffset), p).

(** The types of object that [MmMapViewOfObject] asks for. *)
Inductive mapped_type := IoFileType | MmSectionObjectType.

(** What a handle refers to, and whether a file is seekable. *)
Record handle_view := mkHandleView {
  ByHandle : mapped_type → BSTATUS * Z;
  IoIsSeekable : Z → bool;
}.

(** [ObReferenceObjectByHandle] takes a reference to what it finds. *)
Definition ObReferenceObjectByHandle (h : handle_view) (t : mapped_type) (p : aspace) : BSTATUS * Z * aspace :=
  let '(Status, Object) := ByHandle h t in
  (Status, Object, if FAILED Status then p else change_refs 1 (Some Object) p).

(** [MmMapViewOfObject] : boron/source/mm/view.c:133-151. *)
Definition reference_mapped (h : handle_view) (p : aspace) : BSTATUS * Z * aspace :=
  let '(Status, Object, p) := ObReferenceObjectByHandle h IoFileType p in
  if negb (FAILED Status) then
    if negb (IoIsSeekable h Object) then (STATUS_UNSUPPORTED_FUNCTION, Object, change_refs (-1) (Some Object) p)
    else (Status, Object, p)
  else if decide (Status = STATUS_TYPE_MISMATCH) then ObReferenceObjectByHandle h MmSectionObjectType p
  else (Status, Object, p).

Definition page_bits : Z := PAGE_SIZE - 1.

Section view.
Context {S : Type} `{PageFrames S}.

(** [MmpMapViewOfObject] : boron/source/mm/view.c:19-75.
    The mark of the mappable header is not modelled.  The second result is
    [*BaseAddressInOut]. *)
Definition MmpMapViewOfObject (created : BSTATUS * Z) (pool : answers) (MappableObject BaseAddressIn ViewSize AllocationType SectionOff Prot : Z) (p : aspace) (s : S)
  : outcome (BSTATUS * Z * aspace * S) :=
  let '(Status, MappableObject, AllocationType, p) :=
    (if on AllocationType MEM_COW then
       match MmCreateOverlayObject created MappableObject 0 p with
       | (Status, Some (Overlay, _), p) => (Status, Overlay, Z.ldiff AllocationType MEM_COW, p)
       | (Status, None, p) => (Status, MappableObject, AllocationType, p)
       end
     else (STATUS_SUCCESS, MappableObject, AllocationType, p)) in
  if FAILED Status then Ok (Status, BaseAddressIn, p, s)
  else
    let BaseAddress := Z.ldiff BaseAddressIn page_bits in
    let PageOffset := Z.land SectionOff page_bits in
    let ViewSizePages := u64 (ViewSize + PageOffset + PAGE_SIZE - 1) / PAGE_SIZE in
    let p := change_refs 1 (Some MappableObject) p in
    '(Status, Vad, p, s) ← MmReserveVirtualMemoryVad pool ViewSizePages (Z.lor AllocationType MEM_RESERVE) Prot BaseAddress p s;
    if FAILED Status then Ok (Status, BaseAddressIn, change_refs (-1) (Some MappableObject) p, s)
    else
      Vad ← deref Vad;
      let Vad := set_SectionOffset (Z.ldiff SectionOff page_bits) (set_MappedObject (Some MappableObject) (set_Committed true Vad)) in
      let p := set_VadTree (update_entry (VadTree p) (key Vad) Vad) p in
      p ← MmUnlockVadList p;
      Ok (STATUS_SUCCESS, u64 (StartVa (Node Vad) + PageOffset), p, s).

(** [MmpMapViewOfFile] : boron/source/mm/view.c:77-91. *)
Definition MmpMapViewOfFile (h : handle_view) (created : BSTATUS * Z) (pool : answers) (FileObject BaseAddressIn ViewSize AllocationType SectionOff Prot : Z) (p : aspace) (s : S)
  : outcome (BSTATUS * Z * aspace * S) :=
  if negb (IoIsSeekable h FileObject) then Ok (STATUS_UNSUPPORTED_FUNCTION, BaseAddressIn, p, s)
  else MmpMapViewOfObject created pool FileObject BaseAddressIn ViewSize AllocationType SectionOff Prot p s.

(** [MmMapViewOfObject] : boron/source/mm/view.c:114-165. *)
Definition MmMapViewOfObject (h : handle_view) (created : BSTATUS * Z) (pool : answers) (BaseAddressIn ViewSize AllocationType SectionOff Prot : Z) (p : aspace) (s : S)
  : outcome (BSTATUS * Z * aspace * S) :=
  if on Prot (Z.lnot (Z.lor PAGE_READ (Z.lor PAGE_WRITE PAGE_EXECUTE))) then Ok (STATUS_INVALID_PARAMETER, BaseAddressIn, p, s)
  else if on AllocationType (Z.lnot (Z.lor MEM_COMMIT (Z.lor MEM_SHARED (Z.lor MEM_TOP_DOWN (Z.lor MEM_COW (Z.lor MEM_FIXED MEM_OVERRIDE)))))) then
    Ok (STATUS_INVALID_PARAMETER, BaseAddressIn, p, s)
  else if ViewSize =? 0 then Ok (STATUS_INVALID_PARAMETER, BaseAddressIn, p, s)
  else
    let '(Status, MappableObject, p) := reference_mapped h p in
    if FAILED Status then Ok (Status, BaseAddressIn, p, s)
    else
      '(Status, BaseAddress, p, s) ← MmpMapViewOfObject created pool MappableObject BaseAddressIn ViewSize AllocationType SectionOff Prot p s;
      Ok (Status, BaseAddress, change_refs (-1) (Some MappableObject) p, s).

(** ** Services *)

(** What the copies of a service from and to its caller answer. *)
Record copies := mkCopies { base_in : BSTATUS; size_in : BSTATUS; base_out : BSTATUS; size_out : BSTATUS }.

(** [OSAllocateVirtualMemory] : boron/source/mm/svcs.c:53-153.
    [Base] and [Region] are the values that the caller passes a pointer to; they
    come back as written there.  [Process] is what the handle comes to. *)
Definition OSAllocateVirtualMemory (ProcessHandle : Z) (Process : BSTATUS) (c : copies) (pool : answers) (Base Region AllocationType Prot : Z) (p : aspace) (s : S)
  : outcome (BSTATUS * Z * Z * aspace * S) :=
  if on Prot (Z.lnot (Z.lor PAGE_READ (Z.lor PAGE_WRITE PAGE_EXECUTE))) then Ok (STATUS_INVALID_PARAMETER, Base, Region, p, s)
  else if AllocationType =? 0 then Ok (STATUS_INVALID_PARAMETER, Base, Region, p, s)
  else if on AllocationType (Z.lnot (Z.lor MEM_COMMIT (Z.lor MEM_RESERVE (Z.lor MEM_TOP_DOWN (Z.lor MEM_SHARED (Z.lor MEM_FIXED MEM_OVERRIDE)))))) then
    Ok (STATUS_INVALID_PARAMETER, Base, Region, p, s)
  else if negb (on AllocationType (Z.lor MEM_COMMIT MEM_RESERVE)) then Ok (STATUS_INVALID_PARAMETER, Base, Region, p, s)
  else if on AllocationType MEM_OVERRIDE && negb (on AllocationType MEM_FIXED) then Ok (STATUS_INVALID_PARAMETER, Base, Region, p, s)
  else if ProcessHandle =? 0 then Ok (STATUS_INVALID_PARAMETER, Base, Region, p, s)
  else
    let reads := on AllocationType MEM_FIXED || (on AllocationType MEM_COMMIT && negb (on AllocationType MEM_RESERVE)) in
    if reads && FAILED (base_in c) then Ok (base_in c, Base, Region, p, s)
    else if FAILED (size_in c) then Ok (size_in c, Base, Region, p, s)
    else
      let BaseAddress := if reads then Base else 0 in
      let VaOffset := Z.land BaseAddress page_bits in
      let BaseAddress := Z.ldiff BaseAddress page_bits in
      let RegionSize := u64 (Region + VaOffset) in
      let SizePages := u64 (RegionSize + PAGE_SIZE - 1) / PAGE_SIZE in
      if SizePages =? 0 then Ok (STATUS_INVALID_PARAMETER, Base, Region, p, s)
      else if FAILED Process then Ok (Process, Base, Region, p, s)
      else
        '(Status, BaseAddress, p, s) ←
          (if on AllocationType MEM_RESERVE then MmReserveVirtualMemory pool SizePages BaseAddress AllocationType Prot p s
           else if on AllocationType MEM_FIXED then
             '(Status, p, s) ← MmCommitVirtualMemory BaseAddress SizePages Prot p s; Ok (Status, BaseAddress, p, s)
           else Ok (STATUS_INVALID_PARAMETER, BaseAddress, p, s));
        let RegionSize := u64 (SizePages * PAGE_SIZE) in
        let BaseAddress := u64 (BaseAddress + VaOffset) in
        if FAILED Status then Ok (Status, Base, Region, p, s)
        else if FAILED (base_out c) then Ok (base_out c, Base, Region, p, s)
        else if FAILED (size_out c) then Ok (size_out c, BaseAddress, Region, p, s)
        else Ok (size_out c, BaseAddress, RegionSize, p, s).

(** [OSFreeVirtualMemory] : boron/source/mm/svcs.c:182-253. *)
Definition OSFreeVirtualMemory (ProcessHandle : Z) (Process : BSTATUS) (pool : bool) (BaseAddress RegionSize FreeType : Z) (p : aspace) (s : S) : outcome (BSTATUS * aspace * S) :=
  if on FreeType (Z.lnot (Z.lor MEM_DECOMMIT (Z.lor MEM_RELEASE MEM_PARTIAL))) then Ok (STATUS_INVALID_PARAMETER, p, s)
  else if Z.land FreeType (Z.lor MEM_DECOMMIT MEM_RELEASE) =? 0 then Ok (STATUS_INVALID_PARAMETER, p, s)
  else if Z.land FreeType (Z.lor MEM_DECOMMIT MEM_RELEASE) =? Z.lor MEM_DECOMMIT MEM_RELEASE then Ok (STATUS_INVALID_PARAMETER, p, s)
  else if on FreeType MEM_PARTIAL && negb (on FreeType MEM_RELEASE) then Ok (STATUS_INVALID_PARAMETER, p, s)
  else
    let IsPartial := on FreeType MEM_PARTIAL in
    let FreeType := Z.ldiff FreeType MEM_PARTIAL in
    if ProcessHandle =? 0 then Ok (STATUS_INVALID_PARAMETER, p, s)
    else
      let RegionSize := u64 (RegionSize + Z.land BaseAddress page_bits) in
      let BaseAddress := Z.ldiff BaseAddress page_bits in
      let SizePages := u64 (RegionSize + PAGE_SIZE - 1) / PAGE_SIZE in
      if SizePages =? 0 then Ok (STATUS_INVALID_PARAMETER, p, s)
      else if FAILED Process then Ok (Process, p, s)
      else if IsPartial then MiUnmapVirtualMemoryPartial pool BaseAddress SizePages p s
      else
        '(Status, p, s) ← MmDecommitVirtualMemory BaseAddress SizePages p s;
        if negb (FAILED Status) && (FreeType =? MEM_RELEASE) then MmReleaseVirtualMemory BaseAddress p s
        else Ok (Status, p, s).

(** [OSMapViewOfObject] : boron/source/mm/svcs.c:279-338. *)
Definition OSMapViewOfObject (Process : BSTATUS) (c : copies) (h : handle_view) (created : BSTATUS * Z) (pool : answers) (Base ViewSize AllocationType SectionOff Prot : Z)
  (p : aspace) (s : S) : outcome (BSTATUS * Z * aspace * S) :=
  if on Prot (Z.lnot (Z.lor PAGE_READ (Z.lor PAGE_WRITE PAGE_EXECUTE))) then Ok (STATUS_INVALID_PARAMETER, Base, p, s)
  else if on AllocationType (Z.lnot (Z.lor MEM_COMMIT (Z.lor MEM_SHARED (Z.lor MEM_TOP_DOWN (Z.lor MEM_COW (Z.lor MEM_FIXED MEM_OVERRIDE)))))) then
    Ok (STATUS_INVALID_PARAMETER, Base, p, s)
  else if on AllocationType MEM_OVERRIDE && negb (on AllocationType MEM_FIXED) then Ok (STATUS_INVALID_PARAMETER, Base, p, s)
  else if ViewSize =? 0 then Ok (STATUS_INVALID_PARAMETER, Base, p, s)
  else if FAILED (base_in c) then Ok (base_in c, Base, p, s)
  else if FAILED Process then Ok (Process, Base, p, s)
  else
    '(Status, BaseAddress, p, s) ← MmMapViewOfObject h created pool Base ViewSize AllocationType SectionOff Prot p s;
    if FAILED Status then Ok (Status, Base, p, s)
    else Ok (base_out c, if FAILED (base_out c) then Base else BaseAddress, p, s).
End view.

(** ** What mapping does *)

Section proofs.
Context {S : Type} `{PageFrameLaws S}.

Definition view_pages (ViewSize Off : Z) : Z := (ViewSize + Off `mod` PAGE_SIZE + PAGE_SIZE - 1) / PAGE_SIZE.
Definition view_type (AT : Z) : Z := Z.lor (if on AT MEM_COW then Z.ldiff AT MEM_COW else AT) MEM_RESERVE.
Definition view_vad (n : MMADDRESS_NODE) (obj AT Off Prot : Z) : MMVAD :=
  mkVad n true (Z.land Prot 7) (negb (on AT MEM_SHARED)) (Some obj) (Z.ldiff Off page_bits).

(** The references that a view takes: one to the object; with [MEM_COW] the
    object has one from the new overlay, which has two. *)
Definition view_refs (cow : bool) (id obj : Z) (m : gmap Z Z) : gmap Z Z := alter (λ r, r + 1) obj (if cow then <[id := 2]> m else m).
(** Those that are left when there is no room. *)
Definition left_refs (cow : bool) (id obj : Z) (m : gmap Z Z) : gmap Z Z := if cow then alter (λ r, r + 1) obj (<[id := 1]> m) else m.

Lemma view_type_on AT k : 0 ≤ k → k ≠ 0 → k ≠ 6 → on (view_type AT) (2 ^ k) = on AT (2 ^ k).
Proof.
  intros Hk Hk0 Hk6. rewrite !on_pow2 by done. unfold view_type. change MEM_RESERVE with (2 ^ 0). change MEM_COW with (2 ^ 6).
  rewrite Z.lor_spec, (Z.pow2_bits_false 0) by done. rewrite orb_false_r. destruct (on AT (2 ^ 6)); [|done]. rewrite Z.ldiff_spec, Z.pow2_bits_false by done. by rewrite andb_true_r.
Qed.

Lemma alter_back (d : Z) o (m : gmap Z Z) : alter (λ r, r + - d) o (alter (λ r, r + d) o m) = m.
Proof.
  apply map_eq. intros i. destruct (decide (i = o)) as [->|Hne]; [|by rewrite !lookup_alter_ne].
  rewrite !lookup_alter_eq. destruct (m !! o); [|done]. cbn. f_equal. lia.
Qed.

Lemma as_ok_objects p s m : as_ok p s → as_ok (set_Objects m p) s.
Proof. by intros []. Qed.

Lemma view_pages_spec ViewSize Off : 0 < ViewSize → 0 ≤ Off → ViewSize + 2 * PAGE_SIZE < 2 ^ 64 →
  u64 (ViewSize + Z.land Off page_bits + PAGE_SIZE - 1) / PAGE_SIZE = view_pages ViewSize Off ∧ 0 < view_pages ViewSize Off ∧
  view_pages ViewSize Off * PAGE_SIZE < ViewSize + 2 * PAGE_SIZE.
Proof.
  intros Hv Ho Hb. unfold page_bits. rewrite land_offset. pose proof (Z.mod_pos_bound Off PAGE_SIZE ltac:(done)) as Hm. unfold view_pages.
  assert (PAGE_SIZE = 4096) as E by done. rewrite E in *. rewrite wrap_small by lia. split; [done|].
  set (a := ViewSize + Off `mod` 4096 + 4096 - 1). pose proof (Z.div_mod a 4096 ltac:(done)). pose proof (Z.mod_pos_bound a 4096 ltac:(done)). unfold a in *. nia.
Qed.

Lemma fresh_view n AT Prot Off obj : set_SectionOffset (Z.ldiff Off page_bits) (set_MappedObject (Some obj) (set_Committed true (fresh_vad n (view_type AT) Prot))) = view_vad n obj AT Off Prot.
Proof. unfold view_vad. change MEM_SHARED with (2 ^ 2). by rewrite <-(view_type_on AT 2). Qed.

(** The descriptor becomes that of the view, and the list is unlocked. *)
Lemma make_view p p' s n obj AT Off Prot : inserted p (fresh_vad n (view_type AT) Prot) p' → as_ok p' s → VadLocks p' = VadLocks p + 1 → 0 ≤ VadLocks p →
  ∃ p2, MmUnlockVadList (set_VadTree (update_entry (VadTree p') (StartVa n) (view_vad n obj AT Off Prot)) p') = Ok p2 ∧
    inserted p (view_vad n obj AT Off Prot) p2 ∧ as_ok p2 s ∧ VadLocks p2 = VadLocks p.
Proof.
  intros [(x & y & Ex & Ex') Hc Em Es Eo] Hok Hl Hvl. pose proof (as_vads _ _ Hok) as Ht. rewrite Ex' in Ht |- *. destruct (vads_keys _ _ _ Ht) as [Ha _].
  change (StartVa n) with (key (fresh_vad n (view_type AT) Prot)). rewrite update_at by done. rewrite (unlock_again _ (VadLocks p)) by done. eexists. split; [reflexivity|].
  split; [|split; [|done]].
  - split; [by exists x, y|exact Hc|exact Em|exact Es|exact Eo].
  - apply as_ok_unlock. apply (as_ok_step p' s _ s x (fresh_vad n (view_type AT) Prot) (view_vad n obj AT Off Prot) y); try done; [apply Hok|by intros ? ? ?].
Qed.

Definition view_made (p : aspace) (pool : answers) (objs : gmap Z Z) (obj Base ViewSize AT Off Prot a : Z) (p' : aspace) (s : S) : Prop :=
  ∃ n, placed p n (view_pages ViewSize Off) (Z.ldiff Base page_bits) (view_type AT) ∧ node_ok n ∧ a = StartVa n + Off `mod` PAGE_SIZE ∧
    inserted (set_Objects objs p) (view_vad n obj AT Off Prot) p' ∧ as_ok p' s ∧ VadLocks p' = VadLocks p.

(** From the reservation on, for the object that is mapped. *)
Lemma map_object_spec pool obj Base ViewSize AT Off Prot p s : as_ok p s → 0 ≤ VadLocks p → 0 < ViewSize → 0 ≤ Off → ViewSize + 2 * PAGE_SIZE < 2 ^ 64 →
  (if on AT MEM_FIXED then 0 ≤ Base ∧ Base + ViewSize + 3 * PAGE_SIZE < 2 ^ 64 else ok_first pool = true) → on AT MEM_OVERRIDE = false →
  let out := '(Status, Vad, p, s) ← MmReserveVirtualMemoryVad pool (view_pages ViewSize Off) (view_type AT) Prot (Z.ldiff Base page_bits) (change_refs 1 (Some obj) p) s;
    if FAILED Status then Ok (Status, Base, change_refs (-1) (Some obj) p, s)
    else
      Vad ← deref Vad;
      let Vad := set_SectionOffset (Z.ldiff Off page_bits) (set_MappedObject (Some obj) (set_Committed true Vad)) in
      let p := set_VadTree (update_entry (VadTree p) (key Vad) Vad) p in
      p ← MmUnlockVadList p;
      Ok (STATUS_SUCCESS, u64 (StartVa (Node Vad) + Z.land Off page_bits), p, s) in
  (∃ St, out = Ok (St, Base, p, s) ∧ St ≠ STATUS_SUCCESS ∧ no_room p pool (view_pages ViewSize Off) (Z.ldiff Base page_bits) (view_type AT) St) ∨
  ∃ a p', out = Ok (STATUS_SUCCESS, a, p', s) ∧ view_made p pool (view_refs false 0 obj (Objects p)) obj Base ViewSize AT Off Prot a p' s.
Proof.
  intros Hok Hvl Hv Ho Hb Hpre Hov out. destruct (view_pages_spec ViewSize Off Hv Ho Hb) as (_ & Hpos & Hlen). unfold out. clear out.
  assert (as_ok (change_refs 1 (Some obj) p) s) as Hok1 by (by apply as_ok_objects).
  destruct (reserve_vad_spec (change_refs 1 (Some obj) p) s pool (view_pages ViewSize Off) (Z.ldiff Base page_bits) (view_type AT) Prot Hok1 Hpos)
    as [(St & -> & HSt & Hno)|(n & p' & -> & Hpl & Hn & Hi & Hok' & Hl)].
  - change MEM_FIXED with (2 ^ 7) in *. rewrite (view_type_on AT 7) by done. destruct (on AT (2 ^ 7)); [|done]. unfold page_bits. rewrite ldiff_base. unfold page_base.
    pose proof (Z.mod_pos_bound Base PAGE_SIZE ltac:(done)). pose proof (Z.mod_le Base PAGE_SIZE). unfold PAGE_SIZE in *. lia.
  - change MEM_OVERRIDE with (2 ^ 8) in *. by rewrite (view_type_on AT 8) by done.
  - left. exists St. cbn [mbind outcome_bind]. assert (FAILED St = true) as -> by (by destruct St). change (-1) with (- (1)). rewrite change_refs_back. by split_and!.
  - right. cbn [mbind outcome_bind]. change (FAILED STATUS_SUCCESS) with false. cbn [deref mbind outcome_bind]. rewrite fresh_view.
    destruct (make_view _ p' s n obj AT Off Prot Hi Hok' Hl Hvl) as (p2 & Hu & Hi2 & Hok2 & Hl2). change (key (view_vad n obj AT Off Prot)) with (StartVa n). rewrite Hu. cbn [mbind outcome_bind Node view_vad].
    eexists _, p2. split; [reflexivity|]. exists n. split; [exact Hpl|]. split; [exact Hn|]. split; [|split; [exact Hi2|split; [exact Hok2|exact Hl2]]].
    unfold page_bits. rewrite land_offset. apply wrap_small. pose proof (as_vads _ _ Hok2) as Ht. destruct Hi2 as [(x & y & _ & Ex) _ _ _ _].
    assert (vad_ok (view_vad n obj AT Off Prot)) as [Hun _] by (eapply vads_ok_in; [exact Ht|rewrite Ex; set_solver]). destruct (user_node_end _ Hun) as (_ & Hlo & Hlt & Hle). cbn [Node view_vad] in *.
    pose proof (Z.mod_pos_bound Off PAGE_SIZE ltac:(done)). unfold PAGE_SIZE in *. lia.
Qed.

Lemma view_refs_overlay id obj m : id ≠ obj → view_refs false 0 id (left_refs true id obj m) = view_refs true id obj m.
Proof.
  intros Hne. unfold view_refs, left_refs. apply map_eq. intros i. destruct (decide (i = id)) as [->|Hi].
  - rewrite lookup_alter_eq, lookup_alter_ne, lookup_insert_eq, lookup_alter_ne, lookup_insert_eq by done. done.
  - rewrite lookup_alter_ne by done. destruct (decide (i = obj)) as [->|Ho]; [by rewrite !lookup_alter_eq, !lookup_insert_ne|by rewrite !lookup_alter_ne, !lookup_insert_ne].
Qed.

Definition map_answer (created : BSTATUS * Z) (pool : answers) (obj Base ViewSize AT Off Prot : Z) (p : aspace) (s : S) (St : BSTATUS) (a : Z) (p' : aspace) : Prop :=
  let cow := on AT MEM_COW in
  (cow = true ∧ St = created.1 ∧ St ≠ STATUS_SUCCESS ∧ a = Base ∧ p' = p) ∨
  (cow = true → created.1 = STATUS_SUCCESS) ∧
  ((St ≠ STATUS_SUCCESS ∧ no_room p pool (view_pages ViewSize Off) (Z.ldiff Base page_bits) (view_type AT) St ∧ a = Base ∧
      p' = set_Objects (left_refs cow created.2 obj (Objects p)) p) ∨
   (St = STATUS_SUCCESS ∧ view_made p pool (view_refs cow created.2 obj (Objects p)) (if cow then created.2 else obj) Base ViewSize AT Off Prot a p' s)).

Lemma set_objects_same p : set_Objects (Objects p) p = p.
Proof. by destruct p. Qed.

Lemma MmpMapViewOfObject_spec created pool obj Base ViewSize AT Off Prot p s : as_ok p s → 0 ≤ VadLocks p → 0 < ViewSize → 0 ≤ Off → ViewSize + 2 * PAGE_SIZE < 2 ^ 64 →
  (if on AT MEM_FIXED then 0 ≤ Base ∧ Base + ViewSize + 3 * PAGE_SIZE < 2 ^ 64 else ok_first pool = true) → on AT MEM_OVERRIDE = false → created.2 ≠ obj →
  ∃ St a p', MmpMapViewOfObject created pool obj Base ViewSize AT Off Prot p s = Ok (St, a, p', s) ∧ map_answer created pool obj Base ViewSize AT Off Prot p s St a p'.
Proof.
  intros Hok Hvl Hv Ho Hb Hpre Hov Hid. unfold MmpMapViewOfObject, map_answer. destruct (view_pages_spec ViewSize Off Hv Ho Hb) as (-> & _).
  destruct (on AT MEM_COW) eqn:Hcow.
  - unfold MmCreateOverlayObject. destruct created as [St id]. cbn [fst snd] in *. destruct (decide (St = STATUS_SUCCESS)) as [->|HSt].
    2:{ assert (FAILED St = true) as -> by (by destruct St). assert (FAILED St = true) as -> by (by destruct St). exists St, Base, p. split; [done|]. by left. }
    change (FAILED STATUS_SUCCESS) with false. cbv iota.
    assert (Z.lor (Z.ldiff AT MEM_COW) MEM_RESERVE = view_type AT) as -> by (unfold view_type; by rewrite Hcow).
    destruct (map_object_spec pool id Base ViewSize AT Off Prot (set_Objects (left_refs true id obj (Objects p)) p) s) as [(St & E & HSt & Hno)|(a & p' & E & Hm)]; try done; [by apply as_ok_objects| |].
    + exists St, Base, (set_Objects (left_refs true id obj (Objects p)) p). split; [exact E|]. right. split; [done|]. left. by split_and!.
    + exists STATUS_SUCCESS, a, p'. split; [exact E|]. right. split; [done|]. right. split; [done|]. cbn [Objects set_Objects] in Hm. rewrite view_refs_overlay in Hm by done. exact Hm.
  - change (FAILED STATUS_SUCCESS) with false. cbv iota. assert (Z.lor AT MEM_RESERVE = view_type AT) as -> by (unfold view_type; by rewrite Hcow).
    destruct (map_object_spec pool obj Base ViewSize AT Off Prot p s) as [(St & E & HSt & Hno)|(a & p' & E & Hm)]; try done.
    + exists St, Base, p. split; [exact E|]. right. split; [done|]. left. unfold left_refs. rewrite set_objects_same. by split_and!.
    + exists STATUS_SUCCESS, a, p'. split; [exact E|]. right. split; [done|]. by right.
Qed.

(** What the handle refers to. *)
Definition refers (h : handle_view) : BSTATUS * Z :=
  let '(St, o) := ByHandle h IoFileType in
  if negb (FAILED St) then (if IoIsSeekable h o then (St, o) else (STATUS_UNSUPPORTED_FUNCTION, o))
  else if decide (St = STATUS_TYPE_MISMATCH) then ByHandle h MmSectionObjectType else (St, o).

Lemma reference_mapped_spec h p : reference_mapped h p = ((refers h).1, (refers h).2, if FAILED (refers h).1 then p else change_refs 1 (Some (refers h).2) p).
Proof.
  unfold reference_mapped, refers, ObReferenceObjectByHandle. destruct (ByHandle h IoFileType) as [St o]. destruct (FAILED St) eqn:E; cbn [negb].
  - destruct (decide _); [by destruct (ByHandle h MmSectionObjectType)|]. cbn. by rewrite E.
  - destruct (IoIsSeekable h o); cbn [negb fst snd]; [by rewrite E|]. change (FAILED STATUS_UNSUPPORTED_FUNCTION) with true. cbv iota.
    change (-1) with (- (1)). by rewrite change_refs_back.
Qed.

(** The reference of the handle is given back. *)
Lemma refs_given_back cow id obj (m : gmap Z Z) : id ≠ obj →
  alter (λ r, r + -1) obj (view_refs cow id obj (alter (λ r, r + 1) obj m)) = view_refs cow id obj m ∧
  alter (λ r, r + -1) obj (left_refs cow id obj (alter (λ r, r + 1) obj m)) = left_refs cow id obj m.
Proof.
  intros Hne. unfold view_refs, left_refs. change (-1) with (- (1)). rewrite !alter_back. destruct cow; [|by rewrite alter_back].
  assert (∀ c, <[id := c]> (alter (λ r, r + 1) obj m) = alter (λ r, r + 1) obj (<[id := c]> m)) as E; [|by rewrite !E, !alter_back].
  intros c. apply map_eq. intros i. destruct (decide (i = id)) as [->|Hi]; [by rewrite lookup_insert_eq, lookup_alter_ne, lookup_insert_eq|].
  rewrite lookup_insert_ne by done. destruct (decide (i = obj)) as [->|Hio]; [by rewrite !lookup_alter_eq, lookup_insert_ne|by rewrite !lookup_alter_ne, lookup_insert_ne].
Qed.

Lemma made_given_back p pool objs objs' o obj Base ViewSize AT Off Prot a p' s : view_made (change_refs 1 (Some o) p) pool objs obj Base ViewSize AT Off Prot a p' s →
  alter (λ r, r + -1) o objs = objs' → view_made p pool objs' obj Base ViewSize AT Off Prot a (change_refs (-1) (Some o) p') s.
Proof.
  intros (n & Hpl & Hn & Ea & [(x & y & Ex & Ex') Hc Em Es Eo] & Hok & Hl) <-. exists n. split; [exact Hpl|]. split; [exact Hn|]. split; [exact Ea|].
  split; [|split; [by apply as_ok_objects|exact Hl]]. split; [by exists x, y|exact Hc|exact Em|exact Es|]. cbn. cbn in Eo. by rewrite Eo.
Qed.

Definition bad_view (AT Prot ViewSize : Z) : bool :=
  on Prot (Z.lnot (Z.lor PAGE_READ (Z.lor PAGE_WRITE PAGE_EXECUTE))) ||
  on AT (Z.lnot (Z.lor MEM_COMMIT (Z.lor MEM_SHARED (Z.lor MEM_TOP_DOWN (Z.lor MEM_COW (Z.lor MEM_FIXED MEM_OVERRIDE)))))) || (ViewSize =? 0).

Lemma MmMapViewOfObject_spec h created pool Base ViewSize AT Off Prot p s : as_ok p s → 0 ≤ VadLocks p → 0 ≤ ViewSize → 0 ≤ Off → ViewSize + 2 * PAGE_SIZE < 2 ^ 64 →
  (if on AT MEM_FIXED then 0 ≤ Base ∧ Base + ViewSize + 3 * PAGE_SIZE < 2 ^ 64 else ok_first pool = true) → on AT MEM_OVERRIDE = false → created.2 ≠ (refers h).2 →
  ∃ St a p', MmMapViewOfObject h created pool Base ViewSize AT Off Prot p s = Ok (St, a, p', s) ∧
    ((bad_view AT Prot ViewSize = true ∧ St = STATUS_INVALID_PARAMETER ∧ a = Base ∧ p' = p) ∨
     (bad_view AT Prot ViewSize = false ∧ St = (refers h).1 ∧ St ≠ STATUS_SUCCESS ∧ a = Base ∧ p' = p) ∨
     (bad_view AT Prot ViewSize = false ∧ (refers h).1 = STATUS_SUCCESS ∧ map_answer created pool (refers h).2 Base ViewSize AT Off Prot p s St a p')).
Proof.
  intros Hok Hvl Hv Ho Hb Hpre Hov Hid. unfold MmMapViewOfObject, bad_view.
  destruct (on Prot _); cbn [orb]; [by exists STATUS_INVALID_PARAMETER, Base, p; split; [|left]|]. destruct (on AT (Z.lnot _)); cbn [orb]; [by exists STATUS_INVALID_PARAMETER, Base, p; split; [|left]|].
  destruct (Z.eqb_spec ViewSize 0) as [|Hv0]; [by exists STATUS_INVALID_PARAMETER, Base, p; split; [|left]|]. rewrite reference_mapped_spec.
  destruct (refers h) as [St o]. cbn [fst snd] in *. destruct (FAILED St) eqn:Hf.
  - exists St, Base, p. split; [done|]. right. left. split_and!; try done. by intros ->.
  - assert (St = STATUS_SUCCESS) as -> by (by destruct St).
    destruct (MmpMapViewOfObject_spec created pool o Base ViewSize AT Off Prot (change_refs 1 (Some o) p) s) as (St & a & p' & -> & Ha); try done; [by apply as_ok_objects|lia|].
    cbn [mbind outcome_bind]. exists St, a, (change_refs (-1) (Some o) p'). split; [done|]. right. right. split; [done|]. split; [done|].
    destruct (refs_given_back (on AT MEM_COW) created.2 o (Objects p) Hid) as [Ev El]. destruct Ha as [(Hc & -> & HSt & -> & ->)|(Hc & [(HSt & Hno & -> & ->)|(-> & Hm)])].
    + left. change (-1) with (- (1)). rewrite change_refs_back. by split_and!.
    + right. split; [done|]. left. split; [done|]. split; [done|]. split; [done|]. unfold change_refs at 1. cbn [Objects set_Objects change_refs]. by rewrite El.
    + right. split; [done|]. right. split; [done|]. by apply (made_given_back _ _ _ _ _ _ _ _ _ _ _ _ _ _ Hm).
Qed.

Definition service_answer (Process : BSTATUS) (c : copies) (h : handle_view) (created : BSTATUS * Z) (pool : answers) (Base ViewSize AT Off Prot : Z) (p : aspace) (s : S)
  (St : BSTATUS) (a : Z) (p' : aspace) : Prop :=
  (bad_view AT Prot ViewSize = true ∧ St = STATUS_INVALID_PARAMETER ∧ a = Base ∧ p' = p) ∨
  (bad_view AT Prot ViewSize = false ∧ St ≠ STATUS_SUCCESS ∧ a = Base ∧ p' = p ∧
    (St = base_in c ∨ base_in c = STATUS_SUCCESS ∧ (St = Process ∨ Process = STATUS_SUCCESS ∧ St = (refers h).1))) ∨
  (bad_view AT Prot ViewSize = false ∧ base_in c = STATUS_SUCCESS ∧ Process = STATUS_SUCCESS ∧ (refers h).1 = STATUS_SUCCESS ∧
    ∃ St' a', map_answer created pool (refers h).2 Base ViewSize AT Off Prot p s St' a' p' ∧
      (if decide (St' = STATUS_SUCCESS) then St = base_out c ∧ a = (if FAILED (base_out c) then Base else a') else St = St' ∧ a = Base)).

Lemma failed_not St : FAILED St = true ↔ St ≠ STATUS_SUCCESS.
Proof. by destruct St. Qed.

Lemma map_answer_ok created pool obj Base ViewSize AT Off Prot p s St a p' : as_ok p s → map_answer created pool obj Base ViewSize AT Off Prot p s St a p' → as_ok p' s.
Proof. intros Hok [(_ & _ & _ & _ & ->)|(_ & [(_ & _ & _ & ->)|(_ & n & _ & _ & _ & _ & Hok' & _)])]; [done|by apply as_ok_objects|done]. Qed.

Lemma map_service_spec Process c h created pool Base ViewSize AT Off Prot p s : as_ok p s → 0 ≤ VadLocks p → 0 ≤ ViewSize → 0 ≤ Off → ViewSize + 2 * PAGE_SIZE < 2 ^ 64 →
  (if on AT MEM_FIXED then 0 ≤ Base ∧ Base + ViewSize + 3 * PAGE_SIZE < 2 ^ 64 else ok_first pool = true) → on AT MEM_OVERRIDE = false → created.2 ≠ (refers h).2 →
  ∃ St a p', OSMapViewOfObject Process c h created pool Base ViewSize AT Off Prot p s = Ok (St, a, p', s) ∧ as_ok p' s ∧
    service_answer Process c h created pool Base ViewSize AT Off Prot p s St a p'.
Proof.
  intros Hok Hvl Hv Ho Hb Hpre Hov Hid. unfold OSMapViewOfObject, service_answer. rewrite Hov. cbn [andb].
  destruct (MmMapViewOfObject_spec h created pool Base ViewSize AT Off Prot p s Hok Hvl Hv Ho Hb Hpre Hov Hid) as (St & a & p' & -> & Ha). unfold bad_view in *.
  destruct (on Prot _); cbn [orb] in *; [by exists STATUS_INVALID_PARAMETER, Base, p; split_and!; [| |left]|]. destruct (on AT (Z.lnot _)); cbn [orb] in *; [by exists STATUS_INVALID_PARAMETER, Base, p; split_and!; [| |left]|].
  destruct (ViewSize =? 0); [by exists STATUS_INVALID_PARAMETER, Base, p; split_and!; [| |left]|].
  destruct (FAILED (base_in c)) eqn:Hbi.
  { apply failed_not in Hbi. exists (base_in c), Base, p. split; [done|]. split; [done|]. right. left. split_and!; try done. by left. }
  assert (base_in c = STATUS_SUCCESS) as Ebi by (by destruct (base_in c)).
  destruct (FAILED Process) eqn:Hpr.
  { apply failed_not in Hpr. exists Process, Base, p. split; [done|]. split; [done|]. right. left. split_and!; try done. right. split; [done|by left]. }
  assert (Process = STATUS_SUCCESS) as Epr by (by destruct Process). cbn [mbind outcome_bind].
  destruct Ha as [(E & _)|[(_ & HSt1 & HSt & -> & ->)|(_ & Hr & Ha)]]; [done| |].
  - rewrite (proj2 (failed_not St) HSt). exists St, Base, p. split; [done|]. split; [done|]. right. left. split_and!; try done. right. split; [done|]. by right.
  - pose proof (map_answer_ok _ _ _ _ _ _ _ _ _ _ _ _ _ Hok Ha) as Hok'. destruct (decide (St = STATUS_SUCCESS)) as [->|HSt].
    + change (FAILED STATUS_SUCCESS) with false. cbv iota. eexists _, _, p'. split; [done|]. split; [done|]. right. right. split_and!; try done. exists STATUS_SUCCESS, a. by split.
    + rewrite (proj2 (failed_not St) HSt). exists St, Base, p'. split; [done|]. split; [done|]. right. right. split_and!; try done. exists St, a. split; [done|]. by rewrite decide_False.
Qed.

(** ** Giving a view back *)

(** Every last-level table has an entry outside of the range that is zero. *)
Definition room_left (s : S) (root Start : Z) (n : nat) : Prop := ∀ path p, in_tree path → length path = 3%nat → node s root path = Some p →
  ∃ va, plain_va va ∧ path_of va = path ∧ pte s root va = Some 0 ∧ ∀ i, (i < n)%nat → slot va ≠ slot (nth_page Start i).

Lemma no_full_room s root Start n new s' : decommitted false new s root Start n s' → room_left s root Start n → no_full s' root.
Proof.
  intros Hd Hr path p Ht Hl Hp. pose proof Hp as Hp0. rewrite (dc_node _ _ _ _ _ _ _ Hd) in Hp0 by done. destruct (Hr path p Ht Hl Hp0) as (va & Hva & Ep & Hz & Hout).
  exists (PML_IDX 1 va). split; [apply digit_PML|]. rewrite <-(dc_same _ _ _ _ _ _ _ Hd va eq_refl Hva Hout) in Hz. unfold pte in Hz. rewrite Ep, Hp in Hz. by injection Hz.
Qed.

Lemma free_view p p1 s v : as_ok p s → as_ok p1 s → inserted p v p1 → VadLocks p1 = VadLocks p → 0 ≤ VadLocks p → 0 ≤ SpaceLocks p →
  room_left s (PageMap p) (StartVa (Node v)) (Z.to_nat (Size (Node v))) → end_ (Node v) < 2 ^ 47 →
  ∃ p2 s1 s2, MmDecommitVirtualMemory (StartVa (Node v)) (Size (Node v)) p1 s = Ok (STATUS_SUCCESS, p2, s1) ∧
    MmReleaseVirtualMemory (StartVa (Node v)) p2 s1 = Ok (STATUS_SUCCESS, change_refs (-1) (MappedObject v) p, s2) ∧
    as_ok (change_refs (-1) (MappedObject v) p) s2 ∧ less_present s (PageMap p) s2.
Proof.
  intros Hok Hok1 Hi Hl1 Hvl Hsl Hroom Hend. pose proof Hi as [(x & y & Ex & Ex1) Hc Em Es Eo]. pose proof Hc as (_ & Hn & Hx).
  assert (vad_ok v) as [Hun Hvo] by (eapply vads_ok_in; [apply (as_vads _ _ Hok1)|rewrite Ex1; set_solver]). destruct (user_node_end _ Hun) as (_ & Hlo & Hlt & Hle).
  destruct Hn as (_ & Hal & Hsz & _). unfold end_, PAGE_SIZE in *.
  destruct (decommit_memory_spec p1 s (StartVa (Node v)) (Size (Node v)) Hok1) as (St & p2 & s1 & Hd & Hok2 & Ha); [lia|lia|lia|exact Hal|lia|lia|].
  assert (Vad.covers v (StartVa (Node v)) (Size (Node v))) as Hcov by (unfold Vad.covers, end_, PAGE_SIZE; lia).
  destruct Ha as [(Hno & _)|[(_ & Hno & _)|(_ & x' & w & y' & E & Hcw & -> & -> & Hdec & Hab)]].
  { destruct Hno. split; lia. }
  { destruct (Hno v); [rewrite Ex1; set_solver|exact Hcov]. }
  assert (w = v) as ->.
  { assert (w ∈ VadTree p1 ∧ v ∈ VadTree p1) as [Hw Hv] by (split; [rewrite E|rewrite Ex1]; set_solver). destruct Hcw as [C1 C2]. unfold end_, PAGE_SIZE in C2.
    apply (covering_unique p1 (StartVa (Node v)) w v (as_vads _ _ Hok1)); (split; [done|]); unfold node_has, end_, PAGE_SIZE; lia. }
  pose proof (as_vads _ _ Hok1) as Ht. rewrite Ex1 in Ht, E. destruct (split_unique _ _ _ _ _ _ Ht E eq_refl) as (<- & _ & <-).
  assert (after_decommit v (StartVa (Node v)) (Size (Node v)) = set_Committed false v) as Ead by (unfold after_decommit, whole; by rewrite !Z.eqb_refl). rewrite Ead in *.
  destruct (release_inserted p (set_VadTree (x ++ set_Committed false v :: y) p1) s s1 (set_Committed false v) Hok Hok2) as (s2 & Hr & Hok3 & Hless); try done.
  - split; [by exists x, y|exact Hc|exact Em|exact Es|exact Eo].
  - cbn [PageMap set_VadTree]. rewrite Em in Hdec |- *. by apply (no_full_room s _ _ _ _ _ Hdec).
  - eexists _, s1, s2. split; [exact Hd|]. split; [exact Hr|]. split; [exact Hok3|]. intros va Hva Hp. specialize (Hless va Hva Hp). rewrite Em in Hdec.
    eapply decommitted_present; [exact Hdec| |reflexivity|exact Hva|exact Hless]. apply node_user_range. exact Hun.
Qed.

Lemma placed_size p n k Base AT : 0 ≤ k → placed p n k (Z.ldiff Base page_bits) AT → Size n = k.
Proof.
  intros Hk. unfold placed. destruct (on AT MEM_FIXED); [|tauto]. intros ->. cbn [Size]. unfold page_bits, pages_for. rewrite ldiff_base.
  rewrite (proj2 (Z.mod_divide (page_base Base) PAGE_SIZE ltac:(done))) by apply page_base_aligned. unfold PAGE_SIZE.
  symmetry. apply (Z.div_unique _ _ _ 4095); lia.
Qed.

Lemma view_refs_dropped (cow : bool) (id obj : Z) (m : gmap Z Z) : id ≠ obj → alter (λ r : Z, r + -1) (if cow then id else obj) (view_refs cow id obj m) = left_refs cow id obj m.
Proof.
  intros Hne. change (-1) with (- (1)). destruct cow; [|apply alter_back]. unfold view_refs, left_refs. apply map_eq. intros i. destruct (decide (i = id)) as [->|Hi].
  - rewrite lookup_alter_eq, !lookup_alter_ne, !lookup_insert_eq by done. done.
  - rewrite lookup_alter_ne by done. destruct (decide (i = obj)) as [->|Ho]; [by rewrite !lookup_alter_eq, !lookup_insert_ne|by rewrite !lookup_alter_ne, !lookup_insert_ne].
Qed.

(** C34: mapping a view, without [MEM_OVERRIDE], and with memory for a node unless
    [MEM_FIXED] is given (an assertion stops the kernel otherwise), returns and
    keeps the address space well formed, changing no page.  A bad request, an
    address that cannot be copied in, and a handle that does not refer to a
    section or a seekable file are refused and change nothing.  Otherwise the
    view takes a free range of whole pages, the requested one with [MEM_FIXED],
    else the lowest or the highest one whatever address was given, with the
    protection, the object and the aligned offset asked for, and the address is
    that of the offset inside; the object has one reference more, and with
    [MEM_COW] so has the overlay that is then mapped in its place.  Without room
    only the overlay stays.  When the address cannot be copied out, the failure
    is reported and the view stays. *)
Theorem OSMapViewOfObject_correct Process c h created pool Base ViewSize AT Off Prot p s : as_ok p s → 0 ≤ VadLocks p → 0 ≤ ViewSize → 0 ≤ Off → ViewSize + 2 * PAGE_SIZE < 2 ^ 64 →
  (if on AT MEM_FIXED then 0 ≤ Base ∧ Base + ViewSize + 3 * PAGE_SIZE < 2 ^ 64 else ok_first pool = true) → on AT MEM_OVERRIDE = false → created.2 ≠ (refers h).2 →
  ∃ St a p', OSMapViewOfObject Process c h created pool Base ViewSize AT Off Prot p s = Ok (St, a, p', s) ∧ as_ok p' s ∧
    service_answer Process c h created pool Base ViewSize AT Off Prot p s St a p'.
Proof. apply map_service_spec. Qed.

(** C35: a view that was mapped without [MEM_OVERRIDE] can be released by the
    address and the size that the caller knows, aligned or not, when each
    last-level table has an entry outside of the view that is zero, and the last
    byte of the user half is not free: descriptors, free ranges and locks are
    then as before, no page is mapped that was not, and the references of all
    objects are as before; but with [MEM_COW] the overlay is left with a
    reference that nobody holds, and the object below it with one. *)
Theorem view_roundtrip Process c h created pool Base ViewSize AT Off Prot p s a p1 ProcessHandle again : as_ok p s → 0 ≤ VadLocks p → 0 ≤ SpaceLocks p →
  0 < ViewSize → 0 ≤ Off → ViewSize + 2 * PAGE_SIZE < 2 ^ 64 →
  (if on AT MEM_FIXED then 0 ≤ Base ∧ Base + ViewSize + 3 * PAGE_SIZE < 2 ^ 64 else ok_first pool = true) → on AT MEM_OVERRIDE = false → created.2 ≠ (refers h).2 →
  OSMapViewOfObject Process c h created pool Base ViewSize AT Off Prot p s = Ok (STATUS_SUCCESS, a, p1, s) →
  room_left s (PageMap p) (Z.ldiff a page_bits) (Z.to_nat (view_pages ViewSize Off)) → ¬ has (HeapTree p) (2 ^ 47 - 1) → ProcessHandle ≠ 0 →
  let p2 := set_Objects (left_refs (on AT MEM_COW) created.2 (refers h).2 (Objects p)) p in
  ∃ s2, OSFreeVirtualMemory ProcessHandle STATUS_SUCCESS again a ViewSize MEM_RELEASE p1 s = Ok (STATUS_SUCCESS, p2, s2) ∧ as_ok p2 s2 ∧ less_present s (PageMap p) s2.
Proof.
  intros Hok Hvl Hsl Hv Ho Hb Hpre Hov Hid Hmap Hroom Htop Hph p2.
  destruct (map_service_spec Process c h created pool Base ViewSize AT Off Prot p s) as (St & a' & p' & E & _ & Ha); try done; [lia|].
  rewrite Hmap in E. injection E as <- <- <-. destruct Ha as [(_ & E & _)|[(_ & E & _)|(_ & _ & _ & _ & St' & a' & Ha & Hst)]]; [discriminate E|done|].
  destruct (decide _) as [->|HSt]; [|by destruct Hst as [<- _]]. destruct Hst as [Hbo Ea]. rewrite <-Hbo in Ea. change (FAILED STATUS_SUCCESS) with false in Ea. cbv iota in Ea. subst a'.
  destruct Ha as [(_ & _ & Hx & _)|(_ & [(Hx & _)|(_ & n & Hpl & Hn & -> & Hi & Hok1 & Hl1)])]; [done|done|].
  set (o := if on AT MEM_COW then created.2 else (refers h).2) in *. destruct (view_pages_spec ViewSize Off Hv Ho Hb) as (Evp & Hpos & Hlen).
  pose proof (placed_size p n _ _ _ (Z.lt_le_incl _ _ Hpos) Hpl) as Hsz. pose proof Hn as (Hst0 & Hal & _). pose proof (Z.mod_pos_bound Off PAGE_SIZE ltac:(done)) as Hmod.
  assert ((StartVa n + Off `mod` PAGE_SIZE) `mod` PAGE_SIZE = Off `mod` PAGE_SIZE) as Em.
  { destruct Hal as [k ->]. rewrite Z.add_comm, Z.mod_add by done. by apply Z.mod_small. }
  assert (Z.ldiff (StartVa n + Off `mod` PAGE_SIZE) page_bits = StartVa n) as Eb by (unfold page_bits; rewrite ldiff_base; unfold page_base; rewrite Em; lia).
  rewrite Eb in Hroom. destruct (free_view (set_Objects (view_refs (on AT MEM_COW) created.2 (refers h).2 (Objects p)) p) p1 s (view_vad n o AT Off Prot))
    as (q & s1 & s2 & Hd & Hr & Hok2 & Hless); try done; [by apply as_ok_objects|cbn [Node view_vad]; by rewrite Hsz| |].
  { cbn [Node view_vad]. destruct Hi as [_ (_ & _ & Hx) _ _ _]. pose proof (as_vads _ _ Hok1) as Ht. pose proof (node_grows n Hn) as Hg. unfold PAGE_SIZE in Hg.
    assert (has (HeapTree p) (end_ n - 1)) as Hlast by (apply (Hx (end_ n - 1)); left; unfold node_has; cbn [Node view_vad]; lia).
    pose proof (heap_user _ _ (as_user _ _ Hok) Hlast) as [_ Hlt]. destruct (decide (end_ n = 2 ^ 47)) as [Ee|]; [|lia]. by rewrite Ee in Hlast. }
  exists s2. unfold OSFreeVirtualMemory. change (on MEM_RELEASE (Z.lnot (Z.lor MEM_DECOMMIT (Z.lor MEM_RELEASE MEM_PARTIAL)))) with false.
  change (Z.land MEM_RELEASE (Z.lor MEM_DECOMMIT MEM_RELEASE) =? 0) with false. change (Z.land MEM_RELEASE (Z.lor MEM_DECOMMIT MEM_RELEASE) =? Z.lor MEM_DECOMMIT MEM_RELEASE) with false.
  change (on MEM_RELEASE MEM_PARTIAL) with false. cbn [andb]. rewrite (proj2 (Z.eqb_neq _ _) Hph), Eb. unfold page_bits. rewrite !land_offset, !Em.
  assert (u64 (u64 (ViewSize + Off `mod` PAGE_SIZE) + PAGE_SIZE - 1) / PAGE_SIZE = view_pages ViewSize Off) as ->.
  { rewrite <-Evp. unfold page_bits. rewrite land_offset. f_equal. f_equal. f_equal. f_equal. apply wrap_small. unfold PAGE_SIZE in *. lia. }
  rewrite (proj2 (Z.eqb_neq _ _)) by lia. change (FAILED STATUS_SUCCESS) with false. cbv iota. cbn [Node view_vad] in Hd, Hr. rewrite Hsz in Hd.
  rewrite Hd. cbn [mbind outcome_bind].
  change (negb (FAILED STATUS_SUCCESS) && (Z.ldiff MEM_RELEASE MEM_PARTIAL =? MEM_RELEASE)) with true. cbv iota. rewrite Hr.
  assert (change_refs (-1) (MappedObject (view_vad n o AT Off Prot)) (set_Objects (view_refs (on AT MEM_COW) created.2 (refers h).2 (Objects p)) p) = p2) as E.
  { unfold p2. cbn [MappedObject view_vad change_refs Objects set_Objects]. unfold o. rewrite view_refs_dropped by done. done. }
  rewrite E in *. split; [done|]. split; [exact Hok2|exact Hless].
Qed.

(** Committing without reserving is refused but at a fixed address, although the
    service reads the address for it. *)
Lemma commit_needs_fixed ProcessHandle Process c pool Base Region AT Prot p s : on AT MEM_COMMIT = true → on AT MEM_RESERVE = false → on AT MEM_FIXED = false →
  ∃ St, OSAllocateVirtualMemory ProcessHandle Process c pool Base Region AT Prot p s = Ok (St, Base, Region, p, s) ∧ St ≠ STATUS_SUCCESS.
Proof.
  intros Hc Hr Hf. unfold OSAllocateVirtualMemory. rewrite Hc, Hr, Hf. destruct (on Prot _); [by eexists|]. destruct (AT =? 0); [by eexists|]. destruct (on AT (Z.lnot _)); [by eexists|].
  destruct (negb (on AT _)); [by eexists|]. destruct (on AT MEM_OVERRIDE && _); [by eexists|]. destruct (ProcessHandle =? 0); [by eexists|]. cbn [negb andb orb].
  destruct (FAILED (base_in c)) eqn:E1; [exists (base_in c); split; [done|by apply failed_not]|]. destruct (FAILED (size_in c)) eqn:E2; [exists (size_in c); split; [done|by apply failed_not]|].
  destruct (_ =? 0); [by eexists|]. destruct (FAILED Process) eqn:E3; [exists Process; split; [done|by apply failed_not]|]. by eexists.
Qed.
End proofs.

(** ** Witnesses *)

(** A handle of the section 7, and a new overlay 8. *)
Definition demo_handle : handle_view := mkHandleView (λ t, match t with IoFileType => (STATUS_TYPE_MISMATCH, 0) | MmSectionObjectType => (STATUS_SUCCESS, 7) end) (λ _, true).
Definition demo_copies : copies := mkCopies STATUS_SUCCESS STATUS_SUCCESS STATUS_SUCCESS STATUS_SUCCESS.
Definition demo_objects : aspace := set_Objects {[7 := 1]} demo_space.
Definition demo_answers : answers := mkAnswers true true true.

Lemma OSMapViewOfObject_correct_witness :
  ∃ p', OSMapViewOfObject STATUS_SUCCESS demo_copies demo_handle (STATUS_SUCCESS, 8) demo_answers 0 5000 MEM_COW 0x123 3 demo_objects fresh_map = Ok (STATUS_SUCCESS, 0x1123, p', fresh_map) ∧
    as_ok p' fresh_map ∧ Objects p' = {[7 := 2; 8 := 2]}.
Proof.
  destruct (OSMapViewOfObject_correct STATUS_SUCCESS demo_copies demo_handle (STATUS_SUCCESS, 8) demo_answers 0 5000 MEM_COW 0x123 3 demo_objects fresh_map)
    as (St & a & p' & E & Hok & _); [exact (as_ok_objects demo_space fresh_map _ demo_space_ok)|cbn; lia|lia|lia|unfold PAGE_SIZE; lia|reflexivity|reflexivity|discriminate|].
  assert (match OSMapViewOfObject STATUS_SUCCESS demo_copies demo_handle (STATUS_SUCCESS, 8) demo_answers 0 5000 MEM_COW 0x123 3 demo_objects fresh_map with
    | Ok (STATUS_SUCCESS, a, p', _) => a = 0x1123 ∧ Objects p' = {[7 := 2; 8 := 2]} | _ => False end) as Hs by (vm_compute; split; reflexivity).
  rewrite E in Hs. destruct St; try destruct Hs. subst a. exists p'. split; [exact E|]. split; [exact Hok|assumption].
Defined.

Lemma view_roundtrip_witness :
  ∃ a p1 s2, OSMapViewOfObject STATUS_SUCCESS demo_copies demo_handle (STATUS_SUCCESS, 8) demo_answers 0 5000 MEM_SHARED 0x123 3 demo_objects fresh_map = Ok (STATUS_SUCCESS, a, p1, fresh_map) ∧
    OSFreeVirtualMemory 1 STATUS_SUCCESS true a 5000 MEM_RELEASE p1 fresh_map = Ok (STATUS_SUCCESS, demo_objects, s2).
Proof.
  assert (match OSMapViewOfObject STATUS_SUCCESS demo_copies demo_handle (STATUS_SUCCESS, 8) demo_answers 0 5000 MEM_SHARED 0x123 3 demo_objects fresh_map with
    | Ok (STATUS_SUCCESS, a, p', s) => a = 0x1123 | _ => False end) as Hs by (vm_compute; reflexivity).
  destruct (map_service_spec STATUS_SUCCESS demo_copies demo_handle (STATUS_SUCCESS, 8) demo_answers 0 5000 MEM_SHARED 0x123 3 demo_objects fresh_map)
    as (St & a & p1 & E & _ & _); [exact (as_ok_objects demo_space fresh_map _ demo_space_ok)|cbn; lia|lia|lia|unfold PAGE_SIZE; lia|reflexivity|reflexivity|discriminate|].
  rewrite E in Hs. destruct St; try (exfalso; exact Hs). subst a.
  destruct (view_roundtrip STATUS_SUCCESS demo_copies demo_handle (STATUS_SUCCESS, 8) demo_answers 0 5000 MEM_SHARED 0x123 3 demo_objects fresh_map 0x1123 p1 1 true)
    as (s2 & Hf & _); [exact (as_ok_objects demo_space fresh_map _ demo_space_ok)|cbn; lia|cbn; lia|lia|lia|unfold PAGE_SIZE; lia|reflexivity|reflexivity|discriminate|exact E| | |discriminate|].
  - destruct fresh_map_ok as (_ & _ & _ & Hn & _). intros path p _ Hl Hp. destruct (Hn path p Hp) as [-> _]. discriminate Hl.
  - intros (n & Hn & Hin). unfold node_has, end_, PAGE_SIZE in Hin. repeat (apply elem_of_cons in Hn as [->|Hn]; [cbn in Hin; lia|]). by apply elem_of_nil in Hn.
  - exists 0x1123, p1, s2. split; [exact E|]. exact Hf.
Defined.
