(* ===== verification/Ke.v ===== *)
(** The kernel state of [boron/source/ke]: dispatcher objects, threads, the
    processors with their schedulers, and the operations on its fields.

    Objects, threads, DPCs and processors are known by their index.  A wait
    block is known by its thread and its position in the thread's wait block
    array; an intrusive list is the list of its entries.  Every routine runs with
    the dispatcher lock held from its first to its last access, so a routine is
    one step on this state; the processor that runs it is an argument. *)
From S2P Require Import Prelude RbTree.
Local Open Scope Z_scope.

(** [enum KTHREAD_STATUS] : boron/include/ke/thread.h:31-39. *)
Inductive KTHREAD_STATUS : Set :=
  | KTHREAD_STATUS_UNINITIALIZED
  | KTHREAD_STATUS_INITIALIZED
  | KTHREAD_STATUS_READY
  | KTHREAD_STATUS_RUNNING
  | KTHREAD_STATUS_WAITING
  | KTHREAD_STATUS_TERMINATED.

(** [enum WAIT_TYPE] : boron/include/ke/dispatch.h:43-47. *)
Inductive WAIT_TYPE : Set := WAIT_TYPE_ALL | WAIT_TYPE_ANY.

(** [KPROCESSOR_MODE] : boron/include/ke/mode.h:16-21. *)
Inductive KPROCESSOR_MODE : Set := MODE_KERNEL | MODE_USER.

(** [enum EVENT_TYPE] : common/include/kes.h:25-29. *)
Inductive EVENT_TYPE : Set := EVENT_SYNCHRONIZATION | EVENT_NOTIFICATION.

#[export] Instance KTHREAD_STATUS_eq_dec : EqDecision KTHREAD_STATUS.
Proof. solve_decision. Defined.
#[export] Instance WAIT_TYPE_eq_dec : EqDecision WAIT_TYPE.
Proof. solve_decision. Defined.
#[export] Instance KPROCESSOR_MODE_eq_dec : EqDecision KPROCESSOR_MODE.
Proof. solve_decision. Defined.
#[export] Instance EVENT_TYPE_eq_dec : EqDecision EVENT_TYPE.
Proof. solve_decision. Defined.

(** [PRIORITY_IDLE] : boron/include/ke/sched.h:30-30. *)
Definition PRIORITY_IDLE : Z := 0.
(** [PRIORITY_LOW] : boron/include/ke/sched.h:33-33. *)
Definition PRIORITY_LOW : Z := 1.
(** [PRIORITY_LOW_MAX] : boron/include/ke/sched.h:34-34. *)
Definition PRIORITY_LOW_MAX : Z := 7.
(** [PRIORITY_NORMAL] : boron/include/ke/sched.h:37-37. *)
Definition PRIORITY_NORMAL : Z := 8.
(** [PRIORITY_NORMAL_MAX] : boron/include/ke/sched.h:38-38. *)
Definition PRIORITY_NORMAL_MAX : Z := 19.
(** [PRIORITY_HIGH] : boron/include/ke/sched.h:41-41. *)
Definition PRIORITY_HIGH : Z := 20.
(** [PRIORITY_HIGH_MAX] : boron/include/ke/sched.h:42-42. *)
Definition PRIORITY_HIGH_MAX : Z := 26.
(** [PRIORITY_REALTIME] : boron/include/ke/sched.h:45-45. *)
Definition PRIORITY_REALTIME : Z := 27.
(** [PRIORITY_REALTIME_MAX] : boron/include/ke/sched.h:46-46. *)
Definition PRIORITY_REALTIME_MAX : Z := 31.
(** [PRIORITY_COUNT] : boron/include/ke/sched.h:48-48. *)
Definition PRIORITY_COUNT : nat := 32.
(** [MUTEX_SIGNALED] : boron/include/ke/mutex.h:18-18. *)
Definition MUTEX_SIGNALED : Z := 0.
(** [THREAD_WAIT_BLOCKS] : boron/include/ke/thread.h:23-23. *)
Definition THREAD_WAIT_BLOCKS : nat := 4.
(** [MAXIMUM_WAIT_BLOCKS] : boron/include/ke/thread.h:22-22. *)
Definition MAXIMUM_WAIT_BLOCKS : nat := 64.
(** [TIMEOUT_INFINITE] : boron/include/ke/dispatch.h:17-17. *)
Definition TIMEOUT_INFINITE : Z := 2147483647.
(** [MAX_THREADS_ON_QUEUE_OVERLOADED] : boron/source/ke/sched.c:25-25. *)
Definition MAX_THREADS_ON_QUEUE_OVERLOADED : Z := 100.
(** [MAX_QUANTUM_US] : boron/include/ke/thread.h:25-25. *)
Definition MAX_QUANTUM_US : Z := 10000.
(** [IPL_APC] : boron/include/arch/amd64/ipl.h:22-22. *)
Definition IPL_APC : Z := 3.
(** [IPL_DPC] : boron/include/arch/amd64/ipl.h:23-23. *)
Definition IPL_DPC : Z := 4.

(** ** Objects *)

(** [KTIMER] : boron/include/ke/timer.h:22-36.
    The dispatcher header is that of the object it is the body of. *)
Record KTIMER := mkTimer {
  ExpiryTick : Z;
  IsEnqueued : bool;
  TimerScheduler : option nat;
  TimerDpc : option nat }.

Definition set_ExpiryTick (v : Z) (x : KTIMER) : KTIMER :=
  mkTimer v (IsEnqueued x) (TimerScheduler x) (TimerDpc x).
Definition set_IsEnqueued (v : bool) (x : KTIMER) : KTIMER :=
  mkTimer (ExpiryTick x) v (TimerScheduler x) (TimerDpc x).
Definition set_TimerScheduler (v : option nat) (x : KTIMER) : KTIMER :=
  mkTimer (ExpiryTick x) (IsEnqueued x) v (TimerDpc x).
Definition set_TimerDpc (v : option nat) (x : KTIMER) : KTIMER :=
  mkTimer (ExpiryTick x) (IsEnqueued x) (TimerScheduler x) v.

(** [enum DISPATCH_TYPE] : boron/include/ke/dispatch.h:33-41.
    What follows the dispatcher header, by the object's type.  A thread's body
    names the thread, a process's its threads. *)
Inductive KBODY :=
  | DISPATCH_EVENT (Type_ : EVENT_TYPE)
  | DISPATCH_TIMER (Timer : KTIMER)
  | DISPATCH_MUTEX (Level : Z) (OwnerThread : option nat)
  | DISPATCH_SEMAPHORE (Limit : Z)
  | DISPATCH_THREAD (Thread : nat)
  | DISPATCH_PROCESS (ThreadList : list nat).

(** [KDISPATCH_HEADER] : boron/include/ke/dispatch.h:23-31. *)
Record KDISPATCH_HEADER := mkObject {
  Signaled : Z;
  WaitBlockList : list (nat * nat);
  Body : KBODY }.

Definition set_Signaled (v : Z) (x : KDISPATCH_HEADER) : KDISPATCH_HEADER :=
  mkObject v (WaitBlockList x) (Body x).
Definition set_WaitBlockList (v : list (nat * nat)) (x : KDISPATCH_HEADER) : KDISPATCH_HEADER :=
  mkObject (Signaled x) v (Body x).
Definition set_Body (v : KBODY) (x : KDISPATCH_HEADER) : KDISPATCH_HEADER :=
  mkObject (Signaled x) (WaitBlockList x) v.

(** ** Deferred procedure calls *)

Inductive DEFERRED_ROUTINE :=
  | KepWaitTimerExpiry_routine (Context : nat)
  | KepCleanUpThread_routine (Context : nat)
  | OtherRoutine.

(** [KDPC] : boron/include/ke/dpc.h:24-35.
    [Linked] tells whether the list links are those of a queue entry. *)
Record KDPC := mkDpc {
  Routine : DEFERRED_ROUTINE;
  Enqueued : bool;
  Important : bool;
  Linked : bool }.

Definition set_Routine (v : DEFERRED_ROUTINE) (x : KDPC) : KDPC :=
  mkDpc v (Enqueued x) (Important x) (Linked x).
Definition set_Enqueued (v : bool) (x : KDPC) : KDPC :=
  mkDpc (Routine x) v (Important x) (Linked x).
Definition set_Important (v : bool) (x : KDPC) : KDPC :=
  mkDpc (Routine x) (Enqueued x) v (Linked x).
Definition set_Linked (v : bool) (x : KDPC) : KDPC :=
  mkDpc (Routine x) (Enqueued x) (Important x) v.

(** ** Threads *)

(** [KTHREAD] : boron/include/ke/thread.h:48-191.
    [WaitBlockArray] has the objects of the blocks that are in use, so that its
    length is [WaitCount]; [EntryQueueIsSelf] holds until the thread enters a queue. *)
Record KTHREAD := mkThread {
  Status : KTHREAD_STATUS;
  Suspended : bool;
  EntryQueueIsSelf : bool;
  Priority : Z;
  BasePriority : Z;
  PriorityBoost : Z;
  Affinity : Z;
  LastProcessor : nat;
  DontSteal : bool;
  TickScheduledAt : Z;
  ThreadQuantumUntil : Z;
  WaitType : WAIT_TYPE;
  WaitBlockArray : list nat;
  WaitIsAlertable : bool;
  WaitStatus : BSTATUS;
  WaitMode : KPROCESSOR_MODE;
  MutexList : list nat;
  PendingTermination : bool;
  IncrementTerminated : Z;
  DidCallWaitFunction : bool;
  UserApcQueue : list nat;
  KernelApcQueue : list nat;
  ApcInProgress : Z;
  ApcDisableCount : Z;
  WaitTimer : nat;
  SleepTimer : nat;
  WaitDpc : nat;
  DeleteDpc : nat;
  ThreadHeader : nat;
  ThreadProcess : nat }.

Definition set_Status (v : KTHREAD_STATUS) (x : KTHREAD) : KTHREAD :=
  mkThread v (Suspended x) (EntryQueueIsSelf x) (Priority x) (BasePriority x) (PriorityBoost x)
    (Affinity x) (LastProcessor x) (DontSteal x) (TickScheduledAt x) (ThreadQuantumUntil x)
    (WaitType x) (WaitBlockArray x) (WaitIsAlertable x) (WaitStatus x) (WaitMode x)
    (MutexList x) (PendingTermination x) (IncrementTerminated x) (DidCallWaitFunction x)
    (UserApcQueue x) (KernelApcQueue x) (ApcInProgress x) (ApcDisableCount x) (WaitTimer x)
    (SleepTimer x) (WaitDpc x) (DeleteDpc x) (ThreadHeader x) (ThreadProcess x).
Definition set_Suspended (v : bool) (x : KTHREAD) : KTHREAD :=
  mkThread (Status x) v (EntryQueueIsSelf x) (Priority x) (BasePriority x) (PriorityBoost x)
    (Affinity x) (LastProcessor x) (DontSteal x) (TickScheduledAt x) (ThreadQuantumUntil x)
    (WaitType x) (WaitBlockArray x) (WaitIsAlertable x) (WaitStatus x) (WaitMode x)
    (MutexList x) (PendingTermination x) (IncrementTerminated x) (DidCallWaitFunction x)
    (UserApcQueue x) (KernelApcQueue x) (ApcInProgress x) (ApcDisableCount x) (WaitTimer x)
    (SleepTimer x) (WaitDpc x) (DeleteDpc x) (ThreadHeader x) (ThreadProcess x).
Definition set_EntryQueueIsSelf (v : bool) (x : KTHREAD) : KTHREAD :=
  mkThread (Status x) (Suspended x) v (Priority x) (BasePriority x) (PriorityBoost x)
    (Affinity x) (LastProcessor x) (DontSteal x) (TickScheduledAt x) (ThreadQuantumUntil x)
    (WaitType x) (WaitBlockArray x) (WaitIsAlertable x) (WaitStatus x) (WaitMode x)
    (MutexList x) (PendingTermination x) (IncrementTerminated x) (DidCallWaitFunction x)
    (UserApcQueue x) (KernelApcQueue x) (ApcInProgress x) (ApcDisableCount x) (WaitTimer x)
    (SleepTimer x) (WaitDpc x) (DeleteDpc x) (ThreadHeader x) (ThreadProcess x).
Definition set_Priority (v : Z) (x : KTHREAD) : KTHREAD :=
  mkThread (Status x) (Suspended x) (EntryQueueIsSelf x) v (BasePriority x) (PriorityBoost x)
    (Affinity x) (LastProcessor x) (DontSteal x) (TickScheduledAt x) (ThreadQuantumUntil x)
    (WaitType x) (WaitBlockArray x) (WaitIsAlertable x) (WaitStatus x) (WaitMode x)
    (MutexList x) (PendingTermination x) (IncrementTerminated x) (DidCallWaitFunction x)
    (UserApcQueue x) (KernelApcQueue x) (ApcInProgress x) (ApcDisableCount x) (WaitTimer x)
    (SleepTimer x) (WaitDpc x) (DeleteDpc x) (ThreadHeader x) (ThreadProcess x).
Definition set_BasePriority (v : Z) (x : KTHREAD) : KTHREAD :=
  mkThread (Status x) (Suspended x) (EntryQueueIsSelf x) (Priority x) v (PriorityBoost x)
    (Affinity x) (LastProcessor x) (DontSteal x) (TickScheduledAt x) (ThreadQuantumUntil x)
    (WaitType x) (WaitBlockArray x) (WaitIsAlertable x) (WaitStatus x) (WaitMode x)
    (MutexList x) (PendingTermination x) (IncrementTerminated x) (DidCallWaitFunction x)
    (UserApcQueue x) (KernelApcQueue x) (ApcInProgress x) (ApcDisableCount x) (WaitTimer x)
    (SleepTimer x) (WaitDpc x) (DeleteDpc x) (ThreadHeader x) (ThreadProcess x).
Definition set_PriorityBoost (v : Z) (x : KTHREAD) : KTHREAD :=
  mkThread (Status x) (Suspended x) (EntryQueueIsSelf x) (Priority x) (BasePriority x) v
    (Affinity x) (LastProcessor x) (DontSteal x) (TickScheduledAt x) (ThreadQuantumUntil x)
    (WaitType x) (WaitBlockArray x) (WaitIsAlertable x) (WaitStatus x) (WaitMode x)
    (MutexList x) (PendingTermination x) (IncrementTerminated x) (DidCallWaitFunction x)
    (UserApcQueue x) (KernelApcQueue x) (ApcInProgress x) (ApcDisableCount x) (WaitTimer x)
    (SleepTimer x) (WaitDpc x) (DeleteDpc x) (ThreadHeader x) (ThreadProcess x).
Definition set_Affinity (v : Z) (x : KTHREAD) : KTHREAD :=
  mkThread (Status x) (Suspended x) (EntryQueueIsSelf x) (Priority x) (BasePriority x)
    (PriorityBoost x) v (LastProcessor x) (DontSteal x) (TickScheduledAt x)
    (ThreadQuantumUntil x) (WaitType x) (WaitBlockArray x) (WaitIsAlertable x) (WaitStatus x)
    (WaitMode x) (MutexList x) (PendingTermination x) (IncrementTerminated x)
    (DidCallWaitFunction x) (UserApcQueue x) (KernelApcQueue x) (ApcInProgress x)
    (ApcDisableCount x) (WaitTimer x) (SleepTimer x) (WaitDpc x) (DeleteDpc x) (ThreadHeader x)
    (ThreadProcess x).
Definition set_LastProcessor (v : nat) (x : KTHREAD) : KTHREAD :=
  mkThread (Status x) (Suspended x) (EntryQueueIsSelf x) (Priority x) (BasePriority x)
    (PriorityBoost x) (Affinity x) v (DontSteal x) (TickScheduledAt x) (ThreadQuantumUntil x)
    (WaitType x) (WaitBlockArray x) (WaitIsAlertable x) (WaitStatus x) (WaitMode x)
    (MutexList x) (PendingTermination x) (IncrementTerminated x) (DidCallWaitFunction x)
    (UserApcQueue x) (KernelApcQueue x) (ApcInProgress x) (ApcDisableCount x) (WaitTimer x)
    (SleepTimer x) (WaitDpc x) (DeleteDpc x) (ThreadHeader x) (ThreadProcess x).
Definition set_DontSteal (v : bool) (x : KTHREAD) : KTHREAD :=
  mkThread (Status x) (Suspended x) (EntryQueueIsSelf x) (Priority x) (BasePriority x)
    (PriorityBoost x) (Affinity x) (LastProcessor x) v (TickScheduledAt x)
    (ThreadQuantumUntil x) (WaitType x) (WaitBlockArray x) (WaitIsAlertable x) (WaitStatus x)
    (WaitMode x) (MutexList x) (PendingTermination x) (IncrementTerminated x)
    (DidCallWaitFunction x) (UserApcQueue x) (KernelApcQueue x) (ApcInProgress x)
    (ApcDisableCount x) (WaitTimer x) (SleepTimer x) (WaitDpc x) (DeleteDpc x) (ThreadHeader x)
    (ThreadProcess x).
Definition set_TickScheduledAt (v : Z) (x : KTHREAD) : KTHREAD :=
  mkThread (Status x) (Suspended x) (EntryQueueIsSelf x) (Priority x) (BasePriority x)
    (PriorityBoost x) (Affinity x) (LastProcessor x) (DontSteal x) v (ThreadQuantumUntil x)
    (WaitType x) (WaitBlockArray x) (WaitIsAlertable x) (WaitStatus x) (WaitMode x)
    (MutexList x) (PendingTermination x) (IncrementTerminated x) (DidCallWaitFunction x)
    (UserApcQueue x) (KernelApcQueue x) (ApcInProgress x) (ApcDisableCount x) (WaitTimer x)
    (SleepTimer x) (WaitDpc x) (DeleteDpc x) (ThreadHeader x) (ThreadProcess x).
Definition set_ThreadQuantumUntil (v : Z) (x : KTHREAD) : KTHREAD :=
  mkThread (Status x) (Suspended x) (EntryQueueIsSelf x) (Priority x) (BasePriority x)
    (PriorityBoost x) (Affinity x) (LastProcessor x) (DontSteal x) (TickScheduledAt x) v
    (WaitType x) (WaitBlockArray x) (WaitIsAlertable x) (WaitStatus x) (WaitMode x)
    (MutexList x) (PendingTermination x) (IncrementTerminated x) (DidCallWaitFunction x)
    (UserApcQueue x) (KernelApcQueue x) (ApcInProgress x) (ApcDisableCount x) (WaitTimer x)
    (SleepTimer x) (WaitDpc x) (DeleteDpc x) (ThreadHeader x) (ThreadProcess x).
Definition set_WaitType (v : WAIT_TYPE) (x : KTHREAD) : KTHREAD :=
  mkThread (Status x) (Suspended x) (EntryQueueIsSelf x) (Priority x) (BasePriority x)
    (PriorityBoost x) (Affinity x) (LastProcessor x) (DontSteal x) (TickScheduledAt x)
    (ThreadQuantumUntil x) v (WaitBlockArray x) (WaitIsAlertable x) (WaitStatus x) (WaitMode x)
    (MutexList x) (PendingTermination x) (IncrementTerminated x) (DidCallWaitFunction x)
    (UserApcQueue x) (KernelApcQueue x) (ApcInProgress x) (ApcDisableCount x) (WaitTimer x)
    (SleepTimer x) (WaitDpc x) (DeleteDpc x) (ThreadHeader x) (ThreadProcess x).
Definition set_WaitBlockArray (v : list nat) (x : KTHREAD) : KTHREAD :=
  mkThread (Status x) (Suspended x) (EntryQueueIsSelf x) (Priority x) (BasePriority x)
    (PriorityBoost x) (Affinity x) (LastProcessor x) (DontSteal x) (TickScheduledAt x)
    (ThreadQuantumUntil x) (WaitType x) v (WaitIsAlertable x) (WaitStatus x) (WaitMode x)
    (MutexList x) (PendingTermination x) (IncrementTerminated x) (DidCallWaitFunction x)
    (UserApcQueue x) (KernelApcQueue x) (ApcInProgress x) (ApcDisableCount x) (WaitTimer x)
    (SleepTimer x) (WaitDpc x) (DeleteDpc x) (ThreadHeader x) (ThreadProcess x).
Definition set_WaitIsAlertable (v : bool) (x : KTHREAD) : KTHREAD :=
  mkThread (Status x) (Suspended x) (EntryQueueIsSelf x) (Priority x) (BasePriority x)
    (PriorityBoost x) (Affinity x) (LastProcessor x) (DontSteal x) (TickScheduledAt x)
    (ThreadQuantumUntil x) (WaitType x) (WaitBlockArray x) v (WaitStatus x) (WaitMode x)
    (MutexList x) (PendingTermination x) (IncrementTerminated x) (DidCallWaitFunction x)
    (UserApcQueue x) (KernelApcQueue x) (ApcInProgress x) (ApcDisableCount x) (WaitTimer x)
    (SleepTimer x) (WaitDpc x) (DeleteDpc x) (ThreadHeader x) (ThreadProcess x).
Definition set_WaitStatus (v : BSTATUS) (x : KTHREAD) : KTHREAD :=
  mkThread (Status x) (Suspended x) (EntryQueueIsSelf x) (Priority x) (BasePriority x)
    (PriorityBoost x) (Affinity x) (LastProcessor x) (DontSteal x) (TickScheduledAt x)
    (ThreadQuantumUntil x) (WaitType x) (WaitBlockArray x) (WaitIsAlertable x) v (WaitMode x)
    (MutexList x) (PendingTermination x) (IncrementTerminated x) (DidCallWaitFunction x)
    (UserApcQueue x) (KernelApcQueue x) (ApcInProgress x) (ApcDisableCount x) (WaitTimer x)
    (SleepTimer x) (WaitDpc x) (DeleteDpc x) (ThreadHeader x) (ThreadProcess x).
Definition set_WaitMode (v : KPROCESSOR_MODE) (x : KTHREAD) : KTHREAD :=
  mkThread (Status x) (Suspended x) (EntryQueueIsSelf x) (Priority x) (BasePriority x)
    (PriorityBoost x) (Affinity x) (LastProcessor x) (DontSteal x) (TickScheduledAt x)
    (ThreadQuantumUntil x) (WaitType x) (WaitBlockArray x) (WaitIsAlertable x) (WaitStatus x) v
    (MutexList x) (PendingTermination x) (IncrementTerminated x) (DidCallWaitFunction x)
    (UserApcQueue x) (KernelApcQueue x) (ApcInProgress x) (ApcDisableCount x) (WaitTimer x)
    (SleepTimer x) (WaitDpc x) (DeleteDpc x) (ThreadHeader x) (ThreadProcess x).
Definition set_MutexList (v : list nat) (x : KTHREAD) : KTHREAD :=
  mkThread (Status x) (Suspended x) (EntryQueueIsSelf x) (Priority x) (BasePriority x)
    (PriorityBoost x) (Affinity x) (LastProcessor x) (DontSteal x) (TickScheduledAt x)
    (ThreadQuantumUntil x) (WaitType x) (WaitBlockArray x) (WaitIsAlertable x) (WaitStatus x)
    (WaitMode x) v (PendingTermination x) (IncrementTerminated x) (DidCallWaitFunction x)
    (UserApcQueue x) (KernelApcQueue x) (ApcInProgress x) (ApcDisableCount x) (WaitTimer x)
    (SleepTimer x) (WaitDpc x) (DeleteDpc x) (ThreadHeader x) (ThreadProcess x).
Definition set_PendingTermination (v : bool) (x : KTHREAD) : KTHREAD :=
  mkThread (Status x) (Suspended x) (EntryQueueIsSelf x) (Priority x) (BasePriority x)
    (PriorityBoost x) (Affinity x) (LastProcessor x) (DontSteal x) (TickScheduledAt x)
    (ThreadQuantumUntil x) (WaitType x) (WaitBlockArray x) (WaitIsAlertable x) (WaitStatus x)
    (WaitMode x) (MutexList x) v (IncrementTerminated x) (DidCallWaitFunction x)
    (UserApcQueue x) (KernelApcQueue x) (ApcInProgress x) (ApcDisableCount x) (WaitTimer x)
    (SleepTimer x) (WaitDpc x) (DeleteDpc x) (ThreadHeader x) (ThreadProcess x).
Definition set_IncrementTerminated (v : Z) (x : KTHREAD) : KTHREAD :=
  mkThread (Status x) (Suspended x) (EntryQueueIsSelf x) (Priority x) (BasePriority x)
    (PriorityBoost x) (Affinity x) (LastProcessor x) (DontSteal x) (TickScheduledAt x)
    (ThreadQuantumUntil x) (WaitType x) (WaitBlockArray x) (WaitIsAlertable x) (WaitStatus x)
    (WaitMode x) (MutexList x) (PendingTermination x) v (DidCallWaitFunction x)
    (UserApcQueue x) (KernelApcQueue x) (ApcInProgress x) (ApcDisableCount x) (WaitTimer x)
    (SleepTimer x) (WaitDpc x) (DeleteDpc x) (ThreadHeader x) (ThreadProcess x).
Definition set_DidCallWaitFunction (v : bool) (x : KTHREAD) : KTHREAD :=
  mkThread (Status x) (Suspended x) (EntryQueueIsSelf x) (Priority x) (BasePriority x)
    (PriorityBoost x) (Affinity x) (LastProcessor x) (DontSteal x) (TickScheduledAt x)
    (ThreadQuantumUntil x) (WaitType x) (WaitBlockArray x) (WaitIsAlertable x) (WaitStatus x)
    (WaitMode x) (MutexList x) (PendingTermination x) (IncrementTerminated x) v
    (UserApcQueue x) (KernelApcQueue x) (ApcInProgress x) (ApcDisableCount x) (WaitTimer x)
    (SleepTimer x) (WaitDpc x) (DeleteDpc x) (ThreadHeader x) (ThreadProcess x).
Definition set_UserApcQueue (v : list nat) (x : KTHREAD) : KTHREAD :=
  mkThread (Status x) (Suspended x) (EntryQueueIsSelf x) (Priority x) (BasePriority x)
    (PriorityBoost x) (Affinity x) (LastProcessor x) (DontSteal x) (TickScheduledAt x)
    (ThreadQuantumUntil x) (WaitType x) (WaitBlockArray x) (WaitIsAlertable x) (WaitStatus x)
    (WaitMode x) (MutexList x) (PendingTermination x) (IncrementTerminated x)
    (DidCallWaitFunction x) v (KernelApcQueue x) (ApcInProgress x) (ApcDisableCount x)
    (WaitTimer x) (SleepTimer x) (WaitDpc x) (DeleteDpc x) (ThreadHeader x) (ThreadProcess x).
Definition set_KernelApcQueue (v : list nat) (x : KTHREAD) : KTHREAD :=
  mkThread (Status x) (Suspended x) (EntryQueueIsSelf x) (Priority x) (BasePriority x)
    (PriorityBoost x) (Affinity x) (LastProcessor x) (DontSteal x) (TickScheduledAt x)
    (ThreadQuantumUntil x) (WaitType x) (WaitBlockArray x) (WaitIsAlertable x) (WaitStatus x)
    (WaitMode x) (MutexList x) (PendingTermination x) (IncrementTerminated x)
    (DidCallWaitFunction x) (UserApcQueue x) v (ApcInProgress x) (ApcDisableCount x)
    (WaitTimer x) (SleepTimer x) (WaitDpc x) (DeleteDpc x) (ThreadHeader x) (ThreadProcess x).
Definition set_ApcInProgress (v : Z) (x : KTHREAD) : KTHREAD :=
  mkThread (Status x) (Suspended x) (EntryQueueIsSelf x) (Priority x) (BasePriority x)
    (PriorityBoost x) (Affinity x) (LastProcessor x) (DontSteal x) (TickScheduledAt x)
    (ThreadQuantumUntil x) (WaitType x) (WaitBlockArray x) (WaitIsAlertable x) (WaitStatus x)
    (WaitMode x) (MutexList x) (PendingTermination x) (IncrementTerminated x)
    (DidCallWaitFunction x) (UserApcQueue x) (KernelApcQueue x) v (ApcDisableCount x)
    (WaitTimer x) (SleepTimer x) (WaitDpc x) (DeleteDpc x) (ThreadHeader x) (ThreadProcess x).
Definition set_ApcDisableCount (v : Z) (x : KTHREAD) : KTHREAD :=
  mkThread (Status x) (Suspended x) (EntryQueueIsSelf x) (Priority x) (BasePriority x)
    (PriorityBoost x) (Affinity x) (LastProcessor x) (DontSteal x) (TickScheduledAt x)
    (ThreadQuantumUntil x) (WaitType x) (WaitBlockArray x) (WaitIsAlertable x) (WaitStatus x)
    (WaitMode x) (MutexList x) (PendingTermination x) (IncrementTerminated x)
    (DidCallWaitFunction x) (UserApcQueue x) (KernelApcQueue x) (ApcInProgress x) v
    (WaitTimer x) (SleepTimer x) (WaitDpc x) (DeleteDpc x) (ThreadHeader x) (ThreadProcess x).
Definition set_WaitTimer (v : nat) (x : KTHREAD) : KTHREAD :=
  mkThread (Status x) (Suspended x) (EntryQueueIsSelf x) (Priority x) (BasePriority x)
    (PriorityBoost x) (Affinity x) (LastProcessor x) (DontSteal x) (TickScheduledAt x)
    (ThreadQuantumUntil x) (WaitType x) (WaitBlockArray x) (WaitIsAlertable x) (WaitStatus x)
    (WaitMode x) (MutexList x) (PendingTermination x) (IncrementTerminated x)
    (DidCallWaitFunction x) (UserApcQueue x) (KernelApcQueue x) (ApcInProgress x)
    (ApcDisableCount x) v (SleepTimer x) (WaitDpc x) (DeleteDpc x) (ThreadHeader x)
    (ThreadProcess x).
Definition set_SleepTimer (v : nat) (x : KTHREAD) : KTHREAD :=
  mkThread (Status x) (Suspended x) (EntryQueueIsSelf x) (Priority x) (BasePriority x)
    (PriorityBoost x) (Affinity x) (LastProcessor x) (DontSteal x) (TickScheduledAt x)
    (ThreadQuantumUntil x) (WaitType x) (WaitBlockArray x) (WaitIsAlertable x) (WaitStatus x)
    (WaitMode x) (MutexList x) (PendingTermination x) (IncrementTerminated x)
    (DidCallWaitFunction x) (UserApcQueue x) (KernelApcQueue x) (ApcInProgress x)
    (ApcDisableCount x) (WaitTimer x) v (WaitDpc x) (DeleteDpc x) (ThreadHeader x)
    (ThreadProcess x).
Definition set_WaitDpc (v : nat) (x : KTHREAD) : KTHREAD :=
  mkThread (Status x) (Suspended x) (EntryQueueIsSelf x) (Priority x) (BasePriority x)
    (PriorityBoost x) (Affinity x) (LastProcessor x) (DontSteal x) (TickScheduledAt x)
    (ThreadQuantumUntil x) (WaitType x) (WaitBlockArray x) (WaitIsAlertable x) (WaitStatus x)
    (WaitMode x) (MutexList x) (PendingTermination x) (IncrementTerminated x)
    (DidCallWaitFunction x) (UserApcQueue x) (KernelApcQueue x) (ApcInProgress x)
    (ApcDisableCount x) (WaitTimer x) (SleepTimer x) v (DeleteDpc x) (ThreadHeader x)
    (ThreadProcess x).
Definition set_DeleteDpc (v : nat) (x : KTHREAD) : KTHREAD :=
  mkThread (Status x) (Suspended x) (EntryQueueIsSelf x) (Priority x) (BasePriority x)
    (PriorityBoost x) (Affinity x) (LastProcessor x) (DontSteal x) (TickScheduledAt x)
    (ThreadQuantumUntil x) (WaitType x) (WaitBlockArray x) (WaitIsAlertable x) (WaitStatus x)
    (WaitMode x) (MutexList x) (PendingTermination x) (IncrementTerminated x)
    (DidCallWaitFunction x) (UserApcQueue x) (KernelApcQueue x) (ApcInProgress x)
    (ApcDisableCount x) (WaitTimer x) (SleepTimer x) (WaitDpc x) v (ThreadHeader x)
    (ThreadProcess x).
Definition set_ThreadHeader (v : nat) (x : KTHREAD) : KTHREAD :=
  mkThread (Status x) (Suspended x) (EntryQueueIsSelf x) (Priority x) (BasePriority x)
    (PriorityBoost x) (Affinity x) (LastProcessor x) (DontSteal x) (TickScheduledAt x)
    (ThreadQuantumUntil x) (WaitType x) (WaitBlockArray x) (WaitIsAlertable x) (WaitStatus x)
    (WaitMode x) (MutexList x) (PendingTermination x) (IncrementTerminated x)
    (DidCallWaitFunction x) (UserApcQueue x) (KernelApcQueue x) (ApcInProgress x)
    (ApcDisableCount x) (WaitTimer x) (SleepTimer x) (WaitDpc x) (DeleteDpc x) v
    (ThreadProcess x).
Definition set_ThreadProcess (v : nat) (x : KTHREAD) : KTHREAD :=
  mkThread (Status x) (Suspended x) (EntryQueueIsSelf x) (Priority x) (BasePriority x)
    (PriorityBoost x) (Affinity x) (LastProcessor x) (DontSteal x) (TickScheduledAt x)
    (ThreadQuantumUntil x) (WaitType x) (WaitBlockArray x) (WaitIsAlertable x) (WaitStatus x)
    (WaitMode x) (MutexList x) (PendingTermination x) (IncrementTerminated x)
    (DidCallWaitFunction x) (UserApcQueue x) (KernelApcQueue x) (ApcInProgress x)
    (ApcDisableCount x) (WaitTimer x) (SleepTimer x) (WaitDpc x) (DeleteDpc x) (ThreadHeader x)
    v.

(** ** Processors *)

(** [KSCHEDULER] : boron/include/ke/sched.h:51-79.
    With the DPC queue and the pending flags of the processor's KPRCB. *)
Record KPRCB := mkPrcb {
  ExecQueueMask : Z;
  ExecQueue : list (list nat);
  CurrentThread : option nat;
  NextThread : option nat;
  TimerTree : list (Z * nat);
  ThreadsOnQueueCount : Z;
  TicksSpentNonIdle : Z;
  QuantumUntil : Z;
  DpcQueue : list nat;
  YieldCurrentThread : bool;
  PendingSoftInterrupts : Z }.

Definition set_ExecQueueMask (v : Z) (x : KPRCB) : KPRCB :=
  mkPrcb v (ExecQueue x) (CurrentThread x) (NextThread x) (TimerTree x) (ThreadsOnQueueCount x)
    (TicksSpentNonIdle x) (QuantumUntil x) (DpcQueue x) (YieldCurrentThread x)
    (PendingSoftInterrupts x).
Definition set_ExecQueue (v : list (list nat)) (x : KPRCB) : KPRCB :=
  mkPrcb (ExecQueueMask x) v (CurrentThread x) (NextThread x) (TimerTree x)
    (ThreadsOnQueueCount x) (TicksSpentNonIdle x) (QuantumUntil x) (DpcQueue x)
    (YieldCurrentThread x) (PendingSoftInterrupts x).
Definition set_CurrentThread (v : option nat) (x : KPRCB) : KPRCB :=
  mkPrcb (ExecQueueMask x) (ExecQueue x) v (NextThread x) (TimerTree x) (ThreadsOnQueueCount x)
    (TicksSpentNonIdle x) (QuantumUntil x) (DpcQueue x) (YieldCurrentThread x)
    (PendingSoftInterrupts x).
Definition set_NextThread (v : option nat) (x : KPRCB) : KPRCB :=
  mkPrcb (ExecQueueMask x) (ExecQueue x) (CurrentThread x) v (TimerTree x)
    (ThreadsOnQueueCount x) (TicksSpentNonIdle x) (QuantumUntil x) (DpcQueue x)
    (YieldCurrentThread x) (PendingSoftInterrupts x).
Definition set_TimerTree (v : list (Z * nat)) (x : KPRCB) : KPRCB :=
  mkPrcb (ExecQueueMask x) (ExecQueue x) (CurrentThread x) (NextThread x) v
    (ThreadsOnQueueCount x) (TicksSpentNonIdle x) (QuantumUntil x) (DpcQueue x)
    (YieldCurrentThread x) (PendingSoftInterrupts x).
Definition set_ThreadsOnQueueCount (v : Z) (x : KPRCB) : KPRCB :=
  mkPrcb (ExecQueueMask x) (ExecQueue x) (CurrentThread x) (NextThread x) (TimerTree x) v
    (TicksSpentNonIdle x) (QuantumUntil x) (DpcQueue x) (YieldCurrentThread x)
    (PendingSoftInterrupts x).
Definition set_TicksSpentNonIdle (v : Z) (x : KPRCB) : KPRCB :=
  mkPrcb (ExecQueueMask x) (ExecQueue x) (CurrentThread x) (NextThread x) (TimerTree x)
    (ThreadsOnQueueCount x) v (QuantumUntil x) (DpcQueue x) (YieldCurrentThread x)
    (PendingSoftInterrupts x).
Definition set_QuantumUntil (v : Z) (x : KPRCB) : KPRCB :=
  mkPrcb (ExecQueueMask x) (ExecQueue x) (CurrentThread x) (NextThread x) (TimerTree x)
    (ThreadsOnQueueCount x) (TicksSpentNonIdle x) v (DpcQueue x) (YieldCurrentThread x)
    (PendingSoftInterrupts x).
Definition set_DpcQueue (v : list nat) (x : KPRCB) : KPRCB :=
  mkPrcb (ExecQueueMask x) (ExecQueue x) (CurrentThread x) (NextThread x) (TimerTree x)
    (ThreadsOnQueueCount x) (TicksSpentNonIdle x) (QuantumUntil x) v (YieldCurrentThread x)
    (PendingSoftInterrupts x).
Definition set_YieldCurrentThread (v : bool) (x : KPRCB) : KPRCB :=
  mkPrcb (ExecQueueMask x) (ExecQueue x) (CurrentThread x) (NextThread x) (TimerTree x)
    (ThreadsOnQueueCount x) (TicksSpentNonIdle x) (QuantumUntil x) (DpcQueue x) v
    (PendingSoftInterrupts x).
Definition set_PendingSoftInterrupts (v : Z) (x : KPRCB) : KPRCB :=
  mkPrcb (ExecQueueMask x) (ExecQueue x) (CurrentThread x) (NextThread x) (TimerTree x)
    (ThreadsOnQueueCount x) (TicksSpentNonIdle x) (QuantumUntil x) (DpcQueue x)
    (YieldCurrentThread x) v.

(** The kernel: its objects, the globals of dispatch.c, sched.c and smp.c, and
    the tick counter of the HAL with its frequency. *)
Record KERNEL := mkKernel {
  Objects : gmap nat KDISPATCH_HEADER;
  Threads : gmap nat KTHREAD;
  Dpcs : gmap nat KDPC;
  KeProcessorList : list KPRCB;
  KiDispatcherLock : bool;
  KiGlobalThreadList : list nat;
  KepNextProcessorToStealWorkFrom : nat;
  KiMoreAggressiveWorkStealing : bool;
  KiMostCrowdedProcessor : option nat;
  TickCount : Z;
  TickFrequency : Z }.

Definition set_Objects (v : gmap nat KDISPATCH_HEADER) (x : KERNEL) : KERNEL :=
  mkKernel v (Threads x) (Dpcs x) (KeProcessorList x) (KiDispatcherLock x)
    (KiGlobalThreadList x) (KepNextProcessorToStealWorkFrom x) (KiMoreAggressiveWorkStealing x)
    (KiMostCrowdedProcessor x) (TickCount x) (TickFrequency x).
Definition set_Threads (v : gmap nat KTHREAD) (x : KERNEL) : KERNEL :=
  mkKernel (Objects x) v (Dpcs x) (KeProcessorList x) (KiDispatcherLock x)
    (KiGlobalThreadList x) (KepNextProcessorToStealWorkFrom x) (KiMoreAggressiveWorkStealing x)
    (KiMostCrowdedProcessor x) (TickCount x) (TickFrequency x).
Definition set_Dpcs (v : gmap nat KDPC) (x : KERNEL) : KERNEL :=
  mkKernel (Objects x) (Threads x) v (KeProcessorList x) (KiDispatcherLock x)
    (KiGlobalThreadList x) (KepNextProcessorToStealWorkFrom x) (KiMoreAggressiveWorkStealing x)
    (KiMostCrowdedProcessor x) (TickCount x) (TickFrequency x).
Definition set_KeProcessorList (v : list KPRCB) (x : KERNEL) : KERNEL :=
  mkKernel (Objects x) (Threads x) (Dpcs x) v (KiDispatcherLock x) (KiGlobalThreadList x)
    (KepNextProcessorToStealWorkFrom x) (KiMoreAggressiveWorkStealing x)
    (KiMostCrowdedProcessor x) (TickCount x) (TickFrequency x).
Definition set_KiDispatcherLock (v : bool) (x : KERNEL) : KERNEL :=
  mkKernel (Objects x) (Threads x) (Dpcs x) (KeProcessorList x) v (KiGlobalThreadList x)
    (KepNextProcessorToStealWorkFrom x) (KiMoreAggressiveWorkStealing x)
    (KiMostCrowdedProcessor x) (TickCount x) (TickFrequency x).
Definition set_KiGlobalThreadList (v : list nat) (x : KERNEL) : KERNEL :=
  mkKernel (Objects x) (Threads x) (Dpcs x) (KeProcessorList x) (KiDispatcherLock x) v
    (KepNextProcessorToStealWorkFrom x) (KiMoreAggressiveWorkStealing x)
    (KiMostCrowdedProcessor x) (TickCount x) (TickFrequency x).
Definition set_KepNextProcessorToStealWorkFrom (v : nat) (x : KERNEL) : KERNEL :=
  mkKernel (Objects x) (Threads x) (Dpcs x) (KeProcessorList x) (KiDispatcherLock x)
    (KiGlobalThreadList x) v (KiMoreAggressiveWorkStealing x) (KiMostCrowdedProcessor x)
    (TickCount x) (TickFrequency x).
Definition set_KiMoreAggressiveWorkStealing (v : bool) (x : KERNEL) : KERNEL :=
  mkKernel (Objects x) (Threads x) (Dpcs x) (KeProcessorList x) (KiDispatcherLock x)
    (KiGlobalThreadList x) (KepNextProcessorToStealWorkFrom x) v (KiMostCrowdedProcessor x)
    (TickCount x) (TickFrequency x).
Definition set_KiMostCrowdedProcessor (v : option nat) (x : KERNEL) : KERNEL :=
  mkKernel (Objects x) (Threads x) (Dpcs x) (KeProcessorList x) (KiDispatcherLock x)
    (KiGlobalThreadList x) (KepNextProcessorToStealWorkFrom x) (KiMoreAggressiveWorkStealing x)
    v (TickCount x) (TickFrequency x).
Definition set_TickCount (v : Z) (x : KERNEL) : KERNEL :=
  mkKernel (Objects x) (Threads x) (Dpcs x) (KeProcessorList x) (KiDispatcherLock x)
    (KiGlobalThreadList x) (KepNextProcessorToStealWorkFrom x) (KiMoreAggressiveWorkStealing x)
    (KiMostCrowdedProcessor x) v (TickFrequency x).
Definition set_TickFrequency (v : Z) (x : KERNEL) : KERNEL :=
  mkKernel (Objects x) (Threads x) (Dpcs x) (KeProcessorList x) (KiDispatcherLock x)
    (KiGlobalThreadList x) (KepNextProcessorToStealWorkFrom x) (KiMoreAggressiveWorkStealing x)
    (KiMostCrowdedProcessor x) (TickCount x) v.

(** ** Access to a field through a pointer *)

Definition object (s : KERNEL) (o : nat) : outcome KDISPATCH_HEADER := deref (Objects s !! o).
Definition thread (s : KERNEL) (t : nat) : outcome KTHREAD := deref (Threads s !! t).
Definition dpc (s : KERNEL) (d : nat) : outcome KDPC := deref (Dpcs s !! d).
Definition prcb (s : KERNEL) (c : nat) : outcome KPRCB := deref (KeProcessorList s !! c).

Definition upd_object (o : nat) (f : KDISPATCH_HEADER → KDISPATCH_HEADER) (s : KERNEL) : KERNEL :=
  set_Objects (alter f o (Objects s)) s.
Definition upd_thread (t : nat) (f : KTHREAD → KTHREAD) (s : KERNEL) : KERNEL :=
  set_Threads (alter f t (Threads s)) s.
Definition upd_dpc (d : nat) (f : KDPC → KDPC) (s : KERNEL) : KERNEL :=
  set_Dpcs (alter f d (Dpcs s)) s.
Definition upd_prcb (c : nat) (f : KPRCB → KPRCB) (s : KERNEL) : KERNEL :=
  set_KeProcessorList (alter f c (KeProcessorList s)) s.

(** The timer an object is. *)
Definition timer (s : KERNEL) (o : nat) : outcome KTIMER :=
  h ← object s o;
  match Body h with DISPATCH_TIMER T => Ok T | _ => Crash end.

Definition upd_timer (o : nat) (f : KTIMER → KTIMER) (s : KERNEL) : KERNEL :=
  upd_object o (λ h, match Body h with DISPATCH_TIMER T => set_Body (DISPATCH_TIMER (f T)) h | _ => h end) s.

(** [RemoveEntryList] : common/include/rtl/list.h:80-95.
    The links of an entry that is in no list are null: the store crashes. *)
Definition RemoveEntryList {A} `{EqDecision A} (x : A) (l : list A) : outcome (list A) :=
  if decide (x ∈ l) then Ok (filter (.≠ x) l) else Crash.

(** The thread that runs on processor [cpu]. *)
Definition KeGetCurrentThread (cpu : nat) (s : KERNEL) : outcome (option nat) :=
  p ← prcb s cpu; Ok (CurrentThread p).

(** ** The dispatcher lock *)

(** [KiAssertOwnDispatcherLock_] : boron/source/ke/dispatch.c:51-55. *)
Definition KiAssertOwnDispatcherLock (s : KERNEL) : outcome unit := check (KiDispatcherLock s).

(** [KiLockDispatcher] : boron/source/ke/dispatch.c:26-32.
    The IPL is not modelled.  A routine that finds the lock taken spins. *)
Definition KiLockDispatcher (s : KERNEL) : outcome KERNEL :=
  if KiDispatcherLock s then OutOfFuel else Ok (set_KiDispatcherLock true s).

(** [KiUnlockDispatcher] : boron/source/ke/dispatch.c:44-47. *)
Definition KiUnlockDispatcher (s : KERNEL) : outcome KERNEL :=
  _ ← check (KiDispatcherLock s); Ok (set_KiDispatcherLock false s).

(** ** The DPC queue *)

(** [KeIssueSoftwareInterrupt] : boron/source/ke/dispatch.c:514-518. *)
Definition KeIssueSoftwareInterrupt (cpu : nat) (Ipl : Z) (s : KERNEL) : outcome KERNEL :=
  _ ← prcb s cpu;
  Ok (upd_prcb cpu (λ p, set_PendingSoftInterrupts
        (Z.lor (PendingSoftInterrupts p) (Z.shiftl 1 (Ipl - 1))) p) s).

(** [KiAcknowledgeSoftwareInterrupt] : boron/source/ke/dispatch.c:520-524. *)
Definition KiAcknowledgeSoftwareInterrupt (cpu : nat) (Ipl : Z) (s : KERNEL) : outcome KERNEL :=
  _ ← prcb s cpu;
  Ok (upd_prcb cpu (λ p, set_PendingSoftInterrupts
        (Z.ldiff (PendingSoftInterrupts p) (Z.shiftl 1 (Ipl - 1))) p) s).

(** [KeInitializeDpc] : boron/source/ke/dpc.c:19-32.
    Also clears the links of a DPC that is still queued. *)
Definition KeInitializeDpc (d : nat) (R : DEFERRED_ROUTINE) (s : KERNEL) : outcome KERNEL :=
  _ ← dpc s d; Ok (upd_dpc d (λ _, mkDpc R false false false) s).

(** [KeSetImportantDpc] : boron/source/ke/dpc.c:39-42. *)
Definition KeSetImportantDpc (d : nat) (b : bool) (s : KERNEL) : outcome KERNEL :=
  _ ← dpc s d; Ok (upd_dpc d (set_Important b) s).

(** [KeEnqueueDpc] : boron/source/ke/dpc.c:45-84.
    An important DPC asks for the pending interrupts of the current IPL to be
    run; with the dispatcher lock held there are none at that IPL. *)
Definition KeEnqueueDpc (cpu d : nat) (s : KERNEL) : outcome KERNEL :=
  D ← dpc s d;
  if Enqueued D then Ok s
  else
    _ ← prcb s cpu;
    let s := upd_dpc d (λ D, set_Linked true (set_Enqueued true D)) s in
    let s := upd_prcb cpu (λ p, set_DpcQueue
      (if Important D then d :: DpcQueue p else DpcQueue p ++ [d]) p) s in
    KeIssueSoftwareInterrupt cpu IPL_DPC s.

(** [KiDispatchDpcQueue] : boron/source/ke/dpc.c:98-111.
    One round of the loop of [KiDispatchDpcQueue]: the first DPC leaves the
    queue.  A queued DPC whose links were cleared breaks the list. *)
Definition pop_dpc (cpu : nat) (s : KERNEL) : outcome (option DEFERRED_ROUTINE * KERNEL) :=
  p ← prcb s cpu;
  match DpcQueue p with
  | [] => Ok (None, s)
  | d :: queue =>
      D ← dpc s d;
      _ ← check (Linked D);
      let s := upd_prcb cpu (set_DpcQueue queue) s in
      Ok (Some (Routine D), upd_dpc d (λ D, set_Linked false (set_Enqueued false D)) s)
  end.

(** [KiSetPendingQuantumEnd] : boron/source/ke/dpc.c:133-142. *)
Definition KiSetPendingQuantumEnd (cpu : nat) (s : KERNEL) : outcome KERNEL :=
  _ ← prcb s cpu;
  KeIssueSoftwareInterrupt cpu IPL_DPC (upd_prcb cpu (set_YieldCurrentThread true) s).

(** ** What the dispatcher sees of an object and of a thread *)

Inductive kind :=
  | KEvent (e : EVENT_TYPE)
  | KTimer
  | KMutex (Level : Z) (Owner : option nat)
  | KSemaphore
  | KThread
  | KProcess.

Definition kind_of (b : KBODY) : kind :=
  match b with
  | DISPATCH_EVENT e => KEvent e
  | DISPATCH_TIMER _ => KTimer
  | DISPATCH_MUTEX l ow => KMutex l ow
  | DISPATCH_SEMAPHORE _ => KSemaphore
  | DISPATCH_THREAD _ => KThread
  | DISPATCH_PROCESS _ => KProcess
  end.

Record DOBJ := mkDobj { sig : Z; waiters : list (nat * nat); okind : kind }.
Record DTHR := mkDthr { wait : option (WAIT_TYPE * list nat); owned : list nat }.

Definition view_object (h : KDISPATCH_HEADER) : DOBJ :=
  mkDobj (Signaled h) (WaitBlockList h) (kind_of (Body h)).
Definition view_thread (T : KTHREAD) : DTHR :=
  mkDthr (if decide (Status T = KTHREAD_STATUS_WAITING) then Some (WaitType T, WaitBlockArray T) else None)
    (MutexList T).

Definition dobj (s : KERNEL) : gmap nat DOBJ := view_object <$> Objects s.
Definition dthr (s : KERNEL) : gmap nat DTHR := view_thread <$> Threads s.

Lemma fmap_alter_same {A B} (v : A → B) (f : A → A) (g : B → B) (i : nat) (m : gmap nat A) :
  (∀ x, m !! i = Some x → v (f x) = g (v x)) → v <$> alter f i m = alter g i (v <$> m).
Proof.
  intros Hfg. apply map_eq. intros j. rewrite lookup_fmap. destruct (decide (i = j)) as [<-|Hne].
  - rewrite !lookup_alter_eq, lookup_fmap. destruct (m !! i) as [x|] eqn:Hx; [|done]. cbn.
    by rewrite Hfg.
  - by rewrite !lookup_alter_ne, lookup_fmap by done.
Qed.

Lemma fmap_alter_id {A B} (v : A → B) (f : A → A) (i : nat) (m : gmap nat A) :
  (∀ x, m !! i = Some x → v (f x) = v x) → v <$> alter f i m = v <$> m.
Proof.
  intros Hf. rewrite (fmap_alter_same v f id) by done. apply map_eq. intros j.
  destruct (decide (i = j)) as [<-|Hne]; [|by rewrite lookup_alter_ne].
  rewrite lookup_alter_eq. by destruct ((v <$> m) !! i).
Qed.

Lemma dobj_upd o f g s :
  (∀ h, Objects s !! o = Some h → view_object (f h) = g (view_object h)) →
  dobj (upd_object o f s) = alter g o (dobj s).
Proof. apply fmap_alter_same. Qed.

Lemma dobj_upd_id o f s :
  (∀ h, Objects s !! o = Some h → view_object (f h) = view_object h) →
  dobj (upd_object o f s) = dobj s.
Proof. apply fmap_alter_id. Qed.

Lemma dthr_upd t f g s :
  (∀ T, Threads s !! t = Some T → view_thread (f T) = g (view_thread T)) →
  dthr (upd_thread t f s) = alter g t (dthr s).
Proof. apply fmap_alter_same. Qed.

Lemma dthr_upd_id t f s :
  (∀ T, Threads s !! t = Some T → view_thread (f T) = view_thread T) →
  dthr (upd_thread t f s) = dthr s.
Proof. apply fmap_alter_id. Qed.

Lemma dobj_lookup s o : dobj s !! o = view_object <$> (Objects s !! o).
Proof. apply lookup_fmap. Qed.
Lemma dthr_lookup s t : dthr s !! t = view_thread <$> (Threads s !! t).
Proof. apply lookup_fmap. Qed.

Lemma object_Ok s o h : object s o = Ok h ↔ Objects s !! o = Some h.
Proof. apply deref_Ok. Qed.
Lemma thread_Ok s t T : thread s t = Ok T ↔ Threads s !! t = Some T.
Proof. apply deref_Ok. Qed.
Lemma prcb_Ok s c p : prcb s c = Ok p ↔ KeProcessorList s !! c = Some p.
Proof. apply deref_Ok. Qed.

Lemma timer_Ok s o T :
  timer s o = Ok T ↔ ∃ h, Objects s !! o = Some h ∧ Body h = DISPATCH_TIMER T.
Proof.
  unfold timer, object. destruct (Objects s !! o) as [h|]; cbn.
  - destruct (Body h) eqn:Hb; split; try done; try (intros (? & [= <-] & ?); congruence).
    intros [= <-]. by exists h.
  - split; [done|]. by intros (? & ? & _).
Qed.

(** Being a timer can be seen by the dispatcher. *)
Lemma is_timer s o : (∃ T, timer s o = Ok T) ↔ ∃ x, dobj s !! o = Some x ∧ okind x = KTimer.
Proof.
  rewrite dobj_lookup. split.
  - intros (T & (h & Hh & Hb)%timer_Ok). rewrite Hh. eexists. split; [done|]. cbn. by rewrite Hb.
  - intros (x & Hx & Hk). destruct (Objects s !! o) as [h|] eqn:Hh; [|done].
    injection Hx as <-. cbn in Hk. destruct (Body h) eqn:Hb; try done.
    eexists. apply timer_Ok. eauto.
Qed.

Lemma timer_upd o f s o' T' :
  timer (upd_timer o f s) o' = Ok T' ↔
  (o' ≠ o ∧ timer s o' = Ok T') ∨ (o' = o ∧ ∃ T, timer s o = Ok T ∧ T' = f T).
Proof.
  rewrite !timer_Ok. unfold upd_timer, upd_object. cbn. destruct (decide (o' = o)) as [->|Hne].
  - rewrite lookup_alter_eq. split.
    + intros (h & Hh & Hb). right. split; [done|]. destruct (Objects s !! o) as [h0|] eqn:Hh0; [|done].
      cbn in Hh. injection Hh as <-. destruct (Body h0) eqn:Hb0; cbn in Hb; try congruence.
      injection Hb as <-. eexists. rewrite timer_Ok. eauto.
    + intros [[? _]|(_ & T & HT & ->)]; [done|]. apply timer_Ok in HT as (h & -> & Hb). cbn.
      rewrite Hb. eauto.
  - rewrite lookup_alter_ne by done. split.
    + intros (h & Hh & Hb). left. split; [done|]. eauto.
    + intros [[_ H]|[? _]]; [done|done].
Qed.

(** Stores to the scheduler's part of an object are invisible. *)
Lemma dobj_upd_timer o f s : dobj (upd_timer o f s) = dobj s.
Proof. apply dobj_upd_id. intros h _. unfold view_object. by destruct (Body h) eqn:Hb; cbn; rewrite ?Hb. Qed.
