(* ===== verification/Timer.v ===== *)
(** Timers of [boron/source/ke/timer.c]: each processor's tree of the timers
    that wait for their expiry, ordered by expiry tick. *)
From S2P Require Import Prelude RbTree Ke.
Local Open Scope Z_scope.

#[export] Instance timer_key : Keyed (Z * nat) := fst.

(** [KiRemoveTimerTree] : boron/source/ke/timer.c:20-24.
    The key of a timer in a tree is its expiry tick. *)
Definition KiRemoveTimerTree (o : nat) (s : KERNEL) : outcome KERNEL :=
  T ← timer s o;
  c ← deref (TimerScheduler T);
  _ ← prcb s c;
  Ok (upd_prcb c (λ p, set_TimerTree (RemoveItemRbTree (TimerTree p) (ExpiryTick T)) p) s).

(** [KiInsertTimerTree] : boron/source/ke/timer.c:26-33. *)
Definition KiInsertTimerTree (cpu o : nat) (s : KERNEL) : outcome (bool * KERNEL) :=
  T ← timer s o;
  p ← prcb s cpu;
  let s := upd_timer o (set_TimerScheduler (Some cpu)) s in
  match InsertItemRbTree (TimerTree p) (ExpiryTick T, o) with
  | Some tree => Ok (true, upd_prcb cpu (set_TimerTree tree) s)
  | None => Ok (false, s)
  end.

(** [KiCancelTimer] : boron/source/ke/timer.c:35-47. *)
Definition KiCancelTimer (o : nat) (s : KERNEL) : outcome (bool * KERNEL) :=
  _ ← KiAssertOwnDispatcherLock s;
  T ← timer s o;
  s ← (if IsEnqueued T then KiRemoveTimerTree o s else Ok s);
  Ok (IsEnqueued T, upd_timer o (set_IsEnqueued false) s).

(** [KiSetTimer] : boron/source/ke/timer.c:66-74.
    The loop that gives a timer whose tick is taken the next one. *)
Fixpoint insert_timer (fuel : nat) (cpu o : nat) (s : KERNEL) : outcome KERNEL :=
  '(InsertStatus, s) ← KiInsertTimerTree cpu o s;
  if (InsertStatus : bool) then Ok s
  else
    match fuel with
    | O => OutOfFuel
    | S fuel => insert_timer fuel cpu o (upd_timer o (λ T, set_ExpiryTick (u64 (ExpiryTick T + 1)) T) s)
    end.

(** [KiSetTimer] : boron/source/ke/timer.c:49-81. *)
Definition KiSetTimer (fuel cpu o : nat) (DueTimeMs : Z) (Dpc : option nat) (s : KERNEL)
  : outcome (bool * KERNEL) :=
  _ ← KiAssertOwnDispatcherLock s;
  T ← timer s o;
  s ← (if IsEnqueued T then KiRemoveTimerTree o s else Ok s);
  let Ticks := u64 (TickFrequency s * DueTimeMs) / 1000 in
  let s := upd_timer o (set_ExpiryTick (u64 (TickCount s + Ticks))) s in
  s ← insert_timer fuel cpu o s;
  Ok (IsEnqueued T, upd_timer o (λ T, set_TimerDpc Dpc (set_IsEnqueued true T)) s).

(** [KiGetNextTimerExpiryTick] : boron/source/ke/timer.c:83-99. *)
Definition KiGetNextTimerExpiryTick (cpu : nat) (s : KERNEL) : outcome Z :=
  _ ← KiAssertOwnDispatcherLock s;
  p ← prcb s cpu;
  match GetFirstEntryRbTree (TimerTree p) with
  | None => Ok 0
  | Some (_, o) => T ← timer s o; Ok (ExpiryTick T)
  end.

(** [KeInitializeTimer] : boron/source/ke/timer.c:171-180.
    The scheduler and the DPC keep their values. *)
Definition KeInitializeTimer (o : nat) (s : KERNEL) : outcome KERNEL :=
  T ← timer s o;
  Ok (upd_object o (λ _, mkObject 0 []
        (DISPATCH_TIMER (set_IsEnqueued false (set_ExpiryTick 0 T)))) s).

(** [KeCancelTimer] : boron/source/ke/timer.c:182-188. *)
Definition KeCancelTimer (o : nat) (s : KERNEL) : outcome (bool * KERNEL) :=
  s ← KiLockDispatcher s;
  '(Status, s) ← KiCancelTimer o s;
  s ← KiUnlockDispatcher s;
  Ok (Status, s).

(** [KeSetTimer] : boron/source/ke/timer.c:190-196. *)
Definition KeSetTimer (fuel cpu o : nat) (DueTimeMs : Z) (Dpc : option nat) (s : KERNEL)
  : outcome (bool * KERNEL) :=
  s ← KiLockDispatcher s;
  '(Status, s) ← KiSetTimer fuel cpu o DueTimeMs Dpc s;
  s ← KiUnlockDispatcher s;
  Ok (Status, s).

(** ** The trees hold exactly the enqueued timers *)

Record timer_ok (s : KERNEL) : Prop := {
  tree_sorted c p : KeProcessorList s !! c = Some p → ascending (TimerTree p);
  tree_timer c p k o : KeProcessorList s !! c = Some p → (k, o) ∈ TimerTree p →
    ∃ T, timer s o = Ok T ∧ IsEnqueued T = true ∧ TimerScheduler T = Some c ∧ ExpiryTick T = k;
  timer_tree o T : timer s o = Ok T → IsEnqueued T = true →
    ∃ c p, TimerScheduler T = Some c ∧ KeProcessorList s !! c = Some p ∧
           (ExpiryTick T, o) ∈ TimerTree p }.

(** The state without what the timer routines change. *)
Definition without_timers (s : KERNEL) : KERNEL :=
  set_Objects ∅ (set_KeProcessorList (set_TimerTree [] <$> KeProcessorList s) s).

Definition timer_frame (s s' : KERNEL) : Prop :=
  without_timers s' = without_timers s ∧ dobj s' = dobj s.

#[export] Instance timer_frame_preorder : PreOrder timer_frame.
Proof. split; [done|]. intros x y z [? ?] [? ?]. split; congruence. Qed.

Lemma frame_upd_timer o f s : timer_frame s (upd_timer o f s).
Proof. split; [done|apply dobj_upd_timer]. Qed.

Lemma prcb_upd c f s c' p' :
  KeProcessorList (upd_prcb c f s) !! c' = Some p' ↔
  (c' ≠ c ∧ KeProcessorList s !! c' = Some p') ∨
  (c' = c ∧ ∃ p, KeProcessorList s !! c = Some p ∧ p' = f p).
Proof.
  unfold upd_prcb. cbn. destruct (decide (c' = c)) as [->|Hne].
  - rewrite list_lookup_alter_eq. split.
    + intros (p & Hp & ->)%fmap_Some. right. eauto.
    + intros [[? _]|(_ & p & -> & ->)]; done.
  - rewrite list_lookup_alter_ne by done. split; [by left|]. by intros [[_ ?]|[? _]].
Qed.

Lemma frame_upd_tree c f s :
  (∀ p, set_TimerTree [] (f p) = set_TimerTree [] p) → timer_frame s (upd_prcb c f s).
Proof.
  intros Hf. split; [|done]. unfold without_timers, upd_prcb, set_Objects, set_KeProcessorList. cbn.
  f_equal.
  apply list_eq. intros c'. rewrite !list_lookup_fmap. destruct (decide (c' = c)) as [->|Hne].
  - rewrite list_lookup_alter_eq. destruct (KeProcessorList s !! c); cbn; by rewrite ?Hf.
  - by rewrite list_lookup_alter_ne by done.
Qed.

(** An entry of a tree is at one place. *)
Lemma tree_split tree (k : Z) (o : nat) :
  ascending tree → (k, o) ∈ tree →
  ∃ a b, tree = a ++ (k, o) :: b ∧ all_below a k ∧ all_above b k.
Proof.
  intros Hs (a & b & ->)%list_elem_of_split. exists a, b. split; [done|].
  by apply (ascending_split a (k, o) b) in Hs as (_ & ? & ?).
Qed.

Lemma remove_timer_tree tree (k : Z) (o : nat) :
  ascending tree → (k, o) ∈ tree →
  ascending (RemoveItemRbTree tree k) ∧
  ∀ k' o', (k', o') ∈ RemoveItemRbTree tree k ↔ (k', o') ∈ tree ∧ k' ≠ k.
Proof.
  intros Hs Hin. destruct (tree_split tree k o Hs Hin) as (a & b & -> & Ha & Hb).
  rewrite (remove_at a (k, o) b Ha : RemoveItemRbTree _ k = _).
  apply ascending_split in Hs as (Hs & _). split; [done|]. intros k' o'. split.
  - intros Hin'. split; [set_solver|]. apply elem_of_app in Hin' as [Hi|Hi].
    + apply Ha in Hi. unfold key, timer_key in Hi. cbn in Hi. lia.
    + apply Hb in Hi. unfold key, timer_key in Hi. cbn in Hi. lia.
  - intros [Hin' Hne]. apply elem_of_app in Hin' as [?|[?|?]%elem_of_cons]; set_solver.
Qed.

Lemma remove_timer_spec s o T :
  timer_ok s → timer s o = Ok T → IsEnqueued T = true →
  ∃ c, TimerScheduler T = Some c ∧
    KiRemoveTimerTree o s =
      Ok (upd_prcb c (λ p, set_TimerTree (RemoveItemRbTree (TimerTree p) (ExpiryTick T)) p) s).
Proof.
  intros Hok HT He. destruct (timer_tree s Hok o T HT He) as (c & p & Hc & Hp & _).
  exists c. split; [done|]. unfold KiRemoveTimerTree. rewrite HT. cbn. rewrite Hc. cbn.
  unfold prcb. by rewrite Hp.
Qed.

Lemma timer_upd_prcb c f s o : timer (upd_prcb c f s) o = timer s o.
Proof. done. Qed.

(** Taking the enqueued timer [o] out of its tree and clearing its flag. *)
Lemma dequeue_timer_ok s o T c :
  timer_ok s → timer s o = Ok T → IsEnqueued T = true → TimerScheduler T = Some c →
  timer_ok (upd_timer o (set_IsEnqueued false)
    (upd_prcb c (λ p, set_TimerTree (RemoveItemRbTree (TimerTree p) (ExpiryTick T)) p) s)).
Proof.
  intros Hok HT He Hc. destruct (timer_tree s Hok o T HT He) as (c0 & p0 & Hc0 & Hp0 & Hin0).
  rewrite Hc in Hc0. injection Hc0 as <-.
  pose proof (remove_timer_tree (TimerTree p0) (ExpiryTick T) o (tree_sorted s Hok c p0 Hp0) Hin0)
    as [Hsort Hmem]. split.
  - intros c' p' [(_ & Hp')|(-> & p & Hp & ->)]%prcb_upd; [by eapply tree_sorted|].
    rewrite Hp0 in Hp. by injection Hp as <-.
  - intros c' p' k o' Hp' Hin. apply prcb_upd in Hp' as [(Hne & Hp')|(-> & p & Hp & ->)].
    + destruct (tree_timer s Hok c' p' k o' Hp' Hin) as (T' & HT' & ? & Hs & ?).
      exists T'. split_and!; try done. apply timer_upd. left. split; [|done]. intros ->.
      rewrite HT in HT'. injection HT' as <-. congruence.
    + rewrite Hp0 in Hp. injection Hp as <-. apply Hmem in Hin as [Hin Hne].
      destruct (tree_timer s Hok c p0 k o' Hp0 Hin) as (T' & HT' & ? & Hs & ?).
      exists T'. split_and!; try done. apply timer_upd. left. split; [|done]. intros ->.
      rewrite HT in HT'. injection HT' as <-. congruence.
  - intros o' T' HT' He'. apply timer_upd in HT' as [(Hne & HT')|(-> & T0 & _ & ->)]; [|done].
    destruct (timer_tree s Hok o' T' HT' He') as (c' & p' & Hs & Hp' & Hin').
    destruct (decide (c' = c)) as [->|Hnc].
    + rewrite Hp0 in Hp'. injection Hp' as <-. eexists c, _. split; [done|]. split.
      { apply prcb_upd. right. eauto. }
      apply Hmem. split; [done|]. intros Heq. rewrite Heq in Hin'.
      destruct (tree_split _ _ _ (tree_sorted s Hok c p0 Hp0) Hin0) as (a & b & Htr & Ha & Hb).
      rewrite Htr in Hin'. apply elem_of_app in Hin' as [Hi|[[= ->]|Hi]%elem_of_cons]; [|done|].
      * apply Ha in Hi. unfold key, timer_key in Hi. cbn in Hi. lia.
      * apply Hb in Hi. unfold key, timer_key in Hi. cbn in Hi. lia.
    + exists c', p'. split; [done|]. split; [|done]. apply prcb_upd. by left.
Qed.

(** Clearing the flag of a timer that is not enqueued. *)
Lemma clear_timer_ok s o T f :
  timer_ok s → timer s o = Ok T → IsEnqueued T = false → IsEnqueued (f T) = false →
  timer_ok (upd_timer o f s).
Proof.
  intros Hok HT He Hf. split.
  - apply Hok.
  - intros c p k o' Hp Hin. destruct (tree_timer s Hok c p k o' Hp Hin) as (T' & HT' & He' & ?).
    exists T'. split; [|done]. apply timer_upd. left. split; [|done]. intros ->. congruence.
  - intros o' T' HT' He'. apply timer_upd in HT' as [(Hne & HT')|(-> & T0 & HT0 & ->)].
    + by apply Hok.
    + congruence.
Qed.

Lemma cancel_spec s o T :
  timer_ok s → KiDispatcherLock s = true → timer s o = Ok T →
  ∃ s', KiCancelTimer o s = Ok (IsEnqueued T, s') ∧ timer_frame s s' ∧ timer_ok s' ∧
    ∀ o' T', timer s' o' = Ok T' ↔
      (o' ≠ o ∧ timer s o' = Ok T') ∨ (o' = o ∧ T' = set_IsEnqueued false T).
Proof.
  intros Hok Hl HT. unfold KiCancelTimer, KiAssertOwnDispatcherLock. rewrite Hl. cbn. rewrite HT. cbn.
  assert (∀ o' T', (o' ≠ o ∧ timer s o' = Ok T') ∨ (o' = o ∧ T' = set_IsEnqueued false T) ↔
    (o' ≠ o ∧ timer s o' = Ok T') ∨ (o' = o ∧ ∃ T0, timer s o = Ok T0 ∧ T' = set_IsEnqueued false T0))
    as Heq.
  { intros o' T'. rewrite HT. split; [intros [?|[-> ->]]; eauto 6|].
    intros [?|(-> & ? & [= <-] & ->)]; eauto. }
  destruct (IsEnqueued T) eqn:He.
  - destruct (remove_timer_spec s o T Hok HT He) as (c & Hc & ->). cbn. eexists. split; [done|].
    split; [|split; [by apply dequeue_timer_ok|]].
    + etransitivity; [|apply frame_upd_timer]. by apply frame_upd_tree.
    + intros o' T'. rewrite Heq. by rewrite timer_upd, !timer_upd_prcb.
  - cbn. eexists. split; [done|]. split; [apply frame_upd_timer|]. split; [by eapply clear_timer_ok|].
    intros o' T'. rewrite Heq. by rewrite timer_upd.
Qed.

(** ** Setting a timer *)

Definition has_key (tree : list (Z * nat)) (k : Z) : Prop := ∃ o, (k, o) ∈ tree.

Lemma insert_timer_tree tree (k : Z) (o : nat) :
  ascending tree →
  (∃ tree', InsertItemRbTree tree (k, o) = Some tree' ∧ ¬ has_key tree k ∧ ascending tree' ∧
     ∀ k' o', (k', o') ∈ tree' ↔ (k', o') = (k, o) ∨ (k', o') ∈ tree) ∨
  (InsertItemRbTree tree (k, o) = None ∧ has_key tree k).
Proof.
  intros Hs. destruct (insert_place tree (k, o) Hs) as [(a & b & -> & Ha & Hb & ->)|([k' o'] & Hy & Hk & ->)].
  - left. eexists. split; [done|]. split_and!.
    + intros (o' & [Hi|Hi]%elem_of_app); [apply Ha in Hi|apply Hb in Hi];
        unfold key, timer_key in Hi; cbn in Hi; lia.
    + by apply ascending_split.
    + intros k' o'. rewrite !elem_of_app, elem_of_cons. tauto.
  - right. split; [done|]. cbn in Hk. subst k'. by exists o'.
Qed.

(** How many entries are at [e] or later. *)
Definition later (e : Z) (tree : list (Z * nat)) : nat := length (filter (λ x, e ≤ x.1) tree).

Lemma later_decreases e tree : has_key tree e → (later (e + 1) tree < later e tree)%nat.
Proof.
  intros (o & (a & b & ->)%list_elem_of_split). unfold later.
  rewrite !filter_app, !length_app. rewrite (filter_cons_False (λ x : Z * nat, e + 1 ≤ x.1) (e, o)) by (cbn; lia).
  rewrite (filter_cons_True _ (e, o)) by (cbn; lia). cbn.
  assert (∀ l : list (Z * nat), 
    (length (filter (λ x : Z * nat, (e + 1 ≤ x.1)%Z) l) ≤
     length (filter (λ x : Z * nat, (e ≤ x.1)%Z) l))%nat) as Hle.
  { induction l as [|x l IH]; [done|]. destruct (decide (e + 1 ≤ x.1)).
    - rewrite !filter_cons_True by (done || lia). cbn. lia.
    - rewrite (filter_cons_False _ x) by done. destruct (decide (e ≤ x.1)).
      + rewrite (filter_cons_True _ x) by done. cbn. lia.
      + by rewrite (filter_cons_False _ x) by done. }
  pose proof (Hle a). pose proof (Hle b). lia.
Qed.

Lemma insert_timer_spec fuel cpu o s T p :
  KeProcessorList s !! cpu = Some p → ascending (TimerTree p) → timer s o = Ok T →
  (later (ExpiryTick T) (TimerTree p) ≤ fuel)%nat → 0 ≤ ExpiryTick T →
  ExpiryTick T + Z.of_nat fuel < 2 ^ 64 →
  ∃ k tree' s', insert_timer fuel cpu o s = Ok s' ∧ timer_frame s s' ∧
    ExpiryTick T ≤ k ≤ ExpiryTick T + Z.of_nat fuel ∧ ¬ has_key (TimerTree p) k ∧
    (∀ j, ExpiryTick T ≤ j < k → has_key (TimerTree p) j) ∧
    ascending tree' ∧ (∀ k' o', (k', o') ∈ tree' ↔ (k', o') = (k, o) ∨ (k', o') ∈ TimerTree p) ∧
    KeProcessorList s' = alter (set_TimerTree tree') cpu (KeProcessorList s) ∧
    ∀ o' T', timer s' o' = Ok T' ↔
      (o' ≠ o ∧ timer s o' = Ok T') ∨
      (o' = o ∧ T' = set_TimerScheduler (Some cpu) (set_ExpiryTick k T)).
Proof.
  revert s T p. induction fuel as [|fuel IH]; intros s T p Hp Hs HT Hlater H0 Hb; cbn [insert_timer];
    unfold KiInsertTimerTree; rewrite HT; unfold prcb; rewrite Hp; cbn [mbind outcome_bind deref];
    destruct (insert_timer_tree (TimerTree p) (ExpiryTick T) o Hs)
      as [(tree' & -> & Hno & Hs' & Hmem)|[-> Hkey]]; cbn.
  1,3: exists (ExpiryTick T), tree'; eexists; split_and!; try done; try lia;
       [etransitivity; [apply (frame_upd_timer o)|by apply frame_upd_tree]|];
       intros o' T'; rewrite timer_upd_prcb, timer_upd; rewrite HT; split;
       [intros [?|(-> & ? & [= <-] & ->)]; [by left|right; split; [done|by destruct T]]
       |intros [?|[-> ->]]; [by left|right; split; [done|]; eexists; split; [done|by destruct T]]].
  - pose proof (later_decreases _ _ Hkey). lia.
  - set (s1 := upd_timer o (set_TimerScheduler (Some cpu)) s).
    set (s2 := upd_timer o (λ T, set_ExpiryTick (u64 (ExpiryTick T + 1)) T) s1).
    assert (u64 (ExpiryTick T + 1) = ExpiryTick T + 1) as Hw by (apply wrap_small; lia).
    assert (timer s2 o = Ok (set_ExpiryTick (ExpiryTick T + 1) (set_TimerScheduler (Some cpu) T))) as HT2.
    { apply timer_upd. right. split; [done|]. exists (set_TimerScheduler (Some cpu) T).
      split; [|cbn; by rewrite Hw]. apply timer_upd. right. eauto. }
    destruct (IH s2 _ p Hp Hs HT2) as (k & tree' & s' & Hr & Hf & Hk & Hno & Hocc & Hs' & Hmem & Hpr & Htm);
      cbn in *.
    { pose proof (later_decreases _ _ Hkey). lia. }
    { lia. }
    { lia. }
    exists k, tree', s'. split_and!; try done; try lia.
    + etransitivity; [apply (frame_upd_timer o)|]. etransitivity; [apply (frame_upd_timer o)|done].
    + intros j Hj. destruct (decide (j = ExpiryTick T)) as [->|]; [done|]. apply Hocc. lia.
    + intros o' T'. rewrite Htm. unfold s2, s1. split.
      * intros [[Hne HT']|[-> ->]]; [|by right]. left. split; [done|].
        apply timer_upd in HT' as [[_ HT']|[? _]]; [|done].
        by apply timer_upd in HT' as [[_ HT']|[? _]].
      * intros [[Hne HT']|[-> ->]]; [|by right]. left. split; [done|].
        apply timer_upd. left. split; [done|]. apply timer_upd. by left.
Qed.

(** The tree of a processor after the timer [o] has left the tree it was in. *)
Definition tree_without (o : nat) (tree : list (Z * nat)) : list (Z * nat) := filter (λ x, x.2 ≠ o) tree.

Lemma set_timer_spec s cpu o T p Due d fuel :
  timer_ok s → KiDispatcherLock s = true → timer s o = Ok T → KeProcessorList s !! cpu = Some p →
  (length (TimerTree p) ≤ fuel)%nat →
  let due := u64 (TickCount s + u64 (TickFrequency s * Due) / 1000) in
  due + Z.of_nat fuel < 2 ^ 64 →
  ∃ k s', KiSetTimer fuel cpu o Due d s = Ok (IsEnqueued T, s') ∧ timer_frame s s' ∧ timer_ok s' ∧
    due ≤ k ≤ due + Z.of_nat fuel ∧
    (∀ j, due ≤ j < k → ∃ o', o' ≠ o ∧ (j, o') ∈ TimerTree p) ∧
    ∀ o' T', timer s' o' = Ok T' ↔
      (o' ≠ o ∧ timer s o' = Ok T') ∨ (o' = o ∧ T' = mkTimer k true (Some cpu) d).
Proof.
  intros Hok Hl HT Hp Hfuel due Hdue. unfold KiSetTimer, KiAssertOwnDispatcherLock.
  rewrite Hl. cbn. rewrite HT. cbn.
  assert (∃ s1 p1, (if IsEnqueued T then KiRemoveTimerTree o s else Ok s) = Ok s1 ∧
    timer_frame s s1 ∧ (∀ o', timer s1 o' = timer s o') ∧ timer_ok (upd_timer o (set_IsEnqueued false) s1) ∧
    KeProcessorList s1 !! cpu = Some p1 ∧ (length (TimerTree p1) ≤ fuel)%nat ∧
    (∀ x, x ∈ TimerTree p1 → x ∈ TimerTree p) ∧ TickCount s1 = TickCount s ∧
    TickFrequency s1 = TickFrequency s)
    as (s1 & p1 & -> & Hf1 & Ht1 & Hok1 & Hp1 & Hlen1 & Hsub & Htc & Htf).
  { destruct (IsEnqueued T) eqn:He.
    - destruct (remove_timer_spec s o T Hok HT He) as (c & Hc & ->).
      pose proof (dequeue_timer_ok s o T c Hok HT He Hc) as Hdq.
      destruct (decide (c = cpu)) as [->|Hne]; eexists; eexists; (split; [done|]);
        (split; [by apply frame_upd_tree|]); (split; [done|]); (split; [done|]).
      + split; [apply prcb_upd; right; eauto|].
        destruct (timer_tree s Hok o T HT He) as (c' & p' & Hc' & Hp' & Hin).
        rewrite Hc in Hc'. injection Hc' as <-. rewrite Hp in Hp'. injection Hp' as <-.
        destruct (tree_split _ _ _ (tree_sorted s Hok _ _ Hp) Hin) as (a & b & Htr & Ha & _).
        cbn. rewrite Htr.
        rewrite (remove_at a (ExpiryTick T, o) b Ha : RemoveItemRbTree _ (ExpiryTick T) = _).
        rewrite Htr, length_app in Hfuel. cbn in Hfuel. rewrite length_app. split_and!; try done; [lia|].
        intros x. set_solver.
      + split; [by apply prcb_upd; left|]. done.
    - exists s, p. split_and!; try done. by eapply clear_timer_ok. }
  cbn. rewrite Htc, Htf. fold due.
  set (s2 := upd_timer o (set_ExpiryTick due) s1).
  assert (timer s2 o = Ok (set_ExpiryTick due T)) as HT2.
  { apply timer_upd. right. split; [done|]. exists T. by rewrite Ht1. }
  assert (ascending (TimerTree p1)) as Hs1 by (by eapply (tree_sorted _ Hok1 cpu)).
  destruct (insert_timer_spec fuel cpu o s2 _ p1 Hp1 Hs1 HT2)
    as (k & tree' & s3 & -> & Hf3 & Hk & Hno & Hocc & Hs3 & Hmem & Hpr & Htm); cbn in *.
  { unfold later. etransitivity; [apply length_filter|]. lia. }
  { by apply wrap_range. }
  { done. }
  assert (∀ k' , (k', o) ∉ TimerTree p1) as Hnot.
  { intros k' Hin. destruct (tree_timer _ Hok1 cpu p1 k' o Hp1 Hin) as (T' & HT' & He' & _).
    apply timer_upd in HT' as [[? _]|(_ & T0 & _ & ->)]; done. }
  eexists k, _. split; [done|]. split.
  { etransitivity; [exact Hf1|]. etransitivity; [apply (frame_upd_timer o)|].
    etransitivity; [exact Hf3|]. apply frame_upd_timer. }
  assert (∀ o' T', timer (upd_timer o (λ T0, set_TimerDpc d (set_IsEnqueued true T0)) s3) o' = Ok T' ↔
    (o' ≠ o ∧ timer s o' = Ok T') ∨ (o' = o ∧ T' = mkTimer k true (Some cpu) d)) as Hfin.
  { intros o' T'. rewrite timer_upd. split.
    - intros [[Hne HT']|(-> & T0 & HT0 & ->)].
      + left. split; [done|]. apply Htm in HT' as [[_ HT']|[? _]]; [|done].
        apply timer_upd in HT' as [[_ HT']|[? _]]; [|done]. by rewrite Ht1 in HT'.
      + right. split; [done|]. by apply Htm in HT0 as [[? _]|[_ ->]].
    - intros [[Hne HT']|[-> ->]].
      + left. split; [done|]. apply Htm. left. split; [done|]. apply timer_upd. left.
        split; [done|]. by rewrite Ht1.
      + right. split; [done|]. eexists. split; [|]. apply Htm. right. done. done. }
  split.
  { assert (∀ o' T', o' ≠ o → timer s o' = Ok T' ↔
      timer (upd_timer o (set_IsEnqueued false) s1) o' = Ok T') as Hother.
    { intros o' T' Hne. rewrite timer_upd, Ht1. split; [by left|]. by intros [[_ ?]|[? _]]. }
    split.
    - intros c q Hq. change (KeProcessorList s3 !! c = Some q) in Hq. rewrite Hpr in Hq.
      apply (prcb_upd cpu (set_TimerTree tree') s1) in Hq as [(_ & Hq)|(-> & q0 & _ & ->)]; [|done].
      by eapply (tree_sorted _ Hok1 c).
    - intros c q k' o' Hq Hin. change (KeProcessorList s3 !! c = Some q) in Hq. rewrite Hpr in Hq.
      apply (prcb_upd cpu (set_TimerTree tree') s1) in Hq as [(Hne & Hq)|(-> & q0 & Hq0 & ->)].
      + destruct (tree_timer _ Hok1 c q k' o' Hq Hin) as (T' & HT' & He' & Hrest).
        assert (o' ≠ o) as Hno'.
        { intros ->. apply timer_upd in HT' as [[? _]|(_ & T0 & _ & ->)]; done. }
        exists T'. split; [|done]. apply Hfin. left. split; [done|]. by apply Hother.
      + cbn in Hin. apply Hmem in Hin as [[= -> ->]|Hin].
        * eexists. split; [apply Hfin; right; done|]. done.
        * destruct (tree_timer _ Hok1 cpu p1 k' o' Hp1 Hin) as (T' & HT' & He' & Hrest).
          assert (o' ≠ o) as Hno' by (intros ->; by apply (Hnot k')).
          exists T'. split; [|done]. apply Hfin. left. split; [done|]. by apply Hother.
    - intros o' T' HT' He'. apply Hfin in HT' as [[Hne HT']|[-> ->]].
      + apply Hother in HT'; [|done].
        destruct (timer_tree _ Hok1 o' T' HT' He') as (c & q & Hc & Hq & Hin).
        exists c. destruct (decide (c = cpu)) as [->|Hnc].
        * change (KeProcessorList s1 !! cpu = Some q) in Hq. rewrite Hp1 in Hq. injection Hq as <-.
          exists (set_TimerTree tree' p1). split; [done|]. split.
          { change (KeProcessorList s3 !! cpu = Some (set_TimerTree tree' p1)). rewrite Hpr.
            apply (prcb_upd cpu (set_TimerTree tree') s1). right. eauto. }
          cbn. apply Hmem. by right.
        * exists q. split; [done|]. split; [|done].
          change (KeProcessorList s3 !! c = Some q). rewrite Hpr.
          apply (prcb_upd cpu (set_TimerTree tree') s1). by left.
      + cbn. exists cpu, (set_TimerTree tree' p1). split; [done|]. split.
        { change (KeProcessorList s3 !! cpu = Some (set_TimerTree tree' p1)). rewrite Hpr.
          apply (prcb_upd cpu (set_TimerTree tree') s1). right. eauto. }
        cbn. apply Hmem. by left. }
  split; [done|]. split; [|done]. intros j Hj. destruct (Hocc j Hj) as (o' & Ho').
  exists o'. split; [|by apply Hsub]. intros ->. by apply (Hnot j).
Qed.

(** ** Theorem *)

(** C4: setting a timer, enqueued before or not, terminates and leaves it
    enqueued on the processor that set it at the first tick from its due time
    on that no other timer of that processor has, and changes no other timer. *)
Theorem KeSetTimer_correct s cpu o T p Due d fuel :
  timer_ok s → KiDispatcherLock s = false → timer s o = Ok T → KeProcessorList s !! cpu = Some p →
  (length (TimerTree p) ≤ fuel)%nat →
  let due := u64 (TickCount s + u64 (TickFrequency s * Due) / 1000) in
  due + Z.of_nat fuel < 2 ^ 64 →
  ∃ k s', KeSetTimer fuel cpu o Due d s = Ok (IsEnqueued T, s') ∧ timer_ok s' ∧
    due ≤ k ∧ (∀ j, due ≤ j < k → ∃ o', o' ≠ o ∧ (j, o') ∈ TimerTree p) ∧
    ∀ o' T', timer s' o' = Ok T' ↔
      (o' ≠ o ∧ timer s o' = Ok T') ∨ (o' = o ∧ T' = mkTimer k true (Some cpu) d).
Proof.
  intros Hok Hl HT Hp Hfuel due Hdue. unfold KeSetTimer, KiLockDispatcher. rewrite Hl. cbn [mbind outcome_bind].
  assert (timer_ok (set_KiDispatcherLock true s)) as Hok1 by (split; apply Hok).
  destruct (set_timer_spec (set_KiDispatcherLock true s) cpu o T p Due d fuel Hok1 eq_refl HT Hp Hfuel Hdue)
    as (k & s' & -> & [Hf _] & Hok' & Hk & Htaken & Hm). cbn [mbind outcome_bind].
  unfold KiUnlockDispatcher. apply (f_equal KiDispatcherLock) in Hf. cbn in Hf. rewrite Hf.
  cbn [check mbind outcome_bind]. eexists k, _. split; [done|]. split; [split; apply Hok'|]. split; [exact (proj1 Hk)|].
  split; [exact Htaken|exact Hm].
Qed.

Module Setting.

Definition a_timer (T : KTIMER) : KDISPATCH_HEADER := mkObject 0 [] (DISPATCH_TIMER T).

(** Timer 2 is due at tick 1500. *)
Definition kernel : KERNEL :=
  mkKernel (<[1%nat := a_timer (mkTimer 0 false None None)]>
      (<[2%nat := a_timer (mkTimer 1500 true (Some 0%nat) None)]> ∅)) ∅ ∅
    [mkPrcb 0 [] None None [(1500, 2%nat)] 0 0 0 [] false 0] false [] 0 false None 1000 1000.

Lemma kernel_ok : timer_ok kernel.
Proof.
  split.
  - intros [|[]] p [= <-]. repeat constructor.
  - intros [|[]] p k o [= <-] Hin; cbn in Hin. apply list_elem_of_singleton in Hin as [= -> ->]. by eexists.
  - intros o T (h & Hh & Hb)%timer_Ok He. cbn in Hh.
    apply lookup_insert_Some in Hh as [[<- <-]|[_ Hh]]; [injection Hb as <-; done|].
    apply lookup_insert_Some in Hh as [[<- <-]|[_ Hh]]; [|by rewrite lookup_empty in Hh].
    injection Hb as <-. eexists 0%nat, _. split; [done|]. split; [done|]. left.
Qed.

End Setting.

Lemma KeSetTimer_correct_witness :
  ∃ s', KeSetTimer 1 0 1 500 None Setting.kernel = Ok (false, s') ∧
    timer s' 1 = Ok (mkTimer 1501 true (Some 0%nat) None).
Proof.
  destruct (KeSetTimer_correct Setting.kernel 0 1 (mkTimer 0 false None None)
    (mkPrcb 0 [] None None [(1500, 2%nat)] 0 0 0 [] false 0) 500 None 1 Setting.kernel_ok) as (k & s' & H & _);
    [reflexivity|reflexivity|reflexivity|cbn; lia|vm_compute; reflexivity|].
  exists s'. split; [exact H|]. vm_compute in H. injection H as <-. reflexivity.
Defined.
