(* ===== verification/Sched.v ===== *)
(** The scheduler of [boron/source/ke/sched.c]: ready queues by priority with
    their mask, the choice of the next thread, stealing from other processors,
    and the ends of waits, quanta and threads. *)
From S2P Require Import Prelude RbTree Ke Timer.
Local Open Scope Z_scope.

(** [QUEUE_BIT] : boron/include/ke/sched.h:24-24. *)
Definition QUEUE_BIT (x : Z) : Z := u32 (Z.shiftl 1 x).

(** [Scheduler->ExecQueue[Priority]] *)
Definition queue (p : KPRCB) (Priority : Z) : outcome (list nat) :=
  if 0 <=? Priority then deref (ExecQueue p !! Z.to_nat Priority) else Crash.

Definition set_queue (Priority : Z) (q : list nat) (p : KPRCB) : KPRCB :=
  set_ExecQueue (<[Z.to_nat Priority := q]> (ExecQueue p)) p.

Definition set_bit (Priority : Z) (p : KPRCB) : KPRCB :=
  set_ExecQueueMask (Z.lor (ExecQueueMask p) (QUEUE_BIT Priority)) p.
Definition clear_bit (Priority : Z) (p : KPRCB) : KPRCB :=
  set_ExecQueueMask (Z.ldiff (ExecQueueMask p) (QUEUE_BIT Priority)) p.

(** [InsertHeadList, InsertTailList] : common/include/rtl/list.h:38-50.
    Of a thread's [EntryQueue]. *)
Definition enqueue_thread (tail : bool) (c : nat) (Priority : Z) (t : nat) (s : KERNEL) : outcome KERNEL :=
  p ← prcb s c;
  q ← queue p Priority;
  Ok (upd_thread t (set_EntryQueueIsSelf false)
        (upd_prcb c (set_queue Priority (if tail then q ++ [t] else t :: q)) s)).

(** [RemoveEntryList] : common/include/rtl/list.h:80-94.
    Of [Thread->EntryQueue]: from the queue the thread is in. *)
Definition dequeue_thread (t : nat) (s : KERNEL) : outcome KERNEL :=
  _ ← check (existsb (λ p, existsb (λ q, bool_decide (t ∈ q)) (ExecQueue p)) (KeProcessorList s));
  Ok (set_KeProcessorList
        ((λ p, set_ExecQueue (filter (.≠ t) <$> ExecQueue p) p) <$> KeProcessorList s) s).

(** [KiCheckOverloadedExecQueues] : boron/source/ke/sched.c:75-94. *)
Definition KiCheckOverloadedExecQueues (s : KERNEL) : outcome KERNEL :=
  _ ← KiAssertOwnDispatcherLock s;
  let crowded := foldl (λ best '(i, p),
      if MAX_THREADS_ON_QUEUE_OVERLOADED <=? ThreadsOnQueueCount p then
        match best with
        | Some (j, n) => if n <? ThreadsOnQueueCount p then Some (i, ThreadsOnQueueCount p) else best
        | None => Some (i, ThreadsOnQueueCount p)
        end
      else best) None (imap pair (KeProcessorList s)) in
  Ok (set_KiMoreAggressiveWorkStealing (bool_decide (is_Some crowded))
        (set_KiMostCrowdedProcessor (fst <$> crowded) s)).

(** [KiSetPriorityThread] : boron/source/ke/sched.c:96-120.
    The list test holds only for a thread that never entered a queue. *)
Definition KiSetPriorityThread (cpu t : nat) (P : Z) (s : KERNEL) : outcome KERNEL :=
  T ← thread s t;
  s ← (if EntryQueueIsSelf T then Ok s
       else
         s ← dequeue_thread t s;
         p ← prcb s cpu;
         old ← queue p (Priority T);
         let s := match old with [] => upd_prcb cpu (clear_bit (Priority T)) s | _ => s end in
         s ← enqueue_thread (negb (P <? Priority T)) cpu P t s;
         Ok (upd_prcb cpu (set_bit P) s));
  Ok (upd_thread t (λ T, set_PriorityBoost 0 (set_BasePriority P (set_Priority P T))) s).

(** [KiReadyThread] : boron/source/ke/sched.c:144-170. *)
Definition KiReadyThread (cpu t : nat) (s : KERNEL) : outcome KERNEL :=
  _ ← KiAssertOwnDispatcherLock s;
  T ← thread s t;
  let s := upd_thread t (λ T, set_Suspended false (set_Status KTHREAD_STATUS_READY T)) s in
  let s := set_KiGlobalThreadList (KiGlobalThreadList s ++ [t]) s in
  s ← enqueue_thread true cpu (Priority T) t s;
  let s := upd_prcb cpu (λ p, set_bit (Priority T)
             (set_ThreadsOnQueueCount (ThreadsOnQueueCount p + 1) p)) s in
  KiCheckOverloadedExecQueues (upd_thread t (set_LastProcessor cpu) s).

(** [KiAdjustPriorityBoost] : boron/source/ke/sched.c:172-184. *)
Definition KiAdjustPriorityBoost (Base Boost : Z) : Z :=
  let New := Base + Boost in
  let within (lo hi : Z) := (hi <? New) && (Base <=? hi) && (lo <=? Base) in
  let New :=
    if Base =? PRIORITY_IDLE then PRIORITY_IDLE
    else if within PRIORITY_REALTIME PRIORITY_REALTIME_MAX then PRIORITY_REALTIME_MAX
    else if within PRIORITY_HIGH PRIORITY_HIGH_MAX then PRIORITY_HIGH_MAX
    else if within PRIORITY_NORMAL PRIORITY_NORMAL_MAX then PRIORITY_NORMAL_MAX
    else if within PRIORITY_LOW PRIORITY_LOW_MAX then PRIORITY_LOW_MAX
    else New in
  New - Base.

(** [KiUnwaitThread] : boron/source/ke/sched.c:202-206.
    The loop that takes a thread's wait blocks, from the [i]-th, out of the
    lists of their objects. *)
Fixpoint remove_wait_blocks (t i : nat) (blocks : list nat) (s : KERNEL) : outcome KERNEL :=
  match blocks with
  | [] => Ok s
  | o :: blocks =>
      h ← object s o;
      l ← RemoveEntryList (t, i) (WaitBlockList h);
      remove_wait_blocks t (S i) blocks (upd_object o (set_WaitBlockList l) s)
  end.

(** [KiUnwaitThread] : boron/source/ke/sched.c:186-233. *)
Definition KiUnwaitThread (cpu t : nat) (St : BSTATUS) (Increment : Z) (s : KERNEL) : outcome KERNEL :=
  _ ← KiAssertOwnDispatcherLock s;
  T ← thread s t;
  _ ← check (bool_decide (Status T ≠ KTHREAD_STATUS_READY));
  let Increment := KiAdjustPriorityBoost (Priority T) Increment in
  let P := BasePriority T + Increment in
  let s := upd_thread t (λ T, set_Priority P (set_PriorityBoost Increment
             (set_Status KTHREAD_STATUS_READY T))) s in
  s ← remove_wait_blocks t 0 (WaitBlockArray T) s;
  let s := upd_thread t (λ T, set_DontSteal true (set_WaitStatus St (set_WaitBlockArray [] T))) s in
  s ← enqueue_thread true (LastProcessor T) P t s;
  let s := upd_prcb (LastProcessor T) (set_bit P) s in
  s ← KiCheckOverloadedExecQueues s;
  '(_, s) ← KiCancelTimer (WaitTimer T) s;
  '(_, s) ← KiCancelTimer (SleepTimer T) s;
  current ← KeGetCurrentThread cpu s;
  c ← deref current;
  C ← thread s c;
  if Priority C <? P then KiSetPendingQuantumEnd cpu s else Ok s.

(** [KepPopNextThreadIfNeeded] : boron/source/ke/sched.c:311-354.
    The loop over the priorities below [n], downwards. *)
Fixpoint pop_loop (n cpu c : nat) (MinPriority : Z) (OtherProcessor : bool) (s : KERNEL)
  : outcome (option nat * KERNEL) :=
  match n with
  | O => Ok (None, s)
  | S n =>
      let P := Z.of_nat n in
      if P <? MinPriority then Ok (None, s)
      else
        p ← prcb s c;
        q ← queue p P;
        match q with
        | [] => pop_loop n cpu c MinPriority OtherProcessor s
        | t :: q =>
            T ← thread s t;
            if negb (Z.testbit (Affinity T) (Z.of_nat cpu)) then Ok (None, s)
            else if DontSteal T && OtherProcessor then Ok (None, s)
            else
              let s := upd_prcb c (λ p, set_ThreadsOnQueueCount (ThreadsOnQueueCount p - 1)
                         (set_queue P q p)) s in
              s ← KiCheckOverloadedExecQueues s;
              let s := match q with [] => upd_prcb c (clear_bit P) s | _ => s end in
              Ok (Some t, upd_thread t (λ T, set_PriorityBoost 0 (set_Priority (BasePriority T) T)) s)
        end
  end.

(** [KepPopNextThreadIfNeeded] : boron/source/ke/sched.c:289-355.
    Processor [cpu] takes a thread of processor [c]. *)
Definition KepPopNextThreadIfNeeded (cpu c : nat) (MinPriority : Z) (OtherProcessor : bool) (s : KERNEL)
  : outcome (option nat * KERNEL) :=
  p ← prcb s c;
  if OtherProcessor && (ExecQueueMask p <? QUEUE_BIT MinPriority) then Ok (None, s)
  else if OtherProcessor && (MinPriority =? 0) then Ok (None, s)
  else pop_loop PRIORITY_COUNT cpu c MinPriority OtherProcessor s.

(** [KiAssignDefaultQuantum] : boron/source/ke/sched.c:357-381.
    The request to the interrupt timer is not modelled. *)
Definition KiAssignDefaultQuantum (cpu : nat) (t : option nat) (s : KERNEL) : outcome KERNEL :=
  _ ← KiAssertOwnDispatcherLock s;
  t ← deref t;
  _ ← prcb s cpu;
  let Until := u64 (TickCount s + u64 (TickFrequency s * MAX_QUANTUM_US) / 1000000) in
  Ok (upd_prcb cpu (set_QuantumUntil Until) (upd_thread t (set_ThreadQuantumUntil Until) s)).

(** [KepGetNextProcessorToStealWorkFrom] : boron/source/ke/sched.c:493-506. *)
Definition KepGetNextProcessorToStealWorkFrom (s : KERNEL) : outcome (nat * KERNEL) :=
  _ ← KiAssertOwnDispatcherLock s;
  if KiMoreAggressiveWorkStealing s then c ← deref (KiMostCrowdedProcessor s); Ok (c, s)
  else
    let Processor := KepNextProcessorToStealWorkFrom s in
    let Next := if (S Processor =? length (KeProcessorList s))%nat then O else S Processor in
    Ok (Processor, set_KepNextProcessorToStealWorkFrom Next s).

(** [KepTryStealThread] : boron/source/ke/sched.c:508-519. *)
Definition KepTryStealThread (cpu : nat) (MinPriority : Z) (s : KERNEL) : outcome (option nat * KERNEL) :=
  '(c, s) ← KepGetNextProcessorToStealWorkFrom s;
  KepPopNextThreadIfNeeded cpu c (MinPriority + 1) true s.

(** [KepStealManyThreads] : boron/source/ke/sched.c:535-549.
    The inner loop: up to [n] threads of priority [P] move. *)
Fixpoint steal_loop (n cpu c : nat) (P : Z) (s : KERNEL) : outcome (nat * KERNEL) :=
  match n with
  | O => Ok (O, s)
  | S n' =>
      p ← prcb s c;
      q ← queue p P;
      match q with
      | [] => Ok (n, s)
      | t :: q =>
          let s := upd_prcb c (set_queue P q) s in
          s ← enqueue_thread true cpu P t s;
          p ← prcb s c;
          q ← queue p P;
          let s := match q with [] => upd_prcb c (clear_bit P) s | _ => s end in
          let s := upd_prcb cpu (set_bit P) s in
          let s := upd_prcb c (λ p, set_ThreadsOnQueueCount (ThreadsOnQueueCount p - 1) p) s in
          let s := upd_prcb cpu (λ p, set_ThreadsOnQueueCount (ThreadsOnQueueCount p + 1) p) s in
          steal_loop n' cpu c P s
      end
  end.

(** [KepStealManyThreads] : boron/source/ke/sched.c:533-550. *)
Fixpoint steal_priorities (i LeftToSteal cpu c : nat) (s : KERNEL) : outcome KERNEL :=
  match i with
  | O => Ok s
  | S i' =>
      '(LeftToSteal, s) ← steal_loop LeftToSteal cpu c (Z.of_nat i) s;
      steal_priorities i' LeftToSteal cpu c s
  end.

(** [KepStealManyThreads] : boron/source/ke/sched.c:521-551. *)
Definition KepStealManyThreads (cpu : nat) (s : KERNEL) : outcome KERNEL :=
  _ ← KiAssertOwnDispatcherLock s;
  '(c, s) ← KepGetNextProcessorToStealWorkFrom s;
  p ← prcb s c;
  steal_priorities (PRIORITY_COUNT - 1) (Z.to_nat (Z.quot (ThreadsOnQueueCount p) 2)) cpu c s.

(** Tries the alternatives in turn until one gives a thread. *)
Definition or_else (m : KERNEL → outcome (option nat * KERNEL)) (k : KERNEL → outcome (option nat * KERNEL))
    (s : KERNEL) : outcome (option nat * KERNEL) :=
  '(r, s) ← m s;
  match r with Some t => Ok (Some t, s) | None => k s end.

(** [KiGetNextThread] : boron/source/ke/sched.c:553-609. *)
Definition KiGetNextThread (cpu : nat) (MayDowngrade : bool) (s : KERNEL) : outcome (option nat * KERNEL) :=
  _ ← KiAssertOwnDispatcherLock s;
  p ← prcb s cpu;
  MinPriority ← match CurrentThread p with
                | Some t => T ← thread s t; Ok (BasePriority T)
                | None => Ok 0
                end;
  s ← (if KiMoreAggressiveWorkStealing s then
         '(c, s) ← KepGetNextProcessorToStealWorkFrom s;
         if (c =? cpu)%nat then Ok s else KepStealManyThreads cpu s
       else Ok s);
  or_else (KepPopNextThreadIfNeeded cpu cpu (MinPriority + 1) false)
  (or_else (KepTryStealThread cpu (MinPriority + 1))
  (or_else (KepPopNextThreadIfNeeded cpu cpu MinPriority false)
  (or_else (KepTryStealThread cpu MinPriority)
  (λ s, if negb MayDowngrade then Ok (None, s)
        else or_else (KepTryStealThread cpu 1) (KepPopNextThreadIfNeeded cpu cpu 0 false) s)))) s.

(** [KiEndThreadQuantum] : boron/source/ke/sched.c:385-438. *)
Definition KiEndThreadQuantum (cpu : nat) (s : KERNEL) : outcome KERNEL :=
  _ ← KiAssertOwnDispatcherLock s;
  current ← KeGetCurrentThread cpu s;
  '(next, s) ← KiGetNextThread cpu false s;
  match next with
  | None => KiAssignDefaultQuantum cpu current s
  | Some n =>
      let s := upd_prcb cpu (set_NextThread (Some n)) s in
      s ← match current with
          | None => Ok s
          | Some t =>
              T ← thread s t;
              s ← (if Suspended T then Ok (upd_thread t (set_Status KTHREAD_STATUS_INITIALIZED) s)
                   else
                     let s := upd_thread t (set_Status KTHREAD_STATUS_READY) s in
                     s ← enqueue_thread true cpu (Priority T) t s;
                     Ok (upd_prcb cpu (λ p, set_bit (Priority T)
                           (set_ThreadsOnQueueCount (ThreadsOnQueueCount p + 1) p)) s));
              KiCheckOverloadedExecQueues (upd_thread t (set_LastProcessor cpu) s)
          end;
      Ok (upd_prcb cpu (set_QuantumUntil 0) s)
  end.

(** [KiPerformYield] : boron/source/ke/sched.c:611-655. *)
Definition KiPerformYield (cpu : nat) (s : KERNEL) : outcome KERNEL :=
  _ ← KiAssertOwnDispatcherLock s;
  current ← KeGetCurrentThread cpu s;
  s ← match current with
      | None => Ok s
      | Some t =>
          T ← thread s t;
          if negb (BasePriority T =? PRIORITY_IDLE) && negb (TickScheduledAt T =? 0) then
            Ok (upd_thread t (set_TickScheduledAt 0)
                  (upd_prcb cpu (λ p, set_TicksSpentNonIdle
                     (u64 (TicksSpentNonIdle p + u64 (TickCount s - TickScheduledAt T))) p) s))
          else Ok s
      end;
  running ← match current with
            | None => Ok true
            | Some t => T ← thread s t; Ok (bool_decide (Status T = KTHREAD_STATUS_RUNNING))
            end;
  if running : bool then KiEndThreadQuantum cpu s
  else
    '(next, s) ← KiGetNextThread cpu true s;
    n ← deref next;
    let s := upd_prcb cpu (set_NextThread (Some n)) s in
    s ← match current with
        | None => Ok s
        | Some t =>
            T ← thread s t;
            if decide (Status T = KTHREAD_STATUS_TERMINATED) then
              s ← KeInitializeDpc (DeleteDpc T) (KepCleanUpThread_routine t) s;
              s ← KeEnqueueDpc cpu (DeleteDpc T) s;
              _ ← check (bool_decide (n ≠ t));
              Ok s
            else Ok s
        end;
    Ok (upd_prcb cpu (set_QuantumUntil 0) s).

(** [KiSwitchToNextThread] : boron/source/ke/sched.c:676-775.
    Up to the switch of the stacks; the address space and the registers of the
    processor are not modelled. *)
Definition KiSwitchToNextThread (cpu : nat) (s : KERNEL) : outcome KERNEL :=
  _ ← KiAssertOwnDispatcherLock s;
  p ← prcb s cpu;
  t ← deref (NextThread p);
  let s := upd_prcb cpu (λ p, set_NextThread None (set_CurrentThread (Some t) p)) s in
  T ← thread s t;
  let s := upd_thread t (λ T, set_DontSteal false (set_Status KTHREAD_STATUS_RUNNING T)) s in
  '(_, s) ← KiCancelTimer (WaitTimer T) s;
  s ← KiAssignDefaultQuantum cpu (Some t) s;
  let s := upd_thread t (set_TickScheduledAt (TickCount s)) s in
  match KernelApcQueue T with
  | [] => Ok s
  | _ => KeIssueSoftwareInterrupt cpu IPL_APC s
  end.

(** [KiHandleQuantumEndDispatcherLockHeld] : boron/source/ke/sched.c:777-784. *)
Definition KiHandleQuantumEndDispatcherLockHeld (cpu : nat) (s : KERNEL) : outcome KERNEL :=
  s ← KiPerformYield cpu s;
  p ← prcb s cpu;
  match NextThread p with
  | Some _ => KiSwitchToNextThread cpu s
  | None => Ok s
  end.

(** [KiHandleQuantumEnd] : boron/source/ke/sched.c:786-791. *)
Definition KiHandleQuantumEnd (cpu : nat) (s : KERNEL) : outcome KERNEL :=
  s ← KiLockDispatcher s;
  s ← KiHandleQuantumEndDispatcherLockHeld cpu s;
  KiUnlockDispatcher s.

(** [KeSetPriorityThread] : boron/source/ke/sched.c:828-833. *)
Definition KeSetPriorityThread (cpu t : nat) (P : Z) (s : KERNEL) : outcome KERNEL :=
  s ← KiLockDispatcher s;
  s ← KiSetPriorityThread cpu t P s;
  KiUnlockDispatcher s.

(** [KeReadyThread] : boron/source/ke/sched.c:835-840. *)
Definition KeReadyThread (cpu t : nat) (s : KERNEL) : outcome KERNEL :=
  s ← KiLockDispatcher s;
  s ← KiReadyThread cpu t s;
  KiUnlockDispatcher s.

(** [KeTerminateThread] : boron/source/ke/sched.c:842-862.
    The thread that runs next unlocks the dispatcher. *)
Definition KeTerminateThread (cpu : nat) (Increment : Z) (s : KERNEL) : outcome KERNEL :=
  s ← KiLockDispatcher s;
  current ← KeGetCurrentThread cpu s;
  t ← deref current;
  T ← thread s t;
  '(_, s) ← KiCancelTimer (WaitTimer T) s;
  '(_, s) ← KiCancelTimer (SleepTimer T) s;
  let s := upd_thread t (λ T, set_IncrementTerminated Increment
             (set_Status KTHREAD_STATUS_TERMINATED T)) s in
  s ← KiHandleQuantumEndDispatcherLockHeld cpu s;
  KiUnlockDispatcher s.

(** ** The ready queues *)

Definition in_queue (procs : list KPRCB) (c k t : nat) : Prop :=
  ∃ p q, procs !! c = Some p ∧ ExecQueue p !! k = Some q ∧ t ∈ q.

(** The queues hold exactly the ready threads, each once and at its priority,
    and the masks tell which queues have threads. *)
Record sched_inv (procs : list KPRCB) (threads : gmap nat KTHREAD) : Prop := {
  si_queues c p : procs !! c = Some p → length (ExecQueue p) = PRIORITY_COUNT;
  si_thread t T : threads !! t = Some T →
    0 ≤ BasePriority T ≤ Priority T ∧ Priority T ≤ PRIORITY_REALTIME_MAX ∧
    (LastProcessor T < length procs)%nat;
  si_queued c k t : in_queue procs c k t →
    ∃ T, threads !! t = Some T ∧ Status T = KTHREAD_STATUS_READY ∧ Priority T = Z.of_nat k;
  si_ready t T : threads !! t = Some T → Status T = KTHREAD_STATUS_READY →
    ∃ c k, in_queue procs c k t;
  si_once c k c' k' t : in_queue procs c k t → in_queue procs c' k' t → c = c' ∧ k = k';
  si_nodup c p k q : procs !! c = Some p → ExecQueue p !! k = Some q → NoDup q;
  si_mask c p k q : procs !! c = Some p → ExecQueue p !! k = Some q →
    Z.testbit (ExecQueueMask p) (Z.of_nat k) = negb (bool_decide (q = []));
  si_mask_range c p : procs !! c = Some p → 0 ≤ ExecQueueMask p < 2 ^ 32 }.

(** Every processor runs a thread that exists. *)
Definition current_ok (procs : list KPRCB) (threads : gmap nat KTHREAD) : Prop :=
  ∀ c p, procs !! c = Some p → ∃ t T, CurrentThread p = Some t ∧ threads !! t = Some T.

(** The timers inside of threads exist. *)
Definition thread_timers (objs : gmap nat DOBJ) (threads : gmap nat KTHREAD) : Prop :=
  ∀ t T, threads !! t = Some T →
    (∃ x, objs !! WaitTimer T = Some x ∧ okind x = KTimer) ∧
    (∃ x, objs !! SleepTimer T = Some x ∧ okind x = KTimer).

Lemma QUEUE_BIT_pow k : (k < 32)%nat → QUEUE_BIT (Z.of_nat k) = 2 ^ Z.of_nat k.
Proof.
  intros Hk. unfold QUEUE_BIT. rewrite Z.shiftl_1_l. apply wrap_small. split; [lia|].
  apply Z.pow_lt_mono_r; lia.
Qed.

Lemma testbit_high m i : 0 ≤ m < 2 ^ 32 → 32 ≤ i → Z.testbit m i = false.
Proof.
  intros Hm Hi. destruct (decide (m = 0)) as [->|Hne]; [apply Z.bits_0|].
  apply Z.bits_above_log2; [lia|]. assert (Z.log2 m < 32) by (apply Z.log2_lt_pow2; lia). lia.
Qed.

Lemma mask_range x : 0 ≤ x → (∀ i, 32 ≤ i → Z.testbit x i = false) → 0 ≤ x < 2 ^ 32.
Proof.
  intros Hx Hi. split; [done|]. destruct (decide (x = 0)) as [->|Hne]; [done|].
  apply Z.log2_lt_pow2; [lia|]. destruct (decide (Z.log2 x < 32)) as [|Hge]; [done|].
  specialize (Hi (Z.log2 x)). rewrite Z.bit_log2 in Hi by lia. by specialize (Hi ltac:(lia)).
Qed.

Lemma set_bit_spec p k i :
  (k < 32)%nat → 0 ≤ i →
  Z.testbit (ExecQueueMask (set_bit (Z.of_nat k) p)) i =
    (Z.testbit (ExecQueueMask p) i || bool_decide (i = Z.of_nat k)).
Proof.
  intros Hk Hi. unfold set_bit. cbn. rewrite QUEUE_BIT_pow by done.
  rewrite Z.lor_spec, Z.pow2_bits_eqb by lia. f_equal. case_bool_decide; [subst; apply Z.eqb_refl|].
  apply Z.eqb_neq. lia.
Qed.

Lemma clear_bit_spec p k i :
  (k < 32)%nat → 0 ≤ i →
  Z.testbit (ExecQueueMask (clear_bit (Z.of_nat k) p)) i =
    (Z.testbit (ExecQueueMask p) i && negb (bool_decide (i = Z.of_nat k))).
Proof.
  intros Hk Hi. unfold clear_bit. cbn. rewrite QUEUE_BIT_pow by done.
  rewrite Z.ldiff_spec, Z.pow2_bits_eqb by lia. f_equal. f_equal.
  case_bool_decide; [subst; apply Z.eqb_refl|]. apply Z.eqb_neq. lia.
Qed.

Lemma set_bit_range p k :
  (k < 32)%nat → 0 ≤ ExecQueueMask p < 2 ^ 32 → 0 ≤ ExecQueueMask (set_bit (Z.of_nat k) p) < 2 ^ 32.
Proof.
  intros Hk Hm. apply mask_range.
  - unfold set_bit. cbn. apply Z.lor_nonneg. split; [lia|]. rewrite QUEUE_BIT_pow by done. lia.
  - intros i Hi. rewrite set_bit_spec by lia. rewrite testbit_high by done.
    rewrite bool_decide_false by lia. done.
Qed.

Lemma clear_bit_range p k :
  (k < 32)%nat → 0 ≤ ExecQueueMask p < 2 ^ 32 → 0 ≤ ExecQueueMask (clear_bit (Z.of_nat k) p) < 2 ^ 32.
Proof.
  intros Hk Hm. apply mask_range.
  - unfold clear_bit. cbn. apply Z.ldiff_nonneg. left. lia.
  - intros i Hi. rewrite clear_bit_spec by lia. by rewrite testbit_high by done.
Qed.

Lemma in_queue_insert procs c p p' c' k t :
  procs !! c = Some p →
  in_queue (<[c := p']> procs) c' k t ↔
  (c' = c ∧ ∃ q, ExecQueue p' !! k = Some q ∧ t ∈ q) ∨ (c' ≠ c ∧ in_queue procs c' k t).
Proof.
  intros Hp. assert (c < length procs)%nat by by eapply lookup_lt_Some. unfold in_queue.
  destruct (decide (c' = c)) as [->|Hne].
  - rewrite list_lookup_insert_eq by done. split.
    + intros (? & q & [= <-] & ? & ?). left. eauto.
    + intros [(_ & q & ? & ?)|[? _]]; [eauto|done].
  - rewrite list_lookup_insert_ne by done. split; [by right|]. by intros [[? _]|[_ ?]].
Qed.

(** A thread that becomes ready enters a queue. *)
Lemma sched_enqueue procs threads c p k q q' p' t T T' :
  sched_inv procs threads → procs !! c = Some p → ExecQueue p !! k = Some q →
  threads !! t = Some T → Status T ≠ KTHREAD_STATUS_READY →
  Status T' = KTHREAD_STATUS_READY → Priority T' = Z.of_nat k → 0 ≤ BasePriority T' ≤ Priority T' →
  (LastProcessor T' < length procs)%nat → q' = q ++ [t] ∨ q' = t :: q →
  ExecQueue p' = <[k := q']> (ExecQueue p) →
  ExecQueueMask p' = ExecQueueMask (set_bit (Z.of_nat k) p) →
  sched_inv (<[c := p']> procs) (<[t := T']> threads).
Proof.
  intros Hs Hp Hq HT Hnr Hr Hpr Hb Hl Hq' Hex Hmask.
  assert (c < length procs)%nat as Hc by by eapply lookup_lt_Some.
  assert (k < length (ExecQueue p))%nat as Hk by by eapply lookup_lt_Some.
  pose proof (si_queues _ _ Hs c p Hp) as Hlen. unfold PRIORITY_COUNT in Hlen.
  assert (∀ c' k', ¬ in_queue procs c' k' t) as Hnot.
  { intros c' k' Hin. apply (si_queued _ _ Hs) in Hin as (T0 & HT0 & ? & _). congruence. }
  assert (∀ x, x ∈ q' ↔ x = t ∨ x ∈ q) as Hmem by (intros x; destruct Hq' as [-> | ->]; set_solver).
  assert (∀ c' k' t', in_queue (<[c := p']> procs) c' k' t' ↔
    in_queue procs c' k' t' ∨ (c' = c ∧ k' = k ∧ t' = t)) as Hin.
  { intros c' k' t'. rewrite in_queue_insert by done. rewrite Hex. split.
    - intros [(-> & q0 & Hq0 & Hin0)|[_ ?]]; [|by left]. destruct (decide (k' = k)) as [->|Hne].
      + rewrite list_lookup_insert_eq in Hq0 by done. injection Hq0 as <-.
        apply Hmem in Hin0 as [->|?]; [by right|]. left. exists p, q. done.
      + rewrite list_lookup_insert_ne in Hq0 by done. left. exists p, q0. done.
    - intros [Hin0|(-> & -> & ->)].
      + destruct (decide (c' = c)) as [->|]; [|by right]. left. split; [done|].
        destruct Hin0 as (p0 & q0 & Hp0 & Hq0 & Hin0). rewrite Hp in Hp0. injection Hp0 as <-.
        destruct (decide (k' = k)) as [->|Hne].
        * rewrite list_lookup_insert_eq by done. eexists. split; [done|]. apply Hmem. right. congruence.
        * rewrite list_lookup_insert_ne by done. eauto.
      + left. split; [done|]. rewrite list_lookup_insert_eq by done. eexists. split; [done|].
        apply Hmem. by left. }
  assert (∀ c' p0, (<[c := p']> procs) !! c' = Some p0 → (c' = c ∧ p0 = p') ∨ (c' ≠ c ∧ procs !! c' = Some p0))
    as Hlook.
  { intros c' p0 Hp0. destruct (decide (c' = c)) as [->|Hne].
    - rewrite list_lookup_insert_eq in Hp0 by done. injection Hp0 as <-. by left.
    - rewrite list_lookup_insert_ne in Hp0 by done. by right. }
  split.
  - intros c' p0 [[-> ->]|[_ Hp0]]%Hlook; [by rewrite Hex, length_insert|by eapply (si_queues _ _ Hs)].
  - intros t' T0 HT0. rewrite length_insert. destruct (decide (t' = t)) as [->|Hne].
    + rewrite lookup_insert_eq in HT0. injection HT0 as <-. split_and!; try lia.
      unfold PRIORITY_REALTIME_MAX. lia.
    + rewrite lookup_insert_ne in HT0 by done. by apply (si_thread _ _ Hs t').
  - intros c' k' t' [Hin0|(-> & -> & ->)]%Hin.
    + destruct (si_queued _ _ Hs c' k' t' Hin0) as (T0 & HT0 & ?). exists T0. split; [|done].
      rewrite lookup_insert_ne; [done|]. intros ->. by apply (Hnot c' k').
    + exists T'. by rewrite lookup_insert_eq.
  - intros t' T0 HT0 Hr0. destruct (decide (t' = t)) as [->|Hne].
    + exists c, k. apply Hin. by right.
    + rewrite lookup_insert_ne in HT0 by done. destruct (si_ready _ _ Hs t' T0 HT0 Hr0) as (c' & k' & ?).
      exists c', k'. apply Hin. by left.
  - intros c1 k1 c2 k2 t' [H1|(-> & -> & ->)]%Hin [H2|(-> & -> & He)]%Hin; subst; try done.
    + by eapply (si_once _ _ Hs).
    + by apply Hnot in H1.
    + by apply Hnot in H2.
  - intros c' p0 k' q0 [[-> ->]|[_ Hp0]]%Hlook Hq0; [|by eapply (si_nodup _ _ Hs)].
    rewrite Hex in Hq0. destruct (decide (k' = k)) as [->|Hne].
    + rewrite list_lookup_insert_eq in Hq0 by done. injection Hq0 as <-.
      pose proof (si_nodup _ _ Hs c p k q Hp Hq) as Hnd.
      assert (t ∉ q) as Htq by (intros Hi; apply (Hnot c k); exists p, q; done).
      destruct Hq' as [-> | ->]; [|by constructor]. apply NoDup_app. split; [done|]. split; [set_solver|].
      apply NoDup_singleton.
    + rewrite list_lookup_insert_ne in Hq0 by done. by eapply (si_nodup _ _ Hs c p).
  - intros c' p0 k' q0 [[-> ->]|[_ Hp0]]%Hlook Hq0; [|by eapply (si_mask _ _ Hs)].
    rewrite Hmask, set_bit_spec by lia. rewrite Hex in Hq0. destruct (decide (k' = k)) as [->|Hne].
    + rewrite list_lookup_insert_eq in Hq0 by done. injection Hq0 as <-.
      rewrite (bool_decide_true (Z.of_nat k = _)), orb_true_r by done.
      rewrite bool_decide_false; [done|]. intros ->. by apply (not_elem_of_nil t), Hmem; left.
    + rewrite list_lookup_insert_ne in Hq0 by done.
      rewrite (bool_decide_false (Z.of_nat k' = _)), orb_false_r by lia.
      by eapply (si_mask _ _ Hs).
  - intros c' p0 [[-> ->]|[_ Hp0]]%Hlook; [|by eapply (si_mask_range _ _ Hs)].
    rewrite Hmask. apply set_bit_range; [lia|]. by eapply (si_mask_range _ _ Hs).
Qed.

(** What the invariant of the queues looks at. *)
Definition pcore (p : KPRCB) : list (list nat) * Z := (ExecQueue p, ExecQueueMask p).
Definition tcore (T : KTHREAD) : KTHREAD_STATUS * Z * Z * nat :=
  (Status T, Priority T, BasePriority T, LastProcessor T).

Lemma list_fmap_lookup_eq {A B} (f : A → B) (l l' : list A) i x :
  f <$> l' = f <$> l → l' !! i = Some x → ∃ y, l !! i = Some y ∧ f x = f y.
Proof.
  intros Heq Hx. assert ((f <$> l') !! i = Some (f x)) as H by by rewrite list_lookup_fmap, Hx.
  rewrite Heq, list_lookup_fmap in H. destruct (l !! i) as [y|]; [|done]. injection H as H. eauto.
Qed.

Lemma map_fmap_lookup_eq {A B} (f : A → B) (m m' : gmap nat A) i x :
  f <$> m' = f <$> m → m' !! i = Some x → ∃ y, m !! i = Some y ∧ f x = f y.
Proof.
  intros Heq Hx. assert ((f <$> m') !! i = Some (f x)) as H by by rewrite lookup_fmap, Hx.
  rewrite Heq, lookup_fmap in H. destruct (m !! i) as [y|]; [|done]. injection H as H. eauto.
Qed.

Lemma sched_inv_ext procs procs' threads threads' :
  pcore <$> procs' = pcore <$> procs → tcore <$> threads' = tcore <$> threads →
  sched_inv procs threads → sched_inv procs' threads'.
Proof.
  intros Hp Ht Hs.
  assert (length procs' = length procs) as Hlen by (by rewrite <-(length_fmap pcore procs'), Hp, length_fmap).
  assert (∀ c k t, in_queue procs' c k t ↔ in_queue procs c k t) as Hin.
  { intros c k t. split; intros (p & q & H1 & H2 & H3).
    - destruct (list_fmap_lookup_eq _ _ _ _ _ Hp H1) as (p0 & Hp0 & [= He _]). exists p0, q.
      by rewrite <-He.
    - destruct (list_fmap_lookup_eq _ _ _ _ _ (eq_sym Hp) H1) as (p0 & Hp0 & [= He _]). exists p0, q.
      by rewrite <-He. }
  split.
  - intros c p H1. destruct (list_fmap_lookup_eq _ _ _ _ _ Hp H1) as (p0 & Hp0 & [= -> _]).
    by eapply (si_queues _ _ Hs).
  - intros t T H1. destruct (map_fmap_lookup_eq _ _ _ _ _ Ht H1) as (T0 & HT0 & [= _ -> -> ->]).
    rewrite Hlen. by eapply (si_thread _ _ Hs).
  - intros c k t (T0 & HT0 & ? & ?)%Hin%(si_queued _ _ Hs).
    destruct (map_fmap_lookup_eq _ _ _ _ _ (eq_sym Ht) HT0) as (T & HT & [= H1 H2 _ _]).
    exists T. split; [done|]. split; congruence.
  - intros t T H1 Hr. destruct (map_fmap_lookup_eq _ _ _ _ _ Ht H1) as (T0 & HT0 & [= H2 _ _ _]).
    rewrite H2 in Hr. destruct (si_ready _ _ Hs t T0 HT0 Hr) as (c & k & ?). exists c, k. by apply Hin.
  - intros c k c' k' t H1%Hin H2%Hin. by eapply (si_once _ _ Hs).
  - intros c p k q H1 H2. destruct (list_fmap_lookup_eq _ _ _ _ _ Hp H1) as (p0 & Hp0 & [= He _]).
    rewrite He in H2. by eapply (si_nodup _ _ Hs).
  - intros c p k q H1 H2. destruct (list_fmap_lookup_eq _ _ _ _ _ Hp H1) as (p0 & Hp0 & [= He ->]).
    rewrite He in H2. by eapply (si_mask _ _ Hs).
  - intros c p H1. destruct (list_fmap_lookup_eq _ _ _ _ _ Hp H1) as (p0 & Hp0 & [= _ ->]).
    by eapply (si_mask_range _ _ Hs).
Qed.

(** The timers seen through another state. *)
Lemma timer_ok_ext s s' :
  (∀ o, timer s' o = timer s o) → TimerTree <$> KeProcessorList s' = TimerTree <$> KeProcessorList s →
  timer_ok s → timer_ok s'.
Proof.
  intros Ht Hp Hok. split.
  - intros c p H1. destruct (list_fmap_lookup_eq _ _ _ _ _ Hp H1) as (p0 & Hp0 & ->).
    by eapply (tree_sorted s Hok).
  - intros c p k o H1 H2. destruct (list_fmap_lookup_eq _ _ _ _ _ Hp H1) as (p0 & Hp0 & He).
    rewrite Ht. rewrite He in H2. by eapply (tree_timer s Hok).
  - intros o T. rewrite Ht. intros H1 H2. destruct (timer_tree s Hok o T H1 H2) as (c & p & ? & Hp0 & ?).
    destruct (list_fmap_lookup_eq _ _ _ _ _ (eq_sym Hp) Hp0) as (p' & ? & He).
    exists c, p'. split_and!; try done. by rewrite <-He.
Qed.

(** ** Ending a wait *)

(** The objects after the wait blocks of [t] have left their lists. *)
Definition without_blocks (t : nat) (h : KDISPATCH_HEADER) : KDISPATCH_HEADER :=
  set_WaitBlockList (filter (λ e, e.1 ≠ t) (WaitBlockList h)) h.

Definition unblock (t : nat) (x : DOBJ) : DOBJ :=
  mkDobj (sig x) (filter (λ e, e.1 ≠ t) (waiters x)) (okind x).

Lemma without_blocks_id t h : (∀ j, (t, j) ∉ WaitBlockList h) → without_blocks t h = h.
Proof.
  intros Hn. unfold without_blocks. rewrite filter_keep; [by destruct h|].
  intros [t' j] Hin. cbn. intros ->. by apply (Hn j).
Qed.

Lemma remove_blocks_spec t i blocks s :
  NoDup blocks → (∀ o, o ∈ blocks → is_Some (Objects s !! o)) →
  (∀ o h j, Objects s !! o = Some h →
     (t, j) ∈ WaitBlockList h ↔ (i ≤ j)%nat ∧ blocks !! (j - i)%nat = Some o) →
  remove_wait_blocks t i blocks s = Ok (set_Objects (without_blocks t <$> Objects s) s).
Proof.
  revert i s. induction blocks as [|o blocks IH]; intros i s Hnd Hex Hin; cbn.
  - f_equal. destruct s. unfold set_Objects. cbn. f_equal. apply map_eq. intros o. rewrite lookup_fmap.
    destruct (Objects !! o) as [h|] eqn:Hh; [|done]. cbn. rewrite without_blocks_id; [done|].
    intros j Hj. apply (Hin o h j Hh) in Hj as [_ Hj]. done.
  - apply NoDup_cons in Hnd as [Hno Hnd]. destruct (Hex o ltac:(left)) as [h Hh].
    unfold object. rewrite Hh. cbn. unfold RemoveEntryList. rewrite decide_True.
    2: { apply (Hin o h i Hh). split; [done|]. by rewrite Nat.sub_diag. }
    cbn. set (h1 := set_WaitBlockList (filter (.≠ (t, i)) (WaitBlockList h)) h).
    set (s1 := upd_object o (set_WaitBlockList (filter (.≠ (t, i)) (WaitBlockList h))) s).
    assert (Objects s1 !! o = Some h1) as Ho.
    { unfold s1. cbn. rewrite lookup_alter_eq, Hh. done. }
    assert (∀ o', o' ≠ o → Objects s1 !! o' = Objects s !! o') as Hne.
    { intros o' Hne. unfold s1. cbn. by rewrite lookup_alter_ne. }
    assert (∀ j, (t, j) ∉ WaitBlockList h1) as Hgone.
    { intros j Hj. unfold h1 in Hj. cbn in Hj. apply list_elem_of_filter in Hj as [Hji Hj].
      apply (Hin o h j Hh) in Hj as [Hle Hj]. destruct (j - i)%nat as [|n] eqn:Hn.
      - apply Hji. f_equal. lia.
      - cbn in Hj. apply Hno. by eapply list_elem_of_lookup_2. }
    rewrite IH; [|done|..].
    + f_equal. unfold set_Objects. cbn. f_equal. apply map_eq. intros o'. rewrite !lookup_fmap.
      destruct (decide (o' = o)) as [->|Hne'].
      * change (alter _ o (Objects s) !! o) with (Objects s1 !! o). rewrite Ho, Hh. cbn.
        rewrite without_blocks_id by done. unfold h1, without_blocks. do 2 f_equal.
        apply filter_same. intros [t' j] Hx. cbn. split; [|by intros ? [= -> ->]].
        intros Hx' ->. apply (Hgone j). unfold h1. cbn. by apply list_elem_of_filter.
      * change (alter _ o (Objects s) !! o') with (Objects s1 !! o'). by rewrite Hne.
    + intros o' Ho'. destruct (decide (o' = o)) as [->|Hne']; [by rewrite Ho|].
      rewrite Hne by done. apply Hex. by right.
    + intros o' h' j Hh'. destruct (decide (o' = o)) as [->|Hne'].
      * rewrite Ho in Hh'. injection Hh' as <-. split; [by intros ?%Hgone|].
        intros [_ Hj]. exfalso. apply Hno. by eapply list_elem_of_lookup_2.
      * rewrite Hne in Hh' by done. rewrite (Hin o' h' j Hh'). split.
        -- intros [Hle Hj]. destruct (j - i)%nat as [|n] eqn:Hn; [by injection Hj as ->|].
           split; [lia|]. by replace (j - S i)%nat with n by lia.
        -- intros [Hle Hj]. split; [lia|]. by replace (j - i)%nat with (S (j - S i)) by lia.
Qed.

(** The globals of work stealing name processors. *)
Definition steal_ok (s : KERNEL) : Prop :=
  (KepNextProcessorToStealWorkFrom s < length (KeProcessorList s))%nat ∧
  (KiMoreAggressiveWorkStealing s = true →
     ∃ c, KiMostCrowdedProcessor s = Some c ∧ (c < length (KeProcessorList s))%nat).

Definition steal_globals (s : KERNEL) : nat * bool * option nat * Z :=
  (KepNextProcessorToStealWorkFrom s, KiMoreAggressiveWorkStealing s, KiMostCrowdedProcessor s, TickFrequency s).

Lemma check_overloaded_spec s :
  KiDispatcherLock s = true →
  ∃ a b, KiCheckOverloadedExecQueues s =
      Ok (set_KiMoreAggressiveWorkStealing a (set_KiMostCrowdedProcessor b s)) ∧
    (a = true → ∃ c, b = Some c ∧ (c < length (KeProcessorList s))%nat).
Proof.
  intros Hl. unfold KiCheckOverloadedExecQueues, KiAssertOwnDispatcherLock. rewrite Hl. cbn.
  eexists _, _. split; [done|]. rewrite bool_decide_eq_true.
  assert (∀ l best, (∀ i p, (i, p) ∈ l → (i < length (KeProcessorList s))%nat) →
    (∀ i n, best = Some (i, n) → (i < length (KeProcessorList s))%nat) →
    ∀ i n, foldl (λ best '(i, p),
      if MAX_THREADS_ON_QUEUE_OVERLOADED <=? ThreadsOnQueueCount p then
        match best with
        | Some (j, n) => if n <? ThreadsOnQueueCount p then Some (i, ThreadsOnQueueCount p) else best
        | None => Some (i, ThreadsOnQueueCount p)
        end
      else best) best l = Some (i, n) → (i < length (KeProcessorList s))%nat) as Hfold.
  { induction l as [|[j p] l IH]; intros best Hl0 Hb; cbn; [apply Hb|]. apply IH.
    - intros i q Hi. apply (Hl0 i q). by right.
    - assert (j < length (KeProcessorList s))%nat by (apply (Hl0 j p); left).
      intros i n. case_match; [|apply Hb]. destruct best as [[i0 n0]|].
      + case_match; [by intros [= <- _]|apply Hb].
      + by intros [= <- _]. }
  intros [x Hx]. destruct (foldl _ _ _) as [[c n]|] eqn:Hf in Hx; [|done]. rewrite Hf. exists c.
  split; [done|]. eapply Hfold; [| |exact Hf]; [|done]. intros i p Hi.
  apply elem_of_lookup_imap in Hi as (i' & p' & [= -> ->] & Hp). by eapply lookup_lt_Some.
Qed.

(** The invariant of the kernel while the dispatcher is locked. *)
Record kernel_ok (s : KERNEL) : Prop := {
  ko_lock : KiDispatcherLock s = true;
  ko_sched : sched_inv (KeProcessorList s) (Threads s);
  ko_current : current_ok (KeProcessorList s) (Threads s);
  ko_timers : thread_timers (dobj s) (Threads s);
  ko_trees : timer_ok s }.

(** What the boost adds keeps the priority in its class. *)
Lemma adjust_boost Base Boost :
  0 ≤ Base ≤ PRIORITY_REALTIME_MAX → 0 ≤ Boost →
  0 ≤ KiAdjustPriorityBoost Base Boost ≤ Boost ∧
  Base + KiAdjustPriorityBoost Base Boost ≤ PRIORITY_REALTIME_MAX.
Proof.
  unfold KiAdjustPriorityBoost, PRIORITY_IDLE, PRIORITY_REALTIME, PRIORITY_REALTIME_MAX, PRIORITY_HIGH,
    PRIORITY_HIGH_MAX, PRIORITY_NORMAL, PRIORITY_NORMAL_MAX, PRIORITY_LOW, PRIORITY_LOW_MAX.
  intros Hb Hi. cbv zeta.
  repeat match goal with |- context [if ?b then _ else _] => destruct b eqn:? end; bool_hyps; try lia.
  all: repeat match goal with H : (_ && _) = false |- _ => apply andb_false_iff in H as [H|H] end;
    bool_hyps; lia.
Qed.

Lemma upd_prcb_insert c f s p :
  KeProcessorList s !! c = Some p → KeProcessorList (upd_prcb c f s) = <[c := f p]> (KeProcessorList s).
Proof.
  intros Hp. assert (c < length (KeProcessorList s))%nat by by eapply lookup_lt_Some.
  apply list_eq. intros c'. unfold upd_prcb. cbn. destruct (decide (c' = c)) as [->|Hne].
  - by rewrite list_lookup_alter_eq, list_lookup_insert_eq, Hp.
  - by rewrite list_lookup_alter_ne, list_lookup_insert_ne.
Qed.

Lemma upd_thread_insert t f s T :
  Threads s !! t = Some T → Threads (upd_thread t f s) = <[t := f T]> (Threads s).
Proof.
  intros HT. unfold upd_thread. cbn. apply map_eq. intros t'. destruct (decide (t' = t)) as [->|Hne].
  - by rewrite lookup_alter_eq, lookup_insert_eq, HT.
  - by rewrite lookup_alter_ne, lookup_insert_ne.
Qed.

(** Who runs where. *)
Definition running (s : KERNEL) : list (option nat * option nat) :=
  (λ p, (CurrentThread p, NextThread p)) <$> KeProcessorList s.

(** The parts of a thread that waits and wake-ups do not change. *)
Definition fixed (T : KTHREAD) : list nat * Z * Z * bool * bool * bool :=
  ([WaitTimer T; SleepTimer T; WaitDpc T; DeleteDpc T; ThreadHeader T; ThreadProcess T],
   BasePriority T, Affinity T, PendingTermination T, DidCallWaitFunction T, Suspended T).

(** Timers are left alone or cancelled. *)
Definition timers_step (s s' : KERNEL) : Prop :=
  ∀ o T', timer s' o = Ok T' → ∃ T, timer s o = Ok T ∧ (T' = T ∨ T' = set_IsEnqueued false T).

#[export] Instance timers_step_preorder : PreOrder timers_step.
Proof.
  split.
  - intros s o T' HT. exists T'. split; [done|by left].
  - intros x y z H1 H2 o T' HT. destruct (H2 o T' HT) as (T1 & HT1 & E1).
    destruct (H1 o T1 HT1) as (T0 & HT0 & E0). exists T0. split; [done|].
    destruct E1 as [-> | ->], E0 as [-> | ->]; auto.
Qed.

(** What wake-ups keep of the scheduler and of the timers. *)
Record keeps (s s' : KERNEL) : Prop := {
  kp_steal : steal_ok s → steal_ok s';
  kp_idle c t : in_queue (KeProcessorList s) c 0 t → in_queue (KeProcessorList s') c 0 t;
  kp_timers : timers_step s s';
  kp_freq : TickFrequency s' = TickFrequency s }.

#[export] Instance keeps_preorder : PreOrder keeps.
Proof.
  split; [by split|]. intros x y z [? ? ? ?] [? ? ? ?].
  split; [auto|auto|by etransitivity|congruence].
Qed.

Lemma in_queue_ext procs procs' c k t :
  ExecQueue <$> procs' = ExecQueue <$> procs → in_queue procs c k t → in_queue procs' c k t.
Proof.
  intros He (p & q & Hp & Hq & Ht). destruct (list_fmap_lookup_eq _ _ _ _ _ (eq_sym He) Hp) as (p' & Hp' & Hx).
  exists p', q. by rewrite <-Hx.
Qed.

Lemma keeps_ext s s' :
  ExecQueue <$> KeProcessorList s' = ExecQueue <$> KeProcessorList s →
  KepNextProcessorToStealWorkFrom s' = KepNextProcessorToStealWorkFrom s →
  KiMoreAggressiveWorkStealing s' = KiMoreAggressiveWorkStealing s →
  KiMostCrowdedProcessor s' = KiMostCrowdedProcessor s → TickFrequency s' = TickFrequency s →
  timers_step s s' → keeps s s'.
Proof.
  intros He H1 H2 H3 H4 Ht. split; try done.
  - unfold steal_ok. assert (length (KeProcessorList s') = length (KeProcessorList s)) as ->
      by (by rewrite <-(length_fmap ExecQueue (KeProcessorList s')), He, length_fmap).
    by rewrite H1, H2, H3.
  - intros c t. by apply in_queue_ext.
Qed.

Lemma timers_same s s' : (∀ o, timer s' o = timer s o) → timers_step s s'.
Proof. intros H o T'. rewrite H. eauto. Qed.

(** The wait of [t], all of whose blocks are queued, ends with status [St]. *)
Record unwaited (t : nat) (T : KTHREAD) (St : BSTATUS) (Increment : Z) (s s' : KERNEL) : Prop := {
  uw_ok : kernel_ok s';
  uw_objects : dobj s' = unblock t <$> dobj s;
  uw_thread : ∃ T', Threads s' = <[t := T']> (Threads s) ∧
    T' = set_EntryQueueIsSelf false (set_DontSteal true (set_WaitStatus St (set_WaitBlockArray []
      (set_Priority (BasePriority T + KiAdjustPriorityBoost (Priority T) Increment)
        (set_PriorityBoost (KiAdjustPriorityBoost (Priority T) Increment)
          (set_Status KTHREAD_STATUS_READY T))))));
  uw_running : running s' = running s;
  uw_dpcs : Dpcs s' = Dpcs s;
  uw_ticks : TickCount s' = TickCount s;
  uw_keeps : keeps s s' }.

Definition blocks_queued (s : KERNEL) (t : nat) (blocks : list nat) : Prop :=
  NoDup blocks ∧ (∀ o, o ∈ blocks → is_Some (Objects s !! o)) ∧
  ∀ o h j, Objects s !! o = Some h → (t, j) ∈ WaitBlockList h ↔ blocks !! j = Some o.

(** The last steps of [KiUnwaitThread] change nothing that matters here. *)
Lemma cancel_both_spec s w1 w2 :
  kernel_ok s → (∃ T, timer s w1 = Ok T) → (∃ T, timer s w2 = Ok T) →
  ∃ s1 s2 b1 b2, KiCancelTimer w1 s = Ok (b1, s1) ∧ KiCancelTimer w2 s1 = Ok (b2, s2) ∧
    timer_frame s s2 ∧ timer_ok s2 ∧ keeps s s2.
Proof.
  assert (∀ w T s1 s2, timer s1 w = Ok T → (∀ o' T', timer s2 o' = Ok T' ↔
    (o' ≠ w ∧ timer s1 o' = Ok T') ∨ (o' = w ∧ T' = set_IsEnqueued false T)) → timers_step s1 s2) as Hstep.
  { intros w T s1 s2 HT Hm o' T' [[_ ?]|[-> ->]]%Hm; eauto. }
  intros Hk [T1 H1] [T2 H2]. destruct (cancel_spec s w1 T1 (ko_trees s Hk) (ko_lock s Hk) H1)
    as (s1 & E1 & F1 & O1 & M1).
  assert (∃ T, timer s1 w2 = Ok T) as [T2' H2'].
  { destruct (decide (w2 = w1)) as [->|Hne].
    - eexists. apply M1. right. done.
    - exists T2. apply M1. by left. }
  assert (KiDispatcherLock s1 = true) as Hl1.
  { destruct F1 as [F1 _]. apply (f_equal KiDispatcherLock) in F1. cbn in F1. rewrite F1. apply Hk. }
  destruct (cancel_spec s1 w2 T2' O1 Hl1 H2') as (s2 & E2 & F2 & O2 & M2).
  exists s1, s2. eexists _, _. split; [done|]. split; [done|]. 
  assert (timer_frame s s2) as F by (by etransitivity). split; [done|]. split; [done|].
  pose proof F as [F' _]. assert (set_TimerTree [] <$> KeProcessorList s2 = set_TimerTree [] <$> KeProcessorList s) as Hp
    by (apply (f_equal KeProcessorList) in F'; done). apply (f_equal (fmap ExecQueue)) in Hp.
  rewrite <-!list_fmap_compose in Hp.
  apply keeps_ext; [exact Hp|by apply (f_equal KepNextProcessorToStealWorkFrom) in F'
    |by apply (f_equal KiMoreAggressiveWorkStealing) in F'|by apply (f_equal KiMostCrowdedProcessor) in F'
    |by apply (f_equal TickFrequency) in F'|].
  etransitivity; [exact (Hstep _ _ _ _ H1 M1)|exact (Hstep _ _ _ _ H2' M2)].
Qed.

Lemma frame_kernel_ok s s' : timer_frame s s' → timer_ok s' → kernel_ok s → kernel_ok s'.
Proof.
  intros [F D] Ho Hk.
  assert (Threads s' = Threads s) as Ht by (apply (f_equal Threads) in F; done).
  assert (set_TimerTree [] <$> KeProcessorList s' = set_TimerTree [] <$> KeProcessorList s) as Hp
    by (apply (f_equal KeProcessorList) in F; done).
  split.
  - apply (f_equal KiDispatcherLock) in F. cbn in F. rewrite F. apply Hk.
  - apply (sched_inv_ext (KeProcessorList s) _ (Threads s)); [|by rewrite Ht|apply Hk].
    apply (f_equal (fmap pcore)) in Hp. by rewrite <-!list_fmap_compose in Hp.
  - intros c p Hc. destruct (list_fmap_lookup_eq _ _ _ _ _ Hp Hc) as (p0 & Hp0 & He).
    apply (f_equal CurrentThread) in He. cbn in He. rewrite He, Ht. by apply (ko_current s Hk c).
  - rewrite D, Ht. apply Hk.
  - done.
Qed.

Lemma frame_running s s' : timer_frame s s' → running s' = running s.
Proof.
  intros [F _]. assert (set_TimerTree [] <$> KeProcessorList s' = set_TimerTree [] <$> KeProcessorList s) as Hp
    by (apply (f_equal KeProcessorList) in F; done).
  apply (f_equal (fmap (λ p, (CurrentThread p, NextThread p)))) in Hp.
  by rewrite <-!list_fmap_compose in Hp.
Qed.

Lemma kernel_ok_ext s s' :
  KiDispatcherLock s' = true → pcore <$> KeProcessorList s' = pcore <$> KeProcessorList s →
  running s' = running s → TimerTree <$> KeProcessorList s' = TimerTree <$> KeProcessorList s →
  Threads s' = Threads s → (∀ o, timer s' o = timer s o) → okind <$> dobj s' = okind <$> dobj s →
  kernel_ok s → kernel_ok s'.
Proof.
  intros Hl Hp Hr Ht Hth Htm Hd Hk. split; [done|..].
  - eapply sched_inv_ext; [exact Hp|by rewrite Hth|apply Hk].
  - intros c p Hc. destruct (list_fmap_lookup_eq _ _ _ _ _ Hr Hc) as (p0 & Hp0 & [= -> _]).
    rewrite Hth. by apply (ko_current s Hk c).
  - intros t T HT. rewrite Hth in HT. destruct (ko_timers s Hk t T HT) as [(x & Hx & Hk1) (y & Hy & Hk2)].
    destruct (map_fmap_lookup_eq _ _ _ _ _ (eq_sym Hd) Hx) as (x' & Hx' & E1).
    destruct (map_fmap_lookup_eq _ _ _ _ _ (eq_sym Hd) Hy) as (y' & Hy' & E2).
    split; [exists x'|exists y']; split; congruence.
  - by eapply timer_ok_ext; [..|apply Hk].
Qed.

Lemma pending_end_spec cpu s :
  kernel_ok s → (cpu < length (KeProcessorList s))%nat →
  ∃ s', KiSetPendingQuantumEnd cpu s = Ok s' ∧ kernel_ok s' ∧ dobj s' = dobj s ∧
    Threads s' = Threads s ∧ running s' = running s ∧ Dpcs s' = Dpcs s ∧ TickCount s' = TickCount s ∧
    keeps s s'.
Proof.
  intros Hk Hc. apply lookup_lt_is_Some in Hc as [p Hp].
  unfold KiSetPendingQuantumEnd, KeIssueSoftwareInterrupt, prcb. rewrite Hp. cbn [deref mbind outcome_bind].
  rewrite (upd_prcb_insert _ _ _ _ Hp).
  rewrite list_lookup_insert_eq by by eapply lookup_lt_Some. cbn [deref mbind outcome_bind].
  eexists. split; [done|].
  assert (∀ {B} (v : KPRCB → B), (∀ b p, v (set_YieldCurrentThread b p) = v p) →
    (∀ b p, v (set_PendingSoftInterrupts b p) = v p) →
    v <$> KeProcessorList (upd_prcb cpu (λ p, set_PendingSoftInterrupts (Z.lor (PendingSoftInterrupts p)
      (Z.shiftl 1 (IPL_DPC - 1))) p) (upd_prcb cpu (set_YieldCurrentThread true) s)) =
    v <$> KeProcessorList s) as Hv.
  { intros B v H1 H2. apply list_eq. intros c. rewrite !list_lookup_fmap. unfold upd_prcb. cbn.
    destruct (decide (c = cpu)) as [->|Hne].
    - rewrite !list_lookup_alter_eq, Hp. cbn. by rewrite H2, H1.
    - by rewrite !list_lookup_alter_ne. }
  split; [|split_and!; try done; [by apply Hv|]; apply keeps_ext; try done; [by apply Hv|by apply timers_same]].
  apply (kernel_ok_ext s); try done; try (by apply Hv). apply Hk.
Qed.

Lemma unwait_spec cpu t T St Increment s :
  kernel_ok s → (cpu < length (KeProcessorList s))%nat → Threads s !! t = Some T →
  Status T ≠ KTHREAD_STATUS_READY → blocks_queued s t (WaitBlockArray T) → 0 ≤ Increment →
  ∃ s', KiUnwaitThread cpu t St Increment s = Ok s' ∧ unwaited t T St Increment s s'.
Proof.
  intros Hk Hcpu HT Hw (Hnd & Hex & Hin) Hi.
  pose proof (si_thread _ _ (ko_sched s Hk) t T HT) as (Hb & Hmax & Hlp).
  destruct (adjust_boost (Priority T) Increment) as [Hadj Hadj2]; [lia|done|].
  set (inc := KiAdjustPriorityBoost (Priority T) Increment) in *. set (P := BasePriority T + inc).
  unfold KiUnwaitThread, KiAssertOwnDispatcherLock, thread. rewrite (ko_lock s Hk), HT.
  cbn [check mbind outcome_bind deref]. rewrite bool_decide_true by done. cbn [check mbind outcome_bind].
  fold inc P. set (s1 := upd_thread t _ s).
  rewrite (remove_blocks_spec t 0 (WaitBlockArray T) s1 Hnd Hex).
  2: { intros o h j Hh. rewrite (Hin o h j Hh), Nat.sub_0_r. split; [by split; [lia|]|by intros [_ ?]]. }
  cbn [mbind outcome_bind]. set (s2 := set_Objects _ s1). set (s3 := upd_thread t _ s2).
  apply lookup_lt_is_Some in Hlp as [p Hp].
  set (k := Z.to_nat P). assert (Z.of_nat k = P) as HkP by (unfold k; lia).
  assert (is_Some (ExecQueue p !! k)) as [q Hq].
  { apply lookup_lt_is_Some. rewrite (si_queues _ _ (ko_sched s Hk) _ _ Hp). unfold PRIORITY_COUNT.
    unfold k, PRIORITY_REALTIME_MAX in *. lia. }
  assert (enqueue_thread true (LastProcessor T) P t s3 =
    Ok (upd_thread t (set_EntryQueueIsSelf false) (upd_prcb (LastProcessor T) (set_queue P (q ++ [t])) s3)))
    as ->.
  { unfold enqueue_thread, prcb, queue. change (KeProcessorList s3) with (KeProcessorList s).
    rewrite Hp. cbn [deref mbind outcome_bind]. rewrite (proj2 (Z.leb_le _ _)) by lia. fold k.
    by rewrite Hq. }
  cbn [mbind outcome_bind]. set (s4 := upd_thread t _ (upd_prcb _ _ s3)).
  set (s5 := upd_prcb (LastProcessor T) (set_bit P) s4).
  set (T' := set_EntryQueueIsSelf false (set_DontSteal true (set_WaitStatus St (set_WaitBlockArray []
      (set_Priority P (set_PriorityBoost inc (set_Status KTHREAD_STATUS_READY T))))))).
  assert (Threads s5 = <[t := T']> (Threads s)) as Hth5.
  { unfold s5, s4. change (Threads (upd_prcb _ _ ?x)) with (Threads x).
    assert (Threads s1 = <[t := set_Priority P (set_PriorityBoost inc (set_Status KTHREAD_STATUS_READY T))]> (Threads s)) as H1
      by (unfold s1; by rewrite (upd_thread_insert _ _ _ _ HT)).
    assert (Threads s3 = <[t := set_DontSteal true (set_WaitStatus St (set_WaitBlockArray []
       (set_Priority P (set_PriorityBoost inc (set_Status KTHREAD_STATUS_READY T)))))]> (Threads s)) as H3.
    { unfold s3. erewrite upd_thread_insert; [|change (Threads s2) with (Threads s1); rewrite H1; apply lookup_insert_eq].
      change (Threads s2) with (Threads s1). by rewrite H1, insert_insert_eq. }
    erewrite upd_thread_insert; [|change (Threads (upd_prcb _ _ s3)) with (Threads s3); rewrite H3; apply lookup_insert_eq].
    change (Threads (upd_prcb _ _ s3)) with (Threads s3). by rewrite H3, insert_insert_eq. }
  assert (KeProcessorList s5 = <[LastProcessor T := set_bit P (set_queue P (q ++ [t]) p)]> (KeProcessorList s))
    as Hp5.
  { assert (LastProcessor T < length (KeProcessorList s))%nat by by eapply lookup_lt_Some.
    assert (KeProcessorList s4 = <[LastProcessor T := set_queue P (q ++ [t]) p]> (KeProcessorList s)) as H4.
    { unfold s4. change (KeProcessorList (upd_thread t _ ?x)) with (KeProcessorList x).
      by rewrite (upd_prcb_insert _ _ _ p). }
    unfold s5. erewrite upd_prcb_insert; [|rewrite H4; by apply list_lookup_insert_eq].
    by rewrite H4, list_insert_insert_eq. }
  assert (dobj s5 = unblock t <$> dobj s) as Hd5.
  { change (dobj s5) with (view_object <$> (without_blocks t <$> Objects s)).
    unfold dobj. by rewrite <-!map_fmap_compose. }
  assert (∀ {B} (v : KPRCB → B), (∀ p, v (set_bit P (set_queue P (q ++ [t]) p)) = v p) →
    v <$> KeProcessorList s5 = v <$> KeProcessorList s) as Hview.
  { intros B v Hv. rewrite Hp5, list_fmap_insert, Hv. apply list_insert_id. by rewrite list_lookup_fmap, Hp. }
  assert (kernel_ok s5) as Hk5.
  { split.
    - apply Hk.
    - rewrite Hp5, Hth5. eapply (sched_enqueue _ _ _ p k q (q ++ [t])); try done.
      + apply Hk.
      + unfold T', P. cbn. lia.
      + by eapply lookup_lt_Some.
      + by left.
      + by rewrite HkP.
    - intros c p0 Hc. rewrite Hth5. assert (∃ p1, KeProcessorList s !! c = Some p1 ∧
        CurrentThread p0 = CurrentThread p1) as (p1 & Hp1 & ->).
      { by apply (list_fmap_lookup_eq CurrentThread _ _ _ _ (Hview _ CurrentThread ltac:(done)) Hc). }
      destruct (ko_current s Hk c p1 Hp1) as (t0 & T0 & ? & ?). exists t0.
      destruct (decide (t0 = t)) as [->|Hne]; [exists T'; by rewrite lookup_insert_eq|].
      exists T0. by rewrite lookup_insert_ne.
    - intros t0 T0. rewrite Hth5, Hd5. intros H0.
      assert (∀ w, (∃ x, dobj s !! w = Some x ∧ okind x = KTimer) →
        ∃ x, (unblock t <$> dobj s) !! w = Some x ∧ okind x = KTimer) as Hw1.
      { intros w (x & Hx & ?). exists (unblock t x). by rewrite lookup_fmap, Hx. }
      destruct (decide (t0 = t)) as [->|Hne].
      + rewrite lookup_insert_eq in H0. injection H0 as <-.
        destruct (ko_timers s Hk t T HT). split; by apply Hw1.
      + rewrite lookup_insert_ne in H0 by done. destruct (ko_timers s Hk t0 T0 H0). split; by apply Hw1.
    - apply (timer_ok_ext s); [|by apply Hview|apply Hk]. intros o. unfold timer, object.
      change (Objects s5) with (without_blocks t <$> Objects s). rewrite lookup_fmap.
      by destruct (Objects s !! o). }
  assert (∀ o, timer s5 o = timer s o) as Htm5.
  { intros o. unfold timer, object. change (Objects s5) with (without_blocks t <$> Objects s).
    rewrite lookup_fmap. by destruct (Objects s !! o). }
  assert (length (KeProcessorList s5) = length (KeProcessorList s)) as Hlen5 by (by rewrite Hp5, length_insert).
  assert (keeps s s5) as Hm5.
  { split; [|..|done].
    - unfold steal_ok. by rewrite Hlen5.
    - intros c t'. rewrite Hp5. rewrite (in_queue_insert _ _ p) by done. intros (p0 & q0 & Hp0 & Hq0 & Hin0).
      destruct (decide (c = LastProcessor T)) as [->|]; [|right; split; [done|]; by exists p0, q0].
      left. split; [done|]. rewrite Hp in Hp0. injection Hp0 as <-. cbn. fold k.
      destruct (decide (k = 0)%nat) as [->|Hne].
      + rewrite list_lookup_insert_eq by by eapply lookup_lt_Some. eexists. split; [done|]. set_solver.
      + rewrite list_lookup_insert_ne by done. eauto.
    - by apply timers_same. }
  destruct (check_overloaded_spec s5 (ko_lock _ Hk5)) as (b1 & b2 & -> & Hb12). cbn [mbind outcome_bind].
  set (s6 := set_KiMoreAggressiveWorkStealing b1 (set_KiMostCrowdedProcessor b2 s5)).
  assert (kernel_ok s6) as Hk6 by (by apply (kernel_ok_ext s5); try done; apply Hk5).
  assert (keeps s s6) as Hm6.
  { etransitivity; [exact Hm5|]. split; [|done|by apply timers_same|done]. intros [? _]. split; [done|].
    exact Hb12. }
  assert (∀ w, (∃ x, dobj s !! w = Some x ∧ okind x = KTimer) → ∃ T0, timer s6 w = Ok T0) as Hw6.
  { intros w (x & Hx & Hkx). apply is_timer. exists (unblock t x).
    change (dobj s6) with (dobj s5). by rewrite Hd5, lookup_fmap, Hx. }
  destruct (ko_timers s Hk t T HT) as [Hw1 Hw2].
  destruct (cancel_both_spec s6 (WaitTimer T) (SleepTimer T) Hk6 (Hw6 _ Hw1) (Hw6 _ Hw2))
    as (s7 & s8 & b3 & b4 & -> & E8 & F8 & O8 & M8). cbn [mbind outcome_bind]. rewrite E8.
  cbn [mbind outcome_bind].
  pose proof (frame_kernel_ok s6 s8 F8 O8 Hk6) as Hk8. pose proof (frame_running s6 s8 F8) as Hr8.
  destruct F8 as [F8 D8].
  assert (Threads s8 = Threads s5) as Hth8 by (by apply (f_equal Threads) in F8).
  assert (Dpcs s8 = Dpcs s) as Hdpc8 by (by apply (f_equal Dpcs) in F8).
  assert (TickCount s8 = TickCount s) as Htc8 by (by apply (f_equal TickCount) in F8).
  assert (running s8 = running s) as Hrun8 by (rewrite Hr8; by apply Hview).
  assert (length (KeProcessorList s8) = length (KeProcessorList s)) as Hlen8.
  { unfold running in Hrun8. by rewrite <-(length_fmap (λ p, (CurrentThread p, NextThread p)) (KeProcessorList s8)), Hrun8, length_fmap. }
  assert (is_Some (KeProcessorList s8 !! cpu)) as [p8 Hp8] by (apply lookup_lt_is_Some; lia).
  destruct (ko_current s8 Hk8 cpu p8 Hp8) as (c & C & Hcur & HC).
  unfold KeGetCurrentThread, prcb, thread. rewrite Hp8. cbn [deref mbind outcome_bind]. rewrite Hcur.
  cbn [deref mbind outcome_bind]. rewrite HC. cbn [deref mbind outcome_bind].
  destruct (Priority C <? P).
  - destruct (pending_end_spec cpu s8 Hk8 ltac:(lia)) as (s9 & -> & Hk9 & D9 & Hth9 & Hr9 & Hdpc9 & Htc9 & M9).
    eexists. split; [done|]. split; try congruence; try done.
    + rewrite D9, D8. exact Hd5.
    + exists T'. split; [congruence|done].
    + etransitivity; [exact Hm6|]. by etransitivity.
  - eexists. split; [done|]. split; try congruence; try done.
    + rewrite D8. exact Hd5.
    + exists T'. split; [congruence|done].
    + by etransitivity.
Qed.
