(* ===== verification/SchedSpec.v ===== *)
(** The choice of the next thread, the end of a quantum and the switch keep
    the ready queues right: every ready thread stays queued exactly once, and
    a processor always finds a thread to run. *)
From S2P Require Import Prelude RbTree Ke Timer Sched.
Local Open Scope Z_scope.

(** ** A thread leaves a queue *)

Lemma sched_dequeue procs threads c p k t q p' T T' :
  sched_inv procs threads → procs !! c = Some p → ExecQueue p !! k = Some (t :: q) →
  threads !! t = Some T → Status T' ≠ KTHREAD_STATUS_READY →
  0 ≤ BasePriority T' ≤ Priority T' → Priority T' ≤ PRIORITY_REALTIME_MAX →
  (LastProcessor T' < length procs)%nat →
  ExecQueue p' = <[k := q]> (ExecQueue p) →
  ExecQueueMask p' =
    ExecQueueMask (match q with [] => clear_bit (Z.of_nat k) p | _ => p end) →
  sched_inv (<[c := p']> procs) (<[t := T']> threads).
Proof.
  intros Hs Hp Hq HT Hnr Hb Hmax Hl Hex Hmask.
  assert (c < length procs)%nat as Hc by by eapply lookup_lt_Some.
  assert (k < length (ExecQueue p))%nat as Hk by by eapply lookup_lt_Some.
  pose proof (si_queues _ _ Hs c p Hp) as Hlen. unfold PRIORITY_COUNT in Hlen.
  pose proof (si_nodup _ _ Hs c p k _ Hp Hq) as Hnd. apply NoDup_cons in Hnd as [Htq Hnd].
  assert (in_queue procs c k t) as Hint by (exists p, (t :: q); set_solver).
  assert (∀ c' k' t', in_queue (<[c := p']> procs) c' k' t' ↔ in_queue procs c' k' t' ∧ t' ≠ t) as Hin.
  { intros c' k' t'. rewrite in_queue_insert by done. rewrite Hex. split.
    - intros [(-> & q0 & Hq0 & Hin0)|[Hne Hin0]].
      + destruct (decide (k' = k)) as [->|Hne].
        * rewrite list_lookup_insert_eq in Hq0 by done. injection Hq0 as <-.
          split; [exists p, (t :: q); set_solver|set_solver].
        * rewrite list_lookup_insert_ne in Hq0 by done.
          assert (in_queue procs c k' t') as Hin' by by exists p, q0. split; [done|]. intros ->.
          by destruct (si_once _ _ Hs _ _ _ _ _ Hint Hin') as [_ ->].
      + split; [done|]. intros ->. by destruct (si_once _ _ Hs _ _ _ _ _ Hint Hin0) as [-> _].
    - intros [Hin0 Hne]. destruct (decide (c' = c)) as [->|]; [|by right]. left. split; [done|].
      destruct Hin0 as (p0 & q0 & Hp0 & Hq0 & Hin0). rewrite Hp in Hp0. injection Hp0 as <-.
      destruct (decide (k' = k)) as [->|Hne'].
      + rewrite list_lookup_insert_eq by done. eexists. split; [done|]. rewrite Hq in Hq0.
        injection Hq0 as <-. set_solver.
      + rewrite list_lookup_insert_ne by done. eauto. }
  assert (∀ c' p0, (<[c := p']> procs) !! c' = Some p0 → (c' = c ∧ p0 = p') ∨ (c' ≠ c ∧ procs !! c' = Some p0))
    as Hlook.
  { intros c' p0 Hp0. destruct (decide (c' = c)) as [->|Hne].
    - rewrite list_lookup_insert_eq in Hp0 by done. injection Hp0 as <-. by left.
    - rewrite list_lookup_insert_ne in Hp0 by done. by right. }
  split.
  - intros c' p0 [[-> ->]|[_ Hp0]]%Hlook; [by rewrite Hex, length_insert|by eapply (si_queues _ _ Hs)].
  - intros t' T0 HT0. rewrite length_insert. destruct (decide (t' = t)) as [->|Hne].
    + rewrite lookup_insert_eq in HT0. injection HT0 as <-. split_and!; (done || lia).
    + rewrite lookup_insert_ne in HT0 by done. by apply (si_thread _ _ Hs t').
  - intros c' k' t' [Hin0 Hne]%Hin. destruct (si_queued _ _ Hs c' k' t' Hin0) as (T0 & HT0 & ?).
    exists T0. by rewrite lookup_insert_ne.
  - intros t' T0 HT0 Hr0. destruct (decide (t' = t)) as [->|Hne].
    + rewrite lookup_insert_eq in HT0. by injection HT0 as <-.
    + rewrite lookup_insert_ne in HT0 by done. destruct (si_ready _ _ Hs t' T0 HT0 Hr0) as (c' & k' & ?).
      exists c', k'. by apply Hin.
  - intros c1 k1 c2 k2 t' [H1 _]%Hin [H2 _]%Hin. by eapply (si_once _ _ Hs).
  - intros c' p0 k' q0 [[-> ->]|[_ Hp0]]%Hlook Hq0; [|by eapply (si_nodup _ _ Hs)].
    rewrite Hex in Hq0. destruct (decide (k' = k)) as [->|Hne].
    + rewrite list_lookup_insert_eq in Hq0 by done. by injection Hq0 as <-.
    + rewrite list_lookup_insert_ne in Hq0 by done. by eapply (si_nodup _ _ Hs c p).
  - intros c' p0 k' q0 [[-> ->]|[_ Hp0]]%Hlook Hq0; [|by eapply (si_mask _ _ Hs)].
    rewrite Hmask. rewrite Hex in Hq0. destruct (decide (k' = k)) as [->|Hne].
    + rewrite list_lookup_insert_eq in Hq0 by done. injection Hq0 as <-. destruct q as [|t1 q].
      * rewrite clear_bit_spec by lia. rewrite (bool_decide_true (Z.of_nat k = _)), andb_false_r by done. done.
      * by rewrite (si_mask _ _ Hs c p k _ Hp Hq).
    + rewrite list_lookup_insert_ne in Hq0 by done. rewrite <-(si_mask _ _ Hs c p k' q0 Hp Hq0).
      destruct q; [|done]. rewrite clear_bit_spec by lia.
      by rewrite (bool_decide_false (Z.of_nat k' = _)), andb_true_r by lia.
  - intros c' p0 [[-> ->]|[_ Hp0]]%Hlook; [|by eapply (si_mask_range _ _ Hs)].
    rewrite Hmask. pose proof (si_mask_range _ _ Hs c p Hp). destruct q; [apply clear_bit_range; [lia|done]|done].
Qed.

(** ** Choosing a thread *)

(** What the scheduler does not look at when it chooses. *)
Definition sfix (T : KTHREAD) : KTHREAD :=
  set_EntryQueueIsSelf false (set_PriorityBoost 0 (set_Priority 0 T)).
Definition pfix (p : KPRCB) : KPRCB :=
  set_ExecQueue [] (set_ExecQueueMask 0 (set_ThreadsOnQueueCount 0 p)).
Definition without_sched (s : KERNEL) : KERNEL :=
  set_Threads (sfix <$> Threads s) (set_KeProcessorList (pfix <$> KeProcessorList s)
    (set_KepNextProcessorToStealWorkFrom 0 (set_KiMoreAggressiveWorkStealing false
      (set_KiMostCrowdedProcessor None s)))).

(** Every thread may run on every processor. *)
Definition unpinned (s : KERNEL) : Prop :=
  ∀ t T c, Threads s !! t = Some T → (c < length (KeProcessorList s))%nat →
    Z.testbit (Affinity T) (Z.of_nat c) = true.

(** What choosing a thread for processor [cpu] needs. *)
Record schedulable (cpu : nat) (s : KERNEL) : Prop := {
  sc_lock : KiDispatcherLock s = true;
  sc_sched : sched_inv (KeProcessorList s) (Threads s);
  sc_unpinned : unpinned s;
  sc_steal : steal_ok s;
  sc_cpu : (cpu < length (KeProcessorList s))%nat }.

(** What choosing [r] for processor [cpu] does. *)
Record got (cpu : nat) (r : option nat) (s s' : KERNEL) : Prop := {
  gt_rest : without_sched s' = without_sched s;
  gt_steal : steal_ok s';
  gt_priority t T T' : Threads s !! t = Some T → Threads s' !! t = Some T' →
    Priority T' = Priority T ∨ Priority T' = BasePriority T';
  gt_keep c k t : c = cpu ∨ k = 0%nat → in_queue (KeProcessorList s) c k t →
    (r = Some t ∧ c = cpu) ∨ in_queue (KeProcessorList s') c k t;
  gt_sched : match r with
    | None => sched_inv (KeProcessorList s') (Threads s')
    | Some n => ∃ T T', Threads s !! n = Some T ∧ Status T = KTHREAD_STATUS_READY ∧
        Threads s' !! n = Some T' ∧ Priority T' = BasePriority T' ∧
        sched_inv (KeProcessorList s') (<[n := set_Status KTHREAD_STATUS_RUNNING T']> (Threads s'))
    end }.

Lemma without_sched_fields s s' :
  without_sched s' = without_sched s →
  Objects s' = Objects s ∧ Dpcs s' = Dpcs s ∧ KiDispatcherLock s' = KiDispatcherLock s ∧
  TickCount s' = TickCount s ∧ TickFrequency s' = TickFrequency s ∧
  sfix <$> Threads s' = sfix <$> Threads s ∧ pfix <$> KeProcessorList s' = pfix <$> KeProcessorList s.
Proof.
  intros H. split_and!; [by apply (f_equal Objects) in H|by apply (f_equal Dpcs) in H
    |by apply (f_equal KiDispatcherLock) in H|by apply (f_equal TickCount) in H
    |by apply (f_equal TickFrequency) in H|by apply (f_equal Threads) in H
    |by apply (f_equal KeProcessorList) in H].
Qed.

Lemma without_sched_length s s' :
  without_sched s' = without_sched s → length (KeProcessorList s') = length (KeProcessorList s).
Proof.
  intros (_ & _ & _ & _ & _ & _ & H)%without_sched_fields.
  by rewrite <-(length_fmap pfix (KeProcessorList s')), H, length_fmap.
Qed.

Lemma without_sched_thread s s' t T' :
  without_sched s' = without_sched s → Threads s' !! t = Some T' →
  ∃ T, Threads s !! t = Some T ∧ sfix T' = sfix T.
Proof. intros (_ & _ & _ & _ & _ & H & _)%without_sched_fields HT. by eapply map_fmap_lookup_eq. Qed.

Lemma unpinned_ext s s' : without_sched s' = without_sched s → unpinned s → unpinned s'.
Proof.
  intros H Hu t T c HT Hc. rewrite (without_sched_length s s' H) in Hc.
  destruct (without_sched_thread s s' t T H HT) as (T0 & HT0 & E). apply (f_equal Affinity) in E. cbn in E.
  rewrite E. by apply (Hu t T0 c).
Qed.

Lemma got_schedulable cpu s s' : schedulable cpu s → got cpu None s s' → schedulable cpu s'.
Proof.
  intros [Hl Hs Hu Hst Hc] [Hr Hst' _ _ Hs']. split; try done.
  - apply without_sched_fields in Hr as (_ & _ & -> & _). done.
  - by eapply unpinned_ext.
  - by rewrite (without_sched_length s s' Hr).
Qed.

Lemma got_refl cpu s : schedulable cpu s → got cpu None s s.
Proof. intros H. split; [done|apply H|intros; left; congruence|by right|apply H]. Qed.

Lemma got_trans cpu r s s1 s2 : got cpu None s s1 → got cpu r s1 s2 → got cpu r s s2.
Proof.
  intros [R1 _ P1 K1 S1] [R2 St2 P2 K2 S2]. split.
  - by rewrite R2.
  - done.
  - intros t T T2 HT HT2. destruct (without_sched_thread s1 s2 t T2 R2 HT2) as (T1 & HT1 & E).
    apply (f_equal BasePriority) in E. cbn in E.
    destruct (P2 t T1 T2 HT1 HT2) as [->|?]; [|by right]. destruct (P1 t T T1 HT HT1) as [?|?]; [by left|].
    right. congruence.
  - intros c k t Hck Hin. destruct (K1 c k t Hck Hin) as [[? _]|Hin1]; [done|]. by apply K2.
  - destruct r as [n|]; [|done]. destruct S2 as (T1 & T2 & HT1 & Hr & HT2 & Hp & Hs2).
    destruct (without_sched_thread s s1 n T1 R1 HT1) as (T & HT & E). apply (f_equal Status) in E. cbn in E.
    exists T, T2. split_and!; try done. by rewrite <-E.
Qed.

Lemma upd_prcb_pfix c f s :
  (∀ p, pfix (f p) = pfix p) → without_sched (upd_prcb c f s) = without_sched s.
Proof.
  intros Hf. unfold without_sched, upd_prcb, set_KeProcessorList, set_Threads. cbn. f_equal.
  apply list_eq. intros i. rewrite !list_lookup_fmap. destruct (decide (i = c)) as [->|Hne].
  - rewrite list_lookup_alter_eq. destruct (KeProcessorList s !! c); cbn; by rewrite ?Hf.
  - by rewrite list_lookup_alter_ne.
Qed.

Lemma upd_thread_sfix t f s :
  (∀ T, sfix (f T) = sfix T) → without_sched (upd_thread t f s) = without_sched s.
Proof.
  intros Hf. unfold without_sched, upd_thread, set_Threads. cbn. f_equal. by apply fmap_alter_id.
Qed.

(** A thread is taken out of the queue that it heads. *)
Lemma take_got cpu c k t q p s :
  schedulable cpu s → KeProcessorList s !! c = Some p → ExecQueue p !! k = Some (t :: q) →
  c = cpu ∨ k ≠ 0%nat →
  ∃ s1, KiCheckOverloadedExecQueues (upd_prcb c (λ p, set_ThreadsOnQueueCount (ThreadsOnQueueCount p - 1)
      (set_queue (Z.of_nat k) q p)) s) = Ok s1 ∧
    got cpu (Some t) s (upd_thread t (λ T, set_PriorityBoost 0 (set_Priority (BasePriority T) T))
      (match q with [] => upd_prcb c (clear_bit (Z.of_nat k)) s1 | _ => s1 end)).
Proof.
  intros Hsc Hp Hq Hck. pose proof (sc_sched _ _ Hsc) as Hs.
  destruct (si_queued _ _ Hs c k t) as (T & HT & Hr & Hpr); [exists p, (t :: q); set_solver|].
  pose proof (si_thread _ _ Hs t T HT) as (Hb & Hmax & Hlp).
  set (s0 := upd_prcb c _ s).
  destruct (check_overloaded_spec s0 (sc_lock _ _ Hsc)) as (a & b & -> & Hab). eexists. split; [done|].
  set (s1 := set_KiMoreAggressiveWorkStealing a (set_KiMostCrowdedProcessor b s0)).
  set (f := λ p, match q with [] => clear_bit (Z.of_nat k) p | _ => p end).
  set (p' := f (set_ThreadsOnQueueCount (ThreadsOnQueueCount p - 1) (set_queue (Z.of_nat k) q p))).
  assert (match q with [] => upd_prcb c (clear_bit (Z.of_nat k)) s1 | _ => s1 end = upd_prcb c f s1) as ->.
  { unfold f. destruct q; [done|]. unfold upd_prcb. rewrite (list_alter_id (λ p, p)) by done. by destruct s1. }
  assert (KeProcessorList (upd_prcb c f s1) = <[c := p']> (KeProcessorList s)) as Hpr'.
  { assert (KeProcessorList s1 = <[c := set_ThreadsOnQueueCount (ThreadsOnQueueCount p - 1)
      (set_queue (Z.of_nat k) q p)]> (KeProcessorList s)) as H1.
    { change (KeProcessorList s1) with (KeProcessorList s0). unfold s0. by rewrite (upd_prcb_insert _ _ _ p). }
    assert (c < length (KeProcessorList s))%nat by by eapply lookup_lt_Some.
    erewrite upd_prcb_insert; [|rewrite H1; by apply list_lookup_insert_eq].
    rewrite H1. by rewrite list_insert_insert_eq. }
  assert (length (KeProcessorList s0) = length (KeProcessorList s)) as Hlen0 by (unfold s0; apply length_alter).
  split.
  - rewrite upd_thread_sfix by done. rewrite upd_prcb_pfix by (unfold f; by destruct q).
    transitivity (without_sched s0); [done|]. by apply upd_prcb_pfix.
  - split; cbn; rewrite length_alter; [unfold s0; cbn; rewrite length_alter; apply (sc_steal _ _ Hsc)|exact Hab].
  - intros t' T1 T2 HT1. change (Threads (upd_thread t ?f (upd_prcb c ?g s1))) with (Threads (upd_thread t f s)).
    rewrite (upd_thread_insert _ _ _ _ HT). destruct (decide (t' = t)) as [->|Hne].
    + rewrite lookup_insert_eq. intros [= <-]. by right.
    + rewrite lookup_insert_ne by done. intros. left. congruence.
  - intros c' k' t' Hck' Hin'.
    change (KeProcessorList (upd_thread t _ (upd_prcb c f s1))) with (KeProcessorList (upd_prcb c f s1)).
    rewrite Hpr'.
    assert (in_queue (KeProcessorList s) c k t) as Hin by (exists p, (t :: q); set_solver).
    destruct (decide (t' = t)) as [->|Hne].
    + destruct (si_once _ _ Hs _ _ _ _ _ Hin Hin') as [-> ->]. left. split; [done|]. by destruct Hck, Hck'.
    + right. apply (in_queue_insert _ _ p); [done|]. destruct (decide (c' = c)) as [->|]; [|by right]. left.
      split; [done|]. destruct Hin' as (p0 & q0 & Hp0 & Hq0 & Hin0). rewrite Hp in Hp0. injection Hp0 as <-.
      assert (ExecQueue p' = <[k := q]> (ExecQueue p)) as -> by (unfold p', f; cbn; destruct q; cbn; by rewrite Nat2Z.id).
      destruct (decide (k' = k)) as [->|Hnk].
      * rewrite list_lookup_insert_eq by by eapply lookup_lt_Some. exists q. split; [done|].
        rewrite Hq in Hq0. injection Hq0 as <-. set_solver.
      * rewrite list_lookup_insert_ne by done. eauto.
  - set (T' := set_PriorityBoost 0 (set_Priority (BasePriority T) T)). exists T, T'. split; [done|]. split; [done|].
    change (Threads (upd_thread t ?f (upd_prcb c ?g s1))) with (Threads (upd_thread t f s)).
    change (KeProcessorList (upd_thread t ?h (upd_prcb c f s1))) with (KeProcessorList (upd_prcb c f s1)).
    rewrite Hpr', (upd_thread_insert _ _ _ _ HT). split; [apply lookup_insert_eq|]. split; [done|].
    rewrite insert_insert_eq. eapply sched_dequeue; try done; cbn; try lia.
    + unfold p', f. cbn. destruct q; cbn; by rewrite Nat2Z.id.
    + unfold p', f. by destruct q.
Qed.

(** The loop takes the first thread of the highest queue that has one, but
    for a thread of another processor that may not be stolen. *)
Lemma pop_loop_spec n cpu c Min Other p s :
  schedulable cpu s → KeProcessorList s !! c = Some p → (n <= PRIORITY_COUNT)%nat → 0 ≤ Min →
  c = cpu ∨ 0 < Min →
  ∃ r s', pop_loop n cpu c Min Other s = Ok (r, s') ∧ got cpu r s s' ∧
    match r with
    | None => s' = s ∧ (Other = false → ∀ k, Min ≤ Z.of_nat k → (k < n)%nat → ExecQueue p !! k = Some [])
    | Some t => ∃ k q, Min ≤ Z.of_nat k ∧ (k < n)%nat ∧ ExecQueue p !! k = Some (t :: q) ∧
        ∀ k', (k < k')%nat → (k' < n)%nat → ExecQueue p !! k' = Some []
    end.
Proof.
  intros Hsc Hp Hn Hmin Hc. pose proof (sc_sched _ _ Hsc) as Hs.
  induction n as [|n IH]; cbn [pop_loop].
  { exists None, s. split; [done|]. split; [by apply got_refl|]. split; [done|]. intros; lia. }
  destruct (Z.ltb_spec (Z.of_nat n) Min) as [Hlt|Hge].
  { exists None, s. split; [done|]. split; [by apply got_refl|]. split; [done|]. intros; lia. }
  rewrite (proj2 (prcb_Ok s c p) Hp). cbn [mbind outcome_bind]. unfold queue.
  rewrite (proj2 (Z.leb_le _ _)), Nat2Z.id by lia.
  assert (is_Some (ExecQueue p !! n)) as [q Hq].
  { apply lookup_lt_is_Some. rewrite (si_queues _ _ Hs c p Hp). lia. }
  rewrite Hq. cbn [deref mbind outcome_bind]. destruct q as [|t q].
  { destruct (IH ltac:(lia)) as (r & s' & -> & Hg & Hr). exists r, s'. split; [done|]. split; [done|].
    destruct r as [t|].
    - destruct Hr as (k & q & ? & ? & ? & Habove). exists k, q. split_and!; try done; [lia|].
      intros k' ? ?. destruct (decide (k' = n)) as [->|]; [done|]. apply Habove; lia.
    - destruct Hr as [-> Hr]. split; [done|]. intros Ho k ? ?. destruct (decide (k = n)) as [->|]; [done|].
      apply Hr; [done|done|lia]. }
  destruct (si_queued _ _ Hs c n t) as (T & HT & Hr & Hpr); [exists p, (t :: q); set_solver|].
  rewrite (proj2 (thread_Ok s t T) HT). cbn [mbind outcome_bind].
  rewrite (sc_unpinned _ _ Hsc t T cpu HT (sc_cpu _ _ Hsc)). cbn [negb].
  destruct (DontSteal T && Other) eqn:Hds.
  { exists None, s. split; [done|]. split; [by apply got_refl|]. split; [done|]. intros ->.
    by rewrite andb_false_r in Hds. }
  destruct (take_got cpu c n t q p s Hsc Hp Hq) as (s1 & -> & Hg); [destruct Hc; [by left|right; lia]|].
  cbn [mbind outcome_bind]. exists (Some t). eexists. split; [done|]. split; [exact Hg|].
  exists n, q. split_and!; try done; [lia|]. intros; lia.
Qed.

(** ** Stealing *)

Lemma next_victim_spec cpu s :
  schedulable cpu s →
  ∃ c s', KepGetNextProcessorToStealWorkFrom s = Ok (c, s') ∧ (c < length (KeProcessorList s))%nat ∧
    got cpu None s s' ∧
    (KiMoreAggressiveWorkStealing s = true → s' = s ∧ KiMostCrowdedProcessor s = Some c).
Proof.
  intros Hsc. unfold KepGetNextProcessorToStealWorkFrom, KiAssertOwnDispatcherLock.
  rewrite (sc_lock _ _ Hsc). cbn [check mbind outcome_bind]. pose proof (sc_steal _ _ Hsc) as [Hn Hm].
  destruct (KiMoreAggressiveWorkStealing s) eqn:E.
  - destruct (Hm eq_refl) as (c & Hc & Hlt). rewrite Hc. exists c, s. split; [done|]. split; [done|].
    split; [by apply got_refl|done].
  - eexists _, _. split; [done|]. split; [done|]. split; [|done]. split.
    + done.
    + split; [|cbn; congruence].
      destruct (Nat.eqb_spec (S (KepNextProcessorToStealWorkFrom s)) (length (KeProcessorList s))); cbn; lia.
    + intros. left. cbn in *. congruence.
    + by right.
    + apply Hsc.
Qed.

Lemma pop_spec cpu c Min Other s :
  schedulable cpu s → (c < length (KeProcessorList s))%nat → 0 ≤ Min → c = cpu ∨ 0 < Min →
  ∃ r s', KepPopNextThreadIfNeeded cpu c Min Other s = Ok (r, s') ∧ got cpu r s s' ∧
    (Other = false → r = None → ∀ k t, Min ≤ Z.of_nat k → ¬ in_queue (KeProcessorList s) c k t).
Proof.
  intros Hsc Hc Hmin Hck. apply lookup_lt_is_Some in Hc as [p Hp]. unfold KepPopNextThreadIfNeeded.
  rewrite (proj2 (prcb_Ok s c p) Hp). cbn [mbind outcome_bind].
  destruct (Other && _) eqn:H1.
  { exists None, s. split; [done|]. split; [by apply got_refl|]. intros ->. done. }
  destruct (Other && (Min =? 0)) eqn:H2.
  { exists None, s. split; [done|]. split; [by apply got_refl|]. intros ->. done. }
  destruct (pop_loop_spec PRIORITY_COUNT cpu c Min Other p s Hsc Hp) as (r & s' & Hr & Hg & Hd); try done.
  exists r, s'. split; [done|]. split; [done|]. intros Ho -> k t Hk (p0 & q & Hp0 & Hq & Hin).
  rewrite Hp in Hp0. injection Hp0 as <-. destruct Hd as [_ Hd]. rewrite Hd in Hq.
  - injection Hq as <-. by apply not_elem_of_nil in Hin.
  - done.
  - done.
  - rewrite <-(si_queues _ _ (sc_sched _ _ Hsc) c p Hp). by eapply lookup_lt_Some.
Qed.

Lemma try_steal_spec cpu Min s :
  schedulable cpu s → 0 ≤ Min →
  ∃ r s', KepTryStealThread cpu Min s = Ok (r, s') ∧ got cpu r s s'.
Proof.
  intros Hsc Hmin. destruct (next_victim_spec cpu s Hsc) as (c & s1 & H1 & Hc & Hg & _).
  unfold KepTryStealThread. rewrite H1. cbn [mbind outcome_bind].
  destruct (pop_spec cpu c (Min + 1) true s1) as (r & s2 & Hr & Hg2 & _).
  - by eapply got_schedulable.
  - rewrite (without_sched_length s s1); [done|apply Hg].
  - lia.
  - right. lia.
  - exists r, s2. split; [done|]. by eapply got_trans.
Qed.

Lemma queue_Ok p k q : ExecQueue p !! k = Some q → queue p (Z.of_nat k) = Ok q.
Proof.
  intros Hq. unfold queue. rewrite (proj2 (Z.leb_le _ _)) by lia. by rewrite Nat2Z.id, Hq.
Qed.

(** One thread moves from the queue of processor [c] to that of [cpu]. *)
Lemma steal_one cpu c k t q p s :
  schedulable cpu s → c ≠ cpu → k ≠ 0%nat → KeProcessorList s !! c = Some p →
  ExecQueue p !! k = Some (t :: q) →
  ∃ s', got cpu None s s' ∧
    ∀ n, steal_loop (S n) cpu c (Z.of_nat k) s = steal_loop n cpu c (Z.of_nat k) s'.
Proof.
  intros Hsc Hne Hk Hp Hq. pose proof (sc_sched _ _ Hsc) as Hs.
  pose proof (sc_cpu _ _ Hsc) as Hcpu. apply lookup_lt_is_Some in Hcpu as Hpc. destruct Hpc as [pc Hpc].
  assert (c < length (KeProcessorList s))%nat as Hc by by eapply lookup_lt_Some.
  assert (k < PRIORITY_COUNT)%nat as Hk32 by (rewrite <-(si_queues _ _ Hs c p Hp); by eapply lookup_lt_Some).
  assert (is_Some (ExecQueue pc !! k)) as [qc Hqc].
  { apply lookup_lt_is_Some. by rewrite (si_queues _ _ Hs cpu pc Hpc). }
  destruct (si_queued _ _ Hs c k t) as (T & HT & Hr & Hpr); [exists p, (t :: q); set_solver|].
  pose proof (si_thread _ _ Hs t T HT) as (Hb & Hmax & Hlp).
  set (P := Z.of_nat k). assert (Z.to_nat P = k) as HPk by apply Nat2Z.id.
  assert (0 <=? P = true) as HP0 by (apply Z.leb_le; lia).
  set (f := λ p, match q with [] => clear_bit P p | _ => p end).
  set (p1 := set_queue P q p). set (pc1 := set_queue P (qc ++ [t]) pc).
  set (p' := set_ThreadsOnQueueCount (ThreadsOnQueueCount (f p1) - 1) (f p1)).
  set (pc' := set_ThreadsOnQueueCount (ThreadsOnQueueCount (set_bit P pc1) + 1) (set_bit P pc1)).
  set (s' := set_Threads (alter (set_EntryQueueIsSelf false) t (Threads s))
     (set_KeProcessorList (<[cpu := pc']> (<[c := p']> (KeProcessorList s))) s)).
  exists s'. split.
  - split.
    + unfold without_sched, s', set_Threads, set_KeProcessorList. cbn. f_equal; [by apply fmap_alter_id|].
      rewrite !list_fmap_insert. apply list_eq. intros i.
      destruct (decide (i = cpu)) as [->|Hi];
        [rewrite list_lookup_insert_eq, list_lookup_fmap, Hpc by (rewrite length_insert, length_fmap; done); done|].
      rewrite list_lookup_insert_ne by done. destruct (decide (i = c)) as [->|Hi'];
        [rewrite list_lookup_insert_eq, list_lookup_fmap, Hp by (rewrite length_fmap; done)|by rewrite list_lookup_insert_ne].
      cbn. f_equal. unfold p', f, p1. by destruct q.
    + unfold steal_ok, s'. cbn. rewrite !length_insert. apply Hsc.
    + intros t' T1 T2 HT1 HT2. left. unfold s' in HT2. cbn in HT2. destruct (decide (t' = t)) as [->|Hnt].
      * rewrite lookup_alter_eq, HT1 in HT2. by injection HT2 as <-.
      * rewrite lookup_alter_ne in HT2 by done. congruence.
    + intros c' k' t' Hck Hin. right. cbn.
      assert (<[c := p']> (KeProcessorList s) !! cpu = Some pc) as Hpc' by (by rewrite list_lookup_insert_ne).
      apply (in_queue_insert _ _ pc); [done|]. destruct (decide (c' = cpu)) as [->|Hnc].
      * left. split; [done|]. destruct Hin as (p0 & q0 & Hp0 & Hq0 & Hin). rewrite Hpc in Hp0. injection Hp0 as <-.
        cbn. rewrite HPk. destruct (decide (k' = k)) as [->|].
        -- rewrite list_lookup_insert_eq by by eapply lookup_lt_Some. eexists. split; [done|].
           rewrite Hqc in Hq0. injection Hq0 as <-. set_solver.
        -- rewrite list_lookup_insert_ne by done. eauto.
      * right. split; [done|]. destruct Hck as [?| ->]; [done|]. apply (in_queue_insert _ _ p); [done|].
        destruct (decide (c' = c)) as [->|]; [|by right]. left. split; [done|].
        destruct Hin as (p0 & q0 & Hp0 & Hq0 & Hin). rewrite Hp in Hp0. injection Hp0 as <-.
        exists q0. split; [|done]. unfold p', f, p1. destruct q; cbn; by rewrite HPk, list_lookup_insert_ne.
    + cbn. rewrite (upd_thread_insert t _ s T HT : alter _ _ _ = _).
      rewrite <-(insert_insert_eq (Threads s) t (set_EntryQueueIsSelf false T) (set_Status KTHREAD_STATUS_RUNNING T)).
      eapply (sched_enqueue _ _ cpu pc k qc (qc ++ [t])); try done; cbn; try lia.
      * eapply (sched_dequeue _ _ c p k t q); try done; cbn; try lia.
        -- unfold p', f, p1. destruct q; cbn; by rewrite HPk.
        -- unfold p', f, p1. by destruct q.
      * by rewrite list_lookup_insert_ne.
      * by rewrite lookup_insert_eq.
      * done.
      * by rewrite length_insert.
      * by left.
      * by rewrite HPk.
  - intros n. cbn [steal_loop]. rewrite (proj2 (prcb_Ok s c p) Hp). cbn [mbind outcome_bind].
    fold P. rewrite (queue_Ok p k _ Hq : queue p P = _). cbn [mbind outcome_bind]. unfold enqueue_thread.
    assert (KeProcessorList (upd_prcb c (set_queue P q) s) = <[c := p1]> (KeProcessorList s)) as H1
      by (by rewrite (upd_prcb_insert _ _ _ p)).
    rewrite (proj2 (prcb_Ok _ cpu pc)) by (rewrite H1; by rewrite list_lookup_insert_ne).
    cbn [mbind outcome_bind]. rewrite (queue_Ok pc k _ Hqc : queue pc P = _). cbn [mbind outcome_bind].
    set (s2 := upd_thread t _ _).
    assert (KeProcessorList s2 = <[cpu := pc1]> (<[c := p1]> (KeProcessorList s))) as H2.
    { unfold s2. change (KeProcessorList (upd_thread t _ ?x)) with (KeProcessorList x).
      erewrite upd_prcb_insert; [by rewrite H1|]. rewrite H1. by rewrite list_lookup_insert_ne. }
    rewrite (proj2 (prcb_Ok s2 c p1)) by
      (rewrite H2, list_lookup_insert_ne by done; by apply list_lookup_insert_eq).
    cbn [mbind outcome_bind]. rewrite (queue_Ok p1 k q : _ → queue p1 P = _) by
      (unfold p1; cbn; rewrite HPk, list_lookup_insert_eq; [done|by eapply lookup_lt_Some]).
    cbn [mbind outcome_bind]. f_equal.
    assert (match q with [] => upd_prcb c (clear_bit P) s2 | _ => s2 end = upd_prcb c f s2) as ->.
    { unfold f. destruct q; [done|]. unfold upd_prcb. rewrite (list_alter_id (λ p, p)) by done. by destruct s2. }
    set (s6 := upd_prcb cpu _ _).
    assert (KeProcessorList s6 = KeProcessorList s') as H6.
    { unfold s6, upd_prcb. cbn [KeProcessorList set_KeProcessorList]. rewrite H2. apply list_eq. intros i.
      cbn. destruct (decide (i = cpu)) as [->|Hi].
      - rewrite list_lookup_alter_eq, list_lookup_alter_ne, list_lookup_alter_eq, list_lookup_alter_ne by done.
        rewrite !list_lookup_insert_eq by by rewrite length_insert. done.
      - rewrite (list_lookup_alter_ne _ _ cpu), list_lookup_insert_ne by done.
        destruct (decide (i = c)) as [->|Hi'].
        + rewrite list_lookup_alter_eq, list_lookup_alter_ne, list_lookup_alter_eq by done.
          rewrite list_lookup_insert_ne, !list_lookup_insert_eq by done. done.
        + rewrite list_lookup_alter_ne, list_lookup_alter_ne, list_lookup_alter_ne by done.
          by rewrite !list_lookup_insert_ne. }
    change (s6 = s'). transitivity (set_KeProcessorList (KeProcessorList s6) s6); [by destruct s6|].
    by rewrite H6.
Qed.

Lemma steal_loop_spec n cpu c k s :
  schedulable cpu s → c ≠ cpu → (c < length (KeProcessorList s))%nat → k ≠ 0%nat → (k < PRIORITY_COUNT)%nat →
  ∃ m s', steal_loop n cpu c (Z.of_nat k) s = Ok (m, s') ∧ got cpu None s s'.
Proof.
  revert s. induction n as [|n IH]; intros s Hsc Hne Hc Hk Hk32.
  { exists 0%nat, s. split; [done|by apply got_refl]. }
  apply lookup_lt_is_Some in Hc as [p Hp].
  assert (is_Some (ExecQueue p !! k)) as [q Hq].
  { apply lookup_lt_is_Some. by rewrite (si_queues _ _ (sc_sched _ _ Hsc) c p Hp). }
  destruct q as [|t q].
  - exists (S n), s. split; [|by apply got_refl]. cbn [steal_loop].
    rewrite (proj2 (prcb_Ok s c p) Hp). cbn [mbind outcome_bind].
    by rewrite (queue_Ok p k _ Hq).
  - destruct (steal_one cpu c k t q p s Hsc Hne Hk Hp Hq) as (s1 & Hg & Hstep). rewrite Hstep.
    destruct (IH s1) as (m & s2 & Hr & Hg2); try done.
    + by eapply got_schedulable.
    + rewrite (without_sched_length s s1); [by eapply lookup_lt_Some|apply Hg].
    + exists m, s2. split; [done|]. by eapply got_trans.
Qed.

Lemma steal_priorities_spec i n cpu c s :
  schedulable cpu s → c ≠ cpu → (c < length (KeProcessorList s))%nat → (i < PRIORITY_COUNT)%nat →
  ∃ s', steal_priorities i n cpu c s = Ok s' ∧ got cpu None s s'.
Proof.
  revert n s. induction i as [|i IH]; intros n s Hsc Hne Hc Hi.
  { exists s. split; [done|by apply got_refl]. }
  cbn [steal_priorities]. destruct (steal_loop_spec n cpu c (S i) s Hsc Hne Hc) as (m & s1 & -> & Hg); try done.
  cbn [mbind outcome_bind]. destruct (IH m s1) as (s2 & Hr & Hg2); try done.
  - by eapply got_schedulable.
  - by rewrite (without_sched_length s s1) by apply Hg.
  - lia.
  - exists s2. split; [done|]. by eapply got_trans.
Qed.

(** The choice always succeeds, and it gives a thread when it may downgrade
    and the processor has any in its queues. *)
Lemma next_thread_spec cpu MayDowngrade s :
  schedulable cpu s → current_ok (KeProcessorList s) (Threads s) →
  ∃ r s', KiGetNextThread cpu MayDowngrade s = Ok (r, s') ∧ got cpu r s s' ∧
    (MayDowngrade = true → (∃ k t, in_queue (KeProcessorList s) cpu k t) → r ≠ None).
Proof.
  intros Hsc Hcur. pose proof (sc_cpu _ _ Hsc) as Hcpu. apply lookup_lt_is_Some in Hcpu as Hp.
  destruct Hp as [p Hp]. destruct (Hcur cpu p Hp) as (c0 & C & Hc0 & HC).
  pose proof (si_thread _ _ (sc_sched _ _ Hsc) c0 C HC) as (Hb & _ & _).
  unfold KiGetNextThread, KiAssertOwnDispatcherLock. rewrite (sc_lock _ _ Hsc).
  cbn [check mbind outcome_bind]. rewrite (proj2 (prcb_Ok s cpu p) Hp). cbn [mbind outcome_bind].
  rewrite Hc0, (proj2 (thread_Ok s c0 C) HC). cbn [mbind outcome_bind].
  set (Min := BasePriority C) in *.
  assert (∃ s1, (if KiMoreAggressiveWorkStealing s then
         '(c, s) ← KepGetNextProcessorToStealWorkFrom s;
         if (c =? cpu)%nat then Ok s else KepStealManyThreads cpu s
       else Ok s) = Ok s1 ∧ got cpu None s s1) as (s1 & -> & Hg1).
  { destruct (KiMoreAggressiveWorkStealing s) eqn:Hm; [|exists s; split; [done|by apply got_refl]].
    destruct (next_victim_spec cpu s Hsc) as (c & s1 & H1 & Hc & Hg & Hsame). destruct (Hsame Hm) as [-> _].
    rewrite H1. cbn [mbind outcome_bind]. destruct (Nat.eqb_spec c cpu) as [|Hne]; [eauto|].
    unfold KepStealManyThreads, KiAssertOwnDispatcherLock. rewrite (sc_lock _ _ Hsc).
    cbn [check mbind outcome_bind]. rewrite H1. cbn [mbind outcome_bind].
    apply lookup_lt_is_Some in Hc as Hpc. destruct Hpc as [pc Hpc].
    rewrite (proj2 (prcb_Ok s c pc) Hpc). cbn [mbind outcome_bind].
    apply steal_priorities_spec; try done. unfold PRIORITY_COUNT. lia. }
  cbn [mbind outcome_bind]. pose proof (got_schedulable _ _ _ Hsc Hg1) as Hsc1.
  assert (∀ Min s, schedulable cpu s → 0 ≤ Min →
    ∃ r s', KepPopNextThreadIfNeeded cpu cpu Min false s = Ok (r, s') ∧ got cpu r s s') as Hpop.
  { intros M s0 Hs0 HM. destruct (pop_spec cpu cpu M false s0 Hs0 (sc_cpu _ _ Hs0) HM) as (r & s' & ? & ? & _); eauto. }
  assert (∀ s0, schedulable cpu s0 → (∃ k t, in_queue (KeProcessorList s0) cpu k t) →
    ∃ t s', KepPopNextThreadIfNeeded cpu cpu 0 false s0 = Ok (Some t, s') ∧ got cpu (Some t) s0 s') as Hany.
  { intros s0 Hs0 (k & t & Hin). destruct (pop_spec cpu cpu 0 false s0 Hs0 (sc_cpu _ _ Hs0)) as (r & s' & Hr & Hg & Hn).
    - done.
    - by left.
    - destruct r as [t'|]; [eauto|]. exfalso. apply (Hn eq_refl eq_refl k t); [lia|done]. }
  assert (∀ s0, got cpu None s s0 → (∃ k t, in_queue (KeProcessorList s) cpu k t) →
    ∃ k t, in_queue (KeProcessorList s0) cpu k t) as Hkeep.
  { intros s0 Hg (k & t & Hin). exists k, t. by destruct (gt_keep _ _ _ _ Hg cpu k t ltac:(by left) Hin) as [[? _]|]. }
  (* every alternative but the last *)
  assert (∀ m k s0, schedulable cpu s0 → got cpu None s s0 →
    (∃ r s', m s0 = Ok (r, s') ∧ got cpu r s0 s') →
    (∀ s0, schedulable cpu s0 → got cpu None s s0 → ∃ r s', k s0 = Ok (r, s') ∧ got cpu r s s' ∧
       (MayDowngrade = true → (∃ k t, in_queue (KeProcessorList s) cpu k t) → r ≠ None)) →
    ∃ r s', or_else m k s0 = Ok (r, s') ∧ got cpu r s s' ∧
       (MayDowngrade = true → (∃ k t, in_queue (KeProcessorList s) cpu k t) → r ≠ None)) as Hchain.
  { intros m k s0 Hs0 Hg0 (r & s2 & H2 & Hg2) Hk. unfold or_else. rewrite H2. cbn [mbind outcome_bind].
    pose proof (got_trans _ _ _ _ _ Hg0 Hg2) as Hg. destruct r as [t|]; [eauto 6|]. apply Hk; [|done].
    by eapply got_schedulable. }
  apply Hchain; [done|done|apply Hpop; [done|lia]|]. intros s2 Hs2 Hg2.
  apply Hchain; [done|done|apply try_steal_spec; [done|lia]|]. intros s3 Hs3 Hg3.
  apply Hchain; [done|done|apply Hpop; [done|lia]|]. intros s4 Hs4 Hg4.
  apply Hchain; [done|done|apply try_steal_spec; [done|lia]|]. intros s5 Hs5 Hg5.
  destruct MayDowngrade; cbn [negb]; [|exists None, s5; split_and!; done].
  apply Hchain; [done|done|apply try_steal_spec; [done|lia]|]. intros s6 Hs6 Hg6.
  destruct (Hpop 0 s6 Hs6 ltac:(lia)) as (r & s7 & Hr & Hg7). exists r, s7. split; [done|].
  split; [by eapply got_trans|]. intros _ Hex. destruct (Hany s6 Hs6 (Hkeep s6 Hg6 Hex)) as (t & s8 & H8 & _).
  rewrite H8 in Hr. by injection Hr as <- <-.
Qed.

(** ** Who runs where *)

Definition runs (s : KERNEL) (c t : nat) : Prop :=
  ∃ p, KeProcessorList s !! c = Some p ∧ CurrentThread p = Some t.

(** Between two steps a thread runs on one processor at most, and the current
    threads of the processors outside of [skip], with those of [left], are the
    running ones. *)
Record running_ok (skip left : nat → Prop) (s : KERNEL) : Prop := {
  ro_next c p : ¬ skip c → KeProcessorList s !! c = Some p → NextThread p = None;
  ro_current c t : ¬ skip c → runs s c t →
    ∃ T, Threads s !! t = Some T ∧ Status T = KTHREAD_STATUS_RUNNING;
  ro_once c c' t : ¬ skip c → ¬ skip c' → runs s c t → runs s c' t → c = c';
  ro_running t T : Threads s !! t = Some T → Status T = KTHREAD_STATUS_RUNNING →
    left t ∨ ∃ c, ¬ skip c ∧ runs s c t }.

(** Every processor has its idle thread, running or queued. *)
Definition idle_ok (s : KERNEL) : Prop :=
  ∀ c, (c < length (KeProcessorList s))%nat → ∃ t T, Threads s !! t = Some T ∧
    BasePriority T = PRIORITY_IDLE ∧ Suspended T = false ∧
    (in_queue (KeProcessorList s) c 0 t ∨ runs s c t ∧ Priority T = PRIORITY_IDLE).

Record run_ok (skip : nat → Prop) (s : KERNEL) : Prop := {
  rn_kernel : kernel_ok s;
  rn_unpinned : unpinned s;
  rn_steal : steal_ok s;
  rn_idle : idle_ok s;
  rn_running : running_ok skip (λ _, False) s }.

(** Which DPCs there are. *)
Definition blank_dpc (D : KDPC) : KDPC := mkDpc OtherRoutine false false false.

(** What a switch leaves alone for the dispatcher. *)
Record switched (s s' : KERNEL) : Prop := {
  sw_dobj : dobj s' = dobj s;
  sw_dthr : dthr s' = dthr s;
  sw_dpcs : blank_dpc <$> Dpcs s' = blank_dpc <$> Dpcs s;
  sw_ticks : TickCount s' = TickCount s;
  sw_freq : TickFrequency s' = TickFrequency s;
  sw_timers : timers_step s s';
  sw_fixed : fixed <$> Threads s' = fixed <$> Threads s }.

#[export] Instance switched_preorder : PreOrder switched.
Proof.
  split; [by split|]. intros x y z [? ? ? ? ? ? ?] [? ? ? ? ? ? ?].
  split; try congruence. by etransitivity.
Qed.

(** The bookkeeping of quanta and the DPC queues, which the invariants do not
    look at. *)
Definition tquiet (T : KTHREAD) : KTHREAD :=
  set_TickScheduledAt 0 (set_ThreadQuantumUntil 0 (set_DontSteal false T)).
Definition pquiet (p : KPRCB) : KPRCB :=
  set_DpcQueue [] (set_TicksSpentNonIdle 0 (set_QuantumUntil 0 (set_PendingSoftInterrupts 0 p))).
Definition without_quanta (s : KERNEL) : KERNEL :=
  set_Dpcs (blank_dpc <$> Dpcs s) (set_Threads (tquiet <$> Threads s) (set_KeProcessorList (pquiet <$> KeProcessorList s) s)).

Definition quiet (s s' : KERNEL) : Prop := without_quanta s' = without_quanta s.

#[export] Instance quiet_equivalence : Equivalence quiet.
Proof. unfold quiet. split; [by intros x|by intros x y|]. intros x y z H1 H2. congruence. Qed.

Lemma quiet_fields s s' :
  quiet s s' → Objects s' = Objects s ∧ blank_dpc <$> Dpcs s' = blank_dpc <$> Dpcs s ∧ KiDispatcherLock s' = KiDispatcherLock s ∧
  TickCount s' = TickCount s ∧ steal_globals s' = steal_globals s ∧
  tquiet <$> Threads s' = tquiet <$> Threads s ∧ pquiet <$> KeProcessorList s' = pquiet <$> KeProcessorList s.
Proof.
  intros H. split_and!; [by apply (f_equal Objects) in H|by apply (f_equal Dpcs) in H
    |by apply (f_equal KiDispatcherLock) in H|by apply (f_equal TickCount) in H
    |by apply (f_equal steal_globals) in H|by apply (f_equal Threads) in H
    |by apply (f_equal KeProcessorList) in H].
Qed.

Lemma quiet_prcb c f s : (∀ p, pquiet (f p) = pquiet p) → quiet s (upd_prcb c f s).
Proof.
  intros Hf. unfold quiet, without_quanta, upd_prcb, set_KeProcessorList, set_Threads, set_Dpcs. cbn. f_equal.
  apply list_eq. intros i. rewrite !list_lookup_fmap. destruct (decide (i = c)) as [->|Hne].
  - rewrite list_lookup_alter_eq. destruct (KeProcessorList s !! c); cbn; by rewrite ?Hf.
  - by rewrite list_lookup_alter_ne.
Qed.

Lemma quiet_thread t f s : (∀ T, tquiet (f T) = tquiet T) → quiet s (upd_thread t f s).
Proof.
  intros Hf. unfold quiet, without_quanta, upd_thread, set_Threads, set_Dpcs. cbn. f_equal. by apply fmap_alter_id.
Qed.

Lemma quiet_dpc d f s : quiet s (upd_dpc d f s).
Proof. unfold quiet, without_quanta, upd_dpc, set_Dpcs. cbn. f_equal. by apply fmap_alter_id. Qed.

Lemma quiet_thread_lookup s s' t T' :
  quiet s s' → Threads s' !! t = Some T' → ∃ T, Threads s !! t = Some T ∧ tquiet T' = tquiet T.
Proof. intros (_ & _ & _ & _ & _ & H & _)%quiet_fields HT. by eapply map_fmap_lookup_eq. Qed.

Lemma quiet_prcb_lookup s s' c p' :
  quiet s s' → KeProcessorList s' !! c = Some p' →
  ∃ p, KeProcessorList s !! c = Some p ∧ pquiet p' = pquiet p.
Proof. intros (_ & _ & _ & _ & _ & _ & H)%quiet_fields Hp. by eapply list_fmap_lookup_eq. Qed.

Lemma quiet_length s s' : quiet s s' → length (KeProcessorList s') = length (KeProcessorList s).
Proof.
  intros (_ & _ & _ & _ & _ & _ & H)%quiet_fields.
  by rewrite <-(length_fmap pquiet (KeProcessorList s')), H, length_fmap.
Qed.

Lemma quiet_timer s s' o : quiet s s' → timer s' o = timer s o.
Proof. intros (H & _)%quiet_fields. unfold timer, object. by rewrite H. Qed.

Lemma quiet_runs s s' c t : quiet s s' → runs s' c t → runs s c t.
Proof.
  intros H (p' & Hp' & Hc). destruct (quiet_prcb_lookup s s' c p' H Hp') as (p & Hp & E).
  apply (f_equal CurrentThread) in E. cbn in E. exists p. split; [done|]. congruence.
Qed.

Lemma quiet_pcore s s' : quiet s s' → pcore <$> KeProcessorList s' = pcore <$> KeProcessorList s.
Proof.
  intros (_ & _ & _ & _ & _ & _ & H)%quiet_fields. apply (f_equal (fmap pcore)) in H.
  by rewrite <-!list_fmap_compose in H.
Qed.

Lemma quiet_in_queue s s' c k t :
  quiet s s' → in_queue (KeProcessorList s) c k t → in_queue (KeProcessorList s') c k t.
Proof.
  intros H. apply in_queue_ext.
  pose proof (quiet_pcore s s' H) as Hp. apply (f_equal (fmap fst)) in Hp. by rewrite <-!list_fmap_compose in Hp.
Qed.

Lemma quiet_kernel_ok s s' : quiet s s' → kernel_ok s → kernel_ok s'.
Proof.
  intros H Hk. pose proof (quiet_fields s s' H) as (Ho & Hd & Hl & Ht & Hg & Hth & Hp). split.
  - rewrite Hl. apply Hk.
  - apply (sched_inv_ext (KeProcessorList s) _ (Threads s)); [by apply quiet_pcore| |apply Hk].
    apply (f_equal (fmap tcore)) in Hth. by rewrite <-!map_fmap_compose in Hth.
  - intros c p' Hp'. destruct (quiet_prcb_lookup s s' c p' H Hp') as (p & Hp0 & E).
    apply (f_equal CurrentThread) in E. cbn in E. destruct (ko_current s Hk c p Hp0) as (t & T & Hc & HT).
    exists t. destruct (map_fmap_lookup_eq _ _ _ _ _ (eq_sym Hth) HT) as (T' & HT' & _). exists T'.
    split; [congruence|done].
  - intros t T' HT'. destruct (quiet_thread_lookup s s' t T' H HT') as (T & HT & E).
    pose proof (f_equal WaitTimer E) as E1. pose proof (f_equal SleepTimer E) as E2. cbn in E1, E2.
    unfold dobj. rewrite E1, E2, Ho. by apply (ko_timers s Hk t T).
  - apply (timer_ok_ext s); [intros; by apply quiet_timer| |apply Hk].
    apply (f_equal (fmap TimerTree)) in Hp. by rewrite <-!list_fmap_compose in Hp.
Qed.

Lemma quiet_switched s s' : quiet s s' → switched s s'.
Proof.
  intros H. pose proof (quiet_fields s s' H) as (Ho & Hd & Hl & Ht & Hg & Hth & Hp). split.
  - unfold dobj. by rewrite Ho.
  - unfold dthr. apply (f_equal (fmap view_thread)) in Hth. by rewrite <-!map_fmap_compose in Hth.
  - done.
  - done.
  - by injection Hg.
  - apply timers_same. intros. by apply quiet_timer.
  - apply (f_equal (fmap fixed)) in Hth. by rewrite <-!map_fmap_compose in Hth.
Qed.

Lemma quiet_unpinned s s' : quiet s s' → unpinned s → unpinned s'.
Proof.
  intros H Hu t T c HT Hc. rewrite (quiet_length s s' H) in Hc.
  destruct (quiet_thread_lookup s s' t T H HT) as (T0 & HT0 & E). apply (f_equal Affinity) in E. cbn in E.
  rewrite E. by apply (Hu t T0 c).
Qed.

Lemma quiet_steal s s' : quiet s s' → steal_ok s → steal_ok s'.
Proof.
  intros H. pose proof (quiet_fields s s' H) as (_ & _ & _ & _ & [= H1 H2 H3 _] & _).
  unfold steal_ok. by rewrite H1, H2, H3, (quiet_length s s' H).
Qed.

Lemma quiet_run_ok skip s s' : quiet s s' → run_ok skip s → run_ok skip s'.
Proof.
  intros H [Hk Hu Hst Hi [R1 R2 R3 R4]].
  assert (quiet s' s) as H' by by symmetry. split.
  - by eapply quiet_kernel_ok.
  - by eapply quiet_unpinned.
  - by eapply quiet_steal.
  - intros c Hc. rewrite (quiet_length s s' H) in Hc. destruct (Hi c Hc) as (t & T & HT & Hb & Hsp & Hor).
    destruct (quiet_thread_lookup s' s t T H' HT) as (T' & HT' & E).
    pose proof (f_equal BasePriority E) as E1. pose proof (f_equal Priority E) as E2. cbn in E1, E2.
    apply (f_equal Suspended) in E. cbn in E.
    exists t, T'. split; [done|]. split; [congruence|]. split; [congruence|]. destruct Hor as [Hin|[Hr Hp]].
    + left. by eapply quiet_in_queue.
    + right. split; [by eapply quiet_runs|congruence].
  - split.
    + intros c p Hn Hp. destruct (quiet_prcb_lookup s s' c p H Hp) as (p0 & Hp0 & E).
      apply (f_equal NextThread) in E. cbn in E. rewrite E. by eapply R1.
    + intros c t Hn Hr. destruct (R2 c t Hn (quiet_runs s s' c t H Hr)) as (T & HT & Hs).
      destruct (quiet_thread_lookup s' s t T H' HT) as (T' & HT' & E). apply (f_equal Status) in E. cbn in E.
      exists T'. split; [done|congruence].
    + intros c c' t Hn Hn' Hr Hr'. by apply (R3 c c' t Hn Hn'); apply (quiet_runs s s').
    + intros t T' HT' Hs. destruct (quiet_thread_lookup s s' t T' H HT') as (T & HT & E).
      apply (f_equal Status) in E. cbn in E. destruct (R4 t T HT) as [[]|(c & Hn & Hr)]; [congruence|].
      right. exists c. split; [done|]. by apply (quiet_runs s' s).
Qed.

(** What [got] keeps besides the queues. *)
Lemma got_rest_spec s s' :
  without_sched s' = without_sched s →
  switched s s' ∧ (∀ c t, runs s' c t ↔ runs s c t) ∧ (∀ o, timer s' o = timer s o) ∧
  TimerTree <$> KeProcessorList s' = TimerTree <$> KeProcessorList s ∧
  (∀ c p', KeProcessorList s' !! c = Some p' → ∃ p, KeProcessorList s !! c = Some p ∧ NextThread p' = NextThread p).
Proof.
  intros H. pose proof (without_sched_fields s s' H) as (Ho & Hd & _ & Ht & Hf & Hth & Hp).
  assert (∀ o, timer s' o = timer s o) as Htm by (intros o; unfold timer, object; by rewrite Ho).
  split_and!.
  - split; try done.
    + unfold dobj. by rewrite Ho.
    + unfold dthr. apply (f_equal (fmap view_thread)) in Hth. by rewrite <-!map_fmap_compose in Hth.
    + by rewrite Hd.
    + by apply timers_same.
    + apply (f_equal (fmap fixed)) in Hth. by rewrite <-!map_fmap_compose in Hth.
  - intros c t. split; intros (p & Hc & Hcur).
    + destruct (list_fmap_lookup_eq _ _ _ _ _ Hp Hc) as (p0 & ? & E). apply (f_equal CurrentThread) in E.
      cbn in E. exists p0. split; [done|congruence].
    + destruct (list_fmap_lookup_eq _ _ _ _ _ (eq_sym Hp) Hc) as (p0 & ? & E). apply (f_equal CurrentThread) in E.
      cbn in E. exists p0. split; [done|congruence].
  - done.
  - apply (f_equal (fmap TimerTree)) in Hp. by rewrite <-!list_fmap_compose in Hp.
  - intros c p' Hc. destruct (list_fmap_lookup_eq _ _ _ _ _ Hp Hc) as (p0 & ? & E). exists p0.
    split; [done|]. by apply (f_equal NextThread) in E.
Qed.

(** About to switch processor [cpu] to thread [n], when the threads of [left]
    have not given it up yet. *)
Record leaving (cpu n : nat) (left : nat → Prop) (s : KERNEL) : Prop := {
  lv_lock : KiDispatcherLock s = true;
  lv_next : ∃ p, KeProcessorList s !! cpu = Some p ∧ NextThread p = Some n;
  lv_ready : ∃ N, Threads s !! n = Some N ∧ Status N = KTHREAD_STATUS_READY ∧
    Priority N = BasePriority N ∧
    sched_inv (KeProcessorList s) (<[n := set_Status KTHREAD_STATUS_RUNNING N]> (Threads s));
  lv_timers : thread_timers (dobj s) (Threads s);
  lv_trees : timer_ok s;
  lv_unpinned : unpinned s;
  lv_steal : steal_ok s;
  lv_running : running_ok (λ c, c = cpu) left s;
  lv_current : current_ok (KeProcessorList s) (Threads s);
  lv_idle c : (c < length (KeProcessorList s))%nat → ∃ t T, Threads s !! t = Some T ∧
    BasePriority T = PRIORITY_IDLE ∧ Suspended T = false ∧
    (in_queue (KeProcessorList s) c 0 t ∨ (runs s c t ∧ Priority T = PRIORITY_IDLE ∧ c ≠ cpu) ∨
      c = cpu ∧ (t = n ∨ left t ∧ Priority T = PRIORITY_IDLE)) }.

Lemma got_leaving cpu n left s s' :
  kernel_ok s → unpinned s → idle_ok s → running_ok (λ c, c = cpu) left s →
  got cpu (Some n) s s' → (cpu < length (KeProcessorList s))%nat →
  (∀ t T, runs s cpu t → Threads s !! t = Some T → BasePriority T = PRIORITY_IDLE → left t) →
  leaving cpu n left (upd_prcb cpu (set_NextThread (Some n)) s').
Proof.
  intros Hk Hu Hi Hro [Hrest Hst' Hprio Hkeep (N0 & N & HN0 & Hrd & HN & Hpn & Hs')] Hcpu Hni.
  pose proof (without_sched_fields s s' Hrest) as (Ho & Hd & Hl & Ht & Hf & Hth & Hpp).
  destruct (got_rest_spec s s' Hrest) as (Hsw & Hruns & Htm & Htr & Hnext).
  pose proof (without_sched_length s s' Hrest) as Hlen.
  set (s2 := upd_prcb cpu _ s').
  assert (∀ c p, KeProcessorList s2 !! c = Some p → ∃ p0, KeProcessorList s' !! c = Some p0 ∧
    (c = cpu ∨ p = p0) ∧ CurrentThread p = CurrentThread p0) as Hback.
  { intros c p [(Hne & ?)|(-> & p0 & ? & ->)]%prcb_upd; eauto 6. }
  assert (∀ c t, runs s2 c t → runs s c t) as Hruns2.
  { intros c t (p & Hp & Hc). apply Hruns. destruct (Hback c p Hp) as (p0 & Hp0 & _ & E). exists p0.
    split; [done|congruence]. }
  assert (∀ c t, runs s c t → runs s2 c t) as Hruns2'.
  { intros c t Hr. apply Hruns in Hr as (p0 & Hp0 & Hc).
    destruct (decide (c = cpu)) as [->|Hne].
    - eexists. split; [apply prcb_upd; right; eauto|done].
    - exists p0. split; [apply prcb_upd; by left|done]. }
  assert (∀ {B} (v : KPRCB → B), (∀ p, v (set_NextThread (Some n) p) = v p) →
    v <$> KeProcessorList s2 = v <$> KeProcessorList s') as Hview.
  { intros B v Hv. apply list_eq. intros c. rewrite !list_lookup_fmap. unfold s2, upd_prcb. cbn.
    destruct (decide (c = cpu)) as [->|Hne]; [|by rewrite list_lookup_alter_ne].
    rewrite list_lookup_alter_eq. destruct (KeProcessorList s' !! cpu); cbn; by rewrite ?Hv. }
  assert (∀ c k t, in_queue (KeProcessorList s') c k t → in_queue (KeProcessorList s2) c k t) as Hq.
  { intros c k t. apply in_queue_ext. by apply Hview. }
  assert (∀ t T', Threads s' !! t = Some T' → ∃ T, Threads s !! t = Some T ∧ sfix T' = sfix T) as Hthr.
  { intros t T'. by apply without_sched_thread. }
  split.
  - change (KiDispatcherLock s' = true). rewrite Hl. apply Hk.
  - rewrite <-Hlen in Hcpu. apply lookup_lt_is_Some in Hcpu as [p Hp]. eexists.
    split; [apply prcb_upd; right; eauto|done].
  - exists N. change (Threads s2) with (Threads s'). split_and!; try done.
    + destruct (Hthr n N HN) as (T & HT & E). apply (f_equal Status) in E. cbn in E. congruence.
    + eapply sched_inv_ext; [|done|exact Hs']. by apply Hview.
  - intros t T' HT'. destruct (Hthr t T' HT') as (T & HT & E).
    pose proof (f_equal WaitTimer E) as E1. pose proof (f_equal SleepTimer E) as E2. cbn in E1, E2.
    change (dobj s2) with (dobj s'). rewrite (sw_dobj _ _ Hsw), E1, E2. by apply (ko_timers s Hk t).
  - apply (timer_ok_ext s); [exact Htm| |apply Hk]. rewrite <-Htr. by apply Hview.
  - pose proof (unpinned_ext s s' Hrest Hu) as Hu'. intros t T c HT Hc. apply (Hu' t T c HT).
    revert Hc. unfold s2. cbn. by rewrite length_alter.
  - unfold steal_ok, s2. cbn. rewrite length_alter. exact Hst'.
  - destruct Hro as [R1 R2 R3 R4]. split.
    + intros c p Hne Hp. destruct (Hback c p Hp) as (p0 & Hp0 & [?| ->] & _); [done|].
      destruct (Hnext c p0 Hp0) as (p1 & Hp1 & ->). by apply (R1 c).
    + intros c t Hne Hr. destruct (R2 c t Hne (Hruns2 c t Hr)) as (T & HT & Hs).
      destruct (map_fmap_lookup_eq _ _ _ _ _ (eq_sym Hth) HT) as (T' & HT' & E). exists T'.
      split; [done|]. apply (f_equal Status) in E. cbn in E. congruence.
    + intros c c' t Hn Hn' Hr Hr'. by apply (R3 c c' t); [done|done|apply Hruns2|apply Hruns2].
    + intros t T' HT' Hs. destruct (Hthr t T' HT') as (T & HT & E). apply (f_equal Status) in E. cbn in E.
      destruct (R4 t T HT) as [?|(c & Hn & Hr)]; [congruence|by left|].
      right. exists c. split; [done|by apply Hruns2'].
  - intros c p Hp. destruct (Hback c p Hp) as (p0 & Hp0 & _ & E).
    destruct (list_fmap_lookup_eq _ _ _ _ _ Hpp Hp0) as (p1 & Hp1 & E1). apply (f_equal CurrentThread) in E1. cbn in E1.
    destruct (ko_current s Hk c p1 Hp1) as (t & T & Hc & HT).
    destruct (map_fmap_lookup_eq _ _ _ _ _ (eq_sym Hth) HT) as (T' & HT' & _). exists t, T'. split; [congruence|done].
  - intros c Hc. assert (c < length (KeProcessorList s))%nat as Hc'.
    { revert Hc. unfold s2. cbn. rewrite length_alter. lia. }
    destruct (Hi c Hc') as (t & T & HT & Hb & Hsp & Hor).
    destruct (map_fmap_lookup_eq _ _ _ _ _ (eq_sym Hth) HT) as (T' & HT' & E).
    assert (BasePriority T' = PRIORITY_IDLE) as Hb' by (apply (f_equal BasePriority) in E; cbn in E; congruence).
    apply (f_equal Suspended) in E. cbn in E.
    exists t, T'. split; [done|]. split; [done|]. split; [congruence|].
    destruct Hor as [Hin|[Hr Hp0]].
    + destruct (Hkeep c 0%nat t ltac:(by right) Hin) as [[[= ->] ->]|Hin'];
        [by right; right; split; [|left]|left; by apply Hq].
    + assert (Priority T' = PRIORITY_IDLE) as Hp' by (destruct (Hprio t T T' HT HT'); congruence).
      destruct (decide (c = cpu)) as [->|Hne].
      * right. right. split; [done|]. right. split; [by eapply Hni|done].
      * right. left. by split; [apply Hruns2'|].
Qed.

(** A thread that is not ready changes. *)
Lemma sched_update procs threads t T T' :
  sched_inv procs threads → threads !! t = Some T → Status T ≠ KTHREAD_STATUS_READY →
  Status T' ≠ KTHREAD_STATUS_READY → 0 ≤ BasePriority T' ≤ Priority T' →
  Priority T' ≤ PRIORITY_REALTIME_MAX → (LastProcessor T' < length procs)%nat →
  sched_inv procs (<[t := T']> threads).
Proof.
  intros Hs HT Hn Hn' Hb Hm Hl. split; try apply Hs.
  - intros t' T0. destruct (decide (t' = t)) as [->|Hne].
    + rewrite lookup_insert_eq. intros [= <-]. split_and!; (done || lia).
    + rewrite lookup_insert_ne by done. apply (si_thread _ _ Hs).
  - intros c k t' Hin. destruct (si_queued _ _ Hs c k t' Hin) as (T0 & HT0 & Hr & ?). exists T0.
    rewrite lookup_insert_ne; [done|]. intros ->. congruence.
  - intros t' T0. destruct (decide (t' = t)) as [->|Hne].
    + rewrite lookup_insert_eq. by intros [= <-].
    + rewrite lookup_insert_ne by done. apply (si_ready _ _ Hs).
Qed.

(** Putting the running thread back. *)
Definition put_back (cpu t : nat) (T : KTHREAD) (s : KERNEL) : outcome KERNEL :=
  s ← (if Suspended T then Ok (upd_thread t (set_Status KTHREAD_STATUS_INITIALIZED) s)
       else
         let s := upd_thread t (set_Status KTHREAD_STATUS_READY) s in
         s ← enqueue_thread true cpu (Priority T) t s;
         Ok (upd_prcb cpu (λ p, set_bit (Priority T)
               (set_ThreadsOnQueueCount (ThreadsOnQueueCount p + 1) p)) s));
  KiCheckOverloadedExecQueues (upd_thread t (set_LastProcessor cpu) s).

(** The state in which the thread [T'] and the processor [p'] were stored. *)
Definition stored (cpu t : nat) (p' : KPRCB) (T' : KTHREAD) (s : KERNEL) : KERNEL :=
  set_KeProcessorList (<[cpu := p']> (KeProcessorList s)) (set_Threads (<[t := T']> (Threads s)) s).

Lemma leaving_stored cpu n t T T' p p' q s :
  leaving cpu n (λ x, x = t) s → KeProcessorList s !! cpu = Some p →
  (∀ c, runs s c t → c = cpu) → Threads s !! t = Some T → Status T = KTHREAD_STATUS_RUNNING →
  CurrentThread p' = CurrentThread p → NextThread p' = NextThread p → TimerTree p' = TimerTree p →
  fixed T' = fixed T → Priority T' = Priority T → LastProcessor T' = cpu → MutexList T' = MutexList T →
  let k := Z.to_nat (Priority T) in
  (Status T' = KTHREAD_STATUS_READY ∧ ExecQueue p !! k = Some q ∧
     ExecQueue p' = <[k := q ++ [t]]> (ExecQueue p) ∧
     ExecQueueMask p' = ExecQueueMask (set_bit (Z.of_nat k) p)) ∨
  (Status T' = KTHREAD_STATUS_INITIALIZED ∧ Suspended T = true ∧ p' = p) →
  leaving cpu n (λ _, False) (stored cpu t p' T' s) ∧ switched s (stored cpu t p' T' s).
Proof.
  intros [Hl Hn (N & HN & Hrd & Hpn & Hs) Hti Htr Hu Hst Hro Hcur Hi] Hp Hr HT Hrun Hc' Hn' Ht' Hf Hpr Hlp Hml k Hor.
  assert (t ≠ n) as Hne by congruence.
  assert (<[n := set_Status KTHREAD_STATUS_RUNNING N]> (Threads s) !! t = Some T) as HT2
    by by rewrite lookup_insert_ne.
  pose proof (si_thread _ _ Hs t T HT2) as (Hb & Hmax & _).
  assert (cpu < length (KeProcessorList s))%nat as Hcpu by by eapply lookup_lt_Some.
  assert (Z.of_nat k = Priority T) as Hk by (unfold k; lia).
  pose proof Hf as [= Ew1 Ew2 Ew3 Ew4 Ew5 Ew6 Eb Ea Ep Ed Es].
  set (s' := stored cpu t p' T' s).
  assert (∀ {B} (v : KPRCB → B), v p' = v p → v <$> KeProcessorList s' = v <$> KeProcessorList s) as Hv.
  { intros B v E. unfold s'. cbn. rewrite list_fmap_insert, E. apply list_insert_id. by rewrite list_lookup_fmap, Hp. }
  assert (∀ c t', runs s' c t' ↔ runs s c t') as Hruns.
  { intros c t'. split; intros (p0 & Hp0 & E0).
    - destruct (list_fmap_lookup_eq _ _ _ _ _ (Hv _ CurrentThread Hc') Hp0) as (p1 & ? & ?). exists p1. split; congruence.
    - destruct (list_fmap_lookup_eq _ _ _ _ _ (eq_sym (Hv _ CurrentThread Hc')) Hp0) as (p1 & ? & ?). exists p1. split; congruence. }
  assert (∀ {B} (v : KTHREAD → B), v T' = v T → v <$> Threads s' = v <$> Threads s) as Hvt.
  { intros B v E. unfold s'. cbn. rewrite fmap_insert, E. apply insert_id. by rewrite lookup_fmap, HT. }
  assert (∀ t' T0, Threads s' !! t' = Some T0 → ∃ T1, Threads s !! t' = Some T1 ∧ fixed T0 = fixed T1) as Hfx.
  { intros t' T0. by apply map_fmap_lookup_eq, (Hvt _ fixed). }
  assert (view_thread T' = view_thread T) as Hvw.
  { unfold view_thread. rewrite Hml, Hrun. destruct Hor as [[-> _]|[-> _]]; done. }
  assert (length (KeProcessorList s') = length (KeProcessorList s)) as Hlen by (unfold s'; cbn; apply length_insert).
  split; [split|].
  - done.
  - exists p'. unfold s'. cbn. rewrite list_lookup_insert_eq by done. split; [done|].
    destruct Hn as (p0 & Hp0 & ?). congruence.
  - exists N. unfold s'. cbn. rewrite lookup_insert_ne by done. split_and!; try done.
    rewrite insert_insert_ne by done. destruct Hor as [(Hst' & Hq & Hex & Hmk)|(Hst' & _ & ->)].
    + eapply (sched_enqueue _ _ cpu p k q (q ++ [t])); try done; try congruence; try lia; by left.
    + rewrite list_insert_id by done. eapply sched_update; try done; try congruence; try lia.
  - intros t' T0 HT0. destruct (Hfx t' T0 HT0) as (T1 & HT1 & E). injection E as E1 E2 _.
    change (dobj s') with (dobj s). rewrite E1, E2. by apply (Hti t').
  - apply (timer_ok_ext s); [done| |done]. by apply Hv.
  - intros t' T0 c HT0 Hc. destruct (Hfx t' T0 HT0) as (T1 & HT1 & E). rewrite Hlen in Hc. injection E as _ _ _ _ _ _ _ E _.
    rewrite E. by apply (Hu t' T1 c).
  - unfold steal_ok. by rewrite Hlen.
  - destruct Hro as [R1 R2 R3 R4]. split.
    + intros c p0 Hc Hp0. destruct (list_fmap_lookup_eq _ _ _ _ _ (Hv _ NextThread Hn') Hp0) as (p1 & ? & ->). by eapply R1.
    + intros c t' Hc Hr'. apply Hruns in Hr'. destruct (R2 c t' Hc Hr') as (T1 & HT1 & ?).
      exists T1. unfold s'. cbn. rewrite lookup_insert_ne; [done|]. intros <-.
      by apply Hc, Hr.
    + intros c c' t' Hc Hc'' Hr1%Hruns Hr2%Hruns. by apply (R3 c c' t').
    + intros t' T0 HT0 Hs0. unfold s' in HT0. cbn in HT0. destruct (decide (t' = t)) as [->|Hnt].
      * rewrite lookup_insert_eq in HT0. injection HT0 as <-. destruct Hor as [[? _]|[? _]]; congruence.
      * rewrite lookup_insert_ne in HT0 by done. destruct (R4 t' T0 HT0 Hs0) as [?|(c & Hc & Hr')]; [done|].
        right. exists c. split; [done|]. by apply Hruns.
  - intros c p0 Hp0. destruct (list_fmap_lookup_eq _ _ _ _ _ (Hv _ CurrentThread Hc') Hp0) as (p1 & Hp1 & E).
    destruct (Hcur c p1 Hp1) as (t1 & T1 & Hc1 & HT1).
    destruct (map_fmap_lookup_eq _ _ _ _ _ (eq_sym (Hvt _ fixed Hf)) HT1) as (T2 & HT2' & _). exists t1, T2.
    split; [congruence|done].
  - intros c Hc. rewrite Hlen in Hc. destruct (Hi c Hc) as (t1 & T1 & HT1 & Hb1 & Hs1 & Hor1).
    assert (∀ c k t0, in_queue (KeProcessorList s) c k t0 → in_queue (KeProcessorList s') c k t0) as Hmono.
    { intros c1 k1 t0 Hin. unfold s'. cbn. apply (in_queue_insert _ _ p); [done|].
      destruct (decide (c1 = cpu)) as [->|]; [|by right]. left. split; [done|].
      destruct Hin as (p0 & q0 & Hp0 & Hq0 & Hin). rewrite Hp in Hp0. injection Hp0 as <-.
      destruct Hor as [(_ & Hq & -> & _)|(_ & _ & ->)]; [|eauto].
      destruct (decide (k1 = k)) as [->|]; [|rewrite list_lookup_insert_ne by done; eauto].
      rewrite list_lookup_insert_eq by by eapply lookup_lt_Some. eexists. split; [done|].
      rewrite Hq in Hq0. injection Hq0 as <-. set_solver. }
    destruct (decide (t1 = t)) as [->|Hnt].
    + rewrite HT in HT1. injection HT1 as <-. exists t, T'. unfold s' at 1. cbn. rewrite lookup_insert_eq.
      split; [done|]. split; [congruence|]. split; [congruence|].
      destruct Hor1 as [Hin|[(Hr1 & _ & Hnc)|(-> & [?|[_ Hp0]])]]; [left; by apply Hmono|by apply Hr in Hr1|done|].
      destruct Hor as [(_ & Hq & Hex & _)|(_ & Hnb & _)]; [|congruence]. left. unfold s'. cbn.
      apply (in_queue_insert _ _ p); [done|]. left. split; [done|].
      assert (k = 0%nat) as Hk0 by (unfold k; by rewrite Hp0). rewrite Hex, Hk0.
      rewrite Hk0 in Hq. rewrite list_lookup_insert_eq by by eapply lookup_lt_Some. eexists. split; [done|]. set_solver.
    + exists t1, T1. unfold s' at 1. cbn. rewrite lookup_insert_ne by done. split; [done|]. split; [done|]. split; [done|].
      destruct Hor1 as [Hin|[(Hr1 & ? & ?)|(-> & [->|[? _]])]]; [left; by apply Hmono|right; left; by rewrite Hruns|right; right; by split; [|left]|done].
  - split; try done.
    + by apply (Hvt _ view_thread).
    + by apply timers_same.
    + by apply (Hvt _ fixed).
Qed.

Lemma leaving_globals cpu n left a b s :
  leaving cpu n left s → (a = true → ∃ c, b = Some c ∧ (c < length (KeProcessorList s))%nat) →
  leaving cpu n left (set_KiMoreAggressiveWorkStealing a (set_KiMostCrowdedProcessor b s)).
Proof.
  intros [Hl Hn Hr Hti Htr Hu [Hst _] Hro Hcur Hi] Hab. split; try done.
  - by apply (timer_ok_ext s).
  - by destruct Hro.
Qed.

Lemma put_back_spec cpu n t T s :
  leaving cpu n (λ x, x = t) s → (∀ c, runs s c t → c = cpu) → Threads s !! t = Some T →
  Status T = KTHREAD_STATUS_RUNNING →
  ∃ s', put_back cpu t T s = Ok s' ∧ leaving cpu n (λ _, False) s' ∧ switched s s'.
Proof.
  intros Hlv Honly HT Hrun.
  destruct (lv_next _ _ _ _ Hlv) as (p & Hp & _). destruct (lv_ready _ _ _ _ Hlv) as (N & HN & Hrd & _ & Hs).
  assert (<[n := set_Status KTHREAD_STATUS_RUNNING N]> (Threads s) !! t = Some T) as HT2
    by (rewrite lookup_insert_ne by congruence; done).
  pose proof (si_thread _ _ Hs t T HT2) as (Hb & Hmax & _). set (k := Z.to_nat (Priority T)).
  assert (Z.of_nat k = Priority T) as Hk by (unfold k; lia).
  assert (is_Some (ExecQueue p !! k)) as [q Hq].
  { apply lookup_lt_is_Some. rewrite (si_queues _ _ Hs cpu p Hp). unfold PRIORITY_COUNT, PRIORITY_REALTIME_MAX in *. lia. }
  assert (cpu < length (KeProcessorList s))%nat as Hcpu by by eapply lookup_lt_Some.
  assert (∃ p' T', (s ← (if Suspended T then Ok (upd_thread t (set_Status KTHREAD_STATUS_INITIALIZED) s)
       else
         let s := upd_thread t (set_Status KTHREAD_STATUS_READY) s in
         s ← enqueue_thread true cpu (Priority T) t s;
         Ok (upd_prcb cpu (λ p, set_bit (Priority T)
               (set_ThreadsOnQueueCount (ThreadsOnQueueCount p + 1) p)) s));
     Ok (upd_thread t (set_LastProcessor cpu) s)) = Ok (stored cpu t p' T' s) ∧
     leaving cpu n (λ _, False) (stored cpu t p' T' s) ∧ switched s (stored cpu t p' T' s))
    as (p' & T' & Hr & Hlv' & Hsw).
  { destruct (Suspended T) eqn:Es.
    - exists p, (set_LastProcessor cpu (set_Status KTHREAD_STATUS_INITIALIZED T)). cbn [mbind outcome_bind].
      split.
      + f_equal. unfold stored, upd_thread, set_KeProcessorList, set_Threads. cbn.
        rewrite list_insert_id by done. f_equal.
        apply map_eq. intros t'. destruct (decide (t' = t)) as [->|];
          [by rewrite !lookup_alter_eq, lookup_insert_eq, HT|by rewrite !lookup_alter_ne, lookup_insert_ne].
      + apply (leaving_stored cpu n t T _ p p q s); try done.
        by right.
    - exists (set_bit (Priority T) (set_ThreadsOnQueueCount (ThreadsOnQueueCount p + 1) (set_queue (Priority T) (q ++ [t]) p))),
        (set_LastProcessor cpu (set_EntryQueueIsSelf false (set_Status KTHREAD_STATUS_READY T))).
      split.
      + unfold enqueue_thread. rewrite (proj2 (prcb_Ok _ cpu p)) by done. cbn [mbind outcome_bind].
        rewrite <-Hk, (queue_Ok p k q Hq), Hk. cbn [mbind outcome_bind]. f_equal.
        unfold stored, upd_thread, upd_prcb, set_KeProcessorList, set_Threads. cbn. f_equal.
        * apply map_eq. intros t'. destruct (decide (t' = t)) as [->|];
            [by rewrite !lookup_alter_eq, lookup_insert_eq, HT|by rewrite !lookup_alter_ne, lookup_insert_ne].
        * apply list_eq. intros c. destruct (decide (c = cpu)) as [->|];
            [by rewrite !list_lookup_alter_eq, list_lookup_insert_eq, Hp by done
            |by rewrite !list_lookup_alter_ne, list_lookup_insert_ne].
      + apply (leaving_stored cpu n t T _ p _ q s); try done. left. cbn. fold k. by rewrite Hk. }
  unfold put_back. destruct (if Suspended T then _ else _) as [s1| |]; [|done|done].
  cbn [mbind outcome_bind] in Hr |- *.
  assert (upd_thread t (set_LastProcessor cpu) s1 = stored cpu t p' T' s) as -> by congruence.
  destruct (check_overloaded_spec (stored cpu t p' T' s) (lv_lock _ _ _ _ Hlv')) as (a & b & -> & Hab).
  eexists. split; [done|]. split; [by apply leaving_globals|]. etransitivity; [exact Hsw|].
  split; try done. by apply timers_same.
Qed.

(** ** The switch *)

Definition next_runs (n : nat) (p : KPRCB) : KPRCB := set_NextThread None (set_CurrentThread (Some n) p).
Definition made_running (N : KTHREAD) : KTHREAD := set_DontSteal false (set_Status KTHREAD_STATUS_RUNNING N).

Lemma switch_run_ok cpu n N s :
  leaving cpu n (λ _, False) s → Threads s !! n = Some N →
  let s' := upd_thread n made_running (upd_prcb cpu (next_runs n) s) in
  run_ok (λ _, False) s' ∧ runs s' cpu n ∧ switched s s'.
Proof.
  intros [Hl (p & Hp & Hnx) (N0 & HN0 & Hrd & Hpn & Hs) Hti Htr Hu Hst [R1 R2 R3 R4] Hcur Hi] HN s'.
  rewrite HN in HN0. injection HN0 as <-.
  assert (cpu < length (KeProcessorList s))%nat as Hcpu by by eapply lookup_lt_Some.
  assert (KeProcessorList s' = <[cpu := next_runs n p]> (KeProcessorList s)) as Hps
    by (by rewrite <-(upd_prcb_insert cpu (next_runs n) s p Hp)).
  assert (Threads s' = <[n := made_running N]> (Threads s)) as Hts
    by (by rewrite <-(upd_thread_insert n made_running s N HN)).
  assert (∀ {B} (v : KPRCB → B), v (next_runs n p) = v p → v <$> KeProcessorList s' = v <$> KeProcessorList s) as Hv.
  { intros B v E. rewrite Hps, list_fmap_insert, E. apply list_insert_id. by rewrite list_lookup_fmap, Hp. }
  assert (∀ {B} (v : KTHREAD → B), v (made_running N) = v N → v <$> Threads s' = v <$> Threads s) as Hvt.
  { intros B v E. rewrite Hts, fmap_insert, E. apply insert_id. by rewrite lookup_fmap, HN. }
  assert (∀ t T', Threads s' !! t = Some T' → ∃ T, Threads s !! t = Some T ∧ fixed T' = fixed T) as Hfx.
  { intros t T'. by apply map_fmap_lookup_eq, (Hvt _ fixed). }
  assert (length (KeProcessorList s') = length (KeProcessorList s)) as Hlen by (by rewrite Hps, length_insert).
  assert (∀ c t, runs s' c t ↔ (c = cpu ∧ t = n) ∨ (c ≠ cpu ∧ runs s c t)) as Hruns.
  { intros c t. unfold runs. rewrite Hps. destruct (decide (c = cpu)) as [->|Hne].
    - rewrite list_lookup_insert_eq by done. split.
      + intros (? & [= <-] & [= <-]). by left.
      + intros [[_ ->]|[? _]]; [by eexists|done].
    - rewrite list_lookup_insert_ne by done. split; [by right|]. by intros [[? _]|[_ ?]]. }
  assert (∀ c, c ≠ cpu → ¬ runs s c n) as Hnn.
  { intros c Hne Hr. destruct (R2 c n Hne Hr) as (T & HT & ?). congruence. }
  assert (view_thread (made_running N) = view_thread N) as Hvw by (unfold view_thread; cbn; by rewrite Hrd).
  split; [|split; [apply Hruns; by left|]].
  - split.
    + split.
      * done.
      * rewrite Hts. eapply sched_inv_ext; [by apply Hv| |exact Hs].
        by rewrite !fmap_insert.
      * intros c q Hq. destruct (decide (c = cpu)) as [->|Hne].
        -- exists n, (made_running N). rewrite Hts, lookup_insert_eq. split; [|done].
           rewrite Hps, list_lookup_insert_eq in Hq by done. by injection Hq as <-.
        -- rewrite Hps, list_lookup_insert_ne in Hq by done. destruct (Hcur c q Hq) as (t & T & ? & HT).
           destruct (map_fmap_lookup_eq _ _ _ _ _ (eq_sym (Hvt _ fixed eq_refl)) HT) as (T2 & HT2 & _). eauto.
      * intros t T' HT'. destruct (Hfx t T' HT') as (T & HT & [= E1 E2 _]). rewrite E1, E2. by apply (Hti t T).
      * apply (timer_ok_ext s); [done| |done]. by apply Hv.
    + intros t T' c HT' Hc. rewrite Hlen in Hc. destruct (Hfx t T' HT') as (T & HT & [= _ _ _ _ _ _ _ E _]).
      rewrite E. by apply (Hu t T c).
    + unfold steal_ok. by rewrite Hlen.
    + intros c Hc. rewrite Hlen in Hc. destruct (Hi c Hc) as (t & T & HT & Hb & Hsp & Hor).
      destruct (map_fmap_lookup_eq _ _ _ _ _ (eq_sym (Hvt _ fixed eq_refl)) HT) as (T' & HT' & [= _ _ _ _ _ _ E1 _ _ _ E2]).
      exists t, T'. split; [done|]. split; [congruence|]. split; [congruence|].
      assert (Priority T' = Priority T) as Hpr.
      { rewrite Hts in HT'. destruct (decide (t = n)) as [->|Hne].
        - rewrite lookup_insert_eq in HT'. injection HT' as <-. cbn. congruence.
        - rewrite lookup_insert_ne in HT' by done. congruence. }
      destruct Hor as [Hin|[(Hr & ? & ?)|(-> & [->|[[] _]])]].
      * left. eapply in_queue_ext; [|exact Hin]. by apply Hv.
      * right. split; [apply Hruns; by right|congruence].
      * right. split; [apply Hruns; by left|]. rewrite HN in HT. injection HT as <-. congruence.
    + split.
      * intros c q _ Hq. destruct (decide (c = cpu)) as [->|Hne].
        -- rewrite Hps, list_lookup_insert_eq in Hq by done. by injection Hq as <-.
        -- rewrite Hps, list_lookup_insert_ne in Hq by done. by apply (R1 c q).
      * intros c t _ [[-> ->]|[Hne Hr]]%Hruns.
        -- exists (made_running N). by rewrite Hts, lookup_insert_eq.
        -- destruct (R2 c t Hne Hr) as (T & HT & HsT). exists T. rewrite Hts, lookup_insert_ne; [done|]. intros <-.
           by apply (Hnn c).
      * intros c c' t _ _ [[-> ->]|[Hne Hr]]%Hruns [[-> E]|[Hne' Hr']]%Hruns; [done| | |by apply (R3 c c' t)].
        -- by apply Hnn in Hr'.
        -- subst t. by apply Hnn in Hr.
      * intros t T' HT' HsT. right. rewrite Hts in HT'. destruct (decide (t = n)) as [->|Hne].
        -- exists cpu. split; [tauto|]. apply Hruns. by left.
        -- rewrite lookup_insert_ne in HT' by done. destruct (R4 t T' HT' HsT) as [[]|(c & Hc & Hr)].
           exists c. split; [tauto|]. apply Hruns. by right.
  - split; try done.
    + by apply (Hvt _ view_thread).
    + by apply timers_same.
    + by apply (Hvt _ fixed).
Qed.

(** The operations of timers. *)
Lemma frame_run_ok skip s s' :
  timer_frame s s' → timer_ok s' → run_ok skip s →
  run_ok skip s' ∧ (∀ c t, runs s' c t ↔ runs s c t) ∧ Threads s' = Threads s ∧ Dpcs s' = Dpcs s ∧
  TickCount s' = TickCount s ∧ TickFrequency s' = TickFrequency s ∧
  length (KeProcessorList s') = length (KeProcessorList s).
Proof.
  intros Hf Ho [Hk Hu Hst Hi [R1 R2 R3 R4]].
  pose proof (frame_kernel_ok s s' Hf Ho Hk) as Hk'. pose proof Hf as [F D].
  assert (Threads s' = Threads s) as Ht by (by apply (f_equal Threads) in F).
  assert (set_TimerTree [] <$> KeProcessorList s' = set_TimerTree [] <$> KeProcessorList s) as Hp
    by (apply (f_equal KeProcessorList) in F; done).
  assert (length (KeProcessorList s') = length (KeProcessorList s)) as Hlen
    by (by rewrite <-(length_fmap (set_TimerTree []) (KeProcessorList s')), Hp, length_fmap).
  assert (∀ c t, runs s' c t ↔ runs s c t) as Hruns.
  { intros c t. split; intros (p & H1 & H2).
    - destruct (list_fmap_lookup_eq _ _ _ _ _ Hp H1) as (p0 & ? & E). apply (f_equal CurrentThread) in E.
      cbn in E. exists p0. split; [done|congruence].
    - destruct (list_fmap_lookup_eq _ _ _ _ _ (eq_sym Hp) H1) as (p0 & ? & E). apply (f_equal CurrentThread) in E.
      cbn in E. exists p0. split; [done|congruence]. }
  split_and!; try done; [|by apply (f_equal Dpcs) in F|by apply (f_equal TickCount) in F
    |by apply (f_equal TickFrequency) in F].
  split.
  - done.
  - intros t T0 c. rewrite Ht, Hlen. apply Hu.
  - unfold steal_ok. rewrite Hlen. apply (f_equal steal_globals) in F. by injection F as -> -> -> _.
  - intros c. rewrite Hlen, Ht. intros Hc0. destruct (Hi c Hc0) as (t & T0 & HT0 & Hb & Hsp & Hor).
    exists t, T0. split_and!; try done. destruct Hor as [Hin|[Hr Hpr]].
    + left. eapply in_queue_ext; [|exact Hin]. apply (f_equal (fmap ExecQueue)) in Hp.
      by rewrite <-!list_fmap_compose in Hp.
    + right. by rewrite Hruns.
  - split.
    + intros c p Hn Hp0. destruct (list_fmap_lookup_eq _ _ _ _ _ Hp Hp0) as (p0 & ? & E).
      apply (f_equal NextThread) in E. cbn in E. rewrite E. by eapply R1.
    + intros c t Hn Hr%Hruns. rewrite Ht. by apply (R2 c t).
    + intros c c' t Hn Hn' Hr%Hruns Hr'%Hruns. by apply (R3 c c' t).
    + intros t T0. rewrite Ht. intros H0 H1. destruct (R4 t T0 H0 H1) as [?|(c & ? & ?)]; [by left|].
      right. exists c. by rewrite Hruns.
Qed.

Lemma cancel_run_ok skip o T s :
  run_ok skip s → timer s o = Ok T →
  ∃ s', KiCancelTimer o s = Ok (IsEnqueued T, s') ∧ run_ok skip s' ∧ switched s s' ∧
    (∀ c t, runs s c t → runs s' c t) ∧ length (KeProcessorList s') = length (KeProcessorList s).
Proof.
  intros Hok HT. pose proof (rn_kernel _ _ Hok) as Hk.
  destruct (cancel_spec s o T (ko_trees s Hk) (ko_lock s Hk) HT) as (s' & Hc & Hf & Ho & Hm).
  destruct (frame_run_ok skip s s' Hf Ho Hok) as (Hok' & Hruns & Ht & Hd & Htc & Htf & Hlen).
  exists s'. split; [done|]. split; [done|]. split; [|split; [intros c t; apply Hruns|done]].
  split; try done.
  - apply Hf.
  - unfold dthr. by rewrite Ht.
  - by rewrite Hd.
  - intros o' T' [[_ ?]|[-> ->]]%Hm; eauto.
  - by rewrite Ht.
Qed.

Lemma quantum_spec cpu t s :
  KiDispatcherLock s = true → (cpu < length (KeProcessorList s))%nat →
  ∃ s', KiAssignDefaultQuantum cpu (Some t) s = Ok s' ∧ quiet s s'.
Proof.
  intros Hl Hc. apply lookup_lt_is_Some in Hc as [p Hp]. unfold KiAssignDefaultQuantum, KiAssertOwnDispatcherLock.
  rewrite Hl. cbn [check mbind outcome_bind deref]. rewrite (proj2 (prcb_Ok s cpu p) Hp). cbn [mbind outcome_bind].
  eexists. split; [done|]. etransitivity; [|by apply quiet_prcb]. by apply quiet_thread.
Qed.

Lemma switch_spec cpu n s :
  leaving cpu n (λ _, False) s →
  ∃ s', KiSwitchToNextThread cpu s = Ok s' ∧ run_ok (λ _, False) s' ∧ runs s' cpu n ∧ switched s s'.
Proof.
  intros Hlv. destruct (lv_next _ _ _ _ Hlv) as (p & Hp & Hnx).
  destruct (lv_ready _ _ _ _ Hlv) as (N & HN & _). destruct (switch_run_ok cpu n N s Hlv HN) as (Hok & Hr & Hsw).
  unfold KiSwitchToNextThread, KiAssertOwnDispatcherLock. rewrite (lv_lock _ _ _ _ Hlv).
  cbn [check mbind outcome_bind]. rewrite (proj2 (prcb_Ok s cpu p) Hp). cbn [mbind outcome_bind]. rewrite Hnx.
  cbn [deref mbind outcome_bind]. rewrite (proj2 (thread_Ok _ n N)) by done. cbn [mbind outcome_bind].
  change (upd_thread n _ (upd_prcb cpu _ s)) with (upd_thread n made_running (upd_prcb cpu (next_runs n) s)).
  set (s1 := upd_thread n made_running _) in *.
  assert (∃ W, timer s1 (WaitTimer N) = Ok W) as [W HW].
  { apply is_timer. change (dobj s1) with (dobj s). by apply (lv_timers _ _ _ _ Hlv n N). }
  destruct (cancel_run_ok _ _ W s1 Hok HW) as (s2 & -> & Hok2 & Hsw2 & Hr2 & Hlen2). cbn [mbind outcome_bind].
  assert (cpu < length (KeProcessorList s2))%nat as Hcpu.
  { rewrite Hlen2. unfold s1. cbn. rewrite length_alter. by eapply lookup_lt_Some. }
  destruct (quantum_spec cpu n s2 (ko_lock _ (rn_kernel _ _ Hok2)) Hcpu) as (s3 & -> & Hq3). cbn [mbind outcome_bind].
  set (s4 := upd_thread n _ s3).
  assert (quiet s2 s4) as Hq4 by (etransitivity; [exact Hq3|by apply quiet_thread]).
  assert (∃ s5, match KernelApcQueue N with [] => Ok s4 | _ => KeIssueSoftwareInterrupt cpu IPL_APC s4 end = Ok s5 ∧
    quiet s2 s5) as (s5 & -> & Hq5).
  { rewrite <-(quiet_length s2 s4 Hq4) in Hcpu. apply lookup_lt_is_Some in Hcpu as [p4 Hp4].
    destruct (KernelApcQueue N); [eauto|]. unfold KeIssueSoftwareInterrupt.
    rewrite (proj2 (prcb_Ok s4 cpu p4) Hp4). cbn [mbind outcome_bind]. eexists. split; [done|].
    etransitivity; [exact Hq4|by apply quiet_prcb]. }
  exists s5. split; [done|]. split; [by eapply quiet_run_ok|]. split.
  - apply (quiet_runs s5 s2); [by symmetry|]. by apply Hr2.
  - etransitivity; [exact Hsw|]. etransitivity; [exact Hsw2|by apply quiet_switched].
Qed.

(** ** The end of a quantum *)

Lemma runs_current s cpu t : runs s cpu t → KeGetCurrentThread cpu s = Ok (Some t).
Proof.
  intros (p & Hp & Hc). unfold KeGetCurrentThread. rewrite (proj2 (prcb_Ok s cpu p) Hp).
  cbn [mbind outcome_bind]. by rewrite Hc.
Qed.

Lemma runs_functional s c t t' : runs s c t → runs s c t' → t = t'.
Proof. intros (p & H1 & H2) (p' & H3 & H4). congruence. Qed.

Lemma runs_lt s c t : runs s c t → (c < length (KeProcessorList s))%nat.
Proof. intros (p & Hp & _). by eapply lookup_lt_Some. Qed.

Lemma run_schedulable skip cpu t s : run_ok skip s → runs s cpu t → schedulable cpu s.
Proof.
  intros [Hk Hu Hst _ _] Hr. split; try done; [apply Hk|apply Hk|by eapply runs_lt].
Qed.

(** Accounting for the time that the thread ran. *)
Lemma account_spec cpu t T s :
  runs s cpu t → Threads s !! t = Some T →
  ∃ s', (if negb (BasePriority T =? PRIORITY_IDLE) && negb (TickScheduledAt T =? 0) then
      Ok (upd_thread t (set_TickScheduledAt 0)
            (upd_prcb cpu (λ p, set_TicksSpentNonIdle
               (u64 (TicksSpentNonIdle p + u64 (TickCount s - TickScheduledAt T))) p) s))
    else Ok s) = Ok s' ∧ quiet s s'.
Proof.
  intros Hr HT. case_match; [|by exists s]. eexists. split; [done|].
  etransitivity; [|by apply quiet_thread]. by apply quiet_prcb.
Qed.

Lemma leaving_quantum cpu n s :
  leaving cpu n (λ _, False) s → leaving cpu n (λ _, False) (upd_prcb cpu (set_QuantumUntil 0) s).
Proof.
  intros [Hl (p & Hp & Hnx) (N & HN & Hrd & Hpn & Hs) Hti Htr Hu Hst [R1 R2 R3 R4] Hcur Hi].
  set (s' := upd_prcb cpu (set_QuantumUntil 0) s).
  assert (quiet s s') as Hq by (by apply quiet_prcb).
  assert (∀ c t, runs s' c t ↔ runs s c t) as Hruns by (intros; split; apply quiet_runs; [done|by symmetry]).
  pose proof (quiet_fields s s' Hq) as (_ & _ & _ & _ & _ & _ & Hpq).
  split; try done.
  - eexists. split; [apply prcb_upd; right; eauto|done].
  - exists N. split_and!; try done. eapply sched_inv_ext; [by apply quiet_pcore|done|exact Hs].
  - apply (timer_ok_ext s); [done| |done]. apply (f_equal (fmap TimerTree)) in Hpq.
    by rewrite <-!list_fmap_compose in Hpq.
  - by apply (quiet_unpinned s).
  - by apply (quiet_steal s).
  - split.
    + intros c q Hc Hq0. destruct (quiet_prcb_lookup s s' c q Hq Hq0) as (q0 & Hq1 & E).
      apply (f_equal NextThread) in E. cbn in E. rewrite E. by eapply R1.
    + intros c t Hc Hr%Hruns. by apply (R2 c t).
    + intros c c' t Hn Hn' Hr%Hruns Hr'%Hruns. by apply (R3 c c' t).
    + intros t T HT Hs0. destruct (R4 t T HT Hs0) as [?|(c & ? & ?)]; [by left|]. right. exists c. by rewrite Hruns.
  - intros c q Hq0. destruct (quiet_prcb_lookup s s' c q Hq Hq0) as (q0 & Hq1 & E).
    apply (f_equal CurrentThread) in E. cbn in E. rewrite E. by apply (Hcur c q0).
  - intros c Hc. rewrite (quiet_length s s' Hq) in Hc. destruct (Hi c Hc) as (t & T & HT & Hb & Hsp & Hor).
    exists t, T. split_and!; try done. rewrite Hruns. destruct Hor as [?|Hor]; [left|by right].
    by eapply quiet_in_queue.
Qed.

Lemma quantum_switched cpu v s : switched s (upd_prcb cpu (set_QuantumUntil v) s).
Proof. apply quiet_switched. by apply quiet_prcb. Qed.

Lemma next_switched cpu r s : switched s (upd_prcb cpu (set_NextThread r) s).
Proof. split; try done. by apply timers_same. Qed.

(** Nothing was chosen. *)
Lemma got_run_ok skip cpu s s' : run_ok skip s → got cpu None s s' → run_ok skip s'.
Proof.
  intros [Hk Hu Hst Hi [R1 R2 R3 R4]] [Hrest Hst' Hprio Hkeep Hs'].
  pose proof (without_sched_fields s s' Hrest) as (Ho & Hd & Hl & Ht & Hf & Hth & Hpp).
  destruct (got_rest_spec s s' Hrest) as (Hsw & Hruns & Htm & Htr & Hnext).
  pose proof (without_sched_length s s' Hrest) as Hlen. split.
  - split.
    + rewrite Hl. apply Hk.
    + done.
    + intros c p Hp. destruct (list_fmap_lookup_eq _ _ _ _ _ Hpp Hp) as (p1 & Hp1 & E1).
      apply (f_equal CurrentThread) in E1. cbn in E1. destruct (ko_current s Hk c p1 Hp1) as (t & T & Hc & HT).
      destruct (map_fmap_lookup_eq _ _ _ _ _ (eq_sym Hth) HT) as (T' & HT' & _). exists t, T'. split; [congruence|done].
    + intros t T' HT'. destruct (without_sched_thread s s' t T' Hrest HT') as (T & HT & E).
      pose proof (f_equal WaitTimer E) as E1. pose proof (f_equal SleepTimer E) as E2. cbn in E1, E2.
      rewrite (sw_dobj _ _ Hsw), E1, E2. by apply (ko_timers s Hk t).
    + apply (timer_ok_ext s); [done|done|apply Hk].
  - by eapply unpinned_ext.
  - done.
  - intros c Hc. rewrite Hlen in Hc. destruct (Hi c Hc) as (t & T & HT & Hb & Hsp & Hor).
    destruct (map_fmap_lookup_eq _ _ _ _ _ (eq_sym Hth) HT) as (T' & HT' & E).
    pose proof (f_equal BasePriority E) as E1. pose proof (f_equal Suspended E) as E2. cbn in E1, E2.
    exists t, T'. split; [done|]. split; [congruence|]. split; [congruence|]. destruct Hor as [Hin|[Hr Hp]].
    + left. by destruct (Hkeep c 0%nat t ltac:(by right) Hin) as [[? _]|].
    + right. split; [by apply Hruns|]. destruct (Hprio t T T' HT HT'); congruence.
  - split.
    + intros c p Hn Hp. destruct (Hnext c p Hp) as (p1 & ? & ->). by eapply R1.
    + intros c t Hn Hr%Hruns. destruct (R2 c t Hn Hr) as (T & HT & HsT).
      destruct (map_fmap_lookup_eq _ _ _ _ _ (eq_sym Hth) HT) as (T' & HT' & E). apply (f_equal Status) in E.
      cbn in E. exists T'. split; [done|congruence].
    + intros c c' t Hn Hn' Hr%Hruns Hr'%Hruns. by apply (R3 c c' t).
    + intros t T' HT' HsT. destruct (without_sched_thread s s' t T' Hrest HT') as (T & HT & E).
      apply (f_equal Status) in E. cbn in E. destruct (R4 t T HT) as [?|(c & ? & ?)]; [congruence|by left|].
      right. exists c. by rewrite Hruns.
Qed.

(** The running thread's quantum ends: it goes on, or it is put back and
    another one is chosen. *)
Lemma end_quantum_spec cpu t s :
  run_ok (λ _, False) s → runs s cpu t →
  ∃ s', KiEndThreadQuantum cpu s = Ok s' ∧ switched s s' ∧
    ((run_ok (λ _, False) s' ∧ runs s' cpu t) ∨ ∃ n, leaving cpu n (λ _, False) s').
Proof.
  intros Hok Hr. pose proof (run_schedulable _ cpu t s Hok Hr) as Hsc.
  pose proof Hok as [Hk Hu Hst Hi Hro]. pose proof Hro as [R1 R2 R3 R4].
  destruct (R2 cpu t ltac:(tauto) Hr) as (T & HT & Hrun).
  unfold KiEndThreadQuantum, KiAssertOwnDispatcherLock. rewrite (ko_lock s Hk). cbn [check mbind outcome_bind].
  rewrite (runs_current s cpu t Hr). cbn [mbind outcome_bind].
  destruct (next_thread_spec cpu false s Hsc (ko_current s Hk)) as (r & s1 & -> & Hg & _).
  cbn [mbind outcome_bind]. pose proof (gt_rest _ _ _ _ Hg) as Hrest.
  destruct (got_rest_spec s s1 Hrest) as (Hsw & Hruns & _). pose proof (without_sched_length s s1 Hrest) as Hlen.
  destruct r as [n|].
  - assert (leaving cpu n (λ x, x = t) (upd_prcb cpu (set_NextThread (Some n)) s1)) as Hlv.
    { apply (got_leaving cpu n _ s); try done.
      - split; [intros c p _; apply (R1 c p); tauto|intros c t' _; apply (R2 c t'); tauto
          |intros c c' t' _ _; apply (R3 c c' t'); tauto|].
        intros t' T' HT' Hs'. destruct (R4 t' T' HT' Hs') as [[]|(c & _ & Hc)].
        destruct (decide (c = cpu)) as [->|Hne]; [left; by eapply runs_functional|]. right. eauto.
      - apply Hsc.
      - intros t' T' Hr' _ _. by eapply runs_functional. }
    set (s2 := upd_prcb cpu _ s1) in *.
    destruct (without_sched_thread s1 s t T (eq_sym Hrest) HT) as (T1 & HT1 & E).
    pose proof (f_equal Status E) as Es. cbn in Es.
    rewrite (proj2 (thread_Ok s2 t T1) HT1). cbn [mbind outcome_bind].
    assert (∀ c, runs s2 c t → c = cpu) as Honly.
    { intros c (p & Hp & Hc). apply (R3 c cpu t); try tauto. apply Hruns.
      apply (prcb_upd cpu _ s1) in Hp as [(_ & Hp)|(-> & p0 & Hp & ->)]; by eexists. }
    destruct (put_back_spec cpu n t T1 s2 Hlv Honly HT1) as (s3 & H3 & Hlv3 & Hsw3); [congruence|].
    unfold put_back in H3.
    assert (∀ k : KERNEL → outcome KERNEL, (s' ← (s' ← (if Suspended T1 then Ok (upd_thread t (set_Status KTHREAD_STATUS_INITIALIZED) s2)
       else
         s' ← enqueue_thread true cpu (Priority T1) t (upd_thread t (set_Status KTHREAD_STATUS_READY) s2);
         Ok (upd_prcb cpu (λ p, set_bit (Priority T1)
               (set_ThreadsOnQueueCount (ThreadsOnQueueCount p + 1) p)) s'));
       KiCheckOverloadedExecQueues (upd_thread t (set_LastProcessor cpu) s')); k s') = k s3) as ->
      by (intros k; by rewrite H3).
    eexists. split; [done|]. split.
    + etransitivity; [exact Hsw|]. etransitivity; [apply next_switched|].
      etransitivity; [exact Hsw3|apply quantum_switched].
    + right. exists n. by apply leaving_quantum.
  - assert (run_ok (λ _, False) s1 ∧ runs s1 cpu t) as [Hok1 Hr1].
    { split; [by eapply got_run_ok|by apply Hruns]. }
    destruct (quantum_spec cpu t s1 (ko_lock _ (rn_kernel _ _ Hok1))) as (s2 & H2 & Hq); [by eapply runs_lt|].
    exists s2. split; [exact H2|]. split; [by etransitivity; [|apply quiet_switched]|]. left.
    split; [by eapply quiet_run_ok|]. apply (quiet_runs s2 s1); [by symmetry|done].
Qed.

(** A thread that stopped running leaves its processor. *)
Lemma yield_stopped_spec cpu t T s :
  run_ok (λ c, c = cpu) s → runs s cpu t → Threads s !! t = Some T →
  Status T ≠ KTHREAD_STATUS_RUNNING → Status T ≠ KTHREAD_STATUS_TERMINATED → BasePriority T ≠ PRIORITY_IDLE →
  ∃ n s', KiPerformYield cpu s = Ok s' ∧ leaving cpu n (λ _, False) s' ∧ switched s s'.
Proof.
  intros Hok Hr HT Hnr Hnt Hni. pose proof (rn_kernel _ _ Hok) as Hk.
  unfold KiPerformYield, KiAssertOwnDispatcherLock. rewrite (ko_lock s Hk). cbn [check mbind outcome_bind].
  rewrite (runs_current s cpu t Hr). cbn [mbind outcome_bind].
  rewrite (proj2 (thread_Ok s t T) HT). cbn [mbind outcome_bind].
  destruct (account_spec cpu t T s Hr HT) as (s1 & -> & Hq). cbn [mbind outcome_bind].
  pose proof (quiet_run_ok _ s s1 Hq Hok) as Hok1.
  assert (runs s1 cpu t) as Hr1 by (apply (quiet_runs s1 s); [by symmetry|done]).
  destruct (quiet_thread_lookup s1 s t T (symmetry Hq) HT) as (T1 & HT1 & E).
  pose proof (f_equal Status E) as Es. pose proof (f_equal BasePriority E) as Eb. cbn in Es, Eb.
  rewrite (proj2 (thread_Ok s1 t T1) HT1). cbn [mbind outcome_bind].
  rewrite bool_decide_false by congruence. pose proof Hok1 as [Hk1 Hu1 Hst1 Hi1 Hro1].
  destruct (next_thread_spec cpu true s1) as (r & s2 & -> & Hg & Hsome);
    [by eapply run_schedulable|apply Hk1|]. cbn [mbind outcome_bind].
  destruct r as [n|].
  2: { exfalso. apply Hsome; [done| |done]. destruct (Hi1 cpu ltac:(by eapply runs_lt)) as (t0 & T0 & HT0 & Hb0 & _ & Hor).
       destruct Hor as [?|[Hr0 _]]; [eauto|]. rewrite (runs_functional _ _ _ _ Hr0 Hr1) in HT0. congruence. }
  cbn [deref mbind outcome_bind]. pose proof (gt_rest _ _ _ _ Hg) as Hrest.
  destruct (got_rest_spec s1 s2 Hrest) as (Hsw & _).
  destruct (without_sched_thread s2 s1 t T1 (eq_sym Hrest) HT1) as (T2 & HT2 & E2).
  apply (f_equal Status) in E2. cbn in E2. set (s3 := upd_prcb cpu _ s2).
  rewrite (proj2 (thread_Ok s3 t T2) HT2). cbn [mbind outcome_bind]. rewrite decide_False by congruence.
  cbn [mbind outcome_bind]. exists n. eexists. split; [done|]. split.
  - apply leaving_quantum. apply (got_leaving cpu n _ s1); try done; [by eapply runs_lt|].
    intros t' T' Hr' HT' Hb'. exfalso. rewrite (runs_functional _ _ _ _ Hr' Hr1) in HT'. congruence.
  - etransitivity; [by apply quiet_switched|]. etransitivity; [exact Hsw|].
    etransitivity; [apply next_switched|apply quantum_switched].
Qed.

Lemma yield_running_spec cpu t s :
  run_ok (λ _, False) s → runs s cpu t →
  ∃ s', KiPerformYield cpu s = Ok s' ∧ switched s s' ∧
    ((run_ok (λ _, False) s' ∧ runs s' cpu t) ∨ ∃ n, leaving cpu n (λ _, False) s').
Proof.
  intros Hok Hr. pose proof (rn_kernel _ _ Hok) as Hk.
  destruct (ro_current _ _ _ (rn_running _ _ Hok) cpu t ltac:(tauto) Hr) as (T & HT & Hrun).
  unfold KiPerformYield, KiAssertOwnDispatcherLock. rewrite (ko_lock s Hk). cbn [check mbind outcome_bind].
  rewrite (runs_current s cpu t Hr). cbn [mbind outcome_bind].
  rewrite (proj2 (thread_Ok s t T) HT). cbn [mbind outcome_bind].
  destruct (account_spec cpu t T s Hr HT) as (s1 & -> & Hq). cbn [mbind outcome_bind].
  pose proof (quiet_run_ok _ s s1 Hq Hok) as Hok1.
  assert (runs s1 cpu t) as Hr1 by (apply (quiet_runs s1 s); [by symmetry|done]).
  destruct (quiet_thread_lookup s1 s t T (symmetry Hq) HT) as (T1 & HT1 & E).
  apply (f_equal Status) in E. cbn in E. rewrite (proj2 (thread_Ok s1 t T1) HT1). cbn [mbind outcome_bind].
  rewrite bool_decide_true by congruence.
  destruct (end_quantum_spec cpu t s1 Hok1 Hr1) as (s2 & -> & Hsw & Hd). exists s2. split; [done|]. split; [|done].
  etransitivity; [by apply quiet_switched|done].
Qed.

(** What holds after a processor was given up, or not. *)
Lemma quantum_end_spec cpu t T s :
  runs s cpu t → Threads s !! t = Some T →
  run_ok (λ _, False) s ∨
  run_ok (λ c, c = cpu) s ∧ Status T ≠ KTHREAD_STATUS_RUNNING ∧ Status T ≠ KTHREAD_STATUS_TERMINATED ∧
    BasePriority T ≠ PRIORITY_IDLE →
  ∃ s', KiHandleQuantumEndDispatcherLockHeld cpu s = Ok s' ∧ run_ok (λ _, False) s' ∧ switched s s'.
Proof.
  intros Hr HT Hor.
  assert (∃ s', KiPerformYield cpu s = Ok s' ∧ switched s s' ∧
    ((run_ok (λ _, False) s' ∧ runs s' cpu t) ∨ ∃ n, leaving cpu n (λ _, False) s')) as (s1 & H1 & Hsw & Hd).
  { destruct Hor as [Hok|(Hok & ? & ? & ?)]; [by apply yield_running_spec|].
    destruct (yield_stopped_spec cpu t T s) as (n & s1 & ? & ? & ?); try done. exists s1. eauto. }
  unfold KiHandleQuantumEndDispatcherLockHeld. rewrite H1. cbn [mbind outcome_bind].
  destruct Hd as [[Hok (p & Hp & Hc)]|[n Hlv]].
  - rewrite (proj2 (prcb_Ok s1 cpu p) Hp). cbn [mbind outcome_bind].
    rewrite (ro_next _ _ _ (rn_running _ _ Hok) cpu p) by tauto. exists s1. done.
  - destruct (lv_next _ _ _ _ Hlv) as (p & Hp & Hn). rewrite (proj2 (prcb_Ok s1 cpu p) Hp).
    cbn [mbind outcome_bind]. rewrite Hn. destruct (switch_spec cpu n s1 Hlv) as (s2 & -> & Hok & _ & Hsw2).
    exists s2. split; [done|]. split; [done|]. by etransitivity.
Qed.
