(* ===== verification/Dispatch.v ===== *)
(** Dispatcher objects and waits: [boron/source/ke/dispatch.c], [mutex.c],
    [semaphor.c], [event.c], the expiry of timers and the end of threads. *)
From S2P Require Import Prelude RbTree Ke Timer Sched.
Local Open Scope Z_scope.

(** ** Waits *)

(** [KiIsObjectSignaled] : boron/source/ke/dispatch.c:69-85. *)
Definition KiIsObjectSignaled (h : KDISPATCH_HEADER) (t : nat) : bool :=
  match Body h with
  | DISPATCH_MUTEX _ Owner => (Signaled h =? MUTEX_SIGNALED) || bool_decide (Owner = Some t)
  | _ => negb (Signaled h =? 0)
  end.

(** [Signaled] is a short. *)
Definition s16 (x : Z) : Z := sext 16 x.

(** [KiAcquireObject] : boron/source/ke/dispatch.c:87-150. *)
Definition KiAcquireObject (o t : nat) (s : KERNEL) : outcome KERNEL :=
  _ ← KiAssertOwnDispatcherLock s;
  h ← object s o;
  match Body h with
  | DISPATCH_SEMAPHORE _ => Ok (upd_object o (λ h, set_Signaled (s16 (Signaled h - 1)) h) s)
  | DISPATCH_MUTEX Level Owner =>
      let OldSignaled := Signaled h in
      let s := upd_object o (λ h, set_Signaled (s16 (Signaled h + 1)) h) s in
      _ ← check (bool_decide (Owner = None ∨ Owner = Some t));
      let s := upd_object o (set_Body (DISPATCH_MUTEX Level (Some t))) s in
      T ← thread s t;
      _ ← match MutexList T with
          | [] => Ok tt
          | Highest :: _ =>
              hh ← object s Highest;
              match Body hh with
              | DISPATCH_MUTEX HighestLevel _ => check (HighestLevel <=? Level)
              | _ => Crash
              end
          end;
      if OldSignaled =? MUTEX_SIGNALED then
        Ok (upd_thread t (λ T, set_MutexList (o :: MutexList T) T) s)
      else Ok s
  | DISPATCH_EVENT EVENT_SYNCHRONIZATION => Ok (upd_object o (set_Signaled 0) s)
  | _ => Ok s
  end.

(** [KepSatisfiedEnough] : boron/source/ke/dispatch.c:157-196. *)
Definition KepSatisfiedEnough (h : KDISPATCH_HEADER) (SatisfiedCount : nat) : outcome bool :=
  match Body h with
  | DISPATCH_MUTEX _ _ => Ok (negb (Signaled h =? 0))
  | DISPATCH_SEMAPHORE _ => Ok (Signaled h =? 0)
  | DISPATCH_EVENT EVENT_SYNCHRONIZATION =>
      _ ← check (SatisfiedCount <=? 1)%nat; Ok (SatisfiedCount =? 1)%nat
  | DISPATCH_EVENT EVENT_NOTIFICATION => Ok false
  | _ => Ok false
  end.

(** [KiSatisfyWaitBlock] : boron/source/ke/dispatch.c:438-446.
    The loops over the wait blocks of a [WAIT_TYPE_ALL] wait. *)
Fixpoint all_signaled (t : nat) (blocks : list nat) (s : KERNEL) : outcome bool :=
  match blocks with
  | [] => Ok true
  | o :: blocks =>
      h ← object s o;
      if KiIsObjectSignaled h t then all_signaled t blocks s else Ok false
  end.

(** [KiSatisfyWaitBlock] : boron/source/ke/dispatch.c:453-457. *)
Fixpoint acquire_all (t : nat) (blocks : list nat) (s : KERNEL) : outcome KERNEL :=
  match blocks with
  | [] => Ok s
  | o :: blocks => s ← KiAcquireObject o t s; acquire_all t blocks s
  end.

(** [KiSatisfyWaitBlock] : boron/source/ke/dispatch.c:416-461. *)
Definition KiSatisfyWaitBlock (cpu t i : nat) (Increment : Z) (s : KERNEL) : outcome (bool * KERNEL) :=
  _ ← KiAssertOwnDispatcherLock s;
  T ← thread s t;
  match WaitType T with
  | WAIT_TYPE_ANY =>
      o ← deref (WaitBlockArray T !! i);
      s ← KiAcquireObject o t s;
      s ← KiUnwaitThread cpu t (STATUS_RANGE_WAIT i) Increment s;
      Ok (true, s)
  | WAIT_TYPE_ALL =>
      Acquirable ← all_signaled t (WaitBlockArray T) s;
      if negb Acquirable then Ok (false, s)
      else
        s ← acquire_all t (WaitBlockArray T) s;
        s ← KiUnwaitThread cpu t STATUS_SUCCESS Increment s;
        Ok (true, s)
  end.

(** The entry after [e] in a list, [None] for its head. *)
Fixpoint Flink (e : nat * nat) (l : list (nat * nat)) : option (nat * nat) :=
  match l with
  | [] => None
  | x :: l => if decide (x = e) then head l else Flink e l
  end.

(** [KiWaitTestAndGetWaiter] : boron/source/ke/dispatch.c:479-503.
    The loop over the wait blocks of [o], from [CurrentEntry].  An entry that
    is in the list no more has null links. *)
Fixpoint wait_test_loop (fuel cpu o : nat) (CurrentEntry : option (nat * nat)) (SatisfiedCount : nat)
    (Result : option nat) (Increment : Z) (s : KERNEL) : outcome (option nat * KERNEL) :=
  match CurrentEntry with
  | None => Ok (Result, s)
  | Some (t, i) =>
      match fuel with
      | O => OutOfFuel
      | S fuel =>
          h ← object s o;
          _ ← check (bool_decide ((t, i) ∈ WaitBlockList h));
          let Next := Flink (t, i) (WaitBlockList h) in
          '(Satisfied, s) ← KiSatisfyWaitBlock cpu t i Increment s;
          if negb Satisfied then wait_test_loop fuel cpu o Next SatisfiedCount Result Increment s
          else
            let Result := Some t in
            let SatisfiedCount := S SatisfiedCount in
            h ← object s o;
            Enough ← KepSatisfiedEnough h SatisfiedCount;
            if Enough : bool then Ok (Result, s)
            else wait_test_loop fuel cpu o Next SatisfiedCount Result Increment s
      end
  end.

(** [KiWaitTestAndGetWaiter] : boron/source/ke/dispatch.c:463-506. *)
Definition KiWaitTestAndGetWaiter (cpu o : nat) (Increment : Z) (s : KERNEL)
  : outcome (option nat * KERNEL) :=
  _ ← KiAssertOwnDispatcherLock s;
  h ← object s o;
  current ← KeGetCurrentThread cpu s;
  c ← deref current;
  _ ← check (KiIsObjectSignaled h c);
  wait_test_loop (length (WaitBlockList h)) cpu o (head (WaitBlockList h)) 0 None Increment s.

(** [KiWaitTest] : boron/source/ke/dispatch.c:508-512. *)
Definition KiWaitTest (cpu o : nat) (Increment : Z) (s : KERNEL) : outcome KERNEL :=
  '(_, s) ← KiWaitTestAndGetWaiter cpu o Increment s; Ok s.

(** [KepWaitTimerExpiry] : boron/source/ke/dispatch.c:198-219.
    The early return leaves the dispatcher locked. *)
Definition KepWaitTimerExpiry (cpu t : nat) (s : KERNEL) : outcome KERNEL :=
  s ← KiLockDispatcher s;
  T ← thread s t;
  if bool_decide (Status T ≠ KTHREAD_STATUS_WAITING) then Ok s
  else
    s ← KiUnwaitThread cpu t STATUS_TIMEOUT 0 s;
    KiUnlockDispatcher s.

(** [KeWaitForMultipleObjects, parameters] : boron/include/ke/wait.h:22-29.
    The arguments of a wait, which its caller keeps while it waits. *)
Record WAIT := mkWait {
  WObjects : list nat;
  WType : WAIT_TYPE;
  WAlertable : bool;
  WTimeoutMS : Z;
  WMode : KPROCESSOR_MODE }.

(** [KeWaitForMultipleObjects] : boron/source/ke/dispatch.c:281-301.
    The first loop: the position of an object to acquire for
    [WAIT_TYPE_ANY], and whether each object was signaled. *)
Fixpoint test_objects (t : nat) (wt : WAIT_TYPE) (i : nat) (os : list nat) (Satisfied : bool) (s : KERNEL)
  : outcome (bool * option nat * KERNEL) :=
  match os with
  | [] => Ok (Satisfied, None, s)
  | o :: os =>
      h ← object s o;
      let IsSignaled := KiIsObjectSignaled h t in
      if IsSignaled && bool_decide (wt = WAIT_TYPE_ANY) then
        s ← KiAcquireObject o t s; Ok (true, Some i, s)
      else test_objects t wt (S i) os (if IsSignaled then Satisfied else false) s
  end.

(** [KeWaitForMultipleObjects] : boron/source/ke/dispatch.c:329-335.
    The loop that queues the wait blocks. *)
Fixpoint insert_wait_blocks (t i : nat) (os : list nat) (s : KERNEL) : outcome KERNEL :=
  match os with
  | [] => Ok s
  | o :: os =>
      h ← object s o;
      insert_wait_blocks t (S i) os (upd_object o (set_WaitBlockList (WaitBlockList h ++ [(t, i)])) s)
  end.

(** [KeWaitForMultipleObjects] : boron/source/ke/dispatch.c:266-367.
    The body of the wait's loop up to the yield: the status to return, or
    [None] when the thread waits.  The thread that runs next unlocks the
    dispatcher. *)
Definition wait_attempt (cpu t : nat) (w : WAIT) (s : KERNEL) : outcome (option BSTATUS * KERNEL) :=
  T ← thread s t;
  if bool_decide (WMode w = MODE_USER) && PendingTermination T then
    s ← KiUnlockDispatcher s; Ok (Some STATUS_KILLED, s)
  else
    '(Satisfied, Index, s) ← test_objects t (WType w) 0 (WObjects w) true s;
    if Satisfied && bool_decide (WType w = WAIT_TYPE_ANY) then
      s ← KiUnlockDispatcher s; Ok (Some (STATUS_RANGE_WAIT (default O Index)), s)
    else if (Satisfied : bool) then
      s ← acquire_all t (WObjects w) s;
      s ← KiUnlockDispatcher s; Ok (Some STATUS_SUCCESS, s)
    else if WTimeoutMS w =? 0 then
      s ← KiUnlockDispatcher s; Ok (Some STATUS_TIMEOUT, s)
    else
      s ← insert_wait_blocks t 0 (WObjects w) s;
      let s := upd_thread t (λ T, set_Status KTHREAD_STATUS_WAITING (set_WaitMode (WMode w)
                 (set_WaitStatus STATUS_WAITING (set_WaitIsAlertable (WAlertable w)
                 (set_WaitType (WType w) (set_WaitBlockArray (WObjects w) T)))))) s in
      s ← (if WTimeoutMS w =? TIMEOUT_INFINITE then Ok s
           else
             s ← KeInitializeDpc (WaitDpc T) (KepWaitTimerExpiry_routine t) s;
             s ← KeSetImportantDpc (WaitDpc T) true s;
             s ← KeInitializeTimer (WaitTimer T) s;
             p ← prcb s cpu;
             '(_, s) ← KiSetTimer (length (TimerTree p)) cpu (WaitTimer T) (WTimeoutMS w)
                         (Some (WaitDpc T)) s;
             Ok s);
      let s := upd_thread t (set_ThreadQuantumUntil 0) s in
      s ← KiHandleQuantumEndDispatcherLockHeld cpu s;
      s ← KiUnlockDispatcher s;
      Ok (None, s).

(** [KeWaitForMultipleObjects] : boron/source/ke/dispatch.c:221-403.
    From the call to the return or to the yield.  [own_blocks] tells whether
    the caller passes a wait block array. *)
Definition KeWaitForMultipleObjects (cpu : nat) (w : WAIT) (own_blocks : bool) (s : KERNEL)
  : outcome (option BSTATUS * KERNEL) :=
  current ← KeGetCurrentThread cpu s;
  t ← deref current;
  _ ← check (length (WObjects w) <=? (if own_blocks then MAXIMUM_WAIT_BLOCKS else THREAD_WAIT_BLOCKS))%nat;
  T ← thread s t;
  s ← (if DidCallWaitFunction T then Ok (upd_thread t (set_DidCallWaitFunction false) s)
       else KiLockDispatcher s);
  wait_attempt cpu t w s.

(** [KeWaitForMultipleObjects] : boron/source/ke/dispatch.c:366-400.
    What follows the yield, when the thread runs again on processor [cpu]. *)
Definition wait_resume (cpu t : nat) (w : WAIT) (s : KERNEL) : outcome (option BSTATUS * KERNEL) :=
  T ← thread s t;
  let St := WaitStatus T in
  _ ← check (WAlertable w || bool_decide (St ≠ STATUS_ALERTED));
  if bool_decide (St = STATUS_KILLED) && (WAlertable w || bool_decide (WMode w = MODE_USER)) then
    Ok (Some St, s)
  else if bool_decide (St = STATUS_ALERTED) && WAlertable w && bool_decide (WMode w = MODE_USER) then
    Ok (Some St, s)
  else
    _ ← check (bool_decide (St ≠ STATUS_WAITING));
    if bool_decide (St ≠ STATUS_KERNEL_APC) then Ok (Some St, s)
    else s ← KiLockDispatcher s; wait_attempt cpu t w s.

(** [KeWaitForSingleObject] : boron/source/ke/dispatch.c:405-414. *)
Definition KeWaitForSingleObject (cpu o : nat) (Alertable : bool) (TimeoutMS : Z) (Mode : KPROCESSOR_MODE)
    (s : KERNEL) : outcome (option BSTATUS * KERNEL) :=
  '(St, s) ← KeWaitForMultipleObjects cpu (mkWait [o] WAIT_TYPE_ANY Alertable TimeoutMS Mode) false s;
  Ok (if decide (St = Some (STATUS_RANGE_WAIT 0)) then Some STATUS_SUCCESS else St, s).

(** [KiLockDispatcherWait] : boron/source/ke/dispatch.c:34-42. *)
Definition KiLockDispatcherWait (cpu : nat) (s : KERNEL) : outcome KERNEL :=
  s ← KiLockDispatcher s;
  current ← KeGetCurrentThread cpu s;
  t ← deref current;
  Ok (upd_thread t (set_DidCallWaitFunction true) s).

(** ** Mutexes *)

(** [KiReleaseMutex] : boron/source/ke/mutex.c:16-40. *)
Definition KiReleaseMutex (cpu m : nat) (s : KERNEL) : outcome KERNEL :=
  _ ← KiAssertOwnDispatcherLock s;
  h ← object s m;
  current ← KeGetCurrentThread cpu s;
  match Body h with
  | DISPATCH_MUTEX Level Owner =>
      _ ← check (bool_decide (Owner = current));
      let Sig := s16 (Signaled h - 1) in
      let s := upd_object m (set_Signaled Sig) s in
      _ ← check (MUTEX_SIGNALED <=? Sig);
      if Sig =? MUTEX_SIGNALED then
        t ← deref current;
        T ← thread s t;
        l ← RemoveEntryList m (MutexList T);
        let s := upd_thread t (set_MutexList l) s in
        let s := upd_object m (set_Body (DISPATCH_MUTEX Level None)) s in
        KiWaitTest cpu m 1 s
      else Ok s
  | _ => Crash
  end.

(** [KeInitializeMutex] : boron/source/ke/mutex.c:44-55. *)
Definition KeInitializeMutex (m : nat) (Level : Z) (s : KERNEL) : outcome KERNEL :=
  _ ← object s m;
  Ok (upd_object m (λ _, mkObject MUTEX_SIGNALED [] (DISPATCH_MUTEX Level None)) s).

(** [KeReleaseMutex] : boron/source/ke/mutex.c:63-70. *)
Definition KeReleaseMutex (cpu m : nat) (s : KERNEL) : outcome KERNEL :=
  s ← KiLockDispatcher s; s ← KiReleaseMutex cpu m s; KiUnlockDispatcher s.

(** [KeReleaseMutexWait] : boron/source/ke/mutex.c:72-76. *)
Definition KeReleaseMutexWait (cpu m : nat) (s : KERNEL) : outcome KERNEL :=
  s ← KiLockDispatcherWait cpu s; KiReleaseMutex cpu m s.

(** ** Semaphores *)

(** [KiReleaseSemaphore] : boron/source/ke/semaphor.c:21-38. *)
Definition KiReleaseSemaphore (cpu o : nat) (Adjustment Increment : Z) (s : KERNEL) : outcome KERNEL :=
  _ ← check (0 <? Adjustment);
  _ ← KiAssertOwnDispatcherLock s;
  h ← object s o;
  let Sig := s16 (Signaled h + Adjustment) in
  let s := upd_object o (set_Signaled Sig) s in
  _ ← check (0 <=? Sig);
  _ ← check (0 <? Sig);
  KiWaitTest cpu o Increment s.

(** [KeInitializeSemaphore] : boron/source/ke/semaphor.c:42-49. *)
Definition KeInitializeSemaphore (o : nat) (Count Limit : Z) (s : KERNEL) : outcome KERNEL :=
  _ ← object s o;
  Ok (upd_object o (λ _, mkObject (s16 Count) [] (DISPATCH_SEMAPHORE Limit)) s).

Definition is_semaphore (h : KDISPATCH_HEADER) : bool :=
  match Body h with DISPATCH_SEMAPHORE _ => true | _ => false end.

(** [KeReadStateSemaphore] : boron/source/ke/semaphor.c:51-56. *)
Definition KeReadStateSemaphore (o : nat) (s : KERNEL) : outcome Z :=
  h ← object s o; _ ← check (is_semaphore h); Ok (Signaled h).

(** [KeReleaseSemaphore] : boron/source/ke/semaphor.c:58-64. *)
Definition KeReleaseSemaphore (cpu o : nat) (Adjustment Increment : Z) (s : KERNEL) : outcome KERNEL :=
  h ← object s o; _ ← check (is_semaphore h);
  s ← KiLockDispatcher s; s ← KiReleaseSemaphore cpu o Adjustment Increment s; KiUnlockDispatcher s.

(** [KeReleaseSemaphoreWait] : boron/source/ke/semaphor.c:66-71. *)
Definition KeReleaseSemaphoreWait (cpu o : nat) (Adjustment Increment : Z) (s : KERNEL) : outcome KERNEL :=
  h ← object s o; _ ← check (is_semaphore h);
  s ← KiLockDispatcherWait cpu s; KiReleaseSemaphore cpu o Adjustment Increment s.

(** ** Events *)

(** [KiSetEvent] : boron/source/ke/event.c:16-23. *)
Definition KiSetEvent (cpu o : nat) (Increment : Z) (s : KERNEL) : outcome KERNEL :=
  _ ← KiAssertOwnDispatcherLock s;
  _ ← object s o;
  KiWaitTest cpu o Increment (upd_object o (set_Signaled 1) s).

(** [KiSetEventAndGetWaiter] : boron/source/ke/event.c:25-37. *)
Definition KiSetEventAndGetWaiter (cpu o : nat) (Increment : Z) (s : KERNEL) : outcome (option nat * KERNEL) :=
  h ← object s o;
  _ ← check (match Body h with DISPATCH_EVENT EVENT_SYNCHRONIZATION => true | _ => false end);
  _ ← KiAssertOwnDispatcherLock s;
  KiWaitTestAndGetWaiter cpu o Increment (upd_object o (set_Signaled 1) s).

(** [KiResetEvent] : boron/source/ke/event.c:39-49. *)
Definition KiResetEvent (o : nat) (s : KERNEL) : outcome KERNEL :=
  _ ← KiAssertOwnDispatcherLock s;
  _ ← object s o;
  Ok (upd_object o (set_Signaled 0) s).

(** [KeInitializeEvent] : boron/source/ke/event.c:53-62. *)
Definition KeInitializeEvent (o : nat) (EventType : EVENT_TYPE) (State : bool) (s : KERNEL) : outcome KERNEL :=
  _ ← object s o;
  Ok (upd_object o (λ _, mkObject (Z.b2z State) [] (DISPATCH_EVENT EventType)) s).

(** [KeReadStateEvent] : boron/source/ke/event.c:64-68. *)
Definition KeReadStateEvent (o : nat) (s : KERNEL) : outcome bool :=
  h ← object s o;
  match Body h with DISPATCH_EVENT _ => Ok (negb (Signaled h =? 0)) | _ => Crash end.

(** [KeSetEvent] : boron/source/ke/event.c:70-77. *)
Definition KeSetEvent (cpu o : nat) (Increment : Z) (s : KERNEL) : outcome KERNEL :=
  s ← KiLockDispatcher s; s ← KiSetEvent cpu o Increment s; KiUnlockDispatcher s.

(** [KeResetEvent] : boron/source/ke/event.c:79-86. *)
Definition KeResetEvent (o : nat) (s : KERNEL) : outcome KERNEL :=
  s ← KiLockDispatcher s; s ← KiResetEvent o s; KiUnlockDispatcher s.

(** [KePulseEvent] : boron/source/ke/event.c:88-96. *)
Definition KePulseEvent (cpu o : nat) (Increment : Z) (s : KERNEL) : outcome KERNEL :=
  s ← KiLockDispatcher s; s ← KiSetEvent cpu o Increment s; s ← KiResetEvent o s; KiUnlockDispatcher s.

(** [KeSetEventAndGetWaiter] : boron/source/ke/event.c:101-110. *)
Definition KeSetEventAndGetWaiter (cpu o : nat) (Increment : Z) (s : KERNEL) : outcome (option nat * KERNEL) :=
  s ← KiLockDispatcher s;
  '(Result, s) ← KiSetEventAndGetWaiter cpu o Increment s;
  s ← KiUnlockDispatcher s;
  Ok (Result, s).

(** [KeSetEventWait] : boron/source/ke/event.c:114-118. *)
Definition KeSetEventWait (cpu o : nat) (Increment : Z) (s : KERNEL) : outcome KERNEL :=
  s ← KiLockDispatcherWait cpu s; KiSetEvent cpu o Increment s.

(** [KeResetEventWait] : boron/source/ke/event.c:120-124. *)
Definition KeResetEventWait (cpu o : nat) (s : KERNEL) : outcome KERNEL :=
  s ← KiLockDispatcherWait cpu s; KiResetEvent o s.

(** [KePulseEventWait] : boron/source/ke/event.c:126-131. *)
Definition KePulseEventWait (cpu o : nat) (Increment : Z) (s : KERNEL) : outcome KERNEL :=
  s ← KiLockDispatcherWait cpu s; s ← KiSetEvent cpu o Increment s; KiResetEvent o s.

(** ** Expiry of timers *)

(** [KiDispatchTimerObjects] : boron/source/ke/timer.c:132-150.
    The loop over the timers that are due. *)
Fixpoint dispatch_timers (fuel cpu : nat) (s : KERNEL) : outcome KERNEL :=
  p ← prcb s cpu;
  match GetFirstEntryRbTree (TimerTree p) with
  | None => Ok s
  | Some (_, o) =>
      T ← timer s o;
      if u64 (TickCount s + 100) <=? ExpiryTick T then Ok s
      else
        match fuel with
        | O => OutOfFuel
        | S fuel =>
            s ← match TimerDpc T with Some d => KeEnqueueDpc cpu d s | None => Ok s end;
            let s := upd_timer o (set_IsEnqueued false) (upd_object o (set_Signaled 1) s) in
            s ← KiRemoveTimerTree o s;
            s ← KiWaitTest cpu o 2 s;
            dispatch_timers fuel cpu s
        end
  end.

(** [KiDispatchTimerObjects] : boron/source/ke/timer.c:126-151. *)
Definition KiDispatchTimerObjects (fuel cpu : nat) (s : KERNEL) : outcome KERNEL :=
  _ ← KiAssertOwnDispatcherLock s; dispatch_timers fuel cpu s.

(** [KiDispatchTimerQueue] : boron/source/ke/timer.c:153-161. *)
Definition KiDispatchTimerQueue (fuel cpu : nat) (s : KERNEL) : outcome KERNEL :=
  s ← KiLockDispatcher s;
  Next ← KiGetNextTimerExpiryTick cpu s;
  s ← (if Next <=? u64 (TickCount s + 100) then KiDispatchTimerObjects fuel cpu s else Ok s);
  KiUnlockDispatcher s.

(** ** The end of threads *)

(** [KiTerminateThread] : boron/source/ke/thread.c:121-142. *)
Definition KiTerminateThread (cpu t : nat) (Increment : Z) (s : KERNEL) : outcome KERNEL :=
  T ← thread s t;
  if PendingTermination T then Ok s
  else
    let s := upd_thread t (λ T, set_IncrementTerminated Increment (set_PendingTermination true T)) s in
    if bool_decide (Status T = KTHREAD_STATUS_WAITING) &&
       (WaitIsAlertable T || bool_decide (WaitMode T = MODE_USER))
    then KiUnwaitThread cpu t STATUS_KILLED Increment s
    else Ok s.

(** [KiOnKillProcess] : boron/source/ke/process.c:24-35. *)
Definition KiOnKillProcess (cpu o : nat) (s : KERNEL) : outcome KERNEL :=
  current ← KeGetCurrentThread cpu s;
  c ← deref current;
  C ← thread s c;
  _ ← check (bool_decide (ThreadProcess C ≠ o));
  _ ← object s o;
  KiWaitTest cpu o 0 (upd_object o (set_Signaled 1) s).

(** [KepCleanUpThread] : boron/source/ke/sched.c:440-488.
    Up to the thread's own termination callback. *)
Definition KepCleanUpThread (cpu t : nat) (s : KERNEL) : outcome KERNEL :=
  s ← KiLockDispatcher s;
  T ← thread s t;
  l ← RemoveEntryList t (KiGlobalThreadList s);
  let s := set_KiGlobalThreadList l s in
  let o := ThreadProcess T in
  h ← object s o;
  match Body h with
  | DISPATCH_PROCESS threads =>
      threads ← RemoveEntryList t threads;
      let s := upd_object o (set_Body (DISPATCH_PROCESS threads)) s in
      _ ← object s (ThreadHeader T);
      let s := upd_object (ThreadHeader T) (set_Signaled 1) s in
      s ← KiWaitTest cpu (ThreadHeader T) (IncrementTerminated T) s;
      s ← match threads with [] => KiOnKillProcess cpu o s | _ => Ok s end;
      KiUnlockDispatcher s
  | _ => Crash
  end.
