(* ===== verification/DispatchSpec.v ===== *)
(** The dispatcher's contract: an abstract machine of objects, waits and owned
    mutexes, the invariant that no thread sleeps on a wait that could be
    satisfied, and the refinement of the routines of Dispatch.v to it. *)
From S2P Require Import Prelude RbTree Ke Timer Sched Dispatch.
Local Open Scope Z_scope.

(** ** The abstract dispatcher *)

Record DVIEW := mkView { dobjs : gmap nat DOBJ; dthrs : gmap nat DTHR }.

Definition view (s : KERNEL) : DVIEW := mkView (dobj s) (dthr s).

(** Whether thread [t] could acquire object [o]. *)
Definition signaled (d : DVIEW) (o t : nat) : bool :=
  match dobjs d !! o with
  | Some x =>
      match okind x with
      | KMutex _ ow => (sig x =? 0) || bool_decide (ow = Some t)
      | _ => negb (sig x =? 0)
      end
  | None => false
  end.

Definition set_sig (v : Z) (x : DOBJ) : DOBJ := mkDobj v (waiters x) (okind x).
Definition set_owner (t : nat) (x : DOBJ) : DOBJ :=
  mkDobj (sig x) (waiters x) (match okind x with KMutex l _ => KMutex l (Some t) | k => k end).

Definition a_acquire (o t : nat) (d : DVIEW) : DVIEW :=
  match dobjs d !! o with
  | Some x =>
      match okind x with
      | KSemaphore => mkView (<[o := set_sig (sig x - 1) x]> (dobjs d)) (dthrs d)
      | KMutex _ _ =>
          mkView (<[o := set_owner t (set_sig (sig x + 1) x)]> (dobjs d))
            (if sig x =? 0 then alter (λ y, mkDthr (wait y) (o :: owned y)) t (dthrs d) else dthrs d)
      | KEvent EVENT_SYNCHRONIZATION => mkView (<[o := set_sig 0 x]> (dobjs d)) (dthrs d)
      | _ => d
      end
  | None => d
  end.

Definition a_unwait (t : nat) (d : DVIEW) : DVIEW :=
  mkView (unblock t <$> dobjs d) (alter (λ y, mkDthr None (owned y)) t (dthrs d)).

(** [t] waits for the objects [bl]. *)
Definition waits (d : DVIEW) (t : nat) (wt : WAIT_TYPE) (bl : list nat) : Prop :=
  ∃ y, dthrs d !! t = Some y ∧ wait y = Some (wt, bl).

Definition a_satisfy (t i : nat) (d : DVIEW) : option DVIEW :=
  y ← dthrs d !! t;
  '(wt, bl) ← wait y;
  match wt with
  | WAIT_TYPE_ANY => o ← bl !! i; Some (a_unwait t (a_acquire o t d))
  | WAIT_TYPE_ALL =>
      if forallb (λ o, signaled d o t) bl then
        Some (a_unwait t (foldl (λ d o, a_acquire o t d) d bl))
      else None
  end.

(** Whether [o] has nothing left for another waiter. *)
Definition a_enough (o : nat) (d : DVIEW) : bool :=
  match dobjs d !! o with
  | Some x =>
      match okind x with
      | KMutex _ _ => negb (sig x =? 0)
      | KSemaphore => sig x =? 0
      | KEvent EVENT_SYNCHRONIZATION => true
      | _ => false
      end
  | None => false
  end.

(** Offering [o] to its waiters in the order of their arrival. *)
Fixpoint a_wait_test (es : list (nat * nat)) (o : nat) (d : DVIEW) : DVIEW :=
  match es with
  | [] => d
  | (t, i) :: es =>
      match a_satisfy t i d with
      | None => a_wait_test es o d
      | Some d' => if a_enough o d' then d' else a_wait_test es o d'
      end
  end.

(** ** The invariant *)

Definition ready (d : DVIEW) (t : nat) (wt : WAIT_TYPE) (bl : list nat) : Prop :=
  match wt with
  | WAIT_TYPE_ANY => ∃ o, o ∈ bl ∧ signaled d o t = true
  | WAIT_TYPE_ALL => ∀ o, o ∈ bl → signaled d o t = true
  end.

Definition level (d : DVIEW) (o : nat) : option Z :=
  x ← dobjs d !! o; match okind x with KMutex l _ => Some l | _ => None end.

(** The mutexes among [bl] are acquired in the order of their levels, after
    one of level [top]. *)
Fixpoint ordered (d : DVIEW) (top : option Z) (bl : list nat) : Prop :=
  match bl with
  | [] => True
  | o :: bl =>
      match level d o with
      | None => ordered d top bl
      | Some l => (∀ z, top = Some z → z ≤ l) ∧ ordered d (Some l) bl
      end
  end.

Definition top_level (d : DVIEW) (y : DTHR) : option Z := head (owned y) ≫= level d.

(** The wait respects the order of mutex levels and recursion fits a short. *)
Definition may_acquire (d : DVIEW) (t : nat) (y : DTHR) (wt : WAIT_TYPE) (bl : list nat) : Prop :=
  match wt with
  | WAIT_TYPE_ANY => ∀ o, o ∈ bl → ordered d (top_level d y) [o]
  | WAIT_TYPE_ALL => ordered d (top_level d y) bl
  end ∧
  ∀ o x l, o ∈ bl → dobjs d !! o = Some x → okind x = KMutex l (Some t) → sig x + 1 < 2 ^ 15.

(** Wait blocks and lists agree, mutexes and their owners agree, and the waits
    of the threads outside of [skip] respect the levels. *)
Record links (skip : nat → Prop) (d : DVIEW) : Prop := {
  l_nodup o x : dobjs d !! o = Some x → NoDup (waiters x);
  l_waiter o x t i : dobjs d !! o = Some x →
    (t, i) ∈ waiters x ↔ ∃ wt bl, waits d t wt bl ∧ bl !! i = Some o;
  l_blocks t wt bl : waits d t wt bl → NoDup bl ∧ ∀ o, o ∈ bl → is_Some (dobjs d !! o);
  l_mutex o x l ow : dobjs d !! o = Some x → okind x = KMutex l ow →
    0 ≤ sig x < 2 ^ 15 ∧ (sig x = 0 ↔ ow = None) ∧
    ∀ t, ow = Some t → ∃ y, dthrs d !! t = Some y ∧ o ∈ owned y;
  l_owned t y : dthrs d !! t = Some y → NoDup (owned y) ∧
    ∀ o, o ∈ owned y → ∃ x l, dobjs d !! o = Some x ∧ okind x = KMutex l (Some t);
  l_semaphore o x : dobjs d !! o = Some x → okind x = KSemaphore → 0 ≤ sig x < 2 ^ 15;
  l_levels t y wt bl : ¬ skip t → dthrs d !! t = Some y → wait y = Some (wt, bl) →
    may_acquire d t y wt bl }.

(** No thread outside of [late] sleeps on a wait that could be satisfied. *)
Definition asleep (late : nat → Prop) (d : DVIEW) : Prop :=
  ∀ t wt bl, waits d t wt bl → late t ∨ ¬ ready d t wt bl.

(** The invariant of the dispatcher. *)
Definition dispatcher_ok (d : DVIEW) : Prop := links (λ _, False) d ∧ asleep (λ _, False) d.

(** Object [o] can be acquired by whoever comes first. *)
Definition available (d : DVIEW) (o : nat) : Prop :=
  ∃ x, dobjs d !! o = Some x ∧
    match okind x with KMutex _ _ => sig x = 0 | _ => sig x ≠ 0 end.

(** *** Acquiring *)

(** What acquiring [o] by [t] needs. *)
Definition acquirable (d : DVIEW) (o t : nat) (y : DTHR) : Prop :=
  dthrs d !! t = Some y ∧ signaled d o t = true ∧ ordered d (top_level d y) [o] ∧
  ∀ x l, dobjs d !! o = Some x → okind x = KMutex l (Some t) → sig x + 1 < 2 ^ 15.

Lemma a_acquire_lookup o t d o' :
  dobjs (a_acquire o t d) !! o' =
    if decide (o' = o) then
      (λ x, match okind x with
            | KSemaphore => set_sig (sig x - 1) x
            | KMutex _ _ => set_owner t (set_sig (sig x + 1) x)
            | KEvent EVENT_SYNCHRONIZATION => set_sig 0 x
            | _ => x end) <$> dobjs d !! o
    else dobjs d !! o'.
Proof.
  unfold a_acquire. destruct (dobjs d !! o) as [x|] eqn:Hx; case_decide as Ho; subst; cbn; rewrite ?Hx.
  - destruct (okind x) as [[]| | | | |]; cbn; rewrite ?Hx, ?lookup_insert_eq; done.
  - destruct (okind x) as [[]| | | | |]; cbn; rewrite ?lookup_insert_ne by done; done.
  - done.
  - done.
Qed.

Lemma a_acquire_waiters o t d o' x' :
  dobjs (a_acquire o t d) !! o' = Some x' →
  ∃ x, dobjs d !! o' = Some x ∧ waiters x' = waiters x ∧
    match okind x, okind x' with
    | KMutex l _, KMutex l' _ => l' = l
    | k, k' => k' = k end.
Proof.
  rewrite a_acquire_lookup. case_decide as Ho; subst.
  - destruct (dobjs d !! o) as [x|]; cbn; [|done]. intros [= <-]. exists x.
    destruct (okind x) as [[]| | | | |] eqn:Hk; cbn; rewrite ?Hk; done.
  - intros Hx. exists x'. split_and!; try done. by destruct (okind x').
Qed.

Lemma a_acquire_level o t d o' : level (a_acquire o t d) o' = level d o'.
Proof.
  unfold level. rewrite a_acquire_lookup. case_decide as Ho; subst; [|done].
  destruct (dobjs d !! o) as [x|]; cbn; [|done]. destruct (okind x) as [[]| | | | |] eqn:Hk; cbn; by rewrite ?Hk.
Qed.

Lemma a_acquire_thr o t d t' :
  dthrs (a_acquire o t d) !! t' =
    (λ y, match dobjs d !! o with
          | Some x => match okind x with
                      | KMutex _ _ => if (sig x =? 0) && bool_decide (t' = t) then mkDthr (wait y) (o :: owned y) else y
                      | _ => y end
          | None => y end) <$> dthrs d !! t'.
Proof.
  unfold a_acquire. destruct (dobjs d !! o) as [x|]; [|by destruct (dthrs d !! t')].
  destruct (okind x) as [[]| | | | |]; cbn; try by destruct (dthrs d !! t').
  destruct (sig x =? 0); cbn; [|by destruct (dthrs d !! t')].
  destruct (decide (t' = t)) as [->|Hne].
  - rewrite lookup_alter_eq. by rewrite bool_decide_true.
  - rewrite lookup_alter_ne by done. rewrite bool_decide_false by done. by destruct (dthrs d !! t').
Qed.

Lemma a_acquire_waits o t d t' wt bl : waits (a_acquire o t d) t' wt bl ↔ waits d t' wt bl.
Proof.
  unfold waits. rewrite a_acquire_thr. destruct (dthrs d !! t') as [y|]; cbn; [|done].
  assert (∀ y', wait y' = wait y → (∃ y0, Some y' = Some y0 ∧ wait y0 = Some (wt, bl)) ↔
    ∃ y0, Some y = Some y0 ∧ wait y0 = Some (wt, bl)) as H.
  { intros y' Hy'. split; intros (? & [= <-] & ?); eexists; (split; [done|]); congruence. }
  apply H. destruct (dobjs d !! o) as [x|]; [|done]. destruct (okind x); try done.
  by destruct (_ && _).
Qed.

Lemma ordered_level d d' top bl :
  (∀ o, level d' o = level d o) → ordered d' top bl ↔ ordered d top bl.
Proof.
  intros Hl. revert top. induction bl as [|o bl IH]; intros top; cbn; [done|]. rewrite Hl.
  destruct (level d o); by rewrite ?IH.
Qed.

Lemma ordered_weaken d top top' bl :
  (∀ z, top' = Some z → ∃ z', top = Some z' ∧ z ≤ z') → ordered d top bl → ordered d top' bl.
Proof.
  revert top top'. induction bl as [|o bl IH]; intros top top' Ht; cbn; [done|].
  destruct (level d o) as [l|].
  - intros [H1 H2]. split; [|done]. intros z (z' & ? & ?)%Ht. specialize (H1 z' ltac:(done)). lia.
  - by apply IH.
Qed.

(** Only the acquiring thread may find more signaled. *)
Lemma acquire_signaled skip o t d y o' t' :
  links skip d → acquirable d o t y → t' ≠ t →
  signaled (a_acquire o t d) o' t' = true → signaled d o' t' = true.
Proof.
  intros Hl (Hy & Hsig & _ & Hc) Hne. unfold signaled at 1. rewrite a_acquire_lookup.
  case_decide as Ho; subst; [|done].
  unfold signaled in *. destruct (dobjs d !! o) as [x|] eqn:Hx; cbn; [|done].
  destruct (okind x) as [[]| | lv ow | | |] eqn:Hk; cbn; rewrite ?Hk; try done.
  - intros Hor. apply orb_true_iff in Hor as [Hz|Hown].
    + apply Z.eqb_eq in Hz. destruct (l_mutex _ _ Hl o x lv ow Hx Hk) as (? & _). lia.
    + apply bool_decide_eq_true in Hown. by injection Hown as ->.
Qed.

Lemma acquire_not_ready skip o t d y t' wt bl :
  links skip d → acquirable d o t y → t' ≠ t →
  ready (a_acquire o t d) t' wt bl → ready d t' wt bl.
Proof.
  intros Hl Ha Hne. destruct wt; cbn.
  - intros Hr o' Ho'. by eapply acquire_signaled, Hr.
  - intros (o' & Ho' & Hr). exists o'. split; [done|]. by eapply acquire_signaled.
Qed.

Lemma acquirable_mutex skip d o t y x l ow :
  links skip d → acquirable d o t y → dobjs d !! o = Some x → okind x = KMutex l ow →
  0 ≤ sig x ∧ sig x + 1 < 2 ^ 15 ∧
  (sig x = 0 ∧ ow = None ∨ sig x ≠ 0 ∧ ow = Some t).
Proof.
  intros Hl (Hy & Hsig & _ & Hc) Hx Hk. destruct (l_mutex _ _ Hl o x l ow Hx Hk) as (Hr & Hz & _).
  unfold signaled in Hsig. rewrite Hx, Hk in Hsig. apply orb_true_iff in Hsig as [H|H].
  - apply Z.eqb_eq in H. split; [lia|]. split; [lia|]. left. split; [done|]. by apply Hz.
  - apply bool_decide_eq_true in H as ->. specialize (Hc x l Hx Hk). split; [lia|]. split; [done|].
    right. split; [|done]. intros H0. by apply Hz in H0.
Qed.

Lemma acquire_links skip d o t y :
  links skip d → acquirable d o t y → links (λ t', skip t' ∨ t' = t) (a_acquire o t d).
Proof.
  intros Hl Ha. pose proof Ha as (Hy & Hsig & Hord & Hc).
  assert (∀ x l ow, dobjs d !! o = Some x → okind x = KMutex l ow →
    0 ≤ sig x ∧ sig x + 1 < 2 ^ 15 ∧ (sig x = 0 ∧ ow = None ∨ sig x ≠ 0 ∧ ow = Some t)) as Hm
    by (intros x l ow; by eapply acquirable_mutex).
  split.
  - intros o' x' (x & Hx & -> & _)%a_acquire_waiters. by eapply l_nodup.
  - intros o' x' t' i (x & Hx & -> & _)%a_acquire_waiters. rewrite (l_waiter _ _ Hl o' x t' i Hx).
    by setoid_rewrite a_acquire_waits.
  - intros t' wt bl Hw%a_acquire_waits. destruct (l_blocks _ _ Hl t' wt bl Hw) as [Hnd Hex].
    split; [done|]. intros o' Ho'. rewrite a_acquire_lookup. case_decide; subst; [|by apply Hex].
    destruct (Hex o Ho') as [x ->]. by eexists.
  - intros o' x' l ow' Hx' Hk'. rewrite a_acquire_lookup in Hx'. case_decide as Ho; subst.
    + destruct (dobjs d !! o) as [x|] eqn:Hx; [|done]. cbn in Hx'. injection Hx' as <-.
      destruct (okind x) as [[]| |lv ow| | |] eqn:Hk; cbn in Hk'; rewrite ?Hk in Hk'; try done.
      injection Hk' as <- <-. cbn. destruct (Hm x lv ow eq_refl Hk) as (H0 & H1 & H2).
      split; [lia|]. split; [split; [lia|done]|]. intros t0 [= <-]. rewrite a_acquire_thr, Hy, Hx, Hk. cbn.
      eexists. split; [done|]. rewrite bool_decide_true, andb_true_r by done.
      destruct (Z.eqb_spec (sig x) 0); cbn; [left|]. destruct H2 as [[? _]|[_ ->]]; [done|].
      destruct (l_mutex _ _ Hl o x lv (Some t) Hx Hk) as (_ & _ & Hown).
      destruct (Hown t eq_refl) as (y0 & Hy0 & ?). rewrite Hy in Hy0. by injection Hy0 as <-.
    + destruct (l_mutex _ _ Hl o' x' l ow' Hx' Hk') as (? & ? & Hown). split; [done|]. split; [done|].
      intros t0 Ht0. destruct (Hown t0 Ht0) as (y0 & Hy0 & Hin). rewrite a_acquire_thr, Hy0. cbn.
      eexists. split; [done|]. destruct (dobjs d !! o) as [x|]; [|done]. destruct (okind x); try done.
      destruct (_ && _); [by right|done].
  - intros t' y' Hy'. rewrite a_acquire_thr in Hy'. destruct (dthrs d !! t') as [y0|] eqn:Hy0; [|done].
    injection Hy' as <-. destruct (l_owned _ _ Hl t' y0 Hy0) as [Hnd Hown].
    assert (∀ o', o' ∈ owned y0 → ∃ x l, dobjs (a_acquire o t d) !! o' = Some x ∧ okind x = KMutex l (Some t'))
      as Hown'.
    { intros o' Ho'. destruct (Hown o' Ho') as (x & l & Hx & Hk). rewrite a_acquire_lookup.
      case_decide; subst; [|eauto]. rewrite Hx. cbn. rewrite Hk. eexists _, l. split; [done|]. cbn. rewrite Hk.
      destruct (Hm x l _ Hx Hk) as (_ & _ & [[_ ?]|[_ [= <-]]]); done. }
    destruct (dobjs d !! o) as [x|] eqn:Hx; [|done]. destruct (okind x) as [[]| |lv ow| | |] eqn:Hk; try done.
    destruct (Z.eqb_spec (sig x) 0) as [Hz|Hz]; [|done]. cbn.
    case_bool_decide as Ht; subst; [|done]. cbn.
    rewrite Hy in Hy0. injection Hy0 as <-. split.
    + constructor; [|done]. intros Hin. destruct (Hown o Hin) as (x0 & l0 & Hx0 & Hk0).
      rewrite Hx in Hx0. injection Hx0 as <-. rewrite Hk in Hk0. injection Hk0 as -> ->.
      destruct (Hm x l0 _ eq_refl Hk) as (_ & _ & [[_ ?]|[? _]]); done.
    + intros o' [->|Ho']%elem_of_cons; [|by apply Hown']. rewrite a_acquire_lookup, decide_True by done.
      rewrite Hx. cbn. rewrite Hk. eexists _, lv. split; [done|]. cbn. by rewrite Hk.
  - intros o' x' Hx' Hk'. rewrite a_acquire_lookup in Hx'. case_decide as Ho; subst.
    + destruct (dobjs d !! o) as [x|] eqn:Hx; [|done]. cbn in Hx'. injection Hx' as <-.
      destruct (okind x) as [[]| |lv ow| | |] eqn:Hk; cbn in Hk'; rewrite ?Hk in Hk'; try done. cbn.
      pose proof (l_semaphore _ _ Hl o x Hx Hk). unfold signaled in Hsig. rewrite Hx, Hk in Hsig.
      bool_hyps. lia.
    + by eapply l_semaphore.
  - intros t' y' wt bl Hns Hy' Hw'. apply Decidable.not_or in Hns as [Hns Hne].
    rewrite a_acquire_thr in Hy'. destruct (dthrs d !! t') as [y0|] eqn:Hy0; [|done]. injection Hy' as <-.
    assert (match dobjs d !! o with
          | Some x => match okind x with
                      | KMutex _ _ => if (sig x =? 0) && bool_decide (t' = t) then mkDthr (wait y0) (o :: owned y0) else y0
                      | _ => y0 end
          | None => y0 end = y0) as Heq.
    { destruct (dobjs d !! o) as [x|]; [|done]. destruct (okind x); try done.
      by rewrite (bool_decide_false (t' = t)), andb_false_r. }
    rewrite Heq in *. destruct (l_levels _ _ Hl t' y0 wt bl Hns Hy0 Hw') as [Hlv Hct]. split.
    + assert (top_level (a_acquire o t d) y0 = top_level d y0) as ->.
      { unfold top_level. destruct (head (owned y0)); cbn; [apply a_acquire_level|done]. }
      destruct wt; [|intros o' Ho'; specialize (Hlv o' Ho')];
        (eapply ordered_level; [|exact Hlv]); intros; by rewrite a_acquire_level.
    + intros o' x' l Ho' Hx' Hk'. rewrite a_acquire_lookup in Hx'. case_decide as Hoo; subst.
      * destruct (dobjs d !! o) as [x|] eqn:Hx; [|done]. cbn in Hx'. injection Hx' as <-.
        destruct (okind x) as [[]| |lv ow| | |] eqn:Hk; cbn in Hk'; rewrite ?Hk in Hk'; try done.
        injection Hk' as <- <-. done.
      * by eapply Hct.
Qed.

(** All of [bl] can be acquired by [t] in turn. *)
Definition acquirable_all (d : DVIEW) (t : nat) (y : DTHR) (bl : list nat) : Prop :=
  dthrs d !! t = Some y ∧ NoDup bl ∧ (∀ o, o ∈ bl → signaled d o t = true) ∧
  ordered d (top_level d y) bl ∧
  ∀ o x l, o ∈ bl → dobjs d !! o = Some x → okind x = KMutex l (Some t) → sig x + 1 < 2 ^ 15.

Lemma acquirable_step skip d t y o bl :
  links skip d → acquirable_all d t y (o :: bl) →
  acquirable d o t y ∧ ∃ y', acquirable_all (a_acquire o t d) t y' bl.
Proof.
  intros Hl (Hy & Hnd & Hsig & Hord & Hc). apply NoDup_cons in Hnd as [Hno Hnd].
  assert (acquirable d o t y) as Ha.
  { split; [done|]. split; [apply Hsig; left|]. split.
    - cbn in Hord |- *. destruct (level d o); [|done]. split; [apply Hord|done].
    - intros x l. apply Hc. left. }
  split; [done|]. assert (∃ y', dthrs (a_acquire o t d) !! t = Some y') as [y' Hy'].
  { rewrite a_acquire_thr, Hy. by eexists. }
  exists y'. split; [done|]. split; [done|].
  assert (∀ o', o' ∈ bl → dobjs (a_acquire o t d) !! o' = dobjs d !! o') as Hsame.
  { intros o' Ho'. rewrite a_acquire_lookup, decide_False; [done|]. by intros ->. }
  split; [|split].
  - intros o' Ho'. unfold signaled. rewrite Hsame by done. apply Hsig. by right.
  - eapply ordered_level; [intros; apply a_acquire_level|].
    assert (top_level (a_acquire o t d) y' = head (owned y') ≫= level d) as ->.
    { unfold top_level. destruct (head (owned y')); cbn; [apply a_acquire_level|done]. }
    rewrite a_acquire_thr, Hy in Hy'. cbn in Hy'. injection Hy' as <-.
    cbn in Hord. unfold level in Hord at 1. unfold top_level in Hord.
    destruct (dobjs d !! o) as [x|] eqn:Hx; cbn in Hord; [|done].
    destruct (okind x) as [[]| |lv ow| | |] eqn:Hk; try done.
    destruct Hord as [Htop Hord]. destruct (_ && _); cbn.
    + assert (level d o = Some lv) as ->; [|done]. unfold level. rewrite Hx. cbn. by rewrite Hk.
    + eapply ordered_weaken; [|exact Hord]. intros z Hz. exists lv. split; [done|]. by apply Htop.
  - intros o' x l Ho'. rewrite Hsame by done. apply Hc. by right.
Qed.

Lemma acquire_all_links skip d t y bl :
  links skip d → acquirable_all d t y bl →
  links (λ t', skip t' ∨ t' = t) (foldl (λ d o, a_acquire o t d) d bl) ∧
  (∀ t' wt bl', waits (foldl (λ d o, a_acquire o t d) d bl) t' wt bl' ↔ waits d t' wt bl') ∧
  ∀ t' wt bl', t' ≠ t → ready (foldl (λ d o, a_acquire o t d) d bl) t' wt bl' → ready d t' wt bl'.
Proof.
  revert skip d y. induction bl as [|o bl IH]; intros skip d y Hl Ha; cbn.
  - split_and!; try done. destruct Hl. split; try done. intros t' y' wt bl Hns. apply l_levels0. tauto.
  - destruct (acquirable_step skip d t y o bl Hl Ha) as (Ho & y' & Ha').
    pose proof (acquire_links skip d o t y Hl Ho) as Hl'.
    destruct (IH _ _ y' Hl' Ha') as (Hl2 & Hw2 & Hr2). split; [|split].
    + destruct Hl2. split; try done. intros t' y0 wt bl' Hns. apply l_levels0. tauto.
    + intros t' wt bl'. by rewrite Hw2, a_acquire_waits.
    + intros t' wt bl' Hne Hr. eapply acquire_not_ready; [done..|]. by apply Hr2.
Qed.

(** *** Ending a wait *)

Lemma unblock_lookup t d o : dobjs (a_unwait t d) !! o = unblock t <$> dobjs d !! o.
Proof. apply lookup_fmap. Qed.

Lemma a_unwait_waits t d t' wt bl : waits (a_unwait t d) t' wt bl ↔ t' ≠ t ∧ waits d t' wt bl.
Proof.
  unfold waits. cbn. destruct (decide (t' = t)) as [->|Hne].
  - rewrite lookup_alter_eq. split; [|by intros [? _]]. intros (y & Hy & Hw).
    destruct (dthrs d !! t); [|done]. by injection Hy as <-.
  - rewrite lookup_alter_ne by done. tauto.
Qed.

Lemma a_unwait_signaled t d o t' : signaled (a_unwait t d) o t' = signaled d o t'.
Proof. unfold signaled. rewrite unblock_lookup. by destruct (dobjs d !! o). Qed.

Lemma a_unwait_ready t d t' wt bl : ready (a_unwait t d) t' wt bl ↔ ready d t' wt bl.
Proof. unfold ready. destruct wt; by setoid_rewrite a_unwait_signaled. Qed.

Lemma a_unwait_level t d o : level (a_unwait t d) o = level d o.
Proof. unfold level. rewrite unblock_lookup. by destruct (dobjs d !! o). Qed.

Lemma unwait_links skip t d :
  links (λ t', skip t' ∨ t' = t) d → links skip (a_unwait t d).
Proof.
  intros Hl. split.
  - intros o x'. rewrite unblock_lookup. destruct (dobjs d !! o) as [x|] eqn:Hx; [|done].
    intros [= <-]. cbn. apply NoDup_filter. by eapply l_nodup.
  - intros o x' t' i. rewrite unblock_lookup. destruct (dobjs d !! o) as [x|] eqn:Hx; [|done].
    intros [= <-]. cbn. rewrite list_elem_of_filter, (l_waiter _ _ Hl o x t' i Hx).
    setoid_rewrite a_unwait_waits. cbn. naive_solver.
  - intros t' wt bl [_ Hw]%a_unwait_waits. destruct (l_blocks _ _ Hl t' wt bl Hw) as [Hnd Hex].
    split; [done|]. intros o Ho. rewrite unblock_lookup. destruct (Hex o Ho) as [x ->]. by eexists.
  - intros o x' l ow. rewrite unblock_lookup. destruct (dobjs d !! o) as [x|] eqn:Hx; [|done].
    intros [= <-] Hk. destruct (l_mutex _ _ Hl o x l ow Hx Hk) as (? & ? & Hown). split; [done|].
    split; [done|]. intros t0 Ht0. destruct (Hown t0 Ht0) as (y & Hy & Hin). cbn.
    destruct (decide (t0 = t)) as [->|Hne].
    + rewrite lookup_alter_eq, Hy. by eexists.
    + rewrite lookup_alter_ne by done. eauto.
  - intros t' y' Hy'. cbn in Hy'. assert (∃ y, dthrs d !! t' = Some y ∧ owned y' = owned y) as (y & Hy & ->).
    { destruct (decide (t' = t)) as [->|Hne].
      - rewrite lookup_alter_eq in Hy'. destruct (dthrs d !! t) as [y|]; [|done]. injection Hy' as <-. by exists y.
      - rewrite lookup_alter_ne in Hy' by done. by exists y'. }
    destruct (l_owned _ _ Hl t' y Hy) as [Hnd Hown]. split; [done|]. intros o Ho.
    destruct (Hown o Ho) as (x & l & Hx & Hk). exists (unblock t x), l. by rewrite unblock_lookup, Hx.
  - intros o x'. rewrite unblock_lookup. destruct (dobjs d !! o) as [x|] eqn:Hx; [|done].
    intros [= <-] Hk. exact (l_semaphore _ _ Hl o x Hx Hk).
  - intros t' y' wt bl Hns Hy' Hw'. cbn in Hy'. destruct (decide (t' = t)) as [->|Hne].
    + rewrite lookup_alter_eq in Hy'. destruct (dthrs d !! t); [|done]. by injection Hy' as <-.
    + rewrite lookup_alter_ne in Hy' by done.
      destruct (l_levels _ _ Hl t' y' wt bl ltac:(tauto) Hy' Hw') as [Hlv Hct]. split.
      * assert (top_level (a_unwait t d) y' = top_level d y') as ->.
        { unfold top_level. destruct (head (owned y')); cbn; [apply a_unwait_level|done]. }
        destruct wt; [|intros o' Ho'; specialize (Hlv o' Ho')];
          (eapply ordered_level; [|exact Hlv]); intros; by rewrite a_unwait_level.
      * intros o x' l Ho. rewrite unblock_lookup. destruct (dobjs d !! o) as [x|] eqn:Hx; [|done].
        intros [= <-]. exact (Hct o x l Ho Hx).
Qed.

(** ** Refinement *)

(** What acquiring leaves alone. *)
Record acquire_frame (s s' : KERNEL) : Prop := {
  af_procs : KeProcessorList s' = KeProcessorList s;
  af_lock : KiDispatcherLock s' = KiDispatcherLock s;
  af_dpcs : Dpcs s' = Dpcs s;
  af_ticks : TickCount s' = TickCount s;
  af_globals : steal_globals s' = steal_globals s;
  af_timer o : timer s' o = timer s o;
  af_threads : set_MutexList [] <$> Threads s' = set_MutexList [] <$> Threads s }.

#[export] Instance acquire_frame_preorder : PreOrder acquire_frame.
Proof.
  split; [done|]. intros x y z [] []. split; intros; etransitivity; eauto.
Qed.

Lemma acquire_frame_ok s s' : acquire_frame s s' → kernel_ok s → kernel_ok s'.
Proof.
  intros [Hp Hl _ _ _ Ht Hth] Hk. split.
  - rewrite Hl. apply Hk.
  - apply (sched_inv_ext (KeProcessorList s) _ (Threads s)); [by rewrite Hp| |apply Hk].
    apply (f_equal (fmap tcore)) in Hth. by rewrite <-!map_fmap_compose in Hth.
  - intros c p Hc. rewrite Hp in Hc. destruct (ko_current s Hk c p Hc) as (t & T & Hcur & HT).
    destruct (map_fmap_lookup_eq _ _ _ _ _ (eq_sym Hth) HT) as (T' & HT' & _). eauto.
  - intros t T' HT'. destruct (map_fmap_lookup_eq _ _ _ _ _ Hth HT') as (T & HT & Heq).
    pose proof (f_equal WaitTimer Heq) as E1. pose proof (f_equal SleepTimer Heq) as E2. cbn in E1, E2.
    rewrite E1, E2. destruct (ko_timers s Hk t T HT) as [H1 H2].
    apply is_timer in H1 as [T1 H1], H2 as [T2 H2].
    split; apply is_timer; [exists T1|exists T2]; by rewrite Ht.
  - apply (timer_ok_ext s); [done|by rewrite Hp|apply Hk].
Qed.

Lemma timer_upd_object o f s o' :
  (∀ h, Objects s !! o = Some h →
     match Body h, Body (f h) with
     | DISPATCH_TIMER T, DISPATCH_TIMER T' => T' = T
     | DISPATCH_TIMER _, _ | _, DISPATCH_TIMER _ => False
     | _, _ => True end) →
  timer (upd_object o f s) o' = timer s o'.
Proof.
  intros Hf. unfold timer, object, upd_object. cbn. destruct (decide (o' = o)) as [->|Hne].
  - rewrite lookup_alter_eq. destruct (Objects s !! o) as [h|] eqn:Hh; [|done]. cbn.
    specialize (Hf h eq_refl). destruct (Body h), (Body (f h)); subst; done.
  - by rewrite lookup_alter_ne.
Qed.

(** A store to one object. *)
Lemma upd_object_frame o f s :
  (∀ h, Objects s !! o = Some h →
     match Body h, Body (f h) with
     | DISPATCH_TIMER T, DISPATCH_TIMER T' => T' = T
     | DISPATCH_TIMER _, _ | _, DISPATCH_TIMER _ => False
     | _, _ => True end) →
  acquire_frame s (upd_object o f s).
Proof. intros Hf. split; try done. intros o'. by apply timer_upd_object. Qed.

Lemma upd_mutexes_frame t f s : acquire_frame s (upd_thread t (λ T, set_MutexList (f T) T) s).
Proof. split; try done. unfold upd_thread. cbn. by apply fmap_alter_id. Qed.

Lemma dobj_insert o f s h :
  Objects s !! o = Some h → dobj (upd_object o f s) = <[o := view_object (f h)]> (dobj s).
Proof.
  intros Hh. unfold dobj, upd_object. cbn. apply map_eq. intros o'. rewrite lookup_fmap.
  destruct (decide (o' = o)) as [->|Hne].
  - by rewrite lookup_alter_eq, lookup_insert_eq, Hh.
  - by rewrite lookup_alter_ne, lookup_insert_ne, lookup_fmap.
Qed.

Lemma s16_small x : 0 ≤ x < 2 ^ 15 → s16 x = x.
Proof.
  intros Hx. unfold s16, sext. rewrite wrap_small by lia. by rewrite (proj2 (Z.ltb_lt _ _)) by lia.
Qed.

Lemma view_objects s o x : dobjs (view s) !! o = Some x → ∃ h, Objects s !! o = Some h ∧ x = view_object h.
Proof. cbn. rewrite dobj_lookup. destruct (Objects s !! o) as [h|]; [|done]. intros [= <-]. eauto. Qed.

Lemma view_threads s t y : dthrs (view s) !! t = Some y → ∃ T, Threads s !! t = Some T ∧ y = view_thread T.
Proof. cbn. rewrite dthr_lookup. destruct (Threads s !! t) as [T|]; [|done]. intros [= <-]. eauto. Qed.

Lemma acquire_spec skip s o t y :
  KiDispatcherLock s = true → links skip (view s) → acquirable (view s) o t y →
  ∃ s', KiAcquireObject o t s = Ok s' ∧ view s' = a_acquire o t (view s) ∧ acquire_frame s s'.
Proof.
  intros Hlock Hl Ha. pose proof Ha as (Hy & Hsig & Hord & Hc).
  assert (∃ x, dobjs (view s) !! o = Some x) as [x Hx].
  { unfold signaled in Hsig. destruct (dobjs (view s) !! o); [eauto|done]. }
  destruct (view_objects s o x Hx) as (h & Hh & ->). destruct (view_threads s t y Hy) as (T & HT & ->).
  unfold KiAcquireObject, KiAssertOwnDispatcherLock, object, thread. rewrite Hlock, Hh. cbn [check deref mbind outcome_bind].
  unfold a_acquire. rewrite Hx. unfold view_object. cbn [okind]. destruct (Body h) as [[]|T0|lv ow|lim|t0|l] eqn:Hb;
    cbn [kind_of].
  - eexists. split; [done|]. split; [|apply upd_object_frame; intros h0; rewrite Hh; intros [= <-]; cbn; by rewrite Hb].
    unfold view at 1. rewrite (dobj_insert _ _ _ h Hh). unfold set_sig, view_object. cbn. by rewrite Hb.
  - eexists. split; [done|]. done.
  - eexists. split; [done|]. done.
  - destruct (acquirable_mutex skip (view s) o t _ _ lv ow Hl Ha Hx) as (Hs0 & Hs1 & Hown).
    { unfold view_object. cbn. by rewrite Hb. }
    cbn in Hs0, Hs1, Hown. rewrite (bool_decide_true (ow = None ∨ ow = Some t)) by tauto.
    cbn [check mbind outcome_bind].
    set (s1 := upd_object o (λ h0, set_Signaled (s16 (Signaled h0 + 1)) h0) s).
    set (s2 := upd_object o (set_Body (DISPATCH_MUTEX lv (Some t))) s1).
    assert (Objects s1 !! o = Some (set_Signaled (Signaled h + 1) h)) as H1.
    { unfold s1, upd_object. cbn. rewrite lookup_alter_eq, Hh. cbn. by rewrite s16_small by lia. }
    assert (acquire_frame s s2) as Hf2.
    { transitivity s1; apply upd_object_frame.
      - intros h0. rewrite Hh. intros [= <-]. cbn. by rewrite Hb.
      - intros h0. rewrite H1. intros [= <-]. cbn. by rewrite Hb. }
    assert (view s2 = mkView (<[o := set_owner t (set_sig (Signaled h + 1) (view_object h))]> (dobj s)) (dthr s)) as Hv2.
    { unfold view, s2. rewrite (dobj_insert _ _ _ _ H1). unfold s1. rewrite (dobj_insert _ _ _ h Hh).
      rewrite insert_insert_eq. unfold view_object, set_owner, set_sig. cbn. by rewrite Hb. }
    change (Threads s2) with (Threads s). rewrite HT. cbn [deref mbind outcome_bind].
    assert (match MutexList T with
            | [] => Ok tt
            | Highest :: _ => deref (Objects s2 !! Highest) ≫= λ hh,
                match Body hh with
                | DISPATCH_MUTEX HighestLevel _ => check (HighestLevel <=? lv)
                | _ => Crash end end = Ok tt) as Htop.
    { destruct (MutexList T) as [|m ms] eqn:Hm; [done|].
      destruct (l_owned _ _ Hl t _ Hy) as [_ Hown']. cbn in Hown'. rewrite Hm in Hown'.
      destruct (Hown' m ltac:(left)) as (xm & lm & Hxm & Hkm).
      destruct (view_objects s m xm Hxm) as (hm & Hhm & ->).
      cbn [ordered] in Hord.
      assert (level (view s) o = Some lv) as Hlo.
      { unfold level. rewrite Hx. cbn. by rewrite Hb. }
      assert (level (view s) m = Some lm) as Hlm.
      { unfold level. cbn [dobjs view]. rewrite Hxm. cbn. cbn in Hkm. by rewrite Hkm. }
      rewrite Hlo in Hord. destruct Hord as [Hord _].
      assert (lm ≤ lv) as Hle by (apply Hord; unfold top_level; cbn; rewrite Hm; cbn; done).
      destruct (decide (m = o)) as [->|Hne].
      - unfold s2, upd_object. cbn. rewrite lookup_alter_eq. change (alter _ o (Objects s) !! o) with (Objects s1 !! o).
        rewrite H1. cbn. apply check_true, Z.leb_le. lia.
      - unfold s2, s1, upd_object. cbn. rewrite !lookup_alter_ne, Hhm by done. cbn. cbn in Hkm.
        destruct (Body hm); try done. injection Hkm as -> _. by apply check_true, Z.leb_le. }
    unfold object in Htop. rewrite Htop. cbn [mbind outcome_bind]. clear Htop.
    change (sig (mkDobj (Signaled h) _ _)) with (Signaled h). unfold MUTEX_SIGNALED.
    destruct (Signaled h =? 0).
    + eexists. split; [done|]. split; [|etransitivity; [exact Hf2|apply upd_mutexes_frame]].
      unfold view at 1. rewrite (dthr_upd t _ (λ y, mkDthr (wait y) (o :: owned y))) by done.
      change (dobj (upd_thread t ?f s2)) with (dobjs (view s2)). change (dthr s2) with (dthrs (view s2)).
      rewrite Hv2. unfold view_object. by rewrite Hb.
    + eexists. split; [done|]. split; [|exact Hf2]. rewrite Hv2. unfold view_object. by rewrite Hb.
  - eexists. split; [done|]. split; [|apply upd_object_frame; intros h0; rewrite Hh; intros [= <-]; cbn; by rewrite Hb].
    unfold view at 1. rewrite (dobj_insert _ _ _ h Hh). unfold set_sig, view_object. cbn. rewrite Hb.
    rewrite s16_small; [done|]. pose proof (l_semaphore _ _ Hl o _ Hx) as Hr. unfold view_object in Hr. cbn in Hr.
    rewrite Hb in Hr. specialize (Hr eq_refl). unfold signaled in Hsig. rewrite Hx in Hsig. cbn in Hsig.
    rewrite Hb in Hsig. cbn in Hsig. bool_hyps. lia.
  - eexists. split; [done|]. done.
  - eexists. split; [done|]. done.
Qed.

Lemma acquire_all_spec skip s t y bl :
  KiDispatcherLock s = true → links skip (view s) → acquirable_all (view s) t y bl →
  ∃ s', acquire_all t bl s = Ok s' ∧ view s' = foldl (λ d o, a_acquire o t d) (view s) bl ∧
        acquire_frame s s'.
Proof.
  revert skip s y. induction bl as [|o bl IH]; intros skip s y Hlock Hl Ha; cbn; [by eexists|].
  destruct (acquirable_step skip _ t y o bl Hl Ha) as (Ho & y' & Ha').
  destruct (acquire_spec skip s o t y Hlock Hl Ho) as (s1 & -> & Hv1 & Hf1). cbn [mbind outcome_bind].
  pose proof (acquire_links skip _ o t y Hl Ho) as Hl1. rewrite <-Hv1 in Hl1, Ha'.
  destruct (IH _ s1 y' ltac:(by rewrite (af_lock _ _ Hf1)) Hl1 Ha') as (s2 & -> & Hv2 & Hf2).
  exists s2. split; [done|]. split; [by rewrite Hv2, Hv1|by etransitivity].
Qed.

Lemma all_signaled_spec s t bl :
  (∀ o, o ∈ bl → is_Some (dobjs (view s) !! o)) →
  all_signaled t bl s = Ok (forallb (λ o, signaled (view s) o t) bl).
Proof.
  induction bl as [|o bl IH]; intros Hex; [done|]. cbn [all_signaled forallb].
  destruct (Hex o ltac:(left)) as [x Hx]. destruct (view_objects s o x Hx) as (h & Hh & ->).
  unfold object. rewrite Hh. cbn [deref mbind outcome_bind].
  assert (signaled (view s) o t = KiIsObjectSignaled h t) as ->.
  { unfold signaled, KiIsObjectSignaled. rewrite Hx. cbn. by destruct (Body h). }
  destruct (KiIsObjectSignaled h t); [|done]. apply IH. intros o' Ho'. apply Hex. by right.
Qed.

Lemma waiting_thread s t wt bl :
  waits (view s) t wt bl →
  ∃ T, Threads s !! t = Some T ∧ Status T = KTHREAD_STATUS_WAITING ∧ WaitType T = wt ∧ WaitBlockArray T = bl.
Proof.
  intros (y & Hy & Hw). destruct (view_threads s t y Hy) as (T & HT & ->). cbn in Hw.
  destruct (decide (Status T = KTHREAD_STATUS_WAITING)); [|done]. injection Hw as <- <-. eauto.
Qed.

Lemma thread_waiting s t T :
  Threads s !! t = Some T → Status T = KTHREAD_STATUS_WAITING →
  waits (view s) t (WaitType T) (WaitBlockArray T).
Proof.
  intros HT Hs. exists (view_thread T). cbn. rewrite dthr_lookup, HT, decide_True by done. done.
Qed.

Lemma waiting_blocks_queued skip s t wt bl :
  links skip (view s) → waits (view s) t wt bl → blocks_queued s t bl.
Proof.
  intros Hl Hw. destruct (l_blocks _ _ Hl t wt bl Hw) as [Hnd Hex]. split; [done|]. split.
  - intros o Ho. destruct (Hex o Ho) as [x Hx]. destruct (view_objects s o x Hx) as (h & ? & _). eauto.
  - intros o h j Hh. assert (dobjs (view s) !! o = Some (view_object h)) as Hx by (cbn; by rewrite dobj_lookup, Hh).
    rewrite (l_waiter _ _ Hl o _ t j Hx : (t, j) ∈ WaitBlockList h ↔ _). split.
    + intros (wt' & bl' & (y & Hy & Hy') & Hj). destruct Hw as (y0 & Hy0 & Hw0). congruence.
    + intros Hj. eauto.
Qed.

Lemma unwaited_view t T St Inc s s' :
  Threads s !! t = Some T → unwaited t T St Inc s s' → view s' = a_unwait t (view s).
Proof.
  intros HT [_ Hd (T' & Hth & ->) _ _ _]. unfold view, a_unwait. cbn. f_equal; [done|].
  unfold dthr. rewrite Hth. apply map_eq. intros t'. destruct (decide (t' = t)) as [->|Hne].
  - rewrite lookup_fmap, lookup_insert_eq, lookup_alter_eq, lookup_fmap, HT. done.
  - by rewrite lookup_fmap, lookup_insert_ne, lookup_alter_ne, lookup_fmap by done.
Qed.

(** A thread is not touched but for its mutexes, or its wait ends. *)
Definition thread_step (T T' : KTHREAD) : Prop :=
  set_MutexList [] T' = set_MutexList [] T ∨
  Status T = KTHREAD_STATUS_WAITING ∧ Status T' = KTHREAD_STATUS_READY ∧ fixed T' = fixed T.

Lemma thread_step_fixed T T' : thread_step T T' → fixed T' = fixed T.
Proof. intros [H|(_ & _ & ?)]; [|done]. by apply (f_equal fixed) in H. Qed.

Lemma thread_step_trans T1 T2 T3 : thread_step T1 T2 → thread_step T2 T3 → thread_step T1 T3.
Proof.
  intros H12 H23. pose proof (thread_step_fixed _ _ H12) as F1. pose proof (thread_step_fixed _ _ H23) as F2.
  destruct H12 as [E1|(W1 & R1 & _)], H23 as [E2|(W2 & R2 & _)].
  - left. congruence.
  - right. apply (f_equal Status) in E1. cbn in E1. split_and!; congruence.
  - right. apply (f_equal Status) in E2. cbn in E2. split_and!; congruence.
  - congruence.
Qed.

(** What waking threads leaves alone. *)
Definition wake_frame (s s' : KERNEL) : Prop :=
  running s' = running s ∧ Dpcs s' = Dpcs s ∧ TickCount s' = TickCount s ∧ keeps s s' ∧
  (∀ t, is_Some (Threads s' !! t) → is_Some (Threads s !! t)) ∧
  ∀ t T, Threads s !! t = Some T → ∃ T', Threads s' !! t = Some T' ∧ thread_step T T'.

#[export] Instance wake_frame_preorder : PreOrder wake_frame.
Proof.
  split.
  - intros s. split_and!; try done. intros t T HT. exists T. split; [done|by left].
  - intros x y z (? & ? & ? & ? & ? & G1) (? & ? & ? & ? & ? & G2). unfold wake_frame.
    split_and!; try congruence; [by etransitivity|eauto|].
    intros t T HT. destruct (G1 t T HT) as (T1 & HT1 & S1). destruct (G2 t T1 HT1) as (T2 & HT2 & S2).
    exists T2. split; [done|]. by eapply thread_step_trans.
Qed.

Lemma acquire_wake_frame s s' : acquire_frame s s' → wake_frame s s'.
Proof.
  intros [Hp _ ? ? [= H1 H2 H3 H4] Hti Ht]. split; [unfold running; by rewrite Hp|]. split_and!; try done.
  { apply keeps_ext; try done; [by rewrite Hp|by apply timers_same]. }
  { intros t [T HT]. destruct (map_fmap_lookup_eq _ _ _ _ _ Ht HT) as (T' & ? & _). eauto. }
  intros t T HT. destruct (map_fmap_lookup_eq _ _ _ _ _ (eq_sym Ht) HT) as (T' & HT' & Heq).
  exists T'. split; [done|]. by left.
Qed.

Lemma unwaited_wake_frame t T St Inc s s' :
  Threads s !! t = Some T → Status T = KTHREAD_STATUS_WAITING → unwaited t T St Inc s s' → wake_frame s s'.
Proof.
  intros HT Hw [_ _ (T' & Hth & ->) Hr Hd Htc Hkp]. split_and!; try done.
  { intros t0. rewrite Hth. destruct (decide (t0 = t)) as [->|]; [by rewrite HT|by rewrite lookup_insert_ne]. }
  intros t0 T0 HT0. rewrite Hth.
  destruct (decide (t0 = t)) as [->|Hne].
  - rewrite lookup_insert_eq. eexists. split; [done|]. right. rewrite HT in HT0. by injection HT0 as <-.
  - rewrite lookup_insert_ne by done. exists T0. split; [done|by left].
Qed.

Lemma wake_frame_length s s' : wake_frame s s' → length (KeProcessorList s') = length (KeProcessorList s).
Proof.
  intros (Hr & _). unfold running in Hr. apply (f_equal length) in Hr. by rewrite !length_fmap in Hr.
Qed.

(** The status that a thread finds when its wait was satisfied. *)
Definition woken_with (s : KERNEL) (t : nat) (wt : WAIT_TYPE) (i : nat) : Prop :=
  ∃ T, Threads s !! t = Some T ∧ Status T = KTHREAD_STATUS_READY ∧
    WaitStatus T = match wt with WAIT_TYPE_ANY => STATUS_RANGE_WAIT i | WAIT_TYPE_ALL => STATUS_SUCCESS end.

Lemma links_weaken (P Q : nat → Prop) d : (∀ t, P t → Q t) → links P d → links Q d.
Proof. intros Hpq [? ? ? ? ? ? Hl]. split; try done. intros t y wt bl Hn. apply Hl. auto. Qed.

(** Waking [t] after [d1] was reached by acquiring for it. *)
Lemma wake_spec cpu t T St Inc s0 s d1 :
  kernel_ok s0 → (cpu < length (KeProcessorList s0))%nat → Threads s0 !! t = Some T →
  Status T = KTHREAD_STATUS_WAITING → acquire_frame s0 s → view s = d1 →
  links (λ t', False ∨ t' = t) d1 → (∀ t' wt bl, waits d1 t' wt bl ↔ waits (view s0) t' wt bl) → 0 ≤ Inc →
  ∃ s', KiUnwaitThread cpu t St Inc s = Ok s' ∧ kernel_ok s' ∧ view s' = a_unwait t d1 ∧
    links (λ _, False) (view s') ∧ wake_frame s0 s' ∧
    (∀ t' wt bl, waits (view s') t' wt bl ↔ t' ≠ t ∧ waits (view s0) t' wt bl) ∧
    ∃ T', Threads s' !! t = Some T' ∧ Status T' = KTHREAD_STATUS_READY ∧ WaitStatus T' = St.
Proof.
  intros Hk Hcpu HT Hw Hf <- Hl Hwaits Hi.
  pose proof (acquire_frame_ok _ _ Hf Hk) as Hk1.
  destruct (map_fmap_lookup_eq _ _ _ _ _ (eq_sym (af_threads _ _ Hf)) HT) as (T1 & HT1 & Heq).
  assert (Status T1 = KTHREAD_STATUS_WAITING) as Hw1 by (apply (f_equal Status) in Heq; cbn in Heq; congruence).
  assert (waits (view s) t (WaitType T1) (WaitBlockArray T1)) as Hws by by apply thread_waiting.
  pose proof (waiting_blocks_queued _ s t _ _ Hl Hws) as Hbq.
  destruct (unwait_spec cpu t T1 St Inc s Hk1) as (s' & Hr & Hu); try done.
  { by rewrite (af_procs _ _ Hf). }
  { by rewrite Hw1. }
  pose proof (unwaited_view _ _ _ _ _ _ HT1 Hu) as Hv.
  pose proof (unwaited_wake_frame _ _ _ _ _ _ HT1 Hw1 Hu) as Hwf. destruct Hu as [Hk' _ (T' & Hth' & HT') Hr' Hd' Ht'].
  exists s'. split; [done|]. split; [done|]. split; [done|]. split; [rewrite Hv; by apply unwait_links|]. split.
  { transitivity s; [by apply acquire_wake_frame|]. done. }
  split.
  - intros t' wt bl. rewrite Hv, a_unwait_waits, Hwaits. done.
  - exists T'. rewrite Hth', lookup_insert_eq. split; [done|]. by rewrite HT'.
Qed.

Lemma available_signaled d o t : available d o → signaled d o t = true.
Proof.
  intros (x & Hx & Hk). unfold signaled. rewrite Hx. destruct (okind x); try (by rewrite Hk);
    by apply negb_true_iff, Z.eqb_neq.
Qed.

Lemma satisfy_spec cpu t i o wt bl Inc s :
  kernel_ok s → (cpu < length (KeProcessorList s))%nat → links (λ _, False) (view s) →
  waits (view s) t wt bl → bl !! i = Some o → available (view s) o → 0 ≤ Inc →
  ∃ b s', KiSatisfyWaitBlock cpu t i Inc s = Ok (b, s') ∧
    match a_satisfy t i (view s) with
    | None => b = false ∧ s' = s ∧ ¬ ready (view s) t wt bl
    | Some d' => b = true ∧ view s' = d' ∧ kernel_ok s' ∧ links (λ _, False) d' ∧ wake_frame s s' ∧
        (∀ t' wt bl, waits d' t' wt bl ↔ t' ≠ t ∧ waits (view s) t' wt bl) ∧
        (∀ t' wt bl, t' ≠ t → ready d' t' wt bl → ready (view s) t' wt bl) ∧
        woken_with s' t wt i
    end.
Proof.
  intros Hk Hcpu Hl Hw Hi Hav Hinc. destruct (waiting_thread s t wt bl Hw) as (T & HT & Hst & Hwt & Hbl).
  pose proof Hw as (y & Hy & Hwy). destruct (l_blocks _ _ Hl t wt bl Hw) as [Hnd Hex].
  destruct (l_levels _ _ Hl t y wt bl ltac:(tauto) Hy Hwy) as [Hlv Hct].
  unfold KiSatisfyWaitBlock, KiAssertOwnDispatcherLock, thread. rewrite (ko_lock s Hk), HT.
  cbn [check deref mbind outcome_bind]. unfold a_satisfy. rewrite Hy. cbn [mbind option_bind]. rewrite Hwy.
  cbn [mbind option_bind]. rewrite Hwt, Hbl. destruct wt.
  - rewrite (all_signaled_spec s t bl Hex). cbn [mbind outcome_bind].
    destruct (forallb (λ o0, signaled (view s) o0 t) bl) eqn:Hall; cbn [negb].
    + assert (acquirable_all (view s) t y bl) as Haa.
      { split; [done|]. split; [done|]. split; [|done]. intros o' Ho'.
        rewrite forallb_forall in Hall. by apply Hall, list_elem_of_In. }
      destruct (acquire_all_spec _ s t y bl (ko_lock s Hk) Hl Haa) as (s1 & -> & Hv1 & Hf1).
      cbn [mbind outcome_bind]. destruct (acquire_all_links _ _ t y bl Hl Haa) as (Hl1 & Hw1 & Hr1).
      destruct (wake_spec cpu t T STATUS_SUCCESS Inc s s1 _ Hk Hcpu HT Hst Hf1 Hv1 Hl1 Hw1 Hinc)
        as (s2 & -> & Hk2 & Hv2 & Hl2 & Hf2 & Hw2 & T2 & HT2 & Hs2 & Hst2).
      eexists true, s2. split; [done|]. rewrite <-Hv2. split_and!; try done.
      * intros t' wt' bl' Hne Hr. rewrite Hv2 in Hr. apply a_unwait_ready in Hr. by apply Hr1.
      * exists T2. done.
    + eexists false, s. split; [done|]. split; [done|]. split; [done|]. intros Hr. cbn in Hr.
      assert (forallb (λ o0, signaled (view s) o0 t) bl = true); [|congruence].
      apply forallb_forall. intros o' Ho'. by apply Hr, list_elem_of_In.
  - rewrite Hi. cbn [deref mbind outcome_bind option_bind].
    assert (o ∈ bl) as Hob by by eapply list_elem_of_lookup_2.
    assert (acquirable (view s) o t y) as Ha.
    { split; [done|]. split; [by apply available_signaled|]. split; [by apply Hlv|].
      intros x l Hx. by apply (Hct o). }
    destruct (acquire_spec _ s o t y (ko_lock s Hk) Hl Ha) as (s1 & -> & Hv1 & Hf1).
    cbn [mbind outcome_bind]. pose proof (acquire_links _ _ o t y Hl Ha) as Hl1.
    destruct (wake_spec cpu t T (STATUS_RANGE_WAIT i) Inc s s1 _ Hk Hcpu HT Hst Hf1 Hv1 Hl1
      (a_acquire_waits o t (view s)) Hinc)
      as (s2 & -> & Hk2 & Hv2 & Hl2 & Hf2 & Hw2 & T2 & HT2 & Hs2 & Hst2).
    eexists true, s2. split; [done|]. rewrite <-Hv2. split_and!; try done.
    + intros t' wt' bl' Hne Hr. rewrite Hv2 in Hr. apply a_unwait_ready in Hr.
      by eapply acquire_not_ready.
    + exists T2. done.
Qed.

(** *** The loop over the waiters *)

Lemma foldl_acquire_lookup t bl d o :
  NoDup bl →
  dobjs (foldl (λ d o, a_acquire o t d) d bl) !! o =
    if decide (o ∈ bl) then dobjs (a_acquire o t d) !! o else dobjs d !! o.
Proof.
  revert d. induction bl as [|o' bl IH]; intros d Hnd; cbn.
  - rewrite decide_False; [done|]. apply not_elem_of_nil.
  - apply NoDup_cons in Hnd as [Hno Hnd]. rewrite IH by done. destruct (decide (o = o')) as [->|Hne].
    + rewrite decide_False by done. rewrite decide_True by left. done.
    + destruct (decide (o ∈ bl)) as [Hin|Hin].
      * rewrite decide_True by by right. rewrite !a_acquire_lookup, !(decide_True _ _ (eq_refl : o = o)).
        by rewrite (decide_False (P := o = o')) by done.
      * rewrite decide_False by (by intros [?|?]%elem_of_cons).
        by rewrite a_acquire_lookup, decide_False by done.
Qed.

(** The object that was offered is acquired by the thread that was woken. *)
Lemma a_satisfy_lookup t i d d' wt bl o :
  a_satisfy t i d = Some d' → waits d t wt bl → NoDup bl → bl !! i = Some o →
  dobjs d' !! o = unblock t <$> dobjs (a_acquire o t d) !! o.
Proof.
  intros Hs (y & Hy & Hw) Hnd Hi. unfold a_satisfy in Hs. rewrite Hy in Hs. cbn in Hs. rewrite Hw in Hs.
  cbn in Hs. destruct wt.
  - destruct (forallb _ _); [|done]. injection Hs as <-. rewrite unblock_lookup, foldl_acquire_lookup by done.
    by rewrite decide_True by by eapply list_elem_of_lookup_2.
  - rewrite Hi in Hs. injection Hs as <-. by rewrite unblock_lookup.
Qed.

(** After an acquisition either nothing is left for others, or the object is
    still available. *)
Lemma enough_or_available t o d d' :
  available d o → dobjs d' !! o = unblock t <$> dobjs (a_acquire o t d) !! o →
  (∃ x', dobjs d' !! o = Some x') ∧
  if a_enough o d' then ∀ t', t' ≠ t → signaled d' o t' = false else available d' o.
Proof.
  intros (x & Hx & Hav) Hl. rewrite a_acquire_lookup, decide_True, Hx in Hl by done. cbn in Hl.
  split; [by eexists|]. unfold a_enough, signaled, available. rewrite Hl.
  destruct (okind x) as [[]| |lv ow| | |] eqn:Hk; cbn; rewrite ?Hk; cbn.
  - done.
  - eexists. split; [done|]. cbn. by rewrite Hk.
  - eexists. split; [done|]. cbn. by rewrite Hk.
  - rewrite Hav. cbn. intros t' Hne. rewrite bool_decide_false; [done|]. congruence.
  - destruct (Z.eqb_spec (sig x - 1) 0) as [_|Hne]; [done|]. eexists. split; [done|]. cbn. by rewrite Hk.
  - eexists. split; [done|]. cbn. by rewrite Hk.
  - eexists. split; [done|]. cbn. by rewrite Hk.
Qed.

Lemma Flink_at seen e es : NoDup (seen ++ e :: es) → Flink e (seen ++ e :: es) = head es.
Proof.
  induction seen as [|x seen IH]; intros Hnd; cbn; [by rewrite decide_True|].
  apply NoDup_cons in Hnd as [Hx Hnd]. rewrite decide_False by set_solver. by apply IH.
Qed.

Lemma enough_spec s h o count :
  Objects s !! o = Some h → (kind_of (Body h) = KEvent EVENT_SYNCHRONIZATION → count = 0%nat) →
  KepSatisfiedEnough h (S count) = Ok (a_enough o (view s)).
Proof.
  intros Hh Hc. unfold KepSatisfiedEnough, a_enough. cbn. rewrite dobj_lookup, Hh. cbn.
  destruct (Body h) as [[]| | | | |]; try done. cbn in Hc. by rewrite Hc.
Qed.

Lemma waits_functional d t wt bl wt' bl' : waits d t wt bl → waits d t wt' bl' → wt = wt' ∧ bl = bl'.
Proof. intros (y & Hy & Hw) (y' & Hy' & Hw'). rewrite Hy in Hy'. injection Hy' as <-. split; congruence. Qed.

(** What holds before each round of the loop over the waiters of [o]. *)
Record offering (o : nat) (seen es : list (nat * nat)) (d : DVIEW) : Prop := {
  of_links : links (λ _, False) d;
  of_available : available d o;
  of_waiters : ∃ x, dobjs d !! o = Some x ∧ waiters x = seen ++ es;
  of_asleep : asleep (λ t, ∃ i, (t, i) ∈ es) d;
  of_others t bl o' : waits d t WAIT_TYPE_ANY bl → o' ∈ bl → o' ≠ o → signaled d o' t = false }.

Lemma offering_skip o seen t i es d wt bl :
  offering o seen ((t, i) :: es) d → waits d t wt bl → ¬ ready d t wt bl →
  offering o (seen ++ [(t, i)]) es d.
Proof.
  intros [Hl Hav (x & Hx & Hw) Ha Ho] Hwt Hnr. split; try done.
  - exists x. split; [done|]. by rewrite <-app_assoc.
  - intros t' wt' bl' Hw'. destruct (Ha t' wt' bl' Hw') as [(j & [[= -> ->]|Hj]%elem_of_cons)|?]; [|eauto|by right].
    right. by destruct (waits_functional _ _ _ _ _ _ Hwt Hw') as [<- <-].
Qed.

Lemma offering_next o seen t i es d d' wt bl :
  offering o seen ((t, i) :: es) d → waits d t wt bl → bl !! i = Some o →
  links (λ _, False) d' → available d' o →
  dobjs d' !! o = unblock t <$> dobjs (a_acquire o t d) !! o →
  (∀ t' wt bl, waits d' t' wt bl ↔ t' ≠ t ∧ waits d t' wt bl) →
  (∀ t' wt bl, t' ≠ t → ready d' t' wt bl → ready d t' wt bl) →
  offering o seen es d'.
Proof.
  intros [Hl Hav (x & Hx & Hw) Ha Ho] Hwt Hi Hl' Hav' Hlook Hw' Hr'. split; try done.
  - rewrite a_acquire_lookup, decide_True, Hx in Hlook by done. cbn in Hlook. eexists. split; [done|].
    assert (waiters (match okind x with
      | KEvent EVENT_SYNCHRONIZATION => set_sig 0 x
      | KMutex _ _ => set_owner t (set_sig (sig x + 1) x)
      | KSemaphore => set_sig (sig x - 1) x
      | _ => x end) = seen ++ (t, i) :: es) as Hwx by (by destruct (okind x) as [[]| | | | |]).
    unfold unblock. cbn. rewrite Hwx. pose proof (l_nodup _ _ Hl o x Hx) as Hnd. rewrite Hw in Hnd.
    assert (∀ j, (t, j) ∈ seen ++ es → False) as Hno.
    { intros j Hj. assert ((t, j) ∈ waiters x) as Hjx by (rewrite Hw; set_solver).
      apply (l_waiter _ _ Hl o x t j Hx) in Hjx as (wt' & bl' & Hwt' & Hj').
      destruct (waits_functional _ _ _ _ _ _ Hwt Hwt') as [<- <-].
      destruct (l_blocks _ _ Hl t wt bl Hwt) as [Hbl _].
      assert (j = i) as -> by (by eapply NoDup_lookup). apply NoDup_app in Hnd as (Hs & Hd & He).
      apply NoDup_cons in He as [He _]. apply elem_of_app in Hj as [Hj|Hj]; [|done].
      by apply (Hd _ Hj); left. }
    rewrite filter_app, filter_cons_False by (cbn; congruence).
    rewrite !filter_keep; [done|..]; intros [t' j] Hj; cbn; intros ->; apply (Hno j); set_solver.
  - intros t' wt' bl' [Hne Hwd]%Hw'. destruct (Ha t' wt' bl' Hwd) as [(j & [[= -> ->]|Hj]%elem_of_cons)|Hnr].
    + done.
    + left. eauto.
    + right. intros Hr. by apply Hnr, Hr'.
  - intros t' bl' o' [Hne Hwd]%Hw' Ho' Hoo. apply not_true_is_false. intros Hs.
    specialize (Hr' t' WAIT_TYPE_ANY [o'] Hne). cbn in Hr'.
    destruct Hr' as (o2 & Ho2 & Hs2); [exists o'; split; [left|done]|].
    apply list_elem_of_singleton in Ho2 as ->. by rewrite (Ho t' bl' o' Hwd) in Hs2.
Qed.

(** When nothing is left for others, the remaining waiters sleep rightly. *)
Lemma offering_enough o seen t i es d d' :
  offering o seen ((t, i) :: es) d →
  (∀ t', t' ≠ t → signaled d' o t' = false) →
  (∀ t' wt bl, waits d' t' wt bl ↔ t' ≠ t ∧ waits d t' wt bl) →
  (∀ t' wt bl, t' ≠ t → ready d' t' wt bl → ready d t' wt bl) →
  asleep (λ _, False) d'.
Proof.
  intros [Hl Hav (x & Hx & Hw) Ha Ho] Hsig Hw' Hr' t' wt' bl' [Hne Hwd]%Hw'. right. intros Hr.
  destruct (Ha t' wt' bl' Hwd) as [(j & Hj)|Hnr]; [|by apply Hnr, Hr'].
  assert (o ∈ bl') as Hob.
  { assert ((t', j) ∈ waiters x) as Hjx by (rewrite Hw; set_solver).
    apply (l_waiter _ _ Hl o x t' j Hx) in Hjx as (wt2 & bl2 & Hw2 & Hj2).
    destruct (waits_functional _ _ _ _ _ _ Hwd Hw2) as [<- <-]. by eapply list_elem_of_lookup_2. }
  assert (signaled d' o t' = true) as Hs; [|by rewrite Hsig in Hs].
  destruct wt'; cbn in Hr; [by apply Hr|]. destruct Hr as (o' & Ho' & Hs').
  destruct (decide (o' = o)) as [->|Hoo]; [done|]. specialize (Hr' t' WAIT_TYPE_ANY [o'] Hne).
  destruct Hr' as (o2 & Ho2 & Hs2); [exists o'; split; [left|done]|].
  apply list_elem_of_singleton in Ho2 as ->. by rewrite (Ho t' bl' o' Hwd) in Hs2.
Qed.

Lemma wait_test_loop_spec cpu o Inc es :
  0 ≤ Inc → ∀ fuel seen count r s,
  kernel_ok s → (cpu < length (KeProcessorList s))%nat → offering o seen es (view s) →
  (length es ≤ fuel)%nat →
  (∀ x, dobjs (view s) !! o = Some x → okind x = KEvent EVENT_SYNCHRONIZATION → count = 0%nat) →
  ∃ r' s', wait_test_loop fuel cpu o (head es) count r Inc s = Ok (r', s') ∧ kernel_ok s' ∧
    view s' = a_wait_test es o (view s) ∧ dispatcher_ok (view s') ∧ wake_frame s s'.
Proof.
  intros Hinc. induction es as [|[t i] es IH]; intros fuel seen count r s Hk Hcpu Hof Hfuel Hcount.
  { exists r, s. destruct fuel; cbn; (split; [done|]); (split; [done|]); (split; [done|]);
      (split; [|done]); (split; [apply Hof|]); intros t wt bl Hw;
      (destruct (of_asleep _ _ _ _ Hof t wt bl Hw) as [(i & Hi)|?]; [by apply not_elem_of_nil in Hi|by right]). }
  destruct fuel as [|fuel]; cbn in Hfuel; [lia|].
  destruct (of_waiters _ _ _ _ Hof) as (x & Hx & Hwx). destruct (view_objects s o x Hx) as (h & Hh & Hhx).
  assert (WaitBlockList h = seen ++ (t, i) :: es) as Hwh by (by rewrite <-Hwx, Hhx).
  pose proof (of_links _ _ _ _ Hof) as Hl.
  assert ((t, i) ∈ waiters x) as Hin by (rewrite Hwx; set_solver).
  apply (l_waiter _ _ Hl o x t i Hx) in Hin as (wt & bl & Hw & Hi).
  destruct (l_blocks _ _ Hl t wt bl Hw) as [Hbl _].
  cbn [head wait_test_loop]. rewrite (proj2 (object_Ok s o h) Hh). cbn [mbind outcome_bind].
  rewrite bool_decide_true by (rewrite Hwh; set_solver). cbn [check mbind outcome_bind].
  rewrite Hwh, Flink_at by (rewrite <-Hwx; by eapply l_nodup).
  destruct (satisfy_spec cpu t i o wt bl Inc s Hk Hcpu Hl Hw Hi (of_available _ _ _ _ Hof) Hinc)
    as (b & s1 & -> & Hsat). cbn [mbind outcome_bind a_wait_test].
  destruct (a_satisfy t i (view s)) as [d'|] eqn:Hd'.
  - destruct Hsat as (-> & Hv1 & Hk1 & Hl1 & Hf1 & Hw1 & Hr1 & _). cbn [negb].
    pose proof (a_satisfy_lookup t i _ d' wt bl o Hd' Hw Hbl Hi) as Hlook.
    destruct (enough_or_available t o _ d' (of_available _ _ _ _ Hof) Hlook) as [(x' & Hx') Hea].
    rewrite <-Hv1 in Hx'. destruct (view_objects s1 o x' Hx') as (h' & Hh' & Hhx').
    rewrite (proj2 (object_Ok s1 o h') Hh'). cbn [mbind outcome_bind].
    assert (kind_of (Body h') = KEvent EVENT_SYNCHRONIZATION → count = 0%nat) as Hc1.
    { intros Hk'. apply (Hcount x Hx). rewrite Hv1, Hlook, a_acquire_lookup, decide_True, Hx in Hx' by done.
      cbn in Hx'. injection Hx' as Hx'. rewrite Hhx' in Hx'. apply (f_equal okind) in Hx'. cbn in Hx'.
      rewrite Hk' in Hx'. destruct (okind x) as [[]| | | | |] eqn:Hkx; cbn in Hx'; rewrite ?Hkx in Hx'; done. }
    rewrite (enough_spec s1 h' o count Hh' Hc1), Hv1. cbn [mbind outcome_bind].
    destruct (a_enough o d') eqn:Hen.
    + exists (Some t), s1. split; [done|]. split; [done|]. split; [done|]. split; [|done].
      rewrite Hv1. split; [done|]. by eapply offering_enough.
    + assert (offering o seen es (view s1)) as Hof1 by (rewrite Hv1; by eapply offering_next).
      destruct (IH fuel seen (S count) (Some t) s1 Hk1) as (r' & s2 & Hr2 & Hk2 & Hv2 & Hd2 & Hf2); try done.
      * by rewrite (wake_frame_length _ _ Hf1).
      * lia.
      * intros x2 Hx2 Hk2. exfalso. rewrite Hv1 in Hx2. unfold a_enough in Hen. rewrite Hx2, Hk2 in Hen. done.
      * exists r', s2. split; [done|]. split; [done|]. split; [by rewrite Hv2, Hv1|]. split; [done|].
        by etransitivity.
  - destruct Hsat as (-> & -> & Hnr). cbn [negb].
    pose proof (offering_skip _ _ _ _ _ _ _ _ Hof Hw Hnr) as Hof1.
    apply (IH fuel (seen ++ [(t, i)]) count r s Hk Hcpu Hof1); [lia|done].
Qed.

(** *** Signalling an object *)

Lemma wait_test_spec cpu o x Inc s :
  kernel_ok s → (cpu < length (KeProcessorList s))%nat → dobjs (view s) !! o = Some x →
  offering o [] (waiters x) (view s) → 0 ≤ Inc →
  ∃ r s', KiWaitTestAndGetWaiter cpu o Inc s = Ok (r, s') ∧ kernel_ok s' ∧
    view s' = a_wait_test (waiters x) o (view s) ∧ dispatcher_ok (view s') ∧ wake_frame s s'.
Proof.
  intros Hk Hcpu Hx Hof Hinc. destruct (view_objects s o x Hx) as (h & Hh & ->).
  unfold KiWaitTestAndGetWaiter, KiAssertOwnDispatcherLock. rewrite (ko_lock s Hk).
  cbn [check mbind outcome_bind]. rewrite (proj2 (object_Ok s o h) Hh). cbn [mbind outcome_bind].
  apply lookup_lt_is_Some in Hcpu as Hp. destruct Hp as [p Hp].
  destruct (ko_current s Hk cpu p Hp) as (c & C & Hc & HC).
  unfold KeGetCurrentThread. rewrite (proj2 (prcb_Ok s cpu p) Hp). cbn [mbind outcome_bind]. rewrite Hc.
  cbn [deref mbind outcome_bind].
  assert (KiIsObjectSignaled h c = true) as ->.
  { pose proof (available_signaled _ o c (of_available _ _ _ _ Hof)) as Hs. unfold signaled in Hs.
    rewrite Hx in Hs. cbn in Hs. unfold KiIsObjectSignaled. by destruct (Body h). }
  cbn [check mbind outcome_bind].
  by apply (wait_test_loop_spec cpu o Inc (WaitBlockList h) Hinc _ [] 0 None s).
Qed.

Lemma wait_test_drop_spec cpu o x Inc s :
  kernel_ok s → (cpu < length (KeProcessorList s))%nat → dobjs (view s) !! o = Some x →
  offering o [] (waiters x) (view s) → 0 ≤ Inc →
  ∃ s', KiWaitTest cpu o Inc s = Ok s' ∧ kernel_ok s' ∧
    view s' = a_wait_test (waiters x) o (view s) ∧ dispatcher_ok (view s') ∧ wake_frame s s'.
Proof.
  intros Hk Hcpu Hx Hof Hinc.
  destruct (wait_test_spec cpu o x Inc s Hk Hcpu Hx Hof Hinc) as (r & s' & Hr & ?).
  exists s'. split; [|done]. unfold KiWaitTest. by rewrite Hr.
Qed.

(** An object that becomes available is about to be offered to its waiters. *)
Lemma offering_signal d d' o x :
  dispatcher_ok d → dobjs d !! o = Some x →
  (∃ x', dobjs d' !! o = Some x' ∧ waiters x' = waiters x) →
  (∀ t wt bl, waits d' t wt bl ↔ waits d t wt bl) →
  (∀ o' t, o' ≠ o → signaled d' o' t = signaled d o' t) →
  links (λ _, False) d' → available d' o → offering o [] (waiters x) d'.
Proof.
  intros [Hl Ha] Hx (x' & Hx' & Hwx) Hw Hs Hl' Hav.
  assert (∀ t bl o', waits d t WAIT_TYPE_ANY bl → o' ∈ bl → signaled d o' t = false) as Hany.
  { intros t bl o' Hwt Ho'. apply not_true_is_false. intros Hsig.
    destruct (Ha t _ bl Hwt) as [[]|Hn]. apply Hn. by exists o'. }
  split; try done.
  - exists x'. done.
  - intros t wt bl Hwt%Hw. destruct (Ha t wt bl Hwt) as [[]|Hnr].
    destruct (decide (o ∈ bl)) as [Hin|Hout].
    + left. apply list_elem_of_lookup_1 in Hin as [i Hi]. exists i.
      apply (l_waiter _ _ Hl o x t i Hx). eauto.
    + right. intros Hr. apply Hnr. destruct wt; cbn in *.
      * intros o' Ho'. rewrite <-Hs by (by intros ->). by apply Hr.
      * destruct Hr as (o' & Ho' & Hr). exists o'. split; [done|]. by rewrite <-Hs by (by intros ->).
  - intros t bl o' Hwt%Hw Ho' Hne. rewrite Hs by done. by eapply Hany.
Qed.

(** ** The abstract operations *)

Definition a_set (o : nat) (v : Z) (d : DVIEW) : DVIEW :=
  mkView (alter (set_sig v) o (dobjs d)) (dthrs d).

Definition a_release (m t : nat) (d : DVIEW) : DVIEW :=
  match dobjs d !! m with
  | Some (mkDobj n ws (KMutex l ow)) =>
      if n =? 1 then
        mkView (<[m := mkDobj 0 ws (KMutex l None)]> (dobjs d))
          (alter (λ y, mkDthr (wait y) (filter (.≠ m) (owned y))) t (dthrs d))
      else mkView (<[m := mkDobj (n - 1) ws (KMutex l ow)]> (dobjs d)) (dthrs d)
  | _ => d
  end.

(** Object [o] gets the signal state [v] and is offered to its waiters. *)
Definition a_signal (o : nat) (v : Z) (d : DVIEW) : DVIEW :=
  a_wait_test (match dobjs d !! o with Some x => waiters x | None => [] end) o (a_set o v d).

(** [t] gives up one acquisition of [m], the last of which frees it. *)
Definition a_release_mutex (m t : nat) (d : DVIEW) : DVIEW :=
  match dobjs d !! m with
  | Some x => if sig x =? 1 then a_wait_test (waiters x) m (a_release m t d) else a_release m t d
  | None => d
  end.

Lemma a_set_lookup o v d o' :
  dobjs (a_set o v d) !! o' = (λ x, if decide (o' = o) then set_sig v x else x) <$> dobjs d !! o'.
Proof.
  unfold a_set. cbn. destruct (decide (o' = o)) as [->|Hne].
  - by rewrite lookup_alter_eq.
  - rewrite lookup_alter_ne by done. by destruct (dobjs d !! o').
Qed.

Lemma a_set_level o v d o' : level (a_set o v d) o' = level d o'.
Proof. unfold level. rewrite a_set_lookup. destruct (dobjs d !! o'); [cbn; by case_decide|done]. Qed.

Lemma a_set_signaled o v d o' t : o' ≠ o → signaled (a_set o v d) o' t = signaled d o' t.
Proof.
  intros Hne. unfold signaled. rewrite a_set_lookup. destruct (dobjs d !! o'); cbn; [|done].
  by rewrite decide_False.
Qed.

Lemma a_set_links P o v d x :
  links P d → dobjs d !! o = Some x → (∀ l ow, okind x ≠ KMutex l ow) →
  (okind x = KSemaphore → 0 ≤ v < 2 ^ 15) → links P (a_set o v d).
Proof.
  intros Hl Hx Hnm Hv.
  assert (∀ o' x', dobjs (a_set o v d) !! o' = Some x' → ∃ x0, dobjs d !! o' = Some x0 ∧
    waiters x' = waiters x0 ∧ okind x' = okind x0 ∧ (o' ≠ o → sig x' = sig x0) ∧ (o' = o → x0 = x ∧ sig x' = v)) as Hlk.
  { intros o' x'. rewrite a_set_lookup. destruct (dobjs d !! o') as [x0|] eqn:H0; [|done].
    intros [= <-]. exists x0. destruct (decide (o' = o)) as [->|Hne]; cbn.
    - rewrite Hx in H0. injection H0 as <-. by split_and!.
    - by split_and!. }
  split.
  - intros o' x' (x0 & H0 & -> & _)%Hlk. by eapply l_nodup.
  - intros o' x' t i (x0 & H0 & -> & _)%Hlk. by apply (l_waiter _ _ Hl).
  - intros t wt bl Hw. destruct (l_blocks _ _ Hl t wt bl Hw) as [? Hex]. split; [done|].
    intros o' Ho'. rewrite a_set_lookup. destruct (Hex o' Ho') as [? ->]. by eexists.
  - intros o' x' l ow (x0 & H0 & _ & -> & Hs & He)%Hlk Hk. destruct (decide (o' = o)) as [->|Hne].
    + destruct (He eq_refl) as [-> _]. by apply Hnm in Hk.
    + rewrite Hs by done. exact (l_mutex _ _ Hl o' x0 l ow H0 Hk).
  - intros t y Hy. destruct (l_owned _ _ Hl t y Hy) as [? Hown]. split; [done|]. intros o' Ho'.
    destruct (Hown o' Ho') as (x0 & l & H0 & Hk). rewrite a_set_lookup, H0. eexists _, l. split; [done|].
    by case_decide.
  - intros o' x' (x0 & H0 & _ & -> & Hs & He)%Hlk Hk. destruct (decide (o' = o)) as [->|Hne].
    + destruct (He eq_refl) as [-> ->]. by apply Hv.
    + rewrite Hs by done. exact (l_semaphore _ _ Hl o' x0 H0 Hk).
  - intros t y wt bl Hns Hy Hw. destruct (l_levels _ _ Hl t y wt bl Hns Hy Hw) as [Hlv Hct]. split.
    + assert (top_level (a_set o v d) y = top_level d y) as ->.
      { unfold top_level. destruct (head (owned y)); cbn; [apply a_set_level|done]. }
      destruct wt; [|intros o' Ho'; specialize (Hlv o' Ho')];
        (eapply ordered_level; [|exact Hlv]); intros; apply a_set_level.
    + intros o' x' l Ho' (x0 & H0 & _ & -> & Hs & He)%Hlk Hk. destruct (decide (o' = o)) as [->|Hne].
      * destruct (He eq_refl) as [-> _]. by apply Hnm in Hk.
      * rewrite Hs by done. exact (Hct o' x0 l Ho' H0 Hk).
Qed.

Lemma signal_offering d o x v :
  dispatcher_ok d → dobjs d !! o = Some x → (∀ l ow, okind x ≠ KMutex l ow) → v ≠ 0 →
  (okind x = KSemaphore → 0 ≤ v < 2 ^ 15) → offering o [] (waiters x) (a_set o v d).
Proof.
  intros Hd Hx Hnm Hv Hs. apply (offering_signal d); try done.
  - rewrite a_set_lookup, Hx. cbn. rewrite decide_True by done. by eexists.
  - intros. by apply a_set_signaled.
  - eapply a_set_links; try done. apply Hd.
  - unfold available. rewrite a_set_lookup, Hx. cbn. rewrite decide_True by done. eexists. split; [done|].
    cbn. by destruct (okind x); try done; exfalso; eapply Hnm.
Qed.

(** Clearing a signal wakes nobody and strands nobody. *)
Lemma a_reset_ok d o x :
  dispatcher_ok d → dobjs d !! o = Some x → (∀ l ow, okind x ≠ KMutex l ow) → dispatcher_ok (a_set o 0 d).
Proof.
  intros [Hl Ha] Hx Hnm. split; [by eapply a_set_links|].
  assert (∀ o' t, signaled (a_set o 0 d) o' t = true → signaled d o' t = true) as Hs.
  { intros o' t. destruct (decide (o' = o)) as [->|Hne]; [|by rewrite a_set_signaled].
    unfold signaled. rewrite a_set_lookup, Hx. cbn. rewrite decide_True by done. cbn.
    destruct (okind x) eqn:Hk; try done. exfalso. by eapply Hnm. }
  intros t wt bl Hw. destruct (Ha t wt bl Hw) as [[]|Hn]. right. intros Hr. apply Hn.
  destruct wt; cbn in *.
  - intros o' Ho'. by apply Hs, Hr.
  - destruct Hr as (o' & ? & ?). exists o'. split; [done|by apply Hs].
Qed.

Lemma view_upd_sig o v f s h :
  Objects s !! o = Some h → f h = set_Signaled v h → view (upd_object o f s) = a_set o v (view s).
Proof.
  intros Hh Hf. unfold view, a_set. f_equal. apply (dobj_upd o f (set_sig v) s).
  intros h0. rewrite Hh. intros [= <-]. by rewrite Hf.
Qed.

Lemma signal_frame o v f s h :
  Objects s !! o = Some h → f h = set_Signaled v h → acquire_frame s (upd_object o f s).
Proof.
  intros Hh Hf. apply upd_object_frame. intros h0. rewrite Hh. intros [= <-]. rewrite Hf. cbn.
  by destruct (Body h).
Qed.

(** Signalling an event, a semaphore, a timer, a thread or a process. *)
Lemma signal_spec cpu o x v f Inc s :
  kernel_ok s → dispatcher_ok (view s) → (cpu < length (KeProcessorList s))%nat →
  dobjs (view s) !! o = Some x → (∀ l ow, okind x ≠ KMutex l ow) → v ≠ 0 →
  (okind x = KSemaphore → 0 ≤ v < 2 ^ 15) → 0 ≤ Inc →
  (∀ h, Objects s !! o = Some h → f h = set_Signaled v h) →
  ∃ r s', KiWaitTestAndGetWaiter cpu o Inc (upd_object o f s) = Ok (r, s') ∧ kernel_ok s' ∧
    view s' = a_signal o v (view s) ∧ dispatcher_ok (view s') ∧ wake_frame s s'.
Proof.
  intros Hk Hd Hcpu Hx Hnm Hv Hsem Hinc Hf. destruct (view_objects s o x Hx) as (h & Hh & Hxh).
  pose proof (signal_frame o v f s h Hh (Hf h Hh)) as Hfr.
  pose proof (view_upd_sig o v f s h Hh (Hf h Hh)) as Hv1.
  destruct (wait_test_spec cpu o (set_sig v x) Inc (upd_object o f s)) as (r & s' & Hr & Hk' & Hv' & Hd' & Hw').
  - by eapply acquire_frame_ok.
  - done.
  - rewrite Hv1, a_set_lookup, Hx. cbn. by rewrite decide_True.
  - rewrite Hv1. exact (signal_offering (view s) o x v Hd Hx Hnm Hv Hsem).
  - done.
  - exists r, s'. split; [done|]. split; [done|]. split; [|split; [done|]].
    + rewrite Hv', Hv1. unfold a_signal. by rewrite Hx.
    + etransitivity; [by apply acquire_wake_frame|done].
Qed.

Lemma signal_drop_spec cpu o x v f Inc s :
  kernel_ok s → dispatcher_ok (view s) → (cpu < length (KeProcessorList s))%nat →
  dobjs (view s) !! o = Some x → (∀ l ow, okind x ≠ KMutex l ow) → v ≠ 0 →
  (okind x = KSemaphore → 0 ≤ v < 2 ^ 15) → 0 ≤ Inc →
  (∀ h, Objects s !! o = Some h → f h = set_Signaled v h) →
  ∃ s', KiWaitTest cpu o Inc (upd_object o f s) = Ok s' ∧ kernel_ok s' ∧
    view s' = a_signal o v (view s) ∧ dispatcher_ok (view s') ∧ wake_frame s s'.
Proof.
  intros. destruct (signal_spec cpu o x v f Inc s) as (r & s' & Hr & ?); try done.
  exists s'. split; [|done]. unfold KiWaitTest. by rewrite Hr.
Qed.

(** ** Releasing a mutex *)

Definition release_object (x : DOBJ) : DOBJ :=
  if sig x =? 1 then
    mkDobj 0 (waiters x) (match okind x with KMutex l _ => KMutex l None | k => k end)
  else mkDobj (sig x - 1) (waiters x) (okind x).

Lemma a_release_lookup m t d x l ow o' :
  dobjs d !! m = Some x → okind x = KMutex l ow →
  dobjs (a_release m t d) !! o' = if decide (o' = m) then Some (release_object x) else dobjs d !! o'.
Proof.
  intros Hx Hk. unfold a_release, release_object. rewrite Hx. destruct x as [n ws k]. cbn in Hk. subst k. cbn.
  destruct (n =? 1); cbn; (destruct (decide (o' = m)) as [->|Hne];
    [by rewrite lookup_insert_eq|by rewrite lookup_insert_ne]).
Qed.

Lemma a_release_thr m t d x l ow t' :
  dobjs d !! m = Some x → okind x = KMutex l ow →
  dthrs (a_release m t d) !! t' =
    (λ y, if decide (t' = t ∧ sig x = 1) then mkDthr (wait y) (filter (.≠ m) (owned y)) else y) <$> dthrs d !! t'.
Proof.
  intros Hx Hk. unfold a_release. rewrite Hx. destruct x as [n ws k]. cbn in Hk. subst k. cbn.
  destruct (Z.eqb_spec n 1) as [->|Hn]; cbn.
  - destruct (decide (t' = t)) as [->|Hne].
    + rewrite lookup_alter_eq. destruct (dthrs d !! t); cbn; [|done]. case_decide; [done|tauto].
    + rewrite lookup_alter_ne by done. destruct (dthrs d !! t'); cbn; [|done]. case_decide; [tauto|done].
  - destruct (dthrs d !! t'); cbn; [|done]. case_decide; [tauto|done].
Qed.

Lemma a_release_level m t d x l ow o' :
  dobjs d !! m = Some x → okind x = KMutex l ow → level (a_release m t d) o' = level d o'.
Proof.
  intros Hx Hk. unfold level. rewrite (a_release_lookup m t d x l ow) by done. case_decide; subst; [|done].
  rewrite Hx. cbn. unfold release_object. destruct (sig x =? 1); cbn; by rewrite Hk.
Qed.

Lemma a_release_waits m t d x l ow t' wt bl :
  dobjs d !! m = Some x → okind x = KMutex l ow → waits (a_release m t d) t' wt bl ↔ waits d t' wt bl.
Proof.
  intros Hx Hk. unfold waits. rewrite (a_release_thr m t d x l ow) by done.
  destruct (dthrs d !! t') as [y|]; cbn; [|done].
  split; intros (? & [= <-] & ?); (eexists; split; [done|]); by case_decide.
Qed.

Lemma a_release_links m t d x l :
  links (λ _, False) d → dobjs d !! m = Some x → okind x = KMutex l (Some t) →
  (∀ wt bl, ¬ waits d t wt bl) → links (λ _, False) (a_release m t d).
Proof.
  intros Hl Hx Hk Hnw. destruct (l_mutex _ _ Hl m x l _ Hx Hk) as (Hr & Hz & Hown).
  assert (sig x ≠ 0) as Hnz by (intros H0; by apply Hz in H0).
  destruct (Hown t eq_refl) as (y & Hy & Hiny).
  assert (∀ o' x', dobjs (a_release m t d) !! o' = Some x' →
    (o' ≠ m ∧ dobjs d !! o' = Some x') ∨ (o' = m ∧ x' = release_object x)) as Hlk.
  { intros o' x'. rewrite (a_release_lookup m t d x l _) by done. case_decide; [|by left].
    intros [= <-]. by right. }
  assert (waiters (release_object x) = waiters x) as Hwx by (unfold release_object; by destruct (sig x =? 1)).
  split.
  - intros o' x' [[_ ?]|[-> ->]]%Hlk; [by eapply l_nodup|]. rewrite Hwx. by eapply l_nodup.
  - intros o' x' t' i Hx'. setoid_rewrite (a_release_waits m t d x l _ _ _ _ Hx Hk).
    apply Hlk in Hx' as [[_ ?]|[-> ->]]; [by apply (l_waiter _ _ Hl)|]. rewrite Hwx.
    by apply (l_waiter _ _ Hl).
  - intros t' wt bl Hw%(a_release_waits m t d x l _ _ _ _ Hx Hk).
    destruct (l_blocks _ _ Hl t' wt bl Hw) as [? Hex]. split; [done|]. intros o' Ho'.
    rewrite (a_release_lookup m t d x l _) by done. case_decide; [done|by apply Hex].
  - intros o' x' l' ow' [[Hne Hx']|[-> ->]]%Hlk Hk'.
    + destruct (l_mutex _ _ Hl o' x' l' ow' Hx' Hk') as (? & ? & Hown'). split_and!; try done; try lia.
      intros t0 Ht0. destruct (Hown' t0 Ht0) as (y0 & Hy0 & Hin0).
      rewrite (a_release_thr m t d x l _) by done. rewrite Hy0. cbn. eexists. split; [done|].
      case_decide; [|done]. cbn. by apply list_elem_of_filter.
    + unfold release_object in *. destruct (Z.eqb_spec (sig x) 1) as [H1|H1]; cbn in *; rewrite ?Hk in Hk'.
      * injection Hk' as <- <-. split_and!; try done.
      * injection Hk' as <- <-. split; [lia|]. split; [split; [lia|done]|]. intros t0 [= <-].
        rewrite (a_release_thr m t d x l _) by done. rewrite Hy. cbn.
        rewrite decide_False by tauto. eauto.
  - intros t' y'. rewrite (a_release_thr m t d x l _) by done.
    destruct (dthrs d !! t') as [y0|] eqn:Hy0; [|done]. cbn. intros [= <-].
    destruct (l_owned _ _ Hl t' y0 Hy0) as [Hnd Hown'].
    assert (∀ o', o' ∈ owned y0 → o' ≠ m → ∃ x1 l1, dobjs (a_release m t d) !! o' = Some x1 ∧ okind x1 = KMutex l1 (Some t'))
      as Hothers.
    { intros o' Ho' Hne. destruct (Hown' o' Ho') as (x1 & l1 & ? & ?). exists x1, l1.
      by rewrite (a_release_lookup m t d x l _), decide_False by done. }
    case_decide as Hc.
    + destruct Hc as [-> H1]. cbn. split; [by apply NoDup_filter|].
      intros o' [Hne Ho']%list_elem_of_filter. by apply Hothers.
    + split; [done|]. intros o' Ho'. destruct (decide (o' = m)) as [->|Hne]; [|by apply Hothers].
      destruct (Hown' m Ho') as (x1 & l1 & Hx1 & Hk1). rewrite Hx in Hx1. injection Hx1 as <-.
      rewrite Hk in Hk1. injection Hk1 as <- <-.
      rewrite (a_release_lookup m t d x l _), decide_True by done. unfold release_object.
      rewrite (proj2 (Z.eqb_neq _ _)) by tauto. eexists _, l. split; [done|]. done.
  - intros o' x' [[_ ?]|[-> ->]]%Hlk Hk'; [exact (l_semaphore _ _ Hl o' x' H Hk')|].
    unfold release_object in Hk'. destruct (sig x =? 1); cbn in Hk'; rewrite Hk in Hk'; done.
  - intros t' y' wt bl Hns Hy' Hw'.
    assert (t' ≠ t) as Hne.
    { intros ->. apply (Hnw wt bl), (a_release_waits m t d x l _ _ _ _ Hx Hk). by exists y'. }
    rewrite (a_release_thr m t d x l _) in Hy' by done.
    destruct (dthrs d !! t') as [y0|] eqn:Hy0; [|done]. cbn in Hy'. rewrite decide_False in Hy' by tauto.
    injection Hy' as ->. destruct (l_levels _ _ Hl t' y' wt bl Hns Hy0 Hw') as [Hlv Hct]. split.
    + assert (top_level (a_release m t d) y' = top_level d y') as ->.
      { unfold top_level. destruct (head (owned y')); cbn; [by eapply a_release_level|done]. }
      destruct wt; [|intros o' Ho'; specialize (Hlv o' Ho')];
        (eapply ordered_level; [|exact Hlv]); intros; by eapply a_release_level.
    + intros o' x' l' Ho' [[_ Hx']|[-> ->]]%Hlk Hk'; [exact (Hct o' x' l' Ho' Hx' Hk')|].
      unfold release_object in Hk'. destruct (sig x =? 1); cbn in Hk'; rewrite Hk in Hk'; congruence.
Qed.

(** A release changes what its mutex signals only when it is the last. *)
Lemma a_release_signaled m t d x l ow o' t' :
  dobjs d !! m = Some x → okind x = KMutex l ow → sig x ≠ 0 → o' ≠ m ∨ sig x ≠ 1 →
  signaled (a_release m t d) o' t' = signaled d o' t'.
Proof.
  intros Hx Hk Hnz Hc. unfold signaled. rewrite (a_release_lookup m t d x l ow) by done.
  case_decide as Ho; subst; [|done]. destruct Hc as [?|H1]; [done|]. rewrite Hx. unfold release_object.
  rewrite (proj2 (Z.eqb_neq (sig x) 1)) by done. cbn. rewrite Hk.
  rewrite (proj2 (Z.eqb_neq (sig x - 1) 0)) by lia. by rewrite (proj2 (Z.eqb_neq (sig x) 0)).
Qed.

Lemma release_spec cpu m x l c s :
  kernel_ok s → dispatcher_ok (view s) → (cpu < length (KeProcessorList s))%nat →
  (KeGetCurrentThread cpu s = Ok (Some c)) → (∀ wt bl, ¬ waits (view s) c wt bl) →
  dobjs (view s) !! m = Some x → okind x = KMutex l (Some c) →
  ∃ s', KiReleaseMutex cpu m s = Ok s' ∧ kernel_ok s' ∧
    view s' = a_release_mutex m c (view s) ∧ dispatcher_ok (view s') ∧ wake_frame s s'.
Proof.
  intros Hk Hd Hcpu Hcur Hnw Hx Hkx. destruct (view_objects s m x Hx) as (h & Hh & Hxh).
  pose proof Hd as [Hl Ha]. destruct (l_mutex _ _ Hl m x l _ Hx Hkx) as (Hr & Hz & Hown).
  assert (sig x ≠ 0) as Hnz by (intros H0; by apply Hz in H0).
  destruct (Hown c eq_refl) as (y & Hy & Hiny). destruct (view_threads s c y Hy) as (C & HC & HyC).
  assert (Body h = DISPATCH_MUTEX l (Some c)) as Hb.
  { subst x. cbn in Hkx. destruct (Body h); try done. cbn in Hkx. by injection Hkx as -> ->. }
  assert (Signaled h = sig x) as Hsig by by subst x.
  unfold KiReleaseMutex, KiAssertOwnDispatcherLock. rewrite (ko_lock s Hk). cbn [check mbind outcome_bind].
  rewrite (proj2 (object_Ok s m h) Hh). cbn [mbind outcome_bind]. rewrite Hcur. cbn [mbind outcome_bind].
  rewrite Hb, bool_decide_true by done. cbn [check mbind outcome_bind].
  rewrite s16_small by lia. unfold MUTEX_SIGNALED. rewrite check_true by (apply Z.leb_le; lia).
  cbn [mbind outcome_bind]. rewrite Hsig.
  set (s1 := upd_object m (set_Signaled (sig x - 1)) s).
  assert (Objects s1 !! m = Some (set_Signaled (sig x - 1) h)) as H1.
  { unfold s1, upd_object. cbn. by rewrite lookup_alter_eq, Hh. }
  assert (acquire_frame s s1) as Hf1 by (by eapply signal_frame).
  unfold a_release_mutex. rewrite Hx. destruct (Z.eqb_spec (sig x) 1) as [He|He].
  - rewrite He. rewrite (proj2 (Z.eqb_eq (1 - 1) 0)) by done. cbn [deref mbind outcome_bind].
    rewrite (proj2 (thread_Ok s1 c C) HC). cbn [mbind outcome_bind].
    assert (m ∈ MutexList C) as Hin by (by subst y).
    unfold RemoveEntryList. rewrite decide_True by done. cbn [mbind outcome_bind].
    set (s2 := upd_object m (set_Body (DISPATCH_MUTEX l None)) (upd_thread c (set_MutexList (filter (.≠ m) (MutexList C))) s1)).
    assert (acquire_frame s s2) as Hf2.
    { etransitivity; [exact Hf1|]. etransitivity;
        [apply (upd_mutexes_frame c (λ _, filter (.≠ m) (MutexList C)))|].
      apply upd_object_frame. intros h0. change (Objects (upd_thread _ _ s1)) with (Objects s1). rewrite H1.
      intros [= <-]. cbn. by rewrite Hb. }
    assert (view s2 = a_release m c (view s)) as Hv2.
    { unfold a_release. rewrite Hx. subst x. cbn in Hkx, He |- *. rewrite Hkx, He. cbn. unfold view. f_equal.
      - unfold s2. rewrite (dobj_insert m _ _ (set_Signaled (Signaled h - 1) h)) by exact H1.
        change (dobj (upd_thread _ _ s1)) with (dobj s1). unfold s1. rewrite (dobj_insert m _ s h Hh).
        rewrite insert_insert_eq. unfold view_object. cbn. by rewrite He.
      - change (dthr s2) with (dthr (upd_thread c (set_MutexList (filter (.≠ m) (MutexList C))) s1)).
        apply (dthr_upd c _ (λ y, mkDthr (wait y) (filter (.≠ m) (owned y))) s1). intros T.
        change (Threads s1) with (Threads s). rewrite HC. intros [= <-]. done. }
    destruct (wait_test_drop_spec cpu m (release_object x) 1 s2) as (s' & Hr' & Hk' & Hv' & Hd' & Hw').
    + by eapply acquire_frame_ok.
    + by rewrite (af_procs _ _ Hf2).
    + rewrite Hv2, (a_release_lookup m c _ x l _ m Hx Hkx). by rewrite decide_True.
    + rewrite Hv2. assert (waiters (release_object x) = waiters x) as -> by
        (unfold release_object; by destruct (sig x =? 1)).
      apply (offering_signal (view s)); try done.
      * rewrite (a_release_lookup m c _ x l _ m Hx Hkx), decide_True by done. eexists. split; [done|].
        unfold release_object. by destruct (sig x =? 1).
      * intros. by eapply a_release_waits.
      * intros. eapply a_release_signaled; try done. by left.
      * by eapply a_release_links.
      * unfold available. rewrite (a_release_lookup m c _ x l _ m Hx Hkx), decide_True by done.
        eexists. split; [done|]. unfold release_object. rewrite He. cbn. by rewrite Hkx.
    + done.
    + exists s'. split; [exact Hr'|]. split; [done|]. split; [|split; [done|]].
      * rewrite Hv', Hv2. unfold release_object. by destruct (sig x =? 1).
      * etransitivity; [by apply acquire_wake_frame|done].
  - rewrite (proj2 (Z.eqb_neq (sig x - 1) 0)) by lia.
    assert (view s1 = a_release m c (view s)) as Hv1.
    { unfold a_release. rewrite Hx. subst x. cbn in Hkx, He |- *. rewrite Hkx, (proj2 (Z.eqb_neq _ 1)) by done.
      unfold view. f_equal. unfold s1. rewrite (dobj_insert m _ s h Hh). unfold view_object. cbn. by rewrite Hkx. }
    exists s1. split; [done|]. split; [by eapply acquire_frame_ok|]. split; [done|]. split.
    + rewrite Hv1. split; [by eapply a_release_links|]. intros t wt bl Hw.
      apply (a_release_waits m c _ x l _ _ _ _ Hx Hkx) in Hw. destruct (Ha t wt bl Hw) as [[]|Hn].
      right. intros Hrd. apply Hn. destruct wt; cbn in *.
      * intros o' Ho'. rewrite <-(a_release_signaled m c (view s) x l _ o' t Hx Hkx Hnz) by by right. by apply Hrd.
      * destruct Hrd as (o' & Ho' & Hs). exists o'. split; [done|].
        by rewrite <-(a_release_signaled m c (view s) x l _ o' t Hx Hkx Hnz) by by right.
    + by apply acquire_wake_frame.
Qed.
