(* ===== verification/DispatchRuns.v ===== *)
(** The dispatcher as a machine: each routine of the kernel's interface is a
    step, the steps implement those of the abstract dispatcher, and every run
    keeps the invariants. *)
From S2P Require Import Prelude RbTree Ke Timer Sched SchedSpec Dispatch DispatchSpec.
Local Open Scope Z_scope.

(** ** What wake-ups keep *)

Lemma running_runs s s' : running s' = running s → ∀ c t, runs s' c t ↔ runs s c t.
Proof.
  intros H c t. split; intros (p & Hp & Hc).
  - destruct (list_fmap_lookup_eq _ _ _ _ _ H Hp) as (p0 & ? & [= E _]). exists p0. split; [done|congruence].
  - destruct (list_fmap_lookup_eq _ _ _ _ _ (eq_sym H) Hp) as (p0 & ? & [= E _]). exists p0. split; [done|congruence].
Qed.

Lemma wake_run_ok s s' :
  wake_frame s s' → kernel_ok s' → run_ok (λ _, False) s → run_ok (λ _, False) s'.
Proof.
  intros Hw Hk' [Hk Hu Hst Hi [R1 R2 R3 R4]]. pose proof (wake_frame_length s s' Hw) as Hlen.
  destruct Hw as (Hr & Hd & Htc & Hkp & Hback & Hth). pose proof (running_runs s s' Hr) as Hruns.
  assert (∀ t T', Threads s' !! t = Some T' → ∃ T, Threads s !! t = Some T ∧ thread_step T T') as Hrev.
  { intros t T' HT'. destruct (Hback t) as [T HT]; [by rewrite HT'|]. exists T. split; [done|].
    destruct (Hth t T HT) as (T2 & HT2 & ?). congruence. }
  split.
  - done.
  - intros t T' c HT' Hc. rewrite Hlen in Hc. destruct (Hrev t T' HT') as (T & HT & Hs%thread_step_fixed).
    injection Hs as _ _ _ _ _ _ _ E _. rewrite E. by apply (Hu t T c).
  - by apply (kp_steal _ _ Hkp).
  - intros c Hc. rewrite Hlen in Hc. destruct (Hi c Hc) as (t & T & HT & Hb & Hsp & Hor).
    destruct (Hth t T HT) as (T' & HT' & Hs). pose proof (thread_step_fixed _ _ Hs) as [= _ _ _ _ _ _ Eb _ _ _ Es].
    exists t, T'. split; [done|]. split; [congruence|]. split; [congruence|]. destruct Hor as [Hin|[Hrun Hp]].
    + left. by apply (kp_idle _ _ Hkp).
    + destruct Hs as [E|(Hwt & _)].
      * right. split; [by apply Hruns|]. apply (f_equal Priority) in E. cbn in E. congruence.
      * destruct (R2 c t ltac:(tauto) Hrun) as (T0 & HT0 & ?). congruence.
  - assert (∀ T T', thread_step T T' → Status T = KTHREAD_STATUS_RUNNING ↔ Status T' = KTHREAD_STATUS_RUNNING) as Hst'.
    { intros T T' [E|(H1 & H2 & _)]; [|split; congruence]. apply (f_equal Status) in E. cbn in E. by rewrite E. }
    split.
    + intros c p Hn Hp. destruct (list_fmap_lookup_eq _ _ _ _ _ Hr Hp) as (p0 & ? & [= _ ->]). by eapply R1.
    + intros c t Hn Hrun%Hruns. destruct (R2 c t Hn Hrun) as (T & HT & ?). destruct (Hth t T HT) as (T' & ? & Hs).
      exists T'. split; [done|]. by apply (Hst' T T' Hs).
    + intros c c' t Hn Hn' H1%Hruns H2%Hruns. by apply (R3 c c' t).
    + intros t T' HT' HsT. destruct (Hrev t T' HT') as (T & HT & Hs). apply (Hst' T T' Hs) in HsT.
      destruct (R4 t T HT HsT) as [[]|(c & ? & ?)]. right. exists c. by rewrite Hruns.
Qed.

(** ** The invariant between two steps *)

(** The DPCs of timers exist. *)
Definition dpcs_ok (s : KERNEL) : Prop :=
  ∀ o T d, timer s o = Ok T → TimerDpc T = Some d → is_Some (Dpcs s !! d).

Record system_ok (s : KERNEL) : Prop := {
  so_unlocked : KiDispatcherLock s = false;
  so_run : run_ok (λ _, False) (set_KiDispatcherLock true s);
  so_dispatcher : dispatcher_ok (view s);
  so_dpcs : dpcs_ok s }.

Lemma lock_spec s : system_ok s → KiLockDispatcher s = Ok (set_KiDispatcherLock true s).
Proof. intros Hok. unfold KiLockDispatcher. by rewrite (so_unlocked s Hok). Qed.

(** A routine that took the lock gives it back. *)
Lemma unlock_spec s :
  run_ok (λ _, False) s → dispatcher_ok (view s) → dpcs_ok s →
  ∃ s', KiUnlockDispatcher s = Ok s' ∧ system_ok s' ∧ view s' = view s.
Proof.
  intros Hr Hd Hp. pose proof (ko_lock s (rn_kernel _ _ Hr)) as Hl.
  unfold KiUnlockDispatcher. rewrite Hl. cbn [check mbind outcome_bind]. eexists. split; [done|].
  split; [|done]. split; try done. assert (set_KiDispatcherLock true (set_KiDispatcherLock false s) = s) as ->; [|done].
  destruct s. cbn in Hl. by subst.
Qed.

Lemma dpcs_step s s' :
  timers_step s s' → blank_dpc <$> Dpcs s' = blank_dpc <$> Dpcs s → dpcs_ok s → dpcs_ok s'.
Proof.
  intros Ht Hd Hp o T' d HT' HdT. destruct (Ht o T' HT') as (T & HT & E).
  assert (TimerDpc T = Some d) as HdT0 by (by destruct E as [-> | ->]).
  destruct (Hp o T d HT HdT0) as [D HD].
  destruct (map_fmap_lookup_eq _ _ _ _ _ (eq_sym Hd) HD) as (D' & ? & _). eauto.
Qed.

Lemma wake_dpcs s s' : wake_frame s s' → dpcs_ok s → dpcs_ok s'.
Proof. intros (_ & Hd & _ & Hkp & _). apply dpcs_step; [apply Hkp|by rewrite Hd]. Qed.

(** A routine that takes the lock, changes the objects and wakes threads. *)
Lemma locked_step (f : KERNEL → outcome KERNEL) s d' :
  system_ok s →
  (let s1 := set_KiDispatcherLock true s in
   kernel_ok s1 → dispatcher_ok (view s1) →
   ∃ s2, f s1 = Ok s2 ∧ kernel_ok s2 ∧ view s2 = d' ∧ dispatcher_ok (view s2) ∧ wake_frame s1 s2) →
  ∃ s', (s ← KiLockDispatcher s; s ← f s; KiUnlockDispatcher s) = Ok s' ∧ system_ok s' ∧ view s' = d'.
Proof.
  intros Hok Hf. rewrite (lock_spec s Hok). cbn [mbind outcome_bind]. pose proof Hok as [_ Hr Hd Hp].
  destruct (Hf (rn_kernel _ _ Hr) Hd) as (s2 & -> & Hk2 & Hv2 & Hd2 & Hw). cbn [mbind outcome_bind].
  destruct (unlock_spec s2) as (s' & H' & Hok' & Hv').
  - by eapply wake_run_ok.
  - done.
  - by eapply wake_dpcs.
  - exists s'. split; [done|]. split; [done|]. by rewrite Hv', Hv2.
Qed.

(** ** Signalling *)

Definition same_kind (k k' : kind) : Prop :=
  match k, k' with KMutex l _, KMutex l' _ => l = l' | _, _ => k = k' end.

Lemma same_kind_trans k1 k2 k3 : same_kind k1 k2 → same_kind k2 k3 → same_kind k1 k3.
Proof. destruct k1, k2, k3; cbn; congruence. Qed.

Lemma same_kind_refl k : same_kind k k.
Proof. by destruct k. Qed.

Definition kinds_kept (d d' : DVIEW) : Prop :=
  ∀ o x, dobjs d !! o = Some x → ∃ x', dobjs d' !! o = Some x' ∧ same_kind (okind x) (okind x').

#[export] Instance kinds_kept_preorder : PreOrder kinds_kept.
Proof.
  split.
  - intros d o x Hx. exists x. split; [done|apply same_kind_refl].
  - intros x y z H1 H2 o a Ha. destruct (H1 o a Ha) as (b & Hb & E1). destruct (H2 o b Hb) as (c & Hc & E2).
    exists c. split; [done|by eapply same_kind_trans].
Qed.

Lemma acquire_kinds o t d : kinds_kept d (a_acquire o t d).
Proof.
  intros o' x Hx. rewrite a_acquire_lookup. case_decide; subst; [|exists x; split; [done|apply same_kind_refl]].
  rewrite Hx. cbn. eexists. split; [done|]. destruct (okind x) as [[]| | | | |] eqn:Hk; cbn; rewrite ?Hk; done.
Qed.

Lemma satisfy_kinds t i d d' : a_satisfy t i d = Some d' → kinds_kept d d'.
Proof.
  assert (∀ d1, kinds_kept d1 (a_unwait t d1)) as Hu.
  { intros d1 o x Hx. rewrite unblock_lookup, Hx. eexists. split; [done|apply same_kind_refl]. }
  unfold a_satisfy. destruct (dthrs d !! t) as [y|]; [|done]. cbn. destruct (wait y) as [[wt bl]|]; [|done]. cbn.
  destruct wt.
  - destruct (forallb _ bl); [|done]. intros [= <-]. etransitivity; [|apply Hu].
    assert (∀ d1, kinds_kept d1 (foldl (λ d o, a_acquire o t d) d1 bl)) as Hf; [|apply Hf].
    induction bl as [|o bl IH]; intros d1; cbn; [done|]. etransitivity; [apply acquire_kinds|apply IH].
  - destruct (bl !! i) as [o|]; [|done]. intros [= <-]. etransitivity; [apply acquire_kinds|apply Hu].
Qed.

Lemma wait_test_kinds es o d : kinds_kept d (a_wait_test es o d).
Proof.
  revert d. induction es as [|[t i] es IH]; intros d; cbn; [done|].
  destruct (a_satisfy t i d) as [d'|] eqn:Hs; [|apply IH]. apply satisfy_kinds in Hs.
  destruct (a_enough o d'); [done|]. etransitivity; [exact Hs|apply IH].
Qed.

Lemma a_set_kinds o v d : kinds_kept d (a_set o v d).
Proof.
  intros o' x Hx. rewrite a_set_lookup, Hx. eexists. split; [done|]. case_decide; apply same_kind_refl.
Qed.

Lemma a_signal_kinds o v d : kinds_kept d (a_signal o v d).
Proof. etransitivity; [apply a_set_kinds|apply wait_test_kinds]. Qed.

(** What a step of the dispatcher with the lock held gives. *)
Definition steps_to (s : KERNEL) (r : outcome KERNEL) (d' : DVIEW) : Prop :=
  ∃ s', r = Ok s' ∧ kernel_ok s' ∧ view s' = d' ∧ dispatcher_ok (view s') ∧ wake_frame s s'.

Definition is_event (d : DVIEW) (o : nat) : Prop := ∃ x e, dobjs d !! o = Some x ∧ okind x = KEvent e.

Lemma set_event_spec cpu o Inc s :
  kernel_ok s → dispatcher_ok (view s) → (cpu < length (KeProcessorList s))%nat → is_event (view s) o → 0 ≤ Inc →
  steps_to s (KiSetEvent cpu o Inc s) (a_signal o 1 (view s)).
Proof.
  intros Hk Hd Hcpu (x & e & Hx & Hkx) Hi. unfold KiSetEvent, KiAssertOwnDispatcherLock. rewrite (ko_lock s Hk).
  destruct (view_objects s o x Hx) as (h & Hh & _). cbn [check mbind outcome_bind].
  rewrite (proj2 (object_Ok s o h) Hh). cbn [mbind outcome_bind].
  apply (signal_drop_spec cpu o x 1 (set_Signaled 1) Inc s); try done; intros; congruence.
Qed.

Lemma reset_event_spec o s :
  kernel_ok s → dispatcher_ok (view s) → is_event (view s) o →
  steps_to s (KiResetEvent o s) (a_set o 0 (view s)).
Proof.
  intros Hk Hd (x & e & Hx & Hkx). unfold KiResetEvent, KiAssertOwnDispatcherLock. rewrite (ko_lock s Hk).
  destruct (view_objects s o x Hx) as (h & Hh & _). cbn [check mbind outcome_bind].
  rewrite (proj2 (object_Ok s o h) Hh). cbn [mbind outcome_bind].
  pose proof (signal_frame o 0 (set_Signaled 0) s h Hh eq_refl) as Hf.
  pose proof (view_upd_sig o 0 (set_Signaled 0) s h Hh eq_refl) as Hv. eexists. split; [done|].
  split; [by eapply acquire_frame_ok|]. split; [done|]. split; [|by apply acquire_wake_frame].
  rewrite Hv. eapply a_reset_ok; try done. intros; congruence.
Qed.

Lemma pulse_event_spec cpu o Inc s :
  kernel_ok s → dispatcher_ok (view s) → (cpu < length (KeProcessorList s))%nat → is_event (view s) o → 0 ≤ Inc →
  steps_to s (s ← KiSetEvent cpu o Inc s; KiResetEvent o s) (a_set o 0 (a_signal o 1 (view s))).
Proof.
  intros Hk Hd Hcpu He Hi.
  destruct (set_event_spec cpu o Inc s Hk Hd Hcpu He Hi) as (s1 & -> & Hk1 & Hv1 & Hd1 & Hw1).
  cbn [mbind outcome_bind]. assert (is_event (view s1) o) as He1.
  { destruct He as (x & e & Hx & Hkx). destruct (a_signal_kinds o 1 _ o x Hx) as (x' & Hx' & Hk').
    exists x', e. rewrite Hv1. split; [done|]. rewrite Hkx in Hk'. by destruct (okind x'). }
  destruct (reset_event_spec o s1 Hk1 Hd1 He1) as (s2 & -> & Hk2 & Hv2 & Hd2 & Hw2).
  exists s2. split; [done|]. split; [done|]. split; [by rewrite Hv2, Hv1|]. split; [done|by etransitivity].
Qed.

Lemma release_semaphore_spec cpu o x Adjustment Inc s :
  kernel_ok s → dispatcher_ok (view s) → (cpu < length (KeProcessorList s))%nat →
  dobjs (view s) !! o = Some x → okind x = KSemaphore → 0 < Adjustment → sig x + Adjustment < 2 ^ 15 → 0 ≤ Inc →
  steps_to s (KiReleaseSemaphore cpu o Adjustment Inc s) (a_signal o (sig x + Adjustment) (view s)).
Proof.
  intros Hk Hd Hcpu Hx Hkx Ha Hb Hi. unfold KiReleaseSemaphore, KiAssertOwnDispatcherLock. rewrite (ko_lock s Hk).
  rewrite (check_true (0 <? Adjustment)) by by apply Z.ltb_lt. cbn [check mbind outcome_bind].
  destruct (view_objects s o x Hx) as (h & Hh & ->). rewrite (proj2 (object_Ok s o h) Hh). cbn [mbind outcome_bind].
  pose proof Hd as [Hl _]. pose proof (l_semaphore _ _ Hl o _ Hx Hkx) as Hr. cbn in Hr, Hb, Hkx.
  rewrite s16_small by lia. rewrite (check_true (0 <=? _)) by (apply Z.leb_le; lia).
  cbn [mbind outcome_bind]. rewrite (check_true (0 <? _)) by (apply Z.ltb_lt; lia). cbn [mbind outcome_bind].
  apply (signal_drop_spec cpu o (view_object h) _ (set_Signaled (Signaled h + Adjustment)) Inc s); try done.
  - cbn. intros; congruence.
  - cbn. lia.
  - intros _. cbn. lia.
Qed.

(** ** Waiting *)

Definition add_waiter (e : nat * nat) (x : DOBJ) : DOBJ := mkDobj (sig x) (waiters x ++ [e]) (okind x).

Fixpoint block_objs (t i : nat) (os : list nat) (m : gmap nat DOBJ) : gmap nat DOBJ :=
  match os with
  | [] => m
  | o :: os => block_objs t (S i) os (alter (add_waiter (t, i)) o m)
  end.

(** [t] goes to sleep on the objects [os]. *)
Definition a_block (t : nat) (wt : WAIT_TYPE) (os : list nat) (d : DVIEW) : DVIEW :=
  mkView (block_objs t 0 os (dobjs d)) (alter (λ y, mkDthr (Some (wt, os)) (owned y)) t (dthrs d)).

Lemma block_objs_out t i os m o : o ∉ os → block_objs t i os m !! o = m !! o.
Proof.
  revert i m. induction os as [|o' os IH]; intros i m Ho; cbn; [done|].
  rewrite IH by set_solver. rewrite lookup_alter_ne; [done|set_solver].
Qed.

Lemma block_objs_in t i os m o j :
  NoDup os → os !! j = Some o → block_objs t i os m !! o = add_waiter (t, (i + j)%nat) <$> m !! o.
Proof.
  revert i m j. induction os as [|o' os IH]; intros i m j Hnd Hj; [done|].
  apply NoDup_cons in Hnd as [Hno Hnd]. cbn. destruct j as [|j]; cbn in Hj.
  - injection Hj as ->. rewrite block_objs_out by done. by rewrite lookup_alter_eq, Nat.add_0_r.
  - rewrite (IH _ _ j Hnd Hj). rewrite lookup_alter_ne.
    + by replace (S i + j)%nat with (i + S j)%nat by lia.
    + intros ->. apply Hno. by eapply list_elem_of_lookup_2.
Qed.

Lemma a_block_lookup t wt os d o :
  NoDup os → (∃ j, os !! j = Some o ∧ dobjs (a_block t wt os d) !! o = add_waiter (t, j) <$> dobjs d !! o) ∨
  (o ∉ os ∧ dobjs (a_block t wt os d) !! o = dobjs d !! o).
Proof.
  intros Hnd. destruct (decide (o ∈ os)) as [Hin|Hout].
  - left. apply list_elem_of_lookup_1 in Hin as [j Hj]. exists j. split; [done|]. cbn.
    by rewrite (block_objs_in _ _ _ _ _ j).
  - right. split; [done|]. by apply block_objs_out.
Qed.

Lemma a_block_objs t wt os d o x' :
  NoDup os → dobjs (a_block t wt os d) !! o = Some x' →
  ∃ x, dobjs d !! o = Some x ∧ sig x' = sig x ∧ okind x' = okind x ∧
    ∀ e, e ∈ waiters x' ↔ e ∈ waiters x ∨ ∃ j, e = (t, j) ∧ os !! j = Some o.
Proof.
  intros Hnd Hx'. destruct (a_block_lookup t wt os d o Hnd) as [(j & Hj & E)|[Hout E]]; rewrite E in Hx'.
  - destruct (dobjs d !! o) as [x|]; [|done]. injection Hx' as <-. exists x. split_and!; try done.
    intros e. cbn. rewrite elem_of_app, list_elem_of_singleton. split.
    + intros [?| ->]; [by left|right; eauto].
    + intros [?|(j' & -> & Hj')]; [by left|right]. f_equal. by eapply NoDup_lookup.
  - exists x'. split_and!; try done. intros e. split; [by left|]. intros [?|(j & _ & Hj)]; [done|].
    exfalso. apply Hout. by eapply list_elem_of_lookup_2.
Qed.

Lemma a_block_some t wt os d o x :
  NoDup os → dobjs d !! o = Some x → is_Some (dobjs (a_block t wt os d) !! o).
Proof.
  intros Hnd Hx. destruct (a_block_lookup t wt os d o Hnd) as [(j & _ & ->)|[_ ->]]; rewrite Hx; by eexists.
Qed.

Lemma a_block_signaled t wt os d o t' : NoDup os → signaled (a_block t wt os d) o t' = signaled d o t'.
Proof.
  intros Hnd. unfold signaled. destruct (a_block_lookup t wt os d o Hnd) as [(j & _ & ->)|[_ ->]]; [|done].
  by destruct (dobjs d !! o).
Qed.

Lemma a_block_level t wt os d o : NoDup os → level (a_block t wt os d) o = level d o.
Proof.
  intros Hnd. unfold level. destruct (a_block_lookup t wt os d o Hnd) as [(j & _ & ->)|[_ ->]]; [|done].
  by destruct (dobjs d !! o).
Qed.

Lemma a_block_waits t wt os d y t' wt' bl :
  dthrs d !! t = Some y →
  waits (a_block t wt os d) t' wt' bl ↔ (t' = t ∧ wt' = wt ∧ bl = os) ∨ (t' ≠ t ∧ waits d t' wt' bl).
Proof.
  intros Hy. unfold waits. cbn. destruct (decide (t' = t)) as [->|Hne].
  - rewrite lookup_alter_eq, Hy. cbn. split.
    + intros (? & [= <-] & [= <- <-]). by left.
    + intros [(_ & -> & ->)|[? _]]; [|done]. eexists. split; [done|done].
  - rewrite lookup_alter_ne by done. split; [by right|]. by intros [[? _]|[_ ?]].
Qed.

Lemma a_block_ready t wt os d t' wt' bl :
  NoDup os → ready (a_block t wt os d) t' wt' bl ↔ ready d t' wt' bl.
Proof.
  intros Hnd. destruct wt'; cbn; [|by setoid_rewrite a_block_signaled].
  split; intros Hr o Ho; specialize (Hr o Ho); by rewrite a_block_signaled in *.
Qed.

Lemma may_acquire_ext d d' t y wt bl :
  (∀ o, level d' o = level d o) →
  (∀ o x', dobjs d' !! o = Some x' → ∃ x, dobjs d !! o = Some x ∧ sig x' = sig x ∧ okind x' = okind x) →
  may_acquire d t y wt bl → may_acquire d' t y wt bl.
Proof.
  intros Hlev Hobj [Hlv Hct]. split.
  - assert (top_level d' y = top_level d y) as ->.
    { unfold top_level. destruct (head (owned y)); cbn; [apply Hlev|done]. }
    destruct wt; [|intros o' Ho'; specialize (Hlv o' Ho')]; (eapply ordered_level; [|exact Hlv]); done.
  - intros o x' l Ho Hx' Hk. destruct (Hobj o x' Hx') as (x & Hx & -> & E). rewrite E in Hk. by eapply Hct.
Qed.

(** A wait that is not satisfied keeps the invariant. *)
Lemma a_block_ok t y wt os d :
  dispatcher_ok d → dthrs d !! t = Some y → wait y = None → NoDup os →
  (∀ o, o ∈ os → is_Some (dobjs d !! o)) → may_acquire d t y wt os → ¬ ready d t wt os →
  dispatcher_ok (a_block t wt os d).
Proof.
  intros [Hl Ha] Hy Hwy Hnd Hex Hmay Hnr.
  assert (∀ wt' bl, ¬ waits d t wt' bl) as Hnw by (intros wt' bl (y' & Hy' & ?); congruence).
  assert (∀ o x i, dobjs d !! o = Some x → (t, i) ∉ waiters x) as Hnt.
  { intros o x i Hx Hi. apply (l_waiter _ _ Hl o x t i Hx) in Hi as (wt' & bl & Hw & _). by apply Hnw in Hw. }
  pose proof (λ t' wt' bl, a_block_waits t wt os d y t' wt' bl Hy) as Hwts.
  split; [split|].
  - intros o x' Hx'. destruct (a_block_lookup t wt os d o Hnd) as [(j & Hj & E)|[_ E]]; rewrite E in Hx';
      [|by eapply l_nodup].
    destruct (dobjs d !! o) as [x|] eqn:Hx; [|done]. injection Hx' as <-. cbn. apply NoDup_app.
    split; [by eapply l_nodup|]. split; [|apply NoDup_singleton].
    intros e He ->%list_elem_of_singleton. by eapply Hnt.
  - intros o x' t' i Hx'. destruct (a_block_objs t wt os d o x' Hnd Hx') as (x & Hx & _ & _ & ->).
    rewrite (l_waiter _ _ Hl o x t' i Hx). split.
    + intros [(wt' & bl & Hw & Hi)|(j & [= -> ->] & Hj)].
      * exists wt', bl. rewrite Hwts. split; [|done]. right. split; [|done]. intros ->. by apply Hnw in Hw.
      * exists wt, os. rewrite Hwts. split; [by left|done].
    + intros (wt' & bl & Hw & Hi). apply Hwts in Hw as [(-> & -> & ->)|[Hne Hw]]; [right; eauto|left; eauto].
  - intros t' wt' bl Hw. apply Hwts in Hw as [(-> & -> & ->)|[Hne Hw]].
    + split; [done|]. intros o Ho. destruct (Hex o Ho) as [x Hx]. by eapply a_block_some.
    + destruct (l_blocks _ _ Hl t' wt' bl Hw) as [? Hb]. split; [done|]. intros o Ho.
      destruct (Hb o Ho) as [x Hx]. by eapply a_block_some.
  - intros o x' l ow Hx' Hk. destruct (a_block_objs t wt os d o x' Hnd Hx') as (x & Hx & E1 & E2 & _).
    rewrite E2 in Hk. rewrite E1. destruct (l_mutex _ _ Hl o x l ow Hx Hk) as (? & ? & Hown). split; [done|].
    split; [done|]. intros t0 Ht0. destruct (Hown t0 Ht0) as (y0 & Hy0 & ?). cbn.
    destruct (decide (t0 = t)) as [->|]; [|rewrite lookup_alter_ne by done; eauto].
    rewrite lookup_alter_eq, Hy0. eexists. split; [done|done].
  - intros t' y' Hy'. cbn in Hy'. assert (∃ y0, dthrs d !! t' = Some y0 ∧ owned y' = owned y0) as (y0 & Hy0 & ->).
    { destruct (decide (t' = t)) as [->|]; [|rewrite lookup_alter_ne in Hy' by done; eauto].
      rewrite lookup_alter_eq, Hy in Hy'. injection Hy' as <-. eauto. }
    destruct (l_owned _ _ Hl t' y0 Hy0) as [? Hown]. split; [done|]. intros o Ho.
    destruct (Hown o Ho) as (x & l & Hx & Hk). destruct (a_block_some t wt os d o x Hnd Hx) as [x' Hx'].
    destruct (a_block_objs t wt os d o x' Hnd Hx') as (x0 & Hx0 & _ & E & _). exists x', l. split; [done|]. congruence.
  - intros o x' Hx' Hk. destruct (a_block_objs t wt os d o x' Hnd Hx') as (x & Hx & E1 & E2 & _).
    rewrite E1. rewrite E2 in Hk. by eapply l_semaphore.
  - intros t' y' wt' bl Hns Hy' Hw'. assert (∃ y0, dthrs d !! t' = Some y0 ∧ owned y' = owned y0 ∧
      ((t' = t ∧ wt' = wt ∧ bl = os) ∨ wait y0 = Some (wt', bl))) as (y0 & Hy0 & Eo & Hor).
    { cbn in Hy'. destruct (decide (t' = t)) as [->|].
      - rewrite lookup_alter_eq, Hy in Hy'. injection Hy' as <-. cbn in Hw'. injection Hw' as <- <-. exists y. split_and!; auto.
      - rewrite lookup_alter_ne in Hy' by done. exists y'. eauto. }
    assert (may_acquire d t' y0 wt' bl) as Hm.
    { destruct Hor as [(-> & -> & ->)|Hw0]; [|by apply (l_levels _ _ Hl t' y0 wt' bl)]. congruence. }
    assert (may_acquire (a_block t wt os d) t' y0 wt' bl) as [H1 H2].
    { eapply may_acquire_ext; [intros; by apply a_block_level| |exact Hm].
      intros o x' Hx'. destruct (a_block_objs t wt os d o x' Hnd Hx') as (x & ? & ? & ? & _). eauto. }
    split; [|done]. unfold top_level in *. by rewrite Eo.
  - intros t' wt' bl Hw. right. rewrite a_block_ready by done.
    apply Hwts in Hw as [(-> & -> & ->)|[Hne Hw]]; [done|]. by destruct (Ha t' wt' bl Hw) as [[]|].
Qed.

(** Links of threads that do not wait need no excuse. *)
Lemma links_awake t d :
  links (λ t', False ∨ t' = t) d → (∀ wt bl, ¬ waits d t wt bl) → links (λ _, False) d.
Proof.
  intros [? ? ? ? ? ? Hlv] Hnw. split; try done. intros t' y wt bl _ Hy Hw. apply (Hlv t' y wt bl); [|done|done].
  intros [[]| ->]. apply (Hnw wt bl). by exists y.
Qed.

Lemma acquire_ok d o t y :
  dispatcher_ok d → acquirable d o t y → (∀ wt bl, ¬ waits d t wt bl) → dispatcher_ok (a_acquire o t d).
Proof.
  intros [Hl Ha] Hac Hnw. pose proof (acquire_links _ d o t y Hl Hac) as Hl'. split.
  - apply (links_awake t); [done|]. intros wt bl. rewrite a_acquire_waits. apply Hnw.
  - intros t' wt bl Hw%a_acquire_waits. destruct (Ha t' wt bl Hw) as [[]|Hn]. right. intros Hr. apply Hn.
    eapply acquire_not_ready; try done. intros ->. by apply Hnw in Hw.
Qed.

Lemma acquire_all_ok d t y bl :
  dispatcher_ok d → acquirable_all d t y bl → (∀ wt bl, ¬ waits d t wt bl) →
  dispatcher_ok (foldl (λ d o, a_acquire o t d) d bl).
Proof.
  intros [Hl Ha] Hac Hnw. destruct (acquire_all_links _ d t y bl Hl Hac) as (Hl' & Hw' & Hr'). split.
  - apply (links_awake t); [done|]. intros wt bl'. rewrite Hw'. apply Hnw.
  - intros t' wt bl' Hw. apply Hw' in Hw. destruct (Ha t' wt bl' Hw) as [[]|Hn]. right. intros Hr. apply Hn.
    apply (Hr' t' wt bl'); [|done]. intros ->. by apply Hnw in Hw.
Qed.

(** What the caller of a wait guarantees. *)
Record may_wait (d : DVIEW) (t : nat) (w : WAIT) : Prop := {
  mw_thread : ∃ y, dthrs d !! t = Some y ∧ wait y = None ∧ may_acquire d t y (WType w) (WObjects w);
  mw_nodup : NoDup (WObjects w);
  mw_some : WObjects w ≠ [];
  mw_exist o : o ∈ WObjects w → is_Some (dobjs d !! o) }.

(** The first object that [t] could acquire. *)
Definition first_signaled (d : DVIEW) (t : nat) (os : list nat) : option (nat * nat) :=
  list_find (λ o, signaled d o t = true) os.

(** Whether the wait is satisfied at once, and the state then. *)
Definition a_try (d : DVIEW) (t : nat) (wt : WAIT_TYPE) (os : list nat) : option (BSTATUS * DVIEW) :=
  match wt with
  | WAIT_TYPE_ANY =>
      '(i, o) ← first_signaled d t os; Some (STATUS_RANGE_WAIT i, a_acquire o t d)
  | WAIT_TYPE_ALL =>
      if forallb (λ o, signaled d o t) os then
        Some (STATUS_SUCCESS, foldl (λ d o, a_acquire o t d) d os)
      else None
  end.

Lemma a_try_none d t wt os : a_try d t wt os = None → ¬ ready d t wt os.
Proof.
  destruct wt; cbn.
  - destruct (forallb _ os) eqn:Hf; [done|]. intros _ Hr. apply not_true_iff_false in Hf. apply Hf, forallb_forall.
    intros o Ho%list_elem_of_In. by apply Hr.
  - unfold first_signaled. destruct (list_find _ os) as [[i o]|] eqn:Hf; [done|]. intros _ (o & Ho & Hs).
    apply list_find_None in Hf. rewrite Forall_forall in Hf. by apply (Hf o Ho).
Qed.

Lemma signaled_spec s o t x h :
  dobjs (view s) !! o = Some x → Objects s !! o = Some h → x = view_object h →
  KiIsObjectSignaled h t = signaled (view s) o t.
Proof. intros Hx Hh ->. unfold signaled, KiIsObjectSignaled. rewrite Hx. cbn. by destruct (Body h). Qed.

Lemma test_any_spec t y i os Sat s :
  KiDispatcherLock s = true → links (λ _, False) (view s) → dthrs (view s) !! t = Some y →
  may_acquire (view s) t y WAIT_TYPE_ANY os → (∀ o, o ∈ os → is_Some (dobjs (view s) !! o)) →
  match first_signaled (view s) t os with
  | Some (j, o) => acquirable (view s) o t y ∧ ∃ s', test_objects t WAIT_TYPE_ANY i os Sat s = Ok (true, Some (i + j)%nat, s') ∧
      view s' = a_acquire o t (view s) ∧ acquire_frame s s'
  | None => test_objects t WAIT_TYPE_ANY i os Sat s = Ok (match os with [] => Sat | _ => false end, None, s)
  end.
Proof.
  intros Hlock Hl Hy. revert i Sat. induction os as [|o os IH]; intros i Sat Hm Hex; [done|].
  unfold first_signaled. cbn [list_find test_objects].
  destruct (Hex o ltac:(left)) as [x Hx]. destruct (view_objects s o x Hx) as (h & Hh & Hxh).
  rewrite (proj2 (object_Ok s o h) Hh). cbn [mbind outcome_bind]. rewrite (signaled_spec s o t x h Hx Hh Hxh).
  destruct (signaled (view s) o t) eqn:Hs.
  - rewrite decide_True by done.
    assert (acquirable (view s) o t y) as Hac.
    { destruct Hm as [Hlv Hct]. split; [done|]. split; [done|]. split; [apply Hlv; left|].
      intros x' l. apply Hct. left. }
    split; [done|]. cbn [andb]. rewrite bool_decide_true by done.
    destruct (acquire_spec _ s o t y Hlock Hl Hac) as (s' & -> & Hv & Hf). exists s'.
    cbn [mbind outcome_bind]. by rewrite Nat.add_0_r.
  - rewrite decide_False by done. cbn [andb]. specialize (IH (S i) false).
    unfold first_signaled in IH. destruct (list_find _ os) as [[j o']|] eqn:Hf.
    + cbn. destruct IH as (Hac & s' & Hr & Hv & Hfr).
      * destruct Hm as [Hlv Hct]. split; [intros o0 Ho0; apply Hlv; by right|].
        intros o0 x0 l Ho0. apply Hct. by right.
      * intros o0 Ho0. apply Hex. by right.
      * split; [done|]. exists s'. split; [|done]. rewrite Hr. do 4 f_equal. lia.
    + cbn. rewrite IH; [by destruct os| |].
      * destruct Hm as [Hlv Hct]. split; [intros o0 Ho0; apply Hlv; by right|].
        intros o0 x0 l Ho0. apply Hct. by right.
      * intros o0 Ho0. apply Hex. by right.
Qed.

Lemma test_all_spec t i os Sat s :
  (∀ o, o ∈ os → is_Some (dobjs (view s) !! o)) →
  test_objects t WAIT_TYPE_ALL i os Sat s = Ok (Sat && forallb (λ o, signaled (view s) o t) os, None, s).
Proof.
  revert i Sat. induction os as [|o os IH]; intros i Sat Hex; cbn [test_objects forallb]; [by rewrite andb_true_r|].
  destruct (Hex o ltac:(left)) as [x Hx]. destruct (view_objects s o x Hx) as (h & Hh & Hxh).
  rewrite (proj2 (object_Ok s o h) Hh). cbn [mbind outcome_bind]. rewrite (signaled_spec s o t x h Hx Hh Hxh).
  rewrite bool_decide_false by done. rewrite andb_false_r.
  rewrite IH by (intros o' Ho'; apply Hex; by right). destruct (signaled (view s) o t); cbn; by destruct Sat.
Qed.

Lemma insert_blocks_spec t i os s :
  (∀ o, o ∈ os → is_Some (Objects s !! o)) →
  ∃ s', insert_wait_blocks t i os s = Ok s' ∧ view s' = mkView (block_objs t i os (dobj s)) (dthr s) ∧
    acquire_frame s s'.
Proof.
  revert i s. induction os as [|o os IH]; intros i s Hex; cbn [insert_wait_blocks block_objs]; [by exists s|].
  destruct (Hex o ltac:(left)) as [h Hh]. rewrite (proj2 (object_Ok s o h) Hh). cbn [mbind outcome_bind].
  set (s1 := upd_object o _ s).
  assert (acquire_frame s s1) as Hf.
  { apply upd_object_frame. intros h0. rewrite Hh. intros [= <-]. cbn. by destruct (Body h). }
  assert (dobj s1 = alter (add_waiter (t, i)) o (dobj s)) as Hd.
  { apply dobj_upd. intros h0. rewrite Hh. by intros [= <-]. }
  destruct (IH (S i) s1) as (s' & -> & Hv & Hf').
  - intros o' Ho'. destruct (Hex o' ltac:(by right)) as [h' Hh']. unfold s1, upd_object. cbn.
    destruct (decide (o' = o)) as [->|]; [rewrite lookup_alter_eq, Hh; by eexists|].
    rewrite lookup_alter_ne by done. by eexists.
  - exists s'. split; [done|]. split; [|by etransitivity]. rewrite Hv, Hd. done.
Qed.

(** The running thread stops and its processor is about to be given up. *)
Lemma stop_run_ok cpu t T f s :
  run_ok (λ _, False) s → runs s cpu t → Threads s !! t = Some T →
  Status (f T) = KTHREAD_STATUS_WAITING → fixed (f T) = fixed T → Priority (f T) = Priority T →
  LastProcessor (f T) = LastProcessor T → BasePriority T ≠ PRIORITY_IDLE →
  run_ok (λ c, c = cpu) (upd_thread t f s).
Proof.
  intros [Hk Hu Hst Hi [R1 R2 R3 R4]] Hr HT Hw Hf Hp Hlp Hni.
  destruct (R2 cpu t ltac:(tauto) Hr) as (T0 & HT0 & Hrun). rewrite HT in HT0. injection HT0 as <-.
  pose proof (upd_thread_insert t f s T HT) as Hts. pose proof Hf as [= Ew1 Ew2 _ _ _ _ Eb Ea _ _ Es].
  pose proof (si_thread _ _ (ko_sched s Hk) t T HT) as (Hb & Hmax & Hl).
  assert (∀ t' T', Threads (upd_thread t f s) !! t' = Some T' → ∃ T0, Threads s !! t' = Some T0 ∧ fixed T' = fixed T0) as Hfx.
  { intros t' T'. rewrite Hts. destruct (decide (t' = t)) as [->|].
    - rewrite lookup_insert_eq. intros [= <-]. eauto.
    - rewrite lookup_insert_ne by done. eauto. }
  split.
  - split; try apply Hk.
    + rewrite Hts. eapply sched_update; [apply Hk|done|congruence|congruence|lia|lia|by rewrite Hlp].
    + intros c p Hc. destruct (ko_current s Hk c p Hc) as (t0 & T0 & ? & ?). rewrite Hts.
      destruct (decide (t0 = t)) as [->|]; [exists t, (f T); by rewrite lookup_insert_eq|].
      exists t0, T0. by rewrite lookup_insert_ne.
    + intros t' T' HT'. destruct (Hfx t' T' HT') as (T0 & HT0 & [= E1 E2 _]). rewrite E1, E2. by apply (ko_timers s Hk t').
    + apply (timer_ok_ext s); [done|done|apply Hk].
  - intros t' T' c HT' Hc. destruct (Hfx t' T' HT') as (T0 & HT0 & [= _ _ _ _ _ _ _ E _]). rewrite E. by apply (Hu t' T0 c).
  - done.
  - intros c Hc. destruct (Hi c Hc) as (t0 & T0 & HT0 & ? & ? & ?). exists t0, T0.
    rewrite Hts, lookup_insert_ne; [done|]. intros <-. congruence.
  - split.
    + intros c p _. apply (R1 c p). tauto.
    + intros c t0 Hc Hr0. destruct (R2 c t0 ltac:(tauto) Hr0) as (T0 & HT0 & ?). exists T0.
      rewrite Hts, lookup_insert_ne; [done|]. intros <-. apply Hc.
        by apply (R3 c cpu t (λ x, x) (λ x, x)).
    + intros c c' t0 _ _. by apply (R3 c c' t0 (λ x, x) (λ x, x)).
    + intros t0 T0. rewrite Hts. destruct (decide (t0 = t)) as [->|].
      * rewrite lookup_insert_eq. intros [= <-]. congruence.
      * rewrite lookup_insert_ne by done. intros HT0 Hs. destruct (R4 t0 T0 HT0 Hs) as [[]|(c & _ & Hr0)]. right.
        exists c. split; [|done]. intros ->. by eapply n, runs_functional.
Qed.

(** Preparing the wait timer. *)
Lemma init_timer_run_ok skip w W h s :
  run_ok skip s → timer s w = Ok W → IsEnqueued W = false → Objects s !! w = Some h → WaitBlockList h = [] →
  ∃ s', KeInitializeTimer w s = Ok s' ∧ run_ok skip s' ∧ view s' = a_set w 0 (view s) ∧
    Threads s' = Threads s ∧ Dpcs s' = Dpcs s ∧ TickCount s' = TickCount s ∧ TickFrequency s' = TickFrequency s ∧
    KeProcessorList s' = KeProcessorList s ∧
    (∀ o T', timer s' o = Ok T' → ∃ T, timer s o = Ok T ∧ TimerDpc T' = TimerDpc T) ∧
    ∃ W', timer s' w = Ok W' ∧ IsEnqueued W' = false.
Proof.
  intros Hok HW He Hh Hwb. pose proof Hok as [Hk Hu Hst Hi Hro].
  pose proof HW as (h0 & Hh0 & Hb)%timer_Ok. rewrite Hh in Hh0. injection Hh0 as <-.
  unfold KeInitializeTimer. rewrite HW. cbn [mbind outcome_bind]. eexists. split; [done|].
  set (f := λ T, set_IsEnqueued false (set_ExpiryTick 0 T)). set (s' := upd_object w _ s).
  assert (∀ o, timer s' o = timer (upd_timer w f s) o) as Htm.
  { intros o. unfold timer, object, s', upd_timer, upd_object. cbn. destruct (decide (o = w)) as [->|].
    - rewrite !lookup_alter_eq, Hh. cbn. by rewrite Hb.
    - by rewrite !lookup_alter_ne. }
  assert (dobj s' = alter (set_sig 0) w (dobj s)) as Hd.
  { apply dobj_upd. intros h1. rewrite Hh. intros [= <-]. unfold view_object. cbn. by rewrite Hb, Hwb. }
  split; [|split; [unfold view, a_set; cbn [dobjs dthrs]; by rewrite Hd|]].
  - split; [|done|done|done|by destruct Hro].
    apply (kernel_ok_ext s'); try done; [apply Hk|].
    split; try apply Hk.
    + intros t T HT. rewrite Hd.
      assert (∀ o, (∃ x, dobj s !! o = Some x ∧ okind x = KTimer) →
        ∃ x, alter (set_sig 0) w (dobj s) !! o = Some x ∧ okind x = KTimer) as Hkeep.
      { intros o (x & Hx & ?). destruct (decide (o = w)) as [->|].
        - rewrite lookup_alter_eq, Hx. by eexists.
        - rewrite lookup_alter_ne by done. eauto. }
      destruct (ko_timers s Hk t T HT). split; by apply Hkeep.
    + apply (timer_ok_ext (upd_timer w f s)); [done|done|].
      by apply (clear_timer_ok s w W); [apply Hk|..].
  - split_and!; try done.
    + intros o T'. rewrite Htm. intros [[_ ?]|(-> & T & ? & ->)]%timer_upd; [eauto|]. exists T. done.
    + exists (f W). split; [|done]. rewrite Htm. apply timer_upd. right. eauto.
Qed.

(** The part of a wait that puts the thread to sleep. *)
Definition fall_asleep (cpu t : nat) (w : WAIT) (T : KTHREAD) (s : KERNEL) : outcome KERNEL :=
  s ← insert_wait_blocks t 0 (WObjects w) s;
  let s := upd_thread t (λ T, set_Status KTHREAD_STATUS_WAITING (set_WaitMode (WMode w)
             (set_WaitStatus STATUS_WAITING (set_WaitIsAlertable (WAlertable w)
             (set_WaitType (WType w) (set_WaitBlockArray (WObjects w) T)))))) s in
  s ← (if WTimeoutMS w =? TIMEOUT_INFINITE then Ok s
       else
         s ← KeInitializeDpc (WaitDpc T) (KepWaitTimerExpiry_routine t) s;
         s ← KeSetImportantDpc (WaitDpc T) true s;
         s ← KeInitializeTimer (WaitTimer T) s;
         p ← prcb s cpu;
         '(_, s) ← KiSetTimer (length (TimerTree p)) cpu (WaitTimer T) (WTimeoutMS w)
                     (Some (WaitDpc T)) s;
         Ok s);
  KiHandleQuantumEndDispatcherLockHeld cpu (upd_thread t (set_ThreadQuantumUntil 0) s).

(** What a wait with a finite timeout needs of the thread's own timer and DPC:
    the timer is idle and nobody waits for it. *)
Record may_time_out (s : KERNEL) (cpu : nat) (T : KTHREAD) (w : WAIT) : Prop := {
  mt_dpc : is_Some (Dpcs s !! WaitDpc T);
  mt_timer : ∃ W, timer s (WaitTimer T) = Ok W ∧ IsEnqueued W = false;
  mt_alone : ∃ x, dobjs (view s) !! WaitTimer T = Some x ∧ waiters x = [];
  mt_other : WaitTimer T ∉ WObjects w;
  mt_due p : KeProcessorList s !! cpu = Some p →
    u64 (TickCount s + u64 (TickFrequency s * WTimeoutMS w) / 1000) + Z.of_nat (length (TimerTree p)) < 2 ^ 64 }.

Definition a_sleep (t tm : nat) (w : WAIT) (d : DVIEW) : DVIEW :=
  let d := a_block t (WType w) (WObjects w) d in
  if WTimeoutMS w =? TIMEOUT_INFINITE then d else a_set tm 0 d.

Lemma mutex_eta T : T = set_MutexList (MutexList T) (set_MutexList [] T).
Proof. by destruct T. Qed.

Lemma fall_asleep_spec cpu t w T s :
  run_ok (λ _, False) s → dispatcher_ok (view s) → dpcs_ok s → runs s cpu t → Threads s !! t = Some T →
  BasePriority T ≠ PRIORITY_IDLE → may_wait (view s) t w → ¬ ready (view s) t (WType w) (WObjects w) →
  (WTimeoutMS w ≠ TIMEOUT_INFINITE → may_time_out s cpu T w) →
  ∃ s', fall_asleep cpu t w T s = Ok s' ∧ run_ok (λ _, False) s' ∧ dispatcher_ok (view s') ∧ dpcs_ok s' ∧
    view s' = a_sleep t (WaitTimer T) w (view s).
Proof.
  intros Hok Hd Hdp Hr HT Hni [(y & Hy & Hwy & Hmay) Hnd Hne Hex] Hnr Hto.
  set (d1 := a_block t (WType w) (WObjects w) (view s)).
  assert (dispatcher_ok d1) as Hd1 by (by eapply a_block_ok).
  unfold fall_asleep. destruct (insert_blocks_spec t 0 (WObjects w) s) as (s1 & -> & Hv1 & Hf1).
  { intros o Ho. destruct (Hex o Ho) as [x Hx]. destruct (view_objects s o x Hx) as (h & ? & _). by eexists. }
  cbn [mbind outcome_bind]. pose proof (acquire_wake_frame s s1 Hf1) as Hwf1.
  pose proof (wake_run_ok s s1 Hwf1 (acquire_frame_ok s s1 Hf1 (rn_kernel _ _ Hok)) Hok) as Hok1.
  destruct Hwf1 as (Hrun1 & Hdpc1 & Htc1 & Hkp1 & _ & Hth1).
  assert (runs s1 cpu t) as Hr1 by by apply (running_runs s s1 Hrun1).
  assert (Threads s1 !! t = Some T) as HT1.
  { (* the objects alone change *)
    destruct (map_fmap_lookup_eq _ _ _ _ _ (eq_sym (af_threads _ _ Hf1)) HT) as (T1 & HT1 & E).
    assert (MutexList T1 = MutexList T) as Em.
    { assert (dthr s1 !! t = dthr s !! t) as E1 by (apply (f_equal dthrs) in Hv1; cbn in Hv1; by rewrite Hv1).
      rewrite !dthr_lookup, HT, HT1 in E1. cbn in E1. by injection E1. }
    rewrite HT1, (mutex_eta T1), (mutex_eta T). congruence. }
  set (f := λ T, set_Status KTHREAD_STATUS_WAITING (set_WaitMode (WMode w)
    (set_WaitStatus STATUS_WAITING (set_WaitIsAlertable (WAlertable w)
    (set_WaitType (WType w) (set_WaitBlockArray (WObjects w) T)))))).
  set (s2 := upd_thread t f s1).
  pose proof (stop_run_ok cpu t T f s1 Hok1 Hr1 HT1 eq_refl eq_refl eq_refl eq_refl Hni : run_ok _ s2) as Hok2.
  assert (view s2 = d1) as Hv2.
  { unfold view, s2, d1, a_block. change (dobj (upd_thread t f s1)) with (dobj s1). f_equal.
    - by apply (f_equal dobjs) in Hv1.
    - rewrite (dthr_upd t f (λ y, mkDthr (Some (WType w, WObjects w)) (owned y))) by done.
      apply (f_equal dthrs) in Hv1. cbn in Hv1. by rewrite Hv1. }
  assert (dpcs_ok s2) as Hdp2.
  { apply (dpcs_step s); [|by change (Dpcs s2) with (Dpcs s1); rewrite Hdpc1|done]. apply Hkp1. }
  assert (∃ s5, (if WTimeoutMS w =? TIMEOUT_INFINITE then Ok s2
       else
         s ← KeInitializeDpc (WaitDpc T) (KepWaitTimerExpiry_routine t) s2;
         s ← KeSetImportantDpc (WaitDpc T) true s;
         s ← KeInitializeTimer (WaitTimer T) s;
         p ← prcb s cpu;
         '(_, s) ← KiSetTimer (length (TimerTree p)) cpu (WaitTimer T) (WTimeoutMS w)
                     (Some (WaitDpc T)) s;
         Ok s) = Ok s5 ∧ run_ok (λ c, c = cpu) s5 ∧ dispatcher_ok (view s5) ∧ dpcs_ok s5 ∧
      view s5 = a_sleep t (WaitTimer T) w (view s) ∧ runs s5 cpu t ∧ Threads s5 = Threads s2)
    as (s5 & H5 & Hok5 & Hd5 & Hdp5 & Hv5 & Hr5 & HT5).
  { destruct (Z.eqb_spec (WTimeoutMS w) TIMEOUT_INFINITE) as [Hinf|Hfin].
    { exists s2. unfold a_sleep. rewrite (proj2 (Z.eqb_eq _ _)) by done. rewrite Hv2. by split_and!. }
    destruct (Hto Hfin) as [[D HD] (W & HW & HeW) (x & Hx & Hxw) Hnotin Hdue].
    assert (Dpcs s2 = Dpcs s) as Hdpc2 by done.
    unfold KeInitializeDpc, KeSetImportantDpc, dpc. rewrite Hdpc2, HD. cbn [deref mbind outcome_bind].
    set (s3 := upd_dpc (WaitDpc T) _ s2).
    assert (Dpcs s3 !! WaitDpc T = Some (mkDpc (KepWaitTimerExpiry_routine t) false false false)) as HD3.
    { unfold s3, upd_dpc. cbn. rewrite lookup_alter_eq. change (Dpcs s1) with (Dpcs s2). by rewrite Hdpc2, HD. }
    rewrite HD3. cbn [deref mbind outcome_bind]. set (s4 := upd_dpc (WaitDpc T) _ s3).
    assert (quiet s2 s4) as Hq4 by (etransitivity; [apply (quiet_dpc (WaitDpc T))|apply quiet_dpc]).
    pose proof (quiet_run_ok _ s2 s4 Hq4 Hok2) as Hok4.
    assert (∀ o, timer s4 o = timer s o) as Htm4 by (intros o; exact (af_timer _ _ Hf1 o)).
    assert (dobjs (view s4) !! WaitTimer T = Some x) as Hx4.
    { change (dobjs (view s4)) with (dobjs (view s2)). rewrite Hv2. unfold d1, a_block. cbn [dobjs].
      by rewrite block_objs_out. }
    destruct (view_objects s4 _ x Hx4) as (h4 & Hh4 & Hxh4).
    assert (timer s4 (WaitTimer T) = Ok W) as HW4 by by rewrite Htm4.
    destruct (init_timer_run_ok _ (WaitTimer T) W h4 s4 Hok4 HW4 HeW Hh4) as
      (s5 & -> & Hok5 & Hv5 & HT5 & HD5 & Htc5 & Htf5 & Hp5 & Htm5 & W5 & HW5 & HeW5); [by rewrite <-Hxw, Hxh4|].
    cbn [mbind outcome_bind]. destruct Hr1 as (p1 & Hp1 & Hc1).
    assert (KeProcessorList s5 !! cpu = Some p1) as Hp1' by by rewrite Hp5.
    assert (KeProcessorList s1 = KeProcessorList s) as Hps by apply Hf1.
    rewrite (proj2 (prcb_Ok s5 cpu p1) Hp1'). cbn [mbind outcome_bind].
    pose proof (rn_kernel _ _ Hok5) as Hk5.
    destruct (set_timer_spec s5 cpu (WaitTimer T) W5 p1 (WTimeoutMS w) (Some (WaitDpc T)) (length (TimerTree p1)))
      as (k & s6 & -> & Hf6 & Ho6 & _ & _ & Hm6); try done; try apply Hk5.
    { rewrite Htc5, Htf5. change (TickCount s4) with (TickCount s1). rewrite Htc1.
      change (TickFrequency s4) with (TickFrequency s1). rewrite (kp_freq _ _ Hkp1). apply Hdue. by rewrite <-Hps. }
    cbn [mbind outcome_bind]. exists s6. split; [done|].
    destruct (frame_run_ok _ s5 s6 Hf6 Ho6 Hok5) as (Hok6 & Hruns6 & HT6 & HD6 & _).
    assert (view s6 = a_sleep t (WaitTimer T) w (view s)) as Hv6.
    { unfold a_sleep. rewrite (proj2 (Z.eqb_neq _ _)) by done. fold d1. rewrite <-Hv2.
      change (view s2) with (view s4). rewrite <-Hv5. unfold view, dthr. rewrite HT6. f_equal. apply Hf6. }
    split; [done|]. split; [|split; [|split; [done|split]]].
    - rewrite Hv6. unfold a_sleep. rewrite (proj2 (Z.eqb_neq _ _)) by done. fold d1.
      apply (a_reset_ok d1 _ x); [done| |].
      + unfold d1, a_block. cbn [dobjs]. by rewrite block_objs_out.
      + intros l ow Hkx. destruct (ko_timers s (rn_kernel _ _ Hok) t T HT) as [(x0 & Hx0 & Hk0) _]. cbn in Hx.
        congruence.
    - intros o T' d HT' HdT. rewrite HD6, HD5. apply Hm6 in HT' as [[Hno HT']|[-> ->]].
      + destruct (Htm5 o T' HT') as (T0 & HT0 & E). destruct (Hdp2 o T0 d) as [D2 HD2].
        * change (timer s2 o) with (timer s1 o). rewrite (af_timer _ _ Hf1). by rewrite <-Htm4.
        * congruence.
        * unfold s4, s3, upd_dpc. cbn. change (Dpcs s1) with (Dpcs s2).
          destruct (decide (d = WaitDpc T)) as [->|]; [rewrite !lookup_alter_eq, HD2; by eexists|].
          rewrite !lookup_alter_ne by done. by eexists.
      + cbn in HdT. injection HdT as <-. unfold s4, upd_dpc. cbn. rewrite lookup_alter_eq.
        change (alter _ (WaitDpc T) (Dpcs s1)) with (Dpcs s3). rewrite HD3. by eexists.
    - apply Hruns6. exists p1. done.
    - by rewrite HT6, HT5. }
  rewrite H5. cbn [mbind outcome_bind]. set (s6 := upd_thread t (set_ThreadQuantumUntil 0) s5).
  assert (quiet s5 s6) as Hq6 by (by apply quiet_thread).
  assert (Threads s6 !! t = Some (set_ThreadQuantumUntil 0 (f T))) as HT6.
  { unfold s6, upd_thread. cbn. rewrite lookup_alter_eq, HT5. unfold s2, upd_thread. cbn. by rewrite lookup_alter_eq, HT1. }
  destruct (quantum_end_spec cpu t (set_ThreadQuantumUntil 0 (f T)) s6) as (s7 & H7 & Hok7 & Hsw7).
  - by apply (quiet_runs s6 s5).
  - done.
  - right. split; [by eapply quiet_run_ok|]. done.
  - assert (view s7 = view s5) as Hv7.
    { unfold view. rewrite (sw_dobj _ _ Hsw7), (sw_dthr _ _ Hsw7).
      pose proof (quiet_switched s5 s6 Hq6) as Hsw6. by rewrite (sw_dobj _ _ Hsw6), (sw_dthr _ _ Hsw6). }
    exists s7. split; [exact H7|]. split; [done|]. split; [by rewrite Hv7|]. split; [|by rewrite Hv7].
    apply (dpcs_step s6); [apply Hsw7|apply Hsw7|]. by apply (dpcs_step s5); [apply quiet_switched..|].
Qed.

(** A wait, from its call to its return or to the loss of the processor. *)
Definition a_wait (killed : bool) (tm t : nat) (w : WAIT) (d : DVIEW) : option BSTATUS * DVIEW :=
  if killed then (Some STATUS_KILLED, d)
  else
    match a_try d t (WType w) (WObjects w) with
    | Some (St, d') => (Some St, d')
    | None => if WTimeoutMS w =? 0 then (Some STATUS_TIMEOUT, d) else (None, a_sleep t tm w d)
    end.

Definition killed (w : WAIT) (T : KTHREAD) : bool := bool_decide (WMode w = MODE_USER) && PendingTermination T.

Lemma finish_spec s1 s2 :
  run_ok (λ _, False) s1 → dpcs_ok s1 → acquire_frame s1 s2 → dispatcher_ok (view s2) →
  ∃ s', KiUnlockDispatcher s2 = Ok s' ∧ system_ok s' ∧ view s' = view s2.
Proof.
  intros Hok Hdp Hf Hd. pose proof (acquire_wake_frame s1 s2 Hf) as Hw. apply unlock_spec; [|done|by eapply wake_dpcs].
  eapply wake_run_ok; [done| |done]. by eapply acquire_frame_ok, Hok.
Qed.

Lemma wait_attempt_spec cpu t w T s :
  run_ok (λ _, False) s → dispatcher_ok (view s) → dpcs_ok s → runs s cpu t → Threads s !! t = Some T →
  BasePriority T ≠ PRIORITY_IDLE → may_wait (view s) t w →
  (WTimeoutMS w ≠ TIMEOUT_INFINITE → may_time_out s cpu T w) →
  ∃ s', wait_attempt cpu t w s = Ok ((a_wait (killed w T) (WaitTimer T) t w (view s)).1, s') ∧ system_ok s' ∧
    view s' = (a_wait (killed w T) (WaitTimer T) t w (view s)).2.
Proof.
  intros Hok Hd Hdp Hr HT Hni Hmw Hto. pose proof (rn_kernel _ _ Hok) as Hk.
  unfold wait_attempt, a_wait. rewrite (proj2 (thread_Ok s t T) HT). cbn [mbind outcome_bind]. fold (killed w T).
  destruct (killed w T).
  { destruct (unlock_spec s Hok Hd Hdp) as (s' & -> & ? & ?). exists s'. done. }
  pose proof Hmw as [(y & Hy & Hwy & Hmay) Hnd Hne Hex]. pose proof Hd as [Hl Ha].
  assert (∀ wt bl, ¬ waits (view s) t wt bl) as Hnw by (intros wt' bl (y' & Hy' & ?); congruence).
  assert (a_try (view s) t (WType w) (WObjects w) = None →
    ∃ s', (if WTimeoutMS w =? 0 then s' ← KiUnlockDispatcher s; Ok (Some STATUS_TIMEOUT, s')
           else s' ← fall_asleep cpu t w T s; s' ← KiUnlockDispatcher s'; Ok (None, s')) =
      Ok ((if WTimeoutMS w =? 0 then (Some STATUS_TIMEOUT, view s) else (None, a_sleep t (WaitTimer T) w (view s))).1, s') ∧
      system_ok s' ∧
      view s' = (if WTimeoutMS w =? 0 then (Some STATUS_TIMEOUT, view s) else (None, a_sleep t (WaitTimer T) w (view s))).2)
    as Hsleep.
  { intros Hnt%a_try_none. destruct (WTimeoutMS w =? 0).
    - destruct (unlock_spec s Hok Hd Hdp) as (s' & -> & ? & ?). by exists s'.
    - destruct (fall_asleep_spec cpu t w T s Hok Hd Hdp Hr HT Hni Hmw Hnt Hto) as (s1 & -> & Hok1 & Hd1 & Hdp1 & Hv1).
      cbn [mbind outcome_bind]. destruct (unlock_spec s1 Hok1 Hd1 Hdp1) as (s' & -> & ? & Hv'). exists s'.
      cbn. by rewrite Hv', Hv1. }
  unfold fall_asleep in Hsleep. destruct (WType w) eqn:Hwt.
  - rewrite test_all_spec by done. cbn [mbind outcome_bind andb a_try] in *.
    rewrite bool_decide_false, andb_false_r by done.
    destruct (forallb (λ o, signaled (view s) o t) (WObjects w)) eqn:Hf.
    + assert (acquirable_all (view s) t y (WObjects w)) as Hac.
      { destruct Hmay as [Hlv Hct]. split; [done|]. split; [done|]. split; [|done].
        intros o Ho%list_elem_of_In. rewrite forallb_forall in Hf. by apply Hf. }
      destruct (acquire_all_spec _ s t y (WObjects w) (ko_lock s Hk) Hl Hac) as (s1 & -> & Hv1 & Hf1).
      cbn [mbind outcome_bind]. destruct (finish_spec s s1 Hok Hdp Hf1) as (s' & -> & ? & Hv').
      * rewrite Hv1. by eapply acquire_all_ok.
      * exists s'. split; [done|]. split; [done|]. by rewrite Hv', Hv1.
    + destruct (Hsleep eq_refl) as (s' & Hs' & ?). exists s'. split; [|done].
      refine (eq_trans _ Hs').
      destruct (WTimeoutMS w =? 0); [done|]. destruct (insert_wait_blocks _ _ _ _) as [s1| |]; [|done|done].
      cbn [mbind outcome_bind]. by destruct (if WTimeoutMS w =? TIMEOUT_INFINITE then _ else _).
  - pose proof (test_any_spec t y 0 (WObjects w) true s (ko_lock s Hk) Hl Hy Hmay Hex) as Htest.
    cbn [a_try] in *. destruct (first_signaled (view s) t (WObjects w)) as [[j o]|] eqn:Hf.
    + destruct Htest as (Hac & s1 & -> & Hv1 & Hf1). cbn [mbind outcome_bind andb].
      rewrite bool_decide_true by done. destruct (finish_spec s s1 Hok Hdp Hf1) as (s' & -> & ? & Hv').
      * rewrite Hv1. by eapply acquire_ok.
      * exists s'. cbn. split; [done|]. split; [done|]. by rewrite Hv', Hv1.
    + rewrite Htest. destruct (WObjects w) as [|o1 os1] eqn:Hos; [done|]. cbn [mbind outcome_bind andb].
      destruct (Hsleep eq_refl) as (s' & Hs' & ?). exists s'. split; [|done].
      refine (eq_trans _ Hs').
      destruct (WTimeoutMS w =? 0); [done|]. destruct (insert_wait_blocks _ _ _ _) as [s1| |]; [|done|done].
      cbn [mbind outcome_bind]. by destruct (if WTimeoutMS w =? TIMEOUT_INFINITE then _ else _).
Qed.

Lemma runs_lock s c t b : runs (set_KiDispatcherLock b s) c t ↔ runs s c t.
Proof. done. Qed.

Lemma wait_multiple_spec cpu t w (own : bool) T s :
  system_ok s → runs s cpu t → Threads s !! t = Some T → DidCallWaitFunction T = false →
  (length (WObjects w) <= (if own then MAXIMUM_WAIT_BLOCKS else THREAD_WAIT_BLOCKS))%nat →
  BasePriority T ≠ PRIORITY_IDLE → may_wait (view s) t w →
  (WTimeoutMS w ≠ TIMEOUT_INFINITE → may_time_out s cpu T w) →
  ∃ s', KeWaitForMultipleObjects cpu w own s = Ok ((a_wait (killed w T) (WaitTimer T) t w (view s)).1, s') ∧
    system_ok s' ∧ view s' = (a_wait (killed w T) (WaitTimer T) t w (view s)).2.
Proof.
  intros Hok Hr HT Hdc Hlen Hni Hmw Hto. pose proof Hok as [_ Hrn Hd Hdp].
  unfold KeWaitForMultipleObjects. rewrite (runs_current s cpu t Hr). cbn [deref mbind outcome_bind].
  rewrite check_true by by apply Nat.leb_le. cbn [mbind outcome_bind].
  rewrite (proj2 (thread_Ok s t T) HT). cbn [mbind outcome_bind]. rewrite Hdc, (lock_spec s Hok).
  cbn [mbind outcome_bind].
  apply (wait_attempt_spec cpu t w T (set_KiDispatcherLock true s)); try done.
  intros Hfin. destruct (Hto Hfin). by split.
Qed.

(** ** Timeouts *)

Lemma unwait_ok t d : dispatcher_ok d → dispatcher_ok (a_unwait t d).
Proof.
  intros [Hl Ha]. split.
  - apply unwait_links. by eapply links_weaken; [|exact Hl].
  - intros t' wt bl [Hne Hw]%a_unwait_waits. rewrite a_unwait_ready. by apply Ha.
Qed.

Lemma wait_expiry_spec cpu t wt bl s :
  system_ok s → (cpu < length (KeProcessorList s))%nat → waits (view s) t wt bl →
  ∃ s', KepWaitTimerExpiry cpu t s = Ok s' ∧ system_ok s' ∧ view s' = a_unwait t (view s).
Proof.
  intros Hok Hcpu Hw. pose proof Hok as [_ Hrn Hd Hdp]. unfold KepWaitTimerExpiry.
  rewrite (lock_spec s Hok). cbn [mbind outcome_bind]. set (s1 := set_KiDispatcherLock true s) in *.
  destruct (waiting_thread s1 t wt bl Hw) as (T & HT & Hst & _).
  rewrite (proj2 (thread_Ok s1 t T) HT). cbn [mbind outcome_bind]. rewrite bool_decide_false by tauto.
  destruct (wake_spec cpu t T STATUS_TIMEOUT 0 s1 s1 (view s1) (rn_kernel _ _ Hrn) Hcpu HT Hst) as
    (s2 & -> & Hk2 & Hv2 & Hl2 & Hwf2 & _); try done.
  { eapply links_weaken; [|apply Hd]. tauto. }
  cbn [mbind outcome_bind]. destruct (unlock_spec s2) as (s' & -> & Hok' & Hv').
  - by eapply wake_run_ok.
  - rewrite Hv2. by apply unwait_ok.
  - by apply (wake_dpcs s1).
  - exists s'. split; [done|]. split; [done|]. by rewrite Hv', Hv2.
Qed.

(** ** Timers *)

Lemma ascending_NoDup (tree : list (Z * nat)) : ascending tree → NoDup tree.
Proof.
  induction tree as [|[k o] tree IH]; intros Hs; [constructor|].
  apply (ascending_split [] (k, o) tree) in Hs as (Hs & _ & Hab). constructor; [|by apply IH].
  intros Hin. apply Hab in Hin. unfold key, timer_key in Hin. cbn in Hin. lia.
Qed.

Lemma trees_shrink s s' c p p' k o :
  timer_ok s → timer_ok s' → timers_step s s' →
  KeProcessorList s !! c = Some p → KeProcessorList s' !! c = Some p' → (k, o) ∈ TimerTree p' → (k, o) ∈ TimerTree p.
Proof.
  intros Hok Hok' Hst Hp Hp' Hin. destruct (tree_timer s' Hok' c p' k o Hp' Hin) as (T' & HT' & He & Hc & Hk).
  destruct (Hst o T' HT') as (T & HT & [-> | ->]); [|done].
  destruct (timer_tree s Hok o T HT He) as (c0 & p0 & Hc0 & Hp0 & Hin0). congruence.
Qed.

(** Queueing the DPC of a timer. *)
Lemma enqueue_dpc_spec cpu r s :
  (cpu < length (KeProcessorList s))%nat → (∀ d, r = Some d → is_Some (Dpcs s !! d)) →
  ∃ s', match r with Some d => KeEnqueueDpc cpu d s | None => Ok s end = Ok s' ∧ quiet s s'.
Proof.
  intros Hcpu Hr. destruct r as [d|]; [|by exists s]. destruct (Hr d eq_refl) as [D HD].
  apply lookup_lt_is_Some in Hcpu as [p Hp]. unfold KeEnqueueDpc, dpc. rewrite HD. cbn [deref mbind outcome_bind].
  destruct (Enqueued D); [by exists s|]. rewrite (proj2 (prcb_Ok s cpu p) Hp). cbn [mbind outcome_bind].
  unfold KeIssueSoftwareInterrupt. set (s1 := upd_prcb cpu _ (upd_dpc _ _ _)).
  assert (quiet s s1) as Hq.
  { etransitivity; [apply (quiet_dpc d (λ D, set_Linked true (set_Enqueued true D)))|]. by apply quiet_prcb. }
  destruct (lookup_lt_is_Some_2 (KeProcessorList s1) cpu) as [p1 Hp1].
  { rewrite (quiet_length s s1 Hq). by eapply lookup_lt_Some. }
  rewrite (proj2 (prcb_Ok s1 cpu p1) Hp1). cbn [mbind outcome_bind]. eexists. split; [done|].
  etransitivity; [exact Hq|by apply quiet_prcb].
Qed.

(** One timer expires. *)
Lemma expire_spec cpu k o T p s :
  run_ok (λ _, False) s → dispatcher_ok (view s) → dpcs_ok s →
  KeProcessorList s !! cpu = Some p → (k, o) ∈ TimerTree p → timer s o = Ok T →
  ∃ s', (s ← match TimerDpc T with Some d => KeEnqueueDpc cpu d s | None => Ok s end;
         let s := upd_timer o (set_IsEnqueued false) (upd_object o (set_Signaled 1) s) in
         s ← KiRemoveTimerTree o s; KiWaitTest cpu o 2 s) = Ok s' ∧
    run_ok (λ _, False) s' ∧ dispatcher_ok (view s') ∧ dpcs_ok s' ∧ view s' = a_signal o 1 (view s) ∧
    TickCount s' = TickCount s ∧ timers_step s s' ∧
    ∃ p', KeProcessorList s' !! cpu = Some p' ∧ (length (TimerTree p') < length (TimerTree p))%nat.
Proof.
  intros Hok Hd Hdp Hp Hin HT. pose proof (rn_kernel _ _ Hok) as Hk.
  assert (cpu < length (KeProcessorList s))%nat as Hcpu by by eapply lookup_lt_Some.
  destruct (tree_timer s (ko_trees s Hk) cpu p k o Hp Hin) as (T0 & HT0 & He & Hc & Hkey).
  rewrite HT in HT0. injection HT0 as <-.
  destruct (enqueue_dpc_spec cpu (TimerDpc T) s Hcpu) as (s1 & -> & Hq); [by intros d; apply (Hdp o T d)|].
  cbn [mbind outcome_bind]. pose proof (quiet_run_ok _ s s1 Hq Hok) as Hok1.
  pose proof (quiet_switched s s1 Hq) as Hsw1.
  assert (timer s1 o = Ok T) as HT1 by by rewrite (quiet_timer s s1).
  set (g := λ p : KPRCB, set_TimerTree (RemoveItemRbTree (TimerTree p) (ExpiryTick T)) p).
  set (s0 := upd_timer o (set_IsEnqueued false) (upd_prcb cpu g s1)).
  pose proof (dequeue_timer_ok s1 o T cpu (ko_trees s1 (rn_kernel _ _ Hok1)) HT1 He Hc : timer_ok s0) as Ho0.
  assert (timer_frame s1 s0) as Hf0.
  { etransitivity; [by apply (frame_upd_tree cpu g s1)|apply frame_upd_timer]. }
  destruct (frame_run_ok _ s1 s0 Hf0 Ho0 Hok1) as (Hok0 & _ & Ht0 & Hdp0 & Htc0 & _ & Hlen0).
  assert (view s0 = view s) as Hv0.
  { unfold view, dthr. rewrite (proj2 Hf0 : dobj s0 = dobj s1), Ht0. f_equal; [apply Hsw1|apply Hsw1]. }
  assert (timers_step s s0) as Hst0.
  { etransitivity; [apply Hsw1|]. intros o' T' HT'. unfold s0 in HT'.
    apply timer_upd in HT' as [[_ ?]|(-> & T1 & HT2 & ->)]; [eauto|]. exists T1. eauto. }
  assert (KiRemoveTimerTree o (upd_timer o (set_IsEnqueued false) (upd_object o (set_Signaled 1) s1)) =
    Ok (upd_object o (set_Signaled 1) s0)) as ->.
  { unfold KiRemoveTimerTree.
    assert (timer (upd_timer o (set_IsEnqueued false) (upd_object o (set_Signaled 1) s1)) o = Ok (set_IsEnqueued false T)) as ->.
    { apply timer_upd. right. split; [done|]. exists T. split; [|done]. apply timer_Ok in HT1 as (h & Hh & Hb).
      apply timer_Ok. exists (set_Signaled 1 h). unfold upd_object. cbn. by rewrite lookup_alter_eq, Hh. }
    cbn [mbind outcome_bind TimerScheduler set_IsEnqueued]. rewrite Hc. cbn [deref mbind outcome_bind].
    destruct (lookup_lt_is_Some_2 (KeProcessorList s1) cpu) as [p1 Hp1]; [by rewrite (quiet_length s s1 Hq)|].
    rewrite (proj2 (prcb_Ok (upd_timer _ _ _) cpu p1)) by exact Hp1. cbn [mbind outcome_bind]. f_equal.
    unfold s0, upd_timer, upd_object, upd_prcb, set_Objects, set_KeProcessorList. cbn. f_equal.
    apply map_eq. intros o'. destruct (decide (o' = o)) as [->|]; [|by rewrite !lookup_alter_ne].
    rewrite !lookup_alter_eq. destruct (Objects s1 !! o) as [h|]; [|done]. cbn. by destruct (Body h). }
  cbn [mbind outcome_bind].
  assert (∃ x, dobjs (view s0) !! o = Some x ∧ okind x = KTimer) as (x & Hx & Hkx).
  { rewrite Hv0. apply is_timer. eauto. }
  destruct (signal_drop_spec cpu o x 1 (set_Signaled 1) 2 s0) as (s' & -> & Hk' & Hv' & Hd' & Hw'); try done.
  - apply Hok0.
  - by rewrite Hv0.
  - rewrite Hlen0. by rewrite (quiet_length s s1 Hq).
  - intros; congruence.
  - pose proof (wake_run_ok s0 s' Hw' Hk' Hok0) as Hok'. exists s'. split; [done|]. split; [done|].
    assert (dpcs_ok s0) as Hdps0.
    { apply (dpcs_step s); [done| |done]. rewrite Hdp0. apply Hsw1. }
    split; [done|]. split; [by apply (wake_dpcs s0)|].
    split; [by rewrite Hv', Hv0|]. pose proof Hw' as (_ & _ & Htc' & Hkp & _).
    split; [rewrite Htc', Htc0; apply Hsw1|].
    assert (timers_step s s') as Hst' by (etransitivity; [exact Hst0|apply Hkp]). split; [done|].
    destruct (lookup_lt_is_Some_2 (KeProcessorList s') cpu) as [p' Hp'].
    { rewrite (wake_frame_length s0 s' Hw'), Hlen0. by rewrite (quiet_length s s1 Hq). }
    exists p'. split; [done|]. change (S (length (TimerTree p')) ≤ length (TimerTree p))%nat.
    change (length ((k, o) :: TimerTree p') ≤ length (TimerTree p))%nat.
    apply submseteq_length, NoDup_submseteq.
    + constructor; [|apply ascending_NoDup; by eapply (tree_sorted s'), Hp'; apply Hk'].
      intros Hin'. destruct (tree_timer s' (ko_trees s' Hk') cpu p' k o Hp' Hin') as (T' & HT' & He' & _).
      destruct (kp_timers _ _ Hkp o T' HT') as (T2 & HT2 & E). unfold s0 in HT2.
      apply timer_upd in HT2 as [[? _]|(_ & T3 & _ & ->)]; [done|]. by destruct E as [-> | ->].
    + intros [k' o'] [[= -> ->]|Hin']%elem_of_cons; [done|].
      eapply (trees_shrink s s'); [apply Hk|apply Hk'|done..].
Qed.

(** Signalling the timers [os] in turn. *)
Definition a_timers (os : list nat) (d : DVIEW) : DVIEW := foldl (λ d o, a_signal o 1 d) d os.

(** The latest tick that counts as reached. *)
Definition due_limit (s : KERNEL) : Z := u64 (TickCount s + 100).

(** The loop ends when no timer of the processor is due. *)
Lemma dispatch_timers_spec fuel cpu p s :
  run_ok (λ _, False) s → dispatcher_ok (view s) → dpcs_ok s → KeProcessorList s !! cpu = Some p →
  (length (TimerTree p) <= fuel)%nat →
  ∃ os s', dispatch_timers fuel cpu s = Ok s' ∧ run_ok (λ _, False) s' ∧ dispatcher_ok (view s') ∧ dpcs_ok s' ∧
    view s' = a_timers os (view s) ∧
    (∀ o, o ∈ os → ∃ k, (k, o) ∈ TimerTree p ∧ k < due_limit s) ∧
    ∃ p', KeProcessorList s' !! cpu = Some p' ∧ ∀ k o, (k, o) ∈ TimerTree p' → due_limit s ≤ k.
Proof.
  revert p s. induction fuel as [|fuel IH]; intros p s Hok Hd Hdp Hp Hfuel; cbn [dispatch_timers];
    rewrite (proj2 (prcb_Ok s cpu p) Hp); cbn [mbind outcome_bind];
    destruct (TimerTree p) as [|[k o] tree] eqn:Htr; cbn [GetFirstEntryRbTree head];
    try (by cbn in Hfuel; lia);
    try (exists [], s; split_and!; try done; [intros o Ho; by apply not_elem_of_nil in Ho|]; exists p;
      split; [done|]; rewrite Htr; intros k o Ho; by apply not_elem_of_nil in Ho).
  pose proof (rn_kernel _ _ Hok) as Hk.
  assert ((k, o) ∈ TimerTree p) as Hin by (rewrite Htr; left).
  destruct (tree_timer s (ko_trees s Hk) cpu p k o Hp Hin) as (T & HT & He & Hc & Hkey).
  rewrite HT. cbn [mbind outcome_bind]. fold (due_limit s).
  destruct (Z.leb_spec (due_limit s) (ExpiryTick T)) as [Hle|Hlt].
  - exists [], s. split_and!; try done; [intros o' Ho'; by apply not_elem_of_nil in Ho'|]. exists p. split; [done|].
    intros k' o' Hin'. pose proof (tree_sorted s (ko_trees s Hk) cpu p Hp) as Hs. rewrite Htr in Hs, Hin'.
    apply (ascending_split [] (k, o) tree) in Hs as (_ & _ & Hab).
    apply elem_of_cons in Hin' as [[= -> ->]|Hin']; [lia|]. apply Hab in Hin'. unfold key, timer_key in Hin'.
    cbn in Hin'. lia.
  - destruct (expire_spec cpu k o T p s Hok Hd Hdp Hp Hin HT) as
      (s1 & H1 & Hok1 & Hd1 & Hdp1 & Hv1 & Htc1 & Hst1 & p1 & Hp1 & Hlen).
    destruct (IH p1 s1 Hok1 Hd1 Hdp1 Hp1) as (os & s2 & H2 & Hok2 & Hd2 & Hdp2 & Hv2 & Hos & p2 & Hp2 & Hlate).
    { rewrite Htr in Hlen. cbn in Hlen, Hfuel. lia. }
    assert (due_limit s1 = due_limit s) as Hlim by (unfold due_limit; by rewrite Htc1).
    exists (o :: os), s2. split.
    { rewrite <-H2. destruct (match TimerDpc T with Some d => KeEnqueueDpc cpu d s | None => Ok s end) as [s3| |]; [|done|done].
      cbn [mbind outcome_bind] in H1 |- *. destruct (KiRemoveTimerTree o _) as [s4| |]; [|done|done].
      cbn [mbind outcome_bind] in H1 |- *. by rewrite H1. }
    split_and!; try done.
    + rewrite Hv2, Hv1. done.
    + intros o' [->|Ho']%elem_of_cons.
      * exists k. split; [left|lia].
      * destruct (Hos o' Ho') as (k' & Hk' & ?). exists k'. split; [|by rewrite <-Hlim]. rewrite <-Htr.
        eapply (trees_shrink s s1); [apply Hk|apply Hok1|done..].
    + exists p2. split; [done|]. intros k' o'. rewrite <-Hlim. apply Hlate.
Qed.

Lemma timer_queue_spec fuel cpu p s :
  system_ok s → KeProcessorList s !! cpu = Some p → (length (TimerTree p) <= fuel)%nat →
  ∃ os s', KiDispatchTimerQueue fuel cpu s = Ok s' ∧ system_ok s' ∧ view s' = a_timers os (view s) ∧
    ∀ o, o ∈ os → ∃ k, (k, o) ∈ TimerTree p ∧ k < due_limit s.
Proof.
  intros Hok Hp Hfuel. pose proof Hok as [_ Hrn Hd Hdp]. unfold KiDispatchTimerQueue.
  rewrite (lock_spec s Hok). cbn [mbind outcome_bind]. set (s1 := set_KiDispatcherLock true s) in *.
  unfold KiGetNextTimerExpiryTick, KiAssertOwnDispatcherLock. change (KiDispatcherLock s1) with true.
  cbn [check mbind outcome_bind]. rewrite (proj2 (prcb_Ok s1 cpu p) Hp). cbn [mbind outcome_bind].
  assert (∃ n, match GetFirstEntryRbTree (TimerTree p) with
    | Some (_, o) => T ← timer s1 o; Ok (ExpiryTick T) | None => Ok 0 end = Ok n) as [n Hn].
  { destruct (TimerTree p) as [|[k o] tree] eqn:Htr; cbn; [eauto|].
    destruct (tree_timer s1 (ko_trees _ (rn_kernel _ _ Hrn)) cpu p k o Hp) as (T & HT & _); [rewrite Htr; left|].
    rewrite HT. cbn. eauto. }
  rewrite Hn. cbn [mbind outcome_bind]. unfold KiDispatchTimerObjects, KiAssertOwnDispatcherLock.
  change (KiDispatcherLock s1) with true. cbn [check mbind outcome_bind].
  destruct (n <=? u64 (TickCount s1 + 100)).
  - destruct (dispatch_timers_spec fuel cpu p s1 Hrn Hd Hdp Hp Hfuel) as (os & s2 & -> & Hok2 & Hd2 & Hdp2 & Hv2 & Hos & _).
    cbn [mbind outcome_bind]. destruct (unlock_spec s2 Hok2 Hd2 Hdp2) as (s' & -> & ? & Hv'). exists os, s'.
    split; [done|]. split; [done|]. split; [by rewrite Hv', Hv2|done].
  - cbn [mbind outcome_bind]. destruct (unlock_spec s1 Hrn Hd Hdp) as (s' & -> & ? & Hv'). exists [], s'.
    split_and!; try done. intros o Ho. by apply not_elem_of_nil in Ho.
Qed.

(** The timer interrupt and software interrupts end the quantum. *)
Lemma handle_quantum_spec cpu t s :
  system_ok s → runs s cpu t →
  ∃ s', KiHandleQuantumEnd cpu s = Ok s' ∧ system_ok s' ∧ view s' = view s.
Proof.
  intros Hok Hr. pose proof Hok as [_ Hrn Hd Hdp]. unfold KiHandleQuantumEnd. rewrite (lock_spec s Hok).
  cbn [mbind outcome_bind]. set (s1 := set_KiDispatcherLock true s) in *.
  destruct (ro_current _ _ _ (rn_running _ _ Hrn) cpu t (λ x, x) Hr) as (T & HT & _).
  destruct (quantum_end_spec cpu t T s1 Hr HT) as (s2 & -> & Hok2 & Hsw); [by left|]. cbn [mbind outcome_bind].
  assert (view s2 = view s) as Hv2 by (unfold view; by rewrite (sw_dobj _ _ Hsw), (sw_dthr _ _ Hsw)).
  destruct (unlock_spec s2) as (s' & -> & ? & Hv'); [done|by rewrite Hv2|by apply (dpcs_step s1); [apply Hsw..|]|].
  exists s'. split; [done|]. split; [done|]. by rewrite Hv'.
Qed.
