(* ===== verification/DispatchThms.v ===== *)
(** The theorems of the dispatcher: refinement, safety of every run, and what
    a signal does for those who wait. *)
From S2P Require Import Prelude RbTree Ke Timer Sched SchedSpec Dispatch DispatchSpec DispatchRuns.
Local Open Scope Z_scope.

(** ** The interface of the dispatcher *)

(** A call of a routine on a processor. *)
Inductive OP :=
  | SetEvent (cpu o : nat) (Increment : Z)
  | PulseEvent (cpu o : nat) (Increment : Z)
  | ResetEvent (o : nat)
  | ReleaseSemaphore (cpu o : nat) (Adjustment Increment : Z)
  | ReleaseMutex (cpu o : nat)
  | WaitForMultipleObjects (cpu : nat) (w : WAIT) (own_blocks : bool)
  | QuantumEnd (cpu : nat)
  | WaitTimerExpiry (cpu t : nat)
  | TimerQueue (fuel cpu : nat).

Definition exec (op : OP) (s : KERNEL) : outcome KERNEL :=
  match op with
  | SetEvent cpu o Inc => KeSetEvent cpu o Inc s
  | PulseEvent cpu o Inc => KePulseEvent cpu o Inc s
  | ResetEvent o => KeResetEvent o s
  | ReleaseSemaphore cpu o Adj Inc => KeReleaseSemaphore cpu o Adj Inc s
  | ReleaseMutex cpu o => KeReleaseMutex cpu o s
  | WaitForMultipleObjects cpu w own => '(_, s) ← KeWaitForMultipleObjects cpu w own s; Ok s
  | QuantumEnd cpu => KiHandleQuantumEnd cpu s
  | WaitTimerExpiry cpu t => KepWaitTimerExpiry cpu t s
  | TimerQueue fuel cpu => KiDispatchTimerQueue fuel cpu s
  end.

(** What the caller of a routine guarantees. *)
Definition allowed (op : OP) (s : KERNEL) : Prop :=
  match op with
  | SetEvent cpu o Inc | PulseEvent cpu o Inc =>
      (cpu < length (KeProcessorList s))%nat ∧ is_event (view s) o ∧ 0 ≤ Inc
  | ResetEvent o => is_event (view s) o
  | ReleaseSemaphore cpu o Adj Inc =>
      (cpu < length (KeProcessorList s))%nat ∧ 0 < Adj ∧ 0 ≤ Inc ∧
      ∃ x, dobjs (view s) !! o = Some x ∧ okind x = KSemaphore ∧ sig x + Adj < 2 ^ 15
  | ReleaseMutex cpu o =>
      ∃ t x l, runs s cpu t ∧ dobjs (view s) !! o = Some x ∧ okind x = KMutex l (Some t)
  | WaitForMultipleObjects cpu w own =>
      ∃ t T, runs s cpu t ∧ Threads s !! t = Some T ∧ DidCallWaitFunction T = false ∧
        BasePriority T ≠ PRIORITY_IDLE ∧
        (length (WObjects w) <= (if own then MAXIMUM_WAIT_BLOCKS else THREAD_WAIT_BLOCKS))%nat ∧
        may_wait (view s) t w ∧ (WTimeoutMS w ≠ TIMEOUT_INFINITE → may_time_out s cpu T w)
  | QuantumEnd cpu => (cpu < length (KeProcessorList s))%nat
  | WaitTimerExpiry cpu t => (cpu < length (KeProcessorList s))%nat ∧ ∃ wt bl, waits (view s) t wt bl
  | TimerQueue fuel cpu =>
      ∃ p, KeProcessorList s !! cpu = Some p ∧ (length (TimerTree p) <= fuel)%nat
  end.

(** What the routine does to the abstract dispatcher. *)
Definition a_exec (op : OP) (s : KERNEL) (d' : DVIEW) : Prop :=
  let d := view s in
  match op with
  | SetEvent _ o _ => d' = a_signal o 1 d
  | PulseEvent _ o _ => d' = a_set o 0 (a_signal o 1 d)
  | ResetEvent o => d' = a_set o 0 d
  | ReleaseSemaphore _ o Adj _ => ∃ x, dobjs d !! o = Some x ∧ d' = a_signal o (sig x + Adj) d
  | ReleaseMutex cpu o => ∃ t, runs s cpu t ∧ d' = a_release_mutex o t d
  | WaitForMultipleObjects cpu w _ =>
      ∃ t T, runs s cpu t ∧ Threads s !! t = Some T ∧ d' = (a_wait (killed w T) (WaitTimer T) t w d).2
  | QuantumEnd _ => d' = d
  | WaitTimerExpiry _ t => d' = a_unwait t d
  | TimerQueue _ cpu =>
      ∃ os p, KeProcessorList s !! cpu = Some p ∧ d' = a_timers os d ∧
        ∀ o, o ∈ os → ∃ k, (k, o) ∈ TimerTree p ∧ k < due_limit s
  end.

Lemma running_awake s cpu t :
  system_ok s → runs s cpu t → ∀ wt bl, ¬ waits (view s) t wt bl.
Proof.
  intros Hok Hr wt bl Hw. destruct (waiting_thread s t wt bl Hw) as (T & HT & Hst & _).
  destruct (ro_current _ _ _ (rn_running _ _ (so_run s Hok)) cpu t (λ x, x) Hr) as (T' & HT' & ?).
  change (Threads s !! t = Some T') in HT'. congruence.
Qed.

Lemma exec_spec op s :
  system_ok s → allowed op s → ∃ s', exec op s = Ok s' ∧ system_ok s' ∧ a_exec op s (view s').
Proof.
  intros Hok Ha. destruct op as [cpu o Inc|cpu o Inc|o|cpu o Adj Inc|cpu o|cpu w own|cpu|cpu t|fuel cpu]; cbn in Ha |- *.
  - destruct Ha as (Hcpu & He & Hi). unfold KeSetEvent.
    apply (locked_step (KiSetEvent cpu o Inc) s (a_signal o 1 (view s)) Hok). intros s1 Hk Hd.
    exact (set_event_spec cpu o Inc s1 Hk Hd Hcpu He Hi).
  - destruct Ha as (Hcpu & He & Hi).
    destruct (locked_step (λ s, s ← KiSetEvent cpu o Inc s; KiResetEvent o s) s (a_set o 0 (a_signal o 1 (view s))) Hok)
      as (s' & H' & ? & ?).
    { intros s1 Hk Hd. exact (pulse_event_spec cpu o Inc s1 Hk Hd Hcpu He Hi). }
    exists s'. split; [|done]. rewrite <-H'. unfold KePulseEvent. destruct (KiLockDispatcher s) as [s1| |]; [|done|done].
    cbn [mbind outcome_bind]. by destruct (KiSetEvent cpu o Inc s1).
  - unfold KeResetEvent. apply (locked_step (KiResetEvent o) s (a_set o 0 (view s)) Hok). intros s1 Hk Hd.
    exact (reset_event_spec o s1 Hk Hd Ha).
  - destruct Ha as (Hcpu & Hadj & Hi & x & Hx & Hkx & Hb). destruct (view_objects s o x Hx) as (h & Hh & Hxh).
    destruct (locked_step (KiReleaseSemaphore cpu o Adj Inc) s (a_signal o (sig x + Adj) (view s)) Hok) as (s' & H' & ? & ?).
    { intros s1 Hk Hd. exact (release_semaphore_spec cpu o x Adj Inc s1 Hk Hd Hcpu Hx Hkx Hadj Hb Hi). }
    exists s'. split; [|eauto]. unfold KeReleaseSemaphore. rewrite (proj2 (object_Ok s o h) Hh). cbn [mbind outcome_bind].
    rewrite check_true; [exact H'|]. unfold is_semaphore. subst x. cbn in Hkx. by destruct (Body h).
  - destruct Ha as (t & x & l & Hr & Hx & Hkx). unfold KeReleaseMutex.
    destruct (locked_step (KiReleaseMutex cpu o) s (a_release_mutex o t (view s)) Hok) as (s' & H' & ? & ?).
    { intros s1 Hk Hd. apply (release_spec cpu o x l t s1 Hk Hd); try done; [by eapply runs_lt|by apply runs_current|].
      by apply (running_awake s cpu t Hok). }
    exists s'. split; [done|]. split; [done|]. exists t. done.
  - destruct Ha as (t & T & Hr & HT & Hdc & Hni & Hlen & Hmw & Hto).
    destruct (wait_multiple_spec cpu t w own T s Hok Hr HT Hdc Hlen Hni Hmw Hto) as (s' & -> & ? & ?).
    cbn [mbind outcome_bind]. exists s'. split; [done|]. split; [done|]. exists t, T. done.
  - apply lookup_lt_is_Some in Ha as [p Hp].
    destruct (ko_current _ (rn_kernel _ _ (so_run s Hok)) cpu p Hp) as (t & T & Hc & HT).
    apply (handle_quantum_spec cpu t s Hok). by exists p.
  - destruct Ha as (Hcpu & wt & bl & Hw). by eapply wait_expiry_spec.
  - destruct Ha as (p & Hp & Hf). destruct (timer_queue_spec fuel cpu p s Hok Hp Hf) as (os & s' & -> & ? & ? & ?).
    exists s'. split; [done|]. split; [done|]. exists os, p. done.
Qed.

(** One step of the machine. *)
Inductive step (s s' : KERNEL) : Prop :=
  | do_op op : allowed op s → exec op s = Ok s' → step s s'.

Lemma steps_system_ok s s' : rtc step s s' → system_ok s → system_ok s'.
Proof.
  induction 1 as [|s s1 s' [op Ha He] _ IH]; [done|]. intros Hok. apply IH.
  destruct (exec_spec op s Hok Ha) as (s2 & He2 & Hok2 & _). congruence.
Qed.

(** ** A concrete kernel *)

(** Thread 1 runs and owns the mutex 20; thread 2 waits for the event 10,
    thread 3 for the mutex or the semaphore 11; thread 0 is idle. *)
Module Concrete.

Definition a_thread (t : nat) (St : KTHREAD_STATUS) (P : Z) (wt : WAIT_TYPE) (bl ms : list nat) : KTHREAD :=
  mkThread St false false P P 0 1 0%nat false 0 0 wt bl false STATUS_SUCCESS MODE_KERNEL ms false 0 false [] [] 0 0
    (100 + 2 * t) (101 + 2 * t) (200 + t) (300 + t) (400 + t) 500.

Definition threads : gmap nat KTHREAD :=
  (<[0 := a_thread 0 KTHREAD_STATUS_READY 0 WAIT_TYPE_ANY [] []]>
  (<[1 := a_thread 1 KTHREAD_STATUS_RUNNING 8 WAIT_TYPE_ANY [] [20]]>
  (<[2 := a_thread 2 KTHREAD_STATUS_WAITING 8 WAIT_TYPE_ANY [10] []]>
  (<[3 := a_thread 3 KTHREAD_STATUS_WAITING 8 WAIT_TYPE_ANY [20; 11] []]> ∅))))%nat.

Definition a_timer : KDISPATCH_HEADER := mkObject 0 [] (DISPATCH_TIMER (mkTimer 0 false None None)).

Definition objects : gmap nat KDISPATCH_HEADER :=
  (<[10 := mkObject 0 [(2, 0)] (DISPATCH_EVENT EVENT_SYNCHRONIZATION)]>
  (<[11 := mkObject 0 [(3, 1)] (DISPATCH_SEMAPHORE 5)]>
  (<[20 := mkObject 1 [(3, 0)] (DISPATCH_MUTEX 1 (Some 1))]>
  (<[12 := mkObject 0 [] (DISPATCH_EVENT EVENT_NOTIFICATION)]>
  (<[100 := a_timer]> (<[101 := a_timer]> (<[102 := a_timer]> (<[103 := a_timer]>
  (<[104 := a_timer]> (<[105 := a_timer]> (<[106 := a_timer]> (<[107 := a_timer]> ∅))))))))))))%nat.

Definition dpcs : gmap nat KDPC :=
  (<[200 := mkDpc OtherRoutine false false false]> (<[201 := mkDpc OtherRoutine false false false]>
  (<[202 := mkDpc OtherRoutine false false false]> (<[203 := mkDpc OtherRoutine false false false]> ∅))))%nat.

Definition processor : KPRCB :=
  mkPrcb 1 ([0%nat] :: replicate 31 []) (Some 1%nat) None [] 1 0 0 [] false 0.

Definition kernel : KERNEL :=
  mkKernel objects threads dpcs [processor] false [0; 1; 2; 3]%nat 0 false None 1000 1000000.

Ltac enum H :=
  repeat (apply lookup_insert_Some in H as [[<- <-]|[? H]]); try (by apply lookup_empty_Some in H).

Lemma queues k q : ExecQueue processor !! k = Some q → (k = 0%nat ∧ q = [0%nat]) ∨ (k ≠ 0%nat ∧ (k < 32)%nat ∧ q = []).
Proof.
  destruct k as [|k]; [intros [= <-]; by left|]. intros [-> ?]%lookup_replicate_1. right. split_and!; [done|lia|done].
Qed.

Lemma procs c p : KeProcessorList kernel !! c = Some p → c = 0%nat ∧ p = processor.
Proof. destruct c as [|c]; [by intros [= <-]|by destruct c]. Qed.

Lemma sched : sched_inv (KeProcessorList kernel) threads.
Proof.
  assert (∀ c k t, in_queue (KeProcessorList kernel) c k t → c = 0%nat ∧ k = 0%nat ∧ t = 0%nat) as Hq.
  { intros c k t (p & q & [-> ->]%procs & Hq & Ht). apply queues in Hq as [[-> ->]|(_ & _ & ->)].
    - by apply list_elem_of_singleton in Ht.
    - by apply not_elem_of_nil in Ht. }
  split.
  - intros c p [-> ->]%procs. done.
  - intros t T HT. unfold threads in HT. enum HT; cbn; unfold PRIORITY_REALTIME_MAX; split_and!; lia.
  - intros c k t (-> & -> & ->)%Hq. eexists. split; [reflexivity|done].
  - intros t T HT. unfold threads in HT. enum HT; cbn; try done. intros _. exists 0%nat, 0%nat.
    exists processor, [0%nat]. split_and!; [done|done|left].
  - intros c k c' k' t (-> & -> & _)%Hq (-> & -> & _)%Hq. done.
  - intros c p k q [-> ->]%procs [[-> ->]|(_ & _ & ->)]%queues; [apply NoDup_singleton|constructor].
  - intros c p k q [-> ->]%procs [[-> ->]|(Hk & Hlt & ->)]%queues; [done|]. cbn [ExecQueueMask processor].
    change 1 with (2 ^ 0). rewrite Z.pow2_bits_false by lia. done.
  - intros c p [-> ->]%procs. done.
Qed.

Lemma runs_one c t : runs kernel c t ↔ c = 0%nat ∧ t = 1%nat.
Proof.
  split.
  - intros (p & [-> ->]%procs & [= <-]). done.
  - intros [-> ->]. by exists processor.
Qed.

Lemma no_timers o T : timer kernel o = Ok T → IsEnqueued T = false ∧ TimerDpc T = None.
Proof.
  intros (h & Hh & Hb)%timer_Ok. cbn in Hh. unfold objects in Hh. enum Hh; cbn in Hb; try done; by injection Hb as <-.
Qed.

Lemma runnable : run_ok (λ _, False) (set_KiDispatcherLock true kernel).
Proof.
  split.
  - split.
    + done.
    + exact sched.
    + intros c p [-> ->]%procs. exists 1%nat. by eexists.
    + intros t T HT. cbn in HT. unfold threads in HT. enum HT; split; (eexists; split; [reflexivity|done]).
    + split.
      * intros c p [-> ->]%procs. constructor.
      * intros c p k o [-> ->]%procs Hin. by apply not_elem_of_nil in Hin.
      * intros o T HT He. destruct (no_timers o T HT) as [? _]. congruence.
  - intros t T c HT Hc. cbn in HT, Hc. assert (c = 0%nat) as -> by lia. unfold threads in HT. by enum HT.
  - split; [cbn; lia|done].
  - intros c Hc. cbn in Hc. assert (c = 0%nat) as -> by lia. exists 0%nat. eexists. split; [reflexivity|].
    split; [done|]. split; [done|]. left. exists processor, [0%nat]. split_and!; [done|done|left].
  - split.
    + intros c p _ [-> ->]%procs. done.
    + intros c t _ [-> ->]%runs_one. by eexists.
    + intros c c' t _ _ [-> _]%runs_one [-> _]%runs_one. done.
    + intros t T HT Hs. right. exists 0%nat. split; [tauto|]. apply runs_one. split; [done|].
      cbn in HT. unfold threads in HT. by enum HT.
Qed.

Lemma waiting t wt bl :
  waits (view kernel) t wt bl ↔ wt = WAIT_TYPE_ANY ∧ (t = 2%nat ∧ bl = [10%nat] ∨ t = 3%nat ∧ bl = [20; 11]%nat).
Proof.
  split.
  - intros (T & HT & Hs & <- & <-)%waiting_thread. cbn in HT. unfold threads in HT. enum HT; try done; auto.
  - intros [-> [[-> ->]|[-> ->]]]; by eexists.
Qed.

Lemma links_ok : links (λ _, False) (view kernel).
Proof.
  assert (∀ o x, dobjs (view kernel) !! o = Some x → ∃ h, objects !! o = Some h ∧ x = view_object h) as Hobj
    by (intros o x; apply view_objects).
  split.
  - intros o x (h & Hh & ->)%Hobj. unfold objects in Hh. enum Hh; cbn; try apply NoDup_singleton; constructor.
  - intros o x t i (h & Hh & ->)%Hobj. setoid_rewrite waiting. split.
    + intros Hin. unfold objects in Hh. enum Hh; cbn in Hin; try (by apply not_elem_of_nil in Hin);
        apply list_elem_of_singleton in Hin as [= -> ->]; eexists _, _; (split; [split; [done|by auto]|done]).
    + intros (wt & bl & (-> & [[-> ->]|[-> ->]]) & Hi).
      * apply list_lookup_singleton_Some in Hi as [-> <-]. injection Hh as <-. left.
      * destruct i as [|[|i]]; [injection Hi as <-|injection Hi as <-|done]; injection Hh as <-; left.
  - intros t wt bl (-> & [[-> ->]|[-> ->]])%waiting; (split; [apply (bool_decide_unpack _); vm_compute; done|]);
      intros o Ho; repeat (apply elem_of_cons in Ho as [->|Ho]; [by eexists|]); by apply not_elem_of_nil in Ho.
  - intros o x l ow (h & Hh & ->)%Hobj Hk. unfold objects in Hh. enum Hh; cbn in Hk; try done. injection Hk as <- <-.
    split; [done|]. split; [done|]. intros t [= <-]. eexists. split; [reflexivity|]. left.
  - intros t y (T & HT & ->)%view_threads. cbn in HT. unfold threads in HT.
    enum HT; cbn; (split; [first [apply NoDup_singleton|constructor]|]); intros o Ho;
      try (by apply not_elem_of_nil in Ho). apply list_elem_of_singleton in Ho as ->. by eexists _, _.
  - intros o x (h & Hh & ->)%Hobj Hk. unfold objects in Hh. by enum Hh.
  - intros t y wt bl _ Hy Hw. assert (waits (view kernel) t wt bl) as (-> & Hor)%waiting by by exists y.
    assert (owned y = []) as Ho by (destruct Hor as [[-> _]|[-> _]]; by injection Hy as <-). split.
    + intros o _. unfold top_level. rewrite Ho. cbn. by destruct (level (view kernel) o).
    + intros o x l _ (h & Hh & ->)%Hobj Hk. unfold objects in Hh. enum Hh; cbn in Hk; try done.
Qed.

Lemma asleep_ok : asleep (λ _, False) (view kernel).
Proof.
  intros t wt bl (-> & [[-> ->]|[-> ->]])%waiting; right; intros (o & Ho & Hs);
    repeat (apply elem_of_cons in Ho as [->|Ho]; [by vm_compute in Hs|]); by apply not_elem_of_nil in Ho.
Qed.

Lemma system : system_ok kernel.
Proof.
  split; [done|exact runnable|exact (conj links_ok asleep_ok)|].
  intros o T d HT Hd. destruct (no_timers o T HT) as [_ ?]. congruence.
Qed.

End Concrete.

(** ** Who is woken *)

(** The waiter [(t, i)] of [o] waits for any of its objects. *)
Definition any_entry (d : DVIEW) (o : nat) (e : nat * nat) : Prop :=
  ∃ bl, waits d e.1 WAIT_TYPE_ANY bl ∧ bl !! e.2 = Some o.

(** Exactly the threads [ts] stop waiting. *)
Definition woken (ts : list nat) (d d' : DVIEW) : Prop :=
  ∀ t wt bl, waits d' t wt bl ↔ waits d t wt bl ∧ t ∉ ts.

Lemma woken_nil d : woken [] d d.
Proof. intros t wt bl. split; [split; [done|apply not_elem_of_nil]|by intros [? _]]. Qed.

Lemma woken_cons t ts d d1 d2 : woken [t] d d1 → woken ts d1 d2 → woken (t :: ts) d d2.
Proof. intros H1 H2 t' wt bl. rewrite (H2 t' wt bl), (H1 t' wt bl). set_solver. Qed.

Lemma satisfy_any t i o d :
  any_entry d o (t, i) → a_satisfy t i d = Some (a_unwait t (a_acquire o t d)).
Proof.
  intros (bl & (y & Hy & Hw) & Hi). cbn in *. unfold a_satisfy. rewrite Hy. cbn. rewrite Hw. cbn. by rewrite Hi.
Qed.

Lemma unwait_acquire_woken t o d : woken [t] d (a_unwait t (a_acquire o t d)).
Proof. intros t' wt bl. rewrite a_unwait_waits, a_acquire_waits. set_solver. Qed.

Lemma any_entry_woken ts d d' o e : woken ts d d' → e.1 ∉ ts → any_entry d o e → any_entry d' o e.
Proof. intros Hw Hn (bl & H1 & H2). exists bl. split; [|done]. by apply Hw. Qed.

(** The waiters of an object, when all of them wait for any object. *)
Lemma any_waiters d o x :
  dispatcher_ok d → dobjs d !! o = Some x → (∀ t i, (t, i) ∈ waiters x → ∃ bl, waits d t WAIT_TYPE_ANY bl) →
  (∀ e, e ∈ waiters x → any_entry d o e) ∧ NoDup (waiters x).*1.
Proof.
  intros [Hl _] Hx Hany.
  assert (∀ e, e ∈ waiters x → any_entry d o e) as He.
  { intros [t i] Hin. destruct (Hany t i Hin) as [bl Hw]. apply (l_waiter _ _ Hl o x t i Hx) in Hin as (wt & bl' & Hw' & Hi).
    destruct (waits_functional _ _ _ _ _ _ Hw Hw') as [<- <-]. by exists bl. }
  split; [done|]. apply NoDup_fmap_2_strong; [|by eapply l_nodup].
  intros [t i] [t' j] Hin Hin' [= <-]. destruct (He _ Hin) as (bl & Hw & Hi), (He _ Hin') as (bl' & Hw' & Hj).
  cbn in *. destruct (waits_functional _ _ _ _ _ _ Hw Hw') as [_ <-]. destruct (l_blocks _ _ Hl t _ bl Hw) as [Hnd _].
  f_equal. by eapply NoDup_lookup.
Qed.

Lemma acquire_unwait_lookup t o d x :
  dobjs d !! o = Some x →
  dobjs (a_unwait t (a_acquire o t d)) !! o = Some (unblock t
    (match okind x with
     | KEvent EVENT_SYNCHRONIZATION => set_sig 0 x
     | KMutex _ _ => set_owner t (set_sig (sig x + 1) x)
     | KSemaphore => set_sig (sig x - 1) x
     | _ => x end)).
Proof. intros Hx. rewrite unblock_lookup, a_acquire_lookup, decide_True, Hx by done. done. Qed.

(** A semaphore serves as many waiters as its count, first come, first served. *)
Lemma offer_semaphore es o x d :
  dobjs d !! o = Some x → okind x = KSemaphore → 0 < sig x →
  (∀ e, e ∈ es → any_entry d o e) → NoDup es.*1 →
  woken (take (Z.to_nat (sig x)) es).*1 d (a_wait_test es o d) ∧
  ∃ x', dobjs (a_wait_test es o d) !! o = Some x' ∧ okind x' = KSemaphore ∧
    sig x' = Z.max 0 (sig x - Z.of_nat (length es)).
Proof.
  revert d x. induction es as [|[t i] es IH]; intros d x Hx Hk Hs He Hnd; cbn [a_wait_test].
  { rewrite take_nil. split; [apply woken_nil|]. exists x. split_and!; [done|done|cbn; lia]. }
  rewrite (satisfy_any t i o d) by (apply He; left). set (d1 := a_unwait t (a_acquire o t d)).
  pose proof (acquire_unwait_lookup t o d x Hx) as Hx1. rewrite Hk in Hx1. fold d1 in Hx1.
  pose proof (unwait_acquire_woken t o d : woken [t] d d1) as Hw1.
  rewrite fmap_cons in Hnd. apply NoDup_cons in Hnd as [Hnt Hnd]. cbn in Hnt.
  unfold a_enough. rewrite Hx1. cbn [okind unblock set_sig sig]. rewrite Hk.
  destruct (Z.eqb_spec (sig x - 1) 0) as [E|E].
  - replace (Z.to_nat (sig x)) with 1%nat by lia. cbn. rewrite take_0. split; [done|].
    eexists. split; [exact Hx1|]. split; [done|]. cbn. lia.
  - destruct (IH d1 _ Hx1) as [Hw2 (x' & Hx' & Hk' & Hs')]; cbn in *; try done; try lia.
    + intros e Hin. apply (any_entry_woken [t] d); [done| |apply He; by right].
      intros Ht%list_elem_of_singleton. apply Hnt. rewrite <-Ht. by apply list_elem_of_fmap_2.
    + split; [|exists x'; split_and!; try done; lia].
      replace (Z.to_nat (sig x)) with (S (Z.to_nat (sig x - 1))) by lia. cbn. by eapply woken_cons.
Qed.

(** A synchronization event serves the first waiter, a notification event all. *)
Definition event_serves (e : EVENT_TYPE) (es : list (nat * nat)) : list nat :=
  match e with EVENT_SYNCHRONIZATION => take 1 es.*1 | EVENT_NOTIFICATION => es.*1 end.

Definition event_left (e : EVENT_TYPE) (es : list (nat * nat)) : Z :=
  match e, es with EVENT_SYNCHRONIZATION, _ :: _ => 0 | _, _ => 1 end.

Lemma offer_event es o x e d :
  dobjs d !! o = Some x → okind x = KEvent e → sig x = 1 →
  (∀ e, e ∈ es → any_entry d o e) → NoDup es.*1 →
  woken (event_serves e es) d (a_wait_test es o d) ∧
  ∃ x', dobjs (a_wait_test es o d) !! o = Some x' ∧ okind x' = KEvent e ∧ sig x' = event_left e es.
Proof.
  revert d x. induction es as [|[t i] es IH]; intros d x Hx Hk Hs He Hnd; cbn [a_wait_test].
  { split; [destruct e; apply woken_nil|]. exists x. by destruct e. }
  rewrite (satisfy_any t i o d) by (apply He; left). set (d1 := a_unwait t (a_acquire o t d)).
  pose proof (acquire_unwait_lookup t o d x Hx) as Hx1. rewrite Hk in Hx1. fold d1 in Hx1.
  pose proof (unwait_acquire_woken t o d : woken [t] d d1) as Hw1.
  unfold a_enough. rewrite Hx1. destruct e; cbn [okind unblock set_sig]; rewrite Hk.
  - cbn. rewrite take_0. split; [done|]. eexists. split; [exact Hx1|]. done.
  - rewrite fmap_cons in Hnd. apply NoDup_cons in Hnd as [Hnt Hnd]. cbn in Hnt.
    destruct (IH d1 _ Hx1) as [Hw2 (x' & Hx' & Hk' & Hs')]; cbn in *; try done.
    + intros e Hin. apply (any_entry_woken [t] d); [done| |apply He; by right].
      intros Ht%list_elem_of_singleton. apply Hnt. rewrite <-Ht. by apply list_elem_of_fmap_2.
    + split; [by eapply woken_cons|]. exists x'. by split_and!.
Qed.

(** A free mutex is handed to its first waiter. *)
Lemma offer_mutex es m x l d :
  dobjs d !! m = Some x → okind x = KMutex l None → sig x = 0 → (∀ e, e ∈ es → any_entry d m e) →
  woken (take 1 es.*1) d (a_wait_test es m d) ∧
  ∃ x', dobjs (a_wait_test es m d) !! m = Some x' ∧ okind x' = KMutex l (head es.*1) ∧
    sig x' = match es with [] => 0 | _ => 1 end.
Proof.
  intros Hx Hk Hs He. destruct es as [|[t i] es]; cbn [a_wait_test].
  { split; [apply woken_nil|]. by exists x. }
  rewrite (satisfy_any t i m d) by (apply He; left). set (d1 := a_unwait t (a_acquire m t d)).
  pose proof (acquire_unwait_lookup t m d x Hx) as Hx1. rewrite Hk in Hx1. fold d1 in Hx1.
  unfold a_enough. rewrite Hx1. cbn [okind unblock set_sig set_owner sig]. rewrite Hk, Hs. cbn.
  rewrite take_0. split; [apply unwait_acquire_woken|]. eexists. split; [exact Hx1|]. cbn. by rewrite Hk, Hs.
Qed.

(** ** Theorems *)

(** C2: every routine of the dispatcher (setting, pulsing and resetting events,
    releasing semaphores and mutexes, waiting for any or all of several objects
    with or without a timeout, the expiry of waits and of timers, the end of a
    quantum), called as it may be, returns, and does to objects, waits and
    owners exactly what the abstract dispatcher does, which offers an object to
    its waiters in the order of their arrival. *)
Theorem dispatcher_refines op s :
  system_ok s → allowed op s → ∃ s', exec op s = Ok s' ∧ a_exec op s (view s').
Proof. intros Hok Ha. destruct (exec_spec op s Hok Ha) as (s' & ? & _ & ?). eauto. Qed.

Lemma dispatcher_refines_witness :
  ∃ s', exec (ReleaseMutex 0 20) Concrete.kernel = Ok s' ∧
    a_exec (ReleaseMutex 0 20) Concrete.kernel (view s').
Proof.
  apply (dispatcher_refines _ _ Concrete.system). cbn. exists 1%nat. eexists _, 1.
  split; [by apply Concrete.runs_one|]. split; [reflexivity|done].
Defined.

(** C1: in every state that any sequence of these routines reaches, by any
    processors in any order, each called as it may be, no thread sleeps on a wait
    that could be satisfied, no thread runs on two processors, every ready thread
    is in exactly one place of one ready queue, and the next such routine neither
    crashes nor spins.  The timer of a wait is taken to expire only while its
    thread still waits: a timeout that comes after the thread was woken leaves
    the dispatcher locked ([KepWaitTimerExpiry_keeps_lock]), and then every
    routine spins. *)
Theorem dispatcher_runs_safe s s' :
  system_ok s → rtc step s s' →
  (∀ t wt bl, waits (view s') t wt bl → ¬ ready (view s') t wt bl) ∧
  (∀ c c' t, runs s' c t → runs s' c' t → c = c') ∧
  (∀ t T, Threads s' !! t = Some T → Status T = KTHREAD_STATUS_READY →
     ∃ c k, in_queue (KeProcessorList s') c k t ∧
       ∀ c' k', in_queue (KeProcessorList s') c' k' t → c' = c ∧ k' = k) ∧
  (∀ op, allowed op s' → ∃ s'', exec op s' = Ok s'').
Proof.
  intros Hok Hs. pose proof (steps_system_ok s s' Hs Hok) as Hok'. pose proof Hok' as [_ Hr [_ Ha] _]. split_and!.
  - intros t wt bl Hw. by destruct (Ha t wt bl Hw) as [[]|].
  - intros c c' t. apply (ro_once _ _ _ (rn_running _ _ Hr)); by intros [].
  - pose proof (ko_sched _ (rn_kernel _ _ Hr)) as Hsc. intros t T HT Hrd.
    destruct (si_ready _ _ Hsc t T HT Hrd) as (c & k & Hin). exists c, k. split; [done|].
    intros c' k' Hin'. destruct (si_once _ _ Hsc _ _ _ _ _ Hin Hin'). by subst.
  - intros op Hop. destruct (exec_spec op s' Hok' Hop) as (s'' & ? & _). eauto.
Qed.

Lemma set_event_step :
  ∃ s', rtc step Concrete.kernel s' ∧ exec (SetEvent 0 10 1) Concrete.kernel = Ok s'.
Proof.
  assert (allowed (SetEvent 0 10 1) Concrete.kernel) as Ha.
  { cbn. split; [lia|]. split; [|lia]. by eexists _, _. }
  destruct (exec_spec _ _ Concrete.system Ha) as (s' & He & _). exists s'. split; [|done].
  apply rtc_once. by apply (do_op _ _ (SetEvent 0 10 1)).
Qed.

Lemma dispatcher_runs_safe_witness :
  ∃ s', exec (SetEvent 0 10 1) Concrete.kernel = Ok s' ∧
    ∀ t wt bl, waits (view s') t wt bl → ¬ ready (view s') t wt bl.
Proof.
  destruct set_event_step as (s' & Hs & He). exists s'. split; [exact He|].
  apply (dispatcher_runs_safe _ s' Concrete.system Hs).
Defined.

(** Setting an event all of whose waiters wait for any of their objects
    wakes, when it is a synchronization event, exactly the thread that waited
    first, and consumes the signal; a notification event wakes every waiter and
    stays signaled.  Without waiters the event is left signaled. *)
Theorem KeSetEvent_correct cpu o e x Inc s :
  system_ok s → (cpu < length (KeProcessorList s))%nat → dobjs (view s) !! o = Some x → okind x = KEvent e →
  (∀ t i, (t, i) ∈ waiters x → ∃ bl, waits (view s) t WAIT_TYPE_ANY bl) → 0 ≤ Inc →
  ∃ s', KeSetEvent cpu o Inc s = Ok s' ∧ woken (event_serves e (waiters x)) (view s) (view s') ∧
    ∃ x', dobjs (view s') !! o = Some x' ∧ okind x' = KEvent e ∧ sig x' = event_left e (waiters x).
Proof.
  intros Hok Hcpu Hx Hk Hany Hi.
  destruct (exec_spec (SetEvent cpu o Inc) s Hok) as (s' & He & _ & Hv); [by split_and!; [|eexists _, _|]|].
  exists s'. split; [exact He|]. cbn in Hv. rewrite Hv. unfold a_signal. rewrite Hx.
  destruct (any_waiters _ o x (so_dispatcher s Hok) Hx Hany) as [Hae Hnd].
  apply (offer_event _ o (set_sig 1 x) e (a_set o 1 (view s))); try done.
  rewrite a_set_lookup, Hx. cbn. by rewrite decide_True.
Qed.

Lemma KeSetEvent_correct_witness :
  ∃ s', KeSetEvent 0 10 1 Concrete.kernel = Ok s' ∧ woken [2%nat] (view Concrete.kernel) (view s').
Proof.
  destruct (KeSetEvent_correct 0 10 EVENT_SYNCHRONIZATION (mkDobj 0 [(2, 0)]%nat (KEvent EVENT_SYNCHRONIZATION)) 1
    Concrete.kernel Concrete.system) as (s' & He & Hw & _); try done.
  - cbn. lia.
  - intros t i Hin. apply list_elem_of_singleton in Hin as [= -> ->]. exists [10%nat]. apply Concrete.waiting. auto.
  - exists s'. split; [exact He|exact Hw].
Defined.

(** Releasing a semaphore adds to its count and serves its waiters, all of
    which wait for any of their objects, in the order of their arrival: as many
    are woken as the count allows, and the rest of the count remains. *)
Theorem KeReleaseSemaphore_correct cpu o x Adjustment Inc s :
  system_ok s → (cpu < length (KeProcessorList s))%nat → dobjs (view s) !! o = Some x → okind x = KSemaphore →
  (∀ t i, (t, i) ∈ waiters x → ∃ bl, waits (view s) t WAIT_TYPE_ANY bl) →
  0 < Adjustment → sig x + Adjustment < 2 ^ 15 → 0 ≤ Inc →
  let n := sig x + Adjustment in
  ∃ s', KeReleaseSemaphore cpu o Adjustment Inc s = Ok s' ∧
    woken (take (Z.to_nat n) (waiters x)).*1 (view s) (view s') ∧
    ∃ x', dobjs (view s') !! o = Some x' ∧ okind x' = KSemaphore ∧
      sig x' = Z.max 0 (n - Z.of_nat (length (waiters x))).
Proof.
  intros Hok Hcpu Hx Hk Hany Ha Hb Hi n.
  destruct (exec_spec (ReleaseSemaphore cpu o Adjustment Inc) s Hok) as (s' & He & _ & x0 & Hx0 & Hv).
  { split_and!; eauto. }
  exists s'. split; [exact He|]. rewrite Hx in Hx0. injection Hx0 as <-. rewrite Hv. unfold a_signal. rewrite Hx.
  destruct (any_waiters _ o x (so_dispatcher s Hok) Hx Hany) as [Hae Hnd].
  pose proof (l_semaphore _ _ (proj1 (so_dispatcher s Hok)) o x Hx Hk).
  apply (offer_semaphore _ o (set_sig n x) (a_set o n (view s))); try done.
  - rewrite a_set_lookup, Hx. cbn. by rewrite decide_True.
  - cbn. lia.
Qed.

Lemma KeReleaseSemaphore_correct_witness :
  ∃ s', KeReleaseSemaphore 0 11 3 1 Concrete.kernel = Ok s' ∧ woken [3%nat] (view Concrete.kernel) (view s').
Proof.
  destruct (KeReleaseSemaphore_correct 0 11 (mkDobj 0 [(3, 1)]%nat KSemaphore) 3 1 Concrete.kernel Concrete.system)
    as (s' & He & Hw & _); try done.
  - cbn. lia.
  - intros t i Hin. apply list_elem_of_singleton in Hin as [= -> ->]. exists [20; 11]%nat. apply Concrete.waiting. auto.
  - exists s'. split; [exact He|exact Hw].
Defined.

(** C3: when every thread that waits for the mutex waits for any of its
    objects, the owner of a mutex that acquired it more than once gives up one
    acquisition and stays the owner; the last release hands the mutex to the
    thread that waited first, which alone is woken, or frees it.  (A thread that
    waits for all of several objects is passed over when another of them is not
    free; [dispatcher_refines] says what happens then.) *)
Theorem KeReleaseMutex_correct cpu m t x l s :
  system_ok s → runs s cpu t → dobjs (view s) !! m = Some x → okind x = KMutex l (Some t) →
  (∀ t i, (t, i) ∈ waiters x → ∃ bl, waits (view s) t WAIT_TYPE_ANY bl) →
  ∃ s', KeReleaseMutex cpu m s = Ok s' ∧ ∃ x', dobjs (view s') !! m = Some x' ∧
    if sig x =? 1 then
      woken (take 1 (waiters x).*1) (view s) (view s') ∧ okind x' = KMutex l (head (waiters x).*1) ∧
      sig x' = match waiters x with [] => 0 | _ => 1 end
    else woken [] (view s) (view s') ∧ okind x' = KMutex l (Some t) ∧ sig x' = sig x - 1.
Proof.
  intros Hok Hr Hx Hk Hany.
  destruct (exec_spec (ReleaseMutex cpu m) s Hok) as (s' & He & _ & t0 & Hr0 & Hv); [by exists t, x, l|].
  exists s'. split; [exact He|]. rewrite <-(runs_functional s cpu t t0 Hr Hr0) in Hv. rewrite Hv.
  unfold a_release_mutex. rewrite Hx.
  pose proof (a_release_lookup m t (view s) x l _ m Hx Hk) as Hlk. rewrite decide_True in Hlk by done.
  destruct (any_waiters _ m x (so_dispatcher s Hok) Hx Hany) as [Hae Hnd]. unfold release_object in Hlk.
  destruct (Z.eqb_spec (sig x) 1) as [E|E].
  - destruct (offer_mutex (waiters x) m _ l _ Hlk) as [Hw (x' & Hx' & Hk' & Hs')].
    + cbn. by rewrite Hk.
    + done.
    + intros e Hin. destruct (Hae e Hin) as (bl & Hw & Hi). exists bl. split; [|done].
      by apply (a_release_waits m t (view s) x l _ _ _ _ Hx Hk).
    + exists x'. split; [done|]. split; [|done]. intros t' wt bl. rewrite (Hw t' wt bl).
      by rewrite (a_release_waits m t (view s) x l _ _ _ _ Hx Hk).
  - eexists. split; [exact Hlk|]. cbn. split; [|done].
    intros t' wt bl. rewrite (a_release_waits m t (view s) x l _ _ _ _ Hx Hk). apply (woken_nil (view s)).
Qed.

Lemma KeReleaseMutex_correct_witness :
  ∃ s', KeReleaseMutex 0 20 Concrete.kernel = Ok s' ∧
    ∃ x', dobjs (view s') !! 20%nat = Some x' ∧ okind x' = KMutex 1 (Some 3%nat).
Proof.
  destruct (KeReleaseMutex_correct 0 20 1 (mkDobj 1 [(3, 0)]%nat (KMutex 1 (Some 1%nat))) 1 Concrete.kernel
    Concrete.system) as (s' & He & x' & Hx' & _ & Hk & _); try done.
  - by apply Concrete.runs_one.
  - intros t i Hin. apply list_elem_of_singleton in Hin as [= -> ->]. exists [20; 11]%nat. apply Concrete.waiting. auto.
  - exists s'. split; [exact He|]. exists x'. split; [exact Hx'|exact Hk].
Defined.

(** A processor that looks for a thread of at least a given priority in its
    own queues takes the first one of the highest queue that is not empty, sets
    its priority back to its base, and leaves every other ready thread queued;
    it takes none only when all these queues are empty. *)
Theorem KepPopNextThreadIfNeeded_correct cpu Min p s :
  schedulable cpu s → KeProcessorList s !! cpu = Some p → 0 ≤ Min →
  ∃ r s', KepPopNextThreadIfNeeded cpu cpu Min false s = Ok (r, s') ∧
    match r with
    | None => s' = s ∧ ∀ k, Min ≤ Z.of_nat k → (k < PRIORITY_COUNT)%nat → ExecQueue p !! k = Some []
    | Some t =>
        (∃ k q, Min ≤ Z.of_nat k ∧ ExecQueue p !! k = Some (t :: q) ∧
           ∀ k', (k < k')%nat → (k' < PRIORITY_COUNT)%nat → ExecQueue p !! k' = Some []) ∧
        ∃ T', Threads s' !! t = Some T' ∧ Priority T' = BasePriority T' ∧
          sched_inv (KeProcessorList s') (<[t := set_Status KTHREAD_STATUS_RUNNING T']> (Threads s'))
    end.
Proof.
  intros Hsc Hp Hmin. unfold KepPopNextThreadIfNeeded. rewrite (proj2 (prcb_Ok s cpu p) Hp).
  cbn [mbind outcome_bind andb].
  destruct (pop_loop_spec PRIORITY_COUNT cpu cpu Min false p s Hsc Hp) as (r & s' & Hr & Hg & Hd); try done; [by left|].
  exists r, s'. split; [exact Hr|]. destruct r as [t|].
  - destruct Hd as (k & q & ? & ? & ? & ?). split; [by exists k, q|].
    destruct (gt_sched _ _ _ _ Hg) as (T & T' & _ & _ & ? & ? & ?). by exists T'.
  - destruct Hd as [-> Hd]. split; [done|]. by apply Hd.
Qed.

Lemma KepPopNextThreadIfNeeded_correct_witness :
  let s := set_KiDispatcherLock true Concrete.kernel in
  ∃ r s', KepPopNextThreadIfNeeded 0 0 0 false s = Ok (r, s') ∧ r = Some 0%nat.
Proof.
  destruct (KepPopNextThreadIfNeeded_correct 0 0 Concrete.processor (set_KiDispatcherLock true Concrete.kernel))
    as (r & s' & Hr & _).
  - exact (run_schedulable _ 0 1 _ Concrete.runnable (proj2 (Concrete.runs_one 0 1) (conj eq_refl eq_refl))).
  - reflexivity.
  - lia.
  - exists r, s'. split; [exact Hr|]. vm_compute in Hr. by injection Hr as <- _.
Defined.

(** When the DPC of a wait's timeout finds that its thread does not wait
    any more, it returns with the dispatcher still locked, so that the next
    routine of the dispatcher, on any processor, never returns. *)
Theorem KepWaitTimerExpiry_keeps_lock cpu t T s :
  KiDispatcherLock s = false → Threads s !! t = Some T → Status T ≠ KTHREAD_STATUS_WAITING →
  ∃ s', KepWaitTimerExpiry cpu t s = Ok s' ∧ KiDispatcherLock s' = true ∧
    (∀ c o Inc, KeSetEvent c o Inc s' = OutOfFuel) ∧ (∀ c, KiHandleQuantumEnd c s' = OutOfFuel).
Proof.
  intros Hl HT Hs. unfold KepWaitTimerExpiry, KiLockDispatcher. rewrite Hl. cbn [mbind outcome_bind].
  rewrite (proj2 (thread_Ok _ t T)) by exact HT. cbn [mbind outcome_bind]. rewrite bool_decide_true by done.
  eexists. split; [done|]. by split_and!.
Qed.

(** A run that gets there: the thread waits for the event 12 with a timeout of
    one millisecond, its timer expires and queues the DPC, and the event is set
    before the DPC is run. *)
Definition late_timeout : outcome (option DEFERRED_ROUTINE * KERNEL) :=
  s ← exec (WaitForMultipleObjects 0 (mkWait [12%nat] WAIT_TYPE_ANY false 1 MODE_KERNEL) false) Concrete.kernel;
  s ← exec (TimerQueue 1 0) (set_TickCount 3000 s);
  s ← exec (SetEvent 0 12 1) s;
  pop_dpc 0 s.

Lemma KepWaitTimerExpiry_keeps_lock_witness :
  ∃ s, late_timeout = Ok (Some (KepWaitTimerExpiry_routine 1), s) ∧
    ∃ s', KepWaitTimerExpiry 0 1 s = Ok s' ∧ KiDispatcherLock s' = true.
Proof.
  destruct late_timeout as [[r s]| |] eqn:E; [|by vm_compute in E|by vm_compute in E].
  assert (r = Some (KepWaitTimerExpiry_routine 1) ∧ KiDispatcherLock s = false ∧
    (Status <$> Threads s !! 1%nat) = Some KTHREAD_STATUS_READY) as (Hr & Hl & Hs)
    by (vm_compute in E; injection E as <- <-; done).
  exists s. split; [by rewrite Hr|]. destruct (Threads s !! 1%nat) as [T|] eqn:HT; [|done]. injection Hs as Hs.
  destruct (KepWaitTimerExpiry_keeps_lock 0 1 T s Hl HT) as (s' & H1 & H2 & _); [by rewrite Hs|].
  exists s'. split; [exact H1|exact H2].
Defined.

(** The priority classes. *)
Definition class_max (P : Z) : Z :=
  if P =? PRIORITY_IDLE then PRIORITY_IDLE
  else if P <=? PRIORITY_LOW_MAX then PRIORITY_LOW_MAX
  else if P <=? PRIORITY_NORMAL_MAX then PRIORITY_NORMAL_MAX
  else if P <=? PRIORITY_HIGH_MAX then PRIORITY_HIGH_MAX
  else PRIORITY_REALTIME_MAX.

(** A boost raises a priority by the amount asked for, but never past the
    highest priority of its class (idle, low, normal, high, real-time). *)
Theorem KiAdjustPriorityBoost_correct Base Boost :
  0 ≤ Base ≤ PRIORITY_REALTIME_MAX → 0 ≤ Boost →
  Base + KiAdjustPriorityBoost Base Boost = Z.min (Base + Boost) (class_max Base).
Proof.
  unfold KiAdjustPriorityBoost, class_max, PRIORITY_IDLE, PRIORITY_REALTIME, PRIORITY_REALTIME_MAX, PRIORITY_HIGH,
    PRIORITY_HIGH_MAX, PRIORITY_NORMAL, PRIORITY_NORMAL_MAX, PRIORITY_LOW, PRIORITY_LOW_MAX.
  intros Hb Hi. cbv zeta.
  repeat match goal with |- context [if ?b then _ else _] => destruct b eqn:? end; bool_hyps; try lia.
  all: repeat match goal with H : (_ && _) = false |- _ => apply andb_false_iff in H as [H|H] end;
    bool_hyps; lia.
Qed.

Lemma KiAdjustPriorityBoost_correct_witness : 18 + KiAdjustPriorityBoost 18 5 = PRIORITY_NORMAL_MAX.
Proof. rewrite (KiAdjustPriorityBoost_correct 18 5); [reflexivity|unfold PRIORITY_REALTIME_MAX; lia|lia]. Defined.
